(* ===== verification/_CoqProject ===== *)
-Q . S2P
Prelude.v
Machine.v
Runtime.v
BootInfo.v
PageAlloc.v
Vm.v
VmInv.v
VmProps.v
VmReclaim.v
VmKernel.v
Outcome.v
Dtb.v
DtbProps.v
Plic.v
KList.v
Ring.v
Log.v
Pipe.v
HeapSpec.v
Heap.v
HeapProps.v
HeapThms.v
HeapInstance.v
Ownership.v
Bench.v
Vfs.v
VfsInit.v
VfsTree.v
VfsInv.v
VfsBuild.v
VfsFiles.v
VfsOpen.v
VfsOpenat.v
VfsThms.v
VfsPipe.v
VfsIo.v
Scheduler.v
SchedulerProps.v
SchedulerThms.v
AddressSpace.v
AddressSpaceInv.v
AddressSpaceProps.v
AddressSpaceClone.v
AddressSpaceAreas.v
AddressSpaceMaps.v
AddressSpaceBrk.v
AddressSpaceCopy.v
AddressSpaceThms.v
Elf.v
ElfInv.v
ElfProps.v
ElfLoad.v
ElfStack.v
ElfThms.v
World.v
Process.v
Fd.v
Wakes.v
User.v
Trap.v
FdProps.v
FdCalls.v
FdIo.v
ProcessInv.v
FdThms.v
ProcessFork.v
ProcessExec.v
ProcessFamily.v
ProcessThms.v
FamilyThms.v
UserInv.v
UserThms.v
TrapThms.v
