(* ===== verification/Prelude.v ===== *)
(** * MiniCore: a verification library

    MiniCore ([src/], C) is a small RISC-V kernel for QEMU's [virt] board: one
    hart, Sv39 paging, a page allocator and slab heap, preemptive threads,
    processes with their own address spaces, an in-memory file system with
    pipes, and a device-tree parser that tells it what machine it runs on.
    This library models the kernel's code as Rocq functions and proves what the
    code promises.  Every definition that models code has the name of the C
    function or type; loops are [Fixpoint]s with fuel where C loops on a
    condition, and a result [None] (or [OutOfFuel]) that the theorems exclude.

    ** The parts and the files that model them

    - [Prelude]: machine-width integers as [Z] with wrap-around written out
      ([u64], [u32], [s64], [not64]), bit masks, shared list lemmas, tactics.
    - [Machine]: memory as bytes with little-endian loads and stores, the direct
      map ([layout.h]), the kernel state [kstate] (memory, allocator variables,
      the supervisor status register), interrupt flag ([csr.h], [sync.c]).
    - [Runtime]: [runtime.c] ([memcpy], [memmove], [memset], [memcmp], [strlen]).
    - [BootInfo], [PageAlloc]: the boot information and [mm/page_alloc.c]; the
      free list is threaded through the free pages themselves.
    - [Vm]: all of [mm/vm.c] over page tables in memory.  [VmInv] is the
      representation invariant (a finite map from index paths to table pages),
      [VmProps] mapping, unmapping, translation and isolation, [VmReclaim]
      destruction and pruning, [VmKernel] the kernel's own map.
    - [Dtb], [DtbProps]: all of [platform/dtb.c]; a read outside the blob is a
      fault of the model.
    - [KList], [Ring], [Log], [Pipe]: [kernel/list.h] and [kernel/refcount.h] at
      pointer level, ring buffers, [kernel/log.c] and [fs/pipe.c].
    - [HeapSpec]: the interface of the kernel heap, as the class [KernelHeap] of
      its operations and the class [HeapContract] of what clients rely on.
      [Heap], [HeapProps], [HeapThms] are [mm/heap.c] at byte level;
      [HeapInstance] proves that it meets the contract.
    - [Scheduler], [SchedulerProps], [SchedulerThms]: [kernel/scheduler.c] and the
      wait queues of [kernel/sync.c], as operations on a table of threads.
    - [AddressSpace]: all of [mm/address_space.c].  [AddressSpaceInv] relates
      page table, ledger, areas and allocators; [AddressSpaceProps] adding and
      removing pages; [AddressSpaceClone], [AddressSpaceAreas],
      [AddressSpaceMaps], [AddressSpaceBrk], [AddressSpaceCopy] treat cloning,
      unmapping, mapping, the program break and user memory;
      [AddressSpaceThms] has the theorems and a machine they are applied to.
    - [Outcome]: results that may also be faults or out of fuel, with their bind.
      [Ownership]: the division of the pages between heap and others, and the
      memory that a client may rely on.  [Bench]: a small booted machine.
    - [Vfs], [VfsInit]: all of [fs/vfs.c] (tree, path resolution, regular files,
      devices, open descriptions; the archive and the mounts).  [VfsTree] proves
      path resolution, [VfsInv] is the invariant, [VfsBuild] treats initialisation
      and shutdown, [VfsFiles] reading and writing, [VfsOpen] opening and closing,
      [VfsOpenat] which file a path and flags open and with what answer,
      [VfsPipe] pipes through open files, [VfsIo] transfers of every kind of file;
      [VfsThms] has the theorems.  The console is the class [Backends].
    - [Elf]: all of [kernel/elf.c].  [ElfInv] puts an address space beside the file
      system, [ElfProps] treats one segment, [ElfLoad] the program headers,
      [ElfStack] the initial stack; [ElfThms] has the theorem and a program.
    - [Process]: all of [kernel/process.c], and the instance of what the scheduler
      calls back.  [World] puts any number of address spaces and objects beside the
      file system, [ProcessInv] has the invariants of processes and their families;
      [ProcessFork], [ProcessExec], [ProcessFamily] treat [fork], [exec], and
      [exit], [waitpid] and reaping; [ProcessThms] and [FamilyThms] have the theorems.
    - [Fd]: all of [kernel/fd.c].  [FdProps] has the counts of references, [FdCalls]
      the calls on descriptors, [FdIo] the transfers; [FdThms] has the theorem.
    - [Wakes]: which wait queues the calls on files, descriptors and processes wake,
      where they sleep, and the agreement of pipes and scheduler on who waits where.
    - [User]: [kernel/user.c], from the system call to the start of the first program.
      [UserInv] treats the calls one by one, [UserThms] the dispatch.
    - [Trap], [TrapThms]: [arch/riscv/trap.c] and the theorem about every trap of a
      user program.
    - [Plic]: [platform/plic.c].

    ** How the parts interact

    Everything that takes pages shares [kstate]: the theorems say which pages a
    component owns, that the division of the machine's pages between free list,
    heap, tables, ledgers and others is kept, and that nothing outside the
    component's pages changes.  Address spaces, files, processes and system calls are
    proved against the class [HeapContract], not against the slab code; [mmap] sees
    files as the class [FileAccess], which [User.vfs_access] implements with the file
    system; the scheduler sees processes as the class [ProcessSystem], which [Process]
    implements.  [World.world] is the state of the whole kernel: the file system with
    its reference counts, the address spaces of all processes, the objects in use and
    the pages of the kernel itself share the machine without overlap.
    [acting] adds the process that runs, [UserThms.scheduled] the threads.

    A call that sleeps ends as [Asleep], [Blocked], [WaitAsleep], [Transferring],
    [Waiting] or [Yielded], in the state in which another thread goes on; the code
    after the sleep tries again, which is the same function once more
    ([User.resume_syscall]).  A thread that sleeps in a transfer holds its file.  A pipe
    has the list of its sleeping threads ([Pipe]), and the scheduler has the queues of
    pipes as it has those of [waitpid]: [Wakes.coupled] says that they agree.  The calls
    of [wait_queue_wake_all] that pipes make are collected in [woken] and reach the
    scheduler when the system call ends or sleeps ([Process.settle_wakes]); no other
    thread can run before, as system calls run with interrupts off.

    ** What the theorems show

    - Page allocator: initialisation frees exactly the usable pages, never a
      reserved one; it then behaves as a stack of pages.
    - Page tables: [vm_query] after [vm_map], [vm_unmap], [vm_protect]; isolation
      between tables; conservation of pages; complete reclamation; the kernel map
      is the direct map asked for and has no page both writable and executable.
    - Device tree: the parser is total and never reads outside the blob; what
      it reports is well formed; bus address translation.
    - Heap: [kmalloc] and [kfree] for every size, including exhaustion; objects
      never overlap; empty slabs go back.
    - Scheduler: consistency over all operation sequences, round robin, bounded
      waiting, wake-ups, reaping.
    - Pipes, lists, log: refinement of queues and lists; no lost wake-up.
    - Address spaces: clone, destroy, [mmap], [munmap], [brk] on every branch,
      with the invariant and atomicity; copies to and from user memory, their
      agreement with validation, and the round trip.
    - File system: resolution terminates and stays below the root, for any links;
      [getcwd] inverts it; opening, reading, writing, seeking, listing and closing on
      every branch; writes are read back; initialisation is total on every archive
      and reads only the archive; shutdown gives everything back.
    - ELF loader: a successful load is the image of a valid executable, with rights,
      entry point and stack as the ABI wants them; a failure gives everything back.
    - Descriptors: every call, with any arguments, keeps the reference counts of open
      files equal to the number of descriptors that name them, stays inside its own
      buffers and touches no page of another process.
    - Processes: [fork] makes a copy that shares nothing but open files, or changes
      nothing; [exec] replaces the program or leaves it as it was; [exit], [waitpid]
      and the reaping of threads keep the family tree and give everything back.
    - Traps: whatever a user program traps for, the kernel attends to it, all the
      invariants above hold again, and the program goes on as it should, also when the
      call sleeps: the thread is where its waking will find it, and the rest of the
      call ends with the result in its register.
    - Interrupt controller: enabling and disabling sources, inside the window of the
      device.

    ** Fuel

    Walks over the slabs of a class are bounded by the number of pages; the
    [munmap] loop by the number of areas plus two; user copies by the pages of the
    range plus two; the first-fit scan by the pages of the mapping region; the
    device-tree walks by the size of the blob; path resolution by nine paths (the
    eight links it follows at most) of [PATH_LIMIT] characters; file transfers by the
    sixteen blocks of a file plus one, and in pieces by the number of bytes; the copy of
    a segment by its pages; argument vectors by their maximal length.  Each theorem
    about such a loop says that it returns.

    ** What the code does not do

    [vm.c] takes some addresses for canonical that the hardware does not, which no
    caller passes.  [process_exit] hands orphans to a first process that has itself
    ended, and does not wake the first process when the orphan has already ended
    ([FamilyThms] runs both; the theorems on [exit] and on traps assume that the first
    process has not ended, [init_runs]).  [plic_init] does not relate the
    size of the window to the hart ([Plic.plic_init_ninth_hart]).

    ** What is not modelled

    Context switches and trap entry (assembly); device registers and firmware calls
    (UART, SBI); TLB and instruction-cache maintenance, which have no effect the model
    observes; concurrency beyond interrupt exclusion, as the kernel runs on one
    hart.  Ledger and area records are values with the address of the heap
    object that holds them: [KList] shows that the intrusive lists behave as
    lists, and the records' bytes are not shared with anything else; the
    same holds of vnodes, open descriptions, processes and threads, while file data,
    the archive, user pages, page tables, trap frames and local buffers are bytes of
    memory.  The boot sequence of [main.c] is a list of the initialisations, modelled
    with their components, and of self tests; self tests ([m4_test.c], the [run_]
    functions of [user.c], the test half of [trap.c]) and the programs under [user/]
    are not part of the kernel's service.  The theorem on traps leaves out [SYS_EXEC],
    whose arguments the kernel copies into an object of its heap: the heap's contract
    has no rule for writing into an object; [process_exec] itself is proved with
    its arguments outside the heap. *)
From stdpp Require Export base tactics option list gmap.
From Stdlib Require Export ZArith Lia Bool Permutation.
From coqutil Require Import Z.BitOps.

#[export] Set Default Goal Selector "!".
Global Open Scope Z_scope.

(** * Machine-width integers

    C's unsigned types are [Z] values kept in range; the wrap-around of an
    operation that may overflow is written out with [u64] or [u32]. *)

Definition u64 (x : Z) : Z := x mod 2 ^ 64.
Definition u32 (x : Z) : Z := x mod 2 ^ 32.
Definition u16 (x : Z) : Z := x mod 2 ^ 16.
Definition u8 (x : Z) : Z := x mod 2 ^ 8.
(** The conversion of a [uint64_t] to [int64_t]. *)
Definition s64 (x : Z) : Z := if x <? 2 ^ 63 then x else x - 2 ^ 64.
(** [~x] on a [uint64_t]. *)
Definition not64 (x : Z) : Z := 2 ^ 64 - 1 - x.

Abbreviation UINT64_MAX := 18446744073709551615 (only parsing).
Abbreviation UINT32_MAX := 4294967295 (only parsing).
Abbreviation INT64_MAX := 9223372036854775807 (only parsing).

#[global] Arguments u64 : simpl never.
#[global] Arguments u32 : simpl never.
#[global] Arguments not64 : simpl never.

Definition in_u64 (x : Z) : Prop := 0 <= x < 2 ^ 64.

(** * Tactics of the development *)

(** [lia] after replacing divisions and remainders by their equations. *)
Ltac div_lia := Z.to_euclidean_division_equations; lia.

(** Split the first [if]/[match] on a boolean or pair in the goal. *)
Ltac case_if :=
  match goal with
  | |- context [if ?b then _ else _] => let E := fresh "E" in destruct b eqn:E
  end.

Ltac case_if_in H :=
  match type of H with
  | context [if ?b then _ else _] => let E := fresh "E" in destruct b eqn:E
  end.

(** Reduce boolean connectives only. *)
Ltac bsimpl := cbn [orb andb negb].

(** Open the call whose result pair a hypothesis or goal takes apart. *)
Ltac open_call x s E :=
  match goal with
  | |- context [let '(_, _) := ?e in _] => destruct e as [x s] eqn:E
  end.

(** * Bit-level facts *)

Create HintDb bits.

Lemma u64_small x : in_u64 x → u64 x = x.
Proof. intros. apply Z.mod_small. exact H. Qed.

Lemma u64_range x : in_u64 (u64 x).
Proof. apply Z.mod_pos_bound. lia. Qed.

Lemma land_low (x : Z) (n : Z) : 0 <= n → Z.land x (2 ^ n - 1) = x mod 2 ^ n.
Proof. intros Hn. rewrite <- Z.land_ones by lia. rewrite Z.ones_equiv. done. Qed.

Lemma land_page_mask x : Z.land x 4095 = x mod 4096.
Proof. exact (land_low x 12 ltac:(lia)). Qed.

Lemma land_one x : Z.land x 1 = x mod 2.
Proof. exact (land_low x 1 ltac:(lia)). Qed.

Lemma land_not_low x n :
  0 <= n <= 64 → in_u64 x → Z.land x (not64 (2 ^ n - 1)) = x - x mod 2 ^ n.
Proof.
  intros Hn Hx. unfold not64, in_u64 in *.
  replace (2 ^ 64 - 1 - (2 ^ n - 1)) with (Z.shiftl (Z.ones (64 - n)) n).
  2: { rewrite Z.shiftl_mul_pow2, Z.ones_equiv by lia.
       replace (2 ^ 64) with (2 ^ (64 - n) * 2 ^ n).
       - lia.
       - rewrite <- Z.pow_add_r by lia. f_equal. lia. }
  replace (x - x mod 2 ^ n) with (Z.shiftl (Z.shiftr x n) n).
  2: { rewrite Z.shiftl_mul_pow2, Z.shiftr_div_pow2 by lia.
       pose proof (Z.div_mod x (2 ^ n) ltac:(lia)). lia. }
  replace x with (x mod 2 ^ 64) by (apply Z.mod_small; lia).
  apply Z.bits_inj'. intros i Hi. rewrite Z.land_spec, !Z.shiftl_spec by lia.
  destruct (Z.ltb_spec i n).
  - rewrite !(Z.testbit_neg_r _ (i - n)) by lia. apply andb_false_r.
  - rewrite Z.shiftr_spec by lia. replace (i - n + n) with i by lia.
    destruct (Z.ltb_spec i 64).
    + rewrite Z.ones_spec_low by lia. apply andb_true_r.
    + rewrite Z.mod_pow2_bits_high by lia. done.
Qed.

Lemma land_not_page_mask x : in_u64 x → Z.land x (not64 4095) = x - x mod 4096.
Proof. exact (land_not_low x 12 ltac:(lia)). Qed.

(** Testing one bit with a mask. *)
Lemma land_bit x i : 0 <= i → (Z.land x (2 ^ i) =? 0) = negb (Z.testbit x i).
Proof.
  intros Hi. destruct (Z.testbit x i) eqn:E; cbn [negb].
  - apply Z.eqb_neq. intros Hz. assert (Z.testbit (Z.land x (2 ^ i)) i = false) as Hf by (rewrite Hz; apply Z.bits_0).
    by rewrite Z.land_spec, E, Z.pow2_bits_true in Hf by done.
  - apply Z.eqb_eq, Z.bits_inj'. intros j Hj. rewrite Z.land_spec, Z.bits_0.
    destruct (decide (j = i)) as [->|Hne]; [by rewrite E|]. rewrite Z.pow2_bits_false by lia. apply andb_false_r.
Qed.

(** Bits outside a mask, excluded with its complement. *)
Lemma mask_bits x m i :
  0 <= m < 2 ^ 32 → 0 <= i < 32 → Z.land x (UINT32_MAX - m) = 0 → Z.testbit x i = true → Z.testbit m i = true.
Proof.
  intros Hm Hi Hx Ht. assert (Z.testbit (Z.land x (UINT32_MAX - m)) i = false) as Hz by (rewrite Hx; apply Z.bits_0).
  rewrite Z.land_spec, Ht in Hz. cbn [andb] in Hz. change UINT32_MAX with (Z.ones 32) in Hz.
  rewrite Z.sub_nocarry_ldiff, Z.ldiff_spec, Z.ones_spec_low in Hz by
    (lia || (apply Z.bits_inj'; intros j Hj; rewrite Z.ldiff_spec, Z.bits_0; destruct (decide (j < 32));
      [rewrite Z.ones_spec_low by lia; apply andb_false_r|];
      rewrite <- (Z.mod_small m (2 ^ 32)) by done; by rewrite Z.mod_pow2_bits_high by lia)).
  by apply negb_false_iff in Hz.
Qed.

(** Joining a shifted field with a value below it is addition. *)
Lemma lor_field (p f n : Z) :
  0 <= n → 0 <= f < 2 ^ n → Z.lor (p * 2 ^ n) f = p * 2 ^ n + f.
Proof.
  intros Hn Hf. apply or_to_plus.
  rewrite <- (Z.mod_small f (2 ^ n)), <- Z.shiftl_mul_pow2 by lia.
  apply Z.bits_inj'. intros i Hi. rewrite Z.land_spec, Z.shiftl_spec, Z.bits_0 by lia.
  destruct (Z.ltb_spec i n).
  - rewrite (Z.testbit_neg_r _ (i - n)) by lia. done.
  - rewrite Z.mod_pow2_bits_high by lia. apply andb_false_r.
Qed.

(** Masking the [b]-bit field at position [a]. *)
Lemma land_field (x a b : Z) :
  0 <= a → 0 <= b →
  Z.land x (Z.shiftl (Z.ones b) a) = (x / 2 ^ a) mod 2 ^ b * 2 ^ a.
Proof.
  intros Ha Hb. rewrite <- Z.land_ones, <- Z.shiftr_div_pow2, <- Z.shiftl_mul_pow2 by lia.
  apply Z.bits_inj'. intros i Hi.
  rewrite Z.land_spec, !Z.shiftl_spec, Z.land_spec by lia.
  destruct (Z.ltb_spec i a).
  - rewrite !(Z.testbit_neg_r _ (i - a)) by lia. apply andb_false_r.
  - rewrite Z.shiftr_spec by lia. by replace (i - a + a) with i by lia.
Qed.

(** A mask below [2 ^ n] only sees the low [n] bits. *)
Lemma land_mask_low (x k n : Z) :
  0 <= n → 0 <= k < 2 ^ n → Z.land x k = Z.land (x mod 2 ^ n) k.
Proof.
  intros Hn Hk. rewrite <- (Z.mod_small k (2 ^ n)) by lia.
  apply Z.bits_inj'. intros i Hi. rewrite !Z.land_spec.
  destruct (Z.ltb_spec i n).
  - rewrite !Z.mod_pow2_bits_low by lia. done.
  - rewrite !Z.mod_pow2_bits_high by lia. by rewrite !andb_false_r.
Qed.

(** * Lists and finite maps *)

Lemma NoDup_app_swap {A} (l k : list A) : NoDup (l ++ k) → NoDup (k ++ l).
Proof. intros H. by rewrite (Permutation_app_comm k l). Qed.

(** The values of a finite map, as a list. *)
Definition map_vals {K A} `{Countable K} (m : gmap K A) : list A := (map_to_list m).*2.

Lemma map_vals_insert {K A} `{Countable K} (m : gmap K A) k x :
  m !! k = None → map_vals (<[k := x]> m) ≡ₚ x :: map_vals m.
Proof. intros Hk. unfold map_vals. rewrite map_to_list_insert by done. done. Qed.

Lemma map_vals_delete {K A} `{Countable K} (m : gmap K A) k x :
  m !! k = Some x → map_vals m ≡ₚ x :: map_vals (delete k m).
Proof.
  intros Hk. rewrite <- map_vals_insert by (apply lookup_delete_eq).
  by rewrite insert_delete_eq, insert_id.
Qed.

Lemma elem_of_map_vals {K A} `{Countable K} (m : gmap K A) x :
  x ∈ map_vals m ↔ ∃ k, m !! k = Some x.
Proof.
  unfold map_vals. rewrite list_elem_of_fmap. split.
  - intros [[k y] [-> Hy]]. exists k. by apply elem_of_map_to_list in Hy.
  - intros [k Hk]. exists (k, x). split; [done|]. by apply elem_of_map_to_list.
Qed.

(** A filter that every element passes. *)
Lemma filter_all_kept {A} (P : A → Prop) `{∀ x, Decision (P x)} (l : list A) : (∀ x, x ∈ l → P x) → filter P l = l.
Proof.
  induction l as [|x l IH]; intros Hl; [done|]. rewrite filter_cons, decide_True by (apply Hl; by left).
  f_equal. apply IH. intros y Hy. apply Hl. by right.
Qed.
