(* ===== verification/Machine.v ===== *)
(** The machine the kernel runs on: byte memory addressed by kernel virtual
    pointers, the supervisor CSRs the C code touches, the direct map of
    [src/mm/layout.h], and the record [kstate] that holds this state together
    with the static variables of the page allocator. *)
From S2P Require Import Prelude.

(** * Byte memory

    [m !! a] is the byte at kernel virtual address [a].  The map is an
    arbitrary value of the model, so uninitialised memory is any memory. *)

Abbreviation memory := (gmap Z Z).

(** The address of a [struct wait_queue]: the object it is a member of, and its offset
    there. *)
Abbreviation wait_queue := (Z * Z)%type.

Definition load8 (m : memory) (a : Z) : Z := default 0 (m !! a) mod 256.
Definition store8 (m : memory) (a v : Z) : memory := <[a := v mod 256]> m.

(** Little-endian accesses of [n] bytes. *)
Fixpoint load_le (m : memory) (a : Z) (n : nat) : Z :=
  match n with
  | O => 0
  | S n' => load8 m a + 256 * load_le m (a + 1) n'
  end.

Fixpoint store_le (m : memory) (a : Z) (n : nat) (v : Z) : memory :=
  match n with
  | O => m
  | S n' => store_le (store8 m a v) (a + 1) n' (v / 256)
  end.

Definition load64 (m : memory) (a : Z) : Z := load_le m a 8.
Definition store64 (m : memory) (a v : Z) : memory := store_le m a 8 v.

(** [m'] holds the same bytes as [m] at every address of [P]. *)
Definition same_on (P : Z → Prop) (m m' : memory) : Prop :=
  ∀ a, P a → load8 m' a = load8 m a.

#[export] Instance same_on_equiv P : Equivalence (same_on P).
Proof.
  split.
  - intros m a _. done.
  - intros m m' H a Ha. by rewrite H.
  - intros m1 m2 m3 H1 H2 a Ha. by rewrite H2, H1.
Qed.

Lemma same_on_weaken (P Q : Z → Prop) m m' :
  (∀ a, Q a → P a) → same_on P m m' → same_on Q m m'.
Proof. intros HQ H a Ha. auto. Qed.

Lemma load8_range m a : 0 <= load8 m a < 256.
Proof. apply Z.mod_pos_bound. lia. Qed.

Lemma load8_store8 m a b v :
  load8 (store8 m a v) b = if decide (a = b) then v mod 256 else load8 m b.
Proof.
  unfold load8, store8. rewrite lookup_insert.
  case_decide; [|done]. simpl. by rewrite Z.mod_mod.
Qed.

Lemma load8_store_le_out m a n v b :
  ¬ (a <= b < a + Z.of_nat n) → load8 (store_le m a n v) b = load8 m b.
Proof.
  revert m a v. induction n as [|n IH]; intros m a v Hb; simpl; [done|].
  rewrite IH by lia. rewrite load8_store8, decide_False by lia. done.
Qed.

Lemma load_le_ext m m' a n :
  (∀ b, a <= b < a + Z.of_nat n → load8 m' b = load8 m b) →
  load_le m' a n = load_le m a n.
Proof.
  revert a. induction n as [|n IH]; intros a H; simpl; [done|].
  rewrite H by lia. rewrite IH; [done|]. intros b Hb. apply H. lia.
Qed.

Lemma load_le_range m a n : 0 <= load_le m a n < 256 ^ Z.of_nat n.
Proof.
  revert a. induction n as [|n IH]; intros a; simpl load_le; [lia|].
  specialize (IH (a + 1)). pose proof (load8_range m a).
  rewrite Nat2Z.inj_succ, Z.pow_succ_r by lia. lia.
Qed.

Lemma load_le_store_le m a n v :
  load_le (store_le m a n v) a n = v mod 256 ^ Z.of_nat n.
Proof.
  revert m a v. induction n as [|n IH]; intros m a v; simpl load_le; simpl store_le.
  { change (256 ^ Z.of_nat 0) with 1. by rewrite Z.mod_1_r. }
  rewrite load8_store_le_out by lia. rewrite load8_store8, decide_True by done.
  rewrite IH, Nat2Z.inj_succ, Z.pow_succ_r by lia.
  rewrite (Z.rem_mul_r v 256) by lia. done.
Qed.

Lemma load64_range m a : in_u64 (load64 m a).
Proof. apply (load_le_range m a 8). Qed.

Lemma load64_store64_eq m a v : in_u64 v → load64 (store64 m a v) a = v.
Proof.
  intros Hv. unfold load64, store64. rewrite load_le_store_le. by apply Z.mod_small.
Qed.

Lemma load64_ext m m' a :
  (∀ b, a <= b < a + 8 → load8 m' b = load8 m b) → load64 m' a = load64 m a.
Proof. apply (load_le_ext m m' a 8). Qed.

(** Equal bytes at different addresses. *)
Lemma load_le_shift m m' a a' n :
  (∀ k, 0 <= k < Z.of_nat n → load8 m' (a' + k) = load8 m (a + k)) →
  load_le m' a' n = load_le m a n.
Proof.
  revert a a'. induction n as [|n IH]; intros a a' H; simpl; [done|].
  rewrite (IH (a + 1) (a' + 1)).
  - specialize (H 0 ltac:(lia)). rewrite !Z.add_0_r in H. by rewrite H.
  - intros k Hk. specialize (H (k + 1) ltac:(lia)).
    by rewrite <- !Z.add_assoc, !(Z.add_comm 1).
Qed.

Lemma load64_shift m m' a a' :
  (∀ k, 0 <= k < 8 → load8 m' (a' + k) = load8 m (a + k)) → load64 m' a' = load64 m a.
Proof. apply (load_le_shift m m' a a' 8). Qed.

Lemma load8_store64_out m a v b :
  ¬ (a <= b < a + 8) → load8 (store64 m a v) b = load8 m b.
Proof. apply (load8_store_le_out m a 8 v b). Qed.

Lemma load64_store64_ne m a b v :
  a + 8 <= b ∨ b + 8 <= a → load64 (store64 m a v) b = load64 m b.
Proof. intros H. apply load64_ext. intros c Hc. apply load8_store64_out. lia. Qed.

#[global] Arguments load64 : simpl never.
#[global] Arguments store64 : simpl never.
#[global] Arguments load8 : simpl never.
#[global] Arguments store8 : simpl never.
#[global] Opaque load64 store64.

(** * The direct map, [src/mm/layout.h] *)

Abbreviation PAGE_SIZE := 4096 (only parsing).
Abbreviation PAGE_MASK := 4095 (only parsing).
Abbreviation KERNEL_DIRECT_BASE := 18446743798831644672 (only parsing).

Definition phys_to_virt (physical : Z) : Z := u64 (KERNEL_DIRECT_BASE + physical).
Definition virt_to_phys (virtual_address : Z) : Z :=
  u64 (virtual_address - KERNEL_DIRECT_BASE).

#[global] Arguments phys_to_virt : simpl never.
#[global] Arguments virt_to_phys : simpl never.

(** A physical page the direct map reaches: nonzero, page-aligned and below the
    256 GiB that lie between [KERNEL_DIRECT_BASE] and the top of memory. *)
Definition page_ok (p : Z) : Prop := 0 < p < 2 ^ 38 ∧ p mod PAGE_SIZE = 0.

#[export] Instance page_ok_dec p : Decision (page_ok p).
Proof. unfold page_ok. apply _. Defined.

Lemma phys_to_virt_page p : 0 <= p < 2 ^ 38 → phys_to_virt p = KERNEL_DIRECT_BASE + p.
Proof. intros. unfold phys_to_virt. apply u64_small. unfold in_u64. lia. Qed.

Lemma virt_phys p : in_u64 p → virt_to_phys (phys_to_virt p) = p.
Proof.
  intros Hp. unfold virt_to_phys, phys_to_virt, u64, in_u64 in *.
  rewrite Zminus_mod_idemp_l. replace (_ + p - _) with p by lia. by apply Z.mod_small.
Qed.

Lemma phys_to_virt_nonzero p : page_ok p → phys_to_virt p ≠ 0.
Proof. intros [Hp _]. rewrite phys_to_virt_page; lia. Qed.

(** The bytes of the page [p], by the pointers that reach them. *)
Definition in_page (p a : Z) : Prop := phys_to_virt p <= a < phys_to_virt p + PAGE_SIZE.

Definition outside (pages : list Z) (a : Z) : Prop := ∀ p, p ∈ pages → ¬ in_page p a.

Lemma in_page_disjoint p q a : page_ok p → page_ok q → in_page p a → in_page q a → p = q.
Proof.
  intros [Hp Hpa] [Hq Hqa] H1 H2. unfold in_page in *.
  rewrite phys_to_virt_page in H1, H2 by lia. div_lia.
Qed.

(** * Supervisor CSRs, [src/arch/riscv/csr.h] *)

Abbreviation SSTATUS_SIE := 2 (only parsing).
Abbreviation SSTATUS_SPIE := 32 (only parsing).
Abbreviation SSTATUS_SPP := 256 (only parsing).
Abbreviation SIE_STIE := 32 (only parsing).

(** Machine state plus the statics of [src/mm/page_alloc.c]. *)
Record kstate := mk_kstate {
  mem : memory;
  sstatus : Z;
  sie : Z;
  satp : Z;
  free_list : Z;      (* struct free_page *free_list *)
  free_pages : Z;
  total_pages : Z;
}.

Definition set_mem (m : memory) (s : kstate) : kstate :=
  mk_kstate m (sstatus s) (sie s) (satp s) (free_list s) (free_pages s) (total_pages s).
Definition set_sstatus (v : Z) (s : kstate) : kstate :=
  mk_kstate (mem s) v (sie s) (satp s) (free_list s) (free_pages s) (total_pages s).
Definition set_sie (v : Z) (s : kstate) : kstate :=
  mk_kstate (mem s) (sstatus s) v (satp s) (free_list s) (free_pages s) (total_pages s).
Definition set_satp (v : Z) (s : kstate) : kstate :=
  mk_kstate (mem s) (sstatus s) (sie s) v (free_list s) (free_pages s) (total_pages s).
Definition set_free (fl n : Z) (s : kstate) : kstate :=
  mk_kstate (mem s) (sstatus s) (sie s) (satp s) fl n (total_pages s).
Definition set_total (n : Z) (s : kstate) : kstate :=
  mk_kstate (mem s) (sstatus s) (sie s) (satp s) (free_list s) (free_pages s) n.

Definition csr_set_sstatus (bits : Z) (s : kstate) : kstate :=
  set_sstatus (Z.lor (sstatus s) bits) s.
Definition csr_clear_sstatus (bits : Z) (s : kstate) : kstate :=
  set_sstatus (Z.ldiff (sstatus s) bits) s.
Definition csr_set_sie (bits : Z) (s : kstate) : kstate :=
  set_sie (Z.lor (sie s) bits) s.
Definition csr_clear_sie (bits : Z) (s : kstate) : kstate :=
  set_sie (Z.ldiff (sie s) bits) s.

(** * Interrupt exclusion, [src/kernel/sync.c] *)

Definition irq_save (s : kstate) : Z * kstate :=
  let status := sstatus s in
  (status, csr_clear_sstatus SSTATUS_SIE s).

Definition irq_restore (flags : Z) (s : kstate) : kstate :=
  if negb (Z.land flags SSTATUS_SIE =? 0) then csr_set_sstatus SSTATUS_SIE s
  else csr_clear_sstatus SSTATUS_SIE s.

Definition irq_enabled (s : kstate) : bool := negb (Z.land (sstatus s) SSTATUS_SIE =? 0).

Lemma land_two_testbit x : (Z.land x 2 =? 0) = negb (Z.testbit x 1).
Proof.
  destruct (Z.testbit x 1) eqn:E; simpl.
  - apply Z.eqb_neq. intros H.
    assert (Z.testbit (Z.land x 2) 1 = false) as H1 by (by rewrite H).
    rewrite Z.land_spec, E in H1. done.
  - apply Z.eqb_eq. apply Z.bits_inj'. intros i Hi. rewrite Z.land_spec, Z.bits_0.
    destruct (decide (i = 1)) as [->|Hne]; [by rewrite E|].
    change 2 with (2 ^ 1). rewrite Z.pow2_bits_false by lia. apply andb_false_r.
Qed.

(** Restoring the flags that [irq_save] returned puts [sstatus] back exactly,
    whatever its other bits are: a critical section is invisible outside. *)
Lemma irq_restore_saved (v : Z) :
  (if negb (Z.land v SSTATUS_SIE =? 0) then Z.lor (Z.ldiff v SSTATUS_SIE) SSTATUS_SIE
   else Z.ldiff (Z.ldiff v SSTATUS_SIE) SSTATUS_SIE) = v.
Proof.
  rewrite land_two_testbit, negb_involutive.
  apply Z.bits_inj'. intros i Hi. change 2 with (2 ^ 1).
  destruct (Z.testbit v 1) eqn:E; rewrite ?Z.lor_spec, !Z.ldiff_spec;
    (destruct (decide (i = 1)) as [->|];
     [rewrite Z.pow2_bits_true, E by lia; done|rewrite Z.pow2_bits_false by lia]);
    by rewrite ?andb_true_r, ?orb_false_r.
Qed.

Lemma irq_section (s s' : kstate) :
  sstatus s' = Z.ldiff (sstatus s) SSTATUS_SIE →
  irq_restore (sstatus s) s' = set_sstatus (sstatus s) s'.
Proof.
  intros H. unfold irq_restore, csr_set_sstatus, csr_clear_sstatus. rewrite H.
  pose proof (irq_restore_saved (sstatus s)) as R.
  destruct (negb _); by rewrite R.
Qed.

Lemma set_sstatus_id s : set_sstatus (sstatus s) s = s.
Proof. by destruct s. Qed.
