(* ===== verification/Runtime.v ===== *)
(** [src/runtime.c]: the freestanding memory and string routines.  The writers
    run on the byte memory of [Machine]; the readers take the bytes behind a
    pointer as a function of the offset, so that they apply to memory, to a
    string literal and to the device-tree blob alike. *)
From S2P Require Import Prelude Machine.

(** [while (n--) *d++ = *s++;] *)
Fixpoint memcpy (m : memory) (d s : Z) (n : nat) : memory :=
  match n with
  | O => m
  | S n' => memcpy (store8 m d (load8 m s)) (d + 1) (s + 1) n'
  end.

(** [while (n--) *--d = *--s;] *)
Fixpoint copy_down (m : memory) (d s : Z) (n : nat) : memory :=
  match n with
  | O => m
  | S n' => copy_down (store8 m (d - 1) (load8 m (s - 1))) (d - 1) (s - 1) n'
  end.

Definition memmove (m : memory) (dst src : Z) (n : nat) : memory :=
  if dst <? src then memcpy m dst src n
  else if src <? dst then copy_down m (dst + Z.of_nat n) (src + Z.of_nat n) n
  else m.

Fixpoint memset (m : memory) (d : Z) (value : Z) (n : nat) : memory :=
  match n with
  | O => m
  | S n' => memset (store8 m d value) (d + 1) value n'
  end.

(** Bytes behind a readable pointer. *)
Abbreviation buffer := (Z → Z).
Definition at_ptr (m : memory) (p : Z) : buffer := λ i, load8 m (p + i).
Definition at_off (b : buffer) (o : Z) : buffer := λ i, b (o + i).
(** A C string literal: its characters, then NUL. *)
Definition lit (l : list Z) : buffer := λ i, nth (Z.to_nat i) l 0.

Fixpoint memcmp_from (a b : buffer) (i : Z) (n : nat) : Z :=
  match n with
  | O => 0
  | S n' =>
      if negb (a i =? b i) then (if a i <? b i then -1 else 1)
      else memcmp_from a b (i + 1) n'
  end.
Definition memcmp (a b : buffer) (n : nat) : Z := memcmp_from a b 0 n.

(** [strlen] scans for the NUL; [fuel] bounds the scan and [None] means no NUL
    was met within it. *)
Fixpoint strlen_from (s : buffer) (n : Z) (fuel : nat) : option Z :=
  match fuel with
  | O => None
  | S f => if s n =? 0 then Some n else strlen_from s (n + 1) f
  end.
Definition strlen (s : buffer) (fuel : nat) : option Z := strlen_from s 0 fuel.

#[global] Arguments memcpy : simpl never.
#[global] Arguments memset : simpl never.

(** * Lemmas *)

Lemma memset_load8 m d v n a :
  load8 (memset m d v n) a
  = if decide (d <= a < d + Z.of_nat n) then v mod 256 else load8 m a.
Proof.
  revert m d. induction n as [|n IH]; intros m d.
  { rewrite decide_False by lia. done. }
  change (memset m d v (S n)) with (memset (store8 m d v) (d + 1) v n).
  rewrite IH, load8_store8.
  repeat case_decide; lia.
Qed.

Lemma memset_load64_zero m d n a :
  d <= a → a + 8 <= d + Z.of_nat n → load64 (memset m d 0 n) a = 0.
Proof.
  intros H1 H2. transitivity (load64 ∅ a); [|done].
  apply load64_ext. intros b Hb. rewrite memset_load8, decide_True by lia. done.
Qed.

Lemma memset_same_on P m d v n :
  (∀ a, P a → ¬ (d <= a < d + Z.of_nat n)) → same_on P m (memset m d v n).
Proof. intros H a Ha. rewrite memset_load8, decide_False; auto. Qed.

(** Copying upwards is right unless the destination starts inside the source. *)
Lemma memcpy_load8 m d s n a :
  d <= s ∨ s + Z.of_nat n <= d →
  load8 (memcpy m d s n) a
  = if decide (d <= a < d + Z.of_nat n) then load8 m (s + (a - d)) else load8 m a.
Proof.
  revert m d s. induction n as [|n IH]; intros m d s H.
  { rewrite decide_False by lia. done. }
  change (memcpy m d s (S n)) with (memcpy (store8 m d (load8 m s)) (d + 1) (s + 1) n).
  rewrite IH by lia. rewrite !load8_store8.
  pose proof (Z.mod_small (load8 m s) 256 (load8_range m s)) as Hm.
  destruct (decide (d = a)) as [<-|Hne].
  - rewrite decide_False, decide_True, Hm by lia. f_equal. lia.
  - destruct (decide (d + 1 <= a < d + 1 + Z.of_nat n)).
    + rewrite (decide_True (P := d <= a < _)) by lia.
      rewrite decide_False by lia. f_equal. lia.
    + rewrite (decide_False (P := d <= a < _)) by lia. done.
Qed.

Lemma copy_down_load8 m d s n a :
  s <= d →
  load8 (copy_down m d s n) a
  = if decide (d - Z.of_nat n <= a < d) then load8 m (s + (a - d)) else load8 m a.
Proof.
  revert m d s. induction n as [|n IH]; intros m d s H; simpl copy_down.
  { rewrite decide_False by lia. done. }
  rewrite IH by lia. rewrite !load8_store8.
  pose proof (Z.mod_small (load8 m (s - 1)) 256 (load8_range m (s - 1))) as Hm.
  destruct (decide (d - 1 = a)) as [<-|Hne].
  - rewrite decide_False, decide_True, Hm by lia. f_equal. lia.
  - destruct (decide (d - 1 - Z.of_nat n <= a < d - 1)).
    + rewrite (decide_True (P := d - Z.of_nat (S n) <= a < d)) by lia.
      rewrite decide_False by lia. f_equal. lia.
    + rewrite (decide_False (P := d - Z.of_nat (S n) <= a < d)) by lia. done.
Qed.

Lemma memcmp_from_zero a b i n :
  memcmp_from a b i n = 0 ↔ ∀ j, i <= j < i + Z.of_nat n → a j = b j.
Proof.
  revert i. induction n as [|n IH]; intros i; simpl.
  { split; [intros _ j Hj; lia|done]. }
  destruct (Z.eqb_spec (a i) (b i)) as [E|E]; simpl.
  - rewrite IH. split; intros H j Hj.
    + destruct (decide (j = i)) as [->|]; [done|]. apply H. lia.
    + apply H. lia.
  - split.
    + intros H. destruct (a i <? b i); done.
    + intros H. exfalso. apply E, H. lia.
Qed.

Lemma memcmp_zero a b n : memcmp a b n = 0 ↔ ∀ j, 0 <= j < Z.of_nat n → a j = b j.
Proof. unfold memcmp. rewrite memcmp_from_zero. done. Qed.

Lemma strlen_from_spec s i fuel n :
  strlen_from s i fuel = Some n ↔
  i <= n < i + Z.of_nat fuel ∧ s n = 0 ∧ ∀ j, i <= j < n → s j ≠ 0.
Proof.
  revert i. induction fuel as [|f IH]; intros i; simpl.
  { split; [done|lia]. }
  destruct (Z.eqb_spec (s i) 0) as [E|E].
  - split.
    + intros [= <-]. split; [lia|]. split; [done|]. lia.
    + intros (Hn & H0 & Hlt). destruct (decide (n = i)) as [->|]; [done|].
      exfalso. apply (Hlt i); [lia|done].
  - rewrite IH. split; intros (Hn & H0 & Hlt).
    + split; [lia|]. split; [done|]. intros j Hj.
      destruct (decide (j = i)) as [->|]; [done|]. apply Hlt. lia.
    + split.
      * destruct (decide (n = i)) as [->|]; [done|lia].
      * split; [done|]. intros j Hj. apply Hlt. lia.
Qed.

(** * Properties *)

(** [memmove] copies the bytes the source range held before the call, however
    the two ranges overlap, and writes nothing else. *)
Theorem memmove_correct (m : memory) (dst src : Z) (n : nat) (a : Z) :
  load8 (memmove m dst src n) a
  = if decide (dst <= a < dst + Z.of_nat n) then load8 m (src + (a - dst)) else load8 m a.
Proof.
  unfold memmove. destruct (Z.ltb_spec dst src).
  - apply memcpy_load8. lia.
  - destruct (Z.ltb_spec src dst).
    + rewrite copy_down_load8 by lia.
      replace (dst + Z.of_nat n - Z.of_nat n) with dst by lia.
      repeat case_decide; try lia. f_equal. lia.
    + assert (src = dst) as -> by lia. case_decide; [|done]. f_equal. lia.
Qed.

(** [memcmp] orders the ranges by their first differing byte. *)
Lemma memcmp_sign (a b : buffer) (n : nat) (k : Z) :
  0 <= k < Z.of_nat n →
  (∀ j, 0 <= j < k → a j = b j) → a k ≠ b k →
  memcmp a b n = if a k <? b k then -1 else 1.
Proof.
  unfold memcmp. intros Hk Heq Hne.
  cut (∀ i, 0 <= i <= k → k < i + Z.of_nat n → 
    memcmp_from a b i n = if a k <? b k then -1 else 1).
  { intros H. apply H; lia. }
  clear Hk. induction n as [|n IH]; intros i Hi Hn; simpl; [lia|].
  destruct (decide (i = k)) as [->|].
  - destruct (Z.eqb_spec (a k) (b k)); done.
  - rewrite (Heq i) by lia. rewrite Z.eqb_refl. simpl. apply IH; lia.
Qed.

(** [strlen] returns the position of the first NUL, and does return once the
    scan bound exceeds it. *)
Lemma strlen_spec (s : buffer) (fuel : nat) (n : Z) :
  strlen s fuel = Some n ↔ 0 <= n < Z.of_nat fuel ∧ s n = 0 ∧ ∀ j, 0 <= j < n → s j ≠ 0.
Proof. unfold strlen. rewrite strlen_from_spec. done. Qed.
