(* ===== verification/BootInfo.v ===== *)
(** [src/platform/dtb.h]: what the boot code learns from the device tree.  A
    fixed array with its count is the list of its used entries; the capacity
    checks of the code are made by the parser ([Dtb]). *)
From S2P Require Import Prelude.

Abbreviation BOOT_MAX_MEMORY_RANGES := 8 (only parsing).
Abbreviation BOOT_MAX_RESERVED_RANGES := 16 (only parsing).
Abbreviation BOOT_MAX_VIRTIO_DEVICES := 16 (only parsing).

Record physical_range := mk_range { base : Z; size : Z }.

#[export] Instance physical_range_eq_dec : EqDecision physical_range.
Proof. solve_decision. Defined.

Record boot_info := mk_boot_info {
  memory_ranges : list physical_range;
  reserved : list physical_range;
  uart : physical_range;
  uart_irq : Z;
  plic : physical_range;
  plic_source_count : Z;
  virtio : list physical_range;
  virtio_irqs : list Z;
  timebase_frequency : Z;
  dtb_base : Z;
  dtb_size : Z;
  uart_present : bool;
  plic_present : bool;
}.

(** [memset(info, 0, sizeof( *info))] *)
Definition boot_info_zero : boot_info :=
  mk_boot_info [] [] (mk_range 0 0) 0 (mk_range 0 0) 0 [] [] 0 0 0 false false.

(** A range whose end does not wrap. *)
Definition range_ok (r : physical_range) : Prop :=
  0 <= base r ∧ 0 <= size r ∧ base r + size r < 2 ^ 64.

Definition ranges_disjoint (r q : physical_range) : Prop :=
  base r + size r <= base q ∨ base q + size q <= base r.
