(* ===== verification/PageAlloc.v ===== *)
(** [src/mm/page_alloc.c]: the physical page allocator.  Free pages form a
    singly linked list threaded through their own first eight bytes; the model
    keeps that list in the byte memory, and [free_rep] relates it to the
    abstract stack of free pages that the rest of the library reasons with. *)
From S2P Require Import Prelude Machine BootInfo.

(** * The code *)

Definition align_up (value : Z) : Z :=
  if value >? UINT64_MAX - PAGE_MASK then Z.land UINT64_MAX (not64 PAGE_MASK)
  else Z.land (u64 (value + PAGE_MASK)) (not64 PAGE_MASK).

Definition overlaps (base end_ other_base other_size : Z) : bool :=
  if other_size =? 0 then false
  else
    let other_end := if other_base >? UINT64_MAX - other_size then UINT64_MAX
                     else u64 (other_base + other_size) in
    (base <? other_end) && (other_base <? end_).

Definition page_reserved (info : boot_info) (page kernel_start kernel_end
    dtb_start dtb_size firmware_start : Z) : bool :=
  let end_ := u64 (page + PAGE_SIZE) in
  if overlaps page end_ kernel_start (u64 (kernel_end - kernel_start))
     || overlaps page end_ dtb_start dtb_size
     || ((firmware_start <=? page) && (page <? kernel_start))
  then true
  else existsb (λ r, overlaps page end_ (base r) (size r)) (reserved info).

(** [node->next = free_list; free_list = node; ++free_pages] *)
Definition push_free (page : Z) (s : kstate) : kstate :=
  let node := phys_to_virt page in
  set_free node (u64 (free_pages s + 1)) (set_mem (store64 (mem s) node (free_list s)) s).

(** The first range that holds the kernel image also holds the firmware. *)
Fixpoint find_firmware (ranges : list physical_range) (kernel_start : Z) : Z :=
  match ranges with
  | [] => kernel_start
  | r :: rest =>
      let end_ := u64 (base r + size r) in
      if (base r <=? kernel_start) && (kernel_start <? end_) then base r
      else find_firmware rest kernel_start
  end.

(** The inner loop of [page_allocator_init]; [fuel] bounds the page count. *)
Fixpoint init_pages (fuel : nat) (is_reserved : Z → bool) (page end_ : Z) (s : kstate) : kstate :=
  match fuel with
  | O => s
  | S f =>
      if page <? end_ then
        if is_reserved page then init_pages f is_reserved (u64 (page + PAGE_SIZE)) end_ s
        else
          let s := push_free page s in
          let s := set_total (u64 (total_pages s + 1)) s in
          init_pages f is_reserved (u64 (page + PAGE_SIZE)) end_ s
      else s
  end.

Fixpoint init_ranges (is_reserved : Z → bool) (ranges : list physical_range) (s : kstate)
    : bool * kstate :=
  match ranges with
  | [] => (negb (free_pages s =? 0), s)
  | r :: rest =>
      let first := align_up (base r) in
      let raw_end := u64 (base r + size r) in
      let end_ := Z.land raw_end (not64 PAGE_MASK) in
      if raw_end <? base r then (false, s)
      else
        init_ranges is_reserved rest
          (init_pages (Z.to_nat ((end_ - first) / PAGE_SIZE)) is_reserved first end_ s)
  end.

Definition page_allocator_init (info : option boot_info)
    (kernel_start kernel_end dtb_start dtb_size : Z) (s : kstate) : bool * kstate :=
  match info with
  | None => (false, s)
  | Some info =>
      if kernel_start >=? kernel_end then (false, s)
      else
        let s := set_total 0 (set_free 0 0 s) in
        let firmware_start := find_firmware (memory_ranges info) kernel_start in
        init_ranges
          (λ page, page_reserved info page kernel_start kernel_end dtb_start dtb_size
                     firmware_start)
          (memory_ranges info) s
  end.

Definition page_alloc (s : kstate) : Z * kstate :=
  let '(flags, s) := irq_save s in
  let page := free_list s in
  if page =? 0 then (0, irq_restore flags s)
  else
    let s := set_free (load64 (mem s) page) (u64 (free_pages s - 1)) s in
    (virt_to_phys page, irq_restore flags s).

Definition page_free (physical : Z) (s : kstate) : kstate :=
  if negb (Z.land physical PAGE_MASK =? 0) || (physical =? 0) then s
  else
    let '(flags, s) := irq_save s in
    irq_restore flags (push_free physical s).

Definition page_free_count (s : kstate) : Z := free_pages s.
Definition page_total_count (s : kstate) : Z := total_pages s.

(** * Representation

    [chain m ptr l]: following the next pointers from [ptr] visits exactly the
    pages [l] and ends in NULL. *)

Fixpoint chain (m : memory) (ptr : Z) (l : list Z) : Prop :=
  match l with
  | [] => ptr = 0
  | p :: l' => ptr = phys_to_virt p ∧ chain m (load64 m ptr) l'
  end.

Record free_rep (s : kstate) (l : list Z) : Prop := {
  fr_chain : chain (mem s) (free_list s) l;
  fr_pages : Forall page_ok l;
  fr_nodup : NoDup l;
  fr_count : free_pages s = Z.of_nat (length l);
}.

Lemma chain_frame m m' ptr l :
  (∀ p, p ∈ l → same_on (in_page p) m m') → chain m ptr l → chain m' ptr l.
Proof.
  revert ptr. induction l as [|p l IH]; intros ptr H; simpl; [done|].
  intros [-> Hc]. split; [done|].
  replace (load64 m' (phys_to_virt p)) with (load64 m (phys_to_virt p)).
  { apply IH; [|done]. intros q Hq. apply H. set_solver. }
  symmetry. apply load64_ext. intros b Hr. apply (H p); [by left|]. unfold in_page. lia.
Qed.

(** The free list is only touched through its own pages. *)
Lemma free_rep_frame s s' l :
  free_list s' = free_list s → free_pages s' = free_pages s →
  (∀ p, p ∈ l → same_on (in_page p) (mem s) (mem s')) →
  free_rep s l → free_rep s' l.
Proof.
  intros Hl Hn Hm [Hc Hp Hd Hcnt]. split; [|done|done|by rewrite Hn].
  rewrite Hl. by eapply chain_frame.
Qed.

Lemma free_rep_length s l : free_rep s l → Z.of_nat (length l) < 2 ^ 26.
Proof.
  intros [_ Hp Hd _].
  set (k := (λ i : nat, (Z.of_nat i) * 4096) <$> seq 0 (Z.to_nat (2 ^ 26))).
  assert (l ⊆ k) as Hsub.
  { intros p Hpl. rewrite Forall_forall in Hp. apply list_elem_of_In in Hpl.
    specialize (Hp p). rewrite <- list_elem_of_In in Hpl. destruct (Hp Hpl) as [H1 H2].
    apply list_elem_of_fmap. exists (Z.to_nat (p / 4096)). split; [div_lia|].
    apply elem_of_seq. div_lia. }
  assert (0 ∉ l) as H0.
  { intros H. rewrite Forall_forall in Hp. destruct (Hp 0 H) as [? _]. lia. }
  assert (submseteq (0 :: l) k) as Hs.
  { apply NoDup_submseteq; [by constructor|]. intros x Hx.
    apply elem_of_cons in Hx as [->|Hx]; [|auto].
    apply list_elem_of_fmap. exists 0%nat. split; [done|]. apply elem_of_seq. lia. }
  apply submseteq_length in Hs. unfold k in Hs. rewrite length_fmap, length_seq in Hs.
  simpl in Hs. lia.
Qed.

(** * Behaviour of the operations on the represented list *)

Lemma page_alloc_empty s : free_rep s [] → page_alloc s = (0, s).
Proof.
  intros [Hc _ _ _]. simpl in Hc. unfold page_alloc, irq_save. simpl. rewrite Hc. simpl.
  rewrite irq_section by done. by destruct s.
Qed.

Lemma page_alloc_cons s p l :
  free_rep s (p :: l) →
  page_alloc s = (p, set_free (load64 (mem s) (phys_to_virt p)) (free_pages s - 1) s).
Proof.
  intros Hr. pose proof (free_rep_length _ _ Hr) as Hlen.
  destruct Hr as [[Hf Hc] Hp Hd Hn]. inversion Hp as [|? ? Hok _]; subst.
  unfold page_alloc, irq_save. simpl. rewrite Hf.
  destruct (Z.eqb_spec (phys_to_virt p) 0) as [E|_].
  { by apply phys_to_virt_nonzero in E. }
  rewrite irq_section by done. destruct Hok as [Hr Ha].
  rewrite virt_phys by (unfold in_u64; lia).
  rewrite u64_small by (unfold in_u64; rewrite Hn; simpl in *; lia). by destruct s.
Qed.

Lemma page_alloc_cons_rep s p l :
  free_rep s (p :: l) → free_rep (snd (page_alloc s)) l.
Proof.
  intros Hr. rewrite (page_alloc_cons _ _ _ Hr).
  destruct Hr as [[Hf Hc] Hp Hd Hn]. inversion Hp; inversion Hd; subst.
  split; simpl; [by rewrite <- Hf|done|done|]. rewrite Hn. simpl. lia.
Qed.

Lemma push_free_rep s p l :
  free_rep s l → page_ok p → p ∉ l → free_rep (push_free p s) (p :: l).
Proof.
  intros Hr Hok Hp. pose proof (free_rep_length _ _ Hr).
  destruct Hr as [Hc Hps Hd Hn]. split; simpl.
  - split; [done|]. rewrite load64_store64_eq.
    2: { destruct l as [|q l]; simpl in Hc; [rewrite Hc; unfold in_u64; lia|].
         destruct Hc as [-> _]. apply u64_range. }
    eapply chain_frame; [|exact Hc]. intros q Hq a Ha. apply load8_store64_out.
    intros Hin. apply Hp. replace p with q; [done|].
    rewrite Forall_forall in Hps. apply (in_page_disjoint _ _ a); auto.
    unfold in_page. lia.
  - by constructor.
  - by constructor.
  - rewrite u64_small; [lia|]. unfold in_u64. lia.
Qed.

(** [page_free] writes the link into the freed page and nothing else. *)
Lemma page_free_eq s p : page_ok p → page_free p s = push_free p s.
Proof.
  intros [Hr Ha]. unfold page_free. rewrite land_page_mask, Ha. simpl.
  destruct (Z.eqb_spec p 0); [lia|]. unfold irq_save.
  rewrite irq_section by done. by destruct s.
Qed.

Lemma page_free_rep s p l :
  free_rep s l → page_ok p → p ∉ l → free_rep (page_free p s) (p :: l).
Proof. intros. rewrite page_free_eq by done. by apply push_free_rep. Qed.

Lemma page_free_frame s p P :
  page_ok p → (∀ a, P a → ¬ in_page p a) → same_on P (mem s) (mem (page_free p s)).
Proof.
  intros Hok HP a Ha. rewrite page_free_eq by done. simpl. apply load8_store64_out.
  intros H. apply (HP a Ha). unfold in_page. lia.
Qed.

Lemma page_alloc_mem s : mem (snd (page_alloc s)) = mem s.
Proof.
  unfold page_alloc, irq_save. simpl. unfold irq_restore.
  repeat case_if; done.
Qed.

(** What a caller of [page_alloc] learns, in one statement. *)
Lemma page_alloc_spec s l :
  free_rep s l →
  ∃ p s', page_alloc s = (p, s') ∧ mem s' = mem s ∧
    ((p = 0 ∧ l = [] ∧ s' = s) ∨
     (∃ l', l = p :: l' ∧ page_ok p ∧ p ∉ l' ∧ free_rep s' l')).
Proof.
  intros Hr. destruct l as [|p l].
  - exists 0, s. split; [by apply page_alloc_empty|]. auto.
  - exists p, (snd (page_alloc s)). split; [by rewrite (page_alloc_cons _ _ _ Hr)|].
    split; [apply page_alloc_mem|]. right. exists l.
    pose proof (page_alloc_cons_rep _ _ _ Hr).
    destruct Hr as [_ Hp Hd _]. inversion Hp; inversion Hd; subst. auto.
Qed.

(** The number of managed pages never changes after initialisation. *)
Lemma total_irq_restore flags s : total_pages (irq_restore flags s) = total_pages s.
Proof. unfold irq_restore. by case_if. Qed.
Lemma total_page_alloc s : total_pages (snd (page_alloc s)) = total_pages s.
Proof.
  unfold page_alloc, irq_save. cbn [free_list csr_clear_sstatus set_sstatus].
  case_if; cbn [snd]; by rewrite total_irq_restore.
Qed.
Lemma total_page_free p s : total_pages (page_free p s) = total_pages s.
Proof.
  unfold page_free, irq_save. destruct (_ || _); [done|]. by rewrite total_irq_restore.
Qed.

(** * Initialisation *)

(** The [n] pages from [first] on. *)
Fixpoint page_seq (first : Z) (n : nat) : list Z :=
  match n with
  | O => []
  | S n' => first :: page_seq (first + PAGE_SIZE) n'
  end.

Definition range_first (r : physical_range) : Z := align_up (base r).
Definition range_end (r : physical_range) : Z :=
  Z.land (u64 (base r + size r)) (not64 PAGE_MASK).

Definition usable (is_reserved : Z → bool) (r : physical_range) : list Z :=
  List.filter (λ p, negb (is_reserved p))
    (page_seq (range_first r) (Z.to_nat ((range_end r - range_first r) / PAGE_SIZE))).

(** RAM ranges the direct map covers. *)
Definition ram_ok (r : physical_range) : Prop :=
  0 < base r ∧ 0 <= size r ∧ base r + size r <= 2 ^ 38.

(** [p] is a whole page of the RAM range [r]. *)
Definition page_in (r : physical_range) (p : Z) : Prop :=
  p mod PAGE_SIZE = 0 ∧ base r <= p ∧ p + PAGE_SIZE <= base r + size r.

Lemma range_first_eq r :
  ram_ok r → range_first r = (base r + 4095) - (base r + 4095) mod 4096.
Proof.
  intros (H1 & H2 & H3). unfold range_first, align_up.
  destruct (Z.gtb_spec (base r) (UINT64_MAX - PAGE_MASK)); [lia|].
  rewrite u64_small by (unfold in_u64; lia).
  rewrite land_not_page_mask by (unfold in_u64; lia). lia.
Qed.

Lemma range_end_eq r :
  ram_ok r → range_end r = (base r + size r) - (base r + size r) mod 4096.
Proof.
  intros (H1 & H2 & H3). unfold range_end.
  rewrite u64_small by (unfold in_u64; lia).
  by rewrite land_not_page_mask by (unfold in_u64; lia).
Qed.

Lemma elem_of_page_seq first n p :
  p ∈ page_seq first n ↔ ∃ i, 0 <= i < Z.of_nat n ∧ p = first + PAGE_SIZE * i.
Proof.
  revert first. induction n as [|n IH]; intros first; simpl.
  { split; [set_solver|]. intros (i & ? & _). lia. }
  rewrite elem_of_cons, IH. split.
  - intros [->|(i & Hi & ->)]; [exists 0; lia|exists (i + 1); lia].
  - intros (i & Hi & ->). destruct (decide (i = 0)) as [->|]; [left; lia|].
    right. exists (i - 1). lia.
Qed.

(** The loop of one range visits exactly the whole pages of that range. *)
Lemma elem_of_range_pages r p :
  ram_ok r →
  p ∈ page_seq (range_first r) (Z.to_nat ((range_end r - range_first r) / PAGE_SIZE))
  ↔ page_in r p.
Proof.
  intros Hr. rewrite elem_of_page_seq, range_first_eq, range_end_eq by done.
  destruct Hr as (H1 & H2 & H3). unfold page_in. split.
  - intros (i & Hi & ->). div_lia.
  - intros (Ha & Hb & Hc). exists ((p - (base r + 4095 - (base r + 4095) mod 4096)) / 4096).
    div_lia.
Qed.

Lemma elem_of_usable res r p :
  ram_ok r → p ∈ usable res r ↔ page_in r p ∧ res p = false.
Proof.
  intros Hr. unfold usable. rewrite list_elem_of_In, filter_In, <- list_elem_of_In.
  rewrite elem_of_range_pages by done. by rewrite negb_true_iff.
Qed.

Lemma init_pages_spec n res first end_ s l :
  free_rep s l → total_pages s = Z.of_nat (length l) →
  ((0 < n)%nat → end_ = first + PAGE_SIZE * Z.of_nat n ∧ 0 < first ∧ end_ <= 2 ^ 38 ∧
                 first mod PAGE_SIZE = 0) →
  (∀ p, p ∈ page_seq first n → p ∉ l) →
  let s' := init_pages n res first end_ s in
  let l' := rev (List.filter (λ p, negb (res p)) (page_seq first n)) ++ l in
  free_rep s' l' ∧ total_pages s' = Z.of_nat (length l').
Proof.
  revert first s l. induction n as [|n IH]; intros first s l Hr Ht Hb Hfresh; [done|].
  destruct Hb as (Hend & Hf & He & Ha); [lia|].
  simpl. destruct (Z.ltb_spec first end_); [|lia].
  rewrite u64_small by (unfold in_u64; lia).
  assert (first ∉ l) as Hfl by (apply Hfresh; by left).
  assert (∀ p, p ∈ page_seq (first + PAGE_SIZE) n → p ≠ first ∧ p ∉ l) as Hrest.
  { intros p Hp. split; [|apply Hfresh; by right].
    apply elem_of_page_seq in Hp as (i & ? & ->). lia. }
  destruct (res first) eqn:Eres; simpl.
  - apply IH; [done|done| |intros p Hp; by apply Hrest]. intros. div_lia.
  - rewrite <- app_assoc. simpl. apply IH.
    + eapply (free_rep_frame (push_free first s)); try done.
      apply push_free_rep; [done| |done]. split; [lia|done].
    + pose proof (free_rep_length _ _ Hr). simpl. rewrite Ht, u64_small; [lia|].
      unfold in_u64. lia.
    + intros. div_lia.
    + intros p Hp. apply not_elem_of_cons. by apply Hrest.
Qed.

Lemma elem_of_init_list (res : Z → bool) (pages l : list Z) (p : Z) :
  p ∈ rev (List.filter (λ p, negb (res p)) pages) ++ l ↔ p ∈ l ∨ (p ∈ pages ∧ res p = false).
Proof.
  rewrite elem_of_app, list_elem_of_In, <- in_rev, filter_In, <- list_elem_of_In, negb_true_iff.
  tauto.
Qed.

Lemma init_ranges_spec res ranges s l :
  free_rep s l → total_pages s = Z.of_nat (length l) →
  Forall ram_ok ranges → ForallOrdPairs ranges_disjoint ranges →
  (∀ r p, r ∈ ranges → page_in r p → p ∉ l) →
  let '(ok, s') := init_ranges res ranges s in
  ∃ l', free_rep s' l' ∧ total_pages s' = Z.of_nat (length l') ∧
    ok = negb (Z.of_nat (length l') =? 0) ∧
    ∀ p, p ∈ l' ↔ p ∈ l ∨ (∃ r, r ∈ ranges ∧ page_in r p) ∧ res p = false.
Proof.
  revert s l. induction ranges as [|r ranges IH]; intros s l Hr Ht Hok Hdis Hfresh; simpl.
  { exists l. split; [done|]. split; [done|]. split; [by rewrite (fr_count _ _ Hr)|].
    intros p. split; [auto|]. intros [?|((r & Hin & _) & _)]; [done|inversion Hin]. }
  inversion Hok as [|? ? Hr0 Hok']; subst. inversion Hdis as [|? ? Hd0 Hdis']; subst.
  pose proof (range_first_eq r Hr0) as Hfe. pose proof (range_end_eq r Hr0) as Hee.
  pose proof (λ p, elem_of_range_pages r p Hr0) as Hpages. destruct Hr0 as (Hb & Hsz & Htop).
  destruct (Z.ltb_spec (u64 (base r + size r)) (base r)) as [Hlt|_].
  { exfalso. rewrite u64_small in Hlt; [lia|unfold in_u64; lia]. }
  fold (range_first r) (range_end r).
  set (n := Z.to_nat ((range_end r - range_first r) / PAGE_SIZE)) in *.
  destruct (init_pages_spec n res (range_first r) (range_end r) s l Hr Ht) as [Hr' Ht'].
  { unfold n. intros. div_lia. }
  { intros p Hp. apply (Hfresh r); [by left|]. by apply Hpages. }
  specialize (IH _ _ Hr' Ht' Hok' Hdis').
  destruct (init_ranges res ranges _) as [ok s'] eqn:E.
  destruct IH as (l' & H1 & H2 & H3 & H4).
  { intros r' p Hin Hpin. rewrite elem_of_init_list, Hpages. intros [Hp|[Hp _]].
    - revert Hp. apply (Hfresh r'); [by right|done].
    - rewrite Forall_forall in Hd0. unfold page_in, ranges_disjoint in *.
      destruct (Hd0 r' Hin); lia. }
  exists l'. split; [done|]. split; [done|]. split; [done|].
  intros p. rewrite H4, elem_of_init_list, Hpages. setoid_rewrite elem_of_cons. naive_solver.
Qed.

(** * Properties *)

(** The RAM ranges of the device tree: inside the direct map and disjoint. *)
Definition boot_ram_ok (info : boot_info) : Prop :=
  Forall ram_ok (memory_ranges info) ∧
  ForallOrdPairs ranges_disjoint (memory_ranges info).

(** A machine whose allocator holds the pages [l], for concrete instances. *)
Definition empty_state : kstate := mk_kstate ∅ 0 0 0 0 0 0.
Definition stocked (l : list Z) : kstate := foldr page_free empty_state l.

Lemma stocked_rep l : Forall page_ok l → NoDup l → free_rep (stocked l) l.
Proof.
  intros Hl Hd. induction l as [|p l IH]; [by repeat constructor|].
  inversion Hl; inversion Hd; subst. apply page_free_rep; auto.
Qed.

Definition four_pages : list Z := [2147483648; 2147487744; 2147491840; 2147495936].

Lemma four_pages_rep : free_rep (stocked four_pages) four_pages.
Proof.
  apply stocked_rep; [repeat constructor; unfold page_ok; lia|].
  apply (bool_decide_unpack _). by vm_compute.
Qed.

(** 64 KiB of RAM at 2 GiB, its second page reserved. *)
Definition small_board : boot_info :=
  mk_boot_info [mk_range 2147483648 65536] [mk_range 2147487744 4096] (mk_range 0 0) 0
    (mk_range 0 0) 0 [] [] 10000000 0 0 false false.

Lemma small_board_ram : boot_ram_ok small_board.
Proof.
  split; [|repeat constructor]. constructor; [|constructor]. unfold ram_ok. simpl. lia.
Qed.

(** The page [p] has no byte of the [n] bytes at [a]. *)
Definition clear_of (p a n : Z) : Prop := n = 0 ∨ p + PAGE_SIZE <= a ∨ a + n <= p.

(** The pages that are nobody's: whole pages of RAM without a byte of the kernel, the
    device tree blob or a reserved range, and not below the kernel in its RAM, where the
    firmware is. *)
Record available (info : boot_info) (kernel_start kernel_end dtb_start dtb_size p : Z) : Prop := {
  av_ram : ∃ r, r ∈ memory_ranges info ∧ page_in r p;
  av_kernel : clear_of p kernel_start (kernel_end - kernel_start);
  av_dtb : clear_of p dtb_start dtb_size;
  av_reserved : ∀ r, r ∈ reserved info → clear_of p (base r) (size r);
  av_firmware : ∀ r, r ∈ memory_ranges info → base r <= kernel_start < base r + size r → ¬ (base r <= p < kernel_start);
}.

Lemma overlaps_clear p a n : 0 <= a → 0 <= n → a + n < 2 ^ 64 → overlaps p (p + PAGE_SIZE) a n = false ↔ clear_of p a n.
Proof.
  intros Ha Hn Hw. unfold overlaps, clear_of. destruct (Z.eqb_spec n 0) as [->|Hn0]; [tauto|].
  destruct (Z.gtb_spec a (UINT64_MAX - n)); [lia|]. rewrite u64_small by (unfold in_u64; lia). lia.
Qed.

(** The firmware lies below the kernel in the RAM range that holds it. *)
Lemma find_firmware_spec ranges kernel_start p :
  Forall ram_ok ranges → ForallOrdPairs ranges_disjoint ranges →
  (find_firmware ranges kernel_start <= p < kernel_start ↔
   ∃ r, r ∈ ranges ∧ base r <= kernel_start < base r + size r ∧ base r <= p < kernel_start).
Proof.
  intros Hok. induction Hok as [|r rest Hr Hok IH]; intros Hd; cbn [find_firmware].
  { split; [lia|]. by intros (r & []%elem_of_nil & _). }
  inversion Hd as [|? ? Hd1 Hd2]; subst. destruct Hr as (H1 & H2 & H3). rewrite u64_small by (unfold in_u64; lia).
  destruct (Z.leb_spec (base r) kernel_start); [destruct (Z.ltb_spec kernel_start (base r + size r))|]; cbn [andb].
  - split; [intros Hp; exists r; split; [by left|lia]|]. intros (q & [->|Hq]%elem_of_cons & Hk & Hp); [done|].
    rewrite Forall_forall in Hd1. specialize (Hd1 q Hq). unfold ranges_disjoint in Hd1. lia.
  - rewrite (IH Hd2). split; intros (q & Hq & Hk & Hp).
    + exists q. split; [by right|done].
    + apply elem_of_cons in Hq as [->|Hq]; [lia|by exists q].
  - rewrite (IH Hd2). split; intros (q & Hq & Hk & Hp).
    + exists q. split; [by right|done].
    + apply elem_of_cons in Hq as [->|Hq]; [lia|by exists q].
Qed.

Lemma page_reserved_spec info kernel_start kernel_end dtb_start dtb_size p :
  boot_ram_ok info → 0 <= kernel_start < kernel_end → kernel_end < 2 ^ 64 →
  0 <= dtb_start → 0 <= dtb_size → dtb_start + dtb_size < 2 ^ 64 → Forall range_ok (reserved info) →
  (∃ r, r ∈ memory_ranges info ∧ page_in r p) →
  page_reserved info p kernel_start kernel_end dtb_start dtb_size (find_firmware (memory_ranges info) kernel_start) = false ↔
  available info kernel_start kernel_end dtb_start dtb_size p.
Proof.
  intros [Hok Hdis] Hk Hk2 Hd1 Hd2 Hd3 Hres Hram. pose proof (find_firmware_spec _ kernel_start p Hok Hdis) as Hfw.
  assert (0 <= p < 2 ^ 38) as Hp.
  { destruct Hram as (r & Hr & _ & A1 & A2). rewrite Forall_forall in Hok. destruct (Hok r Hr) as (? & ? & ?). lia. }
  unfold page_reserved. rewrite !(u64_small (p + 4096)), (u64_small (kernel_end - kernel_start)) by (unfold in_u64; lia).
  pose proof (overlaps_clear p kernel_start (kernel_end - kernel_start) ltac:(lia) ltac:(lia) ltac:(lia)) as E1.
  pose proof (overlaps_clear p dtb_start dtb_size Hd1 Hd2 Hd3) as E2. set (fw := find_firmware _ _) in *.
  assert (existsb (λ r, overlaps p (p + 4096) (base r) (size r)) (reserved info) = false ↔ ∀ r, r ∈ reserved info → clear_of p (base r) (size r)) as E3.
  { clear -Hres. induction Hres as [|r rest (R1 & R2 & R3) _ IH]; cbn [existsb].
    - split; [by intros _ r []%elem_of_nil|done].
    - rewrite orb_false_iff, IH, overlaps_clear by done. split; [intros [A1 A2] q [->|Hq]%elem_of_cons; auto|].
      intros Ha. split; [apply Ha; by left|]. intros q Hq. apply Ha. by right. }
  assert ((fw <=? p) && (p <? kernel_start) = false ↔
    ∀ r, r ∈ memory_ranges info → base r <= kernel_start < base r + size r → ¬ (base r <= p < kernel_start)) as E4.
  { split; [intros E r Hr Hrk Hrp; assert (fw <= p < kernel_start) by (apply Hfw; eauto); lia|]. intros Ha.
    destruct (Z.leb_spec fw p); [|done]. destruct (Z.ltb_spec p kernel_start); [|done]. exfalso.
    destruct (proj1 Hfw) as (r & Hr & Hrk & Hrp); [lia|]. by apply (Ha r). }
  split.
  - destruct (overlaps p _ kernel_start _); [done|]. destruct (overlaps p _ dtb_start _); [done|]. destruct (_ && _) eqn:Ef; [done|].
    cbn [orb]. intros Er. split; [done|by apply E1|by apply E2|by apply E3|by apply E4].
  - intros [_ A1 A2 A3 A4]. rewrite (proj2 E1 A1), (proj2 E2 A2), (proj2 E4 A4). by apply E3.
Qed.

(** C33. After [page_allocator_init] the free list holds, without repetition, exactly the
    available pages: the whole pages of the RAM ranges that overlap neither the kernel
    nor the device tree blob nor a reserved range of the device tree, and are not below
    the kernel in the range that holds it.  Both counters equal their number, and the
    call reports success exactly when there is one. *)
Theorem page_allocator_init_correct (info : boot_info)
    (kernel_start kernel_end dtb_start dtb_size : Z) (s : kstate) :
  boot_ram_ok info → 0 <= kernel_start < kernel_end → kernel_end < 2 ^ 64 →
  0 <= dtb_start → 0 <= dtb_size → dtb_start + dtb_size < 2 ^ 64 → Forall range_ok (reserved info) →
  let '(ok, s') :=
    page_allocator_init (Some info) kernel_start kernel_end dtb_start dtb_size s in
  ∃ l, free_rep s' l ∧ total_pages s' = Z.of_nat (length l) ∧
    ok = negb (Z.of_nat (length l) =? 0) ∧
    ∀ p, p ∈ l ↔ available info kernel_start kernel_end dtb_start dtb_size p.
Proof.
  intros Hram Hk Hk2 Hd1 Hd2 Hd3 Hres. simpl. destruct (Z.geb_spec kernel_start kernel_end); [lia|].
  set (res := λ page, page_reserved info page _ _ _ _ _).
  set (s0 := set_total 0 (set_free 0 0 s)). pose proof Hram as [Hok Hdis].
  pose proof (init_ranges_spec res (memory_ranges info) s0 []) as Hspec.
  destruct (init_ranges res _ s0) as [ok s'].
  destruct Hspec as (l & H1 & H2 & H3 & H4);
    [by repeat constructor|done|done|done|set_solver|].
  exists l. split; [done|]. split; [done|]. split; [done|].
  intros p. rewrite H4. split.
  - intros [[]%elem_of_nil|[Hr Hp]]. by apply page_reserved_spec.
  - intros Ha. right. split; [apply Ha|]. apply page_reserved_spec; try done. apply Ha.
Qed.

(** On the small board the first page is the firmware's, the second is reserved, the
    kernel has the third and the fourth, and the fifth is free. *)
Lemma page_allocator_init_correct_witness :
  let '(ok, s') := page_allocator_init (Some small_board) 2147491840 2147500032 0 0 empty_state in
  ∃ l, free_rep s' l ∧ total_pages s' = Z.of_nat (length l) ∧ ok = true ∧
    2147500032 ∈ l ∧ 2147483648 ∉ l.
Proof.
  pose proof (page_allocator_init_correct small_board 2147491840 2147500032 0 0 empty_state small_board_ram ltac:(lia) ltac:(lia) ltac:(lia) ltac:(lia)
    ltac:(lia) ltac:(constructor; [unfold range_ok; simpl; lia|constructor])) as Hc.
  destruct (page_allocator_init _ _ _ _ _ _) as [ok s']. destruct Hc as (l & H1 & H2 & H3 & H4).
  assert (2147500032 ∈ l) as Hin.
  { apply H4. split.
    - exists (mk_range 2147483648 65536). split; [by left|]. split; [reflexivity|]. simpl. lia.
    - unfold clear_of. lia.
    - unfold clear_of. lia.
    - intros r [->|[]%elem_of_nil]%elem_of_cons. unfold clear_of. simpl. lia.
    - intros r [->|[]%elem_of_nil]%elem_of_cons. simpl. lia. }
  exists l. split; [exact H1|]. split; [exact H2|]. split.
  - rewrite H3. destruct l; [by apply elem_of_nil in Hin|reflexivity].
  - split; [exact Hin|]. intros [_ _ _ _ Hf]%H4. apply (Hf (mk_range 2147483648 65536)); [by left|simpl; lia|simpl; lia].
Defined.

(** * Refinement: the linked list implements a stack of pages *)

Module Spec.
Inductive op := Alloc | Free (p : Z).

(** One request against the abstract stack; [None] is a double free or the
    free of something that is no page. *)
Definition step (o : op) (l : list Z) : option (Z * list Z) :=
  match o, l with
  | Alloc, [] => Some (0, [])
  | Alloc, p :: l' => Some (p, l')
  | Free p, _ => if decide (page_ok p ∧ p ∉ l) then Some (0, p :: l) else None
  end.

Fixpoint run (ops : list op) (l : list Z) : option (list Z * list Z) :=
  match ops with
  | [] => Some ([], l)
  | o :: rest =>
      match step o l with
      | None => None
      | Some (r, l) =>
          match run rest l with
          | None => None
          | Some (rs, l) => Some (r :: rs, l)
          end
      end
  end.
End Spec.

Definition run_op (o : Spec.op) (s : kstate) : Z * kstate :=
  match o with
  | Spec.Alloc => page_alloc s
  | Spec.Free p => (0, page_free p s)
  end.

Fixpoint run_ops (ops : list Spec.op) (s : kstate) : list Z * kstate :=
  match ops with
  | [] => ([], s)
  | o :: rest =>
      let '(r, s) := run_op o s in
      let '(rs, s) := run_ops rest s in
      (r :: rs, s)
  end.

Lemma run_op_refines o s l r l' :
  free_rep s l → Spec.step o l = Some (r, l') →
  ∃ s', run_op o s = (r, s') ∧ free_rep s' l' ∧ sstatus s' = sstatus s.
Proof.
  intros Hr. destruct o as [|p]; simpl.
  - destruct l as [|q l]; intros [= <- <-].
    + exists s. by rewrite page_alloc_empty.
    + eexists. rewrite (page_alloc_cons _ _ _ Hr). split; [done|]. split; [|done].
      pose proof (page_alloc_cons_rep _ _ _ Hr) as H. by rewrite (page_alloc_cons _ _ _ Hr) in H.
  - case_decide as Hp; [|done]. destruct Hp as [Hok Hp]. intros [= <- <-].
    eexists. split; [done|]. split; [by apply page_free_rep|]. by rewrite page_free_eq.
Qed.

(** C5. Any sequence of [page_alloc] and [page_free] calls in which only valid pages
    that are not free are freed returns what a stack of pages returns, keeps the list
    well formed, and leaves the interrupt-enable state as it found it. *)
Theorem page_allocator_refines_stack (ops : list Spec.op) (s : kstate) (l : list Z)
    (results l' : list Z) :
  free_rep s l → Spec.run ops l = Some (results, l') →
  ∃ s', run_ops ops s = (results, s') ∧ free_rep s' l' ∧ sstatus s' = sstatus s.
Proof.
  revert s l results. induction ops as [|o ops IH]; intros s l results Hr; simpl.
  { intros [= <- <-]. by exists s. }
  destruct (Spec.step o l) as [[r l1]|] eqn:E1; [|done].
  destruct (Spec.run ops l1) as [[rs l2]|] eqn:E2; [|done].
  intros [= <- <-].
  destruct (run_op_refines _ _ _ _ _ Hr E1) as (s1 & -> & Hr1 & Hs1).
  destruct (IH _ _ _ Hr1 E2) as (s2 & -> & Hr2 & Hs2).
  exists s2. split; [done|]. split; [done|]. congruence.
Qed.

Lemma page_allocator_refines_stack_witness :
  ∃ s', run_ops [Spec.Alloc; Spec.Alloc; Spec.Free 2147483648; Spec.Alloc] (stocked four_pages)
        = ([2147483648; 2147487744; 0; 2147483648], s') ∧
    free_rep s' [2147491840; 2147495936] ∧ sstatus s' = sstatus (stocked four_pages).
Proof.
  apply (page_allocator_refines_stack _ _ four_pages); [exact four_pages_rep|].
  vm_compute. reflexivity.
Defined.
