(* ===== verification/Vm.v ===== *)
(** [src/mm/vm.c]: Sv39 page tables.  The operations are translated as they are
    written, over page-table words in the byte memory; [VmInv] gives their
    invariant and [VmProps] their theorems. *)
From S2P Require Import Prelude Machine Runtime BootInfo PageAlloc.

Abbreviation PTE_V := 1 (only parsing).
Abbreviation PTE_R := 2 (only parsing).
Abbreviation PTE_W := 4 (only parsing).
Abbreviation PTE_X := 8 (only parsing).
Abbreviation PTE_U := 16 (only parsing).
Abbreviation PTE_G := 32 (only parsing).
Abbreviation PTE_A := 64 (only parsing).
Abbreviation PTE_D := 128 (only parsing).
Abbreviation PTE_RWX := 14 (only parsing).      (* PTE_R | PTE_W | PTE_X *)
Abbreviation PTE_RX := 10 (only parsing).       (* PTE_R | PTE_X *)
Abbreviation PTE_PPN_MASK := 18014398509480960 (only parsing).
Abbreviation SATP_SV39 := 9223372036854775808 (only parsing).

Record page_table := mk_page_table { root : Z }.

#[global] Arguments Z.land : simpl never.
#[global] Arguments Z.shiftr : simpl never.

Definition canonical (address : Z) : bool :=
  let upper := Z.shiftr address 39 in
  (upper =? 0) || (upper =? 33554431).

Definition pte_physical (pte : Z) : Z := u64 (Z.shiftl (Z.land pte PTE_PPN_MASK) 2).

Definition make_table_pte (physical : Z) : Z := Z.lor (Z.shiftr physical 2) PTE_V.

Definition root_pointer (table : page_table) : Z := phys_to_virt (root table).

Definition vpn_index (address : Z) (level : Z) : Z :=
  Z.land (Z.shiftr address (12 + level * 9)) 511.

Definition valid_leaf_flags (flags : Z) : bool :=
  let allowed := Z.lor PTE_R (Z.lor PTE_W (Z.lor PTE_X (Z.lor PTE_U PTE_G))) in
  (Z.land flags (not64 allowed) =? 0) && negb (Z.land flags PTE_RX =? 0)
  && negb (negb (Z.land flags PTE_W =? 0) && (Z.land flags PTE_R =? 0)).

Definition leaf_pte (physical flags : Z) : Z :=
  let hardware := Z.lor flags (Z.lor PTE_V PTE_A) in
  let hardware := if negb (Z.land flags PTE_W =? 0) then Z.lor hardware PTE_D else hardware in
  Z.lor (Z.shiftr physical 2) hardware.

(** [&entries[i]] *)
Definition slot (entries i : Z) : Z := entries + 8 * i.

#[global] Arguments pte_physical : simpl never.
#[global] Arguments make_table_pte : simpl never.
#[global] Arguments vpn_index : simpl never.
#[global] Arguments slot : simpl never.

(** [memset(phys_to_virt(page), 0, PAGE_SIZE)] *)
Definition zero_page (page : Z) (s : kstate) : kstate :=
  set_mem (memset (mem s) (phys_to_virt page) 0 (Z.to_nat PAGE_SIZE)) s.

(** [*entry = v] *)
Definition write_entry (entry v : Z) (s : kstate) : kstate :=
  set_mem (store64 (mem s) entry v) s.

Definition read_entry (entry : Z) (s : kstate) : Z := load64 (mem s) entry.

#[global] Arguments zero_page : simpl never.
#[global] Arguments read_entry : simpl never.

(** A pointer to a [struct page_table] is [None] for NULL. *)
Definition vm_create (table : option page_table) (s : kstate)
    : bool * option page_table * kstate :=
  match table with
  | None => (false, table, s)
  | Some _ =>
      let '(page, s) := page_alloc s in
      if page =? 0 then (false, Some (mk_page_table page), s)
      else (true, Some (mk_page_table page), zero_page page s)
  end.

(** [memcpy(root + 256, kernel_root + 256, 256 * sizeof( *root))] *)
Definition vm_create_user (table kernel_table : option page_table) (s : kstate)
    : bool * option page_table * kstate :=
  match kernel_table with
  | None => (false, table, s)
  | Some kt =>
      if root kt =? 0 then (false, table, s)
      else
        let '(ok, table, s) := vm_create table s in
        match ok, table with
        | true, Some t =>
            let s := set_mem (memcpy (mem s) (slot (root_pointer t) 256)
                                (slot (root_pointer kt) 256) (Z.to_nat 2048)) s in
            (true, table, s)
        | _, _ => (false, table, s)
        end
  end.

(** The loop of [walk] from [level] down to the leaf level; 0 is NULL. *)
Fixpoint walk_levels (level : nat) (entries address : Z) (create : bool) (s : kstate)
    : Z * kstate :=
  match level with
  | O => (slot entries (vpn_index address 0), s)
  | S level' =>
      let entry := slot entries (vpn_index address (Z.of_nat level)) in
      if Z.land (read_entry entry s) PTE_V =? 0 then
        if negb create then (0, s)
        else
          let '(page, s) := page_alloc s in
          if page =? 0 then (0, s)
          else
            let s := zero_page page s in
            let s := write_entry entry (make_table_pte page) s in
            walk_levels level' (phys_to_virt (pte_physical (read_entry entry s)))
              address create s
      else if negb (Z.land (read_entry entry s) PTE_RWX =? 0) then (0, s)
      else
        walk_levels level' (phys_to_virt (pte_physical (read_entry entry s)))
          address create s
  end.

Definition walk (table : option page_table) (address : Z) (create : bool) (s : kstate)
    : Z * kstate :=
  match table with
  | None => (0, s)
  | Some t =>
      if (root t =? 0) || negb (canonical address) then (0, s)
      else walk_levels 2 (root_pointer t) address create s
  end.

#[global] Arguments walk : simpl never.

Definition vm_map (table : option page_table) (virtual_address physical_address flags : Z)
    (s : kstate) : bool * kstate :=
  if negb (Z.land virtual_address PAGE_MASK =? 0)
     || negb (Z.land physical_address PAGE_MASK =? 0) || negb (valid_leaf_flags flags)
  then (false, s)
  else
    let '(entry, s) := walk table virtual_address true s in
    if (entry =? 0) || negb (Z.land (read_entry entry s) PTE_V =? 0) then (false, s)
    else (true, write_entry entry (leaf_pte physical_address flags) s).

Definition indices512 : list Z := Z.of_nat <$> seq 0 512.
Definition indices256 : list Z := Z.of_nat <$> seq 0 256.

Definition table_empty (entries : Z) (s : kstate) : bool :=
  forallb (λ i, Z.land (read_entry (slot entries i) s) PTE_V =? 0) indices512.

(** [sfence.vma] has no effect the model observes. *)
Definition vm_flush_all (s : kstate) : kstate := s.

(** [(entry & PTE_V) == 0 || (entry & (PTE_R | PTE_W | PTE_X)) != 0] *)
Definition not_table_entry (entry : Z) : bool :=
  (Z.land entry PTE_V =? 0) || negb (Z.land entry PTE_RWX =? 0).

(** The second loop of [vm_unmap]: from the leaf's table upwards, free each
    table that is empty and clear the slot that pointed to it; each pair is
    [levels[level]] and [&levels[level + 1][indices[level + 1]]]. *)
Fixpoint free_empty (tables : list (Z * Z)) (s : kstate) : kstate :=
  match tables with
  | [] => s
  | (entries, parent_slot) :: rest =>
      if negb (table_empty entries s) then s
      else
        let s := page_free (virt_to_phys entries) s in
        let s := write_entry parent_slot 0 s in
        free_empty rest s
  end.

Definition vm_unmap (table : option page_table) (address : Z) (s : kstate) : bool * kstate :=
  match table with
  | None => (false, s)
  | Some t =>
      if (root t =? 0) || negb (Z.land address PAGE_MASK =? 0) || negb (canonical address)
      then (false, s)
      else
        let level2 := root_pointer t in
        let index2 := vpn_index address 2 in
        let entry := read_entry (slot level2 index2) s in
        if not_table_entry entry then (false, s)
        else
          let level1 := phys_to_virt (pte_physical entry) in
          let index1 := vpn_index address 1 in
          let entry := read_entry (slot level1 index1) s in
          if not_table_entry entry then (false, s)
          else
            let level0 := phys_to_virt (pte_physical entry) in
            let index0 := vpn_index address 0 in
            if Z.land (read_entry (slot level0 index0) s) (Z.lor PTE_V PTE_RX) =? PTE_V
            then (false, s)
            else if Z.land (read_entry (slot level0 index0) s) PTE_V =? 0 then (false, s)
            else
              let s := write_entry (slot level0 index0) 0 s in
              let s := free_empty [(level0, slot level1 index1); (level1, slot level2 index2)] s in
              (true, vm_flush_all s)
  end.

Definition vm_protect (table : option page_table) (address flags : Z) (s : kstate)
    : bool * kstate :=
  if negb (Z.land address PAGE_MASK =? 0) || negb (valid_leaf_flags flags) then (false, s)
  else
    let '(entry, s) := walk table address false s in
    if (entry =? 0) || (Z.land (read_entry entry s) PTE_V =? 0)
       || (Z.land (read_entry entry s) PTE_RX =? 0)
    then (false, s)
    else
      let s := write_entry entry (leaf_pte (pte_physical (read_entry entry s)) flags) s in
      (true, vm_flush_all s).

(** The out-parameters [*physical] and [*flags] are the components of the
    result; [None] is [false].  [walk] without [create] does not write. *)
Definition vm_query (table : option page_table) (address : Z) (s : kstate)
    : option (Z * Z) :=
  let '(entry, s) := walk table address false s in
  if (entry =? 0) || (Z.land (read_entry entry s) PTE_V =? 0)
     || (Z.land (read_entry entry s) PTE_RX =? 0)
  then None
  else Some (Z.lor (pte_physical (read_entry entry s)) (Z.land address PAGE_MASK),
             Z.land (read_entry entry s) 1023).

Fixpoint destroy_level (level : nat) (physical : Z) (s : kstate) : kstate :=
  let entries := phys_to_virt physical in
  let s :=
    match level with
    | O => s
    | S level' =>
        fold_left
          (λ s i,
            let entry := read_entry (slot entries i) s in
            if negb (Z.land entry PTE_V =? 0) && (Z.land entry PTE_RWX =? 0)
            then destroy_level level' (pte_physical entry) s
            else s)
          indices512 s
    end in
  page_free physical s.

Definition vm_destroy (table : option page_table) (s : kstate)
    : option page_table * kstate :=
  match table with
  | None => (None, s)
  | Some t =>
      if root t =? 0 then (table, s)
      else (Some (mk_page_table 0), destroy_level 2 (root t) s)
  end.

Definition vm_destroy_user (table : option page_table) (s : kstate)
    : option page_table * kstate :=
  match table with
  | None => (None, s)
  | Some t =>
      if root t =? 0 then (table, s)
      else
        let root_entries := root_pointer t in
        let s :=
          fold_left
            (λ s i,
              let entry := read_entry (slot root_entries i) s in
              if negb (Z.land entry PTE_V =? 0) && (Z.land entry PTE_RWX =? 0)
              then destroy_level 1 (pte_physical entry) s
              else s)
            indices256 s in
        (Some (mk_page_table 0), page_free (root t) s)
  end.

Fixpoint prune_level (level : nat) (physical : Z) (s : kstate) : bool * kstate :=
  let entries := phys_to_virt physical in
  let s :=
    match level with
    | O => s
    | S level' =>
        fold_left
          (λ s i,
            let entry := read_entry (slot entries i) s in
            if negb (Z.land entry PTE_V =? 0) && (Z.land entry PTE_RWX =? 0) then
              let '(empty, s) := prune_level level' (pte_physical entry) s in
              if empty then write_entry (slot entries i) 0 (page_free (pte_physical entry) s)
              else s
            else s)
          indices512 s
    end in
  (table_empty entries s, s).

Definition vm_prune_user (table : page_table) (s : kstate) : kstate :=
  if root table =? 0 then s
  else
    let root_entries := root_pointer table in
    let s :=
      fold_left
        (λ s i,
          let entry := read_entry (slot root_entries i) s in
          if negb (Z.land entry PTE_V =? 0) && (Z.land entry PTE_RWX =? 0) then
            let '(empty, s) := prune_level 1 (pte_physical entry) s in
            if empty then write_entry (slot root_entries i) 0 (page_free (pte_physical entry) s)
            else s
          else s)
        indices256 s in
    vm_flush_all s.

Definition vm_activate (table : page_table) (s : kstate) : kstate :=
  set_satp (Z.lor SATP_SV39 (Z.shiftr (root table) 12)) s.

(** * The kernel address space

    The linker's symbols are a parameter: their addresses. *)

Record linker_symbols := mk_symbols {
  text_start : Z; text_end : Z; rodata_start : Z; rodata_end : Z;
  boot_stack_guard : Z;
}.

Section KernelSpace.
Context (sym : linker_symbols).

Definition kernel_page_flags (physical : Z) : Z :=
  let text_start := virt_to_phys (text_start sym) in
  let text_end := virt_to_phys (text_end sym) in
  let rodata_start := virt_to_phys (rodata_start sym) in
  let rodata_end := virt_to_phys (rodata_end sym) in
  if (Z.land text_start (not64 PAGE_MASK) <=? physical)
     && (physical <? Z.land (u64 (text_end + PAGE_MASK)) (not64 PAGE_MASK))
  then Z.lor PTE_R (Z.lor PTE_X PTE_G)
  else if (Z.land rodata_start (not64 PAGE_MASK) <=? physical)
          && (physical <? Z.land (u64 (rodata_end + PAGE_MASK)) (not64 PAGE_MASK))
  then Z.lor PTE_R PTE_G
  else Z.lor PTE_R (Z.lor PTE_W PTE_G).

(** The loop of [map_physical_range]; [fuel] bounds the number of pages. *)
Fixpoint map_pages (fuel : nat) (table : option page_table) (physical end_ : Z) (ram : bool)
    (s : kstate) : bool * kstate :=
  match fuel with
  | O => (true, s)
  | S f =>
      if physical <? end_ then
        let virtual_address := u64 (KERNEL_DIRECT_BASE + physical) in
        let flags := if ram then kernel_page_flags physical
                     else Z.lor PTE_R (Z.lor PTE_W PTE_G) in
        if virtual_address =? boot_stack_guard sym
        then map_pages f table (u64 (physical + PAGE_SIZE)) end_ ram s
        else
          let '(ok, s) := vm_map table virtual_address physical flags s in
          if negb ok then (false, s)
          else map_pages f table (u64 (physical + PAGE_SIZE)) end_ ram s
      else (true, s)
  end.

Definition map_physical_range (table : option page_table) (base size : Z) (ram : bool)
    (s : kstate) : bool * kstate :=
  let first := Z.land base (not64 PAGE_MASK) in
  if (base >? UINT64_MAX - size) || (u64 (base + size) >? UINT64_MAX - PAGE_MASK)
  then (false, s)
  else
    let end_ := Z.land (u64 (base + size + PAGE_MASK)) (not64 PAGE_MASK) in
    map_pages (Z.to_nat ((end_ - first) / PAGE_SIZE)) table first end_ ram s.

Fixpoint map_ranges (table : option page_table) (ranges : list physical_range) (ram : bool)
    (s : kstate) : bool * kstate :=
  match ranges with
  | [] => (true, s)
  | r :: rest =>
      let '(ok, s) := map_physical_range table (base r) (size r) ram s in
      if negb ok then (false, s) else map_ranges table rest ram s
  end.

Definition vm_build_kernel (table : option page_table) (info : option boot_info) (s : kstate)
    : bool * option page_table * kstate :=
  match info with
  | None => (false, table, s)
  | Some info =>
      let '(ok, table, s) := vm_create table s in
      if negb ok then (false, table, s)
      else
        let fail s := let '(table, s) := vm_destroy table s in (false, table, s) in
        let '(ok, s) := map_ranges table (memory_ranges info) true s in
        if negb ok then fail s
        else
          let '(ok, s) := map_physical_range table 1048576 PAGE_SIZE false s in
          if negb ok then fail s
          else
            let '(ok, s) :=
              if uart_present info
              then map_physical_range table (base (uart info)) (size (uart info)) false s
              else (true, s) in
            if negb ok then fail s
            else
              let '(ok, s) :=
                if plic_present info
                then map_physical_range table (base (plic info)) (size (plic info)) false s
                else (true, s) in
              if negb ok then fail s
              else
                let '(ok, s) := map_ranges table (virtio info) false s in
                if negb ok then fail s else (true, table, s)
  end.
End KernelSpace.
