(* ===== verification/VmInv.v ===== *)
(** The invariant of an Sv39 page table in memory, and how each primitive of
    [Vm] acts on it.  A table is described by its nodes: the map [N] sends the
    path of indices from the root ([] for the root itself) to the page that
    holds that table. *)
From S2P Require Import Prelude Machine Runtime BootInfo PageAlloc Vm.

(** * Page-table entries *)

Lemma pte_physical_eq e : pte_physical e = (e / 1024) mod 2 ^ 44 * 4096.
Proof.
  unfold pte_physical. change PTE_PPN_MASK with (Z.shiftl (Z.ones 44) 10).
  rewrite land_field, Z.shiftl_mul_pow2 by lia.
  change (2 ^ 10) with 1024. change (2 ^ 2) with 4.
  pose proof (Z.mod_pos_bound (e / 1024) (2 ^ 44)).
  rewrite u64_small; unfold in_u64; lia.
Qed.

Lemma page_shift p : p mod 4096 = 0 → Z.shiftr p 2 = p / 4096 * 2 ^ 10.
Proof. intros. rewrite Z.shiftr_div_pow2 by lia. change (2 ^ 2) with 4. div_lia. Qed.

(** An entry built from an aligned page and flags below bit 10. *)
Lemma pte_split p f :
  0 <= p < 2 ^ 56 → p mod 4096 = 0 → 0 <= f < 1024 →
  let e := Z.lor (Z.shiftr p 2) f in
  in_u64 e ∧ pte_physical e = p ∧ e mod 1024 = f.
Proof.
  intros Hp Ha Hf. simpl. rewrite page_shift, lor_field by (try done; lia).
  rewrite pte_physical_eq. unfold in_u64. change (2 ^ 10) with 1024.
  split; [div_lia|]. split; [|div_lia].
  replace ((p / 4096 * 1024 + f) / 1024) with (p / 4096) by div_lia.
  rewrite Z.mod_small by div_lia. div_lia.
Qed.

Lemma land_low_bits e k : 0 <= k < 1024 → Z.land e k = Z.land (e mod 1024) k.
Proof. intros. apply (land_mask_low e k 10); lia. Qed.

Lemma make_table_pte_spec p :
  0 <= p < 2 ^ 56 → p mod 4096 = 0 →
  in_u64 (make_table_pte p) ∧ pte_physical (make_table_pte p) = p ∧
  make_table_pte p mod 1024 = 1.
Proof. intros. by apply (pte_split p 1). Qed.

Definition leaf_bits (flags : Z) : Z :=
  let hardware := Z.lor flags (Z.lor PTE_V PTE_A) in
  if negb (Z.land flags PTE_W =? 0) then Z.lor hardware PTE_D else hardware.

(** The flag words [valid_leaf_flags] accepts are below 64, so what it implies
    is checked on all of them. *)
Lemma valid_leaf_flags_small flags :
  in_u64 flags → valid_leaf_flags flags = true → 0 <= flags < 64.
Proof.
  unfold valid_leaf_flags. intros Hf H.
  apply andb_true_iff in H as [H _]. apply andb_true_iff in H as [H _].
  apply Z.eqb_eq in H. revert H. change (Z.lor 2 _) with 62.
  intros H.
  assert (Z.land (Z.shiftr flags 6) (Z.ones 58) = 0) as H6.
  { replace (Z.ones 58) with (Z.shiftr (not64 62) 6) by done.
    by rewrite <- Z.shiftr_land, H. }
  rewrite Z.land_ones, Z.shiftr_div_pow2 in H6 by lia.
  unfold in_u64 in Hf. change (2 ^ 6) with 64 in H6. div_lia.
Qed.

Lemma all_below (P : Z → bool) n :
  forallb P (Z.of_nat <$> seq 0 n) = true → ∀ x, 0 <= x < Z.of_nat n → P x = true.
Proof.
  intros H x Hx. rewrite forallb_forall in H. apply H, list_elem_of_In, list_elem_of_fmap.
  exists (Z.to_nat x). split; [lia|]. apply elem_of_seq. lia.
Qed.

Definition leaf_bits_ok (f : Z) : bool :=
  implb (valid_leaf_flags f)
    ((0 <=? leaf_bits f) && (leaf_bits f <? 256)
     && negb (Z.land (leaf_bits f) 1 =? 0) && negb (Z.land (leaf_bits f) PTE_RX =? 0)
     && (Z.land (leaf_bits f) 1023 =? leaf_bits f)).

Lemma leaf_bits_spec flags :
  in_u64 flags → valid_leaf_flags flags = true →
  0 <= leaf_bits flags < 256 ∧ Z.land (leaf_bits flags) 1 ≠ 0 ∧
  Z.land (leaf_bits flags) PTE_RX ≠ 0 ∧ Z.land (leaf_bits flags) 1023 = leaf_bits flags.
Proof.
  intros Hf Hv. pose proof (valid_leaf_flags_small _ Hf Hv) as Hs.
  assert (leaf_bits_ok flags = true) as H.
  { apply (all_below leaf_bits_ok 64); [by vm_compute|lia]. }
  unfold leaf_bits_ok in H. rewrite Hv in H. simpl in H. lia.
Qed.

Lemma leaf_pte_spec p flags :
  0 <= p < 2 ^ 56 → p mod 4096 = 0 → in_u64 flags → valid_leaf_flags flags = true →
  in_u64 (leaf_pte p flags) ∧ pte_physical (leaf_pte p flags) = p ∧
  leaf_pte p flags mod 1024 = leaf_bits flags.
Proof.
  intros Hp Ha Hf Hv. destruct (leaf_bits_spec _ Hf Hv) as (Hb & _).
  change (leaf_pte p flags) with (Z.lor (Z.shiftr p 2) (leaf_bits flags)).
  apply pte_split; [done|done|lia].
Qed.

(** * Table pages in memory *)

Definition entry_of (s : kstate) (p i : Z) : Z := read_entry (slot (phys_to_virt p) i) s.

Lemma entry_fold s p i : read_entry (slot (phys_to_virt p) i) s = entry_of s p i.
Proof. done. Qed.

Lemma vpn_index_range va level : 0 <= level → 0 <= vpn_index va level < 512.
Proof.
  intros. unfold vpn_index. rewrite (land_low _ 9 ltac:(lia)). by apply Z.mod_pos_bound.
Qed.
#[export] Hint Resolve vpn_index_range : bits.

Lemma entry_of_in_page p i b :
  page_ok p → 0 <= i < 512 → slot (phys_to_virt p) i <= b < slot (phys_to_virt p) i + 8 →
  in_page p b.
Proof. intros [Hp _] Hi Hb. unfold in_page, slot in *. lia. Qed.

Lemma entry_of_range s p i : in_u64 (entry_of s p i).
Proof. apply load64_range. Qed.

Lemma entry_of_frame s s' p i :
  page_ok p → 0 <= i < 512 → same_on (in_page p) (mem s) (mem s') →
  entry_of s' p i = entry_of s p i.
Proof.
  intros Hp Hi H. apply load64_ext. intros b Hb. apply H. by eapply entry_of_in_page.
Qed.

Lemma entry_write s p i v q j :
  page_ok p → page_ok q → 0 <= i < 512 → 0 <= j < 512 → in_u64 v →
  entry_of (write_entry (slot (phys_to_virt p) i) v s) q j
  = if decide (p = q ∧ i = j) then v else entry_of s q j.
Proof.
  intros [Hp Hpa] [Hq Hqa] Hi Hj Hv. unfold entry_of, read_entry, write_entry, slot. simpl.
  case_decide as Hd.
  - destruct Hd as [-> ->]. by apply load64_store64_eq.
  - apply load64_store64_ne. rewrite !phys_to_virt_page by lia.
    destruct (decide (p = q)) as [->|Hne]; [lia|]. div_lia.
Qed.

Lemma entry_zero_page s p q j :
  page_ok p → page_ok q → 0 <= j < 512 →
  entry_of (zero_page p s) q j = if decide (p = q) then 0 else entry_of s q j.
Proof.
  intros Hp Hq Hj. case_decide as Hd.
  - subst. unfold entry_of, read_entry, zero_page, slot. simpl.
    apply memset_load64_zero; lia.
  - apply entry_of_frame; [done|done|]. apply memset_same_on. intros a Ha Hin.
    by apply Hd, (in_page_disjoint _ _ a).
Qed.

Lemma entry_page_free s p q j :
  page_ok p → page_ok q → p ≠ q → 0 <= j < 512 →
  entry_of (page_free p s) q j = entry_of s q j.
Proof.
  intros Hp Hq Hne Hj. apply entry_of_frame; [done|done|]. apply page_free_frame; [done|].
  intros a Ha Ha'. by apply Hne, (in_page_disjoint _ _ a).
Qed.

Lemma entry_page_alloc s q j : entry_of (snd (page_alloc s)) q j = entry_of s q j.
Proof. unfold entry_of, read_entry. by rewrite page_alloc_mem. Qed.

(** Writing inside a page that is not free leaves the free list alone. *)
Lemma free_rep_write s l p i v :
  free_rep s l → page_ok p → p ∉ l → 0 <= i < 512 →
  free_rep (write_entry (slot (phys_to_virt p) i) v s) l.
Proof.
  intros Hr Hp Hpl Hi. apply (free_rep_frame s); [done|done| |done].
  intros q Hq a Ha. simpl. apply load8_store64_out. intros Hb. apply Hpl.
  replace p with q; [done|]. pose proof (fr_pages _ _ Hr) as Hok. rewrite Forall_forall in Hok.
  apply (in_page_disjoint _ _ a); auto. by eapply entry_of_in_page.
Qed.

Lemma free_rep_zero_page s l p :
  free_rep s l → page_ok p → p ∉ l → free_rep (zero_page p s) l.
Proof.
  intros Hr Hp Hpl. apply (free_rep_frame s); [done|done| |done].
  intros q Hq. apply memset_same_on. intros a Ha Hin. apply Hpl.
  pose proof (fr_pages _ _ Hr) as Hok. rewrite Forall_forall in Hok.
  replace p with q; [done|]. apply (in_page_disjoint _ _ a); auto.
Qed.

(** * Well-formed tables

    [own] delimits the root entries the table answers for: all of them for the
    kernel's table, the lower half for a user table, whose upper half is
    borrowed.  An upper-level entry without a child node is invalid: the code
    never makes superpage leaves. *)
Record pt_rep (own : Z → Prop) (s : kstate) (r : Z) (N : gmap (list Z) Z) : Prop := {
  pt_root : N !! [] = Some r;
  pt_pages : ∀ π p, N !! π = Some p → page_ok p;
  pt_shape : ∀ π p, N !! π = Some p → (length π <= 2)%nat;
  pt_inj : ∀ π π' p, N !! π = Some p → N !! π' = Some p → π = π';
  pt_parent : ∀ π i p, N !! (π ++ [i]) = Some p →
    is_Some (N !! π) ∧ 0 <= i < 512 ∧ (π = [] → own i);
  pt_entry : ∀ π p i, N !! π = Some p → (length π < 2)%nat → 0 <= i < 512 →
    (π = [] → own i) →
    match N !! (π ++ [i]) with
    | Some q => entry_of s p i = make_table_pte q
    | None => Z.land (entry_of s p i) PTE_V = 0
    end;
}.

Lemma pt_rep_frame own s s' r N :
  (∀ π p i, N !! π = Some p → (length π < 2)%nat → 0 <= i < 512 →
     entry_of s' p i = entry_of s p i) →
  pt_rep own s r N → pt_rep own s' r N.
Proof.
  intros H [H1 H2 H3 H4 H5 H6]. split; try done.
  intros π p i Hp Hl Hi Ho. rewrite (H π) by done. by apply (H6 π).
Qed.

Lemma pt_rep_fresh_children own s r N π i j :
  pt_rep own s r N → N !! (π ++ [i]) = None → N !! ((π ++ [i]) ++ [j]) = None.
Proof.
  intros Hr HN. destruct (N !! ((π ++ [i]) ++ [j])) as [p|] eqn:E; [|done].
  destruct (pt_parent _ _ _ _ Hr _ _ _ E) as [[x Hx] _]. congruence.
Qed.

(** Hooking a zeroed page [q] below node [π] at index [i]. *)
Lemma pt_rep_insert own s s' r N π p i q :
  pt_rep own s r N → N !! π = Some p → (length π < 2)%nat → 0 <= i < 512 →
  (π = [] → own i) → N !! (π ++ [i]) = None → page_ok q → q ∉ map_vals N →
  (∀ π' p' j, N !! π' = Some p' → 0 <= j < 512 →
     entry_of s' p' j = if decide (p' = p ∧ j = i) then make_table_pte q else entry_of s p' j) →
  (∀ j, 0 <= j < 512 → entry_of s' q j = 0) →
  pt_rep own s' r (<[π ++ [i] := q]> N).
Proof.
  intros Hr Hp Hl Hi Ho HN Hq Hfresh He Hz.
  assert (∀ j, N !! ((π ++ [i]) ++ [j]) = None) as Hch'
    by (intros j; by eapply pt_rep_fresh_children).
  assert (∀ π', N !! π' ≠ Some q) as Hnq.
  { intros π' E. apply Hfresh, elem_of_map_vals. eauto. }
  destruct Hr as [H1 H2 H3 H4 H5 H6]. split.
  - rewrite lookup_insert_ne by (by destruct π). done.
  - intros π' p'. rewrite lookup_insert. case_decide; naive_solver.
  - intros π' p'. rewrite lookup_insert. case_decide as E; [|by apply H3].
    intros _. subst. rewrite length_app. simpl. lia.
  - intros π1 π2 p'. rewrite !lookup_insert. repeat case_decide; naive_solver.
  - intros π' j p' E. rewrite lookup_insert in E. case_decide as Ek.
    + apply app_inj_2 in Ek as [-> [= ->]]; [|done].
      split; [|done]. rewrite lookup_insert_ne; [by exists p|].
      intros Ek. apply (f_equal length) in Ek. rewrite length_app in Ek. simpl in Ek. lia.
    + destruct (H5 _ _ _ E) as ([x Hx] & Hj & Hown). split; [|done].
      rewrite lookup_insert. case_decide; eauto.
  - intros π' p' j E Hl' Hj Hown. rewrite lookup_insert in E. case_decide as Ek.
    + injection E as <-. subst π'. rewrite lookup_insert_ne, Hch', Hz; [done|done|].
      intros Ek. apply (f_equal length) in Ek. rewrite !length_app in Ek. simpl in Ek. lia.
    + rewrite (He _ _ _ E Hj), lookup_insert. specialize (H6 _ _ _ E Hl' Hj Hown).
      case_decide as Ea; case_decide as Eb; try done.
      * apply app_inj_2 in Ea as [-> [= ->]]; [|done]. exfalso. apply Eb. naive_solver.
      * destruct Eb as [-> ->]. exfalso. apply Ea. by rewrite (H4 _ _ _ E Hp).
Qed.

(** Unhooking a childless node and clearing the entry that led to it. *)
Lemma pt_rep_delete own s s' r N π p i q :
  pt_rep own s r N → N !! π = Some p → N !! (π ++ [i]) = Some q →
  (∀ j, N !! ((π ++ [i]) ++ [j]) = None) →
  (∀ π' p' j, N !! π' = Some p' → p' ≠ q → 0 <= j < 512 →
     entry_of s' p' j = if decide (p' = p ∧ j = i) then 0 else entry_of s p' j) →
  pt_rep own s' r (delete (π ++ [i]) N).
Proof.
  intros Hr Hp Hq Hch He.
  assert (∀ π' p', delete (π ++ [i]) N !! π' = Some p' → N !! π' = Some p' ∧ p' ≠ q) as Hd.
  { intros π' p' E. apply lookup_delete_Some in E as [Hne E]. split; [done|].
    intros ->. by apply Hne, (pt_inj _ _ _ _ Hr _ _ q). }
  destruct Hr as [H1 H2 H3 H4 H5 H6]. split.
  - rewrite lookup_delete_ne by (by destruct π). done.
  - intros π' p' E. apply Hd in E as [E _]. eauto.
  - intros π' p' E. apply Hd in E as [E _]. eauto.
  - intros π1 π2 p' E1 E2. apply Hd in E1 as [E1 _], E2 as [E2 _]. eauto.
  - intros π' j p' E. apply Hd in E as [E _]. destruct (H5 _ _ _ E) as ([x Hx] & Hj & Hown).
    split; [|done]. rewrite lookup_delete. case_decide as Ek; [|by exists x].
    subst. by rewrite Hch in E.
  - intros π' p' j E Hl Hj Hown. apply Hd in E as [E Hne].
    rewrite (He _ _ _ E Hne Hj), lookup_delete. specialize (H6 _ _ _ E Hl Hj Hown).
    case_decide as Ea; case_decide as Eb; try done.
    + exfalso. apply Eb. apply app_inj_2 in Ea as [<- [= <-]]; [|done]. naive_solver.
    + destruct Eb as [-> ->]. exfalso. apply Ea. by rewrite (H4 _ _ _ E Hp).
Qed.

(** * Translations *)

Definition path2 (va : Z) : list Z := [vpn_index va 2; vpn_index va 1].

(** The last-level entry for [va], 0 when its table does not exist. *)
Definition leaf_entry (s : kstate) (N : gmap (list Z) Z) (va : Z) : Z :=
  match N !! path2 va with
  | Some q => entry_of s q (vpn_index va 0)
  | None => 0
  end.

(** What [vm_query] makes of a last-level entry. *)
Definition decode_leaf (e va : Z) : option (Z * Z) :=
  if (Z.land e PTE_V =? 0) || (Z.land e PTE_RX =? 0) then None
  else Some (Z.lor (pte_physical e) (Z.land va PAGE_MASK), Z.land e 1023).

Lemma make_table_pte_entry q :
  page_ok q →
  (Z.land (make_table_pte q) PTE_V =? 0) = false ∧
  (Z.land (make_table_pte q) PTE_RWX =? 0) = true ∧
  pte_physical (make_table_pte q) = q.
Proof.
  intros [Hq Ha]. destruct (make_table_pte_spec q) as (_ & Hp & Hm); [lia|done|].
  rewrite !(land_low_bits (make_table_pte q)), Hm by lia. done.
Qed.

(** Reading the path of [va] from node [π] without creating tables. *)
Lemma walk_levels_read own s r N va level π p :
  pt_rep own s r N → own (vpn_index va 2) →
  (length π + level = 2)%nat → π = take (length π) (path2 va) → N !! π = Some p →
  walk_levels level (phys_to_virt p) va false s
  = (match N !! path2 va with
     | Some q => slot (phys_to_virt q) (vpn_index va 0)
     | None => 0
     end, s).
Proof.
  intros Hr Ho. revert π p. induction level as [|level IH]; intros π p Hl Hpi Hp; simpl.
  { assert (π = path2 va) as -> by (rewrite Hpi; apply take_ge; simpl; lia).
    by rewrite Hp. }
  set (i := vpn_index va _).
  assert (0 <= i < 512) as Hi by (apply vpn_index_range; lia).
  assert (π ++ [i] = take (length (π ++ [i])) (path2 va)) as Hpi'.
  { rewrite length_app. destruct π as [|a [|b π]]; simpl in *; subst; 
      [|injection Hpi as ->|lia]; unfold i; repeat f_equal; lia. }
  assert (π = [] → own i) as Hown.
  { intros ->. simpl in *. unfold i. by replace (Z.of_nat (S level)) with 2 by lia. }
  pose proof (pt_entry _ _ _ _ Hr π p i Hp ltac:(lia) Hi Hown) as He.
  change (read_entry (slot (phys_to_virt p) i) s) with (entry_of s p i).
  destruct (N !! (π ++ [i])) as [q|] eqn:E.
  - rewrite He. destruct (make_table_pte_entry q) as (-> & -> & ->).
    { by eapply pt_pages. }
    simpl. apply (IH (π ++ [i])); [rewrite length_app; simpl; lia|done|done].
  - rewrite He. simpl.
    destruct (N !! path2 va) as [q|] eqn:E2; [|done]. exfalso.
    assert (∀ k, (k <= 2)%nat → is_Some (N !! take k (path2 va))) as Hpre.
    { assert (is_Some (N !! [vpn_index va 2])) as H1.
      { by destruct (pt_parent _ _ _ _ Hr [vpn_index va 2] (vpn_index va 1) q E2). }
      intros [|[|[|]]] ?; simpl; [|done|by exists q|lia].
      exists r. by apply (pt_root _ _ _ _ Hr). }
    destruct (Hpre (length (π ++ [i]))) as [x Hx]; [rewrite length_app; simpl; lia|].
    rewrite <- Hpi' in Hx. congruence.
Qed.

Lemma walk_read own s r N va :
  pt_rep own s r N → own (vpn_index va 2) → canonical va = true →
  walk (Some (mk_page_table r)) va false s
  = (match N !! path2 va with
     | Some q => slot (phys_to_virt q) (vpn_index va 0)
     | None => 0
     end, s).
Proof.
  intros Hr Ho Hc. pose proof (pt_pages _ _ _ _ Hr _ _ (pt_root _ _ _ _ Hr)) as [Hp _].
  unfold walk. simpl root. rewrite Hc. destruct (Z.eqb_spec r 0); [lia|]. simpl negb.
  by eapply (walk_levels_read _ _ _ _ _ 2 []), pt_root.
Qed.

Lemma slot_nonzero q i : page_ok q → 0 <= i → slot (phys_to_virt q) i ≠ 0.
Proof. intros [Hq _] Hi. unfold slot. rewrite phys_to_virt_page; lia. Qed.

(** [vm_query] answers from the last-level entry alone. *)
Lemma vm_query_leaf own s r N va :
  pt_rep own s r N → own (vpn_index va 2) →
  vm_query (Some (mk_page_table r)) va s
  = if canonical va then decode_leaf (leaf_entry s N va) va else None.
Proof.
  intros Hr Ho. unfold vm_query. destruct (canonical va) eqn:Hc.
  - rewrite (walk_read _ _ _ _ _ Hr Ho Hc). unfold decode_leaf, leaf_entry.
    destruct (N !! path2 va) as [q|] eqn:E; [|done].
    destruct (Z.eqb_spec (slot (phys_to_virt q) (vpn_index va 0)) 0) as [E0|_]; [|done].
    exfalso. revert E0. apply slot_nonzero; [by eapply pt_pages|].
    apply vpn_index_range. lia.
  - unfold walk. rewrite Hc. simpl. by rewrite orb_true_r.
Qed.

(** * The allocator and one table together *)

Record vm_inv (own : Z → Prop) (r : Z) (s : kstate) (N : gmap (list Z) Z) (l : list Z)
    : Prop := {
  vi_free : free_rep s l;
  vi_pt : pt_rep own s r N;
  vi_disj : ∀ p, p ∈ l → p ∉ map_vals N;
}.

(** [s'] is [s] after growing the table without changing any translation: the
    pages move between the free list and the table, and no byte outside them
    changes. *)
Record vm_ext (own : Z → Prop) (r : Z) (s : kstate) (N : gmap (list Z) Z) (l : list Z)
    (s' : kstate) (N' : gmap (list Z) Z) (l' : list Z) : Prop := {
  ve_inv : vm_inv own r s' N' l';
  ve_perm : l ++ map_vals N ≡ₚ l' ++ map_vals N';
  ve_leaf : ∀ va, leaf_entry s' N' va = leaf_entry s N va;
  ve_frame : same_on (outside (l ++ map_vals N)) (mem s) (mem s');
}.

Lemma outside_perm l k a : l ≡ₚ k → outside l a → outside k a.
Proof. intros Hp H p Hin. apply H. by rewrite Hp. Qed.

Lemma vm_ext_refl own r s N l : vm_inv own r s N l → vm_ext own r s N l s N l.
Proof. intros. by split. Qed.

Lemma vm_ext_trans own r s N l s1 N1 l1 s2 N2 l2 :
  vm_ext own r s N l s1 N1 l1 → vm_ext own r s1 N1 l1 s2 N2 l2 →
  vm_ext own r s N l s2 N2 l2.
Proof.
  intros [I1 P1 L1 F1] [I2 P2 L2 F2]. split; [done|by rewrite P1| |].
  - intros va. by rewrite L2, L1.
  - transitivity (mem s1); [done|]. eapply same_on_weaken; [|exact F2].
    intros a. by apply outside_perm.
Qed.

Lemma outside_not_in l p a : p ∈ l → outside l a → ¬ in_page p a.
Proof. intros Hp Ho. by apply Ho. Qed.

Lemma write_entry_frame (P : Z → Prop) s p i v :
  page_ok p → 0 <= i < 512 → (∀ a, P a → ¬ in_page p a) →
  same_on P (mem s) (mem (write_entry (slot (phys_to_virt p) i) v s)).
Proof.
  intros Hp Hi HP a Ha. simpl. apply load8_store64_out. intros Hb.
  by apply (HP a Ha), (entry_of_in_page p i).
Qed.

Lemma zero_page_frame (P : Z → Prop) s p :
  (∀ a, P a → ¬ in_page p a) → same_on P (mem s) (mem (zero_page p s)).
Proof. intros HP. apply memset_same_on. intros a Ha. by apply HP. Qed.

(** One round of [walk] that has to make a table. *)
Lemma vm_ext_new_table own r s N l π p i q s1 :
  vm_inv own r s N (q :: l) → N !! π = Some p → (length π < 2)%nat → 0 <= i < 512 →
  (π = [] → own i) → N !! (π ++ [i]) = None → page_alloc s = (q, s1) →
  let s2 := write_entry (slot (phys_to_virt p) i) (make_table_pte q) (zero_page q s1) in
  vm_ext own r s N (q :: l) s2 (<[π ++ [i] := q]> N) l ∧ entry_of s2 p i = make_table_pte q.
Proof.
  intros [Hf Hr Hd] Hp Hl Hi Ho HN Ea. simpl.
  pose proof (page_alloc_cons_rep _ _ _ Hf) as Hf1. rewrite Ea in Hf1. simpl in Hf1.
  pose proof (page_alloc_mem s) as Hm. rewrite Ea in Hm. simpl in Hm.
  assert (page_ok q ∧ q ∉ l) as [Hq Hql].
  { destruct Hf as [_ Hok Hnd _]. inversion Hok; inversion Hnd; subst. done. }
  assert (q ∉ map_vals N) as HqN by (apply Hd; by left).
  assert (∀ π' p', N !! π' = Some p' → page_ok p' ∧ p' ≠ q ∧ p' ∉ l) as HN'.
  { intros π' p' E. assert (p' ∈ map_vals N) as Hin by (apply elem_of_map_vals; eauto).
    split; [by eapply pt_pages|]. split; [by intros ->|].
    intros Hp'. apply (Hd p'); [by right|done]. }
  destruct (HN' _ _ Hp) as (Hpok & Hpq & Hpl).
  assert (in_u64 (make_table_pte q)) as Hu.
  { destruct Hq as [? ?]. apply make_table_pte_spec; [lia|done]. }
  set (s2 := write_entry _ _ _).
  assert (∀ p' j, page_ok p' → 0 <= j < 512 → entry_of s2 p' j =
    if decide (p = p' ∧ i = j) then make_table_pte q
    else if decide (q = p') then 0 else entry_of s p' j) as He.
  { intros p' j Hp' Hj. unfold s2. rewrite entry_write, entry_zero_page by done.
    unfold entry_of at 1, read_entry. by rewrite Hm. }
  assert (pt_rep own s2 r (<[π ++ [i] := q]> N)) as Hr2.
  { apply (pt_rep_insert own s s2 r N π p i q); try done.
    - intros π' p' j E Hj. destruct (HN' _ _ E) as (? & ? & ?). rewrite He by done.
      rewrite (decide_False (P := q = p')) by done.
      destruct (decide (p = p' ∧ i = j)), (decide (p' = p ∧ j = i)); naive_solver.
    - intros j Hj. rewrite He, decide_False, decide_True; naive_solver. }
  split; [|by rewrite He, decide_True].
  split.
  - split; [|done|].
    + apply free_rep_write; [|done|done|done]. by apply free_rep_zero_page.
    + intros p' Hp'. rewrite map_vals_insert by done. apply not_elem_of_cons.
      split; [by intros ->|]. apply Hd. by right.
  - rewrite map_vals_insert by done. apply Permutation_middle.
  - intros va. unfold leaf_entry. rewrite lookup_insert. case_decide as E.
    + rewrite <- E, HN. rewrite He by (auto with bits || (apply vpn_index_range; lia)).
      rewrite decide_False by naive_solver. by rewrite decide_True.
    + destruct (N !! path2 va) as [x|] eqn:Ex; [|done]. destruct (HN' _ _ Ex) as (? & ? & ?).
      rewrite He by (done || (apply vpn_index_range; lia)).
      rewrite (decide_False (P := q = x)) by done. rewrite decide_False; [done|].
      intros [-> _]. pose proof (pt_inj _ _ _ _ Hr _ _ _ Hp Ex) as ->. simpl in Hl. lia.
  - transitivity (mem s1); [by rewrite Hm|].
    transitivity (mem (zero_page q s1)).
    + apply zero_page_frame. intros a. apply outside_not_in. by left.
    + apply write_entry_frame; [done|done|]. intros a. apply outside_not_in.
      apply elem_of_app. right. apply elem_of_map_vals. eauto.
Qed.

Lemma path2_prefix va π level :
  (length π + S level = 2)%nat → π = take (length π) (path2 va) →
  π ++ [vpn_index va (Z.of_nat (S level))]
  = take (length (π ++ [vpn_index va (Z.of_nat (S level))])) (path2 va).
Proof.
  intros Hl Hpi. rewrite length_app. destruct π as [|a [|b π]]; simpl in *; subst;
    [|injection Hpi as ->|lia]; repeat f_equal; lia.
Qed.

(** [walk] with [create] either reaches the last-level slot of [va], growing the
    table as needed, or stops because the allocator has run dry, which takes
    fewer free pages than levels to go. *)
Lemma walk_levels_create own r va level π p s N l :
  vm_inv own r s N l → own (vpn_index va 2) →
  (length π + level = 2)%nat → π = take (length π) (path2 va) → N !! π = Some p →
  ∃ e s' N' l', walk_levels level (phys_to_virt p) va true s = (e, s') ∧
    vm_ext own r s N l s' N' l' ∧
    ((e = 0 ∧ (length l < level)%nat) ∨
     (∃ q, N' !! path2 va = Some q ∧ e = slot (phys_to_virt q) (vpn_index va 0))).
Proof.
  intros Hi Ho. revert π p s N l Hi.
  induction level as [|level IH]; intros π p s N l Hv Hl Hpi Hp; cbn [walk_levels].
  { exists (slot (phys_to_virt p) (vpn_index va 0)), s, N, l. split; [done|].
    split; [by apply vm_ext_refl|]. right. exists p. split; [|done].
    rewrite <- Hp, Hpi. f_equal. symmetry. apply take_ge. simpl. lia. }
  pose proof (path2_prefix va π level Hl Hpi) as Hpi'.
  set (i := vpn_index va (Z.of_nat (S level))) in *.
  assert (0 <= i < 512) as Hir by (apply vpn_index_range; lia).
  assert (π = [] → own i) as Hown.
  { intros ->. simpl in *. unfold i. by replace (Z.of_nat (S level)) with 2 by lia. }
  assert (length (π ++ [i]) + level = 2)%nat as Hl' by (rewrite length_app; simpl; lia).
  pose proof (pt_entry _ _ _ _ (vi_pt _ _ _ _ _ Hv) π p i Hp ltac:(lia) Hir Hown) as He.
  change (read_entry (slot (phys_to_virt p) i) s) with (entry_of s p i).
  destruct (N !! (π ++ [i])) as [q|] eqn:E.
  - destruct (make_table_pte_entry q) as (T1 & T2 & T3).
    { by eapply pt_pages; [apply Hv|]. }
    rewrite He, T1, T2, T3. simpl.
    destruct (IH (π ++ [i]) q s N l Hv Hl' Hpi' E) as (e & s' & N' & l' & Hw & Hx & Hres).
    exists e, s', N', l'. split; [done|]. split; [done|].
    destruct Hres as [[-> ?]|?]; [left; split; [done|lia]|by right].
  - rewrite He. simpl.
    destruct (page_alloc_spec s l (vi_free _ _ _ _ _ Hv)) as (q & s1 & Ea & _ & Hcase).
    rewrite Ea. destruct Hcase as [(-> & -> & ->)|(l1 & -> & Hq & _ & _)].
    { exists 0, s, N, []. split; [done|]. split; [by apply vm_ext_refl|]. left.
      split; [done|]. simpl. lia. }
    destruct (Z.eqb_spec q 0) as [E0|_]; [destruct Hq; lia|].
    destruct (vm_ext_new_table own r s N l1 π p i q s1) as [Hx He2];
      [done|done|lia|done|done|done|done|].
    set (s2 := write_entry _ _ _) in *.
    change (read_entry (slot (phys_to_virt p) i) s2) with (entry_of s2 p i).
    destruct (make_table_pte_entry q Hq) as (_ & _ & T3). rewrite He2, T3.
    destruct (IH (π ++ [i]) q s2 _ l1 (ve_inv _ _ _ _ _ _ _ _ Hx) Hl' Hpi')
      as (e & s' & N' & l' & Hw & Hx' & Hres); [apply lookup_insert_eq|].
    exists e, s', N', l'. split; [done|]. split; [by eapply vm_ext_trans|].
    destruct Hres as [[-> ?]|?]; [left; split; [done|simpl; lia]|by right].
Qed.

Lemma walk_create own r va s N l :
  vm_inv own r s N l → own (vpn_index va 2) → canonical va = true →
  ∃ e s' N' l', walk (Some (mk_page_table r)) va true s = (e, s') ∧
    vm_ext own r s N l s' N' l' ∧
    ((e = 0 ∧ (length l < 2)%nat) ∨
     (∃ q, N' !! path2 va = Some q ∧ e = slot (phys_to_virt q) (vpn_index va 0))).
Proof.
  intros Hv Ho Hc. pose proof (pt_root _ _ _ _ (vi_pt _ _ _ _ _ Hv)) as Hr0.
  pose proof (pt_pages _ _ _ _ (vi_pt _ _ _ _ _ Hv) _ _ Hr0) as [Hp _].
  unfold walk. simpl root. rewrite Hc. destruct (Z.eqb_spec r 0); [lia|]. simpl negb.
  by apply (walk_levels_create own r va 2 [] r s N l).
Qed.

(** * Writing a last-level entry *)

Definition same_vpn (va va' : Z) : Prop :=
  vpn_index va 2 = vpn_index va' 2 ∧ vpn_index va 1 = vpn_index va' 1 ∧
  vpn_index va 0 = vpn_index va' 0.

#[export] Instance same_vpn_dec va va' : Decision (same_vpn va va').
Proof. unfold same_vpn. apply _. Defined.

Lemma leaf_write own r s N l va q v :
  vm_inv own r s N l → N !! path2 va = Some q → in_u64 v →
  let s' := write_entry (slot (phys_to_virt q) (vpn_index va 0)) v s in
  vm_inv own r s' N l ∧
  (∀ va', leaf_entry s' N va' = if decide (same_vpn va va') then v else leaf_entry s N va') ∧
  same_on (outside (l ++ map_vals N)) (mem s) (mem s').
Proof.
  intros [Hf Hr Hd] Hq Hv s'. subst s'.
  assert (q ∈ map_vals N) as HqN by (apply elem_of_map_vals; eauto).
  pose proof (pt_pages _ _ _ _ Hr _ _ Hq) as Hqok.
  assert (0 <= vpn_index va 0 < 512) as Hi by (apply vpn_index_range; lia).
  split; [split|split].
  - apply free_rep_write; [exact Hf|exact Hqok| |exact Hi]. intros Hin. by apply (Hd q).
  - eapply pt_rep_frame; [|exact Hr]. intros π p i Hp Hl Hir.
    pose proof (pt_pages _ _ _ _ Hr _ _ Hp).
    rewrite entry_write by assumption. apply decide_False. intros [-> _].
    pose proof (pt_inj _ _ _ _ Hr _ _ _ Hp Hq) as ->. simpl in Hl. lia.
  - done.
  - intros va'. unfold leaf_entry. destruct (N !! path2 va') as [q'|] eqn:E.
    + rewrite entry_write;
        [|exact Hqok|by eapply pt_pages|exact Hi|apply vpn_index_range; lia|exact Hv].
      assert (q = q' ↔ vpn_index va 2 = vpn_index va' 2 ∧ vpn_index va 1 = vpn_index va' 1)
        as Hiff.
      { split.
        - intros <-. pose proof (pt_inj _ _ _ _ Hr _ _ _ Hq E) as Ep.
          unfold path2 in Ep. by injection Ep.
        - intros [E2 E1]. unfold path2 in *. rewrite E2, E1 in Hq. congruence. }
      unfold same_vpn. destruct (decide (q = q' ∧ _)), (decide (_ ∧ _)); tauto.
    + rewrite decide_False; [done|]. unfold same_vpn, path2 in *. intros (E2 & E1 & _).
      rewrite E2, E1 in Hq. congruence.
  - apply write_entry_frame; [exact Hqok|exact Hi|]. intros a. apply outside_not_in.
    apply elem_of_app. by right.
Qed.

(** * Taking out an empty table *)

(** Every entry of the table page [q] is invalid. *)
Definition empty_table (s : kstate) (q : Z) : Prop :=
  ∀ j, 0 <= j < 512 → Z.land (entry_of s q j) PTE_V = 0.

Lemma elem_of_indices (n : nat) i : i ∈ (Z.of_nat <$> seq 0 n) ↔ 0 <= i < Z.of_nat n.
Proof.
  rewrite list_elem_of_fmap. setoid_rewrite elem_of_seq. split.
  - intros (k & -> & Hk). lia.
  - intros Hi. exists (Z.to_nat i). lia.
Qed.

Lemma table_empty_spec s q : table_empty (phys_to_virt q) s = true ↔ empty_table s q.
Proof.
  unfold table_empty, empty_table. rewrite forallb_forall.
  split; intros H j Hj.
  - apply Z.eqb_eq, H, list_elem_of_In, elem_of_indices. lia.
  - apply list_elem_of_In, elem_of_indices in Hj. apply Z.eqb_eq, H. lia.
Qed.

(** An empty table has no children. *)
Lemma empty_table_childless own s r N π q j :
  pt_rep own s r N → N !! π = Some q → π ≠ [] → empty_table s q → N !! (π ++ [j]) = None.
Proof.
  intros Hr Hq Hne He. destruct (N !! (π ++ [j])) as [x|] eqn:E; [|done]. exfalso.
  destruct (pt_parent _ _ _ _ Hr _ _ _ E) as (_ & Hj & _).
  pose proof (pt_shape _ _ _ _ Hr _ _ E) as Hl. rewrite length_app in Hl. simpl in Hl.
  pose proof (pt_entry _ _ _ _ Hr π q j Hq ltac:(lia) Hj ltac:(done)) as Hx.
  rewrite E in Hx. pose proof (He j Hj) as H0. rewrite Hx in H0.
  destruct (make_table_pte_entry x) as (T & _); [by eapply pt_pages|]. rewrite H0 in T. done.
Qed.

(** Two last-level entries that every reader treats alike. *)
Definition leaf_equiv (e e' : Z) : Prop :=
  e = e' ∨ (Z.land e PTE_V = 0 ∧ Z.land e' PTE_V = 0).

#[export] Instance leaf_equiv_equivalence : Equivalence leaf_equiv.
Proof.
  split; unfold leaf_equiv.
  - intros e. by left.
  - intros e e' [->|[? ?]]; auto.
  - intros e1 e2 e3 [->|[? ?]] [->|[? ?]]; auto.
Qed.

(** [s'] is [s] after reorganising the table without changing what any reader
    sees: pages move between the free list and the table, and no byte outside
    them changes. *)
Record vm_sim (own : Z → Prop) (r : Z) (s : kstate) (N : gmap (list Z) Z) (l : list Z)
    (s' : kstate) (N' : gmap (list Z) Z) (l' : list Z) : Prop := {
  vs_inv : vm_inv own r s' N' l';
  vs_perm : l ++ map_vals N ≡ₚ l' ++ map_vals N';
  vs_leaf : ∀ va, leaf_equiv (leaf_entry s' N' va) (leaf_entry s N va);
  vs_frame : same_on (outside (l ++ map_vals N)) (mem s) (mem s');
}.

Lemma vm_sim_refl own r s N l : vm_inv own r s N l → vm_sim own r s N l s N l.
Proof. intros. split; [done|done|done|]. done. Qed.

Lemma vm_sim_trans own r s N l s1 N1 l1 s2 N2 l2 :
  vm_sim own r s N l s1 N1 l1 → vm_sim own r s1 N1 l1 s2 N2 l2 →
  vm_sim own r s N l s2 N2 l2.
Proof.
  intros [I1 P1 L1 F1] [I2 P2 L2 F2]. split; [done|by rewrite P1| |].
  - intros va. by rewrite L2, L1.
  - transitivity (mem s1); [done|]. eapply same_on_weaken; [|exact F2].
    intros a. by apply outside_perm.
Qed.

Lemma vm_ext_sim own r s N l s' N' l' :
  vm_ext own r s N l s' N' l' → vm_sim own r s N l s' N' l'.
Proof. intros [I P L F]. split; [done|done| |done]. intros va. by rewrite L. Qed.

(** [page_free] of the table, then [entries[i] = 0] in its parent. *)
Lemma remove_table own r s N l π p i q :
  vm_inv own r s N l → N !! π = Some p → N !! (π ++ [i]) = Some q → empty_table s q →
  let s' := write_entry (slot (phys_to_virt p) i) 0 (page_free q s) in
  vm_sim own r s N l s' (delete (π ++ [i]) N) (q :: l) ∧
  (∀ p' j, page_ok p' → p' ≠ q → 0 <= j < 512 →
     entry_of s' p' j = if decide (p = p' ∧ i = j) then 0 else entry_of s p' j).
Proof.
  intros [Hf Hr Hd] Hp Hq Hempty s'. subst s'.
  assert (∀ j, N !! ((π ++ [i]) ++ [j]) = None) as Hch.
  { intros j. eapply empty_table_childless; [done|done|by destruct π|done]. }
  pose proof (pt_pages _ _ _ _ Hr _ _ Hp) as Hpok.
  pose proof (pt_pages _ _ _ _ Hr _ _ Hq) as Hqok.
  destruct (pt_parent _ _ _ _ Hr _ _ _ Hq) as (_ & Hi & _).
  assert (p ≠ q) as Hpq.
  { intros ->. pose proof (pt_inj _ _ _ _ Hr _ _ _ Hp Hq) as E.
    apply (f_equal length) in E. rewrite length_app in E. simpl in E. lia. }
  assert (p ∈ map_vals N ∧ q ∈ map_vals N) as [HpN HqN]
    by (split; apply elem_of_map_vals; eauto).
  set (s' := write_entry _ _ _).
  assert (∀ p' j, page_ok p' → p' ≠ q → 0 <= j < 512 → entry_of s' p' j =
    if decide (p = p' ∧ i = j) then 0 else entry_of s p' j) as He.
  { intros p' j Hp' Hne Hj. unfold s'. rewrite entry_write, entry_page_free; auto; by split. }
  assert (pt_rep own s' r (delete (π ++ [i]) N)) as Hr'.
  { apply (pt_rep_delete own s s' r N π p i q); try done. intros π' p' j E Hne Hj.
    rewrite He by (try done; by eapply pt_pages).
    destruct (decide (p = p' ∧ _)), (decide (p' = p ∧ _)); naive_solver. }
  assert (∀ x, x ∈ map_vals (delete (π ++ [i]) N) → x ∈ map_vals N ∧ x ≠ q) as Hsub.
  { intros x. rewrite !elem_of_map_vals. intros [k Hk]. apply lookup_delete_Some in Hk as [Hne Hk].
    split; [by exists k|]. intros ->. by apply Hne, (pt_inj _ _ _ _ Hr _ _ q). }
  split; [|done]. split.
  - split; [|done|].
    + apply free_rep_write; [|done| |done].
      * apply page_free_rep; [done|done|]. intros Hin. by apply (Hd q).
      * apply not_elem_of_cons. split; [done|]. intros Hin. by apply (Hd p).
    + intros x Hx Hin. apply Hsub in Hin as [Hin Hne].
      apply elem_of_cons in Hx as [->|Hx]; [done|]. by apply (Hd x).
  - rewrite (map_vals_delete N _ _ Hq). rewrite <- Permutation_middle. done.
  - intros va. unfold leaf_entry. rewrite lookup_delete. case_decide as E.
    + rewrite <- E, Hq. right. split; [done|]. apply Hempty, vpn_index_range. lia.
    + left. destruct (N !! path2 va) as [x|] eqn:Ex; [|done].
      rewrite He; [|exact (pt_pages _ _ _ _ Hr _ _ Ex)| |apply vpn_index_range; lia].
      * apply decide_False. intros [-> _].
        pose proof (pt_inj _ _ _ _ Hr _ _ _ Hp Ex) as ->.
        apply (pt_shape _ _ _ _ Hr) in Hq. rewrite length_app in Hq. simpl in Hq. lia.
      * intros ->. by apply E, (pt_inj _ _ _ _ Hr _ _ q).
  - transitivity (mem (page_free q s)).
    + apply page_free_frame; [done|]. intros a. apply outside_not_in, elem_of_app. by right.
    + apply write_entry_frame; [done|done|]. intros a. apply outside_not_in, elem_of_app.
      by right.
Qed.

(** * Tables in other pages *)

Lemma vm_inv_pages own r s N l : vm_inv own r s N l → ∀ p, p ∈ l ++ map_vals N → page_ok p.
Proof.
  intros [Hf Hr _] p. rewrite elem_of_app, elem_of_map_vals. intros [Hp|[π Hp]].
  - pose proof (fr_pages _ _ Hf) as H. rewrite Forall_forall in H. auto.
  - by eapply pt_pages.
Qed.

(** A table whose pages lie outside the changed ones is intact. *)
Lemma pt_rep_outside own s s' r N pages :
  (∀ p, p ∈ pages → page_ok p) → (∀ p, p ∈ map_vals N → p ∉ pages) →
  same_on (outside pages) (mem s) (mem s') → pt_rep own s r N →
  pt_rep own s' r N ∧ ∀ va, leaf_entry s' N va = leaf_entry s N va.
Proof.
  intros Hok Hdis Hm Hr.
  assert (∀ π p i, N !! π = Some p → 0 <= i < 512 → entry_of s' p i = entry_of s p i) as He.
  { intros π p i Hp Hi. pose proof (pt_pages _ _ _ _ Hr _ _ Hp) as Hpok.
    apply entry_of_frame; [done|done|]. eapply same_on_weaken; [|exact Hm].
    intros a Ha q Hq Hqa. apply (Hdis p); [apply elem_of_map_vals; eauto|].
    rewrite (in_page_disjoint p q a); auto. }
  split; [apply (pt_rep_frame own s); eauto|].
  intros va. unfold leaf_entry. destruct (N !! path2 va) as [q|] eqn:E; [|done].
  apply (He (path2 va)); [done|]. apply vpn_index_range. lia.
Qed.
