(* ===== verification/VmProps.v ===== *)
(** Theorems about [src/mm/vm.c]: creation, mapping, unmapping and protection
    of Sv39 tables, stated through [vm_query]. *)
From S2P Require Import Prelude Machine Runtime BootInfo PageAlloc Vm VmInv.

(** * Addresses *)

(** [vpn_index] as arithmetic. *)
Lemma vpn_index_eq va level : 0 <= level → vpn_index va level = va / 2 ^ (12 + level * 9) mod 512.
Proof.
  intros. unfold vpn_index. rewrite Z.shiftr_div_pow2 by lia. apply (land_low _ 9). lia.
Qed.

(** The three indices are the 27 bits of the page number the walk looks at. *)
Lemma same_vpn_iff va va' :
  same_vpn va va' ↔ (va / 4096) mod 2 ^ 27 = (va' / 4096) mod 2 ^ 27.
Proof.
  unfold same_vpn. rewrite !vpn_index_eq by lia.
  change (2 ^ (12 + 0 * 9)) with 4096. change (2 ^ (12 + 1 * 9)) with (4096 * 512).
  change (2 ^ (12 + 2 * 9)) with (4096 * (512 * 512)).
  rewrite <- !Z.div_div by lia. generalize (va / 4096) as x, (va' / 4096) as y.
  intros x y. change (2 ^ 27) with 134217728. split; div_lia.
Qed.

Lemma same_vpn_refl va : same_vpn va va.
Proof. by split. Qed.

(** In the user half equal indices mean the same page. *)
Lemma same_vpn_user va va' :
  0 <= va < 2 ^ 38 → 0 <= va' < 2 ^ 38 → same_vpn va va' ↔ va / 4096 = va' / 4096.
Proof. intros. rewrite same_vpn_iff. rewrite !Z.mod_small by div_lia. done. Qed.

Lemma canonical_user va : 0 <= va < 2 ^ 38 → canonical va = true.
Proof.
  intros. unfold canonical. rewrite Z.shiftr_div_pow2 by lia.
  rewrite Z.div_small by lia. done.
Qed.

Lemma vpn_index_user va : 0 <= va < 2 ^ 38 → vpn_index va 2 < 256.
Proof. intros. rewrite vpn_index_eq by lia. simpl. div_lia. Qed.

(** Root entries of the private lower half. *)
Definition lower_half (i : Z) : Prop := i < 256.
Definition whole (i : Z) : Prop := True.

(** * Decoding leaves *)

Lemma decode_leaf_invalid e va : Z.land e PTE_V = 0 → decode_leaf e va = None.
Proof. intros H. unfold decode_leaf. by rewrite H. Qed.

Lemma decode_leaf_equiv e e' va : leaf_equiv e e' → decode_leaf e va = decode_leaf e' va.
Proof. intros [->|[H1 H2]]; [done|]. by rewrite !decode_leaf_invalid. Qed.

Lemma decode_leaf_pte p flags va :
  0 <= p < 2 ^ 56 → p mod 4096 = 0 → in_u64 flags → valid_leaf_flags flags = true →
  decode_leaf (leaf_pte p flags) va = Some (p + va mod 4096, leaf_bits flags).
Proof.
  intros Hp Ha Hf Hv. destruct (leaf_pte_spec p flags) as (_ & Hphys & Hm); try done.
  destruct (leaf_bits_spec flags) as (Hb & H1 & H2 & H3); [done..|].
  unfold decode_leaf. rewrite !(land_low_bits (leaf_pte p flags)), Hm, Hphys, H3 by lia.
  rewrite land_page_mask.
  destruct (Z.eqb_spec (Z.land (leaf_bits flags) 1) 0); [done|].
  destruct (Z.eqb_spec (Z.land (leaf_bits flags) 10) 0); [done|]. simpl.
  replace p with (p / 4096 * 2 ^ 12) at 1 by (change (2 ^ 12) with 4096; div_lia).
  rewrite lor_field by (change (2 ^ 12) with 4096; div_lia).
  do 2 f_equal. change (2 ^ 12) with 4096. div_lia.
Qed.

(** Queries that see equivalent leaves agree. *)
Lemma vm_query_ext own r s N s' N' va :
  pt_rep own s r N → pt_rep own s' r N' → own (vpn_index va 2) →
  decode_leaf (leaf_entry s' N' va) va = decode_leaf (leaf_entry s N va) va →
  vm_query (Some (mk_page_table r)) va s' = vm_query (Some (mk_page_table r)) va s.
Proof.
  intros H1 H2 Ho He. rewrite (vm_query_leaf _ _ _ _ _ H1 Ho), (vm_query_leaf _ _ _ _ _ H2 Ho).
  by rewrite He.
Qed.

(** * Creation *)

Lemma pt_rep_root own s r :
  page_ok r → (∀ i, 0 <= i < 512 → own i → Z.land (entry_of s r i) PTE_V = 0) →
  pt_rep own s r {[ [] := r ]}.
Proof.
  intros Hr Hz. split.
  - apply lookup_singleton_eq.
  - intros π p E. apply lookup_singleton_Some in E as [_ <-]. done.
  - intros π p E. apply lookup_singleton_Some in E as [<- _]. simpl. lia.
  - intros π π' p E E'. apply lookup_singleton_Some in E as [<- _], E' as [<- _]. done.
  - intros π i p E. apply lookup_singleton_Some in E as [E _]. by destruct π.
  - intros π p i E _ Hi Ho. apply lookup_singleton_Some in E as [<- <-].
    rewrite lookup_singleton_ne by done. by apply Hz; [|apply Ho].
Qed.

Lemma map_vals_root (r : Z) : map_vals ({[ [] := r ]} : gmap (list Z) Z) = [r].
Proof. unfold map_vals. by rewrite map_to_list_singleton. Qed.

Lemma vm_create_spec own t s l :
  free_rep s l →
  let '(ok, t', s') := vm_create (Some t) s in
  (ok = false ∧ l = [] ∧ t' = Some (mk_page_table 0) ∧ s' = s) ∨
  (ok = true ∧ ∃ r l', l = r :: l' ∧ t' = Some (mk_page_table r) ∧
     vm_inv own r s' {[ [] := r ]} l' ∧ (∀ va, leaf_entry s' {[ [] := r ]} va = 0) ∧
     (∀ i, 0 <= i < 512 → entry_of s' r i = 0) ∧
     same_on (λ a, ¬ in_page r a) (mem s) (mem s')).
Proof.
  intros Hf. unfold vm_create.
  destruct (page_alloc_spec s l Hf) as (p & s1 & -> & Hm & [(-> & -> & ->)|(l' & -> & Hp & Hpl & Hf1)]).
  { by left. }
  destruct (Z.eqb_spec p 0); [destruct Hp; lia|]. right. split; [done|].
  assert (∀ i, 0 <= i < 512 → entry_of (zero_page p s1) p i = 0) as Hz.
  { intros i Hi. rewrite entry_zero_page by done. by rewrite decide_True. }
  exists p, l'. split; [done|]. split; [done|]. split; [|split; [|split]].
  - split.
    + by apply free_rep_zero_page.
    + apply pt_rep_root; [done|]. intros i Hi _. by rewrite Hz.
    + intros q Hq. rewrite map_vals_root. intros ->%list_elem_of_singleton. done.
  - intros va. unfold leaf_entry. by rewrite lookup_singleton_ne.
  - done.
  - rewrite <- Hm. by apply zero_page_frame.
Qed.

(** * Mapping *)

Lemma vm_map_unfold t va pa flags s :
  va mod 4096 = 0 → pa mod 4096 = 0 → valid_leaf_flags flags = true →
  vm_map t va pa flags s =
  let '(entry, s) := walk t va true s in
  if (entry =? 0) || negb (Z.land (read_entry entry s) PTE_V =? 0) then (false, s)
  else (true, write_entry entry (leaf_pte pa flags) s).
Proof. intros H1 H2 H3. unfold vm_map. by rewrite !land_page_mask, H1, H2, H3. Qed.

(** Everything [vm_map] can do, in terms of nodes and leaves. *)
Lemma vm_map_spec own r s N l va pa flags :
  vm_inv own r s N l → own (vpn_index va 2) → canonical va = true →
  va mod 4096 = 0 → 0 <= pa < 2 ^ 56 → pa mod 4096 = 0 →
  in_u64 flags → valid_leaf_flags flags = true →
  ∃ ok s' N' l', vm_map (Some (mk_page_table r)) va pa flags s = (ok, s') ∧
    vm_inv own r s' N' l' ∧ l ++ map_vals N ≡ₚ l' ++ map_vals N' ∧
    same_on (outside (l ++ map_vals N)) (mem s) (mem s') ∧
    (ok = false → ((∀ va', leaf_entry s' N' va' = leaf_entry s N va') ∧
       (Z.land (leaf_entry s N va) PTE_V = 0 → (length l < 2)%nat))) ∧
    (ok = true → Z.land (leaf_entry s N va) PTE_V = 0 ∧ ∀ va', leaf_entry s' N' va' =
       if decide (same_vpn va va') then leaf_pte pa flags else leaf_entry s N va').
Proof.
  intros Hv Ho Hc Ha Hpa Hpaa Hfu Hfl. rewrite vm_map_unfold by done.
  destruct (walk_create own r va s N l Hv Ho Hc) as (e & s1 & N1 & l1 & Hw & Hx & Hres).
  rewrite Hw. destruct Hx as [Hv1 Hperm Hleaf Hframe].
  destruct Hres as [[-> Hlen]|(q & Hq & ->)].
  { exists false, s1, N1, l1. split; [done|]. split; [done|]. split; [done|].
    split; [done|]. split; [|done]. intros _. split; [done|]. done. }
  pose proof (pt_pages _ _ _ _ (vi_pt _ _ _ _ _ Hv1) _ _ Hq) as Hqok.
  assert (slot (phys_to_virt q) (vpn_index va 0) ≠ 0) as Hnz.
  { apply slot_nonzero; [done|]. apply vpn_index_range. lia. }
  destruct (Z.eqb_spec (slot (phys_to_virt q) (vpn_index va 0)) 0); [done|].
  assert (read_entry (slot (phys_to_virt q) (vpn_index va 0)) s1 = leaf_entry s N va) as He.
  { rewrite <- Hleaf. unfold leaf_entry. by rewrite Hq. }
  rewrite He. destruct (Z.eqb_spec (Z.land (leaf_entry s N va) PTE_V) 0) as [E|E]; bsimpl.
  - destruct (leaf_pte_spec pa flags) as (Hu & _); try done.
    destruct (leaf_write own r s1 N1 l1 va q _ Hv1 Hq Hu) as (Hv2 & Hl2 & Hf2).
    set (s2 := write_entry _ _ _) in *.
    exists true, s2, N1, l1. split; [done|]. split; [done|]. split; [done|]. split.
    { transitivity (mem s1); [done|]. eapply same_on_weaken; [|exact Hf2].
      intros a. by apply outside_perm. }
    split; [done|]. intros _. split; [done|]. intros va'. by rewrite Hl2, Hleaf.
  - exists false, s1, N1, l1. split; [done|]. split; [done|]. split; [done|]. split; [done|].
    split; [|done]. intros _. split; [done|]. done.
Qed.

(** * Unmapping *)

Lemma not_table_entry_table q : page_ok q → not_table_entry (make_table_pte q) = false.
Proof.
  intros Hq. destruct (make_table_pte_entry q Hq) as (H1 & H2 & _).
  unfold not_table_entry. by rewrite H1, H2.
Qed.

Lemma not_table_entry_invalid e : Z.land e PTE_V = 0 → not_table_entry e = true.
Proof. intros H. unfold not_table_entry. by rewrite H. Qed.

(** The two conditions under which [vm_unmap] refuses a last-level entry. *)
Lemma unmap_guard e :
  (Z.land e (Z.lor PTE_V PTE_RX) =? PTE_V) || (Z.land e PTE_V =? 0)
  = (Z.land e PTE_V =? 0) || (Z.land e PTE_RX =? 0).
Proof.
  change (Z.lor 1 10) with 11.
  rewrite (land_low_bits e 11), (land_low_bits e 1), (land_low_bits e 10) by lia.
  pose proof (Z.mod_pos_bound e 1024 ltac:(lia)) as H.
  generalize dependent (e mod 1024). intros x Hx.
  apply eqb_prop.
  apply (all_below (λ x, Bool.eqb ((Z.land x 11 =? 1) || (Z.land x 1 =? 0))
           ((Z.land x 1 =? 0) || (Z.land x 10 =? 0))) 1024); [by vm_compute|lia].
Qed.

(** The path of [va] through a table, level by level. *)
Lemma table_path own s r N va :
  pt_rep own s r N → own (vpn_index va 2) →
  (Z.land (entry_of s r (vpn_index va 2)) PTE_V = 0 ∧ N !! path2 va = None) ∨
  (∃ p1, N !! [vpn_index va 2] = Some p1 ∧ page_ok p1 ∧
     entry_of s r (vpn_index va 2) = make_table_pte p1 ∧
     ((Z.land (entry_of s p1 (vpn_index va 1)) PTE_V = 0 ∧ N !! path2 va = None) ∨
      (∃ p0, N !! path2 va = Some p0 ∧ page_ok p0 ∧
         entry_of s p1 (vpn_index va 1) = make_table_pte p0))).
Proof.
  intros Hr Ho. assert (∀ k, 0 <= k → 0 <= vpn_index va k < 512) as Hix
    by (intros; by apply vpn_index_range).
  pose proof (pt_entry _ _ _ _ Hr [] r (vpn_index va 2) (pt_root _ _ _ _ Hr)
    ltac:(simpl; lia) (Hix 2 ltac:(lia)) ltac:(done)) as E2. simpl in E2.
  destruct (N !! [vpn_index va 2]) as [p1|] eqn:H2.
  - right. exists p1. split; [done|]. split; [by eapply pt_pages|]. split; [done|].
    pose proof (pt_entry _ _ _ _ Hr [vpn_index va 2] p1 (vpn_index va 1) H2
      ltac:(simpl; lia) (Hix 1 ltac:(lia)) ltac:(done)) as E1. simpl in E1.
    fold (path2 va) in E1. destruct (N !! path2 va) as [p0|] eqn:H1; [|by left].
    right. exists p0. split; [done|]. split; [by eapply pt_pages|done].
  - left. split; [done|]. apply (pt_rep_fresh_children _ _ _ _ [] _ (vpn_index va 1) Hr H2).
Qed.

Lemma virt_to_phys_page p : page_ok p → virt_to_phys (phys_to_virt p) = p.
Proof. intros [Hp _]. apply virt_phys. unfold in_u64. lia. Qed.

(** One round of the freeing loop. *)
Lemma free_empty_cons own r s N l π p i q rest :
  vm_inv own r s N l → N !! π = Some p → N !! (π ++ [i]) = Some q →
  free_empty ((phys_to_virt q, slot (phys_to_virt p) i) :: rest) s = s ∨
  ∃ s', free_empty ((phys_to_virt q, slot (phys_to_virt p) i) :: rest) s = free_empty rest s' ∧
    vm_sim own r s N l s' (delete (π ++ [i]) N) (q :: l).
Proof.
  intros Hv Hp Hq. cbn [free_empty].
  destruct (table_empty (phys_to_virt q) s) eqn:E; bsimpl; [|by left]. right.
  rewrite virt_to_phys_page by (eapply pt_pages; [apply Hv|done]).
  eexists. split; [done|]. apply remove_table; [done|done|done|]. by apply table_empty_spec.
Qed.

Lemma free_empty_path own r s N l va p1 p0 :
  vm_inv own r s N l → N !! [vpn_index va 2] = Some p1 → N !! path2 va = Some p0 →
  ∃ s' N' l', vm_sim own r s N l s' N' l' ∧
    free_empty [(phys_to_virt p0, slot (phys_to_virt p1) (vpn_index va 1));
                (phys_to_virt p1, slot (phys_to_virt r) (vpn_index va 2))] s = s'.
Proof.
  intros Hv H1 H0. pose proof (pt_root _ _ _ _ (vi_pt _ _ _ _ _ Hv)) as Hroot.
  destruct (free_empty_cons own r s N l [vpn_index va 2] p1 (vpn_index va 1) p0
    [(phys_to_virt p1, slot (phys_to_virt r) (vpn_index va 2))] Hv H1 H0) as [->|(s1 & -> & S1)].
  { exists s, N, l. split; [by apply vm_sim_refl|done]. }
  destruct (free_empty_cons own r s1 _ _ [] r (vpn_index va 2) p1 [] (vs_inv _ _ _ _ _ _ _ _ S1))
    as [->|(s2 & -> & S2)].
  - by rewrite lookup_delete_ne.
  - by rewrite lookup_delete_ne.
  - by eexists s1, _, _.
  - eexists s2, _, _. split; [by eapply vm_sim_trans|done].
Qed.

Definition leaf_mapped (e : Z) : bool := negb ((Z.land e PTE_V =? 0) || (Z.land e PTE_RX =? 0)).

Lemma vm_unmap_spec own r s N l va :
  vm_inv own r s N l → own (vpn_index va 2) → canonical va = true → va mod 4096 = 0 →
  if leaf_mapped (leaf_entry s N va) then
    ∃ s' N' l', vm_unmap (Some (mk_page_table r)) va s = (true, s') ∧
      vm_inv own r s' N' l' ∧ l ++ map_vals N ≡ₚ l' ++ map_vals N' ∧
      same_on (outside (l ++ map_vals N)) (mem s) (mem s') ∧
      ∀ va', leaf_equiv (leaf_entry s' N' va')
        (if decide (same_vpn va va') then 0 else leaf_entry s N va')
  else vm_unmap (Some (mk_page_table r)) va s = (false, s).
Proof.
  intros Hv Ho Hc Ha. pose proof (vi_pt _ _ _ _ _ Hv) as Hr.
  pose proof (pt_pages _ _ _ _ Hr _ _ (pt_root _ _ _ _ Hr)) as Hrok.
  unfold vm_unmap, root_pointer. cbn [root]. rewrite land_page_mask, Ha, Hc.
  destruct (Z.eqb_spec r 0); [destruct Hrok; lia|]. bsimpl. rewrite ?entry_fold.
  unfold leaf_mapped. destruct (table_path own s r N va Hr Ho)
    as [[E2 E]|(p1 & H1 & Hp1 & E2 & [[E1 E]|(p0 & H0 & Hp0 & E1)])].
  { unfold leaf_entry. by rewrite E, (not_table_entry_invalid _ E2). }
  { unfold leaf_entry. rewrite E, E2, not_table_entry_table by done.
    destruct (make_table_pte_entry p1 Hp1) as (_ & _ & ->).
    rewrite ?entry_fold. by rewrite (not_table_entry_invalid _ E1). }
  rewrite E2, not_table_entry_table by done.
  destruct (make_table_pte_entry p1 Hp1) as (_ & _ & ->).
  rewrite ?entry_fold, E1, not_table_entry_table by done.
  destruct (make_table_pte_entry p0 Hp0) as (_ & _ & ->). rewrite ?entry_fold.
  assert (leaf_entry s N va = entry_of s p0 (vpn_index va 0)) as Hleaf
    by (unfold leaf_entry; by rewrite H0).
  rewrite Hleaf, <- unmap_guard.
  destruct (_ =? PTE_V); bsimpl; [done|]. destruct (_ =? 0); bsimpl; [done|].
  destruct (leaf_write own r s N l va p0 0 Hv H0) as (Hv1 & Hl1 & Hf1); [by split|].
  set (s1 := write_entry _ _ _) in *.
  destruct (free_empty_path own r s1 N l va p1 p0 Hv1 H1 H0)
    as (s2 & N2 & l2 & [Hv2 Hp2 Hl2 Hf2] & ->).
  exists s2, N2, l2. split; [done|]. split; [done|]. split; [done|].
  split; [by transitivity (mem s1)|]. intros va'. by rewrite Hl2, Hl1.
Qed.

(** * Changing protection *)

Lemma vm_protect_spec own r s N l va flags :
  vm_inv own r s N l → own (vpn_index va 2) → canonical va = true → va mod 4096 = 0 →
  in_u64 flags → valid_leaf_flags flags = true →
  if leaf_mapped (leaf_entry s N va) then
    ∃ s', vm_protect (Some (mk_page_table r)) va flags s = (true, s') ∧
      vm_inv own r s' N l ∧ same_on (outside (l ++ map_vals N)) (mem s) (mem s') ∧
      ∀ va', leaf_entry s' N va' =
        if decide (same_vpn va va') then leaf_pte (pte_physical (leaf_entry s N va)) flags
        else leaf_entry s N va'
  else vm_protect (Some (mk_page_table r)) va flags s = (false, s).
Proof.
  intros Hv Ho Hc Ha Hfu Hfl. pose proof (vi_pt _ _ _ _ _ Hv) as Hr.
  unfold vm_protect. rewrite land_page_mask, Ha, Hfl. bsimpl.
  rewrite (walk_read _ _ _ _ _ Hr Ho Hc). unfold leaf_mapped, leaf_entry at 1 2.
  destruct (N !! path2 va) as [q|] eqn:E; [|done].
  pose proof (pt_pages _ _ _ _ Hr _ _ E) as Hqok. rewrite entry_fold.
  destruct (Z.eqb_spec (slot (phys_to_virt q) (vpn_index va 0)) 0) as [E0|_].
  { exfalso. revert E0. apply slot_nonzero; [done|]. apply vpn_index_range. lia. }
  destruct (Z.land _ PTE_V =? 0) eqn:E1; bsimpl; [done|].
  destruct (Z.land _ PTE_RX =? 0) eqn:E2; bsimpl; [done|].
  assert (leaf_entry s N va = entry_of s q (vpn_index va 0)) as Hleaf
    by (unfold leaf_entry; by rewrite E).
  destruct (leaf_pte_spec (pte_physical (entry_of s q (vpn_index va 0))) flags) as (Hu & _);
    [|rewrite pte_physical_eq; div_lia|done|done|].
  { rewrite pte_physical_eq. pose proof (Z.mod_pos_bound (entry_of s q (vpn_index va 0) / 1024) (2 ^ 44)).
    lia. }
  destruct (leaf_write own r s N l va q _ Hv E Hu) as (Hv1 & Hl1 & Hf1).
  eexists. split; [done|]. split; [done|]. split; [done|]. intros va'. by rewrite Hl1, Hleaf.
Qed.

(** * Properties *)

Lemma vm_map_true_args t va pa flags s s' :
  vm_map t va pa flags s = (true, s') →
  va mod 4096 = 0 ∧ pa mod 4096 = 0 ∧ valid_leaf_flags flags = true.
Proof.
  unfold vm_map. rewrite !land_page_mask.
  destruct (Z.eqb_spec (va mod 4096) 0); [|done].
  destruct (Z.eqb_spec (pa mod 4096) 0); [|done].
  destruct (valid_leaf_flags flags); [|done]. done.
Qed.

Lemma vm_map_bad_args t va pa flags s :
  ¬ (va mod 4096 = 0 ∧ pa mod 4096 = 0 ∧ valid_leaf_flags flags = true) →
  vm_map t va pa flags s = (false, s).
Proof.
  unfold vm_map. rewrite !land_page_mask. intros H.
  destruct (Z.eqb_spec (va mod 4096) 0); [|done].
  destruct (Z.eqb_spec (pa mod 4096) 0); [|done].
  destruct (valid_leaf_flags flags); [|done]. tauto.
Qed.

(** A fresh table on a machine with four pages, for concrete instances. *)
Definition demo_root : Z := 2147483648.
Definition demo_free : list Z := [2147487744; 2147491840; 2147495936].
Definition demo_state : kstate := snd (vm_create (Some (mk_page_table 0)) (stocked four_pages)).

Lemma demo_inv own : vm_inv own demo_root demo_state {[ [] := demo_root ]} demo_free.
Proof.
  unfold demo_state.
  pose proof (vm_create_spec own (mk_page_table 0) _ _ four_pages_rep) as H.
  destruct (vm_create _ _) as [[ok t] s].
  destruct H as [(_ & H & _)|(_ & r & l' & [= <- <-] & _ & H & _)]; [done|exact H].
Qed.

Lemma demo_leaf va : leaf_entry demo_state {[ [] := demo_root ]} va = 0.
Proof. unfold leaf_entry. by rewrite lookup_singleton_ne. Qed.

(** A second table whose root page is none of the four. *)
Lemma demo_other : pt_rep whole demo_state 4096 {[ [] := 4096 ]}.
Proof.
  assert (page_ok 4096) as Hok by (split; [lia|reflexivity]).
  assert (∀ p, p ∈ four_pages → page_ok p ∧ p ≠ 4096) as Hf.
  { intros p Hp. pose proof (fr_pages _ _ four_pages_rep) as H. rewrite Forall_forall in H.
    split; [by apply H|]. intros ->. apply (bool_decide_pack _) in Hp. by vm_compute in Hp. }
  assert (∀ j, 0 <= j < 512 → entry_of (stocked four_pages) 4096 j = 0) as H0.
  { intros j Hj. unfold stocked, four_pages. cbn [foldr].
    rewrite !entry_page_free; [reflexivity| | | | | | | | | | | | | | | |];
      try done; apply Hf; set_solver. }
  apply pt_rep_root; [done|]. intros i Hi _. unfold demo_state, vm_create.
  rewrite (page_alloc_cons _ _ _ four_pages_rep).
  assert (∀ s, entry_of (zero_page 2147483648 s) 4096 i = entry_of s 4096 i) as Hz.
  { intros s. rewrite entry_zero_page by (try done; apply Hf; by left).
    by apply decide_False. }
  cbn [snd Z.eqb]. change (2147483648 =? 0) with false. cbn [snd]. rewrite Hz.
  pose proof (page_alloc_cons _ _ _ four_pages_rep) as E.
  pose proof (entry_page_alloc (stocked four_pages) 4096 i) as Ha. rewrite E in Ha.
  cbn [snd] in Ha. rewrite Ha, H0 by done. done.
Qed.

#[global] Opaque demo_state.

(** Mapping the page at 4 KiB, read-write for the user. *)
Lemma demo_map :
  ∃ s' N' l', vm_map (Some (mk_page_table demo_root)) 4096 8192 22 demo_state = (true, s') ∧
    vm_inv whole demo_root s' N' l' ∧ leaf_entry s' N' 4096 = leaf_pte 8192 22.
Proof.
  destruct (vm_map_spec whole demo_root demo_state _ _ 4096 8192 22 (demo_inv whole)
    I eq_refl eq_refl ltac:(lia) eq_refl ltac:(unfold in_u64; lia) eq_refl)
    as (ok & s' & N' & l' & E & Hv & _ & _ & Hfail & Hok).
  exists s', N', l'. destruct ok.
  - destruct (Hok eq_refl) as [_ Hl]. split; [exact E|]. split; [exact Hv|].
    rewrite Hl. by apply decide_True, same_vpn_refl.
  - exfalso. destruct (Hfail eq_refl) as [_ H]. rewrite demo_leaf in H.
    specialize (H eq_refl). simpl in H. lia.
Qed.

(** C2. After a successful [vm_map], [vm_query] translates every address of the
    mapped page to the new physical page with the requested permissions (plus
    the valid, accessed and, if writable, dirty bits), and its answer for every
    other address is what it was. *)
Theorem vm_map_query (own : Z → Prop) (r va pa flags : Z) (s s' : kstate)
    (N : gmap (list Z) Z) (l : list Z) (va' : Z) :
  vm_inv own r s N l → own (vpn_index va 2) → own (vpn_index va' 2) →
  canonical va = true → 0 <= pa < 2 ^ 56 → in_u64 flags →
  vm_map (Some (mk_page_table r)) va pa flags s = (true, s') →
  vm_query (Some (mk_page_table r)) va' s'
  = if bool_decide (same_vpn va va') && canonical va'
    then Some (pa + va' mod PAGE_SIZE, leaf_bits flags)
    else vm_query (Some (mk_page_table r)) va' s.
Proof.
  intros Hv Ho Ho' Hc Hpa Hf Hmap.
  destruct (vm_map_true_args _ _ _ _ _ _ Hmap) as (Ha & Hpaa & Hfl).
  destruct (vm_map_spec own r s N l va pa flags) as
    (ok & s1 & N' & l' & E & Hv' & _ & _ & _ & Hok); try done.
  rewrite Hmap in E. injection E as <- <-. destruct (Hok eq_refl) as [_ Hleaf].
  rewrite (vm_query_leaf _ _ _ _ _ (vi_pt _ _ _ _ _ Hv') Ho').
  rewrite (vm_query_leaf _ _ _ _ _ (vi_pt _ _ _ _ _ Hv) Ho'). rewrite Hleaf.
  destruct (canonical va'); [|by rewrite andb_false_r]. rewrite andb_true_r.
  destruct (decide (same_vpn va va')).
  - rewrite bool_decide_true by done. by apply decode_leaf_pte.
  - by rewrite bool_decide_false by done.
Qed.

Lemma vm_map_query_witness :
  ∃ s', vm_map (Some (mk_page_table demo_root)) 4096 8192 22 demo_state = (true, s') ∧
    vm_query (Some (mk_page_table demo_root)) 4100 s' = Some (8196, 215).
Proof.
  destruct demo_map as (s' & _ & _ & E & _). exists s'. split; [exact E|].
  rewrite (vm_map_query whole demo_root 4096 8192 22 demo_state s' _ _ 4100 (demo_inv whole) I I
             eq_refl ltac:(lia) ltac:(unfold in_u64; lia) E).
  reflexivity.
Defined.

(** [vm_map] never fails spuriously: with two free pages (the most it can
    need) it succeeds on every aligned canonical address that has no valid
    mapping yet, and it fails, changing nothing, where there is one. *)
Theorem vm_map_succeeds (own : Z → Prop) (r va pa flags : Z) (s : kstate)
    (N : gmap (list Z) Z) (l : list Z) :
  vm_inv own r s N l → own (vpn_index va 2) → canonical va = true →
  va mod PAGE_SIZE = 0 → 0 <= pa < 2 ^ 56 → pa mod PAGE_SIZE = 0 →
  in_u64 flags → valid_leaf_flags flags = true → (2 <= length l)%nat →
  fst (vm_map (Some (mk_page_table r)) va pa flags s)
  = (Z.land (leaf_entry s N va) PTE_V =? 0).
Proof.
  intros Hv Ho Hc Ha Hpa Hpaa Hf Hfl Hl.
  destruct (vm_map_spec own r s N l va pa flags) as
    (ok & s1 & N' & l' & -> & _ & _ & _ & Hfail & Hok); try done. simpl.
  destruct ok.
  - destruct (Hok eq_refl) as [-> _]. done.
  - destruct (Hfail eq_refl) as [_ H]. destruct (Z.eqb_spec (Z.land (leaf_entry s N va) 1) 0); [|done].
    specialize (H e). lia.
Qed.

Lemma vm_map_succeeds_witness :
  fst (vm_map (Some (mk_page_table demo_root)) 4096 8192 22 demo_state) = true.
Proof.
  rewrite (vm_map_succeeds whole demo_root 4096 8192 22 demo_state _ _ (demo_inv whole) I
             eq_refl eq_refl ltac:(lia) eq_refl ltac:(unfold in_u64; lia) eq_refl
             ltac:(simpl; lia)).
  rewrite demo_leaf. reflexivity.
Defined.

(** What [vm_map] and [vm_unmap] promise on every path: pages are conserved and
    memory outside them is untouched. *)
Definition vm_conserves (own : Z → Prop) (r : Z) (s : kstate) (N : gmap (list Z) Z)
    (l : list Z) (s' : kstate) : Prop :=
  ∃ N' l', vm_inv own r s' N' l' ∧ l ++ map_vals N ≡ₚ l' ++ map_vals N' ∧
    same_on (outside (l ++ map_vals N)) (mem s) (mem s').

Definition query_same (own : Z → Prop) (r : Z) (s s' : kstate) : Prop :=
  ∀ va, own (vpn_index va 2) →
    vm_query (Some (mk_page_table r)) va s' = vm_query (Some (mk_page_table r)) va s.

Lemma vm_conserves_refl own r s N l : vm_inv own r s N l → vm_conserves own r s N l s.
Proof. intros. by exists N, l. Qed.

Lemma vm_map_conserves own r s N l va pa flags :
  vm_inv own r s N l → (canonical va = true → own (vpn_index va 2)) →
  0 <= pa < 2 ^ 56 → in_u64 flags →
  let '(ok, s') := vm_map (Some (mk_page_table r)) va pa flags s in
  vm_conserves own r s N l s' ∧ (ok = false → query_same own r s s').
Proof.
  intros Hv Ho Hpa Hf. pose proof (vm_conserves_refl _ _ _ _ _ Hv) as Hid.
  destruct (decide (va mod 4096 = 0 ∧ pa mod 4096 = 0 ∧ valid_leaf_flags flags = true))
    as [(Ha & Hpaa & Hfl)|Hbad]; [|by rewrite vm_map_bad_args].
  destruct (canonical va) eqn:Hc.
  - destruct (vm_map_spec own r s N l va pa flags) as
      (ok & s' & N' & l' & -> & Hv' & Hperm & Hframe & Hfail & _); auto.
    split; [by exists N', l'|]. intros -> va' Ho'. destruct (Hfail eq_refl) as [Hleaf _].
    apply (vm_query_ext own r s N s' N'); [apply Hv|apply Hv'|done|]. by rewrite Hleaf.
  - rewrite vm_map_unfold by done. unfold walk. by rewrite Hc, orb_true_r.
Qed.

Lemma vm_unmap_conserves own r s N l va :
  vm_inv own r s N l → (canonical va = true → own (vpn_index va 2)) →
  let '(ok, s') := vm_unmap (Some (mk_page_table r)) va s in
  vm_conserves own r s N l s' ∧ (ok = false → s' = s).
Proof.
  intros Hv Ho. pose proof (vm_conserves_refl _ _ _ _ _ Hv) as Hid.
  destruct (decide (va mod 4096 = 0)) as [Ha|Ha].
  2: { unfold vm_unmap. rewrite land_page_mask.
       destruct (Z.eqb_spec (va mod 4096) 0); [done|]. bsimpl. rewrite orb_true_r. done. }
  destruct (canonical va) eqn:Hc.
  2: { unfold vm_unmap. rewrite Hc. bsimpl. rewrite orb_true_r. done. }
  pose proof (vm_unmap_spec own r s N l va Hv (Ho eq_refl) Hc Ha) as H.
  destruct (leaf_mapped _); [|by rewrite H].
  destruct H as (s' & N' & l' & -> & Hv' & Hp & Hf & _). split; [by exists N', l'|done].
Qed.

(** Whatever its arguments and its outcome, [vm_map] keeps the allocator and
    the table well formed, neither loses nor invents a page, and touches no
    memory but theirs; when it fails no translation has changed. *)
Theorem vm_map_invariant (own : Z → Prop) (r va pa flags : Z) (s : kstate)
    (N : gmap (list Z) Z) (l : list Z) :
  vm_inv own r s N l → (canonical va = true → own (vpn_index va 2)) →
  0 <= pa < 2 ^ 56 → in_u64 flags →
  let '(ok, s') := vm_map (Some (mk_page_table r)) va pa flags s in
  (∃ N' l', vm_inv own r s' N' l' ∧ l ++ map_vals N ≡ₚ l' ++ map_vals N' ∧
     same_on (outside (l ++ map_vals N)) (mem s) (mem s')) ∧
  (ok = false → ∀ va', own (vpn_index va' 2) →
     vm_query (Some (mk_page_table r)) va' s' = vm_query (Some (mk_page_table r)) va' s).
Proof. exact (vm_map_conserves own r s N l va pa flags). Qed.

Lemma vm_map_invariant_witness :
  let '(ok, s') := vm_map (Some (mk_page_table demo_root)) 4096 8192 22 demo_state in
  ∃ N' l', vm_inv whole demo_root s' N' l' ∧
    demo_free ++ map_vals ({[ [] := demo_root ]} : gmap (list Z) Z) ≡ₚ l' ++ map_vals N'.
Proof.
  pose proof (vm_map_invariant whole demo_root 4096 8192 22 demo_state _ _ (demo_inv whole)
    (λ _, I) ltac:(lia) ltac:(unfold in_u64; lia)) as H.
  destruct (vm_map _ _ _ _ _) as [ok s'].
  destruct H as [(N' & l' & H1 & H2 & _) _]. exists N', l'. split; [exact H1|exact H2].
Defined.

Lemma conserves_isolated own own2 r r2 s N l N2 s' :
  vm_inv own r s N l → vm_conserves own r s N l s' → pt_rep own2 s r2 N2 →
  (∀ p, p ∈ map_vals N2 → p ∉ l ++ map_vals N) →
  pt_rep own2 s' r2 N2 ∧ query_same own2 r2 s s'.
Proof.
  intros Hv (N' & l' & _ & _ & Hf) H2 Hdis.
  destruct (pt_rep_outside own2 s s' r2 N2 (l ++ map_vals N)) as [H2' Hleaf]; try done.
  { by eapply vm_inv_pages. }
  split; [done|]. intros va Ho. apply (vm_query_ext own2 r2 s N2 s' N2); try done.
  by rewrite Hleaf.
Qed.

(** C4. Address spaces are isolated: mapping or unmapping in one table leaves
    every other table whose pages are disjoint from it, and from the free list,
    well formed and with all its translations. *)
Theorem vm_isolation (own own2 : Z → Prop) (r r2 va pa flags : Z) (s : kstate)
    (N N2 : gmap (list Z) Z) (l : list Z) :
  vm_inv own r s N l → (canonical va = true → own (vpn_index va 2)) →
  0 <= pa < 2 ^ 56 → in_u64 flags →
  pt_rep own2 s r2 N2 → (∀ p, p ∈ map_vals N2 → p ∉ l ++ map_vals N) →
  ∀ s', s' = snd (vm_map (Some (mk_page_table r)) va pa flags s) ∨
        s' = snd (vm_unmap (Some (mk_page_table r)) va s) →
  pt_rep own2 s' r2 N2 ∧
  ∀ va', own2 (vpn_index va' 2) →
    vm_query (Some (mk_page_table r2)) va' s' = vm_query (Some (mk_page_table r2)) va' s.
Proof.
  intros Hv Ho Hpa Hf H2 Hdis s' Hs'.
  apply (conserves_isolated own own2 r r2 s N l N2 s'); try done.
  pose proof (vm_map_conserves own r s N l va pa flags Hv Ho Hpa Hf) as Hm.
  pose proof (vm_unmap_conserves own r s N l va Hv Ho) as Hu.
  destruct (vm_map _ _ _ _ _), (vm_unmap _ _ _). naive_solver.
Qed.

Lemma vm_isolation_witness :
  vm_query (Some (mk_page_table 4096)) 4096
    (snd (vm_map (Some (mk_page_table demo_root)) 4096 8192 22 demo_state))
  = vm_query (Some (mk_page_table 4096)) 4096 demo_state.
Proof.
  apply (vm_isolation whole whole demo_root 4096 4096 8192 22 demo_state
           {[ [] := demo_root ]} {[ [] := 4096 ]} demo_free (demo_inv whole) (λ _, I)
           ltac:(lia) ltac:(unfold in_u64; lia) demo_other).
  - rewrite !map_vals_root. intros p ->%list_elem_of_singleton.
    intros H. apply (bool_decide_pack _) in H. by vm_compute in H.
  - by left.
  - done.
Defined.

(** C30. [vm_unmap] of a mapped page returns true and removes exactly that page's
    translation; every page stays either free or a page of the table, so that a table
    page that is no longer linked is free again.  Of an unmapped page it returns false
    and changes nothing. *)
Theorem vm_unmap_query (own : Z → Prop) (r va : Z) (s : kstate)
    (N : gmap (list Z) Z) (l : list Z) :
  vm_inv own r s N l → own (vpn_index va 2) → canonical va = true → va mod PAGE_SIZE = 0 →
  match vm_query (Some (mk_page_table r)) va s with
  | None => vm_unmap (Some (mk_page_table r)) va s = (false, s)
  | Some _ =>
      ∃ s' N' l', vm_unmap (Some (mk_page_table r)) va s = (true, s') ∧
        vm_inv own r s' N' l' ∧ l ++ map_vals N ≡ₚ l' ++ map_vals N' ∧
        ∀ va', own (vpn_index va' 2) →
          vm_query (Some (mk_page_table r)) va' s'
          = if decide (same_vpn va va') then None
            else vm_query (Some (mk_page_table r)) va' s
  end.
Proof.
  intros Hv Ho Hc Ha. pose proof (vm_unmap_spec own r s N l va Hv Ho Hc Ha) as H.
  rewrite (vm_query_leaf _ _ _ _ _ (vi_pt _ _ _ _ _ Hv) Ho), Hc. unfold decode_leaf.
  unfold leaf_mapped in H. destruct ((_ =? 0) || (_ =? 0)); bsimpl; [done|].
  destruct H as (s' & N' & l' & E & Hv' & Hp & _ & Hleaf). exists s', N', l'.
  split; [done|]. split; [done|]. split; [done|]. intros va' Ho'.
  rewrite (vm_query_leaf _ _ _ _ _ (vi_pt _ _ _ _ _ Hv') Ho').
  rewrite (vm_query_leaf _ _ _ _ _ (vi_pt _ _ _ _ _ Hv) Ho').
  destruct (canonical va'); [|by case_decide].
  rewrite (decode_leaf_equiv _ _ va' (Hleaf va')).
  case_decide; [by rewrite decode_leaf_invalid|done].
Qed.

Lemma vm_unmap_query_witness :
  ∃ s1 s2, vm_map (Some (mk_page_table demo_root)) 4096 8192 22 demo_state = (true, s1) ∧
    vm_unmap (Some (mk_page_table demo_root)) 4096 s1 = (true, s2) ∧
    vm_query (Some (mk_page_table demo_root)) 4096 s2 = None.
Proof.
  destruct demo_map as (s1 & N1 & l1 & E & Hv & Hl). exists s1.
  pose proof (vm_unmap_query whole demo_root 4096 s1 N1 l1 Hv I eq_refl eq_refl) as H.
  rewrite (vm_query_leaf _ _ _ _ _ (vi_pt _ _ _ _ _ Hv)), Hl in H by exact I.
  destruct H as (s2 & N2 & l2 & E2 & _ & _ & Hq). exists s2.
  split; [exact E|]. split; [exact E2|]. rewrite Hq by exact I.
  apply decide_True, same_vpn_refl.
Defined.

(** [vm_protect] keeps the physical page of the address it is given and
    replaces its permissions; every other translation is unchanged, and an
    unmapped address is refused without a change. *)
Theorem vm_protect_query (own : Z → Prop) (r va flags : Z) (s : kstate)
    (N : gmap (list Z) Z) (l : list Z) :
  vm_inv own r s N l → own (vpn_index va 2) → canonical va = true → va mod PAGE_SIZE = 0 →
  in_u64 flags → valid_leaf_flags flags = true →
  match vm_query (Some (mk_page_table r)) va s with
  | None => vm_protect (Some (mk_page_table r)) va flags s = (false, s)
  | Some (physical, _) =>
      ∃ s', vm_protect (Some (mk_page_table r)) va flags s = (true, s') ∧
        vm_inv own r s' N l ∧
        ∀ va', own (vpn_index va' 2) →
          vm_query (Some (mk_page_table r)) va' s'
          = if bool_decide (same_vpn va va') && canonical va'
            then Some (physical + va' mod PAGE_SIZE, leaf_bits flags)
            else vm_query (Some (mk_page_table r)) va' s
  end.
Proof.
  intros Hv Ho Hc Ha Hf Hfl.
  pose proof (vm_protect_spec own r s N l va flags Hv Ho Hc Ha Hf Hfl) as H.
  rewrite (vm_query_leaf _ _ _ _ _ (vi_pt _ _ _ _ _ Hv) Ho), Hc. unfold decode_leaf.
  unfold leaf_mapped in H. destruct ((_ =? 0) || (_ =? 0)); bsimpl; [done|].
  destruct H as (s' & E & Hv' & _ & Hleaf). exists s'. split; [done|]. split; [done|].
  intros va' Ho'. rewrite land_page_mask, Ha, Z.lor_0_r.
  rewrite (vm_query_leaf _ _ _ _ _ (vi_pt _ _ _ _ _ Hv') Ho').
  rewrite (vm_query_leaf _ _ _ _ _ (vi_pt _ _ _ _ _ Hv) Ho'). rewrite Hleaf.
  destruct (canonical va'); [|by rewrite andb_false_r]. rewrite andb_true_r.
  destruct (decide (same_vpn va va')); [|by rewrite bool_decide_false by done].
  rewrite bool_decide_true by done. apply decode_leaf_pte; try done.
  - rewrite pte_physical_eq. pose proof (Z.mod_pos_bound (leaf_entry s N va / 1024) (2 ^ 44)). lia.
  - rewrite pte_physical_eq. apply Z.mod_mul. lia.
Qed.

Lemma vm_protect_query_witness :
  ∃ s1 s2, vm_map (Some (mk_page_table demo_root)) 4096 8192 22 demo_state = (true, s1) ∧
    vm_protect (Some (mk_page_table demo_root)) 4096 18 s1 = (true, s2) ∧
    vm_query (Some (mk_page_table demo_root)) 4100 s2 = Some (8196, 83).
Proof.
  destruct demo_map as (s1 & N1 & l1 & E & Hv & Hl). exists s1.
  pose proof (vm_protect_query whole demo_root 4096 18 s1 N1 l1 Hv I eq_refl eq_refl
    ltac:(unfold in_u64; lia) eq_refl) as H.
  rewrite (vm_query_leaf _ _ _ _ _ (vi_pt _ _ _ _ _ Hv)), Hl in H by exact I.
  destruct H as (s2 & E2 & _ & Hq). exists s2.
  split; [exact E|]. split; [exact E2|]. rewrite Hq by exact I. reflexivity.
Defined.
