(* ===== verification/VmReclaim.v ===== *)
(** Reclaiming page tables: [destroy_level], [vm_destroy] and [vm_destroy_user]
    give every table page back to the allocator, and [vm_prune_user] gives back
    exactly the tables under which nothing is mapped. *)
From S2P Require Import Prelude Machine Runtime BootInfo PageAlloc Vm VmInv VmProps.

(** * The nodes below a node *)

(** All index paths below [π], in the order [destroy_level] frees them. *)
Fixpoint paths (level : nat) (π : list Z) : list (list Z) :=
  match level with
  | O => [π]
  | S level' => (indices512 ≫= λ i, paths level' (π ++ [i])) ++ [π]
  end.

(** The pages of the existing nodes among them. *)
Definition subtree (N : gmap (list Z) Z) (ps : list (list Z)) : list Z :=
  omap (λ π, N !! π) ps.

Lemma elem_of_paths level π π' :
  π' ∈ paths level π ↔
  ∃ σ, π' = π ++ σ ∧ (length σ <= level)%nat ∧ Forall (λ i, 0 <= i < 512) σ.
Proof.
  revert π. induction level as [|level IH]; intros π; cbn [paths].
  - rewrite list_elem_of_singleton. split.
    + intros ->. exists []. by rewrite app_nil_r.
    + intros (σ & -> & Hl & _). destruct σ; [by rewrite app_nil_r|simpl in Hl; lia].
  - rewrite elem_of_app, list_elem_of_bind, list_elem_of_singleton. split.
    + intros [(i & Hi & Hin)| ->]; [|exists []; rewrite app_nil_r; split; [done|]; split; [simpl; lia|done]].
      apply IH in Hi as (σ & -> & Hl & Hf). exists (i :: σ).
      rewrite <- app_assoc. split; [done|]. split; [simpl; lia|].
      constructor; [|done]. by apply elem_of_indices in Hin.
    + intros (σ & -> & Hl & Hf). destruct σ as [|i σ]; [right; by rewrite app_nil_r|].
      inversion Hf; subst. left. exists i. split.
      * apply IH. exists σ. rewrite <- app_assoc. split; [done|]. split; [simpl in Hl; lia|done].
      * by apply elem_of_indices.
Qed.

Lemma elem_of_subtree N ps x : x ∈ subtree N ps ↔ ∃ π, π ∈ ps ∧ N !! π = Some x.
Proof. unfold subtree. rewrite list_elem_of_omap. naive_solver. Qed.

Lemma subtree_app N ps qs : subtree N (ps ++ qs) = subtree N ps ++ subtree N qs.
Proof. apply omap_app. Qed.

Lemma subtree_none own s r N level π :
  pt_rep own s r N → π ≠ [] → N !! π = None → subtree N (paths level π) = [].
Proof.
  intros Hr Hne HN. apply elem_of_nil_inv. intros x. rewrite elem_of_subtree.
  intros (π' & Hin & Hx). apply elem_of_paths in Hin as (σ & -> & _ & _).
  revert x Hx. induction σ as [|i σ IH] using rev_ind; intros x Hx.
  - rewrite app_nil_r in Hx. congruence.
  - rewrite app_assoc in Hx. destruct (pt_parent _ _ _ _ Hr _ _ _ Hx) as [[y Hy] _].
    by apply (IH y).
Qed.

(** Paths below different children differ. *)
Lemma paths_disjoint level π i j π' :
  π' ∈ paths level (π ++ [i]) → π' ∈ paths level (π ++ [j]) → i = j.
Proof.
  rewrite !elem_of_paths. intros (σ & -> & _) (τ & E & _).
  rewrite <- !app_assoc in E. apply app_inv_head in E. by injection E.
Qed.

Lemma paths_below level π i : π ∉ paths level (π ++ [i]).
Proof.
  rewrite elem_of_paths. intros (σ & E & _). apply (f_equal length) in E.
  rewrite !length_app in E. simpl in E. lia.
Qed.

(** * Destroying *)

(** The pages [ps] have been pushed on the free list and nothing else moved. *)
Definition reclaims (ps : list Z) (s : kstate) (l : list Z) (s' : kstate) : Prop :=
  free_rep s' (rev ps ++ l) ∧ same_on (outside ps) (mem s) (mem s').

Lemma reclaims_trans ps qs s l s1 s2 :
  reclaims ps s l s1 → reclaims qs s1 (rev ps ++ l) s2 → reclaims (ps ++ qs) s l s2.
Proof.
  intros [F1 M1] [F2 M2]. split; [by rewrite rev_app_distr, <- app_assoc|].
  transitivity (mem s1); eapply same_on_weaken; [|exact M1| |exact M2];
    intros a Ha p Hp; apply Ha, elem_of_app; auto.
Qed.

Section Destroy.
Context (own : Z → Prop) (r : Z) (s0 : kstate) (N : gmap (list Z) Z).
Context (Hr : pt_rep own s0 r N).

(** The entries of the nodes [ps] are still those of [s0]. *)
Definition intact (s : kstate) (ps : list (list Z)) : Prop :=
  ∀ π p j, π ∈ ps → N !! π = Some p → 0 <= j < 512 → entry_of s p j = entry_of s0 p j.

Definition fresh (ps : list (list Z)) (l : list Z) : Prop := ∀ x, x ∈ subtree N ps → x ∉ l.

Lemma intact_after ps qs s l s' :
  (∀ π, π ∈ ps → π ∉ qs) → intact s ps → reclaims (subtree N qs) s l s' → intact s' ps.
Proof.
  intros Hd Hi [_ M] π p j Hin Hp Hj. rewrite <- (Hi π p j) by done.
  apply entry_of_frame; [by eapply pt_pages|done|]. eapply same_on_weaken; [|exact M].
  intros a Ha q Hq Hqa. apply elem_of_subtree in Hq as (π' & Hin' & Hq).
  apply (Hd π Hin). replace π with π'; [done|].
  apply (pt_inj _ _ _ _ Hr _ _ q); [done|].
  rewrite <- (in_page_disjoint p q a); [done|by eapply pt_pages|by eapply pt_pages|done|done].
Qed.

Lemma fresh_after ps qs l :
  (∀ π, π ∈ ps → π ∉ qs) → fresh ps l → fresh ps (rev (subtree N qs) ++ l).
Proof.
  intros Hd Hf x Hx. rewrite elem_of_app, list_elem_of_In, <- in_rev, <- list_elem_of_In.
  intros [Hq|Hl]; [|by apply (Hf x)].
  apply elem_of_subtree in Hx as (π & Hin & Hp), Hq as (π' & Hin' & Hq).
  apply (Hd π Hin). by rewrite (pt_inj _ _ _ _ Hr _ _ _ Hp Hq).
Qed.

Definition destroys (level : nat) : Prop := ∀ π p s l,
  N !! π = Some p → (length π + level = 2)%nat → (π = [] → ∀ i, own i) →
  free_rep s l → intact s (paths level π) → fresh (paths level π) l →
  reclaims (subtree N (paths level π)) s l (destroy_level level p s).

(** The body of the loops of [destroy_level] and [vm_destroy_user]. *)
Definition destroy_child (level : nat) (entries : Z) (s : kstate) (i : Z) : kstate :=
  let entry := read_entry (slot entries i) s in
  if negb (Z.land entry PTE_V =? 0) && (Z.land entry PTE_RWX =? 0)
  then destroy_level level (pte_physical entry) s
  else s.

Definition child_paths (level : nat) (π : list Z) (ixs : list Z) : list (list Z) :=
  ixs ≫= λ i, paths level (π ++ [i]).

Lemma child_paths_cons level π i ixs :
  child_paths level π (i :: ixs) = paths level (π ++ [i]) ++ child_paths level π ixs.
Proof. done. Qed.

Lemma destroy_child_spec level π p s l i :
  destroys level → N !! π = Some p → (length π + S level = 2)%nat → 0 <= i < 512 →
  (π = [] → own i) → free_rep s l → entry_of s p i = entry_of s0 p i →
  intact s (paths level (π ++ [i])) → fresh (paths level (π ++ [i])) l →
  reclaims (subtree N (paths level (π ++ [i]))) s l (destroy_child level (phys_to_virt p) s i).
Proof.
  intros IH Hp Hl Hi Ho Hf He Hint Hfr. unfold destroy_child. rewrite entry_fold, He.
  pose proof (pt_entry _ _ _ _ Hr π p i Hp ltac:(lia) Hi Ho) as Hx.
  destruct (N !! (π ++ [i])) as [q|] eqn:E.
  - rewrite Hx. destruct (make_table_pte_entry q) as (-> & -> & ->); [by eapply pt_pages|].
    bsimpl. apply IH; try done; [rewrite length_app; simpl; lia|by destruct π].
  - rewrite Hx. bsimpl. rewrite (subtree_none own s0 r N level) by (done || by destruct π).
    split; done.
Qed.

Lemma destroy_loop level π p ixs s l :
  destroys level → N !! π = Some p → (length π + S level = 2)%nat → NoDup ixs →
  (∀ i, i ∈ ixs → 0 <= i < 512 ∧ (π = [] → own i)) → free_rep s l →
  (∀ i, 0 <= i < 512 → entry_of s p i = entry_of s0 p i) →
  intact s (child_paths level π ixs) → fresh (child_paths level π ixs) l →
  reclaims (subtree N (child_paths level π ixs)) s l
    (fold_left (destroy_child level (phys_to_virt p)) ixs s).
Proof.
  intros IH Hp Hl. revert s l.
  induction ixs as [|i ixs IHis]; intros s l Hnd Hi Hf He Hint Hfr; [by split|].
  rewrite child_paths_cons in *. inversion Hnd as [|? ? Hni Hnd']; subst. cbn [fold_left].
  assert (∀ π', π' ∈ child_paths level π ixs → π' ∉ paths level (π ++ [i])) as Hdis.
  { intros π' (j & H1 & H2)%list_elem_of_bind H3.
    by rewrite (paths_disjoint _ _ _ _ _ H3 H1) in Hni. }
  destruct (Hi i ltac:(by left)) as [Hir Hio].
  pose proof (destroy_child_spec level π p s l i) as Hc.
  set (s1 := destroy_child _ _ _ _) in *.
  assert (reclaims (subtree N (paths level (π ++ [i]))) s l s1) as H1.
  { apply Hc; try done; [by apply He| |].
    - intros π' q j Hin. apply Hint, elem_of_app. by left.
    - intros x Hx. apply Hfr. rewrite subtree_app. apply elem_of_app. by left. }
  rewrite subtree_app. apply (reclaims_trans _ _ _ _ s1 _ H1). apply IHis; try done.
  - intros j Hj. apply Hi. by right.
  - apply H1.
  - intros j Hj. rewrite <- He by done.
    apply entry_of_frame; [by eapply pt_pages|done|]. eapply same_on_weaken; [|apply H1].
    intros a Ha q Hq Hqa. apply elem_of_subtree in Hq as (π' & Hin & Hq).
    apply (paths_below level π i). assert (π' = π) as <-; [|exact Hin].
    apply (pt_inj _ _ _ _ Hr _ _ q); [done|].
    rewrite <- (in_page_disjoint p q a); [done|by eapply pt_pages|by eapply pt_pages|done|done].
  - eapply intact_after; [exact Hdis| |exact H1].
    intros π' q j Hin. apply Hint, elem_of_app. by right.
  - apply fresh_after; [done|]. intros x Hx. apply Hfr. rewrite subtree_app.
    apply elem_of_app. by right.
Qed.

Lemma reclaims_page q s l :
  free_rep s l → page_ok q → q ∉ l → reclaims [q] s l (page_free q s).
Proof.
  intros Hf Hq Hql. split; [by apply page_free_rep|]. apply page_free_frame; [done|].
  intros a. apply outside_not_in. by left.
Qed.

(** [page_free] of a node after its children. *)
Lemma destroy_node level π p ixs s l s1 :
  N !! π = Some p → free_rep s l → p ∉ l →
  reclaims (subtree N (child_paths level π ixs)) s l s1 →
  reclaims (subtree N (child_paths level π ixs ++ [π])) s l (page_free p s1).
Proof.
  intros Hp Hf Hpl H1. rewrite subtree_app. eapply reclaims_trans; [exact H1|].
  replace (subtree N [π]) with [p] by (unfold subtree; simpl; by rewrite Hp).
  apply reclaims_page; [apply H1|by eapply pt_pages|].
  rewrite elem_of_app, list_elem_of_In, <- in_rev, <- list_elem_of_In.
  intros [Hin|Hin]; [|done]. apply elem_of_subtree in Hin as (π' & Hin & Hp').
  apply list_elem_of_bind in Hin as (i & Hin & _). apply (paths_below level π i).
  assert (π' = π) as <- by exact (pt_inj _ _ _ _ Hr _ _ _ Hp' Hp). exact Hin.
Qed.

Lemma indices_NoDup n : NoDup (Z.of_nat <$> seq 0 n).
Proof. apply NoDup_fmap_2; [intros x y; lia|]. apply NoDup_seq. Qed.

Lemma destroy_level_spec level : destroys level.
Proof.
  induction level as [|level IH]; intros π p s l Hp Hl Hown Hf Hint Hfr.
  { cbn [destroy_level paths]. change ([π]) with (child_paths 0 π [] ++ [π]).
    apply destroy_node; [done|done| |by split].
    apply Hfr, elem_of_subtree. exists π. split; [by left|done]. }
  cbn [paths destroy_level]. apply (destroy_node level π p indices512); [done|done| |].
  - apply Hfr, elem_of_subtree. exists π. split; [|done]. apply elem_of_app. right. by left.
  - apply (destroy_loop level π p indices512 s l); try done.
    + apply indices_NoDup.
    + intros i Hi. apply elem_of_indices in Hi. split; [lia|]. intros ->. by apply Hown.
    + intros i Hi. apply (Hint π); [|done|done]. apply elem_of_app. right. by left.
    + intros π' q j Hin. apply Hint, elem_of_app. by left.
    + intros x Hx. apply Hfr. cbn [paths]. rewrite subtree_app. apply elem_of_app. by left.
Qed.

(** Every node lies on one of the paths, once. *)
Lemma subtree_all (ps : list (list Z)) :
  NoDup ps → (∀ π p, N !! π = Some p → π ∈ ps) → subtree N ps ≡ₚ map_vals N.
Proof.
  intros Hnd Hall. unfold map_vals.
  assert (map_to_list N ≡ₚ omap (λ π, (λ p, (π, p)) <$> N !! π) ps) as ->.
  { apply list.NoDup_Permutation.
    - apply NoDup_map_to_list.
    - clear Hall. induction Hnd as [|π ps Hni Hnd IH]; [constructor|]. simpl.
      destruct (N !! π) as [q|]; simpl; [|done]. constructor; [|done].
      rewrite list_elem_of_omap. intros (π' & Hin & E).
      destruct (N !! π'); simplify_eq/=; done.
    - intros [π q]. rewrite elem_of_map_to_list, list_elem_of_omap. split.
      + intros E. exists π. split; [by eapply Hall|]. by rewrite E.
      + intros (π' & _ & E). destruct (N !! π') eqn:E'; simplify_eq/=; done. }
  apply Permutation_refl'. unfold subtree. clear Hnd Hall. induction ps as [|π ps IH]; [done|].
  simpl. destruct (N !! π) as [q|]; simpl; by rewrite IH.
Qed.
End Destroy.

Lemma paths_NoDup level π : NoDup (paths level π).
Proof.
  revert π. induction level as [|level IH]; intros π; cbn [paths]; [apply NoDup_singleton|].
  fold (child_paths level π indices512). apply NoDup_app. split; [|split].
  - unfold indices512. generalize (indices_NoDup 512).
    generalize (Z.of_nat <$> seq 0 512) as ixs. intros ixs Hnd.
    induction Hnd as [|i ixs Hni Hnd IHi]; [constructor|].
    rewrite child_paths_cons. apply NoDup_app. split; [apply IH|]. split; [|done].
    intros π' H1 (j & H2 & H3)%list_elem_of_bind. apply Hni.
    by rewrite (paths_disjoint _ _ _ _ _ H1 H2).
  - intros π' (i & H1 & _)%list_elem_of_bind H2%list_elem_of_singleton. subst.
    by apply (paths_below level π i).
  - apply NoDup_singleton.
Qed.

(** All nodes are within two steps of the root. *)
Lemma node_path own s r N π p :
  pt_rep own s r N → N !! π = Some p → Forall (λ i, 0 <= i < 512) π.
Proof.
  intros Hr. revert p. induction π as [|i π IH] using rev_ind; intros p Hp; [done|].
  destruct (pt_parent _ _ _ _ Hr _ _ _ Hp) as ([q Hq] & Hi & _).
  apply Forall_app. split; [by eapply IH|]. by constructor.
Qed.

Lemma vm_inv_intact own r s N l ps : vm_inv own r s N l → intact s N s ps ∧ fresh N ps l.
Proof.
  intros [_ Hr Hd]. split; [by intros π p j|].
  intros x Hx Hin. apply (Hd x Hin), elem_of_map_vals.
  apply elem_of_subtree in Hx as (π & _ & Hx). eauto.
Qed.

Lemma vm_destroy_spec r s N l :
  vm_inv whole r s N l →
  ∃ s', vm_destroy (Some (mk_page_table r)) s = (Some (mk_page_table 0), s') ∧
    free_rep s' (rev (subtree N (paths 2 [])) ++ l) ∧
    subtree N (paths 2 []) ≡ₚ map_vals N ∧
    same_on (outside (map_vals N)) (mem s) (mem s').
Proof.
  intros Hv. pose proof (vi_pt _ _ _ _ _ Hv) as Hr. pose proof (vi_free _ _ _ _ _ Hv) as Hf.
  pose proof (pt_root _ _ _ _ Hr) as H0. pose proof (pt_pages _ _ _ _ Hr _ _ H0) as [Hp _].
  destruct (vm_inv_intact _ _ _ _ _ (paths 2 []) Hv) as [Hint Hfr].
  unfold vm_destroy. cbn [root]. destruct (Z.eqb_spec r 0); [lia|].
  eexists. split; [done|].
  assert (subtree N (paths 2 []) ≡ₚ map_vals N) as Hall.
  { apply subtree_all; [apply paths_NoDup|]. intros π p E. apply elem_of_paths. exists π.
    split; [done|]. split; [by eapply pt_shape|by eapply node_path]. }
  destruct (destroy_level_spec whole r s N Hr 2 [] r s l) as [H1 H2]; try done.
  split; [done|]. split; [done|]. eapply same_on_weaken; [|exact H2].
  intros a. apply outside_perm. by rewrite Hall.
Qed.

(** The order in which [vm_destroy_user] frees: the lower half, then the root. *)
Definition user_paths : list (list Z) := child_paths 1 [] indices256 ++ [[]].

Lemma user_paths_NoDup : NoDup user_paths.
Proof.
  apply NoDup_app. split; [|split; [|apply NoDup_singleton]].
  - unfold indices256. generalize (indices_NoDup 256).
    generalize (Z.of_nat <$> seq 0 256) as ixs. intros ixs Hnd.
    induction Hnd as [|i ixs Hni Hnd IHi]; [constructor|].
    rewrite child_paths_cons. apply NoDup_app. split; [apply paths_NoDup|]. split; [|done].
    intros π' H1 (j & H2 & H3)%list_elem_of_bind. apply Hni.
    by rewrite (paths_disjoint 1 [] _ _ _ H1 H2).
  - intros π' (i & H1 & _)%list_elem_of_bind H2%list_elem_of_singleton. subst.
    by apply (paths_below 1 [] i).
Qed.

Lemma user_node_path s r N π p :
  pt_rep lower_half s r N → N !! π = Some p → π ∈ user_paths.
Proof.
  intros Hr Hp. pose proof (node_path _ _ _ _ _ _ Hr Hp) as Hall.
  pose proof (pt_shape _ _ _ _ Hr _ _ Hp) as Hl.
  destruct π as [|i π]; [apply elem_of_app; right; by left|]. inversion Hall; subst.
  assert (lower_half i) as Hi.
  { destruct π as [|j [|k π]]; simpl in Hl; [| |lia].
    - by destruct (pt_parent _ _ _ _ Hr [] i p Hp) as (_ & _ & Ho); apply Ho.
    - destruct (pt_parent _ _ _ _ Hr [i] j p Hp) as ([q Hq] & _ & _).
      by destruct (pt_parent _ _ _ _ Hr [] i q Hq) as (_ & _ & Ho); apply Ho. }
  apply elem_of_app. left. apply list_elem_of_bind. exists i. split.
  - apply elem_of_paths. exists π. split; [done|]. split; [simpl in Hl; lia|done].
  - apply elem_of_indices. unfold lower_half in Hi. lia.
Qed.

Lemma vm_destroy_user_spec r s N l :
  vm_inv lower_half r s N l →
  ∃ s', vm_destroy_user (Some (mk_page_table r)) s = (Some (mk_page_table 0), s') ∧
    free_rep s' (rev (subtree N user_paths) ++ l) ∧
    subtree N user_paths ≡ₚ map_vals N ∧
    same_on (outside (map_vals N)) (mem s) (mem s').
Proof.
  intros Hv. pose proof (vi_pt _ _ _ _ _ Hv) as Hr. pose proof (vi_free _ _ _ _ _ Hv) as Hf.
  pose proof (pt_root _ _ _ _ Hr) as H0. pose proof (pt_pages _ _ _ _ Hr _ _ H0) as [Hp _].
  destruct (vm_inv_intact _ _ _ _ _ (child_paths 1 [] indices256) Hv) as [Hint Hfr].
  unfold vm_destroy_user. cbn [root]. destruct (Z.eqb_spec r 0); [lia|].
  eexists. split; [done|].
  assert (subtree N user_paths ≡ₚ map_vals N) as Hall.
  { apply subtree_all; [apply user_paths_NoDup|]. intros π p. by apply user_node_path with s r. }
  destruct (destroy_node lower_half r s N Hr 1 [] r indices256 s l
    (fold_left (destroy_child 1 (phys_to_virt r)) indices256 s)) as [H1 H2];
    [done|done| | |].
  - intros Hin. apply (vi_disj _ _ _ _ _ Hv r Hin), elem_of_map_vals. eauto.
  - apply (destroy_loop lower_half r s N Hr 1 [] r indices256 s l); try done.
    + by apply (destroy_level_spec lower_half r s N Hr).
    + apply indices_NoDup.
    + intros i Hi. apply elem_of_indices in Hi. unfold lower_half. lia.
  - split; [exact H1|]. split; [done|]. eapply same_on_weaken; [|exact H2].
    intros a. apply outside_perm. by rewrite Hall.
Qed.

(** * Pruning *)

(** The paths through the children [ixs] of [π]. *)
Definition below (ixs : list Z) (π π' : list Z) : Prop :=
  Exists (λ i, (π ++ [i]) `prefix_of` π') ixs.

#[export] Instance below_dec ixs π π' : Decision (below ixs π π').
Proof. unfold below. apply _. Defined.

Lemma below_elem ixs π π' : below ixs π π' ↔ ∃ i, i ∈ ixs ∧ (π ++ [i]) `prefix_of` π'.
Proof. unfold below. rewrite Exists_exists. done. Qed.

(** [s'] is [s] with the empty tables of the region [D] taken out. *)
Record pruned (own : Z → Prop) (r : Z) (D : list Z → Prop)
    (s : kstate) (N : gmap (list Z) Z) (l : list Z)
    (s' : kstate) (N' : gmap (list Z) Z) (l' : list Z) : Prop := {
  pr_sim : vm_sim own r s N l s' N' l';
  pr_keep : ∀ π, ¬ D π → N' !! π = N !! π;
  pr_clean : ∀ π q, D π → N' !! π = Some q → ¬ empty_table s' q;
  pr_entries : ∀ π q j, ¬ D π → ¬ D (π ++ [j]) → N !! π = Some q → 0 <= j < 512 →
    entry_of s' q j = entry_of s q j;
}.

Lemma pruned_refl own r (D : list Z → Prop) s N l :
  vm_inv own r s N l → (∀ π q, D π → N !! π = Some q → ¬ empty_table s q) →
  pruned own r D s N l s N l.
Proof. intros Hv Hc. split; [by apply vm_sim_refl|done|done|done]. Qed.

(** The region may grow by nodes that are not empty. *)
Lemma pruned_weaken own r (D D' : list Z → Prop) `{!∀ π, Decision (D π)} s N l s' N' l' :
  (∀ π, D π → D' π) → (∀ π q, D' π → ¬ D π → N' !! π = Some q → ¬ empty_table s' q) →
  pruned own r D s N l s' N' l' → pruned own r D' s N l s' N' l'.
Proof.
  intros Hsub Hc [H1 H2 H3 H4]. split; [done| | |].
  - intros π Hπ. apply H2. auto.
  - intros π q Hπ Hq. destruct (decide (D π)); eauto.
  - intros π q j Ha Hb. apply H4; auto.
Qed.

Lemma not_empty_table s q : ¬ empty_table s q →
  ∃ j, 0 <= j < 512 ∧ Z.land (entry_of s q j) PTE_V ≠ 0.
Proof.
  rewrite <- table_empty_spec. unfold table_empty. intros H.
  apply not_true_is_false in H.
  assert (existsb (λ i, negb (Z.land (read_entry (slot (phys_to_virt q) i) s) PTE_V =? 0))
            indices512 = true) as He.
  { revert H. generalize indices512. intros ixs. induction ixs as [|i ixs IH]; [done|].
    cbn [forallb existsb]. intros H. apply andb_false_iff in H as [->|H]; [done|].
    rewrite IH by done. apply orb_true_r. }
  apply existsb_exists in He as (j & Hj & Hn). apply list_elem_of_In, elem_of_indices in Hj.
  exists j. split; [lia|]. apply negb_true_iff, Z.eqb_neq in Hn. exact Hn.
Qed.

(** Two passes over regions of which the second does not reach the first. *)
Lemma pruned_trans own r (D1 D2 : list Z → Prop) `{!∀ π, Decision (D2 π)}
    s N l s1 N1 l1 s2 N2 l2 :
  (∀ π, D1 π → ∀ j, ¬ D2 (π ++ [j])) →
  pruned own r D1 s N l s1 N1 l1 → pruned own r D2 s1 N1 l1 s2 N2 l2 →
  pruned own r (λ π, D1 π ∨ D2 π) s N l s2 N2 l2.
Proof.
  intros Hd [A1 A2 A3 A4] [B1 B2 B3 B4]. split.
  - by eapply vm_sim_trans.
  - intros π Hπ. rewrite B2, A2 by tauto. done.
  - intros π q Hπ Hq. destruct (decide (D2 π)) as [H2|H2]; [by eapply B3|].
    destruct Hπ as [H1|?]; [|done]. rewrite B2 in Hq by done.
    destruct (not_empty_table s1 q) as (j & Hj & Hv); [by eapply A3|].
    intros He. apply Hv. rewrite <- (B4 π q j); [by apply He|done|by apply Hd|done|done].
  - intros π q j Ha Hb Hq Hj. rewrite (B4 π), (A4 π); try tauto. rewrite A2; tauto.
Qed.

Lemma prefix_length_le (π π' : list Z) : π `prefix_of` π' → (length π <= length π')%nat.
Proof. intros [k ->]. rewrite length_app. lia. Qed.

Lemma prefix_child (π k : list Z) j : (π ++ [j]) `prefix_of` (π ++ j :: k).
Proof. exists k. by rewrite <- app_assoc. Qed.

(** One iteration: the child has been pruned and reports whether it is empty. *)
Lemma pruned_child own r s N l s1 N1 l1 π p i q :
  pruned own r (below indices512 (π ++ [i])) s N l s1 N1 l1 →
  N1 !! π = Some p → N1 !! (π ++ [i]) = Some q →
  ∃ N2 l2, pruned own r (λ π', (π ++ [i]) `prefix_of` π') s N l
    (if table_empty (phys_to_virt q) s1
     then write_entry (slot (phys_to_virt p) i) 0 (page_free q s1) else s1) N2 l2.
Proof.
  intros Hpr Hp Hq. pose proof (vs_inv _ _ _ _ _ _ _ _ (pr_sim _ _ _ _ _ _ _ _ _ Hpr)) as Hv.
  pose proof (vi_pt _ _ _ _ _ Hv) as Hr.
  assert (∀ π', below indices512 (π ++ [i]) π' → (length (π ++ [i]) < length π')%nat) as Hlen.
  { intros π' (j & _ & Hb%prefix_length_le)%below_elem. rewrite length_app in Hb. simpl in Hb. lia. }
  assert (∀ π', below indices512 (π ++ [i]) π' → (π ++ [i]) `prefix_of` π') as Hpre.
  { intros π' (j & _ & [k ->])%below_elem. rewrite <- (app_assoc (π ++ [i])). by apply prefix_app_r. }
  destruct (table_empty (phys_to_virt q) s1) eqn:E.
  - apply table_empty_spec in E. destruct (remove_table own r s1 N1 l1 π p i q Hv Hp Hq E) as [S E2].
    set (s2 := write_entry _ _ _) in *. exists (delete (π ++ [i]) N1), (q :: l1).
    assert (pruned own r (λ π', π' = π ++ [i]) s1 N1 l1 s2 (delete (π ++ [i]) N1) (q :: l1)) as P2.
    { split; [done| | |].
      - intros π' Hne. by rewrite lookup_delete_ne.
      - intros π' x -> Hx. by rewrite lookup_delete_eq in Hx.
      - intros π' x j Hne Hne' Hx Hj. rewrite E2; [|by eapply pt_pages| |done].
        + apply decide_False. intros [-> ->]. apply Hne'. f_equal.
          by apply (pt_inj _ _ _ _ Hr _ _ x).
        + intros ->. by apply Hne, (pt_inj _ _ _ _ Hr _ _ q). }
    apply (pruned_weaken own r (λ π', below indices512 (π ++ [i]) π' ∨ π' = π ++ [i])).
    + apply _.
    + by intros π' [?| ->]; [apply Hpre|].
    + intros π' x [k ->] Hn Hx. exfalso. destruct k as [|j k]; [rewrite app_nil_r in Hn; tauto|].
      apply Hn. left. apply below_elem. exists j. split.
      * pose proof (node_path _ _ _ _ _ _ (vi_pt _ _ _ _ _ (vs_inv _ _ _ _ _ _ _ _ S)) Hx) as Hf.
        apply Forall_app in Hf as [_ Hf]. inversion Hf; subst. apply elem_of_indices. lia.
      * apply prefix_child.
    + eapply (pruned_trans _ _ _ (λ π', π' = π ++ [i])); [ |exact Hpr|exact P2].
      intros π' Hb j Hj. apply Hlen in Hb. apply (f_equal length) in Hj.
      rewrite !length_app in *. simpl in *. lia.
  - exists N1, l1. apply (pruned_weaken own r (below indices512 (π ++ [i]))); [apply _|exact Hpre| |done].
    intros π' x [k ->] Hn Hx. destruct k as [|j k].
    + rewrite app_nil_r in Hx. replace x with q by congruence. rewrite <- table_empty_spec.
      by rewrite E.
    + exfalso. apply Hn, below_elem. exists j. split.
      * pose proof (node_path _ _ _ _ _ _ Hr Hx) as Hf.
        apply Forall_app in Hf as [_ Hf]. inversion Hf; subst. apply elem_of_indices. lia.
      * apply prefix_child.
Qed.

(** The body of the loops of [prune_level] and [vm_prune_user]. *)
Definition prune_child (level : nat) (entries : Z) (s : kstate) (i : Z) : kstate :=
  let entry := read_entry (slot entries i) s in
  if negb (Z.land entry PTE_V =? 0) && (Z.land entry PTE_RWX =? 0) then
    let '(empty, s) := prune_level level (pte_physical entry) s in
    if empty then write_entry (slot entries i) 0 (page_free (pte_physical entry) s)
    else s
  else s.

Section Prune.
Context (own : Z → Prop) (r : Z).

Definition prunes (level : nat) : Prop := ∀ π p s N l,
  vm_inv own r s N l → N !! π = Some p → (length π + level = 2)%nat → π ≠ [] →
  ∃ s' N' l', prune_level level p s = (table_empty (phys_to_virt p) s', s') ∧
    pruned own r (below indices512 π) s N l s' N' l'.

Lemma below_self ixs π : ¬ below ixs π π.
Proof.
  intros (i & _ & H%prefix_length_le)%below_elem. rewrite length_app in H. simpl in H. lia.
Qed.

Lemma below_child π i : ¬ below indices512 (π ++ [i]) π.
Proof.
  intros (j & _ & H%prefix_length_le)%below_elem. rewrite !length_app in H. simpl in H. lia.
Qed.

Lemma prune_child_spec level π p s N l i :
  prunes level → vm_inv own r s N l → N !! π = Some p → (length π + S level = 2)%nat →
  0 <= i < 512 → (π = [] → own i) →
  ∃ N' l', pruned own r (λ π', (π ++ [i]) `prefix_of` π') s N l
    (prune_child level (phys_to_virt p) s i) N' l'.
Proof.
  intros IH Hv Hp Hl Hi Ho. unfold prune_child. rewrite entry_fold.
  pose proof (vi_pt _ _ _ _ _ Hv) as Hr.
  pose proof (pt_entry _ _ _ _ Hr π p i Hp ltac:(lia) Hi Ho) as Hx.
  destruct (N !! (π ++ [i])) as [q|] eqn:E.
  - rewrite Hx. destruct (make_table_pte_entry q) as (-> & -> & ->); [by eapply pt_pages|].
    bsimpl. destruct (IH (π ++ [i]) q s N l) as (s1 & N1 & l1 & -> & Hpr); [done|done| |by destruct π|].
    { rewrite length_app. simpl. lia. }
    apply (pruned_child own r s N l s1 N1 l1 π p i q Hpr).
    + rewrite (pr_keep _ _ _ _ _ _ _ _ _ Hpr); [done|]. apply below_child.
    + rewrite (pr_keep _ _ _ _ _ _ _ _ _ Hpr); [done|]. apply below_self.
  - rewrite Hx. bsimpl. exists N, l. apply pruned_refl; [done|].
    intros π' q [σ ->] Hq. exfalso. revert q Hq.
    induction σ as [|j σ IHσ] using rev_ind; intros q Hq; [rewrite app_nil_r in Hq; congruence|].
    rewrite app_assoc in Hq. destruct (pt_parent _ _ _ _ Hr _ _ _ Hq) as [[y Hy] _].
    by apply (IHσ y).
Qed.

Lemma prune_loop level π p ixs s N l :
  prunes level → (length π + S level = 2)%nat → NoDup ixs →
  (∀ i, i ∈ ixs → 0 <= i < 512 ∧ (π = [] → own i)) →
  vm_inv own r s N l → N !! π = Some p →
  ∃ N' l', pruned own r (below ixs π) s N l
    (fold_left (prune_child level (phys_to_virt p)) ixs s) N' l'.
Proof.
  intros IH Hl Hnd. revert s N l. induction Hnd as [|i ixs Hni Hnd IHis]; intros s N l Hi Hv Hp.
  { exists N, l. apply pruned_refl; [done|]. intros π' q (i & Hin & _)%below_elem. by apply not_elem_of_nil in Hin. }
  cbn [fold_left]. destruct (Hi i ltac:(by left)) as [Hir Hio].
  destruct (prune_child_spec level π p s N l i) as (N1 & l1 & P1); try done.
  set (s1 := prune_child level (phys_to_virt p) s i) in *.
  destruct (IHis s1 N1 l1) as (N2 & l2 & P2).
  - intros j Hj. apply Hi. by right.
  - apply P1.
  - rewrite (pr_keep _ _ _ _ _ _ _ _ _ P1); [done|].
    intros H%prefix_length_le. rewrite length_app in H. simpl in H. lia.
  - exists N2, l2.
    assert (∀ π', below (i :: ixs) π π' ↔ ((π ++ [i]) `prefix_of` π' ∨ below ixs π π')) as Hb.
    { intros π'. unfold below. apply Exists_cons. }
    apply (pruned_weaken own r (λ π', (π ++ [i]) `prefix_of` π' ∨ below ixs π π')).
    + apply _.
    + intros π'. apply Hb.
    + intros π' q H1 H2. by apply Hb in H1.
    + eapply (pruned_trans _ _ _ (below ixs π)); [ |exact P1|exact P2].
      intros π' [σ ->] j (k & Hk & [τ Hτ])%below_elem. rewrite <- !app_assoc in Hτ.
      apply app_inv_head in Hτ. injection Hτ as -> _. done.
Qed.

Lemma prune_level_spec level : prunes level.
Proof.
  induction level as [|level IH]; intros π p s N l Hv Hp Hl Hne; cbn [prune_level].
  - exists s, N, l. split; [done|]. apply pruned_refl; [done|].
    intros π' q (i & _ & H%prefix_length_le)%below_elem Hq. exfalso.
    apply (pt_shape _ _ _ _ (vi_pt _ _ _ _ _ Hv)) in Hq. rewrite length_app in H. simpl in H. lia.
  - destruct (prune_loop level π p indices512 s N l IH Hl (indices_NoDup 512)) as (N' & l' & P); try done.
    + intros i Hi%elem_of_indices. split; [lia|done].
    + eexists _, N', l'. split; [|exact P]. done.
Qed.
End Prune.

Lemma vm_prune_user_spec r s N l :
  vm_inv lower_half r s N l →
  ∃ N' l', pruned lower_half r (below indices256 []) s N l
    (vm_prune_user (mk_page_table r) s) N' l'.
Proof.
  intros Hv. pose proof (pt_root _ _ _ _ (vi_pt _ _ _ _ _ Hv)) as H0.
  pose proof (pt_pages _ _ _ _ (vi_pt _ _ _ _ _ Hv) _ _ H0) as [Hp _].
  unfold vm_prune_user. cbn [root]. destruct (Z.eqb_spec r 0); [lia|].
  apply (prune_loop lower_half r 1 [] r indices256 s N l); try done.
  - apply prune_level_spec.
  - apply indices_NoDup.
  - intros i Hi%elem_of_indices. unfold lower_half. lia.
Qed.

(** * Theorems *)

(** No table below the root is empty. *)
Definition tidy (s : kstate) (N : gmap (list Z) Z) : Prop :=
  ∀ π q, π ≠ [] → N !! π = Some q → ¬ empty_table s q.

(** An address with given indices. *)
Definition va_of (i2 i1 i0 : Z) : Z := i2 * 2 ^ 30 + i1 * 2 ^ 21 + i0 * 2 ^ 12.

Lemma va_of_index i2 i1 i0 :
  0 <= i2 < 512 → 0 <= i1 < 512 → 0 <= i0 < 512 →
  vpn_index (va_of i2 i1 i0) 2 = i2 ∧ vpn_index (va_of i2 i1 i0) 1 = i1 ∧
  vpn_index (va_of i2 i1 i0) 0 = i0.
Proof.
  intros. rewrite !vpn_index_eq by lia. unfold va_of.
  change (2 ^ (12 + 2 * 9)) with (2 ^ 30). change (2 ^ (12 + 1 * 9)) with (2 ^ 21).
  change (2 ^ (12 + 0 * 9)) with (2 ^ 12). repeat split; div_lia.
Qed.

Section Tidy.
Context (own : Z → Prop) (r : Z).

(** In a tidy table a last-level table exists where something is mapped ... *)
Lemma tidy_leaf s N i2 i1 :
  pt_rep own s r N → tidy s N → 0 <= i2 < 512 → 0 <= i1 < 512 →
  is_Some (N !! [i2; i1]) ↔
  ∃ j, 0 <= j < 512 ∧ Z.land (leaf_entry s N (va_of i2 i1 j)) PTE_V ≠ 0.
Proof.
  intros Hr Ht H2 H1.
  assert (∀ j, 0 <= j < 512 → leaf_entry s N (va_of i2 i1 j)
    = match N !! [i2; i1] with Some q => entry_of s q j | None => 0 end) as Hl.
  { intros j Hj. destruct (va_of_index i2 i1 j H2 H1 Hj) as (E2 & E1 & E0).
    unfold leaf_entry, path2. by rewrite E2, E1, E0. }
  split.
  - intros [q Hq]. destruct (not_empty_table s q) as (j & Hj & Hv); [by eapply Ht; [|exact Hq]|].
    exists j. split; [done|]. by rewrite Hl, Hq.
  - intros (j & Hj & Hv). rewrite Hl in Hv by done.
    destruct (N !! [i2; i1]) as [q|]; [by exists q|done].
Qed.

(** ... and a middle table where one of its children does. *)
Lemma tidy_middle s N i2 :
  pt_rep own s r N → tidy s N →
  is_Some (N !! [i2]) ↔ ∃ i1, is_Some (N !! [i2; i1]).
Proof.
  intros Hr Ht. split.
  - intros [q Hq]. destruct (not_empty_table s q) as (j & Hj & Hv); [by eapply Ht; [|exact Hq]|].
    exists j. pose proof (pt_entry _ _ _ _ Hr [i2] q j Hq ltac:(simpl; lia) Hj ltac:(done)) as He.
    simpl in He. destruct (N !! [i2; j]) as [x|]; [by exists x|done].
  - intros [i1 [q Hq]]. by destruct (pt_parent _ _ _ _ Hr [i2] i1 q Hq).
Qed.

(** Tidy tables with the same mappings have the same nodes. *)
Lemma tidy_dom s N s' N' :
  pt_rep own s r N → tidy s N → pt_rep own s' r N' → tidy s' N' →
  (∀ va, leaf_equiv (leaf_entry s' N' va) (leaf_entry s N va)) → dom N = dom N'.
Proof.
  intros Hr Ht Hr' Ht' Hleaf.
  assert (∀ e e', leaf_equiv e e' → Z.land e PTE_V ≠ 0 ↔ Z.land e' PTE_V ≠ 0) as Heq.
  { intros e e' [->|[-> ->]]; done. }
  assert (∀ i2 i1, is_Some (N !! [i2; i1]) ↔ is_Some (N' !! [i2; i1])) as H2.
  { intros i2 i1.
    assert (∀ M t, pt_rep own t r M → is_Some (M !! [i2; i1]) → 0 <= i2 < 512 ∧ 0 <= i1 < 512) as Hb.
    { intros M t HM [x Hx]. apply (node_path _ _ _ _ _ _ HM) in Hx.
      inversion Hx as [|? ? Ha Hx']; subst. by inversion Hx'; subst. }
    split; intros Hs.
    - destruct (Hb _ _ Hr Hs). apply (tidy_leaf s N) in Hs as (j & Hj & Hv); [|done..].
      apply (tidy_leaf s' N'); [done..|]. exists j. split; [done|]. by apply (Heq _ _ (Hleaf _)).
    - destruct (Hb _ _ Hr' Hs). apply (tidy_leaf s' N') in Hs as (j & Hj & Hv); [|done..].
      apply (tidy_leaf s N); [done..|]. exists j. split; [done|]. by apply (Heq _ _ (Hleaf _)). }
  apply set_eq. intros π. rewrite !elem_of_dom.
  destruct π as [|i2 [|i1 [|i0 π]]].
  - rewrite (pt_root _ _ _ _ Hr), (pt_root _ _ _ _ Hr'). done.
  - rewrite (tidy_middle s N), (tidy_middle s' N') by done. by setoid_rewrite H2.
  - apply H2.
  - split; intros [x Hx]; [apply (pt_shape _ _ _ _ Hr) in Hx|apply (pt_shape _ _ _ _ Hr') in Hx];
      simpl in Hx; lia.
Qed.
End Tidy.

Lemma map_vals_length (N N' : gmap (list Z) Z) :
  dom N = dom N' → length (map_vals N) = length (map_vals N').
Proof.
  intros H. unfold map_vals. rewrite !length_fmap, !length_map_to_list, <- !size_dom.
  by rewrite H.
Qed.

(** A user table's nodes are all reached by the lower half of the root. *)
Lemma user_below s r N π q :
  pt_rep lower_half s r N → π ≠ [] → N !! π = Some q → below indices256 [] π.
Proof.
  intros Hr Hne Hq. apply (user_node_path s r) in Hq; [|done].
  apply elem_of_app in Hq as [(i & H1 & H2)%list_elem_of_bind|H%list_elem_of_singleton]; [|done].
  apply below_elem. exists i. split; [done|]. apply elem_of_paths in H1 as (σ & -> & _).
  by exists σ.
Qed.

(** [vm_destroy_user] gives every page of the user half and the root back
    to the allocator, each once, leaves the borrowed kernel half's tables and
    all other memory alone, and clears the caller's root pointer. *)
Theorem vm_destroy_user_reclaims (r : Z) (s : kstate) (N : gmap (list Z) Z) (l : list Z) :
  vm_inv lower_half r s N l →
  ∃ s' l', vm_destroy_user (Some (mk_page_table r)) s = (Some (mk_page_table 0), s') ∧
    free_rep s' l' ∧ l' ≡ₚ map_vals N ++ l ∧
    same_on (outside (map_vals N)) (mem s) (mem s').
Proof.
  intros Hv. destruct (vm_destroy_user_spec r s N l Hv) as (s' & E & Hf & Hp & Hm).
  exists s', (rev (subtree N user_paths) ++ l). split; [done|]. split; [done|].
  split; [|done]. by rewrite <- Permutation_rev, Hp.
Qed.

Lemma vm_destroy_user_reclaims_witness :
  ∃ s' l', vm_destroy_user (Some (mk_page_table demo_root)) demo_state
           = (Some (mk_page_table 0), s') ∧
    free_rep s' l' ∧ l' ≡ₚ demo_root :: demo_free.
Proof.
  destruct (vm_destroy_user_reclaims demo_root demo_state _ _ (demo_inv lower_half))
    as (s' & l' & H1 & H2 & H3 & _).
  exists s', l'. rewrite map_vals_root in H3. split; [exact H1|]. split; [exact H2|exact H3].
Defined.

(** [vm_prune_user] changes no translation, frees only empty tables and
    leaves none: every remaining table below the root has a valid entry. *)
Theorem vm_prune_user_tidy (r : Z) (s : kstate) (N : gmap (list Z) Z) (l : list Z) :
  vm_inv lower_half r s N l →
  ∃ N' l', let s' := vm_prune_user (mk_page_table r) s in
    vm_inv lower_half r s' N' l' ∧ tidy s' N' ∧
    l ++ map_vals N ≡ₚ l' ++ map_vals N' ∧
    ∀ va, lower_half (vpn_index va 2) →
      vm_query (Some (mk_page_table r)) va s' = vm_query (Some (mk_page_table r)) va s.
Proof.
  intros Hv. destruct (vm_prune_user_spec r s N l Hv) as (N' & l' & [[Hv' Hp Hl _] _ Hc _]).
  exists N', l'. set (s' := vm_prune_user _ _) in *. cbv zeta. split; [done|]. split.
  - intros π q Hne Hq. apply (Hc π); [|done]. by apply (user_below s' r N' π q); [apply Hv'| |].
  - split; [done|]. intros va Ho.
    apply (vm_query_ext lower_half r s N s' N'); [apply Hv|apply Hv'|done|].
    by apply decode_leaf_equiv.
Qed.

Lemma vm_prune_user_tidy_witness :
  vm_query (Some (mk_page_table demo_root)) 4096
    (vm_prune_user (mk_page_table demo_root) demo_state)
  = vm_query (Some (mk_page_table demo_root)) 4096 demo_state.
Proof.
  destruct (vm_prune_user_tidy demo_root demo_state _ _ (demo_inv lower_half))
    as (N' & l' & _ & _ & _ & H).
  apply H. vm_compute. reflexivity.
Defined.

(** A table on a machine that has no page left. *)
Definition full_state : kstate :=
  snd (vm_create (Some (mk_page_table 0)) (stocked [demo_root])).

Lemma full_inv :
  vm_inv lower_half demo_root full_state {[ [] := demo_root ]} [] ∧
  ∀ i, 0 <= i < 512 → entry_of full_state demo_root i = 0.
Proof.
  unfold full_state.
  assert (free_rep (stocked [demo_root]) [demo_root]) as Hf.
  { apply stocked_rep; [|apply NoDup_singleton]. constructor; [|constructor].
    split; [unfold demo_root; lia|reflexivity]. }
  pose proof (vm_create_spec lower_half (mk_page_table 0) _ _ Hf) as H.
  destruct (vm_create _ _) as [[ok t] s].
  destruct H as [(_ & H & _)|(_ & r & l' & [= <- <-] & _ & H & _ & Hz & _)]; [done|].
  split; [exact H|exact Hz].
Qed.
#[global] Opaque full_state.

Lemma full_map_fails :
  vm_map (Some (mk_page_table demo_root)) 4096 8192 22 full_state = (false, full_state).
Proof.
  destruct full_inv as [Hv Hz]. rewrite vm_map_unfold by reflexivity.
  unfold walk. cbn [root]. change (demo_root =? 0) with false.
  change (canonical 4096) with true. bsimpl. cbn [walk_levels].
  change (root_pointer (mk_page_table demo_root)) with (phys_to_virt demo_root).
  rewrite entry_fold, Hz by (vm_compute; split; discriminate || reflexivity).
  bsimpl. change (Z.land 0 PTE_V =? 0) with true. cbv iota.
  rewrite (page_alloc_empty _ (vi_free _ _ _ _ _ Hv)). reflexivity.
Qed.

Lemma root_tidy s r : tidy s {[ [] := r ]}.
Proof. intros π q Hne Hq. by apply lookup_singleton_Some in Hq as [E _]. Qed.

(** Undoing a failed mapping: if [vm_map] fails for want of memory in a table
    without empty tables, [vm_prune_user] gives back what it had allocated: the
    number of free pages is the one before the call. *)
Theorem vm_map_fail_prune (r va pa flags : Z) (s s' : kstate)
    (N : gmap (list Z) Z) (l : list Z) :
  vm_inv lower_half r s N l → tidy s N → 0 <= va < 2 ^ 38 → 0 <= pa < 2 ^ 56 → in_u64 flags →
  vm_map (Some (mk_page_table r)) va pa flags s = (false, s') →
  page_free_count (vm_prune_user (mk_page_table r) s') = page_free_count s.
Proof.
  intros Hv Ht Hva Hpa Hf E.
  assert (∃ N1 l1, vm_sim lower_half r s N l s' N1 l1) as (N1 & l1 & S1).
  { destruct (decide (va mod 4096 = 0 ∧ pa mod 4096 = 0 ∧ valid_leaf_flags flags = true))
      as [(Ha & Hpaa & Hfl)|Hbad].
    - destruct (vm_map_spec lower_half r s N l va pa flags) as
        (ok & s1 & N1 & l1 & E1 & Hv1 & Hp1 & Hm1 & Hfail & _);
        [done|by apply vpn_index_user|by apply canonical_user|done..|].
      rewrite E in E1. injection E1 as <- <-. exists N1, l1. split; [done|done| |done].
      intros va'. destruct (Hfail eq_refl) as [-> _]. done.
    - rewrite vm_map_bad_args in E by done. injection E as <-. exists N, l.
      by apply vm_sim_refl. }
  destruct (vm_prune_user_spec r s' N1 l1 (vs_inv _ _ _ _ _ _ _ _ S1)) as (N2 & l2 & [S2 _ Hc _]).
  set (s2 := vm_prune_user _ _) in *.
  pose proof (vm_sim_trans _ _ _ _ _ _ _ _ _ _ _ S1 S2) as [Hv2 Hp Hl _].
  assert (dom N = dom N2) as Hdom.
  { apply (tidy_dom lower_half r s N s2 N2); [apply Hv|done|apply Hv2| |done].
    intros π q Hne Hq. apply (Hc π); [|done]. by apply (user_below s2 r N2 π q); [apply Hv2| |]. }
  apply Permutation_length in Hp. rewrite !length_app, (map_vals_length _ _ Hdom) in Hp.
  pose proof (fr_count _ _ (vi_free _ _ _ _ _ Hv)). pose proof (fr_count _ _ (vi_free _ _ _ _ _ Hv2)).
  unfold page_free_count. lia.
Qed.

Lemma vm_map_fail_prune_witness :
  page_free_count (vm_prune_user (mk_page_table demo_root) full_state)
  = page_free_count full_state.
Proof.
  apply (vm_map_fail_prune demo_root 4096 8192 22 full_state full_state _ _
           (proj1 full_inv) (root_tidy _ _)); [lia|lia|unfold in_u64; lia|exact full_map_fails].
Defined.
