(* ===== verification/VmKernel.v ===== *)
(** The kernel's address space: [vm_build_kernel] of [src/mm/vm.c] builds the
    direct map the boot information asks for, and nothing else; user tables
    made by [vm_create_user] share it. *)
From S2P Require Import Prelude Machine Runtime BootInfo PageAlloc Vm VmInv VmProps VmReclaim.

(** * Direct-map addresses *)

(** The physical page that the direct map would put at [va]: a number in
    [0, 2 ^ 38) exactly for the upper half. *)
Definition direct_page (va : Z) : Z := ((va / 4096) mod 2 ^ 27 - 2 ^ 26) * 4096.

Lemma direct_page_aligned va : direct_page va mod 4096 = 0.
Proof. unfold direct_page. apply Z.mod_mul. lia. Qed.

(** Pages at or above [p] are [p] itself or at least a page further. *)
Lemma aligned_step p q : p mod 4096 = 0 → q mod 4096 = 0 → p <= q ↔ q = p ∨ p + 4096 <= q.
Proof. div_lia. Qed.

Lemma direct_address pa : 0 <= pa < 2 ^ 38 → u64 (KERNEL_DIRECT_BASE + pa) = KERNEL_DIRECT_BASE + pa.
Proof. intros. apply u64_small. unfold in_u64. lia. Qed.

Lemma same_vpn_direct pa va :
  0 <= pa < 2 ^ 38 → pa mod 4096 = 0 →
  same_vpn (u64 (KERNEL_DIRECT_BASE + pa)) va ↔ direct_page va = pa.
Proof.
  intros Hp Ha. rewrite same_vpn_iff, direct_address by done. unfold direct_page.
  change (2 ^ 27) with 134217728. change (2 ^ 26) with 67108864. change (2 ^ 38) with 274877906944 in *.
  generalize (va / 4096). intros x. split; div_lia.
Qed.

Lemma canonical_direct pa : 0 <= pa < 2 ^ 38 → canonical (u64 (KERNEL_DIRECT_BASE + pa)) = true.
Proof.
  intros. rewrite direct_address by done. unfold canonical.
  rewrite Z.shiftr_div_pow2 by lia.
  replace ((KERNEL_DIRECT_BASE + pa) / 2 ^ 39) with 33554431; [done|]. 
  change (2 ^ 39) with 549755813888. change (2 ^ 38) with 274877906944 in *. div_lia.
Qed.

Section KernelSpace.
Context (sym : linker_symbols).

Definition region_flags (ram : bool) (physical : Z) : Z :=
  if ram then kernel_page_flags sym physical else Z.lor PTE_R (Z.lor PTE_W PTE_G).

Lemma region_flags_cases ram p : region_flags ram p = 42 ∨ region_flags ram p = 34 ∨ region_flags ram p = 38.
Proof. unfold region_flags, kernel_page_flags. repeat case_if; auto. Qed.

Lemma region_flags_valid ram p :
  in_u64 (region_flags ram p) ∧ valid_leaf_flags (region_flags ram p) = true.
Proof. unfold in_u64. destruct (region_flags_cases ram p) as [->|[->| ->]]; (split; [lia|done]). Qed.

(** [wanted] gives the last-level entry an operation is to install for an
    address, if any; it has been installed where there was none. *)
Definition installs (wanted : Z → option Z) (s : kstate) (N : gmap (list Z) Z)
    (s' : kstate) (N' : gmap (list Z) Z) : Prop :=
  ∀ va, match wanted va with
        | Some e => Z.land (leaf_entry s N va) PTE_V = 0 ∧ leaf_entry s' N' va = e
        | None => leaf_entry s' N' va = leaf_entry s N va
        end.

Definition all_valid (wanted : Z → option Z) : Prop :=
  ∀ va e, wanted va = Some e → Z.land e PTE_V ≠ 0.

Definition orelse (w1 w2 : Z → option Z) (va : Z) : option Z :=
  match w1 va with Some e => Some e | None => w2 va end.

Lemma installs_trans w1 w2 s N s1 N1 s2 N2 :
  all_valid w1 → installs w1 s N s1 N1 → installs w2 s1 N1 s2 N2 →
  installs (orelse w1 w2) s N s2 N2.
Proof.
  intros Hv H1 H2 va. specialize (H1 va). specialize (H2 va). unfold orelse.
  destruct (w1 va) as [e|] eqn:E.
  - destruct H1 as [H1 He]. rewrite He in H2. split; [done|].
    destruct (w2 va); [|done]. by destruct H2 as [H2 _]; apply Hv in E.
  - destruct (w2 va); [by rewrite H1 in H2|congruence].
Qed.

(** An operation that succeeds when it has installed all of [wanted] and
    accounts for every page whether it does or not. *)
Definition attempt (wanted : Z → option Z) (r : Z) (s : kstate) (N : gmap (list Z) Z)
    (l : list Z) (res : bool * kstate) : Prop :=
  ∃ N' l', vm_inv whole r (snd res) N' l' ∧ l ++ map_vals N ≡ₚ l' ++ map_vals N' ∧
    same_on (outside (l ++ map_vals N)) (mem s) (mem (snd res)) ∧
    (fst res = true → installs wanted s N (snd res) N').

Definition nothing : Z → option Z := λ _, None.

Lemma attempt_skip r s N l : vm_inv whole r s N l → attempt nothing r s N l (true, s).
Proof.
  intros. exists N, l. split; [done|]. split; [done|]. split; [done|]. by intros _ va.
Qed.

(** Sequencing with the early return on failure. *)
Lemma attempt_bind w1 w2 r s N l res k :
  all_valid w1 → attempt w1 r s N l res →
  (∀ N1 l1, vm_inv whole r (snd res) N1 l1 → attempt w2 r (snd res) N1 l1 (k (snd res))) →
  attempt (orelse w1 w2) r s N l
    (let '(ok, s) := res in if negb ok then (false, s) else k s).
Proof.
  intros Hw (N1 & l1 & V1 & P1 & F1 & I1) Hk. destruct res as [[|] s1]; simpl in *.
  - destruct (Hk N1 l1 V1) as (N2 & l2 & V2 & P2 & F2 & I2). exists N2, l2. split; [done|].
    split; [by rewrite P1|]. split.
    + transitivity (mem s1); [done|]. eapply same_on_weaken; [|exact F2].
      intros a. by apply outside_perm.
    + intros Hok. eapply installs_trans; [done|by apply I1|by apply I2].
  - exists N1, l1. split; [done|]. split; [done|]. by split.
Qed.

Lemma attempt_ext w1 w2 r s N l res :
  (∀ va, w1 va = w2 va) → attempt w1 r s N l res → attempt w2 r s N l res.
Proof.
  intros He (N1 & l1 & V1 & P1 & F1 & I1). exists N1, l1. split; [done|]. split; [done|].
  split; [done|]. intros Hok va. rewrite <- He. by apply I1.
Qed.

(** * The loop over a physical range *)

(** The direct-map entries of the pages in [lo, hi), the guard page left out. *)
Definition wanted_pages (lo hi : Z) (ram : bool) (va : Z) : option Z :=
  let p := direct_page va in
  if decide (lo <= p < hi ∧ u64 (KERNEL_DIRECT_BASE + p) ≠ boot_stack_guard sym)
  then Some (leaf_pte p (region_flags ram p)) else None.

Lemma wanted_pages_valid lo hi ram :
  0 <= lo → hi <= 2 ^ 38 → all_valid (wanted_pages lo hi ram).
Proof.
  intros Hlo Hhi va e. unfold wanted_pages. case_decide as Hd; [|done]. intros [= <-].
  destruct (region_flags_valid ram (direct_page va)) as [Hu Hv].
  destruct (leaf_pte_spec (direct_page va) (region_flags ram (direct_page va))) as (_ & _ & Hm);
    [lia|apply direct_page_aligned|done|done|].
  rewrite land_low_bits, Hm by lia. by apply leaf_bits_spec.
Qed.

Lemma vm_map_attempt r s N l p ram :
  vm_inv whole r s N l → 0 <= p < 2 ^ 38 → p mod 4096 = 0 →
  u64 (KERNEL_DIRECT_BASE + p) ≠ boot_stack_guard sym →
  attempt (wanted_pages p (p + 4096) ram) r s N l
    (vm_map (Some (mk_page_table r)) (u64 (KERNEL_DIRECT_BASE + p)) p (region_flags ram p) s).
Proof.
  intros Hv Hp Ha Hg. destruct (region_flags_valid ram p) as [Hu Hvf].
  destruct (vm_map_spec whole r s N l (u64 (KERNEL_DIRECT_BASE + p)) p (region_flags ram p)) as
    (ok & s' & N' & l' & -> & Hv' & Hperm & Hframe & _ & Hok); try done.
  - by apply canonical_direct.
  - rewrite direct_address by done. div_lia.
  - lia.
  - exists N', l'. split; [done|]. split; [done|]. split; [done|]. simpl. intros ->.
    destruct (Hok eq_refl) as [H0 Hl]. intros va. unfold wanted_pages. rewrite Hl.
    pose proof (direct_page_aligned va).
    pose proof (same_vpn_direct p va Hp Ha) as Hiff.
    destruct (decide (same_vpn _ _)) as [Hs|Hs].
    + pose proof (proj1 Hiff Hs) as E. rewrite E, decide_True by (split; [lia|done]).
      split; [|done]. rewrite <- H0. f_equal. unfold leaf_entry, path2.
      destruct Hs as (-> & -> & ->). done.
    + rewrite decide_False; [done|]. intros [Hd _]. apply Hs, Hiff. div_lia.
Qed.

(** More fuel than pages changes nothing: the loop has ended. *)
Lemma map_pages_fuel fuel fuel' t p end_ ram s :
  0 <= p → end_ <= 2 ^ 63 → (end_ - p + 4095) / 4096 <= Z.of_nat fuel → (fuel <= fuel')%nat →
  map_pages sym fuel' t p end_ ram s = map_pages sym fuel t p end_ ram s.
Proof.
  intros Hp He. revert p s fuel' Hp. induction fuel as [|fuel IH]; intros p s fuel' Hp Hf Hle.
  - destruct fuel'; [done|]. cbn [map_pages]. destruct (Z.ltb_spec p end_); [div_lia|done].
  - destruct fuel' as [|fuel']; [lia|]. cbn [map_pages]. destruct (Z.ltb_spec p end_); [|done].
    rewrite (u64_small (p + 4096)) by (unfold in_u64; lia).
    case_if; [apply IH; div_lia|]. destruct (vm_map _ _ _ _ _) as [[|] s1]; [|done].
    apply IH; div_lia.
Qed.

Lemma map_pages_attempt fuel r p end_ ram s N l :
  vm_inv whole r s N l → 0 <= p → p mod 4096 = 0 → end_ mod 4096 = 0 → end_ <= 2 ^ 38 →
  (end_ - p) / 4096 <= Z.of_nat fuel →
  attempt (wanted_pages p end_ ram) r s N l
    (map_pages sym fuel (Some (mk_page_table r)) p end_ ram s).
Proof.
  intros Hv Hp Ha Hea He. revert p s N l Hv Hp Ha.
  induction fuel as [|fuel IH]; intros p s N l Hv Hp Ha Hf; cbn [map_pages].
  { eapply attempt_ext; [|by apply attempt_skip]. intros va. unfold wanted_pages, nothing.
    rewrite decide_False; [done|]. div_lia. }
  destruct (Z.ltb_spec p end_) as [Hlt|Hge].
  2: { eapply attempt_ext; [|by apply attempt_skip]. intros va. unfold wanted_pages, nothing.
       rewrite decide_False; [done|]. lia. }
  rewrite (u64_small (p + 4096)) by (unfold in_u64; lia).
  destruct (Z.eqb_spec (u64 (KERNEL_DIRECT_BASE + p)) (boot_stack_guard sym)) as [Hg|Hg].
  - eapply attempt_ext; [|apply (IH (p + 4096)); [done|lia|div_lia|div_lia]].
    intros va. unfold wanted_pages.
    pose proof (aligned_step p (direct_page va) Ha (direct_page_aligned va)).
    destruct (decide (direct_page va = p)) as [E|E].
    + rewrite !decide_False; [done| |]; rewrite E; tauto.
    + destruct (decide (p + 4096 <= _ < _ ∧ _)), (decide (p <= _ < _ ∧ _)); try done; exfalso; intuition lia.
  - fold (region_flags ram p).
    eapply attempt_ext;
      [|eapply attempt_bind with (w1 := wanted_pages p (p + 4096) ram) (w2 := wanted_pages (p + 4096) end_ ram)].
    + intros va. unfold orelse, wanted_pages.
      pose proof (aligned_step p (direct_page va) Ha (direct_page_aligned va)).
      pose proof (aligned_step p (p + 4096) Ha ltac:(div_lia)).
      pose proof (aligned_step (p + 4096) end_ ltac:(div_lia) Hea).
      pose proof (aligned_step p end_ Ha Hea).
      repeat case_decide; try done; exfalso; intuition lia.
    + apply (wanted_pages_valid p (p + 4096) ram); div_lia.
    + by apply vm_map_attempt; [|lia|..].
    + intros N1 l1 V1. apply IH; [done|lia|div_lia|div_lia].
Qed.

Definition region_first (rg : physical_range) : Z := base rg - base rg mod 4096.
Definition region_end (rg : physical_range) : Z :=
  let e := base rg + size rg + 4095 in e - e mod 4096.

(** A range the direct map can hold. *)
Definition region_ok (rg : physical_range) : Prop :=
  0 <= base rg ∧ 0 <= size rg ∧ base rg + size rg <= 2 ^ 38.

Definition wanted_region (g : physical_range * bool) : Z → option Z :=
  wanted_pages (region_first (fst g)) (region_end (fst g)) (snd g).

Lemma region_bounds rg :
  region_ok rg → 0 <= region_first rg ∧ region_first rg mod 4096 = 0 ∧
  region_end rg mod 4096 = 0 ∧ region_end rg <= 2 ^ 38.
Proof.
  intros (H1 & H2 & H3). unfold region_first, region_end. cbv zeta.
  change (2 ^ 38) with 274877906944 in *. split; [div_lia|]. split; [div_lia|]. split; div_lia.
Qed.

Lemma wanted_region_valid g : region_ok (fst g) → all_valid (wanted_region g).
Proof. intros H. apply region_bounds in H. apply wanted_pages_valid; tauto. Qed.

Lemma map_physical_range_attempt r s N l g :
  vm_inv whole r s N l → region_ok (fst g) →
  attempt (wanted_region g) r s N l
    (map_physical_range sym (Some (mk_page_table r)) (base (fst g)) (size (fst g)) (snd g) s).
Proof.
  intros Hv Hok. destruct g as [rg ram]. cbn [fst snd] in *.
  destruct (region_bounds rg Hok) as (B1 & B2 & B3 & B4). destruct Hok as (H1 & H2 & H3).
  unfold map_physical_range. rewrite (u64_small (base rg + size rg)) by (unfold in_u64; lia).
  destruct (Z.gtb_spec (base rg) (UINT64_MAX - size rg)); [lia|].
  destruct (Z.gtb_spec (base rg + size rg) (UINT64_MAX - PAGE_MASK)); [lia|]. bsimpl.
  rewrite u64_small by (unfold in_u64; lia).
  rewrite !land_not_page_mask by (unfold in_u64; lia).
  apply map_pages_attempt; [exact Hv|done|done|done|done|].
  unfold region_end, region_first in *. cbv zeta in *. div_lia.
Qed.

(** * The whole map *)

(** The regions [vm_build_kernel] maps, in its order; [true] marks RAM. *)
Definition kernel_regions (info : boot_info) : list (physical_range * bool) :=
  ((λ r, (r, true)) <$> memory_ranges info) ++ [(mk_range 1048576 PAGE_SIZE, false)]
  ++ (if uart_present info then [(uart info, false)] else [])
  ++ (if plic_present info then [(plic info, false)] else [])
  ++ ((λ r, (r, false)) <$> virtio info).

Fixpoint map_regions (t : option page_table) (gs : list (physical_range * bool)) (s : kstate)
    : bool * kstate :=
  match gs with
  | [] => (true, s)
  | g :: gs =>
      let '(ok, s) := map_physical_range sym t (base (fst g)) (size (fst g)) (snd g) s in
      if negb ok then (false, s) else map_regions t gs s
  end.

Lemma map_regions_app t gs hs s :
  map_regions t (gs ++ hs) s
  = let '(ok, s) := map_regions t gs s in if negb ok then (false, s) else map_regions t hs s.
Proof.
  revert s. induction gs as [|g gs IH]; intros s; [done|]. cbn [map_regions app].
  destruct (map_physical_range _ _ _ _ _ s) as [[|] s1]; [apply IH|done].
Qed.

Lemma map_ranges_regions t rs ram s :
  map_ranges sym t rs ram s = map_regions t ((λ r, (r, ram)) <$> rs) s.
Proof.
  revert s. induction rs as [|r rs IH]; intros s; [done|]. cbn [map_ranges fmap list_fmap map_regions fst snd].
  destruct (map_physical_range _ _ _ _ _ s) as [[|] s1]; [apply IH|done].
Qed.

Lemma map_regions_one t rg ram (b : bool) s :
  map_regions t (if b then [(rg, ram)] else []) s
  = if b then map_physical_range sym t (base rg) (size rg) ram s else (true, s).
Proof.
  destruct b; [|done]. cbn [map_regions fst snd].
  by destruct (map_physical_range _ _ _ _ _ s) as [[|] s1].
Qed.

Definition wanted_regions (gs : list (physical_range * bool)) : Z → option Z :=
  foldr (λ g, orelse (wanted_region g)) nothing gs.

Lemma map_regions_attempt r s N l gs :
  vm_inv whole r s N l → Forall (λ g, region_ok (fst g)) gs →
  attempt (wanted_regions gs) r s N l (map_regions (Some (mk_page_table r)) gs s).
Proof.
  intros Hv Hgs. revert s N l Hv. induction Hgs as [|g gs Hg Hgs IH]; intros s N l Hv.
  { by apply attempt_skip. }
  cbn [map_regions wanted_regions foldr].
  apply (attempt_bind (wanted_region g) (wanted_regions gs)).
  - by apply wanted_region_valid.
  - by apply map_physical_range_attempt.
  - intros N1 l1 V1. by apply IH.
Qed.

Lemma vm_build_kernel_regions t info s :
  vm_build_kernel sym (Some t) (Some info) s
  = let '(ok, t, s) := vm_create (Some t) s in
    if negb ok then (false, t, s)
    else let '(ok, s) := map_regions t (kernel_regions info) s in
         if negb ok then let '(t, s) := vm_destroy t s in (false, t, s) else (true, t, s).
Proof.
  unfold vm_build_kernel, kernel_regions.
  destruct (vm_create (Some t) s) as [[[|] t1] s1]; [|done]. bsimpl.
  rewrite map_regions_app, map_ranges_regions.
  destruct (map_regions t1 _ s1) as [[|] s2]; [|done]. bsimpl.
  rewrite map_regions_app, (map_regions_one t1 (mk_range 1048576 PAGE_SIZE) false true s2).
  cbn [base size]. destruct (map_physical_range _ _ 1048576 _ _ s2) as [[|] s3]; [|done]. bsimpl.
  rewrite map_regions_app, map_regions_one. destruct (uart_present info).
  - destruct (map_physical_range _ _ _ _ _ s3) as [[|] s4]; [|done]. bsimpl.
    rewrite map_regions_app, map_regions_one. destruct (plic_present info).
    + destruct (map_physical_range _ _ _ _ _ s4) as [[|] s5]; [|done]. bsimpl.
      by rewrite map_ranges_regions.
    + bsimpl. by rewrite map_ranges_regions.
  - bsimpl. rewrite map_regions_app, map_regions_one. destruct (plic_present info).
    + destruct (map_physical_range _ _ _ _ _ s3) as [[|] s5]; [|done]. bsimpl.
      by rewrite map_ranges_regions.
    + bsimpl. by rewrite map_ranges_regions.
Qed.
End KernelSpace.

(** * What the kernel map translates *)

(** The specification: an address of the direct map whose page is covered by a
    region, and is not the stack guard, translates to that page with the
    permissions of its region. *)
Definition kernel_translation (sym : linker_symbols) (info : boot_info) (va : Z)
    : option (Z * Z) :=
  let p := direct_page va in
  if u64 (KERNEL_DIRECT_BASE + p) =? boot_stack_guard sym then None
  else match find (λ g, (region_first (fst g) <=? p) && (p <? region_end (fst g)))
               (kernel_regions info) with
       | Some g => Some (p + va mod PAGE_SIZE, leaf_bits (region_flags sym (snd g) p))
       | None => None
       end.

Lemma wanted_regions_spec sym gs va :
  Forall (λ g, region_ok (fst g)) gs →
  let p := direct_page va in
  match wanted_regions sym gs va with Some e => decode_leaf e va | None => None end
  = if u64 (KERNEL_DIRECT_BASE + p) =? boot_stack_guard sym then None
    else match find (λ g, (region_first (fst g) <=? p) && (p <? region_end (fst g))) gs with
         | Some g => Some (p + va mod PAGE_SIZE, leaf_bits (region_flags sym (snd g) p))
         | None => None
         end.
Proof.
  intros Hgs. cbv zeta. induction Hgs as [|g gs Hg Hgs IH]; [by case_if|].
  unfold wanted_regions. cbn [foldr find]. fold (wanted_regions sym gs).
  unfold orelse at 1, wanted_region, wanted_pages.
  destruct (region_bounds (fst g) Hg) as (B1 & _ & _ & B4).
  destruct (Z.eqb_spec (u64 (KERNEL_DIRECT_BASE + direct_page va)) (boot_stack_guard sym)) as [E|E].
  { rewrite decide_False by tauto. exact IH. }
  destruct (Z.leb_spec (region_first (fst g)) (direct_page va)); bsimpl.
  - destruct (Z.ltb_spec (direct_page va) (region_end (fst g))).
    + rewrite decide_True by (split; [lia|done]).
      destruct (region_flags_valid sym (snd g) (direct_page va)).
      apply decode_leaf_pte; [lia|apply direct_page_aligned|done|done].
    + rewrite decide_False by lia. exact IH.
  - rewrite decide_False by lia. exact IH.
Qed.

Section Build.
Context (sym : linker_symbols) (info : boot_info).
Context (Hregions : Forall (λ g, region_ok (fst g)) (kernel_regions info)).

(** Creation followed by the mapping loops. *)
Lemma vm_build_kernel_spec t s l :
  free_rep s l →
  let '(ok, t', s') := vm_build_kernel sym (Some t) (Some info) s in
  (ok = false ∧ t' = Some (mk_page_table 0) ∧ ∃ l', free_rep s' l' ∧ l' ≡ₚ l) ∨
  (ok = true ∧ ∃ r N' l', t' = Some (mk_page_table r) ∧ vm_inv whole r s' N' l' ∧
     l ≡ₚ l' ++ map_vals N' ∧
     ∀ va, leaf_entry s' N' va = default 0 (wanted_regions sym (kernel_regions info) va)).
Proof.
  intros Hf. rewrite vm_build_kernel_regions.
  pose proof (vm_create_spec whole t s l Hf) as Hc.
  destruct (vm_create (Some t) s) as [[ok t1] s1].
  destruct Hc as [(-> & -> & -> & ->)|(-> & r & l1 & -> & -> & Hv & Hz & _ & _)].
  { left. split; [done|]. split; [done|]. by exists []. }
  bsimpl. pose proof (map_regions_attempt sym r s1 _ l1 _ Hv Hregions) as (N2 & l2 & V2 & P2 & _ & I2).
  rewrite map_vals_root in P2.
  destruct (map_regions _ _ _ s1) as [[|] s2]; cbn [fst snd] in *; bsimpl.
  - right. split; [done|]. exists r, N2, l2. split; [done|]. split; [done|]. split.
    + rewrite <- P2. by rewrite Permutation_app_comm.
    + intros va. specialize (I2 eq_refl va). rewrite Hz in I2.
      by destruct (wanted_regions _ _ _); [destruct I2|].
  - destruct (vm_destroy_spec r s2 N2 l2 V2) as (s3 & -> & F3 & P3 & _).
    left. split; [done|]. split; [done|]. eexists. split; [exact F3|].
    rewrite <- Permutation_rev, P3, Permutation_app_comm, <- P2. by rewrite Permutation_app_comm.
Qed.
End Build.

Lemma vm_build_kernel_query sym info t t' s s' l va :
  free_rep s l → Forall (λ g, region_ok (fst g)) (kernel_regions info) →
  vm_build_kernel sym (Some t) (Some info) s = (true, t', s') →
  vm_query t' va s' = if canonical va then kernel_translation sym info va else None.
Proof.
  intros Hf Hr E. pose proof (vm_build_kernel_spec sym info Hr t s l Hf) as H. rewrite E in H.
  destruct H as [(? & _)|(_ & r & N' & l' & -> & Hv & _ & Hleaf)]; [done|].
  rewrite (vm_query_leaf _ _ _ _ _ (vi_pt _ _ _ _ _ Hv)) by done. rewrite Hleaf.
  destruct (canonical va); [|done]. unfold kernel_translation.
  rewrite <- (wanted_regions_spec sym _ va Hr).
  by destruct (wanted_regions _ _ _).
Qed.

(** A board with nothing but the test device. *)
Definition bare_board : boot_info :=
  mk_boot_info [] [] (mk_range 0 0) 0 (mk_range 0 0) 0 [] [] 0 0 0 false false.
Definition bare_symbols : linker_symbols := mk_symbols 0 0 0 0 0.

Lemma bare_regions : Forall (λ g, region_ok (fst g)) (kernel_regions bare_board).
Proof. constructor; [|constructor]. unfold region_ok. simpl. lia. Qed.

(** A range of one page takes one [vm_map]. *)
Lemma map_one_page sym t p ram s :
  0 <= p → p mod 4096 = 0 → p + 4096 <= 2 ^ 38 →
  u64 (KERNEL_DIRECT_BASE + p) ≠ boot_stack_guard sym →
  map_physical_range sym t p 4096 ram s
  = vm_map t (u64 (KERNEL_DIRECT_BASE + p)) p (region_flags sym ram p) s.
Proof.
  intros Hp Ha Ht Hg. unfold map_physical_range.
  rewrite (u64_small (p + 4096)) by (unfold in_u64; lia).
  destruct (Z.gtb_spec p (UINT64_MAX - 4096)); [lia|].
  destruct (Z.gtb_spec (p + 4096) (UINT64_MAX - PAGE_MASK)); [lia|]. bsimpl.
  rewrite (u64_small (p + 4096 + PAGE_MASK)) by (unfold in_u64; lia).
  rewrite !land_not_page_mask by (unfold in_u64; lia).
  replace (p - p mod 4096) with p by lia.
  replace (p + 4096 + PAGE_MASK - (p + 4096 + PAGE_MASK) mod 4096) with (p + 4096) by div_lia.
  replace (p + 4096 - p) with 4096 by lia. change (Z.to_nat (4096 / PAGE_SIZE)) with 1%nat.
  cbn [map_pages]. destruct (Z.ltb_spec p (p + 4096)); [|lia].
  destruct (Z.eqb_spec (u64 (KERNEL_DIRECT_BASE + p)) (boot_stack_guard sym)); [done|].
  unfold region_flags. by destruct (vm_map _ _ _ _ _) as [[|] s1].
Qed.

Lemma bare_build :
  ∃ t' s', vm_build_kernel bare_symbols (Some (mk_page_table 0)) (Some bare_board)
             (stocked four_pages) = (true, t', s').
Proof.
  rewrite vm_build_kernel_regions.
  pose proof (vm_create_spec whole (mk_page_table 0) _ _ four_pages_rep) as H.
  destruct (vm_create _ _) as [[ok t] s].
  destruct H as [(_ & H & _)|(-> & r & l' & [= <- <-] & -> & Hv & Hz & _)]; [done|]. bsimpl.
  destruct (vm_map_spec whole 2147483648 s _ _ 18446743798832693248 1048576 38 Hv I eq_refl eq_refl
    ltac:(lia) eq_refl ltac:(unfold in_u64; lia) eq_refl)
    as (ok & s' & N' & l1 & E & _ & _ & _ & Hfail & _).
  assert (ok = true) as ->.
  { destruct ok; [done|]. destruct (Hfail eq_refl) as [_ H]. rewrite Hz in H.
    specialize (H eq_refl). simpl in H. lia. }
  change (kernel_regions bare_board) with [(mk_range 1048576 4096, false)].
  cbn [map_regions fst snd base size].
  rewrite map_one_page by (reflexivity || lia || (vm_compute; discriminate)).
  change (u64 (KERNEL_DIRECT_BASE + 1048576)) with 18446743798832693248.
  change (region_flags bare_symbols false 1048576) with 38.
  rewrite E. by eexists _, s'.
Qed.

(** C31. A successful [vm_build_kernel] maps exactly the direct map: every RAM
    and device page of the boot information at its direct address with its
    region's permissions, the boot stack's guard page and everything else not
    at all. *)
Theorem vm_build_kernel_direct_map (sym : linker_symbols) (info : boot_info) (t : page_table)
    (t' : option page_table) (s s' : kstate) (l : list Z) (va : Z) :
  free_rep s l → Forall (λ g, region_ok (fst g)) (kernel_regions info) →
  vm_build_kernel sym (Some t) (Some info) s = (true, t', s') →
  vm_query t' va s' = if canonical va then kernel_translation sym info va else None.
Proof. apply vm_build_kernel_query. Qed.

Lemma vm_build_kernel_direct_map_witness :
  ∃ t' s', vm_build_kernel bare_symbols (Some (mk_page_table 0)) (Some bare_board)
             (stocked four_pages) = (true, t', s') ∧
    vm_query t' 18446743798832693252 s' = Some (1048580, 231).
Proof.
  destruct bare_build as (t' & s' & E). exists t', s'. split; [exact E|].
  rewrite (vm_build_kernel_direct_map bare_symbols bare_board (mk_page_table 0) t' _ s' _
             18446743798832693252 four_pages_rep bare_regions E).
  vm_compute. reflexivity.
Defined.

(** When [vm_build_kernel] fails it has given back every page it took. *)
Theorem vm_build_kernel_fail (sym : linker_symbols) (info : boot_info) (t : page_table)
    (t' : option page_table) (s s' : kstate) (l : list Z) :
  free_rep s l → Forall (λ g, region_ok (fst g)) (kernel_regions info) →
  vm_build_kernel sym (Some t) (Some info) s = (false, t', s') →
  t' = Some (mk_page_table 0) ∧ page_free_count s' = page_free_count s ∧
  ∃ l', free_rep s' l' ∧ l' ≡ₚ l.
Proof.
  intros Hf Hr E. pose proof (vm_build_kernel_spec sym info Hr t s l Hf) as H. rewrite E in H.
  destruct H as [(_ & -> & l' & F' & P)|(? & _)]; [|done]. split; [done|]. split; [|by exists l'].
  unfold page_free_count. by rewrite (fr_count _ _ F'), (fr_count _ _ Hf), P.
Qed.

Lemma vm_build_kernel_fail_witness :
  ∃ t' s', vm_build_kernel bare_symbols (Some (mk_page_table 0)) (Some bare_board) empty_state
           = (false, t', s') ∧ page_free_count s' = 0.
Proof.
  exists (Some (mk_page_table 0)), empty_state.
  assert (vm_build_kernel bare_symbols (Some (mk_page_table 0)) (Some bare_board) empty_state
          = (false, Some (mk_page_table 0), empty_state)) as E by (vm_compute; reflexivity).
  split; [exact E|].
  apply (vm_build_kernel_fail bare_symbols bare_board (mk_page_table 0) _ _ _ []
           (stocked_rep [] (List.Forall_nil _) (NoDup_nil_2)) bare_regions E).
Defined.

Lemma find_app_l {A} (f : A → bool) l k : existsb f l = true → find f (l ++ k) = find f l.
Proof.
  induction l as [|x l IH]; [done|]. cbn [existsb find app]. destruct (f x); [done|]. apply IH.
Qed.

Lemma region_bits_wx sym ram p :
  let flags := leaf_bits (region_flags sym ram p) in
  Z.land flags PTE_U = 0 ∧ (Z.land flags PTE_W = 0 ∨ Z.land flags PTE_X = 0).
Proof.
  cbv zeta. destruct (region_flags_cases sym ram p) as [->|[->| ->]]; vm_compute; auto.
Qed.

(** C32. The kernel map obeys W^X and is closed to user mode: no page it maps is
    both writable and executable and none has the user bit; a page covered by
    RAM has the permissions its place in the kernel image calls for. *)
Theorem kernel_map_wx (sym : linker_symbols) (info : boot_info) (t : page_table)
    (t' : option page_table) (s s' : kstate) (l : list Z) (va pa flags : Z) :
  free_rep s l → Forall (λ g, region_ok (fst g)) (kernel_regions info) →
  vm_build_kernel sym (Some t) (Some info) s = (true, t', s') →
  vm_query t' va s' = Some (pa, flags) →
  Z.land flags PTE_U = 0 ∧ (Z.land flags PTE_W = 0 ∨ Z.land flags PTE_X = 0) ∧
  (Exists (λ rg, region_first rg <= direct_page va < region_end rg) (memory_ranges info) →
   flags = leaf_bits (kernel_page_flags sym (direct_page va))).
Proof.
  intros Hf Hr E Hq. rewrite (vm_build_kernel_query sym info t t' s s' l va) in Hq by done.
  destruct (canonical va); [|done]. revert Hq. unfold kernel_translation. case_if; [done|].
  set (covers := λ g : physical_range * bool, _). destruct (find covers _) as [g|] eqn:Hg; [|done].
  intros [= _ <-]. destruct (region_bits_wx sym (snd g) (direct_page va)) as [HU HWX].
  split; [exact HU|]. split; [exact HWX|]. intros Hram. f_equal.
  unfold kernel_regions in Hg. rewrite find_app_l in Hg.
  - apply find_some in Hg as [Hin _]. apply list_elem_of_In, list_elem_of_fmap in Hin as (rg & -> & _).
    done.
  - apply Exists_exists in Hram as (rg & Hin & Hc). apply existsb_exists. exists (rg, true).
    split; [apply list_elem_of_In, list_elem_of_fmap; by exists rg|]. unfold covers. cbn [fst]. lia.
Qed.

Lemma kernel_map_wx_witness :
  ∃ t' s', vm_build_kernel bare_symbols (Some (mk_page_table 0)) (Some bare_board)
             (stocked four_pages) = (true, t', s') ∧
    (Z.land 231 PTE_W = 0 ∨ Z.land 231 PTE_X = 0).
Proof.
  destruct bare_build as (t' & s' & E). exists t', s'. split; [exact E|].
  apply (kernel_map_wx bare_symbols bare_board (mk_page_table 0) t' _ s' _
           18446743798832693252 1048580 231 four_pages_rep bare_regions E).
  rewrite (vm_build_kernel_query bare_symbols bare_board (mk_page_table 0) t' _ s' _
             18446743798832693252 four_pages_rep bare_regions E).
  vm_compute. reflexivity.
Defined.

(** * User tables *)

Lemma walk_root_entry r r' va s :
  entry_of s r (vpn_index va 2) = entry_of s r' (vpn_index va 2) → r ≠ 0 → r' ≠ 0 →
  vm_query (Some (mk_page_table r)) va s = vm_query (Some (mk_page_table r')) va s.
Proof.
  intros He Hr Hr'. unfold vm_query, walk. cbn [root root_pointer].
  apply Z.eqb_neq in Hr, Hr'. rewrite Hr, Hr'. bsimpl.
  destruct (canonical va); [|reflexivity]. bsimpl.
  change (root_pointer (mk_page_table r)) with (phys_to_virt r).
  change (root_pointer (mk_page_table r')) with (phys_to_virt r').
  cbn [walk_levels negb]. rewrite !entry_fold. change (Z.of_nat 2) with 2. rewrite He.
  reflexivity.
Qed.

Lemma vm_inv_root_page own r s N l : vm_inv own r s N l → page_ok r.
Proof. intros Hv. eapply pt_pages; [apply Hv|]. by eapply pt_root, Hv. Qed.

(** The copy of the upper half of the root. *)
Lemma copy_upper_half r kr s :
  page_ok r → page_ok kr → kr ≠ r →
  let s' := set_mem (memcpy (mem s) (slot (phys_to_virt r) 256)
                       (slot (phys_to_virt kr) 256) (Z.to_nat 2048)) s in
  (∀ i, 256 <= i < 512 → entry_of s' r i = entry_of s kr i) ∧
  (∀ i, 0 <= i < 256 → entry_of s' r i = entry_of s r i) ∧
  same_on (λ a, ¬ in_page r a) (mem s) (mem s').
Proof.
  intros [Hr Hra] [Hk Hka] Hne s'. unfold s', entry_of, read_entry, slot. cbn [set_mem mem].
  rewrite !phys_to_virt_page by lia.
  assert (∀ a, load8 (memcpy (mem s) (KERNEL_DIRECT_BASE + r + 256 * 8)
            (KERNEL_DIRECT_BASE + kr + 256 * 8) (Z.to_nat 2048)) a
    = if decide (KERNEL_DIRECT_BASE + r + 2048 <= a < KERNEL_DIRECT_BASE + r + 4096)
      then load8 (mem s) (KERNEL_DIRECT_BASE + kr + 2048 + (a - (KERNEL_DIRECT_BASE + r + 2048)))
      else load8 (mem s) a) as Hl.
  { intros a. rewrite memcpy_load8 by div_lia. rewrite Z2Nat.id by lia.
    destruct (decide (KERNEL_DIRECT_BASE + r + 256 * 8 <= _ < _)), (decide (_ + 2048 <= _ < _));
      try lia; f_equal; lia. }
  split; [|split].
  - intros i Hi. apply load64_shift. intros b Hb. rewrite Hl, decide_True by lia. f_equal. lia.
  - intros i Hi. apply load64_ext. intros b Hb. rewrite Hl, decide_False by lia. done.
  - intros a Ha. rewrite Hl, decide_False; [done|]. unfold in_page in Ha.
    rewrite phys_to_virt_page in Ha by lia. lia.
Qed.

(** A fresh user table, its frame included. *)
Lemma vm_create_user_spec kr t s NK l :
  free_rep s l → pt_rep whole s kr NK → (∀ p, p ∈ map_vals NK → p ∉ l) →
  let '(ok, t', s') := vm_create_user (Some t) (Some (mk_page_table kr)) s in
  if ok then ∃ r l', l = r :: l' ∧ t' = Some (mk_page_table r) ∧
    vm_inv lower_half r s' {[ [] := r ]} l' ∧ pt_rep whole s' kr NK ∧
    (∀ va, vpn_index va 2 < 256 → vm_query t' va s' = None) ∧
    (∀ va, 256 <= vpn_index va 2 →
       vm_query t' va s' = vm_query (Some (mk_page_table kr)) va s) ∧
    (∀ va, vm_query (Some (mk_page_table kr)) va s' = vm_query (Some (mk_page_table kr)) va s) ∧
    same_on (outside [r]) (mem s) (mem s')
  else l = [] ∧ s' = s ∧ t' = Some (mk_page_table 0).
Proof.
  intros Hf HK Hdis. pose proof (pt_root _ _ _ _ HK) as Hk0.
  pose proof (pt_pages _ _ _ _ HK _ _ Hk0) as Hkr.
  unfold vm_create_user. cbn [root]. destruct (Z.eqb_spec kr 0); [destruct Hkr; lia|].
  pose proof (vm_create_spec lower_half t s l Hf) as Hc.
  destruct (vm_create (Some t) s) as [[ok t1] s1].
  destruct Hc as [(-> & -> & -> & ->)|(-> & r & l' & -> & -> & Hv & _ & Hz & Hm)]; [done|].
  pose proof (vm_inv_root_page _ _ _ _ _ Hv) as Hr.
  assert (kr ≠ r) as Hne.
  { intros ->. apply (Hdis r); [apply elem_of_map_vals; eauto|by left]. }
  destruct (copy_upper_half r kr s1 Hr Hkr Hne) as (Hup & Hlow & Hm2).
  set (s2 := set_mem _ s1) in *.
  assert (same_on (outside [r]) (mem s) (mem s2)) as Hs2.
  { eapply (same_on_weaken (λ a, ¬ in_page r a)); [intros a Ha; apply Ha; by left|].
    by transitivity (mem s1). }
  destruct (pt_rep_outside whole s s2 kr NK [r]) as [HK2 Hleaf]; [| |done|done|].
  { by intros p ->%list_elem_of_singleton. }
  { intros p Hp ->%list_elem_of_singleton. apply (Hdis r Hp). by left. }
  assert (∀ va, vm_query (Some (mk_page_table kr)) va s2
    = vm_query (Some (mk_page_table kr)) va s) as HqK.
  { intros va. apply (vm_query_ext whole kr s NK s2 NK); try done. by rewrite Hleaf. }
  assert (pt_rep lower_half s2 r {[ [] := r ]}) as Hr2.
  { apply pt_rep_root; [done|]. intros i Hi Ho. unfold lower_half in Ho.
    rewrite Hlow, Hz by lia. done. }
  pose proof (vi_disj _ _ _ _ _ Hv) as Hd.
  exists r, l'. split; [done|]. split; [done|]. split; [split; [|done|done]|].
  { apply (free_rep_frame s1); [done|done| |exact (vi_free _ _ _ _ _ Hv)].
    intros q Hq. eapply (same_on_weaken (λ a, ¬ in_page r a)); [|exact Hm2].
    intros a Ha Hra. apply (Hd q Hq). rewrite map_vals_root. apply list_elem_of_singleton.
    pose proof (fr_pages _ _ (vi_free _ _ _ _ _ Hv)) as Hok. rewrite Forall_forall in Hok.
    apply (in_page_disjoint q r a); auto. }
  split; [done|]. split; [|split; [|done]].
  - intros va Hva. rewrite (vm_query_leaf _ _ _ _ _ Hr2) by done.
    unfold leaf_entry. rewrite lookup_singleton_ne by done. by destruct (canonical va).
  - intros va Hva. rewrite <- HqK. apply walk_root_entry; [|destruct Hr; lia|destruct Hkr; lia].
    pose proof (vpn_index_range va 2 ltac:(lia)) as Hi. rewrite Hup by lia.
    symmetry. apply (entry_of_frame s1); [done|lia|].
    eapply (same_on_weaken (λ a, ¬ in_page r a)); [|exact Hm2].
    intros a Ha Hra. by apply Hne, (in_page_disjoint kr r a).
Qed.

(** [vm_create_user] makes a table whose lower half is empty and whose
    upper half translates exactly as the kernel's table does, which it leaves
    as it was; without a free page it fails. *)
Theorem vm_create_user_shares (kr : Z) (t : page_table) (s : kstate)
    (NK : gmap (list Z) Z) (l : list Z) :
  free_rep s l → pt_rep whole s kr NK → (∀ p, p ∈ map_vals NK → p ∉ l) →
  let '(ok, t', s') := vm_create_user (Some t) (Some (mk_page_table kr)) s in
  if ok then ∃ r l', l = r :: l' ∧ t' = Some (mk_page_table r) ∧
    vm_inv lower_half r s' {[ [] := r ]} l' ∧ pt_rep whole s' kr NK ∧
    (∀ va, vpn_index va 2 < 256 → vm_query t' va s' = None) ∧
    (∀ va, 256 <= vpn_index va 2 →
       vm_query t' va s' = vm_query (Some (mk_page_table kr)) va s) ∧
    (∀ va, vm_query (Some (mk_page_table kr)) va s' = vm_query (Some (mk_page_table kr)) va s)
  else l = [].
Proof.
  intros Hf HK Hdis. pose proof (vm_create_user_spec kr t s NK l Hf HK Hdis) as Hc.
  destruct (vm_create_user _ _ _) as [[[|] t'] s']; [|by destruct Hc].
  destruct Hc as (r & l' & H1 & H2 & H3 & H4 & H5 & H6 & H7 & _). by exists r, l'.
Qed.

Lemma vm_create_user_shares_witness :
  ∃ t' s', vm_create_user (Some (mk_page_table 0)) (Some (mk_page_table demo_root)) demo_state
           = (true, t', s') ∧
    vm_query t' 4096 s' = None ∧
    vm_query t' 18446743798832693248 s'
    = vm_query (Some (mk_page_table demo_root)) 18446743798832693248 demo_state.
Proof.
  pose proof (vm_create_user_shares demo_root (mk_page_table 0) demo_state _ demo_free
    (vi_free _ _ _ _ _ (demo_inv whole)) (vi_pt _ _ _ _ _ (demo_inv whole))
    (λ p Hp Hl, vi_disj _ _ _ _ _ (demo_inv whole) p Hl Hp)) as H.
  destruct (vm_create_user _ _ _) as [[[|] t'] s']; [|discriminate].
  destruct H as (r & l' & _ & _ & _ & _ & H1 & H2 & _). exists t', s'. split; [reflexivity|].
  split; [apply H1|apply H2]; vm_compute; reflexivity || discriminate.
Defined.

(** * Addresses with bit 38 alone set *)

Lemma walk_levels_vpn va va' create level : ∀ entries s,
  (∀ i, 0 <= i <= Z.of_nat level → vpn_index va i = vpn_index va' i) →
  walk_levels level entries va create s = walk_levels level entries va' create s.
Proof.
  induction level as [|level IH]; intros entries s Hv; cbn [walk_levels]; rewrite !Hv by lia; [done|].
  assert (∀ i, 0 <= i <= Z.of_nat level → vpn_index va i = vpn_index va' i) as Hv' by (intros i Hi; apply Hv; lia).
  destruct (Z.land _ _ =? 0).
  - destruct (negb create); [done|]. destruct (page_alloc s) as [p s1]. case_if; [done|]. by apply IH.
  - destruct (negb _); [done|]. by apply IH.
Qed.

Lemma canonical_hole a : 0 <= a < 2 ^ 38 → canonical (2 ^ 38 + a) = true.
Proof.
  intros Ha. unfold canonical. rewrite Z.shiftr_div_pow2 by lia. rewrite Z.div_small by lia. done.
Qed.

(** The hardware faults on an address whose bit 38 differs from the bits above; the
    check [canonical] lets those with zeros above through, and the software walk
    takes them for the address of the direct map with the same low 39 bits. *)
Theorem canonical_hole_aliases (t : page_table) (a : Z) (s : kstate) :
  0 <= a < 2 ^ 38 →
  canonical (2 ^ 38 + a) = true ∧
  vm_query (Some t) (2 ^ 38 + a) s = vm_query (Some t) (KERNEL_DIRECT_BASE + a) s.
Proof.
  intros Ha. split; [by apply canonical_hole|].
  assert (canonical (KERNEL_DIRECT_BASE + a) = true) as Hc.
  { unfold canonical. rewrite Z.shiftr_div_pow2 by lia.
    replace ((KERNEL_DIRECT_BASE + a) / 2 ^ 39) with 33554431; [done|]. clear -Ha. div_lia. }
  unfold vm_query, walk. rewrite canonical_hole, Hc by done. rewrite !land_page_mask.
  replace ((KERNEL_DIRECT_BASE + a) mod 4096) with ((2 ^ 38 + a) mod 4096) by (clear; div_lia).
  destruct (_ || _); [done|].
  rewrite (walk_levels_vpn (2 ^ 38 + a) (KERNEL_DIRECT_BASE + a)); [done|].
  assert (same_vpn (2 ^ 38 + a) (KERNEL_DIRECT_BASE + a)) as (H2 & H1 & H0)
    by (apply same_vpn_iff; clear; change (2 ^ 27) with 134217728; div_lia).
  intros i Hi. assert (i = 0 ∨ i = 1 ∨ i = 2) as [->|[->| ->]] by lia; done.
Qed.

Lemma canonical_hole_aliases_witness :
  vm_query (Some (mk_page_table demo_root)) (2 ^ 38 + 4096) demo_state
  = vm_query (Some (mk_page_table demo_root)) (KERNEL_DIRECT_BASE + 4096) demo_state.
Proof. exact (proj2 (canonical_hole_aliases (mk_page_table demo_root) 4096 demo_state ltac:(lia))). Defined.
