(* ===== verification/Outcome.v ===== *)
(** Code that reads a blob it was handed: a read outside it is not defined in C, and
    is the outcome [Fault] here; the fuel of a loop running out is [OutOfFuel].
    Also the characters of string literals. *)
From S2P Require Import Prelude.
From Stdlib Require Import Ascii String.

(** * Effects *)

Inductive outcome (A : Type) := Done (a : A) | Fault | OutOfFuel.
Arguments Done {_} _.
Arguments Fault {_}.
Arguments OutOfFuel {_}.

Definition bind {A B} (m : outcome A) (k : A → outcome B) : outcome B :=
  match m with Done a => k a | Fault => Fault | OutOfFuel => OutOfFuel end.

Declare Scope outcome_scope.
Delimit Scope outcome_scope with outcome.
Notation "'let*' x ':=' m 'in' k" := (bind m (λ x, k))
  (at level 10, x pattern, k at level 200) : outcome_scope.
Open Scope outcome_scope.

(** [a && b] and [a || b] evaluate [b] only when they must. *)
Definition and_then (a : bool) (b : outcome bool) : outcome bool := if a then b else Done false.
Definition or_else (a : bool) (b : outcome bool) : outcome bool := if a then Done true else b.

(** The characters of a string literal, without its NUL. *)
Definition chars (s : string) : list Z :=
  List.map (λ c, Z.of_nat (nat_of_ascii c)) (list_ascii_of_string s).

Arguments chars _%_string_scope.

(** * Partial-correctness triples

    [wp m P]: [m] ends normally, with a result in [P]. *)
Definition wp {A} (m : outcome A) (P : A → Prop) : Prop :=
  match m with Done a => P a | Fault => False | OutOfFuel => False end.

Lemma wp_mono {A} (m : outcome A) (P Q : A → Prop) : (∀ a, P a → Q a) → wp m P → wp m Q.
Proof. destruct m; simpl; auto. Qed.

Lemma wp_bind {A B} (m : outcome A) (k : A → outcome B) (P : A → Prop) (Q : B → Prop) :
  wp m P → (∀ a, P a → wp (k a) Q) → wp (bind m k) Q.
Proof. destruct m; simpl; auto. Qed.

Lemma wp_and_then (a : bool) m : (a = true → wp m (λ _, True)) → wp (and_then a m) (λ _, True).
Proof. destruct a; simpl; auto. Qed.

Lemma wp_or_else (a : bool) m : wp m (λ _, True) → wp (or_else a m) (λ _, True).
Proof. destruct a; simpl; auto. Qed.
