(* ===== verification/Dtb.v ===== *)
(** [src/platform/dtb.c]: the flattened-device-tree parser.  The blob is the list
    of bytes readable from the pointer the parser is given, and a pointer into
    it is its offset.  A read outside it is not defined in C: it is the outcome
    [Fault] here, and the fuel of a loop running out is [OutOfFuel]; the
    theorems of [DtbProps] show that neither happens. *)
From S2P Require Import Prelude BootInfo Outcome.
From Stdlib Require Import Ascii String.

Inductive dtb_error :=
  | DTB_OK | DTB_ERR_ARGUMENT | DTB_ERR_MAGIC | DTB_ERR_VERSION | DTB_ERR_BOUNDS
  | DTB_ERR_STRUCTURE | DTB_ERR_PROPERTY | DTB_ERR_UNSUPPORTED | DTB_ERR_CAPACITY.

#[export] Instance dtb_error_eq_dec : EqDecision dtb_error.
Proof. solve_decision. Defined.

(** [if (error != DTB_OK) return error;] where [x] is the caller's data so far. *)
Definition on_ok {X} (error : dtb_error) (x : X) (k : outcome (dtb_error * X))
    : outcome (dtb_error * X) :=
  match error with DTB_OK => k | e => Done (e, x) end.

Abbreviation FDT_MAGIC := 3490578157 (only parsing).          (* 0xd00dfeed *)
Abbreviation FDT_BEGIN_NODE := 1 (only parsing).
Abbreviation FDT_END_NODE := 2 (only parsing).
Abbreviation FDT_PROP := 3 (only parsing).
Abbreviation FDT_NOP := 4 (only parsing).
Abbreviation FDT_END := 9 (only parsing).
Abbreviation FDT_HEADER_SIZE := 40 (only parsing).
Abbreviation FDT_SUPPORTED_VERSION := 17 (only parsing).
Abbreviation FDT_MAX_SIZE := 16777216 (only parsing).
Abbreviation FDT_MAX_DEPTH := 32 (only parsing).

(** The views are offsets from the start of the blob. *)
Record fdt_view := mk_view {
  total_size : Z;
  structure : Z;
  structure_size : Z;
  strings : Z;
  strings_size : Z;
  reservation_offset : Z;
}.

(** A property's value: its pointer ([None] is NULL) and its length. *)
Record value := mk_value { at_ : option Z; len : Z }.
Definition no_value : value := mk_value None 0.

Record node := mk_node {
  name : Z;
  name_length : Z;
  address_cells : Z;
  size_cells : Z;
  ranges : value;
  reg : value;
  compatible : value;
  device_type : value;
  status : value;
  interrupts : value;
  ndev : value;               (* plic_source_count *)
  ranges_present : bool;
  reserved_memory : bool;
  cpus : bool;
}.

Definition range_within (total offset length : Z) : bool :=
  (offset <=? total) && (length <=? total - offset).

Definition add_overflows_u64 (left right : Z) : bool := left >? UINT64_MAX - right.

Definition regions_overlap (first_offset first_size second_offset second_size : Z) : bool :=
  (first_offset <? u64 (second_offset + second_size))
  && (second_offset <? u64 (first_offset + first_size)).

(** [(offset + 3U) & ~(size_t)3U] *)
Definition align4 (offset : Z) : Z := Z.land (u64 (offset + 3)) (not64 3).

(** [add_range] on the array [ranges] with [*count] entries used. *)
Definition add_range (ranges : list physical_range) (capacity base size : Z)
    : dtb_error * list physical_range :=
  if size =? 0 then (DTB_OK, ranges)
  else if add_overflows_u64 base size then (DTB_ERR_PROPERTY, ranges)
  else if Z.of_nat (List.length ranges) =? capacity then (DTB_ERR_CAPACITY, ranges)
  else (DTB_OK, ranges ++ [mk_range base size]).

(** Updates of single fields of [struct boot_info]. *)
Definition with_memory (v : list physical_range) (i : boot_info) : boot_info :=
  mk_boot_info v (reserved i) (uart i) (uart_irq i) (plic i) (plic_source_count i) (virtio i)
    (virtio_irqs i) (timebase_frequency i) (dtb_base i) (dtb_size i) (uart_present i)
    (plic_present i).
Definition with_reserved (v : list physical_range) (i : boot_info) : boot_info :=
  mk_boot_info (memory_ranges i) v (uart i) (uart_irq i) (plic i) (plic_source_count i) (virtio i)
    (virtio_irqs i) (timebase_frequency i) (dtb_base i) (dtb_size i) (uart_present i)
    (plic_present i).
Definition with_uart (v : physical_range) (irq : Z) (present : bool) (i : boot_info) : boot_info :=
  mk_boot_info (memory_ranges i) (reserved i) v irq (plic i) (plic_source_count i) (virtio i)
    (virtio_irqs i) (timebase_frequency i) (dtb_base i) (dtb_size i) present (plic_present i).
Definition with_plic (v : physical_range) (n : Z) (present : bool) (i : boot_info) : boot_info :=
  mk_boot_info (memory_ranges i) (reserved i) (uart i) (uart_irq i) v n (virtio i)
    (virtio_irqs i) (timebase_frequency i) (dtb_base i) (dtb_size i) (uart_present i) present.
Definition with_virtio (v : list physical_range) (irqs : list Z) (i : boot_info) : boot_info :=
  mk_boot_info (memory_ranges i) (reserved i) (uart i) (uart_irq i) (plic i) (plic_source_count i)
    v irqs (timebase_frequency i) (dtb_base i) (dtb_size i) (uart_present i) (plic_present i).
Definition with_timebase (v : Z) (i : boot_info) : boot_info :=
  mk_boot_info (memory_ranges i) (reserved i) (uart i) (uart_irq i) (plic i) (plic_source_count i)
    (virtio i) (virtio_irqs i) v (dtb_base i) (dtb_size i) (uart_present i) (plic_present i).
Definition with_dtb (address size : Z) (i : boot_info) : boot_info :=
  mk_boot_info (memory_ranges i) (reserved i) (uart i) (uart_irq i) (plic i) (plic_source_count i)
    (virtio i) (virtio_irqs i) (timebase_frequency i) address size (uart_present i)
    (plic_present i).

(** Updates of single fields of [struct node]. *)
Definition with_address_cells (v : Z) (n : node) : node :=
  mk_node (name n) (name_length n) v (size_cells n) (ranges n) (reg n) (compatible n)
    (device_type n) (status n) (interrupts n) (ndev n) (ranges_present n) (reserved_memory n) (cpus n).
Definition with_size_cells (v : Z) (n : node) : node :=
  mk_node (name n) (name_length n) (address_cells n) v (ranges n) (reg n) (compatible n)
    (device_type n) (status n) (interrupts n) (ndev n) (ranges_present n) (reserved_memory n) (cpus n).
Definition with_ranges (v : value) (n : node) : node :=
  mk_node (name n) (name_length n) (address_cells n) (size_cells n) v (reg n) (compatible n)
    (device_type n) (status n) (interrupts n) (ndev n) true (reserved_memory n) (cpus n).
Definition with_reg (v : value) (n : node) : node :=
  mk_node (name n) (name_length n) (address_cells n) (size_cells n) (ranges n) v (compatible n)
    (device_type n) (status n) (interrupts n) (ndev n) (ranges_present n) (reserved_memory n) (cpus n).
Definition with_compatible (v : value) (n : node) : node :=
  mk_node (name n) (name_length n) (address_cells n) (size_cells n) (ranges n) (reg n) v
    (device_type n) (status n) (interrupts n) (ndev n) (ranges_present n) (reserved_memory n) (cpus n).
Definition with_device_type (v : value) (n : node) : node :=
  mk_node (name n) (name_length n) (address_cells n) (size_cells n) (ranges n) (reg n) (compatible n)
    v (status n) (interrupts n) (ndev n) (ranges_present n) (reserved_memory n) (cpus n).
Definition with_status (v : value) (n : node) : node :=
  mk_node (name n) (name_length n) (address_cells n) (size_cells n) (ranges n) (reg n) (compatible n)
    (device_type n) v (interrupts n) (ndev n) (ranges_present n) (reserved_memory n) (cpus n).
Definition with_interrupts (v : value) (n : node) : node :=
  mk_node (name n) (name_length n) (address_cells n) (size_cells n) (ranges n) (reg n) (compatible n)
    (device_type n) (status n) v (ndev n) (ranges_present n) (reserved_memory n) (cpus n).
Definition with_ndev (v : value) (n : node) : node :=
  mk_node (name n) (name_length n) (address_cells n) (size_cells n) (ranges n) (reg n) (compatible n)
    (device_type n) (status n) (interrupts n) v (ranges_present n) (reserved_memory n) (cpus n).

Section Parser.
Context (blob : list Z).

(** [p[0]] for a byte pointer. *)
Definition byte (o : Z) : outcome Z :=
  if o <? 0 then Fault
  else match blob !! Z.to_nat o with Some b => Done (b mod 256) | None => Fault end.

Definition read_be32 (p : Z) : outcome Z :=
  let* b0 := byte p in
  let* b1 := byte (p + 1) in
  let* b2 := byte (p + 2) in
  let* b3 := byte (p + 3) in
  Done (Z.lor (Z.lor (Z.lor (Z.shiftl b0 24) (Z.shiftl b1 16)) (Z.shiftl b2 8)) b3).

Definition read_be64 (p : Z) : outcome Z :=
  let* high := read_be32 p in
  let* low := read_be32 (p + 4) in
  Done (Z.lor (Z.shiftl high 32) low).

(** [memcmp(bytes, string, strlen(string)) == 0] for a literal. *)
Fixpoint equals_literal (bytes : Z) (string : list Z) : outcome bool :=
  match string with
  | [] => Done true
  | c :: rest =>
      let* b := byte bytes in
      if negb (b =? c) then Done false else equals_literal (bytes + 1) rest
  end.

(** A NULL pointer is never read: [Fault] when it is. *)
Definition deref (v : value) (k : Z → outcome bool) : outcome bool :=
  match at_ v with Some p => k p | None => Fault end.

Definition bytes_equal_string (v : value) (string : list Z) : outcome bool :=
  let string_length := Z.of_nat (List.length string) in
  and_then (len v =? string_length + 1)
    (deref v (λ bytes,
       let* last := byte (bytes + string_length) in
       and_then (last =? 0) (equals_literal bytes string))).

Definition name_equal (node : node) (string : list Z) : outcome bool :=
  and_then (name_length node =? Z.of_nat (List.length string))
    (equals_literal (name node) string).

(** [while (offset + length < limit && base[offset + length] != '\0') ++length;]
    returns the offset at which it stops. *)
Fixpoint scan_nul (fuel : nat) (base offset limit : Z) : outcome Z :=
  match fuel with
  | O => OutOfFuel
  | S f =>
      if offset <? limit then
        let* b := byte (base + offset) in
        if b =? 0 then Done offset else scan_nul f base (offset + 1) limit
      else Done offset
  end.

Fixpoint compatible_from (fuel : nat) (base limit : Z) (wanted : list Z) (offset : Z)
    : outcome bool :=
  match fuel with
  | O => OutOfFuel
  | S f =>
      if offset <? limit then
        let* stop := scan_nul (S (Z.to_nat limit)) base offset limit in
        let length := stop - offset in
        if stop =? limit then Done false
        else
          let* same := and_then (length =? Z.of_nat (List.length wanted))
                         (equals_literal (base + offset) wanted) in
          if same then Done true
          else compatible_from f base limit wanted (offset + length + 1)
      else Done false
  end.

Definition compatible_has (node : node) (wanted : list Z) : outcome bool :=
  match at_ (compatible node) with
  | None => if 0 <? len (compatible node) then Fault else Done false
  | Some base =>
      compatible_from (S (Z.to_nat (len (compatible node)))) base (len (compatible node)) wanted 0
  end.

Definition node_enabled (node : node) : outcome bool :=
  match at_ (status node) with
  | None => Done true
  | Some _ =>
      let* okay := bytes_equal_string (status node) (chars "okay") in
      or_else okay (bytes_equal_string (status node) (chars "ok"))
  end.

(** The loop of [decode_cells]. *)
Fixpoint read_cells (n : nat) (data : Z) (value : Z) : outcome Z :=
  match n with
  | O => Done value
  | S n' =>
      let* cell := read_be32 data in
      read_cells n' (data + 4) (Z.lor (u64 (Z.shiftl value 32)) cell)
  end.

(** The value is 0 where [*value] is not written. *)
Definition decode_cells (data cells : Z) : outcome (dtb_error * Z) :=
  if cells >? 2 then Done (DTB_ERR_UNSUPPORTED, 0)
  else let* value := read_cells (Z.to_nat cells) data 0 in Done (DTB_OK, value).

(** The search through one [ranges] property: [Some] is a translated address. *)
Fixpoint match_ranges (fuel : nat) (bus parent : node) (base entry_size offset : Z)
    (size address : Z) : outcome (dtb_error * option Z) :=
  match fuel with
  | O => OutOfFuel
  | S f =>
      if offset <? len (ranges bus) then
        let entry := base + offset in
        let* (error, child_address) := decode_cells entry (address_cells bus) in
        on_ok error None
          (let entry := entry + address_cells bus * 4 in
           let* (error, parent_address) := decode_cells entry (address_cells parent) in
           on_ok error None
             (let entry := entry + address_cells parent * 4 in
              let* (error, range_size) := decode_cells entry (size_cells bus) in
              on_ok error None
                (if (address >=? child_address) && (size <=? range_size)
                    && (address - child_address <=? range_size - size)
                 then
                   let displacement := address - child_address in
                   if add_overflows_u64 parent_address displacement
                   then Done (DTB_ERR_PROPERTY, None)
                   else Done (DTB_OK, Some (parent_address + displacement))
                 else match_ranges f bus parent base entry_size (offset + entry_size)
                        size address)))
      else Done (DTB_OK, None)
  end.

(** [buses] are [nodes[depth - 1]], [nodes[depth - 2]], ..., [nodes[0]]. *)
Fixpoint translate_address (buses : list node) (size address : Z) : outcome (dtb_error * Z) :=
  match buses with
  | bus :: ((parent :: _) as rest) =>
      if negb (ranges_present bus) then Done (DTB_ERR_UNSUPPORTED, address)
      else if len (ranges bus) =? 0 then translate_address rest size address
      else if (address_cells bus >? 2) || (address_cells parent >? 2) || (size_cells bus >? 2)
      then Done (DTB_ERR_UNSUPPORTED, address)
      else
        let entry_cells := address_cells bus + address_cells parent + size_cells bus in
        let entry_size := entry_cells * 4 in
        if (entry_size =? 0) || negb (len (ranges bus) mod entry_size =? 0)
        then Done (DTB_ERR_PROPERTY, address)
        else
          match at_ (ranges bus) with
          | None => Fault
          | Some base =>
              let* (error, found) :=
                match_ranges (S (Z.to_nat (len (ranges bus)))) bus parent base entry_size 0
                  size address in
              on_ok error address
                (match found with
                 | None => Done (DTB_ERR_PROPERTY, address)
                 | Some address => translate_address rest size address
                 end)
          end
  | _ => Done (DTB_OK, address)
  end.

(** The loop of [parse_reg]; [out] is the array it appends to. *)
Fixpoint parse_tuples (fuel : nat) (parent : node) (buses : list node) (base length tuple_size : Z)
    (capacity offset : Z) (out : list physical_range)
    : outcome (dtb_error * list physical_range) :=
  match fuel with
  | O => OutOfFuel
  | S f =>
      if offset <? length then
        let* (error, address) := decode_cells (base + offset) (address_cells parent) in
        on_ok error out
          (let* (error, size) :=
             decode_cells (base + offset + address_cells parent * 4) (size_cells parent) in
           on_ok error out
             (let* (error, address) := translate_address buses size address in
              on_ok error out
                (let '(error, out) := add_range out capacity address size in
                 on_ok error out
                   (parse_tuples f parent buses base length tuple_size capacity
                      (offset + tuple_size) out))))
      else Done (DTB_OK, out)
  end.

(** [nodes] is the path from [nodes[depth]] up to the root [nodes[0]]. *)
Definition parse_reg (nodes : list node) (out : list physical_range) (capacity : Z)
    : outcome (dtb_error * list physical_range) :=
  match nodes with
  | [] => Fault
  | node :: buses =>
      match at_ (reg node) with
      | None => Done (DTB_ERR_PROPERTY, out)
      | Some base =>
          match buses with
          | [] => Done (DTB_ERR_STRUCTURE, out)
          | parent :: _ =>
              if (address_cells parent >? 2) || (size_cells parent >? 2)
              then Done (DTB_ERR_UNSUPPORTED, out)
              else
                let tuple_cells := address_cells parent + size_cells parent in
                let tuple_size := tuple_cells * 4 in
                if (tuple_size =? 0) || (len (reg node) =? 0)
                   || negb (len (reg node) mod tuple_size =? 0)
                then Done (DTB_ERR_PROPERTY, out)
                else parse_tuples (S (Z.to_nat (len (reg node)))) parent buses base
                       (len (reg node)) tuple_size capacity 0 out
          end
      end
  end.

(** The result carries what has been written to [*range], [old] if nothing. *)
Definition parse_first_reg (nodes : list node) (old : physical_range)
    : outcome (dtb_error * physical_range) :=
  let* (error, out) := parse_reg nodes [] 1 in
  let range := match out with [] => old | r :: _ => r end in
  on_ok error range
    (Done (if Z.of_nat (List.length out) =? 1 then DTB_OK else DTB_ERR_PROPERTY, range)).

(** [if (node->f) { if (node->f_length != 4) return wrong; field = read_be32(node->f); }] *)
Definition read_u32 (v : value) (wrong : dtb_error) (old : Z) : outcome (dtb_error * Z) :=
  match at_ v with
  | None => Done (DTB_OK, old)
  | Some p =>
      if negb (len v =? 4) then Done (wrong, old)
      else let* x := read_be32 p in Done (DTB_OK, x)
  end.

Definition finish_memory (nodes : list node) (node : node) (enabled : bool) (info : boot_info)
    : outcome (dtb_error * boot_info) :=
  let* is_memory :=
    and_then (enabled && (match at_ (device_type node) with Some _ => true | None => false end))
      (bytes_equal_string (device_type node) (chars "memory")) in
  if is_memory then
    let* (error, out) := parse_reg nodes (memory_ranges info) BOOT_MAX_MEMORY_RANGES in
    Done (error, with_memory out info)
  else Done (DTB_OK, info).

Definition finish_reserved (nodes : list node) (node : node) (enabled : bool) (info : boot_info)
    : outcome (dtb_error * boot_info) :=
  let in_reserved := match nodes with _ :: parent :: _ => reserved_memory parent | _ => false end in
  if enabled && in_reserved && (match at_ (reg node) with Some _ => true | None => false end) then
    let* (error, out) := parse_reg nodes (reserved info) BOOT_MAX_RESERVED_RANGES in
    Done (error, with_reserved out info)
  else Done (DTB_OK, info).

(** [compatible_has(node, a) || compatible_has(node, b)] *)
Definition compatible_either (node : node) (a b : list Z) : outcome bool :=
  let* x := compatible_has node a in or_else x (compatible_has node b).

Definition finish_uart (nodes : list node) (node : node) (info : boot_info)
    : outcome (dtb_error * boot_info) :=
  let* is_uart := compatible_either node (chars "ns16550a") (chars "sifive,uart0") in
  if is_uart then
    if uart_present info then Done (DTB_ERR_CAPACITY, info)
    else
      let* (error, range) := parse_first_reg nodes (uart info) in
      let info := with_uart range (uart_irq info) (uart_present info) info in
      on_ok error info
        (let* (error, irq) := read_u32 (interrupts node) DTB_ERR_UNSUPPORTED (uart_irq info) in
         on_ok error info (Done (DTB_OK, with_uart range irq true info)))
  else Done (DTB_OK, info).

Definition finish_plic (nodes : list node) (node : node) (info : boot_info)
    : outcome (dtb_error * boot_info) :=
  let* is_plic := compatible_either node (chars "sifive,plic-1.0.0") (chars "riscv,plic0") in
  if is_plic then
    if plic_present info then Done (DTB_ERR_CAPACITY, info)
    else
      let* (error, range) := parse_first_reg nodes (plic info) in
      let info := with_plic range (plic_source_count info) (plic_present info) info in
      on_ok error info
        (let* (error, n) := read_u32 (ndev node) DTB_ERR_PROPERTY (plic_source_count info) in
         on_ok error info (Done (DTB_OK, with_plic range n true info)))
  else Done (DTB_OK, info).

(** The slots past [virtio_count] are zero and not part of the result. *)
Definition finish_virtio (nodes : list node) (node : node) (info : boot_info)
    : outcome (dtb_error * boot_info) :=
  let* is_virtio := compatible_has node (chars "virtio,mmio") in
  if is_virtio then
    if Z.of_nat (List.length (virtio info)) =? BOOT_MAX_VIRTIO_DEVICES
    then Done (DTB_ERR_CAPACITY, info)
    else
      let* (error, range) := parse_first_reg nodes (mk_range 0 0) in
      on_ok error info
        (let* (error, irq) := read_u32 (interrupts node) DTB_ERR_UNSUPPORTED 0 in
         on_ok error info
           (Done (DTB_OK, with_virtio (virtio info ++ [range]) (virtio_irqs info ++ [irq]) info)))
  else Done (DTB_OK, info).

Definition finish_node (nodes : list node) (info : boot_info) : outcome (dtb_error * boot_info) :=
  match nodes with
  | [] => Fault
  | node :: _ =>
      let* enabled := node_enabled node in
      let* (error, info) := finish_memory nodes node enabled info in
      on_ok error info
        (let* (error, info) := finish_reserved nodes node enabled info in
         on_ok error info
           (if negb enabled then Done (DTB_OK, info)
            else
              let* (error, info) := finish_uart nodes node info in
              on_ok error info
                (let* (error, info) := finish_plic nodes node info in
                 on_ok error info (finish_virtio nodes node info))))
  end.

(** * The header and the reservation block *)

(** [validate_header] for a pointer that is not NULL. *)
Definition validate_header : outcome (dtb_error * option fdt_view) :=
  let* magic := read_be32 0 in
  if negb (magic =? FDT_MAGIC) then Done (DTB_ERR_MAGIC, None)
  else
    let* total_size := read_be32 4 in
    let* structure_offset := read_be32 8 in
    let* strings_offset := read_be32 12 in
    let* reservation_offset := read_be32 16 in
    let* version := read_be32 20 in
    let* last_compatible_version := read_be32 24 in
    let* strings_size := read_be32 32 in
    let* structure_size := read_be32 36 in
    if (version <? FDT_SUPPORTED_VERSION) || (last_compatible_version >? FDT_SUPPORTED_VERSION)
    then Done (DTB_ERR_VERSION, None)
    else if (total_size <? FDT_HEADER_SIZE) || (total_size >? FDT_MAX_SIZE)
    then Done (DTB_ERR_BOUNDS, None)
    else if (structure_offset <? FDT_HEADER_SIZE) || (strings_offset <? FDT_HEADER_SIZE)
            || (reservation_offset <? FDT_HEADER_SIZE)
            || negb (Z.land structure_offset 3 =? 0) || negb (Z.land reservation_offset 7 =? 0)
            || negb (range_within total_size structure_offset structure_size)
            || negb (range_within total_size strings_offset strings_size)
            || negb (range_within total_size reservation_offset 16)
            || regions_overlap structure_offset structure_size strings_offset strings_size
    then Done (DTB_ERR_BOUNDS, None)
    else
      Done (DTB_OK, Some (mk_view total_size structure_offset structure_size strings_offset
                            strings_size reservation_offset)).

Fixpoint reservations_from (fuel : nat) (view : fdt_view) (offset : Z) (info : boot_info)
    : outcome (dtb_error * boot_info) :=
  match fuel with
  | O => OutOfFuel
  | S f =>
      if negb (range_within (total_size view) offset 16)
         || regions_overlap offset 16 (structure view) (structure_size view)
         || regions_overlap offset 16 (strings view) (strings_size view)
      then Done (DTB_ERR_BOUNDS, info)
      else
        let* address := read_be64 offset in
        let* size := read_be64 (offset + 8) in
        let offset := u64 (offset + 16) in
        if (address =? 0) && (size =? 0) then Done (DTB_OK, info)
        else
          let '(error, out) := add_range (reserved info) BOOT_MAX_RESERVED_RANGES address size in
          let info := with_reserved out info in
          on_ok error info (reservations_from f view offset info)
  end.

Definition parse_reservations (view : fdt_view) (info : boot_info)
    : outcome (dtb_error * boot_info) :=
  reservations_from (S (Z.to_nat (total_size view))) view (reservation_offset view) info.

(** * The structure block *)

(** The name is a pointer, 0 where [*name] is not written. *)
Definition property_name (view : fdt_view) (offset : Z) : outcome (dtb_error * Z) :=
  if offset >=? strings_size view then Done (DTB_ERR_BOUNDS, 0)
  else
    let* i := scan_nul (S (Z.to_nat (strings_size view))) (strings view) offset
                (strings_size view) in
    if i <? strings_size view then Done (DTB_OK, strings view + offset)
    else Done (DTB_ERR_BOUNDS, 0).

(** [right] is a literal: it ends with a NUL the loop does not pass. *)
Fixpoint string_equal (left : Z) (right : list Z) : outcome bool :=
  let* l := byte left in
  match right with
  | [] => Done (l =? 0)
  | r :: rest => if negb (l =? 0) && (l =? r) then string_equal (left + 1) rest else Done (l =? r)
  end.

Definition record_property (node : node) (name value length : Z) (info : boot_info)
    : outcome (dtb_error * (Dtb.node * boot_info)) :=
  let v := mk_value (Some value) length in
  let* same := string_equal name (chars "#address-cells") in
  if same then
    if negb (length =? 4) then Done (DTB_ERR_PROPERTY, (node, info))
    else let* x := read_be32 value in Done (DTB_OK, (with_address_cells x node, info))
  else
  let* same := string_equal name (chars "#size-cells") in
  if same then
    if negb (length =? 4) then Done (DTB_ERR_PROPERTY, (node, info))
    else let* x := read_be32 value in Done (DTB_OK, (with_size_cells x node, info))
  else
  let* same := string_equal name (chars "ranges") in
  if same then Done (DTB_OK, (with_ranges v node, info)) else
  let* same := string_equal name (chars "reg") in
  if same then Done (DTB_OK, (with_reg v node, info)) else
  let* same := string_equal name (chars "compatible") in
  if same then Done (DTB_OK, (with_compatible v node, info)) else
  let* same := string_equal name (chars "device_type") in
  if same then Done (DTB_OK, (with_device_type v node, info)) else
  let* same := string_equal name (chars "status") in
  if same then Done (DTB_OK, (with_status v node, info)) else
  let* same := string_equal name (chars "interrupts") in
  if same then Done (DTB_OK, (with_interrupts v node, info)) else
  let* same := string_equal name (chars "riscv,ndev") in
  if same then Done (DTB_OK, (with_ndev v node, info)) else
  let* same := and_then (cpus node) (string_equal name (chars "timebase-frequency")) in
  if same then
    if negb (length =? 4) then Done (DTB_ERR_PROPERTY, (node, info))
    else let* x := read_be32 value in Done (DTB_OK, (node, with_timebase x info))
  else Done (DTB_OK, (node, info)).

(** What the loop of [parse_structure] carries: [nodes] is the path from
    [nodes[depth]] to the root, so [depth] is its length less one. *)
Record walk_state := mk_walk {
  offset : Z;
  nodes : list node;
  saw_root : bool;
  boot : boot_info;
}.

Definition begin_node (view : fdt_view) (w : walk_state) : outcome (dtb_error * walk_state) :=
  let name_start := offset w in
  if Z.of_nat (List.length (nodes w)) =? FDT_MAX_DEPTH then Done (DTB_ERR_CAPACITY, w)
  else
    let* stop := scan_nul (S (Z.to_nat (structure_size view))) (structure view) name_start
                   (structure_size view) in
    if stop =? structure_size view then Done (DTB_ERR_BOUNDS, w)
    else
      let depth := Z.of_nat (List.length (nodes w)) in
      let node := mk_node (structure view + name_start) (stop - name_start) 2 1
                    no_value no_value no_value no_value no_value no_value no_value
                    false false false in
      let* is_reserved := and_then (depth =? 1) (name_equal node (chars "reserved-memory")) in
      let* is_cpus := and_then (depth =? 1) (name_equal node (chars "cpus")) in
      let node := mk_node (structure view + name_start) (stop - name_start) 2 1
                    no_value no_value no_value no_value no_value no_value no_value
                    false is_reserved is_cpus in
      let next := align4 (u64 (stop + 1)) in
      let w' := mk_walk next (node :: nodes w) (saw_root w) (boot w) in
      if depth =? 0 then
        if saw_root w || negb (name_length node =? 0) then Done (DTB_ERR_STRUCTURE, w')
        else Done (DTB_OK, mk_walk next (node :: nodes w) true (boot w))
      else Done (DTB_OK, w').

Definition end_node (w : walk_state) : outcome (dtb_error * walk_state) :=
  match nodes w with
  | [] => Done (DTB_ERR_STRUCTURE, w)
  | _ :: above =>
      let* (error, info) := finish_node (nodes w) (boot w) in
      on_ok error (mk_walk (offset w) (nodes w) (saw_root w) info)
        (Done (DTB_OK, mk_walk (offset w) above (saw_root w) info))
  end.

Definition property (view : fdt_view) (w : walk_state) : outcome (dtb_error * walk_state) :=
  match nodes w with
  | [] => Done (DTB_ERR_STRUCTURE, w)
  | node :: above =>
      if negb (range_within (structure_size view) (offset w) 8) then Done (DTB_ERR_STRUCTURE, w)
      else
        let* length := read_be32 (structure view + offset w) in
        let* name_offset := read_be32 (structure view + offset w + 4) in
        let offset := u64 (offset w + 8) in
        if negb (range_within (structure_size view) offset length) then Done (DTB_ERR_BOUNDS, w)
        else
          let* (error, name) := property_name view name_offset in
          on_ok error w
            (let* (error, (node, info)) :=
               record_property node name (structure view + offset) length (boot w) in
             let next := align4 (u64 (offset + length)) in
             let w' := mk_walk next (node :: above) (saw_root w) info in
             on_ok error w' (Done (DTB_OK, w')))
  end.

Fixpoint structure_from (fuel : nat) (view : fdt_view) (w : walk_state)
    : outcome (dtb_error * boot_info) :=
  match fuel with
  | O => OutOfFuel
  | S f =>
      if negb (range_within (structure_size view) (offset w) 4)
      then Done (DTB_ERR_STRUCTURE, boot w)
      else
        let* token := read_be32 (structure view + offset w) in
        let w := mk_walk (u64 (offset w + 4)) (nodes w) (saw_root w) (boot w) in
        let continue (r : outcome (dtb_error * walk_state)) :=
          let* (error, w) := r in on_ok error (boot w) (structure_from f view w) in
        if token =? FDT_BEGIN_NODE then continue (begin_node view w)
        else if token =? FDT_END_NODE then continue (end_node w)
        else if token =? FDT_PROP then continue (property view w)
        else if token =? FDT_NOP then structure_from f view w
        else if token =? FDT_END then
          Done (if saw_root w && (Z.of_nat (List.length (nodes w)) =? 0)
                then DTB_OK else DTB_ERR_STRUCTURE, boot w)
        else Done (DTB_ERR_STRUCTURE, boot w)
  end.

Definition parse_structure (view : fdt_view) (info : boot_info)
    : outcome (dtb_error * boot_info) :=
  structure_from (S (Z.to_nat (structure_size view))) view (mk_walk 0 [] false info).
End Parser.

(** [blob] is NULL when there is no address; [info] is not NULL. *)
Definition dtb_parse (blob : option (Z * list Z)) : outcome (dtb_error * boot_info) :=
  match blob with
  | None => Done (DTB_ERR_ARGUMENT, boot_info_zero)
  | Some (address, bytes) =>
      let* (error, view) := validate_header bytes in
      match view with
      | None => Done (error, boot_info_zero)
      | Some view =>
          let info := with_dtb address (total_size view) boot_info_zero in
          let* (error, info) := parse_reservations bytes view info in
          on_ok error info (parse_structure bytes view info)
      end
  end.

Definition dtb_error_string (error : dtb_error) : string :=
  match error with
  | DTB_OK => "ok"
  | DTB_ERR_ARGUMENT => "invalid argument"
  | DTB_ERR_MAGIC => "bad magic"
  | DTB_ERR_VERSION => "unsupported version"
  | DTB_ERR_BOUNDS => "out of bounds"
  | DTB_ERR_STRUCTURE => "malformed structure"
  | DTB_ERR_PROPERTY => "malformed property"
  | DTB_ERR_UNSUPPORTED => "unsupported encoding"
  | DTB_ERR_CAPACITY => "boot info capacity exceeded"
  end%string.
