(* ===== verification/DtbProps.v ===== *)
(** The device-tree parser on arbitrary input: it never reads outside the blob,
    always terminates, and what it reports is well formed. *)
From S2P Require Import Prelude BootInfo Outcome Dtb.
From Stdlib Require String.
Import String.StringSyntax.

Lemma wp_on_ok {X} (e : dtb_error) (x : X) k (P : dtb_error * X → Prop) :
  (e ≠ DTB_OK → P (e, x)) → (e = DTB_OK → wp k P) → wp (on_ok e x k) P.
Proof. destruct e; simpl; auto; intros H _; by apply H. Qed.

(** * What the parser produces *)

Definition range_good (r : physical_range) : Prop :=
  0 <= base r ∧ 0 < size r ∧ base r + size r < 2 ^ 64.

Definition ranges_good (capacity : Z) (l : list physical_range) : Prop :=
  Z.of_nat (length l) <= capacity ∧ Forall range_good l.

Record boot_good (i : boot_info) : Prop := {
  bg_memory : ranges_good BOOT_MAX_MEMORY_RANGES (memory_ranges i);
  bg_reserved : ranges_good BOOT_MAX_RESERVED_RANGES (reserved i);
  bg_virtio : ranges_good BOOT_MAX_VIRTIO_DEVICES (virtio i);
  bg_irqs : length (virtio_irqs i) = length (virtio i);
  bg_uart : uart_present i = true → range_good (uart i);
  bg_plic : plic_present i = true → range_good (plic i);
}.

Lemma boot_good_zero : boot_good boot_info_zero.
Proof. by repeat constructor. Qed.

Lemma add_range_good l capacity b s :
  ranges_good capacity l → in_u64 b → in_u64 s →
  ranges_good capacity (snd (add_range l capacity b s)).
Proof.
  unfold in_u64. intros [Hl Hf] Hb Hs. unfold add_range, add_overflows_u64.
  destruct (Z.eqb_spec s 0); [done|]. destruct (Z.gtb_spec b (UINT64_MAX - s)); [done|].
  destruct (Z.eqb_spec (Z.of_nat (length l)) capacity); [done|]. simpl. split.
  - rewrite length_app. simpl. lia.
  - apply Forall_app. split; [done|]. constructor; [|constructor]. unfold range_good. simpl. lia.
Qed.

Section Safety.
Context (blob : list Z).

Definition readable (o n : Z) : Prop := 0 <= o ∧ 0 <= n ∧ o + n <= Z.of_nat (length blob).

Lemma byte_wp o : readable o 1 → wp (byte blob o) (λ b, 0 <= b < 256).
Proof.
  intros (H0 & _ & H1). unfold byte. destruct (Z.ltb_spec o 0); [lia|].
  destruct (lookup_lt_is_Some_2 blob (Z.to_nat o)) as [b ->]; [lia|]. simpl.
  apply Z.mod_pos_bound. lia.
Qed.

Lemma lor_lt_pow2 a b n : 0 <= n → 0 <= a < 2 ^ n → 0 <= b < 2 ^ n → 0 <= Z.lor a b < 2 ^ n.
Proof.
  intros Hn Ha Hb. split; [apply Z.lor_nonneg; lia|].
  destruct (Z.eq_dec (Z.lor a b) 0) as [->|Hne]; [lia|].
  assert (0 <= Z.lor a b) by (apply Z.lor_nonneg; lia).
  apply Z.log2_lt_pow2; [lia|]. rewrite Z.log2_lor by lia.
  apply Z.max_lub_lt.
  - destruct (Z.eq_dec a 0) as [->|]; [|apply Z.log2_lt_pow2; lia].
    destruct (Z.eq_dec n 0) as [->|]; [|simpl; lia]. exfalso. apply Hne.
    assert (b = 0) as -> by (change (2 ^ 0) with 1 in *; lia). done.
  - destruct (Z.eq_dec b 0) as [->|]; [|apply Z.log2_lt_pow2; lia].
    destruct (Z.eq_dec n 0) as [->|]; [|simpl; lia]. exfalso. apply Hne.
    assert (a = 0) as -> by (change (2 ^ 0) with 1 in *; lia). done.
Qed.

Lemma shiftl_lt_pow2 a k n : 0 <= k → 0 <= n → 0 <= a < 2 ^ n → 0 <= Z.shiftl a k < 2 ^ (n + k).
Proof. intros. rewrite Z.shiftl_mul_pow2, Z.pow_add_r by lia. nia. Qed.

Lemma read_be32_wp p : readable p 4 → wp (read_be32 blob p) (λ x, 0 <= x < 2 ^ 32).
Proof.
  intros (H0 & _ & H1). unfold read_be32.
  do 4 (eapply wp_bind; [apply byte_wp; unfold readable; lia|]; intros ? ?; cbv beta in *). simpl.
  repeat apply lor_lt_pow2; try lia.
  - apply (shiftl_lt_pow2 _ 24 8); lia.
  - pose proof (shiftl_lt_pow2 a0 16 8 ltac:(lia) ltac:(lia) ltac:(lia)). lia.
  - pose proof (shiftl_lt_pow2 a1 8 8 ltac:(lia) ltac:(lia) ltac:(lia)). lia.
Qed.

Lemma read_be64_wp p : readable p 8 → wp (read_be64 blob p) in_u64.
Proof.
  intros (H0 & _ & H1). unfold read_be64.
  do 2 (eapply wp_bind; [apply read_be32_wp; unfold readable; lia|]; intros ? ?; cbv beta in *). simpl.
  apply (lor_lt_pow2 _ _ 64); [lia| |lia]. apply (shiftl_lt_pow2 _ 32 32); lia.
Qed.

Lemma equals_literal_wp l p :
  readable p (Z.of_nat (length l)) → wp (equals_literal blob p l) (λ _, True).
Proof.
  revert p. induction l as [|c l IH]; intros p (H0 & _ & H1); [done|]. cbn [equals_literal length] in *.
  eapply wp_bind; [apply byte_wp; unfold readable; lia|]. intros b _.
  destruct (b =? c); [|done]. apply IH. unfold readable. lia.
Qed.

(** * Properties of nodes *)

Definition value_ok (v : value) : Prop :=
  match at_ v with Some p => readable p (len v) | None => len v = 0 end.

Record node_ok (n : node) : Prop := {
  no_name : readable (name n) (name_length n);
  no_address_cells : 0 <= address_cells n < 2 ^ 32;
  no_size_cells : 0 <= size_cells n < 2 ^ 32;
  no_ranges : value_ok (ranges n) ∧ (ranges_present n = true → is_Some (at_ (ranges n)));
  no_reg : value_ok (reg n);
  no_compatible : value_ok (compatible n);
  no_device_type : value_ok (device_type n);
  no_status : value_ok (status n);
  no_interrupts : value_ok (interrupts n);
  no_ndev : value_ok (ndev n);
}.

Lemma bytes_equal_string_wp v l : value_ok v → is_Some (at_ v) →
  wp (bytes_equal_string blob v l) (λ _, True).
Proof.
  intros Hv [p Hp]. unfold bytes_equal_string, deref, value_ok in *. rewrite Hp in *.
  apply wp_and_then. intros E. destruct Hv as (H0 & H1 & H2).
  eapply wp_bind; [apply byte_wp; unfold readable; lia|]. intros b _.
  apply wp_and_then. intros _. apply equals_literal_wp. unfold readable. lia.
Qed.

Lemma name_equal_wp n l : node_ok n → wp (name_equal blob n l) (λ _, True).
Proof.
  intros [(H0 & H1 & H2) _ _ _ _ _ _ _ _ _]. unfold name_equal. apply wp_and_then. intros E.
  apply equals_literal_wp. unfold readable. lia.
Qed.

(** The scan stops at the limit or at a NUL before it. *)
Lemma scan_nul_wp fuel b o limit :
  0 <= o <= limit → readable b limit → limit - o < Z.of_nat fuel →
  wp (scan_nul blob fuel b o limit)
    (λ stop, o <= stop <= limit ∧ (stop < limit → byte blob (b + stop) = Done 0)).
Proof.
  revert o. induction fuel as [|fuel IH]; intros o Ho (H0 & _ & H1) Hf; [lia|].
  cbn [scan_nul]. destruct (Z.ltb_spec o limit); [|simpl; lia].
  pose proof (byte_wp (b + o) ltac:(unfold readable; lia)) as Hb.
  destruct (byte blob (b + o)) as [x| |] eqn:E; [|done|done]. cbn [bind].
  destruct (Z.eqb_spec x 0) as [->|Hx].
  - simpl. split; [lia|]. by intros _.
  - eapply wp_mono; [|apply IH; [lia|unfold readable; lia|lia]]. simpl. intros a [Ha Hz].
    split; [lia|done].
Qed.

Lemma compatible_from_wp fuel b limit wanted o :
  0 <= o <= limit → readable b limit → limit - o < Z.of_nat fuel →
  wp (compatible_from blob fuel b limit wanted o) (λ _, True).
Proof.
  revert o. induction fuel as [|fuel IH]; intros o Ho Hr Hf;
    cbn [compatible_from]; destruct Hr as (H0 & H1 & H2).
  { lia. }
  destruct (Z.ltb_spec o limit); [|done].
  eapply wp_bind; [apply scan_nul_wp; [lia|done|lia]|]. intros stop [Hs _]. cbv beta zeta.
  destruct (Z.eqb_spec stop limit); [done|].
  eapply wp_bind; [apply wp_and_then; intros E; apply equals_literal_wp; unfold readable; lia|].
  intros [|] _; [done|]. apply IH; [lia|done|lia].
Qed.

Lemma compatible_has_wp n wanted : node_ok n → wp (compatible_has blob n wanted) (λ _, True).
Proof.
  intros Hn. pose proof (no_compatible _ Hn) as Hv. unfold compatible_has, value_ok in *.
  destruct (at_ (compatible n)) as [b|]; [|by rewrite Hv].
  apply compatible_from_wp; destruct Hv as (H0 & H1 & H2); [lia|by unfold readable|lia].
Qed.

Lemma compatible_either_wp n x y : node_ok n → wp (compatible_either blob n x y) (λ _, True).
Proof.
  intros Hn. unfold compatible_either. eapply wp_bind; [by apply compatible_has_wp|].
  intros z _. apply wp_or_else. by apply compatible_has_wp.
Qed.

Lemma node_enabled_wp n : node_ok n → wp (node_enabled blob n) (λ _, True).
Proof.
  intros Hn. pose proof (no_status _ Hn) as Hv. unfold node_enabled.
  destruct (at_ (status n)) as [p|] eqn:E; [|done].
  eapply wp_bind; [apply bytes_equal_string_wp; [done|by rewrite E]|]. intros z _.
  apply wp_or_else. apply bytes_equal_string_wp; [done|by rewrite E].
Qed.

(** * Cells and addresses *)

Lemma read_cells_wp n p v :
  (n <= 2)%nat → readable p (4 * Z.of_nat n) → 0 <= v < 2 ^ 64 →
  wp (read_cells blob n p v) in_u64.
Proof.
  revert p v. induction n as [|n IH]; intros p v Hn (H0 & _ & H1) Hv; [done|]. cbn [read_cells].
  eapply wp_bind; [apply read_be32_wp; unfold readable; lia|]. intros c Hc. cbv beta in Hc.
  apply IH; [lia|unfold readable; lia|]. apply lor_lt_pow2; [lia|apply u64_range|lia].
Qed.

Lemma decode_cells_wp p cells :
  0 <= cells → readable p (4 * cells) ∨ 2 < cells →
  wp (decode_cells blob p cells) (λ '(e, v), in_u64 v ∧ (e = DTB_OK → cells <= 2)).
Proof.
  intros Hc Hr. unfold decode_cells. destruct (Z.gtb_spec cells 2).
  { simpl. split; [unfold in_u64; lia|done]. }
  destruct Hr as [Hr|]; [|lia].
  eapply wp_bind; [apply read_cells_wp; [lia|by rewrite Z2Nat.id|lia]|].
  intros v Hv. simpl. split; [done|lia].
Qed.

Lemma multiple_step e o l :
  0 < e → o mod e = 0 → l mod e = 0 → o < l → o + e <= l.
Proof.
  intros He Ho Hl Hlt. apply Z.div_exact in Ho, Hl; [|lia..]. assert (o / e < l / e) by nia. nia.
Qed.

Lemma multiple_next e o : 0 < e → o mod e = 0 → (o + e) mod e = 0.
Proof. intros He Ho. rewrite Zplus_mod, Ho, Z_mod_same_full. by rewrite Z.mod_0_l by lia. Qed.

(** One entry of a [ranges] property covers [size] bytes from [address] and
    sends its first byte to [result]. *)
Definition covers (bus parent : node) (start : Z) (size address result : Z) : Prop :=
  ∃ o child_address parent_address range_size,
    decode_cells blob (start + o) (address_cells bus) = Done (DTB_OK, child_address) ∧
    decode_cells blob (start + o + address_cells bus * 4) (address_cells parent)
      = Done (DTB_OK, parent_address) ∧
    decode_cells blob (start + o + address_cells bus * 4 + address_cells parent * 4)
      (size_cells bus) = Done (DTB_OK, range_size) ∧
    child_address <= address ∧ address + size <= child_address + range_size ∧
    result = parent_address + (address - child_address).

(** Running a read that cannot fail. *)
Lemma wp_run {A B} (m : outcome A) (k : A → outcome B) (P : A → Prop) (Q : B → Prop) :
  wp m P → (∀ a, m = Done a → P a → wp (k a) Q) → wp (bind m k) Q.
Proof. destruct m; simpl; auto. Qed.

Lemma match_ranges_wp fuel bus parent start es o size address :
  node_ok bus → node_ok parent → at_ (ranges bus) = Some start →
  address_cells bus <= 2 → address_cells parent <= 2 → size_cells bus <= 2 →
  es = (address_cells bus + address_cells parent + size_cells bus) * 4 → 0 < es →
  len (ranges bus) mod es = 0 → o mod es = 0 → 0 <= o <= len (ranges bus) →
  len (ranges bus) - o < Z.of_nat fuel → in_u64 size → in_u64 address →
  wp (match_ranges blob fuel bus parent start es o size address)
    (λ '(e, found), ∀ a, found = Some a →
       e = DTB_OK ∧ in_u64 a ∧ covers bus parent start size address a).
Proof.
  intros Hb Hp Hs C1 C2 C3 Hes Hpos Hlen. revert o.
  pose proof (proj1 (no_ranges _ Hb)) as Hv. unfold value_ok in Hv. rewrite Hs in Hv.
  destruct Hv as (V0 & _ & V1).
  pose proof (no_address_cells _ Hb). pose proof (no_address_cells _ Hp).
  pose proof (no_size_cells _ Hb).
  induction fuel as [|fuel IH]; intros o Ho Hor Hf Hsz Had; [lia|]. cbn [match_ranges].
  destruct (Z.ltb_spec o (len (ranges bus))) as [Hlt|]; [|done].
  pose proof (multiple_step es o _ Hpos Ho Hlen Hlt) as Hstep.
  eapply wp_run; [apply decode_cells_wp; [lia|left; unfold readable; lia]|].
  intros [e1 child] D1 [U1 _]. apply wp_on_ok; [done|]. intros ->.
  eapply wp_run; [apply decode_cells_wp; [lia|left; unfold readable; lia]|].
  intros [e2 par] D2 [U2 _]. apply wp_on_ok; [done|]. intros ->.
  eapply wp_run; [apply decode_cells_wp; [lia|left; unfold readable; lia]|].
  intros [e3 rs] D3 [U3 _]. apply wp_on_ok; [done|]. intros ->.
  destruct (Z.geb_spec address child), (Z.leb_spec size rs),
    (Z.leb_spec (address - child) (rs - size)); bsimpl;
    try (apply IH; [apply multiple_next; [lia|done]|lia|lia|done|done]).
  unfold add_overflows_u64. destruct (Z.gtb_spec par (UINT64_MAX - (address - child))); [done|].
  intros a [= <-]. unfold in_u64 in *. split; [done|]. split; [lia|].
  exists o, child, par, rs. repeat split; (done || lia).
Qed.

(** The addresses a device window takes on its way to the root. *)
Inductive translates (size : Z) : list node → Z → Z → Prop :=
  | translates_root buses a :
      (length buses <= 1)%nat → translates size buses a a
  | translates_identity bus parent rest a b :
      ranges_present bus = true → len (ranges bus) = 0 →
      translates size (parent :: rest) a b → translates size (bus :: parent :: rest) a b
  | translates_range bus parent rest start a b c :
      at_ (ranges bus) = Some start → covers bus parent start size a b →
      translates size (parent :: rest) b c → translates size (bus :: parent :: rest) a c.

Lemma translate_address_cons bus parent rest size address :
  translate_address blob (bus :: parent :: rest) size address
  = if negb (ranges_present bus) then Done (DTB_ERR_UNSUPPORTED, address)
    else if len (ranges bus) =? 0 then translate_address blob (parent :: rest) size address
    else if (address_cells bus >? 2) || (address_cells parent >? 2) || (size_cells bus >? 2)
    then Done (DTB_ERR_UNSUPPORTED, address)
    else
      let entry_size := (address_cells bus + address_cells parent + size_cells bus) * 4 in
      if (entry_size =? 0) || negb (len (ranges bus) mod entry_size =? 0)
      then Done (DTB_ERR_PROPERTY, address)
      else
        match at_ (ranges bus) with
        | None => Fault
        | Some start =>
            let* (error, found) :=
              match_ranges blob (S (Z.to_nat (len (ranges bus)))) bus parent start entry_size 0
                size address in
            on_ok error address
              (match found with
               | None => Done (DTB_ERR_PROPERTY, address)
               | Some address => translate_address blob (parent :: rest) size address
               end)
        end.
Proof. done. Qed.

Lemma translate_address_wp buses size address :
  Forall node_ok buses → in_u64 size → in_u64 address →
  wp (translate_address blob buses size address)
    (λ '(e, a), in_u64 a ∧ (e = DTB_OK → translates size buses address a)).
Proof.
  intros Hb Hs. revert address. induction Hb as [|bus rest Hbus Hrest IH]; intros address Ha.
  { simpl. split; [done|]. intros _. apply translates_root. simpl. lia. }
  destruct rest as [|parent rest].
  { simpl. split; [done|]. intros _. apply translates_root. simpl. lia. }
  assert (node_ok parent) as Hpar by (by inversion Hrest).
  pose proof (no_ranges _ Hbus) as [Hv Hpres].
  pose proof (no_address_cells _ Hbus). pose proof (no_address_cells _ Hpar).
  pose proof (no_size_cells _ Hbus).
  rewrite translate_address_cons. destruct (ranges_present bus) eqn:Ep; [|done]. bsimpl.
  destruct (Z.eqb_spec (len (ranges bus)) 0) as [E0|E0].
  { eapply wp_mono; [|apply IH; done]. intros [e a] [H1' H2']. split; [done|].
    intros He. apply translates_identity; auto. }
  destruct (Z.gtb_spec (address_cells bus) 2), (Z.gtb_spec (address_cells parent) 2),
    (Z.gtb_spec (size_cells bus) 2); bsimpl; try (split; [done|discriminate]).
  cbv zeta. set (es := (_ + _ + _) * 4).
  destruct (Z.eqb_spec es 0) as [|Hes]; bsimpl; [split; [done|discriminate]|].
  destruct (Z.eqb_spec (len (ranges bus) mod es) 0) as [Hm|]; bsimpl;
    [|split; [done|discriminate]].
  destruct (Hpres eq_refl) as [start Est]. unfold value_ok in Hv. rewrite Est in *.
  assert (0 <= len (ranges bus)) by (destruct Hv as (_ & ? & _); lia).
  eapply wp_bind.
  { apply (match_ranges_wp _ bus parent start es 0); try done; try lia. }
  intros [e found] Hfound. apply wp_on_ok; [intros; split; [done|discriminate || done]|].
  intros ->. destruct found as [a|]; [|split; [done|discriminate]].
  destruct (Hfound a eq_refl) as (_ & Hu & Hc).
  eapply wp_mono; [|apply IH; done]. intros [e b] [H1' H2']. split; [done|].
  intros He. eapply translates_range; eauto.
Qed.

Lemma parse_tuples_wp fuel parent buses start length_ ts capacity o out :
  node_ok parent → Forall node_ok buses → readable start length_ →
  address_cells parent <= 2 → size_cells parent <= 2 →
  ts = (address_cells parent + size_cells parent) * 4 → 0 < ts →
  length_ mod ts = 0 → o mod ts = 0 → 0 <= o <= length_ → length_ - o < Z.of_nat fuel →
  ranges_good capacity out →
  wp (parse_tuples blob fuel parent buses start length_ ts capacity o out)
    (λ '(_, out), ranges_good capacity out).
Proof.
  intros Hp Hb (R0 & R1 & R2) C1 C2 Hts Hpos Hlen. revert o out.
  pose proof (no_address_cells _ Hp). pose proof (no_size_cells _ Hp).
  induction fuel as [|fuel IH]; intros o out Ho Hor Hf Hout; [lia|]. cbn [parse_tuples].
  destruct (Z.ltb_spec o length_) as [Hlt|]; [|done].
  pose proof (multiple_step ts o _ Hpos Ho Hlen Hlt) as Hstep.
  eapply wp_bind; [apply decode_cells_wp; [lia|left; unfold readable; lia]|].
  intros [e1 address] [U1 _]. apply wp_on_ok; [done|]. intros _.
  eapply wp_bind; [apply decode_cells_wp; [lia|left; unfold readable; lia]|].
  intros [e2 size] [U2 _]. apply wp_on_ok; [done|]. intros _.
  eapply wp_bind; [by apply translate_address_wp|].
  intros [e3 a] [U3 _]. apply wp_on_ok; [done|]. intros _.
  pose proof (add_range_good out capacity a size Hout U3 U2) as Hg.
  destruct (add_range out capacity a size) as [e4 out']. apply wp_on_ok; [done|]. intros _.
  apply IH; [by apply multiple_next|lia|lia|done].
Qed.

Lemma parse_reg_wp nodes out capacity :
  nodes ≠ [] → Forall node_ok nodes → ranges_good capacity out →
  wp (parse_reg blob nodes out capacity) (λ '(_, out), ranges_good capacity out).
Proof.
  intros Hne Hn Hout. destruct nodes as [|n buses]; [done|].
  inversion Hn as [|? ? Hn0 Hbuses]; subst. unfold parse_reg.
  pose proof (no_reg _ Hn0) as Hv. unfold value_ok in Hv.
  destruct (at_ (reg n)) as [start|]; [|done]. destruct buses as [|parent rest]; [done|].
  assert (node_ok parent) as Hp by (by inversion Hbuses).
  pose proof (no_address_cells _ Hp). pose proof (no_size_cells _ Hp).
  destruct (Z.gtb_spec (address_cells parent) 2), (Z.gtb_spec (size_cells parent) 2); bsimpl;
    try done.
  cbv zeta. set (ts := (_ + _) * 4).
  destruct (Z.eqb_spec ts 0); bsimpl; [done|].
  destruct (Z.eqb_spec (len (reg n)) 0); bsimpl; [done|].
  destruct (Z.eqb_spec (len (reg n) mod ts) 0); bsimpl; [|done].
  assert (0 <= len (reg n)) by (destruct Hv as (_ & ? & _); lia).
  apply parse_tuples_wp; try done; lia.
Qed.

Lemma parse_first_reg_wp nodes old :
  nodes ≠ [] → Forall node_ok nodes →
  wp (parse_first_reg blob nodes old) (λ '(e, r), e = DTB_OK → range_good r).
Proof.
  intros Hne Hn. unfold parse_first_reg.
  eapply wp_bind; [apply parse_reg_wp; [done|done|split; [simpl; lia|constructor]]|].
  intros [e out] [_ Hf]. apply wp_on_ok; [done|]. intros _. simpl.
  destruct out as [|r out]; [done|]. by inversion Hf.
Qed.

Lemma read_u32_wp v wrong old : value_ok v → wp (read_u32 blob v wrong old) (λ _, True).
Proof.
  unfold value_ok, read_u32. intros Hv. destruct (at_ v) as [p|]; [|done].
  destruct (Z.eqb_spec (len v) 4) as [E|]; [|done]. simpl. rewrite E in Hv.
  eapply wp_bind; [by apply read_be32_wp|done].
Qed.

(** * Finishing a node *)

Section Finish.
Context (n : node) (above : list node) (info : boot_info).
Context (Hn : node_ok n) (Habove : Forall node_ok above) (Hi : boot_good info).

Let nodes_ok : Forall node_ok (n :: above).
Proof. by constructor. Qed.

Lemma finish_memory_wp enabled :
  wp (finish_memory blob (n :: above) n enabled info) (λ '(_, info), boot_good info).
Proof.
  unfold finish_memory. destruct (at_ (device_type n)) as [p|] eqn:E.
  2: { by rewrite andb_false_r. }
  eapply wp_bind.
  { apply wp_and_then. intros _. apply bytes_equal_string_wp; [apply Hn|by rewrite E]. }
  intros [|] _; [|done]. eapply wp_bind; [apply parse_reg_wp; [done|done|apply Hi]|].
  intros [e out] Hout. simpl. destruct Hi. by split.
Qed.

Lemma finish_reserved_wp enabled :
  wp (finish_reserved blob (n :: above) n enabled info) (λ '(_, info), boot_good info).
Proof.
  unfold finish_reserved. case_if; [|done].
  eapply wp_bind; [apply parse_reg_wp; [done|done|apply Hi]|].
  intros [e out] Hout. simpl. destruct Hi. by split.
Qed.

Lemma finish_uart_wp :
  wp (finish_uart blob (n :: above) n info) (λ '(_, info), boot_good info).
Proof.
  unfold finish_uart. eapply wp_bind; [by apply compatible_either_wp|]. intros [|] _; [|done].
  destruct (uart_present info) eqn:E; [done|].
  eapply wp_bind; [by apply parse_first_reg_wp|]. intros [e r] Hr.
  assert (boot_good (with_uart r (uart_irq info) false info)) as Hg by (destruct Hi; by split).
  apply wp_on_ok; [done|]. intros ->.
  eapply wp_bind; [apply read_u32_wp, Hn|]. intros [e irq] _. apply wp_on_ok; [done|]. intros ->.
  simpl. destruct Hi. split; try done. auto.
Qed.

Lemma finish_plic_wp :
  wp (finish_plic blob (n :: above) n info) (λ '(_, info), boot_good info).
Proof.
  unfold finish_plic. eapply wp_bind; [by apply compatible_either_wp|]. intros [|] _; [|done].
  destruct (plic_present info) eqn:E; [done|].
  eapply wp_bind; [by apply parse_first_reg_wp|]. intros [e r] Hr.
  assert (boot_good (with_plic r (plic_source_count info) false info)) as Hg
    by (destruct Hi; by split).
  apply wp_on_ok; [done|]. intros ->.
  eapply wp_bind; [apply read_u32_wp, Hn|]. intros [e c] _. apply wp_on_ok; [done|]. intros ->.
  simpl. destruct Hi. split; try done. auto.
Qed.

Lemma finish_virtio_wp :
  wp (finish_virtio blob (n :: above) n info) (λ '(_, info), boot_good info).
Proof.
  unfold finish_virtio. eapply wp_bind; [by apply compatible_has_wp|]. intros [|] _; [|done].
  destruct (Z.eqb_spec (Z.of_nat (length (virtio info))) BOOT_MAX_VIRTIO_DEVICES); [done|].
  eapply wp_bind; [by apply parse_first_reg_wp|]. intros [e r] Hr.
  apply wp_on_ok; [done|]. intros ->.
  eapply wp_bind; [apply read_u32_wp, Hn|]. intros [e irq] _. apply wp_on_ok; [done|]. intros ->.
  simpl. destruct Hi as [? ? [Hl Hf] Hq ? ?]. split; try done.
  - split; simpl; [rewrite length_app; simpl; lia|]. apply Forall_app. split; [done|].
    constructor; [by apply Hr|constructor].
  - simpl. rewrite !length_app, Hq. done.
Qed.
End Finish.

Lemma finish_node_wp n above info :
  node_ok n → Forall node_ok above → boot_good info →
  wp (finish_node blob (n :: above) info) (λ '(_, info), boot_good info).
Proof.
  intros Hn Ha Hi. unfold finish_node. eapply wp_bind; [by apply node_enabled_wp|].
  intros enabled _. eapply wp_bind; [by apply finish_memory_wp|]. intros [e1 i1] H1.
  apply wp_on_ok; [done|]. intros _.
  eapply wp_bind; [by apply finish_reserved_wp|]. intros [e2 i2] H2.
  apply wp_on_ok; [done|]. intros _. destruct enabled; [|done]. bsimpl.
  eapply wp_bind; [by apply finish_uart_wp|]. intros [e3 i3] H3.
  apply wp_on_ok; [done|]. intros _.
  eapply wp_bind; [by apply finish_plic_wp|]. intros [e4 i4] H4.
  apply wp_on_ok; [done|]. intros _. by apply finish_virtio_wp.
Qed.

(** * The blocks of the blob *)

Record view_ok (v : fdt_view) : Prop := {
  vo_total : total_size v <= Z.of_nat (length blob) ∧ total_size v <= FDT_MAX_SIZE;
  vo_structure : 0 <= structure v ∧ 0 <= structure_size v ∧
    structure v + structure_size v <= total_size v;
  vo_strings : 0 <= strings v ∧ 0 <= strings_size v ∧
    strings v + strings_size v <= total_size v;
  vo_reservation : 0 <= reservation_offset v ∧ reservation_offset v + 16 <= total_size v;
}.

Lemma range_within_spec t o l : range_within t o l = true ↔ o <= t ∧ l <= t - o.
Proof. unfold range_within. lia. Qed.

Definition declared_size : outcome Z := read_be32 blob 4.

Lemma validate_header_wp :
  readable 0 FDT_HEADER_SIZE → (∀ n, declared_size = Done n → n <= Z.of_nat (length blob)) →
  wp (validate_header blob) (λ '(e, v), match v with
    | None => e ≠ DTB_OK | Some v => e = DTB_OK ∧ view_ok v end).
Proof.
  intros (_ & _ & HL) Hdecl. unfold validate_header.
  eapply wp_bind; [apply read_be32_wp; unfold readable; lia|]. intros magic _.
  destruct (magic =? FDT_MAGIC); [|done]. bsimpl.
  eapply wp_run; [apply read_be32_wp; unfold readable; lia|].
  intros total Etot Htot. apply Hdecl in Etot.
  do 7 (eapply wp_bind; [apply read_be32_wp; unfold readable; lia|]; intros ? ?; cbv beta in *).
  case_if; [done|]. case_if; [done|]. case_if; [done|]. cbn [wp].
  repeat match goal with
         | H : (_ || _)%bool = false |- _ => apply orb_false_iff in H as [? ?]
         | H : negb (range_within _ _ _) = false |- _ =>
             apply negb_false_iff, range_within_spec in H as [? ?]
         end.
  split; [done|]. split; cbn [Dtb.total_size structure structure_size strings strings_size
    reservation_offset]; lia.
Qed.

(** Block bounds are far below the width of [size_t]. *)
Lemma view_small v : view_ok v →
  0 <= structure_size v <= FDT_MAX_SIZE ∧ 0 <= strings_size v <= FDT_MAX_SIZE ∧
  readable (structure v) (structure_size v) ∧ readable (strings v) (strings_size v).
Proof. intros [[? ?] [? [? ?]] [? [? ?]] [? ?]]. unfold readable. lia. Qed.

Lemma reservations_wp fuel v o info :
  view_ok v → 0 <= o → Z.max 0 (total_size v - o) < Z.of_nat fuel → boot_good info →
  wp (reservations_from blob fuel v o info) (λ '(_, info), boot_good info).
Proof.
  intros Hv. revert o info. pose proof (vo_total _ Hv) as [T1 T2].
  induction fuel as [|fuel IH]; intros o info Ho Hf Hi; [lia|]. cbn [reservations_from].
  destruct (range_within (total_size v) o 16) eqn:E; bsimpl; [|done].
  apply range_within_spec in E as [E1 E2].
  destruct (regions_overlap o 16 (structure v) _ || _); [done|].
  eapply wp_bind; [apply read_be64_wp; unfold readable; lia|]. intros address Ha.
  eapply wp_bind; [apply read_be64_wp; unfold readable; lia|]. intros size Hs.
  case_if; [done|].
  pose proof (add_range_good _ _ address size (bg_reserved _ Hi) Ha Hs) as Hg.
  destruct (add_range _ _ address size) as [e out]. simpl in Hg.
  assert (boot_good (with_reserved out info)) as Hi' by (destruct Hi; by split).
  apply wp_on_ok; [done|]. intros _. rewrite u64_small by (unfold in_u64; lia).
  apply IH; [lia|lia|done].
Qed.

(** A NUL follows within the blob. *)
Definition terminated (p : Z) : Prop :=
  ∃ k, 0 <= k ∧ readable p (k + 1) ∧ byte blob (p + k) = Done 0.

Lemma property_name_wp v o :
  view_ok v → 0 <= o →
  wp (property_name blob v o) (λ '(e, p), e = DTB_OK → terminated p).
Proof.
  intros Hv Ho. destruct (view_small v Hv) as (_ & HS & _ & HR). unfold property_name.
  destruct (Z.geb_spec o (strings_size v)); [done|].
  eapply wp_bind; [apply scan_nul_wp; [lia|done|lia]|]. intros stop [Hs Hz].
  destruct (Z.ltb_spec stop (strings_size v)); [|done]. intros _. exists (stop - o).
  destruct HR as (? & ? & ?). split; [lia|]. split; [unfold readable; lia|].
  rewrite <- Hz by lia. f_equal. lia.
Qed.

Lemma string_equal_wp l p : terminated p → wp (string_equal blob p l) (λ _, True).
Proof.
  revert p. induction l as [|c l IH]; intros p (k & Hk & Hr & Hz); cbn [string_equal];
    (eapply wp_run; [apply byte_wp; destruct Hr as (? & ? & ?); unfold readable; lia|]);
    intros b Eb _; [done|].
  destruct (Z.eqb_spec b 0) as [|Hb]; [done|]. destruct (b =? c); [|done]. bsimpl. apply IH.
  destruct (Z.eq_dec k 0) as [->|Hk0]; [rewrite Z.add_0_r in Hz; congruence|].
  exists (k - 1). split; [lia|]. destruct Hr as (? & ? & ?). split; [unfold readable; lia|].
  rewrite <- Hz. f_equal. lia.
Qed.

(** * The walk over the structure block *)

Lemma record_property_wp n p x length_ info :
  node_ok n → terminated p → readable x length_ → boot_good info →
  wp (record_property blob n p x length_ info)
    (λ '(_, (n, info)), node_ok n ∧ boot_good info).
Proof.
  intros Hn Hp Hx Hi. unfold record_property.
  assert (length_ = 4 → readable x 4) as Hx4 by (by intros <-).
  assert (value_ok (mk_value (Some x) length_)) as Hv by done.
  pose proof Hn as [? ? ? ? ? ? ? ? ? ?].
  do 9 (eapply wp_bind; [by apply string_equal_wp|]; intros [|] _;
    [first [by split; [split|]
           |destruct (Z.eqb_spec length_ 4); bsimpl; [|done];
            eapply wp_bind; [apply read_be32_wp; auto|]; intros y Hy; by split; [split|]
           |split; [split; try done; by split|done]]|]).
  eapply wp_bind; [by apply wp_and_then; intros _; apply string_equal_wp|].
  intros [|] _; [|done].
  destruct (Z.eqb_spec length_ 4); bsimpl; [|done].
  eapply wp_bind; [apply read_be32_wp; auto|]. intros y Hy. split; [done|].
  destruct Hi. by split.
Qed.

Lemma align4_spec x : 0 <= x < 2 ^ 63 → x <= align4 x <= x + 3.
Proof.
  intros Hx. unfold align4. rewrite u64_small by (unfold in_u64; lia).
  change (not64 3) with (not64 (2 ^ 2 - 1)).
  rewrite (land_not_low (x + 3) 2); [|lia|unfold in_u64; lia].
  change (2 ^ 2) with 4. div_lia.
Qed.

Record walk_ok (v : fdt_view) (w : walk_state) : Prop := {
  wo_offset : 0 <= offset w <= structure_size v + 3;
  wo_nodes : Forall node_ok (nodes w);
  wo_depth : Z.of_nat (length (nodes w)) <= FDT_MAX_DEPTH;
  wo_boot : boot_good (boot w);
}.

(** What a token handler preserves; it never moves backwards. *)
Definition advances (v : fdt_view) (o : Z) (w : walk_state) : Prop :=
  walk_ok v w ∧ o <= offset w.

Lemma fresh_node_ok p l b c : readable p l →
  node_ok (mk_node p l 2 1 no_value no_value no_value no_value no_value no_value no_value
             false b c).
Proof. intros H. by split; try done; simpl; lia. Qed.

Lemma begin_node_wp v w :
  view_ok v → walk_ok v w → offset w <= structure_size v →
  wp (begin_node blob v w) (λ '(_, w'), advances v (offset w) w').
Proof.
  intros Hv Hw Ho. pose proof Hw as [W1 W2 W3 W4].
  destruct (view_small v Hv) as (HS & _ & HR & _). unfold begin_node.
  destruct (Z.eqb_spec (Z.of_nat (length (nodes w))) FDT_MAX_DEPTH); [by split|].
  eapply wp_bind; [apply scan_nul_wp; [lia|done|lia]|]. intros stop [Hs _].
  destruct (Z.eqb_spec stop (structure_size v)); [by split|]. cbv zeta.
  assert (readable (structure v + offset w) (stop - offset w)) as Hname.
  { destruct HR as (? & ? & ?). unfold readable. lia. }
  eapply wp_bind; [apply wp_and_then; intros _; apply name_equal_wp; by apply fresh_node_ok|].
  intros is_reserved _.
  eapply wp_bind; [apply wp_and_then; intros _; apply name_equal_wp; by apply fresh_node_ok|].
  intros is_cpus _. rewrite (u64_small (stop + 1)) by (unfold in_u64; lia).
  pose proof (align4_spec (stop + 1) ltac:(lia)).
  assert (∀ b, advances v (offset w) (mk_walk (align4 (stop + 1))
    (mk_node (structure v + offset w) (stop - offset w) 2 1 no_value no_value no_value no_value
       no_value no_value no_value false is_reserved is_cpus :: nodes w) b (boot w))) as Hadv.
  { intros b. split; [|simpl; lia]. split; simpl; [lia| |lia|done].
    constructor; [by apply fresh_node_ok|done]. }
  case_if; [case_if|]; apply Hadv.
Qed.

Lemma end_node_wp v w :
  walk_ok v w → wp (end_node blob w) (λ '(_, w'), advances v (offset w) w').
Proof.
  intros Hw. pose proof Hw as [W1 W2 W3 W4]. unfold end_node.
  destruct (nodes w) as [|n above] eqn:E; [split; [done|simpl; lia]|].
  inversion W2; subst. eapply wp_bind; [by apply finish_node_wp|]. intros [e info] Hi.
  assert (∀ l, Forall node_ok l → Z.of_nat (length l) <= FDT_MAX_DEPTH →
    advances v (offset w) (mk_walk (offset w) l (saw_root w) info)) as Hadv.
  { intros l Hl Hd. split; [by split|simpl; lia]. }
  apply wp_on_ok; intros _; apply Hadv; try done. simpl in W3. lia.
Qed.

Lemma property_wp v w :
  view_ok v → walk_ok v w → wp (property blob v w) (λ '(_, w'), advances v (offset w) w').
Proof.
  intros Hv Hw. pose proof Hw as [W1 W2 W3 W4].
  destruct (view_small v Hv) as (HS & _ & HR & _). unfold property.
  destruct (nodes w) as [|n above] eqn:E; [split; [done|simpl; lia]|]. inversion W2; subst.
  destruct (range_within (structure_size v) (offset w) 8) eqn:E8; bsimpl; [|split; [done|simpl; lia]].
  apply range_within_spec in E8. destruct HR as (R1 & R2 & R3).
  eapply wp_bind; [apply read_be32_wp; unfold readable; lia|]. intros length_ Hl.
  eapply wp_bind; [apply read_be32_wp; unfold readable; lia|]. intros name_offset Hno.
  cbv beta in *. rewrite !(u64_small (offset w + 8)) by (unfold in_u64; lia).
  destruct (range_within (structure_size v) (offset w + 8) length_) eqn:El; bsimpl;
    [|split; [done|simpl; lia]].
  apply range_within_spec in El.
  eapply wp_bind; [apply property_name_wp; [done|lia]|]. intros [e p] Hp.
  apply wp_on_ok; [split; [done|simpl; lia]|]. intros ->.
  eapply wp_bind; [apply record_property_wp; [done|by apply Hp|unfold readable; lia|done]|].
  intros [e' [n' info']] [Hn' Hi'].
  rewrite !(u64_small (offset w + 8 + length_)) by (unfold in_u64; lia).
  pose proof (align4_spec (offset w + 8 + length_) ltac:(lia)).
  assert (advances v (offset w) (mk_walk (align4 (offset w + 8 + length_)) (n' :: above)
    (saw_root w) info')) as Hadv.
  { split; [|simpl; lia]. split; simpl in *; [lia| |done|done]. by constructor. }
  apply wp_on_ok; intros _; exact Hadv.
Qed.

Lemma structure_from_wp fuel v w :
  view_ok v → walk_ok v w → Z.max 0 (structure_size v - offset w) < Z.of_nat fuel →
  wp (structure_from blob fuel v w) (λ '(_, info), boot_good info).
Proof.
  intros Hv. revert w. destruct (view_small v Hv) as (HS & _ & HR & _).
  induction fuel as [|fuel IH]; intros w Hw Hf; [lia|]. cbn [structure_from].
  pose proof Hw as [W1 W2 W3 W4]. destruct HR as (R1 & R2 & R3).
  destruct (range_within (structure_size v) (offset w) 4) eqn:E4; bsimpl; [|done].
  apply range_within_spec in E4.
  eapply wp_bind; [apply read_be32_wp; unfold readable; lia|]. intros token _.
  rewrite !(u64_small (offset w + 4)) by (unfold in_u64; lia).
  set (w1 := mk_walk (offset w + 4) (nodes w) (saw_root w) (boot w)).
  assert (walk_ok v w1) as Hw1 by (split; try done; simpl; lia).
  assert (∀ m, wp m (λ '(_, w'), advances v (offset w1) w') →
    wp (let* (error, w) := m in on_ok error (boot w) (structure_from blob fuel v w))
      (λ '(_, info), boot_good info)) as Hk.
  { intros m Hm. eapply wp_bind; [exact Hm|]. intros [e w'] [Hw' Ho']. simpl in Ho'.
    apply wp_on_ok; [intros _; apply Hw'|]. intros _. apply IH; [done|lia]. }
  case_if; [apply Hk, begin_node_wp; [done|done|simpl; lia]|].
  case_if; [by apply Hk, end_node_wp|]. case_if; [by apply Hk, property_wp|].
  case_if; [apply IH; [done|simpl; lia]|]. by case_if.
Qed.
End Safety.

Lemma dtb_parse_wp address blob :
  FDT_HEADER_SIZE <= Z.of_nat (length blob) →
  (∀ n, declared_size blob = Done n → n <= Z.of_nat (length blob)) →
  wp (dtb_parse (Some (address, blob))) (λ '(_, info), boot_good info).
Proof.
  intros HL Hd. unfold dtb_parse.
  eapply wp_bind; [apply validate_header_wp; [unfold readable; lia|done]|].
  intros [e [v|]] Hv; [|exact boot_good_zero]. destruct Hv as [-> Hv].
  assert (boot_good (with_dtb address (total_size v) boot_info_zero)) as Hi
    by (pose proof boot_good_zero as []; by split).
  pose proof (vo_reservation _ _ Hv) as [R1 R2].
  eapply wp_bind; [apply reservations_wp; [done|lia|lia|done]|].
  intros [e info] Hinfo. apply wp_on_ok; [done|]. intros _.
  destruct (view_small _ v Hv) as (HS & _).
  apply structure_from_wp; [done| |simpl; lia].
  split; simpl; [lia|constructor|lia|done].
Qed.

(** * A device tree in bytes, for concrete instances *)

Module Sample.
Definition be32 (n : Z) : list Z :=
  [Z.land (Z.shiftr n 24) 255; Z.land (Z.shiftr n 16) 255; Z.land (Z.shiftr n 8) 255; Z.land n 255].
Definition pad4 (l : list Z) : list Z := l ++ repeat 0 (Z.to_nat ((- Z.of_nat (length l)) mod 4)).
Definition text (l : list Z) : list Z := l ++ [0].

Definition names : list (list Z) :=
  [chars "#address-cells"; chars "#size-cells"; chars "ranges"; chars "reg"; chars "compatible";
   chars "device_type"; chars "interrupts"; chars "timebase-frequency"; chars "riscv,ndev"].
Definition strings_block : list Z := concat (map text names).
Definition name_at (i : nat) : Z := Z.of_nat (length (concat (map text (firstn i names)))).

Definition begins (l : list Z) : list Z := be32 FDT_BEGIN_NODE ++ pad4 (text l).
Definition ends : list Z := be32 FDT_END_NODE.
Definition prop (i : nat) (v : list Z) : list Z :=
  be32 FDT_PROP ++ be32 (Z.of_nat (length v)) ++ be32 (name_at i) ++ pad4 v.

(** A board with RAM at 2 GiB, a UART and a PLIC behind a bus that shifts
    addresses by 256 MiB, and a timebase. *)
Definition structure_block : list Z :=
  begins [] ++ prop 0 (be32 2) ++ prop 1 (be32 2)
  ++ begins (chars "memory@80000000") ++ prop 5 (text (chars "memory"))
  ++ prop 3 (be32 0 ++ be32 2147483648 ++ be32 0 ++ be32 134217728) ++ ends
  ++ begins (chars "cpus") ++ prop 7 (be32 10000000) ++ ends
  ++ begins (chars "soc") ++ prop 0 (be32 1) ++ prop 1 (be32 1)
  ++ prop 2 (be32 0 ++ be32 0 ++ be32 268435456 ++ be32 1048576)
  ++ begins (chars "serial@0") ++ prop 4 (text (chars "snps,x") ++ text (chars "ns16550a"))
  ++ prop 3 (be32 0 ++ be32 256) ++ prop 6 (be32 10) ++ ends
  ++ begins (chars "plic@1000") ++ prop 4 (text (chars "riscv,plic0"))
  ++ prop 3 (be32 4096 ++ be32 8192) ++ prop 8 (be32 53) ++ ends
  ++ ends ++ ends ++ be32 FDT_END.

Definition blob : list Z :=
  let structure_offset := 40 + 32 in
  let strings_offset := structure_offset + Z.of_nat (length structure_block) in
  be32 FDT_MAGIC ++ be32 (strings_offset + Z.of_nat (length strings_block))
  ++ be32 structure_offset ++ be32 strings_offset ++ be32 40 ++ be32 17 ++ be32 16 ++ be32 0
  ++ be32 (Z.of_nat (length strings_block)) ++ be32 (Z.of_nat (length structure_block))
  ++ be32 0 ++ be32 2147483648 ++ be32 0 ++ be32 524288 ++ repeat 0 16
  ++ structure_block ++ strings_block.

Definition info : boot_info :=
  mk_boot_info [mk_range 2147483648 134217728] [mk_range 2147483648 524288]
    (mk_range 268435456 256) 10 (mk_range 268439552 8192) 53 [] [] 10000000 2281701376
    (Z.of_nat (length blob)) true true.
End Sample.

(** The parser reads the sample as intended. *)
Example sample_parsed :
  dtb_parse (Some (2281701376, Sample.blob)) = Done (DTB_OK, Sample.info).
Proof. vm_compute. reflexivity. Qed.

Lemma sample_readable :
  FDT_HEADER_SIZE <= Z.of_nat (length Sample.blob) ∧
  ∀ n, declared_size Sample.blob = Done n → n <= Z.of_nat (length Sample.blob).
Proof. vm_compute. split; [discriminate|]. intros n [= <-]. discriminate. Qed.

(** * Theorems *)

(** C3. Whatever bytes the firmware hands over, [dtb_parse] terminates and reads
    only inside the blob, provided the header and the size it declares are
    readable: no input makes it run past the blob or loop. *)
Theorem dtb_parse_safe (address : Z) (blob : list Z) :
  FDT_HEADER_SIZE <= Z.of_nat (length blob) →
  (∀ n, declared_size blob = Done n → n <= Z.of_nat (length blob)) →
  ∃ error info, dtb_parse (Some (address, blob)) = Done (error, info).
Proof.
  intros HL Hd. pose proof (dtb_parse_wp address blob HL Hd) as H.
  destruct (dtb_parse _) as [[error info]| |]; [by exists error, info|done|done].
Qed.

Lemma dtb_parse_safe_witness :
  ∃ error info, dtb_parse (Some (4096, Sample.blob)) = Done (error, info).
Proof.
  apply (dtb_parse_safe 4096 Sample.blob); [exact (proj1 sample_readable)|].
  exact (proj2 sample_readable).
Defined.

(** C34. What [dtb_parse] reports fits [struct boot_info] and the rest of the
    kernel's expectations, on error paths too: no array is overfilled, every
    range is non-empty and does not wrap, each virtio window has its interrupt
    number, and a UART or PLIC marked present has a window. *)
Theorem dtb_parse_well_formed (address : Z) (blob : list Z) (error : dtb_error)
    (info : boot_info) :
  FDT_HEADER_SIZE <= Z.of_nat (length blob) →
  (∀ n, declared_size blob = Done n → n <= Z.of_nat (length blob)) →
  dtb_parse (Some (address, blob)) = Done (error, info) →
  Z.of_nat (length (memory_ranges info)) <= BOOT_MAX_MEMORY_RANGES ∧
  Z.of_nat (length (reserved info)) <= BOOT_MAX_RESERVED_RANGES ∧
  Z.of_nat (length (virtio info)) <= BOOT_MAX_VIRTIO_DEVICES ∧
  length (virtio_irqs info) = length (virtio info) ∧
  Forall range_good (memory_ranges info ++ reserved info ++ virtio info) ∧
  Forall range_ok (reserved info) ∧
  (uart_present info = true → range_good (uart info)) ∧
  (plic_present info = true → range_good (plic info)).
Proof.
  intros HL Hd E. pose proof (dtb_parse_wp address blob HL Hd) as H. rewrite E in H.
  destruct H as [[M1 M2] [R1 R2] [V1 V2] Q U P]. split; [done|]. split; [done|].
  split; [done|]. split; [done|]. split; [by rewrite !Forall_app|]. split; [|done].
  eapply Forall_impl; [exact R2|]. unfold range_good, range_ok. intros r (? & ? & ?). lia.
Qed.

Lemma dtb_parse_well_formed_witness :
  Forall range_ok (reserved Sample.info) ∧ length (virtio_irqs Sample.info) = 0%nat.
Proof.
  destruct (dtb_parse_well_formed 2281701376 Sample.blob DTB_OK Sample.info
    (proj1 sample_readable) (proj2 sample_readable) sample_parsed)
    as (_ & _ & _ & H4 & _ & H6 & _).
  split; [exact H6|exact H4].
Defined.

(** [translate_address] follows [ranges] correctly: a window it translates is
    covered, at every bus on the way to the root, by one entry of the bus's
    [ranges] (or the bus maps identically), and moves with it. *)
Theorem translate_address_correct (blob : list Z) (buses : list node) (size address a : Z) :
  Forall (node_ok blob) buses → in_u64 size → in_u64 address →
  translate_address blob buses size address = Done (DTB_OK, a) →
  translates blob size buses address a.
Proof.
  intros Hb Hs Ha E. pose proof (translate_address_wp blob buses size address Hb Hs Ha) as H.
  rewrite E in H. by apply H.
Qed.

(** A bus that maps its addresses from 0 to 256 MiB, below the root. *)
Definition demo_ranges : list Z := Sample.be32 0 ++ Sample.be32 268435456 ++ Sample.be32 65536.
Definition demo_bus : node :=
  mk_node 0 0 1 1 (mk_value (Some 0) 12) no_value no_value no_value no_value no_value no_value
    true false false.
Definition demo_top : node :=
  mk_node 0 0 1 1 no_value no_value no_value no_value no_value no_value no_value false false false.

Lemma translate_address_correct_witness :
  translates demo_ranges 256 [demo_bus; demo_top] 4096 268439552.
Proof.
  apply translate_address_correct; [|unfold in_u64; lia|unfold in_u64; lia|].
  - repeat constructor; vm_compute; discriminate || reflexivity || eauto.
  - vm_compute. reflexivity.
Defined.
