(* ===== verification/Plic.v ===== *)
(** [src/platform/plic.c]: the interrupt controller.  Its registers are words of memory:
    a register holds what was written to it last, except the claim register, whose
    content the device decides. *)
From S2P Require Import Prelude Machine BootInfo.

Abbreviation PLIC_ENABLE_BASE := 8192 (only parsing).
Abbreviation PLIC_ENABLE_STRIDE := 128 (only parsing).
Abbreviation PLIC_CONTEXT_BASE := 2097152 (only parsing).
Abbreviation PLIC_CONTEXT_STRIDE := 4096 (only parsing).
Abbreviation PLIC_WINDOW := 2162688 (only parsing).     (* 0x210000 *)

Record plic_state := mk_plic { plic_base : Z; plic_sources : Z; plic_context : Z }.

Definition plic_register (p : plic_state) (offset : Z) : Z := u64 (plic_base p + offset).
Definition load32 (m : memory) (a : Z) : Z := load_le m a 4.
Definition store32 (m : memory) (a v : Z) : memory := store_le m a 4 v.

Definition threshold_at (p : plic_state) : Z :=
  plic_register p (u64 (PLIC_CONTEXT_BASE + plic_context p * PLIC_CONTEXT_STRIDE)).
Definition claim_at (p : plic_state) : Z :=
  plic_register p (u64 (PLIC_CONTEXT_BASE + plic_context p * PLIC_CONTEXT_STRIDE + 4)).
Definition enable_at (p : plic_state) (source : Z) : Z :=
  plic_register p (u64 (PLIC_ENABLE_BASE + plic_context p * PLIC_ENABLE_STRIDE + source / 32 * 4)).

(** [info] is never NULL here. *)
Definition plic_init (info : boot_info) (hart_id : Z) (p : plic_state) (m : memory) : bool * plic_state * memory :=
  if negb (plic_present info) || (size (plic info) <? PLIC_WINDOW) || (hart_id >? (UINT64_MAX - 1) / 2) then (false, p, m)
  else
    let p := mk_plic (phys_to_virt (base (plic info))) (plic_source_count info) (hart_id * 2 + 1) in
    (true, p, store32 m (threshold_at p) 0).

Definition plic_refuses (p : plic_state) (source : Z) : bool :=
  (plic_base p =? 0) || (source =? 0) || (source >? plic_sources p).

Definition plic_enable (source priority : Z) (p : plic_state) (m : memory) : bool * memory :=
  if plic_refuses p source then (false, m)
  else
    let m := store32 m (plic_register p (source * 4)) priority in
    let enable := enable_at p source in
    (true, store32 m enable (Z.lor (load32 m enable) (Z.shiftl 1 (source mod 32)))).

Definition plic_disable (source : Z) (p : plic_state) (m : memory) : memory :=
  if plic_refuses p source then m
  else
    let enable := enable_at p source in
    store32 m enable (Z.land (load32 m enable) (2 ^ 32 - 1 - Z.shiftl 1 (source mod 32))).

Definition plic_claim (p : plic_state) (m : memory) : Z :=
  if plic_base p =? 0 then 0 else load32 m (claim_at p).

Definition plic_complete (source : Z) (p : plic_state) (m : memory) : memory :=
  if negb (plic_base p =? 0) && negb (source =? 0) then store32 m (claim_at p) source else m.

(** ** Which sources are enabled *)

Definition enabled (p : plic_state) (m : memory) (source : Z) : bool :=
  Z.testbit (load32 m (enable_at p source)) (source mod 32).

(** The window of the device, as [plic_init] leaves it: room for eight harts, no more
    sources than a PLIC can have, and an end that does not wrap. *)
Record plic_ok (p : plic_state) : Prop := {
  po_base : 0 < plic_base p ∧ plic_base p + PLIC_WINDOW < 2 ^ 64;
  po_context : 0 <= plic_context p <= 15;
  po_sources : 0 <= plic_sources p <= 1023;
}.

Definition in_window (p : plic_state) (a : Z) : Prop := plic_base p <= a < plic_base p + PLIC_WINDOW.

Section Registers.
Context (p : plic_state) (Hp : plic_ok p).

Lemma enable_at_eq c : 0 <= c < 1024 →
  enable_at p c = plic_base p + PLIC_ENABLE_BASE + plic_context p * PLIC_ENABLE_STRIDE + c / 32 * 4 ∧ 0 <= c / 32 < 32.
Proof using Hp.
  intros Hc. destruct Hp as [H1 H2 H3]. assert (0 <= c / 32 < 32) as Hd by (split; [apply Z.div_pos; lia|apply Z.div_lt_upper_bound; lia]).
  split; [|done]. unfold enable_at, plic_register. rewrite !u64_small by (unfold in_u64; rewrite ?u64_small by (unfold in_u64; lia); lia). lia.
Qed.

Lemma context_at_eq : threshold_at p = plic_base p + PLIC_CONTEXT_BASE + plic_context p * PLIC_CONTEXT_STRIDE ∧ claim_at p = threshold_at p + 4.
Proof using Hp.
  destruct Hp as [H1 H2 H3]. unfold claim_at, threshold_at, plic_register.
  rewrite !u64_small by (unfold in_u64; rewrite ?u64_small by (unfold in_u64; lia); lia). lia.
Qed.

Lemma priority_at_eq c : 0 <= c < 1024 → plic_register p (c * 4) = plic_base p + c * 4.
Proof using Hp. intros Hc. destruct Hp. unfold plic_register. apply u64_small. unfold in_u64. lia. Qed.

Lemma load32_store32 m a v : 0 <= v < 2 ^ 32 → load32 (store32 m a v) a = v.
Proof. intros Hv. unfold load32, store32. rewrite load_le_store_le. by apply Z.mod_small. Qed.

Lemma load32_other m a b v : a + 4 <= b ∨ b + 4 <= a → load32 (store32 m a v) b = load32 m b.
Proof. intros Hab. unfold load32, store32. apply load_le_ext. intros i Hi. apply load8_store_le_out. lia. Qed.

Lemma same_word c k : 0 <= c < 1024 → 0 <= k < 1024 →
  enable_at p c = enable_at p k ∧ (c = k ↔ c mod 32 = k mod 32) ∨ (enable_at p c + 4 <= enable_at p k ∨ enable_at p k + 4 <= enable_at p c) ∧ c ≠ k.
Proof using Hp.
  intros Hc Hk. destruct (enable_at_eq c Hc) as [-> _], (enable_at_eq k Hk) as [-> _].
  pose proof (Z.div_mod c 32 ltac:(lia)). pose proof (Z.div_mod k 32 ltac:(lia)).
  destruct (Z.eq_dec (c / 32) (k / 32)) as [E|E]; [left|right]; [|by split; [lia|intros ->]]. split; lia.
Qed.

(** Writing the word of a source. *)
Lemma enabled_write m c k w : 0 <= c < 1024 → 0 <= k < 1024 → 0 <= w < 2 ^ 32 →
  (∀ i, 0 <= i < 32 → i ≠ c mod 32 → Z.testbit w i = Z.testbit (load32 m (enable_at p c)) i) →
  enabled p (store32 m (enable_at p c) w) k = if c =? k then Z.testbit w (c mod 32) else enabled p m k.
Proof using Hp.
  intros Hc Hk Hw Hb. unfold enabled. destruct (same_word c k Hc Hk) as [[E Hck]|[Hd Hne]].
  - rewrite <- E, load32_store32 by done. destruct (Z.eqb_spec c k) as [->|Hne]; [done|].
    apply Hb; [apply Z.mod_pos_bound; lia|]. intros Em. apply Hne, Hck. done.
  - rewrite load32_other by done. by rewrite (proj2 (Z.eqb_neq _ _) Hne).
Qed.

Lemma word_range m a : 0 <= load32 m a < 2 ^ 32.
Proof. apply (load_le_range m a 4). Qed.

Lemma priority_apart m c k v : 0 <= c < 1024 → 0 <= k < 1024 →
  load32 (store32 m (plic_register p (c * 4)) v) (enable_at p k) = load32 m (enable_at p k).
Proof using Hp.
  intros Hc Hk. rewrite priority_at_eq by done. destruct (enable_at_eq k Hk) as [-> Hd]. apply load32_other. destruct Hp. lia.
Qed.

Lemma window_write m a v : plic_base p <= a <= plic_base p + PLIC_WINDOW - 4 → same_on (λ b, ¬ in_window p b) m (store32 m a v).
Proof. intros Ha b Hb. unfold store32. apply load8_store_le_out. unfold in_window in Hb. lia. Qed.
End Registers.

Lemma low_bits_range w : (∀ i, 32 <= i → Z.testbit w i = false) → 0 <= w → 0 <= w < 2 ^ 32.
Proof.
  intros Hb Hw. split; [done|]. destruct (Z.eq_dec w 0) as [->|Hn]; [lia|]. apply Z.log2_lt_pow2; [lia|].
  destruct (Z.lt_ge_cases (Z.log2 w) 32) as [|Hge]; [done|]. pose proof (Z.bit_log2 w ltac:(lia)) as Hl. by rewrite (Hb _ Hge) in Hl.
Qed.

Lemma mask_bit k i : 0 <= k < 32 → 0 <= i → Z.testbit (2 ^ 32 - 1 - Z.shiftl 1 k) i = (i <? 32) && negb (i =? k).
Proof.
  intros Hk Hi. rewrite Z.shiftl_1_l. replace (2 ^ 32 - 1 - 2 ^ k) with (Z.ldiff (Z.ones 32) (2 ^ k)).
  - rewrite Z.ldiff_spec, Z.pow2_bits_eqb by lia. rewrite (Z.eqb_sym k i). f_equal.
    destruct (Z.ltb_spec i 32); [by apply Z.ones_spec_low|by apply Z.ones_spec_high].
  - rewrite <- Z.sub_nocarry_ldiff; [by rewrite Z.ones_equiv|]. apply Z.bits_inj'. intros j Hj.
    rewrite Z.ldiff_spec, Z.bits_0, Z.pow2_bits_eqb by lia. destruct (Z.eqb_spec k j) as [<-|]; [|done]. by rewrite Z.ones_spec_low by lia.
Qed.

(** A source that the controller has is enabled with its priority and nothing else about
    the enabled sources changes; disabling takes it away again; every write is inside
    the window of the device.  For any other source nothing happens. *)
Theorem plic_enable_disable (p : plic_state) (m : memory) (source priority : Z) :
  plic_ok p → 0 <= source < 2 ^ 32 → 0 <= priority < 2 ^ 32 →
  if (0 <? source) && (source <=? plic_sources p) then
    ∃ m', plic_enable source priority p m = (true, m') ∧ load32 m' (plic_register p (source * 4)) = priority ∧
      (∀ k, 0 <= k < 1024 → enabled p m' k = (source =? k) || enabled p m k) ∧
      (∀ k, 0 <= k < 1024 → enabled p (plic_disable source p m') k = negb (source =? k) && enabled p m k) ∧
      same_on (λ a, ¬ in_window p a) m (plic_disable source p m')
  else plic_enable source priority p m = (false, m) ∧ plic_disable source p m = m.
Proof.
  intros Hp Hs Hpr. pose proof Hp as [[H1 H1'] H2 H3]. unfold plic_enable, plic_disable, plic_refuses.
  rewrite (proj2 (Z.eqb_neq (plic_base p) 0) ltac:(lia)). cbn [orb].
  destruct (Z.ltb_spec 0 source) as [Hpos|]; cbn [andb]; [|by replace source with 0 by lia].
  rewrite (proj2 (Z.eqb_neq source 0) ltac:(lia)). cbn [orb]. rewrite Z.gtb_ltb.
  destruct (Z.leb_spec source (plic_sources p)) as [Hle|Hgt]; [|by rewrite (proj2 (Z.ltb_lt _ _) Hgt)].
  rewrite (proj2 (Z.ltb_ge _ _) Hle). assert (0 <= source < 1024) as Hsrc by lia.
  pose proof (Z.mod_pos_bound source 32 ltac:(lia)) as Hmod.
  set (m1 := store32 m (plic_register p (source * 4)) priority). set (e := enable_at p source). cbv zeta.
  set (w := Z.lor (load32 m1 e) (Z.shiftl 1 (source mod 32))).
  assert (∀ i, 0 <= i → Z.testbit w i = Z.testbit (load32 m1 e) i || (source mod 32 =? i)) as Hw.
  { intros i Hi. unfold w. by rewrite Z.lor_spec, Z.shiftl_1_l, Z.pow2_bits_eqb by lia. }
  assert (∀ i, 32 <= i → Z.testbit (load32 m1 e) i = false) as Hhigh.
  { intros i Hi. pose proof (word_range m1 e). rewrite <- (Z.mod_small (load32 m1 e) (2 ^ 32)) by done. apply Z.mod_pow2_bits_high. lia. }
  assert (0 <= w < 2 ^ 32) as Hwr.
  { apply low_bits_range; [intros i Hi; rewrite Hw, (Hhigh i Hi) by lia; cbn; apply Z.eqb_neq; lia|].
    apply Z.lor_nonneg. split; [apply word_range|apply Z.shiftl_nonneg; lia]. }
  assert (∀ k, 0 <= k < 1024 → enabled p (store32 m1 e w) k = (source =? k) || enabled p m k) as Hen.
  { intros k Hk. unfold e. rewrite (enabled_write p Hp m1 source k w) by (done || intros i Hi Hne; rewrite Hw by lia; rewrite (proj2 (Z.eqb_neq _ _) (not_eq_sym Hne)); apply orb_false_r).
    destruct (source =? k); [rewrite Hw, Z.eqb_refl by lia; apply orb_true_r|]. cbn [orb]. unfold enabled. unfold m1. by rewrite (priority_apart p Hp). }
  pose proof (priority_at_eq p Hp source Hsrc) as Epr. destruct (enable_at_eq p Hp source Hsrc) as [Een Hd]. fold e in Een.
  eexists. split; [reflexivity|]. split; [|split; [exact Hen|split]].
  - unfold m1. rewrite load32_other by lia. by apply load32_store32.
  - intros k Hk. unfold e. rewrite (enabled_write p Hp); try done.
    + rewrite Z.land_spec, mask_bit by lia. destruct (Z.eqb_spec source k) as [->|Hne]; cbn [negb andb].
      * rewrite Z.eqb_refl. cbn. rewrite andb_false_r. by rewrite andb_false_r.
      * fold e. rewrite (Hen k Hk), (proj2 (Z.eqb_neq _ _) Hne). done.
    + apply low_bits_range; [|apply Z.land_nonneg; left; apply word_range]. intros i Hi. rewrite Z.land_spec, mask_bit by lia.
      rewrite (proj2 (Z.ltb_ge i 32)) by lia. apply andb_false_r.
    + intros i Hi Hne. rewrite Z.land_spec, mask_bit by lia. rewrite (proj2 (Z.ltb_lt i 32)), (proj2 (Z.eqb_neq _ _) Hne) by lia. apply andb_true_r.
  - etransitivity; [|etransitivity]; apply window_write; rewrite ?Epr; fold e; lia.
Qed.

(** [plic_init] clears the threshold of the hart, inside the window. *)
Theorem plic_init_correct (info : boot_info) (hart_id : Z) (p : plic_state) (m : memory) :
  plic_present info = true → PLIC_WINDOW <= size (plic info) → 0 < base (plic info) → base (plic info) + PLIC_WINDOW < 2 ^ 38 →
  0 <= plic_source_count info <= 1023 → 0 <= hart_id <= 7 →
  ∃ p' m', plic_init info hart_id p m = (true, p', m') ∧ plic_ok p' ∧ load32 m' (threshold_at p') = 0 ∧ same_on (λ a, ¬ in_window p' a) m m'.
Proof.
  intros H1 H2 H3 H4 H5 H6. unfold plic_init. rewrite H1, (proj2 (Z.ltb_ge _ _) H2). cbn [negb orb].
  assert ((hart_id >? (UINT64_MAX - 1) / 2) = false) as -> by (rewrite Z.gtb_ltb; apply Z.ltb_ge; change ((UINT64_MAX - 1) / 2) with 9223372036854775807; lia).
  set (p' := mk_plic _ _ _). assert (plic_ok p') as Hp.
  { unfold p'. split; cbn; rewrite ?phys_to_virt_page by lia; lia. }
  eexists p', _. split; [reflexivity|]. split; [done|]. split; [by apply load32_store32|]. apply window_write.
  destruct (context_at_eq p' Hp) as [-> _]. cbn. lia.
Qed.

(** The size that [plic_init] asks for is enough for eight harts only: the threshold of
    the ninth lies behind it. *)
Example plic_init_ninth_hart :
  let info := mk_boot_info [] [] (mk_range 0 0) 0 (mk_range 201326592 PLIC_WINDOW) 53 [] [] 0 0 0 false true in
  match plic_init info 8 (mk_plic 0 0 0) ∅ with
  | (ok, p, _) => ok && (plic_base p + PLIC_WINDOW <=? threshold_at p)
  end = true.
Proof. reflexivity. Qed.
