(* ===== verification/KList.v ===== *)
(** [src/kernel/list.h] and [src/kernel/refcount.h]: circular doubly linked lists
    in memory, as the rest of the kernel links its objects, and reference
    counts.  A [struct list_node] at address [a] keeps [prev] at [a] and [next]
    at [a + 8].  The theorems show that the pointer operations are the list
    operations the other components use them for. *)
From S2P Require Import Prelude Machine.

(** * Operations *)

Definition get_prev (m : memory) (node : Z) : Z := load64 m node.
Definition get_next (m : memory) (node : Z) : Z := load64 m (node + 8).
Definition set_prev (m : memory) (node v : Z) : memory := store64 m node v.
Definition set_next (m : memory) (node v : Z) : memory := store64 m (node + 8) v.

Definition list_init (head : Z) (m : memory) : memory :=
  let m := set_prev m head head in
  set_next m head head.

Definition list_empty (head : Z) (m : memory) : bool := get_next m head =? head.

Definition list_insert_before (position node : Z) (m : memory) : memory :=
  let m := set_prev m node (get_prev m position) in
  let m := set_next m node position in
  let m := set_next m (get_prev m position) node in
  set_prev m position node.

Definition list_push_back (head node : Z) (m : memory) : memory :=
  list_insert_before head node m.

Definition list_remove (node : Z) (m : memory) : memory :=
  let m := set_next m (get_prev m node) (get_next m node) in
  let m := set_prev m (get_next m node) (get_prev m node) in
  list_init node m.

Definition refcount_init : Z := 1.
Definition refcount_get (value : Z) : Z := u64 (value + 1).
(** The new value and whether it is zero. *)
Definition refcount_put (value : Z) : bool * Z :=
  let value := u64 (value - 1) in (value =? 0, value).

(** * Representation *)

(** [x]'s successor is [y] and [y]'s predecessor is [x]. *)
Definition linked (m : memory) (x y : Z) : Prop := get_next m x = y ∧ get_prev m y = x.

(** The nodes [l] lie between [x] and [z]. *)
Fixpoint segment (m : memory) (x : Z) (l : list Z) (z : Z) : Prop :=
  match l with
  | [] => linked m x z
  | y :: l' => linked m x y ∧ segment m y l' z
  end.

Definition apart (x y : Z) : Prop := x + 16 <= y ∨ y + 16 <= x.

(** A set of nodes that do not overlap. *)
Definition separate (nodes : list Z) : Prop :=
  (∀ x, x ∈ nodes → in_u64 x) ∧ (∀ x y, x ∈ nodes → y ∈ nodes → x ≠ y → apart x y).

Record dlist (m : memory) (head : Z) (l : list Z) : Prop := {
  dl_segment : segment m head l head;
  dl_nodup : NoDup (head :: l);
  dl_separate : separate (head :: l);
}.

(** ** Field updates *)

Lemma get_prev_set_prev m x y v :
  in_u64 v → (x ≠ y → apart x y) →
  get_prev (set_prev m x v) y = if decide (x = y) then v else get_prev m y.
Proof.
  intros Hv Ha. unfold get_prev, set_prev. case_decide; subst.
  - by apply load64_store64_eq.
  - apply load64_store64_ne. destruct (Ha H); lia.
Qed.

Lemma get_next_set_next m x y v :
  in_u64 v → (x ≠ y → apart x y) →
  get_next (set_next m x v) y = if decide (x = y) then v else get_next m y.
Proof.
  intros Hv Ha. unfold get_next, set_next. case_decide; subst.
  - by apply load64_store64_eq.
  - apply load64_store64_ne. destruct (Ha H); lia.
Qed.

Lemma get_next_set_prev m x y v : (x ≠ y → apart x y) → get_next (set_prev m x v) y = get_next m y.
Proof.
  intros Ha. apply load64_store64_ne. destruct (decide (x = y)) as [->|Hne]; [lia|].
  destruct (Ha Hne); lia.
Qed.

Lemma get_prev_set_next m x y v : (x ≠ y → apart x y) → get_prev (set_next m x v) y = get_prev m y.
Proof.
  intros Ha. apply load64_store64_ne. destruct (decide (x = y)) as [->|Hne]; [lia|].
  destruct (Ha Hne); lia.
Qed.

(** ** Segments *)

Lemma segment_app m x l1 y l2 z :
  segment m x (l1 ++ y :: l2) z ↔ segment m x l1 y ∧ segment m y l2 z.
Proof. revert x. induction l1 as [|a l1 IH]; intros x; simpl; [done|]. rewrite IH. tauto. Qed.

Lemma last_cons (l : list Z) x y : List.last (y :: l) x = List.last l y.
Proof.
  revert x y. induction l as [|a l IH]; intros x y; [done|].
  change (List.last (y :: a :: l) x) with (List.last (a :: l) x). by rewrite !IH.
Qed.

Lemma segment_last m x l z : segment m x l z → linked m (List.last l x) z.
Proof.
  revert x. induction l as [|y l IH]; intros x; [done|]. intros [_ H]. apply IH in H.
  by rewrite last_cons.
Qed.

Lemma last_elem (l : list Z) x : List.last l x ∈ x :: l.
Proof.
  revert x. induction l as [|y l IH]; intros x; [by left|]. right.
  rewrite last_cons. apply IH.
Qed.

Lemma segment_frame m m' x l z :
  (∀ a, a ∈ x :: l → get_next m' a = get_next m a) →
  (∀ a, a ∈ l ++ [z] → get_prev m' a = get_prev m a) →
  segment m x l z → segment m' x l z.
Proof.
  revert x. induction l as [|y l IH]; intros x Hn Hp.
  - intros [H1 H2]. split; [rewrite Hn; [done|by left]|rewrite Hp; [done|by left]].
  - intros [[H1 H2] H3]. split.
    + split; [rewrite Hn; [done|by left]|rewrite Hp; [done|by left]].
    + apply IH; [intros a Ha; apply Hn; by right|intros a Ha; apply Hp; by right|done].
Qed.

(** Pointing the last node of a segment somewhere else. *)
Lemma segment_redirect m m' x l z u :
  NoDup (x :: l) → u ∉ l →
  (∀ a, a ∈ x :: l → get_next m' a = if decide (a = List.last l x) then u else get_next m a) →
  (∀ a, a ∈ l → get_prev m' a = get_prev m a) → get_prev m' u = List.last l x →
  segment m x l z → segment m' x l u.
Proof.
  revert x. induction l as [|y l IH]; intros x Hnd Hu Hn Hp Hup.
  - intros _. split; [|done]. rewrite Hn by (by left). by rewrite decide_True.
  - intros [[H1 H2] H3]. inversion Hnd as [|? ? Hx Hnd']; subst.
    rewrite last_cons in *. apply not_elem_of_cons in Hu as [Huy Hu]. split.
    + split.
      * rewrite Hn by (by left). apply decide_False. intros E.
        apply Hx. pose proof (last_elem l (get_next m x)) as Hl. by rewrite <- E in Hl.
      * rewrite Hp by (by left). done.
    + apply IH; try done.
      * intros a Ha. apply Hn. by right.
      * intros a Ha. apply Hp. by right.
Qed.

(** ** Refinement of the list operations *)

Lemma list_init_dlist m head : in_u64 head → dlist (list_init head m) head [].
Proof.
  intros Hh. split; [|apply NoDup_singleton|].
  - unfold list_init. split.
    + rewrite get_next_set_next by done. by rewrite decide_True.
    + rewrite get_prev_set_next, get_prev_set_prev by done. by rewrite decide_True.
  - split; [by intros x ->%list_elem_of_singleton|].
    intros x y ->%list_elem_of_singleton ->%list_elem_of_singleton. done.
Qed.

Lemma list_empty_spec m head l : dlist m head l → list_empty head m = bool_decide (l = []).
Proof.
  intros [Hs Hn _]. unfold list_empty. destruct l as [|x l].
  - destruct Hs as [-> _]. by rewrite Z.eqb_refl.
  - destruct Hs as [[-> _] _]. rewrite bool_decide_false by done. apply Z.eqb_neq.
    intros ->. inversion Hn; subst. set_solver.
Qed.

(** What [list_insert_before] writes, on a separate set of nodes. *)
Lemma insert_fields m S pos node prev :
  separate S → pos ∈ S → node ∈ S → prev ∈ S → node ≠ pos → get_prev m pos = prev →
  let m' := list_insert_before pos node m in
  (∀ a, a ∈ S → get_next m' a = if decide (a = prev) then node
                                else if decide (a = node) then pos else get_next m a) ∧
  (∀ a, a ∈ S → get_prev m' a = if decide (a = pos) then node
                                else if decide (a = node) then prev else get_prev m a).
Proof.
  intros [Hu Hs] Hpos Hnode Hprev Hne Hp. unfold list_insert_before. cbv zeta. rewrite Hp.
  assert (∀ a, a ∈ S → ∀ b, b ∈ S → a ≠ b → apart a b) as Ha by eauto.
  rewrite get_prev_set_next by eauto. rewrite get_prev_set_prev by eauto.
  rewrite decide_False, Hp by done.
  split; intros a HaS.
  - rewrite get_next_set_prev by eauto. rewrite get_next_set_next by eauto.
    rewrite get_next_set_next by eauto. rewrite get_next_set_prev by eauto.
    repeat case_decide; congruence.
  - rewrite get_prev_set_prev by eauto. rewrite get_prev_set_next by eauto.
    rewrite get_prev_set_next by eauto. rewrite get_prev_set_prev by eauto.
    repeat case_decide; congruence.
Qed.

Lemma separate_sub S T : (∀ x, x ∈ S → x ∈ T) → separate T → separate S.
Proof. intros H [H1 H2]. split; eauto. Qed.

(** Inserting into a segment whose end is [pos]. *)
Lemma segment_insert m m' x l pos node :
  NoDup (x :: l) → pos ∉ l → node ∉ x :: l → node ≠ pos →
  (∀ a, a ∈ node :: x :: l → get_next m' a = if decide (a = List.last l x) then node
                                else if decide (a = node) then pos else get_next m a) →
  (∀ a, a ∈ pos :: node :: l → get_prev m' a = if decide (a = pos) then node
                                else if decide (a = node) then List.last l x else get_prev m a) →
  segment m x l pos → segment m' x (l ++ [node]) pos.
Proof.
  intros Hnd Hpos Hnode Hne Hn Hp Hseg. pose proof (last_elem l x) as Hlast.
  assert (node ≠ List.last l x) as Hnl by (intros ->; done).
  apply segment_app. split.
  - apply (segment_redirect m m' x l pos node); try done.
    + intros Hin. apply Hnode. by right.
    + intros a Ha. rewrite Hn by (by right). case_decide; [done|].
      rewrite decide_False; [done|]. by intros ->.
    + intros a Ha. rewrite Hp by (right; by right). rewrite !decide_False; [done| |]; intros ->; [|done].
      apply Hnode. by right.
    + rewrite Hp by (right; by left). rewrite decide_False by done. by rewrite decide_True.
  - split.
    + rewrite Hn by (by left). rewrite decide_False by done. by rewrite decide_True.
    + rewrite Hp by (by left). by rewrite decide_True.
Qed.

Lemma push_back_dlist m head l node :
  dlist m head l → node ∉ head :: l → separate (node :: head :: l) →
  dlist (list_push_back head node m) head (l ++ [node]).
Proof.
  intros [Hs Hnd _] Hnode Hsep. pose proof (segment_last _ _ _ _ Hs) as [_ Hprev].
  inversion Hnd as [|? ? Hh Hnd']; subst.
  assert (node ≠ head) as Hne by (intros ->; apply Hnode; by left).
  destruct (insert_fields m (node :: head :: l) head node (List.last l head)) as [Hn Hp];
    [done|set_solver|by left|right; apply last_elem|done|done|].
  split.
  - apply (segment_insert m); try done. intros a Ha. apply Hp. set_solver.
  - rewrite app_comm_cons. apply NoDup_app. split; [done|]. split; [|apply NoDup_singleton].
    intros a Ha ->%list_elem_of_singleton. done.
  - eapply separate_sub; [|exact Hsep]. set_solver.
Qed.

(** What [list_remove] writes. *)
Lemma remove_fields m S node prev next :
  separate S → node ∈ S → prev ∈ S → next ∈ S → node ≠ prev → node ≠ next →
  get_prev m node = prev → get_next m node = next →
  let m' := list_remove node m in
  (∀ a, a ∈ S → get_next m' a = if decide (a = node) then node
                                else if decide (a = prev) then next else get_next m a) ∧
  (∀ a, a ∈ S → get_prev m' a = if decide (a = node) then node
                                else if decide (a = next) then prev else get_prev m a).
Proof.
  intros [Hu Hs] Hnode Hprev Hnext Hnp Hnn Ep En.
  assert (∀ a, a ∈ S → ∀ b, b ∈ S → a ≠ b → apart a b) as Ha by eauto.
  unfold list_remove, list_init. cbv zeta. rewrite Ep, En.
  rewrite get_next_set_next by eauto. rewrite decide_False, En by done.
  rewrite get_prev_set_next, Ep by eauto.
  split; intros a HaS.
  - rewrite get_next_set_next by eauto. rewrite get_next_set_prev by eauto.
    rewrite get_next_set_prev by eauto. rewrite get_next_set_next by eauto.
    repeat case_decide; congruence.
  - rewrite get_prev_set_next by eauto. rewrite get_prev_set_prev by eauto.
    rewrite get_prev_set_prev by eauto. rewrite get_prev_set_next by eauto.
    repeat case_decide; congruence.
Qed.

(** The node after a segment's start. *)
Definition first (l : list Z) (z : Z) : Z := match l with [] => z | y :: _ => y end.

Lemma segment_first m x l z : segment m x l z → get_next m x = first l z.
Proof. destruct l; [by intros [? _]|by intros [[? _] _]]. Qed.

Lemma remove_dlist m head l1 node l2 :
  dlist m head (l1 ++ node :: l2) →
  dlist (list_remove node m) head (l1 ++ l2) ∧ dlist (list_remove node m) node [].
Proof.
  intros [Hs Hnd Hsep]. apply segment_app in Hs as [Hs1 Hs2].
  pose proof (segment_last _ _ _ _ Hs1) as [_ Ep]. pose proof (segment_first _ _ _ _ Hs2) as En.
  set (prev := List.last l1 head) in *. set (next := first l2 head) in *.
  pose proof (last_elem l1 head) as Hlast. fold prev in Hlast.
  assert (NoDup (head :: l1 ++ l2) ∧ node ∉ head :: l1 ++ l2) as [Hnd' Hni].
  { rewrite (Permutation_app_comm l1 (node :: l2)) in Hnd. simpl in Hnd.
    rewrite (Permutation_swap node head) in Hnd. apply NoDup_cons in Hnd as [H1 H2].
    rewrite (Permutation_app_comm l2 l1) in H1, H2. done. }
  assert (next ∈ head :: l2) as Hfirst by (unfold next; destruct l2; set_solver).
  assert (node ≠ prev ∧ node ≠ next) as [Hnp Hnn] by (split; intros ->; set_solver).
  destruct (remove_fields m (head :: l1 ++ node :: l2) node prev next) as [Hn Hp];
    [done|set_solver|set_solver|set_solver|done|done|done|done|].
  assert (NoDup (head :: l1)) as Hnd1.
  { rewrite app_comm_cons in Hnd'. by apply NoDup_app in Hnd' as [H _]. }
  assert (∀ a, a ∈ l1 → a ∉ head :: l2) as Hdis.
  { intros a Ha1 Ha2. apply NoDup_cons in Hnd' as [Hh Hnd'']. apply elem_of_cons in Ha2 as [->|Ha2].
    - apply Hh, elem_of_app. by left.
    - apply NoDup_app in Hnd'' as (_ & H & _). by apply (H a). }
  assert (segment (list_remove node m) head l1 next) as Hs1'.
  { apply (segment_redirect m _ head l1 node next); try done.
    - intros Hin. by apply (Hdis next).
    - intros a Ha. rewrite Hn, decide_False by (set_solver || (intros ->; set_solver)). done.
    - intros a Ha. rewrite Hp, !decide_False; [done| | |set_solver]; intros ->; [|set_solver].
      by apply (Hdis next).
    - rewrite Hp, decide_False, decide_True; [done|done|done|set_solver]. }
  split; [split|split].
  - destruct l2 as [|y l2]; [by rewrite app_nil_r|]. apply segment_app. split; [exact Hs1'|].
    destruct Hs2 as [_ Hs2]. apply (segment_frame m); [| |exact Hs2].
    + intros a Ha. rewrite Hn, !decide_False; [done| | |set_solver]; intros ->; [|set_solver].
      apply elem_of_cons in Hlast as [E|Hl]; [|apply (Hdis _ Hl); by right].
      rewrite E in Ha. apply NoDup_cons in Hnd' as [Hh _]. apply Hh, elem_of_app. by right.
    + intros a Ha. apply NoDup_cons in Hnd' as [Hh Hnd''].
      apply NoDup_app in Hnd'' as (_ & _ & Hy). apply NoDup_cons in Hy as [Hy _].
      rewrite Hp, !decide_False; [done| | |set_solver].
      * change next with y. intros ->. apply elem_of_app in Ha as [Ha|Ha%list_elem_of_singleton].
        -- by apply Hy.
        -- subst. apply Hh, elem_of_app. right. by left.
      * intros ->. set_solver.
  - done.
  - eapply separate_sub; [|exact Hsep]. set_solver.
  - split; [rewrite Hn, decide_True; set_solver|rewrite Hp, decide_True; set_solver].
  - apply NoDup_singleton.
  - eapply separate_sub; [|exact Hsep]. set_solver.
Qed.

(** ** Frames *)

(** The bytes of the nodes in [nodes]. *)
Definition in_nodes (nodes : list Z) (a : Z) : Prop := ∃ n, n ∈ nodes ∧ n <= a < n + 16.

Lemma dlist_frame m m' head l :
  same_on (in_nodes (head :: l)) m m' → dlist m head l → dlist m' head l.
Proof.
  intros Hm [Hs Hn Hp]. split; [|done|done]. apply (segment_frame m); [| |done].
  - intros a Ha. apply load64_ext. intros b Hb. apply Hm. exists a. split; [done|lia].
  - intros a Ha. apply load64_ext. intros b Hb. apply Hm. exists a. split; [set_solver|lia].
Qed.

Lemma load8_set_prev m x v b :
  ¬ (x <= b < x + 16) → load8 (set_prev m x v) b = load8 m b.
Proof. intros Hb. apply load8_store64_out. lia. Qed.
Lemma load8_set_next m x v b :
  ¬ (x <= b < x + 16) → load8 (set_next m x v) b = load8 m b.
Proof. intros Hb. apply load8_store64_out. lia. Qed.

Lemma push_back_frame m head l node b :
  dlist m head l → node ∉ head :: l → separate (node :: head :: l) →
  ¬ in_nodes (node :: head :: l) b → load8 (list_push_back head node m) b = load8 m b.
Proof.
  intros [Hs Hnd _] Hnode [Hu Hsep] Hb. pose proof (segment_last _ _ _ _ Hs) as [_ Hprev].
  pose proof (last_elem l head) as Hlast.
  assert (∀ n, n ∈ node :: head :: l → ¬ (n <= b < n + 16)) as Hout.
  { intros n Hn Hr. apply Hb. by exists n. }
  unfold list_push_back, list_insert_before. cbv zeta. rewrite Hprev.
  rewrite get_prev_set_next, get_prev_set_prev, decide_False, Hprev; cycle 1.
  - intros ->. apply Hnode. by left.
  - apply Hu. by right.
  - intros Hne. apply Hsep; set_solver.
  - intros Hne. apply Hsep; set_solver.
  - by rewrite load8_set_prev, !load8_set_next, load8_set_prev by (apply Hout; set_solver).
Qed.

Lemma remove_frame m head l1 node l2 b :
  dlist m head (l1 ++ node :: l2) →
  ¬ in_nodes (head :: l1 ++ node :: l2) b → load8 (list_remove node m) b = load8 m b.
Proof.
  intros [Hs Hnd [Hu Hsep]] Hb. apply segment_app in Hs as [Hs1 Hs2].
  pose proof (segment_last _ _ _ _ Hs1) as [_ Ep]. pose proof (segment_first _ _ _ _ Hs2) as En.
  pose proof (last_elem l1 head) as Hlast.
  assert (first l2 head ∈ head :: l2) as Hfirst by (destruct l2; set_solver).
  assert (∀ n, n ∈ head :: l1 ++ node :: l2 → ¬ (n <= b < n + 16)) as Hout.
  { intros n Hn Hr. apply Hb. by exists n. }
  assert (node ≠ List.last l1 head) as Hne.
  { intros E. rewrite <- E in Hlast. rewrite app_comm_cons in Hnd.
    apply NoDup_app in Hnd as (_ & H & _). apply (H node Hlast). by left. }
  unfold list_remove, list_init. cbv zeta. rewrite Ep, En.
  rewrite get_next_set_next, decide_False, En; cycle 1; [done|apply Hu; set_solver|..].
  { intros Hn. apply Hsep; set_solver. }
  by rewrite load8_set_next, !load8_set_prev, load8_set_next by (apply Hout; set_solver).
Qed.

(** * Histories of a list *)

Inductive list_op := PushBack (node : Z) | Remove (node : Z).

Definition run_list_op (head : Z) (o : list_op) (m : memory) : memory :=
  match o with
  | PushBack node => list_push_back head node m
  | Remove node => list_remove node m
  end.

(** The abstract list, [None] for a node pushed twice or removed when absent. *)
Definition list_step (o : list_op) (l : list Z) : option (list Z) :=
  match o with
  | PushBack node => if decide (node ∈ l) then None else Some (l ++ [node])
  | Remove node => if decide (node ∈ l) then Some (List.remove Z.eq_dec node l) else None
  end.

Fixpoint list_run (ops : list list_op) (l : list Z) : option (list Z) :=
  match ops with
  | [] => Some l
  | o :: ops => match list_step o l with Some l => list_run ops l | None => None end
  end.

Definition op_node (o : list_op) : Z := match o with PushBack n => n | Remove n => n end.

Lemma remove_middle (l1 l2 : list Z) x :
  x ∉ l1 → x ∉ l2 → List.remove Z.eq_dec x (l1 ++ x :: l2) = l1 ++ l2.
Proof.
  intros H1 H2. rewrite remove_app, remove_cons.
  rewrite !notin_remove by (by rewrite <- list_elem_of_In). done.
Qed.

Lemma list_op_refines m head l pool o l' :
  dlist m head l → (∀ x, x ∈ l → x ∈ pool) → head ∉ pool → separate (head :: pool) →
  op_node o ∈ pool → list_step o l = Some l' →
  dlist (run_list_op head o m) head l' ∧ (∀ x, x ∈ l' → x ∈ pool).
Proof.
  intros Hd Hsub Hh Hsep Ho. destruct o as [n|n]; simpl in *; case_decide as Hn; try done;
    intros [= <-].
  - split; [|set_solver]. apply push_back_dlist; [done| |].
    + apply not_elem_of_cons. split; [by intros ->|done].
    + eapply separate_sub; [|exact Hsep]. set_solver.
  - apply list_elem_of_split in Hn as (l1 & l2 & ->).
    pose proof (dl_nodup _ _ _ Hd) as Hnd. apply NoDup_cons in Hnd as [_ Hnd].
    rewrite (Permutation_app_comm l1) in Hnd. simpl in Hnd. apply NoDup_cons in Hnd as [Hnd _].
    rewrite remove_middle by set_solver. split; [by apply remove_dlist|]. set_solver.
Qed.

(** C37. The pointer manipulations of [list.h] implement lists: from an
    initialised head, any history of insertions of unlinked nodes and removals
    of linked ones, over nodes that do not overlap, leaves a well-formed
    circular list holding exactly the nodes of the abstract list in order, and
    [list_empty] tells whether there are any. *)
Theorem klist_refines (ops : list list_op) (m : memory) (head : Z) (pool l : list Z) :
  head ∉ pool → separate (head :: pool) → Forall (λ o, op_node o ∈ pool) ops →
  list_run ops [] = Some l →
  let m' := fold_left (λ m o, run_list_op head o m) ops (list_init head m) in
  dlist m' head l ∧ list_empty head m' = bool_decide (l = []).
Proof.
  intros Hh Hsep Hops Hrun.
  assert (∀ l0 m0, dlist m0 head l0 → (∀ x, x ∈ l0 → x ∈ pool) → list_run ops l0 = Some l →
    dlist (fold_left (λ m o, run_list_op head o m) ops m0) head l) as Hind.
  { clear Hrun. induction Hops as [|o ops Ho Hops IH]; intros l0 m0 Hd Hsub; simpl.
    - by intros [= <-].
    - destruct (list_step o l0) as [l1|] eqn:E; [|done]. intros Hrun.
      destruct (list_op_refines m0 head l0 pool o l1) as [Hd' Hsub']; eauto. }
  assert (in_u64 head) as Hu by (apply Hsep; by left).
  pose proof (Hind [] _ (list_init_dlist m head Hu) ltac:(set_solver) Hrun) as Hd.
  split; [exact Hd|]. by apply list_empty_spec.
Qed.

Lemma klist_refines_witness :
  let m' := fold_left (λ m o, run_list_op 64 o m)
              [PushBack 128; PushBack 96; PushBack 160; Remove 96] (list_init 64 ∅) in
  dlist m' 64 [128; 160] ∧ list_empty 64 m' = false.
Proof.
  apply (klist_refines [PushBack 128; PushBack 96; PushBack 160; Remove 96] ∅ 64
           [96; 128; 160] [128; 160]).
  - apply (bool_decide_unpack _). by vm_compute.
  - split.
    + intros x Hx. unfold in_u64. set_unfold in Hx. lia.
    + intros x y Hx Hy Hne. unfold apart. set_unfold in Hx. set_unfold in Hy. lia.
  - repeat constructor; simpl; set_solver.
  - reflexivity.
Defined.

(** Reference counts: the [put] that matches the last outstanding reference,
    and no other, reports that the object is to be released. *)
Theorem refcount_last (gets puts : nat) :
  (puts <= gets)%nat → Z.of_nat gets < 2 ^ 64 - 1 →
  let acquired := Nat.iter gets refcount_get refcount_init in
  let value := Nat.iter puts (λ v, snd (refcount_put v)) acquired in
  value = 1 + Z.of_nat (gets - puts) ∧
  fst (refcount_put value) = bool_decide (puts = gets).
Proof.
  intros Hp Hg. cbv zeta.
  assert (∀ k, Z.of_nat k < 2 ^ 64 - 1 → Nat.iter k refcount_get refcount_init = 1 + Z.of_nat k) as H1.
  { induction k as [|k IH]; intros Hk; [done|]. simpl. rewrite IH by lia.
    unfold refcount_get. rewrite u64_small by (unfold in_u64; lia). lia. }
  assert (∀ k, (k <= gets)%nat →
    Nat.iter k (λ v, snd (refcount_put v)) (1 + Z.of_nat gets) = 1 + Z.of_nat (gets - k)) as H2.
  { induction k as [|k IH]; intros Hk; [simpl; f_equal; lia|]. rewrite Nat.iter_succ, IH by lia.
    unfold refcount_put. cbn [snd]. rewrite u64_small by (unfold in_u64; lia). lia. }
  rewrite H1, H2 by lia. split; [done|]. unfold refcount_put. cbn [fst].
  rewrite u64_small by (unfold in_u64; lia).
  destruct (decide (puts = gets)) as [->|Hne].
  - rewrite bool_decide_true by done. apply Z.eqb_eq. lia.
  - rewrite bool_decide_false by done. apply Z.eqb_neq. lia.
Qed.

Lemma refcount_last_witness :
  fst (refcount_put (Nat.iter 2 (λ v, snd (refcount_put v)) (Nat.iter 2 refcount_get refcount_init)))
  = true.
Proof. apply (refcount_last 2 2); lia. Defined.
