(* ===== verification/Ring.v ===== *)
(** Ring buffers: what [src/kernel/log.c] and [src/fs/pipe.c] share.  [ring_holds]
    says that [buf], read from [start] and wrapping at its end, begins with
    [content]. *)
From S2P Require Import Prelude.

(** [a[i] = v] and [a[i]] on an array; the index is in range wherever the
    components use them. *)
Definition put (buf : list Z) (i v : Z) : list Z := <[Z.to_nat i := v]> buf.
Definition get (buf : list Z) (i : Z) : Z := nth (Z.to_nat i) buf 0.

Record ring_holds (cap : Z) (buf : list Z) (start : Z) (content : list Z) : Prop := {
  rh_length : Z.of_nat (length buf) = cap;
  rh_fits : Z.of_nat (length content) <= cap;
  rh_start : 0 <= start < cap;
  rh_at : ∀ i x, content !! i = Some x → buf !! Z.to_nat ((start + Z.of_nat i) mod cap) = Some x;
}.

Section Ring.
Context (cap : Z).

Lemma mod_inj s i j :
  0 <= i < cap → 0 <= j < cap → (s + i) mod cap = (s + j) mod cap → i = j.
Proof.
  intros Hi Hj H. assert (0 < cap) as Hc by lia.
  pose proof (Z.div_mod (s + i) cap ltac:(lia)). pose proof (Z.div_mod (s + j) cap ltac:(lia)).
  assert (i - j = cap * ((s + i) / cap - (s + j) / cap)) by lia.
  assert ((s + i) / cap - (s + j) / cap = 0) by nia. nia.
Qed.

Lemma ring_empty buf start : Z.of_nat (length buf) = cap → 0 <= start < cap →
  ring_holds cap buf start [].
Proof. intros Hl Hs. split; [done|simpl; lia|done|]. by intros i x. Qed.

(** Storing behind the content. *)
Lemma ring_push buf start content v :
  ring_holds cap buf start content → Z.of_nat (length content) < cap →
  ring_holds cap (put buf ((start + Z.of_nat (length content)) mod cap) v) start (content ++ [v]).
Proof.
  intros [Hl Hf Hs Hat] Hlt. assert (0 < cap) as Hc by lia.
  pose proof (Z.mod_pos_bound (start + Z.of_nat (length content)) cap Hc).
  split; [by unfold put; rewrite length_insert|rewrite length_app; simpl; lia|done|].
  intros i x. unfold put. destruct (decide (i = length content)) as [->|Hi].
  - rewrite lookup_app_r, Nat.sub_diag by lia. intros [= <-].
    apply list_lookup_insert_eq. lia.
  - intros Hx. pose proof (lookup_lt_Some _ _ _ Hx) as Hil. rewrite length_app in Hil. simpl in Hil.
    rewrite lookup_app_l in Hx by lia. rewrite list_lookup_insert_ne; [by apply Hat|].
    pose proof (Z.mod_pos_bound (start + Z.of_nat i) cap Hc). intros E.
    apply Z2Nat.inj in E; [|lia..]. apply mod_inj in E; lia.
Qed.

(** Dropping the first element. *)
Lemma ring_pop buf start x content :
  ring_holds cap buf start (x :: content) →
  get buf start = x ∧ ring_holds cap buf ((start + 1) mod cap) content.
Proof.
  intros [Hl Hf Hs Hat]. simpl in Hf. assert (0 < cap) as Hc by lia. split.
  - specialize (Hat 0%nat x eq_refl). rewrite Z.add_0_r, Z.mod_small in Hat by lia.
    unfold get. by apply nth_lookup_Some.
  - split; [done|lia|by apply Z.mod_pos_bound|]. intros i y Hy.
    specialize (Hat (S i) y Hy). rewrite Zplus_mod_idemp_l.
    replace (start + 1 + Z.of_nat i) with (start + Z.of_nat (S i)) by lia. done.
Qed.

(** Reading without consuming. *)
Lemma ring_read buf start content n :
  ring_holds cap buf start content → (n <= length content)%nat →
  map (λ i, get buf ((start + Z.of_nat i) mod cap)) (seq 0 n) = take n content.
Proof.
  intros Hr Hn. apply list_eq. intros i. destruct (decide (i < n)%nat) as [Hi|Hi].
  - rewrite lookup_take_lt by done. destruct (lookup_lt_is_Some_2 content i) as [x Hx]; [lia|].
    rewrite Hx. change (map ?f ?l) with (f <$> l). rewrite list_lookup_fmap, lookup_seq_lt by done.
    simpl. f_equal. unfold get. apply nth_lookup_Some. by apply (rh_at _ _ _ _ Hr).
  - rewrite lookup_take_ge by lia. apply lookup_ge_None. rewrite length_map, length_seq. lia.
Qed.
End Ring.

(** The last [n] elements of a list. *)
Definition lastn (n : nat) (l : list Z) : list Z := drop (length l - n) l.

Lemma lastn_short n l : (length l <= n)%nat → lastn n l = l.
Proof. intros. unfold lastn. by replace (length l - n)%nat with 0%nat by lia. Qed.

Lemma lastn_length n l : length (lastn n l) = Nat.min n (length l).
Proof. unfold lastn. rewrite length_drop. lia. Qed.

Lemma lastn_lastn_app n l k : lastn n (lastn n l ++ k) = lastn n (l ++ k).
Proof.
  unfold lastn. rewrite !length_app, length_drop.
  destruct (decide (length l <= n)%nat) as [Hl|Hl].
  { replace (length l - n)%nat with 0%nat by lia. rewrite drop_0. f_equal. lia. }
  assert (l ++ k = take (length l - n) l ++ drop (length l - n) l ++ k) as Hs
    by (by rewrite app_assoc, take_drop).
  rewrite Hs, (drop_app_ge (take _ _)); rewrite length_take; [|lia].
  f_equal. lia.
Qed.
