(* ===== verification/Log.v ===== *)
(** [src/kernel/log.c]: the kernel's log ring, under its spinlock. *)
From S2P Require Import Prelude Machine Ring.

(** * Spinlocks ([src/kernel/sync.c])

    [locked] is the lock word.  On the single hart, with interrupts off, nobody
    else can release a lock that is found taken: [spin_lock] then spins for
    ever, which is [None]. *)
Definition spinlock_init : Z := 0.
Definition spin_lock (locked : Z) : option Z := if locked =? 0 then Some 1 else None.
Definition spin_unlock (locked : Z) : Z := 0.

Abbreviation LOG_CAPACITY := 1024 (only parsing).

Record log_state := mk_log { buffer : list Z; head : Z; count : Z; lock : Z }.

Definition log_init (g : log_state) : log_state := mk_log (buffer g) 0 0 spinlock_init.

Fixpoint log_bytes (data : list Z) (g : log_state) : log_state :=
  match data with
  | [] => g
  | c :: rest =>
      let buffer := put (buffer g) (head g) c in
      let head := (head g + 1) mod LOG_CAPACITY in
      let count := if count g <? LOG_CAPACITY then count g + 1 else count g in
      log_bytes rest (mk_log buffer head count (lock g))
  end.

Definition set_lock (v : Z) (g : log_state) : log_state :=
  mk_log (buffer g) (head g) (count g) v.

Definition log_write (data : list Z) (s : kstate) (g : log_state)
    : option (kstate * log_state) :=
  let '(flags, s) := irq_save s in
  match spin_lock (lock g) with
  | None => None
  | Some v =>
      let g := log_bytes data (set_lock v g) in
      Some (irq_restore flags s, set_lock (spin_unlock (lock g)) g)
  end.

(** The bytes stored through [data] and their number. *)
Definition log_read (capacity : Z) (s : kstate) (g : log_state)
    : option (list Z * Z * kstate * log_state) :=
  let '(flags, s) := irq_save s in
  match spin_lock (lock g) with
  | None => None
  | Some v =>
      let g := set_lock v g in
      let amount := if count g <? capacity then count g else capacity in
      let start := (head g + LOG_CAPACITY - count g) mod LOG_CAPACITY in
      let data := map (λ i, get (buffer g) ((start + Z.of_nat i) mod LOG_CAPACITY))
                    (seq 0 (Z.to_nat amount)) in
      Some (data, amount, irq_restore flags s, set_lock (spin_unlock (lock g)) g)
  end.

(** * Invariant *)

(** The ring holds [content], oldest byte first. *)
Record log_rep (g : log_state) (content : list Z) : Prop := {
  lr_ring : ring_holds LOG_CAPACITY (buffer g)
              ((head g + LOG_CAPACITY - count g) mod LOG_CAPACITY) content;
  lr_count : count g = Z.of_nat (length content);
  lr_head : 0 <= head g < LOG_CAPACITY;
}.

Lemma log_init_rep g : Z.of_nat (length (buffer g)) = LOG_CAPACITY → log_rep (log_init g) [].
Proof. intros H. split; simpl; [apply ring_empty; [done|div_lia]|done|lia]. Qed.

Lemma log_byte_rep g content c :
  log_rep g content →
  log_rep (mk_log (put (buffer g) (head g) c) ((head g + 1) mod LOG_CAPACITY)
             (if count g <? LOG_CAPACITY then count g + 1 else count g) (lock g))
    (lastn (Z.to_nat LOG_CAPACITY) (content ++ [c])).
Proof.
  intros [Hr Hc Hh]. pose proof (rh_fits _ _ _ _ Hr) as Hf.
  destruct (Z.ltb_spec (count g) LOG_CAPACITY) as [Hlt|Hge].
  - rewrite lastn_short by (rewrite length_app; simpl; lia).
    pose proof (ring_push _ _ _ _ c Hr ltac:(lia)) as Hp.
    replace ((_ mod LOG_CAPACITY + Z.of_nat (length content)) mod LOG_CAPACITY) with (head g)
      in Hp by div_lia.
    split; simpl; [|rewrite length_app; simpl; lia|div_lia].
    by replace (((head g + 1) mod LOG_CAPACITY + LOG_CAPACITY - (count g + 1)) mod LOG_CAPACITY)
      with ((head g + LOG_CAPACITY - count g) mod LOG_CAPACITY) by div_lia.
  - assert (length content = Z.to_nat LOG_CAPACITY) as Hfull by lia.
    destruct content as [|x content]; [done|].
    destruct (ring_pop _ _ _ _ _ Hr) as [_ Hr']. simpl in Hfull.
    pose proof (ring_push _ _ _ _ c Hr' ltac:(lia)) as Hp.
    replace (((_ mod LOG_CAPACITY + 1) mod LOG_CAPACITY + Z.of_nat (length content))
      mod LOG_CAPACITY) with (head g) in Hp by div_lia.
    assert (lastn (Z.to_nat LOG_CAPACITY) ((x :: content) ++ [c]) = content ++ [c]) as ->.
    { unfold lastn. rewrite length_app.
      replace (length (x :: content) + length [c] - Z.to_nat LOG_CAPACITY)%nat with 1%nat
        by (simpl length; lia). done. }
    split; simpl; [|rewrite length_app; simpl in *; lia|div_lia].
    by replace (((head g + 1) mod LOG_CAPACITY + LOG_CAPACITY - count g) mod LOG_CAPACITY)
      with (((head g + LOG_CAPACITY - count g) mod LOG_CAPACITY + 1) mod LOG_CAPACITY) by div_lia.
Qed.

Lemma log_bytes_rep data g content :
  log_rep g content →
  log_rep (log_bytes data g) (lastn (Z.to_nat LOG_CAPACITY) (content ++ data)) ∧
  lock (log_bytes data g) = lock g.
Proof.
  revert g content. induction data as [|c data IH]; intros g content Hr; cbn [log_bytes].
  - rewrite app_nil_r, lastn_short; [done|].
    pose proof (rh_fits _ _ _ _ (lr_ring _ _ Hr)). lia.
  - destruct (IH _ _ (log_byte_rep g content c Hr)) as [H1 H2]. split; [|exact H2].
    rewrite lastn_lastn_app, <- app_assoc in H1. exact H1.
Qed.

(** A history of writes. *)
Fixpoint log_writes (history : list (list Z)) (s : kstate) (g : log_state)
    : option (kstate * log_state) :=
  match history with
  | [] => Some (s, g)
  | data :: rest =>
      match log_write data s g with
      | Some (s, g) => log_writes rest s g
      | None => None
      end
  end.

Lemma log_writes_spec history s g content :
  log_rep g content → lock g = 0 →
  ∃ s' g', log_writes history s g = Some (s', g') ∧ lock g' = 0 ∧
    log_rep g' (lastn (Z.to_nat LOG_CAPACITY) (content ++ concat history)).
Proof.
  revert s g content. induction history as [|data rest IH]; intros s g content Hr Hl; cbn [log_writes concat].
  - exists s, g. split; [done|]. split; [done|]. rewrite app_nil_r, lastn_short; [done|].
    pose proof (rh_fits _ _ _ _ (lr_ring _ _ Hr)). lia.
  - unfold log_write. destruct (irq_save s) as [flags s1]. rewrite Hl.
    change (spin_lock 0) with (Some 1). cbv beta iota zeta.
    set (g1 := set_lock _ (log_bytes _ _)).
    assert (log_rep g1 (lastn (Z.to_nat LOG_CAPACITY) (content ++ data))) as Hr1.
    { destruct (log_bytes_rep data (set_lock 1 g) content) as [H _]; [by destruct Hr; split|].
      destruct H. by split. }
    destruct (IH (irq_restore flags s1) g1 _ Hr1 eq_refl) as (s' & g' & -> & Hl' & Hr').
    exists s', g'. split; [done|]. split; [done|].
    rewrite lastn_lastn_app, <- app_assoc in Hr'. exact Hr'.
Qed.

(** After [log_init] and any writes, [log_read] returns the most recent 1024
    bytes written (all of them when fewer were), oldest first, cut to the
    caller's capacity, and never gets stuck on the lock. *)
Theorem log_read_recent (history : list (list Z)) (capacity : Z) (s : kstate) (g : log_state) :
  Z.of_nat (length (buffer g)) = LOG_CAPACITY → 0 <= capacity →
  let recent := lastn (Z.to_nat LOG_CAPACITY) (concat history) in
  ∃ s1 g1 s2 g2, log_writes history s (log_init g) = Some (s1, g1) ∧
    log_read capacity s1 g1
    = Some (take (Z.to_nat capacity) recent,
            Z.min (Z.of_nat (length recent)) capacity, s2, g2) ∧
    log_rep g2 recent ∧ lock g2 = 0.
Proof.
  intros Hb Hcap recent.
  destruct (log_writes_spec history s (log_init g) [] (log_init_rep g Hb) eq_refl)
    as (s1 & g1 & E & Hl & Hr). simpl in Hr. fold recent in Hr.
  exists s1, g1. unfold log_read. destruct (irq_save s1) as [flags s1']. rewrite Hl. simpl.
  pose proof Hr as [H1 H2 H3]. rewrite H2.
  replace (if Z.of_nat (length recent) <? capacity then _ else capacity)
    with (Z.min (Z.of_nat (length recent)) capacity)
    by (destruct (Z.ltb_spec (Z.of_nat (length recent)) capacity); lia).
  rewrite H2 in H1. rewrite (ring_read _ _ _ _ _ H1) by lia.
  assert (take (Z.to_nat (Z.min (Z.of_nat (length recent)) capacity)) recent
          = take (Z.to_nat capacity) recent) as ->.
  { destruct (Z.min_spec (Z.of_nat (length recent)) capacity) as [[Hm ->]|[Hm ->]]; [|done].
    rewrite Nat2Z.id, !firstn_all2; [done|lia|lia]. }
  eexists _, _. split; [exact E|]. split; [reflexivity|]. split; [|done].
  split; simpl; [by rewrite H2|done|done].
Qed.

Lemma log_read_recent_witness :
  ∃ s1 g1 s2 g2,
    log_writes [[104; 105]; [33]] (mk_kstate ∅ 0 0 0 0 0 0)
      (log_init (mk_log (repeat 0 1024) 7 9 1)) = Some (s1, g1) ∧
    log_read 16 s1 g1 = Some ([104; 105; 33], 3, s2, g2).
Proof.
  destruct (log_read_recent [[104; 105]; [33]] 16 (mk_kstate ∅ 0 0 0 0 0 0)
    (mk_log (repeat 0 1024) 7 9 1) ltac:(reflexivity) ltac:(lia))
    as (s1 & g1 & s2 & g2 & H1 & H2 & _).
  exists s1, g1, s2, g2. split; [exact H1|exact H2].
Defined.
