(* ===== verification/Pipe.v ===== *)
(** [src/fs/pipe.c]: the bounded pipe between two open files.  A call that has to
    wait goes to sleep on a queue and, when woken, tests its condition again
    from the start: the model ends such a call with [Slept] and the retry is
    another call of the same operation.  Threads are identified by numbers;
    each operation also returns the threads it wakes. *)
From S2P Require Import Prelude Ring Log.

Abbreviation PIPE_CAPACITY := 512 (only parsing).
Abbreviation E_PIPE := 32 (only parsing).
Abbreviation O_RDONLY := 0 (only parsing).
Abbreviation O_WRONLY := 1 (only parsing).
Abbreviation O_ACCMODE := 3 (only parsing).

Record pipe := mk_pipe {
  plock : Z;
  readable : list Z;
  writable : list Z;
  phead : Z;
  used : Z;
  reader : bool;
  writer : bool;
  data : list Z;
}.

(** How a call ends: with a result and the bytes it delivered, or asleep. *)
Inductive ending := Returned (result : Z) (bytes : list Z) | Slept.

(** The copy-out loop of [pipe_read]. *)
Fixpoint copy_out (n : nat) (data : list Z) (head : Z) : list Z * Z :=
  match n with
  | O => ([], head)
  | S n' =>
      let byte := get data head in
      let '(rest, head) := copy_out n' data ((head + 1) mod PIPE_CAPACITY) in
      (byte :: rest, head)
  end.

(** The copy-in loop of [pipe_write]; [at_] is [p->head + p->used]. *)
Fixpoint copy_in (bytes : list Z) (i : Z) (at_ : Z) (data : list Z) : list Z :=
  match bytes with
  | [] => data
  | b :: rest => copy_in rest (i + 1) at_ (put data ((at_ + i) mod PIPE_CAPACITY) b)
  end.

Definition pipe_read (thread size : Z) (p : pipe) : option (ending * list Z * pipe) :=
  if size =? 0 then Some (Returned 0 [], [], p)
  else
    match spin_lock (plock p) with
    | None => None
    | Some l =>
        if (used p =? 0) && writer p then
          Some (Slept, [],
                mk_pipe (spin_unlock l) (readable p ++ [thread]) (writable p) (phead p) (used p)
                  (reader p) (writer p) (data p))
        else
          let size := if size >? used p then used p else size in
          let '(bytes, head) := copy_out (Z.to_nat size) (data p) (phead p) in
          Some (Returned size bytes, writable p,
                mk_pipe (spin_unlock l) (readable p) [] head (used p - size)
                  (reader p) (writer p) (data p))
    end.

(** [buffer] holds the [size] bytes to write. *)
Definition pipe_write (thread : Z) (buffer : list Z) (p : pipe)
    : option (ending * list Z * pipe) :=
  let size := Z.of_nat (length buffer) in
  if size =? 0 then Some (Returned 0 [], [], p)
  else
    match spin_lock (plock p) with
    | None => None
    | Some l =>
        if (used p =? PIPE_CAPACITY) && reader p then
          Some (Slept, [],
                mk_pipe (spin_unlock l) (readable p) (writable p ++ [thread]) (phead p) (used p)
                  (reader p) (writer p) (data p))
        else if negb (reader p) then
          Some (Returned (- E_PIPE) [], [],
                mk_pipe (spin_unlock l) (readable p) (writable p) (phead p) (used p)
                  (reader p) (writer p) (data p))
        else
          let size := if size >? PIPE_CAPACITY - used p then PIPE_CAPACITY - used p else size in
          let data := copy_in (take (Z.to_nat size) buffer) 0 (phead p + used p) (data p) in
          Some (Returned size [], readable p,
                mk_pipe (spin_unlock l) [] (writable p) (phead p) (used p + size)
                  (reader p) (writer p) data)
    end.

(** Closing the end opened with [flags]; the boolean says whether the pipe is
    to be freed. *)
Definition pipe_release (flags : Z) (p : pipe) : option (bool * list Z * pipe) :=
  match spin_lock (plock p) with
  | None => None
  | Some l =>
      let closes_reader := Z.land flags O_ACCMODE =? O_RDONLY in
      let reader := if closes_reader then false else reader p in
      let writer := if closes_reader then writer p else false in
      let last := negb reader && negb writer in
      Some (last, readable p ++ writable p,
            mk_pipe (spin_unlock l) [] [] (phead p) (used p) reader writer (data p))
  end.

(** The object [pipe_create] hands to its two files: zeroed by [kmalloc], its
    lock and queues initialised and both ends open. *)
Definition pipe_new : pipe :=
  mk_pipe spinlock_init [] [] 0 0 true true (repeat 0 (Z.to_nat PIPE_CAPACITY)).

(** * Invariant *)

Record pipe_rep (p : pipe) (content : list Z) : Prop := {
  pp_ring : ring_holds PIPE_CAPACITY (data p) (phead p) content;
  pp_used : used p = Z.of_nat (length content);
  pp_lock : plock p = 0;
  pp_readers_wait : readable p ≠ [] → used p = 0 ∧ writer p = true;
  pp_writers_wait : writable p ≠ [] → used p = PIPE_CAPACITY ∧ reader p = true;
}.

Lemma pipe_new_rep : pipe_rep pipe_new [].
Proof. split; try done. Qed.

Lemma copy_out_spec n data head content :
  ring_holds PIPE_CAPACITY data head content → (n <= length content)%nat →
  ∃ head', copy_out n data head = (take n content, head') ∧
    ring_holds PIPE_CAPACITY data head' (drop n content).
Proof.
  revert head content. induction n as [|n IH]; intros head content Hr Hn.
  { exists head. by rewrite drop_0. }
  destruct content as [|x content]; [simpl in Hn; lia|].
  destruct (ring_pop _ _ _ _ _ Hr) as [Hx Hr'].
  destruct (IH _ _ Hr') as (head' & E & Hr''); [simpl in Hn; lia|].
  exists head'. cbn [copy_out]. rewrite E, Hx. done.
Qed.

Lemma copy_in_spec bytes i at_ head data content :
  ring_holds PIPE_CAPACITY data head content →
  at_ + i = head + Z.of_nat (length content) →
  Z.of_nat (length content + length bytes) <= PIPE_CAPACITY →
  ring_holds PIPE_CAPACITY (copy_in bytes i at_ data) head (content ++ bytes).
Proof.
  revert i data content. induction bytes as [|b bytes IH]; intros i data content Hr Hat Hl.
  { by rewrite app_nil_r. }
  cbn [copy_in]. rewrite cons_middle, app_assoc. apply IH.
  - rewrite Hat. apply ring_push; [done|]. simpl in Hl. lia.
  - rewrite length_app. simpl. lia.
  - rewrite length_app. simpl in *. lia.
Qed.

(** ** Each operation *)

Lemma pipe_read_spec thread size p content :
  pipe_rep p content → 0 < size →
  (used p = 0 ∧ writer p = true ∧ ∃ p', pipe_read thread size p = Some (Slept, [], p') ∧
     pipe_rep p' content) ∨
  (¬ (used p = 0 ∧ writer p = true) ∧
   ∃ p', let n := Z.min size (used p) in
     pipe_read thread size p = Some (Returned n (take (Z.to_nat n) content), writable p, p') ∧
     pipe_rep p' (drop (Z.to_nat n) content) ∧ writer p' = writer p ∧ reader p' = reader p).
Proof.
  intros [Hr Hu Hl Hrw Hww] Hs. unfold pipe_read. destruct (Z.eqb_spec size 0); [lia|].
  rewrite Hl. change (spin_lock 0) with (Some 1). cbv iota.
  destruct (Z.eqb_spec (used p) 0) as [E0|E0], (writer p) eqn:Ew; bsimpl.
  1: { left. split; [done|]. split; [done|]. eexists. split; [done|]. by split. }
  all: right; (split; [naive_solver|]); cbv zeta;
    (replace (if size >? used p then used p else size) with (Z.min size (used p))
      by (destruct (Z.gtb_spec size (used p)); lia));
    destruct (copy_out_spec (Z.to_nat (Z.min size (used p))) (data p) (phead p) content Hr)
      as (head' & -> & Hr'); [lia|];
    eexists; (split; [done|]); (split; [|done]); split; simpl; try done;
    [rewrite length_drop; lia|intros H; destruct (Hrw H); done || lia].
Qed.

Lemma pipe_write_spec thread buffer p content :
  pipe_rep p content → buffer ≠ [] →
  (reader p = true ∧ used p = PIPE_CAPACITY ∧
     ∃ p', pipe_write thread buffer p = Some (Slept, [], p') ∧ pipe_rep p' content) ∨
  (reader p = false ∧ ∃ p', pipe_write thread buffer p = Some (Returned (- E_PIPE) [], [], p') ∧
     pipe_rep p' content) ∨
  (reader p = true ∧ used p < PIPE_CAPACITY ∧
   ∃ p', let n := Z.min (Z.of_nat (length buffer)) (PIPE_CAPACITY - used p) in
     pipe_write thread buffer p = Some (Returned n [], readable p, p') ∧ 0 < n ∧
     pipe_rep p' (content ++ take (Z.to_nat n) buffer) ∧ writer p' = writer p ∧ reader p' = true).
Proof.
  intros [Hr Hu Hl Hrw Hww] Hs. pose proof (rh_fits _ _ _ _ Hr) as Hfit. unfold pipe_write.
  assert (0 < Z.of_nat (length buffer)) as Hpos by (destruct buffer; [done|simpl; lia]).
  destruct (Z.eqb_spec (Z.of_nat (length buffer)) 0); [lia|].
  rewrite Hl. change (spin_lock 0) with (Some 1). cbv iota.
  destruct (reader p) eqn:Er.
  - destruct (Z.eqb_spec (used p) PIPE_CAPACITY) as [E|E]; bsimpl.
    + left. split; [done|]. split; [done|]. eexists. split; [done|]. by split.
    + right. right. split; [done|]. split; [lia|]. cbv zeta.
      replace (if _ >? PIPE_CAPACITY - used p then _ else _)
        with (Z.min (Z.of_nat (length buffer)) (PIPE_CAPACITY - used p))
        by (destruct (Z.gtb_spec (Z.of_nat (length buffer)) (PIPE_CAPACITY - used p)); lia).
      set (k := Z.min _ _). eexists. split; [done|]. split; [lia|]. split; [|done].
      split; simpl; try done.
      * apply copy_in_spec; [done|lia|]. rewrite length_take. lia.
      * rewrite length_app, length_take. lia.
      * intros H. destruct (Hww H). lia.
  - rewrite andb_false_r. bsimpl. right. left. split; [done|]. eexists. split; [done|]. by split.
Qed.

Lemma pipe_release_spec flags p content :
  pipe_rep p content →
  ∃ last p', pipe_release flags p = Some (last, readable p ++ writable p, p') ∧
    pipe_rep p' content ∧ last = negb (reader p') && negb (writer p') ∧
    reader p' = reader p && negb (Z.land flags O_ACCMODE =? O_RDONLY) ∧
    writer p' = writer p && (Z.land flags O_ACCMODE =? O_RDONLY).
Proof.
  intros [Hr Hu Hl Hrw Hww]. unfold pipe_release. rewrite Hl.
  change (spin_lock 0) with (Some 1). cbv iota. eexists _, _. split; [done|].
  split; [by split|]. split; [done|]. simpl.
  destruct (Z.land flags O_ACCMODE =? O_RDONLY), (reader p), (writer p); done.
Qed.

(** * Histories *)

Inductive call := Read (thread : Z) (size : nat) | Write (thread : Z) (buffer : list Z)
  | Close (flags : Z).

(** One call; the bytes it delivered and the bytes it accepted. *)
Definition run_call (c : call) (p : pipe) : option (list Z * list Z * pipe) :=
  match c with
  | Read thread size =>
      match pipe_read thread (Z.of_nat size) p with
      | Some (Returned _ bytes, _, p) => Some (bytes, [], p)
      | Some (Slept, _, p) => Some ([], [], p)
      | None => None
      end
  | Write thread buffer =>
      match pipe_write thread buffer p with
      | Some (Returned n _, _, p) => Some ([], take (Z.to_nat n) buffer, p)
      | Some (Slept, _, p) => Some ([], [], p)
      | None => None
      end
  | Close flags =>
      match pipe_release flags p with
      | Some (_, _, p) => Some ([], [], p)
      | None => None
      end
  end.

Fixpoint run_calls (cs : list call) (p : pipe) : option (list Z * list Z * pipe) :=
  match cs with
  | [] => Some ([], [], p)
  | c :: cs =>
      match run_call c p with
      | None => None
      | Some (received, sent, p) =>
          match run_calls cs p with
          | None => None
          | Some (received', sent', p) => Some (received ++ received', sent ++ sent', p)
          end
      end
  end.

Lemma run_call_spec c p content :
  pipe_rep p content →
  ∃ received sent p' content', run_call c p = Some (received, sent, p') ∧
    pipe_rep p' content' ∧ content ++ sent = received ++ content'.
Proof.
  intros Hp. destruct c as [thread size|thread buffer|flags]; unfold run_call.
  - destruct size as [|size].
    { exists [], [], p, content. rewrite app_nil_r. done. }
    destruct (pipe_read_spec thread (Z.of_nat (S size)) p content Hp ltac:(lia))
      as [(_ & _ & p' & -> & Hp')|(_ & p' & -> & Hp' & _)].
    + exists [], [], p', content. rewrite app_nil_r. done.
    + eexists _, [], p', _. split; [done|]. split; [exact Hp'|].
      by rewrite app_nil_r, take_drop.
  - destruct buffer as [|b buffer].
    { exists [], [], p, content. rewrite app_nil_r. done. }
    destruct (pipe_write_spec thread (b :: buffer) p content Hp ltac:(done))
      as [(_ & _ & p' & -> & Hp')|[(_ & p' & -> & Hp')|(_ & _ & p' & -> & _ & Hp' & _)]].
    + exists [], [], p', content. rewrite app_nil_r. done.
    + exists [], [], p', content. rewrite app_nil_r. done.
    + eexists [], _, p', _. split; [done|]. split; [exact Hp'|done].
  - destruct (pipe_release_spec flags p content Hp) as (last & p' & -> & Hp' & _).
    exists [], [], p', content. rewrite app_nil_r. done.
Qed.

Lemma run_calls_spec cs p content :
  pipe_rep p content →
  ∃ received sent p' content', run_calls cs p = Some (received, sent, p') ∧
    pipe_rep p' content' ∧ content ++ sent = received ++ content'.
Proof.
  revert p content. induction cs as [|c cs IH]; intros p content Hp.
  { exists [], [], p, content. by rewrite app_nil_r. }
  cbn [run_calls].
  destruct (run_call_spec c p content Hp) as (r1 & s1 & p1 & c1 & -> & Hp1 & E1).
  destruct (IH p1 c1 Hp1) as (r2 & s2 & p2 & c2 & -> & Hp2 & E2).
  exists (r1 ++ r2), (s1 ++ s2), p2, c2. split; [done|]. split; [done|].
  by rewrite app_assoc, E1, <- app_assoc, E2, app_assoc.
Qed.

(** C6. A pipe is a FIFO: whatever the interleaving of reads, writes and closes,
    no call blocks on the lock, and the bytes delivered are exactly the bytes
    accepted, in order, less those still in the buffer. *)
Theorem pipe_fifo (cs : list call) :
  ∃ received sent p content, run_calls cs pipe_new = Some (received, sent, p) ∧
    sent = received ++ content ∧ Z.of_nat (length content) = used p ∧
    used p <= PIPE_CAPACITY ∧ plock p = 0.
Proof.
  destruct (run_calls_spec cs pipe_new [] pipe_new_rep) as (r & s & p & c & E & [Hr Hu Hl _ _] & H).
  exists r, s, p, c. split; [done|]. split; [done|].
  pose proof (rh_fits _ _ _ _ Hr). split; [done|]. split; [lia|done].
Qed.

(** C35. No wake-up is lost: after any history, a thread asleep in one of the
    queues is there rightly: if it ran now, its call would go back to sleep. *)
Theorem pipe_no_lost_wakeup (cs : list call) (received sent : list Z) (p : pipe) :
  run_calls cs pipe_new = Some (received, sent, p) →
  (∀ thread size, thread ∈ readable p → 0 < size →
     ∃ p', pipe_read thread size p = Some (Slept, [], p')) ∧
  (∀ thread buffer, thread ∈ writable p → buffer ≠ [] →
     ∃ p', pipe_write thread buffer p = Some (Slept, [], p')).
Proof.
  intros E. destruct (run_calls_spec cs pipe_new [] pipe_new_rep) as (r & s & q & c & E' & Hp & _).
  rewrite E in E'. injection E' as <- <- <-. split.
  - intros thread size Hin Hs.
    destruct (pp_readers_wait _ _ Hp) as [H1 H2]; [intros Hnil; rewrite Hnil in Hin; inversion Hin|].
    destruct (pipe_read_spec thread size p c Hp Hs) as [(_ & _ & p' & Hr & _)|(H & _)];
      [by exists p'|tauto].
  - intros thread buffer Hin Hb.
    destruct (pp_writers_wait _ _ Hp) as [H1 H2]; [intros Hnil; rewrite Hnil in Hin; inversion Hin|].
    destruct (pipe_write_spec thread buffer p c Hp Hb)
      as [(_ & _ & p' & Hw & _)|[(H & _)|(_ & H & _)]]; [by exists p'|congruence|lia].
Qed.

Lemma pipe_no_lost_wakeup_witness :
  ∃ received sent p p', run_calls [Read 1 4; Read 2 8] pipe_new = Some (received, sent, p) ∧
    pipe_read 2 8 p = Some (Slept, [], p').
Proof.
  eexists _, _, _.
  destruct (proj1 (pipe_no_lost_wakeup [Read 1 4; Read 2 8] [] []
    (mk_pipe 0 [1; 2] [] 0 0 true true (repeat 0 512)) eq_refl) 2 8) as [p' H].
  - set_solver.
  - lia.
  - exists p'. split; [reflexivity|exact H].
Defined.

(** C36. End of file and broken pipe: in every reachable state a read of a
    positive size returns 0 exactly when the buffer is empty and the write end
    is closed, and a non-empty write returns [-E_PIPE] exactly when the read end
    is closed. *)
Theorem pipe_eof_epipe (cs : list call) (received sent : list Z) (p : pipe)
    (thread size : Z) (buffer : list Z) :
  run_calls cs pipe_new = Some (received, sent, p) → 0 < size → buffer ≠ [] →
  ((∃ bytes woken p', pipe_read thread size p = Some (Returned 0 bytes, woken, p')) ↔
   used p = 0 ∧ writer p = false) ∧
  ((∃ bytes woken p', pipe_write thread buffer p = Some (Returned (- E_PIPE) bytes, woken, p')) ↔
   reader p = false).
Proof.
  intros E Hs Hb.
  destruct (run_calls_spec cs pipe_new [] pipe_new_rep) as (r & s & q & c & E' & Hp & _).
  rewrite E in E'. injection E' as <- <- <-. pose proof (pp_used _ _ Hp) as Hu. split.
  - destruct (pipe_read_spec thread size p c Hp Hs)
      as [(H1 & H2 & p' & -> & _)|(H1 & p' & -> & _)].
    + split; [intros (? & ? & ? & ?); done|intros []; congruence].
    + split.
      * intros (? & ? & ? & [= Hn _ _ _]). destruct (writer p); [|split; [lia|done]].
        exfalso. apply H1. split; [lia|done].
      * intros [H0 _]. rewrite H0, Z.min_r by lia. by eexists _, _, _.
  - destruct (pipe_write_spec thread buffer p c Hp Hb)
      as [(H1 & _ & p' & -> & _)|[(H1 & p' & -> & _)|(H1 & H2 & p' & -> & Hn & _)]].
    + split; [intros (? & ? & ? & ?); done|congruence].
    + split; [done|]. intros _. by eexists _, _, _.
    + split; [intros (? & ? & ? & [= Hm _ _ _]); lia|congruence].
Qed.

Lemma pipe_eof_epipe_witness :
  ∃ received sent p, run_calls [Write 1 [7; 8]; Close O_WRONLY; Read 2 16] pipe_new
                     = Some (received, sent, p) ∧
    ∃ bytes woken p', pipe_read 3 4 p = Some (Returned 0 bytes, woken, p').
Proof.
  eexists _, _, _. split; [reflexivity|].
  apply (proj1 (pipe_eof_epipe [Write 1 [7; 8]; Close O_WRONLY; Read 2 16] _ _ _ 3 4 [0] eq_refl
           ltac:(lia) ltac:(discriminate))).
  split; reflexivity.
Defined.
