(* ===== verification/HeapSpec.v ===== *)
(** What the components that allocate objects see of [src/mm/heap.c]: its two
    operations, and the contract under which their theorems are proved. *)
From S2P Require Import Prelude Machine PageAlloc.

(** [kmalloc] returns 0 for NULL. *)
Class KernelHeap := {
  kmalloc : Z → kstate → Z * kstate;
  kfree : Z → kstate → kstate;
}.

(** [heap_ok U s F P L]: of the machine's pages [U], [F] are free and [P] belong to
    the heap, whose objects in use are [L].  The heap changes nothing but free
    pages, its own pages and its static variables, and depends on nothing else. *)
Class HeapContract `{KernelHeap} := {
  heap_ok : list Z → kstate → list Z → list Z → gset Z → Prop;
  heap_static : Z → Prop;
  heap_ok_free U s F P L : heap_ok U s F P L → free_rep s F;
  heap_ok_nodup U s F P L : heap_ok U s F P L → NoDup (F ++ P);
  heap_ok_sub U s F P L p : heap_ok U s F P L → p ∈ F ++ P → p ∈ U;
  heap_ok_page U s F P L p : heap_ok U s F P L → p ∈ U → page_ok p;
  heap_ok_static U s F P L p a : heap_ok U s F P L → p ∈ U → heap_static a → ¬ in_page p a;
  heap_ok_null U s F P L : heap_ok U s F P L → 0 ∉ L;
  heap_ok_object U s F P L o : heap_ok U s F P L → o ∈ L → ∃ p, p ∈ P ∧ in_page p o;
  kmalloc_ok U s F P L n : heap_ok U s F P L → 0 <= n →
    ∃ o s' F' P', kmalloc n s = (o, s') ∧
      heap_ok U s' F' P' (if o =? 0 then L else {[o]} ∪ L) ∧ (o ≠ 0 → o ∉ L) ∧
      F' ++ P' ≡ₚ F ++ P ∧ total_pages s' = total_pages s ∧
      same_on (λ a, outside (F ++ P) a ∧ ¬ heap_static a) (mem s) (mem s');
  kfree_ok U s F P L o : heap_ok U s F P L → o ∈ L →
    ∃ F' P', heap_ok U (kfree o s) F' P' (L ∖ {[o]}) ∧ F' ++ P' ≡ₚ F ++ P ∧
      total_pages (kfree o s) = total_pages s ∧
      same_on (λ a, outside (F ++ P) a ∧ ¬ heap_static a) (mem s) (mem (kfree o s));
  kfree_null s : kfree 0 s = s;
  heap_ok_transfer U s F P L s' F' : heap_ok U s F P L → free_rep s' F' →
    NoDup (F' ++ P) → (∀ p, p ∈ F' → p ∈ U) → total_pages s' = total_pages s →
    same_on (λ a, heap_static a ∨ ∃ p, p ∈ P ∧ in_page p a) (mem s) (mem s') →
    heap_ok U s' F' P L;
}.
