(* ===== verification/Heap.v ===== *)
(** [src/mm/heap.c]: the kernel heap.  Each slab is one page; its header keeps a
    magic number, the size class, the number of objects in use, the head of the
    free list threaded through the objects, and the link that chains the slabs
    of a class.  All of it is in memory. *)
From S2P Require Import Prelude Machine Runtime PageAlloc KList Log HeapSpec.

Abbreviation SLAB_MAGIC := 1397506370 (only parsing).
Abbreviation CLASS_COUNT := 8 (only parsing).
Abbreviation SLAB_SIZE := 32 (only parsing).       (* sizeof(struct slab) *)

Definition class_sizes : list Z := [16; 32; 64; 128; 256; 512; 1024; 2048].
Definition class_size (c : Z) : Z := nth (Z.to_nat c) class_sizes 0.

(** ** The fields of [struct slab] *)

Definition get_magic (m : memory) (slab : Z) : Z := load_le m slab 4.
Definition set_magic (m : memory) (slab v : Z) : memory := store_le m slab 4 v.
Definition get_class (m : memory) (slab : Z) : Z := load_le m (slab + 4) 2.
Definition set_class (m : memory) (slab v : Z) : memory := store_le m (slab + 4) 2 v.
Definition get_used (m : memory) (slab : Z) : Z := load_le m (slab + 6) 2.
Definition set_used (m : memory) (slab v : Z) : memory := store_le m (slab + 6) 2 v.
Definition get_free (m : memory) (slab : Z) : Z := load64 m (slab + 8).
Definition set_freelist (m : memory) (slab v : Z) : memory := store64 m (slab + 8) v.
Definition slab_link (slab : Z) : Z := slab + 16.
(** [container_of(node, struct slab, link)] *)
Definition slab_of_link (node : Z) : Z := node - 16.

Section Heap.
(** The addresses of the static variables. *)
Context (classes heap_lock : Z).

Definition class_head (c : Z) : Z := classes + 16 * c.

Definition take_lock (s : kstate) : option kstate :=
  match spin_lock (load_le (mem s) heap_lock 4) with
  | Some v => Some (set_mem (store_le (mem s) heap_lock 4 v) s)
  | None => None
  end.
Definition drop_lock (s : kstate) : kstate :=
  set_mem (store_le (mem s) heap_lock 4 (spin_unlock (load_le (mem s) heap_lock 4))) s.

Definition heap_init (s : kstate) : kstate :=
  let m := fold_left (λ m i, list_init (class_head i) m) [0; 1; 2; 3; 4; 5; 6; 7] (mem s) in
  set_mem (store_le m heap_lock 4 spinlock_init) s.

(** The loop that threads the objects of a new slab, [None] without fuel. *)
Fixpoint carve (fuel : nat) (slab size offset : Z) (m : memory) : option memory :=
  match fuel with
  | O => None
  | S f =>
      if offset + size <=? PAGE_SIZE then
        let object := slab + offset in
        let m := store64 m object (get_free m slab) in
        let m := set_freelist m slab object in
        carve f slab size (offset + size) m
      else Some m
  end.

(** The offset of the first object. *)
Definition first_object (size : Z) : Z :=
  Z.land (u64 (SLAB_SIZE + size - 1)) (not64 (size - 1)).

(** The slab, or 0 for NULL. *)
Definition new_slab (class_index : Z) (s : kstate) : option (Z * kstate) :=
  let '(physical, s) := page_alloc s in
  let size := class_size class_index in
  let offset := first_object size in
  if physical =? 0 then Some (0, s)
  else
    let slab := phys_to_virt physical in
    let m := memset (mem s) slab 0 (Z.to_nat SLAB_SIZE) in
    let m := set_magic m slab SLAB_MAGIC in
    let m := set_class m slab (u16 class_index) in
    let m := list_init (slab_link slab) m in
    match carve 257 slab size offset m with
    | None => None
    | Some m =>
        let m := list_push_back (class_head class_index) (slab_link slab) m in
        Some (slab, set_mem m s)
    end.

(** The first class an object of [size] bytes fits in; [CLASS_COUNT] if none. *)
Fixpoint find_class (sizes : list Z) (size index : Z) : Z :=
  match sizes with
  | [] => index
  | c :: rest => if size <=? c then index else find_class rest size (index + 1)
  end.

(** The search for a slab with a free object: 0 for none, [None] without fuel. *)
Fixpoint find_slab (fuel : nat) (head node : Z) (m : memory) : option Z :=
  match fuel with
  | O => None
  | S f =>
      if node =? head then Some 0
      else
        let candidate := slab_of_link node in
        if negb (get_free m candidate =? 0) then Some candidate
        else find_slab f head (get_next m node) m
  end.

(** A search visits each slab once, and there are no more slabs than pages. *)
Definition slab_fuel (s : kstate) : nat := S (Z.to_nat (total_pages s)).

(** [None] when a loop does not end: the spin on a taken lock, or the searches. *)
Definition kmalloc (size : Z) (s : kstate) : option (Z * kstate) :=
  let size := if size =? 0 then 1 else size in
  let class_index := find_class class_sizes size 0 in
  if class_index =? CLASS_COUNT then Some (0, s)
  else
    let '(flags, s) := irq_save s in
    match take_lock s with
    | None => None
    | Some s =>
        let head := class_head class_index in
        match find_slab (slab_fuel s) head (get_next (mem s) head) (mem s) with
        | None => None
        | Some slab =>
            match (if slab =? 0 then new_slab class_index s else Some (slab, s)) with
            | None => None
            | Some (slab, s) =>
                if slab =? 0 then Some (0, irq_restore flags (drop_lock s))
                else
                  let m := mem s in
                  let result := get_free m slab in
                  let m := set_freelist m slab (load64 m result) in
                  let m := set_used m slab (u16 (get_used m slab + 1)) in
                  let s := irq_restore flags (drop_lock (set_mem m s)) in
                  Some (result, set_mem (memset (mem s) result 0
                                           (Z.to_nat (class_size class_index))) s)
            end
        end
    end.

Definition kfree (pointer : Z) (s : kstate) : option kstate :=
  if pointer =? 0 then Some s
  else
    let base := Z.land pointer (not64 PAGE_MASK) in
    let slab := base in
    let '(flags, s) := irq_save s in
    match take_lock s with
    | None => None
    | Some s =>
        let m := mem s in
        if negb (get_magic m slab =? SLAB_MAGIC) || (get_class m slab >=? CLASS_COUNT)
           || (get_used m slab =? 0)
        then Some (irq_restore flags (drop_lock s))
        else
          let m := store64 m pointer (get_free m slab) in
          let m := set_freelist m slab pointer in
          let m := set_used m slab (u16 (get_used m slab - 1)) in
          if get_used m slab =? 0 then
            let m := list_remove (slab_link slab) m in
            let m := set_magic m slab 0 in
            let s := irq_restore flags (drop_lock (set_mem m s)) in
            Some (page_free (virt_to_phys slab) s)
          else Some (irq_restore flags (drop_lock (set_mem m s)))
    end.
End Heap.
