(* ===== verification/HeapProps.v ===== *)
(** The kernel heap of [src/mm/heap.c] hands out disjoint, aligned, zeroed objects
    and takes its pages from, and returns them to, the page allocator. *)
From S2P Require Import Prelude Machine Runtime PageAlloc KList Log Heap.

(** * The geometry of a slab *)

Definition first_offset (c : Z) : Z := first_object (class_size c).
Definition capacity (c : Z) : Z := (PAGE_SIZE - first_offset c) / class_size c.

Record class_geometry (c : Z) : Prop := {
  cg_size : 16 <= class_size c <= 2048;
  cg_header : SLAB_SIZE <= first_offset c;
  cg_aligned : first_offset c mod class_size c = 0;
  cg_page : PAGE_SIZE mod class_size c = 0;
  cg_capacity : 1 <= capacity c <= 254;
  cg_fill : first_offset c + class_size c * capacity c <= PAGE_SIZE
            < first_offset c + class_size c * capacity c + class_size c;
}.

Lemma class_geometry_ok c : 0 <= c < CLASS_COUNT → class_geometry c.
Proof.
  intros Hc. assert (c ∈ [0; 1; 2; 3; 4; 5; 6; 7]) as Hin by (set_unfold; lia).
  assert (Forall class_geometry [0; 1; 2; 3; 4; 5; 6; 7]) as H.
  { repeat constructor; vm_compute; (reflexivity || discriminate). }
  rewrite list.Forall_forall in H. by apply H.
Qed.

(** * Slabs *)

Record slab := mk_slab { sl_page : Z; sl_class : Z; sl_free : list Z }.

Definition sl_base (sl : slab) : Z := phys_to_virt (sl_page sl).

Definition is_object (base c o : Z) : Prop :=
  ∃ k, 0 <= k < capacity c ∧ o = base + first_offset c + class_size c * k.

(** Following the next pointers from [ptr] visits the objects [l]. *)
Fixpoint object_chain (m : memory) (ptr : Z) (l : list Z) : Prop :=
  match l with
  | [] => ptr = 0
  | o :: l' => ptr = o ∧ object_chain m (load64 m o) l'
  end.

Record slab_ok (m : memory) (sl : slab) : Prop := {
  so_page : page_ok (sl_page sl);
  so_class : 0 <= sl_class sl < CLASS_COUNT;
  so_magic : get_magic m (sl_base sl) = SLAB_MAGIC;
  so_index : get_class m (sl_base sl) = sl_class sl;
  so_used : get_used m (sl_base sl) = capacity (sl_class sl) - Z.of_nat (length (sl_free sl));
  so_chain : object_chain m (get_free m (sl_base sl)) (sl_free sl);
  so_nodup : NoDup (sl_free sl);
  so_objects : ∀ o, o ∈ sl_free sl → is_object (sl_base sl) (sl_class sl) o;
}.

(** The bytes on which [slab_ok] depends. *)
Definition slab_bytes (sl : slab) (a : Z) : Prop :=
  sl_base sl <= a < sl_base sl + 16 ∨ ∃ o, o ∈ sl_free sl ∧ o <= a < o + 8.

Lemma object_chain_frame m m' ptr l :
  (∀ o a, o ∈ l → o <= a < o + 8 → load8 m' a = load8 m a) →
  object_chain m ptr l → object_chain m' ptr l.
Proof.
  revert ptr. induction l as [|o l IH]; intros ptr Hm; [done|]. intros [-> Hc]. split; [done|].
  rewrite (load64_ext m m' o) by (intros b Hb; apply (Hm o); [by left|done]).
  apply IH; [|done]. intros o' a Ho. apply Hm. by right.
Qed.

Lemma slab_ok_frame m m' sl : same_on (slab_bytes sl) m m' → slab_ok m sl → slab_ok m' sl.
Proof.
  intros Hm [H1 H2 H3 H4 H5 H6 H7 H8].
  assert (∀ a, sl_base sl <= a < sl_base sl + 16 → load8 m' a = load8 m a) as Hh.
  { intros a Ha. apply Hm. by left. }
  split; try done.
  - rewrite <- H3. apply load_le_ext. intros b Hb. apply Hh. lia.
  - rewrite <- H4. apply load_le_ext. intros b Hb. apply Hh. lia.
  - rewrite <- H5. apply load_le_ext. intros b Hb. apply Hh. lia.
  - replace (get_free m' (sl_base sl)) with (get_free m (sl_base sl)).
    + apply (object_chain_frame m); [|done]. intros o a Ho Ha. apply Hm. right. by exists o.
    + symmetry. apply load64_ext. intros b Hb. apply Hh. lia.
Qed.

(** Where an object lies. *)
Lemma object_bounds base c o :
  0 <= c < CLASS_COUNT → is_object base c o →
  base + SLAB_SIZE <= o ∧ o + class_size c <= base + PAGE_SIZE.
Proof.
  intros Hc (k & Hk & ->). destruct (class_geometry_ok c Hc). nia.
Qed.

Lemma objects_apart base c o o' :
  0 <= c < CLASS_COUNT → is_object base c o → is_object base c o' → o ≠ o' →
  o + class_size c <= o' ∨ o' + class_size c <= o.
Proof.
  intros Hc (k & Hk & ->) (k' & Hk' & ->) Hne. destruct (class_geometry_ok c Hc).
  assert (k ≠ k') by congruence. set (n := class_size c) in *.
  destruct (decide (k < k')).
  - left. pose proof (Z.mul_le_mono_nonneg_l (k + 1) k' n ltac:(lia) ltac:(lia)). lia.
  - right. pose proof (Z.mul_le_mono_nonneg_l (k' + 1) k n ltac:(lia) ltac:(lia)). lia.
Qed.

Lemma object_in_page sl o a :
  0 <= sl_class sl < CLASS_COUNT → is_object (sl_base sl) (sl_class sl) o →
  o <= a < o + class_size (sl_class sl) → in_page (sl_page sl) a.
Proof.
  intros Hc Ho Ha. destruct (object_bounds _ _ _ Hc Ho). unfold in_page. fold (sl_base sl). lia.
Qed.

(** The objects of a slab, in address order. *)
Definition objects (base c : Z) : list Z :=
  (λ k, base + first_offset c + class_size c * Z.of_nat k) <$> seq 0 (Z.to_nat (capacity c)).

Lemma elem_of_objects base c o : o ∈ objects base c ↔ is_object base c o.
Proof.
  unfold objects, is_object. rewrite list_elem_of_fmap. split.
  - intros (k & -> & Hk%elem_of_seq). exists (Z.of_nat k). split; [lia|done].
  - intros (k & Hk & ->). exists (Z.to_nat k). rewrite elem_of_seq.
    split; [f_equal; f_equal; lia|lia].
Qed.

Lemma NoDup_objects base c : 0 <= c < CLASS_COUNT → NoDup (objects base c).
Proof.
  intros Hc. destruct (class_geometry_ok c Hc). apply NoDup_fmap_2_strong; [|apply NoDup_seq].
  intros x y _ _ E. nia.
Qed.

Lemma length_objects base c : length (objects base c) = Z.to_nat (capacity c).
Proof. unfold objects. by rewrite length_fmap, length_seq. Qed.

(** Any set of objects of a slab is no larger than its capacity. *)
Lemma objects_bound base c l :
  0 <= c < CLASS_COUNT → NoDup l → (∀ o, o ∈ l → is_object base c o) →
  Z.of_nat (length l) <= capacity c.
Proof.
  intros Hc Hnd Hl. destruct (class_geometry_ok c Hc).
  assert (length l <= length (objects base c))%nat as Hle.
  { apply submseteq_length, NoDup_submseteq; [done|]. intros o Ho. by apply elem_of_objects, Hl. }
  rewrite length_objects in Hle. lia.
Qed.

(** ** Taking an object out of a slab and putting it back *)

(** Header fields are read back from the bytes that hold them. *)
Lemma load_le_store_out m a n b k v :
  b + Z.of_nat k <= a ∨ a + Z.of_nat n <= b → load_le (store_le m a n v) b k = load_le m b k.
Proof. intros Hd. apply load_le_ext. intros c Hc. apply load8_store_le_out. lia. Qed.

Lemma load_le_store64 m a b k v :
  b + Z.of_nat k <= a ∨ a + 8 <= b → load_le (store64 m a v) b k = load_le m b k.
Proof. intros Hd. apply load_le_ext. intros c Hc. apply load8_store64_out. lia. Qed.

Lemma load64_store_le m a n b v :
  b + 8 <= a ∨ a + Z.of_nat n <= b → load64 (store_le m a n v) b = load64 m b.
Proof. intros Hd. apply load64_ext. intros c Hc. apply load8_store_le_out. lia. Qed.

(** [slab->free = next; slab->used = used;] *)
Definition set_counts (m : memory) (base next used : Z) : memory :=
  set_used (set_freelist m base next) base used.

Lemma set_counts_frame m base next used a :
  ¬ (base + 6 <= a < base + 16) → load8 (set_counts m base next used) a = load8 m a.
Proof.
  intros Ha. unfold set_counts, set_used, set_freelist.
  rewrite load8_store_le_out, load8_store64_out by lia. done.
Qed.

Lemma set_counts_ok m sl next used l :
  slab_ok m sl → in_u64 next → object_chain m next l → NoDup l →
  (∀ o, o ∈ l → is_object (sl_base sl) (sl_class sl) o) →
  used = capacity (sl_class sl) - Z.of_nat (length l) →
  slab_ok (set_counts m (sl_base sl) next used) (mk_slab (sl_page sl) (sl_class sl) l).
Proof.
  intros [S1 S2 S3 S4 S5 S6 S7 S8] Hn Hc Hnd Ho Hu.
  destruct (class_geometry_ok _ S2). unfold set_counts.
  split; try done; unfold get_magic, get_class, get_used, get_free, set_used, set_freelist in *;
    change (sl_base (mk_slab (sl_page sl) (sl_class sl) l)) with (sl_base sl);
    cbn [sl_free sl_class].
  - by rewrite load_le_store_out, load_le_store64 by lia.
  - by rewrite load_le_store_out, load_le_store64 by lia.
  - rewrite load_le_store_le, Hu. apply Z.mod_small.
    pose proof (objects_bound _ _ _ S2 Hnd Ho). simpl. lia.
  - rewrite load64_store_le, load64_store64_eq by (done || lia).
    apply (object_chain_frame m); [|done]. intros o a Hin Ha.
    destruct (object_bounds _ _ _ S2 (Ho o Hin)).
    rewrite load8_store_le_out, load8_store64_out by lia. done.
Qed.

Lemma slab_next_range m sl : slab_ok m sl → in_u64 (get_free m (sl_base sl)).
Proof. intros _. apply load64_range. Qed.

Lemma pop_ok m sl o l :
  slab_ok m sl → sl_free sl = o :: l →
  get_free m (sl_base sl) = o ∧
  slab_ok (set_counts m (sl_base sl) (load64 m o) (get_used m (sl_base sl) + 1))
    (mk_slab (sl_page sl) (sl_class sl) l).
Proof.
  intros Hok Hf. pose proof Hok as [S1 S2 S3 S4 S5 S6 S7 S8]. rewrite Hf in *.
  destruct S6 as [Eo Hc]. split; [done|]. apply NoDup_cons in S7 as [Hno Hnd].
  apply set_counts_ok; try done.
  - apply load64_range.
  - intros o' Ho'. apply S8. by right.
  - rewrite S5. cbn [length]. lia.
Qed.

(** Putting back an object that is in use. *)
Lemma push_ok m sl o :
  slab_ok m sl → is_object (sl_base sl) (sl_class sl) o → o ∉ sl_free sl → in_u64 o →
  let m1 := store64 m o (get_free m (sl_base sl)) in
  0 < get_used m (sl_base sl) ∧
  slab_ok (set_counts m1 (sl_base sl) o (get_used m (sl_base sl) - 1))
    (mk_slab (sl_page sl) (sl_class sl) (o :: sl_free sl)).
Proof.
  intros Hok Ho Hn Hu m1. pose proof Hok as [S1 S2 S3 S4 S5 S6 S7 S8].
  pose proof (object_bounds _ _ _ S2 Ho) as Hb.
  destruct (class_geometry_ok _ S2).
  assert (NoDup (o :: sl_free sl)) as Hnd by (by constructor).
  assert (∀ o', o' ∈ o :: sl_free sl → is_object (sl_base sl) (sl_class sl) o') as Hall.
  { intros o' [->|Ho']%elem_of_cons; auto. }
  pose proof (objects_bound _ _ _ S2 Hnd Hall) as Hlen. cbn [length] in Hlen.
  assert (same_on (slab_bytes sl) m m1) as Hm1.
  { intros a Ha. apply load8_store64_out. destruct Ha as [Ha|(o' & Ho' & Ha)]; [lia|].
    destruct (objects_apart _ _ o o' S2 Ho (S8 _ Ho')); [by intros ->|lia|lia]. }
  split; [lia|]. apply set_counts_ok; try done.
  - by apply (slab_ok_frame m).
  - split; [done|]. unfold m1. rewrite load64_store64_eq by apply load64_range.
    apply (object_chain_frame m); [|done]. intros o' a Ho' Ha. apply Hm1. right. by exists o'.
  - rewrite S5. cbn [length]. lia.
Qed.

(** ** Carving a new slab *)

Lemma carve_spec fuel base c k l m :
  0 <= c < CLASS_COUNT → in_u64 base → base + PAGE_SIZE <= 2 ^ 64 → 0 <= k <= capacity c →
  capacity c - k < Z.of_nat fuel →
  object_chain m (get_free m base) l → NoDup l → Z.of_nat (length l) = k →
  (∀ o, o ∈ l → ∃ j, 0 <= j < k ∧ o = base + first_offset c + class_size c * j) →
  ∃ m' l', carve fuel base (class_size c) (first_offset c + class_size c * k) m = Some m' ∧
    object_chain m' (get_free m' base) l' ∧ NoDup l' ∧ Z.of_nat (length l') = capacity c ∧
    (∀ o, o ∈ l' → is_object base c o) ∧
    same_on (λ a, ¬ (base + 8 <= a < base + 16) ∧ ¬ (base + SLAB_SIZE <= a < base + PAGE_SIZE))
      m m'.
Proof.
  intros Hc Hb Hb' Hk Hf. destruct (class_geometry_ok c Hc) as [G1 G2 G3 G4 G5 G6].
  revert k l m Hk Hf. induction fuel as [|fuel IH]; intros k l m Hk Hf Hch Hnd Hlen Hobj; [lia|].
  cbn [carve]. set (n := class_size c) in *. set (off := first_offset c) in *.
  destruct (decide (k = capacity c)) as [->|Hne].
  { rewrite (proj2 (Z.leb_gt _ _)) by lia. exists m, l. split; [done|]. split; [done|].
    split; [done|]. split; [done|]. split; [|done]. intros o Ho. by apply Hobj. }
  pose proof (Z.mul_le_mono_nonneg_l (k + 1) (capacity c) n ltac:(lia) ltac:(lia)) as Hle.
  rewrite (proj2 (Z.leb_le _ _)) by lia. replace (off + n * k + n) with (off + n * (k + 1)) by lia.
  set (o := base + (off + n * k)).
  set (m1 := set_freelist (store64 m o (get_free m base)) base o).
  pose proof (Z.mul_nonneg_nonneg n k ltac:(lia) ltac:(lia)) as Hnk.
  assert (∀ o', o' ∈ l → o' + n <= o) as Hbelow.
  { intros o' Ho'. destruct (Hobj o' Ho') as (j & Hj & ->). unfold o.
    pose proof (Z.mul_le_mono_nonneg_l (j + 1) k n ltac:(lia) ltac:(lia)). lia. }
  assert (∀ o', o' ∈ l → base + SLAB_SIZE <= o') as Habove.
  { intros o' Ho'. destruct (Hobj o' Ho') as (j & Hj & ->).
    pose proof (Z.mul_nonneg_nonneg n j ltac:(lia) ltac:(lia)). lia. }
  assert (∀ a, a < base + 8 ∨ base + 16 <= a < o ∨ o + 8 <= a → load8 m1 a = load8 m a) as Hm1.
  { intros a Ha. unfold m1, set_freelist. rewrite !load8_store64_out by (unfold o in *; lia). done. }
  destruct (IH (k + 1) (o :: l) m1) as (m' & l' & E & H1 & H2 & H3 & H4 & H5).
  - lia.
  - lia.
  - unfold m1, get_free, set_freelist. unfold in_u64 in Hb.
    rewrite load64_store64_eq by (unfold in_u64, o; lia). split; [done|].
    rewrite load64_store64_ne, load64_store64_eq; [|apply load64_range|unfold o; lia].
    apply (object_chain_frame m); [|done]. intros o' a Ho' Ha. apply Hm1.
    pose proof (Hbelow _ Ho'). pose proof (Habove _ Ho'). lia.
  - constructor; [|done]. intros Ho. apply Hbelow in Ho. lia.
  - cbn [length]. lia.
  - intros o' [->|Ho']%elem_of_cons.
    + exists k. split; [lia|]. unfold o. lia.
    + destruct (Hobj _ Ho') as (j & Hj & ->). exists j. split; [lia|done].
  - exists m', l'. split; [done|]. do 4 (split; [done|]). intros a Ha. rewrite H5 by done.
    apply Hm1. unfold o. lia.
Qed.

(** The page [p] after the header is written and the objects are threaded. *)
Lemma fresh_slab m p c :
  page_ok p → 0 <= c < CLASS_COUNT →
  let base := phys_to_virt p in
  let m1 := list_init (slab_link base)
              (set_class (set_magic (memset m base 0 (Z.to_nat SLAB_SIZE)) base SLAB_MAGIC)
                 base (u16 c)) in
  ∃ m' l, carve 257 base (class_size c) (first_object (class_size c)) m1 = Some m' ∧
    slab_ok m' (mk_slab p c l) ∧ Z.of_nat (length l) = capacity c ∧
    same_on (λ a, ¬ in_page p a) m m'.
Proof.
  intros Hp Hc base m1. destruct (class_geometry_ok c Hc) as [G1 G2 G3 G4 G5 G6].
  assert (base = KERNEL_DIRECT_BASE + p ∧ in_u64 base ∧ base + PAGE_SIZE <= 2 ^ 64) as (Eb & Hb & Hb').
  { unfold base. destruct Hp as [Hp Ha]. rewrite phys_to_virt_page by lia. unfold in_u64. div_lia. }
  assert (∀ a, ¬ (base + 16 <= a < base + 32) → load8 m1 a
    = load8 (set_class (set_magic (memset m base 0 32) base SLAB_MAGIC) base (u16 c)) a) as Hinit.
  { intros a Ha. unfold m1, list_init, slab_link.
    rewrite load8_set_next, load8_set_prev by lia. done. }
  assert (∀ a, ¬ (base <= a < base + 32) → load8 m1 a = load8 m a) as Hm1.
  { intros a Ha. rewrite Hinit by lia. unfold set_class, set_magic.
    rewrite !load8_store_le_out, memset_load8, decide_False by lia. done. }
  destruct (carve_spec 257 base c 0 [] m1) as (m' & l & E & H1 & H2 & H3 & H4 & H5);
    [done|done|done|lia|lia| |constructor|done|set_solver|].
  { unfold object_chain, get_free. transitivity (load64 (memset m base 0 32) (base + 8)).
    - apply load64_ext. intros b Hr. rewrite Hinit by lia. unfold set_class, set_magic.
      rewrite !load8_store_le_out by lia. done.
    - apply memset_load64_zero; lia. }
  rewrite Z.mul_0_r, Z.add_0_r in E. exists m', l. split; [exact E|].
  assert (∀ a, base <= a < base + 8 → load8 m' a
    = load8 (set_class (set_magic (memset m base 0 32) base SLAB_MAGIC) base (u16 c)) a) as Hh.
  { intros a Ha. rewrite H5, Hinit by lia. done. }
  split; [split|split]; cbn [sl_page sl_class sl_free]; try done;
    unfold get_magic, get_class, get_used, sl_base; cbn [sl_page]; fold base.
  - rewrite (load_le_ext (set_class (set_magic (memset m base 0 32) base SLAB_MAGIC) base (u16 c))).
    + unfold set_class, set_magic. rewrite load_le_store_out, load_le_store_le by lia. done.
    + intros b Hr. apply Hh. lia.
  - rewrite (load_le_ext (set_class (set_magic (memset m base 0 32) base SLAB_MAGIC) base (u16 c))).
    + unfold set_class. rewrite load_le_store_le. unfold u16.
      change (256 ^ Z.of_nat 2) with (2 ^ 16). rewrite Z.mod_mod, Z.mod_small by lia. done.
    + intros b Hr. apply Hh. lia.
  - rewrite H3, Z.sub_diag.
    rewrite (load_le_ext (set_class (set_magic (memset m base 0 32) base SLAB_MAGIC) base (u16 c))).
    + unfold set_class, set_magic. rewrite !load_le_store_out by lia.
      cbn [load_le]. rewrite !memset_load8, !decide_True by lia. done.
    + intros b Hr. apply Hh. lia.
  - intros a Ha. unfold in_page in Ha. fold base in Ha. rewrite H5, Hm1 by lia. done.
Qed.

(** * The heap *)

Section Heap.
Context (classes heap_lock : Z).

Definition in_classes (a : Z) : Prop := classes <= a < classes + 16 * CLASS_COUNT.
Definition in_lock (a : Z) : Prop := heap_lock <= a < heap_lock + 4.
(** The bytes of the heap's static variables. *)
Definition static (a : Z) : Prop := in_classes a ∨ in_lock a.

(** The links of the slabs of a class, oldest first. *)
Definition links (c : Z) (H : list slab) : list Z :=
  (λ sl, slab_link (sl_base sl)) <$> filter (λ sl, sl_class sl = c) H.

(** The free pages are [F], the slabs [H]. *)
Record heap_inv (s : kstate) (F : list Z) (H : list slab) : Prop := {
  hi_free : free_rep s F;
  hi_lists : ∀ c, 0 <= c < CLASS_COUNT → dlist (mem s) (class_head classes c) (links c H);
  hi_slabs : ∀ sl, sl ∈ H → slab_ok (mem s) sl;
  hi_nodup : NoDup (F ++ (sl_page <$> H));
  hi_total : Z.of_nat (length F + length H) <= total_pages s;
  hi_static : ∀ p a, p ∈ F ++ (sl_page <$> H) → static a → ¬ in_page p a;
  hi_layout : 0 <= classes ∧ classes + 16 * CLASS_COUNT <= 2 ^ 64 ∧
    (heap_lock + 4 <= classes ∨ classes + 16 * CLASS_COUNT <= heap_lock);
}.

(** Some object of the slab is in use. *)
Definition in_use (sl : slab) : Prop :=
  Z.of_nat (length (sl_free sl)) < capacity (sl_class sl).

(** The heap at rest: nobody holds its lock, and no slab is kept for nothing. *)
Record heap_rep (s : kstate) (F : list Z) (H : list slab) : Prop := {
  hr_inv : heap_inv s F H;
  hr_lock : load_le (mem s) heap_lock 4 = 0;
  hr_used : ∀ sl, sl ∈ H → in_use sl;
}.

(** The allocator's variables are the same. *)
Record same_vars (s s' : kstate) : Prop := {
  sv_list : free_list s' = free_list s;
  sv_free : free_pages s' = free_pages s;
  sv_total : total_pages s' = total_pages s;
}.

Lemma slab_page_elem sl (F : list Z) (H : list slab) :
  sl ∈ H → sl_page sl ∈ F ++ (sl_page <$> H).
Proof. intros Hs. apply elem_of_app. right. by apply list_elem_of_fmap_2. Qed.

Lemma heap_page_ok s F H p : heap_inv s F H → p ∈ F ++ (sl_page <$> H) → page_ok p.
Proof.
  intros Hi [Hp|Hp]%elem_of_app.
  - pose proof (fr_pages _ _ (hi_free _ _ _ Hi)) as Hf. rewrite list.Forall_forall in Hf. auto.
  - apply list_elem_of_fmap in Hp as (sl & -> & Hsl). apply (so_page _ _ (hi_slabs _ _ _ Hi _ Hsl)).
Qed.

Lemma link_in_page sl a :
  slab_link (sl_base sl) <= a < slab_link (sl_base sl) + 16 → in_page (sl_page sl) a.
Proof. unfold slab_link, in_page. fold (sl_base sl). lia. Qed.

Lemma elem_of_links c H n :
  n ∈ links c H ↔ ∃ sl, sl ∈ H ∧ sl_class sl = c ∧ n = slab_link (sl_base sl).
Proof.
  unfold links. rewrite list_elem_of_fmap. split.
  - intros (sl & -> & [? ?]%list_elem_of_filter). eauto.
  - intros (sl & ? & ? & ->). exists sl. rewrite list_elem_of_filter. eauto.
Qed.

Lemma in_nodes_static c H a :
  0 <= c < CLASS_COUNT → in_nodes (class_head classes c :: links c H) a →
  in_classes a ∨ ∃ sl, sl ∈ H ∧ slab_link (sl_base sl) <= a < slab_link (sl_base sl) + 16.
Proof.
  intros Hc (n & [->|Hn]%elem_of_cons & Ha).
  - left. unfold class_head, in_classes in *. lia.
  - right. apply elem_of_links in Hn as (sl & Hsl & _ & ->). eauto.
Qed.

Lemma slab_bytes_in_page m sl a : slab_ok m sl → slab_bytes sl a → in_page (sl_page sl) a.
Proof.
  intros Hok [Ha|(o & Ho & Ha)].
  - unfold in_page. fold (sl_base sl). lia.
  - apply (so_objects _ _ Hok) in Ho. pose proof (so_class _ _ Hok) as Hc.
    apply (object_in_page sl o); [done|done|]. destruct (class_geometry_ok _ Hc). lia.
Qed.

(** Nothing but the heap's own pages and its class heads matters to it. *)
Lemma heap_inv_frame s s' F H :
  heap_inv s F H → same_vars s s' →
  same_on (λ a, in_classes a ∨ ∃ p, p ∈ F ++ (sl_page <$> H) ∧ in_page p a) (mem s) (mem s') →
  heap_inv s' F H.
Proof.
  intros [I1 I2 I3 I4 I5 I6 I7] [V1 V2 V3] Hm. split; try done.
  - apply (free_rep_frame s); try done. intros p Hp a Ha. apply Hm. right. exists p. set_solver.
  - intros c Hc. apply (dlist_frame (mem s)); [|by apply I2].
    intros a Ha. apply Hm. destruct (in_nodes_static c H a Hc Ha) as [?|(sl & Hsl & Hr)]; [by left|].
    right. exists (sl_page sl). split; [by apply slab_page_elem|]. by apply link_in_page.
  - intros sl Hsl. apply (slab_ok_frame (mem s)); [|by apply I3]. intros a Ha. apply Hm. right.
    exists (sl_page sl). split; [by apply slab_page_elem|]. by apply (slab_bytes_in_page (mem s)); [apply I3|].
  - by rewrite V3.
Qed.

(** Two slabs, or a slab and a free page, share no byte. *)
Lemma slab_page_unique s F H sl p a :
  heap_inv s F H → sl ∈ H → p ∈ F ++ (sl_page <$> H) → in_page (sl_page sl) a → in_page p a →
  p = sl_page sl.
Proof.
  intros Hi Hsl Hp H1 H2. eapply in_page_disjoint; eauto using heap_page_ok.
  eapply heap_page_ok; [done|]. by apply slab_page_elem.
Qed.

(** Changing one slab in its own page, its link excepted. *)
Lemma heap_inv_update s s' F H1 sl H2 sl' :
  heap_inv s F (H1 ++ sl :: H2) → sl_page sl' = sl_page sl → sl_class sl' = sl_class sl →
  slab_ok (mem s') sl' → same_vars s s' →
  same_on (λ a, ¬ (in_page (sl_page sl) a ∧ (a < sl_base sl + 16 ∨ sl_base sl + 32 <= a)))
    (mem s) (mem s') →
  heap_inv s' F (H1 ++ sl' :: H2).
Proof.
  intros Hi Hp Hc Hok [V1 V2 V3] Hm. pose proof Hi as [I1 I2 I3 I4 I5 I6 I7].
  assert (sl_page <$> H1 ++ sl' :: H2 = sl_page <$> H1 ++ sl :: H2) as Ep.
  { rewrite !fmap_app. cbn. by rewrite Hp. }
  assert (∀ c, links c (H1 ++ sl' :: H2) = links c (H1 ++ sl :: H2)) as El.
  { intros c. unfold links. rewrite !filter_app, !filter_cons, Hc, !fmap_app.
    case_decide; [cbn|done]. unfold sl_base. by rewrite Hp. }
  assert (sl ∈ H1 ++ sl :: H2) as Hin by (apply elem_of_app; right; by left).
  pose proof I4 as I4'. rewrite !fmap_app, fmap_cons in I4'.
  split; rewrite ?Ep; try done.
  - apply (free_rep_frame s); try done. intros p Hpf a Ha. apply Hm. intros [Hpa _].
    assert (p = sl_page sl) as ->
      by (eapply slab_page_unique; eauto; apply elem_of_app; by left).
    apply NoDup_app in I4 as (_ & I4 & _).
    apply (I4 (sl_page sl) Hpf). by apply list_elem_of_fmap_2.
  - intros c Hcc. rewrite El. apply (dlist_frame (mem s)); [|by apply I2].
    intros a Ha. apply Hm. intros [Hpa Hr].
    destruct (in_nodes_static c _ a Hcc Ha) as [Hs|(sl2 & Hsl2 & Hr2)].
    + apply (I6 (sl_page sl) a); [by apply slab_page_elem|by left|done].
    + assert (sl_page sl2 = sl_page sl) as E.
      { eapply slab_page_unique; [exact Hi|done|by apply slab_page_elem|done|by apply link_in_page]. }
      unfold slab_link, sl_base in *. rewrite E in Hr2. lia.
  - intros sl2 Hsl2. assert (sl2 = sl' ∨ sl2 ∈ H1 ++ H2) as [->|Hother]; [|done|].
    { clear -Hsl2. set_solver. }
    assert (sl2 ∈ H1 ++ sl :: H2) as Hin2 by (clear -Hother; set_solver).
    apply (slab_ok_frame (mem s)); [|by apply I3]. intros a Ha. apply Hm. intros [Hpa _].
    assert (sl_page sl2 = sl_page sl) as E.
    { eapply slab_page_unique; [exact Hi|done|by apply slab_page_elem|done|].
      by eapply slab_bytes_in_page; [apply I3|]. }
    apply NoDup_app in I4' as (_ & _ & Hd).
    rewrite (Permutation_app_comm (sl_page <$> H1)) in Hd. cbn in Hd.
    apply NoDup_cons in Hd as [Hd _]. apply Hd. rewrite <- E, <- fmap_app. apply list_elem_of_fmap_2.
    apply elem_of_app in Hother as [?|?]; apply elem_of_app; auto.
  - rewrite V3. rewrite length_app in *. cbn in *. done.
Qed.
End Heap.
