(* ===== verification/HeapThms.v ===== *)
(** The guarantees of [kmalloc] and [kfree] over the whole heap: new objects are
    aligned, zeroed and disjoint from every object in use, frees undo them, and
    pages come from and go back to the page allocator. *)
From S2P Require Import Prelude Machine Runtime PageAlloc KList Log HeapSpec Heap HeapProps.

Section Heap.
Context (classes heap_lock : Z).
Abbreviation heap_inv := (heap_inv classes heap_lock).
Abbreviation heap_rep := (heap_rep classes heap_lock).

(** ** Steps that leave the heap's structure alone *)

Lemma lock_step s F H v :
  heap_inv s F H → heap_inv (set_mem (store_le (mem s) heap_lock 4 v) s) F H.
Proof.
  intros Hi. apply (heap_inv_frame _ _ s); [done|by split|].
  intros a Ha. apply load8_store_le_out. intros Hr. destruct Ha as [Ha|(p & Hp & Ha)].
  - pose proof (hi_layout _ _ _ _ _ Hi). unfold in_classes in Ha. lia.
  - apply (hi_static _ _ _ _ _ Hi p a Hp); [|done]. right. unfold in_lock. lia.
Qed.

Lemma irq_step s s' F H :
  heap_inv s F H → mem s' = mem s → same_vars s s' → heap_inv s' F H.
Proof. intros Hi Hm Hv. apply (heap_inv_frame _ _ s); [done|done|]. by rewrite Hm. Qed.

(** Popping the first free object. *)
Lemma pop_step s F H1 sl H2 o l :
  heap_inv s F (H1 ++ sl :: H2) → sl_free sl = o :: l →
  get_free (mem s) (sl_base sl) = o ∧
  heap_inv (set_mem (set_counts (mem s) (sl_base sl) (load64 (mem s) o)
                       (u16 (get_used (mem s) (sl_base sl) + 1))) s)
    F (H1 ++ mk_slab (sl_page sl) (sl_class sl) l :: H2).
Proof.
  intros Hi Hf. assert (slab_ok (mem s) sl) as Hok.
  { apply (hi_slabs _ _ _ _ _ Hi). apply elem_of_app. right. by left. }
  destruct (pop_ok (mem s) sl o l Hok Hf) as [E Hok']. split; [done|].
  assert (u16 (get_used (mem s) (sl_base sl) + 1) = get_used (mem s) (sl_base sl) + 1) as ->.
  { apply Z.mod_small. rewrite (so_used _ _ Hok), Hf. cbn [length].
    destruct (class_geometry_ok _ (so_class _ _ Hok)).
    pose proof (objects_bound _ _ _ (so_class _ _ Hok) (so_nodup _ _ Hok) (so_objects _ _ Hok)) as Hb.
    rewrite Hf in Hb. cbn [length] in Hb. lia. }
  apply (heap_inv_update _ _ s _ F H1 sl); try done.
  intros a Ha. apply set_counts_frame. intros Hr. apply Ha. unfold in_page.
  fold (sl_base sl). lia.
Qed.

(** Writing into an object that is in use. *)
Lemma object_step s F H1 sl H2 o m :
  heap_inv s F (H1 ++ sl :: H2) → is_object (sl_base sl) (sl_class sl) o → o ∉ sl_free sl →
  same_on (λ a, ¬ (o <= a < o + class_size (sl_class sl))) (mem s) m →
  heap_inv (set_mem m s) F (H1 ++ sl :: H2).
Proof.
  intros Hi Ho Hn Hm. assert (slab_ok (mem s) sl) as Hok.
  { apply (hi_slabs _ _ _ _ _ Hi). apply elem_of_app. right. by left. }
  pose proof (so_class _ _ Hok) as Hc. pose proof (object_bounds _ _ _ Hc Ho) as Hb.
  apply (heap_inv_update _ _ s _ F H1 sl); try done.
  - cbn [mem set_mem]. apply (slab_ok_frame (mem s)); [|done]. intros a Ha. apply Hm.
    destruct Ha as [Ha|(o' & Ho' & Ha)]; [lia|].
    destruct (class_geometry_ok _ Hc).
    destruct (objects_apart _ _ o o' Hc Ho (so_objects _ _ Hok _ Ho')); [by intros ->|lia|lia].
  - intros a Ha. apply Hm. intros Hr. apply Ha.
    split; [by apply (object_in_page sl o)|]. unfold in_page. fold (sl_base sl). lia.
Qed.

(** ** Growing the heap *)

Lemma links_app c H sl :
  links c (H ++ [sl]) = if decide (sl_class sl = c) then links c H ++ [slab_link (sl_base sl)]
                        else links c H.
Proof.
  unfold links. rewrite filter_app, filter_cons, fmap_app. case_decide; [done|].
  cbn. by rewrite app_nil_r.
Qed.

Lemma base_range p : page_ok p → 2 ^ 63 <= phys_to_virt p ∧ phys_to_virt p + PAGE_SIZE <= 2 ^ 64.
Proof. intros [Hp Ha]. rewrite phys_to_virt_page by lia. div_lia. Qed.

(** The nodes of a class and a link elsewhere in the heap do not overlap. *)
Lemma heads_links_separate s F H c p :
  heap_inv s F H → 0 <= c < CLASS_COUNT → p ∈ F →
  separate (slab_link (phys_to_virt p) :: class_head classes c :: links c H) ∧
  slab_link (phys_to_virt p) ∉ class_head classes c :: links c H.
Proof.
  intros Hi Hc Hp. pose proof (hi_layout _ _ _ _ _ Hi) as (L1 & L2 & _).
  assert (page_ok p) as Hok.
  { eapply heap_page_ok; [done|]. apply elem_of_app. by left. }
  pose proof (base_range p Hok) as Hb.
  destruct (hi_lists _ _ _ _ _ Hi c Hc) as [_ _ [U1 U2]].
  assert (∀ n, n ∈ class_head classes c :: links c H → apart (slab_link (phys_to_virt p)) n) as Ha.
  { intros n [->|Hn]%elem_of_cons; unfold apart, slab_link, class_head.
    - assert (∀ a, in_page p a → ¬ in_classes classes a) as Hout.
      { intros a Hpa Hca. eapply (hi_static _ _ _ _ _ Hi p a); [|by left|done].
        apply elem_of_app. by left. }
      destruct (decide (phys_to_virt p + 16 + 16 <= classes + 16 * c)); [by left|].
      destruct (decide (classes + 16 * c + 16 <= phys_to_virt p + 16)); [by right|]. exfalso.
      apply (Hout (Z.max (classes + 16 * c) (phys_to_virt p + 16)));
        unfold in_page, in_classes; lia.
    - apply elem_of_links in Hn as (sl & Hsl & _ & ->). unfold slab_link.
      assert (p ≠ sl_page sl) as Hne.
      { intros ->. pose proof (hi_nodup _ _ _ _ _ Hi) as Hd. apply NoDup_app in Hd as (_ & Hd & _).
        apply (Hd _ Hp). by apply list_elem_of_fmap_2. }
      pose proof (so_page _ _ (hi_slabs _ _ _ _ _ Hi _ Hsl)) as Hok2.
      unfold sl_base. destruct Hok as [Hr Hal], Hok2 as [Hr2 Hal2].
      rewrite !phys_to_virt_page by lia. div_lia. }
  assert (slab_link (phys_to_virt p) ∉ class_head classes c :: links c H) as Hn.
  { intros Hn. apply Ha in Hn. unfold apart in Hn. lia. }
  split; [|done]. split.
  - intros x [->|Hx]%elem_of_cons; [|auto]. unfold in_u64, slab_link. lia.
  - intros x y [->|Hx]%elem_of_cons [->|Hy]%elem_of_cons Hne; auto; [done|].
    destruct (Ha x Hx); [by right|by left].
Qed.

(** The nodes of a class share no byte with a free page, with what [slab_ok] reads
    of any slab, or with the nodes of another class. *)
Lemma nodes_free_page s F H c p a :
  heap_inv s F H → 0 <= c < CLASS_COUNT → p ∈ F →
  in_nodes (class_head classes c :: links c H) a → ¬ in_page p a.
Proof.
  intros Hi Hc Hp Ha Hpa.
  destruct (in_nodes_static classes c H a Hc Ha) as [Hs|(sl & Hsl & Hr)].
  - eapply (hi_static _ _ _ _ _ Hi p a); [|by left|done]. apply elem_of_app. by left.
  - assert (p = sl_page sl) as ->.
    { eapply slab_page_unique; [exact Hi|done| |by apply link_in_page|done].
      apply elem_of_app. by left. }
    pose proof (hi_nodup _ _ _ _ _ Hi) as Hd. apply NoDup_app in Hd as (_ & Hd & _).
    apply (Hd _ Hp). by apply list_elem_of_fmap_2.
Qed.

Lemma slab_page_inj s F H sl sl' :
  heap_inv s F H → sl ∈ H → sl' ∈ H → sl_page sl = sl_page sl' → sl = sl'.
Proof.
  intros Hi H1 H2 E. pose proof (hi_nodup _ _ _ _ _ Hi) as Hd.
  apply NoDup_app in Hd as (_ & _ & Hd).
  apply list_elem_of_lookup_1 in H1 as [i Hsl], H2 as [j Hsl'].
  assert (i = j) as ->; [|congruence].
  eapply NoDup_lookup; [exact Hd|rewrite list_lookup_fmap, Hsl; done|].
  rewrite list_lookup_fmap, Hsl'. cbn. by rewrite E.
Qed.

Lemma nodes_slab_bytes s F H c sl a :
  heap_inv s F H → 0 <= c < CLASS_COUNT → sl ∈ H →
  in_nodes (class_head classes c :: links c H) a → ¬ slab_bytes sl a.
Proof.
  intros Hi Hc Hsl Ha Hb. pose proof (hi_slabs _ _ _ _ _ Hi _ Hsl) as Hok.
  pose proof (slab_bytes_in_page _ _ _ Hok Hb) as Hpa.
  destruct (in_nodes_static classes c H a Hc Ha) as [Hs|(sl' & Hsl' & Hr)].
  - eapply (hi_static _ _ _ _ _ Hi (sl_page sl) a); [by apply slab_page_elem|by left|done].
  - assert (sl_page sl = sl_page sl') as E.
    { eapply slab_page_unique; [exact Hi|done|by apply slab_page_elem|by apply link_in_page|done]. }
    unfold sl_base, slab_link in Hr. rewrite <- E in Hr. fold (sl_base sl) in Hr.
    destruct Hb as [Hb|(o & Ho & Hb)]; [lia|].
    destruct (object_bounds _ _ _ (so_class _ _ Hok) (so_objects _ _ Hok o Ho)). lia.
Qed.

Lemma nodes_other_class s F H c c' a :
  heap_inv s F H → 0 <= c < CLASS_COUNT → 0 <= c' < CLASS_COUNT → c ≠ c' →
  in_nodes (class_head classes c :: links c H) a →
  ¬ in_nodes (class_head classes c' :: links c' H) a.
Proof.
  intros Hi Hc Hc' Hne Ha Ha'.
  assert (∀ sl, sl ∈ H → slab_link (sl_base sl) <= a < slab_link (sl_base sl) + 16 →
    ¬ in_classes classes a) as Hout.
  { intros sl Hsl Hr Hs. eapply (hi_static _ _ _ _ _ Hi (sl_page sl) a);
      [by apply slab_page_elem|by left|by apply link_in_page]. }
  assert (∀ k, 0 <= k < CLASS_COUNT → class_head classes k <= a < class_head classes k + 16 →
    in_classes classes a) as Hin by (unfold in_classes, class_head; lia).
  destruct Ha as (n & [->|Hn]%elem_of_cons & Hr), Ha' as (n' & [->|Hn']%elem_of_cons & Hr').
  - unfold class_head in *. lia.
  - apply elem_of_links in Hn' as (sl & Hsl & _ & ->). eapply Hout; eauto.
  - apply elem_of_links in Hn as (sl & Hsl & _ & ->). eapply Hout; eauto.
  - apply elem_of_links in Hn as (sl & Hsl & <- & ->), Hn' as (sl' & Hsl' & <- & ->).
    apply Hne. f_equal. eapply slab_page_inj; eauto.
    eapply slab_page_unique; [exact Hi|exact Hsl'|by apply slab_page_elem| |]; by apply link_in_page.
Qed.

(** A page of the free list, made into a slab of class [c] and chained. *)
Lemma add_slab_inv s s1 p F H c l m3 :
  heap_inv s (p :: F) H → 0 <= c < CLASS_COUNT →
  free_rep s1 F → mem s1 = mem s → total_pages s1 = total_pages s →
  slab_ok m3 (mk_slab p c l) → same_on (λ a, ¬ in_page p a) (mem s) m3 →
  let m4 := list_push_back (class_head classes c) (slab_link (phys_to_virt p)) m3 in
  heap_inv (set_mem m4 s1) F (H ++ [mk_slab p c l]) ∧
  same_on (λ a, ¬ in_page p a ∧ ¬ in_nodes (class_head classes c :: links c H) a) (mem s) m4.
Proof.
  intros Hi Hc Hrep Hmem Htot Hok3 Hm3 m4. pose proof Hi as [I1 I2 I3 I4 I5 I6 I7].
  assert (page_ok p) as Hp by (eapply heap_page_ok; [done|by left]).
  destruct (heads_links_separate s (p :: F) H c p Hi Hc ltac:(by left)) as [Hsep Hnin].
  set (link := slab_link (phys_to_virt p)) in *.
  assert (p ∉ F ++ (sl_page <$> H)) as Hpn by (by apply NoDup_cons in I4 as [? _]).
  assert (∀ q a, q ∈ F ++ (sl_page <$> H) → in_page q a → ¬ in_page p a) as Hpages.
  { intros q a Hq Ha Hpa. apply Hpn. assert (p = q) as ->; [|done].
    eapply in_page_disjoint; eauto. eapply heap_page_ok; [exact Hi|by right]. }
  assert (∀ c', 0 <= c' < CLASS_COUNT → dlist m3 (class_head classes c') (links c' H)) as Hd3.
  { intros c' Hc'. apply (dlist_frame (mem s)); [|by apply I2]. intros a Ha. apply Hm3.
    eapply nodes_free_page; [exact Hi|exact Hc'|by left|done]. }
  assert (∀ a, ¬ in_nodes (link :: class_head classes c :: links c H) a → load8 m4 a = load8 m3 a)
    as Hm4 by (intros a; by apply push_back_frame; [apply Hd3|done|done]).
  assert (same_on (λ a, ¬ in_page p a ∧ ¬ in_nodes (class_head classes c :: links c H) a)
            (mem s) m4) as Hframe.
  { intros a [Hpa Hna]. rewrite Hm4, Hm3; [done|done|].
    intros (n & [->|Hn]%elem_of_cons & Ha); [|apply Hna; by exists n].
    apply Hpa. unfold link, slab_link, in_page in *. lia. }
  split; [|done]. split; cbn [mem set_mem total_pages].
  - apply (free_rep_frame s1); try done. cbn [mem set_mem]. rewrite Hmem. intros q Hq a Ha.
    apply Hframe. split; [eapply Hpages; [|exact Ha]; apply elem_of_app; by left|].
    intros Hn. eapply (nodes_free_page s (p :: F) H c q a); [done|done|by right|done|done].
  - intros c' Hc'. rewrite links_app. cbn [sl_class]. case_decide as E; [subst c'|].
    + apply push_back_dlist; [by apply Hd3|done|done].
    + apply (dlist_frame m3); [|by apply Hd3]. intros a Ha. apply Hm4.
      intros (n & [->|Hn]%elem_of_cons & Hr).
      * eapply (nodes_free_page s (p :: F) H c' p a); [done|done|by left|done|].
        unfold link, slab_link, in_page in *. lia.
      * eapply (nodes_other_class s _ H c c' a); eauto. by exists n.
  - intros sl [Hsl| ->%list_elem_of_singleton]%elem_of_app.
    + apply (slab_ok_frame (mem s)); [|by apply I3]. intros a Ha. apply Hframe. split.
      * eapply Hpages; [|by eapply slab_bytes_in_page; [apply I3|]]. by apply slab_page_elem.
      * intros Hn. by eapply (nodes_slab_bytes s _ H c sl a).
    + apply (slab_ok_frame m3); [|done]. intros a Ha. apply Hm4.
      intros (n & [->|Hn]%elem_of_cons & Hr).
      * unfold link, slab_link in Hr.
        destruct Ha as [Ha|(o & Ho & Ha)]; unfold sl_base in *; cbn [sl_page] in *; [lia|].
        destruct (object_bounds _ _ _ Hc (so_objects _ _ Hok3 o Ho)) as [Hlo _].
        unfold sl_base in Hlo. cbn [sl_page] in Hlo. lia.
      * eapply (nodes_free_page s (p :: F) H c p a); [done|done|by left|by exists n|].
        by apply (slab_bytes_in_page _ (mk_slab p c l) a Hok3).
  - rewrite fmap_app. cbn. rewrite app_assoc. apply NoDup_cons in I4 as [_ I4].
    apply NoDup_app. split; [done|]. split; [|apply NoDup_singleton].
    intros q Hq ->%list_elem_of_singleton. done.
  - rewrite Htot, length_app. cbn in *. lia.
  - intros q a Hq. apply I6. rewrite fmap_app in Hq. cbn in Hq. set_solver.
  - done.
Qed.

Lemma new_slab_spec c s F H :
  heap_inv s F H → 0 <= c < CLASS_COUNT →
  (F = [] ∧ new_slab classes c s = Some (0, s)) ∨
  ∃ p F' s' l, F = p :: F' ∧ new_slab classes c s = Some (phys_to_virt p, s') ∧
    heap_inv s' F' (H ++ [mk_slab p c l]) ∧ Z.of_nat (length l) = capacity c ∧
    same_on (λ a, ¬ in_page p a ∧ ¬ in_nodes (class_head classes c :: links c H) a)
      (mem s) (mem s') ∧
    sstatus s' = sstatus s.
Proof.
  intros Hi Hc. pose proof (hi_free _ _ _ _ _ Hi) as I1. unfold new_slab.
  destruct F as [|p F'].
  { left. rewrite (page_alloc_empty _ I1). done. }
  right. pose proof (page_alloc_cons_rep _ _ _ I1) as Hrep.
  rewrite (page_alloc_cons _ _ _ I1) in *. cbn [snd] in Hrep.
  set (s1 := set_free _ _ s) in *.
  assert (page_ok p) as Hp by (eapply heap_page_ok; [done|by left]).
  destruct (Z.eqb_spec p 0) as [->|_]; [destruct Hp; lia|].
  destruct (fresh_slab (mem s) p c Hp Hc) as (m3 & l & Ecarve & Hok3 & Hlen & Hm3).
  cbn [mem s1 set_free]. rewrite Ecarve.
  destruct (add_slab_inv s s1 p F' H c l m3) as [Hinv Hframe]; try done.
  eexists p, F', _, l. split; [done|]. split; [done|]. split; [exact Hinv|]. done.
Qed.

(** ** The search for a slab *)

Lemma find_slab_spec fuel head l x m :
  segment m x l head → head ∉ l → (length l < fuel)%nat →
  (find_slab fuel head (first l head) m = Some 0 ∧
     ∀ n, n ∈ l → get_free m (slab_of_link n) = 0) ∨
  ∃ n, n ∈ l ∧ find_slab fuel head (first l head) m = Some (slab_of_link n) ∧
    get_free m (slab_of_link n) ≠ 0.
Proof.
  revert x l. induction fuel as [|fuel IH]; intros x l Hs Hh Hf; [lia|]. cbn [find_slab].
  destruct l as [|n l]; cbn [first].
  { left. rewrite Z.eqb_refl. split; [done|]. intros n Hn. by apply not_elem_of_nil in Hn. }
  apply not_elem_of_cons in Hh as [Hne Hh]. destruct Hs as [_ Hs].
  destruct (Z.eqb_spec n head) as [->|_]; [done|].
  destruct (Z.eqb_spec (get_free m (slab_of_link n)) 0) as [E|E]; bsimpl.
  - rewrite (segment_first _ _ _ _ Hs). cbn [length] in Hf.
    destruct (IH n l Hs Hh ltac:(lia)) as [[E1 H1]|(k & Hk & E1 & H1)].
    + left. split; [done|]. intros k [->|Hk]%elem_of_cons; auto.
    + right. exists k. split; [by right|done].
  - right. exists n. split; [by left|done].
Qed.

Lemma slab_free_nonempty m sl : slab_ok m sl → get_free m (sl_base sl) ≠ 0 → sl_free sl ≠ [].
Proof. intros [_ _ _ _ _ Hc _ _] Hn E. rewrite E in Hc. done. Qed.

Lemma slab_free_empty m sl : slab_ok m sl → get_free m (sl_base sl) = 0 → sl_free sl = [].
Proof.
  intros [Hp Hcl _ _ _ Hc _ Ho] E. destruct (sl_free sl) as [|o l]; [done|]. destruct Hc as [Eo _].
  pose proof (object_bounds _ _ _ Hcl (Ho o ltac:(by left))) as [Hb _].
  pose proof (base_range _ Hp). unfold sl_base in Hb. lia.
Qed.

(** Some slab of the class has a free object, or all of them are full. *)
Lemma find_slab_heap s F H c :
  heap_inv s F H → 0 <= c < CLASS_COUNT →
  let head := class_head classes c in
  (find_slab (slab_fuel s) head (get_next (mem s) head) (mem s) = Some 0 ∧
     ∀ sl, sl ∈ H → sl_class sl = c → sl_free sl = []) ∨
  ∃ H1 sl H2, H = H1 ++ sl :: H2 ∧ sl_class sl = c ∧ sl_free sl ≠ [] ∧
    find_slab (slab_fuel s) head (get_next (mem s) head) (mem s) = Some (sl_base sl).
Proof.
  intros Hi Hc head. pose proof (hi_lists _ _ _ _ _ Hi c Hc) as [Hseg Hnd _]. fold head in Hseg, Hnd.
  apply NoDup_cons in Hnd as [Hh _]. rewrite (segment_first _ _ _ _ Hseg).
  assert (length (links c H) < slab_fuel s)%nat as Hfuel.
  { unfold links, slab_fuel. rewrite length_fmap. pose proof (hi_total _ _ _ _ _ Hi).
    pose proof (length_filter (λ sl, sl_class sl = c) H). lia. }
  assert (∀ sl, slab_of_link (slab_link (sl_base sl)) = sl_base sl) as Eb
    by (intros sl; unfold slab_of_link, slab_link; lia).
  destruct (find_slab_spec (slab_fuel s) head (links c H) head (mem s) Hseg Hh Hfuel)
    as [[E Hall]|(n & Hn & E & Hne)].
  - left. split; [done|]. intros sl Hsl Hcl.
    apply (slab_free_empty (mem s)); [by apply (hi_slabs _ _ _ _ _ Hi)|].
    rewrite <- Eb. apply Hall, elem_of_links. eauto.
  - right. apply elem_of_links in Hn as (sl & Hsl & Hcl & ->). rewrite Eb in *.
    pose proof (hi_slabs _ _ _ _ _ Hi _ Hsl) as Hok.
    apply list_elem_of_split in Hsl as (H1 & H2 & ->). exists H1, sl, H2.
    split; [done|]. split; [done|]. split; [|done]. by apply (slab_free_nonempty (mem s)).
Qed.

(** ** What the clients see *)

(** [o] is an object of [n] bytes in use. *)
Definition live (H : list slab) (o n : Z) : Prop :=
  ∃ sl, sl ∈ H ∧ is_object (sl_base sl) (sl_class sl) o ∧ o ∉ sl_free sl ∧
    n = class_size (sl_class sl).

(** The bytes that are not the heap's to change: those of live objects, and those
    outside its statics, its pages and the free pages. *)
Definition client (F : list Z) (H : list slab) (a : Z) : Prop :=
  (¬ static classes heap_lock a ∧ ∀ p, p ∈ F ++ (sl_page <$> H) → ¬ in_page p a) ∨
  ∃ o n, live H o n ∧ o <= a < o + n.

(** Every live object lies in the page of its slab, past the header. *)
Lemma live_in_page s F H o n a :
  heap_inv s F H → live H o n → o <= a < o + n →
  ∃ sl, sl ∈ H ∧ in_page (sl_page sl) a ∧ sl_base sl + 32 <= a ∧ ¬ slab_bytes sl a.
Proof.
  intros Hi (sl & Hsl & Ho & Hn & ->) Ha. exists sl. split; [done|].
  pose proof (hi_slabs _ _ _ _ _ Hi _ Hsl) as Hok. pose proof (so_class _ _ Hok) as Hc.
  destruct (object_bounds _ _ _ Hc Ho). split; [by apply (object_in_page sl o)|]. split; [lia|].
  intros [Hb|(o' & Ho' & Hb)]; [lia|]. destruct (class_geometry_ok _ Hc).
  destruct (objects_apart _ _ o o' Hc Ho (so_objects _ _ Hok _ Ho')); [by intros ->|lia|lia].
Qed.

(** Two live objects do not overlap. *)
Lemma live_disjoint s F H o n o' n' :
  heap_inv s F H → live H o n → live H o' n' → o ≠ o' → o + n <= o' ∨ o' + n' <= o.
Proof.
  intros Hi (sl & Hsl & Ho & Hn & ->) (sl' & Hsl' & Ho' & Hn' & ->) Hne.
  pose proof (hi_slabs _ _ _ _ _ Hi _ Hsl) as Hok. pose proof (hi_slabs _ _ _ _ _ Hi _ Hsl') as Hok'.
  destruct (decide (sl_page sl = sl_page sl')) as [E|Hp].
  - assert (sl = sl') as <- by (eapply slab_page_inj; eauto).
    by apply (objects_apart (sl_base sl) (sl_class sl)); [apply Hok|..].
  - destruct (object_bounds _ _ _ (so_class _ _ Hok) Ho) as [B1 B2].
    destruct (object_bounds _ _ _ (so_class _ _ Hok') Ho') as [B1' B2'].
    destruct (so_page _ _ Hok) as [R1 R2], (so_page _ _ Hok') as [R1' R2'].
    unfold sl_base in *. rewrite !phys_to_virt_page in * by lia.
    destruct (class_geometry_ok _ (so_class _ _ Hok)), (class_geometry_ok _ (so_class _ _ Hok')).
    assert (sl_page sl + PAGE_SIZE <= sl_page sl' ∨ sl_page sl' + PAGE_SIZE <= sl_page sl) by div_lia.
    lia.
Qed.

(** What a client's byte is not. *)
Lemma client_not_static s F H a :
  heap_inv s F H → client F H a → ¬ static classes heap_lock a.
Proof.
  intros Hi [[Hs _]|(o & n & Hl & Ha)]; [done|].
  destruct (live_in_page s F H o n a Hi Hl Ha) as (sl & Hsl & Hp & _).
  intros Hs. by apply (hi_static _ _ _ _ _ Hi (sl_page sl) a); [apply slab_page_elem|..].
Qed.

Lemma client_not_free s F H p a : heap_inv s F H → p ∈ F → client F H a → ¬ in_page p a.
Proof.
  intros Hi Hp Hcl Hpa. assert (p ∈ F ++ (sl_page <$> H)) as Hin by (apply elem_of_app; by left).
  destruct Hcl as [[_ Hn]|(o & n & Hl & Ha)]; [by apply (Hn p Hin)|].
  destruct (live_in_page s F H o n a Hi Hl Ha) as (sl & Hsl & Hsp & _).
  assert (p = sl_page sl) as -> by (eapply slab_page_unique; eauto).
  pose proof (hi_nodup _ _ _ _ _ Hi) as Hd. apply NoDup_app in Hd as (_ & Hd & _).
  apply (Hd _ Hp). by apply list_elem_of_fmap_2.
Qed.

(** The part of a slab's page a client may reach is live objects. *)
Lemma client_slab s F H sl a :
  heap_inv s F H → sl ∈ H → client F H a → in_page (sl_page sl) a →
  sl_base sl + 32 <= a ∧ (∀ o, o ∈ sl_free sl → ¬ (o <= a < o + class_size (sl_class sl))).
Proof.
  intros Hi Hsl [[_ Hn]|(o & n & Hl & Ha)] Hpa.
  { exfalso. apply (Hn (sl_page sl)); [by apply slab_page_elem|done]. }
  destruct Hl as (sl' & Hsl' & Ho & Hno & ->).
  pose proof (hi_slabs _ _ _ _ _ Hi _ Hsl') as Hok. pose proof (so_class _ _ Hok) as Hc.
  assert (sl' = sl) as ->.
  { eapply slab_page_inj; eauto. eapply slab_page_unique; eauto; [by apply slab_page_elem|].
    by apply (object_in_page sl' o). }
  destruct (object_bounds _ _ _ Hc Ho). split; [lia|]. intros o' Ho' Ha'.
  destruct (objects_apart _ _ o o' Hc Ho (so_objects _ _ Hok _ Ho')); [by intros ->|lia|lia].
Qed.

Lemma client_not_nodes s F H c a :
  heap_inv s F H → 0 <= c < CLASS_COUNT → client F H a →
  ¬ in_nodes (class_head classes c :: links c H) a.
Proof.
  intros Hi Hc Hcl Hn. destruct (in_nodes_static classes c H a Hc Hn) as [Hs|(sl & Hsl & Hr)].
  - eapply client_not_static; eauto. by left.
  - destruct (client_slab s F H sl a Hi Hsl Hcl) as [Hlow _]; [by apply link_in_page|].
    unfold slab_link in Hr. lia.
Qed.

(** ** Serving a request from a slab *)

Lemma get_used_set_freelist m base v : get_used (set_freelist m base v) base = get_used m base.
Proof. unfold get_used, set_freelist. apply load_le_store64. lia. Qed.

Lemma mem_irq_restore flags s : mem (irq_restore flags s) = mem s.
Proof. unfold irq_restore. by case_if. Qed.
Lemma same_vars_irq_restore flags s : same_vars s (irq_restore flags s).
Proof. unfold irq_restore. case_if; by split. Qed.

Lemma drop_lock_inv s F H flags :
  heap_inv s F H → heap_inv (irq_restore flags (drop_lock heap_lock s)) F H ∧
  load_le (mem (irq_restore flags (drop_lock heap_lock s))) heap_lock 4 = 0 ∧
  same_on (λ a, ¬ in_lock heap_lock a) (mem s) (mem (irq_restore flags (drop_lock heap_lock s))).
Proof.
  intros Hi. rewrite mem_irq_restore. split; [|split].
  - eapply irq_step; [by apply lock_step|apply mem_irq_restore|apply same_vars_irq_restore].
  - cbn [mem drop_lock set_mem]. by rewrite load_le_store_le.
  - intros a Ha. apply load8_store_le_out. exact Ha.
Qed.

(** The end of [kmalloc], once it has a slab. *)
Definition serve (flags slab c : Z) (s : kstate) : Z * kstate :=
  let m := mem s in
  let result := get_free m slab in
  let m := set_freelist m slab (load64 m result) in
  let m := set_used m slab (u16 (get_used m slab + 1)) in
  let s := irq_restore flags (drop_lock heap_lock (set_mem m s)) in
  (result, set_mem (memset (mem s) result 0 (Z.to_nat (class_size c))) s).

Lemma serve_spec flags s F H1 sl H2 :
  heap_inv s F (H1 ++ sl :: H2) → sl_free sl ≠ [] → (∀ sl', sl' ∈ H1 ++ H2 → in_use sl') →
  ∃ o l s', sl_free sl = o :: l ∧ serve flags (sl_base sl) (sl_class sl) s = (o, s') ∧
    heap_rep s' F (H1 ++ mk_slab (sl_page sl) (sl_class sl) l :: H2) ∧
    (∀ a, o <= a < o + class_size (sl_class sl) → load8 (mem s') a = 0) ∧
    same_on (client F (H1 ++ sl :: H2)) (mem s) (mem s') ∧
    sstatus s' = sstatus (irq_restore flags s).
Proof.
  intros Hi Hne Hothers. destruct (sl_free sl) as [|o l] eqn:Hf; [done|].
  assert (sl ∈ H1 ++ sl :: H2) as Hin by (apply elem_of_app; right; by left).
  pose proof (hi_slabs _ _ _ _ _ Hi _ Hin) as Hok. pose proof (so_class _ _ Hok) as Hc.
  pose proof (so_nodup _ _ Hok) as Hnd. rewrite Hf in Hnd. apply NoDup_cons in Hnd as [Hno Hnd].
  assert (is_object (sl_base sl) (sl_class sl) o) as Ho
    by (apply (so_objects _ _ Hok); rewrite Hf; by left).
  destruct (class_geometry_ok _ Hc).
  destruct (pop_step s F H1 sl H2 o l Hi Hf) as [Eo Hi1].
  exists o, l. eexists. split; [done|]. unfold serve. rewrite Eo, get_used_set_freelist.
  fold (set_counts (mem s) (sl_base sl) (load64 (mem s) o)
          (u16 (get_used (mem s) (sl_base sl) + 1))).
  set (s1 := set_mem _ s) in *. destruct (drop_lock_inv s1 _ _ flags Hi1) as (Hi2 & Hl2 & Hm2).
  set (s2 := irq_restore flags _) in *. split; [done|].
  assert (∀ a, load8 (memset (mem s2) o 0 (Z.to_nat (class_size (sl_class sl)))) a
    = if decide (o <= a < o + class_size (sl_class sl)) then 0 else load8 (mem s2) a) as Hz.
  { intros a. rewrite memset_load8, Z2Nat.id by lia. done. }
  split; [split|split; [|split]].
  - apply (object_step s2 F H1 (mk_slab (sl_page sl) (sl_class sl) l) H2 o); try done.
    intros a Ha. cbn [sl_class] in Ha. by rewrite Hz, decide_False.
  - cbn [mem set_mem]. transitivity (load_le (mem s2) heap_lock 4); [|done].
    apply load_le_ext. intros b Hb. rewrite Hz, decide_False; [done|].
    intros Hr. eapply (hi_static _ _ _ _ _ Hi (sl_page sl) b); [by apply slab_page_elem| |].
    + right. unfold in_lock. lia.
    + by apply (object_in_page sl o).
  - intros sl' Hsl'. assert (sl' = mk_slab (sl_page sl) (sl_class sl) l ∨ sl' ∈ H1 ++ H2) as [->|?].
    { rewrite elem_of_app, elem_of_cons in *. tauto. }
    + unfold in_use. cbn [sl_free sl_class].
      pose proof (objects_bound _ _ _ Hc (so_nodup _ _ Hok) (so_objects _ _ Hok)) as Hb.
      rewrite Hf in Hb. cbn [length] in Hb. lia.
    + by apply Hothers.
  - intros a Ha. cbn [mem set_mem]. by rewrite Hz, decide_True.
  - intros a Ha. cbn [mem set_mem].
    pose proof (client_not_static _ _ _ _ Hi Ha) as Hns.
    assert (¬ (o <= a < o + class_size (sl_class sl))) as Hno'.
    { intros Hr. eapply (client_slab s F _ sl a Hi Hin Ha); [by apply (object_in_page sl o)| |exact Hr].
      rewrite Hf. by left. }
    rewrite Hz, decide_False by done. rewrite Hm2 by (intros ?; apply Hns; by right).
    cbn [mem s1 set_mem]. apply set_counts_frame. intros Hr.
    destruct (client_slab s F _ sl a Hi Hin Ha); [|lia]. unfold in_page. fold (sl_base sl). lia.
  - unfold s2, irq_restore. by case_if.
Qed.

(** ** The set of live objects *)

Lemma live_middle H1 sl H2 x n :
  live (H1 ++ sl :: H2) x n ↔ live (H1 ++ H2) x n ∨ live [sl] x n.
Proof.
  unfold live. split.
  - intros (sl' & Hin & Hrest). apply elem_of_app in Hin as [Hin|[->|Hin]%elem_of_cons].
    + left. exists sl'. rewrite elem_of_app. eauto.
    + right. exists sl. rewrite list_elem_of_singleton. eauto.
    + left. exists sl'. rewrite elem_of_app. eauto.
  - intros [(sl' & Hin & Hrest)|(sl' & ->%list_elem_of_singleton & Hrest)].
    + exists sl'. rewrite elem_of_app, elem_of_cons. apply elem_of_app in Hin as [?|?]; eauto.
    + exists sl. rewrite elem_of_app, elem_of_cons. eauto.
Qed.

Lemma live_single sl x n :
  live [sl] x n ↔ is_object (sl_base sl) (sl_class sl) x ∧ x ∉ sl_free sl ∧
    n = class_size (sl_class sl).
Proof.
  unfold live. split.
  - intros (sl' & ->%list_elem_of_singleton & H). done.
  - intros H. exists sl. by rewrite list_elem_of_singleton.
Qed.

(** A slab whose free list is as long as its capacity has no live object. *)
Lemma live_full m sl x n :
  slab_ok m sl → Z.of_nat (length (sl_free sl)) = capacity (sl_class sl) → ¬ live [sl] x n.
Proof.
  intros Hok Hlen [Hx [Hn _]]%live_single. apply Hn.
  assert (sl_free sl ≡ₚ objects (sl_base sl) (sl_class sl)) as ->.
  { apply submseteq_length_Permutation.
    - apply NoDup_submseteq; [apply Hok|]. intros o Ho. by apply elem_of_objects, (so_objects _ _ Hok).
    - rewrite length_objects. lia. }
  by apply elem_of_objects.
Qed.

(** ** Requests *)

Lemma find_class_spec size :
  find_class class_sizes size 0 = CLASS_COUNT ∧ 2048 < size ∨
  0 <= find_class class_sizes size 0 < CLASS_COUNT ∧
  size <= class_size (find_class class_sizes size 0) ∧
  (∀ c, 0 <= c < find_class class_sizes size 0 → class_size c < size).
Proof.
  assert (class_size 0 = 16 ∧ class_size 1 = 32 ∧ class_size 2 = 64 ∧ class_size 3 = 128 ∧
    class_size 4 = 256 ∧ class_size 5 = 512 ∧ class_size 6 = 1024 ∧ class_size 7 = 2048)
    as (E0 & E1 & E2 & E3 & E4 & E5 & E6 & E7) by done.
  unfold class_sizes. cbn [find_class].
  repeat match goal with |- context [?x <=? ?y] => destruct (Z.leb_spec x y) end;
    try (left; split; [done|lia]); right;
    match goal with |- 0 <= ?c < _ ∧ _ => let v := eval vm_compute in c in change c with v end.
  all: split; [lia|split; [lia|]]; intros c Hc;
    assert (c = 0 ∨ c = 1 ∨ c = 2 ∨ c = 3 ∨ c = 4 ∨ c = 5 ∨ c = 6) as Hall by lia;
    repeat (destruct Hall as [->|Hall]; [lia|]); subst; lia.
Qed.

Lemma object_aligned sl o :
  page_ok (sl_page sl) → 0 <= sl_class sl < CLASS_COUNT →
  is_object (sl_base sl) (sl_class sl) o → o mod class_size (sl_class sl) = 0.
Proof.
  intros [Hp Ha] Hc (k & Hk & ->). destruct (class_geometry_ok _ Hc) as [G1 G2 G3 G4 G5 G6].
  set (n := class_size (sl_class sl)) in *. set (off := first_offset (sl_class sl)) in *.
  unfold sl_base. rewrite phys_to_virt_page by lia.
  apply Z.mod_divide in G3, G4; try lia. apply Z.mod_divide in Ha; [|lia]. apply Z.mod_divide; [lia|].
  assert ((n | PAGE_SIZE)) as Hd by done.
  repeat apply Z.divide_add_r; try done.
  - apply (Z.divide_trans _ PAGE_SIZE); [done|]. by exists 4503599560261632.
  - by apply (Z.divide_trans _ PAGE_SIZE).
  - apply Z.divide_factor_l.
Qed.

Lemma take_lock_inv s F H :
  heap_rep s F H → ∃ s', take_lock heap_lock (irq_save s).2 = Some s' ∧ heap_inv s' F H ∧
    sstatus s' = Z.ldiff (sstatus s) SSTATUS_SIE ∧
    same_on (λ a, ¬ in_lock heap_lock a) (mem s) (mem s').
Proof.
  intros [Hi Hl _]. unfold take_lock, irq_save. cbn [snd]. change (mem (csr_clear_sstatus _ s)) with (mem s).
  rewrite Hl. cbn [spin_lock Z.eqb]. eexists. split; [done|]. split.
  - assert (heap_inv (csr_clear_sstatus SSTATUS_SIE s) F H) as Hi' by (by eapply irq_step).
    exact (lock_step _ F H 1 Hi').
  - split; [done|]. intros a Ha. apply load8_store_le_out. exact Ha.
Qed.

(** What a successful allocation of [n] bytes at [o] does to the heap. *)
Record allocated (s : kstate) (F : list Z) (H : list slab) (o n : Z) (s' : kstate)
    (F' : list Z) (H' : list slab) : Prop := {
  al_rep : heap_rep s' F' H';
  al_pages : F' ++ (sl_page <$> H') ≡ₚ F ++ (sl_page <$> H);
  al_live : ∀ x k, live H' x k ↔ live H x k ∨ (x = o ∧ k = n);
  al_fresh : ∀ x k, live H x k → x + k <= o ∨ o + n <= x;
  al_aligned : o mod n = 0;
  al_zeroed : ∀ a, o <= a < o + n → load8 (mem s') a = 0;
  al_kept : same_on (client F H) (mem s) (mem s');
}.

(** Popping an object from one of the slabs. *)
Lemma serve_allocates s flags F H1 sl H2 :
  heap_inv s F (H1 ++ sl :: H2) → sl_free sl ≠ [] → (∀ sl', sl' ∈ H1 ++ H2 → in_use sl') →
  ∃ o s' H', serve flags (sl_base sl) (sl_class sl) s = (o, s') ∧ o ≠ 0 ∧
    allocated s F (H1 ++ sl :: H2) o (class_size (sl_class sl)) s' F H' ∧
    sstatus s' = sstatus (irq_restore flags s).
Proof.
  intros Hi Hne Hothers. pose proof (serve_spec flags s F H1 sl H2 Hi Hne Hothers)
    as (o & l & s' & Hf & E & Hrep & Hz & Hm & Hst).
  assert (sl ∈ H1 ++ sl :: H2) as Hin by (apply elem_of_app; right; by left).
  pose proof (hi_slabs _ _ _ _ _ Hi _ Hin) as Hok. pose proof (so_class _ _ Hok) as Hc.
  pose proof (so_nodup _ _ Hok) as Hnd. rewrite Hf in Hnd. apply NoDup_cons in Hnd as [Hno Hnd].
  assert (is_object (sl_base sl) (sl_class sl) o) as Ho
    by (apply (so_objects _ _ Hok); rewrite Hf; by left).
  set (sl' := mk_slab (sl_page sl) (sl_class sl) l) in *.
  assert (∀ x k, live (H1 ++ sl' :: H2) x k ↔
    live (H1 ++ sl :: H2) x k ∨ (x = o ∧ k = class_size (sl_class sl))) as Hlive.
  { intros x k. rewrite !live_middle, !live_single, Hf. cbn [sl_class sl_free sl'].
    change (sl_base sl') with (sl_base sl). rewrite not_elem_of_cons.
    destruct (decide (x = o)) as [->|Hx]; [|tauto]. split; [|tauto]. intuition. }
  exists o, s', (H1 ++ sl' :: H2). split; [done|]. split.
  { pose proof (object_bounds _ _ _ Hc Ho) as [Hb _].
    pose proof (base_range _ (so_page _ _ Hok)). unfold sl_base in Hb. lia. }
  split; [|done]. split; try done.
  - apply Permutation_refl'. by rewrite !fmap_app.
  - intros x k Hl.
    assert (x ≠ o) as Hx.
    { intros ->. destruct Hl as (sl2 & Hsl2 & Ho2 & Hn2 & _).
      assert (sl2 = sl) as ->; [|apply Hn2; rewrite Hf; by left].
      pose proof (hi_slabs _ _ _ _ _ Hi _ Hsl2) as Hok2.
      destruct (class_geometry_ok _ Hc), (class_geometry_ok _ (so_class _ _ Hok2)).
      eapply slab_page_inj; eauto. eapply slab_page_unique; eauto; [by apply slab_page_elem| |].
      + apply (object_in_page sl o o); [done|done|lia].
      + apply (object_in_page sl2 o o); [apply Hok2|done|lia]. }
    eapply (live_disjoint s' F (H1 ++ sl' :: H2)); [apply Hrep|apply Hlive; by left| |done].
    apply Hlive. by right.
  - by apply object_aligned; [apply Hok|..].
Qed.

Lemma kmalloc_unfold size s :
  kmalloc classes heap_lock size s =
  let size := if size =? 0 then 1 else size in
  let c := find_class class_sizes size 0 in
  if c =? CLASS_COUNT then Some (0, s)
  else match take_lock heap_lock (irq_save s).2 with
       | None => None
       | Some s1 =>
           match find_slab (slab_fuel s1) (class_head classes c)
                   (get_next (mem s1) (class_head classes c)) (mem s1) with
           | None => None
           | Some slab =>
               match (if slab =? 0 then new_slab classes c s1 else Some (slab, s1)) with
               | None => None
               | Some (slab, s2) =>
                   if slab =? 0 then Some (0, irq_restore (sstatus s) (drop_lock heap_lock s2))
                   else Some (serve (sstatus s) slab c s2)
               end
           end
       end.
Proof. reflexivity. Qed.

Lemma class_size_pow c : 0 <= c < CLASS_COUNT → class_size c = 2 ^ (c + 4).
Proof.
  intros Hc. assert (c = 0 ∨ c = 1 ∨ c = 2 ∨ c = 3 ∨ c = 4 ∨ c = 5 ∨ c = 6 ∨ c = 7) as Hall by lia.
  repeat (destruct Hall as [->|Hall]; [done|]). by subst.
Qed.

(** An allocation from an equivalent view of the heap. *)
Lemma allocated_from s F H s1 F1 H1 o n s' F' H' :
  allocated s1 F1 H1 o n s' F' H' → F1 ++ (sl_page <$> H1) ≡ₚ F ++ (sl_page <$> H) →
  (∀ x k, live H1 x k ↔ live H x k) →
  (∀ a, client F H a → load8 (mem s1) a = load8 (mem s) a) →
  allocated s F H o n s' F' H'.
Proof.
  intros [A1 A2 A3 A4 A5 A6 A7] Hperm Hlive Hmem. split; try done.
  - by rewrite A2.
  - intros x k. by rewrite A3, Hlive.
  - intros x k Hl. apply (A4 x k). by apply Hlive.
  - intros a Ha. rewrite A7; [by apply Hmem|]. destruct Ha as [[Hs Hp]|(x & k & Hl & Hr)].
    + left. split; [done|]. intros p. rewrite Hperm. apply Hp.
    + right. exists x, k. by rewrite Hlive.
Qed.

Lemma load_le_zero m a n b :
  load_le m a n = 0 → a <= b < a + Z.of_nat n → load8 m b = 0.
Proof.
  revert a. induction n as [|n IH]; intros a E Hb; [lia|]. cbn [load_le] in E.
  pose proof (load8_range m a). pose proof (load_le_range m (a + 1) n).
  destruct (decide (b = a)) as [->|Hne]; [lia|]. apply (IH (a + 1)); lia.
Qed.

(** A critical section that finds nothing to do. *)
Lemma failed_request s s1 F H :
  heap_rep s F H → heap_inv s1 F H → same_on (λ a, ¬ in_lock heap_lock a) (mem s) (mem s1) →
  let s2 := irq_restore (sstatus s) (drop_lock heap_lock s1) in
  heap_rep s2 F H ∧ ∀ a, load8 (mem s2) a = load8 (mem s) a.
Proof.
  intros [Hi Hl Hu] Hi1 Hm s2.
  destruct (drop_lock_inv s1 F H (sstatus s) Hi1) as (Hi2 & Hl2 & Hm2). fold s2 in Hi2, Hl2, Hm2.
  split; [done|]. intros a.
  destruct (decide (heap_lock <= a < heap_lock + 4)) as [Ha|Ha].
  - rewrite (load_le_zero _ _ 4 a Hl2) by lia.
    by rewrite (load_le_zero _ _ 4 a Hl) by lia.
  - rewrite Hm2, Hm by done. done.
Qed.

(** Once the lock is held: from a slab with a free object, or from a new one. *)
Lemma request_spec s s1 F H c :
  heap_rep s F H → heap_inv s1 F H → sstatus s1 = Z.ldiff (sstatus s) SSTATUS_SIE →
  same_on (λ a, ¬ in_lock heap_lock a) (mem s) (mem s1) → 0 <= c < CLASS_COUNT →
  ∃ slab, find_slab (slab_fuel s1) (class_head classes c)
            (get_next (mem s1) (class_head classes c)) (mem s1) = Some slab ∧
  ∃ slab' s2, (if slab =? 0 then new_slab classes c s1 else Some (slab, s1)) = Some (slab', s2) ∧
    sstatus s2 = Z.ldiff (sstatus s) SSTATUS_SIE ∧
    (slab' = 0 ∧ s2 = s1 ∧ F = [] ∨
     slab' ≠ 0 ∧ ∃ o s' F' H', serve (sstatus s) slab' c s2 = (o, s') ∧ o ≠ 0 ∧
       allocated s F H o (class_size c) s' F' H' ∧
       sstatus s' = sstatus (irq_restore (sstatus s) s2)).
Proof.
  intros Hrep Hi1 Hst Hm Hc.
  assert (∀ a, client F H a → load8 (mem s1) a = load8 (mem s) a) as Hcl.
  { intros a Ha. apply Hm. intros Hl. eapply client_not_static; [apply Hrep|exact Ha|]. by right. }
  assert (∀ sl, page_ok (sl_page sl) → sl_base sl ≠ 0) as Hnz.
  { intros sl Hp. pose proof (base_range _ Hp). unfold sl_base. lia. }
  destruct (find_slab_heap s1 F H c Hi1 Hc) as [[E Hfull]|(H1 & sl & H2 & -> & <- & Hne & E)];
    eexists; (split; [exact E|]).
  - change (0 =? 0) with true. cbv iota.
    destruct (new_slab_spec c s1 F H Hi1 Hc)
      as [[-> En]|(p & F' & s2 & l & -> & En & Hi2 & Hlen & Hm2 & Hst2)].
    { exists 0, s1. split; [done|]. split; [done|]. by left. }
    exists (phys_to_virt p), s2. split; [done|]. split; [congruence|]. right.
    set (sl := mk_slab p c l) in *.
    assert (sl ∈ H ++ [sl]) as Hin by (apply elem_of_app; right; by left).
    pose proof (hi_slabs _ _ _ _ _ Hi2 _ Hin) as Hok. destruct (class_geometry_ok c Hc).
    assert (sl_free sl ≠ []) as Hne by (cbn [sl_free sl]; intros ->; cbn [length] in Hlen; lia).
    split; [apply (Hnz sl), Hok|].
    destruct (serve_allocates s2 (sstatus s) F' H sl [] Hi2 Hne) as (o & s' & H' & Es & Ho & Ha & Hss).
    { intros sl' Hsl'. rewrite app_nil_r in Hsl'. by apply (hr_used _ _ _ _ _ Hrep). }
    exists o, s', F', H'. split; [done|]. split; [done|]. split; [|done].
    apply (allocated_from s (p :: F') H s2 F' (H ++ [sl])); [done| | |].
    + rewrite fmap_app. cbn. rewrite app_assoc. symmetry. apply Permutation_cons_append.
    + intros x k. rewrite live_middle, app_nil_r. split; [|by left].
      intros [?|Hl]; [done|]. exfalso. by apply (live_full (mem s2) sl x k Hok).
    + intros a Ha'. rewrite Hm2; [by apply Hcl|]. split.
      * eapply client_not_free; [exact Hi1|by left|done].
      * by eapply client_not_nodes.
  - assert (slab_ok (mem s1) sl) as Hok.
    { apply (hi_slabs _ _ _ _ _ Hi1). apply elem_of_app. right. by left. }
    rewrite (proj2 (Z.eqb_neq _ _) (Hnz sl (so_page _ _ Hok))).
    eexists _, _. split; [done|]. split; [done|]. right. split; [apply Hnz, Hok|].
    destruct (serve_allocates s1 (sstatus s) F H1 sl H2 Hi1 Hne) as (o & s' & H' & Es & Ho & Ha & Hss).
    { intros sl' Hsl'. apply (hr_used _ _ _ _ _ Hrep). rewrite elem_of_app, elem_of_cons in *. tauto. }
    exists o, s', F, H'. split; [done|]. split; [done|]. split; [|done].
    by eapply allocated_from.
Qed.

Lemma kmalloc_spec size s F H :
  heap_rep s F H → 0 <= size →
  ∃ o s', kmalloc classes heap_lock size s = Some (o, s') ∧ sstatus s' = sstatus s ∧
    ((o = 0 ∧ heap_rep s' F H ∧ (∀ a, load8 (mem s') a = load8 (mem s) a) ∧
      (2048 < size ∨ F = [])) ∨
     (o ≠ 0 ∧ ∃ n F' H', allocated s F H o n s' F' H' ∧ size <= n ∧
        (∀ c, 0 <= c < CLASS_COUNT → class_size c < n → class_size c < Z.max size 1))).
Proof.
  intros Hrep Hsize. rewrite kmalloc_unfold. cbv zeta.
  set (size' := if size =? 0 then 1 else size).
  assert (size' = Z.max size 1) as Esz by (unfold size'; destruct (Z.eqb_spec size 0); lia).
  destruct (find_class_spec size') as [[-> Hbig]|(Hc & Hfit & Hleast)].
  { exists 0, s. split; [done|]. split; [done|]. left. split; [done|]. split; [done|].
    split; [done|]. left. lia. }
  set (c := find_class class_sizes size' 0) in *. destruct (Z.eqb_spec c CLASS_COUNT); [lia|].
  destruct (take_lock_inv s F H Hrep) as (s1 & -> & Hi1 & Hst1 & Hm1).
  destruct (request_spec s s1 F H c Hrep Hi1 Hst1 Hm1 Hc)
    as (slab & -> & slab' & s2 & -> & Hst2 & [(-> & -> & HF)|(Hnz & o & s' & F' & H' & -> & Ho & Ha & Hss)]).
  - destruct (failed_request s s1 F H Hrep Hi1 Hm1) as [Hr Hm]. eexists 0, _. split; [done|].
    split; [by rewrite irq_section|]. left. split; [done|]. split; [done|]. split; [done|]. by right.
  - rewrite (proj2 (Z.eqb_neq _ _) Hnz). exists o, s'. split; [done|].
    split; [rewrite Hss; by rewrite irq_section|]. right. split; [done|].
    exists (class_size c), F', H'. split; [done|]. split; [lia|]. intros c' Hc' Hlt.
    rewrite <- Esz. apply Hleast. rewrite !class_size_pow in Hlt by done.
    apply Z.pow_lt_mono_r_iff in Hlt; lia.
Qed.

(** C28. [kmalloc] always returns.  It fails only for requests above 2048 bytes or
    when neither the slabs of the class nor the page allocator have anything
    left, and then changes nothing; otherwise the object it returns is at least
    as large as the request and of the smallest class that is, aligned to its
    size, filled with zeros, and disjoint from every object in use.  All other live
    objects, and all memory that is not the heap's, keep their contents; pages
    only move from the free list to the heap; the interrupt flag is restored. *)
Theorem kmalloc_correct size s F H :
  heap_rep s F H → 0 <= size →
  ∃ o s', kmalloc classes heap_lock size s = Some (o, s') ∧ sstatus s' = sstatus s ∧
    ((o = 0 ∧ heap_rep s' F H ∧ (∀ a, load8 (mem s') a = load8 (mem s) a) ∧
      (2048 < size ∨ F = [])) ∨
     (o ≠ 0 ∧ ∃ n F' H', allocated s F H o n s' F' H' ∧ size <= n ∧
        (∀ c, 0 <= c < CLASS_COUNT → class_size c < n → class_size c < Z.max size 1))).
Proof. apply kmalloc_spec. Qed.

(** ** Releasing an object *)

Lemma slab_of_object sl o :
  page_ok (sl_page sl) → 0 <= sl_class sl < CLASS_COUNT →
  is_object (sl_base sl) (sl_class sl) o →
  in_u64 o ∧ o ≠ 0 ∧ Z.land o (not64 PAGE_MASK) = sl_base sl.
Proof.
  intros Hp Hc Ho. pose proof (object_bounds _ _ _ Hc Ho) as Hb.
  destruct (class_geometry_ok _ Hc). pose proof (base_range _ Hp) as Hr.
  fold (sl_base sl) in Hr. assert (in_u64 o) as Hu by (unfold in_u64; lia).
  split; [done|]. split; [lia|]. rewrite land_not_page_mask by done.
  unfold sl_base in *. destruct Hp as [Hp Ha]. rewrite phys_to_virt_page in * by lia. div_lia.
Qed.

(** [page_free] on a page that is neither free nor the heap's. *)
Lemma add_free_inv s F H p :
  heap_inv s F H → page_ok p → p ∉ F ++ (sl_page <$> H) →
  (∀ a, static classes heap_lock a → ¬ in_page p a) →
  Z.of_nat (S (length F) + length H) <= total_pages s →
  heap_inv (page_free p s) (p :: F) H ∧
  same_on (λ a, ¬ in_page p a) (mem s) (mem (page_free p s)).
Proof.
  intros Hi Hp Hn Hst Ht. pose proof Hi as [I1 I2 I3 I4 I5 I6 I7].
  assert (same_on (λ a, ¬ in_page p a) (mem s) (mem (page_free p s))) as Hm
    by (apply page_free_frame; auto).
  assert (∀ q a, q ∈ F ++ (sl_page <$> H) → in_page q a → ¬ in_page p a) as Hpages.
  { intros q a Hq Ha Hpa. apply Hn. assert (p = q) as ->; [|done].
    eapply in_page_disjoint; eauto. eapply heap_page_ok; eauto. }
  split; [|done]. rewrite not_elem_of_app in Hn. destruct Hn as [Hn1 Hn2]. split; try done.
  - by apply page_free_rep.
  - intros c Hc. apply (dlist_frame (mem s)); [|by apply I2]. intros a Ha. apply Hm.
    destruct (in_nodes_static classes c H a Hc Ha) as [Hs|(sl & Hsl & Hr)].
    + apply Hst. by left.
    + eapply Hpages; [by apply slab_page_elem|by apply link_in_page].
  - intros sl Hsl. apply (slab_ok_frame (mem s)); [|by apply I3]. intros a Ha. apply Hm.
    eapply Hpages; [by apply slab_page_elem|]. by eapply slab_bytes_in_page; [apply I3|].
  - cbn. constructor; [|done]. by rewrite not_elem_of_app.
  - rewrite page_free_eq by done. cbn [total_pages push_free set_free set_mem length].
    lia.
  - intros q a [->|Hq]%elem_of_cons Hs; [by apply Hst|by apply I6].
Qed.

Lemma links_middle c H1 sl H2 :
  sl_class sl = c →
  links c (H1 ++ sl :: H2) = links c H1 ++ slab_link (sl_base sl) :: links c H2.
Proof.
  intros E. unfold links. by rewrite filter_app, filter_cons, decide_True, fmap_app by done.
Qed.
Lemma links_app_both c H1 H2 : links c (H1 ++ H2) = links c H1 ++ links c H2.
Proof. unfold links. by rewrite filter_app, fmap_app. Qed.
Lemma links_other c H1 sl H2 : sl_class sl ≠ c → links c (H1 ++ sl :: H2) = links c (H1 ++ H2).
Proof. intros E. unfold links. by rewrite !filter_app, filter_cons, decide_False. Qed.

(** Unchaining a slab: its page then belongs to nobody. *)
Lemma detach_inv s F H1 sl H2 :
  heap_inv s F (H1 ++ sl :: H2) →
  let m := list_remove (slab_link (sl_base sl)) (mem s) in
  heap_inv (set_mem m s) F (H1 ++ H2) ∧
  same_on (λ a, ¬ in_nodes (class_head classes (sl_class sl) :: links (sl_class sl) (H1 ++ sl :: H2)) a)
    (mem s) m.
Proof.
  intros Hi m. pose proof Hi as [I1 I2 I3 I4 I5 I6 I7].
  assert (sl ∈ H1 ++ sl :: H2) as Hin by (apply elem_of_app; right; by left).
  pose proof (so_class _ _ (I3 _ Hin)) as Hc. set (c := sl_class sl) in *.
  pose proof (I2 c Hc) as Hd. rewrite links_middle in Hd by done.
  assert (same_on (λ a, ¬ in_nodes (class_head classes c :: links c (H1 ++ sl :: H2)) a)
            (mem s) m) as Hm.
  { intros a Ha. rewrite links_middle in Ha by done. by eapply remove_frame. }
  assert (∀ x, x ∈ H1 ++ H2 → x ∈ H1 ++ sl :: H2) as Hsub.
  { intros x. rewrite !elem_of_app, elem_of_cons. tauto. }
  assert (∀ p, p ∈ F ++ (sl_page <$> H1 ++ H2) → p ∈ F ++ (sl_page <$> H1 ++ sl :: H2)) as Hsubp.
  { intros p. rewrite !fmap_app, fmap_cons, !elem_of_app, elem_of_cons. tauto. }
  split; [|done]. split; cbn [mem set_mem total_pages].
  - apply (free_rep_frame s); try done. intros p Hp a Ha. apply Hm. intros Hn.
    by eapply (nodes_free_page s F _ c p a).
  - intros c' Hc'. destruct (decide (c = c')) as [<-|Hne].
    + rewrite links_app_both. by apply remove_dlist.
    + pose proof (I2 c' Hc') as Hd'. rewrite (links_other c' H1 sl H2) in Hd' by done.
      apply (dlist_frame (mem s)); [|done]. intros a Ha. apply Hm. intros Hn.
      eapply (nodes_other_class s F _ c c' a); eauto. by rewrite links_other.
  - intros sl' Hsl'. apply (slab_ok_frame (mem s)); [|by apply I3, Hsub]. intros a Ha. apply Hm.
    intros Hn. by eapply (nodes_slab_bytes s F _ c sl' a); eauto.
  - rewrite fmap_app, fmap_cons in I4. rewrite fmap_app.
    apply NoDup_app in I4 as (N1 & N2 & N3). apply NoDup_app. split; [done|]. split.
    + intros x Hx Hx'. apply (N2 x Hx). rewrite !elem_of_app, elem_of_cons in *. tauto.
    + apply NoDup_app in N3 as (M1 & M2 & M3). apply NoDup_cons in M3 as [_ M3].
      apply NoDup_app. split; [done|]. split; [|done]. intros x Hx Hx'. apply (M2 x Hx). by right.
  - rewrite length_app in *. cbn [length] in I5. lia.
  - intros p a Hp. by apply I6, Hsubp.
  - done.
Qed.

(** Putting an object back on its slab's free list. *)
Lemma push_step s F H1 sl H2 o :
  heap_inv s F (H1 ++ sl :: H2) → is_object (sl_base sl) (sl_class sl) o → o ∉ sl_free sl →
  let m := set_counts (store64 (mem s) o (get_free (mem s) (sl_base sl))) (sl_base sl) o
             (get_used (mem s) (sl_base sl) - 1) in
  0 < get_used (mem s) (sl_base sl) ∧
  heap_inv (set_mem m s) F (H1 ++ mk_slab (sl_page sl) (sl_class sl) (o :: sl_free sl) :: H2) ∧
  same_on (λ a, ¬ (sl_base sl <= a < sl_base sl + 16) ∧ ¬ (o <= a < o + 8)) (mem s) m.
Proof.
  intros Hi Ho Hn m. assert (slab_ok (mem s) sl) as Hok.
  { apply (hi_slabs _ _ _ _ _ Hi). apply elem_of_app. right. by left. }
  pose proof (so_class _ _ Hok) as Hc. pose proof (object_bounds _ _ _ Hc Ho) as Hb.
  destruct (slab_of_object sl o (so_page _ _ Hok) Hc Ho) as (Hu & _ & _).
  destruct (push_ok (mem s) sl o Hok Ho Hn Hu) as [Hpos Hok']. destruct (class_geometry_ok _ Hc).
  assert (same_on (λ a, ¬ (sl_base sl <= a < sl_base sl + 16) ∧ ¬ (o <= a < o + 8)) (mem s) m) as Hm.
  { intros a [H3 H4]. unfold m. rewrite set_counts_frame, load8_store64_out by lia. done. }
  split; [done|]. split; [|done].
  apply (heap_inv_update _ _ s _ F H1 sl); try done. intros a Ha. apply Hm.
  unfold in_page in Ha. fold (sl_base sl) in Ha. lia.
Qed.

(** What freeing the object of [n] bytes at [o] does to the heap. *)
Record released (s : kstate) (F : list Z) (H : list slab) (o n : Z) (s' : kstate)
    (F' : list Z) (H' : list slab) : Prop := {
  re_rep : heap_rep s' F' H';
  re_pages : F' ++ (sl_page <$> H') ≡ₚ F ++ (sl_page <$> H);
  re_live : ∀ x k, live H' x k ↔ live H x k ∧ x ≠ o;
  re_kept : same_on (λ a, client F H a ∧ ¬ (o <= a < o + n)) (mem s) (mem s');
}.

(** Other slabs do not hold the object. *)
Lemma live_push s F H1 sl H2 o x k :
  heap_inv s F (H1 ++ sl :: H2) → is_object (sl_base sl) (sl_class sl) o →
  live (H1 ++ mk_slab (sl_page sl) (sl_class sl) (o :: sl_free sl) :: H2) x k ↔
  live (H1 ++ sl :: H2) x k ∧ x ≠ o.
Proof.
  intros Hi Ho. rewrite !live_middle, !live_single. cbn [sl_class sl_free].
  change (sl_base (mk_slab _ _ _)) with (sl_base sl). rewrite not_elem_of_cons.
  assert (live (H1 ++ H2) x k → x ≠ o) as Hother; [|tauto].
  intros (sl' & Hsl' & Ho' & _ & _) ->.
  assert (sl ∈ H1 ++ sl :: H2) as Hin by (apply elem_of_app; right; by left).
  assert (sl' ∈ H1 ++ sl :: H2) as Hin' by (rewrite elem_of_app, elem_of_cons in *; tauto).
  pose proof (so_class _ _ (hi_slabs _ _ _ _ _ Hi _ Hin)) as Hc.
  pose proof (so_class _ _ (hi_slabs _ _ _ _ _ Hi _ Hin')) as Hc'.
  destruct (class_geometry_ok _ Hc), (class_geometry_ok _ Hc').
  assert (sl_page sl' = sl_page sl) as E.
  { eapply slab_page_unique; eauto; [by apply slab_page_elem| |].
    - apply (object_in_page sl o o); [done|done|lia].
    - apply (object_in_page sl' o o); [done|done|lia]. }
  pose proof (hi_nodup _ _ _ _ _ Hi) as Hd. apply NoDup_app in Hd as (_ & _ & Hd).
  rewrite fmap_app, fmap_cons, (Permutation_app_comm (sl_page <$> H1)) in Hd. cbn in Hd.
  apply NoDup_cons in Hd as [Hd _]. apply Hd. rewrite <- E, <- fmap_app.
  apply list_elem_of_fmap_2. rewrite elem_of_app in *. tauto.
Qed.

Lemma live_size s F H sl o k :
  heap_inv s F H → sl ∈ H → is_object (sl_base sl) (sl_class sl) o → live H o k →
  k = class_size (sl_class sl).
Proof.
  intros Hi Hsl Ho (sl' & Hsl' & Ho' & _ & ->).
  pose proof (so_class _ _ (hi_slabs _ _ _ _ _ Hi _ Hsl)) as Hc.
  pose proof (so_class _ _ (hi_slabs _ _ _ _ _ Hi _ Hsl')) as Hc'.
  destruct (class_geometry_ok _ Hc), (class_geometry_ok _ Hc').
  do 2 f_equal. eapply slab_page_inj; eauto.
  eapply slab_page_unique; eauto; [by apply slab_page_elem| |].
  - apply (object_in_page sl o o); [done|done|lia].
  - apply (object_in_page sl' o o); [done|done|lia].
Qed.

(** A client's byte outside the object survives the push. *)
Lemma client_push s F H1 sl H2 o a :
  heap_inv s F (H1 ++ sl :: H2) → client F (H1 ++ sl :: H2) a →
  ¬ (o <= a < o + class_size (sl_class sl)) →
  ¬ (sl_base sl <= a < sl_base sl + 16) ∧ ¬ (o <= a < o + 8).
Proof.
  intros Hi Ha Hno. assert (sl ∈ H1 ++ sl :: H2) as Hin by (apply elem_of_app; right; by left).
  destruct (class_geometry_ok _ (so_class _ _ (hi_slabs _ _ _ _ _ Hi _ Hin))). split; [|lia].
  intros Hr. destruct (client_slab s F _ sl a Hi Hin Ha); [|lia].
  unfold in_page. fold (sl_base sl). lia.
Qed.

(** The object was not the last of its slab. *)
Lemma release_keeps s s1 F H1 sl H2 o flags m :
  heap_rep s F (H1 ++ sl :: H2) → heap_inv s1 F (H1 ++ sl :: H2) →
  same_on (λ a, ¬ in_lock heap_lock a) (mem s) (mem s1) →
  is_object (sl_base sl) (sl_class sl) o → o ∉ sl_free sl →
  m = set_counts (store64 (mem s1) o (get_free (mem s1) (sl_base sl))) (sl_base sl) o
        (get_used (mem s1) (sl_base sl) - 1) →
  get_used (mem s1) (sl_base sl) ≠ 1 →
  ∃ H', released s F (H1 ++ sl :: H2) o (class_size (sl_class sl))
    (irq_restore flags (drop_lock heap_lock (set_mem m s1))) F H'.
Proof.
  intros Hrep Hi Hlock Ho Hn -> Hlast.
  destruct (push_step s1 F H1 sl H2 o Hi Ho Hn) as (Hpos & Hi2 & Hm2). cbv zeta in *.
  set (sl' := mk_slab (sl_page sl) (sl_class sl) (o :: sl_free sl)) in *.
  destruct (drop_lock_inv _ _ _ flags Hi2) as (Hi3 & Hl3 & Hm3).
  assert (slab_ok (mem s1) sl) as Hok.
  { apply (hi_slabs _ _ _ _ _ Hi). apply elem_of_app. right. by left. }
  exists (H1 ++ sl' :: H2). split.
  - split; [done|done|]. intros x Hx. assert (x = sl' ∨ x ∈ H1 ++ sl :: H2) as [->|?].
    { rewrite !elem_of_app, !elem_of_cons in *. tauto. }
    + unfold in_use. cbn [sl_free sl_class sl' length]. rewrite (so_used _ _ Hok) in Hlast, Hpos. lia.
    + by apply (hr_used _ _ _ _ _ Hrep).
  - apply Permutation_refl'. by rewrite !fmap_app.
  - intros x k. by apply (live_push s1 F).
  - intros a [Ha Hno]. pose proof (client_not_static _ _ _ _ Hi Ha) as Hns.
    rewrite Hm3 by (intros ?; apply Hns; by right). cbn [mem set_mem].
    rewrite Hm2 by (by eapply client_push). apply Hlock. intros ?. apply Hns. by right.
Qed.

(** The object was the last of its slab, whose page goes back. *)
Lemma release_page s s1 F H1 sl H2 o flags m :
  heap_rep s F (H1 ++ sl :: H2) → heap_inv s1 F (H1 ++ sl :: H2) →
  same_on (λ a, ¬ in_lock heap_lock a) (mem s) (mem s1) →
  is_object (sl_base sl) (sl_class sl) o → o ∉ sl_free sl →
  m = set_counts (store64 (mem s1) o (get_free (mem s1) (sl_base sl))) (sl_base sl) o
        (get_used (mem s1) (sl_base sl) - 1) →
  get_used (mem s1) (sl_base sl) = 1 →
  released s F (H1 ++ sl :: H2) o (class_size (sl_class sl))
    (page_free (sl_page sl) (irq_restore flags (drop_lock heap_lock
       (set_mem (set_magic (list_remove (slab_link (sl_base sl)) m) (sl_base sl) 0) s1))))
    (sl_page sl :: F) (H1 ++ H2).
Proof.
  intros Hrep Hi Hlock Ho Hn -> Hlast.
  destruct (push_step s1 F H1 sl H2 o Hi Ho Hn) as (Hpos & Hi2 & Hm2). cbv zeta in *.
  set (m := set_counts _ _ _ _) in *.
  set (sl' := mk_slab (sl_page sl) (sl_class sl) (o :: sl_free sl)) in *.
  assert (sl ∈ H1 ++ sl :: H2) as Hin by (apply elem_of_app; right; by left).
  assert (sl' ∈ H1 ++ sl' :: H2) as Hin' by (apply elem_of_app; right; by left).
  pose proof (hi_slabs _ _ _ _ _ Hi _ Hin) as Hok.
  pose proof (hi_slabs _ _ _ _ _ Hi2 _ Hin') as Hok'. pose proof (so_class _ _ Hok) as Hc.
  destruct (detach_inv (set_mem m s1) F H1 sl' H2 Hi2) as [Hi3 Hm3]. cbn [mem set_mem] in Hi3, Hm3.
  change (sl_base sl') with (sl_base sl) in *. change (sl_class sl') with (sl_class sl) in *.
  set (m3 := list_remove _ m) in *.
  assert (sl_page sl ∉ F ++ (sl_page <$> H1 ++ H2)) as Hnp.
  { pose proof (hi_nodup _ _ _ _ _ Hi) as Hd.
    rewrite fmap_app, fmap_cons, app_assoc, (Permutation_app_comm (F ++ _)) in Hd. cbn in Hd.
    apply NoDup_cons in Hd as [Hd _]. intros Hx. apply Hd.
    rewrite fmap_app, !elem_of_app in *. tauto. }
  assert (∀ a, static classes heap_lock a → ¬ in_page (sl_page sl) a) as Hstat.
  { intros a Hs. eapply (hi_static _ _ _ _ _ Hi); [by apply slab_page_elem|done]. }
  assert (∀ a, ¬ in_page (sl_page sl) a → load8 (set_magic m3 (sl_base sl) 0) a = load8 m3 a) as Hmg.
  { intros a Ha. apply load8_store_le_out. unfold in_page in Ha. fold (sl_base sl) in Ha. lia. }
  assert (heap_inv (set_mem (set_magic m3 (sl_base sl) 0) s1) F (H1 ++ H2)) as Hi4.
  { eapply (heap_inv_frame classes heap_lock (set_mem m3 (set_mem m s1))); [exact Hi3|by split|].
    intros a Ha. cbn [mem set_mem]. apply Hmg. destruct Ha as [Ha|(p & Hp & Ha)].
    - apply Hstat. by left.
    - intros Hpa. apply Hnp. assert (p = sl_page sl) as <-; [|done].
      eapply in_page_disjoint; eauto; [by eapply heap_page_ok|apply Hok]. }
  destruct (drop_lock_inv _ _ _ flags Hi4) as (Hi5 & Hl5 & Hm5). set (s5 := irq_restore flags _) in *.
  destruct (add_free_inv s5 F (H1 ++ H2) (sl_page sl) Hi5 (so_page _ _ Hok) Hnp Hstat) as [Hi6 Hm6].
  { unfold s5. rewrite (sv_total _ _ (same_vars_irq_restore _ _)). cbn [total_pages drop_lock set_mem].
    pose proof (hi_total _ _ _ _ _ Hi). rewrite length_app in *. cbn [length] in *. lia. }
  assert (∀ x k, live (H1 ++ H2) x k ↔ live (H1 ++ sl :: H2) x k ∧ x ≠ o) as Hlive.
  { intros x k. rewrite <- (live_push s1 F) by done. rewrite live_middle.
    split; [by left|]. intros [?|Hl]; [done|]. exfalso. apply (live_full _ _ _ _ Hok') in Hl; [done|].
    cbn [sl_free sl_class sl' length]. rewrite (so_used _ _ Hok) in Hlast. lia. }
  split.
  - split; [done| |].
    + transitivity (load_le (mem s5) heap_lock 4); [|done].
      apply load_le_ext. intros b Hb. apply Hm6, Hstat. right. unfold in_lock. lia.
    + intros x Hx. apply (hr_used _ _ _ _ _ Hrep). rewrite elem_of_app, elem_of_cons in *. tauto.
  - rewrite !fmap_app, fmap_cons, !app_assoc. cbn. apply Permutation_middle.
  - done.
  - intros a [Ha Hno]. pose proof (client_not_static _ _ _ _ Hi Ha) as Hns.
    assert (¬ in_page (sl_page sl) a) as Hnpa.
    { intros Hpa. destruct Ha as [[_ Ha]|(x & k & Hl & Hr)].
      { by apply (Ha (sl_page sl)); [apply slab_page_elem|]. }
      assert (x ≠ o) as Hx.
      { intros ->. apply Hno. by rewrite <- (live_size s1 F (H1 ++ sl :: H2) sl o k). }
      assert (live (H1 ++ H2) x k) as Hl2 by (by apply Hlive).
      destruct (live_in_page _ _ _ _ _ _ Hi3 Hl2 Hr) as (sl2 & Hsl2 & Hp2 & _). apply Hnp.
      assert (sl_page sl2 = sl_page sl) as <-; [|by apply slab_page_elem].
      eapply in_page_disjoint; eauto; [|apply Hok]. eapply heap_page_ok; [exact Hi3|].
      by apply slab_page_elem. }
    rewrite Hm6 by done. rewrite Hm5 by (intros ?; apply Hns; by right). cbn [mem set_mem].
    rewrite Hmg by done. rewrite Hm3.
    + rewrite Hm2 by (by eapply client_push). apply Hlock. intros ?. apply Hns. by right.
    + assert (links (sl_class sl) (H1 ++ sl' :: H2) = links (sl_class sl) (H1 ++ sl :: H2)) as ->
        by (by rewrite !links_middle).
      by apply (client_not_nodes s1 F _ _ _ Hi).
Qed.

(** The heap with no live object has no slab. *)
Lemma no_live_no_slab s F H : heap_rep s F H → (∀ x k, ¬ live H x k) → H = [].
Proof.
  intros Hrep Hl. destruct H as [|sl H]; [done|]. exfalso.
  assert (sl ∈ sl :: H) as Hin by (by left).
  pose proof (hr_used _ _ _ _ _ Hrep _ Hin) as Hu. unfold in_use in Hu.
  pose proof (hi_slabs _ _ _ _ _ (hr_inv _ _ _ _ _ Hrep) _ Hin) as Hok.
  destruct (class_geometry_ok _ (so_class _ _ Hok)).
  assert (Forall (λ o, o ∈ sl_free sl) (objects (sl_base sl) (sl_class sl))) as Hall.
  { apply list.Forall_forall. intros o Ho%elem_of_objects.
    destruct (decide (o ∈ sl_free sl)) as [?|Hn]; [done|]. exfalso.
    apply (Hl o (class_size (sl_class sl))). by exists sl. }
  assert (length (objects (sl_base sl) (sl_class sl)) <= length (sl_free sl))%nat as Hle.
  { apply submseteq_length, NoDup_submseteq; [apply NoDup_objects, Hok|].
    by rewrite list.Forall_forall in Hall. }
  rewrite length_objects in Hle. lia.
Qed.

(** [kfree] on an object in use, up to the reads of the slab's header. *)
Lemma kfree_reduces s s1 F H1 sl H2 o :
  take_lock heap_lock (irq_save s).2 = Some s1 → heap_inv s1 F (H1 ++ sl :: H2) →
  is_object (sl_base sl) (sl_class sl) o → o ∉ sl_free sl →
  let m := set_counts (store64 (mem s1) o (get_free (mem s1) (sl_base sl))) (sl_base sl) o
             (get_used (mem s1) (sl_base sl) - 1) in
  kfree heap_lock o s = Some
    (if get_used (mem s1) (sl_base sl) - 1 =? 0 then
       page_free (sl_page sl) (irq_restore (sstatus s) (drop_lock heap_lock
         (set_mem (set_magic (list_remove (slab_link (sl_base sl)) m) (sl_base sl) 0) s1)))
     else irq_restore (sstatus s) (drop_lock heap_lock (set_mem m s1))).
Proof.
  intros Et Hi Ho Hn m2. assert (slab_ok (mem s1) sl) as Hok.
  { apply (hi_slabs _ _ _ _ _ Hi). apply elem_of_app. right. by left. }
  pose proof (so_class _ _ Hok) as Hc. pose proof (object_bounds _ _ _ Hc Ho) as Hb.
  destruct (slab_of_object sl o (so_page _ _ Hok) Hc Ho) as (Hu & Hnz & Hbase).
  destruct (push_step s1 F H1 sl H2 o Hi Ho Hn) as (Hpos & _ & _).
  destruct (class_geometry_ok _ Hc).
  assert (get_used (mem s1) (sl_base sl) < 256) as Hsmall by (rewrite (so_used _ _ Hok); lia).
  set (m1 := store64 (mem s1) o (get_free (mem s1) (sl_base sl))) in *.
  assert (get_used m1 (sl_base sl) = get_used (mem s1) (sl_base sl)) as Eu
    by (apply load_le_store64; lia).
  assert (get_used m2 (sl_base sl) = get_used (mem s1) (sl_base sl) - 1) as Eu2.
  { unfold m2, set_counts, set_used, get_used at 1. rewrite load_le_store_le.
    apply Z.mod_small. simpl. lia. }
  unfold kfree. rewrite (proj2 (Z.eqb_neq _ _) Hnz), Hbase. unfold irq_save in *. cbn [snd] in Et.
  rewrite Et, (so_magic _ _ Hok), (so_index _ _ Hok). fold m1.
  rewrite Z.eqb_refl, (proj2 (Z.eqb_neq (get_used (mem s1) (sl_base sl)) 0)) by lia.
  assert ((sl_class sl >=? CLASS_COUNT) = false) as -> by lia. bsimpl.
  rewrite get_used_set_freelist, Eu.
  assert (u16 (get_used (mem s1) (sl_base sl) - 1) = get_used (mem s1) (sl_base sl) - 1) as ->
    by (apply Z.mod_small; lia).
  fold (set_counts m1 (sl_base sl) o (get_used (mem s1) (sl_base sl) - 1)). fold m2. rewrite Eu2.
  destruct (_ =? 0); [|done]. do 2 f_equal. apply virt_phys. destruct (so_page _ _ Hok).
  unfold in_u64. lia.
Qed.

Lemma sstatus_page_free p s : sstatus (page_free p s) = sstatus s.
Proof.
  unfold page_free. destruct (_ || _); [done|]. unfold irq_save. by rewrite irq_section.
Qed.

Lemma kfree_spec s F H o n :
  heap_rep s F H → live H o n →
  ∃ s' F' H', kfree heap_lock o s = Some s' ∧ sstatus s' = sstatus s ∧
    released s F H o n s' F' H' ∧ ((∀ x k, ¬ live H' x k) → H' = []).
Proof.
  intros Hrep Hl. pose proof Hl as (sl & Hsl & Ho & Hn & ->).
  apply list_elem_of_split in Hsl as (H1 & H2 & ->).
  destruct (take_lock_inv s F _ Hrep) as (s1 & Et & Hi1 & Hst1 & Hm1).
  rewrite (kfree_reduces s s1 F H1 sl H2 o Et Hi1 Ho Hn).
  destruct (Z.eqb_spec (get_used (mem s1) (sl_base sl) - 1) 0) as [E|E].
  - pose proof (release_page s s1 F H1 sl H2 o (sstatus s) _ Hrep Hi1 Hm1 Ho Hn eq_refl
      ltac:(lia)) as Hr.
    eexists _, _, _. split; [done|].
    split; [rewrite sstatus_page_free; by rewrite irq_section|]. split; [exact Hr|].
    eapply no_live_no_slab, Hr.
  - destruct (release_keeps s s1 F H1 sl H2 o (sstatus s) _ Hrep Hi1 Hm1 Ho Hn eq_refl
      ltac:(lia)) as [H' Hr].
    eexists _, _, _. split; [done|]. split; [by rewrite irq_section|]. split; [exact Hr|].
    eapply no_live_no_slab, Hr.
Qed.

(** C29. [kfree] of an object in use always returns and takes exactly that object
    out of use: every other live object keeps its place and its contents, as does
    all memory that is not the heap's; no page is lost or duplicated, and the
    interrupt flag is restored.  The heap keeps no slab without an object in use,
    so a heap with no live object has given every page back. *)
Theorem kfree_correct s F H o n :
  heap_rep s F H → live H o n →
  ∃ s' F' H', kfree heap_lock o s = Some s' ∧ sstatus s' = sstatus s ∧
    released s F H o n s' F' H' ∧ ((∀ x k, ¬ live H' x k) → H' = []).
Proof. apply kfree_spec. Qed.

(** ** Initialisation *)

Lemma list_init_frame head m a : ¬ (head <= a < head + 16) → load8 (list_init head m) a = load8 m a.
Proof. intros Ha. unfold list_init. by rewrite load8_set_next, load8_set_prev. Qed.

(** Class heads initialised one after the other stay initialised. *)
Lemma init_heads cs m :
  0 <= classes → classes + 16 * CLASS_COUNT <= 2 ^ 64 → NoDup cs →
  (∀ c, c ∈ cs → 0 <= c < CLASS_COUNT) →
  let m' := fold_left (λ m i, list_init (class_head classes i) m) cs m in
  (∀ c, c ∈ cs → dlist m' (class_head classes c) []) ∧
  (∀ a, ¬ (∃ c, c ∈ cs ∧ class_head classes c <= a < class_head classes c + 16) →
     load8 m' a = load8 m a).
Proof.
  intros Hl Hu. revert m. induction cs as [|c cs IH]; intros m Hnd Hcs; cbn [fold_left].
  { split; [intros c Hc; by apply not_elem_of_nil in Hc|done]. }
  apply NoDup_cons in Hnd as [Hn Hnd].
  destruct (IH (list_init (class_head classes c) m) Hnd) as [H1 H2].
  { intros c' Hc'. apply Hcs. by right. }
  pose proof (Hcs c ltac:(by left)) as Hc. split.
  - intros c' [->|Hc']%elem_of_cons; [|by apply H1].
    apply (dlist_frame (list_init (class_head classes c) m)).
    + intros a (n & ->%list_elem_of_singleton & Ha). apply H2. intros (c' & Hc' & Ha').
      pose proof (Hcs c' ltac:(by right)). assert (c = c') as ->; [|done].
      unfold class_head in *. lia.
    + apply list_init_dlist. unfold in_u64, class_head. lia.
  - intros a Ha. rewrite H2.
    + apply list_init_frame. intros Hr. apply Ha. exists c. split; [by left|done].
    + intros (c' & Hc' & Hr). apply Ha. exists c'. split; [by right|done].
Qed.

Lemma heap_init_rep s F :
  free_rep s F → Z.of_nat (length F) <= total_pages s →
  (∀ p a, p ∈ F → static classes heap_lock a → ¬ in_page p a) →
  0 <= classes → classes + 16 * CLASS_COUNT <= 2 ^ 64 →
  heap_lock + 4 <= classes ∨ classes + 16 * CLASS_COUNT <= heap_lock →
  heap_rep (heap_init classes heap_lock s) F [].
Proof.
  intros Hf Ht Hst Hl Hu Hd.
  destruct (init_heads [0; 1; 2; 3; 4; 5; 6; 7] (mem s)) as [H1 H2]; [done|done| | |].
  { apply (bool_decide_unpack _). by vm_compute. }
  { intros c Hc. set_unfold in Hc. lia. }
  unfold heap_init. set (m := fold_left _ _ (mem s)) in *.
  assert (∀ a, ¬ static classes heap_lock a →
    load8 (store_le m heap_lock 4 spinlock_init) a = load8 (mem s) a) as Hm.
  { intros a Ha. rewrite load8_store_le_out.
    - apply H2. intros (c & Hc & Hr). apply Ha. left. set_unfold in Hc.
      unfold in_classes, class_head in *. lia.
    - intros Hr. apply Ha. by right. }
  split; [split|..]; cbn [mem set_mem total_pages]; rewrite ?app_nil_r.
  - apply (free_rep_frame s); try done. intros p Hp a Ha. apply Hm. intros Hs.
    by apply (Hst p a).
  - intros c Hc. apply (dlist_frame m).
    + intros a (n & ->%list_elem_of_singleton & Ha). apply load8_store_le_out.
      unfold class_head in Ha. lia.
    + apply H1. set_unfold. lia.
  - intros sl Hsl. by apply not_elem_of_nil in Hsl.
  - apply Hf.
  - cbn [length]. lia.
  - intros p a Hp Hs. by apply Hst.
  - done.
  - by rewrite load_le_store_le.
  - intros sl Hsl. by apply not_elem_of_nil in Hsl.
Qed.
End Heap.

(** * A concrete heap *)

Module HeapDemo.
(** The statics at 4096 and 8192, and four pages of RAM. *)
Definition machine : kstate := heap_init 4096 8192 (set_total 4 (stocked four_pages)).

Lemma set_total_rep s l k : free_rep s l → free_rep (set_total k s) l.
Proof. intros []. by split. Qed.

Lemma machine_rep : heap_rep 4096 8192 machine four_pages [].
Proof.
  apply heap_init_rep; try (cbn; lia).
  - apply set_total_rep, four_pages_rep.
  - intros p a Hp Ha Hpa. unfold static, in_classes, in_lock in Ha.
    assert (page_ok p) as Hok.
    { pose proof (fr_pages _ _ four_pages_rep) as Hf. rewrite list.Forall_forall in Hf. auto. }
    pose proof (base_range p Hok). unfold in_page in Hpa. lia.
Qed.

Lemma kmalloc_correct_witness :
  ∃ o s', kmalloc 4096 8192 100 machine = Some (o, s') ∧ sstatus s' = sstatus machine ∧
    o = 18446743800979132288 ∧
    ∃ n F' H', allocated 4096 8192 machine four_pages [] o n s' F' H' ∧ 100 <= n.
Proof.
  destruct (kmalloc_correct 4096 8192 100 machine four_pages [] machine_rep ltac:(lia))
    as (o & s' & E & Hst & Hres).
  exists o, s'. split; [exact E|]. split; [exact Hst|].
  assert (o = 18446743800979132288) as Eo.
  { assert (fst <$> kmalloc 4096 8192 100 machine = Some 18446743800979132288) as Ef by (by vm_compute).
    rewrite E in Ef. by injection Ef. }
  split; [exact Eo|]. destruct Hres as [[E0 _]|(_ & n & F' & H' & Ha & Hn & _)]; [rewrite E0 in Eo; discriminate Eo|].
  exists n, F', H'. split; [exact Ha|exact Hn].
Defined.

Lemma kfree_correct_witness :
  ∃ s1 s2 F' H' o, kmalloc 4096 8192 100 machine = Some (o, s1) ∧ kfree 8192 o s1 = Some s2 ∧
    heap_rep 4096 8192 s2 F' H' ∧ H' = [].
Proof.
  destruct (kmalloc_spec 4096 8192 100 machine four_pages [] machine_rep ltac:(lia))
    as (o & s1 & E & _ & Hres).
  destruct Hres as [(_ & _ & _ & [Hbig|Hnone])|(_ & n & F1 & H1 & Ha & _)];
    [exfalso; clear -Hbig; lia|discriminate Hnone|].
  pose proof (proj2 (al_live _ _ _ _ _ _ _ _ _ _ Ha o n) (or_intror (conj eq_refl eq_refl))) as Hl.
  destruct (kfree_correct 4096 8192 s1 F1 H1 o n (al_rep _ _ _ _ _ _ _ _ _ _ Ha) Hl)
    as (s2 & F2 & H2 & Ef & _ & Hr & Hempty).
  exists s1, s2, F2, H2, o. split; [exact E|]. split; [exact Ef|].
  split; [exact (re_rep _ _ _ _ _ _ _ _ _ _ Hr)|].
  apply Hempty. intros x k Hx. apply (re_live _ _ _ _ _ _ _ _ _ _ Hr) in Hx as [Hx Hne].
  apply (al_live _ _ _ _ _ _ _ _ _ _ Ha) in Hx as [(sl & Hsl & _)|[Ex _]]; [|exact (Hne Ex)].
  exact (not_elem_of_nil _ Hsl).
Defined.
End HeapDemo.
