(* ===== verification/HeapInstance.v ===== *)
(** The heap of [src/mm/heap.c] meets the contract its clients rely on. *)
From S2P Require Import Prelude Machine Runtime PageAlloc KList Log Heap HeapProps HeapThms HeapSpec.

Section Instance.
(** The statics' addresses, outside the direct map of any page. *)
Context (classes heap_lock : Z).

(** [kmalloc] and [kfree] always return on a well-formed heap; where they would
    not, the state is left alone. *)
#[local] Instance slab_heap : KernelHeap := {
  kmalloc n s := default (0, s) (Heap.kmalloc classes heap_lock n s);
  kfree o s := default s (Heap.kfree heap_lock o s);
}.

Record slab_heap_ok (U : list Z) (s : kstate) (F P : list Z) (L : gset Z) (H : list slab) : Prop := {
  sh_rep : heap_rep classes heap_lock s F H;
  sh_pages : P = sl_page <$> H;
  sh_live : ∀ o, o ∈ L ↔ ∃ n, live H o n;
  sh_sub : ∀ p, p ∈ F ++ P → p ∈ U;
  sh_universe : ∀ p, p ∈ U → page_ok p ∧ ∀ a, static classes heap_lock a → ¬ in_page p a;
  sh_count : Z.of_nat (length U) <= total_pages s;
}.

Lemma live_unique s F H o n k :
  heap_rep classes heap_lock s F H → live H o n → live H o k → k = n.
Proof.
  intros Hr (sl & Hsl & Ho & Hn & ->) Hk.
  exact (live_size classes heap_lock s F H sl o k (hr_inv _ _ _ _ _ Hr) Hsl Ho Hk).
Qed.

Lemma client_outside s F H a :
  heap_rep classes heap_lock s F H → outside (F ++ (sl_page <$> H)) a → ¬ static classes heap_lock a →
  client classes heap_lock F H a.
Proof. intros _ Ho Hs. by left. Qed.

(** ** The number of managed pages *)

Lemma total_new_slab c s o s' : new_slab classes c s = Some (o, s') → total_pages s' = total_pages s.
Proof.
  unfold new_slab. pose proof (total_page_alloc s) as Ht. destruct (page_alloc s) as [p s1].
  cbn [snd] in Ht. destruct (p =? 0); [by intros [= _ <-]|].
  destruct (carve _ _ _ _ _); [|done]. by intros [= _ <-].
Qed.

Lemma total_kmalloc n s o s' :
  Heap.kmalloc classes heap_lock n s = Some (o, s') → total_pages s' = total_pages s.
Proof.
  rewrite kmalloc_unfold. cbv zeta. set (c := find_class _ _ 0).
  destruct (c =? CLASS_COUNT); [by intros [= _ <-]|]. unfold take_lock.
  destruct (spin_lock _) as [v|]; [|done]. set (s1 := set_mem _ _).
  destruct (find_slab _ _ _ _) as [slab|]; [|done].
  destruct (if slab =? 0 then _ else _) as [[slab' s2]|] eqn:E; [|done].
  assert (total_pages s2 = total_pages s) as Ht.
  { change (total_pages s) with (total_pages s1). destruct (slab =? 0).
    - by eapply total_new_slab.
    - by injection E as _ <-. }
  unfold serve. destruct (slab' =? 0); intros [= _ <-]; [by rewrite total_irq_restore|].
  cbn [total_pages set_mem]. by rewrite total_irq_restore.
Qed.

Lemma total_kfree o s s' : Heap.kfree heap_lock o s = Some s' → total_pages s' = total_pages s.
Proof.
  unfold Heap.kfree, irq_save, take_lock. destruct (o =? 0); [by intros [= <-]|].
  destruct (spin_lock _) as [v|]; [|done].
  destruct (_ || _); [intros [= <-]; by rewrite total_irq_restore|].
  destruct (_ =? 0); intros [= <-]; by rewrite ?total_page_free, total_irq_restore.
Qed.

(** ** The contract *)

Lemma slab_kmalloc_ok U s F P L H n :
  slab_heap_ok U s F P L H → 0 <= n →
  ∃ o s' F' P' H', kmalloc n s = (o, s') ∧
    slab_heap_ok U s' F' P' (if o =? 0 then L else {[o]} ∪ L) H' ∧ (o ≠ 0 → o ∉ L) ∧
    F' ++ P' ≡ₚ F ++ P ∧ total_pages s' = total_pages s ∧
    same_on (λ a, outside (F ++ P) a ∧ ¬ static classes heap_lock a) (mem s) (mem s').
Proof.
  intros [Hr -> Hl Hs Hu Hc] Hn.
  destruct (kmalloc_spec classes heap_lock n s F H Hr Hn)
    as (o & s' & E & _ & [(-> & Hr' & Hm & _)|(Ho & k & F' & H' & Ha & _)]);
    pose proof (total_kmalloc _ _ _ _ E) as Ht.
  - exists 0, s', F, (sl_page <$> H), H. split; [unfold kmalloc; cbn; by rewrite E|].
    split; [by split; rewrite ?Ht|]. split; [done|]. split; [done|]. split; [done|].
    intros a _. apply Hm.
  - pose proof Ha as [A1 A2 A3 A4 A5 A6 A7].
    exists o, s', F', (sl_page <$> H'), H'. split; [unfold kmalloc; cbn; by rewrite E|].
    rewrite (proj2 (Z.eqb_neq _ _) Ho). split; [|split; [|split; [done|split; [done|]]]].
    + split; try done.
      * intros x. rewrite elem_of_union, elem_of_singleton, Hl. setoid_rewrite A3. naive_solver.
      * intros p Hp. apply Hs. by rewrite <- A2.
      * by rewrite Ht.
    + intros _ [x Hx]%Hl. pose proof (A4 _ _ Hx) as Hd.
      assert (live H' o x) as H1 by (apply A3; by left).
      assert (live H' o k) as H2 by (apply A3; by right).
      pose proof (live_unique _ _ _ _ _ _ A1 H1 H2) as ->.
      destruct H1 as (sl & Hsl & _ & _ & ->).
      destruct (class_geometry_ok _ (so_class _ _ (hi_slabs _ _ _ _ _ (hr_inv _ _ _ _ _ A1) _ Hsl))).
      lia.
    + intros a [Hout Hst]. apply A7. by left.
Qed.

Lemma slab_kfree_ok U s F P L H o :
  slab_heap_ok U s F P L H → o ∈ L →
  ∃ F' P' H', slab_heap_ok U (kfree o s) F' P' (L ∖ {[o]}) H' ∧ F' ++ P' ≡ₚ F ++ P ∧
    total_pages (kfree o s) = total_pages s ∧
    same_on (λ a, outside (F ++ P) a ∧ ¬ static classes heap_lock a) (mem s) (mem (kfree o s)).
Proof.
  intros [Hr -> Hl Hs Hu Hc] Ho. apply Hl in Ho as [n Ho].
  destruct (kfree_spec classes heap_lock s F H o n Hr Ho)
    as (s' & F' & H' & E & _ & [R1 R2 R3 R4] & _).
  pose proof (total_kfree _ _ _ E) as Ht.
  assert (kfree o s = s') as -> by (unfold kfree; cbn; by rewrite E).
  exists F', (sl_page <$> H'), H'. split; [split; try done|].
  - intros x. rewrite elem_of_difference, elem_of_singleton, Hl. setoid_rewrite R3. naive_solver.
  - intros p Hp. apply Hs. by rewrite <- R2.
  - by rewrite Ht.
  - split; [done|]. split; [done|]. intros a [Hout Hst]. apply R4. split; [by left|].
    intros Ha. destruct (live_in_page _ _ _ _ _ _ _ _ (hr_inv _ _ _ _ _ Hr) Ho Ha)
      as (sl & Hsl & Hp & _).
    apply (Hout (sl_page sl)); [by apply slab_page_elem|done].
Qed.

Lemma slab_transfer U s F P L H s' F' :
  slab_heap_ok U s F P L H → free_rep s' F' → NoDup (F' ++ P) → (∀ p, p ∈ F' → p ∈ U) →
  total_pages s' = total_pages s →
  same_on (λ a, static classes heap_lock a ∨ ∃ p, p ∈ P ∧ in_page p a) (mem s) (mem s') →
  slab_heap_ok U s' F' P L H.
Proof.
  intros [[Hi Hlk Hused] -> Hl Hs Hu Hc] Hf Hnd Hsub Ht Hm.
  assert (∀ p, p ∈ F' ++ (sl_page <$> H) → p ∈ U) as HU.
  { intros p [Hp|Hp]%elem_of_app; [by apply Hsub|]. apply Hs, elem_of_app. by right. }
  split; try done; [|by rewrite Ht].
  split; [|rewrite <- Hlk; apply load_le_ext; intros b Hb; apply Hm; left; right; unfold in_lock; lia|done].
  pose proof Hi as [I1 I2 I3 I4 I5 I6 I7]. split; try done.
  - intros c Hcc. apply (dlist_frame (mem s)); [|by apply I2]. intros a Ha. apply Hm.
    destruct (in_nodes_static classes c H a Hcc Ha) as [Hst|(sl & Hsl & Hr)]; [left; by left|].
    right. exists (sl_page sl). split; [by apply list_elem_of_fmap_2|by apply link_in_page].
  - intros sl Hsl. apply (slab_ok_frame (mem s)); [|by apply I3]. intros a Ha. apply Hm. right.
    exists (sl_page sl). split; [by apply list_elem_of_fmap_2|].
    by eapply slab_bytes_in_page; [apply I3|].
  - rewrite Ht. assert (length (F' ++ (sl_page <$> H)) <= length U)%nat as Hlen.
    { apply submseteq_length, NoDup_submseteq; done. }
    rewrite length_app, length_fmap in Hlen. lia.
  - intros p a Hp Hst. by apply (Hu p (HU p Hp)).
Qed.

#[refine, local] Instance slab_heap_contract : HeapContract := {
  heap_ok U s F P L := ∃ H, slab_heap_ok U s F P L H;
  heap_static := static classes heap_lock;
  heap_ok_free := _; heap_ok_nodup := _; heap_ok_sub := _; heap_ok_page := _;
  heap_ok_static := _; heap_ok_null := _; heap_ok_object := _; kmalloc_ok := _; kfree_ok := _; kfree_null := _;
  heap_ok_transfer := _;
}.
Proof.
  - intros U s F P L [H Hh]. apply Hh.
  - intros U s F P L [H [[Hi _ _] -> _ _ _ _]]. apply Hi.
  - intros U s F P L p [H Hh]. apply Hh.
  - intros U s F P L p [H Hh] Hp. apply (sh_universe _ _ _ _ _ _ Hh p Hp).
  - intros U s F P L p a [H Hh] Hp. apply (sh_universe _ _ _ _ _ _ Hh p Hp).
  - intros U s F P L [H [Hr _ Hl _ _ _]] [n Hn]%Hl.
    destruct Hn as (sl & Hsl & Ho & _ & _).
    pose proof (hi_slabs _ _ _ _ _ (hr_inv _ _ _ _ _ Hr) _ Hsl) as Hok.
    destruct (slab_of_object sl 0 (so_page _ _ Hok) (so_class _ _ Hok) Ho) as (_ & ? & _). done.
  - intros U s F P L o [H [Hr -> Hl _ _ _]] [n Hn]%Hl. pose proof Hn as (sl & Hsl & _ & _ & E).
    destruct (class_geometry_ok _ (so_class _ _ (hi_slabs _ _ _ _ _ (hr_inv _ _ _ _ _ Hr) _ Hsl))).
    destruct (live_in_page _ _ _ _ _ _ _ o (hr_inv _ _ _ _ _ Hr) Hn ltac:(lia)) as (sl' & Hsl' & Hp & _).
    exists (sl_page sl'). split; [by apply list_elem_of_fmap_2|done].
  - intros U s F P L n [H Hh] Hn.
    destruct (slab_kmalloc_ok U s F P L H n Hh Hn) as (o & s' & F' & P' & H' & E & H1 & H2).
    exists o, s', F', P'. split; [done|]. split; [by exists H'|done].
  - intros U s F P L o [H Hh] Ho.
    destruct (slab_kfree_ok U s F P L H o Hh Ho) as (F' & P' & H' & H1 & H2).
    exists F', P'. split; [by exists H'|done].
  - done.
  - intros U s F P L s' F' [H Hh] H1 H2 H3 H4 H5. exists H. by eapply slab_transfer.
Defined.
End Instance.
