(* ===== verification/Ownership.v ===== *)
(** The division of the machine's pages between the free list, the heap and the
    components that hold pages of their own ([src/mm/address_space.c],
    [src/fs/vfs.c]); what the allocators leave alone. *)
From S2P Require Import Prelude Machine Runtime PageAlloc HeapSpec.

Section Division.
Context `{HeapContract}.

(** The bytes of the pages [Q], and all that lies outside the managed pages [U] and
    is not the heap's. *)
Definition region (U Q : list Z) (a : Z) : Prop :=
  (∃ p, p ∈ Q ∧ in_page p a) ∨ (outside U a ∧ ¬ heap_static a).

Definition kept (U Q : list Z) (m m' : memory) : Prop := same_on (region U Q) m m'.

Lemma kept_refl U Q m : kept U Q m m.
Proof. by intros a _. Qed.
Lemma kept_trans U Q m1 m2 m3 : kept U Q m1 m2 → kept U Q m2 m3 → kept U Q m1 m3.
Proof. intros H1 H2 a Ha. etransitivity; [by apply H2|by apply H1]. Qed.
Lemma kept_sub U Q Q' m m' : (∀ p, p ∈ Q' → p ∈ Q) → kept U Q m m' → kept U Q' m m'.
Proof. intros HQ Hk a [(p & Hp & Ha)|Ha]; apply Hk; [left; eauto|by right]. Qed.

(** Of the pages [U], [F] are free, [P] the heap's and [Q] everybody else's. *)
Record bare (U : list Z) (s : kstate) (F P : list Z) (L : gset Z) (Q : list Z) : Prop := {
  ba_heap : heap_ok U s F P L;
  ba_pages : F ++ P ++ Q ≡ₚ U;
  ba_nodup : NoDup U;
}.

Lemma bare_member U s F P L Q p : bare U s F P L Q → p ∈ F ++ P ++ Q → p ∈ U ∧ page_ok p.
Proof.
  intros [B1 B2 B3] Hp. rewrite B2 in Hp. split; [done|]. by eapply heap_ok_page.
Qed.

(** Pages of the division share no byte. *)
Lemma bare_disjoint U s F P L Q p q a :
  bare U s F P L Q → p ∈ F ++ P ++ Q → q ∈ F ++ P ++ Q → in_page p a → in_page q a → p = q.
Proof.
  intros Hb Hp Hq. apply in_page_disjoint; by eapply (bare_member U).
Qed.

Lemma bare_region U s F P L Q a :
  bare U s F P L Q → region U Q a → outside (F ++ P) a ∧ ¬ heap_static a.
Proof.
  intros Hb Ha. destruct Ha as [(p & Hp & Ha)|[Ho Hs]].
  - split.
    + intros q Hq Hqa. pose proof (ba_nodup _ _ _ _ _ _ Hb) as Hnd.
      rewrite <- (ba_pages _ _ _ _ _ _ Hb), app_assoc in Hnd.
      apply NoDup_app in Hnd as (_ & Hd & _). apply (Hd q Hq).
      assert (q = p) as ->; [|done].
      eapply (bare_disjoint U); [exact Hb| | |exact Hqa|exact Ha]; rewrite !elem_of_app in *; tauto.
    + intros Hs. eapply (heap_ok_static U _ _ _ _ p a); [by apply Hb| |done|done].
      eapply bare_member; [exact Hb|]. rewrite !elem_of_app. tauto.
  - split; [|done]. intros p Hp. apply Ho. eapply heap_ok_sub; [|exact Hp]. by apply Hb.
Qed.

Lemma bare_page_free U s F P L Q p :
  bare U s F P L (p :: Q) →
  bare U (page_free p s) (p :: F) P L Q ∧ kept U Q (mem s) (mem (page_free p s)).
Proof.
  intros Hb. pose proof Hb as [B1 B2 B3].
  destruct (bare_member _ _ _ _ _ _ p Hb) as [HpU Hok]; [rewrite !elem_of_app, elem_of_cons; tauto|].
  assert (p ∉ F ++ P ++ Q) as Hnew.
  { rewrite <- B2, app_assoc, <- Permutation_middle, <- app_assoc in B3. by apply NoDup_cons in B3 as [? _]. }
  assert (kept U (F ++ P ++ Q) (mem s) (mem (page_free p s))) as Hk.
  { apply page_free_frame; [done|]. intros a [(q & Hq & Ha)|[Ha _]] Hpa; [|by apply (Ha p)].
    apply Hnew. assert (q = p) as <-; [|done].
    eapply (bare_disjoint U); [exact Hb| | |exact Ha|exact Hpa]; rewrite !elem_of_app, elem_of_cons in *; tauto. }
  split; [|eapply kept_sub; [|exact Hk]; intros q Hq; rewrite !elem_of_app; tauto].
  split; [|by rewrite <- B2, !app_assoc, <- Permutation_middle|done].
  apply (heap_ok_transfer U s F P L _ (p :: F)); try done.
  - apply page_free_rep; [by eapply heap_ok_free|done|]. rewrite !not_elem_of_app in Hnew. tauto.
  - cbn. constructor; [rewrite !not_elem_of_app in *; tauto|by eapply heap_ok_nodup].
  - intros q [->|Hq]%elem_of_cons; [done|]. eapply heap_ok_sub; [exact B1|]. apply elem_of_app. by left.
  - apply total_page_free.
  - intros a [Ha|(q & Hq & Ha)].
    + assert (¬ in_page p a) as Hna by (by eapply (heap_ok_static U)).
      exact (page_free_frame s p (λ b, b = a) Hok ltac:(by intros b ->) a eq_refl).
    + apply Hk. left. exists q. rewrite !elem_of_app. tauto.
Qed.

Lemma bare_kfree U s F P L Q o :
  bare U s F P L Q → o ∈ L →
  ∃ F' P', bare U (kfree o s) F' P' (L ∖ {[o]}) Q ∧ kept U Q (mem s) (mem (kfree o s)).
Proof.
  intros Hb Ho. pose proof Hb as [B1 B2 B3].
  destruct (kfree_ok U s F P L o B1 Ho) as (F' & P' & Hh & Hperm & _ & Hm). exists F', P'.
  split; [split; try done; by rewrite app_assoc, Hperm, <- app_assoc|].
  intros a Ha. apply Hm. by eapply bare_region.
Qed.

Lemma bare_kmalloc U s F P L Q n :
  bare U s F P L Q → 0 <= n →
  ∃ o s' F' P', kmalloc n s = (o, s') ∧ bare U s' F' P' (if o =? 0 then L else {[o]} ∪ L) Q ∧
    (o ≠ 0 → o ∉ L) ∧ kept U Q (mem s) (mem s').
Proof.
  intros Hb Hn. pose proof Hb as [B1 B2 B3].
  destruct (kmalloc_ok U s F P L n B1 Hn) as (o & s' & F' & P' & E & Hh & Hfresh & Hperm & _ & Hm).
  exists o, s', F', P'. split; [done|]. split; [split; try done; by rewrite app_assoc, Hperm, <- app_assoc|].
  split; [done|]. intros a Ha. apply Hm. by eapply bare_region.
Qed.

Lemma bare_page_alloc U s F P L Q :
  bare U s F P L Q →
  ∃ p s', page_alloc s = (p, s') ∧ mem s' = mem s ∧
    ((p = 0 ∧ s' = s ∧ F = []) ∨ ∃ F', page_ok p ∧ bare U s' F' P L (p :: Q)).
Proof.
  intros Hb. pose proof Hb as [B1 B2 B3].
  destruct (page_alloc_spec s F (heap_ok_free _ _ _ _ _ B1))
    as (p & s' & E & Hm & [(-> & -> & ->)|(F' & -> & Hp & _ & Hf)]).
  { exists 0, s. split; [done|]. split; [done|]. by left. }
  pose proof (total_page_alloc s) as Ht. rewrite E in Ht. cbn [snd] in Ht.
  exists p, s'. split; [done|]. split; [done|]. right. exists F'. split; [done|].
  split; [|by rewrite <- B2, !app_assoc, <- Permutation_middle|done].
  apply (heap_ok_transfer U s (p :: F') P L s' F'); try done.
  - pose proof (heap_ok_nodup _ _ _ _ _ B1) as Hd. by apply NoDup_cons in Hd as [_ Hd].
  - intros q Hq. eapply heap_ok_sub; [exact B1|]. right. apply elem_of_app. by left.
  - intros a _. by rewrite Hm.
Qed.

(** A change to memory the allocators do not look at. *)
Lemma bare_frame U s s' F P L Q :
  bare U s F P L Q → free_list s' = free_list s → free_pages s' = free_pages s →
  total_pages s' = total_pages s →
  same_on (λ a, heap_static a ∨ ∃ p, p ∈ F ++ P ∧ in_page p a) (mem s) (mem s') →
  bare U s' F P L Q.
Proof.
  intros Hb E1 E2 E3 Hm. pose proof Hb as [B1 B2 B3]. split; [|done|done].
  apply (heap_ok_transfer U s F P L s' F); try done.
  - apply (free_rep_frame s); try done; [|by eapply heap_ok_free].
    intros p Hp a Ha. apply Hm. right. exists p. rewrite elem_of_app. tauto.
  - by eapply heap_ok_nodup.
  - intros p Hp. eapply heap_ok_sub; [exact B1|]. apply elem_of_app. by left.
  - intros a [Ha|(p & Hp & Ha)]; apply Hm; [by left|right; exists p]. rewrite elem_of_app. tauto.
Qed.

Lemma bare_perm U s F P L Q Q' : Q ≡ₚ Q' → bare U s F P L Q → bare U s F P L Q'.
Proof. intros HQ [B1 B2 B3]. split; [done|by rewrite <- HQ|done]. Qed.

(** What the other pages hold is not in this one. *)
Lemma bare_region_page U s F P L p Q a :
  bare U s F P L (p :: Q) → in_page p a → ¬ region U Q a.
Proof.
  intros Hb Ha Hr. destruct (bare_member _ _ _ _ _ _ p Hb) as [HpU _]; [rewrite !elem_of_app, elem_of_cons; tauto|].
  destruct Hr as [(q & Hq & Hqa)|[Ho _]]; [|by apply (Ho p)].
  assert (p = q) as <-.
  { eapply (bare_disjoint U); [exact Hb| | |exact Ha|exact Hqa]; rewrite !elem_of_app, elem_of_cons; tauto. }
  pose proof (ba_nodup _ _ _ _ _ _ Hb) as Hnd. rewrite <- (ba_pages _ _ _ _ _ _ Hb), app_assoc, <- Permutation_middle in Hnd.
  apply NoDup_cons in Hnd as [Hnd _]. apply Hnd. rewrite !elem_of_app. tauto.
Qed.

(** A write into one page of the third part. *)
Lemma bare_poke U s m' F P L p Q :
  bare U s F P L (p :: Q) → same_on (λ a, ¬ in_page p a) (mem s) m' →
  bare U (set_mem m' s) F P L (p :: Q) ∧ kept U Q (mem s) m'.
Proof.
  intros Hb Hm. pose proof Hb as [B1 B2 B3].
  assert (p ∉ F ++ P ++ Q) as Hnew.
  { rewrite <- B2, app_assoc, <- Permutation_middle, <- app_assoc in B3. by apply NoDup_cons in B3 as [? _]. }
  destruct (bare_member _ _ _ _ _ _ p Hb) as [HpU _]; [rewrite !elem_of_app, elem_of_cons; tauto|].
  assert (∀ q a, q ∈ F ++ P ++ Q → in_page q a → ¬ in_page p a) as Hdis.
  { intros q a Hq Ha Hpa. apply Hnew. assert (q = p) as <-; [|done].
    eapply (bare_disjoint U); [exact Hb| | |exact Ha|exact Hpa]; rewrite !elem_of_app, elem_of_cons in *; tauto. }
  split.
  - apply (bare_frame U s); try done. intros a Ha. apply Hm. destruct Ha as [Ha|(q & Hq & Ha)].
    + by apply (heap_ok_static U s F P L p a).
    + apply (Hdis q); [|done]. rewrite !elem_of_app in *. tauto.
  - intros a Ha. apply Hm. destruct Ha as [(q & Hq & Ha)|[Ha _]]; [|by apply Ha].
    apply (Hdis q); [|done]. rewrite !elem_of_app. tauto.
Qed.
End Division.
