(* ===== verification/Bench.v ===== *)
(** A small machine on which theorems are applied: sixteen pages of RAM, all of them
    free, and an empty heap. *)
From S2P Require Import Prelude Machine Runtime PageAlloc KList Log Heap HeapProps HeapThms HeapSpec HeapInstance Ownership.

Definition ram : list Z := (λ i, 2147483648 + 4096 * Z.of_nat i) <$> seq 0 16.
Definition booted : kstate := heap_init 4096 8192 (set_total 16 (stocked ram)).

Definition bench_heap : KernelHeap := slab_heap 4096 8192.
Definition bench_contract : @HeapContract bench_heap := slab_heap_contract 4096 8192.
#[local] Existing Instance bench_heap.
#[local] Existing Instance bench_contract.

Lemma ram_ok : Forall page_ok ram.
Proof. apply (bool_decide_unpack _). vm_compute. done. Qed.
Lemma ram_nodup : NoDup ram.
Proof. apply (bool_decide_unpack _). vm_compute. done. Qed.

Lemma ram_static p a : p ∈ ram → static 4096 8192 a → ¬ in_page p a.
Proof.
  intros Hp Ha Hpa. unfold static, in_classes, in_lock in Ha.
  pose proof ram_ok as Hok. rewrite Forall_forall in Hok. pose proof (base_range p (Hok p Hp)) as Hb.
  unfold in_page in Hpa. clear -Ha Hpa Hb. lia.
Qed.

Lemma booted_rep : heap_rep 4096 8192 booted ram [].
Proof.
  apply heap_init_rep; try (cbn; lia).
  - apply HeapDemo.set_total_rep, stocked_rep; [exact ram_ok|exact ram_nodup].
  - exact ram_static.
Qed.

Lemma booted_heap : heap_ok ram booted ram [] ∅.
Proof.
  exists []. split; [exact booted_rep|done| |by intros p; rewrite app_nil_r| |].
  - intros o. split; [set_solver|]. intros (n & sl & Hsl & _). by apply elem_of_nil in Hsl.
  - intros p Hp. split; [|intros a; by apply ram_static]. pose proof ram_ok as Hok.
    rewrite Forall_forall in Hok. by apply Hok.
  - vm_compute. discriminate.
Qed.

Lemma booted_bare : bare ram booted ram [] ∅ [].
Proof. split; [exact booted_heap|by rewrite !app_nil_r|exact ram_nodup]. Qed.
