(* ===== verification/Vfs.v ===== *)
(** [src/fs/vfs.c]: the namespace of vnodes under three mounts, path resolution, the
    boot archive, regular files in pages of their own, and open files.  Vnodes
    and open files are records in finite maps from the addresses of the heap
    objects that hold them; file contents and the archive are in memory.  A path
    is the list of its characters, without the NUL.  The pipes of [src/fs/pipe.c]
    are records of [Pipe] under the addresses of their objects. *)
From S2P Require Import Prelude Machine Runtime PageAlloc HeapSpec Outcome Log Pipe.
From Stdlib Require String.
Import String.StringSyntax.

Abbreviation E_NOENT := 2 (only parsing).
Abbreviation E_BADF := 9 (only parsing).
Abbreviation E_NOMEM := 12 (only parsing).
Abbreviation E_EXIST := 17 (only parsing).
Abbreviation E_NOTDIR := 20 (only parsing).
Abbreviation E_ISDIR := 21 (only parsing).
Abbreviation E_INVAL := 22 (only parsing).
Abbreviation E_FBIG := 27 (only parsing).
Abbreviation E_SPIPE := 29 (only parsing).
Abbreviation E_ROFS := 30 (only parsing).
Abbreviation E_NAMETOOLONG := 36 (only parsing).
Abbreviation E_LOOP := 40 (only parsing).

Abbreviation O_RDONLY := 0 (only parsing).
Abbreviation O_WRONLY := 1 (only parsing).
Abbreviation O_ACCMODE := 3 (only parsing).
Abbreviation O_CREAT := 64 (only parsing).
Abbreviation O_EXCL := 128 (only parsing).
Abbreviation O_TRUNC := 512 (only parsing).
Abbreviation O_APPEND := 1024 (only parsing).
Abbreviation O_DIRECTORY := 65536 (only parsing).
Abbreviation O_NOFOLLOW := 131072 (only parsing).
Abbreviation SEEK_SET := 0 (only parsing).
Abbreviation SEEK_CUR := 1 (only parsing).
Abbreviation SEEK_END := 2 (only parsing).

Abbreviation PATH_LIMIT := 256 (only parsing).
Abbreviation NAME_LIMIT := 64 (only parsing).
Abbreviation TMP_FILE_PAGES := 16 (only parsing).
Abbreviation DT_CHR := 2 (only parsing).
Abbreviation DT_DIR := 4 (only parsing).
Abbreviation DT_REG := 8 (only parsing).
Abbreviation DT_LNK := 10 (only parsing).
Abbreviation SLASH := 47 (only parsing).
Abbreviation INT64_MAX := 9223372036854775807 (only parsing).
Abbreviation SIZEOF_VNODE := 296 (only parsing).
Abbreviation SIZEOF_FILE := 48 (only parsing).
Abbreviation SIZEOF_DIRENT := 80 (only parsing).
Abbreviation SIZEOF_PIPE := 576 (only parsing).

(** [root] and [covered] are addresses of vnodes, 0 for NULL. *)
Record mount := mk_mount { mroot : Z; covered : Z; readonly : bool }.
Definition no_mount : mount := mk_mount 0 0 false.

(** [vmount] and [mounted] are indices into [mounts]. *)
Record vnode := mk_vnode {
  children : list Z;
  parent : Z;
  vmount : nat;
  mounted : option nat;
  name : list Z;
  type : Z;
  inode : Z;
  data : Z;                  (* 0 for NULL *)
  size : Z;
  blocks : list Z;
}.
#[export] Instance vnode_inhabited : Inhabited vnode :=
  populate (mk_vnode [] 0 0 None [] 0 0 0 0 []).

(** The tables of operations: those of this file and those of [pipe.c]. *)
Inductive file_ops := regular_ops | device_ops | pipe_ops.

#[export] Instance file_ops_eq_dec : EqDecision file_ops.
Proof. solve_decision. Defined.

Record file := mk_file {
  ops : file_ops;
  node : Z;                  (* 0 for NULL *)
  private : Z;
  offset : Z;
  references : Z;
  flags : Z;
}.
#[export] Instance file_inhabited : Inhabited file := populate (mk_file regular_ops 0 0 0 0 0).

Record vfs := mk_vfs {
  kern : kstate;
  nodes : list Z;            (* every vnode, oldest first *)
  vnodes : gmap Z vnode;
  mounts : list mount;
  next_inode : Z;
  live_files : Z;
  files : gmap Z file;
  pipes : gmap Z pipe;
  woken : list wait_queue;   (* the queues of pipes that have been woken *)
}.

Definition set_kern (s : kstate) (v : vfs) : vfs :=
  mk_vfs s (nodes v) (vnodes v) (mounts v) (next_inode v) (live_files v) (files v) (pipes v) (woken v).
Definition set_nodes (l : list Z) (v : vfs) : vfs :=
  mk_vfs (kern v) l (vnodes v) (mounts v) (next_inode v) (live_files v) (files v) (pipes v) (woken v).
Definition set_vnodes (m : gmap Z vnode) (v : vfs) : vfs :=
  mk_vfs (kern v) (nodes v) m (mounts v) (next_inode v) (live_files v) (files v) (pipes v) (woken v).
Definition set_mounts (l : list mount) (v : vfs) : vfs :=
  mk_vfs (kern v) (nodes v) (vnodes v) l (next_inode v) (live_files v) (files v) (pipes v) (woken v).
Definition set_next_inode (n : Z) (v : vfs) : vfs :=
  mk_vfs (kern v) (nodes v) (vnodes v) (mounts v) n (live_files v) (files v) (pipes v) (woken v).
Definition set_live_files (n : Z) (v : vfs) : vfs :=
  mk_vfs (kern v) (nodes v) (vnodes v) (mounts v) (next_inode v) n (files v) (pipes v) (woken v).
Definition set_files (m : gmap Z file) (v : vfs) : vfs :=
  mk_vfs (kern v) (nodes v) (vnodes v) (mounts v) (next_inode v) (live_files v) m (pipes v) (woken v).
Definition set_pipes (m : gmap Z pipe) (v : vfs) : vfs :=
  mk_vfs (kern v) (nodes v) (vnodes v) (mounts v) (next_inode v) (live_files v) (files v) m (woken v).
Definition set_woken (l : list wait_queue) (v : vfs) : vfs :=
  mk_vfs (kern v) (nodes v) (vnodes v) (mounts v) (next_inode v) (live_files v) (files v) (pipes v) l.

(** [*n] and [mounts[i]] *)
Definition vn (v : vfs) (n : Z) : vnode := vnodes v !!! n.
Definition mnt (v : vfs) (i : nat) : mount := nth i (mounts v) no_mount.
Definition fl (v : vfs) (f : Z) : file := files v !!! f.

Definition update_vnode (f : vnode → vnode) (n : Z) (v : vfs) : vfs :=
  set_vnodes (<[n := f (vn v n)]> (vnodes v)) v.
Definition update_file (f : file → file) (a : Z) (v : vfs) : vfs :=
  set_files (<[a := f (fl v a)]> (files v)) v.

Definition with_children (l : list Z) (n : vnode) : vnode :=
  mk_vnode l (parent n) (vmount n) (mounted n) (name n) (type n) (inode n) (data n) (size n) (blocks n).
Definition with_mounted (m : option nat) (n : vnode) : vnode :=
  mk_vnode (children n) (parent n) (vmount n) m (name n) (type n) (inode n) (data n) (size n) (blocks n).
Definition with_data (d s : Z) (n : vnode) : vnode :=
  mk_vnode (children n) (parent n) (vmount n) (mounted n) (name n) (type n) (inode n) d s (blocks n).
Definition with_size (s : Z) (n : vnode) : vnode :=
  mk_vnode (children n) (parent n) (vmount n) (mounted n) (name n) (type n) (inode n) (data n) s (blocks n).
Definition with_blocks (l : list Z) (n : vnode) : vnode :=
  mk_vnode (children n) (parent n) (vmount n) (mounted n) (name n) (type n) (inode n) (data n) (size n) l.
Definition with_offset (o : Z) (f : file) : file :=
  mk_file (ops f) (node f) (private f) o (references f) (flags f).
Definition with_references (r : Z) (f : file) : file :=
  mk_file (ops f) (node f) (private f) (offset f) r (flags f).
Definition with_node (n : Z) (f : file) : file :=
  mk_file (ops f) n (private f) (offset f) (references f) (flags f).

(** [strlen] and [memcmp] on two strings. *)
Definition equal (a b : list Z) : bool := bool_decide (a = b).

Definition vfs_root (v : vfs) : Z := mroot (mnt v 0).
Definition file_live_count (v : vfs) : Z := live_files v.

(** The address of the child, 0 if there is none. *)
Definition child (v : vfs) (parent_ : Z) (name_ : list Z) : Z :=
  match find (λ n, equal (name (vn v n)) name_) (children (vn v parent_)) with
  | Some n => n
  | None => 0
  end.

Section Vfs.
Context `{KernelHeap}.

(** [parent_] is 0 for NULL. *)
Definition new_node (parent_ : Z) (name_ : list Z) (type_ : Z) (mount_ : nat) (v : vfs) : Z * vfs :=
  let '(n, s) := kmalloc SIZEOF_VNODE (kern v) in
  let v := set_kern s v in
  if n =? 0 then (0, v)
  else
    let fresh := mk_vnode [] (if negb (parent_ =? 0) then parent_ else n) mount_ None name_ type_
                   (next_inode v) 0 0 (repeat 0 (Z.to_nat TMP_FILE_PAGES)) in
    let v := set_next_inode (u64 (next_inode v + 1)) (set_vnodes (<[n := fresh]> (vnodes v)) v) in
    let v := if negb (parent_ =? 0)
             then update_vnode (λ p, with_children (children p ++ [n]) p) parent_ v else v in
    (n, set_nodes (nodes v ++ [n]) v).
End Vfs.

(** * Path resolution *)

Fixpoint skip_slashes (path : list Z) : list Z :=
  match path with
  | c :: rest => if c =? SLASH then skip_slashes rest else path
  | [] => []
  end.

(** A component and what follows it. *)
Fixpoint split_component (path : list Z) : list Z * list Z :=
  match path with
  | c :: rest =>
      if c =? SLASH then ([], path) else let '(n, r) := split_component rest in (c :: n, r)
  | [] => ([], [])
  end.

(** The characters up to the first NUL. *)
Fixpoint c_string (bytes : list Z) : list Z :=
  match bytes with
  | b :: rest => if b =? 0 then [] else b :: c_string rest
  | [] => []
  end.

Definition bytes_at (m : memory) (a n : Z) : list Z := (λ i, load8 m (a + Z.of_nat i)) <$> seq 0 (Z.to_nat n).

Definition starts_slash (path : list Z) : bool :=
  match path with c :: _ => c =? SLASH | [] => false end.

(** The step to [..], from a node that is not the root. *)
Definition up (v : vfs) (n : Z) : Z :=
  let m := mnt v (vmount (vn v n)) in
  if (mroot m =? n) && negb (covered m =? 0) then parent (vn v (covered m)) else parent (vn v n).

(** Through a mount point. *)
Definition cross (v : vfs) (n : Z) : Z :=
  match mounted (vn v n) with Some m => mroot (mnt v m) | None => n end.

(** The loop of [vfs_resolve]: [rest] is [work + cursor].  The result is an error or
    the node; [None] when the fuel runs out. *)
Fixpoint resolve_loop (fuel : nat) (v : vfs) (root : Z) (nofollow : bool) (node_ links : Z)
    (rest : list Z) : option (Z + Z) :=
  match fuel with
  | O => None
  | S f =>
      let slash := starts_slash rest in
      let rest := skip_slashes rest in
      match rest with
      | [] =>
          if slash && negb (type (vn v node_) =? DT_DIR) then Some (inl (- E_NOTDIR))
          else Some (inr node_)
      | _ =>
          if negb (type (vn v node_) =? DT_DIR) then Some (inl (- E_NOTDIR))
          else
            let '(name_, rest) := split_component rest in
            if Z.of_nat (length name_) >=? NAME_LIMIT then Some (inl (- E_NAMETOOLONG))
            else if equal name_ (chars ".") then resolve_loop f v root nofollow node_ links rest
            else if equal name_ (chars "..") then
              resolve_loop f v root nofollow (if negb (node_ =? root) then up v node_ else node_) links rest
            else
              let next := child v node_ name_ in
              if next =? 0 then Some (inl (- E_NOENT))
              else
                let next := cross v next in
                if type (vn v next) =? DT_LNK then
                  if nofollow && bool_decide (rest = []) then Some (inl (- E_LOOP))
                  else
                    let links := links + 1 in
                    if links >? 8 then Some (inl (- E_LOOP))
                    else
                      let target_size := size (vn v next) in
                      if (target_size =? 0) || (target_size + Z.of_nat (length rest) >=? PATH_LIMIT)
                      then Some (inl (- E_NAMETOOLONG))
                      else
                        let work := c_string (bytes_at (mem (kern v)) (data (vn v next)) target_size ++ rest) in
                        resolve_loop f v root nofollow (if starts_slash work then root else node_) links work
                else resolve_loop f v root nofollow next links rest
      end
  end.

(** Every round takes a component off the path or follows one of eight links. *)
Definition resolve_fuel : nat := Z.to_nat (9 * PATH_LIMIT + 1).

Definition vfs_resolve (v : vfs) (root base : Z) (path : list Z) (nofollow : bool) : option (Z + Z) :=
  match path with
  | [] => Some (inl (- E_NOENT))
  | _ =>
      if Z.of_nat (length path) >=? PATH_LIMIT then Some (inl (- E_NAMETOOLONG))
      else
        let node_ := if starts_slash path then root else base in
        if node_ =? 0 then Some (inl (- E_NOENT))
        else resolve_loop resolve_fuel v root nofollow node_ 0 path
  end.

(** [at_] is the first used position of the buffer [reverse], whose content from
    there to the NUL is [path]. *)
Fixpoint getcwd_loop (fuel : nat) (v : vfs) (root cwd at_ : Z) (path : list Z) : option (Z + list Z) :=
  match fuel with
  | O => None
  | S f =>
      if cwd =? root then Some (inr path)
      else
        let m := mnt v (vmount (vn v cwd)) in
        let cwd := if (mroot m =? cwd) && negb (covered m =? 0) then covered m else cwd in
        let n := Z.of_nat (length (name (vn v cwd))) in
        if n + 1 >? at_ then Some (inl (- E_NAMETOOLONG))
        else getcwd_loop f v root (parent (vn v cwd)) (at_ - n - 1) (SLASH :: name (vn v cwd) ++ path)
  end.

(** The length with the NUL, and the string put into the buffer. *)
Definition vfs_getcwd (v : vfs) (root cwd size_ : Z) : option (Z * list Z) :=
  match getcwd_loop (Z.to_nat PATH_LIMIT + 1) v root cwd (PATH_LIMIT - 1) [] with
  | None => None
  | Some (inl error) => Some (error, [])
  | Some (inr path) =>
      let path := match path with [] => [SLASH] | _ => path end in
      let length_ := Z.of_nat (length path) + 1 in
      if length_ >? size_ then Some (- E_INVAL, []) else Some (length_, path)
  end.

(** * Regular files *)

(** The loop of [regular_pread] over the pages of the file, [done_] bytes into the
    buffer.  [None] when the fuel runs out or [blocks] is indexed out of range. *)
Fixpoint pread_loop (fuel : nat) (n : vnode) (buffer off done_ size_ : Z) (s : kstate)
    : option (Z * kstate) :=
  if done_ >=? size_ then Some (done_, s)
  else
    match fuel, blocks n !! Z.to_nat (off / PAGE_SIZE) with
    | S f, Some page =>
        let part := PAGE_SIZE - Z.land off PAGE_MASK in
        let part := if part >? size_ - done_ then size_ - done_ else part in
        let m := if negb (page =? 0)
                 then memcpy (mem s) (buffer + done_) (phys_to_virt page + Z.land off PAGE_MASK)
                        (Z.to_nat part)
                 else memset (mem s) (buffer + done_) 0 (Z.to_nat part) in
        pread_loop f n buffer (off + part) (done_ + part) size_ (set_mem m s)
    | _, _ => None
    end.

Definition file_fuel : nat := Z.to_nat (TMP_FILE_PAGES + 1).

Definition regular_pread (n : vnode) (buffer size_ off : Z) (s : kstate) : option (Z * kstate) :=
  if type n =? DT_DIR then Some (- E_ISDIR, s)
  else if off >=? size n then Some (0, s)
  else
    let size_ := if size_ >? size n - off then size n - off else size_ in
    if negb (data n =? 0)
    then Some (size_, set_mem (memcpy (mem s) buffer (data n + off) (Z.to_nat size_)) s)
    else pread_loop file_fuel n buffer off 0 size_ s.

Abbreviation MAX_FILE := 65536 (only parsing).        (* TMP_FILE_PAGES * PAGE_SIZE *)

(** [n->blocks[index]], allocated and cleared if there is none; 0 without memory. *)
Definition write_block (n : Z) (index : nat) (block : Z) (v : vfs) : Z * vfs :=
  if negb (block =? 0) then (block, v)
  else
    let '(page, s) := page_alloc (kern v) in
    let v := update_vnode (λ n, with_blocks (<[index := page]> (blocks n)) n) n (set_kern s v) in
    if page =? 0 then (0, v)
    else
      (page, set_kern (set_mem (memset (mem (kern v)) (phys_to_virt page) 0 (Z.to_nat PAGE_SIZE)) (kern v)) v).

(** The loop of [regular_write] on the open file [f] of the vnode [n]. *)
Fixpoint write_loop (fuel : nat) (f n buffer done_ size_ : Z) (v : vfs) : option (Z * vfs) :=
  let off := offset (fl v f) in
  if negb ((done_ <? size_) && (off <? MAX_FILE)) then Some (done_, v)
  else
    match fuel with
    | O => None
    | S fuel =>
        let index := Z.to_nat (off / PAGE_SIZE) in
        let part := PAGE_SIZE - Z.land off PAGE_MASK in
        let part := if part >? size_ - done_ then size_ - done_ else part in
        match blocks (vn v n) !! index with
        | None => None
        | Some block =>
            let '(block, v) := write_block n index block v in
            if block =? 0 then Some (if negb (done_ =? 0) then done_ else - E_NOMEM, v)
            else
              let v := set_kern (set_mem (memcpy (mem (kern v)) (phys_to_virt block + Z.land off PAGE_MASK)
                                            (buffer + done_) (Z.to_nat part)) (kern v)) v in
              let v := update_file (with_offset (off + part)) f v in
              let v := if off + part >? size (vn v n) then update_vnode (with_size (off + part)) n v else v in
              write_loop fuel f n buffer (done_ + part) size_ v
        end
    end.

Definition regular_write (f buffer size_ : Z) (v : vfs) : option (Z * vfs) :=
  let n := node (fl v f) in
  if readonly (mnt v (vmount (vn v n))) then Some (- E_ROFS, v)
  else if type (vn v n) =? DT_DIR then Some (- E_ISDIR, v)
  else
    let v := if negb (Z.land (flags (fl v f)) O_APPEND =? 0)
             then update_file (with_offset (size (vn v n))) f v else v in
    if offset (fl v f) >=? MAX_FILE then Some (if negb (size_ =? 0) then - E_FBIG else 0, v)
    else write_loop file_fuel f n buffer 0 size_ v.

(** * Devices and pipes *)

(** How an operation that may wait ends.  [Asleep] says that the thread has given up
    the processor, for so many ticks or, with 0, until it is woken: nothing has been
    transferred, and a thread that resumes goes on as if it made the call again. *)
Inductive io := Did (result : Z) | Asleep (ticks : Z).

(** The console; [console_getc] returns -1 when there is no input. *)
Class Backends := {
  console_getc : kstate → Z * kstate;
  console_putc : Z → kstate → kstate;
}.

(** The bytes [l] from the address [a] on. *)
Fixpoint put_bytes (m : memory) (a : Z) (l : list Z) : memory :=
  match l with [] => m | b :: l => put_bytes (store8 m a b) (a + 1) l end.

(** [&p->readable] and [&p->writable] of the pipe at [a]. *)
Definition pipe_readable (a : Z) : wait_queue := (a, 8).
Definition pipe_writable (a : Z) : wait_queue := (a, 24).

(** The pipe at [a] becomes [p], and [wait_queue_wake_all] has been called on [queues].
    What that does to the threads is the scheduler's; it is told by the caller. *)
Definition pipe_step (a : Z) (p : pipe) (queues : list wait_queue) (v : vfs) : vfs :=
  set_woken (woken v ++ queues) (set_pipes (<[a := p]> (pipes v)) v).

Section Files.
Context `{KernelHeap} `{Backends}.

Fixpoint device_read_loop (count : nat) (buffer done_ : Z) (s : kstate) : io * kstate :=
  match count with
  | O => (Did done_, s)
  | S n =>
      let '(c, s) := console_getc s in
      if c <? 0 then (if negb (done_ =? 0) then Did done_ else Asleep 1, s)
      else device_read_loop n buffer (done_ + 1) (set_mem (store8 (mem s) (buffer + done_) c) s)
  end.

Definition device_read (n : vnode) (buffer size_ : Z) (s : kstate) : io * kstate :=
  if equal (name n) (chars "null") || (size_ =? 0) then (Did 0, s)
  else device_read_loop (Z.to_nat size_) buffer 0 s.

Definition device_write (n : vnode) (buffer size_ : Z) (s : kstate) : Z * kstate :=
  (size_,
   if negb (equal (name n) (chars "null"))
   then fold_left (λ s i, console_putc (load8 (mem s) (buffer + i)) s) (Z.of_nat <$> seq 0 (Z.to_nat size_)) s
   else s).

(** The operations of a pipe through the open file [x], for the thread [thread].
    [None] when the pipe does not exist or its lock is never released. *)
Definition pipe_read_file (thread : Z) (x : file) (buffer size_ : Z) (v : vfs) : option (io * vfs) :=
  match pipes v !! private x with
  | None => None
  | Some p =>
      match pipe_read thread size_ p with
      | None => None
      | Some (Slept, _, p) => Some (Asleep 0, pipe_step (private x) p [] v)
      | Some (Returned r bytes, _, p) =>
          let v := pipe_step (private x) p (if size_ =? 0 then [] else [pipe_writable (private x)]) v in
          Some (Did r, set_kern (set_mem (put_bytes (mem (kern v)) buffer bytes) (kern v)) v)
      end
  end.

Definition pipe_write_file (thread : Z) (x : file) (buffer size_ : Z) (v : vfs) : option (io * vfs) :=
  match pipes v !! private x with
  | None => None
  | Some p =>
      let bytes := bytes_at (mem (kern v)) buffer size_ in
      let wakes := if bool_decide (bytes = []) || negb (reader p) then [] else [pipe_readable (private x)] in
      match pipe_write thread bytes p with
      | None => None
      | Some (Slept, _, p) => Some (Asleep 0, pipe_step (private x) p [] v)
      | Some (Returned r _, _, p) => Some (Did r, pipe_step (private x) p wakes v)
      end
  end.

Definition pipe_release_file (x : file) (v : vfs) : vfs :=
  match pipes v !! private x with
  | None => v
  | Some p =>
      match pipe_release (flags x) p with
      | None => v
      | Some (closed, _, p) =>
          let v := pipe_step (private x) p [pipe_readable (private x); pipe_writable (private x)] v in
          if closed
          then set_kern (kfree (private x) (kern v)) (set_pipes (delete (private x) (pipes v)) v)
          else v
      end
  end.

(** * Open files *)

Definition file_new (ops_ : file_ops) (flags_ : Z) (v : vfs) : Z * vfs :=
  let '(f, s) := kmalloc SIZEOF_FILE (kern v) in
  let v := set_kern s v in
  if f =? 0 then (0, v)
  else
    let v := set_files (<[f := mk_file ops_ 0 0 0 1 flags_]> (files v)) v in
    let '(irq, s) := irq_save (kern v) in
    let v := set_live_files (u64 (live_files v + 1)) (set_kern s v) in
    (f, set_kern (irq_restore irq (kern v)) v).

Definition file_get (f : Z) (v : vfs) : vfs :=
  if f =? 0 then v
  else
    let '(irq, s) := irq_save (kern v) in
    let v := update_file (λ x, with_references (u64 (references x + 1)) x) f (set_kern s v) in
    set_kern (irq_restore irq (kern v)) v.

Definition file_put (f : Z) (v : vfs) : vfs :=
  if f =? 0 then v
  else
    let '(irq, s) := irq_save (kern v) in
    let v := update_file (λ x, with_references (u64 (references x - 1)) x) f (set_kern s v) in
    let v :=
      if references (fl v f) =? 0 then
        let v := match ops (fl v f) with
                 | pipe_ops => pipe_release_file (fl v f) v
                 | _ => v
                 end in
        let v := set_live_files (u64 (live_files v - 1)) v in
        set_kern (kfree f (kern v)) (set_files (delete f (files v)) v)
      else v in
    set_kern (irq_restore irq (kern v)) v.

(** ** [vfs_openat] *)

Definition open_allowed : Z :=
  Z.lor O_ACCMODE (Z.lor O_CREAT (Z.lor O_EXCL (Z.lor O_TRUNC (Z.lor O_APPEND
    (Z.lor O_DIRECTORY O_NOFOLLOW))))).

(** The position after the last slash. *)
Fixpoint last_cut (path : list Z) : nat :=
  match path with
  | [] => O
  | c :: rest =>
      match last_cut rest with
      | O => if c =? SLASH then 1%nat else O
      | S n => S (S n)
      end
  end.

(** The part of [vfs_openat] under [O_CREAT]: the error, or the new node. *)
Definition open_create (root base : Z) (path : list Z) (v : vfs) : option ((Z + Z) * vfs) :=
  let length_ := Z.of_nat (length path) in
  if (length_ =? 0) || (length_ >=? PATH_LIMIT) || bool_decide (last path = Some SLASH)
  then Some (inl (- E_INVAL), v)
  else
    let cut := last_cut path in
    if length_ - Z.of_nat cut >=? NAME_LIMIT then Some (inl (- E_NAMETOOLONG), v)
    else
      match (if bool_decide (cut = O) then Some (inr base)
             else vfs_resolve v root base (take cut path) false) with
      | None => None
      | Some (inl error) => Some (inl error, v)
      | Some (inr parent_) =>
          if negb (type (vn v parent_) =? DT_DIR) then Some (inl (- E_NOTDIR), v)
          else if readonly (mnt v (vmount (vn v parent_))) then Some (inl (- E_ROFS), v)
          else if negb (child v parent_ (drop cut path) =? 0) then Some (inl (- E_NOENT), v)
          else
            let '(n, v) := new_node parent_ (drop cut path) DT_REG (vmount (vn v parent_)) v in
            if n =? 0 then Some (inl (- E_NOMEM), v) else Some (inr n, v)
      end.

(** [list_remove] of a created node from both its lists, and [kfree]. *)
Definition remove_node (n : Z) (v : vfs) : vfs :=
  let p := parent (vn v n) in
  let v := set_nodes (filter (λ x, x ≠ n) (nodes v)) v in
  let v := update_vnode (λ x, with_children (filter (λ y, y ≠ n) (children x)) x) p v in
  set_kern (kfree n (kern v)) (set_vnodes (delete n (vnodes v)) v).

(** [if (n->blocks[i]) page_free(n->blocks[i]);] for all of them. *)
Definition free_blocks (l : list Z) (s : kstate) : kstate :=
  fold_left (λ s b, if negb (b =? 0) then page_free b s else s) l s.

(** The vnode to open and whether it has just been created, or the error. *)
Definition open_target (root base : Z) (path : list Z) (flags_ : Z) (v : vfs) : option ((Z + Z) * bool * vfs) :=
  match vfs_resolve v root base path (negb (Z.land flags_ O_NOFOLLOW =? 0)) with
  | None => None
  | Some found =>
      match (match found with
             | inr n => if Z.land flags_ (Z.lor O_CREAT O_EXCL) =? Z.lor O_CREAT O_EXCL
                        then inl (- E_EXIST) else inr n
             | e => e
             end) with
      | inl error =>
          if (error =? - E_NOENT) && negb (Z.land flags_ O_CREAT =? 0)
          then match open_create root base path v with
               | None => None
               | Some (r, v) => Some (r, true, v)
               end
          else Some (inl error, false, v)
      | inr n => Some (inr n, false, v)
      end
  end.

(** The checks on the vnode; 0 when it can be opened. *)
Definition open_error (n flags_ : Z) (v : vfs) : Z :=
  let access := negb (Z.land flags_ O_ACCMODE =? 0) in
  if negb (Z.land flags_ O_DIRECTORY =? 0) && negb (type (vn v n) =? DT_DIR) then - E_NOTDIR
  else if access && (type (vn v n) =? DT_DIR) then - E_ISDIR
  else if access && (type (vn v n) =? DT_REG) && readonly (mnt v (vmount (vn v n))) then - E_ROFS
  else 0.

Definition truncate (n : Z) (v : vfs) : vfs :=
  let v := set_kern (free_blocks (blocks (vn v n)) (kern v)) v in
  update_vnode (λ x, with_size 0 (with_blocks (repeat 0 (Z.to_nat TMP_FILE_PAGES)) x)) n v.

(** From the vnode to the open file: the error, and the open file if there is none. *)
Definition open_node (n : Z) (created : bool) (flags_ : Z) (v : vfs) : Z * Z * vfs :=
  let rollback (error : Z) (v : vfs) := (error, 0, if created then remove_node n v else v) in
  let error := open_error n flags_ v in
  if negb (error =? 0) then rollback error v
  else
    let '(f, v) := file_new (if type (vn v n) =? DT_CHR then device_ops else regular_ops) flags_ v in
    if f =? 0 then rollback (- E_NOMEM) v
    else
      let v := update_file (with_node n) f v in
      (0, f, if negb (Z.land flags_ O_TRUNC =? 0) then truncate n v else v).

(** The error, and the open file if there is none. *)
Definition vfs_openat (root base : Z) (path : list Z) (flags_ : Z) (v : vfs) : option (Z * Z * vfs) :=
  if negb (Z.land flags_ (UINT32_MAX - open_allowed) =? 0) || (Z.land flags_ O_ACCMODE =? 3)
     || (negb (Z.land flags_ O_TRUNC =? 0) && (Z.land flags_ O_ACCMODE =? 0))
  then Some (- E_INVAL, 0, v)
  else
    let '(irq, s) := irq_save (kern v) in
    let v := set_kern s v in
    match open_target root base path flags_ v with
    | None => None
    | Some (inl error, _, v) => Some (error, 0, set_kern (irq_restore irq (kern v)) v)
    | Some (inr n, created, v) =>
        let '(error, f, v) := open_node n created flags_ v in
        Some (error, f, set_kern (irq_restore irq (kern v)) v)
    end.

Definition vfs_open (path : list Z) (v : vfs) : option (Z * vfs) :=
  match vfs_openat (vfs_root v) (vfs_root v) path O_RDONLY v with
  | None => None
  | Some (_, f, v) => Some (f, v)
  end.

(** ** Operations on open files; [f] is 0 for NULL. *)

Definition file_size (f : Z) (v : vfs) : Z :=
  if negb (f =? 0) && negb (node (fl v f) =? 0) then size (vn v (node (fl v f))) else 0.

Definition file_pread (f buffer size_ offset_ : Z) (v : vfs) : option (Z * vfs) :=
  if (f =? 0) || (Z.land (flags (fl v f)) O_ACCMODE =? O_WRONLY) then Some (- E_BADF, v)
  else
    match ops (fl v f) with
    | regular_ops =>
        let '(irq, s) := irq_save (kern v) in
        match regular_pread (vn v (node (fl v f))) buffer size_ offset_ s with
        | None => None
        | Some (result, s) => Some (result, set_kern (irq_restore irq s) v)
        end
    | _ => Some (- E_SPIPE, v)
    end.

(** [thread] is the thread that calls. *)
Definition file_read (thread f buffer size_ : Z) (v : vfs) : option (io * vfs) :=
  if (f =? 0) || (Z.land (flags (fl v f)) O_ACCMODE =? O_WRONLY) then Some (Did (- E_BADF), v)
  else
    let '(irq, s) := irq_save (kern v) in
    let v := set_kern s v in
    let result :=
      match ops (fl v f) with
      | device_ops => let '(r, s) := device_read (vn v (node (fl v f))) buffer size_ (kern v) in
                      Some (r, set_kern s v)
      | pipe_ops => pipe_read_file thread (fl v f) buffer size_ v
      | regular_ops =>
          match regular_pread (vn v (node (fl v f))) buffer size_ (offset (fl v f)) (kern v) with
          | None => None
          | Some (r, s) =>
              let v := set_kern s v in
              Some (Did r, if r >? 0 then update_file (with_offset (u64 (offset (fl v f) + r))) f v else v)
          end
      end in
    match result with
    | Some (Did r, v) => Some (Did r, set_kern (irq_restore irq (kern v)) v)
    | asleep => asleep
    end.

Definition file_write (thread f buffer size_ : Z) (v : vfs) : option (io * vfs) :=
  if (f =? 0) || (Z.land (flags (fl v f)) O_ACCMODE =? 0) then Some (Did (- E_BADF), v)
  else
    let '(irq, s) := irq_save (kern v) in
    let v := set_kern s v in
    let result :=
      match ops (fl v f) with
      | regular_ops => match regular_write f buffer size_ v with
                       | None => None
                       | Some (r, v) => Some (Did r, v)
                       end
      | device_ops => let '(r, s) := device_write (vn v (node (fl v f))) buffer size_ (kern v) in
                      Some (Did r, set_kern s v)
      | pipe_ops => pipe_write_file thread (fl v f) buffer size_ v
      end in
    match result with
    | Some (Did r, v) => Some (Did r, set_kern (irq_restore irq (kern v)) v)
    | asleep => asleep
    end.

(** [offset_] is an [int64_t]. *)
Definition file_seek (f offset_ whence : Z) (v : vfs) : Z * vfs :=
  if (node (fl v f) =? 0) || negb (type (vn v (node (fl v f))) =? DT_REG) then (- E_SPIPE, v)
  else
    let '(irq, s) := irq_save (kern v) in
    let v := set_kern s v in
    let base := if whence =? SEEK_SET then 0
                else if whence =? SEEK_CUR then s64 (offset (fl v f)) else s64 (file_size f v) in
    if (whence >? SEEK_END) || (offset_ <? - base) || (offset_ >? INT64_MAX - base)
    then (- E_INVAL, set_kern (irq_restore irq (kern v)) v)
    else
      let v := update_file (with_offset (u64 (base + offset_))) f v in
      (base + offset_, set_kern (irq_restore irq (kern v)) v).

(** An entry as it is written to the caller's array. *)
Record directory_entry := mk_dirent { d_inode : Z; d_type : Z; d_name : list Z }.

(** The entries written, with the result. *)
Definition file_getdents (f size_ : Z) (v : vfs) : Z * list directory_entry * vfs :=
  if (node (fl v f) =? 0) || negb (type (vn v (node (fl v f))) =? DT_DIR) then (- E_NOTDIR, [], v)
  else if size_ <? SIZEOF_DIRENT then (- E_INVAL, [], v)
  else
    let '(irq, s) := irq_save (kern v) in
    let v := set_kern s v in
    let rest := drop (Z.to_nat (offset (fl v f))) (children (vn v (node (fl v f)))) in
    let out := take (Z.to_nat (size_ / SIZEOF_DIRENT)) rest in
    let count := Z.of_nat (length out) in
    let v := update_file (with_offset (u64 (offset (fl v f) + count))) f v in
    (count * SIZEOF_DIRENT,
     (λ n, mk_dirent (inode (vn v n)) (type (vn v n)) (name (vn v n))) <$> out,
     set_kern (irq_restore irq (kern v)) v).

(** ** [pipe_create] of [pipe.c] *)

Definition with_private (a : Z) (f : file) : file :=
  mk_file (ops f) (node f) a (offset f) (references f) (flags f).

(** The pipe with its read end open; [kmalloc] has cleared the rest. *)
Definition half_pipe : pipe :=
  mk_pipe spinlock_init [] [] 0 0 true false (repeat 0 (Z.to_nat PIPE_CAPACITY)).
(** [p->writer = true] *)
Definition open_writer (p : pipe) : pipe :=
  mk_pipe (plock p) (readable p) (writable p) (phead p) (used p) (reader p) true (Pipe.data p).

(** The error, and the two open files when it is 0. *)
Definition pipe_create (v : vfs) : Z * Z * Z * vfs :=
  let '(p, s) := kmalloc SIZEOF_PIPE (kern v) in
  let v := set_kern s v in
  if p =? 0 then (- E_NOMEM, 0, 0, v)
  else
    let '(r, v) := file_new pipe_ops O_RDONLY v in
    if r =? 0 then (- E_NOMEM, 0, 0, set_kern (kfree p (kern v)) v)
    else
      let v := set_pipes (<[p := half_pipe]> (pipes v)) v in
      let v := update_file (with_private p) r v in
      let '(w, v) := file_new pipe_ops O_WRONLY v in
      if w =? 0 then (- E_NOMEM, 0, 0, file_put r v)
      else
        let v := update_file (with_private p) w v in
        (0, r, w, set_pipes (alter open_writer p (pipes v)) v).
End Files.
