(* ===== verification/VfsInit.v ===== *)
(** [vfs_init] and [vfs_shutdown] of [src/fs/vfs.c]: the namespace is built from a
    cpio archive (format 070701) that stays in memory.  Reading outside the
    archive is a [Fault]. *)
From S2P Require Import Prelude Machine Runtime PageAlloc HeapSpec Outcome Vfs.
From Stdlib Require String.
Import String.StringSyntax.

Abbreviation S_IFMT := 61440 (only parsing).          (* 0170000 *)
Abbreviation S_IFDIR := 16384 (only parsing).         (* 0040000 *)
Abbreviation S_IFREG := 32768 (only parsing).         (* 0100000 *)
Abbreviation S_IFLNK := 40960 (only parsing).         (* 0120000 *)

Section Init.
Context `{KernelHeap}.
(** The archive: its address and its size. *)
Context (archive asize : Z).

Definition abyte (off : Z) (v : vfs) : outcome Z :=
  if (0 <=? off) && (off <? asize) then Done (load8 (mem (kern v)) (archive + off)) else Fault.

Definition hex_digit (c : Z) : option Z :=
  if (c >=? 48) && (c <=? 57) then Some (c - 48)
  else if (c >=? 97) && (c <=? 102) then Some (c - 97 + 10)
  else if (c >=? 65) && (c <=? 70) then Some (c - 65 + 10)
  else None.

(** The loop of [hex8]; [None] for a character that is no digit. *)
Fixpoint hex_loop (n : nat) (p value : Z) (v : vfs) : outcome (option Z) :=
  match n with
  | O => Done (Some value)
  | S n =>
      let* c := abyte p v in
      match hex_digit c with
      | None => Done None
      | Some d => hex_loop n (p + 1) (Z.lor (u32 (Z.shiftl value 4)) d) v
      end
  end.
Definition hex8 (p : Z) (v : vfs) : outcome (option Z) := hex_loop 8 p 0 v.

(** [memcmp(header, literal, n) == 0] *)
Fixpoint matches (literal : list Z) (p : Z) (v : vfs) : outcome bool :=
  match literal with
  | [] => Done true
  | c :: rest => let* b := abyte p v in if b =? c then matches rest (p + 1) v else Done false
  end.

(** The string at [p]. *)
Fixpoint read_string (fuel : nat) (p : Z) (v : vfs) : outcome (list Z) :=
  match fuel with
  | O => OutOfFuel
  | S f =>
      let* b := abyte p v in
      if b =? 0 then Done [] else let* rest := read_string f (p + 1) v in Done (b :: rest)
  end.

(** A symlink's target has no NUL. *)
Fixpoint no_nul (n : nat) (p : Z) (v : vfs) : outcome bool :=
  match n with
  | O => Done true
  | S n => let* b := abyte p v in if b =? 0 then Done false else no_nul n (p + 1) v
  end.

Definition mode_type (mode : Z) : Z :=
  if Z.land mode S_IFMT =? S_IFDIR then DT_DIR
  else if Z.land mode S_IFMT =? S_IFREG then DT_REG
  else if Z.land mode S_IFMT =? S_IFLNK then DT_LNK
  else 0.

(** The loop of [archive_node]: [path] is what is left of the name, [dataoff] the
    offset of the contents. *)
Fixpoint archive_loop (fuel : nat) (parent_ : Z) (path : list Z) (dataoff size_ mode : Z) (v : vfs)
    : outcome (bool * vfs) :=
  match fuel with
  | O => OutOfFuel
  | S f =>
      let '(name_, rest) := split_component path in
      if bool_decide (name_ = []) || (Z.of_nat (length name_) >=? NAME_LIMIT) then Done (false, v)
      else if equal name_ (chars ".") || equal name_ (chars "..") then Done (false, v)
      else
        match rest with
        | _ :: rest =>
            let parent_ := child v parent_ name_ in
            if (parent_ =? 0) || negb (type (vn v parent_) =? DT_DIR) then Done (false, v)
            else archive_loop f parent_ rest dataoff size_ mode v
        | [] =>
            if negb (child v parent_ name_ =? 0) then Done (false, v)
            else
              let type_ := mode_type mode in
              if (type_ =? 0) || ((type_ =? DT_DIR) && negb (size_ =? 0)) then Done (false, v)
              else
                let* target_ok :=
                  if type_ =? DT_LNK then
                    if (size_ =? 0) || (size_ >=? PATH_LIMIT) then Done false
                    else no_nul (Z.to_nat size_) dataoff v
                  else Done true in
                if negb target_ok then Done (false, v)
                else
                  let '(n, v) := new_node parent_ name_ type_ 0 v in
                  if n =? 0 then Done (false, v)
                  else Done (true, update_vnode (with_data (archive + dataoff) size_) n v)
        end
  end.

Definition archive_node (path : list Z) (dataoff size_ mode : Z) (v : vfs) : outcome (bool * vfs) :=
  if equal path (chars ".") then Done (Z.land mode S_IFMT =? S_IFDIR, v)
  else if bool_decide (path = []) || starts_slash path then Done (false, v)
  else archive_loop (S (length path)) (vfs_root v) path dataoff size_ mode v.

(** [if (node->blocks[i]) page_free(node->blocks[i]); ... kfree(node);] for every
    node, in the order of the list. *)
Definition vfs_shutdown (v : vfs) : vfs :=
  let s := fold_left (λ s n, kfree n (free_blocks (blocks (vn v n)) s)) (nodes v) (kern v) in
  set_mounts (repeat no_mount 3) (set_vnodes ∅ (set_nodes [] (set_kern s v))).

Definition cpio_align (x : Z) : Z := Z.land (u64 (x + 3)) (not64 3).

(** The header at [off]: [None] for [goto fail], else mode, payload, name and
    the offsets of the contents and of the next header. *)
Definition read_header (off : Z) (v : vfs) : outcome (option (Z * Z * list Z * Z * Z)) :=
  let* magic := matches (chars "070701") off v in
  if negb magic then Done None
  else
    let* mode := hex8 (off + 14) v in
    let* payload := if bool_decide (mode = None) then Done None else hex8 (off + 54) v in
    let* namesize := if bool_decide (payload = None) then Done None else hex8 (off + 94) v in
    match mode, payload, namesize with
    | Some mode, Some payload, Some namesize =>
        if (namesize =? 0) || (namesize >? PATH_LIMIT) then Done None
        else
          let nameoff := off + 110 in
          if namesize >? asize - nameoff then Done None
          else
            let* last := abyte (nameoff + namesize - 1) v in
            if negb (last =? 0) then Done None
            else
              let* name_ := read_string (S (Z.to_nat namesize)) nameoff v in
              if negb (Z.of_nat (length name_) =? namesize - 1) then Done None
              else
                let dataoff := cpio_align (nameoff + namesize) in
                if (dataoff >? asize) || (payload >? asize - dataoff) then Done None
                else
                  let next := cpio_align (dataoff + payload) in
                  if next >? asize then Done None
                  else Done (Some (mode, payload, name_, dataoff, next))
    | _, _, _ => Done None
    end.

(** The loop over the archive: whether it ended with the trailer, or [None] for
    [goto fail]. *)
Fixpoint entries_loop (fuel : nat) (off : Z) (v : vfs) : outcome (option bool * vfs) :=
  if negb ((off <=? asize) && (asize - off >=? 110)) then Done (Some false, v)
  else
    match fuel with
    | O => OutOfFuel
    | S f =>
        let* header := read_header off v in
        match header with
        | None => Done (None, v)
        | Some (mode, payload, name_, dataoff, next) =>
            if equal name_ (chars "TRAILER!!!") then Done (Some (payload =? 0), v)
            else
              let* (ok, v) := archive_node name_ dataoff payload mode v in
              if negb ok then Done (None, v) else entries_loop f next v
        end
    end.

(** One of the two boot mounts. *)
Definition add_mount (i : nat) (name_ : list Z) (v : vfs) : bool * vfs :=
  let covered_ := child v (vfs_root v) name_ in
  let '(covered_, v) :=
    if negb (covered_ =? 0) then (covered_, v) else new_node (vfs_root v) name_ DT_DIR 0 v in
  if (covered_ =? 0) || negb (type (vn v covered_) =? DT_DIR) then (false, v)
  else
    let v := set_mounts (<[i := mk_mount (mroot (mnt v i)) covered_ (bool_decide (i = 2%nat))]> (mounts v)) v in
    let '(r, v) := new_node 0 [] DT_DIR i v in
    let v := set_mounts (<[i := mk_mount r (covered (mnt v i)) (readonly (mnt v i))]> (mounts v)) v in
    if r =? 0 then (false, v)
    else (true, update_vnode (with_mounted (Some i)) covered_ v).

Definition vfs_init (v : vfs) : outcome (bool * vfs) :=
  if negb (bool_decide (nodes v = [])) || (archive =? 0) then Done (false, v)
  else
    let v := set_next_inode 1 v in
    let v := set_mounts (<[0%nat := mk_mount (mroot (mnt v 0)) (covered (mnt v 0)) true]> (mounts v)) v in
    let '(r, v) := new_node 0 [] DT_DIR 0 v in
    let v := set_mounts (<[0%nat := mk_mount r (covered (mnt v 0)) (readonly (mnt v 0))]> (mounts v)) v in
    if r =? 0 then Done (false, v)
    else
      let fail (v : vfs) : outcome (bool * vfs) := Done (false, vfs_shutdown v) in
      let* (trailer, v) := entries_loop (Z.to_nat asize) 0 v in
      if negb (default false trailer) then fail v
      else
        let '(ok, v) := add_mount 1 (chars "tmp") v in
        if negb ok then fail v
        else
          let '(ok, v) := add_mount 2 (chars "dev") v in
          if negb ok then fail v
          else
            let '(n, v) := new_node (mroot (mnt v 2)) (chars "console") DT_CHR 2 v in
            if n =? 0 then fail v
            else
              let '(n, v) := new_node (mroot (mnt v 2)) (chars "null") DT_CHR 2 v in
              if n =? 0 then fail v else Done (true, v).
End Init.
