(* ===== verification/VfsTree.v ===== *)
(** The namespace of [src/fs/vfs.c]: well-formedness, and path resolution in both
    directions ([vfs_resolve] and [vfs_getcwd]). *)
From S2P Require Import Prelude Machine Outcome Vfs.
From Stdlib Require String.
Import String.StringSyntax.

(** * Paths *)

Lemma skip_slashes_length p : (length (skip_slashes p) <= length p)%nat.
Proof. induction p as [|c p IH]; cbn [skip_slashes length]; [lia|]. case_if; cbn [length]; lia. Qed.

Lemma skip_slashes_head p : starts_slash (skip_slashes p) = false.
Proof.
  induction p as [|c p IH]; cbn [skip_slashes]; [done|]. destruct (c =? SLASH) eqn:E; [done|]. by cbn.
Qed.

Lemma split_component_app p : p = (split_component p).1 ++ (split_component p).2.
Proof.
  induction p as [|c p IH]; cbn [split_component]; [done|]. destruct (c =? SLASH); [done|].
  destruct (split_component p) as [n r]. cbn in *. by rewrite IH.
Qed.

Lemma split_component_nonempty p :
  p ≠ [] → starts_slash p = false → (length (split_component p).2 < length p)%nat.
Proof.
  destruct p as [|c p]; [done|]. cbn [starts_slash split_component]. intros _ ->.
  pose proof (split_component_app p) as E. destruct (split_component p) as [n r]. cbn in *.
  rewrite E, length_app. lia.
Qed.

Lemma c_string_length l : (length (c_string l) <= length l)%nat.
Proof. induction l as [|b l IH]; cbn [c_string length]; [lia|]. case_if; cbn [length]; lia. Qed.

Lemma bytes_at_length m a n : 0 <= n → Z.of_nat (length (bytes_at m a n)) = n.
Proof. intros Hn. unfold bytes_at. rewrite length_fmap, length_seq. lia. Qed.

(** The characters of a string in memory. *)
Definition c_chars (s : list Z) : Prop := Forall (λ c, c ≠ 0) s.

Lemma split_component_chars p :
  c_chars p → Forall (λ c, c ≠ 0 ∧ c ≠ SLASH) (split_component p).1 ∧ c_chars (split_component p).2.
Proof.
  induction 1 as [|c p Hc Hp IH]; cbn [split_component]; [by split; constructor|].
  destruct (Z.eqb_spec c SLASH) as [->|Hs]; [by split; [constructor|constructor]|].
  destruct (split_component p) as [n r]. cbn in *. destruct IH as [IH1 IH2]. split; [by constructor|done].
Qed.

Lemma c_string_chars l : c_chars (c_string l).
Proof.
  induction l as [|c l IH]; cbn [c_string]; [constructor|]. destruct (Z.eqb_spec c 0); by constructor.
Qed.

Lemma c_string_id l : c_chars l → c_string l = l.
Proof. induction 1 as [|c l Hc _ IH]; cbn [c_string]; [done|]. by rewrite (proj2 (Z.eqb_neq _ _) Hc), IH. Qed.

(** * Termination *)

(** The measure: the links that may still be followed, then the path left. *)
Definition resolve_measure (links : Z) (rest : list Z) : Z :=
  (8 - links) * PATH_LIMIT + Z.of_nat (length rest).

Lemma resolve_loop_returns v root nofollow fuel : ∀ n links rest,
  0 <= links <= 8 → Z.of_nat (length rest) < PATH_LIMIT →
  resolve_measure links rest < Z.of_nat fuel →
  ∃ r, resolve_loop fuel v root nofollow n links rest = Some r.
Proof.
  unfold resolve_measure. induction fuel as [|fuel IH]; intros n links rest Hl Hlen Hf; [lia|].
  cbn [resolve_loop]. pose proof (skip_slashes_length rest) as Hskip. pose proof (skip_slashes_head rest) as Hhead.
  destruct (skip_slashes rest) as [|c p] eqn:Es; [case_if; eauto|].
  destruct (negb (type (vn v n) =? DT_DIR)); [eauto|].
  pose proof (split_component_nonempty (c :: p) ltac:(done) Hhead) as Hlt.
  destruct (split_component (c :: p)) as [name_ rest']. cbn [snd] in Hlt.
  destruct (_ >=? NAME_LIMIT); [eauto|].
  destruct (equal name_ (chars ".")); [apply IH; lia|].
  destruct (equal name_ (chars "..")); [apply IH; lia|].
  destruct (child v n name_ =? 0); [eauto|]. set (next := cross v _).
  destruct (type (vn v next) =? DT_LNK); [|apply IH; lia].
  destruct (nofollow && _); [eauto|].
  destruct (Z.gtb_spec (links + 1) 8); [eauto|]. destruct (_ || _) eqn:E; [eauto|].
  apply orb_false_iff in E as [E1 E2]. rewrite Z.geb_leb in E2.
  apply Z.eqb_neq in E1. apply Z.leb_gt in E2.
  set (work := c_string _).
  assert (Z.of_nat (length work) < PATH_LIMIT) as Hw.
  { pose proof (c_string_length (bytes_at (mem (kern v)) (data (vn v next)) (size (vn v next)) ++ rest')) as Hc.
    fold work in Hc. rewrite length_app in Hc.
    destruct (decide (0 <= size (vn v next))) as [H0|H0].
    - pose proof (bytes_at_length (mem (kern v)) (data (vn v next)) (size (vn v next)) H0). lia.
    - unfold bytes_at in Hc. rewrite length_fmap, length_seq in Hc. lia. }
  apply IH; lia.
Qed.

Lemma resolve_returns v root base path nofollow :
  ∃ r, vfs_resolve v root base path nofollow = Some r.
Proof.
  unfold vfs_resolve. destruct path as [|c p]; [eauto|]. set (path := c :: p).
  destruct (Z.geb_spec (Z.of_nat (length path)) PATH_LIMIT); [eauto|].
  case_if; [eauto|]. apply resolve_loop_returns; [lia|done|].
  unfold resolve_measure, resolve_fuel. rewrite Z2Nat.id by lia. lia.
Qed.

(** * Well-formed namespaces *)

Record good_name (s : list Z) : Prop := {
  gn_length : 0 < Z.of_nat (length s) < NAME_LIMIT;
  gn_chars : Forall (λ c, c ≠ 0 ∧ c ≠ SLASH) s;
  gn_dot : s ≠ chars ".";
  gn_dotdot : s ≠ chars "..";
}.

Definition is_node (v : vfs) (n : Z) : Prop := is_Some (vnodes v !! n).
Definition is_mount_root (v : vfs) (n : Z) : Prop := n = mroot (mnt v (vmount (vn v n))).

Record tree_ok (v : vfs) : Prop := {
  to_null : ¬ is_node v 0;
  to_children : ∀ n c, is_node v n → c ∈ children (vn v n) →
    type (vn v n) = DT_DIR ∧ is_node v c ∧ parent (vn v c) = n ∧ ¬ is_mount_root v c ∧
    vmount (vn v c) = vmount (vn v n) ∧ good_name (name (vn v c));
  to_names : ∀ n c d, is_node v n → c ∈ children (vn v n) → d ∈ children (vn v n) →
    name (vn v c) = name (vn v d) → c = d;
  to_parent : ∀ n, is_node v n →
    (is_mount_root v n ∧ type (vn v n) = DT_DIR ∧ mounted (vn v n) = None ∧ parent (vn v n) = n) ∨
    (is_node v (parent (vn v n)) ∧ n ∈ children (vn v (parent (vn v n))));
  to_mounted : ∀ n i, is_node v n → mounted (vn v n) = Some i →
    covered (mnt v i) = n ∧ is_node v (mroot (mnt v i)) ∧ vmount (vn v (mroot (mnt v i))) = i;
  to_covered : ∀ i, covered (mnt v i) ≠ 0 →
    is_node v (covered (mnt v i)) ∧ mounted (vn v (covered (mnt v i))) = Some i ∧
    ¬ is_mount_root v (covered (mnt v i));
  to_mroot : ∀ n, is_node v n → is_node v (mroot (mnt v (vmount (vn v n))));
}.

(** The nodes a process with this root can get to, none of them hidden under a
    mount. *)
Inductive within (v : vfs) (root : Z) : Z → Prop :=
  | within_root : within v root root
  | within_up n : n ≠ root → is_node v n → mounted (vn v n) = None → within v root (up v n) →
      within v root n.

Lemma child_spec v n s :
  child v n s ≠ 0 → child v n s ∈ children (vn v n) ∧ name (vn v (child v n s)) = s.
Proof.
  unfold child. destruct (find _ _) as [c|] eqn:E; [|done]. intros _.
  apply find_some in E as [Hin Hc]. split; [by apply list_elem_of_In|]. unfold equal in Hc. by apply bool_decide_eq_true in Hc.
Qed.

Lemma child_complete v n c :
  tree_ok v → is_node v n → c ∈ children (vn v n) → child v n (name (vn v c)) = c.
Proof.
  intros Hv Hn Hc. unfold child. destruct (find _ _) as [d|] eqn:E.
  - apply find_some in E as [Hin Hd]. unfold equal in Hd. apply bool_decide_eq_true in Hd.
    apply (to_names v Hv n d c Hn); [by apply list_elem_of_In|done|done].
  - apply list_elem_of_In in Hc. pose proof (find_none _ _ E c Hc) as Hno. unfold equal in Hno.
    by apply bool_decide_eq_false in Hno.
Qed.

(** A directory entry, seen through the mounts. *)
Lemma cross_spec v n c :
  tree_ok v → is_node v n → c ∈ children (vn v n) →
  is_node v (cross v c) ∧ mounted (vn v (cross v c)) = None ∧ up v (cross v c) = n.
Proof.
  intros Hv Hn Hc. destruct (to_children v Hv n c Hn Hc) as (_ & Hcn & Hpar & Hroot & _ & _).
  unfold cross. destruct (mounted (vn v c)) as [i|] eqn:Em.
  - destruct (to_mounted v Hv c i Hcn Em) as (Hcov & Hr & Hi).
    assert (is_mount_root v (mroot (mnt v i))) as Hmr by (unfold is_mount_root; by rewrite Hi).
    split; [done|]. destruct (to_parent v Hv _ Hr) as [(_ & _ & Hnone & _)|[Hp Hin]].
    + split; [done|]. unfold up. rewrite Hi, Hcov, Z.eqb_refl.
      assert (c ≠ 0) as Hc0 by (intros ->; by apply (to_null v Hv)).
      rewrite (proj2 (Z.eqb_neq _ _) Hc0). cbn. done.
    + exfalso. by destruct (to_children v Hv _ _ Hp Hin) as (_ & _ & _ & Hno & _).
  - split; [done|]. split; [done|]. unfold up. unfold is_mount_root in Hroot.
    destruct (Z.eqb_spec (mroot (mnt v (vmount (vn v c)))) c) as [E|_]; [by rewrite E in Hroot|]. done.
Qed.

(** Every node but the root of a mount is below a directory. *)
Lemma within_node v root n : within v root n → is_node v root → is_node v n.
Proof. by destruct 1. Qed.

(** * Resolution stays inside the root *)

Lemma resolve_within_loop v root nofollow fuel : ∀ n links rest r,
  tree_ok v → is_node v root → within v root n →
  resolve_loop fuel v root nofollow n links rest = Some (inr r) → within v root r.
Proof.
  induction fuel as [|fuel IH]; intros n links rest r Hv Hroot Hn; cbn [resolve_loop]; [done|].
  destruct (skip_slashes rest) as [|c p]; [case_if; [done|]; by intros [= ->]|].
  destruct (negb (type (vn v n) =? DT_DIR)); [done|].
  destruct (split_component (c :: p)) as [name_ rest']. destruct (_ >=? NAME_LIMIT); [done|].
  destruct (equal name_ (chars ".")); [by apply IH|].
  destruct (equal name_ (chars "..")).
  { apply IH; try done. destruct (Z.eqb_spec n root); cbn; [done|]. by destruct Hn. }
  destruct (Z.eqb_spec (child v n name_) 0) as [|Hc]; [done|].
  destruct (child_spec v n name_ Hc) as [Hin _].
  destruct (cross_spec v n _ Hv (within_node _ _ _ Hn Hroot) Hin) as (Hnode & Hmnt & Hup).
  set (next := cross v _) in *. destruct (type (vn v next) =? DT_LNK).
  - destruct (nofollow && _); [done|]. destruct (_ >? 8); [done|]. destruct (_ || _); [done|].
    apply IH; try done. case_if; [apply within_root|done].
  - apply IH; try done. destruct (decide (next = root)) as [->|Hne]; [apply within_root|].
    apply within_up; try done. by rewrite Hup.
Qed.

(** * A working directory resolves to itself *)

(** What may follow a component. *)
Definition component_end (tail_ : list Z) : Prop := tail_ = [] ∨ starts_slash tail_ = true.

Lemma split_component_name s tail_ :
  Forall (λ c, c ≠ 0 ∧ c ≠ SLASH) s → component_end tail_ → split_component (s ++ tail_) = (s, tail_).
Proof.
  intros Hs Ht. induction Hs as [|c s [_ Hc] Hs IH]; cbn [app].
  - destruct Ht as [->|Ht]; [done|]. destruct tail_ as [|c t]; [done|]. cbn in Ht |- *. by rewrite Ht.
  - cbn [split_component]. rewrite (proj2 (Z.eqb_neq _ _) Hc). by rewrite IH.
Qed.

(** One component of an absolute path to a directory. *)
Lemma resolve_step v root nofollow F n links c tail_ :
  tree_ok v → is_node v n → c ∈ children (vn v n) → type (vn v (cross v c)) = DT_DIR →
  component_end tail_ →
  resolve_loop (S F) v root nofollow n links (SLASH :: name (vn v c) ++ tail_)
  = resolve_loop F v root nofollow (cross v c) links tail_.
Proof.
  intros Hv Hn Hc Hdir Ht. destruct (to_children v Hv n c Hn Hc) as (Hnd & Hcn & _ & _ & _ & [G1 G2 G3 G4]).
  pose proof (split_component_name _ _ G2 Ht) as Hsp.
  assert (∃ z w, skip_slashes (SLASH :: name (vn v c) ++ tail_) = z :: w ∧ name (vn v c) ++ tail_ = z :: w)
    as (z & w & Hskip & Eall).
  { destruct (name (vn v c)) as [|x y]; [cbn in G1; lia|]. exists x, (y ++ tail_). split; [|done].
    cbn. inversion_clear G2 as [|? ? [_ Hx] _]. by rewrite (proj2 (Z.eqb_neq _ _) Hx). }
  rewrite Eall in Hsp. cbn [resolve_loop]. rewrite Hskip, Hsp, Hnd.
  change (negb (DT_DIR =? DT_DIR)) with false. cbv iota.
  destruct (Z.geb_spec (Z.of_nat (length (name (vn v c)))) NAME_LIMIT); [lia|].
  unfold equal. rewrite !bool_decide_eq_false_2 by done.
  rewrite (child_complete v n c Hv Hn Hc).
  destruct (Z.eqb_spec c 0) as [->|_]; [exfalso; by apply (to_null v Hv)|].
  rewrite Hdir. done.
Qed.

Definition cwd_entry (v : vfs) (n : Z) : Z :=
  let m := mnt v (vmount (vn v n)) in if (mroot m =? n) && negb (covered m =? 0) then covered m else n.

Lemma within_up_ne v root n : within v root n → n ≠ root → up v n ≠ n.
Proof. induction 1 as [|n Hne Hn Hm Hw IH]; [done|]. intros _ E. rewrite E in IH. by apply IH. Qed.

(** The directory entry of a node that is not the root. *)
Lemma cwd_entry_spec v root n :
  tree_ok v → is_node v root → within v root n → n ≠ root →
  within v root (up v n) ∧ cwd_entry v n ∈ children (vn v (up v n)) ∧
  cross v (cwd_entry v n) = n ∧ parent (vn v (cwd_entry v n)) = up v n.
Proof.
  intros Hv Hroot Hin Hne. pose proof (within_up_ne _ _ _ Hin Hne) as Hup. destruct Hin as [|n _ Hn Hm Hw]; [done|].
  split; [done|]. clear Hw. unfold cwd_entry, up in *.
  destruct (Z.eqb_spec (mroot (mnt v (vmount (vn v n)))) n) as [E|E]; cbn [andb] in *.
  - destruct (Z.eqb_spec (covered (mnt v (vmount (vn v n)))) 0) as [E0|E0]; cbn [negb] in *.
    { exfalso. destruct (to_parent v Hv n Hn) as [(_ & _ & _ & Hp)|[Hp Hin]]; [done|].
      destruct (to_children v Hv _ _ Hp Hin) as (_ & _ & _ & Hr & _). by apply Hr. }
    destruct (to_covered v Hv _ E0) as (Hc & Hcm & Hcr).
    destruct (to_parent v Hv _ Hc) as [(Hr & _)|[_ Hin]]; [done|].
    split; [done|]. split; [|done]. unfold cross. by rewrite Hcm, E.
  - destruct (to_parent v Hv n Hn) as [(Hr & _)|[_ Hin]]; [by rewrite <- Hr in E|].
    split; [done|]. split; [|done]. unfold cross. by rewrite Hm.
Qed.

(** What the loop has put in front of [path] leads from the root to the node. *)
Lemma getcwd_loop_path v root nofollow fuel : ∀ cwd at_ path p,
  tree_ok v → is_node v root → within v root cwd → type (vn v cwd) = DT_DIR → 0 <= at_ →
  getcwd_loop fuel v root cwd at_ path = Some (inr p) →
  ∃ q k, p = q ++ path ∧ (k <= length q)%nat ∧ Z.of_nat (length q) <= at_ ∧
    (q = [] → cwd = root) ∧ (q ≠ [] → starts_slash q = true) ∧
    ∀ F links tail_, component_end tail_ →
      resolve_loop (k + F) v root nofollow root links (q ++ tail_)
      = resolve_loop F v root nofollow cwd links tail_.
Proof.
  induction fuel as [|fuel IH]; intros cwd at_ path p Hv Hroot Hw Hd Hat; [done|].
  cbn [getcwd_loop]. destruct (Z.eqb_spec cwd root) as [->|Hne].
  { intros [= <-]. exists [], 0%nat. repeat split; cbn; first [done|lia]. }
  fold (cwd_entry v cwd).
  destruct (cwd_entry_spec v root cwd Hv Hroot Hw Hne) as (Hup & Hin & Hcross & Hpar). rewrite Hpar.
  set (e := cwd_entry v cwd) in *. pose proof (within_node _ _ _ Hup Hroot) as Hun.
  destruct (to_children v Hv _ _ Hun Hin) as (Hud & _).
  destruct (Z.gtb_spec (Z.of_nat (length (name (vn v e))) + 1) at_) as [|Hle]; [done|]. intros Hp.
  apply IH in Hp as (q & k & -> & Hk & Hq & _ & Hs & Hres); [|done|done|done|done|lia].
  exists (q ++ SLASH :: name (vn v e)), (S k). rewrite length_app. cbn [length].
  repeat split; try lia.
  - by rewrite <- app_assoc.
  - by destruct q.
  - intros _. destruct q; [done|]. by apply Hs.
  - intros F links tail_ Ht. rewrite <- app_assoc. replace (S k + F)%nat with (k + S F)%nat by lia.
    rewrite Hres by (by right). cbn [app]. rewrite <- Hcross at 2.
    by apply resolve_step; rewrite ?Hcross.
Qed.

Lemma getcwd_loop_returns v root fuel : ∀ cwd at_ path,
  0 <= at_ < Z.of_nat fuel → ∃ r, getcwd_loop fuel v root cwd at_ path = Some r.
Proof.
  induction fuel as [|fuel IH]; intros cwd at_ path Hat; [lia|]. cbn [getcwd_loop].
  case_if; [eauto|]. set (e := if (_ && _) then _ else cwd).
  destruct (Z.gtb_spec (Z.of_nat (length (name (vn v e))) + 1) at_); [eauto|]. apply IH. lia.
Qed.

Lemma getcwd_loop_error v root fuel : ∀ cwd at_ path e,
  getcwd_loop fuel v root cwd at_ path = Some (inl e) → e = - E_NAMETOOLONG.
Proof.
  induction fuel as [|fuel IH]; intros cwd at_ path e; [done|]. cbn [getcwd_loop].
  case_if; [done|]. set (c := if (_ && _) then _ else cwd). case_if; [by intros [= <-]|]. apply IH.
Qed.

(** The path of a working directory, put together, resolves to it. *)
Lemma getcwd_resolve_path v root base cwd nofollow p k :
  tree_ok v → is_node v root → type (vn v cwd) = DT_DIR → (k <= length p)%nat → Z.of_nat (length p) <= PATH_LIMIT - 1 →
  (p = [] → cwd = root) → (p ≠ [] → starts_slash p = true) →
  (∀ F links tail_, component_end tail_ →
    resolve_loop (k + F) v root nofollow root links (p ++ tail_) = resolve_loop F v root nofollow cwd links tail_) →
  vfs_resolve v root base (match p with [] => [SLASH] | _ => p end) nofollow = Some (inr cwd).
Proof.
  intros Ht Hr Hd Hk Hlen Hnil Hslash Hres.
  assert (root ≠ 0) as Hr0 by (intros ->; by apply (to_null v Ht)). unfold vfs_resolve. destruct p as [|c p].
  - rewrite (Hnil eq_refl) in *. change (Z.of_nat (length [SLASH]) >=? PATH_LIMIT) with false. cbv iota.
    change (starts_slash [SLASH]) with true. cbv iota zeta. rewrite (proj2 (Z.eqb_neq _ _) Hr0).
    replace resolve_fuel with (S (resolve_fuel - 1)) by (unfold resolve_fuel; lia).
    cbn [resolve_loop]. change (skip_slashes [SLASH]) with (@nil Z). by rewrite Hd.
  - destruct (Z.geb_spec (Z.of_nat (length (c :: p))) PATH_LIMIT); [lia|]. rewrite Hslash by done.
    rewrite (proj2 (Z.eqb_neq _ _) Hr0). specialize (Hres (resolve_fuel - k)%nat 0 [] ltac:(by left)).
    rewrite app_nil_r in Hres. replace (k + (resolve_fuel - k))%nat with resolve_fuel in Hres by (unfold resolve_fuel; lia).
    rewrite Hres. assert (∃ f, (resolve_fuel - k)%nat = S f) as [f ->].
    { exists (resolve_fuel - k - 1)%nat. unfold resolve_fuel. lia. }
    done.
Qed.

(** Resolution sees the memory and the tree, not the rest of the kernel. *)
Lemma resolve_loop_kern v s root nf : mem s = mem (kern v) → ∀ fuel n links rest,
  resolve_loop fuel (set_kern s v) root nf n links rest = resolve_loop fuel v root nf n links rest.
Proof.
  intros Hm fuel. induction fuel as [|fuel IH]; intros n links rest; cbn [resolve_loop]; [done|].
  destruct (skip_slashes rest) as [|c r]; [done|]. destruct (split_component (c :: r)) as [nm r'].
  change (vn (set_kern s v)) with (vn v). change (child (set_kern s v)) with (child v).
  change (cross (set_kern s v)) with (cross v). change (up (set_kern s v)) with (up v).
  change (mem (kern (set_kern s v))) with (mem s). cbv zeta. by rewrite !IH, Hm.
Qed.

Lemma resolve_kern v s root base path nf :
  mem s = mem (kern v) → vfs_resolve (set_kern s v) root base path nf = vfs_resolve v root base path nf.
Proof. intros Hm. unfold vfs_resolve. destruct path; [done|]. do 2 (case_if; [done|]). by apply resolve_loop_kern. Qed.
