(* ===== verification/VfsInv.v ===== *)
(** The storage of [src/fs/vfs.c]: every vnode is an object of the heap, every page
    of a file belongs to it alone; and how the namespace grows and goes away. *)
From S2P Require Import Prelude Machine Runtime PageAlloc HeapSpec Ownership Outcome Vfs VfsInit VfsTree.
From Stdlib Require String.
Import String.StringSyntax.

(** * Updates of one vnode or one open file *)

Lemma vn_update g n v x : vn (update_vnode g n v) x = if decide (x = n) then g (vn v n) else vn v x.
Proof.
  unfold vn, update_vnode. cbn. case_decide as Hx; [by rewrite Hx, lookup_total_insert_eq|].
  by rewrite lookup_total_insert_ne.
Qed.

Lemma is_node_update g n v x : is_node v n → is_node (update_vnode g n v) x ↔ is_node v x.
Proof.
  intros Hn. unfold is_node, update_vnode in *. cbn. rewrite lookup_insert_is_Some'. naive_solver.
Qed.

Lemma fl_update g f v x : fl (update_file g f v) x = if decide (x = f) then g (fl v f) else fl v x.
Proof.
  unfold fl, update_file. cbn. case_decide as Hx; [by rewrite Hx, lookup_total_insert_eq|].
  by rewrite lookup_total_insert_ne.
Qed.

Lemma update_vnode_id g n v : is_node v n → g (vn v n) = vn v n → update_vnode g n v = v.
Proof.
  intros [x Hx] Hg. unfold update_vnode. rewrite Hg. unfold vn. rewrite (lookup_total_correct _ _ x Hx), insert_id by done.
  by destruct v.
Qed.

(** * Growing the namespace *)

(** [v'] is [v] with the new vnode [n], in the directory [parent_] unless that is
    NULL. *)
Record grown (v v' : vfs) (parent_ n : Z) (fresh : vnode) : Prop := {
  gr_fresh : ¬ is_node v n;
  gr_new : vn v' n = fresh;
  gr_dom : ∀ x, is_node v' x ↔ x = n ∨ is_node v x;
  gr_old : ∀ x, is_node v x →
    vn v' x = if decide (x = parent_) then with_children (children (vn v x) ++ [n]) (vn v x) else vn v x;
  gr_nodes : nodes v' = nodes v ++ [n];
  gr_mounts : mounts v' = mounts v;
}.

(** Everything but the children is as it was. *)
Lemma grown_fields v v' p n fresh x :
  grown v v' p n fresh → is_node v x →
  parent (vn v' x) = parent (vn v x) ∧ vmount (vn v' x) = vmount (vn v x) ∧
  mounted (vn v' x) = mounted (vn v x) ∧ name (vn v' x) = name (vn v x) ∧ type (vn v' x) = type (vn v x).
Proof. intros Hg Hx. rewrite (gr_old _ _ _ _ _ Hg x Hx). by destruct (decide (x = p)). Qed.

Lemma grown_children v v' p n fresh x :
  grown v v' p n fresh → is_node v x →
  children (vn v' x) = children (vn v x) ++ (if decide (x = p) then [n] else []).
Proof. intros Hg Hx. rewrite (gr_old _ _ _ _ _ Hg x Hx). case_decide; cbn; [done|by rewrite app_nil_r]. Qed.

Lemma grown_mnt v v' p n fresh i : grown v v' p n fresh → mnt v' i = mnt v i.
Proof. intros Hg. unfold mnt. by rewrite (gr_mounts _ _ _ _ _ Hg). Qed.

Lemma child_none v n s c :
  tree_ok v → is_node v n → child v n s = 0 → c ∈ children (vn v n) → name (vn v c) ≠ s.
Proof.
  unfold child. intros Hv Hn Hc Hin Hs. destruct (find _ _) as [d|] eqn:E.
  - subst d. apply find_some in E as [E _]. apply list_elem_of_In in E.
    destruct (to_children v Hv n 0 Hn E) as (_ & H0 & _). by apply (to_null v Hv).
  - apply list_elem_of_In in Hin. pose proof (find_none _ _ E c Hin) as Hno. unfold equal in Hno.
    by apply bool_decide_eq_false in Hno.
Qed.

(** The fields of a vnode the namespace is made of. *)
Definition shape (n : vnode) : list Z * Z * nat * option nat * list Z * Z :=
  (children n, parent n, vmount n, mounted n, name n, type n).

Definition same_tree (v v' : vfs) : Prop :=
  (∀ n, is_node v' n ↔ is_node v n) ∧ (∀ n, shape (vn v' n) = shape (vn v n)) ∧ mounts v' = mounts v.

#[export] Instance same_tree_equiv : Equivalence same_tree.
Proof.
  split.
  - done.
  - intros v w (H1 & H2 & H3). split; [|split]; intros; symmetry; auto.
  - intros u v w (H1 & H2 & H3) (H4 & H5 & H6). split; [|split]; [|intros; by rewrite H5|by rewrite H6].
    intros n. by rewrite H4.
Qed.

#[export] Instance tree_ok_proper : Proper (same_tree ==> iff) tree_ok.
Proof.
  assert (∀ v v', same_tree v v' → tree_ok v → tree_ok v') as Himp.
  2:{ intros v v' Hs. split; apply Himp; [done|by symmetry]. }
  intros v v' (Hd & Hs & Hm) Hv.
  assert (∀ i, mnt v' i = mnt v i) as Hmnt by (intros; unfold mnt; by rewrite Hm).
  assert (∀ n, children (vn v' n) = children (vn v n) ∧ parent (vn v' n) = parent (vn v n) ∧
    vmount (vn v' n) = vmount (vn v n) ∧ mounted (vn v' n) = mounted (vn v n) ∧
    name (vn v' n) = name (vn v n) ∧ type (vn v' n) = type (vn v n)) as Hf.
  { intros n. specialize (Hs n). unfold shape in Hs. simplify_eq. repeat split; congruence. }
  assert (∀ n, is_mount_root v' n ↔ is_mount_root v n) as Hr.
  { intros n. unfold is_mount_root. destruct (Hf n) as (_ & _ & -> & _). by rewrite Hmnt. }
  split.
  - rewrite Hd. apply Hv.
  - intros n c Hn Hc. rewrite Hd in Hn |- *. rewrite Hr. destruct (Hf n) as (Ec & _ & -> & _ & _ & ->).
    rewrite Ec in Hc. destruct (Hf c) as (_ & -> & -> & _ & -> & _). by apply (to_children v Hv).
  - intros n c d Hn. rewrite Hd in Hn. destruct (Hf n) as (-> & _).
    destruct (Hf c) as (_ & _ & _ & _ & -> & _), (Hf d) as (_ & _ & _ & _ & -> & _). by apply (to_names v Hv).
  - intros n. rewrite !Hd, Hr. destruct (Hf n) as (_ & -> & _ & -> & _ & ->).
    destruct (Hf (parent (vn v n))) as (-> & _). apply (to_parent v Hv).
  - intros n i. rewrite !Hd, !Hmnt. destruct (Hf n) as (_ & _ & _ & -> & _).
    destruct (Hf (mroot (mnt v i))) as (_ & _ & -> & _). apply (to_mounted v Hv).
  - intros i. rewrite !Hmnt, Hd, Hr. destruct (Hf (covered (mnt v i))) as (_ & _ & _ & -> & _).
    apply (to_covered v Hv).
  - intros n. rewrite !Hd. destruct (Hf n) as (_ & _ & -> & _). rewrite Hmnt. apply (to_mroot v Hv).
Qed.

(** A new entry of a directory. *)
Lemma tree_grow v v' p n fresh :
  tree_ok v → grown v v' p n fresh → n ≠ 0 → is_node v p → type (vn v p) = DT_DIR →
  children fresh = [] → parent fresh = p → vmount fresh = vmount (vn v p) → mounted fresh = None →
  good_name (name fresh) → child v p (name fresh) = 0 → tree_ok v'.
Proof.
  intros Hv Hg Hn0 Hp Hdir Fc Fp Fm Fmo Fn Hno. pose proof (gr_fresh _ _ _ _ _ Hg) as Hfresh.
  assert (∀ i, mnt v' i = mnt v i) as Hmnt by (intros; by eapply grown_mnt).
  pose proof (gr_dom _ _ _ _ _ Hg) as Hdom. pose proof (gr_new _ _ _ _ _ Hg) as Hnew.
  assert (∀ x, is_node v x → is_mount_root v' x ↔ is_mount_root v x) as Hr.
  { intros x Hx. unfold is_mount_root. destruct (grown_fields _ _ _ _ _ x Hg Hx) as (_ & -> & _).
    by rewrite Hmnt. }
  assert (¬ is_mount_root v' n) as Hnr.
  { unfold is_mount_root. rewrite Hnew, Fm, Hmnt. intros E. apply Hfresh. rewrite E. by apply (to_mroot v Hv). }
  assert (∀ x c, is_node v x → c ∈ children (vn v' x) → (x = p ∧ c = n) ∨ (c ∈ children (vn v x) ∧ is_node v c)) as Hch.
  { intros x c Hx. rewrite (grown_children _ _ _ _ _ x Hg Hx), elem_of_app. intros [Hc|Hc].
    - right. split; [done|]. by destruct (to_children v Hv x c Hx Hc) as (_ & ? & _).
    - case_decide; [|by apply elem_of_nil in Hc]. apply list_elem_of_singleton in Hc. by left. }
  split.
  - rewrite Hdom. intros [?|?]; [done|]. by apply (to_null v Hv).
  - intros x c Hx Hc. apply Hdom in Hx as [->|Hx]; [rewrite Hnew, Fc in Hc; by apply elem_of_nil in Hc|].
    destruct (grown_fields _ _ _ _ _ x Hg Hx) as (_ & Em & _ & _ & ->).
    destruct (Hch x c Hx Hc) as [[-> ->]|[Hc' Hcn]].
    + rewrite Hnew, Em. rewrite Hdom. auto 10.
    + destruct (to_children v Hv x c Hx Hc') as (? & ? & ? & ? & ? & ?).
      destruct (grown_fields _ _ _ _ _ c Hg Hcn) as (-> & -> & _ & -> & _).
      rewrite Hr, Hdom, Em by done. auto 10.
  - intros x c d Hx Hc Hd. apply Hdom in Hx as [->|Hx]; [rewrite Hnew, Fc in Hc; by apply elem_of_nil in Hc|].
    destruct (Hch x c Hx Hc) as [[-> ->]|[Hc' Hcn]], (Hch _ d Hx Hd) as [[? ->]|[Hd' Hdn]]; try done.
    + rewrite Hnew. destruct (grown_fields _ _ _ _ _ d Hg Hdn) as (_ & _ & _ & -> & _).
      intros E. by destruct (child_none v p (name fresh) d Hv Hp Hno Hd').
    + subst x. rewrite Hnew. destruct (grown_fields _ _ _ _ _ c Hg Hcn) as (_ & _ & _ & -> & _).
      intros E. by destruct (child_none v p (name fresh) c Hv Hp Hno Hc').
    + destruct (grown_fields _ _ _ _ _ c Hg Hcn) as (_ & _ & _ & -> & _).
      destruct (grown_fields _ _ _ _ _ d Hg Hdn) as (_ & _ & _ & -> & _).
      by apply (to_names v Hv x).
  - intros x [->|Hx]%Hdom.
    + right. rewrite Hnew, Fp, Hdom. split; [auto|].
      rewrite (grown_children _ _ _ _ _ p Hg Hp), decide_True by done. apply elem_of_app. right. by left.
    + rewrite Hr by done. destruct (grown_fields _ _ _ _ _ x Hg Hx) as (-> & _ & -> & _ & ->).
      destruct (to_parent v Hv x Hx) as [?|[Hpn Hin]]; [by left|]. right. rewrite Hdom. split; [auto|].
      rewrite (grown_children _ _ _ _ _ _ Hg Hpn), elem_of_app. auto.
  - intros x i [->|Hx]%Hdom; [by rewrite Hnew, Fmo|].
    destruct (grown_fields _ _ _ _ _ x Hg Hx) as (_ & _ & -> & _). intros Hi.
    destruct (to_mounted v Hv x i Hx Hi) as (Hcov & Hrn & Hrm). rewrite !Hmnt, Hdom.
    destruct (grown_fields _ _ _ _ _ _ Hg Hrn) as (_ & -> & _). auto.
  - intros i. rewrite !Hmnt. intros Hi. destruct (to_covered v Hv i Hi) as (Hc & Hm & Hnr').
    rewrite Hdom, Hr by done. destruct (grown_fields _ _ _ _ _ _ Hg Hc) as (_ & _ & -> & _). auto.
  - intros x [->|Hx]%Hdom; rewrite Hmnt, Hdom.
    + rewrite Hnew, Fm. right. by apply (to_mroot v Hv).
    + destruct (grown_fields _ _ _ _ _ x Hg Hx) as (_ & -> & _). right. by apply (to_mroot v Hv).
Qed.

(** A mount over the directory [c]; [r] is its new root. *)
Record mounting (v v' : vfs) (i : nat) (c r : Z) : Prop := {
  mo_fresh : ¬ is_node v r ∧ r ≠ 0;
  mo_dom : ∀ x, is_node v' x ↔ x = r ∨ is_node v x;
  mo_root : shape (vn v' r) = ([], r, i, None, [], DT_DIR);
  mo_old : ∀ x, is_node v x →
    shape (vn v' x) = shape (if decide (x = c) then with_mounted (Some i) (vn v x) else vn v x);
  mo_mnt : mroot (mnt v' i) = r ∧ covered (mnt v' i) = c;
  mo_others : ∀ j, j ≠ i → mnt v' j = mnt v j;
}.

Lemma mounting_fields v v' i c r x :
  mounting v v' i c r → is_node v x →
  children (vn v' x) = children (vn v x) ∧ parent (vn v' x) = parent (vn v x) ∧
  vmount (vn v' x) = vmount (vn v x) ∧ name (vn v' x) = name (vn v x) ∧ type (vn v' x) = type (vn v x) ∧
  mounted (vn v' x) = if decide (x = c) then Some i else mounted (vn v x).
Proof.
  intros Hm Hx. pose proof (mo_old _ _ _ _ _ Hm x Hx) as Hs. unfold shape in Hs.
  case_decide; cbn in Hs; injection Hs; intros; repeat split; first [done|congruence].
Qed.

Lemma tree_mount v v' i c r :
  tree_ok v → mounting v v' i c r → is_node v c → mounted (vn v c) = None → ¬ is_mount_root v c →
  (∀ x, is_node v x → vmount (vn v x) ≠ i) → covered (mnt v i) = 0 → tree_ok v'.
Proof.
  intros Hv Hm Hc Hcm Hcr Hunused Hcov.
  pose proof (mo_fresh _ _ _ _ _ Hm) as [Hfresh Hr0]. pose proof (mo_dom _ _ _ _ _ Hm) as Hdom.
  pose proof (mo_mnt _ _ _ _ _ Hm) as [Hmr Hmc]. pose proof (mo_others _ _ _ _ _ Hm) as Hmo.
  assert (∀ x, is_node v x → _) as Hf by (intros x Hx; exact (mounting_fields _ _ _ _ _ x Hm Hx)).
  assert (children (vn v' r) = [] ∧ parent (vn v' r) = r ∧ vmount (vn v' r) = i ∧ mounted (vn v' r) = None ∧
    type (vn v' r) = DT_DIR) as (Rc & Rp & Rm & Rmo & Rt).
  { pose proof (mo_root _ _ _ _ _ Hm) as Hs. unfold shape in Hs. injection Hs. auto 10. }
  assert (∀ x, is_node v x → is_mount_root v' x ↔ is_mount_root v x) as Hroot.
  { intros x Hx. unfold is_mount_root. destruct (Hf x Hx) as (_ & _ & -> & _). by rewrite Hmo by auto. }
  assert (is_mount_root v' r) as Hrr by (unfold is_mount_root; by rewrite Rm, Hmr).
  split.
  - rewrite Hdom. intros [?|?]; [done|]. by apply (to_null v Hv).
  - intros x d Hx Hd. apply Hdom in Hx as [->|Hx]; [rewrite Rc in Hd; by apply elem_of_nil in Hd|].
    destruct (Hf x Hx) as (Ec & _ & -> & _ & -> & _). rewrite Ec in Hd.
    destruct (to_children v Hv x d Hx Hd) as (? & Hdn & ? & ? & ? & ?).
    destruct (Hf d Hdn) as (_ & -> & -> & -> & _). rewrite Hroot, Hdom by done. auto 10.
  - intros x d e Hx Hd He. apply Hdom in Hx as [->|Hx]; [rewrite Rc in Hd; by apply elem_of_nil in Hd|].
    destruct (Hf x Hx) as (Ec & _). rewrite Ec in Hd, He.
    destruct (to_children v Hv x d Hx Hd) as (_ & Hdn & _), (to_children v Hv x e Hx He) as (_ & Hen & _).
    destruct (Hf d Hdn) as (_ & _ & _ & -> & _), (Hf e Hen) as (_ & _ & _ & -> & _). by apply (to_names v Hv x).
  - intros x [->|Hx]%Hdom; [left; auto|]. rewrite Hroot by done.
    destruct (Hf x Hx) as (_ & -> & _ & _ & -> & ->).
    destruct (to_parent v Hv x Hx) as [Hmt|[Hpn Hin]].
    + left. rewrite decide_False; [done|]. intros ->. apply Hcr, Hmt.
    + right. rewrite Hdom. split; [auto|]. by destruct (Hf _ Hpn) as (-> & _).
  - intros x j [->|Hx]%Hdom; [by rewrite Rmo|]. destruct (Hf x Hx) as (_ & _ & _ & _ & _ & ->).
    case_decide as Hxc.
    + intros [= <-]. rewrite Hmr, Hmc, Hdom, Rm. auto.
    + intros Hj. destruct (to_mounted v Hv x j Hx Hj) as (? & Hn & Hjm).
      assert (j ≠ i) as Hji by (intros ->; by apply (Hunused _ Hn)).
      rewrite Hmo, Hdom by done. destruct (Hf _ Hn) as (_ & _ & -> & _). auto.
  - intros j Hj. destruct (decide (j = i)) as [->|Hji].
    + rewrite Hmc. destruct (Hf c Hc) as (_ & _ & _ & _ & _ & ->). rewrite decide_True by done.
      rewrite Hroot, Hdom by done. auto.
    + rewrite Hmo in Hj |- * by done. destruct (to_covered v Hv j Hj) as (Hn & Hjm & Hjr).
      rewrite Hroot, Hdom by done. destruct (Hf _ Hn) as (_ & _ & _ & _ & _ & ->).
      rewrite decide_False; [auto|]. intros E. rewrite E, Hcm in Hjm. done.
  - intros x [->|Hx]%Hdom; [by rewrite Rm, Hmr, Hdom; left|]. destruct (Hf x Hx) as (_ & _ & -> & _).
    rewrite Hmo by auto. rewrite Hdom. right. by apply (to_mroot v Hv).
Qed.

(** The first root. *)
Lemma tree_single v r ro :
  r ≠ 0 → (∀ x, is_node v x ↔ x = r) → shape (vn v r) = ([], r, 0%nat, None, [], DT_DIR) →
  mnt v 0 = mk_mount r 0 ro → (∀ i, covered (mnt v i) = 0) → tree_ok v.
Proof.
  intros Hr Hd Hs Hm Hc. unfold shape in Hs. injection Hs as S1 S2 S3 S4 S5 S6.
  split; try (intros n; rewrite Hd; intros; subst n).
  - intros ?%Hd. done.
  - intros n c Hn%Hd. subst n. rewrite S1. by intros ?%elem_of_nil.
  - intros n c d Hn%Hd. subst n. rewrite S1. by intros ?%elem_of_nil.
  - left. unfold is_mount_root. rewrite S3, Hm. done.
  - intros n i Hn%Hd. subst n. by rewrite S4.
  - intros i Hi. by rewrite Hc in Hi.
  - rewrite S3, Hm. by apply Hd.
Qed.

(** * Storage *)

(** The content of a file is in the archive, at [lo, hi), or in pages of its own;
    the files of the archive are in the first mount. *)
Record content_ok (lo hi : Z) (n : vnode) : Prop := {
  no_blocks : length (blocks n) = Z.to_nat TMP_FILE_PAGES;
  no_size : 0 <= size n;
  no_tmp : data n = 0 → size n <= MAX_FILE;
  no_data : data n ≠ 0 → lo <= data n ∧ data n + size n <= hi ∧
    blocks n = repeat 0 (Z.to_nat TMP_FILE_PAGES) ∧ vmount n = 0%nat;
}.

Definition node_pages (n : vnode) : list Z := filter (λ b, b ≠ 0) (blocks n).
Definition block_pages (v : vfs) : list Z := nodes v ≫= λ n, node_pages (vn v n).

Section Storage.
Context `{HeapContract}.
(** The pages of the machine, and those of the other components. *)
Context (U O : list Z) (lo hi : Z).

Record store_ok (v : vfs) (F P : list Z) (L : gset Z) : Prop := {
  so_bare : bare U (kern v) F P L (block_pages v ++ O);
  so_nodes : NoDup (nodes v);
  so_dom : ∀ n, n ∈ nodes v ↔ is_node v n;
  so_live : ∀ n, is_node v n → n ∈ L;
  so_files : ∀ f, is_Some (files v !! f) → f ∈ L ∧ ¬ is_node v f;
  so_node : ∀ n, is_node v n → content_ok lo hi (vn v n);
}.

Lemma store_null v F P L : store_ok v F P L → ¬ is_node v 0.
Proof.
  intros Hs Hn. apply (heap_ok_null U (kern v) F P L); [apply (so_bare _ _ _ _ Hs)|]. by apply (so_live _ _ _ _ Hs).
Qed.

Lemma mbind_ext_in {A B} (f g : A → list B) l : (∀ x, x ∈ l → f x = g x) → l ≫= f = l ≫= g.
Proof.
  intros E. induction l as [|x l IH]; [done|]. cbn. rewrite E by (by left). f_equal. apply IH.
  intros y Hy. apply E. by right.
Qed.

Lemma block_pages_ext v v' :
  nodes v' = nodes v → (∀ n, n ∈ nodes v → blocks (vn v' n) = blocks (vn v n)) → block_pages v' = block_pages v.
Proof.
  intros En Eb. unfold block_pages. rewrite En. apply mbind_ext_in. intros n Hn. unfold node_pages. by rewrite Eb.
Qed.

Lemma block_pages_app v l n :
  nodes v = l ++ [n] → block_pages v = (l ≫= λ n, node_pages (vn v n)) ++ node_pages (vn v n).
Proof. intros E. unfold block_pages. rewrite E, bind_app. cbn. by rewrite app_nil_r. Qed.

Lemma node_pages_fresh n : blocks n = repeat 0 (Z.to_nat TMP_FILE_PAGES) → node_pages n = [].
Proof. intros E. unfold node_pages. by rewrite E. Qed.

Definition fresh_node (parent_ : Z) (name_ : list Z) (type_ : Z) (mount_ : nat) (ino : Z) : vnode :=
  mk_vnode [] parent_ mount_ None name_ type_ ino 0 0 (repeat 0 (Z.to_nat TMP_FILE_PAGES)).

Lemma fresh_content p nm ty m ino : content_ok lo hi (fresh_node p nm ty m ino).
Proof. split; cbn; try done. Qed.

(** [new_node]: out of memory and nothing changed, or one more vnode. *)
Lemma new_node_spec v F P L p nm ty m n v' :
  store_ok v F P L → (p ≠ 0 → is_node v p) → new_node p nm ty m v = (n, v') →
  (n = 0 ∧ ∃ s F' P', v' = set_kern s v ∧ store_ok v' F' P' L ∧ kept U (block_pages v ++ O) (mem (kern v)) (mem s)) ∨
  (n ≠ 0 ∧ n ∉ L ∧ (files v' = files v ∧ live_files v' = live_files v) ∧
   grown v v' p n (fresh_node (if decide (p = 0) then n else p) nm ty m (next_inode v)) ∧
   kept U (block_pages v ++ O) (mem (kern v)) (mem (kern v')) ∧
   ∃ F' P', store_ok v' F' P' ({[n]} ∪ L)).
Proof.
  intros Hs Hp. pose proof Hs as [S1 S2 S3 S4 S5 S6]. unfold new_node.
  destruct (bare_kmalloc _ _ _ _ _ _ SIZEOF_VNODE S1 ltac:(lia)) as (o & s & F' & P' & -> & Hb & Hnew & Hk).
  revert Hb. destruct (Z.eqb_spec o 0) as [->|Ho]; intros Hb.
  { intros [= <- <-]. left. split; [done|]. exists s, F', P'. by split; [|split]. }
  intros E. right. specialize (Hnew Ho).
  assert (¬ is_node v o) as Hfresh by (intros Hn; by apply Hnew, S4).
  assert (o ≠ p) as Hop by (intros ->; by apply Hfresh, Hp).
  set (fresh := fresh_node (if decide (p = 0) then o else p) nm ty m (next_inode v)).
  assert (n = o ∧ kern v' = s ∧ nodes v' = nodes v ++ [o] ∧ mounts v' = mounts v ∧ (files v' = files v ∧ live_files v' = live_files v) ∧
    vnodes v' = (if decide (p = 0) then id else λ t, <[p := with_children (children (vn v p) ++ [o]) (vn v p)]> t)
                 (<[o := fresh]> (vnodes v))) as (-> & Ek & En & Em & Ef & Evn).
  { destruct (Z.eqb_spec p 0) as [Hp0|Hp0]; cbn [negb] in E; injection E as <- <-; unfold fresh;
      [rewrite !decide_True by done|rewrite !decide_False by done]; repeat split; cbn; try done.
    unfold vn. cbn. by rewrite lookup_total_insert_ne by done. }
  assert (∀ x, vn v' x = if decide (x = o) then fresh else
    if decide (x = p) then (if decide (p = 0) then vn v x else with_children (children (vn v x) ++ [o]) (vn v x)) else vn v x) as Hvn.
  { intros x. unfold vn in *. rewrite Evn. destruct (decide (p = 0)) as [Hp0|Hp0]; cbn [id].
    - destruct (decide (x = o)) as [->|Hx]; [by rewrite lookup_total_insert_eq|].
      rewrite lookup_total_insert_ne by done. by case_decide.
    - destruct (decide (x = p)) as [->|Hxp]; [rewrite lookup_total_insert_eq, decide_False by done; done|].
      rewrite lookup_total_insert_ne by done. destruct (decide (x = o)) as [->|Hx]; [by rewrite lookup_total_insert_eq|].
      by rewrite lookup_total_insert_ne by done. }
  assert (∀ x, is_node v' x ↔ x = o ∨ is_node v x) as Hdom.
  { intros x. unfold is_node. rewrite Evn. destruct (decide (p = 0)) as [Hp0|Hp0]; cbn [id].
    - rewrite lookup_insert_is_Some'. naive_solver.
    - rewrite !lookup_insert_is_Some'. specialize (Hp Hp0). unfold is_node in Hp. naive_solver. }
  assert (grown v v' p o fresh) as Hg.
  { split; try done.
    - rewrite Hvn. by rewrite decide_True.
    - intros x Hx. rewrite Hvn, decide_False by (by intros ->). case_decide as Hxp; [|done].
      case_decide as Hp0; [|done]. subst x p. by destruct (store_null _ _ _ _ Hs). }
  split; [done|]. split; [done|]. split; [done|]. split; [done|]. split; [by rewrite Ek|].
  exists F', P'. split.
  - rewrite Ek. rewrite (block_pages_app v' _ _ En), (node_pages_fresh (vn v' o)), app_nil_r.
    2:{ by rewrite (gr_new _ _ _ _ _ Hg). }
    replace (nodes v ≫= _) with (block_pages v); [done|]. apply mbind_ext_in. intros x Hx%S3.
    rewrite (gr_old _ _ _ _ _ Hg x Hx). by destruct (decide (x = p)).
  - rewrite En. apply NoDup_app. split; [done|]. split; [|apply NoDup_singleton].
    intros x Hx ->%list_elem_of_singleton. by apply Hfresh, S3.
  - intros x. rewrite En, elem_of_app, list_elem_of_singleton, S3, Hdom. tauto.
  - intros x [->|Hx]%Hdom; [set_solver|]. apply elem_of_union. right. auto.
  - intros f. rewrite (proj1 Ef), Hdom. intros Hf. destruct (S5 f Hf) as [HfL Hfn].
    split; [set_solver|]. intros [->|?]; [|done]. done.
  - intros x [->|Hx]%Hdom; [rewrite (gr_new _ _ _ _ _ Hg); apply fresh_content|].
    rewrite (gr_old _ _ _ _ _ Hg x Hx). destruct (decide (x = p)); [|by apply S6].
    destruct (S6 x Hx) as [N1 N2 N3 N4]. by split.
Qed.

(** ** Giving everything back *)

Lemma free_blocks_spec Q l s F P L :
  bare U s F P L (filter (λ b, b ≠ 0) l ++ Q) →
  ∃ F', bare U (free_blocks l s) F' P L Q ∧ kept U Q (mem s) (mem (free_blocks l s)).
Proof.
  unfold free_blocks. revert s F. induction l as [|b l IH]; intros s F Hb; cbn [fold_left].
  { exists F. split; [done|apply kept_refl]. }
  rewrite filter_cons in Hb. destruct (Z.eqb_spec b 0) as [->|Hne]; cbn [negb].
  { rewrite decide_False in Hb by (intros Hn; by apply Hn). by apply (IH _ F). }
  rewrite decide_True in Hb by done. destruct (bare_page_free _ _ _ _ _ _ _ Hb) as [Hb1 Hk1].
  destruct (IH _ _ Hb1) as (F2 & Hb2 & Hk2). exists F2. split; [done|].
  eapply kept_trans; [|exact Hk2]. eapply kept_sub; [|exact Hk1]. intros p Hp. apply elem_of_app. by right.
Qed.

Lemma shutdown_loop v l s F P L :
  bare U s F P L ((l ≫= λ n, node_pages (vn v n)) ++ O) → NoDup l → (∀ n, n ∈ l → n ∈ L) →
  let s' := fold_left (λ s n, kfree n (free_blocks (blocks (vn v n)) s)) l s in
  ∃ F' P', bare U s' F' P' (L ∖ list_to_set l) O ∧ kept U O (mem s) (mem s').
Proof.
  cbv zeta. revert s F P L. induction l as [|n l IH]; intros s F P L Hb Hnd HL; cbn [fold_left].
  { exists F, P. cbn. rewrite difference_empty_L. split; [done|apply kept_refl]. }
  cbn [mbind list_bind] in Hb. apply NoDup_cons in Hnd as [Hn Hnd]. rewrite <- app_assoc in Hb.
  destruct (free_blocks_spec _ _ _ _ _ _ Hb) as (F1 & Hb1 & Hk1).
  destruct (bare_kfree _ _ _ _ _ _ n Hb1 ltac:(apply HL; by left)) as (F2 & P2 & Hb2 & Hk2).
  destruct (IH _ _ _ _ Hb2 Hnd) as (F3 & P3 & Hb3 & Hk3).
  { intros x Hx. apply elem_of_difference. split; [apply HL; by right|]. set_solver. }
  exists F3, P3. split; [by rewrite list_to_set_cons, <- difference_difference_l_L|].
  eapply kept_trans; [|exact Hk3]. eapply kept_sub; [|exact (kept_trans _ _ _ _ _ Hk1 Hk2)].
  intros p Hp. apply elem_of_app. by right.
Qed.

Definition vfs_empty (v : vfs) : Prop := nodes v = [] ∧ vnodes v = ∅ ∧ ∀ i, covered (mnt v i) = 0.

Lemma vfs_shutdown_spec v F P L :
  store_ok v F P L →
  vfs_empty (vfs_shutdown v) ∧ files (vfs_shutdown v) = files v ∧
  ∃ F' P', bare U (kern (vfs_shutdown v)) F' P' (L ∖ list_to_set (nodes v)) O ∧
    kept U O (mem (kern v)) (mem (kern (vfs_shutdown v))).
Proof.
  intros [S1 S2 S3 S4 S5 S6]. split; [|split; [done|]].
  - split; [done|]. split; [done|]. intros i. unfold vfs_shutdown, mnt. cbn.
    by destruct i as [|[|[|[|i]]]].
  - apply (shutdown_loop v (nodes v) (kern v) F P L); [done|done|]. intros n Hn%S3. by apply S4.
Qed.
End Storage.
