(* ===== verification/VfsBuild.v ===== *)
(** [vfs_init]: the archive is read within its bounds, the namespace that comes out of
    it is well formed, and a failure leaves nothing behind. *)
From S2P Require Import Prelude Machine Runtime PageAlloc HeapSpec Ownership Outcome Vfs VfsInit VfsTree VfsInv.
From Stdlib Require String.
Import String.StringSyntax.

(** * Reading the archive *)

Lemma cpio_align_spec x : 0 <= x < 2 ^ 63 → x <= cpio_align x <= x + 3.
Proof.
  intros Hx. unfold cpio_align. rewrite u64_small by (unfold in_u64; lia).
  change (not64 3) with (not64 (2 ^ 2 - 1)).
  rewrite (land_not_low (x + 3) 2); [|lia|unfold in_u64; lia]. change (2 ^ 2) with 4. div_lia.
Qed.

Lemma hex_digit_range c d : hex_digit c = Some d → 0 <= d < 16.
Proof.
  unfold hex_digit. rewrite !Z.geb_leb.
  destruct (Z.leb_spec 48 c), (Z.leb_spec c 57), (Z.leb_spec 97 c), (Z.leb_spec c 102),
    (Z.leb_spec 65 c), (Z.leb_spec c 70); cbn; intros [= <-]; lia.
Qed.

Section Reading.
Context (archive asize : Z) (v : vfs).

Lemma abyte_wp off : 0 <= off < asize → wp (abyte archive asize off v) (λ _, True).
Proof. intros Ho. unfold abyte. destruct (Z.leb_spec 0 off), (Z.ltb_spec off asize); cbn; (done || lia). Qed.

Lemma hex_loop_wp n : ∀ p value, 0 <= p → p + Z.of_nat n <= asize → 0 <= value < 2 ^ 32 →
  wp (hex_loop archive asize n p value v) (λ r, ∀ x, r = Some x → 0 <= x < 2 ^ 32).
Proof.
  induction n as [|n IH]; intros p value Hp Hn Hv; cbn [hex_loop]; [by intros x [= <-]|].
  eapply wp_bind; [apply abyte_wp; lia|]. intros c _. cbv beta.
  destruct (hex_digit c) as [d|] eqn:Ed; [|done]. apply hex_digit_range in Ed. apply IH; [lia|lia|].
  unfold u32. rewrite Z.shiftl_mul_pow2 by lia. change (2 ^ 32) with (2 ^ 28 * 2 ^ 4).
  rewrite Z.mul_mod_distr_r by lia. rewrite lor_field by (cbn; lia).
  pose proof (Z.mod_pos_bound value (2 ^ 28) ltac:(lia)). lia.
Qed.

Lemma hex8_wp p : 0 <= p → p + 8 <= asize →
  wp (hex8 archive asize p v) (λ r, ∀ x, r = Some x → 0 <= x < 2 ^ 32).
Proof. intros. apply hex_loop_wp; lia. Qed.

Lemma matches_wp literal : ∀ p, 0 <= p → p + Z.of_nat (length literal) <= asize →
  wp (matches archive asize literal p v) (λ _, True).
Proof.
  induction literal as [|c l IH]; intros p Hp Hl; cbn [matches]; [done|]. cbn [length] in Hl.
  eapply wp_bind; [apply abyte_wp; lia|]. intros b _. cbv beta. case_if; [|done]. apply IH; lia.
Qed.

(** A terminator in reach stops the reading. *)
Lemma read_string_wp fuel : ∀ p last, 0 <= p <= last → last < asize →
  abyte archive asize last v = Done 0 → last - p < Z.of_nat fuel →
  wp (read_string archive asize fuel p v) c_chars.
Proof.
  induction fuel as [|fuel IH]; intros p last Hp Hl Hz Hf; [lia|]. cbn [read_string].
  destruct (decide (p = last)) as [->|Hne]; [rewrite Hz; cbn; constructor|].
  eapply wp_bind; [apply abyte_wp; lia|]. intros b _. cbv beta.
  destruct (Z.eqb_spec b 0); [constructor|]. eapply wp_bind; [apply (IH _ last); (done || lia)|].
  intros s Hs. by constructor.
Qed.

Lemma no_nul_wp n : ∀ p, 0 <= p → p + Z.of_nat n <= asize → wp (no_nul archive asize n p v) (λ _, True).
Proof.
  induction n as [|n IH]; intros p Hp Hn; cbn [no_nul]; [done|].
  eapply wp_bind; [apply abyte_wp; lia|]. intros b _. cbv beta. case_if; [done|]. apply IH; lia.
Qed.

(** An entry lies in the archive, after its header and before the next one. *)
Definition entry_ok (off : Z) (e : Z * Z * list Z * Z * Z) : Prop :=
  let '(mode, payload, name_, dataoff, next) := e in
  off + 110 < dataoff ∧ 0 <= payload ∧ dataoff + payload <= next ∧ next <= asize ∧ c_chars name_.

Lemma read_header_wp off :
  asize < 2 ^ 62 → 0 <= off → off + 110 <= asize →
  wp (read_header archive asize off v) (λ r, ∀ e, r = Some e → entry_ok off e).
Proof.
  intros Ha Ho Hr. unfold read_header.
  eapply wp_bind; [apply matches_wp; cbn; lia|]. intros [|] _; cbn [negb]; [|done].
  eapply wp_bind; [apply hex8_wp; lia|]. intros mode _. cbv beta.
  eapply (wp_bind _ _ (λ r, ∀ x, r = Some x → 0 <= x < 2 ^ 32)); [case_if; [done|apply hex8_wp; lia]|].
  intros payload Hpay. cbv beta.
  eapply (wp_bind _ _ (λ r, ∀ x, r = Some x → 0 <= x < 2 ^ 32)); [case_if; [done|apply hex8_wp; lia]|].
  intros namesize Hns. cbv beta. destruct mode as [mode|], payload as [payload|], namesize as [namesize|]; try done.
  specialize (Hpay _ eq_refl). specialize (Hns _ eq_refl). cbv zeta.
  destruct (Z.eqb_spec namesize 0); [done|]. destruct (Z.gtb_spec namesize PATH_LIMIT); [done|]. cbn [orb].
  destruct (Z.gtb_spec namesize (asize - (off + 110))); [done|].
  pose proof (abyte_wp (off + 110 + namesize - 1) ltac:(lia)) as Hlast.
  destruct (abyte _ _ _ _) as [last| |] eqn:El; cbn [wp bind] in *; try done.
  destruct (Z.eqb_spec last 0) as [->|]; cbn [negb]; [|done].
  eapply wp_bind; [apply (read_string_wp _ _ (off + 110 + namesize - 1)); [lia|lia|exact El|lia]|]. intros name_ Hname. cbv beta.
  destruct (negb _); [done|]. pose proof (cpio_align_spec (off + 110 + namesize) ltac:(lia)) as Hal.
  set (dataoff := cpio_align _) in *. destruct (Z.gtb_spec dataoff asize); [done|].
  destruct (Z.gtb_spec payload (asize - dataoff)); cbn [orb]; [done|].
  pose proof (cpio_align_spec (dataoff + payload) ltac:(lia)) as Hal2.
  destruct (Z.gtb_spec (cpio_align (dataoff + payload)) asize); [done|].
  cbn [wp]. intros e [= <-]. cbn [entry_ok]. repeat split; (done || lia).
Qed.
End Reading.

(** * The namespace under construction *)

Definition boot_name (i : nat) : list Z := if decide (i = 1%nat) then chars "tmp" else chars "dev".

(** The mounts below [k] are in place. *)
Record building (k : nat) (v : vfs) : Prop := {
  bu_tree : tree_ok v;
  bu_mounts : length (mounts v) = 3%nat;
  bu_used : ∀ n, is_node v n → (vmount (vn v n) < k)%nat;
  bu_mounted : ∀ n i, is_node v n → mounted (vn v n) = Some i → (0 < i < k)%nat;
  bu_covered : ∀ i, i = 0%nat ∨ (k <= i)%nat → covered (mnt v i) = 0;
  bu_names : ∀ i, (0 < i < k)%nat → covered (mnt v i) ≠ 0 ∧ name (vn v (covered (mnt v i))) = boot_name i ∧
    parent (vn v (covered (mnt v i))) = vfs_root v ∧ readonly (mnt v i) = bool_decide (i = 2%nat);
  bu_readonly : readonly (mnt v 0) = true;
  bu_root : is_node v (vfs_root v) ∧ type (vn v (vfs_root v)) = DT_DIR ∧ vmount (vn v (vfs_root v)) = 0%nat;
}.

Lemma building_same k v v' : same_tree v v' → building k v → building k v'.
Proof.
  intros Hs [B1 B2 B3 B4 B5 B6 B8 B7]. pose proof Hs as (Hd & Hsh & Hm).
  assert (∀ n, vmount (vn v' n) = vmount (vn v n) ∧ mounted (vn v' n) = mounted (vn v n) ∧
    name (vn v' n) = name (vn v n) ∧ type (vn v' n) = type (vn v n) ∧ parent (vn v' n) = parent (vn v n)) as Hf.
  { intros n. specialize (Hsh n). unfold shape in Hsh. simplify_eq. repeat split; congruence. }
  assert (∀ i, mnt v' i = mnt v i) as Hmnt by (intros; unfold mnt; by rewrite Hm).
  split.
  - by apply (tree_ok_proper v v' Hs).
  - by rewrite Hm.
  - intros n Hn%Hd. destruct (Hf n) as (-> & _). auto.
  - intros n i Hn%Hd. destruct (Hf n) as (_ & -> & _). by apply B4.
  - intros i. rewrite Hmnt. auto.
  - intros i. unfold vfs_root. rewrite !Hmnt. destruct (Hf (covered (mnt v i))) as (_ & _ & -> & _ & ->). auto.
  - by rewrite Hmnt.
  - unfold vfs_root in *. rewrite Hmnt, Hd. destruct (Hf (mroot (mnt v 0))) as (-> & _ & _ & -> & _). done.
Qed.

Lemma building_grow k v v' p n nm ty ino :
  building k v → grown v v' p n (fresh_node p nm ty (vmount (vn v p)) ino) → n ≠ 0 →
  is_node v p → type (vn v p) = DT_DIR → good_name nm → child v p nm = 0 → building k v'.
Proof.
  intros [B1 B2 B3 B4 B5 B6 B8 B7] Hg Hn Hp Hd Hnm Hc.
  assert (∀ i, mnt v' i = mnt v i) as Hmnt by (intros; by eapply grown_mnt).
  pose proof (gr_dom _ _ _ _ _ Hg) as Hdom. pose proof (gr_new _ _ _ _ _ Hg) as Hnew. split.
  - by apply (tree_grow v v' p n _ B1 Hg).
  - by rewrite (gr_mounts _ _ _ _ _ Hg).
  - intros x [->|Hx]%Hdom; [rewrite Hnew; by apply B3|].
    destruct (grown_fields _ _ _ _ _ x Hg Hx) as (_ & -> & _). auto.
  - intros x i [->|Hx]%Hdom; [by rewrite Hnew|].
    destruct (grown_fields _ _ _ _ _ x Hg Hx) as (_ & _ & -> & _). by apply B4.
  - intros i. rewrite Hmnt. auto.
  - intros i Hi. unfold vfs_root. rewrite !Hmnt. destruct (B6 i Hi) as [Hci Hni]. split; [done|].
    destruct (to_covered v B1 i Hci) as (Hcn & _).
    by destruct (grown_fields _ _ _ _ _ _ Hg Hcn) as (-> & _ & _ & -> & _).
  - by rewrite Hmnt.
  - unfold vfs_root in *. rewrite Hmnt. destruct B7 as (R1 & R2 & R3).
    destruct (grown_fields _ _ _ _ _ _ Hg R1) as (_ & -> & _ & _ & ->). rewrite Hdom. auto.
Qed.

Lemma update_same_tree f n v :
  is_node v n → shape (f (vn v n)) = shape (vn v n) → same_tree v (update_vnode f n v).
Proof.
  intros Hn Hf. split; [|split; [|done]].
  - intros x. by apply is_node_update.
  - intros x. rewrite vn_update. by destruct (decide (x = n)) as [->|Hx].
Qed.

(** * Its storage *)

Section Build.
Context `{HeapContract}.
(** The pages of the machine, those of the other components, the objects they
    hold, and the memory before [vfs_init]. *)
Context (U O : list Z) (archive asize : Z) (L0 : gset Z) (m0 : memory).
Context (Harchive : 0 < archive) (Hasize : asize < 2 ^ 62).

Definition owning (v : vfs) : Prop :=
  (∃ F P, store_ok U O archive (archive + asize) v F P (list_to_set (nodes v) ∪ L0)) ∧
  (∀ n, is_node v n → n ∉ L0) ∧ kept U O m0 (mem (kern v)) ∧ files v = ∅ ∧ live_files v = 0.

Lemma owning_dom v n : owning v → n ∈ nodes v ↔ is_node v n.
Proof. intros [(F & P & Hs) _]. apply (so_dom _ _ _ _ _ _ _ _ Hs). Qed.

Lemma new_node_owning v p nm ty m n v' :
  owning v → (p ≠ 0 → is_node v p) → new_node p nm ty m v = (n, v') →
  owning v' ∧
  ((n = 0 ∧ ∃ s, v' = set_kern s v) ∨
   (n ≠ 0 ∧ grown v v' p n (fresh_node (if decide (p = 0) then n else p) nm ty m (next_inode v)))).
Proof.
  intros ((F & P & Hs) & HL0 & Hk & Hidle) Hp E.
  assert (∀ m, kept U (block_pages v ++ O) (mem (kern v)) m → kept U O m0 m) as Hkk.
  { intros m' Hm'. eapply kept_trans; [exact Hk|]. eapply kept_sub; [|exact Hm']. intros q Hq. apply elem_of_app. by right. }
  destruct (new_node_spec _ _ _ _ _ _ _ _ _ _ _ _ _ _ Hs Hp E)
    as [(-> & s & F' & P' & -> & Hs' & Hk')|(Hn & HnL & Hf & Hg & Hk' & F' & P' & Hs')].
  { split; [|left; eauto]. split; [by exists F', P'|]. split; [done|]. by split; [apply Hkk|]. }
  destruct Hf as [Ef El]. split; [|by right]. split; [|split; [|split; [by apply Hkk|by rewrite Ef, El]]].
  - exists F', P'. rewrite (gr_nodes _ _ _ _ _ Hg), list_to_set_app_L. cbn.
    by replace (list_to_set (nodes v) ∪ ({[n]} ∪ ∅) ∪ L0) with ({[n]} ∪ (list_to_set (nodes v) ∪ L0)) by set_solver.
  - intros x [->|Hx]%(gr_dom _ _ _ _ _ Hg); [set_solver|by apply HL0].
Qed.

(** A change of the vnodes' contents. *)
Lemma owning_update f n v :
  owning v → is_node v n → blocks (f (vn v n)) = blocks (vn v n) →
  (content_ok archive (archive + asize) (vn v n) → content_ok archive (archive + asize) (f (vn v n))) →
  owning (update_vnode f n v).
Proof.
  intros ((F & P & [S1 S2 S3 S4 S5 S6]) & HL0 & Hk & Hidle) Hn Hb Hc.
  assert (∀ x, is_node (update_vnode f n v) x ↔ is_node v x) as Hdom by (intros; by apply is_node_update).
  assert (∀ x, vn (update_vnode f n v) x = if decide (x = n) then f (vn v n) else vn v x) as Hvn by apply vn_update.
  split; [|split; [|done]].
  - exists F, P. split; cbn [kern nodes files update_vnode set_vnodes]; try done.
    + rewrite (block_pages_ext v); [done|done|]. intros x _. rewrite Hvn. by case_decide as Hx; [rewrite Hx|].
    + intros x. by rewrite Hdom.
    + intros x. rewrite Hdom. apply S4.
    + intros x. rewrite Hdom. apply S5.
    + intros x. rewrite Hdom, Hvn. intros Hx. destruct (decide (x = n)); [by apply Hc, S6|by apply S6].
  - intros x. rewrite Hdom. apply HL0.
Qed.

Lemma vfs_shutdown_owning v :
  owning v → vfs_empty (vfs_shutdown v) ∧ (files (vfs_shutdown v) = ∅ ∧ live_files (vfs_shutdown v) = 0) ∧
  ∃ F P, bare U (kern (vfs_shutdown v)) F P L0 O ∧ kept U O m0 (mem (kern (vfs_shutdown v))).
Proof.
  intros ((F & P & Hs) & HL0 & Hk & Hidle).
  destruct (vfs_shutdown_spec _ _ _ _ _ _ _ _ Hs) as (He & _ & F' & P' & Hb & Hk').
  split; [done|]. split; [done|]. exists F', P'. split; [|by eapply kept_trans].
  assert (((list_to_set (nodes v) ∪ L0) ∖ list_to_set (nodes v) : gset Z) = L0) as <-; [|done].
  assert (∀ n, n ∈ nodes v → n ∉ L0) by (intros n Hn%(so_dom _ _ _ _ _ _ _ _ Hs); auto). set_solver.
Qed.

(** ** The entries *)

Definition built (k : nat) (r : bool * vfs) : Prop := owning r.2 ∧ (r.1 = true → building k r.2).

Lemma new_entry k v p nm ty n v' :
  owning v → building k v → is_node v p → type (vn v p) = DT_DIR → good_name nm → child v p nm = 0 →
  new_node p nm ty (vmount (vn v p)) v = (n, v') →
  owning v' ∧ (n ≠ 0 → building k v' ∧ is_node v' n ∧ name (vn v' n) = nm ∧ type (vn v' n) = ty ∧
    mounted (vn v' n) = None ∧ blocks (vn v' n) = repeat 0 (Z.to_nat TMP_FILE_PAGES) ∧
    children (vn v' p) = children (vn v p) ++ [n] ∧ mounts v' = mounts v ∧ vmount (vn v' n) = vmount (vn v p)).
Proof.
  intros Ho Hb Hp Hd Hnm Hc E.
  assert (p ≠ 0) as Hp0 by (intros ->; by apply (to_null v (bu_tree k v Hb))).
  destruct (new_node_owning _ _ _ _ _ _ _ Ho ltac:(done) E) as [Ho' [(-> & _)|(Hn & Hg)]]; [done|].
  split; [done|]. intros _. rewrite decide_False in Hg by done. split; [by eapply building_grow|].
  rewrite (gr_dom _ _ _ _ _ Hg), (gr_new _ _ _ _ _ Hg), (gr_mounts _ _ _ _ _ Hg),
    (grown_children _ _ _ _ _ p Hg Hp), decide_True by done. auto 10.
Qed.

Lemma archive_loop_wp dataoff size_ mode fuel : ∀ p path v,
  0 <= dataoff → 0 <= size_ → dataoff + size_ <= asize → (length path < fuel)%nat → c_chars path →
  owning v → building 1 v → is_node v p → type (vn v p) = DT_DIR →
  wp (archive_loop archive asize fuel p path dataoff size_ mode v) (built 1).
Proof.
  induction fuel as [|fuel IH]; intros p path v Hd Hs Hds Hf Hpath Ho Hb Hp Hdir; [lia|].
  cbn [archive_loop]. destruct (split_component_chars path Hpath) as [Hname Hrest].
  pose proof (split_component_app path) as Happ. destruct (split_component path) as [name_ rest]. cbn [fst snd] in *.
  destruct (bool_decide_reflect (name_ = [])) as [|Hne]; [by split|].
  destruct (Z.geb_spec (Z.of_nat (length name_)) NAME_LIMIT); [by split|]. cbn [orb].
  unfold equal at 1 2. destruct (bool_decide_reflect (name_ = chars ".")) as [|Hdot]; [by split|].
  destruct (bool_decide_reflect (name_ = chars "..")) as [|Hdots]; [by split|]. cbn [orb].
  destruct rest as [|c rest].
  2:{ destruct (Z.eqb_spec (child v p name_) 0) as [|Hc]; [by split|].
      destruct (Z.eqb_spec (type (vn v (child v p name_))) DT_DIR); cbn [orb negb]; [|by split].
      destruct (child_spec v p name_ Hc) as [Hin _].
      destruct (to_children v (bu_tree 1 v Hb) p _ Hp Hin) as (_ & Hcn & _).
      apply IH; try done; [|by inversion Hrest]. rewrite Happ, length_app in Hf. cbn in Hf. lia. }
  destruct (Z.eqb_spec (child v p name_) 0) as [Hc|Hc]; cbn [negb]; [|by split].
  case_if; [by split|]. eapply (wp_bind _ _ (λ _, True)).
  { case_if; [|done]. case_if; [done|]. apply no_nul_wp; lia. }
  intros [|] _; cbn [negb]; [|by split].
  assert (vmount (vn v p) = 0%nat) as Hm by (pose proof (bu_used 1 v Hb p Hp); lia).
  destruct (new_node p name_ (mode_type mode) 0 v) as [n v'] eqn:En. rewrite <- Hm in En.
  destruct (new_entry 1 v p name_ (mode_type mode) n v' Ho Hb Hp Hdir) as [Ho' Hn]; try done.
  { split; try done. destruct name_; [done|]. cbn in *. lia. }
  destruct (Z.eqb_spec n 0) as [|Hn0]; [by split|]. destruct (Hn Hn0) as (Hb' & Hnn & _ & _ & _ & Hbl & _ & _ & Hvm).
  split; cbn [fst snd].
  - apply owning_update; try done. intros _. split; cbn; rewrite ?Hbl; [done|lia|lia|]. intros _. split; [lia|]. split; [lia|]. by rewrite Hvm.
  - intros _. eapply building_same; [|exact Hb']. by apply update_same_tree.
Qed.

Lemma archive_node_wp path dataoff size_ mode v :
  0 <= dataoff → 0 <= size_ → dataoff + size_ <= asize → c_chars path → owning v → building 1 v →
  wp (archive_node archive asize path dataoff size_ mode v) (built 1).
Proof.
  intros Hd Hs Hds Hpath Ho Hb. unfold archive_node. case_if; [by split|]. case_if; [by split|].
  destruct (bu_root 1 v Hb) as (R1 & R2 & _). apply archive_loop_wp; try done. lia.
Qed.

Lemma entries_loop_wp fuel : ∀ off v,
  0 <= off → asize - off < 110 + Z.of_nat fuel → owning v → building 1 v →
  wp (entries_loop archive asize fuel off v) (λ r, owning r.2 ∧ (r.1 = Some true → building 1 r.2)).
Proof.
  induction fuel as [|fuel IH]; intros off v Hoff Hf Ho Hb; cbn [entries_loop];
    destruct (Z.leb_spec off asize), (Z.geb_spec (asize - off) 110); cbn [negb andb]; try done; [lia|].
  eapply wp_bind; [apply read_header_wp; lia|]. intros r Hr. cbv beta.
  destruct r as [[[[[mode payload] name_] dataoff] next]|]; [|by split].
  destruct (Hr _ eq_refl) as (E1 & E2 & E3 & E4 & E5). case_if; [by split|].
  eapply wp_bind; [apply archive_node_wp; (done || lia)|]. intros [ok v'] [Ho' Hb']. cbn [fst snd] in *.
  destruct ok; cbn [negb]; [|by split]. apply IH; [lia|lia|done|by apply Hb'].
Qed.

(** ** The mounts *)

Lemma owning_mounts l v : owning v → owning (set_mounts l v).
Proof. intros ((F & P & [S1 S2 S3 S4 S5 S6]) & HL & Hk). split; [exists F, P; by split|by split]. Qed.

Lemma mnt_insert v l i j x :
  l = mounts v → (i < length l)%nat → mnt (set_mounts (<[i := x]> l) v) j = if decide (j = i) then x else mnt v j.
Proof.
  intros -> Hi. unfold mnt. cbn [mounts set_mounts]. rewrite !nth_lookup. case_decide as Hj.
  - subst j. by rewrite list_lookup_insert_eq.
  - by rewrite list_lookup_insert_ne.
Qed.

Lemma boot_name_good i : good_name (boot_name i).
Proof. unfold boot_name. case_decide; split; try done; repeat constructor; done. Qed.

(** The directory to mount on: it is there, or it is created. *)
Lemma mount_point i v c v' :
  (0 < i < 3)%nat → owning v → building i v →
  (if negb (child v (vfs_root v) (boot_name i) =? 0) then (child v (vfs_root v) (boot_name i), v)
   else new_node (vfs_root v) (boot_name i) DT_DIR 0 v) = (c, v') →
  owning v' ∧ (c ≠ 0 → building i v' ∧ is_node v' c ∧ name (vn v' c) = boot_name i ∧ parent (vn v' c) = vfs_root v' ∧
    mounted (vn v' c) = None ∧ ¬ is_mount_root v' c).
Proof.
  intros Hi Ho Hb. pose proof (bu_tree i v Hb) as Ht. destruct (bu_root i v Hb) as (R1 & R2 & R3).
  destruct (Z.eqb_spec (child v (vfs_root v) (boot_name i)) 0) as [E0|E0]; cbn [negb].
  - intros E. rewrite <- R3 in E. 
    destruct (new_entry i v _ (boot_name i) DT_DIR c v' Ho Hb R1 R2 (boot_name_good i) E0 E) as [Ho' Hn].
    split; [done|]. intros Hc. destruct (Hn Hc) as (Hb' & Hcn & Hnm & _ & Hmo & _ & Hch & Hmn & _).
    pose proof (bu_root i v' Hb') as (R1' & _).
    assert (vfs_root v' = vfs_root v) as Er by (unfold vfs_root, mnt; by rewrite Hmn). rewrite Er in R1' |- *.
    destruct (to_children v' (bu_tree i v' Hb') _ c R1') as (_ & _ & ? & ? & _); [|done].
    rewrite Hch, elem_of_app. right. by left.
  - intros [= <- <-]. split; [done|]. intros _. destruct (child_spec v _ _ E0) as [Hin Hnm].
    destruct (to_children v Ht _ _ R1 Hin) as (_ & Hcn & Hpar & Hnr & _).
    do 4 (split; [done|]). split; [|done]. destruct (mounted _) as [j|] eqn:Ej; [|done]. exfalso.
    pose proof (bu_mounted i v Hb _ j Hcn Ej) as Hj. destruct (to_mounted v Ht _ j Hcn Ej) as (Hcov & _).
    destruct (bu_names i v Hb j Hj) as (_ & Hn & _). rewrite Hcov, Hnm in Hn.
    assert (i = 2%nat ∧ j = 1%nat) as [-> ->] by lia. discriminate Hn.
Qed.

(** The new root and its mount, once there is memory for it. *)
Lemma mount_step i v c x2 x4 r v3 :
  (i < 3)%nat → length (mounts v) = 3%nat → ¬ is_node v 0 → is_node v c → r ≠ 0 → covered x2 = c → mroot x4 = r →
  covered x4 = c →
  let v2 := set_mounts (<[i := x2]> (mounts v)) v in
  grown v2 v3 0 r (fresh_node r [] DT_DIR i (next_inode v2)) →
  let v4 := set_mounts (<[i := x4]> (mounts v3)) v3 in
  mounting v (update_vnode (with_mounted (Some i)) c v4) i c r.
Proof.
  intros Hi Hlen Hnull Hc Hr0 E2 E4 E4' v2 Hg v4. pose proof (gr_fresh _ _ _ _ _ Hg) as Hfresh.
  pose proof (gr_dom _ _ _ _ _ Hg) as Hdom. pose proof (gr_old _ _ _ _ _ Hg) as Hold.
  assert (c ≠ r) as Hcr by (by intros ->).
  assert (mounts v3 = <[i := x2]> (mounts v)) as Em by (by rewrite (gr_mounts _ _ _ _ _ Hg)).
  assert (∀ j, mnt v4 j = if decide (j = i) then x4 else mnt v j) as Hm.
  { intros j. unfold v4. rewrite mnt_insert by (rewrite ?Em, ?length_insert; (done || lia)).
    case_decide as Hj; [done|]. rewrite (grown_mnt _ _ _ _ _ j Hg). unfold v2.
    by rewrite mnt_insert, decide_False by (done || lia). }
  assert (∀ x, vn (update_vnode (with_mounted (Some i)) c v4) x =
    if decide (x = c) then with_mounted (Some i) (vn v3 c) else vn v3 x) as Hvn.
  { intros x. by rewrite vn_update. }
  split.
  - done.
  - intros x. unfold is_node at 1, update_vnode. cbn. rewrite lookup_insert_is_Some'.
    change (is_Some (vnodes v3 !! x)) with (is_node v3 x). rewrite Hdom. change (is_node v2 x) with (is_node v x).
    naive_solver.
  - rewrite Hvn, decide_False by done. by rewrite (gr_new _ _ _ _ _ Hg).
  - intros x Hx. rewrite Hvn.
    assert (vn v3 x = vn v x) as E by (rewrite (Hold x Hx), decide_False; [done|by intros ->]).
    case_decide as Hxc; [by rewrite <- Hxc, E|by rewrite E].
  - change (mnt (update_vnode (with_mounted (Some i)) c v4)) with (mnt v4). by rewrite Hm, decide_True.
  - intros j Hj. change (mnt (update_vnode (with_mounted (Some i)) c v4) j) with (mnt v4 j). by rewrite Hm, decide_False.
Qed.

Lemma building_mount i v v' c r :
  (0 < i < 3)%nat → building i v → mounting v v' i c r → length (mounts v') = 3%nat → is_node v c →
  name (vn v c) = boot_name i → parent (vn v c) = vfs_root v → readonly (mnt v' i) = bool_decide (i = 2%nat) →
  mounted (vn v c) = None → ¬ is_mount_root v c → building (S i) v'.
Proof.
  intros Hi [B1 B2 B3 B4 B5 B6 B8 B7] Hm Hlen Hc Hnm Hpar Hro Hcm Hcr.
  pose proof (mo_fresh _ _ _ _ _ Hm) as [Hfresh Hr0]. pose proof (mo_dom _ _ _ _ _ Hm) as Hdom.
  pose proof (mo_mnt _ _ _ _ _ Hm) as [Hmr Hmc]. pose proof (mo_others _ _ _ _ _ Hm) as Hmo.
  assert (∀ x, is_node v x → _) as Hf by (intros x Hx; exact (mounting_fields _ _ _ _ _ x Hm Hx)).
  pose proof (mo_root _ _ _ _ _ Hm) as Hroot. unfold shape in Hroot. injection Hroot as _ _ Rm Rmo _ _.
  split.
  - apply (tree_mount v v' i c r); try done; [|by apply B5; right].
    intros x Hx E. pose proof (B3 x Hx). lia.
  - done.
  - intros x [->|Hx]%Hdom; [rewrite Rm; lia|]. destruct (Hf x Hx) as (_ & _ & -> & _). pose proof (B3 x Hx). lia.
  - intros x j [->|Hx]%Hdom; [by rewrite Rmo|]. destruct (Hf x Hx) as (_ & _ & _ & _ & _ & ->).
    destruct (decide (x = c)); [intros [= <-]; lia|]. intros Hj. pose proof (B4 x j Hx Hj). lia.
  - intros j Hj. rewrite Hmo by lia. apply B5. lia.
  - intros j Hj. destruct (decide (j = i)) as [->|Hne].
    + unfold vfs_root. rewrite Hmc, (Hmo 0%nat) by lia. destruct (Hf c Hc) as (_ & -> & _ & -> & _).
      split; [|by repeat split]. intros ->. by apply (to_null v B1).
    + unfold vfs_root. rewrite !Hmo by (done || lia). destruct (B6 j ltac:(lia)) as [Hjc Hjn]. destruct (to_covered v B1 j Hjc) as (Hn & _).
      destruct (Hf _ Hn) as (_ & -> & _ & -> & _). done.
  - by rewrite Hmo by lia.
  - unfold vfs_root in *. rewrite Hmo by lia. destruct B7 as (R1 & R2 & R3).
    destruct (Hf _ R1) as (_ & _ & -> & _ & -> & _). rewrite Hdom. auto.
Qed.

Lemma add_mount_spec i v ok v' :
  (0 < i < 3)%nat → owning v → building i v → add_mount i (boot_name i) v = (ok, v') →
  owning v' ∧ (ok = true → building (S i) v' ∧ children (vn v' (mroot (mnt v' i))) = []).
Proof.
  intros Hi Ho Hb. unfold add_mount.
  destruct (if negb (child v (vfs_root v) (boot_name i) =? 0) then (child v (vfs_root v) (boot_name i), v)
            else new_node (vfs_root v) (boot_name i) DT_DIR 0 v) as [c v1] eqn:E1.
  destruct (mount_point i v c v1 Hi Ho Hb E1) as [Ho1 Hc].
  destruct (Z.eqb_spec c 0) as [|Hc0]; cbn [orb]; [intros [= <- <-]; by split|].
  destruct (Z.eqb_spec (type (vn v1 c)) DT_DIR) as [Hdir|]; cbn [negb]; [|intros [= <- <-]; by split].
  destruct (Hc Hc0) as (Hb1 & Hcn & Hnm & Hpar & Hcm & Hcr). clear Hc E1.
  set (x2 := mk_mount _ c _). set (v2 := set_mounts _ v1).
  destruct (new_node 0 [] DT_DIR i v2) as [r v3] eqn:Er.
  destruct (new_node_owning v2 0 _ _ _ _ _ (owning_mounts _ _ Ho1) ltac:(done) Er) as [Ho3 [(-> & _)|(Hr & Hg)]].
  { intros [= <- <-]. split; [by apply owning_mounts|done]. }
  rewrite (proj2 (Z.eqb_neq _ _) Hr). rewrite decide_True in Hg by done. set (x4 := mk_mount r _ _). intros [= <- <-].
  pose proof (bu_mounts i v1 Hb1) as Hlen.
  assert (covered x4 = c ∧ readonly x4 = bool_decide (i = 2%nat)) as [Ex4 Ero].
  { cbn. rewrite (grown_mnt _ _ _ _ _ i Hg). unfold v2. by rewrite mnt_insert, decide_True by (done || lia). }
  pose proof (mount_step i v1 c x2 x4 r v3 ltac:(lia) Hlen (to_null v1 (bu_tree i v1 Hb1)) Hcn Hr eq_refl eq_refl Ex4 Hg) as Hm.
  split.
  - apply owning_update; try done; [by apply owning_mounts| |].
    + apply (gr_dom _ _ _ _ _ Hg). by right.
    + by intros [N1 N2 N3 N4].
  - intros _. split.
    + assert (length (mounts v3) = 3%nat) as Hl3 by (rewrite (gr_mounts _ _ _ _ _ Hg); unfold v2; cbn; by rewrite length_insert).
      apply (building_mount i v1 _ c r); try done; [cbn; by rewrite length_insert|].
      change (readonly (mnt (set_mounts (<[i := x4]> (mounts v3)) v3) i) = bool_decide (i = 2%nat)).
      by rewrite mnt_insert, decide_True by (done || lia).
    + pose proof (mo_root _ _ _ _ _ Hm) as Hroot. unfold shape in Hroot.
      destruct (mo_mnt _ _ _ _ _ Hm) as [-> _]. by injection Hroot.
Qed.

(** ** The first root *)

Lemma owning_empty v F P :
  vfs_empty v → bare U (kern v) F P L0 O → files v = ∅ ∧ live_files v = 0 →
  mem (kern v) = m0 → owning v.
Proof.
  intros (E1 & E2 & E3) Hb Hf Hm0. assert (∀ n, ¬ is_node v n) as Hn.
  { intros n [x Hx]. by rewrite E2, lookup_empty in Hx. }
  split; [|split; [|split; [rewrite Hm0; apply kept_refl|done]]].
  - exists F, P. split.
    + unfold block_pages. rewrite E1. cbn. by replace (∅ ∪ L0) with L0 by set_solver.
    + rewrite E1. constructor.
    + intros n. rewrite E1. split; [by intros ?%elem_of_nil|]. by intros ?%Hn.
    + by intros n ?%Hn.
    + intros f [x Hx]. by rewrite (proj1 Hf), lookup_empty in Hx.
    + by intros n ?%Hn.
  - by intros n ?%Hn.
Qed.

Lemma first_root v0 x0 x r v :
  vfs_empty v0 → length (mounts v0) = 3%nat → r ≠ 0 → mroot x = r → covered x = 0 → readonly x = true →
  let v1 := set_mounts (<[0%nat := x0]> (mounts v0)) (set_next_inode 1 v0) in
  grown v1 v 0 r (fresh_node r [] DT_DIR 0 (next_inode v1)) →
  building 1 (set_mounts (<[0%nat := x]> (mounts v)) v).
Proof.
  intros (E1 & E2 & E3) Hlen Hr Hx Hxc Hro v1 Hg. set (v' := set_mounts _ v).
  assert (mounts v = <[0%nat := x0]> (mounts v0)) as Em by (by rewrite (gr_mounts _ _ _ _ _ Hg)).
  assert (∀ n, is_node v' n ↔ n = r) as Hdom.
  { intros n. change (is_node v' n) with (is_node v n). rewrite (gr_dom _ _ _ _ _ Hg). split; [|by left].
    intros [?|[y Hy]]; [done|]. cbn in Hy. by rewrite E2, lookup_empty in Hy. }
  assert (shape (vn v' r) = ([], r, 0%nat, None, [], DT_DIR)) as Hsh.
  { change (vn v' r) with (vn v r). by rewrite (gr_new _ _ _ _ _ Hg). }
  assert (mnt v' 0 = mk_mount r 0 (readonly x)) as Hm0.
  { unfold v'. rewrite mnt_insert, decide_True by (rewrite ?Em, ?length_insert; (done || lia)). destruct x. cbn in *. by subst. }
  assert (∀ i, covered (mnt v' i) = 0) as Hcov.
  { intros i. unfold v'. rewrite mnt_insert by (rewrite ?Em, ?length_insert; (done || lia)).
    case_decide as Hi; [done|]. rewrite (grown_mnt _ _ _ _ _ i Hg). unfold v1.
    rewrite mnt_insert, decide_False by (done || (cbn; lia)). apply E3. }
  pose proof Hsh as Hsh'. unfold shape in Hsh'. injection Hsh' as _ _ Hvm Hvmo _ Hvt.
  split.
  - by apply (tree_single v' r (readonly x)).
  - unfold v'. cbn. by rewrite length_insert, Em, length_insert.
  - intros n ->%Hdom. rewrite Hvm. lia.
  - intros n i ->%Hdom. by rewrite Hvmo.
  - intros i _. apply Hcov.
  - intros i. lia.
  - by rewrite Hm0.
  - unfold vfs_root. rewrite Hm0. cbn. by rewrite Hdom.
Qed.

(** The root of a mount that is in place. *)
Lemma building_mroot k v i :
  building k v → (0 < i < k)%nat →
  is_node v (mroot (mnt v i)) ∧ type (vn v (mroot (mnt v i))) = DT_DIR ∧ vmount (vn v (mroot (mnt v i))) = i.
Proof.
  intros Hb Hi. pose proof (bu_tree k v Hb) as Ht. destruct (bu_names k v Hb i Hi) as (Hc & _).
  destruct (to_covered v Ht i Hc) as (Hcn & Hcm & _). destruct (to_mounted v Ht _ i Hcn Hcm) as (_ & Hr & Hm).
  split; [done|]. split; [|done]. destruct (to_parent v Ht _ Hr) as [(_ & ? & _)|[Hp Hin]]; [done|].
  destruct (to_children v Ht _ _ Hp Hin) as (_ & _ & _ & Hno & _). exfalso. apply Hno.
  unfold is_mount_root. by rewrite Hm.
Qed.

(** [/tmp], which can be written, and [/dev], which cannot, are mounted on directories of
    those names in the root of the archive, which is read-only. *)
Definition mounted_at (v : vfs) (i : nat) (name_ : list Z) (ro : bool) : Prop :=
  ∃ c, c ∈ children (vn v (vfs_root v)) ∧ name (vn v c) = name_ ∧ mounted (vn v c) = Some i ∧
    covered (mnt v i) = c ∧ readonly (mnt v i) = ro ∧
    is_node v (mroot (mnt v i)) ∧ type (vn v (mroot (mnt v i))) = DT_DIR ∧ vmount (vn v (mroot (mnt v i))) = i.

Definition boot_mounts (v : vfs) : Prop :=
  readonly (mnt v 0) = true ∧ mounted_at v 1 (chars "tmp") false ∧ mounted_at v 2 (chars "dev") true ∧
  ∀ n i, is_node v n → mounted (vn v n) = Some i → i = 1%nat ∨ i = 2%nat.

Lemma building_mounts v : building 3 v → boot_mounts v.
Proof.
  intros Hb. pose proof (bu_tree 3 v Hb) as Ht.
  assert (∀ i, (0 < i < 3)%nat → mounted_at v i (boot_name i) (bool_decide (i = 2%nat))) as Hat.
  { intros i Hi. destruct (bu_names 3 v Hb i Hi) as (Hc & Hn & Hp & Hr). destruct (to_covered v Ht i Hc) as (Hcn & Hcm & Hno).
    exists (covered (mnt v i)). split; [|do 4 (split; [done|]); by apply (building_mroot 3)].
    destruct (to_parent v Ht _ Hcn) as [[? _]|[_ Hin]]; [done|]. by rewrite Hp in Hin. }
  split; [apply (bu_readonly 3 v Hb)|]. split; [apply (Hat 1%nat); lia|]. split; [apply (Hat 2%nat); lia|].
  intros n i Hn Hm. pose proof (bu_mounted 3 v Hb n i Hn Hm). lia.
Qed.

(** The two devices of [/dev]. *)
Definition devices (v : vfs) : Prop :=
  ∃ a b, children (vn v (mroot (mnt v 2))) = [a; b] ∧
    name (vn v a) = chars "console" ∧ type (vn v a) = DT_CHR ∧
    name (vn v b) = chars "null" ∧ type (vn v b) = DT_CHR.

Lemma device_node v p nm n v' :
  owning v → building 3 v → p = mroot (mnt v 2) → good_name nm → child v p nm = 0 →
  new_node p nm DT_CHR 2 v = (n, v') →
  owning v' ∧ (n ≠ 0 → building 3 v' ∧ mounts v' = mounts v ∧ name (vn v' n) = nm ∧ type (vn v' n) = DT_CHR ∧
    children (vn v' p) = children (vn v p) ++ [n] ∧
    ∀ x, is_node v x → name (vn v' x) = name (vn v x) ∧ type (vn v' x) = type (vn v x)).
Proof.
  intros Ho Hb Hp Hnm Hc E. destruct (building_mroot 3 v 2 Hb ltac:(lia)) as (R1 & R2 & R3). rewrite <- Hp in *.
  rewrite <- R3 in E. assert (p ≠ 0) as Hp0 by (intros ->; by apply (to_null v (bu_tree 3 v Hb))).
  destruct (new_node_owning _ _ _ _ _ _ _ Ho ltac:(done) E) as [Ho' [(-> & _)|(Hn & Hg)]]; [done|].
  split; [done|]. intros _. rewrite decide_False in Hg by done. split; [by eapply building_grow|].
  rewrite (gr_new _ _ _ _ _ Hg), (grown_children _ _ _ _ _ p Hg R1), decide_True by done.
  repeat split; try done; [apply Hg| |]; by destruct (grown_fields _ _ _ _ _ x Hg ltac:(done)) as (_ & _ & _ & ? & ?).
Qed.

Definition init_post (r : bool * vfs) : Prop :=
  if r.1 then owning r.2 ∧ building 3 r.2 ∧ devices r.2
  else vfs_empty r.2 ∧ (files r.2 = ∅ ∧ live_files r.2 = 0) ∧ ∃ F P, bare U (kern r.2) F P L0 O ∧ kept U O m0 (mem (kern r.2)).

Lemma init_fail v : owning v → init_post (false, vfs_shutdown v).
Proof. apply vfs_shutdown_owning. Qed.

(** From the end of the archive on. *)
Lemma init_mounts v :
  owning v → building 1 v →
  wp (let '(ok, v) := add_mount 1 (chars "tmp") v in
      if negb ok then Done (false, vfs_shutdown v)
      else
        let '(ok, v) := add_mount 2 (chars "dev") v in
        if negb ok then Done (false, vfs_shutdown v)
        else
          let '(n, v) := new_node (mroot (mnt v 2)) (chars "console") DT_CHR 2 v in
          if n =? 0 then Done (false, vfs_shutdown v)
          else
            let '(n, v) := new_node (mroot (mnt v 2)) (chars "null") DT_CHR 2 v in
            if n =? 0 then Done (false, vfs_shutdown v) else Done (true, v)) init_post.
Proof.
  intros Ho Hb. change (chars "tmp") with (boot_name 1). change (chars "dev") with (boot_name 2).
  destruct (add_mount 1 _ v) as [ok1 v1] eqn:E1. destruct (add_mount_spec 1 v ok1 v1 ltac:(lia) Ho Hb E1) as [Ho1 Hb1].
  destruct ok1; cbn [negb]; [|by apply init_fail]. destruct (Hb1 eq_refl) as [Hb1' _].
  destruct (add_mount 2 _ v1) as [ok2 v2] eqn:E2. destruct (add_mount_spec 2 v1 ok2 v2 ltac:(lia) Ho1 Hb1' E2) as [Ho2 Hb2].
  destruct ok2; cbn [negb]; [|by apply init_fail]. destruct (Hb2 eq_refl) as [Hb2' Hch].
  destruct (new_node (mroot (mnt v2 2)) (chars "console") DT_CHR 2 v2) as [a v3] eqn:E3.
  destruct (device_node v2 _ (chars "console") a v3 Ho2 Hb2' eq_refl) with (3 := E3) as [Ho3 Ha].
  { split; try done. repeat constructor; done. }
  { unfold child. by rewrite Hch. }
  destruct (Z.eqb_spec a 0) as [|Ha0]; [by apply init_fail|].
  destruct (Ha Ha0) as (Hb3 & Em & Na & Ta & Hch3 & _). rewrite Hch in Hch3. cbn [app] in Hch3.
  assert (mnt v3 = mnt v2) as Em2 by (unfold mnt; by rewrite Em).
  destruct (new_node (mroot (mnt v3 2)) (chars "null") DT_CHR 2 v3) as [b v4] eqn:E4.
  destruct (device_node v3 _ (chars "null") b v4 Ho3 Hb3 eq_refl) with (3 := E4) as [Ho4 Hbn].
  { split; try done. repeat constructor; done. }
  { unfold child. rewrite Em2, Hch3. cbn [find]. by rewrite Na. }
  destruct (Z.eqb_spec b 0) as [|Hb0]; [by apply init_fail|].
  destruct (Hbn Hb0) as (Hb4 & Em4 & Nb & Tb & Hch4 & Hold). split; [done|]. split; [done|]. change (devices v4). exists a, b.
  assert (is_node v3 a) as Han.
  { destruct (building_mroot 3 v3 2 Hb3 ltac:(lia)) as (R1 & _). rewrite Em2 in R1.
    apply (to_children v3 (bu_tree 3 v3 Hb3) _ a R1). rewrite Hch3. by left. }
  assert (mnt v4 2 = mnt v3 2) as -> by (unfold mnt; by rewrite Em4). rewrite Hch4, Em2, Hch3.
  destruct (Hold a Han) as [-> ->]. auto.
Qed.

Lemma vfs_init_spec v F P :
  vfs_empty v → length (mounts v) = 3%nat → bare U (kern v) F P L0 O →
  files v = ∅ ∧ live_files v = 0 → mem (kern v) = m0 →
  wp (vfs_init archive asize v) init_post.
Proof.
  intros He Hlen Hb Hf Hm. pose proof (owning_empty v F P He Hb Hf Hm) as Ho. pose proof He as (E1 & E2 & E3).
  unfold vfs_init. rewrite bool_decide_eq_true_2 by done. cbn [negb orb].
  rewrite (proj2 (Z.eqb_neq archive 0)) by lia. set (x0 := mk_mount _ _ true). set (v1 := set_mounts _ _).
  assert (owning v1) as Ho1 by (apply owning_mounts; destruct Ho as ((? & ? & [? ? ? ? ? ?]) & ? & ?); split; [eexists _, _; by split|done]).
  destruct (new_node 0 [] DT_DIR 0 v1) as [r v2] eqn:Er.
  destruct (new_node_owning v1 0 _ _ _ _ _ Ho1 ltac:(done) Er) as [Ho2 Hcase].
  set (x := mk_mount r _ _). set (v3 := set_mounts _ v2).
  assert (owning v3) as Ho3 by (by apply owning_mounts).
  assert (∀ i, covered (mnt v1 i) = 0) as Hcov1.
  { intros i. unfold v1. rewrite mnt_insert by (done || (cbn; lia)). destruct (decide (i = 0%nat)); apply E3. }
  destruct Hcase as [(-> & s & ->)|(Hr & Hg)].
  - cbn [Z.eqb wp]. destruct Ho3 as ((F' & P' & Hs) & _ & Hk3 & _). split; [|split; [done|]].
    + split; [done|]. split; [done|]. intros i. cbn [snd]. unfold v3.
      rewrite mnt_insert by (cbn; rewrite ?length_insert; (done || lia)). destruct (decide (i = 0%nat)); [change (covered (mnt v1 0) = 0)|change (covered (mnt v1 i) = 0)]; apply Hcov1.
    + exists F', P'. split; [|done]. pose proof (so_bare _ _ _ _ _ _ _ _ Hs) as Hb'.
      unfold block_pages in Hb'. cbn in Hb'. rewrite E1 in Hb'. cbn in Hb'. by replace (∅ ∪ L0) with L0 in Hb' by set_solver.
  - rewrite (proj2 (Z.eqb_neq _ _) Hr). rewrite decide_True in Hg by done.
    assert (building 1 v3) as Hb3.
    { apply (first_root v x0 x r v2); try done; cbn; [by rewrite (grown_mnt _ _ _ _ _ 0 Hg)|].
      rewrite (grown_mnt _ _ _ _ _ 0 Hg). unfold v1. by rewrite mnt_insert, decide_True by (done || (cbn; lia)). }
    eapply wp_bind; [apply entries_loop_wp; [lia|lia|done|done]|]. intros [tr v4] [Ho4 Hb4]. cbn [fst snd] in *.
    destruct tr as [[|]|]; cbn [default negb]; try by apply init_fail. apply init_mounts; auto.
Qed.
End Build.
