(* ===== verification/VfsFiles.v ===== *)
(** The content of files: what [regular_pread] delivers and what [regular_write]
    changes, in terms of the bytes of a file. *)
From S2P Require Import Prelude Machine Runtime PageAlloc HeapSpec Ownership Outcome Vfs VfsInit VfsTree VfsInv.

(** The byte [i] of a file. *)
Definition file_byte (m : memory) (n : vnode) (i : Z) : Z :=
  if decide (data n = 0) then
    match blocks n !! Z.to_nat (i / PAGE_SIZE) with
    | Some page => if decide (page = 0) then 0 else load8 m (phys_to_virt page + i mod PAGE_SIZE)
    | None => 0
    end
  else load8 m (data n + i).

(** Where the bytes of a file are. *)
Definition holds_file (n : vnode) (a : Z) : Prop :=
  (data n ≠ 0 ∧ data n <= a < data n + size n) ∨ ∃ p, p ∈ node_pages n ∧ in_page p a.

Lemma node_pages_elem n p : p ∈ node_pages n ↔ p ≠ 0 ∧ p ∈ blocks n.
Proof. unfold node_pages. by rewrite list_elem_of_filter. Qed.

Lemma file_byte_frame m m' n i :
  same_on (holds_file n) m m' → (data n ≠ 0 → 0 <= i < size n) → file_byte m' n i = file_byte m n i.
Proof.
  intros Hm Hi. unfold file_byte. case_decide as Hd.
  - destruct (blocks n !! _) as [p|] eqn:E; [|done]. case_decide as Hp; [done|]. apply Hm. right. exists p.
    split; [apply node_pages_elem; split; [done|by eapply list_elem_of_lookup_2]|]. unfold in_page. div_lia.
  - apply Hm. left. split; [done|]. lia.
Qed.

(** A buffer of [n] bytes none of which is the file's. *)
Definition apart (n : vnode) (buffer size_ : Z) : Prop :=
  ∀ a, buffer <= a < buffer + size_ → ¬ holds_file n a.

(** Two ranges with no common byte. *)
Lemma ranges_apart d s n : (∀ a, d <= a < d + Z.of_nat n → ¬ (s <= a < s + Z.of_nat n)) →
  d <= s ∨ s + Z.of_nat n <= d.
Proof. intros Ha. destruct n as [|n]; [lia|]. pose proof (Ha d ltac:(lia)). lia. Qed.

(** One page's part of a read. *)
Lemma pread_part m n buffer page index off part :
  data n = 0 → blocks n !! index = Some page → Z.of_nat index = off / PAGE_SIZE → 0 <= off →
  0 <= part <= PAGE_SIZE - off mod PAGE_SIZE →
  apart n buffer part →
  let m' := if negb (page =? 0)
            then memcpy m buffer (phys_to_virt page + Z.land off PAGE_MASK) (Z.to_nat part)
            else memset m buffer 0 (Z.to_nat part) in
  ∀ a, load8 m' a = if decide (buffer <= a < buffer + part) then file_byte m n (off + (a - buffer)) else load8 m a.
Proof.
  intros Hd Hb Hi Hoff Hpart Hap. cbv zeta. intros a. rewrite land_page_mask.
  assert (∀ j, 0 <= j < part → (off + j) / PAGE_SIZE = off / PAGE_SIZE ∧ (off + j) mod PAGE_SIZE = off mod PAGE_SIZE + j) as Hdiv.
  { intros j Hj. split; div_lia. }
  destruct (Z.eqb_spec page 0) as [->|Hp]; cbn [negb].
  - rewrite memset_load8. rewrite Z2Nat.id by lia. case_decide; [|done]. unfold file_byte. rewrite decide_True by done.
    destruct (Hdiv (a - buffer) ltac:(lia)) as [-> _]. rewrite <- Hi, Nat2Z.id, Hb. by rewrite decide_True.
  - assert (page ∈ node_pages n) as Hin by (apply node_pages_elem; split; [done|by eapply list_elem_of_lookup_2]).
    rewrite memcpy_load8.
    2:{ apply ranges_apart. rewrite Z2Nat.id by lia. intros b Hbuf Hsrc. apply (Hap b Hbuf). right. exists page.
        split; [done|]. unfold in_page. pose proof (Z.mod_pos_bound off PAGE_SIZE). lia. }
    rewrite Z2Nat.id by lia. case_decide; [|done]. unfold file_byte. rewrite decide_True by done.
    destruct (Hdiv (a - buffer) ltac:(lia)) as [-> ->]. rewrite <- Hi, Nat2Z.id, Hb, decide_False by done.
    f_equal. lia.
Qed.

Lemma pread_loop_spec n fuel : ∀ buffer off done_ size_ s,
  data n = 0 → length (blocks n) = Z.to_nat TMP_FILE_PAGES → 0 <= off → 0 <= done_ <= size_ →
  off + (size_ - done_) <= MAX_FILE → (done_ < size_ → TMP_FILE_PAGES - off / PAGE_SIZE <= Z.of_nat fuel) →
  apart n (buffer + done_) (size_ - done_) →
  ∃ m', pread_loop fuel n buffer off done_ size_ s = Some (size_, set_mem m' s) ∧
    ∀ a, load8 m' a = if decide (buffer + done_ <= a < buffer + size_)
                      then file_byte (mem s) n (off + (a - (buffer + done_))) else load8 (mem s) a.
Proof.
  induction fuel as [|fuel IH]; intros buffer off done_ size_ s Hd Hbl Hoff Hdone Hmax Hf Hap; cbn [pread_loop];
    destruct (Z.geb_spec done_ size_).
  1,3: exists (mem s); assert (done_ = size_) as -> by lia; split; [by destruct s|];
    intros a; by rewrite decide_False by lia.
  { exfalso. assert (off / PAGE_SIZE < 16) by div_lia. lia. }
  assert (0 <= off / PAGE_SIZE < 16) as Hidx by div_lia.
  destruct (lookup_lt_is_Some_2 (blocks n) (Z.to_nat (off / PAGE_SIZE))) as [page Hpage]; [rewrite Hbl; lia|].
  rewrite Hpage, land_page_mask. pose proof (Z.mod_pos_bound off PAGE_SIZE ltac:(lia)) as Hmod.
  set (part := if _ >? _ then size_ - done_ else _).
  assert (0 < part <= PAGE_SIZE - off mod PAGE_SIZE ∧ part <= size_ - done_ ∧
    (part = size_ - done_ ∨ part = PAGE_SIZE - off mod PAGE_SIZE)) as (Hp1 & Hp2 & Hp3).
  { unfold part. destruct (Z.gtb_spec (PAGE_SIZE - off mod PAGE_SIZE) (size_ - done_)); lia. }
  pose proof (pread_part (mem s) n (buffer + done_) page _ off part Hd Hpage ltac:(lia) Hoff ltac:(lia)
    ltac:(intros a Ha; apply Hap; lia)) as Hm. cbv zeta in Hm. rewrite land_page_mask in Hm.
  set (m1 := if negb (page =? 0) then _ else _) in *.
  assert (same_on (holds_file n) (mem s) m1) as Hsame.
  { intros a Ha. rewrite Hm, decide_False; [done|]. intros Hin. apply (Hap a); [lia|done]. }
  destruct (IH buffer (off + part) (done_ + part) size_ (set_mem m1 s)) as (m' & E & Hm'); try done; try lia.
  { intros Hlt. assert (part = PAGE_SIZE - off mod PAGE_SIZE) as -> by lia.
    assert ((off + (PAGE_SIZE - off mod PAGE_SIZE)) / PAGE_SIZE = off / PAGE_SIZE + 1) as -> by div_lia. lia. }
  { intros a Ha. apply Hap. lia. }
  exists m'. split; [by rewrite E; destruct s|]. intros a. rewrite Hm'. cbn [mem set_mem].
  destruct (decide (buffer + (done_ + part) <= a < buffer + size_)) as [Hin|Hout].
  - rewrite (decide_True (P := buffer + done_ <= a < _)) by lia. rewrite (file_byte_frame (mem s) m1) by done.
    f_equal. lia.
  - rewrite Hm. repeat case_decide; try done; lia.
Qed.

(** What a read delivers: as many bytes as asked for, up to the end of the file. *)
Definition read_count (n : vnode) (size_ off : Z) : Z :=
  if type n =? DT_DIR then - E_ISDIR else Z.max 0 (Z.min size_ (size n - off)).

Lemma regular_pread_spec lo hi n buffer size_ off s :
  content_ok lo hi n → 0 <= size_ → 0 <= off → apart n buffer (read_count n size_ off) →
  ∃ m', regular_pread n buffer size_ off s = Some (read_count n size_ off, set_mem m' s) ∧
    ∀ a, load8 m' a = if decide (buffer <= a < buffer + read_count n size_ off)
                      then file_byte (mem s) n (off + (a - buffer)) else load8 (mem s) a.
Proof.
  intros [N1 N2 N3 N4] Hsz Hoff. unfold regular_pread, read_count. destruct (type n =? DT_DIR).
  { intros _. exists (mem s). split; [by destruct s|]. intros a. by rewrite decide_False by lia. }
  destruct (Z.geb_spec off (size n)).
  { intros _. exists (mem s). rewrite Z.max_l by lia. split; [by destruct s|]. intros a. by rewrite decide_False by lia. }
  assert ((if size_ >? size n - off then size n - off else size_) = Z.max 0 (Z.min size_ (size n - off))) as E.
  { destruct (Z.gtb_spec size_ (size n - off)); lia. }
  rewrite E. set (k := Z.max 0 _) in *. assert (0 <= k <= size n - off) as Hk by lia. intros Hap.
  destruct (Z.eqb_spec (data n) 0) as [Hd|Hd]; cbn [negb].
  - specialize (N3 Hd). destruct (pread_loop_spec n file_fuel buffer off 0 k s) as (m' & Em & Hm'); try done; try lia.
    { intros _. unfold file_fuel. rewrite Z2Nat.id by lia. div_lia. }
    { intros a Ha. apply Hap. lia. }
    exists m'. split; [done|]. intros a. rewrite Hm'. by rewrite Z.add_0_r.
  - eexists. split; [reflexivity|]. intros a. rewrite memcpy_load8.
    2:{ apply ranges_apart. rewrite Z2Nat.id by lia. intros b Hb1 Hb2. apply (Hap b Hb1). left. split; [done|lia]. }
    rewrite Z2Nat.id by lia. case_decide; [|done]. unfold file_byte. rewrite decide_False by done. f_equal. lia.
Qed.

(** * Writing *)

Lemma filter_insert_perm (l : list Z) i p :
  l !! i = Some 0 → p ≠ 0 → filter (λ b, b ≠ 0) (<[i := p]> l) ≡ₚ p :: filter (λ b, b ≠ 0) l.
Proof.
  revert i. induction l as [|x l IH]; intros [|i] Hi Hp; try done; cbn in Hi.
  - injection Hi as ->. change (<[0%nat := p]> (0 :: l)) with (p :: l). rewrite !filter_cons, decide_True, decide_False by (done || (intros Hn; by apply Hn)). done.
  - change (<[S i := p]> (x :: l)) with (x :: <[i := p]> l).
    rewrite !filter_cons. case_decide; rewrite (IH i) by done; [apply perm_swap|done].
Qed.

(** The pages of the other files. *)
Definition other_pages (v : vfs) (n : Z) : list Z :=
  filter (λ x, x ≠ n) (nodes v) ≫= λ x, node_pages (vn v x).

Lemma block_pages_split v n :
  NoDup (nodes v) → n ∈ nodes v → block_pages v ≡ₚ node_pages (vn v n) ++ other_pages v n.
Proof.
  unfold block_pages, other_pages. induction (nodes v) as [|x l IH]; intros Hnd Hin; [by apply elem_of_nil in Hin|].
  apply NoDup_cons in Hnd as [Hx Hnd]. rewrite filter_cons. destruct (decide (x = n)) as [->|Hne].
  - rewrite decide_False by (intros Hn; by apply Hn). cbn. apply Permutation_app_head.
    replace (filter (λ x, x ≠ n) l) with l; [done|]. symmetry. apply filter_all_kept. by intros y Hy ->.
  - rewrite decide_True by done. apply elem_of_cons in Hin as [->|Hin]; [done|]. cbn.
    rewrite (IH Hnd Hin), !app_assoc. apply Permutation_app_tail, Permutation_app_comm.
Qed.

Lemma other_pages_ext v v' n :
  nodes v' = nodes v → (∀ x, x ≠ n → vn v' x = vn v x) → other_pages v' n = other_pages v n.
Proof.
  intros En Ev. unfold other_pages. rewrite En. apply mbind_ext_in. intros x Hx.
  apply list_elem_of_filter in Hx as [Hx _]. by rewrite Ev.
Qed.

Section Writing.
Context `{HeapContract}.
Context (U O : list Z) (lo hi : Z).

Abbreviation store_ok := (store_ok U O lo hi).

(** [k] bytes of [src] have gone into the file [n] at [off], through the open file
    [f]; nothing else has changed. *)
Record wrote (v v' : vfs) (n f off k : Z) (src : Z → Z) : Prop := {
  wr_nodes : nodes v' = nodes v;
  wr_dom : ∀ x, is_node v' x ↔ is_node v x;
  wr_others : ∀ x, x ≠ n → vn v' x = vn v x;
  wr_node : shape (vn v' n) = shape (vn v n) ∧ inode (vn v' n) = inode (vn v n) ∧ data (vn v' n) = data (vn v n);
  wr_size : size (vn v' n) = if decide (0 < k) then Z.max (size (vn v n)) (off + k) else size (vn v n);
  wr_bytes : ∀ i, 0 <= i → file_byte (mem (kern v')) (vn v' n) i
    = if decide (off <= i < off + k) then src (i - off) else file_byte (mem (kern v)) (vn v n) i;
  wr_open : ∀ x, is_Some (files v' !! x) ↔ is_Some (files v !! x);
  wr_offset : fl v' f = with_offset (off + k) (fl v f);
  wr_files : ∀ x, x ≠ f → fl v' x = fl v x;
  wr_static : mounts v' = mounts v ∧ next_inode v' = next_inode v ∧ live_files v' = live_files v;
  wr_kept : kept U (other_pages v n ++ O) (mem (kern v)) (mem (kern v'));
  wr_pipes : pipes v' = pipes v ∧ woken v' = woken v;
}.

Lemma wrote_trans v v1 v2 n f off k1 k2 src src2 :
  0 <= k1 → 0 <= k2 → (∀ j, 0 <= j < k2 → src2 j = src (k1 + j)) →
  wrote v v1 n f off k1 src → wrote v1 v2 n f (off + k1) k2 src2 → wrote v v2 n f off (k1 + k2) src.
Proof.
  intros H1 H2 Hsrc A B. split.
  - by rewrite (wr_nodes _ _ _ _ _ _ _ B), (wr_nodes _ _ _ _ _ _ _ A).
  - intros x. by rewrite (wr_dom _ _ _ _ _ _ _ B), (wr_dom _ _ _ _ _ _ _ A).
  - intros x Hx. by rewrite (wr_others _ _ _ _ _ _ _ B), (wr_others _ _ _ _ _ _ _ A).
  - destruct (wr_node _ _ _ _ _ _ _ A) as (<- & <- & <-). apply (wr_node _ _ _ _ _ _ _ B).
  - rewrite (wr_size _ _ _ _ _ _ _ B), (wr_size _ _ _ _ _ _ _ A). repeat case_decide; lia.
  - intros i Hi. rewrite (wr_bytes _ _ _ _ _ _ _ B i Hi), (wr_bytes _ _ _ _ _ _ _ A i Hi).
    repeat case_decide; try lia; try done. rewrite Hsrc by lia. f_equal. lia.
  - intros x. by rewrite (wr_open _ _ _ _ _ _ _ B), (wr_open _ _ _ _ _ _ _ A).
  - rewrite (wr_offset _ _ _ _ _ _ _ B), (wr_offset _ _ _ _ _ _ _ A). unfold with_offset. cbn. f_equal. lia.
  - intros x Hx. by rewrite (wr_files _ _ _ _ _ _ _ B), (wr_files _ _ _ _ _ _ _ A).
  - destruct (wr_static _ _ _ _ _ _ _ A) as (<- & <- & <-). apply (wr_static _ _ _ _ _ _ _ B).
  - eapply kept_trans; [apply A|]. pose proof (wr_kept _ _ _ _ _ _ _ B) as Hk.
    by rewrite (other_pages_ext v v1) in Hk by apply A.
  - destruct (wr_pipes _ _ _ _ _ _ _ A) as [<- <-]. apply (wr_pipes _ _ _ _ _ _ _ B).
Qed.

(** The division of the pages around one file. *)
Lemma store_split v F P L n :
  store_ok v F P L → is_node v n →
  bare U (kern v) F P L (node_pages (vn v n) ++ other_pages v n ++ O).
Proof.
  intros Hs Hn. eapply bare_perm; [|apply Hs]. rewrite app_assoc. apply Permutation_app_tail, block_pages_split.
  - apply Hs.
  - by apply (so_dom _ _ _ _ _ _ _ _ Hs).
Qed.

(** A change to the pages, the blocks and the size of one file. *)
Lemma store_update v v' F P L F' n :
  store_ok v F P L → is_node v n → nodes v' = nodes v → (∀ x, is_node v' x ↔ is_node v x) →
  (∀ x, is_Some (files v' !! x) → is_Some (files v !! x)) →
  (∀ x, x ≠ n → vn v' x = vn v x) → content_ok lo hi (vn v' n) →
  bare U (kern v') F' P L (node_pages (vn v' n) ++ other_pages v n ++ O) → store_ok v' F' P L.
Proof.
  intros [S1 S2 S3 S4 S5 S6] Hn En Ed Ef Ev Hc Hb. split.
  - eapply bare_perm; [|exact Hb]. rewrite app_assoc. apply Permutation_app_tail. symmetry.
    rewrite <- (other_pages_ext v v' n) by done. apply block_pages_split; rewrite En; [done|by apply S3].
  - by rewrite En.
  - intros x. by rewrite En, Ed.
  - intros x Hx%Ed. by apply S4.
  - intros x Hx%Ef. rewrite Ed. by apply S5.
  - intros x Hx%Ed. destruct (decide (x = n)) as [->|Hne]; [done|]. rewrite Ev by done. by apply S6.
Qed.

(** A block that reads as zeros, replaced by a page of zeros. *)
Lemma file_byte_new_block m m' n index p i :
  data n = 0 → blocks n !! index = Some 0 → p ∉ blocks n → 0 <= i →
  (∀ a, load8 m' a = if decide (in_page p a) then 0 else load8 m a) →
  (∀ q, q ∈ node_pages n → ∀ a, in_page q a → ¬ in_page p a) →
  file_byte m' (with_blocks (<[index := p]> (blocks n)) n) i = file_byte m n i.
Proof.
  intros Hd Hz Hp Hi Hm Hdis. unfold file_byte. cbn [data blocks with_blocks]. rewrite !decide_True by done.
  set (j := Z.to_nat (i / PAGE_SIZE)). destruct (decide (index = j)) as [->|Hne].
  - rewrite list_lookup_insert_eq by (by eapply lookup_lt_Some). rewrite Hz. rewrite (decide_True (P := 0 = 0)) by done.
    case_decide; [done|]. rewrite Hm, decide_True; [done|]. unfold in_page. div_lia.
  - rewrite list_lookup_insert_ne by done. destruct (blocks n !! j) as [q|] eqn:E; [|done]. case_decide; [done|].
    rewrite Hm, decide_False; [done|]. apply (Hdis q); [|unfold in_page; div_lia].
    apply node_pages_elem. split; [done|by eapply list_elem_of_lookup_2].
Qed.

Lemma write_block_spec v F P L n index block b v1 :
  store_ok v F P L → is_node v n → data (vn v n) = 0 → blocks (vn v n) !! index = Some block →
  write_block n index block v = (b, v1) →
  (b = 0 ∧ v1 = v ∧ F = []) ∨
  (b ≠ 0 ∧ (∃ F1, store_ok v1 F1 P L) ∧
   (∃ s, v1 = update_vnode (λ x, with_blocks (<[index := b]> (blocks x)) x) n (set_kern s v)) ∧
   (∀ i, 0 <= i → file_byte (mem (kern v1)) (vn v1 n) i = file_byte (mem (kern v)) (vn v n) i) ∧
   kept U (other_pages v n ++ O) (mem (kern v)) (mem (kern v1))).
Proof.
  intros Hs Hn Hd Hb. unfold write_block. pose proof (store_split _ _ _ _ _ Hs Hn) as Hsp.
  destruct (Z.eqb_spec block 0) as [->|Hb0]; cbn [negb].
  2:{ intros [= <- <-]. right. split; [done|]. split; [by exists F|]. split; [|split; [done|apply kept_refl]].
      exists (kern v). rewrite update_vnode_id; [by destruct v|done|]. cbn. rewrite list_insert_id by done.
      change (vn (set_kern (kern v) v) n) with (vn v n). by destruct (vn v n). }
  destruct (bare_page_alloc _ _ _ _ _ _ Hsp) as (p & s & -> & Hmem & [(-> & -> & HF)|(F1 & Hp & Hb1)]).
  { cbn [Z.eqb]. intros [= <- <-]. left. split; [done|]. split; [|done].
    rewrite update_vnode_id; [by destruct v|done|]. cbn. rewrite list_insert_id by done.
    change (vn (set_kern (kern v) v) n) with (vn v n). by destruct (vn v n). }
  assert (p ≠ 0) as Hp0 by (destruct Hp; lia). rewrite (proj2 (Z.eqb_neq _ _) Hp0). intros [= <- <-]. right.
  split; [done|]. set (m' := memset _ _ _ _).
  assert (∀ a, load8 m' a = if decide (in_page p a) then 0 else load8 (mem (kern v)) a) as Hm'.
  { intros a. unfold m'. rewrite memset_load8. cbn. rewrite Hmem. unfold in_page. by repeat case_decide. }
  assert (same_on (λ a, ¬ in_page p a) (mem s) m') as Hsame.
  { intros a Ha. rewrite Hm', decide_False, Hmem by done. done. }
  destruct (bare_poke _ _ _ _ _ _ _ _ Hb1 Hsame) as [Hb2 Hk2].
  assert (∀ q a, q ∈ node_pages (vn v n) → in_page q a → ¬ in_page p a) as Hdis.
  { intros q a Hq Ha Hpa. pose proof (ba_nodup _ _ _ _ _ _ Hb1) as Hnd. rewrite <- (ba_pages _ _ _ _ _ _ Hb1) in Hnd.
    rewrite app_assoc, <- Permutation_middle in Hnd. apply NoDup_cons in Hnd as [Hnd _]. apply Hnd.
    assert (q = p) as <-; [|rewrite !elem_of_app in *; tauto].
    eapply (bare_disjoint U); [exact Hb1| | |exact Ha|exact Hpa]; rewrite !elem_of_app, elem_of_cons, ?elem_of_app; tauto. }
  assert (p ∉ blocks (vn v n)) as Hpb.
  { intros Hin. apply (Hdis p (phys_to_virt p)); [by apply node_pages_elem| |]; unfold in_page; lia. }
  set (v1 := set_kern _ _).
  assert (vn v1 n = with_blocks (<[index := p]> (blocks (vn v n))) (vn v n)) as Hv1.
  { change (vn v1 n) with (vn (update_vnode (λ x, with_blocks (<[index := p]> (blocks x)) x) n v) n).
    by rewrite vn_update, decide_True. }
  split; [|split; [|split]].
  - exists F1. apply (store_update v v1 F P L F1 n); try done.
    + intros x. change (is_node v1 x) with (is_node (update_vnode (λ x, with_blocks (<[index := p]> (blocks x)) x) n v) x).
      by apply is_node_update.
    + intros x Hx. change (vn v1 x) with (vn (update_vnode (λ x, with_blocks (<[index := p]> (blocks x)) x) n v) x).
      by rewrite vn_update, decide_False.
    + rewrite Hv1. destruct (so_node _ _ _ _ _ _ _ _ Hs n Hn) as [N1 N2 N3 N4]. split; cbn; try done.
      by rewrite length_insert.
    + eapply bare_perm; [|exact Hb2]. rewrite Hv1. unfold node_pages at 2. cbn [blocks with_blocks].
      rewrite filter_insert_perm by done. done.
  - by eexists.
  - intros i Hi. rewrite Hv1. apply file_byte_new_block; try done. intros q Hq a. by apply Hdis.
  - eapply kept_sub; [|rewrite <- Hmem; exact Hk2]. intros q Hq. rewrite elem_of_app. by right.
Qed.

Lemma filter_nodup_inj (l : list Z) : ∀ i j x,
  NoDup (filter (λ b, b ≠ 0) l) → l !! i = Some x → l !! j = Some x → x ≠ 0 → i = j.
Proof.
  induction l as [|y l IH]; intros [|i] [|j] x Hnd Hi Hj Hx; try done; rewrite filter_cons in Hnd; cbn in Hi, Hj.
  - injection Hi as ->. rewrite decide_True in Hnd by done. apply NoDup_cons in Hnd as [Hno _]. exfalso. apply Hno.
    apply list_elem_of_filter. split; [done|by eapply list_elem_of_lookup_2].
  - injection Hj as ->. rewrite decide_True in Hnd by done. apply NoDup_cons in Hnd as [Hno _]. exfalso. apply Hno.
    apply list_elem_of_filter. split; [done|by eapply list_elem_of_lookup_2].
  - f_equal. eapply IH; [|done|done|done]. case_decide; [by apply NoDup_cons in Hnd as [_ ?]|done].
Qed.

(** A store into the block of [off]. *)
Lemma file_byte_store m m' n index b off part i :
  data n = 0 → NoDup (node_pages n) → (∀ q, q ∈ node_pages n → page_ok q) →
  blocks n !! index = Some b → b ≠ 0 → Z.of_nat index = off / PAGE_SIZE → 0 <= off → 0 <= i →
  0 <= part <= PAGE_SIZE - off mod PAGE_SIZE →
  (∀ a, ¬ (phys_to_virt b + off mod PAGE_SIZE <= a < phys_to_virt b + off mod PAGE_SIZE + part) → load8 m' a = load8 m a) →
  file_byte m' n i = if decide (off <= i < off + part)
                     then load8 m' (phys_to_virt b + off mod PAGE_SIZE + (i - off)) else file_byte m n i.
Proof.
  intros Hd Hnd Hok Hb Hb0 Hidx Hoff Hi Hpart Hm. unfold file_byte. rewrite !(decide_True (P := data n = 0)) by done.
  destruct (decide (i / PAGE_SIZE = off / PAGE_SIZE)) as [Ei|Ei].
  - replace (Z.to_nat (i / PAGE_SIZE)) with index by (rewrite Ei; lia). rewrite Hb, !(decide_False (P := b = 0)) by done.
    case_decide as Hin; [f_equal; div_lia|]. apply Hm. clear -Hin Ei Hoff Hi Hpart. div_lia.
  - rewrite (decide_False (P := off <= i < off + part)) by (clear -Ei Hoff Hi Hpart; div_lia).
    destruct (blocks n !! Z.to_nat (i / PAGE_SIZE)) as [q|] eqn:Eq; [|done]. case_decide as Hq; [done|].
    apply Hm. intros Ha. apply Ei.
    assert (q = b) as ->.
    { apply (in_page_disjoint q b (phys_to_virt q + i mod PAGE_SIZE)).
      - apply Hok, node_pages_elem. split; [done|by eapply list_elem_of_lookup_2].
      - apply Hok, node_pages_elem. split; [done|by eapply list_elem_of_lookup_2].
      - unfold in_page. clear -Hi. div_lia.
      - unfold in_page. pose proof (Z.mod_pos_bound off PAGE_SIZE ltac:(lia)). lia. }
    pose proof (filter_nodup_inj _ _ _ _ Hnd Eq Hb Hb0) as E. rewrite <- Hidx, <- E. rewrite Z2Nat.id; [done|]. div_lia.
Qed.

Lemma store_pages v F P L n :
  store_ok v F P L → is_node v n → NoDup (node_pages (vn v n)) ∧ ∀ q, q ∈ node_pages (vn v n) → page_ok q.
Proof.
  intros Hs Hn. pose proof (store_split _ _ _ _ _ Hs Hn) as Hsp. split.
  - pose proof (ba_nodup _ _ _ _ _ _ Hsp) as Hnd. rewrite <- (ba_pages _ _ _ _ _ _ Hsp) in Hnd.
    apply NoDup_app in Hnd as (_ & _ & Hnd). apply NoDup_app in Hnd as (_ & _ & Hnd). by apply NoDup_app in Hnd as (Hnd & _).
  - intros q Hq. eapply bare_member; [exact Hsp|]. rewrite !elem_of_app. tauto.
Qed.

(** A copy from the caller's buffer into one page of a file. *)
Lemma poke_block v F P L n b d buffer part :
  store_ok v F P L → is_node v n → b ∈ node_pages (vn v n) → 0 <= part → 0 <= d → d + part <= PAGE_SIZE →
  (∀ a, buffer <= a < buffer + part → region U O a) →
  let dst := phys_to_virt b + d in
  let m' := memcpy (mem (kern v)) dst buffer (Z.to_nat part) in
  (∀ a, load8 m' a = if decide (dst <= a < dst + part) then load8 (mem (kern v)) (buffer + (a - dst))
                     else load8 (mem (kern v)) a) ∧
  bare U (set_mem m' (kern v)) F P L (node_pages (vn v n) ++ other_pages v n ++ O) ∧
  kept U (other_pages v n ++ O) (mem (kern v)) m'.
Proof.
  intros Hs Hn Hbn Hpart Hd Hdp Hbuf dst m'. pose proof (store_split _ _ _ _ _ Hs Hn) as Hsp.
  apply elem_of_Permutation in Hbn as [rest Hrest].
  assert (bare U (kern v) F P L (b :: rest ++ other_pages v n ++ O)) as Hsb.
  { eapply bare_perm; [|exact Hsp]. by rewrite Hrest. }
  assert (∀ a, load8 m' a = if decide (dst <= a < dst + part) then load8 (mem (kern v)) (buffer + (a - dst))
                     else load8 (mem (kern v)) a) as Hm'.
  { intros a. unfold m'. rewrite memcpy_load8; rewrite Z2Nat.id by done; [done|].
    rewrite <- (Z2Nat.id part) by done. apply ranges_apart. rewrite Z2Nat.id by done. intros c Hc1 Hc2.
    apply (bare_region_page _ _ _ _ _ _ _ c Hsb); [unfold in_page, dst in *; lia|].
    destruct (Hbuf c Hc2) as [(q & Hq & Hqa)|Hr]; [left|by right]. exists q. rewrite !elem_of_app. auto. }
  split; [done|]. destruct (bare_poke _ _ m' _ _ _ _ _ Hsb) as [Hb2 Hk2].
  { intros a Ha. rewrite Hm', decide_False; [done|]. unfold in_page, dst in *. lia. }
  split; [eapply bare_perm; [|exact Hb2]; by rewrite Hrest|].
  eapply kept_sub; [|exact Hk2]. intros q Hq. rewrite elem_of_app. by right.
Qed.

(** [memcpy], [f->offset += part] and the size. *)
Definition copied (n f off part : Z) (m' : memory) (v : vfs) : vfs :=
  let v := update_file (with_offset (off + part)) f (set_kern (set_mem m' (kern v)) v) in
  if off + part >? size (vn v n) then update_vnode (with_size (off + part)) n v else v.

Lemma copied_fields n f off part m' v :
  is_node v n → let v4 := copied n f off part m' v in
  kern v4 = set_mem m' (kern v) ∧ nodes v4 = nodes v ∧ mounts v4 = mounts v ∧ next_inode v4 = next_inode v ∧
  live_files v4 = live_files v ∧ files v4 = <[f := with_offset (off + part) (fl v f)]> (files v) ∧
  (∀ x, is_node v4 x ↔ is_node v x) ∧ (∀ x, x ≠ n → vn v4 x = vn v x) ∧
  vn v4 n = with_size (Z.max (size (vn v n)) (off + part)) (vn v n).
Proof.
  intros Hn. unfold copied. set (v3 := update_file _ f _). change (vn v3 n) with (vn v n).
  destruct (Z.gtb_spec (off + part) (size (vn v n))); cbv zeta; do 6 (split; [done|]); (split; [|split]).
  - intros x. by apply (is_node_update _ n v3).
  - intros x Hx. by rewrite vn_update, decide_False.
  - rewrite vn_update, decide_True by done. change (vn v3 n) with (vn v n). f_equal. lia.
  - done.
  - done.
  - change (vn v3 n) with (vn v n). rewrite Z.max_l by lia. by destruct (vn v n).
Qed.

Lemma copy_step v F P L n f index b buffer part :
  store_ok v F P L → is_node v n → data (vn v n) = 0 → blocks (vn v n) !! index = Some b → b ≠ 0 →
  is_Some (files v !! f) →
  let off := offset (fl v f) in
  Z.of_nat index = off / PAGE_SIZE → 0 <= off → 0 < part <= PAGE_SIZE - off mod PAGE_SIZE →
  (∀ a, buffer <= a < buffer + part → region U O a) →
  let m' := memcpy (mem (kern v)) (phys_to_virt b + Z.land off PAGE_MASK) buffer (Z.to_nat part) in
  let v4 := copied n f off part m' v in
  wrote v v4 n f off part (λ j, load8 (mem (kern v)) (buffer + j)) ∧ store_ok v4 F P L.
Proof.
  intros Hs Hn Hd Hb Hb0 Hf off Hidx Hoff Hpart Hbuf. rewrite land_page_mask. intros m' v4.
  pose proof (Z.mod_pos_bound off PAGE_SIZE ltac:(lia)) as Hmod.
  assert (b ∈ node_pages (vn v n)) as Hbn by (apply node_pages_elem; split; [done|by eapply list_elem_of_lookup_2]).
  destruct (poke_block v F P L n b (off mod PAGE_SIZE) buffer part Hs Hn Hbn ltac:(lia) ltac:(lia) ltac:(lia) Hbuf)
    as (Hm' & Hb2 & Hk2). fold m' in Hm', Hb2, Hk2.
  destruct (copied_fields n f off part m' v Hn) as (K1 & K2 & K3 & K4 & K5 & K6 & Hdom & Hoth & Hvn). fold v4 in K1, K2, K3, K4, K5, K6, Hdom, Hoth, Hvn.
  destruct (store_pages _ _ _ _ _ Hs Hn) as [Hnd Hok]. destruct (so_node _ _ _ _ _ _ _ _ Hs n Hn) as [N1 N2 N3 N4].
  split.
  - split; rewrite ?K1, ?K2, ?K3, ?K4, ?K5, ?K6; try done.
    + by rewrite Hvn.
    + by rewrite Hvn, decide_True by lia.
    + intros i Hi. cbn [mem set_mem]. rewrite Hvn.
      change (file_byte m' (with_size (Z.max (size (vn v n)) (off + part)) (vn v n)) i) with (file_byte m' (vn v n) i).
      rewrite (file_byte_store (mem (kern v)) m' (vn v n) index b off part) by
        (done || lia || (intros a Ha; by rewrite Hm', decide_False)).
      case_decide; [|done]. rewrite Hm', decide_True by lia. f_equal. lia.
    + intros x. rewrite lookup_insert_is_Some'. naive_solver.
    + unfold fl. by rewrite K6, lookup_total_insert_eq.
    + intros x Hx. unfold fl. by rewrite K6, lookup_total_insert_ne.
    + unfold v4, copied. by case_if.
  - apply (store_update v v4 F P L F n); try done.
    + intros x. rewrite K6, lookup_insert_is_Some'. naive_solver.
    + rewrite Hvn. split; cbn; try done; [lia|]. intros _.
      assert (off + part <= MAX_FILE); [|specialize (N3 Hd); lia].
      apply lookup_lt_Some in Hb. rewrite N1 in Hb. clear -Hb Hidx Hpart Hoff. div_lia.
    + by rewrite Hvn, K1.
Qed.

Lemma wrote_nothing v v1 n f src :
  nodes v1 = nodes v → (∀ x, is_node v1 x ↔ is_node v x) → (∀ x, x ≠ n → vn v1 x = vn v x) →
  shape (vn v1 n) = shape (vn v n) ∧ inode (vn v1 n) = inode (vn v n) ∧ data (vn v1 n) = data (vn v n) →
  size (vn v1 n) = size (vn v n) → files v1 = files v →
  mounts v1 = mounts v ∧ next_inode v1 = next_inode v ∧ live_files v1 = live_files v →
  pipes v1 = pipes v ∧ woken v1 = woken v →
  (∀ i, 0 <= i → file_byte (mem (kern v1)) (vn v1 n) i = file_byte (mem (kern v)) (vn v n) i) →
  kept U (other_pages v n ++ O) (mem (kern v)) (mem (kern v1)) →
  wrote v v1 n f (offset (fl v f)) 0 src.
Proof.
  intros ? ? ? ? Hsz Hf ? ? Hb ?. split; try done.
  - intros i Hi. rewrite decide_False by lia. by apply Hb.
  - intros x. by rewrite Hf.
  - unfold fl. rewrite Hf, Z.add_0_r. by destruct (files v !!! f).
  - intros x _. unfold fl. by rewrite Hf.
Qed.

Lemma wrote_refl v n f src : wrote v v n f (offset (fl v f)) 0 src.
Proof. by apply wrote_nothing. Qed.

(** How much fits. *)
Definition room (off size_ : Z) : Z := Z.min size_ (Z.max 0 (MAX_FILE - off)).

(** The end of a write of [k] bytes when [want] were to be written: all of them,
    or the free list is empty. *)
Definition write_result (want k done_ : Z) (F : list Z) (r : Z) : Prop :=
  0 <= k <= want ∧ (k < want → F = []) ∧
  r = if decide (k < want ∧ done_ + k = 0) then - E_NOMEM else done_ + k.

(** One round of the loop. *)
Lemma write_round v F P L n f buffer done_ size_ :
  store_ok v F P L → is_node v n → data (vn v n) = 0 → is_Some (files v !! f) →
  let off := offset (fl v f) in
  0 <= off < MAX_FILE → 0 <= done_ < size_ → (∀ a, buffer + done_ <= a < buffer + size_ → region U O a) →
  let part := if PAGE_SIZE - off mod PAGE_SIZE >? size_ - done_ then size_ - done_ else PAGE_SIZE - off mod PAGE_SIZE in
  ∃ block b v1, blocks (vn v n) !! Z.to_nat (off / PAGE_SIZE) = Some block ∧
    write_block n (Z.to_nat (off / PAGE_SIZE)) block v = (b, v1) ∧ offset (fl v1 f) = off ∧
    ((b = 0 ∧ v1 = v ∧ F = []) ∨
     (b ≠ 0 ∧ let v4 := copied n f off part (memcpy (mem (kern v1)) (phys_to_virt b + Z.land off PAGE_MASK)
                          (buffer + done_) (Z.to_nat part)) v1 in
      ∃ F4, store_ok v4 F4 P L ∧ wrote v v4 n f off part (λ j, load8 (mem (kern v)) (buffer + done_ + j)))).
Proof.
  intros Hs Hn Hd Hf off Hoff Hdone Hbuf part. pose proof (Z.mod_pos_bound off PAGE_SIZE ltac:(lia)) as Hmod.
  assert (0 < part <= PAGE_SIZE - off mod PAGE_SIZE ∧ part <= size_ - done_) as [Hp1 Hp2].
  { unfold part. destruct (Z.gtb_spec (PAGE_SIZE - off mod PAGE_SIZE) (size_ - done_)); lia. }
  assert (0 <= off / PAGE_SIZE < 16) as Hidx by (clear -Hoff; div_lia).
  destruct (lookup_lt_is_Some_2 (blocks (vn v n)) (Z.to_nat (off / PAGE_SIZE))) as [block Hb].
  { rewrite (no_blocks _ _ _ (so_node _ _ _ _ _ _ _ _ Hs n Hn)). lia. }
  destruct (write_block n (Z.to_nat (off / PAGE_SIZE)) block v) as [b v1] eqn:Ew. exists block, b, v1. split; [done|]. split; [done|].
  destruct (write_block_spec _ _ _ _ _ _ _ _ _ Hs Hn Hd Hb Ew) as [(-> & -> & ->)|(Hb0 & (F1 & Hs1) & (s & Ev1) & Hby & Hk)].
  { split; [done|]. by left. }
  assert (offset (fl v1 f) = off) as Eoff by (by rewrite Ev1). split; [done|]. right. split; [done|].
  assert (vn v1 n = with_blocks (<[Z.to_nat (off / PAGE_SIZE) := b]> (blocks (vn v n))) (vn v n)) as Evn.
  { by rewrite Ev1, vn_update, decide_True. }
  assert (is_node v1 n) as Hn1 by (rewrite Ev1; by apply is_node_update).
  destruct (copy_step v1 F1 P L n f (Z.to_nat (off / PAGE_SIZE)) b (buffer + done_) part) as [Hw Hs4]; try done.
  - by rewrite Evn.
  - rewrite Evn. cbn. rewrite list_lookup_insert_eq; [done|]. by eapply lookup_lt_Some.
  - by rewrite Ev1.
  - rewrite Eoff. lia.
  - rewrite Eoff. lia.
  - by rewrite Eoff.
  - intros a Ha. apply Hbuf. lia.
  - rewrite Eoff in Hw, Hs4. exists F1. split; [done|].
    eapply (wrote_trans v v1 _ n f off 0 part); [lia|lia| | |by rewrite Z.add_0_r].
    + intros j Hj. cbv beta. rewrite Z.add_0_l. apply Hk. destruct (Hbuf (buffer + done_ + j) ltac:(lia)) as [(q & Hq & Ha)|Hr]; [left|by right].
      exists q. rewrite elem_of_app. auto.
    + apply wrote_nothing; try done; try (by rewrite Evn); rewrite Ev1; try done.
      * intros x. by apply (is_node_update _ n (set_kern s v)).
      * intros x Hx. by rewrite vn_update, decide_False.
Qed.

Lemma write_loop_spec n f buffer size_ P L fuel : ∀ v done_ F,
  store_ok v F P L → is_node v n → data (vn v n) = 0 → is_Some (files v !! f) →
  let off := offset (fl v f) in
  0 <= off → 0 <= done_ <= size_ →
  (done_ < size_ → off < MAX_FILE → TMP_FILE_PAGES - off / PAGE_SIZE <= Z.of_nat fuel) →
  (∀ a, buffer + done_ <= a < buffer + size_ → region U O a) →
  ∃ k r v' F', write_loop fuel f n buffer done_ size_ v = Some (r, v') ∧
    wrote v v' n f off k (λ j, load8 (mem (kern v)) (buffer + done_ + j)) ∧ store_ok v' F' P L ∧
    write_result (room off (size_ - done_)) k done_ F' r.
Proof.
  induction fuel as [|fuel IH]; intros v done_ F Hs Hn Hd Hf off Hoff Hdone Hfuel Hbuf;
    cbn [write_loop]; fold off;
    (destruct (decide (done_ < size_ ∧ off < MAX_FILE)) as [[H1 H2]|Hstop];
     [rewrite (proj2 (Z.ltb_lt _ _) H1), (proj2 (Z.ltb_lt _ _) H2)
     |replace ((done_ <? size_) && (off <? MAX_FILE)) with false
        by (symmetry; apply andb_false_iff; rewrite !Z.ltb_ge; lia)]); cbn [negb andb].
  2,4: exists 0, done_, v, F; split; [done|]; split; [apply wrote_refl|]; split; [done|];
    unfold write_result, room; rewrite decide_False by lia; repeat split; (done || lia).
  { exfalso. specialize (Hfuel H1 H2). assert (off / PAGE_SIZE < 16) by (clear -H2; div_lia). lia. }
  rewrite land_page_mask.
  destruct (write_round v F P L n f buffer done_ size_ Hs Hn Hd Hf ltac:(lia) ltac:(lia) Hbuf)
    as (block & b & v1 & Eb & Ew & Eoff & Hcase). fold off in Eb, Ew, Eoff, Hcase. rewrite Eb, Ew.
  destruct Hcase as [(-> & -> & ->)|(Hb0 & F4 & Hs4 & Hw)].
  { cbn [Z.eqb]. exists 0, (if negb (done_ =? 0) then done_ else - E_NOMEM), v, []. split; [done|]. split; [apply wrote_refl|].
    split; [done|]. unfold write_result, room. repeat split; try lia.
    destruct (Z.eqb_spec done_ 0); cbn [negb]; [rewrite decide_True by lia|rewrite decide_False by lia]; lia. }
  rewrite (proj2 (Z.eqb_neq _ _) Hb0). rewrite land_page_mask in Hs4, Hw. set (part := if _ >? _ then size_ - done_ else _) in *.
  fold (copied n f off part (memcpy (mem (kern v1)) (phys_to_virt b + off mod PAGE_SIZE) (buffer + done_) (Z.to_nat part)) v1).
  set (v4 := copied _ _ _ _ _ _) in *. pose proof (wr_offset _ _ _ _ _ _ _ Hw) as Ho4.
  pose proof (Z.mod_pos_bound off PAGE_SIZE ltac:(lia)) as Hmod.
  assert (0 < part <= PAGE_SIZE - off mod PAGE_SIZE ∧ part <= size_ - done_ ∧
    (part = size_ - done_ ∨ part = PAGE_SIZE - off mod PAGE_SIZE)) as (Hp1 & Hp2 & Hp3).
  { unfold part. destruct (Z.gtb_spec (PAGE_SIZE - off mod PAGE_SIZE) (size_ - done_)); lia. }
  assert (offset (fl v4 f) = off + part) as Eo4 by (by rewrite Ho4).
  destruct (IH v4 (done_ + part) F4) as (k & r & v' & F' & E & Hw' & Hs' & Hr).
  - done.
  - by apply (wr_dom _ _ _ _ _ _ _ Hw).
  - by destruct (wr_node _ _ _ _ _ _ _ Hw) as (_ & _ & ->).
  - by apply (wr_open _ _ _ _ _ _ _ Hw).
  - rewrite Eo4. lia.
  - lia.
  - rewrite Eo4. intros Hlt _. assert (part = PAGE_SIZE - off mod PAGE_SIZE) as -> by lia. specialize (Hfuel H1 H2).
    assert ((off + (PAGE_SIZE - off mod PAGE_SIZE)) / PAGE_SIZE = off / PAGE_SIZE + 1) as -> by (clear -Hoff; div_lia). lia.
  - intros a Ha. apply Hbuf. lia.
  - rewrite Eo4 in Hw', Hr. exists (part + k), r, v', F'. split; [done|].
    assert (part <= MAX_FILE - off) as Hfit by (clear -H2 Hoff Hp1; div_lia).
    destruct Hr as (R1 & R2 & ->). unfold room in *. split; [|split; [done|]].
    + eapply wrote_trans; [lia|lia| |exact Hw|exact Hw'].
      intros j Hj. cbv beta. rewrite <- Z.add_assoc, <- Z.add_assoc. rewrite !Z.add_assoc.
      apply (wr_kept _ _ _ _ _ _ _ Hw). destruct (Hbuf (buffer + done_ + part + j) ltac:(lia)) as [(q & Hq & Ha)|Hreg]; [left|by right].
      exists q. rewrite elem_of_app. auto.
    + unfold write_result. repeat split; try lia; [intros; apply R2; lia|].
      rewrite decide_False by lia. rewrite decide_False by lia. lia.
Qed.

(** ** [regular_write] *)

(** The state in which the bytes go out: the offset is at the end under [O_APPEND]. *)
Definition positioned (f : Z) (v : vfs) : vfs :=
  if negb (Z.land (flags (fl v f)) O_APPEND =? 0)
  then update_file (with_offset (size (vn v (node (fl v f))))) f v else v.

Lemma positioned_store f v F P L :
  store_ok v F P L → is_Some (files v !! f) → store_ok (positioned f v) F P L.
Proof.
  intros [S1 S2 S3 S4 S5 S6] Hf. unfold positioned. case_if; [|by split]. split; try done.
  intros x. cbn. rewrite lookup_insert_is_Some'. intros [<-|Hx]; by apply S5.
Qed.

Lemma regular_write_spec v F P L f buffer size_ :
  let n := node (fl v f) in
  let v1 := positioned f v in
  let off := offset (fl v1 f) in
  store_ok v F P L → is_Some (files v !! f) → is_node v n → data (vn v n) = 0 →
  readonly (mnt v (vmount (vn v n))) = false → type (vn v n) ≠ DT_DIR →
  0 <= offset (fl v f) → 0 <= size_ → (∀ a, buffer <= a < buffer + size_ → region U O a) →
  ∃ k r v' F', regular_write f buffer size_ v = Some (r, v') ∧ store_ok v' F' P L ∧
    wrote v1 v' n f off k (λ j, load8 (mem (kern v)) (buffer + j)) ∧
    if decide (off < MAX_FILE) then write_result (room off size_) k 0 F' r
    else k = 0 ∧ r = if decide (size_ = 0) then 0 else - E_FBIG.
Proof.
  intros n v1 off Hs Hf Hn Hd Hro Hdir Hoff Hsz Hbuf. pose proof (positioned_store f v F P L Hs Hf) as Hs1. fold v1 in Hs1.
  assert (vn v1 = vn v ∧ kern v1 = kern v ∧ node (fl v1 f) = n) as (E1 & E2 & E3).
  { unfold v1, positioned. case_if; [|done]. repeat split. by rewrite fl_update, decide_True. }
  assert (is_node v1 n) as Hn1 by (unfold v1, positioned; by case_if).
  assert (is_Some (files v1 !! f)) as Hf1.
  { unfold v1, positioned. case_if; [|done]. cbn. rewrite lookup_insert_eq. eauto. }
  assert (0 <= off) as Hoff1.
  { unfold off, v1, positioned. case_if; [|done]. rewrite fl_update, decide_True by done. cbn.
    apply (so_node _ _ _ _ _ _ _ _ Hs n Hn). }
  assert (regular_write f buffer size_ v =
    if off >=? MAX_FILE then Some (if negb (size_ =? 0) then - E_FBIG else 0, v1)
    else write_loop file_fuel f n buffer 0 size_ v1) as ->.
  { unfold regular_write. fold n. by rewrite Hro, (proj2 (Z.eqb_neq _ _) Hdir). }
  destruct (Z.geb_spec off MAX_FILE).
  - exists 0, (if negb (size_ =? 0) then - E_FBIG else 0), v1, F. split; [done|]. split; [done|].
    split; [apply wrote_refl|]. rewrite decide_False by lia. split; [done|]. destruct (Z.eqb_spec size_ 0); cbn [negb]; [by rewrite decide_True|by rewrite decide_False].
  - destruct (write_loop_spec n f buffer size_ P L file_fuel v1 0 F) as (k & r & v' & F' & E & Hw & Hs' & Hr); try done.
    + by rewrite E1.
    + fold off. intros _ _. unfold file_fuel. rewrite Z2Nat.id by lia. clear -Hoff1. div_lia.
    + intros a Ha. apply Hbuf. lia.
    + fold off in Hw, Hr. rewrite Z.sub_0_r in Hr. rewrite E2 in Hw. exists k, r, v', F'. split; [done|]. split; [done|].
      rewrite decide_True by done. split; [|done].
      destruct Hw as [W1 W2 W3 W4 W5 W6 W7 W8 W9 W10 W11]. split; try done.
      intros i Hi. rewrite W6 by done. destruct (decide (off <= i < off + k)); [|done].
      f_equal. lia.
Qed.
End Writing.
