(* ===== verification/VfsOpen.v ===== *)
(** [vfs_openat] and the life of open files in [src/fs/vfs.c]: the invariant of the
    file system and the operations that keep it. *)
From S2P Require Import Prelude Machine Runtime PageAlloc HeapSpec Ownership Outcome Vfs VfsInit VfsTree VfsInv VfsBuild VfsFiles.
From Stdlib Require String.
Import String.StringSyntax.

(** * What a path with a last component [.] or [..] resolves to *)

(** With more fuel, and with [nofollow], a walk that succeeds succeeds or stops at a
    link. *)
Lemma resolve_more v root nf r f : ∀ f' n links rest,
  resolve_loop f v root false n links rest = Some (inr r) → (f <= f')%nat →
  resolve_loop f' v root nf n links rest = Some (inr r) ∨
  resolve_loop f' v root nf n links rest = Some (inl (- E_LOOP)).
Proof.
  induction f as [|f IH]; intros [|f'] n links rest; [done|done|lia|]. intros E Hf. revert E. cbn [resolve_loop].
  destruct (skip_slashes rest) as [|c p]; [case_if; [done|by left]|].
  destruct (negb (type (vn v n) =? DT_DIR)); [done|]. destruct (split_component (c :: p)) as [name_ rest'].
  destruct (_ >=? NAME_LIMIT); [done|]. destruct (equal name_ (chars ".")); [intros; apply IH; (done || lia)|].
  destruct (equal name_ (chars "..")); [intros; apply IH; (done || lia)|]. destruct (child v n name_ =? 0); [done|].
  set (next := cross v _). destruct (type (vn v next) =? DT_LNK); [|intros; apply IH; (done || lia)].
  cbn [andb]. destruct (nf && _); [by right|]. destruct (_ >? 8); [done|]. destruct (_ || _); [done|].
  intros. apply IH; (done || lia).
Qed.

Lemma resolve_fuel_mono v root nf r f : ∀ f' n links rest,
  resolve_loop f v root nf n links rest = Some r → (f <= f')%nat →
  resolve_loop f' v root nf n links rest = Some r.
Proof.
  induction f as [|f IH]; intros [|f'] n links rest; [done|done|lia|]. intros E Hf. revert E. cbn [resolve_loop].
  destruct (skip_slashes rest) as [|c p]; [done|].
  destruct (negb (type (vn v n) =? DT_DIR)); [done|]. destruct (split_component (c :: p)) as [name_ rest'].
  destruct (_ >=? NAME_LIMIT); [done|]. destruct (equal name_ (chars ".")); [intros; apply IH; (done || lia)|].
  destruct (equal name_ (chars "..")); [intros; apply IH; (done || lia)|]. destruct (child v n name_ =? 0); [done|].
  set (next := cross v _). destruct (type (vn v next) =? DT_LNK); [|intros; apply IH; (done || lia)].
  destruct (nf && _); [done|]. destruct (_ >? 8); [done|]. destruct (_ || _); [done|].
  intros. apply IH; (done || lia).
Qed.

Definition slash_end (p : list Z) : Prop := p = [] ∨ last p = Some SLASH.

Lemma skip_slashes_tail p s :
  slash_end p → starts_slash s = false →
  skip_slashes (p ++ s) = skip_slashes p ++ s ∧ slash_end (skip_slashes p).
Proof.
  intros Hp Hs. induction p as [|c p IH].
  - split; [|by left]. destruct s as [|x s]; [done|]. cbn in Hs |- *. by rewrite Hs.
  - cbn [app skip_slashes]. destruct (Z.eqb_spec c SLASH) as [->|Hc]; [|by split].
    apply IH. destruct Hp as [|Hp]; [done|]. destruct p; [by left|right]. done.
Qed.

Lemma split_component_tail p s :
  last p = Some SLASH →
  split_component (p ++ s) = ((split_component p).1, (split_component p).2 ++ s) ∧
  last (split_component p).2 = Some SLASH.
Proof.
  induction p as [|c p IH]; [done|]. intros Hl. cbn [app split_component].
  destruct (Z.eqb_spec c SLASH) as [->|Hc]; [done|]. destruct p as [|d p]; [by injection Hl|].
  destruct (IH Hl) as [-> H2]. destruct (split_component (d :: p)) as [n r]. done.
Qed.

Lemma c_string_app a b :
  (c_string (a ++ b) = a ++ c_string b ∧ c_string a = a) ∨ (∀ b', c_string (a ++ b') = c_string a).
Proof.
  induction a as [|x a IH]; [by left|]. cbn [app c_string]. destruct (x =? 0); [by right|].
  destruct IH as [[-> ->]|IH]; [by left|]. right. intros b'. by rewrite IH.
Qed.

Definition dots (s : list Z) : Prop := s = chars "." ∨ s = chars "..".

Lemma resolve_dots_here v root nf n links s :
  type (vn v n) = DT_DIR → dots s → ∃ x, resolve_loop 2 v root nf n links s = Some (inr x).
Proof.
  intros Hd [-> | ->]; cbn [resolve_loop]; cbn [chars skip_slashes]; rewrite Hd; eauto.
Qed.

Lemma skip_slashes_chars p : c_chars p → c_chars (skip_slashes p).
Proof. induction 1; cbn [skip_slashes]; [constructor|]. case_if; [done|by constructor]. Qed.

Lemma dots_chars s : dots s → c_chars s ∧ starts_slash s = false ∧ s ≠ [].
Proof. intros [-> | ->]; repeat split; try done; repeat constructor; done. Qed.

(** A prefix that leads to a directory leads on through [.] and [..]. *)
Lemma resolve_dots v root nf r s f : ∀ n links rest,
  dots s → slash_end rest → c_chars rest → type (vn v r) = DT_DIR →
  resolve_loop f v root false n links rest = Some (inr r) →
  ∃ x, resolve_loop (f + 2) v root nf n links (rest ++ s) = Some x ∧ x ≠ inl (- E_NOENT).
Proof.
  induction f as [|f IH]; intros n links rest Hs Hend Hch Hr; [done|].
  destruct (dots_chars s Hs) as (Hsc & Hss & Hsn).
  change (S f + 2)%nat with (S (f + 2)). cbn [resolve_loop].
  destruct (skip_slashes_tail rest s Hend Hss) as [-> Hend']. pose proof (skip_slashes_chars rest Hch) as Hch'.
  destruct (skip_slashes rest) as [|c p].
  { case_if; [done|]. intros [= ->]. destruct (resolve_dots_here v root nf r links s Hr Hs) as [x Hx].
    exists (inr x). split; [|done]. cbn [app]. apply (resolve_fuel_mono _ _ _ _ _ (S (f + 2))) in Hx; [|lia].
    cbn [resolve_loop] in Hx. destruct s as [|y s]; [done|]. cbn [starts_slash] in Hss. cbn [skip_slashes] in Hx.
    by rewrite Hss in Hx. }
  destruct Hend' as [|Hend']; [done|]. destruct (split_component_tail (c :: p) s Hend') as [Esp Hend2].
  destruct (split_component_chars (c :: p) Hch') as [_ Hrest].
  change (((c :: p) ++ s)) with (c :: (p ++ s)) in *. rewrite Esp. destruct (split_component (c :: p)) as [name_ rest'].
  cbn [fst snd] in *. destruct (negb (type (vn v n) =? DT_DIR)); [done|].
  destruct (_ >=? NAME_LIMIT); [done|].
  destruct (equal name_ (chars ".")); [apply IH; try done; by right|].
  destruct (equal name_ (chars "..")); [apply IH; try done; by right|]. destruct (child v n name_ =? 0); [done|].
  set (next := cross v _). destruct (type (vn v next) =? DT_LNK); [|apply IH; try done; by right].
  cbn [andb]. rewrite (bool_decide_eq_false_2 (rest' ++ s = [])) by (by destruct rest'). rewrite andb_false_r.
  destruct (links + 1 >? 8); [done|]. destruct (Z.eqb_spec (size (vn v next)) 0); cbn [orb]; [done|].
  destruct (size (vn v next) + Z.of_nat (length rest') >=? PATH_LIMIT); [done|].
  destruct (size (vn v next) + Z.of_nat (length (rest' ++ s)) >=? PATH_LIMIT); [eauto|].
  set (bytes := bytes_at _ _ _). destruct (c_string_app bytes (rest' ++ s)) as [[E1 E2]|E].
  - rewrite E1. destruct (c_string_app bytes rest') as [[E3 _]|E3].
    2:{ specialize (E3 (rest' ++ s)). rewrite E1, E2 in E3. rewrite c_string_id in E3 by (by apply Forall_app).
        exfalso. assert (length (bytes ++ rest' ++ s) = length bytes) as El by (by rewrite E3). rewrite !length_app in El.
        destruct s; [done|]. cbn in El. lia. }
    rewrite E3, !c_string_id by (try apply Forall_app; done). rewrite app_assoc.
    assert (starts_slash ((bytes ++ rest') ++ s) = starts_slash (bytes ++ rest')) as ->.
    { destruct bytes; [|done]. destruct rest'; [done|done]. }
    apply IH; try done.
    + right. rewrite last_app. by rewrite Hend2.
    + apply Forall_app. split; [|done]. rewrite <- E2. apply c_string_chars.
  - rewrite !E. intros Hres. destruct (resolve_more v root nf r f (f + 2) _ _ _ Hres ltac:(lia)) as [Hx|Hx]; eauto.
Qed.

(** ** The last component *)

Lemma last_cut_spec p :
  slash_end (take (last_cut p) p) ∧ Forall (λ c, c ≠ SLASH) (drop (last_cut p) p) ∧ (last_cut p <= length p)%nat ∧
  (drop (last_cut p) p = [] → slash_end p).
Proof.
  induction p as [|c p (I1 & I2 & I3 & I4)]; [repeat split; [by left|constructor|cbn; lia|by left]|].
  cbn [last_cut]. destruct (last_cut p) as [|k] eqn:Ek.
  - cbn in I2, I4. destruct (Z.eqb_spec c SLASH) as [->|Hc]; cbn [take drop length].
    + repeat split; [by right|by destruct p|lia|]. intros E. destruct p; [by right|done].
    + repeat split; [by left|by constructor|lia|done].
  - cbn [take drop length] in *. destruct p as [|d p]; [cbn in I3; lia|].
    assert (∀ l : list Z, l ≠ [] → slash_end l → slash_end (c :: l)) as Hcons.
    { intros l Hl [|Hlast]; [done|]. right. by destruct l. }
    repeat split; [by apply Hcons|done|cbn in I3 |- *; lia|]. intros E. apply Hcons; [done|by apply I4].
Qed.

Lemma starts_slash_take k p : (0 < k)%nat → starts_slash (take k p) = starts_slash p.
Proof. destruct k, p; (done || lia). Qed.

(** Where an absent last component is to be created. *)
Definition create_parent (v : vfs) (root base : Z) (path : list Z) : option (Z + Z) :=
  if bool_decide (last_cut path = O) then Some (inr base) else vfs_resolve v root base (take (last_cut path) path) false.

Lemma absent_good_name v root base path nf parent_ :
  c_chars path → path ≠ [] → last path ≠ Some SLASH →
  Z.of_nat (length path) - Z.of_nat (last_cut path) < NAME_LIMIT → base ≠ 0 → root ≠ 0 →
  vfs_resolve v root base path nf = Some (inl (- E_NOENT)) →
  create_parent v root base path = Some (inr parent_) → type (vn v parent_) = DT_DIR →
  good_name (drop (last_cut path) path).
Proof.
  intros Hch Hne Hlast Hlen Hbase Hroot Hres Hpar Hdir. destruct (last_cut_spec path) as (C1 & C2 & C3 & C4).
  assert (drop (last_cut path) path ≠ []) as Hd by (intros E; by destruct (C4 E)).
  assert (¬ dots (drop (last_cut path) path)) as Hnd.
  { intros Hdots. unfold create_parent in Hpar. unfold vfs_resolve in Hres, Hpar.
    destruct path as [|c p] eqn:Ep; [done|]. rewrite <- Ep in *. clear Ep.
    destruct (Z.geb_spec (Z.of_nat (length path)) PATH_LIMIT); [done|]. set (start := if starts_slash path then root else base) in *.
    assert (start ≠ 0) as Hstart by (unfold start; by case_if). rewrite (proj2 (Z.eqb_neq _ _) Hstart) in Hres.
    assert (∃ f x, resolve_loop f v root nf start 0 path = Some x ∧ x ≠ inl (- E_NOENT)) as (f & x & Hx & Hnx).
    { destruct (bool_decide_reflect (last_cut path = 0%nat)) as [E0|E0].
      - rewrite E0 in Hdots. change (drop 0 path) with path in Hdots. injection Hpar as ->. destruct (dots_chars _ Hdots) as (_ & Hss & _).
        unfold start. rewrite Hss. destruct (resolve_dots_here v root nf parent_ 0 path Hdir Hdots) as [x Hx]. eauto.
      - pose proof (starts_slash_take (last_cut path) path ltac:(lia)) as Hst. destruct (take (last_cut path) path) as [|d q] eqn:Eq; [done|].
        rewrite <- Eq in *. destruct (_ >=? PATH_LIMIT); [done|]. rewrite Hst in Hpar. fold start in Hpar.
        rewrite (proj2 (Z.eqb_neq _ _) Hstart) in Hpar.
        destruct (resolve_dots v root nf parent_ _ _ _ _ _ Hdots C1 ltac:(by apply Forall_take) Hdir Hpar) as (x & Hx & Hnx).
        rewrite take_drop in Hx. eauto. }
    apply (resolve_fuel_mono _ _ _ _ _ (max f resolve_fuel)) in Hx, Hres; [|lia|lia]. rewrite Hx in Hres. by injection Hres. }
  split.
  - rewrite length_drop. destruct (drop (last_cut path) path) eqn:E; [done|].
    assert (length (drop (last_cut path) path) ≠ 0%nat) as Hl by (by rewrite E). rewrite length_drop in Hl. lia.
  - apply Forall_and. split; [by apply Forall_drop|done].
  - intros E. apply Hnd. by left.
  - intros E. apply Hnd. by right.
Qed.

(** * The invariant *)

(** Only the control registers differ. *)
Definition same_ram (s s' : kstate) : Prop :=
  mem s' = mem s ∧ free_list s' = free_list s ∧ free_pages s' = free_pages s ∧ total_pages s' = total_pages s.

#[export] Instance same_ram_equiv : Equivalence same_ram.
Proof.
  unfold same_ram. split; [by intros s|by intros s s' (? & ? & ? & ?)|].
  intros s1 s2 s3 (? & ? & ? & ?) (? & ? & ? & ?). repeat split; congruence.
Qed.

Lemma irq_save_ram s : same_ram s (irq_save s).2.
Proof. done. Qed.
Lemma irq_restore_ram flags_ s : same_ram s (irq_restore flags_ s).
Proof. unfold irq_restore. by case_if. Qed.
#[export] Hint Resolve irq_save_ram irq_restore_ram : core.

Section Invariant.
Context `{HeapContract} `{Backends}.
Context (U O : list Z) (lo hi : Z) (Hspan : hi - lo < 2 ^ 62).

Definition open_ok (v : vfs) (x : file) : Prop :=
  0 < references x < 2 ^ 64 ∧ 0 <= offset x <= INT64_MAX ∧ (ops x ≠ pipe_ops → is_node v (node x)).

Record vfs_ok (v : vfs) (L : gset Z) : Prop := {
  vk_store : ∃ F P, store_ok U O lo hi v F P L;
  vk_tree : tree_ok v;
  vk_readonly : readonly (mnt v 0) = true;
  vk_open : ∀ f, is_Some (files v !! f) → open_ok v (fl v f);
  vk_count : live_files v = u64 (Z.of_nat (base.size (files v)));
}.

Lemma store_ram v F P L s :
  same_ram (kern v) s → store_ok U O lo hi v F P L → store_ok U O lo hi (set_kern s v) F P L.
Proof.
  intros (E1 & E2 & E3 & E4) [S1 S2 S3 S4 S5 S6]. split; try done.
  apply (bare_frame U (kern v)); try done. cbn. by rewrite E1.
Qed.

Lemma vfs_ok_ram v L s : same_ram (kern v) s → vfs_ok v L → vfs_ok (set_kern s v) L.
Proof.
  intros Hs [(F & P & V1) V2 V3 V4 V5]. split; try done; [by exists F, P; apply store_ram|].
  by apply (tree_ok_proper v).
Qed.

(** Files whose contents can change have them in pages of their own. *)
Lemma writable_data v L n :
  vfs_ok v L → is_node v n → readonly (mnt v (vmount (vn v n))) = false → data (vn v n) = 0.
Proof.
  intros Hv Hn Hro. destruct (decide (data (vn v n) = 0)) as [|Hd]; [done|]. exfalso.
  destruct (vk_store v L Hv) as (F & P & Hs). destruct (no_data _ _ _ (so_node _ _ _ _ _ _ _ _ Hs n Hn) Hd) as (_ & _ & _ & E).
  rewrite E, (vk_readonly v L Hv) in Hro. done.
Qed.

(** What belongs to others is left alone, and so are the pipes. *)
Definition steady (v v' : vfs) : Prop :=
  kept U O (mem (kern v)) (mem (kern v')) ∧ pipes v' = pipes v ∧ woken v' = woken v.

Lemma steady_refl v : steady v v.
Proof. split; [apply kept_refl|done]. Qed.

Lemma steady_trans v1 v2 v3 : steady v1 v2 → steady v2 v3 → steady v1 v3.
Proof.
  intros (K1 & P1 & W1) (K2 & P2 & W2). split; [by eapply kept_trans|]. split; congruence.
Qed.

Lemma steady_kern v s : same_ram (kern v) s → steady v (set_kern s v).
Proof. intros (E & _). split; [|done]. cbn. rewrite E. apply kept_refl. Qed.

Lemma steady_more Q v v' :
  kept U (Q ++ O) (mem (kern v)) (mem (kern v')) → pipes v' = pipes v ∧ woken v' = woken v → steady v v'.
Proof. intros Hk Hp. split; [|done]. eapply kept_sub; [|exact Hk]. intros p Hin. apply elem_of_app. by right. Qed.

(** ** A new open file *)

Definition with_file (f : Z) (x : file) (v : vfs) : vfs := set_files (<[f := x]> (files v)) v.

Lemma file_new_spec v F P L ops_ flags_ f v' :
  store_ok U O lo hi v F P L → file_new ops_ flags_ v = (f, v') →
  (f = 0 ∧ ∃ s F' P', v' = set_kern s v ∧ store_ok U O lo hi v' F' P' L ∧
    kept U (block_pages v ++ O) (mem (kern v)) (mem s)) ∨
  (f ≠ 0 ∧ f ∉ L ∧ ∃ s F' P', v' = set_kern s (set_live_files (u64 (live_files v + 1)) (with_file f (mk_file ops_ 0 0 0 1 flags_) v)) ∧
    store_ok U O lo hi v' F' P' ({[f]} ∪ L) ∧ kept U (block_pages v ++ O) (mem (kern v)) (mem s)).
Proof.
  intros Hs. pose proof Hs as [S1 S2 S3 S4 S5 S6]. unfold file_new.
  destruct (bare_kmalloc _ _ _ _ _ _ SIZEOF_FILE S1 ltac:(lia)) as (o & s & F' & P' & -> & Hb & Hnew & Hk). revert Hb.
  destruct (Z.eqb_spec o 0) as [->|Ho]; intros Hb.
  { intros [= <- <-]. left. split; [done|]. exists s, F', P'. by split; [|split]. }
  specialize (Hnew Ho). unfold irq_save. cbv zeta. intros [= <- <-]. right. split; [done|]. split; [done|].
  eexists _, F', P'. split; [reflexivity|].
  pose proof (irq_restore_ram (sstatus s) (csr_clear_sstatus SSTATUS_SIE s)) as (R1 & R2 & R3 & R4).
  split; [|cbn; by rewrite R1]. split; try done.
  - cbn. apply (bare_frame U s); try done. by rewrite R1.
  - intros n Hn. apply elem_of_union. right. by apply S4.
  - intros g. cbn. rewrite lookup_insert_is_Some'. intros [<-|Hg].
    + split; [set_solver|]. intros Hn. by apply Hnew, S4.
    + destruct (S5 g Hg). split; [set_solver|done].
Qed.

(** ** Taking a new vnode back *)

Lemma vn_absent v x : ¬ is_node v x → vn v x = inhabitant.
Proof. unfold is_node, vn. intros Hx%eq_None_not_Some. by rewrite lookup_total_alt, Hx. Qed.

Lemma block_pages_grown v v1 p n fresh :
  (∀ x, x ∈ nodes v → is_node v x) → grown v v1 p n fresh → node_pages fresh = [] → block_pages v1 = block_pages v.
Proof.
  intros Hdom Hg Hf. rewrite (block_pages_app v1 _ _ (gr_nodes _ _ _ _ _ Hg)), (gr_new _ _ _ _ _ Hg), Hf, app_nil_r.
  apply mbind_ext_in. intros x Hx%Hdom. rewrite (gr_old _ _ _ _ _ Hg x Hx). by destruct (decide (x = p)).
Qed.

Lemma remove_node_vn v v1 p n fresh :
  tree_ok v → grown v v1 p n fresh → is_node v p → parent fresh = p →
  (∀ x, vn (remove_node n v1) x = vn v x) ∧ (∀ x, is_node (remove_node n v1) x ↔ is_node v x).
Proof.
  intros Ht Hg Hp Hfp. pose proof (gr_fresh _ _ _ _ _ Hg) as Hfresh. pose proof (gr_dom _ _ _ _ _ Hg) as Hdom.
  unfold remove_node. rewrite (gr_new _ _ _ _ _ Hg), Hfp. cbv zeta.
  set (v2 := update_vnode _ p _).
  assert (∀ x, is_node v2 x ↔ is_node v1 x) as Hd2 by (intros x; apply (is_node_update _ p (set_nodes _ v1)), Hdom; by right).
  assert (∀ x, is_node (set_kern (kfree n (kern v2)) (set_vnodes (delete n (vnodes v2)) v2)) x ↔ is_node v x) as Hd.
  { intros x. change (is_Some (delete n (vnodes v2) !! x) ↔ is_node v x). rewrite lookup_delete_is_Some. change (is_Some (vnodes v2 !! x)) with (is_node v2 x).
    rewrite Hd2, Hdom. naive_solver. }
  split; [|done]. intros x. destruct (decide (is_node v x)) as [Hx|Hx].
  2:{ rewrite (vn_absent v x Hx). apply vn_absent. by rewrite Hd. }
  assert (x ≠ n) as Hxn by (by intros ->).
  change (delete n (vnodes v2) !!! x = vn v x). rewrite lookup_total_delete_ne by done.
  change (vnodes v2 !!! x) with (vn v2 x). unfold v2. rewrite vn_update.
  change (vn (set_nodes _ v1)) with (vn v1). case_decide as Hxp.
  - subst x. rewrite (gr_old _ _ _ _ _ Hg p Hp), decide_True by done. cbn [children with_children].
    rewrite filter_app, filter_all_kept. 2:{ intros y Hy ->. apply Hfresh. by destruct (to_children v Ht p n Hp Hy) as (_ & ? & _). }
    rewrite filter_cons, decide_False by (intros Hn; by apply Hn). cbn. rewrite app_nil_r. by destruct (vn v p).
  - by rewrite (gr_old _ _ _ _ _ Hg x Hx), decide_False.
Qed.

Lemma remove_node_spec v v1 p n fresh F0 P0 F P L :
  tree_ok v → store_ok U O lo hi v F0 P0 L → grown v v1 p n fresh → is_node v p → parent fresh = p →
  node_pages fresh = [] → n ∉ L → files v1 = files v → store_ok U O lo hi v1 F P ({[n]} ∪ L) →
  let v' := remove_node n v1 in
  same_tree v v' ∧ nodes v' = nodes v ∧ (∀ x, vn v' x = vn v x) ∧ files v' = files v ∧ live_files v' = live_files v1 ∧
  ∃ F' P', store_ok U O lo hi v' F' P' L ∧ kept U (block_pages v ++ O) (mem (kern v1)) (mem (kern v')).
Proof.
  intros Ht Hs Hg Hp Hfp Hpg HnL Hf Hs1 v'.
  destruct (remove_node_vn v v1 p n fresh Ht Hg Hp Hfp) as [Hvn Hd]. fold v' in Hvn, Hd.
  assert (nodes v' = nodes v) as Hnodes.
  { unfold v', remove_node. cbn. rewrite (gr_nodes _ _ _ _ _ Hg), filter_app, filter_all_kept.
    - rewrite filter_cons, decide_False by (intros Hn; by apply Hn). cbn. by rewrite app_nil_r.
    - intros x Hx ->. apply (gr_fresh _ _ _ _ _ Hg). by apply (so_dom _ _ _ _ _ _ _ _ Hs). }
  split; [|split; [done|split; [done|split; [done|split; [done|]]]]].
  { split; [done|]. split; [intros x; by rewrite Hvn|]. apply Hg. }
  pose proof (so_bare _ _ _ _ _ _ _ _ Hs1) as Hb1.
  rewrite (block_pages_grown v v1 p n fresh) in Hb1 by (done || apply (so_dom _ _ _ _ _ _ _ _ Hs)).
  destruct (bare_kfree _ _ _ _ _ _ n Hb1 ltac:(set_solver)) as (F' & P' & Hb' & Hk).
  replace (({[n]} ∪ L) ∖ {[n]}) with L in Hb' by set_solver. exists F', P'. split; [|exact Hk].
  destruct Hs as [S1 S2 S3 S4 S5 S6]. split.
  - by rewrite (block_pages_ext v v') by (done || (intros; by rewrite Hvn)).
  - by rewrite Hnodes.
  - intros x. by rewrite Hnodes, Hd.
  - intros x Hx%Hd. by apply S4.
  - intros x. change (files v') with (files v1). rewrite Hf, Hd. apply S5.
  - intros x Hx%Hd. rewrite Hvn. by apply S6.
Qed.

(** ** [vfs_openat] *)

Lemma resolve_loop_error v root nf f : ∀ n links rest e,
  resolve_loop f v root nf n links rest = Some (inl e) → e < 0.
Proof.
  induction f as [|f IH]; intros n links rest e; [done|]. cbn [resolve_loop].
  destruct (skip_slashes rest) as [|c p]; [case_if; [by intros [= <-]|done]|].
  destruct (negb (type (vn v n) =? DT_DIR)); [by intros [= <-]|]. destruct (split_component (c :: p)) as [name_ rest'].
  destruct (_ >=? NAME_LIMIT); [by intros [= <-]|]. destruct (equal name_ (chars ".")); [apply IH|].
  destruct (equal name_ (chars "..")); [apply IH|]. destruct (child v n name_ =? 0); [by intros [= <-]|].
  set (next := cross v _). destruct (type (vn v next) =? DT_LNK); [|apply IH].
  destruct (nf && _); [by intros [= <-]|]. destruct (_ >? 8); [by intros [= <-]|].
  destruct (_ || _); [by intros [= <-]|]. apply IH.
Qed.

Lemma resolve_error v root base path nf e : vfs_resolve v root base path nf = Some (inl e) → e < 0.
Proof.
  unfold vfs_resolve. destruct path; [by intros [= <-]|]. case_if; [by intros [= <-]|].
  case_if; [by intros [= <-]|]. apply resolve_loop_error.
Qed.

Lemma resolve_within v root base path nf n :
  tree_ok v → is_node v root → within v root base → vfs_resolve v root base path nf = Some (inr n) → within v root n.
Proof.
  intros Ht Hr Hb. unfold vfs_resolve. destruct path; [done|]. case_if; [done|]. case_if; [done|].
  apply resolve_within_loop; try done. case_if; [constructor|done].
Qed.

(** What [O_CREAT] has made. *)
Record fresh_file (v v1 : vfs) (root n : Z) (L : gset Z) : Prop := {
  ff_null : n ≠ 0;
  ff_live : n ∉ L;
  ff_tables : files v1 = files v ∧ live_files v1 = live_files v;
  ff_store : ∃ F P, store_ok U O lo hi v1 F P ({[n]} ∪ L);
  ff_steady : steady v v1;
  ff_grown : ∃ p nm, within v root p ∧ type (vn v p) = DT_DIR ∧ readonly (mnt v (vmount (vn v p))) = false ∧
    good_name nm ∧ child v p nm = 0 ∧ grown v v1 p n (fresh_node p nm DT_REG (vmount (vn v p)) (next_inode v));
}.

Lemma new_node_pipes p nm ty m v n v1 : new_node p nm ty m v = (n, v1) → pipes v1 = pipes v ∧ woken v1 = woken v.
Proof. unfold new_node. destruct (kmalloc _ _) as [o s]. case_if; [by intros [= <- <-]|]. case_if; by intros [= <- <-]. Qed.

Lemma open_create_spec v L root base path nf :
  vfs_ok v L → is_node v root → within v root base → c_chars path →
  vfs_resolve v root base path nf = Some (inl (- E_NOENT)) →
  ∃ r v1, open_create root base path v = Some (r, v1) ∧
    match r with
    | inl e => e < 0 ∧ (∃ s, v1 = set_kern s v) ∧ vfs_ok v1 L ∧ steady v v1
    | inr n => fresh_file v v1 root n L
    end.
Proof.
  intros Hv Hroot Hbase Hch Hres. pose proof (vk_tree v L Hv) as Ht. unfold open_create.
  pose proof (within_node _ _ _ Hbase Hroot) as Hbn.
  assert (∀ x, is_node v x → x ≠ 0) as Hnz by (intros x Hx ->; by apply (to_null v Ht)).
  assert (∀ e, e < 0 → ∃ r v1, Some (inl e : Z + Z, v) = Some (r, v1) ∧ match r with
    | inl e => e < 0 ∧ (∃ s, v1 = set_kern s v) ∧ vfs_ok v1 L ∧ steady v v1 | inr n => fresh_file v v1 root n L end) as Herr.
  { intros e He. exists (inl e), v. split; [done|]. split; [done|]. split; [exists (kern v); by destruct v|]. split; [done|by apply steady_refl]. }
  destruct (Z.eqb_spec (Z.of_nat (length path)) 0) as [|Hl0]; [by apply Herr|].
  destruct (Z.geb_spec (Z.of_nat (length path)) PATH_LIMIT); [by apply Herr|].
  destruct (bool_decide_reflect (last path = Some SLASH)) as [|Hlast]; [by apply Herr|]. cbn [orb].
  destruct (Z.geb_spec (Z.of_nat (length path) - Z.of_nat (last_cut path)) NAME_LIMIT); [by apply Herr|].
  fold (create_parent v root base path).
  assert (∃ r, create_parent v root base path = Some r) as [r Hpar].
  { unfold create_parent. case_if; [eauto|]. apply resolve_returns. }
  rewrite Hpar. destruct r as [e|p].
  { apply Herr. unfold create_parent in Hpar. revert Hpar. case_if; [done|]. apply resolve_error. }
  assert (within v root p) as Hp.
  { unfold create_parent in Hpar. revert Hpar. case_if; [by intros [= <-]|]. by apply resolve_within. }
  destruct (Z.eqb_spec (type (vn v p)) DT_DIR) as [Hdir|]; cbn [negb]; [|by apply Herr].
  destruct (readonly _) eqn:Hro; [by apply Herr|].
  destruct (Z.eqb_spec (child v p (drop (last_cut path) path)) 0) as [Hc|]; cbn [negb]; [|by apply Herr].
  assert (good_name (drop (last_cut path) path)) as Hgood.
  { apply (absent_good_name v root base path nf p); try done; try (by apply Hnz). by destruct path. }
  destruct (vk_store v L Hv) as (F & P & Hs). pose proof (within_node _ _ _ Hp Hroot) as Hpn.
  destruct (new_node _ _ _ _ v) as [n v1] eqn:En.
  pose proof (new_node_pipes _ _ _ _ _ _ _ En) as Hpipes.
  destruct (new_node_spec _ _ _ _ _ _ _ _ _ _ _ _ _ _ Hs ltac:(done) En)
    as [(-> & s & F' & P' & -> & Hs' & Hk)|(Hn & HnL & Htab & Hg & Hk & F' & P' & Hs')].
  - cbn [Z.eqb]. eexists _, _. split; [reflexivity|]. split; [done|]. split; [eauto|].
    split; [|by eapply steady_more]. destruct Hv as [V1 V2 V3 V4 V5]. split; try done; [eauto|]. by apply (tree_ok_proper v).
  - rewrite (proj2 (Z.eqb_neq _ _) Hn). eexists _, _. split; [reflexivity|].
    rewrite decide_False in Hg by (by apply Hnz). split; try done; [eauto|by eapply steady_more|]. eauto 10.
Qed.

Lemma up_grown v v1 p n fresh x :
  tree_ok v → grown v v1 p n fresh → is_node v x → up v1 x = up v x.
Proof.
  intros Ht Hg Hx. destruct (grown_fields _ _ _ _ _ x Hg Hx) as (Ep & Em & _). unfold up.
  rewrite Ep, Em, (grown_mnt _ _ _ _ _ _ Hg). destruct (Z.eqb_spec (covered (mnt v (vmount (vn v x)))) 0) as [E|E].
  - by rewrite andb_false_r.
  - destruct (to_covered v Ht _ E) as (Hc & _). by destruct (grown_fields _ _ _ _ _ _ Hg Hc) as (-> & _).
Qed.

Lemma within_grown v v1 p n fresh root x :
  tree_ok v → is_node v root → grown v v1 p n fresh → within v root x → within v1 root x.
Proof.
  intros Ht Hr Hg. induction 1 as [|x Hne Hn Hm Hw IH]; [constructor|].
  apply within_up; [done| | |by rewrite (up_grown _ _ _ _ _ _ Ht Hg Hn)].
  - apply (gr_dom _ _ _ _ _ Hg). by right.
  - by destruct (grown_fields _ _ _ _ _ x Hg Hn) as (_ & _ & -> & _).
Qed.

Lemma up_same v v' x : same_tree v v' → up v' x = up v x.
Proof.
  intros (Hd & Hs & Hm). assert (∀ y, parent (vn v' y) = parent (vn v y) ∧ vmount (vn v' y) = vmount (vn v y)) as Hf.
  { intros y. specialize (Hs y). unfold shape in Hs. split; congruence. }
  unfold up, mnt. rewrite Hm. destruct (Hf x) as [-> ->]. by destruct (Hf (covered (nth (vmount (vn v x)) (mounts v) no_mount))) as [-> _].
Qed.

Lemma within_same v v' root x : same_tree v v' → within v root x → within v' root x.
Proof.
  intros Hs. induction 1 as [|x Hne Hn Hm Hw IH]; [constructor|]. apply within_up; [done| | |by rewrite (up_same v v')].
  - by apply Hs.
  - destruct Hs as (_ & Hs & _). specialize (Hs x). unfold shape in Hs. congruence.
Qed.

(** The created vnode, in a file system that is as good as before. *)
Lemma fresh_file_ok v v1 root n L :
  vfs_ok v L → is_node v root → fresh_file v v1 root n L →
  vfs_ok v1 ({[n]} ∪ L) ∧ is_node v1 n ∧ within v1 root n ∧ size (vn v1 n) = 0 ∧ n ≠ 0.
Proof.
  intros [V1 Ht V3 V4 V5] Hr [Hn HnL [Hf Hlf] Hs _ (p & nm & Hp & Hdir & Hro & Hnm & Hc & Hg)].
  pose proof (within_node _ _ _ Hp Hr) as Hpn.
  assert (tree_ok v1) as Ht1 by (by apply (tree_grow v v1 p n _ Ht Hg)).
  assert (is_node v1 n) as Hnn by (apply (gr_dom _ _ _ _ _ Hg); by left).
  split; [|split; [done|split; [|split; [by rewrite (gr_new _ _ _ _ _ Hg)|done]]]].
  - split; try done; [by rewrite (grown_mnt _ _ _ _ _ _ Hg)| |by rewrite Hf, Hlf].
    intros f. rewrite Hf. intros Hfs. unfold fl. rewrite Hf. destruct (V4 f Hfs) as (O1 & O2 & O3).
    split; [done|]. split; [done|]. intros Ho. apply (gr_dom _ _ _ _ _ Hg). right. by apply O3.
  - assert (n ≠ root) as Hnr by (intros ->; by apply (gr_fresh _ _ _ _ _ Hg)).
    apply within_up; [done|done|by rewrite (gr_new _ _ _ _ _ Hg)|].
    replace (up v1 n) with p; [exact (within_grown v v1 p n _ root p Ht Hr Hg Hp)|].
    unfold up. rewrite (gr_new _ _ _ _ _ Hg). cbn [parent vmount fresh_node]. rewrite (grown_mnt _ _ _ _ _ _ Hg).
    destruct (Z.eqb_spec (mroot (mnt v (vmount (vn v p)))) n) as [E|]; [|done]. exfalso.
    apply (gr_fresh _ _ _ _ _ Hg). rewrite <- E. by apply (to_mroot v Ht).
Qed.

Lemma vfs_ok_node v L n g F' P' :
  vfs_ok v L → is_node v n → shape (g (vn v n)) = shape (vn v n) →
  store_ok U O lo hi (update_vnode g n v) F' P' L → vfs_ok (update_vnode g n v) L.
Proof.
  intros [V1 Ht V3 V4 V5] Hn Hg Hs. split; try done; [eauto| |].
  - apply (tree_ok_proper v); [|done]. split; [intros x; by apply is_node_update|].
    split; [|done]. intros x. rewrite vn_update. by case_decide as Hx; [rewrite Hx|].
  - intros f Hf. destruct (V4 f Hf) as (O1 & O2 & O3). split; [done|]. split; [done|]. intros Ho.
    apply is_node_update; [done|]. by apply O3.
Qed.

Lemma truncate_spec v L n :
  vfs_ok v L → is_node v n →
  vfs_ok (truncate n v) L ∧ same_tree v (truncate n v) ∧ size (vn (truncate n v) n) = 0 ∧
  files (truncate n v) = files v ∧ kept U (other_pages v n ++ O) (mem (kern v)) (mem (kern (truncate n v))).
Proof.
  intros Hv Hn. destruct (vk_store v L Hv) as (F & P & Hs).
  pose proof (store_split _ _ _ _ _ _ _ _ _ Hs Hn) as Hb. destruct (free_blocks_spec U _ _ _ _ _ _ Hb) as (F' & Hb' & Hk).
  unfold truncate. set (s := free_blocks _ _) in *. set (g := λ x, with_size 0 _). set (v1 := set_kern s v).
  assert (vn (update_vnode g n v1) n = g (vn v n)) as Evn by (by rewrite vn_update, decide_True).
  assert (same_tree v (update_vnode g n v1)) as Hsame.
  { split; [intros x; by apply (is_node_update g n v1)|]. split; [|done]. intros x. rewrite vn_update.
    by case_decide as Hx; [rewrite Hx|]. }
  assert (store_ok U O lo hi (update_vnode g n v1) F' P L) as Hs'.
  { apply (store_update U O lo hi v _ F P L F' n); try done.
    - apply Hsame.
    - intros x Hx. by rewrite vn_update, decide_False.
    - rewrite Evn. destruct (so_node _ _ _ _ _ _ _ _ Hs n Hn) as [N1 N2 N3 N4]. split; cbn; try done.
      intros Hd. destruct (N4 Hd) as (? & ? & ? & ?). repeat split; (done || lia).
    - rewrite Evn. done. }
  split; [|split; [done|split; [by rewrite Evn|split; [done|exact Hk]]]].
  destruct Hv as [_ Ht V3 V4 V5]. split; try done; [eauto|by apply (tree_ok_proper v)|].
  intros f Hf. destruct (V4 f Hf) as (O1 & O2 & O3). split; [done|]. split; [done|]. intros Ho.
  apply Hsame. by apply O3.
Qed.

(** A file description for the vnode [n]. *)
Lemma opened_ok v L n f ops_ flags_ s F P :
  vfs_ok v L → is_node v n → f ∉ L →
  store_ok U O lo hi (set_kern s (set_live_files (u64 (live_files v + 1)) (with_file f (mk_file ops_ 0 0 0 1 flags_) v)))
    F P ({[f]} ∪ L) →
  let v' := update_file (with_node n) f
              (set_kern s (set_live_files (u64 (live_files v + 1)) (with_file f (mk_file ops_ 0 0 0 1 flags_) v))) in
  vfs_ok v' ({[f]} ∪ L) ∧ files v' = <[f := mk_file ops_ n 0 0 1 flags_]> (files v) ∧ same_tree v v'.
Proof.
  intros Hv Hn HfL Hs v'. destruct Hv as [(F0 & P0 & Hs0) Ht V3 V4 V5].
  assert (files v !! f = None) as Hnone.
  { apply eq_None_not_Some. intros Hf. by apply HfL, (so_files _ _ _ _ _ _ _ _ Hs0). }
  assert (files v' = <[f := mk_file ops_ n 0 0 1 flags_]> (files v)) as Ef.
  { unfold v', update_file, fl. cbn. by rewrite lookup_total_insert_eq, insert_insert_eq. }
  assert (same_tree v v') as Hsame by done. split; [|by split]. split; try done.
  - exists F, P. destruct Hs as [S1 S2 S3 S4 S5 S6]. split; try done.
    intros x. rewrite Ef, lookup_insert_is_Some'. intros [<-|Hx]; apply S5; cbn; rewrite lookup_insert_is_Some'; auto.
  - by apply (tree_ok_proper v).
  - intros x. unfold fl. rewrite Ef, lookup_insert_is_Some'. destruct (decide (x = f)) as [->|Hx].
    + intros _. rewrite lookup_total_insert_eq. split; cbn; [lia|]. split; [lia|done].
    + intros [?|Hs']; [done|]. rewrite lookup_total_insert_ne by done. by apply V4.
  - rewrite Ef. cbn. rewrite V5, map_size_insert_None by done. unfold u64. rewrite Zplus_mod_idemp_l. f_equal. lia.
Qed.

Definition opened (v v' : vfs) (n f flags_ : Z) (L : gset Z) : Prop :=
  f ≠ 0 ∧ f ∉ L ∧ vfs_ok v' ({[f]} ∪ L) ∧ same_tree v v' ∧
  files v' = <[f := mk_file (if type (vn v n) =? DT_CHR then device_ops else regular_ops) n 0 0 1 flags_]> (files v) ∧
  (Z.land flags_ O_TRUNC ≠ 0 → size (vn v' n) = 0) ∧ steady v v'.

Lemma open_error_sign n flags_ v : open_error n flags_ v <= 0.
Proof. unfold open_error. repeat case_if; lia. Qed.

Lemma open_node_spec v L n flags_ e f v' :
  vfs_ok v L → is_node v n → open_node n false flags_ v = (e, f, v') →
  (e < 0 ∧ f = 0 ∧ (∃ s F P, v' = set_kern s v ∧ store_ok U O lo hi v' F P L ∧ steady v v')) ∨
  (e = 0 ∧ opened v v' n f flags_ L).
Proof.
  intros Hv Hn. unfold open_node. pose proof (open_error_sign n flags_ v) as Hsign.
  destruct (vk_store v L Hv) as (F & P & Hs).
  destruct (Z.eqb_spec (open_error n flags_ v) 0) as [_|Hne]; cbn [negb].
  2:{ intros [= <- <- <-]. left. split; [lia|]. split; [done|]. exists (kern v), F, P.
      split; [by destruct v|]. split; [done|apply steady_refl]. }
  destruct (file_new _ _ v) as [g v1] eqn:Ef.
  destruct (file_new_spec _ _ _ _ _ _ _ _ Hs Ef)
    as [(-> & s & F' & P' & -> & Hs' & Hk)|(Hg & HgL & s & F' & P' & -> & Hs' & Hk)].
  { cbn [Z.eqb]. intros [= <- <- <-]. left. split; [lia|]. split; [done|]. exists s, F', P'.
    split; [done|]. split; [done|by eapply steady_more]. }
  rewrite (proj2 (Z.eqb_neq _ _) Hg). destruct (opened_ok v L n g _ _ s F' P' Hv Hn HgL Hs') as (Hok & Hfiles & Hsame).
  set (v2 := update_file _ g _) in *. intros [= <- <- <-]. right. split; [done|]. split; [done|]. split; [done|].
  assert (is_node v2 n) as Hn2 by (by apply Hsame).
  assert (steady v v2) as Hst by (by eapply (steady_more (block_pages v))).
  destruct (Z.eqb_spec (Z.land flags_ O_TRUNC) 0) as [Ht|Ht]; cbn [negb]; [by repeat (split; [done|])|].
  destruct (truncate_spec v2 _ n Hok Hn2) as (T1 & T2 & T3 & T4 & T5). split; [done|].
  split; [by transitivity v2|]. split; [by rewrite T4|]. split; [done|].
  apply (steady_trans v v2); [done|]. by eapply steady_more.
Qed.

(** The rollback takes a created vnode out again. *)
Lemma open_node_created n flags_ v :
  open_node n true flags_ v =
  let '(e, f, v') := open_node n false flags_ v in (e, f, if f =? 0 then remove_node n v' else v').
Proof.
  unfold open_node. destruct (negb _); [done|]. destruct (file_new _ _ v) as [g v1].
  destruct (Z.eqb_spec g 0); [done|]. rewrite (proj2 (Z.eqb_neq g 0)) by done. done.
Qed.

Lemma vfs_ok_store v s L F P :
  vfs_ok v L → store_ok U O lo hi (set_kern s v) F P L → vfs_ok (set_kern s v) L.
Proof. intros [V1 V2 V3 V4 V5] Hs. split; try done; [eauto|by apply (tree_ok_proper v)]. Qed.

Lemma same_tree_shape v v' n : same_tree v v' → shape (vn v' n) = shape (vn v n).
Proof. intros (_ & Hs & _). apply Hs. Qed.

Lemma same_tree_type v v' n : same_tree v v' → type (vn v' n) = type (vn v n).
Proof. intros Hs%(same_tree_shape _ _ n). unfold shape in Hs. congruence. Qed.

(** The outcome of an open: nothing has changed, or there is one more open file, of
    a vnode inside the root that was there or is new. *)
Definition open_failed (v v' : vfs) (L : gset Z) : Prop :=
  vfs_ok v' L ∧ same_tree v v' ∧ nodes v' = nodes v ∧ (∀ n, vn v' n = vn v n) ∧ files v' = files v ∧
  steady v v'.

(** The vnodes that were there are where they were. *)
Definition stays (v v' : vfs) (root : Z) : Prop :=
  (∀ x, is_node v x → is_node v' x ∧ type (vn v' x) = type (vn v x)) ∧ ∀ x, within v root x → within v' root x.

Lemma stays_same v v' root : same_tree v v' → stays v v' root.
Proof.
  intros Hs. split; [|intros x; by apply within_same]. intros x Hx. split; [by apply Hs|by apply same_tree_type].
Qed.

Lemma stays_trans v1 v2 v3 root : stays v1 v2 root → stays v2 v3 root → stays v1 v3 root.
Proof.
  intros [N1 W1] [N2 W2]. split; [|auto]. intros x Hx. destruct (N1 x Hx) as [Hx' <-]. by apply N2.
Qed.

Definition open_done (v v' : vfs) (root f flags_ : Z) (L : gset Z) : Prop :=
  ∃ n L', f ≠ 0 ∧ f ∉ L ∧ vfs_ok v' L' ∧ is_node v' n ∧ within v' root n ∧ stays v v' root ∧
    files v' = <[f := mk_file (if type (vn v' n) =? DT_CHR then device_ops else regular_ops) n 0 0 1 flags_]> (files v) ∧
    (Z.land flags_ O_TRUNC ≠ 0 → size (vn v' n) = 0) ∧ steady v v' ∧
    ((is_node v n ∧ same_tree v v' ∧ L' = {[f]} ∪ L) ∨
     (Z.land flags_ O_CREAT ≠ 0 ∧ n ∉ L ∧ L' = {[f]} ∪ ({[n]} ∪ L) ∧ type (vn v' n) = DT_REG ∧
      ∀ x, is_node v' x ↔ x = n ∨ is_node v x)).

Lemma open_existing v L root n flags_ :
  vfs_ok v L → is_node v n → within v root n →
  ∃ e f v', open_node n false flags_ v = (e, f, v') ∧
    ((e < 0 ∧ f = 0 ∧ open_failed v v' L) ∨ (e = 0 ∧ open_done v v' root f flags_ L)).
Proof.
  intros Hv Hn Hw. destruct (open_node n false flags_ v) as [[e f] v'] eqn:E. exists e, f, v'. split; [done|].
  destruct (open_node_spec v L n flags_ e f v' Hv Hn E) as [(He & Hf & s & F & P & -> & Hs & Hst)|(He & H1' & H2 & H3 & H4 & H5 & H6 & H7)].
  - left. split; [done|]. split; [done|]. split; [by eapply vfs_ok_store|]. done.
  - right. split; [done|]. exists n, ({[f]} ∪ L). rewrite (same_tree_type _ _ n H4).
    do 3 (split; [done|]). split; [by apply H4|]. split; [by eapply within_same|]. split; [by apply stays_same|].
    split; [done|]. split; [done|]. split; [done|]. by left.
Qed.

Lemma open_created v v1 L root n flags_ :
  vfs_ok v L → is_node v root → fresh_file v v1 root n L → Z.land flags_ O_CREAT ≠ 0 →
  ∃ e f v', open_node n true flags_ v1 = (e, f, v') ∧
    ((e < 0 ∧ f = 0 ∧ open_failed v v' L) ∨ (e = 0 ∧ open_done v v' root f flags_ L)).
Proof.
  intros Hv Hr Hff Hcr. destruct (fresh_file_ok v v1 root n L Hv Hr Hff) as (Hv1 & Hn & Hw & Hsz & Hn0).
  rewrite open_node_created. destruct (open_node n false flags_ v1) as [[e f] v'] eqn:E.
  destruct Hff as [_ HnL [Hf Hlf] _ Hst1 (p & nm & Hp & Hdir & Hro & Hnm & Hc & Hg)].
  pose proof (gr_dom _ _ _ _ _ Hg) as Hdom.
  destruct (open_node_spec v1 _ n flags_ e f v' Hv1 Hn E) as [(He & -> & s & F & P & -> & Hs & Hst2)|(He & H1' & H2 & H3 & H4 & H5 & H6 & H7)].
  - destruct (vk_store v L Hv) as (F0 & P0 & Hs0).
    assert (grown v (set_kern s v1) p n (fresh_node p nm DT_REG (vmount (vn v p)) (next_inode v))) as Hg' by (by destruct Hg).
    destruct (remove_node_spec v (set_kern s v1) p n _ F0 P0 F P L (vk_tree v L Hv) Hs0 Hg' (within_node _ _ _ Hp Hr))
      as (R1 & R2 & R3 & R4 & R5 & F' & P' & R6 & R7); try done.
    assert (steady v (remove_node n (set_kern s v1))) as Hst.
    { apply (steady_trans v v1); [done|]. apply (steady_trans v1 (set_kern s v1)); [done|]. by eapply steady_more. }
    cbn [Z.eqb]. eexists _, _, _. split; [reflexivity|]. left. split; [done|]. split; [done|].
    split; [|done]. destruct Hv as [V1 V2 V3 V4 V5]. split.
    + eauto.
    + by apply (tree_ok_proper v).
    + destruct R1 as (_ & _ & R1). unfold mnt. by rewrite R1.
    + intros g. unfold fl. rewrite R4. intros Hgs. destruct (V4 g Hgs) as (O1 & O2 & O3).
      split; [done|]. split; [done|]. intros Ho. apply R1. by apply O3.
    + by rewrite R4, R5, <- V5.
  - rewrite (proj2 (Z.eqb_neq _ _) H1'). eexists _, _, _. split; [reflexivity|]. right. split; [done|].
    assert (type (vn v' n) = DT_REG) as Hty by (rewrite (same_tree_type _ _ n H4); by rewrite (gr_new _ _ _ _ _ Hg)).
    exists n, ({[f]} ∪ ({[n]} ∪ L)). split; [done|]. split; [set_solver|]. split; [done|]. split; [by apply H4|].
    split; [by eapply within_same|]. split.
    { apply (stays_trans v v1); [|by apply stays_same]. split.
      - intros x Hx. split; [apply Hdom; by right|]. by destruct (grown_fields _ _ _ _ _ x Hg Hx) as (_ & _ & _ & _ & ->).
      - intros x. by apply (within_grown v v1 p n _ root x (vk_tree v L Hv) Hr Hg). }
    split; [|split; [done|split; [by apply (steady_trans v v1)|]]].
    + rewrite H5, Hf, Hty. by rewrite (gr_new _ _ _ _ _ Hg).
    + right. split; [done|]. split; [done|]. split; [done|]. split; [done|].
      intros x. destruct H4 as (-> & _). by rewrite Hdom.
Qed.

Lemma open_target_spec v L root base path flags_ :
  vfs_ok v L → is_node v root → within v root base → c_chars path →
  ∃ r created v1, open_target root base path flags_ v = Some (r, created, v1) ∧
    match r with
    | inl e => e < 0 ∧ (∃ s, v1 = set_kern s v) ∧ vfs_ok v1 L ∧ steady v v1
    | inr n => if created then fresh_file v v1 root n L ∧ Z.land flags_ O_CREAT ≠ 0
               else v1 = v ∧ within v root n
    end.
Proof.
  intros Hv Hr Hb Hch. unfold open_target.
  destruct (resolve_returns v root base path (negb (Z.land flags_ O_NOFOLLOW =? 0))) as [found Hf]. rewrite Hf.
  assert (∀ e, e < 0 → e ≠ - E_NOENT → ∃ r created v1,
    (if (e =? - E_NOENT) && negb (Z.land flags_ O_CREAT =? 0) then
       match open_create root base path v with None => None | Some (r, v) => Some (r, true, v) end
     else Some (inl e, false, v)) = Some (r, created, v1) ∧
    match r with
    | inl e => e < 0 ∧ (∃ s, v1 = set_kern s v) ∧ vfs_ok v1 L ∧ steady v v1
    | inr n => if created : bool then fresh_file v v1 root n L ∧ Z.land flags_ O_CREAT ≠ 0 else v1 = v ∧ within v root n
    end) as Herr.
  { intros e He Hne. rewrite (proj2 (Z.eqb_neq _ _) Hne). exists (inl e), false, v. split; [done|]. split; [done|].
    split; [exists (kern v); by destruct v|]. split; [done|by apply steady_refl]. }
  destruct found as [e|n].
  - pose proof (resolve_error _ _ _ _ _ _ Hf) as He. destruct (decide (e = - E_NOENT)) as [->|Hne]; [|by apply Herr].
    cbn [Z.eqb Z.opp andb]. change (Pos.eqb 2 2) with true. cbn [andb].
    destruct (Z.eqb_spec (Z.land flags_ O_CREAT) 0) as [|Hcr]; cbn [negb].
    { exists (inl (- E_NOENT)), false, v. split; [done|]. split; [done|]. split; [exists (kern v); by destruct v|].
      split; [done|apply steady_refl]. }
    destruct (open_create_spec v L root base path _ Hv Hr Hb Hch Hf) as (r & v1 & -> & Hcase).
    exists r, true, v1. split; [done|]. by destruct r.
  - pose proof (resolve_within _ _ _ _ _ _ (vk_tree v L Hv) Hr Hb Hf) as Hw. case_if; [by apply Herr|].
    exists (inr n), false, v. done.
Qed.

(** The state changes by its control registers only. *)
Lemma open_failed_ram v v' s L : same_ram (kern v') s → open_failed v v' L → open_failed v (set_kern s v') L.
Proof.
  intros Hs (F1 & F2 & F3 & F4 & F5 & F6). split; [by apply vfs_ok_ram|]. do 4 (split; [done|]).
  apply (steady_trans v v'); [done|by apply steady_kern].
Qed.

Lemma open_done_ram v v' s0 s root f flags_ L :
  same_ram (kern v) s0 → same_ram (kern v') s → open_done (set_kern s0 v) v' root f flags_ L →
  open_done v (set_kern s v') root f flags_ L.
Proof.
  intros Hs0 Hs (n & L' & D1 & D2 & D3 & D4 & D5 & D5' & D6 & D7 & D8 & D9). exists n, L'. split; [done|]. split; [done|].
  split; [by apply vfs_ok_ram|]. split; [done|]. split; [by apply (within_same v')|]. split.
  { apply (stays_trans v (set_kern s0 v)); [by apply stays_same|]. apply (stays_trans (set_kern s0 v) v'); [done|by apply stays_same]. }
  do 2 (split; [done|]). split; [|done].
  apply (steady_trans v (set_kern s0 v)); [by apply steady_kern|]. apply (steady_trans (set_kern s0 v) v'); [done|by apply steady_kern].
Qed.

Lemma vfs_openat_spec v L root base path flags_ :
  vfs_ok v L → is_node v root → within v root base → c_chars path →
  ∃ e f v', vfs_openat root base path flags_ v = Some (e, f, v') ∧
    ((e < 0 ∧ f = 0 ∧ open_failed v v' L) ∨ (e = 0 ∧ open_done v v' root f flags_ L)).
Proof.
  intros Hv Hr Hb Hch. unfold vfs_openat. case_if.
  { eexists _, _, _. split; [reflexivity|]. left. split; [done|]. split; [done|]. split; [done|].
    do 4 (split; [done|]). apply steady_refl. }
  unfold irq_save. cbv zeta. set (irq := sstatus (kern v)). set (s0 := csr_clear_sstatus SSTATUS_SIE (kern v)). set (v0 := set_kern s0 v).
  assert (vfs_ok v0 L) as Hv0 by (by apply vfs_ok_ram).
  assert (within v0 root base) as Hb0 by (by apply (within_same v)).
  destruct (open_target_spec v0 L root base path flags_ Hv0 Hr Hb0 Hch) as (r & created & v1 & -> & Hcase).
  destruct r as [e|n].
  { destruct Hcase as (He & (s & ->) & Hv1 & Hst). eexists _, _, _. split; [reflexivity|]. left. split; [done|]. split; [done|].
    apply (open_failed_ram _ (set_kern s v0)); [apply irq_restore_ram|]. split; [done|]. done. }
  assert (∃ e f v', open_node n created flags_ v1 = (e, f, v') ∧
    ((e < 0 ∧ f = 0 ∧ open_failed v0 v' L) ∨ (e = 0 ∧ open_done v0 v' root f flags_ L))) as (e & f & v' & -> & Hres).
  { destruct created; [destruct Hcase as [Hff Hcr]; by apply open_created|].
    destruct Hcase as [-> Hw]. apply open_existing; [done| |done]. by eapply within_node. }
  eexists _, _, _. split; [reflexivity|]. destruct Hres as [(He & Hf & Hres)|(He & Hres)].
  - left. split; [done|]. split; [done|]. by apply open_failed_ram.
  - right. split; [done|]. by apply (open_done_ram v v' s0).
Qed.

(** ** References *)

Lemma files_update_ok v L f x :
  vfs_ok v L → is_Some (files v !! f) → open_ok v x → vfs_ok (with_file f x v) L.
Proof.
  intros [(F & P & [S1 S2 S3 S4 S5 S6]) Ht V3 V4 V5] Hf Hx. split; try done.
  - exists F, P. split; try done. intros g. cbn. rewrite lookup_insert_is_Some'. intros [<-|Hg]; by apply S5.
  - by apply (tree_ok_proper v).
  - intros g. unfold fl. cbn. rewrite lookup_insert_is_Some'. destruct (decide (g = f)) as [->|Hne].
    + by rewrite lookup_total_insert_eq.
    + intros [?|Hg]; [done|]. rewrite lookup_total_insert_ne by done. by apply V4.
  - cbn. by rewrite map_size_insert_Some.
Qed.

Lemma open_not_null v L f : vfs_ok v L → is_Some (files v !! f) → f ≠ 0.
Proof.
  intros Hv Hf ->. destruct (vk_store v L Hv) as (F & P & Hs).
  destruct (so_files _ _ _ _ _ _ _ _ Hs 0 Hf) as [Hin _]. revert Hin. eapply heap_ok_null. apply Hs.
Qed.

Lemma regular_node v L f :
  vfs_ok v L → is_Some (files v !! f) → ops (fl v f) = regular_ops → is_node v (node (fl v f)).
Proof. intros Hv Hf Ho. destruct (vk_open v L Hv f Hf) as (_ & _ & Hn). apply Hn. by rewrite Ho. Qed.

Lemma file_get_spec v L f :
  vfs_ok v L → is_Some (files v !! f) → references (fl v f) < 2 ^ 64 - 1 →
  let v' := file_get f v in
  vfs_ok v' L ∧ same_tree v v' ∧
  files v' = <[f := with_references (references (fl v f) + 1) (fl v f)]> (files v).
Proof.
  intros Hv Hf Hlt v'. destruct (vk_open v L Hv f Hf) as (O1 & O2 & O3). pose proof (open_not_null v L f Hv Hf) as Hf0.
  unfold v', file_get. rewrite (proj2 (Z.eqb_neq _ _) Hf0). unfold irq_save. cbv zeta.
  set (s := irq_restore _ _). set (v1 := update_file _ f _).
  assert (v1 = with_file f (with_references (references (fl v f) + 1) (fl v f))
                 (set_kern (csr_clear_sstatus SSTATUS_SIE (kern v)) v)) as ->.
  { unfold v1, update_file, with_file. cbn. unfold fl. cbn. by rewrite u64_small by (unfold in_u64, fl in *; lia). }
  split; [|split; [done|done]]. apply vfs_ok_ram; [apply irq_restore_ram|].
  apply files_update_ok; [by apply vfs_ok_ram|done|]. split; cbn; [lia|done].
Qed.

(** The last reference closes the file; a pipe is closed by [pipe_release]. *)
Lemma file_put_spec v L f :
  vfs_ok v L → is_Some (files v !! f) → ops (fl v f) ≠ pipe_ops →
  let v' := file_put f v in
  same_tree v v' ∧
  if decide (references (fl v f) = 1) then vfs_ok v' (L ∖ {[f]}) ∧ files v' = delete f (files v)
  else vfs_ok v' L ∧ files v' = <[f := with_references (references (fl v f) - 1) (fl v f)]> (files v).
Proof.
  intros Hv Hf Hop v'. destruct (vk_open v L Hv f Hf) as (O1 & O2 & O3). pose proof (open_not_null v L f Hv Hf) as Hf0.
  unfold v', file_put. rewrite (proj2 (Z.eqb_neq _ _) Hf0). unfold irq_save. cbv zeta.
  set (v0 := set_kern (csr_clear_sstatus SSTATUS_SIE (kern v)) v). set (x := with_references (references (fl v f) - 1) (fl v f)).
  assert (update_file (λ x, with_references (u64 (references x - 1)) x) f v0 = with_file f x v0) as ->.
  { unfold x, update_file, with_file. change (fl v0 f) with (fl v f). by rewrite u64_small by (unfold in_u64; lia). }
  assert (fl (with_file f x v0) f = x) as -> by (unfold fl; cbn; by rewrite lookup_total_insert_eq).
  assert (vfs_ok v0 L) as Hv0 by (by apply vfs_ok_ram). change (references x) with (references (fl v f) - 1).
  destruct (Z.eqb_spec (references (fl v f) - 1) 0) as [E|E].
  2:{ rewrite decide_False by lia. split; [done|]. split; [|done]. apply vfs_ok_ram; [apply irq_restore_ram|].
      apply files_update_ok; [done|done|]. split; cbn; [lia|done]. }
  rewrite decide_True by lia. change (ops x) with (ops (fl v f)).
  set (v1 := match ops (fl v f) with pipe_ops => _ | _ => _ end).
  assert (v1 = with_file f x v0) as -> by (unfold v1; by destruct (ops (fl v f))).
  set (v2 := set_kern (kfree f _) _).
  assert (files v2 = delete f (files v)) as Ef by (unfold v2; cbn; by rewrite delete_insert_eq).
  destruct Hv0 as [(F & P & [S1 S2 S3 S4 S5 S6]) Ht V3 V4 V5].
  destruct (bare_kfree U (kern v0) F P L (block_pages v0 ++ O) f S1) as (F' & P' & Hb & _); [by apply S5|].
  split; [done|]. split; [|done]. apply vfs_ok_ram; [apply irq_restore_ram|]. split; try done.
  - exists F', P'. split; try done.
    + intros n Hn. apply elem_of_difference. split; [by apply S4|]. intros ->%elem_of_singleton.
      by destruct (S5 f Hf) as [_ ?].
    + intros g. rewrite Ef, lookup_delete_is_Some. intros [Hg Hgs]. destruct (S5 g Hgs). split; [set_solver|done].
  - by apply (tree_ok_proper v0).
  - intros g. unfold fl. rewrite Ef, lookup_delete_is_Some. intros [Hg Hgs]. rewrite lookup_total_delete_ne by done. by apply V4.
  - rewrite Ef. change (live_files v2) with (u64 (live_files v0 - 1)). rewrite V5, map_size_delete. change (files v0) with (files v). destruct Hf as [y Hy]. rewrite Hy.
    cbn. unfold u64. rewrite Zminus_mod_idemp_l. f_equal.
    assert (base.size (files v) ≠ 0%nat) as Hne. { intros Hz%map_size_empty_inv. by rewrite Hz, lookup_empty in Hy. }
    lia.
Qed.

(** ** Reading, writing and seeking *)

Lemma wrote_tree v v' n f off k src : wrote U O v v' n f off k src → same_tree v v'.
Proof.
  intros Hw. split; [apply Hw|]. split; [|apply Hw]. intros x. destruct (decide (x = n)) as [->|Hx].
  - apply Hw.
  - by rewrite (wr_others _ _ _ _ _ _ _ _ _ Hw x Hx).
Qed.

Lemma wrote_ok v v' n f off k src F P L :
  vfs_ok v L → wrote U O v v' n f off k src → store_ok U O lo hi v' F P L → 0 <= off + k <= INT64_MAX → vfs_ok v' L.
Proof.
  intros [V1 Ht V3 V4 V5] Hw Hs Hok. pose proof (wrote_tree _ _ _ _ _ _ _ Hw) as Hsame.
  destruct (wr_static _ _ _ _ _ _ _ _ _ Hw) as (Em & _ & El). split.
  - eauto.
  - by apply (tree_ok_proper v).
  - unfold mnt. by rewrite Em.
  - intros g Hg%(wr_open _ _ _ _ _ _ _ _ _ Hw). destruct (V4 g Hg) as (O1 & O2 & O3).
    destruct (decide (g = f)) as [->|Hne].
    + rewrite (wr_offset _ _ _ _ _ _ _ _ _ Hw). split; [done|]. split; [done|]. cbn. intros Ho. apply Hsame. by apply O3.
    + rewrite (wr_files _ _ _ _ _ _ _ _ _ Hw g Hne). split; [done|]. split; [done|]. intros Ho. apply Hsame. by apply O3.
  - rewrite El, V5. do 2 f_equal. rewrite <- !size_dom. f_equal. apply set_eq. intros g. rewrite !elem_of_dom.
    symmetry. apply Hw.
Qed.

Lemma file_size_bound v F P L n :
  store_ok U O lo hi v F P L → is_node v n → 0 <= size (vn v n) <= INT64_MAX.
Proof.
  intros Hs Hn. destruct (so_node _ _ _ _ _ _ _ _ Hs n Hn) as [N1 N2 N3 N4]. split; [done|].
  destruct (decide (data (vn v n) = 0)) as [Hd|Hd]; [specialize (N3 Hd); lia|]. destruct (N4 Hd) as (? & ? & _). lia.
Qed.

Lemma positioned_ok v L f :
  vfs_ok v L → is_Some (files v !! f) → is_node v (node (fl v f)) → vfs_ok (positioned f v) L.
Proof.
  intros Hv Hf Hn. unfold positioned. case_if; [|done]. destruct (vk_store v L Hv) as (F & P & Hs).
  destruct (vk_open v L Hv f Hf) as (O1 & O2 & O3). apply files_update_ok; [done|done|].
  split; [done|]. split; [|done]. cbn. by apply (file_size_bound v F P L).
Qed.

Lemma positioned_vn v f : vn (positioned f v) = vn v.
Proof. unfold positioned. by case_if. Qed.

Lemma positioned_offset v L f :
  vfs_ok v L → is_Some (files v !! f) → ops (fl v f) = regular_ops → 0 <= offset (fl (positioned f v) f).
Proof.
  intros Hv Hf Hop. destruct (vk_open v L Hv f Hf) as (_ & _ & O3).
  pose proof (positioned_ok v L f Hv Hf ltac:(apply O3; by rewrite Hop)) as Hp.
  destruct (vk_open _ L Hp f) as (_ & ? & _); [|lia]. unfold positioned. case_if; [|done]. cbn. rewrite lookup_insert_eq. eauto.
Qed.

(** Another descriptor is not moved by a write. *)
Lemma wrote_reader v v' n f g off k src :
  wrote U O (positioned f v) v' n f off k src → is_Some (files v !! g) → g ≠ f →
  is_Some (files v' !! g) ∧ fl v' g = fl v g.
Proof.
  intros Hw Hg Hgf. rewrite (wr_open _ _ _ _ _ _ _ _ _ Hw), (wr_files _ _ _ _ _ _ _ _ _ Hw g Hgf).
  unfold positioned. case_if; [|done]. rewrite fl_update, decide_False by done. split; [|done].
  cbn. by rewrite lookup_insert_ne.
Qed.

(** Only the control registers have changed. *)
Definition untouched (v v' : vfs) : Prop := ∃ s, same_ram (kern v) s ∧ v' = set_kern s v.

Lemma untouched_refl v : untouched v v.
Proof. exists (kern v). by destruct v. Qed.

(** What a write to a regular file does; [F'] are the pages that are free afterwards. *)
Definition write_outcome (v v' : vfs) (f buffer size_ r : Z) : Prop :=
  let n := node (fl v f) in
  let v1 := positioned f v in
  let off := offset (fl v1 f) in
  if decide (Z.land (flags (fl v f)) O_ACCMODE = 0) then r = - E_BADF ∧ untouched v v'
  else if readonly (mnt v (vmount (vn v n))) then r = - E_ROFS ∧ untouched v v'
  else if decide (type (vn v n) = DT_DIR) then r = - E_ISDIR ∧ untouched v v'
  else ∃ k F', free_rep (kern v') F' ∧ wrote U O v1 v' n f off k (λ j, load8 (mem (kern v)) (buffer + j)) ∧
    if decide (off < MAX_FILE) then write_result (room off size_) k 0 F' r
    else k = 0 ∧ r = if decide (size_ = 0) then 0 else - E_FBIG.

Lemma wrote_ram v v1 v' n f off k src s :
  same_ram (kern v') s → wrote U O v v' n f off k src → v1 = v → wrote U O v1 (set_kern s v') n f off k src.
Proof.
  intros (E & _) Hw ->. destruct Hw as [W1 W2 W3 W4 W5 W6 W7 W8 W9 W10 W11 W12]. split; try done; cbn; by rewrite E.
Qed.

Lemma wrote_ram_l v s0 v' n f off k src :
  same_ram (kern v) s0 → wrote U O (set_kern s0 v) v' n f off k src → wrote U O v v' n f off k src.
Proof.
  intros (E & _) Hw. destruct Hw as [W1 W2 W3 W4 W5 W6 W7 W8 W9 W10 W11 W12]. cbn in W6, W11. rewrite E in W6, W11. by split.
Qed.

Lemma file_write_spec v L thread f buffer size_ :
  vfs_ok v L → is_Some (files v !! f) → ops (fl v f) = regular_ops → 0 <= size_ →
  (∀ a, buffer <= a < buffer + size_ → region U O a) →
  ∃ r v', file_write thread f buffer size_ v = Some (Did r, v') ∧ vfs_ok v' L ∧ write_outcome v v' f buffer size_ r.
Proof.
  intros Hv Hf Hop Hsz Hbuf. pose proof (open_not_null v L f Hv Hf) as Hf0.
  destruct (vk_open v L Hv f Hf) as (O1 & O2 & O3). assert (is_node v (node (fl v f))) as Hn by (apply O3; by rewrite Hop).
  unfold file_write, write_outcome. rewrite (proj2 (Z.eqb_neq _ _) Hf0). cbn [orb].
  destruct (decide (Z.land (flags (fl v f)) O_ACCMODE = 0)) as [E|E];
    [rewrite (proj2 (Z.eqb_eq _ _) E); exists (- E_BADF), v; split; [done|split; [done|split; [done|apply untouched_refl]]]|rewrite (proj2 (Z.eqb_neq _ _) E)].
  unfold irq_save. cbv zeta. set (s0 := csr_clear_sstatus SSTATUS_SIE (kern v)). set (v0 := set_kern s0 v).
  assert (vfs_ok v0 L) as Hv0 by (by apply vfs_ok_ram). change (ops (fl v0 f)) with (ops (fl v f)). rewrite Hop.
  destruct (readonly (mnt v (vmount (vn v (node (fl v f)))))) eqn:Hro.
  { unfold regular_write. change (readonly (mnt v0 (vmount (vn v0 (node (fl v0 f)))))) with (readonly (mnt v (vmount (vn v (node (fl v f)))))).
    rewrite Hro. eexists _, _. split; [reflexivity|]. split; [apply vfs_ok_ram; [apply irq_restore_ram|done]|].
    split; [done|]. eexists. split; [|reflexivity]. etransitivity; [|apply irq_restore_ram]. done. }
  case_decide as Hdir.
  { unfold regular_write. change (readonly (mnt v0 (vmount (vn v0 (node (fl v0 f)))))) with (readonly (mnt v (vmount (vn v (node (fl v f)))))).
    rewrite Hro. change (type (vn v0 (node (fl v0 f)))) with (type (vn v (node (fl v f)))). rewrite Hdir. cbn [Z.eqb Pos.eqb].
    eexists _, _. split; [reflexivity|]. split; [apply vfs_ok_ram; [apply irq_restore_ram|done]|].
    split; [done|]. eexists. split; [|reflexivity]. etransitivity; [|apply irq_restore_ram]. done. }
  destruct (vk_store v0 L Hv0) as (F & P & Hs). pose proof (writable_data v L _ Hv Hn Hro) as Hd.
  destruct (regular_write_spec U O lo hi v0 F P L f buffer size_ Hs Hf Hn Hd Hro Hdir (proj1 O2) Hsz Hbuf)
    as (k & r & v' & F' & -> & Hs' & Hw & Hr).
  assert (positioned f v0 = set_kern s0 (positioned f v)) as Ep by (unfold positioned; change (fl v0) with (fl v); by case_if).
  pose proof (positioned_ok v L f Hv Hf Hn) as Hp.
  assert (vfs_ok v' L) as Hv'.
  { rewrite Ep in Hw. eapply (wrote_ok (set_kern s0 (positioned f v))); [by apply vfs_ok_ram; [|done]; unfold positioned; case_if|exact Hw|exact Hs'|].
    assert (0 <= k ∧ (0 < k → offset (fl (positioned f v) f) + k <= MAX_FILE)) as Hk.
    { rewrite Ep in Hr. change (fl (set_kern s0 (positioned f v)) f) with (fl (positioned f v) f) in Hr. revert Hr.
      case_decide; [intros (? & _); unfold room in *; lia|intros [-> _]; lia]. }
    destruct (vk_open _ _ Hp f) as (_ & Ho & _); [unfold positioned; case_if; [cbn; rewrite lookup_insert_eq; eauto|done]|].
    change (fl (set_kern s0 (positioned f v)) f) with (fl (positioned f v) f). lia. }
  eexists _, _. split; [reflexivity|]. split; [apply vfs_ok_ram; [apply irq_restore_ram|done]|].
  rewrite Ep in Hw, Hr. exists k, F'. split.
  { destruct (irq_restore_ram (sstatus (kern v)) (kern v')) as (R1 & R2 & R3 & _).
    apply (free_rep_frame (kern v')); [done|done|intros q _ a _; cbn; by rewrite R1|]. by eapply heap_ok_free, (so_bare _ _ _ _ _ _ _ _ Hs'). }
  split; [|exact Hr]. eapply wrote_ram; [apply irq_restore_ram| |reflexivity].
  apply (wrote_ram_l (positioned f v) s0); [unfold positioned; by case_if|exact Hw].
Qed.

(** A buffer for reading: outside the file system and the archive. *)
Definition buffer_ok (buffer size_ : Z) : Prop :=
  ∀ a, buffer <= a < buffer + size_ → region U O a ∧ ¬ (lo <= a < hi).

Lemma buffer_apart v F P L n buffer size_ :
  store_ok U O lo hi v F P L → is_node v n → buffer_ok buffer size_ → apart (vn v n) buffer size_.
Proof.
  intros Hs Hn Hbuf a Ha Hh. destruct (Hbuf a Ha) as [Hr Harch]. destruct Hh as [[Hd Hda]|(p & Hp & Hpa)].
  - destruct (no_data _ _ _ (so_node _ _ _ _ _ _ _ _ Hs n Hn) Hd) as (D1 & D2 & _). lia.
  - pose proof (store_split _ _ _ _ _ _ _ _ _ Hs Hn) as Hsp. apply elem_of_Permutation in Hp as [rest Hrest].
    assert (bare U (kern v) F P L (p :: rest ++ other_pages v n ++ O)) as Hsb by (eapply bare_perm; [|exact Hsp]; by rewrite Hrest).
    apply (bare_region_page _ _ _ _ _ _ _ a Hsb Hpa). destruct Hr as [(q & Hq & Hqa)|Hr]; [left|by right].
    exists q. rewrite !elem_of_app. auto.
Qed.

(** Filling the buffer leaves the file system alone. *)
Lemma store_fill v F P L m' buffer k :
  store_ok U O lo hi v F P L → buffer_ok buffer k →
  (∀ a, ¬ (buffer <= a < buffer + k) → load8 m' a = load8 (mem (kern v)) a) →
  store_ok U O lo hi (set_kern (set_mem m' (kern v)) v) F P L.
Proof.
  intros [S1 S2 S3 S4 S5 S6] Hbuf Hm. split; try done. apply (bare_frame U (kern v)); try done.
  intros a Ha. apply Hm. intros Hin. destruct (Hbuf a Hin) as [Hr _].
  assert (region U (block_pages v ++ O) a) as Hr'.
  { destruct Hr as [(q & Hq & Hqa)|Hr]; [left|by right]. exists q. rewrite elem_of_app. auto. }
  destruct (bare_region _ _ _ _ _ _ _ S1 Hr') as [Ho Hst]. destruct Ha as [|(p & Hp & Hpa)]; [done|]. by apply (Ho p).
Qed.

(** The bytes of a file in the caller's buffer. *)
Definition delivered (v v' : vfs) (n buffer off k : Z) : Prop :=
  ∀ a, load8 (mem (kern v')) a =
       if decide (buffer <= a < buffer + k) then file_byte (mem (kern v)) (vn v n) (off + (a - buffer))
       else load8 (mem (kern v)) a.

Lemma buffer_sub buffer k size_ : k <= size_ → buffer_ok buffer size_ → buffer_ok buffer k.
Proof. intros Hk Hb a Ha. apply Hb. lia. Qed.

Lemma read_count_bound n size_ off : 0 <= size_ → read_count n size_ off <= size_.
Proof. intros Hs. unfold read_count. case_if; lia. Qed.

Lemma file_pread_spec v L f buffer size_ off :
  vfs_ok v L → is_Some (files v !! f) → ops (fl v f) = regular_ops → 0 <= size_ → 0 <= off →
  Z.land (flags (fl v f)) O_ACCMODE ≠ O_WRONLY → buffer_ok buffer size_ →
  let n := node (fl v f) in
  ∃ s, file_pread f buffer size_ off v = Some (read_count (vn v n) size_ off, set_kern s v) ∧
    vfs_ok (set_kern s v) L ∧ delivered v (set_kern s v) n buffer off (read_count (vn v n) size_ off) ∧
    same_ram (set_mem (mem s) (kern v)) s.
Proof.
  intros Hv Hf Hop Hsz Hoff Hfl Hbuf n. pose proof (open_not_null v L f Hv Hf) as Hf0.
  destruct (vk_open v L Hv f Hf) as (_ & _ & O3). assert (is_node v n) as Hn by (apply O3; by rewrite Hop).
  unfold file_pread. rewrite (proj2 (Z.eqb_neq _ _) Hf0), (proj2 (Z.eqb_neq _ _) Hfl), Hop. cbn [orb].
  unfold irq_save. set (s0 := csr_clear_sstatus SSTATUS_SIE (kern v)). destruct (vk_store v L Hv) as (F & P & Hs).
  pose proof (buffer_sub _ _ _ (read_count_bound (vn v n) size_ off Hsz) Hbuf) as Hbuf'.
  destruct (regular_pread_spec lo hi (vn v n) buffer size_ off s0 (so_node _ _ _ _ _ _ _ _ Hs n Hn) Hsz Hoff)
    as (m' & E & Hm'); [by eapply buffer_apart|]. fold n. rewrite E.
  set (k := read_count _ _ _) in *. eexists. split; [reflexivity|].
  assert (same_ram (set_mem m' (kern v)) (irq_restore (sstatus (kern v)) (set_mem m' s0))) as Hram.
  { etransitivity; [|apply irq_restore_ram]. done. }
  split.
  - assert (store_ok U O lo hi (set_kern (set_mem m' (kern v)) v) F P L) as Hs'.
    { apply (store_fill v F P L m' buffer k); [done|done|]. intros a Ha. by rewrite Hm', decide_False. }
    apply (vfs_ok_store v _ L F P Hv). by apply (store_ram (set_kern (set_mem m' (kern v)) v)).
  - destruct Hram as (R1 & R2 & R3 & R4). split; [intros a; cbn; rewrite R1; apply Hm'|done].
Qed.

(** [file_read] is [file_pread] at the offset of the open file, which it moves. *)
Lemma file_read_spec v L thread f buffer size_ :
  vfs_ok v L → is_Some (files v !! f) → ops (fl v f) = regular_ops → 0 <= size_ →
  Z.land (flags (fl v f)) O_ACCMODE ≠ O_WRONLY → buffer_ok buffer size_ →
  let n := node (fl v f) in
  let off := offset (fl v f) in
  let k := read_count (vn v n) size_ off in
  ∃ v', file_read thread f buffer size_ v = Some (Did k, v') ∧ vfs_ok v' L ∧ delivered v v' n buffer off k ∧
    (vnodes v' = vnodes v ∧ nodes v' = nodes v ∧ mounts v' = mounts v ∧ pipes v' = pipes v ∧ woken v' = woken v) ∧
    files v' = if decide (0 < k) then <[f := with_offset (u64 (off + k)) (fl v f)]> (files v) else files v.
Proof.
  intros Hv Hf Hop Hsz Hfl Hbuf n off k. pose proof (open_not_null v L f Hv Hf) as Hf0.
  destruct (vk_open v L Hv f Hf) as (O1 & O2 & O3). assert (is_node v n) as Hn by (apply O3; by rewrite Hop).
  unfold file_read. rewrite (proj2 (Z.eqb_neq _ _) Hf0), (proj2 (Z.eqb_neq _ _) Hfl). cbn [orb].
  unfold irq_save. cbv zeta. set (s0 := csr_clear_sstatus SSTATUS_SIE (kern v)). destruct (vk_store v L Hv) as (F & P & Hs).
  change (ops (fl (set_kern s0 v) f)) with (ops (fl v f)). rewrite Hop.
  change (vn (set_kern s0 v) (node (fl (set_kern s0 v) f))) with (vn v n).
  change (offset (fl (set_kern s0 v) f)) with off. change (kern (set_kern s0 v)) with s0.
  pose proof (buffer_sub _ _ _ (read_count_bound (vn v n) size_ off Hsz) Hbuf) as Hbuf'.
  destruct (regular_pread_spec lo hi (vn v n) buffer size_ off s0 (so_node _ _ _ _ _ _ _ _ Hs n Hn) Hsz (proj1 O2))
    as (m' & E & Hm'); [by eapply buffer_apart|]. rewrite E. fold k in Hm', Hbuf' |- *.
  change (set_kern (set_mem m' s0) (set_kern s0 v)) with (set_kern (set_mem m' s0) v).
  assert (vfs_ok (set_kern (set_mem m' s0) v) L) as Hv1.
  { apply (vfs_ok_store v _ L F P Hv). apply (store_ram (set_kern (set_mem m' (kern v)) v)); [done|].
    apply (store_fill v F P L m' buffer k); [done|done|]. intros a Ha. by rewrite Hm', decide_False. }
  set (v1 := set_kern (set_mem m' s0) v) in *. eexists. split; [reflexivity|].
  set (v2 := if k >? 0 then _ else v1).
  assert (vfs_ok v2 L ∧ kern v2 = kern v1 ∧
    (vnodes v2 = vnodes v ∧ nodes v2 = nodes v ∧ mounts v2 = mounts v ∧ pipes v2 = pipes v ∧ woken v2 = woken v) ∧
    files v2 = if decide (0 < k) then <[f := with_offset (u64 (off + k)) (fl v f)]> (files v) else files v) as (Hv2 & Ek & En & Efi).
  { unfold v2. destruct (Z.gtb_spec k 0) as [Hgt|].
    - rewrite decide_True by lia. split; [|done]. apply files_update_ok; [done|done|]. split; [done|]. split; [|done].
      cbn. change (offset (fl v1 f)) with off. pose proof (file_size_bound v F P L n Hs Hn).
      assert (off + k <= size (vn v n)) by (unfold k, read_count in *; revert Hgt; case_if; lia).
      rewrite u64_small by (unfold in_u64; lia). lia.
    - rewrite decide_False by lia. done. }
  split; [apply vfs_ok_ram; [apply irq_restore_ram|done]|]. split; [|done].
  intros a. cbn. destruct (irq_restore_ram (sstatus (kern v)) (kern v2)) as (-> & _). rewrite Ek. apply Hm'.
Qed.

(** The new position of a seek. *)
Definition seek_target (v : vfs) (f offset_ whence : Z) : Z :=
  (if decide (whence = SEEK_SET) then 0 else if decide (whence = SEEK_CUR) then offset (fl v f)
   else size (vn v (node (fl v f)))) + offset_.

Lemma file_seek_spec v L f offset_ whence :
  vfs_ok v L → is_Some (files v !! f) → is_node v (node (fl v f)) → type (vn v (node (fl v f))) = DT_REG →
  - 2 ^ 63 <= offset_ < 2 ^ 63 → 0 <= whence →
  let '(r, v') := file_seek f offset_ whence v in
  let t := seek_target v f offset_ whence in
  vfs_ok v' L ∧
  if decide (whence <= SEEK_END ∧ 0 <= t <= INT64_MAX)
  then r = t ∧ files v' = <[f := with_offset t (fl v f)]> (files v) else r = - E_INVAL ∧ files v' = files v.
Proof.
  intros Hv Hf Hn Hty Hoff Hwh. destruct (vk_open v L Hv f Hf) as (O1 & O2 & O3).
  assert (node (fl v f) ≠ 0) as Hn0 by (intros E; rewrite E in Hn; by apply (to_null v (vk_tree v L Hv))).
  destruct (vk_store v L Hv) as (F & P & Hs). pose proof (file_size_bound v F P L _ Hs Hn) as Hsize.
  pose proof (open_not_null v L f Hv Hf) as Hf0.
  unfold file_seek. rewrite (proj2 (Z.eqb_neq _ _) Hn0), Hty. cbn [Z.eqb Pos.eqb negb orb]. unfold irq_save. cbv zeta.
  set (s0 := csr_clear_sstatus SSTATUS_SIE (kern v)). set (v0 := set_kern s0 v).
  assert (file_size f v0 = size (vn v (node (fl v f)))) as ->.
  { unfold file_size. change (fl v0 f) with (fl v f). rewrite (proj2 (Z.eqb_neq _ _) Hf0), (proj2 (Z.eqb_neq _ _) Hn0). done. }
  change (offset (fl v0 f)) with (offset (fl v f)). assert (∀ x, 0 <= x <= INT64_MAX → s64 x = x) as Hs64 by (intros x Hx; unfold s64; destruct (Z.ltb_spec x (2 ^ 63)); lia).
  rewrite !Hs64 by lia.
  set (b := if whence =? SEEK_SET then 0 else _).
  assert (seek_target v f offset_ whence = b + offset_ ∧ 0 <= b <= INT64_MAX) as [-> Hb].
  { unfold seek_target, b. destruct (Z.eqb_spec whence SEEK_SET), (Z.eqb_spec whence SEEK_CUR); repeat case_decide; lia. }
  assert (vfs_ok v0 L) as Hv0 by (by apply vfs_ok_ram).
  destruct (Z.gtb_spec whence SEEK_END), (Z.ltb_spec offset_ (- b)), (Z.gtb_spec offset_ (INT64_MAX - b)); cbn [orb];
    try (rewrite decide_False by lia; split; [apply vfs_ok_ram; [apply irq_restore_ram|done]|done]).
  rewrite decide_True by lia. rewrite u64_small by (unfold in_u64; lia).
  split; [|done]. apply vfs_ok_ram; [apply irq_restore_ram|]. apply files_update_ok; [done|done|]. split; [done|]. cbn. split; [lia|done].
Qed.

(** ** Directory listings *)

(** What a call lists: the entries from the offset on, as many as fit. *)
Definition listing (v : vfs) (n off size_ : Z) : list directory_entry :=
  (λ x, mk_dirent (inode (vn v x)) (type (vn v x)) (name (vn v x))) <$>
    take (Z.to_nat (size_ / SIZEOF_DIRENT)) (drop (Z.to_nat off) (children (vn v n))).

Lemma file_getdents_spec v L f size_ :
  vfs_ok v L → is_Some (files v !! f) → is_node v (node (fl v f)) → type (vn v (node (fl v f))) = DT_DIR →
  SIZEOF_DIRENT <= size_ → Z.of_nat (length (children (vn v (node (fl v f))))) <= INT64_MAX →
  let '(r, out, v') := file_getdents f size_ v in
  let n := node (fl v f) in
  let off := offset (fl v f) in
  out = listing v n off size_ ∧ r = SIZEOF_DIRENT * Z.of_nat (length out) ∧ 0 <= r <= size_ ∧
  (out = [] → Z.of_nat (length (children (vn v n))) <= off) ∧ vfs_ok v' L ∧ vnodes v' = vnodes v ∧
  files v' = <[f := with_offset (off + Z.of_nat (length out)) (fl v f)]> (files v).
Proof.
  intros Hv Hf Hn Hty Hsz Hlen. destruct (vk_open v L Hv f Hf) as (O1 & O2 & O3).
  assert (node (fl v f) ≠ 0) as Hn0 by (intros E; rewrite E in Hn; by apply (to_null v (vk_tree v L Hv))).
  unfold file_getdents. rewrite (proj2 (Z.eqb_neq _ _) Hn0), Hty. cbn [Z.eqb Pos.eqb negb orb].
  destruct (Z.ltb_spec size_ SIZEOF_DIRENT); [lia|]. unfold irq_save. cbv zeta.
  set (s0 := csr_clear_sstatus SSTATUS_SIE (kern v)). set (v0 := set_kern s0 v).
  change (fl v0 f) with (fl v f). change (vn v0 (node (fl v f))) with (vn v (node (fl v f))).
  set (n := node (fl v f)) in *. set (off := offset (fl v f)) in *.
  set (out := take _ _). assert (length out = min (Z.to_nat (size_ / SIZEOF_DIRENT)) (length (children (vn v n)) - Z.to_nat off)) as Hout.
  { unfold out. by rewrite length_take, length_drop. }
  split; [done|]. rewrite length_fmap. split; [lia|].
  assert (Z.of_nat (length out) * SIZEOF_DIRENT <= size_ ∧ (1 <= size_ / SIZEOF_DIRENT)) as [Hr Hq] by (clear -Hout Hsz; div_lia).
  split; [lia|]. split.
  { intros E%fmap_nil_inv. assert (length out = 0%nat) as E0 by (by rewrite E). lia. }
  assert (u64 (off + Z.of_nat (length out)) = off + Z.of_nat (length out)) as -> by (apply u64_small; unfold in_u64; lia).
  split; [|done]. apply vfs_ok_ram; [apply irq_restore_ram|].
  apply files_update_ok; [by apply vfs_ok_ram|done|]. split; [done|]. split; [|done]. cbn. fold off. lia.
Qed.
End Invariant.

(** The file system [vfs_init] leaves behind. *)
Lemma vfs_ok_built `{HeapContract} U O archive asize L m0 v :
  owning U O archive asize L m0 v → building 3 v →
  vfs_ok U O archive (archive + asize) v (list_to_set (nodes v) ∪ L).
Proof.
  intros ((F & P & Hs) & _ & _ & Ef & El) Hb. split.
  - eauto.
  - apply (bu_tree 3 v Hb).
  - apply (bu_readonly 3 v Hb).
  - intros f [x Hx]. by rewrite Ef, lookup_empty in Hx.
  - by rewrite Ef, El.
Qed.
