(* ===== verification/VfsOpenat.v ===== *)
(** Which file [vfs_openat] opens, which error it returns, and what it leaves of the
    contents of files ([src/fs/vfs.c]). *)
From S2P Require Import Prelude Machine Runtime PageAlloc HeapSpec Ownership Outcome Pipe Vfs VfsInit VfsTree VfsInv VfsFiles VfsOpen.

(** * The answer of an open *)

(** The flags that make sense: no unknown bit, an access mode, and no truncation of a
    file that is opened for reading. *)
Definition flags_ok (flags_ : Z) : Prop :=
  (∀ i, 0 <= i < 32 → Z.testbit flags_ i = true → i ∈ [0; 1; 6; 7; 9; 10; 16; 17]) ∧
  Z.land flags_ O_ACCMODE ≠ 3 ∧ (Z.land flags_ O_TRUNC ≠ 0 → Z.land flags_ O_ACCMODE ≠ 0).

(** The directory part of a path, with its slash, and the last name. *)
Definition split_path (path dir name_ : list Z) : Prop :=
  path = dir ++ name_ ∧ SLASH ∉ name_ ∧ (dir = [] ∨ last dir = Some SLASH).

(** A vnode that may not be opened so, and the error. *)
Inductive refuses (v : vfs) (n flags_ : Z) : Z → Prop :=
  | refuse_no_directory : Z.land flags_ O_DIRECTORY ≠ 0 → type (vn v n) ≠ DT_DIR → refuses v n flags_ (- E_NOTDIR)
  | refuse_directory : Z.land flags_ O_ACCMODE ≠ 0 → type (vn v n) = DT_DIR → refuses v n flags_ (- E_ISDIR)
  | refuse_readonly : Z.land flags_ O_DIRECTORY = 0 → Z.land flags_ O_ACCMODE ≠ 0 → type (vn v n) = DT_REG →
      readonly (mnt v (vmount (vn v n))) = true → refuses v n flags_ (- E_ROFS).

Definition admits (v : vfs) (n flags_ : Z) : Prop := ∀ c, ¬ refuses v n flags_ c.

Section Answers.
Context `{KernelHeap}.

(** The heap has nothing for a request. *)
Definition exhausted (size_ : Z) (s : kstate) : Prop := fst (kmalloc size_ s) = 0.

(** What is opened. *)
Inductive target := Existing (n : Z) | New (parent_ : Z) (name_ : list Z).

(** Where the name [name_] is to be made: the directory, or the error. *)
Inductive place (v : vfs) (root base : Z) (path : list Z) : Z + Z * list Z → Prop :=
  | place_bad : path = [] ∨ PATH_LIMIT <= Z.of_nat (length path) ∨ last path = Some SLASH → place v root base path (inl (- E_INVAL))
  | place_long dir name_ : split_path path dir name_ → name_ ≠ [] → Z.of_nat (length path) < PATH_LIMIT →
      NAME_LIMIT <= Z.of_nat (length name_) → place v root base path (inl (- E_NAMETOOLONG))
  | place_lost dir name_ c : split_path path dir name_ → name_ ≠ [] → Z.of_nat (length path) < PATH_LIMIT →
      Z.of_nat (length name_) < NAME_LIMIT → dir ≠ [] → vfs_resolve v root base dir false = Some (inl c) → place v root base path (inl c)
  | place_found dir name_ p r : split_path path dir name_ → name_ ≠ [] → Z.of_nat (length path) < PATH_LIMIT →
      Z.of_nat (length name_) < NAME_LIMIT → (dir = [] ∧ p = base ∨ dir ≠ [] ∧ vfs_resolve v root base dir false = Some (inr p)) →
      r = (if decide (type (vn v p) ≠ DT_DIR) then inl (- E_NOTDIR)
           else if decide (readonly (mnt v (vmount (vn v p))) = true) then inl (- E_ROFS)
           else if decide (child v p name_ ≠ 0) then inl (- E_NOENT) else inr (p, name_)) →
      place v root base path r.

(** The error of an open, or what is opened; [s] is the state of the allocators. *)
Inductive answers (v : vfs) (s : kstate) (root base : Z) (path : list Z) (flags_ : Z) : Z → option target → Prop :=
  | answer_flags : ¬ flags_ok flags_ → answers v s root base path flags_ (- E_INVAL) None
  | answer_lost c : flags_ok flags_ → vfs_resolve v root base path (negb (Z.land flags_ O_NOFOLLOW =? 0)) = Some (inl c) →
      c ≠ - E_NOENT ∨ Z.land flags_ O_CREAT = 0 → answers v s root base path flags_ c None
  | answer_exists n : flags_ok flags_ → vfs_resolve v root base path (negb (Z.land flags_ O_NOFOLLOW =? 0)) = Some (inr n) →
      Z.land flags_ O_CREAT ≠ 0 → Z.land flags_ O_EXCL ≠ 0 → answers v s root base path flags_ (- E_EXIST) None
  | answer_found n e t : flags_ok flags_ → vfs_resolve v root base path (negb (Z.land flags_ O_NOFOLLOW =? 0)) = Some (inr n) →
      Z.land flags_ O_CREAT = 0 ∨ Z.land flags_ O_EXCL = 0 →
      (refuses v n flags_ e ∧ t = None) ∨ (admits v n flags_ ∧ exhausted SIZEOF_FILE s ∧ e = - E_NOMEM ∧ t = None) ∨
      (admits v n flags_ ∧ ¬ exhausted SIZEOF_FILE s ∧ e = 0 ∧ t = Some (Existing n)) → answers v s root base path flags_ e t
  | answer_place c : flags_ok flags_ → vfs_resolve v root base path (negb (Z.land flags_ O_NOFOLLOW =? 0)) = Some (inl (- E_NOENT)) →
      Z.land flags_ O_CREAT ≠ 0 → place v root base path (inl c) → answers v s root base path flags_ c None
  | answer_created p name_ e t : flags_ok flags_ → vfs_resolve v root base path (negb (Z.land flags_ O_NOFOLLOW =? 0)) = Some (inl (- E_NOENT)) →
      Z.land flags_ O_CREAT ≠ 0 → place v root base path (inr (p, name_)) →
      (exhausted SIZEOF_VNODE s ∧ e = - E_NOMEM ∧ t = None) ∨
      (¬ exhausted SIZEOF_VNODE s ∧ Z.land flags_ O_DIRECTORY ≠ 0 ∧ e = - E_NOTDIR ∧ t = None) ∨
      (¬ exhausted SIZEOF_VNODE s ∧ Z.land flags_ O_DIRECTORY = 0 ∧ exhausted SIZEOF_FILE (snd (kmalloc SIZEOF_VNODE s)) ∧ e = - E_NOMEM ∧ t = None) ∨
      (¬ exhausted SIZEOF_VNODE s ∧ Z.land flags_ O_DIRECTORY = 0 ∧ ¬ exhausted SIZEOF_FILE (snd (kmalloc SIZEOF_VNODE s)) ∧ e = 0 ∧ t = Some (New p name_)) →
      answers v s root base path flags_ e t.

(** ** The checks of the code *)

Lemma flags_ok_spec flags_ : 0 <= flags_ < 2 ^ 32 →
  negb (Z.land flags_ (UINT32_MAX - open_allowed) =? 0) || (Z.land flags_ O_ACCMODE =? 3)
    || (negb (Z.land flags_ O_TRUNC =? 0) && (Z.land flags_ O_ACCMODE =? 0)) = false ↔ flags_ok flags_.
Proof.
  intros Hf. assert (Z.land flags_ (UINT32_MAX - open_allowed) = 0 ↔
    ∀ i, 0 <= i < 32 → Z.testbit flags_ i = true → i ∈ [0; 1; 6; 7; 9; 10; 16; 17]) as Hbits.
  { assert (∀ i, 0 <= i < 32 → Z.testbit (UINT32_MAX - open_allowed) i = negb (bool_decide (i ∈ [0; 1; 6; 7; 9; 10; 16; 17]))) as Hm.
    { intros i Hi. assert (i ∈ Z.of_nat <$> seq 0 32) as Hin by (apply list_elem_of_fmap; exists (Z.to_nat i); rewrite elem_of_seq; lia).
      clear Hi. revert i Hin. apply Forall_forall. repeat constructor. }
    split.
    - intros E i Hi Ht. assert (Z.testbit (Z.land flags_ (UINT32_MAX - open_allowed)) i = false) as Hz by (rewrite E; apply Z.bits_0).
      rewrite Z.land_spec, Ht, (Hm i Hi) in Hz. cbn [andb] in Hz. apply negb_false_iff, bool_decide_eq_true in Hz. done.
    - intros Ha. apply Z.bits_inj'. intros i Hi. rewrite Z.land_spec, Z.bits_0. destruct (decide (i < 32)) as [Hl|Hl].
      + destruct (Z.testbit flags_ i) eqn:Et; [|done]. cbn [andb]. rewrite (Hm i) by lia. apply negb_false_iff, bool_decide_eq_true. apply Ha; [lia|done].
      + rewrite <- (Z.mod_small flags_ (2 ^ 32)) by done. by rewrite Z.mod_pow2_bits_high by lia. }
  unfold flags_ok. rewrite !orb_false_iff, negb_false_iff, Z.eqb_eq, Hbits, Z.eqb_neq.
  destruct (Z.eqb_spec (Z.land flags_ O_TRUNC) 0), (Z.eqb_spec (Z.land flags_ O_ACCMODE) 0); cbn; naive_solver.
Qed.

Lemma open_error_admits v n flags_ : open_error n flags_ v = 0 → admits v n flags_.
Proof.
  unfold open_error. intros E c [A B|A B|A B C D].
  - rewrite (proj2 (Z.eqb_neq _ _) A), (proj2 (Z.eqb_neq _ _) B) in E. done.
  - rewrite (proj2 (Z.eqb_neq _ _) A), B in E. cbn [negb andb Z.eqb Pos.eqb] in E. rewrite andb_false_r in E. done.
  - rewrite A, (proj2 (Z.eqb_neq _ _) B), C, D in E. done.
Qed.

Lemma open_error_refuses v n flags_ : open_error n flags_ v ≠ 0 → refuses v n flags_ (open_error n flags_ v).
Proof.
  unfold open_error. destruct (Z.eqb_spec (Z.land flags_ O_DIRECTORY) 0), (Z.eqb_spec (type (vn v n)) DT_DIR); cbn [negb andb];
    try (by constructor); destruct (Z.eqb_spec (Z.land flags_ O_ACCMODE) 0); cbn [negb andb]; try done; try (by constructor).
  destruct (Z.eqb_spec (type (vn v n)) DT_REG), (readonly _) eqn:Er; cbn [andb]; try done. by constructor.
Qed.

Lemma file_new_kmalloc ops_ flags_ v f v' :
  file_new ops_ flags_ v = (f, v') → f = fst (kmalloc SIZEOF_FILE (kern v)).
Proof. unfold file_new. destruct (kmalloc _ _) as [o s]. case_if; intros [= <- <-]; cbn [fst]; lia. Qed.

Lemma new_node_kmalloc p nm ty m v n v1 :
  new_node p nm ty m v = (n, v1) → n = fst (kmalloc SIZEOF_VNODE (kern v)) ∧ kern v1 = snd (kmalloc SIZEOF_VNODE (kern v)).
Proof.
  unfold new_node. destruct (kmalloc _ _) as [o s]. cbn [fst snd]. case_if; [intros [= <- <-]; split; [lia|done]|].
  case_if; by intros [= <- <-].
Qed.


(** Where the code looks for the place of a new file. *)
Lemma create_place v root base path : ∃ r, place v root base path r ∧
  open_create root base path v =
    match r with
    | inl e => Some (inl e, v)
    | inr (p, nm) => let '(n, v') := new_node p nm DT_REG (vmount (vn v p)) v in
                     Some (if n =? 0 then inl (- E_NOMEM) else inr n, v')
    end.
Proof.
  unfold open_create. destruct (last_cut_spec path) as (C1 & C2 & C3 & C4).
  destruct (Z.eqb_spec (Z.of_nat (length path)) 0) as [E0|Hl0]; cbn [orb].
  { exists (inl (- E_INVAL)). split; [|done]. apply place_bad. left. destruct path; [done|]. cbn in E0. lia. }
  destruct (Z.geb_spec (Z.of_nat (length path)) PATH_LIMIT) as [Hl|Hl]; cbn [orb].
  { exists (inl (- E_INVAL)). split; [|done]. apply place_bad. auto. }
  destruct (bool_decide_reflect (last path = Some SLASH)) as [Hs|Hs].
  { exists (inl (- E_INVAL)). split; [|done]. apply place_bad. auto. }
  assert (split_path path (take (last_cut path) path) (drop (last_cut path) path)) as Hsp.
  { split; [by rewrite take_drop|]. split; [|exact C1]. rewrite Forall_forall in C2. intros Hin. by apply (C2 _ Hin). }
  assert (drop (last_cut path) path ≠ []) as Hne by (intros E; destruct (C4 E) as [->|]; done).
  assert (Z.of_nat (length path) - Z.of_nat (last_cut path) = Z.of_nat (length (drop (last_cut path) path))) as -> by (rewrite length_drop; lia).
  destruct (Z.geb_spec (Z.of_nat (length (drop (last_cut path) path))) NAME_LIMIT) as [Hn|Hn].
  { exists (inl (- E_NAMETOOLONG)). split; [|done]. by eapply place_long. }
  set (dir := take (last_cut path) path) in *. set (nm := drop (last_cut path) path) in *.
  assert (last_cut path = O ↔ dir = []) as Hcut.
  { unfold dir. split; [by intros ->|]. intros E. destruct (last_cut path); [done|]. destruct path; [done|discriminate E]. }
  assert (∀ p, (if bool_decide (last_cut path = O) then Some (inr base) else vfs_resolve v root base dir false) = Some (inr p) →
    dir = [] ∧ p = base ∨ dir ≠ [] ∧ vfs_resolve v root base dir false = Some (inr p)) as Hp.
  { intros p. destruct (bool_decide_reflect (last_cut path = O)) as [E|E]; [intros [= <-]; left; by rewrite <- Hcut|right; by rewrite <- Hcut]. }
  assert (∃ r, (if bool_decide (last_cut path = O) then Some (inr base) else vfs_resolve v root base dir false) = Some r) as [r Hr].
  { case_if; [eauto|apply resolve_returns]. }
  assert (∀ c, r = inl c → place v root base path (inl c)) as Hlost.
  { intros c ->. revert Hr. destruct (bool_decide_reflect (last_cut path = O)) as [E|E]; [done|]. intros Hr.
    eapply place_lost; try done. by rewrite <- Hcut. }
  rewrite Hr. destruct r as [c|p]; [exists (inl c); split; [by apply Hlost|done]|].
  specialize (Hp p Hr). eexists. split; [by eapply place_found|].
  destruct (Z.eqb_spec (type (vn v p)) DT_DIR); cbn [negb]; [rewrite decide_False by tauto|by rewrite decide_True].
  destruct (readonly _); [by rewrite decide_True|]. rewrite decide_False by done.
  destruct (Z.eqb_spec (child v p nm) 0); cbn [negb]; [rewrite decide_False by tauto|by rewrite decide_True].
  destruct (new_node _ _ _ _ _) as [n v']. by case_if.
Qed.
End Answers.

(** * The file that is opened, and the others *)

Section Opened.
Context `{HeapContract} `{Backends}.
Context (U O : list Z) (lo hi : Z) (Hspan : hi - lo < 2 ^ 62).

(** The vnode and the contents of the file [x] are as they were. *)
Definition intact (v v' : vfs) (x : Z) : Prop :=
  vn v' x = vn v x ∧ kept U (node_pages (vn v x) ++ O) (mem (kern v)) (mem (kern v')).

(** What the open file [f] is of: the vnode found, emptied only when that is asked for,
    or a new empty file at the end of its directory.  No other file is touched. *)
Definition opens (v v' : vfs) (f flags_ : Z) (t : option target) : Prop :=
  let n := node (fl v' f) in
  match t with
  | None => f = 0 ∧ ∀ x, is_node v x → intact v v' x
  | Some (Existing m) => n = m ∧ ∀ x, is_node v x → intact v v' x ∨ (x = m ∧ Z.land flags_ O_TRUNC ≠ 0)
  | Some (New p nm) =>
      ¬ is_node v n ∧ parent (vn v' n) = p ∧ name (vn v' n) = nm ∧ type (vn v' n) = DT_REG ∧ size (vn v' n) = 0 ∧
      children (vn v' p) = children (vn v p) ++ [n] ∧
      ∀ x, is_node v x → kept U (node_pages (vn v x) ++ O) (mem (kern v)) (mem (kern v')) ∧
        vn v' x = if decide (x = p) then with_children (children (vn v x) ++ [n]) (vn v x) else vn v x
  end.

Lemma node_pages_block v x : x ∈ nodes v → node_pages (vn v x) ++ O ⊆ block_pages v ++ O.
Proof.
  intros Hx p. rewrite !elem_of_app. intros [Hp|Hp]; [left|by right]. unfold block_pages. apply list_elem_of_bind. eauto.
Qed.

Lemma node_pages_other v n x : x ∈ nodes v → x ≠ n → node_pages (vn v x) ++ O ⊆ other_pages v n ++ O.
Proof.
  intros Hx Hne p. rewrite !elem_of_app. intros [Hp|Hp]; [left|by right]. unfold other_pages. apply list_elem_of_bind.
  exists x. split; [done|]. by apply list_elem_of_filter.
Qed.

(** A vnode that admits the open: the description made for it, or no memory. *)
Lemma open_node_opens v L n flags_ e f v' :
  vfs_ok U O lo hi v L → is_node v n → open_error n flags_ v = 0 → open_node n false flags_ v = (e, f, v') →
  (f = 0 ∧ e = - E_NOMEM ∧ exhausted SIZEOF_FILE (kern v) ∧ (∃ s F P, v' = set_kern s v ∧ store_ok U O lo hi v' F P L) ∧
     kept U (block_pages v ++ O) (mem (kern v)) (mem (kern v'))) ∨
  (f ≠ 0 ∧ e = 0 ∧ ¬ exhausted SIZEOF_FILE (kern v) ∧ node (fl v' f) = n ∧
     kept U (other_pages v n ++ O) (mem (kern v)) (mem (kern v')) ∧ (∀ x, x ≠ n → vn v' x = vn v x) ∧
     (shape (vn v' n) = shape (vn v n) ∧ (size (vn v n) = 0 → size (vn v' n) = 0)) ∧
     (Z.land flags_ O_TRUNC = 0 → vn v' n = vn v n ∧ kept U (block_pages v ++ O) (mem (kern v)) (mem (kern v')))).
Proof.
  intros Hv Hn He. unfold open_node. rewrite He. cbn [Z.eqb negb]. destruct (vk_store _ _ _ _ v L Hv) as (F & P & Hs).
  destruct (file_new _ _ v) as [g v1] eqn:Ef. pose proof (file_new_kmalloc _ _ _ _ _ Ef) as Eg.
  destruct (file_new_spec _ _ _ _ Hspan _ _ _ _ _ _ _ _ Hs Ef)
    as [(-> & s & F' & P' & -> & Hs' & Hk)|(Hg & HgL & s & F' & P' & -> & Hs' & Hk)].
  { cbn [Z.eqb]. intros [= <- <- <-]. left. split; [done|]. split; [done|]. split; [by symmetry|]. split; [eauto 6|exact Hk]. }
  rewrite (proj2 (Z.eqb_neq _ _) Hg). destruct (opened_ok U O lo hi v L n g _ _ s F' P' Hv Hn HgL Hs') as (Hok & Hfiles & Hsame).
  set (v2 := update_file _ g _) in *. intros [= <- <- <-]. right. split; [done|]. split; [done|].
  split; [unfold exhausted; congruence|].
  assert (vnodes v2 = vnodes v ∧ nodes v2 = nodes v) as [Ev En] by done.
  assert (∀ x, vn v2 x = vn v x) as Evn by done.
  assert (other_pages v2 n = other_pages v n) as Eo by done.
  assert (kept U (other_pages v n ++ O) (mem (kern v)) (mem (kern v2))) as Hko.
  { eapply kept_sub; [|exact Hk]. intros p. rewrite !elem_of_app. intros [Hp|Hp]; [left|by right].
    rewrite (block_pages_split v n); [apply elem_of_app; by right|apply (so_nodes _ _ _ _ _ _ _ _ Hs)|by apply (so_dom _ _ _ _ _ _ _ _ Hs)]. }
  assert (node (fl v2 g) = n) as Enode by (unfold fl; rewrite Hfiles; by rewrite lookup_total_insert_eq).
  destruct (Z.eqb_spec (Z.land flags_ O_TRUNC) 0) as [Ht|Ht]; cbn [negb]; [by repeat (split; [done|])|].
  assert (is_node v2 n) as Hn2 by (by apply Hsame).
  destruct (truncate_spec U O lo hi v2 _ n Hok Hn2) as (_ & T2 & T3 & T4 & T5).
  split; [unfold fl; by rewrite T4|]. split; [eapply kept_trans; [exact Hko|by rewrite <- Eo]|].
  split; [intros x Hx; unfold truncate; by rewrite vn_update, decide_False|].
  split; [|done]. split; [by rewrite (same_tree_shape _ _ n T2)|done].
Qed.

(** ** The vnode was there *)

Lemma excl_spec flags_ : (Z.land flags_ (Z.lor O_CREAT O_EXCL) =? Z.lor O_CREAT O_EXCL) = true ↔
  Z.land flags_ O_CREAT ≠ 0 ∧ Z.land flags_ O_EXCL ≠ 0.
Proof.
  rewrite <- !(Z.eqb_neq (Z.land _ _)). change O_CREAT with (2 ^ 6). change O_EXCL with (2 ^ 7). rewrite !land_bit by done.
  rewrite Z.eqb_eq, !negb_false_iff. split.
  - intros E. assert (∀ i, i = 6 ∨ i = 7 → Z.testbit flags_ i = true) as Hb; [|by split; apply Hb; auto].
    intros i Hi. assert (Z.testbit (Z.lor (2 ^ 6) (2 ^ 7)) i = true) as Hm by (by destruct Hi as [-> | ->]).
    rewrite <- E, Z.land_spec, andb_true_iff in Hm. tauto.
  - intros [H6 H7]. apply Z.bits_inj'. intros i Hi. rewrite Z.land_spec, Z.lor_spec, !Z.pow2_bits_eqb by done.
    destruct (Z.eqb_spec 6 i) as [<-|]; [by rewrite H6|]. destruct (Z.eqb_spec 7 i) as [<-|]; [by rewrite H7|]. apply andb_false_r.
Qed.

Lemma intact_same v x : intact v v x.
Proof. split; [done|apply kept_refl]. Qed.

Lemma intact_all v v' L : vfs_ok U O lo hi v L → (∀ x, is_node v x → vn v' x = vn v x) →
  kept U (block_pages v ++ O) (mem (kern v)) (mem (kern v')) → ∀ x, is_node v x → intact v v' x.
Proof.
  intros Hv Hn Hk x Hx. split; [by apply Hn|]. eapply kept_sub; [|exact Hk]. apply node_pages_block.
  destruct (vk_store _ _ _ _ v L Hv) as (F & P & Hs). by apply (so_dom _ _ _ _ _ _ _ _ Hs).
Qed.

Lemma found_answers v L root base path flags_ n e f v' :
  vfs_ok U O lo hi v L → flags_ok flags_ → is_node v n →
  vfs_resolve v root base path (negb (Z.land flags_ O_NOFOLLOW =? 0)) = Some (inr n) →
  Z.land flags_ O_CREAT = 0 ∨ Z.land flags_ O_EXCL = 0 → open_node n false flags_ v = (e, f, v') →
  ∃ t, answers v (kern v) root base path flags_ e t ∧ opens v v' f flags_ t.
Proof.
  intros Hv Hfl Hn Hres Hex E. destruct (vk_store _ _ _ _ v L Hv) as (F & P & Hs).
  destruct (decide (open_error n flags_ v = 0)) as [Ee|Ee].
  - pose proof (open_error_admits _ _ _ Ee) as Had.
    destruct (open_node_opens v L n flags_ e f v' Hv Hn Ee E) as [(-> & -> & Hx & (s & _ & _ & -> & _) & Hk)|(Hf & -> & Hx & En & Hko & Hvn & _ & Ht)].
    + exists None. split; [eapply answer_found; eauto 6|]. split; [done|]. by apply (intact_all v _ L).
    + exists (Some (Existing n)). split; [eapply answer_found; eauto 7|]. split; [done|]. intros x Hxn.
      destruct (decide (Z.land flags_ O_TRUNC = 0)) as [E0|E0].
      * left. destruct (Ht E0) as [Evn Hk]. apply (intact_all v v' L Hv); [|done|done]. intros y _.
        destruct (decide (y = n)) as [->|]; [done|by apply Hvn].
      * destruct (decide (x = n)) as [->|Hne]; [by right|left]. split; [by apply Hvn|].
        eapply kept_sub; [|exact Hko]. apply node_pages_other; [by apply (so_dom _ _ _ _ _ _ _ _ Hs)|done].
  - pose proof (open_error_refuses _ _ _ Ee) as Href. unfold open_node in E. rewrite (proj2 (Z.eqb_neq _ _) Ee) in E.
    cbn [negb] in E. injection E as <- <- <-. exists None. split; [eapply answer_found; eauto|].
    split; [done|]. intros x _. apply intact_same.
Qed.

(** ** The vnode is made *)

Lemma place_parent v root base path p nm :
  tree_ok v → is_node v root → within v root base → place v root base path (inr (p, nm)) →
  within v root p ∧ type (vn v p) = DT_DIR ∧ readonly (mnt v (vmount (vn v p))) = false.
Proof.
  intros Ht Hr Hb Hp. inversion Hp as [| | |dir nm' p' r Hsp Hne Hl Hnl Hdir E]; subst.
  case_decide as Hty; [done|]. case_decide as Hro; [done|]. case_decide; [done|]. injection E as <- <-.
  split; [|split; [|by destruct (readonly _)]].
  - destruct Hdir as [[_ ->]|[_ Hres]]; [done|]. by eapply resolve_within.
  - destruct (decide (type (vn v p) = DT_DIR)); [done|]. by destruct Hty.
Qed.

Lemma made_error v v1 p nm n flags_ :
  grown v v1 p n (fresh_node p nm DT_REG (vmount (vn v p)) (next_inode v)) → readonly (mnt v (vmount (vn v p))) = false →
  open_error n flags_ v1 = if decide (Z.land flags_ O_DIRECTORY = 0) then 0 else - E_NOTDIR.
Proof.
  intros Hg Hro. unfold open_error. rewrite (gr_new _ _ _ _ _ Hg). cbn [type vmount fresh_node].
  rewrite (grown_mnt _ _ _ _ _ _ Hg), Hro, !andb_false_r. case_decide as E; [by rewrite E|by rewrite (proj2 (Z.eqb_neq _ _) E)].
Qed.

Lemma made_answers v L root base path flags_ p nm n v1 e f v' :
  vfs_ok U O lo hi v L → is_node v root → within v root base → c_chars path → flags_ok flags_ →
  vfs_resolve v root base path (negb (Z.land flags_ O_NOFOLLOW =? 0)) = Some (inl (- E_NOENT)) →
  Z.land flags_ O_CREAT ≠ 0 → place v root base path (inr (p, nm)) → open_create root base path v = Some (inr n, v1) →
  new_node p nm DT_REG (vmount (vn v p)) v = (n, v1) → n ≠ 0 → open_node n true flags_ v1 = (e, f, v') →
  ∃ t, answers v (kern v) root base path flags_ e t ∧ opens v v' f flags_ t.
Proof.
  intros Hv Hr Hb Hch Hfl Hres Hcr Hp Eoc En Hn E. pose proof (vk_tree _ _ _ _ v L Hv) as Ht.
  destruct (place_parent _ _ _ _ _ _ Ht Hr Hb Hp) as (Hpw & Hpd & Hpr). pose proof (within_node _ _ _ Hpw Hr) as Hpn.
  destruct (open_create_spec U O lo hi v L root base path _ Hv Hr Hb Hch Hres) as (r & v1' & E1 & Hff).
  rewrite Eoc in E1. injection E1 as <- <-. destruct (fresh_file_ok U O lo hi v v1 root n L Hv Hr Hff) as (Hv1 & Hnn & _ & Hsz & _).
  destruct (vk_store _ _ _ _ v L Hv) as (F & P & Hs). destruct (new_node_kmalloc _ _ _ _ _ _ _ En) as [En1 Ek].
  assert (p ≠ 0) as Hp0 by (intros ->; by apply (to_null v Ht)).
  destruct (new_node_spec U O lo hi v F P L _ _ _ _ _ _ Hs ltac:(done) En) as [[]|(_ & HnL & _ & Hg & Hk & _)]; [done|].
  rewrite decide_False in Hg by done. assert (¬ exhausted SIZEOF_VNODE (kern v)) as Hvx by (unfold exhausted; congruence).
  assert (∀ x, x ∈ nodes v → is_node v x) as Hdom by (intros x; apply (so_dom _ _ _ _ _ _ _ _ Hs)).
  pose proof (block_pages_grown v v1 p n _ Hdom Hg ltac:(done)) as Ebp.
  rewrite open_node_created in E. pose proof (made_error _ _ _ _ _ flags_ Hg Hpr) as Ee.
  assert (∀ s F' P', store_ok U O lo hi (set_kern s v1) F' P' ({[n]} ∪ L) → kept U (block_pages v ++ O) (mem (kern v)) (mem s) →
    ∀ x, is_node v x → intact v (remove_node n (set_kern s v1)) x) as Hback.
  { intros s F' P' Hs' Hks. assert (grown v (set_kern s v1) p n (fresh_node p nm DT_REG (vmount (vn v p)) (next_inode v))) as Hg' by (by destruct Hg).
    destruct (remove_node_spec U O lo hi Hspan v (set_kern s v1) p n _ F P F' P' L Ht Hs Hg' Hpn) as (_ & _ & R3 & _ & _ & F2 & P2 & _ & R7); try done.
    { apply (ff_tables _ _ _ _ _ _ _ _ _ Hff). }
    apply (intact_all v _ L Hv); [done|]. by eapply kept_trans. }
  destruct (vk_store _ _ _ _ v1 _ Hv1) as (F1 & P1 & Hs1).
  case_decide as Hd.
  2:{ unfold open_node in E. rewrite Ee in E. cbn [Z.eqb Z.opp negb] in E. injection E as <- <- <-. exists None.
      split; [eapply answer_created; eauto 7|]. split; [done|]. destruct v1 as [k1]. eapply (Hback k1); [exact Hs1|exact Hk]. }
  destruct (open_node n false flags_ v1) as [[e1 f1] v2] eqn:Eo.
  destruct (open_node_opens v1 _ n flags_ _ _ _ Hv1 Hnn Ee Eo) as [(-> & -> & Hx & (s & F2 & P2 & -> & Hs2) & Hk2)|(Hf & -> & Hx & Enode & Hko & Hvn & (Hsh & Hsz2) & _)].
  - cbn [Z.eqb] in E. injection E as <- <- <-. exists None. rewrite Ek in Hx. split; [eapply answer_created; eauto 8|].
    split; [done|]. eapply Hback; [exact Hs2|]. rewrite Ebp in Hk2. by eapply kept_trans.
  - rewrite (proj2 (Z.eqb_neq _ _) Hf) in E. injection E as <- <- <-. exists (Some (New p nm)). rewrite Ek in Hx.
    split; [eapply answer_created; eauto 9|].
    assert (∀ x, is_node v x → x ≠ n) as Hxn by (intros x Hx' ->; by apply (gr_fresh _ _ _ _ _ Hg)).
    unfold opens. rewrite Enode. unfold shape in Hsh. rewrite (gr_new _ _ _ _ _ Hg) in Hsh. cbn in Hsh.
    split; [apply (gr_fresh _ _ _ _ _ Hg)|]. do 3 (split; [congruence|]). split; [by apply Hsz2|].
    split; [rewrite Hvn by (by apply Hxn); rewrite (gr_old _ _ _ _ _ Hg) by done; by rewrite decide_True|].
    intros x Hx'. split; [|rewrite Hvn by (by apply Hxn); by apply (gr_old _ _ _ _ _ Hg)].
    eapply kept_trans; [eapply kept_sub; [apply node_pages_block; by apply (so_dom _ _ _ _ _ _ _ _ Hs)|exact Hk]|].
    replace (node_pages (vn v x)) with (node_pages (vn v1 x)) by (rewrite (gr_old _ _ _ _ _ Hg) by done; by case_decide).
    eapply kept_sub; [|exact Hko]. apply node_pages_other; [|by apply Hxn]. apply (so_dom _ _ _ _ _ _ _ _ Hs1). apply (gr_dom _ _ _ _ _ Hg). by right.
Qed.

(** ** The whole call *)

Lemma target_answers v L root base path flags_ r created v1 :
  vfs_ok U O lo hi v L → is_node v root → within v root base → c_chars path → flags_ok flags_ →
  open_target root base path flags_ v = Some (r, created, v1) →
  match r with
  | inl e => answers v (kern v) root base path flags_ e None ∧ ∀ x, is_node v x → intact v v1 x
  | inr n => ∀ e f v', open_node n created flags_ v1 = (e, f, v') →
      ∃ t, answers v (kern v) root base path flags_ e t ∧ opens v v' f flags_ t
  end.
Proof.
  intros Hv Hr Hb Hch Hfl. pose proof (vk_tree _ _ _ _ v L Hv) as Ht. unfold open_target.
  destruct (resolve_returns v root base path (negb (Z.land flags_ O_NOFOLLOW =? 0))) as [found Hf]. rewrite Hf.
  destruct found as [c|n].
  - destruct (decide (c = - E_NOENT ∧ Z.land flags_ O_CREAT ≠ 0)) as [[-> Hcr]|Hno].
    + rewrite (proj2 (Z.eqb_neq _ _) Hcr). change (- E_NOENT =? - E_NOENT) with true. cbn [andb negb].
      destruct (create_place v root base path) as (pl & Hpl & E). destruct pl as [c|[p nm]].
      { rewrite E. intros [= <- <- <-]. split; [by eapply answer_place|]. intros x _. apply intact_same. }
      destruct (new_node p nm DT_REG (vmount (vn v p)) v) as [n v2] eqn:En. rewrite E. intros [= <- <- <-].
      destruct (Z.eqb_spec n 0) as [->|Hn].
      * destruct (new_node_kmalloc _ _ _ _ _ _ _ En) as [Ex _]. split; [eapply answer_created; try done; left; by split|].
        destruct (vk_store _ _ _ _ v L Hv) as (F & P & Hs).
        destruct (place_parent _ _ _ _ _ _ Ht Hr Hb Hpl) as (Hpw & _ & _). pose proof (within_node _ _ _ Hpw Hr) as Hpn.
        destruct (new_node_spec U O lo hi v F P L _ _ _ _ _ _ Hs ltac:(done) En) as [(_ & s & F' & P' & -> & _ & Hk)|[]]; [|done].
        by apply (intact_all v _ L).
      * intros e f v' Eo. eapply made_answers; try done.
    + assert ((c =? - E_NOENT) && negb (Z.land flags_ O_CREAT =? 0) = false) as ->.
      { destruct (Z.eqb_spec c (- E_NOENT)), (Z.eqb_spec (Z.land flags_ O_CREAT) 0); cbn; tauto. }
      intros [= <- <- <-]. split; [|intros x _; apply intact_same]. eapply answer_lost; [done|done|].
      destruct (decide (c = - E_NOENT)), (decide (Z.land flags_ O_CREAT = 0)); tauto.
  - destruct (Z.land flags_ (Z.lor O_CREAT O_EXCL) =? Z.lor O_CREAT O_EXCL) eqn:Ex.
    + cbn [Z.eqb Z.opp Pos.eqb andb]. intros [= <- <- <-]. apply excl_spec in Ex as [Hc He].
      split; [by eapply answer_exists|]. intros x _. apply intact_same.
    + intros [= <- <- <-] e f v' Eo. apply (found_answers v L root base path flags_ n); try done.
      * exact (within_node _ _ _ (resolve_within _ _ _ _ _ _ Ht Hr Hb Hf) Hr).
      * rewrite <- not_true_iff_false, excl_spec in Ex.
        destruct (decide (Z.land flags_ O_CREAT = 0)), (decide (Z.land flags_ O_EXCL = 0)); tauto.
Qed.

Lemma place_kern v s root base path r :
  mem s = mem (kern v) → place (set_kern s v) root base path r → place v root base path r.
Proof.
  intros Hm [Hb|dir nm|dir nm c H1' H2 H3 H4 H5 H6|dir nm p r' H1' H2 H3 H4 H5 H6].
  - by apply place_bad.
  - by eapply place_long.
  - rewrite resolve_kern in H6 by done. by eapply place_lost.
  - rewrite resolve_kern in H5 by done. by eapply place_found.
Qed.

Lemma answers_kern v s root base path flags_ e t :
  mem s = mem (kern v) → answers (set_kern s v) s root base path flags_ e t → answers v s root base path flags_ e t.
Proof.
  intros Hm Ha. destruct Ha as [|c A B|n A B|n e t A B C D|c A B C D|p nm e t A B C D E]; try rewrite resolve_kern in B by done.
  - by apply answer_flags.
  - by apply answer_lost.
  - by eapply answer_exists.
  - eapply answer_found; [done|done|done|]. destruct D as [[D ->]|[(D & D')|(D & D')]].
    + left. split; [|done]. by destruct D; constructor.
    + right; left. split; [|done]. intros c Hc. apply (D c). by destruct Hc; constructor.
    + right; right. split; [|done]. intros c Hc. apply (D c). by destruct Hc; constructor.
  - eapply answer_place; try done. by eapply place_kern.
  - eapply answer_created; try done. by eapply place_kern.
Qed.

Lemma opens_kern v v' s s' f flags_ t :
  mem s = mem (kern v) → mem s' = mem (kern v') → opens (set_kern s v) v' f flags_ t → opens v (set_kern s' v') f flags_ t.
Proof.
  intros Hm Hm'. unfold opens, intact. change (mem (kern (set_kern s v))) with (mem s).
  change (mem (kern (set_kern s' v'))) with (mem s'). rewrite Hm, Hm'. done.
Qed.

Lemma vfs_openat_answers v L root base path flags_ e f v' :
  vfs_ok U O lo hi v L → is_node v root → within v root base → c_chars path → 0 <= flags_ < 2 ^ 32 →
  vfs_openat root base path flags_ v = Some (e, f, v') →
  ∃ t, answers v (irq_save (kern v)).2 root base path flags_ e t ∧ opens v v' f flags_ t.
Proof.
  intros Hv Hr Hb Hch Hfl. unfold vfs_openat. destruct (_ || _) eqn:Efl.
  { intros [= <- <- <-]. exists None. split; [|split; [done|]; intros x _; apply intact_same].
    apply answer_flags. rewrite <- flags_ok_spec, Efl by done. done. }
  apply flags_ok_spec in Efl; [|done]. unfold irq_save. cbv zeta. cbn [snd]. set (s0 := csr_clear_sstatus SSTATUS_SIE (kern v)).
  set (v0 := set_kern s0 v). assert (vfs_ok U O lo hi v0 L) as Hv0 by (by apply vfs_ok_ram).
  assert (within v0 root base) as Hb0 by (by apply (within_same v)). assert (mem s0 = mem (kern v)) as Hm by done.
  destruct (open_target root base path flags_ v0) as [[[[c|n] created] v1]|] eqn:Et; [| |done].
  - destruct (target_answers v0 L _ _ _ _ _ _ _ Hv0 Hr Hb0 Hch Efl Et) as [Ha Hi]. intros [= <- <- <-]. exists None.
    split; [by apply answers_kern|]. apply (opens_kern v v1 s0); [done|apply irq_restore_ram|]. split; [done|exact Hi].
  - destruct (open_node n created flags_ v1) as [[e1 f1] v2] eqn:Eo. intros [= <- <- <-].
    destruct (target_answers v0 L _ _ _ _ _ _ _ Hv0 Hr Hb0 Hch Efl Et _ _ _ Eo) as (t & Ha & Ho). exists t.
    split; [by apply answers_kern|]. apply (opens_kern v v2 s0); [done|apply irq_restore_ram|exact Ho].
Qed.
End Opened.
