(* ===== verification/VfsThms.v ===== *)
(** What the file system of [src/fs/vfs.c] guarantees, and a small archive on which
    the theorems are applied. *)
From S2P Require Import Prelude Machine Runtime PageAlloc HeapSpec Ownership Outcome Vfs VfsInit VfsTree VfsInv VfsBuild VfsFiles VfsOpen VfsOpenat.
From S2P Require Import KList Log Heap HeapProps HeapThms HeapInstance Bench.
From Stdlib Require String.
Import String.StringSyntax.

Section Theorems.
Context `{HeapContract} `{Backends}.

(** C21. Path resolution always returns, whatever links the tree contains, and cannot
    leave the root: from a directory inside the root it ends inside the root, not
    under a mount, or with an error code (negative). *)
Theorem vfs_resolve_contained (v : vfs) (root base : Z) (path : list Z) (nofollow : bool) :
  tree_ok v → is_node v root → within v root base →
  ∃ r, vfs_resolve v root base path nofollow = Some r ∧
    match r with inl e => e < 0 | inr n => is_node v n ∧ within v root n end.
Proof.
  intros Ht Hr Hb. destruct (resolve_returns v root base path nofollow) as [r E]. exists r. split; [done|].
  destruct r as [e|n]; [by eapply resolve_error|].
  pose proof (resolve_within _ _ _ _ _ _ Ht Hr Hb E) as Hw. split; [by eapply within_node|done].
Qed.

(** C24. [vfs_getcwd] always returns; the path it gives resolves to the directory it
    was asked for, across mounts, and its result is the length with the NUL, within
    the buffer. *)
Theorem vfs_getcwd_resolves (v : vfs) (root cwd size_ base : Z) (nofollow : bool) :
  tree_ok v → is_node v root → within v root cwd → type (vn v cwd) = DT_DIR →
  ∃ r p, vfs_getcwd v root cwd size_ = Some (r, p) ∧
    (r = - E_NAMETOOLONG ∨ r = - E_INVAL ∨
     r = Z.of_nat (length p) + 1 ∧ r <= Z.min size_ PATH_LIMIT ∧
     vfs_resolve v root base p nofollow = Some (inr cwd)).
Proof.
  intros Ht Hr Hw Hd. unfold vfs_getcwd.
  destruct (getcwd_loop_returns v root (Z.to_nat PATH_LIMIT + 1) cwd (PATH_LIMIT - 1) [] ltac:(lia)) as [r Er]. rewrite Er.
  destruct r as [e|q].
  { eexists _, _. split; [reflexivity|]. left. by eapply getcwd_loop_error. }
  destruct (getcwd_loop_path v root nofollow (Z.to_nat PATH_LIMIT + 1) cwd (PATH_LIMIT - 1) [] q Ht Hr Hw Hd ltac:(lia) Er)
    as (p & k & -> & Hk & Hlen & Hnil & Hslash & Hres).
  rewrite app_nil_r. set (path := match p with [] => [SLASH] | _ => p end).
  destruct (Z.gtb_spec (Z.of_nat (length path) + 1) size_); [eauto 10|].
  eexists _, _. split; [reflexivity|]. right. right. split; [done|].
  assert (Z.of_nat (length path) + 1 <= PATH_LIMIT) as Hpl by (unfold path; destruct p; cbn [length] in *; lia).
  split; [lia|]. apply (getcwd_resolve_path v root base cwd nofollow p k); try done.
Qed.

(** C22. [vfs_init] terminates and reads nothing outside the archive, whatever is in
    it.  When it succeeds the file system is well formed, with the boot mounts: a
    read-only root, a writable file system mounted on its directory [tmp], a read-only
    one on its directory [dev] whose entries are the devices [console] and [null], and
    no other; when it fails every object and page it took is given back, and it can be
    called again. *)
Theorem vfs_init_correct (U O : list Z) (archive asize : Z) (v : vfs) (F P : list Z) (L : gset Z) :
  0 < archive → asize < 2 ^ 62 → vfs_empty v → length (mounts v) = 3%nat → files v = ∅ ∧ live_files v = 0 →
  bare U (kern v) F P L O →
  wp (vfs_init archive asize v) (λ '(ok, v'),
    if ok : bool
    then vfs_ok U O archive (archive + asize) v' (list_to_set (nodes v') ∪ L) ∧ boot_mounts v' ∧ devices v' ∧
      is_node v' (vfs_root v') ∧ kept U O (mem (kern v)) (mem (kern v'))
    else vfs_empty v' ∧ (files v' = ∅ ∧ live_files v' = 0) ∧
      ∃ F' P', bare U (kern v') F' P' L O ∧ kept U O (mem (kern v)) (mem (kern v'))).
Proof.
  intros Ha Hs He Hl Hi Hb.
  eapply wp_mono; [|exact (vfs_init_spec U O archive asize L (mem (kern v)) Ha Hs v F P He Hl Hb Hi eq_refl)].
  intros [[|] v'] Hpost; [|exact Hpost]. destruct Hpost as (Ho & Hbu & Hd).
  split; [by eapply vfs_ok_built|]. split; [by apply building_mounts|]. split; [done|]. split; [apply (bu_root 3 v' Hbu)|apply Ho].
Qed.

(** [vfs_shutdown] gives back every vnode and every page of every file, and
    touches nothing else. *)
Theorem vfs_shutdown_reclaims (U O : list Z) (lo hi : Z) (v : vfs) (L : gset Z) :
  vfs_ok U O lo hi v L →
  let v' := vfs_shutdown v in
  vfs_empty v' ∧ ∃ F P, bare U (kern v') F P (L ∖ list_to_set (nodes v)) O ∧ F ++ P ++ O ≡ₚ U ∧
    kept U O (mem (kern v)) (mem (kern v')).
Proof.
  intros Hv v'. destruct (vk_store _ _ _ _ _ _ Hv) as (F & P & Hs).
  destruct (vfs_shutdown_spec _ _ _ _ _ _ _ _ Hs) as (He & _ & F' & P' & Hb & Hk).
  split; [done|]. exists F', P'. split; [done|]. split; [apply Hb|done].
Qed.

(** C19. Opening always returns, with the answer the path and the flags call for
    ([answers]): an error exactly when the flags make no sense, the path leads nowhere
    or to a file that may not be opened so, or memory runs out; otherwise the file the
    path leads to or, under [O_CREAT] when the path leads nowhere, a new empty regular
    file of the last name in the directory the rest of the path leads to.  On an error no
    open file is made and the whole namespace, a vnode created on the way included, is as
    it was; on success there is one more open file, of that vnode, which lies inside the
    root.  The contents of every file are kept, but for the opened one under [O_TRUNC],
    which is then empty; the invariant holds either way. *)
Theorem vfs_openat_correct (U O : list Z) (lo hi : Z) (v : vfs) (L : gset Z) (root base : Z) (path : list Z) (flags_ : Z) :
  hi - lo < 2 ^ 62 → vfs_ok U O lo hi v L → is_node v root → within v root base → c_chars path → 0 <= flags_ < 2 ^ 32 →
  ∃ e f v' t, vfs_openat root base path flags_ v = Some (e, f, v') ∧
    ((e < 0 ∧ f = 0 ∧ open_failed U O lo hi v v' L) ∨ (e = 0 ∧ open_done U O lo hi v v' root f flags_ L)) ∧
    answers v (irq_save (kern v)).2 root base path flags_ e t ∧ opens U O v v' f flags_ t.
Proof.
  intros Hsp Hv Hr Hb Hc Hfl.
  destruct (vfs_openat_spec U O lo hi Hsp v L root base path flags_ Hv Hr Hb Hc) as (e & f & v' & E & Hcase).
  destruct (vfs_openat_answers U O lo hi Hsp v L root base path flags_ e f v' Hv Hr Hb Hc Hfl E) as (t & Ha & Ho).
  exists e, f, v', t. done.
Qed.

(** C23. A write to a regular file changes the bytes it says it has written and no
    other byte of any file: all that fit below the limit of the file, or fewer, and then
    no page is free any more; nothing on a read-only mount, a directory or a read-only
    descriptor. *)
Theorem file_write_correct (U O : list Z) (lo hi : Z) (v : vfs) (L : gset Z) (thread f buffer size_ : Z) :
  hi - lo < 2 ^ 62 → vfs_ok U O lo hi v L → is_Some (files v !! f) → ops (fl v f) = regular_ops → 0 <= size_ →
  (∀ a, buffer <= a < buffer + size_ → region U O a) →
  ∃ r v', file_write thread f buffer size_ v = Some (Did r, v') ∧ vfs_ok U O lo hi v' L ∧ write_outcome U O v v' f buffer size_ r.
Proof. intros Hsp. intros. by apply file_write_spec. Qed.

(** C20. What is written is read back: after a write of [r] bytes, a read of [r] bytes
    at the position of the write, through any readable descriptor of the same file,
    delivers exactly the bytes that were in the writer's buffer. *)
Theorem file_write_read_roundtrip (U O : list Z) (lo hi : Z) (v v' : vfs) (L : gset Z) (thread f g buffer target size_ r : Z) :
  hi - lo < 2 ^ 62 → vfs_ok U O lo hi v L → is_Some (files v !! f) → ops (fl v f) = regular_ops → 0 <= size_ →
  (∀ a, buffer <= a < buffer + size_ → region U O a) →
  file_write thread f buffer size_ v = Some (Did r, v') → 0 < r →
  is_Some (files v !! g) → ops (fl v g) = regular_ops → node (fl v g) = node (fl v f) → g ≠ f →
  Z.land (flags (fl v g)) O_ACCMODE ≠ O_WRONLY → buffer_ok U O lo hi target r →
  let off := offset (fl (positioned f v) f) in
  ∃ s, file_pread g target r off v' = Some (r, set_kern s v') ∧
    ∀ j, 0 <= j < r → load8 (mem s) (target + j) = load8 (mem (kern v)) (buffer + j).
Proof.
  intros Hsp Hv Hf Hop Hsz Hbuf Ew Hr Hg Hgop Hgn Hgf Hgfl Htgt off.
  destruct (file_write_spec U O lo hi Hsp v L thread f buffer size_ Hv Hf Hop Hsz Hbuf) as (r' & v2 & E & Hv' & Hout).
  rewrite Ew in E. injection E as <- <-. unfold write_outcome in Hout.
  case_decide; [lia|]. destruct (readonly _); [lia|]. case_decide as Hdir; [lia|].
  destruct Hout as (k & F' & _ & Hw & Hcase). fold off in Hw, Hcase.
  assert (k = r ∧ off < MAX_FILE ∧ k <= MAX_FILE - off) as (-> & Hoff & Hfit).
  { revert Hcase. case_decide; [|intros [-> ->]; case_decide; lia]. unfold write_result, room. case_decide; lia. }
  destruct (wrote_reader U O v v' (node (fl v f)) f g off r _ Hw Hg Hgf) as (Hg' & Efl).
  assert (0 <= off) as Hoff0 by (by eapply positioned_offset).
  destruct (file_pread_spec U O lo hi v' L g target r off Hv' Hg') as (s & Ep & _ & Hdel & _); rewrite ?Efl; try done; try lia.
  rewrite Efl, Hgn in Ep, Hdel. pose proof (wr_size _ _ _ _ _ _ _ _ _ Hw) as Hsize. rewrite decide_True in Hsize by done.
  assert (read_count (vn v' (node (fl v f))) r off = r) as Erc.
  { unfold read_count. rewrite (same_tree_type _ _ _ (wrote_tree _ _ _ _ _ _ _ _ _ Hw)), positioned_vn.
    rewrite (proj2 (Z.eqb_neq _ _) Hdir). lia. }
  rewrite Erc in Ep, Hdel. exists s. split; [done|]. intros j Hj. specialize (Hdel (target + j)). cbn in Hdel.
  rewrite Hdel, decide_True by lia. replace (off + (target + j - target)) with (off + j) by lia.
  rewrite (wr_bytes _ _ _ _ _ _ _ _ _ Hw) by lia. rewrite decide_True by lia. do 2 f_equal. lia.
Qed.

(** Dropping a reference closes the file exactly when it was the last one: then
    the description is freed, otherwise only its count changes; the number of live
    files is the number of open descriptions. *)
Theorem file_put_correct (U O : list Z) (lo hi : Z) (v : vfs) (L : gset Z) (f : Z) :
  hi - lo < 2 ^ 62 → vfs_ok U O lo hi v L → is_Some (files v !! f) → ops (fl v f) ≠ pipe_ops →
  let v' := file_put f v in
  same_tree v v' ∧ file_live_count v' = u64 (Z.of_nat (base.size (files v'))) ∧
  if decide (references (fl v f) = 1) then vfs_ok U O lo hi v' (L ∖ {[f]}) ∧ files v' = delete f (files v)
  else vfs_ok U O lo hi v' L ∧ files v' = <[f := with_references (references (fl v f) - 1) (fl v f)]> (files v).
Proof.
  intros Hsp Hv Hf Hop v'. destruct (file_put_spec U O lo hi Hsp v L f Hv Hf Hop) as [Ht Hcase]. fold v' in Ht, Hcase.
  split; [done|]. split; [|done]. unfold file_live_count. by case_decide; destruct Hcase as [Hok _]; apply Hok.
Qed.

(** A seek goes exactly where it should: to the wanted position when that is one
    of the non-negative 63-bit offsets, and nowhere otherwise; the checks in 64-bit
    arithmetic decide just that. *)
Theorem file_seek_correct (U O : list Z) (lo hi : Z) (v : vfs) (L : gset Z) (f offset_ whence : Z) :
  hi - lo < 2 ^ 62 → vfs_ok U O lo hi v L → is_Some (files v !! f) → ops (fl v f) = regular_ops →
  type (vn v (node (fl v f))) = DT_REG → - 2 ^ 63 <= offset_ < 2 ^ 63 → 0 <= whence →
  let '(r, v') := file_seek f offset_ whence v in
  let t := seek_target v f offset_ whence in
  vfs_ok U O lo hi v' L ∧
  if decide (whence <= SEEK_END ∧ 0 <= t <= INT64_MAX)
  then r = t ∧ files v' = <[f := with_offset t (fl v f)]> (files v) else r = - E_INVAL ∧ files v' = files v.
Proof.
  intros Hsp Hv Hf Ho Ht Hoff Hw. apply file_seek_spec; try done. by apply (regular_node U O lo hi v L).
Qed.

(** A directory is listed in order, each call continuing where the last one
    ended: the entries written are the next ones that fit, they fit the buffer, and
    none are written only at the end of the directory. *)
Theorem file_getdents_correct (U O : list Z) (lo hi : Z) (v : vfs) (L : gset Z) (f size_ : Z) :
  hi - lo < 2 ^ 62 → vfs_ok U O lo hi v L → is_Some (files v !! f) → ops (fl v f) = regular_ops →
  type (vn v (node (fl v f))) = DT_DIR → SIZEOF_DIRENT <= size_ →
  Z.of_nat (length (children (vn v (node (fl v f))))) <= INT64_MAX →
  let '(r, out, v') := file_getdents f size_ v in
  let n := node (fl v f) in
  let off := offset (fl v f) in
  out = listing v n off size_ ∧ r = SIZEOF_DIRENT * Z.of_nat (length out) ∧ 0 <= r <= size_ ∧
  (out = [] → Z.of_nat (length (children (vn v n))) <= off) ∧ vfs_ok U O lo hi v' L ∧ vnodes v' = vnodes v ∧
  files v' = <[f := with_offset (off + Z.of_nat (length out)) (fl v f)]> (files v).
Proof.
  intros Hsp Hv Hf Ho Ht Hsz Hlen. apply file_getdents_spec; try done. by apply (regular_node U O lo hi v L).
Qed.
End Theorems.

(** * An archive *)

Module VfsDemo.
#[local] Existing Instance bench_heap.
#[local] Existing Instance bench_contract.

(** A console without input. *)
#[local] Instance quiet : Backends := {
  console_getc s := (-1, s);
  console_putc _ s := s;
}.

(** Eight hexadecimal digits. *)
Definition field (x : Z) : list Z :=
  (λ i, let d := Z.land (Z.shiftr x (4 * (7 - Z.of_nat i))) 15 in if d <? 10 then 48 + d else 87 + d) <$> seq 0 8.
Definition pad (l : list Z) : list Z := l ++ repeat 0 (Z.to_nat ((- Z.of_nat (length l)) mod 4)).
Definition entry (mode : Z) (name_ content : list Z) : list Z :=
  pad (chars "070701" ++ field 0 ++ field mode ++ field 0 ++ field 0 ++ field 1 ++ field 0 ++
       field (Z.of_nat (length content)) ++ field 0 ++ field 0 ++ field 0 ++ field 0 ++
       field (Z.of_nat (length name_) + 1) ++ field 0 ++ name_ ++ [0]) ++ pad content.
Definition image : list Z :=
  entry 16877 (chars "bin") [] ++ entry 33188 (chars "bin/hi") (chars "Hello") ++
  entry 41471 (chars "link") (chars "bin/hi") ++ entry 0 (chars "TRAILER!!!") [].

Fixpoint write_bytes (m : memory) (a : Z) (l : list Z) : memory :=
  match l with [] => m | b :: l => write_bytes (store8 m a b) (a + 1) l end.

Definition at_ : Z := 1048576.
Definition image_size : Z := Z.of_nat (length image).
Definition loaded : kstate := set_mem (write_bytes (mem booted) at_ image) booted.
Definition start : vfs := mk_vfs loaded [] ∅ (repeat no_mount 3) 0 0 ∅ ∅ [].
Definition fs : vfs := match vfs_init at_ image_size start with Done (_, v) => v | _ => start end.

Example fs_boots : match vfs_init at_ image_size start with Done (ok, _) => ok | _ => false end = true.
Proof. vm_compute. reflexivity. Qed.
Example fs_link : ∃ n, vfs_resolve fs (vfs_root fs) (vfs_root fs) (chars "/tmp/../link") false = Some (inr n) ∧ size (vn fs n) = 5.
Proof. eexists. vm_compute. split; reflexivity. Qed.

Lemma write_bytes_frame l : ∀ m a b, ¬ (a <= b < a + Z.of_nat (length l)) → load8 (write_bytes m a l) b = load8 m b.
Proof.
  induction l as [|x l IH]; intros m a b Hb; [done|]. cbn [write_bytes length] in *.
  rewrite IH by lia. rewrite load8_store8, decide_False by lia. done.
Qed.

(** Low addresses above the heap's variables belong to nobody. *)
Lemma low_region O a : 65536 <= a < 2 ^ 32 → region ram O a.
Proof.
  intros Ha. right. split.
  - intros p Hp Hpa. pose proof ram_ok as Hok. rewrite Forall_forall in Hok. pose proof (base_range p (Hok p Hp)) as Hb.
    unfold in_page in Hpa. clear -Ha Hpa Hb. lia.
  - intros Hs. unfold heap_static, bench_contract, slab_heap_contract, static, in_classes, in_lock in Hs. clear -Ha Hs. lia.
Qed.

Lemma poke_bare U s m' F P L Q a n :
  bare U s F P L Q → (∀ b, a <= b < a + n → region U [] b) → (∀ b, ¬ (a <= b < a + n) → load8 m' b = load8 (mem s) b) →
  bare U (set_mem m' s) F P L Q.
Proof.
  intros Hb Hr Hm. apply (bare_frame U s); try done. intros b Hb'. apply Hm. intros Hin.
  assert (region U Q b) as Hq by (destruct (Hr b Hin) as [(q & Hq & _)|?]; [by apply elem_of_nil in Hq|by right]).
  destruct (bare_region _ _ _ _ _ _ _ Hb Hq) as [Ho Hst]. destruct Hb' as [|(p & Hp & Hpa)]; [done|]. by apply (Ho p).
Qed.

Lemma image_small : image_size < 65536.
Proof. vm_compute. reflexivity. Qed.

Lemma loaded_bare : bare ram loaded ram [] ∅ [].
Proof.
  apply (poke_bare ram booted _ ram [] ∅ [] at_ image_size booted_bare).
  - intros b Hb. apply low_region. pose proof image_small. unfold at_ in Hb. lia.
  - intros b Hb. apply write_bytes_frame. exact Hb.
Qed.

Lemma start_empty : vfs_empty start.
Proof. split; [reflexivity|]. split; [reflexivity|]. by intros [|[|[|[|i]]]]. Qed.

Lemma fs_ok : vfs_ok ram [] at_ (at_ + image_size) fs (list_to_set (nodes fs) ∪ ∅) ∧ is_node fs (vfs_root fs).
Proof.
  pose proof (vfs_init_spec ram [] at_ image_size ∅ (mem loaded) eq_refl ltac:(pose proof image_small; lia) start ram []
    start_empty eq_refl loaded_bare (conj eq_refl eq_refl) eq_refl) as Hw.
  pose proof fs_boots as Hb. unfold fs. destruct (vfs_init at_ image_size start) as [[ok v]| |]; [|done|done].
  rewrite Hb in Hw. destruct Hw as (Ho & Hbu & _). split; [exact (vfs_ok_built _ _ _ _ _ _ _ Ho Hbu)|].
  apply (bu_root 3 v Hbu).
Qed.

Lemma vfs_init_correct_witness :
  wp (vfs_init at_ image_size start) (λ '(ok, v'),
    if ok : bool
    then vfs_ok ram [] at_ (at_ + image_size) v' (list_to_set (nodes v') ∪ ∅) ∧ boot_mounts v' ∧ devices v' ∧
      is_node v' (vfs_root v') ∧ kept ram [] (mem loaded) (mem (kern v'))
    else vfs_empty v' ∧ (files v' = ∅ ∧ live_files v' = 0) ∧
      ∃ F' P', bare ram (kern v') F' P' ∅ [] ∧ kept ram [] (mem loaded) (mem (kern v'))).
Proof.
  apply (vfs_init_correct ram [] at_ image_size start ram [] ∅).
  - reflexivity.
  - pose proof image_small. lia.
  - exact start_empty.
  - reflexivity.
  - split; reflexivity.
  - exact loaded_bare.
Defined.

Lemma vfs_resolve_contained_witness :
  ∃ r, vfs_resolve fs (vfs_root fs) (vfs_root fs) (chars "/dev/../../link/.") true = Some r ∧
    match r with inl e => e < 0 | inr n => is_node fs n ∧ within fs (vfs_root fs) n end.
Proof.
  apply (vfs_resolve_contained fs (vfs_root fs) (vfs_root fs)).
  - exact (vk_tree _ _ _ _ _ _ (proj1 fs_ok)).
  - exact (proj2 fs_ok).
  - apply within_root.
Defined.

(** [/bin] *)
Definition bin : Z := child fs (vfs_root fs) (chars "bin").
Lemma bin_within : within fs (vfs_root fs) bin.
Proof.
  apply within_up.
  - apply (bool_decide_unpack _). vm_compute. exact I.
  - unfold is_node. apply (bool_decide_unpack _). vm_compute. exact I.
  - vm_compute. reflexivity.
  - assert (up fs bin = vfs_root fs) as -> by (vm_compute; reflexivity). apply within_root.
Qed.

Lemma vfs_getcwd_resolves_witness :
  ∃ r p, vfs_getcwd fs (vfs_root fs) bin 64 = Some (r, p) ∧
    (r = - E_NAMETOOLONG ∨ r = - E_INVAL ∨
     r = Z.of_nat (length p) + 1 ∧ r <= Z.min 64 PATH_LIMIT ∧
     vfs_resolve fs (vfs_root fs) 0 p false = Some (inr bin)).
Proof.
  apply (vfs_getcwd_resolves fs (vfs_root fs) bin 64 0 false).
  - exact (vk_tree _ _ _ _ _ _ (proj1 fs_ok)).
  - exact (proj2 fs_ok).
  - exact bin_within.
  - vm_compute. reflexivity.
Defined.

Lemma span_small : at_ + image_size - at_ < 2 ^ 62.
Proof. pose proof image_small. lia. Qed.

(** [/tmp/a], created and open for writing, and open again for reading. *)
Definition open_in (path : list Z) (flags_ : Z) (v : vfs) : Z * Z * vfs :=
  default (0, 0, v) (vfs_openat (vfs_root fs) (vfs_root fs) path flags_ v).
Definition fs1 : vfs := snd (open_in (chars "/tmp/a") 66 fs).
Definition w : Z := snd (fst (open_in (chars "/tmp/a") 66 fs)).
Definition fs2 : vfs := snd (open_in (chars "/tmp/a") 0 fs1).
Definition r : Z := snd (fst (open_in (chars "/tmp/a") 0 fs1)).
Definition fs3 : vfs := snd (open_in (chars "/bin") 0 fs2).
Definition d : Z := snd (fst (open_in (chars "/bin") 0 fs2)).

Lemma vfs_openat_correct_witness :
  ∃ e f v' t, vfs_openat (vfs_root fs) (vfs_root fs) (chars "/tmp/a") 66 fs = Some (e, f, v') ∧
    ((e < 0 ∧ f = 0 ∧ open_failed ram [] at_ (at_ + image_size) fs v' (list_to_set (nodes fs) ∪ ∅)) ∨
     (e = 0 ∧ open_done ram [] at_ (at_ + image_size) fs v' (vfs_root fs) f 66 (list_to_set (nodes fs) ∪ ∅))) ∧
    answers fs (irq_save (kern fs)).2 (vfs_root fs) (vfs_root fs) (chars "/tmp/a") 66 e t ∧ opens ram [] fs v' f 66 t.
Proof.
  apply (vfs_openat_correct ram [] at_ (at_ + image_size) fs (list_to_set (nodes fs) ∪ ∅) (vfs_root fs) (vfs_root fs)).
  - exact span_small.
  - exact (proj1 fs_ok).
  - exact (proj2 fs_ok).
  - apply within_root.
  - unfold c_chars. apply (bool_decide_unpack _). vm_compute. exact I.
  - done.
Defined.

Lemma open_in_ok path flags_ v L :
  vfs_ok ram [] at_ (at_ + image_size) v L → is_node v (vfs_root fs) → c_chars path →
  ∃ L', vfs_ok ram [] at_ (at_ + image_size) (snd (open_in path flags_ v)) L' ∧ is_node (snd (open_in path flags_ v)) (vfs_root fs).
Proof.
  intros Hv Hr Hc. destruct (vfs_openat_spec ram [] at_ (at_ + image_size) span_small v L (vfs_root fs) (vfs_root fs) path flags_ Hv Hr
    (within_root _ _) Hc) as (e & f & v' & E & Hcase). unfold open_in. rewrite E. cbn [default snd].
  destruct Hcase as [(_ & _ & Ho & Hs & _)|(_ & n & L' & _ & _ & Ho & _ & _ & _ & _ & _ & _ & Hcase)].
  - exists L. split; [exact Ho|]. apply Hs. exact Hr.
  - exists L'. split; [exact Ho|]. destruct Hcase as [(_ & Hs & _)|(_ & _ & _ & _ & Hd)]; [by apply Hs|apply Hd; right; exact Hr].
Qed.

Lemma fs3_ok : ∃ L, vfs_ok ram [] at_ (at_ + image_size) fs3 L.
Proof.
  destruct (open_in_ok (chars "/tmp/a") 66 fs _ (proj1 fs_ok) (proj2 fs_ok)) as (L1 & H1 & N1).
  { unfold c_chars. apply (bool_decide_unpack _). vm_compute. exact I. }
  destruct (open_in_ok (chars "/tmp/a") 0 fs1 _ H1 N1) as (L2 & H2 & N2).
  { unfold c_chars. apply (bool_decide_unpack _). vm_compute. exact I. }
  destruct (open_in_ok (chars "/bin") 0 fs2 _ H2 N2) as (L3 & H3 & _).
  { unfold c_chars. apply (bool_decide_unpack _). vm_compute. exact I. }
  exists L3. exact H3.
Qed.

Lemma w_open : is_Some (files fs3 !! w).
Proof. apply (bool_decide_unpack _). vm_compute. exact I. Qed.
Lemma r_open : is_Some (files fs3 !! r).
Proof. apply (bool_decide_unpack _). vm_compute. exact I. Qed.
Lemma d_open : is_Some (files fs3 !! d).
Proof. apply (bool_decide_unpack _). vm_compute. exact I. Qed.

Definition fs4 : vfs := snd (default (Did 0, fs3) (file_write 1 w 65536 5000 fs3)).

Lemma low_buffer b n : 65536 <= b → b + n <= 2 ^ 20 → ∀ a, b <= a < b + n → region ram [] a.
Proof. intros H1 H2 a Ha. apply low_region. lia. Qed.

(** Five thousand bytes, over two pages. *)
Lemma file_write_correct_witness :
  ∃ L r v', file_write 1 w 65536 5000 fs3 = Some (Did r, v') ∧ r = 5000 ∧ vfs_ok ram [] at_ (at_ + image_size) v' L ∧
    write_outcome ram [] fs3 v' w 65536 5000 r.
Proof.
  destruct fs3_ok as [L HL]. exists L.
  destruct (file_write_correct ram [] at_ (at_ + image_size) fs3 L 1 w 65536 5000 span_small HL w_open) as (r' & v' & E & Hv & Ho).
  - vm_compute. reflexivity.
  - lia.
  - apply low_buffer; lia.
  - exists r', v'. split; [exact E|]. split; [|split; [exact Hv|exact Ho]].
    assert (fst (default (Did 0, fs3) (file_write 1 w 65536 5000 fs3)) = Did 5000) as Er by (vm_compute; reflexivity).
    rewrite E in Er. injection Er as Er. exact Er.
Defined.

Lemma file_write_read_roundtrip_witness :
  ∃ s, file_pread r 131072 5000 0 fs4 = Some (5000, set_kern s fs4) ∧
    ∀ j, 0 <= j < 5000 → load8 (mem s) (131072 + j) = load8 (mem (kern fs3)) (65536 + j).
Proof.
  destruct fs3_ok as [L HL].
  apply (file_write_read_roundtrip ram [] at_ (at_ + image_size) fs3 fs4 L 1 w r 65536 131072 5000 5000 span_small HL w_open).
  - vm_compute. reflexivity.
  - lia.
  - apply low_buffer; lia.
  - unfold fs4. assert (fst (default (Did 0, fs3) (file_write 1 w 65536 5000 fs3)) = Did 5000) as Er by (vm_compute; reflexivity).
    assert (is_Some (file_write 1 w 65536 5000 fs3)) as [[x y] E] by (apply (bool_decide_unpack _); vm_compute; exact I).
    rewrite E in Er |- *. cbn in Er |- *. by rewrite Er.
  - lia.
  - exact r_open.
  - vm_compute. reflexivity.
  - vm_compute. reflexivity.
  - vm_compute. discriminate.
  - vm_compute. discriminate.
  - intros a Ha. split; [apply low_region; lia|]. unfold at_. lia.
Defined.

Lemma file_put_correct_witness :
  ∃ L, vfs_ok ram [] at_ (at_ + image_size) (file_put r fs3) (L ∖ {[r]}) ∧ files (file_put r fs3) = delete r (files fs3).
Proof.
  destruct fs3_ok as [L HL]. exists L.
  destruct (file_put_correct ram [] at_ (at_ + image_size) fs3 L r span_small HL r_open) as (_ & _ & Hcase).
  - vm_compute. discriminate.
  - assert (references (fl fs3 r) = 1) as E1 by (vm_compute; reflexivity). revert Hcase.
    destruct (decide (references (fl fs3 r) = 1)) as [_|Hn]; [intros Hc; exact Hc|]. destruct (Hn E1).
Defined.

Lemma file_seek_correct_witness :
  ∃ v', file_seek r 100 SEEK_END fs3 = (100, v') ∧ files v' = <[r := with_offset 100 (fl fs3 r)]> (files fs3).
Proof.
  destruct fs3_ok as [L HL].
  pose proof (file_seek_correct ram [] at_ (at_ + image_size) fs3 L r 100 SEEK_END span_small HL r_open) as Hs.
  destruct (file_seek r 100 SEEK_END fs3) as [x v'].
  destruct Hs as [_ Hs]; [vm_compute; reflexivity|vm_compute; reflexivity|lia|lia|].
  assert (seek_target fs3 r 100 SEEK_END = 100) as Et by (vm_compute; reflexivity). rewrite Et in Hs. revert Hs.
  destruct (decide _) as [_|Hn]; [intros [-> Hf]; exists v'; split; [reflexivity|exact Hf]|].
  exfalso. apply Hn. lia.
Defined.

Lemma file_getdents_correct_witness :
  ∃ v', file_getdents d 200 fs3 = (80, [mk_dirent 3 DT_REG (chars "hi")], v').
Proof.
  destruct fs3_ok as [L HL].
  pose proof (file_getdents_correct ram [] at_ (at_ + image_size) fs3 L d 200 span_small HL d_open) as Hs.
  destruct (file_getdents d 200 fs3) as [[x out] v'].
  destruct Hs as (Eo & Er & _); [vm_compute; reflexivity|vm_compute; reflexivity|lia|vm_compute; discriminate|].
  exists v'. assert (listing fs3 (node (fl fs3 d)) (offset (fl fs3 d)) 200 = [mk_dirent 3 DT_REG (chars "hi")]) as El by (vm_compute; reflexivity).
  rewrite El in Eo. subst out. rewrite Er. reflexivity.
Defined.

Lemma vfs_shutdown_reclaims_witness :
  ∃ L F P, bare ram (kern (vfs_shutdown fs3)) F P (L ∖ list_to_set (nodes fs3)) [] ∧ F ++ P ++ [] ≡ₚ ram.
Proof.
  destruct fs3_ok as [L HL]. exists L.
  destruct (vfs_shutdown_reclaims ram [] at_ (at_ + image_size) fs3 L HL) as (_ & F & P & Hb & Hp & _).
  exists F, P. split; [exact Hb|exact Hp].
Defined.
End VfsDemo.
