(* ===== verification/VfsPipe.v ===== *)
(** Pipes among the open files, and who holds references to open files: the
    invariant of [src/fs/vfs.c] together with [src/fs/pipe.c], and the effect of
    taking, dropping and making references on it. *)
From S2P Require Import Prelude Machine Runtime PageAlloc HeapSpec Ownership Outcome Pipe Vfs VfsInit VfsTree VfsInv VfsFiles VfsOpen.

(** * Counting references *)

(** [l] lists the references that are held, 0 for none; [references] counts them. *)
Record refs_ok (v : vfs) (l : list Z) : Prop := {
  rf_count : ∀ f x, files v !! f = Some x → references x = Z.of_nat (count_occ Z.eq_dec l f);
  rf_open : ∀ f, f ∈ l → f ≠ 0 → is_Some (files v !! f);
}.

Lemma refs_ok_perm v l l' : l ≡ₚ l' → refs_ok v l → refs_ok v l'.
Proof.
  intros Hl [R1 R2]. split.
  - intros f x Hf. rewrite (R1 f x Hf). f_equal. by apply (Permutation_count_occ Z.eq_dec).
  - intros f Hf. apply R2. by rewrite Hl.
Qed.

#[export] Instance refs_ok_proper v : Proper (Permutation ==> iff) (refs_ok v).
Proof. intros l l' Hl. split; apply refs_ok_perm; [done|by symmetry]. Qed.

Lemma refs_ok_null v l : ¬ is_Some (files v !! 0) → refs_ok v (0 :: l) ↔ refs_ok v l.
Proof.
  intros H0. split; intros [R1 R2]; split.
  - intros f x Hf. rewrite (R1 f x Hf). rewrite count_occ_cons_neq; [done|]. intros <-. apply H0. eauto.
  - intros f Hf. apply R2. by right.
  - intros f x Hf. rewrite count_occ_cons_neq; [by apply R1|]. intros <-. apply H0. eauto.
  - intros f [->|Hf]%elem_of_cons; [done|]. by apply R2.
Qed.

Lemma count_bound (l : list Z) f : (count_occ Z.eq_dec l f <= length l)%nat.
Proof. apply count_occ_bound. Qed.

(** * Pipes *)

Definition end_open (p : pipe) (flags_ : Z) : bool := if flags_ =? O_RDONLY then reader p else writer p.
Definition key (x : file) : file_ops * Z * Z := (ops x, private x, flags x).

(** Each end of a pipe that is open has exactly one open file; a pipe with none does
    not exist. *)
Record pipes_ok (v : vfs) : Prop := {
  pk_file : ∀ f x, files v !! f = Some x → ops x = pipe_ops →
    (flags x = O_RDONLY ∨ flags x = O_WRONLY) ∧ ∃ p, pipes v !! private x = Some p ∧ end_open p (flags x) = true;
  pk_one : ∀ f g x y, files v !! f = Some x → files v !! g = Some y → ops x = pipe_ops → key x = key y → f = g;
  pk_end : ∀ a p flags_, pipes v !! a = Some p → flags_ = O_RDONLY ∨ flags_ = O_WRONLY → end_open p flags_ = true →
    ∃ f x, files v !! f = Some x ∧ key x = (pipe_ops, a, flags_);
  pk_rep : ∀ a p, pipes v !! a = Some p → (∃ content, pipe_rep p content) ∧ (reader p = true ∨ writer p = true);
  pk_apart : ∀ a, is_Some (pipes v !! a) → ¬ is_node v a ∧ files v !! a = None;
}.

(** Only the keys of the open files matter. *)
Lemma pipes_ok_keys v v' :
  pipes_ok v → pipes v' = pipes v → (∀ a, is_node v' a → is_Some (pipes v !! a) → is_node v a) →
  (∀ g, key <$> files v' !! g = key <$> files v !! g) → pipes_ok v'.
Proof.
  intros [P1 P2 P3 P4 P5] Ep En Ek.
  assert (∀ g y, files v' !! g = Some y → ∃ x, files v !! g = Some x ∧ key x = key y) as Hback.
  { intros g y Hg. specialize (Ek g). rewrite Hg in Ek. destruct (files v !! g) as [x|]; [|done].
    injection Ek as E. exists x. split; [done|]. unfold key. congruence. }
  split.
  - intros f y Hf Ho. destruct (Hback f y Hf) as (x & Hx & E). injection E as E1 E2 E3.
    rewrite <- E2, <- E3, Ep. apply (P1 f); congruence.
  - intros f g y y' Hf Hg Ho E. destruct (Hback f y Hf) as (x & Hx & Ex). destruct (Hback g y' Hg) as (x' & Hx' & Ex').
    apply (P2 f g x x'); try done; [injection Ex; congruence|congruence].
  - intros a p flags_. rewrite Ep. intros Ha Hfl Ho. destruct (P3 a p flags_ Ha Hfl Ho) as (f & x & Hx & E).
    specialize (Ek f). rewrite Hx in Ek. destruct (files v' !! f) as [y|] eqn:Ey; [|done]. injection Ek as E1 E2 E3.
    exists f, y. split; [done|]. rewrite <- E. unfold key. congruence.
  - intros a p. rewrite Ep. apply P4.
  - intros a. rewrite Ep. intros Ha. destruct (P5 a Ha) as [H1 H2]. split; [intros Hn; by apply H1, En|].
    specialize (Ek a). rewrite H2 in Ek. by destruct (files v' !! a).
Qed.

(** One more file that is not a pipe, or one fewer. *)
Lemma pipes_ok_insert v v' f x :
  pipes_ok v → pipes v' = pipes v → (∀ a, is_node v' a → is_Some (pipes v !! a) → is_node v a) →
  files v !! f = None → pipes v !! f = None → ops x ≠ pipe_ops → files v' = <[f := x]> (files v) → pipes_ok v'.
Proof.
  intros [P1 P2 P3 P4 P5] Ep En Hf Hfp Hx Ef.
  assert (∀ g y, files v' !! g = Some y → ops y = pipe_ops → files v !! g = Some y) as Hback.
  { intros g y. rewrite Ef. destruct (decide (g = f)) as [->|Hg].
    - rewrite lookup_insert_eq. by intros [= <-].
    - by rewrite lookup_insert_ne. }
  split.
  - intros g y Hg Ho. rewrite Ep. apply (P1 g); [by apply Hback|done].
  - intros g h y z Hg Hh Ho E. apply (P2 g h y z); [by apply Hback|apply Hback; [done|injection E; congruence]|done|done].
  - intros a p flags_. rewrite Ep. intros Ha Hfl Ho. destruct (P3 a p flags_ Ha Hfl Ho) as (g & y & Hy & E). exists g, y.
    split; [|done]. rewrite Ef, lookup_insert_ne; [done|]. intros ->. congruence.
  - intros a p. rewrite Ep. apply P4.
  - intros a. rewrite Ep. intros Ha. destruct (P5 a Ha) as [H1 H2]. split; [intros Hn; by apply H1, En|].
    rewrite Ef, lookup_insert_ne; [done|]. intros ->. rewrite Hfp in Ha. by destruct Ha.
Qed.

Lemma pipes_ok_delete v v' f x :
  pipes_ok v → pipes v' = pipes v → (∀ a, is_node v' a → is_Some (pipes v !! a) → is_node v a) →
  files v !! f = Some x → ops x ≠ pipe_ops → files v' = delete f (files v) → pipes_ok v'.
Proof.
  intros [P1 P2 P3 P4 P5] Ep En Hf Hx Ef.
  assert (∀ g y, files v' !! g = Some y → files v !! g = Some y) as Hback.
  { intros g y. rewrite Ef. intros [_ Hy]%lookup_delete_Some. done. }
  split.
  - intros g y Hg Ho. rewrite Ep. apply (P1 g); [by apply Hback|done].
  - intros g h y z Hg Hh Ho E. apply (P2 g h y z); [by apply Hback|by apply Hback|done|done].
  - intros a p flags_. rewrite Ep. intros Ha Hfl Ho. destruct (P3 a p flags_ Ha Hfl Ho) as (g & y & Hy & E). exists g, y.
    split; [|done]. rewrite Ef, lookup_delete_ne; [done|]. intros ->. rewrite Hf in Hy. injection Hy as ->.
    injection E. congruence.
  - intros a p. rewrite Ep. apply P4.
  - intros a. rewrite Ep. intros Ha. destruct (P5 a Ha) as [H1 H2]. split; [intros Hn; by apply H1, En|].
    rewrite Ef. apply lookup_delete_None. by right.
Qed.

(** ** The last reference to an end of a pipe *)

(** The pipe [p] after the end of [flags_] has been closed. *)
Record end_closed (p p' : pipe) (flags_ : Z) : Prop := {
  ec_rep : ∃ content, pipe_rep p' content;
  ec_ends : ∀ g, g = O_RDONLY ∨ g = O_WRONLY → end_open p' g = end_open p g && negb (g =? flags_);
}.

Lemma pipe_release_end flags_ p :
  (∃ content, pipe_rep p content) → flags_ = O_RDONLY ∨ flags_ = O_WRONLY →
  ∃ threads p', pipe_release flags_ p = Some (negb (end_open p' O_RDONLY || end_open p' O_WRONLY), threads, p') ∧
    end_closed p p' flags_.
Proof.
  intros [content Hp] Hf. destruct (pipe_release_spec flags_ p content Hp) as (l & p' & E & Hp' & El & Er & Ew).
  eexists _, p'. split; [rewrite E, El; unfold end_open; cbn; by rewrite negb_orb|].
  split; [by exists content|]. intros g Hg. unfold end_open.
  destruct Hf as [-> | ->], Hg as [-> | ->]; cbn; rewrite ?Er, ?Ew; cbn; by rewrite ?andb_true_r, ?andb_false_r.
Qed.

(** What is left of the pipes when [f], the only file of its end, is gone. *)
Lemma pipes_ok_close v v' f x p p' :
  pipes_ok v → files v !! f = Some x → ops x = pipe_ops → pipes v !! private x = Some p → end_closed p p' (flags x) →
  (∀ a, is_node v' a → is_node v a) → files v' = delete f (files v) →
  pipes v' = (if end_open p' O_RDONLY || end_open p' O_WRONLY then <[private x := p']> else delete (private x)) (pipes v) →
  pipes_ok v'.
Proof.
  intros [P1 P2 P3 P4 P5] Hf Hop Hp [Hrep Hends] Hn Ef Epv.
  set (alive := end_open p' O_RDONLY || end_open p' O_WRONLY) in *.
  assert (∀ g, g = O_RDONLY ∨ g = O_WRONLY → end_open p' g = true → alive = true ∧ end_open p g = true ∧ g ≠ flags x) as Hopen.
  { intros g Hg E. split; [unfold alive; destruct Hg as [-> | ->]; rewrite E; [done|apply orb_true_r]|].
    rewrite (Hends g Hg) in E. apply andb_true_iff in E as [E1 E2]. split; [done|]. by apply negb_true_iff, Z.eqb_neq in E2. }
  assert (∀ a q, pipes v' !! a = Some q → (a = private x ∧ q = p' ∧ alive = true) ∨ (a ≠ private x ∧ pipes v !! a = Some q)) as Hback.
  { intros a q. rewrite Epv. destruct (decide (a = private x)) as [->|Ha]; destruct alive;
      rewrite ?lookup_insert_eq, ?lookup_delete_eq, ?lookup_insert_ne, ?lookup_delete_ne by done; try done; [|auto|auto].
    intros [= <-]. auto. }
  split.
  - intros g y. rewrite Ef. intros [Hgf Hg]%lookup_delete_Some Ho. destruct (P1 g y Hg Ho) as [Hfl (q & Hq & Hend)].
    split; [done|]. rewrite Epv. destruct (decide (private y = private x)) as [Ea|Ha].
    + rewrite Ea, Hp in Hq. injection Hq as <-.
      assert (flags y ≠ flags x) as Hne.
      { intros Efl. apply Hgf. symmetry. apply (P2 g f y x); try done. unfold key. congruence. }
      assert (end_open p' (flags y) = true) as Hy.
      { rewrite (Hends _ Hfl), Hend. cbn. by apply negb_true_iff, Z.eqb_neq. }
      destruct (Hopen _ Hfl Hy) as (-> & _). rewrite Ea, lookup_insert_eq. eauto.
    + exists q. split; [|done]. destruct alive; by rewrite ?lookup_insert_ne, ?lookup_delete_ne.
  - intros g h y z. rewrite Ef. intros [_ Hg]%lookup_delete_Some [_ Hh]%lookup_delete_Some. by apply P2.
  - intros a q flags_ Ha Hfl Ho. rewrite Ef. destruct (Hback a q Ha) as [(-> & -> & _)|[Hax Hq]].
    + destruct (Hopen _ Hfl Ho) as (_ & Hold & Hne). destruct (P3 _ p flags_ Hp Hfl Hold) as (g & y & Hg & E).
      exists g, y. split; [|done]. rewrite lookup_delete_ne; [done|]. intros ->. rewrite Hf in Hg. injection Hg as ->.
      injection E. congruence.
    + destruct (P3 a q flags_ Hq Hfl Ho) as (g & y & Hg & E). exists g, y. split; [|done].
      rewrite lookup_delete_ne; [done|]. intros ->. rewrite Hf in Hg. injection Hg as ->. injection E. congruence.
  - intros a q Ha. destruct (Hback a q Ha) as [(-> & -> & Hal)|[Hax Hq]]; [|by apply (P4 a)]. split; [done|].
    unfold alive, end_open in Hal. apply orb_true_iff in Hal. exact Hal.
  - intros a [q Hq]. assert (is_Some (pipes v !! a)) as Ha.
    { destruct (Hback a q Hq) as [(-> & _)|[_ ?]]; eauto. }
    destruct (P5 a Ha) as [A1 A2]. split; [intros Hx; by apply A1, Hn|]. rewrite Ef. apply lookup_delete_None. by right.
Qed.

(** An end of the pipe [a] opens. *)
Lemma pipes_ok_open v v' f a p flags_ x :
  pipes_ok v → flags_ = O_RDONLY ∨ flags_ = O_WRONLY → key x = (pipe_ops, a, flags_) →
  (pipes v !! a = None ∨ ∃ q, pipes v !! a = Some q ∧ end_open q flags_ = false ∧
     ∀ g, g = O_RDONLY ∨ g = O_WRONLY → g ≠ flags_ → end_open p g = end_open q g) →
  (pipes v !! a = None → ∀ g, g = O_RDONLY ∨ g = O_WRONLY → g ≠ flags_ → end_open p g = false) →
  end_open p flags_ = true → (∃ content, pipe_rep p content) →
  (∀ n, is_node v' n ↔ is_node v n) → ¬ is_node v a → files v !! a = None → f ≠ a →
  files v !! f = None → pipes v !! f = None → files v' = <[f := x]> (files v) → pipes v' = <[a := p]> (pipes v) → pipes_ok v'.
Proof.
  intros [P1 P2 P3 P4 P5] Hfl Hkey Hold Hnew Hend Hrep Hn Han Haf Hfa Hf Hfp Ef Ep. injection Hkey as K1 K2 K3.
  assert (∀ g y, files v !! g = Some y → ops y = pipe_ops → private y = a → end_open p (flags y) = true ∧ flags y ≠ flags_) as Hother.
  { intros g y Hg Ho Ha. destruct (P1 g y Hg Ho) as [Hy (q & Hq & Hqe)]. rewrite Ha in Hq.
    destruct Hold as [E|(q' & Hq' & Hoff & Hsame)]; [congruence|]. assert (q' = q) as -> by congruence.
    assert (flags y ≠ flags_) as Hne by congruence. split; [|done]. by rewrite Hsame. }
  split.
  - intros g y. rewrite Ef, Ep. destruct (decide (g = f)) as [->|Hg].
    + rewrite lookup_insert_eq. intros [= <-] _. rewrite K2, K3, lookup_insert_eq. split; [done|eauto].
    + rewrite lookup_insert_ne by done. intros Hy Ho. destruct (P1 g y Hy Ho) as [Hyf (q & Hq & Hqe)]. split; [done|].
      destruct (decide (private y = a)) as [Ha|Ha].
      * rewrite Ha, lookup_insert_eq. exists p. split; [done|]. by apply (Hother g).
      * rewrite lookup_insert_ne by done. eauto.
  - intros g h y z. rewrite Ef. destruct (decide (g = f)) as [->|Hg], (decide (h = f)) as [->|Hh]; try done;
      rewrite ?lookup_insert_eq, ?lookup_insert_ne by done.
    + intros [= <-] Hz Ho E. unfold key in E. injection E as E1 E2 E3. exfalso.
      destruct (Hother h z Hz) as [_ Hne]; congruence.
    + intros Hy [= <-] Ho E. unfold key in E. injection E as E1 E2 E3. exfalso.
      destruct (Hother g y Hy) as [_ Hne]; congruence.
    + apply P2.
  - intros b q flags' Hq Hf' Ho. rewrite Ep in Hq. rewrite Ef. destruct (decide (b = a)) as [->|Hb].
    + rewrite lookup_insert_eq in Hq. injection Hq as <-. destruct (decide (flags' = flags_)) as [->|Hne].
      * exists f, x. rewrite lookup_insert_eq. split; [done|]. unfold key. congruence.
      * destruct Hold as [E|(q & Hq & Hoff & Hsame)]; [by rewrite (Hnew E flags' Hf' Hne) in Ho|].
        rewrite (Hsame _ Hf' Hne) in Ho. destruct (P3 a q flags' Hq Hf' Ho) as (g & y & Hy & E).
        exists g, y. split; [|done]. rewrite lookup_insert_ne; [done|]. congruence.
    + rewrite lookup_insert_ne in Hq by done. destruct (P3 b q flags' Hq Hf' Ho) as (g & y & Hy & E).
      exists g, y. split; [|done]. rewrite lookup_insert_ne; [done|]. congruence.
  - intros b q. rewrite Ep. destruct (decide (b = a)) as [->|Hb]; [|rewrite lookup_insert_ne by done; apply P4].
    rewrite lookup_insert_eq. intros [= <-]. split; [done|]. unfold end_open in Hend. revert Hend. case_if; auto.
  - intros b. rewrite Ep, Hn, Ef, lookup_insert_is_Some'. intros Hb.
    assert (¬ is_node v b ∧ files v !! b = None ∧ b ≠ f) as (B1 & B2 & B3).
    { destruct Hb as [<-|Hb]; [done|]. destruct (P5 b Hb). split; [done|]. split; [done|]. intros ->. rewrite Hfp in Hb. by destruct Hb. }
    split; [done|]. by rewrite lookup_insert_ne.
Qed.

(** The objects that remain when a file and the pipes outside [Q'] are gone. *)
Lemma objects_closed (N D Q Q' B : gset Z) f :
  f ∉ N → (∀ a, a ∈ Q → a ∉ N ∧ a ∉ D) → f ∈ D → Q' ⊆ Q → N ∪ D ∪ Q ## B →
  (N ∪ D ∪ Q ∪ B) ∖ ({[f]} ∪ (Q ∖ Q')) = N ∪ (D ∖ {[f]}) ∪ Q' ∪ B.
Proof.
  intros HfN HQ HfD HQ' HB. apply set_eq. intros a. specialize (HQ a). specialize (HQ' a). specialize (HB a).
  rewrite !elem_of_union in HB.
  rewrite !elem_of_difference, !elem_of_union, !elem_of_difference, elem_of_singleton.
  destruct (decide (a = f)) as [Ea|]; [rewrite Ea in *|]; destruct (decide (a ∈ Q')), (decide (a ∈ Q)); tauto.
Qed.

Lemma drop_one (X Q : gset Z) a f : a ∈ Q → X ∖ {[a]} ∖ {[f]} = X ∖ ({[f]} ∪ (Q ∖ (Q ∖ {[a]}))).
Proof.
  intros Ha. apply set_eq. intros b.
  rewrite !elem_of_difference, elem_of_union, !elem_of_difference, !elem_of_singleton.
  destruct (decide (b = a)) as [E|]; [rewrite E|]; destruct (decide (b ∈ Q)); tauto.
Qed.

(** The open files are of vnodes that files were open of before. *)
Definition nodes_from (v v' : vfs) : Prop := ∀ f x, files v' !! f = Some x → node x ≠ 0 → ∃ y, files v !! f = Some y ∧ node y = node x.

Lemma nodes_from_trans v1 v2 v3 : nodes_from v1 v2 → nodes_from v2 v3 → nodes_from v1 v3.
Proof. intros H1 H2 f x Hx Hn. destruct (H2 f x Hx Hn) as (y & Hy & E). rewrite <- E in Hn |- *. by apply H1. Qed.

Lemma nodes_from_same v v' : files v' = files v → nodes_from v v'.
Proof. intros E f x. rewrite E. eauto. Qed.

(** Dropping and taking references. *)

Section References.
Context `{KernelHeap} `{Backends}.

Lemma file_get_nodes_from f v : is_Some (files v !! f) → nodes_from v (file_get f v).
Proof.
  intros [x Hx]. unfold file_get. case_if; [by apply nodes_from_same|]. intros g y. cbn. unfold fl. cbn.
  destruct (decide (g = f)) as [->|Hg]; [|rewrite lookup_insert_ne by done; eauto].
  rewrite lookup_insert_eq. intros [= <-]. exists x. rewrite (lookup_total_correct _ _ _ Hx). done.
Qed.

Lemma pipe_release_files x v : files (pipe_release_file x v) = files v.
Proof. unfold pipe_release_file. destruct (pipes v !! _); [|done]. destruct (pipe_release _ _) as [[[[] ?] ?]|]; done. Qed.

Lemma file_put_nodes_from f v : f ≠ 0 → is_Some (files v !! f) → nodes_from v (file_put f v).
Proof.
  intros Hf [x Hx]. unfold file_put. rewrite (proj2 (Z.eqb_neq _ _) Hf). unfold irq_save. cbv zeta.
  set (v1 := update_file _ f _). assert (nodes_from v v1) as H1.
  { intros g y. unfold v1. cbn. unfold fl. cbn. destruct (decide (g = f)) as [->|Hg]; [|rewrite lookup_insert_ne by done; eauto].
    rewrite lookup_insert_eq. intros [= <-]. exists x. by rewrite (lookup_total_correct _ _ _ Hx). }
  destruct (references (fl v1 f) =? 0); [|done]. intros g y. cbn. intros Hy%lookup_delete_Some. destruct Hy as [_ Hy].
  apply H1. by destruct (ops (fl v1 f)); rewrite ?pipe_release_files in Hy.
Qed.
End References.

(** The objects of the file system. *)
Definition vfs_objects (v : vfs) : gset Z := list_to_set (nodes v) ∪ dom (files v) ∪ dom (pipes v).

Section Own.
Context `{HeapContract} `{Backends}.
Context (U O : list Z) (lo hi : Z) (Hspan : hi - lo < 2 ^ 62).

(** The file system owns its objects and nothing of [B], and [l] are the references
    held to its open files. *)
Record holding (v : vfs) (B : gset Z) (l : list Z) : Prop := {
  ho_ok : vfs_ok U O lo hi v (vfs_objects v ∪ B);
  ho_pipes : pipes_ok v;
  ho_apart : vfs_objects v ## B;
  ho_refs : refs_ok v l;
}.

Lemma holding_perm v B l l' : l ≡ₚ l' → holding v B l → holding v B l'.
Proof. intros Hl [A1 A2 A3 A4]. split; try done. by eapply refs_ok_perm. Qed.

Lemma holding_null v B l : holding v B (0 :: l) ↔ holding v B l.
Proof.
  assert (∀ l', holding v B l' → ¬ is_Some (files v !! 0)) as Hz.
  { intros l' Hh Hs. by apply (open_not_null U O lo hi v _ 0 (ho_ok _ _ _ Hh) Hs). }
  split; intros Hh; pose proof (Hz _ Hh) as Hn0; destruct Hh as [A1 A2 A3 A4]; split; try done; by apply refs_ok_null.
Qed.

Lemma holding_nulls v B l n : holding v B (repeat 0 n ++ l) ↔ holding v B l.
Proof. induction n as [|n IH]; [done|]. cbn. by rewrite holding_null. Qed.

Lemma holding_count v B l f :
  holding v B l → f ∈ l → f ≠ 0 →
  is_Some (files v !! f) ∧ references (fl v f) = Z.of_nat (count_occ Z.eq_dec l f).
Proof.
  intros [_ _ _ [R1 R2]] Hf Hn0. destruct (R2 f Hf Hn0) as [x Hx]. split; [eauto|].
  unfold fl. rewrite lookup_total_alt, Hx. by apply R1.
Qed.

(** Changing the count of one file. *)
Lemma holding_recount v v' B l l' f r :
  holding v B l → is_Some (files v !! f) → r = Z.of_nat (count_occ Z.eq_dec l' f) →
  (∀ g, g ≠ f → count_occ Z.eq_dec l' g = count_occ Z.eq_dec l g) → (∀ g, g ∈ l' → g = f ∨ g ∈ l) →
  vfs_ok U O lo hi v' (vfs_objects v ∪ B) → nodes v' = nodes v → same_tree v v' → pipes v' = pipes v →
  files v' = <[f := with_references r (fl v f)]> (files v) → holding v' B l'.
Proof.
  intros [A1 A2 A3 [R1 R2]] [x Hx] Hr Hc Hin Hv En Ht Ep Ef.
  assert (vfs_objects v' = vfs_objects v) as Eo.
  { unfold vfs_objects. rewrite En, Ep, Ef, dom_insert_L. assert (f ∈ dom (files v)) by (apply elem_of_dom; eauto). set_solver. }
  assert (fl v f = x) as Efl by (by apply lookup_total_correct). split.
  - by rewrite Eo.
  - apply (pipes_ok_keys v); [done|done|intros a Ha _; by apply Ht|]. intros g. rewrite Ef.
    destruct (decide (g = f)) as [->|Hg]; [|by rewrite lookup_insert_ne]. by rewrite lookup_insert_eq, Hx, Efl.
  - by rewrite Eo.
  - split.
    + intros g y. rewrite Ef. destruct (decide (g = f)) as [->|Hg]; [rewrite lookup_insert_eq; by intros [= <-]|].
      rewrite lookup_insert_ne, Hc by done. apply R1.
    + intros g Hg Hg0. rewrite Ef, lookup_insert_is_Some'. destruct (Hin g Hg) as [->|Hl]; [by left|right; by apply R2].
Qed.

(** ** Taking a reference *)

Lemma file_get_steady f v : steady U O v (file_get f v).
Proof.
  unfold file_get. case_if; [apply steady_refl|]. unfold irq_save. cbv zeta.
  set (s := irq_restore _ _). split; [|done]. cbn. destruct (irq_restore_ram (sstatus (kern v)) (csr_clear_sstatus SSTATUS_SIE (kern v))) as (Er & _).
  unfold s. cbn. rewrite Er. apply kept_refl.
Qed.

Lemma file_get_nodes f v : nodes (file_get f v) = nodes v ∧ vnodes (file_get f v) = vnodes v.
Proof. unfold file_get. by case_if. Qed.

Lemma holding_get v B l f :
  holding v B l → f ∈ l → Z.of_nat (length l) < 2 ^ 64 - 1 →
  holding (file_get f v) B (f :: l) ∧ same_tree v (file_get f v) ∧ steady U O v (file_get f v).
Proof.
  intros Hh Hf Hl. split; [|split; [|apply file_get_steady]].
  - destruct (decide (f = 0)) as [->|Hn0]; [by apply holding_null|].
    destruct (holding_count _ _ _ _ Hh Hf Hn0) as [Hs Hr]. pose proof (count_bound l f) as Hc.
    destruct (file_get_spec U O lo hi v _ f (ho_ok _ _ _ Hh) Hs) as (G1 & G2 & G3); [lia|].
    apply (holding_recount v _ B l (f :: l) f (references (fl v f) + 1) Hh Hs); try done.
    + rewrite count_occ_cons_eq by done. lia.
    + intros g Hg. by rewrite count_occ_cons_neq.
    + intros g [->|Hg]%elem_of_cons; auto.
    + apply file_get_nodes.
    + apply file_get_steady.
  - unfold same_tree, is_node, vn, mnt. destruct (file_get_nodes f v) as [_ ->].
    split; [done|]. split; [done|]. unfold file_get. by case_if.
Qed.

(** ** Dropping a reference *)

(** A file is gone, and perhaps a pipe with it. *)
Lemma closed_ok v v' L L' F P f :
  vfs_ok U O lo hi v L → is_Some (files v !! f) →
  vnodes v' = vnodes v ∧ nodes v' = nodes v ∧ mounts v' = mounts v → files v' = delete f (files v) →
  live_files v' = u64 (live_files v - 1) → bare U (kern v') F P L' (block_pages v ++ O) →
  (∀ n, is_node v n → n ∈ L') → (∀ g, g ≠ f → is_Some (files v !! g) → g ∈ L') → vfs_ok U O lo hi v' L'.
Proof.
  intros [(F0 & P0 & [S1 S2 S3 S4 S5 S6]) Ht V3 V4 V5] Hf (Ev & En & Em) Ef El Hb Hn Hg.
  assert (∀ x, vn v' x = vn v x) as Evn by (intros x; unfold vn; by rewrite Ev).
  assert (∀ x, is_node v' x ↔ is_node v x) as Ein by (intros x; unfold is_node; by rewrite Ev).
  assert (block_pages v' = block_pages v) as Eb.
  { apply block_pages_ext; [done|]. intros x _. by rewrite Evn. }
  split.
  - exists F, P. split.
    + by rewrite Eb.
    + by rewrite En.
    + intros x. rewrite En, Ein. apply S3.
    + intros x. rewrite Ein. apply Hn.
    + intros g. rewrite Ef, lookup_delete_is_Some, Ein. intros [Hgf Hgs]. split; [by apply Hg|by apply S5].
    + intros x. rewrite Ein, Evn. apply S6.
  - apply (tree_ok_proper v); [|done]. split; [done|]. split; [intros x; by rewrite Evn|done].
  - unfold mnt in *. by rewrite Em.
  - intros g. unfold fl. rewrite Ef, lookup_delete_is_Some. intros [Hgf Hgs]. rewrite lookup_total_delete_ne by done.
    destruct (V4 g Hgs) as (O1 & O2 & O3). split; [done|]. split; [done|]. intros Ho. apply Ein. by apply O3.
  - rewrite Ef, El, V5, map_size_delete. destruct Hf as [y Hy]. rewrite Hy.
    unfold u64. rewrite Zminus_mod_idemp_l. f_equal. cbn.
    assert (base.size (files v) ≠ 0%nat) as Hne. { intros Hz%map_size_empty_inv. by rewrite Hz, lookup_empty in Hy. }
    lia.
Qed.

(** [file_put] of the last reference. *)
Definition put_last (f : Z) (x : file) (v : vfs) : vfs :=
  let v0 := with_file f (with_references 0 x) (set_kern (csr_clear_sstatus SSTATUS_SIE (kern v)) v) in
  let v1 := match ops x with pipe_ops => pipe_release_file (with_references 0 x) v0 | _ => v0 end in
  let v2 := set_live_files (u64 (live_files v1 - 1)) v1 in
  let v3 := set_kern (kfree f (kern v2)) (set_files (delete f (files v2)) v2) in
  set_kern (irq_restore (sstatus (kern v)) (kern v3)) v3.

Lemma file_put_last_eq f x v : f ≠ 0 → files v !! f = Some x → references x = 1 → file_put f v = put_last f x v.
Proof.
  intros Hf Hx Hr. unfold file_put, put_last. rewrite (proj2 (Z.eqb_neq _ _) Hf). unfold irq_save. cbv zeta.
  set (v0 := set_kern _ v). assert (fl v0 f = x) as Efl by (by apply lookup_total_correct).
  unfold update_file. rewrite Efl, Hr. change (u64 (1 - 1)) with 0. fold (with_file f (with_references 0 x) v0).
  assert (fl (with_file f (with_references 0 x) v0) f = with_references 0 x) as -> by (unfold fl; cbn; by rewrite lookup_total_insert_eq).
  cbn [references with_references Z.eqb]. done.
Qed.

Lemma put_last_pipe f x v p :
  ops x = pipe_ops → pipes v !! private x = Some p → (∃ content, pipe_rep p content) →
  flags x = O_RDONLY ∨ flags x = O_WRONLY →
  ∃ p', end_closed p p' (flags x) ∧ let v' := put_last f x v in
    let alive := end_open p' O_RDONLY || end_open p' O_WRONLY in
    (vnodes v' = vnodes v ∧ nodes v' = nodes v ∧ mounts v' = mounts v) ∧ files v' = delete f (files v) ∧
    live_files v' = u64 (live_files v - 1) ∧
    pipes v' = (if alive then <[private x := p']> else delete (private x)) (pipes v) ∧
    ∃ s, same_ram (kern v) s ∧ same_ram (kfree f (if alive then s else kfree (private x) s)) (kern v').
Proof.
  intros Hop Hp Hrep Hfl. destruct (pipe_release_end (flags x) p Hrep Hfl) as (threads & p' & E & Hend).
  exists p'. split; [done|]. cbv zeta. set (alive := end_open p' O_RDONLY || end_open p' O_WRONLY) in *.
  unfold put_last. rewrite Hop. unfold pipe_release_file. cbn [private with_references pipes set_kern with_file set_files flags].
  rewrite Hp, E. fold alive. destruct alive; cbn [negb].
  - split; [done|]. cbn [files set_kern set_files set_live_files pipe_step set_woken set_pipes with_file]. rewrite delete_insert_eq.
    split; [done|]. split; [done|]. split; [done|]. exists (csr_clear_sstatus SSTATUS_SIE (kern v)).
    split; [done|]. apply irq_restore_ram.
  - split; [done|]. cbn [files set_kern set_files set_live_files pipe_step set_woken set_pipes with_file]. rewrite delete_insert_eq.
    split; [done|]. split; [done|]. split; [cbn; by rewrite delete_insert_eq|]. exists (csr_clear_sstatus SSTATUS_SIE (kern v)).
    split; [done|]. apply irq_restore_ram.
Qed.

Lemma bare_ram s s' F P L Q : same_ram s s' → bare U s F P L Q → bare U s' F P L Q.
Proof. intros (E1 & E2 & E3 & E4) Hb. apply (bare_frame U s); try done. by rewrite E1. Qed.

Lemma kept_ram Q m s s' : same_ram s s' → kept U Q m (mem s) → kept U Q m (mem s').
Proof. intros (E & _) Hk. by rewrite E. Qed.

Lemma kept_blocks v m m' : kept U (block_pages v ++ O) m m' → kept U O m m'.
Proof. apply kept_sub. intros p Hp. apply elem_of_app. by right. Qed.

(** The file is gone, with the pipes that are no longer there. *)
Lemma holding_closed v v' B l f F P :
  holding v B (f :: l) → is_Some (files v !! f) → references (fl v f) = 1 →
  vnodes v' = vnodes v ∧ nodes v' = nodes v ∧ mounts v' = mounts v → files v' = delete f (files v) →
  live_files v' = u64 (live_files v - 1) → pipes_ok v' → dom (pipes v') ⊆ dom (pipes v) →
  bare U (kern v') F P ((vfs_objects v ∪ B) ∖ ({[f]} ∪ (dom (pipes v) ∖ dom (pipes v')))) (block_pages v ++ O) →
  holding v' B l.
Proof.
  intros [A1 A2 A3 [R1 R2]] Hf Hr (Ev & En & Em) Ef El Hp' Hd Hb.
  destruct (vk_store _ _ _ _ _ _ A1) as (F0 & P0 & [S1 S2 S3 S4 S5 S6]).
  assert (f ∈ dom (files v)) as Hfd by (by apply elem_of_dom).
  assert (f ∉ (list_to_set (nodes v) : gset Z)) as Hfn.
  { rewrite elem_of_list_to_set, S3. by apply S5. }
  assert (∀ a, a ∈ dom (pipes v) → a ∉ (list_to_set (nodes v) : gset Z) ∧ a ∉ dom (files v)) as Hpd.
  { intros a Ha%elem_of_dom. destruct (pk_apart v A2 a Ha) as [N1 N2]. rewrite elem_of_list_to_set, S3.
    split; [done|]. by apply not_elem_of_dom. }
  assert ((vfs_objects v ∪ B) ∖ ({[f]} ∪ (dom (pipes v) ∖ dom (pipes v'))) = vfs_objects v' ∪ B) as EL.
  { unfold vfs_objects in A3 |- *. rewrite En, Ef, dom_delete_L. by apply objects_closed. }
  rewrite EL in Hb. split.
  - apply (closed_ok v v' (vfs_objects v ∪ B) _ F P f); try done.
    + intros n Hn%S3. unfold vfs_objects. rewrite En, !elem_of_union, elem_of_list_to_set. auto.
    + intros g Hg Hgs. unfold vfs_objects. rewrite Ef, dom_delete_L. assert (g ∈ dom (files v)) by (by apply elem_of_dom). set_solver.
  - done.
  - unfold vfs_objects in *. rewrite En, Ef, dom_delete_L. set_solver.
  - assert (count_occ Z.eq_dec l f = 0%nat) as Hz.
    { unfold fl in Hr. destruct Hf as [x Hx]. rewrite lookup_total_alt, Hx in Hr. cbn in Hr.
      rewrite (R1 f x Hx), count_occ_cons_eq in Hr by done. lia. }
    split.
    + intros g x. rewrite Ef. intros [Hg Hx]%lookup_delete_Some. rewrite (R1 g x Hx), count_occ_cons_neq; done.
    + intros g Hg Hg0. rewrite Ef, lookup_delete_is_Some. split; [|apply R2; [by right|done]].
      intros <-. apply (count_occ_not_In Z.eq_dec) in Hz. apply Hz. by apply list_elem_of_In.
Qed.

Lemma file_put_more v L f :
  vfs_ok U O lo hi v L → is_Some (files v !! f) → references (fl v f) ≠ 1 → let v' := file_put f v in
  vfs_ok U O lo hi v' L ∧ (vnodes v' = vnodes v ∧ nodes v' = nodes v ∧ mounts v' = mounts v ∧ pipes v' = pipes v) ∧
  files v' = <[f := with_references (references (fl v f) - 1) (fl v f)]> (files v) ∧ same_ram (kern v) (kern v').
Proof.
  intros Hv Hf Hr v'. destruct (vk_open _ _ _ _ v L Hv f Hf) as (O1 & O2 & O3).
  pose proof (open_not_null U O lo hi v L f Hv Hf) as Hf0.
  unfold v', file_put. rewrite (proj2 (Z.eqb_neq _ _) Hf0). unfold irq_save. cbv zeta.
  set (v0 := set_kern (csr_clear_sstatus SSTATUS_SIE (kern v)) v). set (x := with_references (references (fl v f) - 1) (fl v f)).
  assert (update_file (λ x, with_references (u64 (references x - 1)) x) f v0 = with_file f x v0) as ->.
  { unfold x, update_file, with_file. change (fl v0 f) with (fl v f). by rewrite u64_small by (unfold in_u64; lia). }
  assert (fl (with_file f x v0) f = x) as -> by (unfold fl; cbn; by rewrite lookup_total_insert_eq).
  change (references x) with (references (fl v f) - 1). rewrite (proj2 (Z.eqb_neq _ _)) by lia.
  split; [|split; [done|split; [done|]]].
  - apply vfs_ok_ram; [apply irq_restore_ram|]. apply files_update_ok; [by apply vfs_ok_ram|done|]. split; cbn; [lia|done].
  - apply (irq_restore_ram (sstatus (kern v)) (csr_clear_sstatus SSTATUS_SIE (kern v))).
Qed.

Lemma holding_put v B f l :
  holding v B (f :: l) → let v' := file_put f v in
  holding v' B l ∧ kept U O (mem (kern v)) (mem (kern v')) ∧
  vnodes v' = vnodes v ∧ nodes v' = nodes v ∧ mounts v' = mounts v.
Proof.
  intros Hh v'. destruct (decide (f = 0)) as [Ef0|Hn0].
  { unfold v', file_put. rewrite Ef0 in *. split; [by apply holding_null|]. split; [apply kept_refl|done]. }
  destruct (holding_count v B (f :: l) f Hh ltac:(by left) Hn0) as [Hs Hr]. rewrite count_occ_cons_eq in Hr by done.
  destruct (decide (references (fl v f) = 1)) as [H1'|Hne].
  2:{ destruct (file_put_more v _ f (ho_ok _ _ _ Hh) Hs Hne) as (Hv & (E1 & E2 & E3 & E4) & Ef & Hram). fold v' in Hv, E1, E2, E3, E4, Ef, Hram.
      split; [|split; [by apply (kept_ram O _ _ _ Hram), kept_refl|done]].
      apply (holding_recount v v' B (f :: l) l f (references (fl v f) - 1) Hh Hs); try done.
      - lia.
      - intros g Hg. by rewrite count_occ_cons_neq.
      - intros g Hg. right. by right.
      - split; [intros x; unfold is_node; by rewrite E1|]. split; [|done]. intros x. unfold vn. by rewrite E1. }
  destruct Hs as [x Hx]. assert (fl v f = x) as Efl by (by apply lookup_total_correct). rewrite Efl in H1'.
  unfold v'. rewrite (file_put_last_eq f x v Hn0 Hx H1'). clear v'. set (v' := put_last f x v).
  destruct (vk_store _ _ _ _ _ _ (ho_ok _ _ _ Hh)) as (F0 & P0 & Hst). pose proof (so_bare _ _ _ _ _ _ _ _ Hst) as Hb0.
  assert (f ∈ vfs_objects v ∪ B) as HfL.
  { unfold vfs_objects. assert (f ∈ dom (files v)) by (apply elem_of_dom; eauto). set_solver. }
  destruct (decide (ops x = pipe_ops)) as [Hop|Hop].
  - destruct (pk_file v (ho_pipes _ _ _ Hh) f x Hx Hop) as [Hfl (p & Hp & Hend)].
    destruct (pk_rep v (ho_pipes _ _ _ Hh) _ p Hp) as [Hrep _].
    destruct (put_last_pipe f x v p Hop Hp Hrep Hfl) as (p' & Hec & Efs & Ef & El & Ep & s & Hr1 & Hr2). fold v' in Efs, Ef, El, Ep, Hr2.
    assert (private x ∈ dom (pipes v)) as Hpd by (apply elem_of_dom; eauto).
    destruct (pk_apart v (ho_pipes _ _ _ Hh) (private x) ltac:(eauto)) as [_ Hpf].
    assert (∃ F P, bare U (kern v') F P ((vfs_objects v ∪ B) ∖ ({[f]} ∪ (dom (pipes v) ∖ dom (pipes v')))) (block_pages v ++ O) ∧
      kept U (block_pages v ++ O) (mem (kern v)) (mem (kern v')) ∧ dom (pipes v') ⊆ dom (pipes v)) as (F & P & Hb & Hk & Hd).
    { assert (private x ≠ f) as Hpx by congruence.
      destruct (end_open p' O_RDONLY || end_open p' O_WRONLY).
      - destruct (bare_kfree U s F0 P0 _ _ f (bare_ram _ _ _ _ _ _ Hr1 Hb0) HfL) as (F & P & Hb & Hk). exists F, P.
        rewrite Ep, dom_insert_L. replace ({[f]} ∪ (dom (pipes v) ∖ ({[private x]} ∪ dom (pipes v)))) with ({[f]} : gset Z) by set_solver.
        split; [by apply (bare_ram _ _ _ _ _ _ Hr2)|]. split; [|set_solver]. apply (kept_ram _ _ _ _ Hr2).
        destruct Hr1 as (<- & _). done.
      - assert (private x ∈ vfs_objects v ∪ B) as HpL by (unfold vfs_objects; set_solver).
        destruct (bare_kfree U s F0 P0 _ _ (private x) (bare_ram _ _ _ _ _ _ Hr1 Hb0) HpL) as (F1 & P1 & Hb1 & Hk1).
        destruct (bare_kfree U _ F1 P1 _ _ f Hb1 ltac:(set_solver)) as (F & P & Hb & Hk). exists F, P.
        rewrite Ep, dom_delete_L.
        rewrite <- drop_one by done.
        split; [by apply (bare_ram _ _ _ _ _ _ Hr2)|]. split; [|set_solver]. apply (kept_ram _ _ _ _ Hr2).
        destruct Hr1 as (<- & _). by eapply kept_trans. }
    split; [|split; [by eapply kept_blocks|done]].
    apply (holding_closed v v' B l f F P); try done; [by rewrite Efl|].
    apply (pipes_ok_close v v' f x p p'); try done; [apply Hh|]. intros a. unfold is_node. by destruct Efs as (-> & _).
  - assert (∃ s, same_ram (kern v) s ∧ same_ram (kfree f s) (kern v') ∧ files v' = delete f (files v) ∧
      live_files v' = u64 (live_files v - 1) ∧ (vnodes v' = vnodes v ∧ nodes v' = nodes v ∧ mounts v' = mounts v) ∧
      pipes v' = pipes v) as (s & Hr1 & Hr2 & Ef & El & Efs & Ep).
    { exists (csr_clear_sstatus SSTATUS_SIE (kern v)). split; [done|]. unfold v', put_last.
      destruct (ops x); [..|done]; (split; [apply irq_restore_ram|]); cbn; by rewrite delete_insert_eq. }
    destruct (bare_kfree U s F0 P0 _ _ f (bare_ram _ _ _ _ _ _ Hr1 Hb0) HfL) as (F & P & Hb & Hk).
    split; [|split; [|done]].
    + apply (holding_closed v v' B l f F P); try done; [by rewrite Efl| |by rewrite Ep|].
      * apply (pipes_ok_delete v v' f x); try done; [apply Hh|]. intros a. unfold is_node. by destruct Efs as (-> & _).
      * rewrite Ep. replace ({[f]} ∪ (dom (pipes v) ∖ dom (pipes v))) with ({[f]} : gset Z) by set_solver.
        by apply (bare_ram _ _ _ _ _ _ Hr2).
    + apply kept_blocks with v. apply (kept_ram _ _ _ _ Hr2). destruct Hr1 as (<- & _). done.
Qed.

(** ** Opening *)

Lemma nodes_set v L (N : gset Z) :
  vfs_ok U O lo hi v L → (∀ x, x ∈ N ↔ is_node v x) → list_to_set (nodes v) = N.
Proof.
  intros Hv HN. destruct (vk_store _ _ _ _ _ _ Hv) as (F & P & Hs). apply set_eq. intros x.
  by rewrite elem_of_list_to_set, (so_dom _ _ _ _ _ _ _ _ Hs), HN.
Qed.

Lemma refs_ok_new v v' l f x :
  refs_ok v l → files v !! f = None → f ≠ 0 → references x = 1 → files v' = <[f := x]> (files v) → refs_ok v' (f :: l).
Proof.
  intros [R1 R2] Hf Hf0 Hr Ef.
  assert (count_occ Z.eq_dec l f = 0%nat) as Hz.
  { apply count_occ_not_In. rewrite <- list_elem_of_In. intros Hl. destruct (R2 f Hl Hf0) as [y Hy]. congruence. }
  split.
  - intros g y. rewrite Ef. destruct (decide (g = f)) as [->|Hg].
    + rewrite lookup_insert_eq. intros [= <-]. rewrite count_occ_cons_eq, Hz, Hr by done. done.
    + rewrite lookup_insert_ne, count_occ_cons_neq by done. apply R1.
  - intros g [->|Hg]%elem_of_cons Hg0; rewrite Ef, lookup_insert_is_Some'; [by left|right; by apply R2].
Qed.

(** An object outside the file system is not one of its files or pipes. *)
Lemma not_object v B f : f ∉ vfs_objects v ∪ B → files v !! f = None ∧ pipes v !! f = None ∧ f ∉ nodes v.
Proof.
  unfold vfs_objects. intros Hf. split; [apply not_elem_of_dom; set_solver|]. split; [apply not_elem_of_dom; set_solver|].
  intros Hn. apply Hf. rewrite !elem_of_union, elem_of_list_to_set. auto.
Qed.

Lemma holding_open v B l root base path flags_ :
  holding v B l → is_node v root → within v root base → c_chars path →
  ∃ e f v', vfs_openat root base path flags_ v = Some (e, f, v') ∧ steady U O v v' ∧
    ((e < 0 ∧ f = 0 ∧ holding v' B l ∧ nodes v' = nodes v ∧ same_tree v v' ∧ files v' = files v) ∨
     (e = 0 ∧ f ∉ vfs_objects v ∪ B ∧ holding v' B (f :: l) ∧ (∀ x, is_node v x → is_node v' x) ∧
      ∃ n, open_done U O lo hi v v' root f flags_ (vfs_objects v ∪ B) ∧ is_node v' n ∧ flags (fl v' f) = flags_ ∧ node (fl v' f) = n)).
Proof.
  intros Hh Hr Hb Hc. pose proof Hh as [A1 A2 A3 A4].
  destruct (vfs_openat_spec U O lo hi Hspan v _ root base path flags_ A1 Hr Hb Hc) as (e & f & v' & E & Hcase).
  exists e, f, v'. split; [done|]. destruct Hcase as [(He & Hf & Hfail)|(He & Hdone)].
  - destruct Hfail as (F1 & F2 & F3 & F4 & F5 & F6). split; [done|]. left. split; [done|]. split; [done|]. split; [|done].
    assert (vfs_objects v' = vfs_objects v) as Eo by (unfold vfs_objects; destruct F6 as (_ & -> & _); by rewrite F3, F5).
    split; [by rewrite Eo| |by rewrite Eo|by destruct A4; split; rewrite F5].
    apply (pipes_ok_keys v); [done|apply F6| |by intros g; rewrite F5]. intros a Ha _. by apply F2.
  - pose proof Hdone as (n & L' & D1 & D2 & D3 & D4 & D5 & D5' & D6 & D7 & D8 & D9). split; [done|]. right.
    destruct (not_object v B f D2) as (N1 & N2 & N3).
    assert (∀ x, is_node v x → is_node v' x) as Hmono.
    { destruct D9 as [(_ & Ht & _)|(_ & _ & _ & _ & Hx)]; intros x Hn; [by apply Ht|apply Hx; by right]. }
    assert (∀ a, is_node v' a → is_Some (pipes v !! a) → is_node v a) as Hpn.
    { destruct D9 as [(_ & Ht & _)|(_ & HnL & _ & _ & Hx)]; intros a Ha Hs; [by apply Ht|]. apply Hx in Ha as [->|]; [|done].
      exfalso. apply HnL. unfold vfs_objects. apply elem_of_dom in Hs. set_solver. }
    assert (L' = vfs_objects v' ∪ B ∧ vfs_objects v' ## B) as [EL HdB].
    { unfold vfs_objects. destruct D8 as (_ & -> & _). rewrite D6, dom_insert_L.
      assert (∀ x, x ∈ (list_to_set (nodes v) : gset Z) ↔ is_node v x) as HN.
      { intros x. destruct (vk_store _ _ _ _ _ _ A1) as (F & P & Hs). by rewrite elem_of_list_to_set, (so_dom _ _ _ _ _ _ _ _ Hs). }
      destruct D9 as [(_ & Ht & ->)|(_ & HnL & -> & _ & Hx)].
      - rewrite (nodes_set v' _ (list_to_set (nodes v)) D3) by (intros x; rewrite HN; symmetry; apply Ht).
        unfold vfs_objects in *. clear -A3 D2. set_solver.
      - rewrite (nodes_set v' _ ({[n]} ∪ list_to_set (nodes v)) D3).
        2:{ intros x. rewrite elem_of_union, elem_of_singleton, HN. symmetry. apply Hx. }
        unfold vfs_objects in *. clear -A3 D2 HnL. set_solver. }
    split; [done|]. split; [done|]. split; [split|split; [done|]].
    + by rewrite <- EL.
    + eapply (pipes_ok_insert v v' f); [exact A2|apply D8|exact Hpn|exact N1|exact N2| |exact D6]. cbn. by case_if.
    + done.
    + eapply refs_ok_new; [exact A4|done|done| |exact D6]. done.
    + exists n. split; [done|]. split; [done|]. unfold fl. by rewrite D6, lookup_total_insert_eq.
Qed.

(** ** Objects of the heap that are not the file system's *)

Lemma holding_kern v B B' l s F P :
  holding v B l → bare U s F P (vfs_objects v ∪ B') (block_pages v ++ O) → vfs_objects v ## B' →
  holding (set_kern s v) B' l.
Proof.
  intros [A1 A2 A3 A4] Hb Hd. split; [|by destruct A2; split|done|by destruct A4; split].
  destruct A1 as [(F0 & P0 & [S1 S2 S3 S4 S5 S6]) V2 V3 V4 V5]. split; try done; [|by apply (tree_ok_proper v)].
  exists F, P. split; try done.
  - intros n Hn. apply S3 in Hn. change (vfs_objects (set_kern s v)) with (vfs_objects v). unfold vfs_objects.
    rewrite !elem_of_union, elem_of_list_to_set. auto.
  - intros f Hf. split; [|by apply S5]. change (vfs_objects (set_kern s v)) with (vfs_objects v). unfold vfs_objects.
    apply elem_of_dom in Hf. rewrite !elem_of_union. auto.
Qed.

Lemma holding_bare v B l : holding v B l → ∃ F P, bare U (kern v) F P (vfs_objects v ∪ B) (block_pages v ++ O).
Proof. intros Hh. destruct (vk_store _ _ _ _ _ _ (ho_ok _ _ _ Hh)) as (F & P & Hs). exists F, P. apply Hs. Qed.

Lemma holding_kmalloc v B l n :
  holding v B l → 0 <= n → ∃ o s, kmalloc n (kern v) = (o, s) ∧ steady U O v (set_kern s v) ∧
    (o ≠ 0 → o ∉ vfs_objects v ∪ B) ∧ holding (set_kern s v) (if o =? 0 then B else {[o]} ∪ B) l.
Proof.
  intros Hh Hn. destruct (holding_bare v B l Hh) as (F & P & Hb).
  destruct (bare_kmalloc U _ F P _ _ n Hb Hn) as (o & s & F' & P' & E & Hb' & Hnew & Hk). exists o, s. split; [done|].
  split; [by eapply steady_more|]. split; [done|]. pose proof (ho_apart _ _ _ Hh) as Hd.
  destruct (Z.eqb_spec o 0) as [->|Ho]; [by apply (holding_kern v B _ l s F' P')|].
  specialize (Hnew Ho). apply (holding_kern v B _ l s F' P' Hh); [|clear -Hd Hnew; set_solver].
  replace (vfs_objects v ∪ ({[o]} ∪ B)) with ({[o]} ∪ (vfs_objects v ∪ B)); [done|]. clear. set_solver.
Qed.

Lemma holding_kfree v B l o :
  holding v ({[o]} ∪ B) l → o ∉ B →
  holding (set_kern (kfree o (kern v)) v) B l ∧ steady U O v (set_kern (kfree o (kern v)) v).
Proof.
  intros Hh Ho. destruct (holding_bare v _ l Hh) as (F & P & Hb). pose proof (ho_apart _ _ _ Hh) as Hd.
  destruct (bare_kfree U _ F P _ _ o Hb) as (F' & P' & Hb' & Hk); [clear; set_solver|].
  split; [|by eapply steady_more]. apply (holding_kern v _ B l _ F' P' Hh); [|clear -Hd; set_solver].
  replace (vfs_objects v ∪ B) with ((vfs_objects v ∪ ({[o]} ∪ B)) ∖ {[o]}); [done|]. clear -Hd Ho. set_solver.
Qed.

(** ** A new pipe *)

(** A new open file of a pipe. *)
Lemma new_end_ok v L f flags_ a s F P v' :
  vfs_ok U O lo hi v L → f ∉ L → let x := mk_file pipe_ops 0 a 0 1 flags_ in
  store_ok U O lo hi (set_kern s (set_live_files (u64 (live_files v + 1)) (with_file f (mk_file pipe_ops 0 0 0 1 flags_) v)))
    F P ({[f]} ∪ L) →
  kern v' = s → vnodes v' = vnodes v ∧ nodes v' = nodes v ∧ mounts v' = mounts v → files v' = <[f := x]> (files v) →
  live_files v' = u64 (live_files v + 1) → vfs_ok U O lo hi v' ({[f]} ∪ L).
Proof.
  intros [(F0 & P0 & Hs0) Ht V3 V4 V5] HfL x [S1 S2 S3 S4 S5 S6] Ek (Ev & En & Em) Ef El.
  assert (files v !! f = None) as Hnone.
  { apply eq_None_not_Some. intros Hf. by apply HfL, (so_files _ _ _ _ _ _ _ _ Hs0). }
  assert (∀ y, vn v' y = vn v y) as Evn by (intros y; unfold vn; by rewrite Ev).
  assert (∀ y, is_node v' y ↔ is_node v y) as Ein by (intros y; unfold is_node; by rewrite Ev).
  split.
  - exists F, P. split.
    + rewrite Ek, (block_pages_ext v v') by (done || intros y _; by rewrite Evn). exact S1.
    + by rewrite En.
    + intros y. rewrite En, Ein. apply S3.
    + intros y. rewrite Ein. apply S4.
    + intros g. rewrite Ef, lookup_insert_is_Some', Ein. intros Hg. apply S5. cbn. by rewrite lookup_insert_is_Some'.
    + intros y. rewrite Ein, Evn. apply S6.
  - apply (tree_ok_proper v); [|done]. split; [done|]. split; [intros y; by rewrite Evn|done].
  - unfold mnt in *. by rewrite Em.
  - intros g. unfold fl. rewrite Ef, lookup_insert_is_Some'. destruct (decide (g = f)) as [->|Hg].
    + intros _. rewrite lookup_total_insert_eq. split; cbn; [lia|]. split; [lia|done].
    + intros [?|Hgs]; [done|]. rewrite lookup_total_insert_ne by done. destruct (V4 g Hgs) as (O1 & O2 & O3).
      split; [done|]. split; [done|]. intros Ho. apply Ein. by apply O3.
  - rewrite Ef, El, V5, map_size_insert_None by done. unfold u64. rewrite Zplus_mod_idemp_l. f_equal. lia.
Qed.

(** The file of one end, and the end open in the pipe [a], which was an object of [B]
    or a pipe with that end closed. *)
Lemma holding_new_end v B B' l f flags_ a p s F P v' :
  holding v B l → f ≠ 0 → f ∉ vfs_objects v ∪ B → let x := mk_file pipe_ops 0 a 0 1 flags_ in
  store_ok U O lo hi (set_kern s (set_live_files (u64 (live_files v + 1)) (with_file f (mk_file pipe_ops 0 0 0 1 flags_) v)))
    F P ({[f]} ∪ (vfs_objects v ∪ B)) →
  kern v' = s → vnodes v' = vnodes v ∧ nodes v' = nodes v ∧ mounts v' = mounts v → files v' = <[f := x]> (files v) →
  live_files v' = u64 (live_files v + 1) → pipes v' = <[a := p]> (pipes v) →
  flags_ = O_RDONLY ∨ flags_ = O_WRONLY → end_open p flags_ = true → (∃ content, pipe_rep p content) →
  (a ∈ B ∧ a ∉ B' ∧ B = {[a]} ∪ B' ∧ ∀ g, g = O_RDONLY ∨ g = O_WRONLY → g ≠ flags_ → end_open p g = false) ∨
  (B' = B ∧ ∃ q, pipes v !! a = Some q ∧ end_open q flags_ = false ∧
     ∀ g, g = O_RDONLY ∨ g = O_WRONLY → g ≠ flags_ → end_open p g = end_open q g) →
  holding v' B' (f :: l).
Proof.
  intros Hh Hf0 HfL x Hs Ek Efs Ef El Ep Hfl Hend Hrep Hcase. pose proof Hh as [A1 A2 A3 A4].
  destruct (not_object v B f HfL) as (N1 & N2 & N3). destruct Efs as (Ev & En & Em).
  assert (a ∈ vfs_objects v ∪ B) as HaL.
  { destruct Hcase as [(Ha & _)|(_ & q & Hq & _)]; [set_solver|]. unfold vfs_objects. assert (a ∈ dom (pipes v)) by (apply elem_of_dom; eauto). set_solver. }
  assert (¬ is_node v a ∧ files v !! a = None) as [Han Haf].
  { destruct Hcase as [(Ha & _)|(_ & q & Hq & _)]; [|apply (pk_apart v A2); eauto].
    destruct (vk_store _ _ _ _ _ _ A1) as (F0 & P0 & Hs0). rewrite <- (so_dom _ _ _ _ _ _ _ _ Hs0), <- not_elem_of_dom.
    unfold vfs_objects in A3. split; [|set_solver]. intros Hn. apply (A3 a); [|done]. rewrite !elem_of_union, elem_of_list_to_set. auto. }
  assert ({[f]} ∪ (vfs_objects v ∪ B) = vfs_objects v' ∪ B' ∧ vfs_objects v' ## B') as [EL HdB].
  { unfold vfs_objects in *. rewrite En, Ef, Ep, !dom_insert_L. clear -A3 HfL Hcase HaL.
    destruct Hcase as [(Ha & HaB & -> & _)|(-> & q & Hq & _)]; [split; set_solver|].
    assert (a ∈ dom (pipes v)) by (apply elem_of_dom; eauto). split; set_solver. }
  split.
  - rewrite <- EL. by apply (new_end_ok v _ f flags_ a s F P v').
  - apply (pipes_ok_open v v' f a p flags_ x); try done.
    + destruct Hcase as [(Ha & _)|(_ & q & Hq & Hoff)]; [left|eauto]. apply not_elem_of_dom. unfold vfs_objects in A3. clear -A3 Ha. set_solver.
    + destruct Hcase as [(_ & _ & _ & Hg)|(_ & q & Hq & _)]; [done|congruence].
    + intros n. unfold is_node. by rewrite Ev.
    + intros ->. contradiction.
  - done.
  - by apply (refs_ok_new v v' l f x).
Qed.

Lemma half_pipe_rep : pipe_rep half_pipe [].
Proof. by split. Qed.

(** [file_new] for an end of a pipe. *)
Lemma file_new_end v B l flags_ :
  holding v B l → ∃ f v1, file_new pipe_ops flags_ v = (f, v1) ∧
    ((f = 0 ∧ ∃ s, v1 = set_kern s v ∧ holding v1 B l ∧ steady U O v v1) ∨
     (f ≠ 0 ∧ f ∉ vfs_objects v ∪ B ∧ ∃ s F P,
        let v2 := set_kern s (set_live_files (u64 (live_files v + 1)) (with_file f (mk_file pipe_ops 0 0 0 1 flags_) v)) in
        v1 = v2 ∧ store_ok U O lo hi v2 F P ({[f]} ∪ (vfs_objects v ∪ B)) ∧ kept U O (mem (kern v)) (mem s))).
Proof.
  intros Hh. destruct (vk_store _ _ _ _ _ _ (ho_ok _ _ _ Hh)) as (F & P & Hs).
  destruct (file_new pipe_ops flags_ v) as [f v1] eqn:E. exists f, v1. split; [done|].
  destruct (file_new_spec U O lo hi Hspan v F P _ pipe_ops flags_ f v1 Hs E)
    as [(-> & s & F' & P' & -> & Hs' & Hk)|(Hf & HfL & s & F' & P' & -> & Hs' & Hk)].
  - left. split; [done|]. exists s. split; [done|]. split; [|by eapply steady_more].
    apply (holding_kern v B B l s F' P' Hh); [apply Hs'|apply Hh].
  - right. split; [done|]. split; [done|]. exists s, F', P'. split; [done|]. split; [done|]. by eapply kept_blocks.
Qed.

Lemma holding_pipe v B l :
  holding v B l → ∃ e r w v', pipe_create v = (e, r, w, v') ∧ kept U O (mem (kern v)) (mem (kern v')) ∧
    (vnodes v' = vnodes v ∧ nodes v' = nodes v ∧ mounts v' = mounts v) ∧ nodes_from v v' ∧
    ((e = - E_NOMEM ∧ r = 0 ∧ w = 0 ∧ holding v' B l) ∨
     (e = 0 ∧ holding v' B (r :: w :: l) ∧ r ≠ w ∧ ∃ a, pipes v !! a = None ∧ pipes v' = <[a := pipe_new]> (pipes v) ∧
       files v' = <[w := mk_file pipe_ops 0 a 0 1 O_WRONLY]> (<[r := mk_file pipe_ops 0 a 0 1 O_RDONLY]> (files v)) ∧
       files v !! r = None ∧ files v !! w = None)).
Proof.
  intros Hh. unfold pipe_create. destruct (holding_kmalloc v B l SIZEOF_PIPE Hh ltac:(lia)) as (a & s & -> & Hst & Hnew & Hh1).
  destruct (Z.eqb_spec a 0) as [Ha|Ha].
  { eexists _, _, _, _. split; [reflexivity|]. split; [apply Hst|]. split; [done|]. split; [by apply nodes_from_same|]. left. done. }
  specialize (Hnew Ha). set (v1 := set_kern s v) in *.
  destruct (file_new_end v1 _ l O_RDONLY Hh1) as (r & v2 & -> & [(-> & s2 & -> & Hh2 & Hst2)|(Hr & HrL & s2 & F2 & P2 & -> & Hs2 & Hk2)]).
  { cbn [Z.eqb]. destruct (holding_kfree (set_kern s2 v1) B l a Hh2) as [Hh3 Hst3]; [clear -Hnew; set_solver|].
    eexists _, _, _, _. split; [reflexivity|]. split; [|split; [done|split; [by apply nodes_from_same|left; done]]].
    exact (proj1 (steady_trans U O _ _ _ Hst (steady_trans U O _ _ _ Hst2 Hst3))). }
  rewrite (proj2 (Z.eqb_neq _ _) Hr). set (v3 := update_file (with_private a) r _).
  assert (files v3 = <[r := mk_file pipe_ops 0 a 0 1 O_RDONLY]> (files v)) as Ef3.
  { unfold v3, update_file, fl. cbn. by rewrite lookup_total_insert_eq, insert_insert_eq. }
  assert (nodes_from v v3) as Hnf3.
  { intros g x. rewrite Ef3. destruct (decide (g = r)) as [->|]; [rewrite lookup_insert_eq; by intros [= <-]|].
    rewrite lookup_insert_ne by done. eauto. }
  assert (holding v3 B (r :: l)) as Hh3.
  { apply (holding_new_end v1 ({[a]} ∪ B) B l r O_RDONLY a half_pipe s2 F2 P2 v3); try done; [by left|exists []; apply half_pipe_rep|].
    left. split; [clear; set_solver|]. split; [clear -Hnew; set_solver|]. split; [done|]. intros g [-> | ->] Hg; done. }
  assert (pipes v3 = <[a := half_pipe]> (pipes v)) as Ep3 by done.
  destruct (file_new_end v3 B _ O_WRONLY Hh3) as (w & v4 & -> & [(-> & s4 & -> & Hh4 & Hst4)|(Hw & HwL & s4 & F4 & P4 & -> & Hs4 & Hk4)]).
  { cbn [Z.eqb]. destruct (holding_put (set_kern s4 v3) B r l Hh4) as (Hh5 & Hk5 & Hfs).
    eexists _, _, _, _. split; [reflexivity|]. split; [|split; [exact Hfs|split; [|left; done]]].
    2:{ apply (nodes_from_trans v (set_kern s4 v3)); [exact Hnf3|]. apply file_put_nodes_from; [done|]. change (files (set_kern s4 v3)) with (files v3).
        rewrite Ef3, lookup_insert_eq. eauto. }
    eapply kept_trans; [exact (proj1 Hst)|]. eapply kept_trans; [exact Hk2|]. eapply kept_trans; [exact (proj1 Hst4)|exact Hk5]. }
  rewrite (proj2 (Z.eqb_neq _ _) Hw). set (v5 := update_file (with_private a) w _).
  assert (files v5 = <[w := mk_file pipe_ops 0 a 0 1 O_WRONLY]> (files v3)) as Ef5.
  { unfold v5, update_file, fl. cbn. by rewrite lookup_total_insert_eq, insert_insert_eq. }
  set (v6 := set_pipes _ v5). assert (pipes v6 = <[a := pipe_new]> (pipes v3)) as Ep6.
  { unfold v6. change (pipes v5) with (pipes v3). cbn [pipes set_pipes]. rewrite Ep3, insert_insert_eq.
    apply map_eq. intros b. destruct (decide (b = a)) as [->|Hb]; [by rewrite lookup_alter_eq, !lookup_insert_eq|].
    by rewrite lookup_alter_ne, !lookup_insert_ne. }
  eexists _, _, _, _. split; [reflexivity|]. split; [|split; [done|split; [|right]]].
  { eapply kept_trans; [exact (proj1 Hst)|]. eapply kept_trans; [exact Hk2|exact Hk4]. }
  { apply (nodes_from_trans v v3); [done|]. intros g x. change (files v6) with (files v5). rewrite Ef5.
    destruct (decide (g = w)) as [->|]; [rewrite lookup_insert_eq; by intros [= <-]|]. rewrite lookup_insert_ne by done. eauto. }
  destruct (not_object v1 _ r HrL) as (Nr & _). destruct (not_object v3 _ w HwL) as (Nw & _). rewrite Ef3 in Nw.
  apply lookup_insert_None in Nw as [Nw Nrw]. destruct (not_object v B a Hnew) as (_ & Na & _).
  split; [done|]. split; [|split; [done|]].
  - apply (holding_perm v6 B (w :: r :: l)); [constructor|].
    apply (holding_new_end v3 B B (r :: l) w O_WRONLY a pipe_new s4 F4 P4 v6); try done; [by right|exists []; apply pipe_new_rep|].
    right. split; [done|]. exists half_pipe. split; [rewrite Ep3; apply lookup_insert_eq|]. split; [done|].
    intros g [-> | ->] Hg; done.
  - exists a. split; [done|]. split; [by rewrite Ep6, Ep3, insert_insert_eq|].
    split; [by change (files v6) with (files v5); rewrite Ef5, Ef3|done].
Qed.
End Own.
