(* ===== verification/VfsIo.v ===== *)
(** Reading and writing through any open file, pipes and devices included
    ([file_read] and [file_write] of [src/fs/vfs.c]): what they leave alone. *)
From S2P Require Import Prelude Machine Runtime PageAlloc HeapSpec Ownership Outcome Log Pipe Vfs VfsInit VfsTree VfsInv VfsFiles VfsOpen VfsPipe.

(** What of an open file a transfer does not change. *)
Definition meta (x : file) : file_ops * Z * Z * Z * Z := (ops x, node x, private x, flags x, references x).

(** Only contents, offsets and the buffers of pipes have changed. *)
Record io_kept (v v' : vfs) : Prop := {
  ik_tree : same_tree v v';
  ik_nodes : nodes v' = nodes v;
  ik_files : ∀ g, meta <$> files v' !! g = meta <$> files v !! g;
  ik_pipes : dom (pipes v') = dom (pipes v);
}.

#[export] Instance io_kept_refl : Reflexive io_kept.
Proof. done. Qed.
#[export] Instance io_kept_trans : Transitive io_kept.
Proof.
  intros v1 v2 v3 [T1 N1 F1 P1] [T2 N2 F2 P2]. split; [by etransitivity|congruence| |congruence].
  intros g. by rewrite F2, F1.
Qed.

Lemma io_kept_kern v s : io_kept v (set_kern s v).
Proof. done. Qed.

(** Moving an offset. *)
Lemma io_kept_offset v v' f o :
  same_tree v v' → nodes v' = nodes v → pipes v' = pipes v → is_Some (files v !! f) →
  files v' = <[f := with_offset o (fl v f)]> (files v) → io_kept v v'.
Proof.
  intros Ht Hn Hp [x Hx] Hf. split; [done|done| |by rewrite Hp]. intros g. rewrite Hf.
  assert (fl v f = x) as Efl by (by apply lookup_total_correct). destruct (decide (g = f)) as [->|Hg].
  - by rewrite lookup_insert_eq, Hx, Efl.
  - by rewrite lookup_insert_ne.
Qed.

Lemma meta_some v v' g x :
  io_kept v v' → files v' !! g = Some x → ∃ y, files v !! g = Some y ∧ meta y = meta x.
Proof.
  intros Hk Hg. pose proof (ik_files _ _ Hk g) as E. rewrite Hg in E. destruct (files v !! g) as [y|]; [|done].
  injection E as E. exists y. split; [done|]. unfold meta. congruence.
Qed.

Lemma io_kept_some v v' g : io_kept v v' → is_Some (files v !! g) → is_Some (files v' !! g) ∧ meta (fl v' g) = meta (fl v g).
Proof.
  intros Hk [x Hx]. pose proof (ik_files _ _ Hk g) as E. unfold fl. rewrite !lookup_total_alt, Hx in *.
  destruct (files v' !! g) as [y|]; [|done]. injection E as E. split; [eauto|]. unfold meta. cbn. congruence.
Qed.

Lemma io_kept_objects v v' : io_kept v v' → vfs_objects v' = vfs_objects v.
Proof.
  intros Hk. unfold vfs_objects. rewrite (ik_nodes _ _ Hk), (ik_pipes _ _ Hk). do 2 f_equal. apply set_eq. intros g.
  rewrite !elem_of_dom. pose proof (ik_files _ _ Hk g) as E. destruct (files v' !! g), (files v !! g); naive_solver.
Qed.

Lemma io_kept_keys v v' : io_kept v v' → pipes v' = pipes v → pipes_ok v → pipes_ok v'.
Proof.
  intros Hk Hp Hok. apply (pipes_ok_keys v); [done|done| |].
  - intros a Ha _. by apply (ik_tree _ _ Hk).
  - intros g. pose proof (ik_files _ _ Hk g) as E. destruct (files v' !! g) as [x|], (files v !! g) as [y|]; try done.
    injection E as E. cbn. unfold key. congruence.
Qed.

(** A pipe in another state of its own. *)
Definition same_ends (p p' : pipe) : Prop := reader p' = reader p ∧ writer p' = writer p.

Lemma io_kept_pipe v v' a p p' :
  same_tree v v' → nodes v' = nodes v → files v' = files v → pipes v !! a = Some p → pipes v' = <[a := p']> (pipes v) →
  io_kept v v'.
Proof.
  intros Ht Hn Hf Ha Hp. split; [done|done|by intros g; rewrite Hf|]. rewrite Hp, dom_insert_L.
  assert (a ∈ dom (pipes v)) by (apply elem_of_dom; eauto). set_solver.
Qed.

Lemma pipes_ok_step v v' a p p' :
  pipes_ok v → same_tree v v' → files v' = files v → pipes v !! a = Some p → (∃ c, pipe_rep p' c) → same_ends p p' →
  pipes v' = <[a := p']> (pipes v) → pipes_ok v'.
Proof.
  intros [P1 P2 P3 P4 P5] Ht Hf Ha Hrep [Er Ew] Hp.
  assert (∀ g, end_open p' g = end_open p g) as Hend by (intros g; unfold end_open; by case_if).
  assert (∀ b, is_Some (pipes v' !! b) → is_Some (pipes v !! b)) as Hdom.
  { intros b. rewrite Hp. destruct (decide (b = a)) as [->|]; [eauto|by rewrite lookup_insert_ne]. }
  split.
  - intros f x. rewrite Hf. intros Hx Ho. destruct (P1 f x Hx Ho) as [Hfl (q & Hq & He)]. split; [done|]. rewrite Hp.
    destruct (decide (private x = a)) as [E|]; [|rewrite lookup_insert_ne by done; eauto].
    rewrite E in *. exists p'. rewrite lookup_insert_eq, Hend. split; [done|congruence].
  - intros f g x y. rewrite Hf. apply P2.
  - intros b q flags_. rewrite Hp, Hf. destruct (decide (b = a)) as [->|].
    + rewrite lookup_insert_eq. intros [= <-] Hfl He. rewrite Hend in He. by apply (P3 a p).
    + rewrite lookup_insert_ne by done. apply P3.
  - intros b q. rewrite Hp. destruct (decide (b = a)) as [->|].
    + rewrite lookup_insert_eq. intros [= <-]. destruct (P4 a p Ha) as [_ Ho]. by rewrite Er, Ew.
    + rewrite lookup_insert_ne by done. apply P4.
  - intros b Hb. rewrite Hf. destruct (P5 b (Hdom b Hb)) as [Hn Hnone]. split; [|done]. intros Hbn. by apply Hn, Ht.
Qed.

Lemma put_bytes_spec bytes : ∀ m a b,
  load8 (put_bytes m a bytes) b = if decide (a <= b < a + Z.of_nat (length bytes)) then nth (Z.to_nat (b - a)) bytes 0 mod 256 else load8 m b.
Proof.
  induction bytes as [|x l IH]; intros m a b; cbn [put_bytes length].
  { rewrite decide_False by lia. done. }
  rewrite IH. destruct (decide (b = a)) as [->|Hb].
  - rewrite decide_False, decide_True by lia. rewrite Z.sub_diag, load8_store8, decide_True by done. done.
  - destruct (decide (a + 1 <= b < a + 1 + Z.of_nat (length l))).
    + rewrite decide_True by lia. replace (Z.to_nat (b - a)) with (S (Z.to_nat (b - (a + 1)))) by lia. done.
    + rewrite decide_False by lia. by rewrite load8_store8, decide_False.
Qed.

(** The console does not touch memory. *)
Class QuietConsole `{Backends} := {
  getc_ram : ∀ s, same_ram s (snd (console_getc s));
  putc_ram : ∀ c s, same_ram s (console_putc c s);
}.

Section Io.
Context `{HeapContract} `{Backends} `{!QuietConsole}.
Context (U O : list Z) (lo hi : Z) (Hspan : hi - lo < 2 ^ 62).

Lemma holding_io v v' B l :
  holding U O lo hi v B l → vfs_ok U O lo hi v' (vfs_objects v ∪ B) → io_kept v v' → pipes_ok v' →
  holding U O lo hi v' B l.
Proof.
  intros [A1 A2 A3 [R1 R2]] Hv Hk Hp. rewrite <- (io_kept_objects v v' Hk) in Hv, A3. split; try done. split.
  - intros f x Hf. destruct (meta_some v v' f x Hk Hf) as (y & Hy & E). rewrite <- (R1 f y Hy). unfold meta in E. congruence.
  - intros f Hf Hn. by apply (io_kept_some v v' f Hk), R2.
Qed.

(** The memory has changed in the buffer only. *)
Definition filled (buffer size_ : Z) (s s' : kstate) : Prop :=
  ∃ m', same_ram (set_mem m' s) s' ∧ ∀ a, ¬ (buffer <= a < buffer + size_) → load8 m' a = load8 (mem s) a.

Lemma filled_none buffer size_ s s' : same_ram s s' → filled buffer size_ s s'.
Proof. intros Hs. by exists (mem s). Qed.

Lemma filled_mem buffer size_ s s' : filled buffer size_ s s' → same_on (λ a, ¬ (buffer <= a < buffer + size_)) (mem s) (mem s').
Proof. intros (m' & (E & _) & Hm) a Ha. cbn in E. rewrite E. by apply Hm. Qed.

Lemma filled_ram buffer size_ s0 s s' s1 :
  same_ram s0 s → filled buffer size_ s s' → same_ram s' s1 → filled buffer size_ s0 s1.
Proof.
  intros (E1 & E2 & E3 & E4) (m' & (F1 & F2 & F3 & F4) & Hm) (G1 & G2 & G3 & G4). exists m'. unfold same_ram. cbn in *.
  split; [split; [congruence|split; [congruence|split; congruence]]|]. intros a Ha. rewrite Hm by done. by rewrite E1.
Qed.

Lemma vfs_ok_filled v L buffer size_ s' :
  vfs_ok U O lo hi v L → buffer_ok U O lo hi buffer size_ → filled buffer size_ (kern v) s' → vfs_ok U O lo hi (set_kern s' v) L.
Proof.
  intros Hv Hbuf (m' & Hram & Hm). destruct (vk_store _ _ _ _ _ _ Hv) as (F & P & Hs).
  apply (vfs_ok_store U O lo hi v _ L F P Hv). apply (store_ram U O lo hi (set_kern (set_mem m' (kern v)) v)); [exact Hram|].
  by apply (store_fill U O lo hi v F P L m' buffer size_).
Qed.

Lemma device_loop_fill n : ∀ buffer done_ s, 0 <= done_ →
  let '(r, s') := device_read_loop n buffer done_ s in
  filled (buffer + done_) (Z.of_nat n) s s' ∧ ∀ k, r = Did k → k <= done_ + Z.of_nat n.
Proof.
  induction n as [|n IH]; intros buffer done_ s Hd; cbn [device_read_loop].
  { split; [by exists (mem s)|]. intros k [= <-]. lia. }
  pose proof (getc_ram s) as Hr. destruct (console_getc s) as [c s1]. cbn in Hr.
  destruct (c <? 0).
  { split; [by exists (mem s); split; [destruct s|]|]. intros k. case_if; [intros [= <-]; lia|done]. }
  set (m1 := store8 (mem s1) (buffer + done_) c).
  specialize (IH buffer (done_ + 1) (set_mem m1 s1) ltac:(lia)). destruct (device_read_loop n buffer (done_ + 1) _) as [r s2].
  destruct IH as [(m' & (F1 & F2 & F3 & F4) & Hm) Hk]. split; [|intros k Ek; specialize (Hk k Ek); lia].
  destruct Hr as (E1 & E2 & E3 & E4). exists m'. cbn in F1, F2, F3, F4. split; [unfold same_ram; cbn; split; [done|split; [congruence|split; congruence]]|].
  intros a Ha. rewrite Hm by lia. cbn. unfold m1. rewrite load8_store8, decide_False by lia. by rewrite E1.
Qed.

Lemma device_read_fill n buffer size_ s :
  0 <= size_ → let '(r, s') := device_read n buffer size_ s in
  filled buffer size_ s s' ∧ ∀ k, r = Did k → k <= size_.
Proof.
  intros Hs. unfold device_read. case_if.
  { split; [by exists (mem s)|]. intros k [= <-]. done. }
  pose proof (device_loop_fill (Z.to_nat size_) buffer 0 s ltac:(lia)) as Hl. destruct (device_read_loop _ _ _ _) as [r s'].
  rewrite Z.add_0_r, Z.add_0_l, Z2Nat.id in Hl by lia. done.
Qed.

Lemma device_write_ram n buffer size_ s : same_ram s (snd (device_write n buffer size_ s)).
Proof.
  unfold device_write. cbn. case_if; [|done]. generalize (Z.of_nat <$> seq 0 (Z.to_nat size_)). intros l. revert s.
  induction l as [|i l IH]; intros s; [done|]. cbn. etransitivity; [|apply IH]. apply putc_ram.
Qed.

(** ** Pipes *)

Lemma pipe_read_any thread size_ p c :
  pipe_rep p c → 0 <= size_ → ∃ e threads p', pipe_read thread size_ p = Some (e, threads, p') ∧ (∃ c', pipe_rep p' c') ∧ same_ends p p' ∧
    ∀ r bytes, e = Returned r bytes → Z.of_nat (length bytes) <= size_ ∧ r <= size_.
Proof.
  intros Hp Hs. destruct (decide (size_ = 0)) as [->|Hne].
  { eexists _, _, p. split; [reflexivity|]. split; [eauto|]. split; [done|]. intros r bytes [= <- <-]. done. }
  destruct (pipe_read_spec thread size_ p c Hp ltac:(lia)) as [(_ & Hw & p' & E & Hp')|(_ & p' & E & Hp' & Ew & Er)].
  - eexists _, _, p'. split; [exact E|]. split; [eauto|]. split; [|done].
    revert E. unfold pipe_read. rewrite (proj2 (Z.eqb_neq _ _) Hne). destruct (spin_lock _); [|done]. case_if; [by intros [= <-]|].
    by destruct (copy_out _ _ _).
  - eexists _, _, p'. split; [exact E|]. split; [eauto|]. split; [done|]. intros r bytes [= <- <-]. rewrite length_take. lia.
Qed.

Lemma pipe_write_any thread buffer p c :
  pipe_rep p c → ∃ e threads p', pipe_write thread buffer p = Some (e, threads, p') ∧ (∃ c', pipe_rep p' c') ∧ same_ends p p' ∧
    ∀ r bytes, e = Returned r bytes → r <= Z.of_nat (length buffer).
Proof.
  intros Hp. destruct (decide (buffer = [])) as [->|Hne].
  { eexists _, _, p. split; [reflexivity|]. split; [eauto|]. split; [done|]. intros r bytes [= <- <-]. done. }
  destruct (pipe_write_spec thread buffer p c Hp Hne) as [(Hr & Hu & p' & E & Hp')|[(Hr & p' & E & Hp')|(Hr & Hu & p' & E & Hn & Hp' & Ew & Er)]];
    (eexists _, _, p'; split; [exact E|]; split; [eauto|]); (split; [|intros r bytes Eb; try injection Eb as <- <-; try done; lia]).
  - revert E. unfold pipe_write. case_if; [done|]. destruct (spin_lock _); [|done]. case_if; [by intros [= <-]|]. case_if; [by intros [= <-]|done].
  - revert E. unfold pipe_write. destruct (spin_lock _); repeat case_if; try done; intros [=]; by subst p'.
  - revert E. unfold pipe_write. destruct (spin_lock _); repeat case_if; try done; intros [=]; by subst p'.
Qed.

(** ** Any open file *)

(** A transfer of [size_] bytes. *)
Definition io_done (v v' : vfs) (B : gset Z) (l : list Z) (size_ : Z) (r : io) : Prop :=
  holding U O lo hi v' B l ∧ io_kept v v' ∧ ∀ k, r = Did k → k <= size_.

Lemma io_done_ram v v' B l size_ r s :
  same_ram (kern v') s → io_done v v' B l size_ r → io_done v (set_kern s v') B l size_ r.
Proof.
  intros Hs (Hh & Hk & Hr). split; [|split; [|done]].
  - apply (holding_io v'); [done| |apply io_kept_kern|by destruct Hh as [_ [] _ _]; split].
    apply vfs_ok_ram; [done|apply Hh].
  - etransitivity; [exact Hk|apply io_kept_kern].
Qed.

Lemma io_done_error v B l size_ e : holding U O lo hi v B l → 0 <= size_ → e <= 0 → io_done v v B l size_ (Did e).
Proof. intros Hh Hs He. split; [done|]. split; [done|]. intros k [= <-]. lia. Qed.

(** A pipe in its next state, with the buffer filled. *)
Lemma io_done_pipe v v' B l size_ r a p p' c qs s' :
  holding U O lo hi v B l → pipes v !! a = Some p → pipe_rep p' c → same_ends p p' →
  vfs_ok U O lo hi (set_kern s' v) (vfs_objects v ∪ B) → v' = set_kern s' (pipe_step a p' qs v) →
  (∀ k, r = Did k → k <= size_) → io_done v v' B l size_ r.
Proof.
  intros Hh Ha Hrep He Hv -> Hr.
  assert (io_kept v (set_kern s' (pipe_step a p' qs v))) as Hk by (by apply (io_kept_pipe v _ a p p')).
  split; [|by split]. apply (holding_io v); [done| |done|].
  - destruct Hv as [(F & P & V1) V2 V3 V4 V5]. split; try done; [|by apply (tree_ok_proper (set_kern s' v))].
    exists F, P. by destruct V1; split.
  - apply (pipes_ok_step v _ a p p'); try done; [apply Hh|eauto].
Qed.

Lemma holding_pipe_of v B l f :
  holding U O lo hi v B l → is_Some (files v !! f) → ops (fl v f) = pipe_ops →
  ∃ p c, pipes v !! private (fl v f) = Some p ∧ pipe_rep p c.
Proof.
  intros Hh [x Hx] Ho. assert (fl v f = x) as E by (by apply lookup_total_correct). rewrite E in *.
  destruct (pk_file v (ho_pipes _ _ _ _ _ _ _ Hh) f x Hx Ho) as [_ (p & Hp & _)].
  destruct (pk_rep v (ho_pipes _ _ _ _ _ _ _ Hh) _ p Hp) as [[c Hc] _]. eauto.
Qed.

Lemma pipe_read_io v B l thread x buffer size_ p c :
  holding U O lo hi v B l → 0 <= size_ → buffer_ok U O lo hi buffer size_ → pipes v !! private x = Some p → pipe_rep p c →
  ∃ r v', pipe_read_file thread x buffer size_ v = Some (r, v') ∧ io_done v v' B l size_ r ∧ filled buffer size_ (kern v) (kern v').
Proof.
  intros Hh Hs Hbuf Hp Hc. unfold pipe_read_file. rewrite Hp.
  destruct (pipe_read_any thread size_ p c Hc Hs) as (e & threads & p' & -> & (c' & Hc') & He & Hb). destruct e as [r bytes|].
  - destruct (Hb r bytes eq_refl) as [Hlen Hr]. set (s' := set_mem (put_bytes (mem (kern v)) buffer bytes) (kern v)).
    assert (filled buffer size_ (kern v) s') as Hf.
    { exists (put_bytes (mem (kern v)) buffer bytes). split; [done|]. intros a Ha. rewrite put_bytes_spec, decide_False by lia. done. }
    eexists _, _. split; [reflexivity|]. split; [|exact Hf].
    eapply (io_done_pipe v _ B l size_ _ _ p p' c' _ s'); try done; [|intros k [= <-]; done].
    by eapply vfs_ok_filled; [apply Hh| |].
  - eexists _, _. split; [reflexivity|]. split; [|by apply filled_none].
    eapply (io_done_pipe v _ B l size_ _ _ p p' c' _ (kern v)); try done. apply vfs_ok_ram; [done|apply Hh].
Qed.

Lemma file_read_io v B l thread f buffer size_ :
  holding U O lo hi v B l → is_Some (files v !! f) → 0 <= size_ → buffer_ok U O lo hi buffer size_ →
  ∃ r v', file_read thread f buffer size_ v = Some (r, v') ∧ io_done v v' B l size_ r ∧
    same_on (λ a, ¬ (buffer <= a < buffer + size_)) (mem (kern v)) (mem (kern v')).
Proof using All.
  intros Hh Hf Hs Hbuf. pose proof (open_not_null U O lo hi v _ f (ho_ok _ _ _ _ _ _ _ Hh) Hf) as Hf0.
  destruct (decide (Z.land (flags (fl v f)) O_ACCMODE = O_WRONLY)) as [Hw|Hw].
  { unfold file_read. rewrite (proj2 (Z.eqb_eq _ _) Hw), orb_true_r. eexists _, _. split; [reflexivity|].
    split; [by apply io_done_error|done]. }
  destruct (ops (fl v f)) eqn:Ho.
  - destruct (file_read_spec U O lo hi Hspan v _ thread f buffer size_ (ho_ok _ _ _ _ _ _ _ Hh) Hf Ho Hs Hw Hbuf)
      as (v' & E & Hv' & Hd & (E1 & E2 & E3 & E4 & E5) & E6). eexists _, _. split; [exact E|].
    pose proof (read_count_bound (vn v (node (fl v f))) size_ (offset (fl v f)) Hs) as Hle. split.
    + assert (same_tree v v') as Ht by (unfold same_tree, is_node, vn, shape; rewrite E1, E3; done).
      assert (io_kept v v') as Hk.
      { revert E6. case_decide; [by intros; eapply io_kept_offset|]. intros Ef. split; [done|done|by intros g; rewrite Ef|by rewrite E4]. }
      split; [|split; [done|intros k [= <-]; done]]. apply (holding_io v); try done. by apply (io_kept_keys v); [| |apply Hh].
    + intros a Ha. rewrite (Hd a), decide_False by lia. done.
  - unfold file_read. rewrite (proj2 (Z.eqb_neq _ _) Hf0), (proj2 (Z.eqb_neq _ _) Hw). cbn [orb]. unfold irq_save. cbv zeta.
    set (s0 := csr_clear_sstatus SSTATUS_SIE (kern v)). change (fl (set_kern s0 v) f) with (fl v f). rewrite Ho.
    change (vn (set_kern s0 v) (node (fl v f))) with (vn v (node (fl v f))). change (kern (set_kern s0 v)) with s0.
    pose proof (device_read_fill (vn v (node (fl v f))) buffer size_ s0 Hs) as Hd.
    destruct (device_read (vn v (node (fl v f))) buffer size_ s0) as [r s1]. destruct Hd as [Hfill Hr].
    assert (∀ s, same_ram s1 s → io_done v (set_kern s v) B l size_ r ∧
      same_on (λ a, ¬ (buffer <= a < buffer + size_)) (mem (kern v)) (mem s)) as Hdone.
    { intros s Hs1. assert (filled buffer size_ (kern v) s) as Hf1 by (by eapply filled_ram; [| |exact Hs1]; [|exact Hfill]).
      split; [|by apply filled_mem]. split; [|by split]. apply (holding_io v); [done| |done|by destruct Hh as [_ [] _ _]; split].
      by eapply vfs_ok_filled; [apply Hh| |]. }
    destruct r as [k|t]; eexists _, _; (split; [reflexivity|]); apply Hdone; [apply irq_restore_ram|done].
  - unfold file_read. rewrite (proj2 (Z.eqb_neq _ _) Hf0), (proj2 (Z.eqb_neq _ _) Hw). cbn [orb]. unfold irq_save. cbv zeta.
    set (s0 := csr_clear_sstatus SSTATUS_SIE (kern v)). change (fl (set_kern s0 v) f) with (fl v f). rewrite Ho.
    destruct (holding_pipe_of v B l f Hh Hf Ho) as (p & c & Hp & Hc).
    assert (io_done v (set_kern s0 v) B l 0 (Did 0)) as (Hh0 & _).
    { apply io_done_ram; [done|]. by apply io_done_error. }
    destruct (pipe_read_io (set_kern s0 v) B l thread (fl v f) buffer size_ p c Hh0 Hs Hbuf Hp Hc) as (r & v' & -> & Hd & Hfill).
    assert (io_done v v' B l size_ r) as Hd' by (destruct Hd as (D1 & D2 & D3); split; [done|]; split; [by etransitivity; [|exact D2]|done]).
    destruct r as [k|t]; eexists _, _; (split; [reflexivity|]).
    + split; [by apply io_done_ram; [apply irq_restore_ram|]|]. apply (filled_mem buffer size_ (kern v)).
      eapply filled_ram; [|exact Hfill|apply irq_restore_ram]. done.
    + split; [done|]. apply (filled_mem buffer size_ (kern v)). eapply filled_ram; [|exact Hfill|reflexivity]. done.
Qed.

(** ** Writing *)

Lemma wrote_io v v' n f off k src : wrote U O v v' n f off k src → is_Some (files v !! f) → io_kept v v'.
Proof.
  intros Hw Hf. split; [by eapply wrote_tree|apply Hw| |by rewrite (proj1 (wr_pipes _ _ _ _ _ _ _ _ _ Hw))].
  assert (∀ g, is_Some (files v !! g) → meta (fl v' g) = meta (fl v g)) as Hm.
  { intros g Hg. destruct (decide (g = f)) as [->|Hne].
    - by rewrite (wr_offset _ _ _ _ _ _ _ _ _ Hw).
    - by rewrite (wr_files _ _ _ _ _ _ _ _ _ Hw g Hne). }
  intros g. pose proof (wr_open _ _ _ _ _ _ _ _ _ Hw g) as Ho. specialize (Hm g). unfold fl in Hm. rewrite !lookup_total_alt in Hm.
  destruct (files v' !! g) as [x|], (files v !! g) as [y|]; cbn in *; [by rewrite Hm by eauto| | |done].
  - destruct Ho as [Ho _]. destruct (Ho ltac:(eauto)) as [? [=]].
  - destruct Ho as [_ Ho]. destruct (Ho ltac:(eauto)) as [? [=]].
Qed.

Lemma positioned_io v f : is_Some (files v !! f) → io_kept v (positioned f v).
Proof. intros Hf. unfold positioned. case_if; [|done]. by eapply io_kept_offset. Qed.

Lemma positioned_mem f v : mem (kern (positioned f v)) = mem (kern v) ∧ pipes (positioned f v) = pipes v.
Proof. unfold positioned. by case_if. Qed.

Lemma untouched_io v v' B l size_ e :
  holding U O lo hi v B l → 0 <= size_ → e <= 0 → untouched v v' →
  io_done v v' B l size_ (Did e) ∧ kept U O (mem (kern v)) (mem (kern v')).
Proof.
  intros Hh Hs He (s & Hram & ->). split; [by apply io_done_ram, io_done_error|]. cbn. destruct Hram as (-> & _). apply kept_refl.
Qed.

Lemma regular_write_io v B l f buffer size_ r v' :
  holding U O lo hi v B l → is_Some (files v !! f) → 0 <= size_ → vfs_ok U O lo hi v' (vfs_objects v ∪ B) →
  write_outcome U O v v' f buffer size_ r →
  io_done v v' B l size_ (Did r) ∧ kept U O (mem (kern v)) (mem (kern v')).
Proof.
  intros Hh Hf Hs Hv' Hout. unfold write_outcome in Hout.
  case_decide; [by destruct Hout as [-> Hu]; apply untouched_io|]. destruct (readonly _); [by destruct Hout as [-> Hu]; apply untouched_io|].
  case_decide; [by destruct Hout as [-> Hu]; apply untouched_io|]. destruct Hout as (k & F' & _ & Hw & Hr).
  destruct (io_kept_some v _ f (positioned_io v f Hf) Hf) as [Hf1 _]. destruct (positioned_mem f v) as [Em Ep].
  assert (io_kept v v') as Hk by (etransitivity; [by apply (positioned_io v f)|by eapply wrote_io]). split.
  - split; [|split; [done|]].
    + apply (holding_io v); try done. apply (io_kept_keys v); [done| |apply Hh].
      by rewrite (proj1 (wr_pipes _ _ _ _ _ _ _ _ _ Hw)).
    + intros j [= <-]. revert Hr. case_decide; [intros (R1 & _ & ->); unfold room in *; case_decide; lia|intros [_ ->]; case_decide; lia].
  - rewrite <- Em. eapply kept_sub; [|apply Hw]. intros q Hq. apply elem_of_app. by right.
Qed.

Lemma file_write_io v B l thread f buffer size_ :
  holding U O lo hi v B l → is_Some (files v !! f) → 0 <= size_ → (∀ a, buffer <= a < buffer + size_ → region U O a) →
  ∃ r v', file_write thread f buffer size_ v = Some (r, v') ∧ io_done v v' B l size_ r ∧ kept U O (mem (kern v)) (mem (kern v')).
Proof using All.
  intros Hh Hf Hs Hbuf. pose proof (open_not_null U O lo hi v _ f (ho_ok _ _ _ _ _ _ _ Hh) Hf) as Hf0.
  destruct (decide (ops (fl v f) = regular_ops)) as [Ho|Hno].
  { destruct (file_write_spec U O lo hi Hspan v _ thread f buffer size_ (ho_ok _ _ _ _ _ _ _ Hh) Hf Ho Hs Hbuf) as (r & v' & E & Hv' & Hout).
    eexists _, _. split; [exact E|]. by eapply regular_write_io. }
  unfold file_write. rewrite (proj2 (Z.eqb_neq _ _) Hf0). cbn [orb].
  destruct (Z.eqb_spec (Z.land (flags (fl v f)) O_ACCMODE) 0).
  { eexists _, _. split; [reflexivity|]. apply untouched_io; try done. apply untouched_refl. }
  unfold irq_save. cbv zeta. set (s0 := csr_clear_sstatus SSTATUS_SIE (kern v)). change (fl (set_kern s0 v) f) with (fl v f).
  assert (io_done v (set_kern s0 v) B l 0 (Did 0)) as (Hh0 & _) by (apply io_done_ram; [done|]; by apply io_done_error).
  destruct (ops (fl v f)) eqn:Ho; [done| |].
  - change (vn (set_kern s0 v) (node (fl v f))) with (vn v (node (fl v f))). change (kern (set_kern s0 v)) with s0.
    pose proof (device_write_ram (vn v (node (fl v f))) buffer size_ s0) as Hd.
    assert (fst (device_write (vn v (node (fl v f))) buffer size_ s0) = size_) as Er by done.
    destruct (device_write (vn v (node (fl v f))) buffer size_ s0) as [r s1]. cbn in Hd, Er. subst r.
    eexists _, _. split; [reflexivity|].
    assert (same_ram (kern v) (irq_restore (sstatus (kern v)) s1)) as Hram by (do 2 (etransitivity; [|apply irq_restore_ram || exact Hd]); done).
    split; [|cbn; destruct Hram as (-> & _); apply kept_refl]. apply (io_done_ram v v); [done|]. split; [done|]. split; [done|].
    intros k [= <-]. done.
  - destruct (holding_pipe_of v B l f Hh Hf Ho) as (p & c & Hp & Hc). unfold pipe_write_file.
    change (pipes (set_kern s0 v)) with (pipes v). rewrite Hp.
    destruct (pipe_write_any thread (bytes_at (mem (kern (set_kern s0 v))) buffer size_) p c Hc) as (e & threads & p' & -> & (c' & Hc') & He & Hr).
    rewrite bytes_at_length in Hr by lia.
    assert (∀ r qs, (∀ k, r = Did k → k <= size_) → io_done v (pipe_step (private (fl v f)) p' qs (set_kern s0 v)) B l size_ r) as Hd.
    { intros r qs Hk. eapply (io_done_pipe v _ B l size_ r _ p p' c' qs s0); try done. apply vfs_ok_ram; [done|apply Hh]. }
    destruct e as [r bytes|]; eexists _, _; (split; [reflexivity|]).
    + split; [apply io_done_ram; [apply irq_restore_ram|]; apply Hd; intros k [= <-]; by eapply Hr|]. cbn.
      destruct (irq_restore_ram (sstatus (kern v)) s0) as (-> & _). apply kept_refl.
    + split; [by apply Hd|apply kept_refl].
Qed.
End Io.
