(* ===== verification/Scheduler.v ===== *)
(** [src/kernel/scheduler.c] and the wait queues of [src/kernel/sync.c]: threads,
    the round-robin choice of the next one, sleeping, blocking, waking, and the
    reaping of dead threads.

    A [struct thread] is a record kept under its address; the lists that link
    threads ([all_threads], and each wait queue under its address)
    are lists of thread addresses, which is what [KList] shows the intrusive
    lists to be.  A function that ends in [context_switch] is modelled up to the
    moment the next thread's context is loaded; what the suspended thread does
    when it resumes is [irq_restore] on the flags it saved. *)
From S2P Require Import Prelude Machine Runtime PageAlloc Vm HeapSpec.

Inductive thread_state := THREAD_RUNNING | THREAD_RUNNABLE | THREAD_SLEEPING | THREAD_DEAD.

#[export] Instance thread_state_eq_dec : EqDecision thread_state.
Proof. solve_decision. Defined.

Record thread := mk_thread {
  context_ra : Z;
  context_sp : Z;
  process : option Z;         (* NULL for a kernel thread *)
  user_frame : Z;
  state : thread_state;
  entry : Z;
  argument : Z;
  stack_page : Z;
  wake_tick : Z;
  thread_name : Z;
  idle : bool;
}.

Definition with_state (v : thread_state) (t : thread) : thread :=
  mk_thread (context_ra t) (context_sp t) (process t) (user_frame t) v (entry t) (argument t)
    (stack_page t) (wake_tick t) (thread_name t) (idle t).
Definition with_wake_tick (v : Z) (t : thread) : thread :=
  mk_thread (context_ra t) (context_sp t) (process t) (user_frame t) (state t) (entry t)
    (argument t) (stack_page t) v (thread_name t) (idle t).

Record sched := mk_sched {
  threads : gmap Z thread;
  all_threads : list Z;
  queues : gmap wait_queue (list Z);
  current : Z;
  idle_thread : Z;            (* 0 is NULL *)
  tick_count : Z;
  preemption_count : Z;
  timer_interval : Z;
  timer_running : bool;
  kernel_page_table : page_table;
  timer_deadline : Z;         (* the argument of the last [sbi_set_timer] *)
}.

Definition upd_threads (f : gmap Z thread → gmap Z thread) (s : sched) : sched :=
  mk_sched (f (threads s)) (all_threads s) (queues s) (current s) (idle_thread s) (tick_count s)
    (preemption_count s) (timer_interval s) (timer_running s) (kernel_page_table s)
    (timer_deadline s).
Definition set_all (v : list Z) (s : sched) : sched :=
  mk_sched (threads s) v (queues s) (current s) (idle_thread s) (tick_count s)
    (preemption_count s) (timer_interval s) (timer_running s) (kernel_page_table s)
    (timer_deadline s).
Definition set_queues (v : gmap wait_queue (list Z)) (s : sched) : sched :=
  mk_sched (threads s) (all_threads s) v (current s) (idle_thread s) (tick_count s)
    (preemption_count s) (timer_interval s) (timer_running s) (kernel_page_table s)
    (timer_deadline s).
Definition set_current (v : Z) (s : sched) : sched :=
  mk_sched (threads s) (all_threads s) (queues s) v (idle_thread s) (tick_count s)
    (preemption_count s) (timer_interval s) (timer_running s) (kernel_page_table s)
    (timer_deadline s).
Definition set_idle (v : Z) (s : sched) : sched :=
  mk_sched (threads s) (all_threads s) (queues s) (current s) v (tick_count s)
    (preemption_count s) (timer_interval s) (timer_running s) (kernel_page_table s)
    (timer_deadline s).
Definition set_ticks (ticks preemptions : Z) (s : sched) : sched :=
  mk_sched (threads s) (all_threads s) (queues s) (current s) (idle_thread s) ticks
    preemptions (timer_interval s) (timer_running s) (kernel_page_table s) (timer_deadline s).
Definition set_timer (running : bool) (deadline : Z) (s : sched) : sched :=
  mk_sched (threads s) (all_threads s) (queues s) (current s) (idle_thread s) (tick_count s)
    (preemption_count s) (timer_interval s) running (kernel_page_table s) deadline.

(** [t->state = v] *)
Definition set_state (t : Z) (v : thread_state) (s : sched) : sched :=
  upd_threads (alter (with_state v) t) s.

Definition state_of (s : sched) (t : Z) : option thread_state := state <$> threads s !! t.
Definition is_idle (s : sched) (t : Z) : bool :=
  match threads s !! t with Some th => idle th | None => false end.

(** [thread->state == THREAD_RUNNABLE && !thread->idle] *)
Definition eligible (s : sched) (t : Z) : bool :=
  match threads s !! t with
  | Some th => bool_decide (state th = THREAD_RUNNABLE) && negb (idle th)
  | None => false
  end.

(** * Choosing the next thread *)

(** The successor of a node of the circular list; [None] is the head
    [&all_threads]. *)
Fixpoint after (t : Z) (l : list Z) : option Z :=
  match l with
  | [] => None
  | x :: rest => if x =? t then head rest else after t rest
  end.

Definition next_node (all : list Z) (node : option Z) : option Z :=
  match node with None => head all | Some t => after t all end.

(** The [do ... while] loop of [pick_next]: [Some] of a thread when it returns
    one, [None] when it has gone round; [fuel] bounds the rounds. *)
Fixpoint pick_from (fuel : nat) (s : sched) (start node : option Z) : option (option Z) :=
  match fuel with
  | O => None
  | S f =>
      let node := match node with None => next_node (all_threads s) None | _ => node end in
      match node with
      | Some t =>
          if eligible s t then Some (Some t)
          else
            let node := next_node (all_threads s) node in
            if bool_decide (node = start) then Some None else pick_from f s start node
      | None => if bool_decide (node = start) then Some None else pick_from f s start node
      end
  end.

(** [None] when the loop does not end within its fuel. *)
Definition pick_next (s : sched) : option Z :=
  let start := next_node (all_threads s) (Some (current s)) in
  match pick_from (2 + length (all_threads s)) s start start with
  | None => None
  | Some (Some t) => Some t
  | Some None =>
      if eligible s (current s) then Some (current s) else Some (idle_thread s)
  end.

(** * Blocking and waking *)

Definition scheduler_block_current (queue : wait_queue) (s : sched) : sched :=
  let s := set_state (current s) THREAD_SLEEPING s in
  set_queues (<[queue := default [] (queues s !! queue) ++ [current s]]> (queues s)) s.

(** [list_remove(node)] takes the thread's node out of whichever queue holds it. *)
Definition scheduler_wake_node (queue : wait_queue) (thread : Z) (s : sched) : sched :=
  let s := set_queues (alter (List.remove Z.eq_dec thread) queue (queues s)) s in
  if bool_decide (state_of s thread = Some THREAD_SLEEPING)
  then set_state thread THREAD_RUNNABLE s else s.

Definition wait_queue_wake_one (queue : wait_queue) (s : sched) : bool * sched :=
  match queues s !! queue with
  | Some (t :: _) => (true, scheduler_wake_node queue t s)
  | _ => (false, s)
  end.

(** [while (wait_queue_wake_one(queue));], [None] if the fuel runs out. *)
Fixpoint wake_loop (fuel : nat) (queue : wait_queue) (s : sched) : option sched :=
  match fuel with
  | O => None
  | S f =>
      let '(again, s) := wait_queue_wake_one queue s in
      if again then wake_loop f queue s else Some s
  end.

Definition wait_queue_wake_all (queue : wait_queue) (s : sched) : option sched :=
  wake_loop (S (length (default [] (queues s !! queue)))) queue s.

Fixpoint wake_queues (qs : list wait_queue) (s : sched) : option sched :=
  match qs with
  | [] => Some s
  | q :: qs => match wait_queue_wake_all q s with Some s => wake_queues qs s | None => None end
  end.

Lemma wake_queues_app qs qs' s : wake_queues (qs ++ qs') s = s' ← wake_queues qs s; wake_queues qs' s'.
Proof.
  revert s. induction qs as [|q qs IH]; intros s; cbn [app wake_queues]; [done|]. destruct (wait_queue_wake_all q s); [apply IH|done].
Qed.

(** The processes a thread may belong to, as far as the scheduler sees them:
    their page tables, and [process_thread_reaped], which releases what the
    process holds and touches the scheduler only by waking whole queues. *)
Class ProcessSystem := {
  pstate : Type;
  table_of : pstate → Z → page_table;                   (* &process->as.table *)
  process_thread_reaped : Z → kstate * sched * pstate → kstate * sched * pstate;
  reaped_wakes : ∀ p m s ps, let '(_, s', _) := process_thread_reaped p (m, s, ps) in
    ∃ qs, wake_queues qs s = Some s';
}.

Section Scheduler.
Context `{KernelHeap} `{ProcessSystem}.

Definition sys : Type := kstate * sched * pstate.

(** The boolean says whether [context_switch] is reached. *)
Definition scheduler_switch (w : sys) : option (bool * sys) :=
  let '(m, s, ps) := w in
  match pick_next s with
  | None => None
  | Some next =>
      let previous := current s in
      if (next =? 0) || (next =? previous) then
        let s := if bool_decide (state_of s previous = Some THREAD_RUNNABLE)
                 then set_state previous THREAD_RUNNING s else s in
        Some (false, (m, s, ps))
      else
        let s := set_current next (set_state next THREAD_RUNNING s) in
        let table := match threads s !! next with
                     | Some th => match process th with
                                  | Some p => table_of ps p
                                  | None => kernel_page_table s
                                  end
                     | None => kernel_page_table s
                     end in
        Some (true, (vm_activate table m, s, ps))
  end.

(** [irq_restore(flags)] after the switch, by the thread that did not switch. *)
Definition resume (flags : Z) (r : option (bool * sys)) : option sys :=
  match r with
  | None => None
  | Some (true, w) => Some w
  | Some (false, (m, s, ps)) => Some (irq_restore flags m, s, ps)
  end.

(** * Threads *)

(** The kernel's own addresses: the two places a new thread starts at, the idle
    loop, and the statically allocated first thread. *)
Context (thread_trampoline user_thread_enter idle_main bootstrap : Z).

Abbreviation TRAP_FRAME_SIZE := 288 (only parsing).      (* sizeof(struct trap_frame) *)
Abbreviation TRAP_FRAME_SSTATUS := 264 (only parsing).   (* offsetof sstatus *)
Abbreviation THREAD_SIZE := 216 (only parsing).          (* sizeof(struct thread) *)

Definition create_thread (name entry argument : Z) (idle : bool) (process : option Z)
    (initial : Z) (m : kstate) (s : sched) : bool * kstate * sched :=
  let '(thread, m) := kmalloc THREAD_SIZE m in
  if thread =? 0 then (false, m, s)
  else
    let '(stack, m) := page_alloc m in
    if stack =? 0 then (false, kfree thread m, s)
    else
      let sp := u64 (phys_to_virt stack + PAGE_SIZE) in
      let '(ra, sp, user_frame, m) :=
        match process with
        | None => (thread_trampoline, sp, 0, m)
        | Some _ =>
            let frame := u64 (sp - TRAP_FRAME_SIZE) in
            let mem := memcpy (mem m) frame initial (Z.to_nat TRAP_FRAME_SIZE) in
            let mem := store64 mem (frame + TRAP_FRAME_SSTATUS) SSTATUS_SPIE in
            (user_thread_enter, frame, frame, set_mem mem m)
        end in
      let th := mk_thread ra sp process user_frame THREAD_RUNNABLE entry argument stack 0 name
                  idle in
      let s := upd_threads (insert thread th) s in
      let s := set_all (all_threads s ++ [thread]) s in
      let s := if idle then set_idle thread s else s in
      (true, m, s).

(** [now] is what [csr_read_time] returns; the string constants are numbers. *)
Definition scheduler_init (timebase_frequency : Z) (kernel_table : option page_table) (now : Z)
    (m : kstate) (s : sched) : bool * kstate * sched :=
  match kernel_table with
  | None => (false, m, s)
  | Some table =>
      if root table =? 0 then (false, m, s)
      else
        let boot := mk_thread 0 0 None 0 THREAD_RUNNING 0 0 0 0 1 false in
        let interval := timebase_frequency / 200 in
        let interval := if interval =? 0 then 1 else interval in
        let s := mk_sched {[ bootstrap := boot ]} [bootstrap] ∅ bootstrap (idle_thread s) 0 0
                   interval (timer_running s) table (timer_deadline s) in
        let '(ok, m, s) := create_thread 2 idle_main 0 true None 0 m s in
        if negb ok then (false, m, s)
        else
          let s := set_timer true (u64 (now + timer_interval s)) s in
          (true, csr_set_sstatus SSTATUS_SIE (csr_set_sie SIE_STIE m), s)
  end.

Definition thread_create (name entry argument : Z) (m : kstate) (s : sched)
    : bool * kstate * sched :=
  if entry =? 0 then (false, m, s)
  else
    let '(flags, m) := irq_save m in
    let '(result, m, s) := create_thread name entry argument false None 0 m s in
    (result, irq_restore flags m, s).

Definition thread_create_user (process : option Z) (initial : Z) (m : kstate) (s : sched)
    : bool * kstate * sched :=
  let '(flags, m) := irq_save m in
  let '(result, m, s) :=
    match process with
    | Some p => if initial =? 0 then (false, m, s)
                else create_thread 3 0 0 false (Some p) initial m s
    | None => (false, m, s)
    end in
  (result, irq_restore flags m, s).

Definition current_process (s : sched) : option Z :=
  match threads s !! current s with Some th => process th | None => None end.

(** * Giving up the processor *)

Definition scheduler_yield (w : sys) : option sys :=
  let '(m, s, ps) := w in
  let '(flags, m) := irq_save m in
  let s := if bool_decide (state_of s (current s) = Some THREAD_RUNNING)
           then set_state (current s) THREAD_RUNNABLE s else s in
  resume flags (scheduler_switch (m, s, ps)).

Definition scheduler_sleep (ticks : Z) (w : sys) : option sys :=
  if ticks =? 0 then scheduler_yield w
  else
    let '(m, s, ps) := w in
    let '(flags, m) := irq_save m in
    let s := upd_threads
               (alter (with_wake_tick (u64 (tick_count s + ticks))) (current s)) s in
    let s := set_state (current s) THREAD_SLEEPING s in
    resume flags (scheduler_switch (m, s, ps)).

(** [sync.c]: [wait_queue_sleep] up to the switch; the caller's lock is released
    before it and taken again on resumption. *)
Definition wait_queue_sleep (queue : wait_queue) (w : sys) : option (bool * sys) :=
  let '(m, s, ps) := w in
  scheduler_switch (m, scheduler_block_current queue s, ps).

(** * The timer *)

(** The body of the loop of [scheduler_tick]. *)
Definition wake_due (now_tick : Z) (th : thread) : thread :=
  if bool_decide (state th = THREAD_SLEEPING) && negb (wake_tick th =? 0)
     && (wake_tick th <=? now_tick)
  then with_state THREAD_RUNNABLE (with_wake_tick 0 th)
  else th.

Definition scheduler_tick (now : Z) (w : sys) : option sys :=
  let '(m, s, ps) := w in
  let s := set_ticks (u64 (tick_count s + 1)) (preemption_count s) s in
  let s := fold_left (λ s t, upd_threads (alter (wake_due (tick_count s)) t) s)
             (all_threads s) s in
  let s := if timer_running s then set_timer true (u64 (now + timer_interval s)) s else s in
  let s := if bool_decide (state_of s (current s) = Some THREAD_RUNNING)
           then set_ticks (tick_count s) (u64 (preemption_count s + 1))
                  (set_state (current s) THREAD_RUNNABLE s)
           else s in
  match scheduler_switch (m, s, ps) with
  | None => None
  | Some (_, w) => Some w
  end.

Definition scheduler_stop_timer (m : kstate) (s : sched) : kstate * sched :=
  let '(flags, m) := irq_save m in
  let s := set_timer false UINT64_MAX s in
  (irq_restore flags (csr_clear_sie SIE_STIE m), s).

Definition scheduler_timer_active (s : sched) : bool := timer_running s.
Definition scheduler_ticks (s : sched) : Z := tick_count s.
Definition scheduler_preemptions (s : sched) : Z := preemption_count s.

(** [thread_exit] up to the switch it does not come back from. *)
Definition thread_exit (w : sys) : option (bool * sys) :=
  let '(m, s, ps) := w in
  let '(_, m) := irq_save m in
  scheduler_switch (m, set_state (current s) THREAD_DEAD s, ps).

(** * Reaping *)

Definition reap_one (w : sys) (t : Z) : sys :=
  let '(m, s, ps) := w in
  match threads s !! t with
  | None => w
  | Some th =>
      if negb (t =? current s) && negb (idle th) && bool_decide (state th = THREAD_DEAD) then
        let s := set_all (List.remove Z.eq_dec t (all_threads s)) s in
        let m := page_free (stack_page th) m in
        let '(m, s, ps) :=
          match process th with
          | Some p => process_thread_reaped p (m, s, ps)
          | None => (m, s, ps)
          end in
        (kfree t m, upd_threads (delete t) s, ps)
      else w
  end.

(** The loop reads [node->next] before it frees, so it visits the list as it was
    at the start. *)
Definition scheduler_reap (w : sys) : sys :=
  let '(m, s, ps) := w in
  let '(flags, m) := irq_save m in
  let '(m, s, ps) := fold_left reap_one (all_threads s) (m, s, ps) in
  (irq_restore flags m, s, ps).
End Scheduler.
