(* ===== verification/SchedulerProps.v ===== *)
(** Theorems about the scheduler: the choice of the next thread is round robin,
    every operation keeps the thread table consistent, and a runnable thread
    runs within as many ticks as there are threads. *)
From stdpp Require Import relations.
From S2P Require Import Prelude Machine Runtime PageAlloc Vm HeapSpec Scheduler.

(** * The choice of the next thread *)

Lemma after_middle l1 t l2 : t ∉ l1 → after t (l1 ++ t :: l2) = head l2.
Proof.
  induction l1 as [|x l1 IH]; intros Hn; simpl.
  - by rewrite Z.eqb_refl.
  - apply not_elem_of_cons in Hn as [Hne Hn]. destruct (Z.eqb_spec x t); [done|]. by apply IH.
Qed.

(** Walking over a stretch of the list that does not come back to [start]. *)
Lemma pick_stretch s start seg pre post fuel :
  NoDup (all_threads s) → all_threads s = pre ++ seg ++ post → seg ≠ [] →
  (∀ x, x ∈ tail seg → start ≠ Some x) →
  pick_from (length seg + fuel) s start (head seg)
  = match find (eligible s) seg with
    | Some t => Some (Some t)
    | None => if bool_decide (head post = start) then Some None
              else pick_from fuel s start (head post)
    end.
Proof.
  intros Hnd. revert pre. induction seg as [|x seg IH]; intros pre Hall Hne Hst; [done|].
  cbn [length head Nat.add pick_from find]. destruct (eligible s x); [done|].
  assert (next_node (all_threads s) (Some x) = head (seg ++ post)) as En.
  { unfold next_node. rewrite Hall. apply after_middle. rewrite Hall in Hnd.
    apply NoDup_app in Hnd as (_ & H & _). intros Hin. apply (H x Hin). by left. }
  rewrite En. destruct seg as [|y seg]; [done|]. cbn [app head].
  rewrite bool_decide_false.
  - apply (IH (pre ++ [x])); [by rewrite <- app_assoc|done|].
    intros z Hz. apply Hst. by right.
  - intros E. by apply (Hst y); [left|].
Qed.

Lemma pick_from_head s start fuel :
  pick_from (S fuel) s start None = pick_from (S fuel) s start (head (all_threads s)).
Proof. cbn [pick_from]. by destruct (all_threads s). Qed.

(** The order in which the threads are considered: those after the current one,
    then those before it, then itself. *)
Definition rotation (l1 l2 : list Z) (c : Z) : list Z := l2 ++ l1 ++ [c].

Definition choice (s : sched) (l1 l2 : list Z) : Z :=
  default (idle_thread s) (find (eligible s) (rotation l1 l2 (current s))).

Lemma find_app {A} (f : A → bool) l k :
  find f (l ++ k) = match find f l with Some x => Some x | None => find f k end.
Proof. induction l as [|x l IH]; [done|]. simpl. by destruct (f x). Qed.

Lemma pick_next_rotation s l1 l2 :
  NoDup (all_threads s) → all_threads s = l1 ++ current s :: l2 →
  pick_next s = Some (choice s l1 l2).
Proof.
  intros Hnd Hall. set (c := current s) in *. unfold pick_next. fold c.
  assert (next_node (all_threads s) (Some c) = head l2) as ->.
  { unfold next_node. rewrite Hall. apply after_middle. rewrite Hall in Hnd.
    apply NoDup_app in Hnd as (_ & H & _). intros Hin. apply (H c Hin). by left. }
  pose proof Hnd as Hnd'. rewrite Hall in Hnd'.
  assert (all_threads s = [] ++ (l1 ++ [c]) ++ l2) as Hall1 by (by rewrite <- app_assoc).
  assert (all_threads s = (l1 ++ [c]) ++ l2 ++ []) as Hall2.
  { by rewrite app_nil_r, <- app_assoc. }
  assert (head (all_threads s) = head (l1 ++ [c])) as Eh by (rewrite Hall; by destruct l1).
  assert (pick_from (2 + length (all_threads s)) s (head l2) (head l2)
          = Some (find (eligible s) (rotation l1 l2 c))) as ->.
  { unfold rotation. rewrite find_app. destruct l2 as [|y l2].
    - change (2 + ?n)%nat with (S (S n)). cbn [head]. rewrite pick_from_head, Eh.
      replace (S (S (length (all_threads s)))) with (length (l1 ++ [c]) + 2)%nat
        by (rewrite Hall, !length_app; simpl; lia).
      rewrite (pick_stretch s None (l1 ++ [c]) [] []); [|done|done|by destruct l1|done].
      by destruct (find _ (l1 ++ [c])).
    - replace (2 + length (all_threads s))%nat
        with (length (y :: l2) + (length (l1 ++ [c]) + 2))%nat
        by (rewrite Hall, !length_app; simpl; lia).
      apply NoDup_app in Hnd' as (_ & Hd1 & Hd2). apply NoDup_cons in Hd2 as [Hc Hd2].
      apply NoDup_cons in Hd2 as [Hy _].
      rewrite (pick_stretch s (Some y) (y :: l2) (l1 ++ [c]) []); [|done|done|done|].
      2: { intros x Hx [= ->]. done. }
      destruct (find (eligible s) (y :: l2)); [done|]. cbn [head].
      rewrite bool_decide_false by done.
      destruct (length (l1 ++ [c]) + 2)%nat as [|k] eqn:Ek; [lia|].
      rewrite pick_from_head, Eh, <- Ek.
      rewrite (pick_stretch s (Some y) (l1 ++ [c]) [] (y :: l2)); [|done|done|by destruct l1|].
      + cbn [head]. rewrite bool_decide_true by done. by destruct (find _ (l1 ++ [c])).
      + intros x Hx [= ->]. assert (x ∈ l1 ++ [c]) as Hin.
        { destruct (l1 ++ [c]); [by apply not_elem_of_nil in Hx|by right]. }
        apply elem_of_app in Hin as [Hin|Hin%list_elem_of_singleton].
        * apply (Hd1 x Hin). right. by left.
        * subst. apply Hc. by left. }
  unfold choice. fold c. destruct (find _ _) as [t|] eqn:E; [done|]. simpl.
  assert (eligible s c = false) as ->; [|done].
  apply (find_none _ _ E). unfold rotation. rewrite !in_app_iff. right. right. by left.
Qed.

(** * The invariant of the thread table *)

Definition queued (Q : gmap wait_queue (list Z)) (t : Z) : Prop := ∃ q l, Q !! q = Some l ∧ t ∈ l.

(** Queues without repetition, and no thread in two of them. *)
Record queues_ok (Q : gmap wait_queue (list Z)) : Prop := {
  qo_nodup : ∀ q l, Q !! q = Some l → NoDup l;
  qo_once : ∀ q q' l l' t, Q !! q = Some l → Q !! q' = Some l' → t ∈ l → t ∈ l' → q = q';
}.

(** [R] tells which threads are marked running. *)
Record sched_inv (R : Z → Prop) (s : sched) : Prop := {
  si_nodup : NoDup (all_threads s);
  si_dom : ∀ t, t ∈ all_threads s ↔ is_Some (threads s !! t);
  si_nonnull : 0 ∉ all_threads s;
  si_current : current s ∈ all_threads s;
  si_idle : idle_thread s ∈ all_threads s;
  si_idle_flag : ∀ t th, threads s !! t = Some th → idle th = true ↔ t = idle_thread s;
  si_idle_state : ∀ t th, threads s !! t = Some th → idle th = true →
    state th = THREAD_RUNNING ∨ state th = THREAD_RUNNABLE;
  si_running : ∀ t th, threads s !! t = Some th → state th = THREAD_RUNNING ↔ R t;
  si_deadline : ∀ t th, threads s !! t = Some th → wake_tick th ≠ 0 → state th = THREAD_SLEEPING;
  si_queues : queues_ok (queues s);
  si_queued : ∀ t, queued (queues s) t → is_Some (threads s !! t);
  si_blocked : ∀ t th, threads s !! t = Some th →
    queued (queues s) t ↔ state th = THREAD_SLEEPING ∧ wake_tick th = 0;
}.

(** Between operations exactly the current thread is running; just before a
    switch none is. *)
Definition sched_ok (s : sched) : Prop := sched_inv (λ t, t = current s) s.
Definition sched_ready (s : sched) : Prop := sched_inv (λ _, False) s.

(** Replacing one thread's record, and the queues as far as it is concerned. *)
Lemma update_thread R R' s t th f Q :
  sched_inv R s → threads s !! t = Some th → idle (f th) = idle th →
  (idle th = true → state (f th) = THREAD_RUNNING ∨ state (f th) = THREAD_RUNNABLE) →
  (wake_tick (f th) ≠ 0 → state (f th) = THREAD_SLEEPING) →
  (state (f th) = THREAD_RUNNING ↔ R' t) → (∀ u, u ≠ t → R' u ↔ R u) →
  queues_ok Q → (∀ u, u ≠ t → queued Q u ↔ queued (queues s) u) →
  (queued Q t ↔ state (f th) = THREAD_SLEEPING ∧ wake_tick (f th) = 0) →
  sched_inv R' (set_queues Q (upd_threads (alter f t) s)).
Proof.
  intros [S1 S2 S3 S4 S5 S6 S7 S8 S9 S10 S11 S12] Ht Hi His Hw HR HR' HQ Hu Hq.
  assert (∀ u x, alter f t (threads s) !! u = Some x →
    (u = t ∧ x = f th) ∨ (u ≠ t ∧ threads s !! u = Some x)) as Hl.
  { intros u x. rewrite lookup_alter. case_decide; subst; [|auto].
    rewrite Ht. simpl. intros [= <-]. auto. }
  assert (∀ u, is_Some (alter f t (threads s) !! u) ↔ is_Some (threads s !! u)) as Hd.
  { intros u. rewrite lookup_alter. case_decide; [subst|done]. by rewrite Ht. }
  split; simpl; try done.
  - intros u. by rewrite S2, Hd.
  - intros u x Hx. apply Hl in Hx as [[-> ->]|[Hne Hx]]; [rewrite Hi|]; eauto.
  - intros u x Hx Hidle. apply Hl in Hx as [[-> ->]|[Hne Hx]]; [|eauto]. apply His. congruence.
  - intros u x Hx. apply Hl in Hx as [[-> ->]|[Hne Hx]]; [done|]. rewrite HR' by done. eauto.
  - intros u x Hx. apply Hl in Hx as [[-> ->]|[Hne Hx]]; [done|]. eauto.
  - intros u Huq. apply Hd. destruct (decide (u = t)) as [->|Hne]; [by rewrite Ht|].
    apply S11. by apply Hu.
  - intros u x Hx. apply Hl in Hx as [[-> ->]|[Hne Hx]]; [done|]. rewrite Hu by done. eauto.
Qed.

(** The common case: the thread's membership in queues does not change. *)
Lemma update_state R R' s t th f :
  sched_inv R s → threads s !! t = Some th → idle (f th) = idle th →
  (idle th = true → state (f th) = THREAD_RUNNING ∨ state (f th) = THREAD_RUNNABLE) →
  (wake_tick (f th) ≠ 0 → state (f th) = THREAD_SLEEPING) →
  (state (f th) = THREAD_RUNNING ↔ R' t) → (∀ u, u ≠ t → R' u ↔ R u) →
  (queued (queues s) t ↔ state (f th) = THREAD_SLEEPING ∧ wake_tick (f th) = 0) →
  sched_inv R' (upd_threads (alter f t) s).
Proof.
  intros Hinv Ht H1 H2 H3 H4 H5 H6.
  assert (set_queues (queues s) (upd_threads (alter f t) s) = upd_threads (alter f t) s) as <-
    by (by destruct s).
  eapply update_thread; eauto. apply Hinv.
Qed.

Lemma inv_weaken R R' s : (∀ t, R t ↔ R' t) → sched_inv R s → sched_inv R' s.
Proof. intros H []. split; try done. intros t th Ht. rewrite <- H. eauto. Qed.

(** The current thread while it runs. *)
Lemma current_running s :
  sched_ok s → ∃ th, threads s !! current s = Some th ∧ state th = THREAD_RUNNING ∧
    wake_tick th = 0 ∧ ¬ queued (queues s) (current s).
Proof.
  intros Hs. pose proof (si_current _ _ Hs) as Hc.
  destruct (proj1 (si_dom _ _ Hs _) Hc) as [th Hth]. exists th. split; [done|].
  assert (state th = THREAD_RUNNING) as Hr by (by apply (si_running _ _ Hs _ _ Hth)).
  split; [done|]. split.
  - destruct (Z.eq_dec (wake_tick th) 0); [done|].
    pose proof (si_deadline _ _ Hs _ _ Hth). intuition congruence.
  - intros Hq. apply (si_blocked _ _ Hs _ _ Hth) in Hq as [Hq _]. congruence.
Qed.

(** ** Preparing to switch *)

Section Prepare.
Context (s : sched) (Hs : sched_ok s).

Lemma ready_runnable : sched_ready (set_state (current s) THREAD_RUNNABLE s).
Proof.
  destruct (current_running s Hs) as (th & Ht & Hr & Hw & Hq).
  eapply update_state; eauto; simpl; try done; try tauto.
  - split; [done|]. intros [? _]. done.
Qed.

Context (Hbusy : current s ≠ idle_thread s).

Lemma current_not_idle th : threads s !! current s = Some th → idle th = false.
Proof.
  intros Ht. destruct (idle th) eqn:E; [|done].
  apply (si_idle_flag _ _ Hs _ _ Ht) in E. done.
Qed.

Lemma ready_sleep k : k ≠ 0 →
  sched_ready (set_state (current s) THREAD_SLEEPING
    (upd_threads (alter (with_wake_tick k) (current s)) s)).
Proof.
  intros Hk. destruct (current_running s Hs) as (th & Ht & Hr & Hw & Hq).
  pose proof (current_not_idle th Ht) as Hi.
  assert (set_state (current s) THREAD_SLEEPING
            (upd_threads (alter (with_wake_tick k) (current s)) s)
          = upd_threads (alter (with_state THREAD_SLEEPING ∘ with_wake_tick k) (current s)) s)
    as ->.
  { unfold set_state, upd_threads. simpl. f_equal. apply alter_alter_eq. }
  eapply update_state; eauto; simpl; try done; try tauto; congruence || tauto.
Qed.

Lemma ready_dead : sched_ready (set_state (current s) THREAD_DEAD s).
Proof.
  destruct (current_running s Hs) as (th & Ht & Hr & Hw & Hq).
  pose proof (current_not_idle th Ht) as Hi.
  eapply update_state; eauto; simpl; try done; try tauto; try congruence.
  split; [done|]. intros [? _]. done.
Qed.

Lemma ready_block q : sched_ready (scheduler_block_current q s).
Proof.
  destruct (current_running s Hs) as (th & Ht & Hr & Hw & Hq).
  pose proof (current_not_idle th Ht) as Hi. pose proof (si_queues _ _ Hs) as [Q1 Q2].
  unfold scheduler_block_current. cbn [queues set_state upd_threads current].
  set (l := default [] (queues s !! q)).
  assert (∀ x, x ∈ l → ∃ l', queues s !! q = Some l' ∧ x ∈ l') as Hl.
  { intros x. unfold l. destruct (queues s !! q) as [l'|]; simpl; [|set_solver]. eauto. }
  assert (∀ p k, <[q := l ++ [current s]]> (queues s) !! p = Some k →
    (p = q ∧ k = l ++ [current s]) ∨ (p ≠ q ∧ queues s !! p = Some k)) as Hk.
  { intros p k. rewrite lookup_insert. case_decide; [|auto]. intros [= <-]. auto. }
  eapply (update_thread _ _ s (current s) th (with_state THREAD_SLEEPING)); eauto; simpl;
    try done; try tauto; try congruence.
  - split.
    + intros p k Hp. apply Hk in Hp as [[-> ->]|[_ Hp]]; [|eauto].
      apply NoDup_app. split; [|split; [|apply NoDup_singleton]].
      * unfold l. destruct (queues s !! q) as [l'|] eqn:E; simpl; [eauto|constructor].
      * intros x Hx ->%list_elem_of_singleton. apply Hq.
        destruct (Hl _ Hx) as (l' & ? & ?). by exists q, l'.
    + assert (∀ p k x, p ≠ q → queues s !! p = Some k → x ∈ k → x ∉ l ++ [current s]) as Hsep.
      { intros p k x Hne Hp Hx Hin. apply elem_of_app in Hin as [Hin|Hin%list_elem_of_singleton].
        - destruct (Hl _ Hin) as (l' & ? & ?). by apply Hne, (Q2 p q k l' x).
        - subst. apply Hq. by exists p, k. }
      intros p p' k k' x Hp Hp' Hx Hx'.
      apply Hk in Hp as [[-> ->]|[Hne Hp]], Hp' as [[-> ->]|[Hne' Hp']]; eauto;
        exfalso; eapply Hsep; eauto.
  - intros u Hu. split.
    + intros (p & k & Hp & Hin). apply Hk in Hp as [[-> ->]|[_ Hp]]; [|by exists p, k].
      apply elem_of_app in Hin as [Hin|Hin%list_elem_of_singleton]; [|done].
      destruct (Hl _ Hin) as (l' & ? & ?). by exists q, l'.
    + intros (p & k & Hp & Hin). destruct (decide (p = q)) as [->|Hne].
      * exists q, (l ++ [current s]). rewrite lookup_insert_eq. split; [done|].
        apply elem_of_app. left. unfold l. by rewrite Hp.
      * exists p, k. by rewrite lookup_insert_ne.
  - split; [done|]. intros _. exists q, (l ++ [current s]). rewrite lookup_insert_eq.
    split; [done|]. apply elem_of_app. right. by left.
Qed.
End Prepare.

(** ** The switch *)

(** What [pick_next] returns may run: it is runnable. *)
Lemma choice_runnable s l1 l2 :
  sched_ready s → all_threads s = l1 ++ current s :: l2 →
  ∃ th, threads s !! choice s l1 l2 = Some th ∧ state th = THREAD_RUNNABLE ∧
    choice s l1 l2 ∈ all_threads s.
Proof.
  intros Hs Hall. unfold choice. destruct (find _ _) as [t|] eqn:E; simpl.
  - apply find_some in E as [Hin He]. unfold eligible in He.
    destruct (threads s !! t) as [th|] eqn:Ht; [|done]. apply andb_prop in He as [He _].
    exists th. split; [done|]. split; [by apply bool_decide_eq_true in He|].
    apply (si_dom _ _ Hs). by exists th.
  - pose proof (si_idle _ _ Hs) as Hi. destruct (proj1 (si_dom _ _ Hs _) Hi) as [th Ht].
    exists th. split; [done|]. split; [|done].
    assert (idle th = true) as Hidle by (by apply (si_idle_flag _ _ Hs _ _ Ht)).
    destruct (si_idle_state _ _ Hs _ _ Ht Hidle) as [Hr|]; [|done].
    by apply (si_running _ _ Hs _ _ Ht) in Hr.
Qed.

(** The state after a switch to [n]. *)
Definition switched (n : Z) (s : sched) : sched := set_current n (set_state n THREAD_RUNNING s).

Lemma switched_ok s n th :
  sched_ready s → threads s !! n = Some th → state th = THREAD_RUNNABLE → sched_ok (switched n s).
Proof.
  intros Hs Hn Hr.
  assert (sched_inv (λ t, t = n) (set_state n THREAD_RUNNING s)) as H.
  { assert (wake_tick th = 0) as Hw.
    { destruct (Z.eq_dec (wake_tick th) 0); [done|].
      pose proof (si_deadline _ _ Hs _ _ Hn). intuition congruence. }
    eapply update_state; eauto; simpl; try done; try tauto.
    rewrite (si_blocked _ _ Hs _ _ Hn). rewrite Hr. split; intros [? _]; done. }
  assert (n ∈ all_threads s) as Hin by (apply (si_dom _ _ Hs); by exists th).
  destruct H. split; try done.
Qed.

(** ** Waking *)

Lemma remove_NoDup (t : Z) l : NoDup l → NoDup (List.remove Z.eq_dec t l).
Proof.
  induction 1 as [|x l Hx Hl IH]; simpl; [constructor|]. destruct (Z.eq_dec t x); [done|].
  constructor; [|done]. rewrite list_elem_of_In. intros [H _]%in_remove.
  by apply Hx, list_elem_of_In.
Qed.

Lemma wake_node_inv R s q l t :
  sched_inv R s → queues s !! q = Some l → t ∈ l →
  sched_inv R (scheduler_wake_node q t s) ∧
  queues (scheduler_wake_node q t s) = alter (List.remove Z.eq_dec t) q (queues s).
Proof.
  intros Hs Hq Hin. pose proof (si_queues _ _ Hs) as [Q1 Q2].
  assert (queued (queues s) t) as Hqd by (by exists q, l).
  destruct (si_queued _ _ Hs t Hqd) as [th Ht].
  pose proof (proj1 (si_blocked _ _ Hs _ _ Ht) Hqd) as [Hsl Hw]. clear Hqd.
  set (Q := alter (List.remove Z.eq_dec t) q (queues s)).
  assert (scheduler_wake_node q t s
          = set_queues Q (upd_threads (alter (with_state THREAD_RUNNABLE) t) s)) as ->.
  { unfold scheduler_wake_node. rewrite bool_decide_true by (unfold state_of; simpl; by rewrite Ht, <- Hsl).
    done. }
  split; [|done].
  assert (∀ p k, Q !! p = Some k → ∃ k0, queues s !! p = Some k0 ∧
    (∀ x, x ∈ k ↔ x ∈ k0 ∧ ¬ (p = q ∧ x = t)) ∧ (NoDup k0 → NoDup k)) as HQ.
  { intros p k. unfold Q. rewrite lookup_alter. case_decide as E; [subst p|].
    - rewrite Hq. intros [= <-]. exists l. split; [done|]. split.
      + intros x. rewrite !list_elem_of_In. split.
        * intros Hx. apply in_remove in Hx as [H1 H2]. tauto.
        * intros [H1 H2]. apply in_in_remove; [|done]. intros ->. by apply H2.
      + apply remove_NoDup.
    - intros Hp. exists k. split; [done|]. split; [|done]. naive_solver. }
  eapply update_thread; eauto; simpl; try done; try tauto.
  - rewrite <- (si_running _ _ Hs _ _ Ht), Hsl. done.
  - split.
    + intros p k Hp. destruct (HQ _ _ Hp) as (k0 & H1 & _ & H2). eauto.
    + intros p p' k k' x Hp Hp' Hx Hx'.
      destruct (HQ _ _ Hp) as (k0 & H1 & H2 & _), (HQ _ _ Hp') as (k0' & H1' & H2' & _).
      pose proof (proj1 (H2 _) Hx) as [Ha _]. pose proof (proj1 (H2' _) Hx') as [Hb _]. eauto.
  - intros u Hu. split.
    + intros (p & k & Hp & Hx). destruct (HQ _ _ Hp) as (k0 & H1 & H2 & _).
      pose proof (proj1 (H2 _) Hx) as [Ha _]. by exists p, k0.
    + intros (p & k & Hp & Hx). destruct (decide (p = q)) as [->|Hne].
      * exists q, (List.remove Z.eq_dec t l). unfold Q. rewrite lookup_alter_eq, Hq. split; [done|].
        rewrite Hp in Hq. injection Hq as ->. apply list_elem_of_In, in_in_remove; [done|].
        by apply list_elem_of_In.
      * exists p, k. unfold Q. by rewrite lookup_alter_ne.
  - split; [|intros [? _]; done]. intros (p & k & Hp & Hx).
    destruct (HQ _ _ Hp) as (k0 & H1 & H2 & _). pose proof (proj1 (H2 _) Hx) as [Ha Hn].
    exfalso. apply Hn. split; [|done]. by apply (Q2 p q k0 l t).
Qed.

(** Waking leaves everything but the woken threads' states and the queue alone. *)
Record wakes_only (s s' : sched) : Prop := {
  wk_all : all_threads s' = all_threads s;
  wk_current : current s' = current s;
  wk_idle : idle_thread s' = idle_thread s;
}.

Lemma wake_node_only q t s : wakes_only s (scheduler_wake_node q t s).
Proof. unfold scheduler_wake_node. case_if; by split. Qed.

Lemma remove_head (t : Z) l : NoDup (t :: l) → List.remove Z.eq_dec t (t :: l) = l.
Proof.
  intros [Hn _]%NoDup_cons. simpl. destruct (Z.eq_dec t t); [|done].
  apply notin_remove. by rewrite <- list_elem_of_In.
Qed.

Lemma wake_loop_inv R fuel q s :
  sched_inv R s → (length (default [] (queues s !! q)) < fuel)%nat →
  ∃ s', wake_loop fuel q s = Some s' ∧ sched_inv R s' ∧ wakes_only s s' ∧
    default [] (queues s' !! q) = [].
Proof.
  revert s. induction fuel as [|fuel IH]; intros s Hs Hf; [lia|].
  cbn [wake_loop]. unfold wait_queue_wake_one.
  destruct (queues s !! q) as [[|t l]|] eqn:E; simpl in Hf.
  - exists s. split; [done|]. split; [done|]. split; [by split|]. by rewrite E.
  - destruct (wake_node_inv R s q (t :: l) t Hs E ltac:(by left)) as [Hs1 HQ].
    destruct (wake_node_only q t s) as [W1 W2 W3].
    destruct (IH (scheduler_wake_node q t s) Hs1) as (s' & -> & Hs' & [V1 V2 V3] & Hq').
    + rewrite HQ, lookup_alter_eq, E. cbn [fmap option_fmap option_map default].
      rewrite remove_head; [simpl; lia|]. by eapply (qo_nodup _ (si_queues _ _ Hs)).
    + exists s'. split; [done|]. split; [done|]. split; [split; congruence|done].
  - exists s. split; [done|]. split; [done|]. split; [by split|]. by rewrite E.
Qed.

Lemma wake_all_inv R q s :
  sched_inv R s → ∃ s', wait_queue_wake_all q s = Some s' ∧ sched_inv R s' ∧ wakes_only s s' ∧
    default [] (queues s' !! q) = [].
Proof. intros Hs. apply wake_loop_inv; [done|]. lia. Qed.

(** ** The timer's sweep *)

Lemma wake_due_inv R s k t :
  sched_inv R s → sched_inv R (upd_threads (alter (wake_due k) t) s).
Proof.
  intros Hs. destruct (threads s !! t) as [th|] eqn:Ht.
  2: { assert (upd_threads (alter (wake_due k) t) s = s) as ->; [|done].
       destruct s. unfold upd_threads. simpl in *. f_equal. apply alter_id. intros x Hx. congruence. }
  pose proof (si_running _ _ Hs _ _ Ht) as HR. pose proof (si_blocked _ _ Hs _ _ Ht) as HB.
  eapply (update_state R R s t th); eauto; unfold wake_due;
    destruct (bool_decide (state th = THREAD_SLEEPING)) eqn:E1; simpl; try done;
    destruct (Z.eqb_spec (wake_tick th) 0); simpl; try done;
    try (destruct (Z.leb_spec (wake_tick th) k); simpl; try done);
    try (by apply (si_idle_state _ _ Hs _ _ Ht)); try (by apply (si_deadline _ _ Hs _ _ Ht));
    try (by right); apply bool_decide_eq_true in E1.
  - rewrite <- HR. rewrite E1. done.
  - rewrite HB. naive_solver.
Qed.

(** The sweep over a list of threads. *)
Definition sweep (ts : list Z) (s : sched) : sched :=
  fold_left (λ s t, upd_threads (alter (wake_due (tick_count s)) t) s) ts s.

Lemma sweep_inv R ts s :
  sched_inv R s →
  sched_inv R (sweep ts s) ∧ wakes_only s (sweep ts s) ∧ tick_count (sweep ts s) = tick_count s ∧
  (∀ t th, threads s !! t = Some th → state th ≠ THREAD_SLEEPING →
     threads (sweep ts s) !! t = Some th).
Proof.
  unfold sweep. revert s. induction ts as [|t ts IH]; intros s Hs; simpl.
  { split; [done|]. split; [by split|]. done. }
  destruct (IH _ (wake_due_inv R s (tick_count s) t Hs)) as (H1 & [W1 W2 W3] & H3 & H4).
  split; [done|]. split; [by split|]. split; [done|]. intros u th Hu Hn. apply H4; [|done].
  simpl. rewrite lookup_alter. case_decide; [|done]. subst. rewrite Hu. simpl.
  unfold wake_due. by rewrite bool_decide_false by done.
Qed.

(** A second look at the same thread changes nothing more. *)
Lemma wake_due_idem k th : wake_due k (wake_due k th) = wake_due k th.
Proof.
  unfold wake_due at 2 3. destruct (_ && _ && _) eqn:E; [done|]. unfold wake_due. by rewrite E.
Qed.

Lemma sweep_lookup ts s t th :
  threads s !! t = Some th →
  threads (sweep ts s) !! t
  = Some (if bool_decide (t ∈ ts) then wake_due (tick_count s) th else th).
Proof.
  unfold sweep. revert s th. induction ts as [|u ts IH]; intros s th Ht; cbn [fold_left]; [done|].
  destruct (decide (u = t)) as [->|Hne].
  - rewrite (IH _ (wake_due (tick_count s) th))
      by (cbn [threads upd_threads]; by rewrite lookup_alter_eq, Ht).
    rewrite (bool_decide_true (t ∈ t :: ts)) by (by left).
    cbn [tick_count upd_threads]. rewrite wake_due_idem. by destruct (bool_decide _).
  - rewrite (IH _ th) by (cbn [threads upd_threads]; by rewrite lookup_alter_ne).
    cbn [tick_count upd_threads].
    by rewrite (bool_decide_ext (t ∈ u :: ts) (t ∈ ts)) by set_solver.
Qed.

Section Ops.
Context `{KernelHeap} `{ProcessSystem}.

Lemma scheduler_switch_spec m s ps l1 l2 :
  sched_ready s → all_threads s = l1 ++ current s :: l2 →
  ∃ b m', scheduler_switch (m, s, ps) = Some (b, (m', switched (choice s l1 l2) s, ps)) ∧
    sched_ok (switched (choice s l1 l2) s).
Proof.
  intros Hs Hall. unfold scheduler_switch.
  rewrite (pick_next_rotation s l1 l2 (si_nodup _ _ Hs) Hall).
  destruct (choice_runnable s l1 l2 Hs Hall) as (th & Hn & Hr & Hin).
  set (n := choice s l1 l2) in *.
  pose proof (switched_ok s n th Hs Hn Hr) as Hok.
  destruct (Z.eqb_spec n 0) as [E0|_]; [exfalso; apply (si_nonnull _ _ Hs); by rewrite <- E0|].
  destruct (Z.eqb_spec n (current s)) as [E|_]; bsimpl.
  - exists false, m. split; [|done].
    rewrite bool_decide_true by (unfold state_of; by rewrite <- E, Hn, <- Hr).
    do 4 f_equal. rewrite <- E. unfold switched. rewrite E at 2. by destruct s.
  - by eexists true, _.
Qed.

Lemma split_current R s : sched_inv R s → ∃ l1 l2, all_threads s = l1 ++ current s :: l2.
Proof. intros Hs. apply list_elem_of_split, (si_current _ _ Hs). Qed.

Lemma switch_ok m s ps :
  sched_ready s → ∃ b m' s', scheduler_switch (m, s, ps) = Some (b, (m', s', ps)) ∧ sched_ok s' ∧
    all_threads s' = all_threads s ∧ idle_thread s' = idle_thread s.
Proof.
  intros Hs. destruct (split_current _ _ Hs) as (l1 & l2 & Hall).
  destruct (scheduler_switch_spec m s ps l1 l2 Hs Hall) as (b & m' & E & Hok).
  by eexists b, m', _.
Qed.

Lemma resume_ok flags r m' s' ps b :
  r = Some (b, (m', s', ps)) → ∃ m'', resume flags r = Some (m'', s', ps).
Proof. intros ->. destruct b; by eexists. Qed.

Lemma yield_ok m s ps :
  sched_ok s → ∃ m' s', scheduler_yield (m, s, ps) = Some (m', s', ps) ∧ sched_ok s' ∧
    all_threads s' = all_threads s.
Proof.
  intros Hs. destruct (current_running s Hs) as (th & Ht & Hr & _).
  unfold scheduler_yield. destruct (irq_save m) as [flags m1].
  rewrite bool_decide_true by (unfold state_of; by rewrite Ht, <- Hr).
  destruct (switch_ok m1 _ ps (ready_runnable s Hs)) as (b & m2 & s' & E & Hok & Ha & _).
  destruct (resume_ok flags _ _ _ _ _ E) as [m3 ->]. by exists m3, s'.
Qed.

(** The state in which a tick chooses: due sleepers awake, the current thread
    runnable. *)
Lemma tick_prepared now m s ps :
  sched_ok s →
  ∃ s1, sched_ready s1 ∧ wakes_only s s1 ∧
    (∀ t th, threads s !! t = Some th → state th = THREAD_RUNNABLE → threads s1 !! t = Some th) ∧
    (∀ t th, threads s !! t = Some th → state th = THREAD_SLEEPING →
       threads s1 !! t = Some (wake_due (u64 (tick_count s + 1)) th)) ∧
    tick_count s1 = u64 (tick_count s + 1) ∧
    scheduler_tick now (m, s, ps)
    = match scheduler_switch (m, s1, ps) with None => None | Some (_, w) => Some w end.
Proof.
  intros Hs. unfold scheduler_tick.
  set (s0 := set_ticks _ _ s).
  assert (sched_ok s0) as Hs0 by (destruct Hs; by split).
  destruct (sweep_inv _ (all_threads s) s0 Hs0) as (H1 & W & Htc & Hkeep).
  assert (∀ t th, threads s !! t = Some th →
    threads (sweep (all_threads s) s0) !! t = Some (wake_due (u64 (tick_count s + 1)) th)) as Hdue.
  { intros t th Ht. rewrite (sweep_lookup (all_threads s) s0 t th Ht), bool_decide_true; [done|].
    apply (si_dom _ _ Hs). by exists th. }
  change (fold_left _ (all_threads s0) s0) with (sweep (all_threads s) s0).
  set (s2 := sweep (all_threads s) s0) in *.
  set (s3 := if timer_running s2 then _ else s2).
  assert (sched_inv (λ t, t = current s0) s3 ∧ wakes_only s0 s3 ∧ threads s3 = threads s2 ∧
    tick_count s3 = tick_count s2) as (Hs3 & W3 & T3 & C3).
  { destruct W as [W1 W2 W3]. unfold s3. destruct (timer_running s2).
    - split; [destruct H1; by split|]. split; [by split|done].
    - split; [done|]. split; [by split|done]. }
  assert (sched_ok s3) as Hok3.
  { eapply inv_weaken; [|exact Hs3]. intros t. by rewrite (wk_current _ _ W3). }
  destruct (current_running s3 Hok3) as (th & Ht & Hr & _).
  rewrite bool_decide_true by (unfold state_of; by rewrite Ht, <- Hr).
  exists (set_ticks (tick_count s3) (u64 (preemption_count s3 + 1))
            (set_state (current s3) THREAD_RUNNABLE s3)).
  split; [pose proof (ready_runnable s3 Hok3) as []; by split|].
  split; [destruct W3; by split|].
  split; [|split; [|split; [simpl; by rewrite C3, Htc|done]]]; intros t x Hx Hxr; simpl;
    rewrite lookup_alter_ne.
  - rewrite T3. apply Hkeep; [done|congruence].
  - intros <-. rewrite T3 in Ht.
    assert (threads s2 !! current s3 = Some x) as E by (apply Hkeep; [done|congruence]).
    congruence.
  - rewrite T3. by apply Hdue.
  - rewrite (wk_current _ _ W3). intros <-.
    pose proof (proj2 (si_running _ _ Hs _ _ Hx) eq_refl). congruence.
Qed.

(** One tick: the choice is made in rotation, and a runnable thread that is not
    chosen stays runnable. *)
Lemma tick_spec now m s ps l1 l2 :
  sched_ok s → all_threads s = l1 ++ current s :: l2 →
  ∃ m' s' s1, scheduler_tick now (m, s, ps) = Some (m', s', ps) ∧ sched_ok s' ∧
    all_threads s' = all_threads s ∧ idle_thread s' = idle_thread s ∧
    current s' = default (idle_thread s) (find (eligible s1) (rotation l1 l2 (current s))) ∧
    (∀ t, eligible s t = true → eligible s1 t = true ∧
       (t ≠ current s' → eligible s' t = true)).
Proof.
  intros Hs Hall. destruct (tick_prepared now m s ps Hs) as (s1 & Hr & [W1 W2 W3] & Hkeep & _ & _ & ->).
  destruct (scheduler_switch_spec m s1 ps l1 l2 Hr ltac:(congruence)) as (b & m' & -> & Hok).
  eexists m', _, s1. split; [done|]. split; [exact Hok|]. split; [done|]. split; [done|].
  split; [cbn [current switched set_current]; unfold choice; by rewrite W2, W3|].
  intros t. unfold eligible. destruct (threads s !! t) as [th|] eqn:Ht; [|done].
  intros He. pose proof He as He'. apply andb_prop in He as [Hst _].
  apply bool_decide_eq_true in Hst. rewrite (Hkeep t th Ht Hst). split; [done|].
  intros Hne. cbn [switched set_current set_state upd_threads threads current] in *.
  by rewrite lookup_alter_ne, (Hkeep t th Ht Hst) by congruence.
Qed.

(** ** Fairness *)

Fixpoint ticks (nows : list Z) (w : sys) : option sys :=
  match nows with
  | [] => Some w
  | now :: rest => match scheduler_tick now w with Some w => ticks rest w | None => None end
  end.

(** After switching to [n], what followed it comes first. *)
Lemma rotation_shift l1 c l2 a n t b :
  l2 ++ l1 ++ [c] = a ++ n :: t :: b →
  ∃ l1' l2', l1 ++ c :: l2 = l1' ++ n :: l2' ∧ rotation l1' l2' n = (t :: b) ++ a ++ [n].
Proof.
  intros E. unfold rotation. apply app_eq_inv in E as [(k & -> & Ek)|(k & -> & Ek)].
  - destruct k as [|x k].
    + simpl in Ek. destruct l1 as [|y l1]; [done|]. injection Ek as <- Ek.
      rewrite app_nil_r in *. exists [], (l1 ++ c :: a). split; [done|]. rewrite Ek. simpl.
      by rewrite <- !app_assoc.
    + injection Ek as <- Ek. exists (l1 ++ c :: a), k. split; [by rewrite <- app_assoc|].
      rewrite Ek. by rewrite <- !app_assoc.
  - destruct k as [|x k].
    + simpl in Ek. destruct l1 as [|y l1]; [done|]. injection Ek as -> Ek.
      rewrite app_nil_r. exists [], (l1 ++ c :: l2). split; [done|]. rewrite <- Ek. simpl.
      by rewrite <- !app_assoc.
    + assert (∃ l1'', l1 = (x :: k) ++ n :: l1'' ∧ l1'' ++ [c] = t :: b) as (l1'' & -> & El).
      { clear -Ek. revert l1 Ek. generalize (x :: k) as k'. induction k' as [|z k' IH]; intros l1 Ek.
        - destruct l1 as [|y l1]; [done|]. injection Ek as -> Ek. by exists l1.
        - destruct l1 as [|y l1]; [by destruct k'|]. injection Ek as -> Ek.
          destruct (IH l1 Ek) as (l1'' & -> & El). by exists l1''. }
      exists (x :: k), (l1'' ++ c :: l2). split; [by rewrite <- app_assoc|].
      rewrite <- El, <- !app_assoc. done.
Qed.

(** The first eligible thread of a list comes no later than a given one. *)
Lemma find_before (f : Z → bool) a t b :
  f t = true → find f (a ++ t :: b) = Some t ∨
  ∃ a' n c, a = a' ++ n :: c ∧ find f (a ++ t :: b) = Some n.
Proof.
  intros Ht. induction a as [|x a IH]; simpl; [rewrite Ht; by left|].
  destruct (f x) eqn:Ex; [right; by exists [], x, a|].
  destruct IH as [IH|(a' & n & c & -> & IH)]; [by left|]. right. by exists (x :: a'), n, c.
Qed.

Lemma runs_within k : ∀ nows m s ps l1 l2 a t b,
  sched_ok s → all_threads s = l1 ++ current s :: l2 →
  rotation l1 l2 (current s) = a ++ t :: b → eligible s t = true →
  (length a <= k)%nat → (length a < length nows)%nat →
  ∃ j m' s', (1 <= j <= S (length a))%nat ∧
    ticks (take j nows) (m, s, ps) = Some (m', s', ps) ∧ current s' = t ∧ sched_ok s'.
Proof.
  induction k as [|k IH]; intros nows m s ps l1 l2 a t b Hs Hall Hrot He Hk Hn;
    (destruct nows as [|now nows]; [simpl in Hn; lia|]);
    destruct (tick_spec now m s ps l1 l2 Hs Hall)
      as (m1 & s1 & p1 & Et & Hok & Ha1 & Hi1 & Hc1 & Hel);
    destruct (Hel t He) as [He1 Hstay]; rewrite Hrot in Hc1.
  - destruct a as [|x a]; [|simpl in Hk; lia]. cbn [app find] in Hc1. rewrite He1 in Hc1.
    exists 1%nat, m1, s1. split; [simpl; lia|]. split; [cbn [take ticks]; by rewrite Et|done].
  - destruct (find_before (eligible p1) a t b He1) as [Ef|(a' & n & c & -> & Ef)].
    + rewrite Ef in Hc1. exists 1%nat, m1, s1. split; [lia|].
      split; [cbn [take ticks]; by rewrite Et|done].
    + rewrite Ef in Hc1. change (current s1 = n) in Hc1.
      destruct (decide (t = n)) as [->|Hne].
      { exists 1%nat, m1, s1. split; [lia|]. split; [cbn [take ticks]; by rewrite Et|done]. }
      rewrite length_app in Hk, Hn. cbn [length] in Hk, Hn.
      assert (∃ y z, c ++ t :: b = y :: z) as (y & z & Ey) by (destruct c; eauto).
      destruct (rotation_shift l1 (current s) l2 a' n y z) as (l1' & l2' & Hsplit & Hrot').
      { unfold rotation in Hrot. rewrite Hrot, <- app_assoc. cbn [app]. by rewrite Ey. }
      rewrite <- Ey, <- app_assoc in Hrot'. cbn [app] in Hrot'.
      destruct (IH nows m1 s1 ps l1' l2' c t (b ++ a' ++ [n])) as (j & m' & s' & Hj & E' & Hc' & Hok').
      * done.
      * by rewrite Ha1, Hall, Hc1.
      * by rewrite Hc1.
      * apply Hstay. congruence.
      * lia.
      * lia.
      * exists (S j), m', s'. split; [rewrite length_app; simpl; lia|].
        split; [|done]. cbn [take ticks]. by rewrite Et.
Qed.

(** ** Creation *)

Lemma insert_thread R s t th :
  sched_inv R s → t ∉ all_threads s → t ≠ 0 → ¬ R t →
  state th = THREAD_RUNNABLE → wake_tick th = 0 → idle th = false →
  sched_inv R (set_all (all_threads s ++ [t]) (upd_threads (insert t th) s)).
Proof.
  intros [S1 S2 S3 S4 S5 S6 S7 S8 S9 S10 S11 S12] Hn Hnz HR Hst Hw Hi.
  assert (threads s !! t = None) as Hnone.
  { destruct (threads s !! t) eqn:E; [|done]. exfalso. apply Hn, S2. by rewrite E. }
  assert (¬ queued (queues s) t) as Hnq by (intros [x Hx]%S11; congruence).
  assert (∀ u x, <[t := th]> (threads s) !! u = Some x →
    (u = t ∧ x = th) ∨ (u ≠ t ∧ threads s !! u = Some x)) as Hl.
  { intros u x. rewrite lookup_insert. case_decide; subst; [|auto]. intros [= <-]. auto. }
  split; simpl; try done.
  - apply NoDup_app. split; [done|]. split; [|apply NoDup_singleton].
    intros u Hu ->%list_elem_of_singleton. done.
  - intros u. rewrite elem_of_app, list_elem_of_singleton, S2, lookup_insert.
    case_decide; subst; [rewrite Hnone|]; naive_solver.
  - set_solver.
  - set_solver.
  - set_solver.
  - intros u x Hx. apply Hl in Hx as [[-> ->]|[Hne Hx]]; [|eauto]. rewrite Hi.
    split; [done|]. intros ->. done.
  - intros u x Hx Hidle. apply Hl in Hx as [[-> ->]|[Hne Hx]]; [congruence|eauto].
  - intros u x Hx. apply Hl in Hx as [[-> ->]|[Hne Hx]]; [rewrite Hst; naive_solver|eauto].
  - intros u x Hx. apply Hl in Hx as [[-> ->]|[Hne Hx]]; [congruence|eauto].
  - intros u Hu. rewrite lookup_insert. case_decide; eauto.
  - intros u x Hx. apply Hl in Hx as [[-> ->]|[Hne Hx]]; [|eauto].
    rewrite Hst. split; [done|]. intros [? _]. done.
Qed.

Lemma create_thread_inv R tr ue name entry arg process initial m s :
  sched_inv R s → fst (kmalloc 216 m) ∉ all_threads s → (∀ t, R t → t ∈ all_threads s) →
  let '(ok, m', s') := create_thread tr ue name entry arg false process initial m s in
  sched_inv R s' ∧
  (if ok then ∃ t, t ∉ all_threads s ∧ all_threads s' = all_threads s ++ [t]
   else s' = s).
Proof.
  intros Hs Hf HR. unfold create_thread.
  destruct (kmalloc 216 m) as [t m1]. cbn [fst] in Hf.
  destruct (Z.eqb_spec t 0); [done|]. destruct (page_alloc m1) as [stack m2].
  destruct (Z.eqb_spec stack 0); [done|].
  destruct process as [p|]; cbv zeta;
    (split; [|by exists t]);
    match goal with |- sched_inv _ (set_all _ (upd_threads (insert _ ?th) _)) =>
      exact (insert_thread R s t th Hs Hf n (λ Ht, Hf (HR t Ht)) eq_refl eq_refl eq_refl) end.
Qed.

(** ** Reaping *)

(** Taking a dead thread that is not running out of the table. *)
Lemma delete_thread R s t th :
  sched_inv R s → threads s !! t = Some th → state th = THREAD_DEAD → idle th = false →
  t ≠ current s →
  sched_inv R (upd_threads (delete t) (set_all (List.remove Z.eq_dec t (all_threads s)) s)).
Proof.
  intros [S1 S2 S3 S4 S5 S6 S7 S8 S9 S10 S11 S12] Ht Hd Hi Hc.
  assert (∀ u, u ∈ List.remove Z.eq_dec t (all_threads s) ↔ u ∈ all_threads s ∧ u ≠ t) as Hr.
  { intros u. rewrite !list_elem_of_In. split; [by intros [? ?]%in_remove|].
    intros [? ?]. by apply in_in_remove. }
  assert (∀ u x, delete t (threads s) !! u = Some x → u ≠ t ∧ threads s !! u = Some x) as Hl.
  { intros u x Hx. apply lookup_delete_Some in Hx as [? ?]. auto. }
  split; simpl; try done.
  - by apply remove_NoDup.
  - intros u. rewrite Hr, S2, lookup_delete. case_decide; subst; [|naive_solver].
    split; [tauto|]. intros [x Hx]. done.
  - rewrite Hr. tauto.
  - rewrite Hr. auto.
  - rewrite Hr. split; [done|]. intros E. symmetry in E. apply (S6 _ _ Ht) in E. congruence.
  - intros u x Hx. apply Hl in Hx as [? ?]. eauto.
  - intros u x Hx. apply Hl in Hx as [? ?]. eauto.
  - intros u x Hx. apply Hl in Hx as [? ?]. eauto.
  - intros u x Hx. apply Hl in Hx as [? ?]. eauto.
  - intros u Hu. rewrite lookup_delete_ne; [by apply S11|].
    intros <-. apply (S12 _ _ Ht) in Hu as [? _]. congruence.
  - intros u x Hx. apply Hl in Hx as [? ?]. eauto.
Qed.

(** Waking commutes with forgetting a thread that is in no queue. *)
Lemma wake_queues_delete t qs s s' :
  (∀ q l, queues s !! q = Some l → t ∉ l) → wake_queues qs s = Some s' →
  wake_queues qs (upd_threads (delete t) s) = Some (upd_threads (delete t) s').
Proof.
  assert (∀ q u s, u ≠ t → upd_threads (delete t) (scheduler_wake_node q u s)
    = scheduler_wake_node q u (upd_threads (delete t) s)) as Hnode.
  { intros q u x Hu. unfold scheduler_wake_node, state_of. simpl.
    rewrite lookup_delete_ne by done. case_if; [|done].
    unfold set_state, upd_threads, set_queues. simpl. f_equal. by apply delete_alter_ne. }
  assert (∀ q u s, (∀ p l, queues s !! p = Some l → t ∉ l) →
    ∀ p l, queues (scheduler_wake_node q u s) !! p = Some l → t ∉ l) as Hkeep.
  { intros q u x Hx p l. unfold scheduler_wake_node.
    assert (queues (if bool_decide (state_of (set_queues (alter (List.remove Z.eq_dec u) q (queues x)) x) u
      = Some THREAD_SLEEPING) then _ else _) = alter (List.remove Z.eq_dec u) q (queues x)) as ->
      by (by case_if).
    rewrite lookup_alter. case_decide; [|eauto]. intros (l' & Hl' & ->)%fmap_Some.
    rewrite list_elem_of_In. intros [Hin _]%in_remove. apply (Hx _ _ Hl'). by apply list_elem_of_In. }
  assert (∀ fuel q s s', (∀ p l, queues s !! p = Some l → t ∉ l) → wake_loop fuel q s = Some s' →
    wake_loop fuel q (upd_threads (delete t) s) = Some (upd_threads (delete t) s') ∧
    (∀ p l, queues s' !! p = Some l → t ∉ l)) as Hloop.
  { intros fuel q. induction fuel as [|fuel IH]; intros x x' Hx E; [done|].
    cbn [wake_loop] in *. unfold wait_queue_wake_one in *. cbn [queues upd_threads] in *.
    destruct (queues x !! q) as [[|u l]|] eqn:Eq; [by injection E as <-| |by injection E as <-].
    rewrite <- Hnode by (intros ->; apply (Hx _ _ Eq); by left). apply IH; [|done].
    by apply Hkeep. }
  revert s. induction qs as [|q qs IH]; intros s Hs E; cbn [wake_queues] in *.
  { by injection E as <-. }
  unfold wait_queue_wake_all in *. cbn [queues upd_threads] in *.
  destruct (wake_loop _ q s) as [s1|] eqn:E1; [|done].
  destruct (Hloop _ _ _ _ Hs E1) as [-> Hs1]. by apply IH.
Qed.

Lemma wake_queues_inv R qs s :
  sched_inv R s → ∃ s', wake_queues qs s = Some s' ∧ sched_inv R s' ∧ wakes_only s s'.
Proof.
  revert s. induction qs as [|q qs IH]; intros s Hs; cbn [wake_queues].
  { exists s. split; [done|]. split; [done|]. by split. }
  destruct (wake_all_inv R q s Hs) as (s1 & -> & Hs1 & [W1 W2 W3] & _).
  destruct (IH s1 Hs1) as (s2 & -> & Hs2 & [V1 V2 V3]). exists s2.
  split; [done|]. split; [done|]. split; congruence.
Qed.

Definition dead (s : sched) (t : Z) : Prop := state_of s t = Some THREAD_DEAD.

Lemma wake_node_dead q u s t : dead (scheduler_wake_node q u s) t ↔ dead s t.
Proof.
  unfold dead, scheduler_wake_node. case_if; [|done]. apply bool_decide_eq_true in E.
  unfold state_of in *. simpl in *. rewrite lookup_alter. case_decide; [subst|done].
  destruct (threads s !! t) as [th|]; [|done]. simpl in *. split; [done|]. congruence.
Qed.

Lemma wake_queues_dead qs s s' t : wake_queues qs s = Some s' → dead s' t ↔ dead s t.
Proof.
  assert (∀ fuel q s s', wake_loop fuel q s = Some s' → dead s' t ↔ dead s t) as Hloop.
  { intros fuel q. induction fuel as [|fuel IH]; intros x x' E; [done|].
    cbn [wake_loop] in E. unfold wait_queue_wake_one in E.
    destruct (queues x !! q) as [[|u l]|]; [by injection E as <-| |by injection E as <-].
    apply IH in E. rewrite E. apply wake_node_dead. }
  revert s. induction qs as [|q qs IH]; intros s E; cbn [wake_queues] in E; [by injection E as <-|].
  destruct (wait_queue_wake_all q s) as [s1|] eqn:E1; [|done].
  rewrite (IH s1 E). by eapply Hloop.
Qed.

(** One round of the reaper. *)
Lemma reap_one_spec m s ps t :
  sched_ok s →
  ∃ m' s' ps', reap_one (m, s, ps) t = (m', s', ps') ∧ sched_ok s' ∧ current s' = current s ∧
    (∀ u, dead s' u ↔ dead s u ∧ u ≠ t) ∧
    (∀ u, u ∈ all_threads s' ↔ u ∈ all_threads s ∧ ¬ (dead s u ∧ u = t)).
Proof.
  intros Hs. unfold reap_one. destruct (threads s !! t) as [th|] eqn:Ht.
  2: { exists m, s, ps. split; [done|]. split; [done|]. split; [done|].
       assert (¬ dead s t) as Hnd by (unfold dead, state_of; by rewrite Ht).
       split; intros u; naive_solver. }
  destruct (decide (state th = THREAD_DEAD)) as [Hd|Hd].
  2: { rewrite (bool_decide_false _ Hd), andb_false_r. exists m, s, ps.
       assert (¬ dead s t) as Hnd by (unfold dead, state_of; rewrite Ht; naive_solver).
       split; [done|]. split; [done|]. split; [done|]. split; intros u; naive_solver. }
  assert (t ≠ current s) as Hc.
  { intros ->. pose proof (proj2 (si_running _ _ Hs _ _ Ht) eq_refl). congruence. }
  assert (idle th = false) as Hi.
  { destruct (idle th) eqn:E; [|done]. destruct (si_idle_state _ _ Hs _ _ Ht E); congruence. }
  rewrite (proj2 (Z.eqb_neq _ _) Hc), Hi, bool_decide_true by done. bsimpl.
  set (s1 := set_all _ s).
  pose proof (delete_thread _ s t th Hs Ht Hd Hi Hc) as Hdel. fold s1 in Hdel.
  assert (∃ m2 s2 ps2 qs, match process th with
      | Some p => process_thread_reaped p (page_free (stack_page th) m, s1, ps)
      | None => (page_free (stack_page th) m, s1, ps) end = (m2, s2, ps2) ∧
      wake_queues qs s1 = Some s2) as (m2 & s2 & ps2 & qs & -> & Hwk).
  { destruct (process th) as [p|]; [|by eexists _, _, _, []].
    pose proof (reaped_wakes p (page_free (stack_page th) m) s1 ps) as Hw.
    destruct (process_thread_reaped _ _) as [[m2 s2] ps2]. destruct Hw as [qs Hw].
    by exists m2, s2, ps2, qs. }
  assert (∀ q l, queues s1 !! q = Some l → t ∉ l) as Hnq.
  { intros q l Hq Hin. assert (queued (queues s) t) as Hqd by (by exists q, l).
    apply (si_blocked _ _ Hs _ _ Ht) in Hqd as [? _]. congruence. }
  pose proof (wake_queues_delete t qs s1 s2 Hnq Hwk) as Hwk'.
  destruct (wake_queues_inv _ qs _ Hdel) as (s3 & E3 & Hs3 & [W1 W2 W3]).
  rewrite Hwk' in E3. injection E3 as <-.
  eexists _, _, ps2. split; [done|]. split; [by eapply inv_weaken; [|exact Hs3]; rewrite W2|].
  split; [done|]. split.
  - intros u. pose proof (wake_queues_dead qs s1 s2 u Hwk) as Hdd.
    unfold dead, state_of in *. simpl in *. rewrite lookup_delete. case_decide; subst.
    + split; [done|tauto].
    + rewrite Hdd. naive_solver.
  - intros u. cbn [all_threads upd_threads] in *. rewrite W1. simpl.
    assert (dead s t) by (unfold dead, state_of; by rewrite Ht, <- Hd).
    rewrite !list_elem_of_In. split.
    + intros [? ?]%in_remove. tauto.
    + intros [? Hn]. apply in_in_remove; [|done]. intros ->. tauto.
Qed.

Lemma reap_all_spec ts m s ps :
  sched_ok s →
  ∃ m' s' ps', fold_left reap_one ts (m, s, ps) = (m', s', ps') ∧ sched_ok s' ∧
    current s' = current s ∧ (∀ u, dead s' u ↔ dead s u ∧ u ∉ ts) ∧
    (∀ u, u ∈ all_threads s' ↔ u ∈ all_threads s ∧ ¬ (dead s u ∧ u ∈ ts)).
Proof.
  revert m s ps. induction ts as [|t ts IH]; intros m s ps Hs; cbn [fold_left].
  { exists m, s, ps. split; [done|]. split; [done|]. split; [done|].
    split; intros u; set_solver. }
  destruct (reap_one_spec m s ps t Hs) as (m1 & s1 & ps1 & -> & Hs1 & Hc1 & Hd1 & Ha1).
  destruct (IH m1 s1 ps1 Hs1) as (m2 & s2 & ps2 & -> & Hs2 & Hc2 & Hd2 & Ha2).
  exists m2, s2, ps2. split; [done|]. split; [done|]. split; [congruence|].
  split; intros u.
  - rewrite Hd2, Hd1. set_solver.
  - rewrite Ha2, Ha1, Hd1. set_unfold. tauto.
Qed.
End Ops.
