(* ===== verification/SchedulerThms.v ===== *)
(** The scheduler's guarantees, over every sequence of its operations: the steps
    the kernel can take, the invariant they keep, and what each of them does. *)
From stdpp Require Import relations.
From S2P Require Import Prelude Machine Runtime PageAlloc Vm HeapSpec Scheduler SchedulerProps.

Section Steps.
Context `{KernelHeap} `{ProcessSystem}.
Context (trampoline user_enter idle_entry boot : Z).

(** A step of the kernel, as the scheduler sees it.  The idle thread never
    sleeps, blocks or exits ([idle_main] only reaps and yields); a thread is
    created in memory that no live thread occupies; a sleep does not end on the
    tick count that wraps to 0; and everything else the kernel does leaves the
    scheduler's own state alone. *)
Inductive step : sys → sys → Prop :=
| step_yield w w' : scheduler_yield w = Some w' → step w w'
| step_tick now w w' : scheduler_tick now w = Some w' → step w w'
| step_sleep n w w' :
    current w.1.2 ≠ idle_thread w.1.2 → u64 (tick_count w.1.2 + n) ≠ 0 →
    scheduler_sleep n w = Some w' → step w w'
| step_block q b w w' :
    current w.1.2 ≠ idle_thread w.1.2 → wait_queue_sleep q w = Some (b, w') → step w w'
| step_exit b w w' :
    current w.1.2 ≠ idle_thread w.1.2 → thread_exit w = Some (b, w') → step w w'
| step_wake_one q m s ps : step (m, s, ps) (m, (wait_queue_wake_one q s).2, ps)
| step_wake_all q m s s' ps : wait_queue_wake_all q s = Some s' → step (m, s, ps) (m, s', ps)
| step_create name entry argument ok m s m' s' ps :
    (kmalloc 216 (irq_save m).2).1 ∉ all_threads s →
    thread_create trampoline user_enter name entry argument m s = (ok, m', s') →
    step (m, s, ps) (m', s', ps)
| step_create_user process initial ok m s m' s' ps :
    (kmalloc 216 (irq_save m).2).1 ∉ all_threads s →
    thread_create_user trampoline user_enter process initial m s = (ok, m', s') →
    step (m, s, ps) (m', s', ps)
| step_reap w : step w (scheduler_reap w)
| step_stop_timer m s ps :
    step (m, s, ps) ((scheduler_stop_timer m s).1, (scheduler_stop_timer m s).2, ps)
| step_other m m' s ps ps' : step (m, s, ps) (m', s, ps').

Definition world_ok (w : sys) : Prop := sched_ok w.1.2.

Lemma reap_ok m s ps :
  sched_ok s →
  ∃ m' s' ps', scheduler_reap (m, s, ps) = (m', s', ps') ∧ sched_ok s' ∧
    current s' = current s ∧ (∀ u, ¬ dead s' u) ∧
    (∀ u, u ∈ all_threads s' ↔ u ∈ all_threads s ∧ ¬ dead s u).
Proof.
  intros Hs. unfold scheduler_reap. destruct (irq_save m) as [flags m0].
  destruct (reap_all_spec (all_threads s) m0 s ps Hs) as (m1 & s1 & ps1 & -> & H1 & H2 & H3 & H4).
  assert (∀ u, dead s u → u ∈ all_threads s) as Hd.
  { intros u Hu. apply (si_dom _ _ Hs). unfold dead, state_of in Hu.
    destruct (threads s !! u); [by eexists|done]. }
  eexists _, s1, ps1. split; [done|]. split; [done|]. split; [done|]. split.
  - intros u. rewrite H3. naive_solver.
  - intros u. rewrite H4. naive_solver.
Qed.

Lemma create_ok name entry argument process initial m s ok m' s' :
  sched_ok s → (kmalloc 216 m).1 ∉ all_threads s →
  create_thread trampoline user_enter name entry argument false process initial m s = (ok, m', s') →
  sched_ok s'.
Proof.
  intros Hs Hf E.
  pose proof (create_thread_inv _ trampoline user_enter name entry argument process initial m s
    Hs Hf) as Hc. rewrite E in Hc. destruct Hc as [Hc Hok].
  - intros t ->. apply (si_current _ _ Hs).
  - destruct ok; [|by subst]. eapply inv_weaken; [|exact Hc]. intros t.
    unfold create_thread in E. destruct (kmalloc 216 m) as [a m1].
    destruct (a =? 0); [done|]. destruct (page_alloc m1) as [b m2].
    destruct (b =? 0); [done|]. destruct process; cbv zeta in E; by injection E as _ <-.
Qed.

(** A thread that is not runnable when it gives up the processor loses it. *)
Lemma switch_away m s ps :
  sched_ready s → state_of s (current s) ≠ Some THREAD_RUNNABLE →
  ∃ m' s', scheduler_switch (m, s, ps) = Some (true, (m', s', ps)) ∧ sched_ok s' ∧
    current s' ≠ current s.
Proof.
  intros Hs Hn. destruct (split_current _ _ Hs) as (l1 & l2 & Hall).
  destruct (scheduler_switch_spec m s ps l1 l2 Hs Hall) as (b & m' & E & Hok).
  destruct (choice_runnable s l1 l2 Hs Hall) as (th & Ht & Hr & _).
  assert (choice s l1 l2 ≠ current s) as Hne.
  { intros Ec. apply Hn. unfold state_of. by rewrite <- Ec, Ht, <- Hr. }
  exists m', (switched (choice s l1 l2) s). split; [|done]. rewrite E. do 2 f_equal.
  unfold scheduler_switch in E.
  rewrite (pick_next_rotation s l1 l2 (si_nodup _ _ Hs) Hall) in E.
  rewrite (proj2 (Z.eqb_neq _ _) Hne), orb_false_r in E.
  destruct (Z.eqb_spec (choice s l1 l2) 0) as [E0|_]; [|by injection E as <-].
  exfalso. apply (si_nonnull _ _ Hs). rewrite <- E0. apply (si_dom _ _ Hs). by exists th.
Qed.

Lemma sleep_ok n m s ps :
  sched_ok s → current s ≠ idle_thread s → u64 (tick_count s + n) ≠ 0 →
  ∃ m' s', scheduler_sleep n (m, s, ps) = Some (m', s', ps) ∧ sched_ok s'.
Proof.
  intros Hs Hi Hn. unfold scheduler_sleep. destruct (n =? 0).
  { destruct (yield_ok m s ps Hs) as (m' & s' & E & Hok & _). eauto. }
  destruct (irq_save m) as [flags m0]. cbn [current upd_threads].
  destruct (switch_ok m0 _ ps (ready_sleep s Hs Hi _ Hn)) as (b & m' & s' & E & Hok & _).
  destruct (resume_ok flags _ _ _ _ _ E) as [m'' ->]. eauto.
Qed.

Lemma step_ok w w' : world_ok w → step w w' → world_ok w'.
Proof.
  unfold world_ok. intros Hw Hst.
  destruct Hst as [[[m s] ps] w' E|now [[m s] ps] w' E|n [[m s] ps] w' Hi Hn E|q b [[m s] ps] w' Hi E
    |b [[m s] ps] w' Hi E|q m s ps|q m s s' ps E|name entry argument ok m s m' s' ps Hf E
    |process initial ok m s m' s' ps Hf E|[[m s] ps]|m s ps|m m' s ps ps']; cbn [fst snd] in *.
  - destruct (yield_ok m s ps Hw) as (m' & s' & E' & Hok & _).
    rewrite E' in E. by injection E as <-.
  - destruct (split_current _ _ Hw) as (l1 & l2 & Hall).
    destruct (tick_spec now m s ps l1 l2 Hw Hall) as (m' & s' & _ & E' & Hok & _).
    rewrite E' in E. by injection E as <-.
  - destruct (sleep_ok n m s ps Hw Hi Hn) as (m' & s' & E' & Hok).
    rewrite E' in E. by injection E as <-.
  - destruct (switch_ok m _ ps (ready_block s Hw Hi q)) as (b' & m' & s' & E' & Hok & _).
    unfold wait_queue_sleep in E. rewrite E' in E. by injection E as _ <-.
  - unfold thread_exit in E. destruct (irq_save m) as [flags m0].
    destruct (switch_ok m0 _ ps (ready_dead s Hw Hi)) as (b' & m' & s' & E' & Hok & _).
    rewrite E' in E. by injection E as _ <-.
  - unfold wait_queue_wake_one. destruct (queues s !! q) as [[|t l]|] eqn:Eq; [done| |done].
    cbn [snd]. destruct (wake_node_inv _ s q (t :: l) t Hw Eq ltac:(by left)) as [Hok _].
    eapply inv_weaken; [|exact Hok]. intros u. by rewrite (wk_current _ _ (wake_node_only q t s)).
  - destruct (wake_all_inv _ q s Hw) as (s1 & E1 & Hok & Hwk & _). rewrite E1 in E.
    injection E as <-. eapply inv_weaken; [|exact Hok]. intros u. by rewrite (wk_current _ _ Hwk).
  - unfold thread_create in E. destruct (entry =? 0); [by injection E as _ _ <-|].
    destruct (irq_save m) as [flags m0].
    destruct (create_thread _ _ _ _ _ _ _ _ m0 s) as [[ok' m1] s1] eqn:Ec.
    injection E as _ _ <-. by eapply create_ok.
  - unfold thread_create_user in E. destruct (irq_save m) as [flags m0]. cbn [snd] in Hf.
    destruct process as [p|]; [|by injection E as _ _ <-].
    destruct (initial =? 0); [by injection E as _ _ <-|].
    destruct (create_thread _ _ _ _ _ _ _ _ m0 s) as [[ok' m1] s1] eqn:Ec.
    injection E as _ _ <-. by eapply create_ok.
  - destruct (reap_ok m s ps Hw) as (m' & s' & ps' & -> & Hok & _). done.
  - unfold scheduler_stop_timer. destruct (irq_save m) as [flags m0]. cbn [snd].
    destruct Hw; by split.
  - done.
Qed.

(** ** Start *)

Lemma init_ok freq table now m s m' s' :
  boot ≠ 0 → (kmalloc 216 m).1 ≠ boot →
  scheduler_init trampoline user_enter idle_entry boot freq (Some table) now m s = (true, m', s') →
  sched_ok s'.
Proof.
  intros Hb Hf. unfold scheduler_init, create_thread. destruct (root table =? 0); [done|].
  cbv zeta. destruct (kmalloc 216 m) as [t m1]. cbn [fst] in Hf.
  destruct (Z.eqb_spec t 0) as [|Ht]; [done|]. destruct (page_alloc m1) as [b m2].
  destruct (b =? 0); [done|]. cbn [negb]. injection 1 as _ <-.
  match goal with |- sched_ok ?x => assert (∀ u th, threads x !! u = Some th →
    wake_tick th = 0 ∧ ((u = t ∧ idle th = true ∧ state th = THREAD_RUNNABLE) ∨
    (u ≠ t ∧ u = boot ∧ idle th = false ∧ state th = THREAD_RUNNING))) as Hl end.
  { intros u th Hu. simpl in Hu. apply lookup_insert_Some in Hu as [[<- <-]|[Hne Hu]]; [tauto|].
    apply lookup_singleton_Some in Hu as [<- <-]. simpl. split; [done|]. right. done. }
  assert (∀ u, ¬ queued ∅ u) as Hq.
  { intros u (q & l & Hq & _). by rewrite lookup_empty in Hq. }
  split; simpl in *; try (intros u th Hu; destruct (Hl u th Hu) as (Hw & Hcase)).
  - apply NoDup_cons. split; [|apply NoDup_singleton].
    intros E%list_elem_of_singleton. congruence.
  - intros u. rewrite lookup_insert, lookup_singleton. set_unfold.
    repeat case_decide; subst; split; try (by eexists); try tauto.
    + intros [|[|[]]]; congruence.
    + intros [? [=]].
  - set_unfold. intros [?|[?|[]]]; congruence.
  - by left.
  - right. by left.
  - clear Hl. intuition congruence.
  - clear Hl. intuition congruence.
  - clear Hl. intuition congruence.
  - clear Hl. intuition congruence.
  - split; intros *; by rewrite lookup_empty.
  - intros u Hu. by apply Hq in Hu.
  - clear Hl. pose proof (Hq u). intuition congruence.
Qed.

(** C38. From a successful [scheduler_init] on, after any sequence of yields,
    timer ticks, sleeps, blocks, wake-ups, creations, exits and reaps, the
    thread table is consistent ([sched_ok]): the current thread is in the table
    and is the only one marked running, the idle thread is always there and never
    sleeps or dies, the list of threads has no repetition and matches the table, a thread
    is in at most one wait queue, and it is in one exactly when it sleeps
    without a deadline. *)
Theorem scheduler_invariant freq table now m0 s0 m1 s1 ps0 w :
  boot ≠ 0 → (kmalloc 216 m0).1 ≠ boot →
  scheduler_init trampoline user_enter idle_entry boot freq (Some table) now m0 s0
  = (true, m1, s1) →
  rtc step (m1, s1, ps0) w → sched_ok w.1.2.
Proof.
  intros Hb Hf Hinit Hsteps. assert (world_ok (m1, s1, ps0)) as Hw by (by eapply init_ok).
  induction Hsteps as [w|w1 w2 w3 Hst _ IH]; [done|]. apply IH. by eapply step_ok.
Qed.

(** C40. In a consistent state every operation that may switch threads returns:
    the search of [pick_next] goes round the circular list once and ends, there is
    always a thread to switch to, and the processor never stays with a thread
    that is asleep or dead. *)
Theorem scheduler_progress m s ps :
  sched_ok s →
  (∃ m' s', scheduler_yield (m, s, ps) = Some (m', s', ps) ∧ sched_ok s') ∧
  (∀ now, ∃ m' s', scheduler_tick now (m, s, ps) = Some (m', s', ps) ∧ sched_ok s') ∧
  (∀ q, ∃ s', wait_queue_wake_all q s = Some s' ∧ sched_ok s') ∧
  (current s ≠ idle_thread s →
   (∀ n, u64 (tick_count s + n) ≠ 0 →
      ∃ m' s', scheduler_sleep n (m, s, ps) = Some (m', s', ps) ∧ sched_ok s') ∧
   (∀ q, ∃ m' s', wait_queue_sleep q (m, s, ps) = Some (true, (m', s', ps)) ∧ sched_ok s' ∧
      current s' ≠ current s) ∧
   (∃ m' s', thread_exit (m, s, ps) = Some (true, (m', s', ps)) ∧ sched_ok s' ∧
      current s' ≠ current s)).
Proof.
  intros Hs. split; [|split; [|split]].
  - destruct (yield_ok m s ps Hs) as (m' & s' & E & Hok & _). eauto.
  - intros now. destruct (split_current _ _ Hs) as (l1 & l2 & Hall).
    destruct (tick_spec now m s ps l1 l2 Hs Hall) as (m' & s' & _ & E & Hok & _). eauto.
  - intros q. destruct (wake_all_inv _ q s Hs) as (s' & E & Hok & Hwk & _). exists s'.
    split; [done|]. eapply inv_weaken; [|exact Hok]. intros u. by rewrite (wk_current _ _ Hwk).
  - intros Hi. split; [|split].
    + intros n Hn. by apply sleep_ok.
    + intros q. apply (switch_away m _ ps (ready_block s Hs Hi q)).
      unfold scheduler_block_current. cbn [current set_queues set_state upd_threads].
      unfold state_of. simpl. rewrite lookup_alter_eq. by destruct (threads s !! current s).
    + unfold thread_exit. destruct (irq_save m) as [flags m0].
      apply (switch_away m0 _ ps (ready_dead s Hs Hi)). cbn [current set_state upd_threads].
      unfold state_of. simpl. rewrite lookup_alter_eq. by destruct (threads s !! current s).
Qed.

(** [pick_next] is round robin: it returns the first runnable, non-idle
    thread met when going round the list from the thread after the current one,
    the current thread itself last, and the idle thread only when there is no
    such thread. *)
Theorem pick_next_round_robin s l1 l2 :
  NoDup (all_threads s) → all_threads s = l1 ++ current s :: l2 →
  pick_next s
  = Some (default (idle_thread s) (List.find (eligible s) (l2 ++ l1 ++ [current s]))).
Proof. apply pick_next_rotation. Qed.

(** C39. No starvation: in a consistent state, a runnable thread that is not the
    idle one gets the processor within as many timer ticks as there are threads,
    whatever the other threads are (they may all be runnable) and whatever the
    clock reads at each tick. *)
Theorem scheduler_fair nows m s ps t :
  sched_ok s → eligible s t = true → length nows = length (all_threads s) →
  ∃ j m' s', (1 <= j <= length nows)%nat ∧
    ticks (take j nows) (m, s, ps) = Some (m', s', ps) ∧ current s' = t ∧ sched_ok s'.
Proof.
  intros Hs He Hn. destruct (split_current _ _ Hs) as (l1 & l2 & Hall).
  assert (t ∈ rotation l1 l2 (current s)) as Hin.
  { assert (t ∈ all_threads s) as H1.
    { apply (si_dom _ _ Hs). unfold eligible in He. destruct (threads s !! t); [by eexists|done]. }
    rewrite Hall in H1. unfold rotation. set_solver. }
  apply list_elem_of_split in Hin as (a & b & Hrot).
  assert (length a < length nows)%nat as Ha.
  { apply (f_equal length) in Hrot. unfold rotation in Hrot.
    rewrite Hn, Hall, !length_app in *. simpl in *. lia. }
  destruct (runs_within (length a) nows m s ps l1 l2 a t b) as (j & m' & s' & Hj & H'); try done.
  exists j, m', s'. split; [lia|done].
Qed.

(** What a timer tick does to a sleeper: a thread waiting for a deadline
    wakes at the first tick that reaches it and not before (it is then runnable,
    or already running), and a thread that sleeps on a wait queue is not touched. *)
Theorem scheduler_tick_wakes now m s ps m' s' ps' t th :
  sched_ok s → threads s !! t = Some th → state th = THREAD_SLEEPING →
  0 <= tick_count s → tick_count s + 1 < 2 ^ 64 →
  scheduler_tick now (m, s, ps) = Some (m', s', ps') →
  tick_count s' = tick_count s + 1 ∧
  (wake_tick th = 0 ∨ tick_count s + 1 < wake_tick th → threads s' !! t = Some th) ∧
  (wake_tick th ≠ 0 → wake_tick th <= tick_count s + 1 →
   ∃ th', threads s' !! t = Some th' ∧ wake_tick th' = 0 ∧
     (state th' = THREAD_RUNNABLE ∨ state th' = THREAD_RUNNING ∧ current s' = t)).
Proof.
  intros Hs Ht Hst Hpos Hmax. destruct (tick_prepared now m s ps Hs)
    as (s1 & Hr & [W1 W2 W3] & _ & Hdue & Htc & ->).
  specialize (Hdue t th Ht Hst). rewrite (u64_small (tick_count s + 1)) in Hdue, Htc by (unfold in_u64; lia).
  destruct (split_current _ _ Hr) as (l1 & l2 & Hall).
  destruct (scheduler_switch_spec m s1 ps l1 l2 Hr Hall) as (b & m1 & -> & Hok).
  destruct (choice_runnable s1 l1 l2 Hr Hall) as (thn & Hn & Hrn & _).
  set (n := choice s1 l1 l2) in *. injection 1 as <- <- <-.
  split; [done|]. unfold wake_due in Hdue. rewrite (bool_decide_true _ Hst) in Hdue.
  cbn [threads current switched set_current set_state upd_threads]. split.
  - intros Hlate. assert (threads s1 !! t = Some th) as Hsame.
    { destruct (Z.eqb_spec (wake_tick th) 0); [done|].
      destruct (Z.leb_spec (wake_tick th) (tick_count s + 1)); [lia|done]. }
    rewrite lookup_alter_ne; [done|]. congruence.
  - intros Hz Hreach. rewrite (proj2 (Z.eqb_neq _ _) Hz), (proj2 (Z.leb_le _ _) Hreach) in Hdue.
    rewrite lookup_alter. case_decide as E; subst.
    + rewrite Hdue. eexists. split; [done|]. split; [done|]. by right.
    + eexists. split; [exact Hdue|]. split; [done|]. by left.
Qed.

(** Wait queues are first in, first out: a thread that sleeps on a queue is
    put behind those already there; [wait_queue_wake_one] makes the thread at
    the front runnable, takes it out, and changes no other thread;
    [wait_queue_wake_all] leaves the queue empty. *)
Theorem wait_queue_fifo q s m ps :
  sched_ok s →
  (current s ≠ idle_thread s → ∀ w, wait_queue_sleep q (m, s, ps) = Some (true, w) →
     queues w.1.2 = <[q := default [] (queues s !! q) ++ [current s]]> (queues s)) ∧
  (∀ t l, queues s !! q = Some (t :: l) →
     ∃ s', wait_queue_wake_one q s = (true, s') ∧ queues s' = <[q := l]> (queues s) ∧
       state_of s' t = Some THREAD_RUNNABLE ∧
       (∀ u, u ≠ t → threads s' !! u = threads s !! u)) ∧
  (default [] (queues s !! q) = [] → wait_queue_wake_one q s = (false, s)) ∧
  (∃ s', wait_queue_wake_all q s = Some s' ∧ default [] (queues s' !! q) = []).
Proof.
  intros Hs. split; [|split; [|split]].
  - intros Hi w E. unfold wait_queue_sleep in E.
    destruct (split_current _ _ (ready_block s Hs Hi q)) as (l1 & l2 & Hall).
    destruct (scheduler_switch_spec m _ ps l1 l2 (ready_block s Hs Hi q) Hall)
      as (b & m1 & E' & _). rewrite E' in E. by injection E as _ <-.
  - intros t l Hq. unfold wait_queue_wake_one. rewrite Hq. eexists. split; [done|].
    destruct (wake_node_inv _ s q (t :: l) t Hs Hq ltac:(by left)) as [_ ->].
    pose proof (qo_nodup _ (si_queues _ _ Hs) _ _ Hq) as Hnd.
    assert (queued (queues s) t) as Hqd by (exists q, (t :: l); split; [done|by left]).
    destruct (si_queued _ _ Hs t Hqd) as [th Ht].
    pose proof (proj1 (si_blocked _ _ Hs _ _ Ht) Hqd) as [Hst _]. clear Hqd.
    unfold scheduler_wake_node, state_of. cbn [threads set_queues].
    rewrite Ht. cbn [fmap option_fmap option_map]. rewrite Hst, bool_decide_true by done.
    split; [|split].
    + apply map_eq. intros p. rewrite lookup_alter, lookup_insert.
      case_decide; [subst|done]. rewrite Hq. cbn [fmap option_fmap option_map]. by rewrite remove_head.
    + cbn [threads set_state upd_threads set_queues]. by rewrite lookup_alter_eq, Ht.
    + intros u Hu. cbn [threads set_state upd_threads set_queues]. by rewrite lookup_alter_ne.
  - intros E. unfold wait_queue_wake_one. destruct (queues s !! q) as [[|]|]; done.
  - destruct (wake_all_inv _ q s Hs) as (s' & E & _ & _ & Hq). eauto.
Qed.

(** [scheduler_reap] frees exactly the dead threads: afterwards no dead
    thread is left in the table, and the threads of the list are those that
    were not dead; the current thread stays current. *)
Theorem scheduler_reap_exact m s ps :
  sched_ok s →
  let '(_, s', _) := scheduler_reap (m, s, ps) in
  current s' = current s ∧ (∀ u, state_of s' u ≠ Some THREAD_DEAD) ∧
  (∀ u, u ∈ all_threads s' ↔ u ∈ all_threads s ∧ state_of s u ≠ Some THREAD_DEAD).
Proof.
  intros Hs. destruct (reap_ok m s ps Hs) as (m' & s' & ps' & -> & _ & H1 & H2 & H3). done.
Qed.
End Steps.

(** * A concrete run *)

(** A heap that gives every object a page of its own, processes without state,
    and a machine with eight pages. *)
Module Demo.
#[export] Instance page_heap : KernelHeap := {
  kmalloc _ m := let '(p, m) := page_alloc m in
                 (if p =? 0 then 0 else phys_to_virt p, m);
  kfree p m := page_free (virt_to_phys p) m;
}.

#[export] Instance no_processes : ProcessSystem := {
  pstate := unit;
  table_of _ _ := mk_page_table 4096;
  process_thread_reaped _ w := w;
  reaped_wakes _ _ s _ := ex_intro (λ qs, wake_queues qs s = Some s) [] eq_refl;
}.

Definition board : kstate :=
  stocked ((λ i, 2147483648 + 4096 * Z.of_nat i) <$> seq 0 8).

Definition cold : sched := mk_sched ∅ [] ∅ 0 0 0 0 0 false (mk_page_table 0) 0.

Definition booted : bool * kstate * sched :=
  scheduler_init 1 2 3 4 10000000 (Some (mk_page_table 4096)) 0 board cold.
Definition created : bool * kstate * sched :=
  thread_create 1 2 7 8 9 (booted.1.2) (booted.2).
(** The bootstrap thread sleeps for two ticks; the created thread runs. *)
Definition slept : option sys := scheduler_sleep 2 (created.1.2, created.2, tt).
Definition asleep : sys := default (created.1.2, created.2, tt) slept.
(** The created thread blocks on a queue; the idle thread runs. *)
Definition blocked : sys :=
  match wait_queue_sleep (64, 8) asleep with Some (_, w) => w | None => asleep end.

Lemma booted_ok : sched_ok booted.2.
Proof.
  apply (init_ok 1 2 3 4 10000000 (mk_page_table 4096) 0 board cold booted.1.2);
    [lia|vm_compute; discriminate|by vm_compute].
Qed.

Lemma created_steps : step 1 2 (booted.1.2, booted.2, tt) (created.1.2, created.2, tt).
Proof.
  refine (step_create 1 2 7 8 9 created.1.1 _ _ _ _ (tt : pstate) _ _).
  - apply (bool_decide_unpack _). by vm_compute.
  - unfold created. by destruct (thread_create _ _ _ _ _ _ _) as [[? ?] ?].
Qed.

Definition awake : sys := (created.1.2, created.2, tt).

Lemma asleep_steps : step 1 2 awake asleep.
Proof.
  apply (step_sleep 1 2 2); [vm_compute; discriminate|vm_compute; discriminate|].
  vm_compute. reflexivity.
Qed.

Lemma created_ok : sched_ok created.2.
Proof. refine (step_ok 1 2 (booted.1.2, booted.2, tt) _ booted_ok created_steps). Qed.
Lemma asleep_ok : world_ok asleep.
Proof. exact (step_ok 1 2 awake asleep created_ok asleep_steps). Qed.

Definition none : pstate := tt.

(** The created thread exits instead, and the idle thread finds it dead. *)
Definition exited : sys :=
  match thread_exit asleep with Some (_, w) => w | None => asleep end.
Lemma exited_ok : world_ok exited.
Proof.
  apply (step_ok 1 2 asleep exited asleep_ok), (step_exit 1 2 true).
  - vm_compute. discriminate.
  - vm_compute. reflexivity.
Qed.

Definition ticked : sys := default asleep (scheduler_tick 5 asleep).
Definition worker : Z := 18446743800979136512.

Lemma scheduler_invariant_witness : sched_ok asleep.1.2.
Proof.
  refine (scheduler_invariant 1 2 3 4 10000000 (mk_page_table 4096) 0 board cold
    booted.1.2 booted.2 none asleep _ _ _ _).
  - lia.
  - vm_compute. discriminate.
  - by vm_compute.
  - exact (rtc_l _ _ _ _ created_steps (rtc_once _ _ asleep_steps)).
Defined.

Lemma scheduler_progress_witness :
  ∃ m' s', thread_exit (asleep.1.1, asleep.1.2, none) = Some (true, (m', s', none)) ∧ sched_ok s' ∧
    current s' ≠ worker.
Proof.
  destruct (scheduler_progress asleep.1.1 asleep.1.2 none asleep_ok) as (_ & _ & _ & H).
  destruct H as (_ & _ & H); [vm_compute; discriminate|]. exact H.
Defined.

Lemma pick_next_round_robin_witness : pick_next created.2 = Some worker.
Proof.
  rewrite (pick_next_round_robin created.2 [] (tail (all_threads created.2))).
  - by vm_compute.
  - apply (bool_decide_unpack _). by vm_compute.
  - by vm_compute.
Defined.

Lemma scheduler_fair_witness :
  ∃ j m' s', (1 <= j <= 3)%nat ∧
    ticks (take j [10; 20; 30]) (created.1.2, created.2, none) = Some (m', s', none) ∧
    current s' = worker ∧ sched_ok s'.
Proof.
  apply (scheduler_fair [10; 20; 30] created.1.2 created.2 none worker created_ok); by vm_compute.
Defined.

Lemma scheduler_tick_wakes_witness :
  ∃ th, threads asleep.1.2 !! 4 = Some th ∧ wake_tick th = 2 ∧
    threads ticked.1.2 !! 4 = Some th ∧ tick_count ticked.1.2 = 1.
Proof.
  eexists. split; [by vm_compute|]. split; [done|].
  refine ((λ H, conj (proj1 (proj2 H) (or_intror _)) (proj1 H))
    (scheduler_tick_wakes 5 asleep.1.1 asleep.1.2 none ticked.1.1 ticked.1.2 none 4 _ asleep_ok
       _ _ _ _ _)); try (by vm_compute).
Defined.

Lemma wait_queue_fifo_witness : queues blocked.1.2 = <[(64, 8) := [worker]]> (queues asleep.1.2).
Proof.
  refine (proj1 (wait_queue_fifo (64, 8) asleep.1.2 asleep.1.1 none asleep_ok) _ blocked _).
  - vm_compute. discriminate.
  - by vm_compute.
Defined.

Lemma scheduler_reap_exact_witness :
  ∃ m s, state_of s worker = Some THREAD_DEAD ∧
    let '(_, s', _) := scheduler_reap (m, s, none) in
    current s' = current s ∧ (∀ u, state_of s' u ≠ Some THREAD_DEAD) ∧
    (∀ u, u ∈ all_threads s' ↔ u ∈ all_threads s ∧ state_of s u ≠ Some THREAD_DEAD).
Proof.
  exists exited.1.1, exited.1.2. split; [by vm_compute|].
  pose proof exited_ok as Hok. unfold world_ok in Hok. revert Hok.
  generalize exited.1.1 exited.1.2. intros m s Hok.
  exact (scheduler_reap_exact m s none Hok).
Defined.
End Demo.
