(* ===== verification/AddressSpace.v ===== *)
(** [src/mm/address_space.c]: the address space of a process.  Its page table is
    the one of [Vm], in memory; the ledger of owned pages and the list of
    reserved areas are lists of records, each with the heap address of the
    object that holds it, which is what [KList] shows the intrusive lists to
    be. *)
From S2P Require Import Prelude Machine Runtime PageAlloc Vm HeapSpec.

Abbreviation HEAP_BASE := 8388608 (only parsing).          (* 0x800000 *)
Abbreviation MMAP_BASE := 268435456 (only parsing).        (* 0x10000000 *)
Abbreviation MMAP_END := 536870912 (only parsing).         (* 0x20000000 *)
Abbreviation MAX_MAPPING := 16777216 (only parsing).       (* 0x1000000 *)
Abbreviation USER_END := 274877906944 (only parsing).      (* 1 << 38 *)

Abbreviation E_PERM := 1 (only parsing).
Abbreviation E_BADF := 9 (only parsing).
Abbreviation E_NOMEM := 12 (only parsing).
Abbreviation E_EXIST := 17 (only parsing).
Abbreviation E_INVAL := 22 (only parsing).

Abbreviation PROT_READ := 1 (only parsing).
Abbreviation PROT_WRITE := 2 (only parsing).
Abbreviation PROT_EXEC := 4 (only parsing).
Abbreviation MAP_PRIVATE := 2 (only parsing).
Abbreviation MAP_ANONYMOUS := 32 (only parsing).
Abbreviation MAP_FIXED_NOREPLACE := 1048576 (only parsing).
Abbreviation O_ACCMODE := 3 (only parsing).
Abbreviation O_WRONLY := 1 (only parsing).
Abbreviation DT_REG := 8 (only parsing).

Abbreviation PTE_UR := 18 (only parsing).                  (* PTE_U | PTE_R *)
Abbreviation PTE_URW := 22 (only parsing).                 (* PTE_U | PTE_R | PTE_W *)

Inductive area_kind := AREA_ELF | AREA_STACK | AREA_HEAP | AREA_ANON | AREA_FILE.

#[export] Instance area_kind_eq_dec : EqDecision area_kind.
Proof. solve_decision. Defined.

Record vm_area := mk_area {
  area_at : Z;               (* the address of the record *)
  start : Z;
  end_ : Z;
  area_flags : Z;
  kind : area_kind;
}.

Record user_page := mk_user_page {
  page_at : Z;
  virtual_address : Z;
  physical : Z;
  page_flags : Z;
}.

#[export] Instance user_page_eq_dec : EqDecision user_page.
Proof. solve_decision. Defined.

Record address_space := mk_as {
  table : page_table;
  pages : list user_page;
  areas : list vm_area;
  brk_base : Z;
  brk_end : Z;
}.

Definition set_table (t : page_table) (as_ : address_space) : address_space :=
  mk_as t (pages as_) (areas as_) (brk_base as_) (brk_end as_).
Definition set_pages (ps : list user_page) (as_ : address_space) : address_space :=
  mk_as (table as_) ps (areas as_) (brk_base as_) (brk_end as_).
Definition set_areas (l : list vm_area) (as_ : address_space) : address_space :=
  mk_as (table as_) (pages as_) l (brk_base as_) (brk_end as_).
Definition set_brk (base end_ : Z) (as_ : address_space) : address_space :=
  mk_as (table as_) (pages as_) (areas as_) base end_.

Definition with_start (v : Z) (a : vm_area) : vm_area :=
  mk_area (area_at a) v (end_ a) (area_flags a) (kind a).
Definition with_end (v : Z) (a : vm_area) : vm_area :=
  mk_area (area_at a) (start a) v (area_flags a) (kind a).

(** [(x + PAGE_MASK) & ~PAGE_MASK] *)
Definition round_up (x : Z) : Z := Z.land (u64 (x + PAGE_MASK)) (not64 PAGE_MASK).

(** The files that [mmap] reads, as far as this component sees them. *)
Class FileAccess := {
  file : Type;
  file_node_type : file → option Z;        (* file->node->type; [None] without a node *)
  file_flags : file → Z;
  file_pread : file → Z → Z → Z → kstate → Z * kstate;
}.

Section AddressSpace.
Context `{KernelHeap}.

(** ** Creation and destruction *)

Definition address_space_init (kernel_table : option page_table) (m : kstate)
    : bool * address_space * kstate :=
  let as_ := mk_as (mk_page_table 0) [] [] HEAP_BASE HEAP_BASE in
  let '(ok, t, m) := vm_create_user (Some (table as_)) kernel_table m in
  (ok, set_table (default (table as_) t) as_, m).

Fixpoint free_pages_of (ps : list user_page) (m : kstate) : kstate :=
  match ps with
  | [] => m
  | p :: rest => free_pages_of rest (kfree (page_at p) (page_free (physical p) m))
  end.

Fixpoint free_areas_of (l : list vm_area) (m : kstate) : kstate :=
  match l with
  | [] => m
  | a :: rest => free_areas_of rest (kfree (area_at a) m)
  end.

Definition address_space_destroy (as_ : address_space) (m : kstate) : address_space * kstate :=
  let '(t, m) := vm_destroy_user (Some (table as_)) m in
  let as_ := set_table (default (table as_) t) as_ in
  let m := free_pages_of (pages as_) m in
  let as_ := set_pages [] as_ in
  let m := free_areas_of (areas as_) m in
  (set_areas [] as_, m).

(** [data] is 0 for NULL. *)
Definition address_space_add_page (as_ : address_space) (address flags data size : Z) (m : kstate)
    : bool * address_space * kstate :=
  if (address >=? USER_END) || negb (Z.land address PAGE_MASK =? 0)
     || (Z.land flags PTE_U =? 0) || (size >? PAGE_SIZE)
     || (negb (size =? 0) && (data =? 0))
  then (false, as_, m)
  else
    let '(page, m) := kmalloc 40 m in
    if page =? 0 then (false, as_, m)
    else
      let '(physical, m) := page_alloc m in
      if physical =? 0 then (false, as_, kfree page m)
      else
        let m := zero_page physical m in
        let m := if negb (size =? 0)
                 then set_mem (memcpy (mem m) (phys_to_virt physical) data (Z.to_nat size)) m
                 else m in
        let '(mapped, m) :=
          if negb (Z.land flags PTE_RX =? 0)
          then vm_map (Some (table as_)) address physical flags m
          else (true, m) in
        if negb mapped then
          (false, as_, vm_prune_user (table as_) (kfree page (page_free physical m)))
        else
          (true, set_pages (pages as_ ++ [mk_user_page page address physical flags]) as_, m).

(** ** Areas *)

Definition vacant (as_ : address_space) (start_ end__ : Z) : bool :=
  forallb (λ a, negb ((start_ <? end_ a) && (start a <? end__))) (areas as_).

Definition address_space_reserve (as_ : address_space) (start_ end__ flags : Z)
    (kind_ : area_kind) (m : kstate) : bool * address_space * kstate :=
  if (start_ >=? end__) || negb (Z.land start_ PAGE_MASK =? 0)
     || negb (Z.land end__ PAGE_MASK =? 0) || (end__ >? USER_END)
     || negb (vacant as_ start_ end__)
  then (false, as_, m)
  else
    let '(a, m) := kmalloc 48 m in
    if a =? 0 then (false, as_, m)
    else (true, set_areas (areas as_ ++ [mk_area a start_ end__ flags kind_]) as_, m).

Fixpoint clone_areas (l : list vm_area) (destination : address_space) (m : kstate)
    : bool * address_space * kstate :=
  match l with
  | [] => (true, destination, m)
  | a :: rest =>
      let '(ok, destination, m) :=
        address_space_reserve destination (start a) (end_ a) (area_flags a) (kind a) m in
      if negb ok then let '(d, m) := address_space_destroy destination m in (false, d, m)
      else clone_areas rest destination m
  end.

Fixpoint clone_pages (ps : list user_page) (destination : address_space) (m : kstate)
    : bool * address_space * kstate :=
  match ps with
  | [] => (true, destination, m)
  | p :: rest =>
      let '(ok, destination, m) :=
        address_space_add_page destination (virtual_address p) (page_flags p)
          (phys_to_virt (physical p)) PAGE_SIZE m in
      if negb ok then let '(d, m) := address_space_destroy destination m in (false, d, m)
      else clone_pages rest destination m
  end.

Definition address_space_clone (source : address_space) (kernel_table : option page_table)
    (m : kstate) : bool * address_space * kstate :=
  let '(ok, destination, m) := address_space_init kernel_table m in
  if negb ok then (false, destination, m)
  else
    let destination := set_brk (brk_base source) (brk_end source) destination in
    let '(ok, destination, m) := clone_areas (areas source) destination m in
    if negb ok then (false, destination, m)
    else clone_pages (pages source) destination m.

(** The destination and the emptied source. *)
Definition address_space_move (source : address_space) : address_space * address_space :=
  (mk_as (table source) (pages source) (areas source) (brk_base source) (brk_end source),
   mk_as (mk_page_table 0) [] [] (brk_base source) (brk_end source)).

(** ** User memory *)

(** One page at most of a range that starts at [address]. *)
Definition chunk_of (address size : Z) : Z :=
  let chunk := PAGE_SIZE - Z.land address PAGE_MASK in
  if chunk >? size then size else chunk.

Definition may_access (flags : Z) (write : bool) : bool :=
  (Z.land flags PTE_UR =? PTE_UR) && negb (write && (Z.land flags PTE_W =? 0)).

(** [None] when the fuel runs out. *)
Fixpoint copy_loop (fuel : nat) (t : page_table) (bytes address size : Z) (to_user : bool)
    (m : kstate) : option (bool * kstate) :=
  match fuel with
  | O => None
  | S f =>
      if size =? 0 then Some (true, m)
      else
        let chunk := chunk_of address size in
        match vm_query (Some t) address m with
        | None => Some (false, m)
        | Some (physical, flags) =>
            if negb (may_access flags to_user) then Some (false, m)
            else
              let m :=
                if to_user
                then set_mem (memcpy (mem m) (phys_to_virt physical) bytes (Z.to_nat chunk)) m
                else set_mem (memcpy (mem m) bytes (phys_to_virt physical) (Z.to_nat chunk)) m in
              copy_loop f t (bytes + chunk) (address + chunk) (size - chunk) to_user m
        end
  end.

(** Two pages more than the size fills. *)
Definition copy_fuel (size : Z) : nat := Z.to_nat (size / PAGE_SIZE + 3).

Definition address_space_copy (as_ : option address_space) (buffer address size : Z)
    (to_user : bool) (m : kstate) : option (bool * kstate) :=
  if size =? 0 then Some (true, m)
  else
    match as_ with
    | None => Some (false, m)
    | Some as_ =>
        if (buffer =? 0) || (address >=? USER_END) || (size >? USER_END - address)
        then Some (false, m)
        else copy_loop (copy_fuel size) (table as_) buffer address size to_user m
    end.

Fixpoint validate_loop (fuel : nat) (t : page_table) (address size : Z) (write : bool)
    (m : kstate) : option bool :=
  match fuel with
  | O => None
  | S f =>
      if size =? 0 then Some true
      else
        let part := chunk_of address size in
        match vm_query (Some t) address m with
        | None => Some false
        | Some (_, flags) =>
            if negb (may_access flags write) then Some false
            else validate_loop f t (address + part) (size - part) write m
        end
  end.

Definition address_space_validate (as_ : address_space) (address size : Z) (write : bool)
    (m : kstate) : option bool :=
  if size =? 0 then Some true
  else if (address >=? USER_END) || (size >? USER_END - address) then Some false
  else validate_loop (copy_fuel size) (table as_) address size write m.

(** ** Mapping and unmapping *)

Definition in_range (start_ end__ : Z) (p : user_page) : bool :=
  negb ((virtual_address p <? start_) || (virtual_address p >=? end__)).

(** The loop reads the next link before it frees a record: it visits the ledger
    as it was. *)
Fixpoint remove_loop (t : page_table) (start_ end__ : Z) (ps : list user_page) (m : kstate)
    : list user_page * kstate :=
  match ps with
  | [] => ([], m)
  | p :: rest =>
      if negb (in_range start_ end__ p) then
        let '(kept, m) := remove_loop t start_ end__ rest m in (p :: kept, m)
      else
        let m := if negb (Z.land (page_flags p) PTE_RX =? 0)
                 then snd (vm_unmap (Some t) (virtual_address p) m) else m in
        remove_loop t start_ end__ rest (kfree (page_at p) (page_free (physical p) m))
  end.

Definition remove_pages (as_ : address_space) (start_ end__ : Z) (m : kstate)
    : address_space * kstate :=
  let '(kept, m) := remove_loop (table as_) start_ end__ (pages as_) m in
  (set_pages kept as_, vm_prune_user (table as_) m).

(** The first-fit scan of [address_space_mmap]: the address at which it stops. *)
Fixpoint scan (fuel : nat) (as_ : address_space) (address length : Z) : Z :=
  match fuel with
  | O => address
  | S f =>
      if address <=? MMAP_END - length then
        if vacant as_ address (address + length) then address
        else scan f as_ (address + PAGE_SIZE) length
      else address
  end.
Definition scan_fuel : nat := Z.to_nat ((MMAP_END - MMAP_BASE) / PAGE_SIZE + 1).

Definition mmap_flags (prot : Z) : Z :=
  Z.lor (Z.lor (Z.lor PTE_U (if negb (Z.land prot PROT_READ =? 0) then PTE_R else 0))
           (if negb (Z.land prot PROT_WRITE =? 0) then PTE_W else 0))
    (if negb (Z.land prot PROT_EXEC =? 0) then PTE_X else 0).

Section Files.
Context `{FileAccess}.

(** The loop that adds [count] pages from [at_] on; for a file mapping each is
    filled by [file_pread]. *)
Fixpoint populate (count : nat) (as_ : address_space) (at_ address flags : Z)
    (source : option file) (offset : Z) (m : kstate) : bool * address_space * kstate :=
  match count with
  | O => (true, as_, m)
  | S n =>
      let '(ok, as_, m) := address_space_add_page as_ at_ flags 0 0 m in
      if negb ok then (false, as_, m)
      else
        let '(ok, m) :=
          match source, last (pages as_) with
          | Some f, Some p =>
              let '(r, m) := file_pread f (phys_to_virt (physical p)) PAGE_SIZE
                               (u64 (offset + at_ - address)) m in
              (negb (r <? 0), m)
          | _, _ => (true, m)
          end in
        if negb ok then (false, as_, m)
        else populate n as_ (at_ + PAGE_SIZE) address flags source offset m
  end.

Definition address_space_mmap (as_ : address_space) (address length prot mapflags : Z)
    (file : option file) (offset : Z) (m : kstate) : Z * address_space * kstate :=
  let anonymous := negb (Z.land mapflags MAP_ANONYMOUS =? 0) in
  let allowed := Z.lor MAP_PRIVATE (Z.lor MAP_ANONYMOUS MAP_FIXED_NOREPLACE) in
  if (length =? 0) || (length >? MAX_MAPPING) || negb (Z.land prot (UINT32_MAX - 7) =? 0)
     || (negb (Z.land prot PROT_WRITE =? 0) && (Z.land prot PROT_READ =? 0))
     || (Z.land prot (Z.lor PROT_WRITE PROT_EXEC) =? Z.lor PROT_WRITE PROT_EXEC)
     || (Z.land mapflags MAP_PRIVATE =? 0)
     || negb (Z.land mapflags (UINT32_MAX - allowed) =? 0)
     || negb (Z.land offset PAGE_MASK =? 0) || (anonymous && negb (offset =? 0))
  then (- E_INVAL, as_, m)
  else if negb anonymous &&
          match file with
          | None => true
          | Some f =>
              match file_node_type f with
              | None => true
              | Some ty => negb (ty =? DT_REG) || (Z.land (file_flags f) O_ACCMODE =? O_WRONLY)
              end
          end
  then (- E_BADF, as_, m)
  else
    let length := round_up length in
    if offset >? UINT64_MAX - length then (- E_INVAL, as_, m)
    else if negb (Z.land address PAGE_MASK =? 0) then (- E_INVAL, as_, m)
    else
      let outside := (address <? MMAP_BASE) || (address >? MMAP_END - length) in
      let place :=
        if negb (Z.land mapflags MAP_FIXED_NOREPLACE =? 0) then
          if outside then inl (- E_INVAL)
          else if negb (vacant as_ address (address + length)) then inl (- E_EXIST)
          else inr address
        else if outside || negb (vacant as_ address (address + length)) then
          let address := scan scan_fuel as_ MMAP_BASE length in
          if address >? MMAP_END - length then inl (- E_NOMEM) else inr address
        else inr address in
      match place with
      | inl error => (error, as_, m)
      | inr address =>
          let flags := mmap_flags prot in
          let '(ok, as_, m) := address_space_reserve as_ address (address + length) flags
                                 (if anonymous then AREA_ANON else AREA_FILE) m in
          if negb ok then (- E_NOMEM, as_, m)
          else
            let area := match last (areas as_) with Some a => area_at a | None => 0 end in
            let '(ok, as_, m) := populate (Z.to_nat (length / PAGE_SIZE)) as_ address address flags
                                   (if anonymous then None else file) offset m in
            if ok then (s64 address, as_, vm_flush_all m)
            else
              let '(as_, m) := remove_pages as_ address (address + length) m in
              let as_ := set_areas (filter (λ a, area_at a ≠ area) (areas as_)) as_ in
              (- E_NOMEM, as_, kfree area m)
      end.
End Files.

(** The first loop of [address_space_munmap]: an error, or the record for a
    middle cut (0 if none is needed). *)
Fixpoint preflight (start_ end__ : Z) (l : list vm_area) (split : Z) (m : kstate)
    : (Z + Z) * kstate :=
  match l with
  | [] => (inr split, m)
  | a :: rest =>
      if (start_ >=? end_ a) || (end__ <=? start a) then preflight start_ end__ rest split m
      else if negb (bool_decide (kind a = AREA_ANON)) && negb (bool_decide (kind a = AREA_FILE))
      then (inl (- E_PERM), kfree split m)
      else if (start_ >? start a) && (end__ <? end_ a) then
        let '(split, m) := kmalloc 48 m in
        if split =? 0 then (inl (- E_NOMEM), m) else preflight start_ end__ rest split m
      else preflight start_ end__ rest split m
  end.

(** The second loop.  The record split off is put at the end of the list, where
    the loop meets it unless it was at the last record already.  [None] when the
    fuel runs out or a second record would be needed. *)
Fixpoint cut_loop (fuel : nat) (start_ end__ split : Z) (seen rest : list vm_area) (m : kstate)
    : option (list vm_area * Z * kstate) :=
  match fuel with
  | O => None
  | S f =>
      match rest with
      | [] => Some (seen, split, m)
      | a :: rest =>
          if (start_ >=? end_ a) || (end__ <=? start a)
          then cut_loop f start_ end__ split (seen ++ [a]) rest m
          else if (start_ <=? start a) && (end__ >=? end_ a)
          then cut_loop f start_ end__ split seen rest (kfree (area_at a) m)
          else if (start_ >? start a) && (end__ <? end_ a) then
            if split =? 0 then None
            else
              let fresh := mk_area split end__ (end_ a) (area_flags a) (kind a) in
              let a := with_end start_ a in
              match rest with
              | [] => cut_loop f start_ end__ 0 (seen ++ [a; fresh]) [] m
              | _ => cut_loop f start_ end__ 0 (seen ++ [a]) (rest ++ [fresh]) m
              end
          else if start_ <=? start a
          then cut_loop f start_ end__ split (seen ++ [with_start end__ a]) rest m
          else cut_loop f start_ end__ split (seen ++ [with_end start_ a]) rest m
      end
  end.

Definition address_space_munmap (as_ : address_space) (start_ length : Z) (m : kstate)
    : option (Z * address_space * kstate) :=
  if negb (Z.land start_ PAGE_MASK =? 0) || (length =? 0) || (start_ >=? USER_END)
     || (length >? USER_END - start_)
  then Some (- E_INVAL, as_, m)
  else
    let end__ := round_up (start_ + length) in
    let '(pre, m) := preflight start_ end__ (areas as_) 0 m in
    match pre with
    | inl error => Some (error, as_, m)
    | inr split =>
        let '(as_, m) := remove_pages as_ start_ end__ m in
        match cut_loop (2 + List.length (areas as_)) start_ end__ split [] (areas as_) m with
        | None => None
        | Some (l, split, m) => Some (0, set_areas l as_, kfree split m)
        end
    end.

(** ** The heap of the process *)

(** The last area of kind [AREA_HEAP]. *)
Definition heap_area (as_ : address_space) : option vm_area :=
  fold_left (λ h a, if bool_decide (kind a = AREA_HEAP) then Some a else h) (areas as_) None.

(** [area->end = v], by the address of the record. *)
Definition set_area_end (at_ v : Z) (l : list vm_area) : list vm_area :=
  (λ a, if area_at a =? at_ then with_end v a else a) <$> l.

(** The pages of a growing heap, with the addresses still to add. *)
Fixpoint grow (count : nat) (as_ : address_space) (at_ : Z) (m : kstate)
    : bool * address_space * kstate :=
  match count with
  | O => (true, as_, m)
  | S n =>
      let '(ok, as_, m) := address_space_add_page as_ at_ PTE_URW 0 0 m in
      if negb ok then (false, as_, m) else grow n as_ (at_ + PAGE_SIZE) m
  end.

Definition address_space_brk (as_ : address_space) (requested : Z) (m : kstate)
    : Z * address_space * kstate :=
  if requested =? 0 then (s64 (brk_end as_), as_, m)
  else if (requested <? brk_base as_) || (requested >? u64 (brk_base as_ + MAX_MAPPING))
  then (- E_NOMEM, as_, m)
  else
    let old := round_up (brk_end as_) in
    let new := round_up requested in
    let heap := heap_area as_ in
    if new >? old then
      if negb (vacant as_ old new) then (- E_NOMEM, as_, m)
      else
        let '(fresh, m) := match heap with Some _ => (0, m) | None => kmalloc 48 m end in
        if match heap with Some _ => false | None => fresh =? 0 end then (- E_NOMEM, as_, m)
        else
          let '(ok, as_, m) := grow (Z.to_nat ((new - old) / PAGE_SIZE)) as_ old m in
          if negb ok then
            let '(as_, m) := remove_pages as_ old new m in
            (- E_NOMEM, as_, kfree fresh m)
          else
            let l := match heap with
                     | Some h => set_area_end (area_at h) new (areas as_)
                     | None => areas as_ ++ [mk_area fresh (brk_base as_) new PTE_URW AREA_HEAP]
                     end in
            (s64 requested, set_brk (brk_base as_) requested (set_areas l as_), vm_flush_all m)
    else
      let '(as_, m) :=
        if new <? old then
          let '(as_, m) := remove_pages as_ new old m in
          match heap with
          | None => (as_, m)
          | Some h =>
              if new =? start h
              then (set_areas (filter (λ a, area_at a ≠ area_at h) (areas as_)) as_,
                    kfree (area_at h) m)
              else (set_areas (set_area_end (area_at h) new (areas as_)) as_, m)
          end
        else (as_, m) in
      (s64 requested, set_brk (brk_base as_) requested as_, m).
End AddressSpace.
