(* ===== verification/AddressSpaceInv.v ===== *)
(** The invariant of an address space: its page table translates exactly the pages
    of its ledger, and the machine's pages are divided between the free list, the
    heap, the page table, the ledger and everybody else. *)
From S2P Require Import Prelude Machine Runtime PageAlloc Vm VmInv VmProps VmReclaim HeapSpec Ownership AddressSpace.

(** * The number of managed pages *)

Lemma total_walk level entries address create s :
  total_pages (walk_levels level entries address create s).2 = total_pages s.
Proof.
  revert entries s. induction level as [|level IH]; intros entries s; cbn [walk_levels]; [done|].
  case_if; [case_if; [done|]|case_if; [done|by rewrite IH]].
  pose proof (total_page_alloc s) as Ht. destruct (page_alloc s) as [p s1]. cbn [snd] in Ht.
  case_if; [done|]. by rewrite IH.
Qed.

Lemma total_vm_map t va pa flags s : total_pages (vm_map t va pa flags s).2 = total_pages s.
Proof.
  unfold vm_map. case_if; [done|].
  assert (total_pages (walk t va true s).2 = total_pages s) as Ht.
  { unfold walk. destruct t as [t|]; [|done]. case_if; [done|]. apply total_walk. }
  destruct (walk t va true s) as [e s1]. cbn [snd] in Ht. by case_if.
Qed.

Lemma total_free_empty l s : total_pages (free_empty l s) = total_pages s.
Proof.
  revert s. induction l as [|[e p] l IH]; intros s; cbn [free_empty]; [done|].
  case_if; [done|]. rewrite IH. cbn [total_pages write_entry set_mem]. apply total_page_free.
Qed.

Lemma total_vm_unmap t va s : total_pages (vm_unmap t va s).2 = total_pages s.
Proof.
  unfold vm_unmap. destruct t as [t|]; [|done]. cbv zeta. repeat (case_if; [done|]).
  unfold vm_flush_all. cbn [snd]. by rewrite total_free_empty.
Qed.

(** A loop of steps that keep the count keeps it. *)
Lemma total_fold (f : kstate → Z → kstate) l s :
  (∀ s i, total_pages (f s i) = total_pages s) → total_pages (fold_left f l s) = total_pages s.
Proof. intros Hf. revert s. induction l as [|i l IH]; intros s; simpl; [done|]. by rewrite IH. Qed.

Lemma total_prune_level level p s : total_pages (prune_level level p s).2 = total_pages s.
Proof.
  revert p s. induction level as [|level IH]; intros p s; cbn [prune_level snd]; [done|].
  apply total_fold. intros s1 i. cbv zeta. case_if; [|done].
  pose proof (IH (pte_physical (read_entry (slot (phys_to_virt p) i) s1)) s1) as Ht.
  destruct (prune_level _ _ _) as [b s2]. cbn [snd] in Ht. destruct b; [|done].
  cbn [total_pages write_entry set_mem]. by rewrite total_page_free.
Qed.

Lemma total_prune_user t s : total_pages (vm_prune_user t s) = total_pages s.
Proof.
  unfold vm_prune_user. case_if; [done|]. cbv zeta. unfold vm_flush_all.
  apply total_fold. intros s1 i. case_if; [|done].
  pose proof (total_prune_level 1 (pte_physical (read_entry (slot (root_pointer t) i) s1)) s1) as Ht.
  destruct (prune_level _ _ _) as [b s2]. cbn [snd] in Ht. destruct b; [|done].
  cbn [total_pages write_entry set_mem]. by rewrite total_page_free.
Qed.

Lemma total_destroy_level level p s : total_pages (destroy_level level p s) = total_pages s.
Proof.
  revert p s. induction level as [|level IH]; intros p s; cbn [destroy_level].
  - apply total_page_free.
  - rewrite total_page_free. apply total_fold. intros s1 i. cbv zeta. case_if; [apply IH|done].
Qed.

Lemma total_destroy_user t s : total_pages (vm_destroy_user t s).2 = total_pages s.
Proof.
  unfold vm_destroy_user. destruct t as [t|]; [|done]. case_if; [done|]. cbn [snd].
  rewrite total_page_free. apply total_fold. intros s1 i. cbv zeta.
  case_if; [apply total_destroy_level|done].
Qed.

Lemma total_create_user t kt s : total_pages (vm_create_user t kt s).2 = total_pages s.
Proof.
  unfold vm_create_user, vm_create. destruct kt as [kt|]; [|done]. case_if; [done|].
  destruct t as [t|]; [|done]. pose proof (total_page_alloc s) as Ht.
  destruct (page_alloc s) as [p s1]. cbn [snd] in Ht. by case_if.
Qed.

(** * The invariant *)

Lemma page_table_eta t : t = mk_page_table (root t).
Proof. by destruct t. Qed.

(** A page of the ledger with a hardware leaf. *)
Definition mapped (p : user_page) : bool := negb (Z.land (page_flags p) PTE_RX =? 0).

Record ledger_ok (p : user_page) : Prop := {
  lo_range : 0 <= virtual_address p < 2 ^ 38;
  lo_aligned : virtual_address p mod PAGE_SIZE = 0;
  lo_flags : in_u64 (page_flags p);
  lo_user : Z.land (page_flags p) PTE_U ≠ 0;
  lo_valid : mapped p = true → valid_leaf_flags (page_flags p) = true;
}.

(** The page [va] lies in. *)
Definition same_page (va : Z) (p : user_page) : Prop := va / PAGE_SIZE = virtual_address p / PAGE_SIZE.

#[export] Instance same_page_dec va p : Decision (same_page va p).
Proof. unfold same_page. apply _. Defined.

Lemma aligned_same a b :
  a mod PAGE_SIZE = 0 → b mod PAGE_SIZE = 0 → a / PAGE_SIZE = b / PAGE_SIZE → a = b.
Proof. intros. div_lia. Qed.

(** What the ledger says about [va]. *)
Definition ledger_entry (ps : list user_page) (va : Z) (x : option (Z * Z)) : Prop :=
  match x with
  | Some (pa, bits) => ∃ p, p ∈ ps ∧ mapped p = true ∧ same_page va p ∧
      pa = physical p + va mod PAGE_SIZE ∧ bits = leaf_bits (page_flags p)
  | None => ∀ p, p ∈ ps → mapped p = true → ¬ same_page va p
  end.

(** The second and the third part of a division change places. *)
Lemma app_gather {A} (x y v w : list A) : x ++ y ++ v ++ w ≡ₚ (x ++ v) ++ y ++ w.
Proof.
  rewrite <- app_assoc. apply Permutation_app_head.
  rewrite !app_assoc. apply Permutation_app_tail, Permutation_app_comm.
Qed.

Section Inv.
Context `{HeapContract}.

(** [O] are the pages of everybody else. *)
Record as_inv (U O : list Z) (s : kstate) (as_ : address_space) (N : gmap (list Z) Z)
    (F P : list Z) (L : gset Z) : Prop := {
  ai_heap : heap_ok U s F P L;
  ai_vm : vm_inv lower_half (root (table as_)) s N F;
  ai_pages : F ++ P ++ map_vals N ++ (physical <$> pages as_) ++ O ≡ₚ U;
  ai_nodup : NoDup U;
  ai_records : NoDup ((page_at <$> pages as_) ++ (area_at <$> areas as_));
  ai_live : ∀ o, o ∈ (page_at <$> pages as_) ++ (area_at <$> areas as_) → o ∈ L;
  ai_ledger : ∀ p, p ∈ pages as_ → ledger_ok p;
  ai_addresses : NoDup (virtual_address <$> pages as_);
  ai_query : ∀ va, 0 <= va < 2 ^ 38 →
    ledger_entry (pages as_) va (vm_query (Some (table as_)) va s);
}.

(** Translation of a user address, from the leaves. *)
Lemma query_user r s N l va :
  vm_inv lower_half r s N l → 0 <= va < 2 ^ 38 →
  vm_query (Some (mk_page_table r)) va s = decode_leaf (leaf_entry s N va) va.
Proof.
  intros Hv Hva. rewrite (vm_query_leaf lower_half s r N va (vi_pt _ _ _ _ _ Hv)).
  - by rewrite canonical_user.
  - by apply vpn_index_user.
Qed.

(** A table whose own pages are untouched is intact. *)
Lemma pt_rep_same own s s' r N :
  (∀ p, p ∈ map_vals N → same_on (in_page p) (mem s) (mem s')) → pt_rep own s r N →
  pt_rep own s' r N ∧ ∀ va, leaf_entry s' N va = leaf_entry s N va.
Proof.
  intros Hm Hr.
  assert (∀ π p i, N !! π = Some p → 0 <= i < 512 → entry_of s' p i = entry_of s p i) as He.
  { intros π p i Hp Hi. apply entry_of_frame; [by eapply pt_pages|done|].
    apply Hm, elem_of_map_vals. eauto. }
  split; [apply (pt_rep_frame own s); eauto|].
  intros va. unfold leaf_entry. destruct (N !! path2 va) as [q|] eqn:E; [|done].
  apply (He (path2 va)); [done|]. apply vpn_index_range. lia.
Qed.

(** Every owner's pages are known pages, and nobody shares a page. *)
Lemma as_page_ok U O s as_ N F P L p :
  as_inv U O s as_ N F P L → p ∈ U → page_ok p.
Proof. intros Hi. by apply (heap_ok_page _ _ _ _ _ _ (ai_heap _ _ _ _ _ _ _ _ Hi)). Qed.

Lemma as_disjoint U O s as_ N F P L p q a :
  as_inv U O s as_ N F P L → p ∈ U → q ∈ U → in_page p a → in_page q a → p = q.
Proof. intros Hi Hp Hq. apply in_page_disjoint; by eapply as_page_ok. Qed.

(** The free and heap pages against the rest. *)
Lemma as_owned_outside U O s as_ N F P L p a :
  as_inv U O s as_ N F P L → p ∈ map_vals N ++ (physical <$> pages as_) ++ O → in_page p a →
  outside (F ++ P) a ∧ ¬ heap_static a.
Proof.
  intros Hi Hp Ha. pose proof (ai_pages _ _ _ _ _ _ _ _ Hi) as Hperm.
  pose proof (ai_nodup _ _ _ _ _ _ _ _ Hi) as Hnd. rewrite <- Hperm, app_assoc in Hnd.
  assert (∀ q, q ∈ (F ++ P) ++ map_vals N ++ (physical <$> pages as_) ++ O → q ∈ U) as HU.
  { intros q. by rewrite <- app_assoc, Hperm. }
  assert (p ∈ U) as HpU by (apply HU, elem_of_app; by right). split.
  - intros q Hq Hqa. apply NoDup_app in Hnd as (_ & Hd & _). apply (Hd q Hq).
    assert (q = p) as ->; [|done]. eapply as_disjoint; eauto. apply HU, elem_of_app. by left.
  - intros Hs. by eapply (heap_ok_static _ _ _ _ _ p a (ai_heap _ _ _ _ _ _ _ _ Hi)).
Qed.

(** The address space is intact when its table's pages are. *)
Lemma as_inv_intro U O s s' as_ N F P L F' P' L' O' :
  as_inv U O s as_ N F P L → heap_ok U s' F' P' L' →
  F' ++ P' ++ O' ≡ₚ F ++ P ++ O →
  (∀ p, p ∈ map_vals N → same_on (in_page p) (mem s) (mem s')) →
  (∀ o, o ∈ (page_at <$> pages as_) ++ (area_at <$> areas as_) → o ∈ L → o ∈ L') →
  as_inv U O' s' as_ N F' P' L'.
Proof.
  intros [I1 I2 I3 I4 I5 I6 I7 I8 I9] Hh Hp Hm HL.
  destruct (pt_rep_same lower_half s s' _ N Hm (vi_pt _ _ _ _ _ I2)) as [Hr Hleaf].
  assert (F' ++ P' ++ map_vals N ++ (physical <$> pages as_) ++ O' ≡ₚ U) as HU.
  { rewrite <- I3. rewrite !(app_assoc _ _ O'), !(app_assoc _ _ O).
    rewrite !(Permutation_app_comm _ O'), !(Permutation_app_comm _ O).
    rewrite !(app_assoc O' F'), !(app_assoc O F), !(app_assoc (O' ++ F')), !(app_assoc (O ++ F)).
    apply Permutation_app_tail. rewrite <- !app_assoc.
    by rewrite (Permutation_app_comm O'), (Permutation_app_comm O), <- !app_assoc. }
  assert (vm_inv lower_half (root (table as_)) s' N F') as Hv.
  { split; [by eapply heap_ok_free|done|]. intros p Hpf Hpn. rewrite <- HU in I4.
    apply NoDup_app in I4 as (_ & Hd & _). apply (Hd p Hpf).
    rewrite !elem_of_app. tauto. }
  split; try done.
  - intros o Ho. by apply HL, I6.
  - intros va Hva. rewrite (page_table_eta (table as_)), (query_user _ s' N F' va Hv Hva), Hleaf.
    rewrite <- (query_user _ s N F va I2 Hva), <- page_table_eta. by apply I9.
Qed.

(** ** Steps of the allocators *)

Lemma region_outside U O s as_ N F P L a :
  as_inv U O s as_ N F P L → region U (map_vals N ++ (physical <$> pages as_) ++ O) a →
  outside (F ++ P) a ∧ ¬ heap_static a.
Proof.
  intros Hi [(p & Hp & Ha)|[Ho Hs]]; [by eapply as_owned_outside|]. split; [|done].
  intros p Hp. apply Ho. eapply heap_ok_sub; [|exact Hp]. by apply Hi.
Qed.

(** All the pages of the address space and of the others. *)
Definition owned (as_ : address_space) (O : list Z) : list Z := (physical <$> pages as_) ++ O.

Lemma as_kmalloc U O s as_ N F P L n :
  as_inv U O s as_ N F P L → 0 <= n →
  ∃ o s' F' P', kmalloc n s = (o, s') ∧
    as_inv U O s' as_ N F' P' (if o =? 0 then L else {[o]} ∪ L) ∧ (o ≠ 0 → o ∉ L) ∧
    kept U (owned as_ O) (mem s) (mem s').
Proof.
  intros Hi Hn. destruct (kmalloc_ok U s F P L n (ai_heap _ _ _ _ _ _ _ _ Hi) Hn)
    as (o & s' & F' & P' & E & Hh & Hfresh & Hperm & _ & Hm).
  exists o, s', F', P'. split; [done|].
  assert (kept U (map_vals N ++ owned as_ O) (mem s) (mem s')) as Hk.
  { intros a Ha. apply Hm. by eapply region_outside. }
  split; [|split; [done|]].
  2:{ eapply kept_sub; [|exact Hk]. intros p Hp. apply elem_of_app. by right. }
  apply (as_inv_intro U O s s' as_ N F P L); try done.
  - by rewrite !app_assoc, Hperm.
  - intros p Hp a Ha. apply Hk. left. exists p. rewrite elem_of_app. auto.
  - intros x _ Hx. case_if; [done|]. apply elem_of_union. by right.
Qed.

(** A record that is not the address space's. *)
Lemma as_kfree U O s as_ N F P L o :
  as_inv U O s as_ N F P L → o ∈ L →
  o ∉ (page_at <$> pages as_) ++ (area_at <$> areas as_) →
  ∃ F' P', as_inv U O (kfree o s) as_ N F' P' (L ∖ {[o]}) ∧
    kept U (owned as_ O) (mem s) (mem (kfree o s)).
Proof.
  intros Hi Ho Hn. destruct (kfree_ok U s F P L o (ai_heap _ _ _ _ _ _ _ _ Hi) Ho)
    as (F' & P' & Hh & Hperm & _ & Hm).
  exists F', P'.
  assert (kept U (map_vals N ++ owned as_ O) (mem s) (mem (kfree o s))) as Hk.
  { intros a Ha. apply Hm. by eapply region_outside. }
  split.
  2:{ eapply kept_sub; [|exact Hk]. intros p Hp. apply elem_of_app. by right. }
  apply (as_inv_intro U O s _ as_ N F P L); try done.
  - by rewrite !app_assoc, Hperm.
  - intros p Hp a Ha. apply Hk. left. exists p. rewrite elem_of_app. auto.
  - intros x Hx HxL. apply elem_of_difference. split; [done|]. rewrite elem_of_singleton.
    by intros ->.
Qed.

Lemma as_nodup U O s as_ N F P L :
  as_inv U O s as_ N F P L → NoDup (F ++ P ++ map_vals N ++ (physical <$> pages as_) ++ O).
Proof. intros Hi. rewrite (ai_pages _ _ _ _ _ _ _ _ Hi). apply Hi. Qed.

(** Writing only into pages that are nobody's or the ledger's. *)
Lemma as_write U O s s' as_ N F P L :
  as_inv U O s as_ N F P L → free_list s' = free_list s → free_pages s' = free_pages s →
  total_pages s' = total_pages s →
  same_on (λ a, heap_static a ∨ ∃ p, p ∈ F ++ P ++ map_vals N ∧ in_page p a) (mem s) (mem s') →
  as_inv U O s' as_ N F P L.
Proof.
  intros Hi E1 E2 E3 Hm. apply (as_inv_intro U O s s' as_ N F P L); try done.
  - pose proof (ai_heap _ _ _ _ _ _ _ _ Hi) as Hh. apply (heap_ok_transfer U s F P L s' F); try done.
    + apply (free_rep_frame s); try done; [|by eapply heap_ok_free].
      intros p Hp a Ha. apply Hm. right. exists p. rewrite !elem_of_app. tauto.
    + by eapply heap_ok_nodup.
    + intros p Hp. eapply heap_ok_sub; [exact Hh|]. apply elem_of_app. by left.
    + intros a [Ha|(p & Hp & Ha)]; apply Hm; [by left|right; exists p].
      rewrite !elem_of_app. tauto.
  - intros p Hp a Ha. apply Hm. right. exists p. rewrite !elem_of_app. tauto.
Qed.

(** Taking a page: until it has an owner it is counted with the others'. *)
Lemma as_page_alloc U O s as_ N F P L :
  as_inv U O s as_ N F P L →
  ∃ p s', page_alloc s = (p, s') ∧ mem s' = mem s ∧
    ((p = 0 ∧ s' = s) ∨
     (∃ F', page_ok p ∧ as_inv U (p :: O) s' as_ N F' P L)).
Proof.
  intros Hi. pose proof (ai_heap _ _ _ _ _ _ _ _ Hi) as Hh.
  destruct (page_alloc_spec s F (heap_ok_free _ _ _ _ _ Hh))
    as (p & s' & E & Hm & [(-> & -> & ->)|(F' & -> & Hp & _ & Hf)]).
  { exists 0, s. split; [done|]. split; [done|]. by left. }
  pose proof (total_page_alloc s) as Ht. rewrite E in Ht. cbn [snd] in Ht.
  exists p, s'. split; [done|]. split; [done|]. right. exists F'. split; [done|].
  apply (as_inv_intro U O s s' as_ N (p :: F') P L); try done.
  - apply (heap_ok_transfer U s (p :: F') P L s' F'); try done.
    + pose proof (heap_ok_nodup _ _ _ _ _ Hh) as Hd. by apply NoDup_cons in Hd as [_ Hd].
    + intros q Hq. eapply heap_ok_sub; [exact Hh|]. right. apply elem_of_app. by left.
    + intros a _. by rewrite Hm.
  - rewrite !app_assoc. rewrite (Permutation_app_comm (F' ++ P)). cbn.
    by rewrite (Permutation_app_comm O).
  - intros q _ a _. by rewrite Hm.
Qed.

(** Giving back a page that is counted with the others'. *)
Lemma as_page_free U O s as_ N F P L p :
  as_inv U (p :: O) s as_ N F P L →
  as_inv U O (page_free p s) as_ N (p :: F) P L ∧
  kept U (owned as_ O) (mem s) (mem (page_free p s)).
Proof.
  intros Hi. pose proof (ai_heap _ _ _ _ _ _ _ _ Hi) as Hh. pose proof (as_nodup _ _ _ _ _ _ _ _ Hi) as Hnd.
  pose proof (ai_pages _ _ _ _ _ _ _ _ Hi) as Hperm.
  assert (p ∈ U) as HpU by (rewrite <- Hperm, !elem_of_app, elem_of_cons; tauto).
  pose proof (as_page_ok _ _ _ _ _ _ _ _ _ Hi HpU) as Hok.
  assert (p ∉ F ++ P ++ map_vals N ++ owned as_ O) as Hnew.
  { unfold owned. rewrite !app_assoc in *. rewrite (Permutation_app_comm _ (p :: O)) in Hnd.
    cbn in Hnd. apply NoDup_cons in Hnd as [Hn _]. intros Hin. apply Hn.
    rewrite !elem_of_app in *. tauto. }
  assert (kept U (F ++ P ++ map_vals N ++ owned as_ O) (mem s) (mem (page_free p s))) as Hk.
  { apply page_free_frame; [done|]. intros a [(q & Hq & Ha)|[Ha _]] Hpa; [|by apply (Ha p)].
    apply Hnew. assert (q = p) as <-; [|done]. eapply as_disjoint; eauto. rewrite <- Hperm.
    unfold owned in Hq. rewrite !elem_of_app, elem_of_cons in *. tauto. }
  split.
  2:{ eapply kept_sub; [|exact Hk]. intros q Hq. rewrite !elem_of_app. tauto. }
  apply (as_inv_intro U (p :: O) s _ as_ N F P L); try done.
  - apply (heap_ok_transfer U s F P L _ (p :: F)); try done.
    + apply page_free_rep; [by eapply heap_ok_free|done|]. rewrite !not_elem_of_app in Hnew. tauto.
    + cbn. constructor; [rewrite !not_elem_of_app in *; tauto|by eapply heap_ok_nodup].
    + intros q [->|Hq]%elem_of_cons; [done|]. eapply heap_ok_sub; [exact Hh|]. apply elem_of_app. by left.
    + apply total_page_free.
    + intros a [Ha|(q & Hq & Ha)].
      * assert (¬ in_page p a) as Hna by (by eapply (heap_ok_static U)).
        exact (page_free_frame s p (λ b, b = a) Hok ltac:(by intros b ->) a eq_refl).
      * apply Hk. left. exists q. rewrite !elem_of_app. tauto.
  - rewrite !app_assoc. cbn. by rewrite (Permutation_middle (F ++ P) O p).
  - intros q Hq a Ha. apply Hk. left. exists q. rewrite !elem_of_app. tauto.
Qed.

(** ** Steps of the page table *)

(** What any change of the table alone keeps. *)
Lemma as_table_step U O s s' as_ N F P L N' F' :
  as_inv U O s as_ N F P L → vm_inv lower_half (root (table as_)) s' N' F' →
  F ++ map_vals N ≡ₚ F' ++ map_vals N' → total_pages s' = total_pages s →
  same_on (outside (F ++ map_vals N)) (mem s) (mem s') →
  heap_ok U s' F' P L ∧
  F' ++ P ++ map_vals N' ++ (physical <$> pages as_) ++ O ≡ₚ U ∧
  kept U (owned as_ O) (mem s) (mem s').
Proof.
  intros Hi Hv Hperm Ht Hm. pose proof (ai_heap _ _ _ _ _ _ _ _ Hi) as Hh.
  pose proof (as_nodup _ _ _ _ _ _ _ _ Hi) as Hnd. pose proof (ai_pages _ _ _ _ _ _ _ _ Hi) as HU.
  rewrite app_gather in Hnd, HU.
  assert (F' ++ P ++ map_vals N' ++ (physical <$> pages as_) ++ O ≡ₚ U) as HU'.
  { by rewrite app_gather, <- Hperm. }
  assert (∀ p, p ∈ F ++ map_vals N → p ∈ U) as Hsub.
  { intros p Hp. rewrite <- HU, elem_of_app. by left. }
  assert (kept U (P ++ owned as_ O) (mem s) (mem s')) as Hk.
  { intros a Ha. apply Hm. intros p Hp Hpa. destruct Ha as [(q & Hq & Ha)|[Ha _]]; [|by eapply Ha; eauto].
    apply NoDup_app in Hnd as (_ & Hd & _). apply (Hd p Hp).
    assert (p = q) as ->; [|done]. eapply as_disjoint; [exact Hi| | |exact Hpa|exact Ha]; [auto|].
    rewrite <- HU, elem_of_app. by right. }
  split; [|split; [done|]].
  2:{ eapply kept_sub; [|exact Hk]. intros q Hq. apply elem_of_app. by right. }
  assert (NoDup U) as HndU by apply Hi.
  apply (heap_ok_transfer U s F P L s' F'); try done.
  - apply Hv.
  - rewrite <- HU', app_assoc in HndU. by apply NoDup_app in HndU as [? _].
  - intros p Hp. rewrite <- HU', elem_of_app. by left.
  - intros a [Ha|(q & Hq & Ha)].
    + apply Hm. intros p Hp. eapply (heap_ok_static U); [exact Hh| |done].
      rewrite <- HU, elem_of_app. by left.
    + apply Hk. left. exists q. rewrite elem_of_app. auto.
Qed.

(** Growing or pruning the table without changing a translation. *)
Lemma as_same_leaves U O s s' as_ N F P L N' F' :
  as_inv U O s as_ N F P L → vm_inv lower_half (root (table as_)) s' N' F' →
  F ++ map_vals N ≡ₚ F' ++ map_vals N' → total_pages s' = total_pages s →
  same_on (outside (F ++ map_vals N)) (mem s) (mem s') →
  (∀ va, leaf_equiv (leaf_entry s' N' va) (leaf_entry s N va)) →
  as_inv U O s' as_ N' F' P L ∧ kept U (owned as_ O) (mem s) (mem s').
Proof.
  intros Hi Hv Hperm Ht Hm Hleaf.
  destruct (as_table_step U O s s' as_ N F P L N' F' Hi Hv Hperm Ht Hm) as (Hh & HU & Hk).
  split; [|done]. destruct Hi as [I1 I2 I3 I4 I5 I6 I7 I8 I9]. split; try done.
  intros va Hva. rewrite (page_table_eta (table as_)), (query_user _ s' N' F' va Hv Hva).
  rewrite (decode_leaf_equiv _ _ va (Hleaf va)).
  rewrite <- (query_user _ s N F va I2 Hva), <- page_table_eta. by apply I9.
Qed.

Lemma as_prune U O s as_ N F P L :
  as_inv U O s as_ N F P L →
  ∃ N' F', as_inv U O (vm_prune_user (table as_) s) as_ N' F' P L ∧
    kept U (owned as_ O) (mem s) (mem (vm_prune_user (table as_) s)).
Proof.
  intros Hi. destruct (vm_prune_user_spec _ s N F (ai_vm _ _ _ _ _ _ _ _ Hi))
    as (N' & F' & [[Hv Hp Hl Hm] _ _ _]). exists N', F'. rewrite <- page_table_eta in *.
  apply (as_same_leaves U O s _ as_ N F P L); try done. apply total_prune_user.
Qed.

Definition add_page (p : user_page) (as_ : address_space) : address_space :=
  set_pages (pages as_ ++ [p]) as_.

(** The ledger with one more page, given what the table says of it. *)
Lemma ledger_add ps p va x y :
  (∀ q, q ∈ ps → mapped q = true → ¬ (same_page va q ∧ same_page va p)) →
  ledger_entry ps va x →
  y = (if decide (mapped p = true ∧ same_page va p)
       then Some (physical p + va mod PAGE_SIZE, leaf_bits (page_flags p)) else x) →
  ledger_entry (ps ++ [p]) va y.
Proof.
  intros Hd Hx ->. case_decide as E.
  - exists p. destruct E. rewrite elem_of_app, list_elem_of_singleton. auto.
  - destruct x as [[pa bits]|]; cbn in *.
    + destruct Hx as (q & Hq & Hrest). exists q. rewrite elem_of_app. auto.
    + intros q [Hq| ->%list_elem_of_singleton]%elem_of_app Hmq Hs; [by apply (Hx q)|]. by apply E.
Qed.

(** The page [p], so far with the others, becomes the ledger's. *)
Lemma as_add U O s s' as_ N F P L N' F' p :
  as_inv U (physical p :: O) s as_ N F P L → heap_ok U s' F' P L →
  vm_inv lower_half (root (table as_)) s' N' F' → F ++ map_vals N ≡ₚ F' ++ map_vals N' →
  ledger_ok p → page_at p ∈ L → page_at p ∉ (page_at <$> pages as_) ++ (area_at <$> areas as_) →
  virtual_address p ∉ virtual_address <$> pages as_ →
  (∀ va, 0 <= va < 2 ^ 38 → vm_query (Some (table as_)) va s'
    = if decide (mapped p = true ∧ same_page va p)
      then Some (physical p + va mod PAGE_SIZE, leaf_bits (page_flags p))
      else vm_query (Some (table as_)) va s) →
  as_inv U O s' (add_page p as_) N' F' P L.
Proof.
  intros [I1 I2 I3 I4 I5 I6 I7 I8 I9] Hh Hv Hperm Hp HL Hrec Hva Hq.
  split; try done; cbn [pages areas table add_page set_pages].
  - rewrite <- I3, fmap_app, <- (app_assoc _ _ O). cbn [app fmap list_fmap].
    by rewrite (app_gather F'), (app_gather F), Hperm.
  - rewrite fmap_app. cbn. rewrite <- app_assoc. cbn. rewrite <- Permutation_middle.
    by constructor.
  - intros o. rewrite fmap_app, !elem_of_app. cbn. rewrite list_elem_of_singleton.
    intros [[Ho| ->]|Ho]; [apply I6, elem_of_app; by left|done|apply I6, elem_of_app; by right].
  - intros q [Hq'| ->%list_elem_of_singleton]%elem_of_app; [by apply I7|done].
  - rewrite fmap_app. cbn. rewrite (Permutation_app_comm _ [_]). by constructor.
  - intros va Hva'. eapply ledger_add; [|by apply I9|by apply Hq].
    intros q Hqq _ [E1 E2]. apply Hva. unfold same_page in *.
    assert (virtual_address p = virtual_address q) as ->.
    { pose proof (lo_aligned _ Hp). pose proof (lo_aligned _ (I7 _ Hqq)).
      apply aligned_same; [done..|congruence]. }
    by apply list_elem_of_fmap_2.
Qed.
End Inv.
