(* ===== verification/AddressSpaceProps.v ===== *)
(** The operations of [src/mm/address_space.c] that move pages: what each does to
    the invariant of [AddressSpaceInv] and to the bytes of the owned pages. *)
From S2P Require Import Prelude Machine Runtime PageAlloc Vm VmInv VmProps VmReclaim VmKernel HeapSpec Ownership AddressSpace AddressSpaceInv.

Lemma same_vpn_page va p :
  0 <= va < 2 ^ 38 → 0 <= virtual_address p < 2 ^ 38 →
  same_vpn (virtual_address p) va ↔ same_page va p.
Proof.
  intros H1 H2. unfold same_page. pose proof (same_vpn_user _ _ H2 H1) as H. rewrite H.
  split; intros E; by rewrite E.
Qed.

Lemma page_ok_range p : page_ok p → 0 <= p < 2 ^ 56 ∧ p mod 4096 = 0.
Proof. intros [H1 H2]. split; lia. Qed.

(** ** The division of the pages, without an address space *)

Section Division.
Context `{HeapContract}.

Lemma bare_of_as U O s as_ N F P L :
  as_inv U O s as_ N F P L → bare U s F P L (map_vals N ++ owned as_ O).
Proof. intros Hi. split; apply Hi. Qed.

Lemma free_areas_of_spec U Q l s F P L :
  bare U s F P L Q → NoDup (area_at <$> l) → (∀ o, o ∈ area_at <$> l → o ∈ L) →
  ∃ F' P', bare U (free_areas_of l s) F' P' (L ∖ list_to_set (area_at <$> l)) Q ∧
    kept U Q (mem s) (mem (free_areas_of l s)).
Proof.
  revert s F P L. induction l as [|x l IH]; intros s F P L Hb Hnd HL; cbn [free_areas_of].
  { exists F, P. split; [|apply kept_refl]. cbn. by rewrite difference_empty_L. }
  cbn [fmap list_fmap] in *. apply NoDup_cons in Hnd as [Hx Hnd].
  destruct (bare_kfree _ _ _ _ _ _ (area_at x) Hb) as (F1 & P1 & Hb1 & Hk1); [apply HL; by left|].
  destruct (IH _ _ _ _ Hb1 Hnd) as (F2 & P2 & Hb2 & Hk2).
  { intros o Ho. apply elem_of_difference. split; [apply HL; by right|]. set_solver. }
  exists F2, P2. split; [|by eapply kept_trans].
  by rewrite list_to_set_cons, <- difference_difference_l_L.
Qed.

Lemma free_pages_of_spec U Q ps s F P L :
  bare U s F P L ((physical <$> ps) ++ Q) → NoDup (page_at <$> ps) →
  (∀ o, o ∈ page_at <$> ps → o ∈ L) →
  ∃ F' P', bare U (free_pages_of ps s) F' P' (L ∖ list_to_set (page_at <$> ps)) Q ∧
    kept U Q (mem s) (mem (free_pages_of ps s)).
Proof.
  revert s F P L. induction ps as [|x l IH]; intros s F P L Hb Hnd HL; cbn [free_pages_of].
  { exists F, P. split; [|apply kept_refl]. cbn. by rewrite difference_empty_L. }
  cbn [fmap list_fmap app] in *. apply NoDup_cons in Hnd as [Hx Hnd].
  destruct (bare_page_free _ _ _ _ _ _ _ Hb) as [Hb0 Hk0].
  destruct (bare_kfree _ _ _ _ _ _ (page_at x) Hb0) as (F1 & P1 & Hb1 & Hk1); [apply HL; by left|].
  destruct (IH _ _ _ _ Hb1 Hnd) as (F2 & P2 & Hb2 & Hk2).
  { intros o Ho. apply elem_of_difference. split; [apply HL; by right|]. set_solver. }
  exists F2, P2. split; [by rewrite list_to_set_cons, <- difference_difference_l_L|].
  eapply kept_trans; [|exact Hk2]. eapply kept_sub; [|exact (kept_trans _ _ _ _ _ Hk0 Hk1)].
  intros p Hp. apply elem_of_app. by right.
Qed.
End Division.

Section Pages.
Context `{HeapContract}.

(** ** Mapping *)

Lemma as_map U O s as_ N F P L p :
  as_inv U (physical p :: O) s as_ N F P L →
  0 <= virtual_address p < 2 ^ 38 → virtual_address p mod PAGE_SIZE = 0 →
  in_u64 (page_flags p) → Z.land (page_flags p) PTE_U ≠ 0 → mapped p = true →
  page_at p ∈ L → page_at p ∉ (page_at <$> pages as_) ++ (area_at <$> areas as_) →
  virtual_address p ∉ virtual_address <$> pages as_ →
  ∃ ok s' N' F',
    vm_map (Some (table as_)) (virtual_address p) (physical p) (page_flags p) s = (ok, s') ∧
    kept U (owned as_ (physical p :: O)) (mem s) (mem s') ∧
    if ok then as_inv U O s' (add_page p as_) N' F' P L
    else as_inv U (physical p :: O) s' as_ N' F' P L.
Proof.
  intros Hi Hva Ha Hf Hu Hmp HL Hrec Hnew. pose proof (ai_vm _ _ _ _ _ _ _ _ Hi) as Hv.
  assert (page_ok (physical p)) as Hpp.
  { eapply as_page_ok; [exact Hi|]. rewrite <- (ai_pages _ _ _ _ _ _ _ _ Hi), !elem_of_app, elem_of_cons. tauto. }
  destruct (page_ok_range _ Hpp) as [Hpr Hpa].
  destruct (valid_leaf_flags (page_flags p)) eqn:Efl.
  2:{ exists false, s, N, F. split; [|by split; [apply kept_refl|]].
      apply vm_map_bad_args. intros (_ & _ & Efl'). by rewrite Efl in Efl'. }
  destruct (vm_map_spec lower_half (root (table as_)) s N F (virtual_address p) (physical p)
    (page_flags p)) as (ok & s' & N' & F' & E & Hv' & Hperm & Hm & Hno & Hok); try done.
  { by apply vpn_index_user. } { by apply canonical_user. }
  rewrite <- page_table_eta in E.
  assert (total_pages s' = total_pages s) as Ht.
  { pose proof (total_vm_map (Some (table as_)) (virtual_address p) (physical p) (page_flags p) s) as Ht.
    by rewrite E in Ht. }
  exists ok, s', N', F'. split; [done|]. destruct ok.
  - destruct (as_table_step _ _ _ _ _ _ _ _ _ _ _ Hi Hv' Hperm Ht Hm) as (Hh & _ & Hk).
    split; [done|]. destruct (Hok eq_refl) as [_ Hleaf].
    apply (as_add U O s s' as_ N F P L); try done.
    intros va Hvar. rewrite (page_table_eta (table as_)).
    rewrite (query_user _ s' N' F' va Hv' Hvar), (query_user _ s N F va Hv Hvar), Hleaf.
    pose proof (same_vpn_page va p Hvar Hva) as Hs.
    destruct (decide (same_vpn (virtual_address p) va)) as [Hsv|Hsv]; case_decide as Hd; try tauto.
    by apply decode_leaf_pte.
  - destruct (Hno eq_refl) as [Hleaf _].
    destruct (as_same_leaves _ _ _ _ _ _ _ _ _ _ _ Hi Hv' Hperm Ht Hm) as [Hi' Hk]; [|done].
    intros va. left. by rewrite Hleaf.
Qed.

(** A page that is not mapped only enters the ledger. *)
Lemma as_reserve_page U O s as_ N F P L p :
  as_inv U (physical p :: O) s as_ N F P L → ledger_ok p → mapped p = false →
  page_at p ∈ L → page_at p ∉ (page_at <$> pages as_) ++ (area_at <$> areas as_) →
  virtual_address p ∉ virtual_address <$> pages as_ →
  as_inv U O s (add_page p as_) N F P L.
Proof.
  intros Hi Hl Hm HL Hrec Hnew. apply (as_add U O s s as_ N F P L); try done.
  - by apply Hi.
  - by apply Hi.
  - intros va _. rewrite decide_False by (rewrite Hm; by intros [? _]). done.
Qed.
(** ** Filling a page *)

(** A page with the others shares no byte with the rest of the region. *)
Lemma region_not_page U O s as_ N F P L p a :
  as_inv U (p :: O) s as_ N F P L → region U (owned as_ O) a → ¬ in_page p a.
Proof.
  intros Hi Ha Hp. pose proof (as_nodup _ _ _ _ _ _ _ _ Hi) as Hnd.
  pose proof (ai_pages _ _ _ _ _ _ _ _ Hi) as HU.
  assert (p ∈ U) as HpU by (rewrite <- HU, !elem_of_app, elem_of_cons; tauto).
  destruct Ha as [(q & Hq & Ha)|[Ha _]]; [|by apply (Ha p)].
  assert (q ∈ U) as HqU.
  { unfold owned in Hq. rewrite <- HU. rewrite !elem_of_app, elem_of_cons in *. tauto. }
  pose proof (as_disjoint _ _ _ _ _ _ _ _ _ _ _ Hi HqU HpU Ha Hp) as ->.
  rewrite !app_assoc, (Permutation_app_comm _ (p :: O)) in Hnd. cbn in Hnd.
  apply NoDup_cons in Hnd as [Hn _]. apply Hn. unfold owned in Hq.
  rewrite !elem_of_app in *. tauto.
Qed.

(** Writing only into a page that is with the others. *)
Lemma as_fill U O s s' as_ N F P L p :
  as_inv U (p :: O) s as_ N F P L → free_list s' = free_list s → free_pages s' = free_pages s →
  total_pages s' = total_pages s → same_on (λ a, ¬ in_page p a) (mem s) (mem s') →
  as_inv U (p :: O) s' as_ N F P L ∧ kept U (owned as_ O) (mem s) (mem s').
Proof.
  intros Hi E1 E2 E3 Hm. split.
  - apply (as_write U _ s); try done. intros a Ha. apply Hm. intros Hp.
    pose proof (as_nodup _ _ _ _ _ _ _ _ Hi) as Hnd. pose proof (ai_pages _ _ _ _ _ _ _ _ Hi) as HU.
    assert (p ∈ U) as HpU by (rewrite <- HU, !elem_of_app, elem_of_cons; tauto).
    destruct Ha as [Ha|(q & Hq & Ha)].
    { by eapply (heap_ok_static U _ _ _ _ p a (ai_heap _ _ _ _ _ _ _ _ Hi)). }
    assert (q ∈ U) as HqU by (rewrite <- HU; rewrite !elem_of_app in *; tauto).
    pose proof (as_disjoint _ _ _ _ _ _ _ _ _ _ _ Hi HqU HpU Ha Hp) as ->.
    rewrite !app_assoc, (Permutation_app_comm _ (p :: O)) in Hnd. cbn in Hnd.
    apply NoDup_cons in Hnd as [Hn _]. apply Hn. rewrite !elem_of_app in *. tauto.
  - intros a Ha. apply Hm. by eapply region_not_page.
Qed.

(** The bytes of a fresh page: a copy of [data], then zeros. *)
Definition filled (m m' : memory) (p data size : Z) : Prop :=
  ∀ i, 0 <= i < PAGE_SIZE →
    load8 m' (phys_to_virt p + i) = if i <? size then load8 m (data + i) else 0.

Definition fill_page (p data size : Z) (s : kstate) : kstate :=
  let m := zero_page p s in
  if negb (size =? 0)
  then set_mem (memcpy (mem m) (phys_to_virt p) data (Z.to_nat size)) m else m.

Lemma fill_page_spec U O s as_ N F P L p data size :
  as_inv U (p :: O) s as_ N F P L → 0 <= size <= PAGE_SIZE →
  (∀ i, 0 <= i < size → region U (owned as_ O) (data + i)) →
  as_inv U (p :: O) (fill_page p data size s) as_ N F P L ∧
  kept U (owned as_ O) (mem s) (mem (fill_page p data size s)) ∧
  filled (mem s) (mem (fill_page p data size s)) p data size.
Proof.
  intros Hi Hsz Hd.
  assert (∀ i, 0 <= i < size → ¬ in_page p (data + i)) as Hnp.
  { intros i Hr. eapply region_not_page; [exact Hi|by apply Hd]. }
  assert (same_on (λ a, ¬ in_page p a) (mem s) (mem (zero_page p s))) as Hz by by apply zero_page_frame.
  assert (∀ a, load8 (mem (fill_page p data size s)) a
    = if decide (phys_to_virt p <= a < phys_to_virt p + size) then load8 (mem s) (data + (a - phys_to_virt p))
      else load8 (mem (zero_page p s)) a) as Hb.
  { intros a. unfold fill_page. cbv zeta. destruct (Z.eqb_spec size 0) as [->|Hnz]; cbn [negb].
    { by rewrite decide_False by lia. }
    cbn [mem set_mem]. rewrite memcpy_load8.
    - rewrite Z2Nat.id by lia. case_decide; [|done]. apply Hz, Hnp. lia.
    - rewrite Z2Nat.id by lia. destruct (decide (phys_to_virt p <= data)); [by left|right].
      destruct (decide (data + size <= phys_to_virt p)); [done|]. exfalso.
      apply (Hnp (phys_to_virt p - data)); [lia|]. unfold in_page. lia. }
  assert (same_on (λ a, ¬ in_page p a) (mem s) (mem (fill_page p data size s))) as Hm.
  { intros a Ha. rewrite Hb, decide_False; [by apply Hz|]. unfold in_page in Ha. lia. }
  destruct (as_fill U O s (fill_page p data size s) as_ N F P L p Hi) as [Hi' Hk]; try done.
  1-3: by unfold fill_page; cbv zeta; case_if.
  split; [done|]. split; [done|]. intros i Hr. rewrite Hb.
  destruct (Z.ltb_spec i size); case_decide; try lia; [f_equal; lia|].
  unfold zero_page. cbn [mem set_mem]. rewrite memset_load8, decide_True by lia. done.
Qed.
(** A record that was allocated before goes back, and then nothing is lost. *)
Lemma as_undo U O s as_ N F P L o :
  as_inv U O s as_ N F P ({[o]} ∪ L) → o ∉ L →
  (∀ x, x ∈ (page_at <$> pages as_) ++ (area_at <$> areas as_) → x ∈ L) →
  ∃ F' P', as_inv U O (kfree o s) as_ N F' P' L ∧ kept U (owned as_ O) (mem s) (mem (kfree o s)).
Proof.
  intros Hi Ho Hsub. destruct (as_kfree U O s as_ N F P _ o Hi) as (F' & P' & Hi' & Hk).
  { set_solver. } { intros Hin. by apply Ho, Hsub. }
  exists F', P'. split; [|done]. by replace L with (({[o]} ∪ L) ∖ {[o]}) by set_solver.
Qed.

(** The guard of [address_space_add_page]. *)
Definition addable (address flags data size : Z) : bool :=
  negb ((address >=? USER_END) || negb (Z.land address PAGE_MASK =? 0)
    || (Z.land flags PTE_U =? 0) || (size >? PAGE_SIZE) || (negb (size =? 0) && (data =? 0))).

Lemma addable_true address flags data size :
  addable address flags data size = true →
  address < 2 ^ 38 ∧ address mod PAGE_SIZE = 0 ∧ Z.land flags PTE_U ≠ 0 ∧ size <= PAGE_SIZE.
Proof.
  unfold addable. rewrite !negb_orb, !negb_involutive, !andb_true_iff, land_page_mask.
  change (2 ^ 38) with USER_END. rewrite !negb_true_iff, Z.geb_leb, Z.gtb_ltb. lia.
Qed.

Lemma add_page_spec U O s as_ N F P L address flags data size :
  as_inv U O s as_ N F P L → 0 <= address → in_u64 flags → 0 <= size →
  address ∉ virtual_address <$> pages as_ →
  (∀ i, 0 <= i < size → region U (owned as_ O) (data + i)) →
  ∃ ok as' s' N' F' P' L',
    address_space_add_page as_ address flags data size s = (ok, as', s') ∧
    as_inv U O s' as' N' F' P' L' ∧ kept U (owned as_ O) (mem s) (mem s') ∧
    if ok then ∃ p, as' = add_page p as_ ∧ virtual_address p = address ∧ page_flags p = flags ∧
      addable address flags data size = true ∧
      page_at p ∉ L ∧ L' = {[page_at p]} ∪ L ∧ filled (mem s) (mem s') (physical p) data size
    else as' = as_ ∧ L' = L.
Proof.
  intros Hi Ha Hf Hsz Hnew Hd. unfold address_space_add_page.
  destruct (addable address flags data size) eqn:Eg; unfold addable in Eg; cbv zeta;
    [apply negb_true_iff in Eg|apply negb_false_iff in Eg]; rewrite Eg.
  2:{ exists false, as_, s, N, F, P, L. split; [done|]. split; [done|]. by split; [apply kept_refl|]. }
  assert (addable address flags data size = true) as Hadd by (unfold addable; by rewrite Eg).
  destruct (addable_true _ _ _ _ Hadd) as (Har & Hal & Hu & Hs4).
  destruct (as_kmalloc U O s as_ N F P L 40 Hi) as (o & s1 & F1 & P1 & -> & Hi1 & Hfr & Hk1); [lia|].
  destruct (Z.eqb_spec o 0) as [->|Ho].
  { exists false, as_, s1, N, F1, P1, L. split; [done|]. split; [done|]. by split. }
  specialize (Hfr Ho).
  pose proof (ai_live _ _ _ _ _ _ _ _ Hi) as Hsub.
  destruct (as_page_alloc _ _ _ _ _ _ _ _ Hi1) as (p & s2 & -> & Hm2 & [(-> & ->)|(F2 & Hp & Hi2)]).
  { destruct (as_undo _ _ _ _ _ _ _ _ _ Hi1 Hfr Hsub) as (F3 & P3 & Hi3 & Hk3). cbn [Z.eqb].
    exists false, as_, (kfree o s1), N, F3, P3, L. split; [done|]. split; [done|].
    split; [by eapply kept_trans|done]. }
  destruct (Z.eqb_spec p 0); [destruct Hp; lia|].
  change (if negb (size =? 0) then _ else _) with (fill_page p data size s2).
  destruct (fill_page_spec U O s2 as_ N F2 P1 _ p data size Hi2) as (Hi3 & Hk3 & Hfill); [lia|done|].
  set (s3 := fill_page p data size s2) in *.
  assert (kept U (owned as_ O) (mem s) (mem s3)) as Hk13.
  { eapply kept_trans; [exact Hk1|]. by rewrite <- Hm2. }
  assert (filled (mem s) (mem s3) p data size) as Hfill'.
  { intros i Hr. rewrite (Hfill i Hr). case_if; [|done]. rewrite Hm2. apply Hk1, Hd. lia. }
  set (up := mk_user_page o address p flags).
  assert (o ∉ (page_at <$> pages as_) ++ (area_at <$> areas as_)) as Hrec by (intros Hin; auto).
  assert (o ∈ {[o]} ∪ L) as HoL by set_solver.
  destruct (Z.eqb_spec (Z.land flags PTE_RX) 0) as [Erx|Erx]; cbn [negb].
  - exists true, (add_page up as_), s3, N, F2, P1, ({[o]} ∪ L). split; [done|].
    split; [|split; [done|by exists up]].
    assert (mapped up = false) as Hmp by (unfold mapped; cbn [page_flags up]; by rewrite Erx).
    eapply (as_reserve_page U O s3 as_ N F2 P1 _ up); try done.
    split; try done. by rewrite Hmp.
  - destruct (as_map U O s3 as_ N F2 P1 ({[o]} ∪ L) up) as (ok & s4 & N4 & F4 & E4 & Hk4 & Hi4); try done.
    { unfold mapped. cbn. by apply negb_true_iff, Z.eqb_neq. }
    cbn [virtual_address physical page_flags up] in E4, Hk4, Hi4. rewrite E4.
    assert (kept U (owned as_ O) (mem s) (mem s4)) as Hk14.
    { eapply kept_trans; [exact Hk13|]. eapply kept_sub; [|exact Hk4]. unfold owned.
      intros x. rewrite !elem_of_app, elem_of_cons. tauto. }
    destruct ok; cbn [negb].
    + exists true, (add_page up as_), s4, N4, F4, P1, ({[o]} ∪ L). split; [done|]. split; [done|].
      split; [done|]. exists up. do 6 (split; [done|]).
      intros i Hr. rewrite <- (Hfill' i Hr). apply Hk4. left. exists p. unfold owned, in_page.
      rewrite elem_of_app, elem_of_cons. split; [tauto|lia].
    + destruct (as_page_free _ _ _ _ _ _ _ _ _ Hi4) as [Hi5 Hk5].
      destruct (as_undo _ _ _ _ _ _ _ _ _ Hi5 Hfr Hsub) as (F6 & P6 & Hi6 & Hk6).
      destruct (as_prune _ _ _ _ _ _ _ _ Hi6) as (N7 & F7 & Hi7 & Hk7).
      eexists false, as_, _, N7, F7, P6, L. split; [done|]. split; [done|].
      split; [|done]. eapply kept_trans; [exact Hk14|]. eapply kept_trans; [exact Hk5|].
      by eapply kept_trans.
Qed.
(** ** Unmapping *)

Lemma addresses_differ ps p q :
  NoDup (virtual_address <$> p :: ps) → (∀ x, x ∈ p :: ps → ledger_ok x) → q ∈ ps →
  virtual_address q / PAGE_SIZE ≠ virtual_address p / PAGE_SIZE.
Proof.
  intros Hnd Hok Hq E. cbn in Hnd. apply NoDup_cons in Hnd as [Hn _]. apply Hn.
  rewrite <- (aligned_same (virtual_address q) (virtual_address p)); [by apply list_elem_of_fmap_2| | |done];
    apply lo_aligned, Hok; rewrite elem_of_cons; auto.
Qed.

(** The ledger with one page less, given what the table says without it. *)
Lemma ledger_remove ps ps' p va x y :
  ps ≡ₚ p :: ps' → NoDup (virtual_address <$> ps) → (∀ q, q ∈ ps → ledger_ok q) →
  ledger_entry ps va x → y = (if decide (mapped p = true ∧ same_page va p) then None else x) →
  ledger_entry ps' va y.
Proof.
  intros Hps Hnd Hok Hx ->. rewrite Hps in Hnd.
  assert (∀ q, q ∈ p :: ps' → ledger_ok q) as Hok' by (intros q; rewrite <- Hps; auto).
  case_decide as E.
  - intros q Hq _ Hs. destruct E as [_ E]. unfold same_page in *.
    apply (addresses_differ ps' p q Hnd Hok' Hq). congruence.
  - destruct x as [[pa bits]|]; cbn in *.
    + destruct Hx as (q & Hq & Hmq & Hsq & Hrest). exists q. split; [|done].
      rewrite Hps, elem_of_cons in Hq. destruct Hq as [->|Hq]; [tauto|done].
    + intros q Hq. apply Hx. rewrite Hps, elem_of_cons. by right.
Qed.

(** A page of the ledger becomes somebody else's. *)
Lemma as_drop U O s s' as_ N F P L N' F' p ps' :
  as_inv U O s as_ N F P L → pages as_ ≡ₚ p :: ps' → heap_ok U s' F' P L →
  vm_inv lower_half (root (table as_)) s' N' F' → F ++ map_vals N ≡ₚ F' ++ map_vals N' →
  (∀ va, 0 <= va < 2 ^ 38 → vm_query (Some (table as_)) va s'
    = if decide (mapped p = true ∧ same_page va p) then None
      else vm_query (Some (table as_)) va s) →
  as_inv U (physical p :: O) s' (set_pages ps' as_) N' F' P L.
Proof.
  intros [I1 I2 I3 I4 I5 I6 I7 I8 I9] Hps Hh Hv Hperm Hq.
  split; try done; cbn [pages areas table set_pages].
  - rewrite <- I3, (app_gather F'), (app_gather F), Hperm, Hps. cbn [fmap list_fmap app].
    by rewrite <- Permutation_middle.
  - rewrite Hps in I5. cbn in I5. by apply NoDup_cons in I5 as [_ I5].
  - intros o Ho. apply I6. rewrite Hps. cbn. right. done.
  - intros q Hq'. apply I7. rewrite Hps. by right.
  - rewrite Hps in I8. cbn in I8. by apply NoDup_cons in I8 as [_ I8].
  - intros va Hva. eapply ledger_remove; [exact Hps|done|done|by apply I9|by apply Hq].
Qed.

Definition unmap_page (t : page_table) (p : user_page) (s : kstate) : kstate :=
  if mapped p then snd (vm_unmap (Some t) (virtual_address p) s) else s.

Lemma as_unmap U O s as_ N F P L p ps' :
  as_inv U O s as_ N F P L → pages as_ ≡ₚ p :: ps' →
  ∃ N' F', as_inv U (physical p :: O) (unmap_page (table as_) p s) (set_pages ps' as_) N' F' P L ∧
    kept U (owned as_ O) (mem s) (mem (unmap_page (table as_) p s)).
Proof.
  intros Hi Hps. unfold unmap_page. pose proof (ai_vm _ _ _ _ _ _ _ _ Hi) as Hv.
  assert (p ∈ pages as_) as Hp by (rewrite Hps; by left).
  pose proof (ai_ledger _ _ _ _ _ _ _ _ Hi p Hp) as Hl. destruct (mapped p) eqn:Hm.
  2:{ exists N, F. split; [|apply kept_refl]. eapply (as_drop _ _ s); try done; [by apply Hi|].
      intros va _. rewrite Hm, decide_False by (by intros [? _]). done. }
  pose proof (lo_range _ Hl) as Hvar.
  assert (leaf_mapped (leaf_entry s N (virtual_address p)) = true) as Hlm.
  { pose proof (ai_query _ _ _ _ _ _ _ _ Hi _ Hvar) as Hq.
    rewrite (page_table_eta (table as_)), (query_user _ _ _ _ _ Hv Hvar) in Hq.
    unfold decode_leaf, leaf_mapped in *. destruct (_ || _); [|done]. exfalso.
    by apply (Hq p Hp Hm). }
  pose proof (vm_unmap_spec lower_half (root (table as_)) s N F (virtual_address p) Hv
    (vpn_index_user _ Hvar) (canonical_user _ Hvar) (lo_aligned _ Hl)) as Hs.
  rewrite Hlm, <- page_table_eta in Hs. destruct Hs as (s' & N' & F' & E & Hv' & Hperm & Hfr & Hleaf).
  pose proof (total_vm_unmap (Some (table as_)) (virtual_address p) s) as Ht.
  rewrite E in *. cbn [snd] in *. exists N', F'.
  destruct (as_table_step _ _ _ _ _ _ _ _ _ _ _ Hi Hv' Hperm Ht Hfr) as (Hh & _ & Hk).
  split; [|done]. eapply (as_drop _ _ s); try done. intros va Hva.
  rewrite (page_table_eta (table as_)), (query_user _ s' N' F' va Hv' Hva), (query_user _ s N F va Hv Hva).
  rewrite (decode_leaf_equiv _ _ va (Hleaf va)). pose proof (same_vpn_page va p Hva Hvar) as Hsame.
  destruct (decide (same_vpn (virtual_address p) va)); case_decide as Hd; tauto.
Qed.

(** Giving up one page of the ledger: unmapped, its frame and its record freed. *)
Definition release_page (t : page_table) (p : user_page) (s : kstate) : kstate :=
  kfree (page_at p) (page_free (physical p) (unmap_page t p s)).

Lemma as_release U O s as_ N F P L p ps' :
  as_inv U O s as_ N F P L → pages as_ ≡ₚ p :: ps' →
  ∃ N' F' P', as_inv U O (release_page (table as_) p s) (set_pages ps' as_) N' F' P' (L ∖ {[page_at p]}) ∧
    kept U (owned (set_pages ps' as_) O) (mem s) (mem (release_page (table as_) p s)).
Proof.
  intros Hi Hps. destruct (as_unmap _ _ _ _ _ _ _ _ _ _ Hi Hps) as (N1 & F1 & Hi1 & Hk1).
  destruct (as_page_free _ _ _ _ _ _ _ _ _ Hi1) as [Hi2 Hk2].
  destruct (as_kfree _ _ _ _ _ _ _ _ (page_at p) Hi2) as (F3 & P3 & Hi3 & Hk3).
  { apply Hi. rewrite Hps. by left. }
  { pose proof (ai_records _ _ _ _ _ _ _ _ Hi) as Hr. rewrite Hps in Hr. cbn in Hr.
    by apply NoDup_cons in Hr as [Hr _]. }
  exists N1, F3, P3. split; [done|]. eapply kept_trans; [|exact (kept_trans _ _ _ _ _ Hk2 Hk3)].
  eapply kept_sub; [|exact Hk1]. unfold owned. intros x. cbn [pages set_pages].
  rewrite !elem_of_app, Hps. cbn. rewrite elem_of_cons. tauto.
Qed.
Lemma set_pages_twice ps qs as_ : set_pages ps (set_pages qs as_) = set_pages ps as_.
Proof. done. Qed.

Lemma set_pages_id as_ : set_pages (pages as_) as_ = as_.
Proof. by destruct as_. Qed.

Lemma as_reorder U O s as_ N F P L ps ps' :
  ps ≡ₚ ps' → as_inv U O s (set_pages ps as_) N F P L → as_inv U O s (set_pages ps' as_) N F P L.
Proof.
  intros Hp [I1 I2 I3 I4 I5 I6 I7 I8 I9]. cbn [pages areas table set_pages] in *.
  split; cbn [pages areas table set_pages]; try done.
  - by rewrite <- Hp.
  - by rewrite <- Hp.
  - intros o. rewrite <- Hp. apply I6.
  - intros p. rewrite <- Hp. apply I7.
  - by rewrite <- Hp.
  - intros va Hva. specialize (I9 va Hva). unfold ledger_entry in *.
    destruct (vm_query _ va s) as [[pa bits]|].
    + destruct I9 as (p & Hin & Hrest). exists p. by rewrite <- Hp.
    + intros p. rewrite <- Hp. apply I9.
Qed.

(** Of the ledger [seen ++ ps], the loop gives up the pages of [ps] in the range. *)
Lemma remove_loop_spec U O as_ a b ps seen s N F P L :
  as_inv U O s (set_pages (seen ++ ps) as_) N F P L →
  ∃ s' N' F' P', remove_loop (table as_) a b ps s = (filter (λ p, ¬ in_range a b p) ps, s') ∧
    as_inv U O s' (set_pages (seen ++ filter (λ p, ¬ in_range a b p) ps) as_) N' F' P'
      (L ∖ list_to_set (page_at <$> filter (λ p, in_range a b p) ps)) ∧
    kept U (owned (set_pages (seen ++ filter (λ p, ¬ in_range a b p) ps) as_) O) (mem s) (mem s').
Proof.
  revert seen s N F P L. induction ps as [|p ps IH]; intros seen s N F P L Hi; cbn [remove_loop].
  { exists s, N, F, P. rewrite !filter_nil. cbn. rewrite difference_empty_L.
    split; [done|]. split; [done|]. apply kept_refl. }
  rewrite !filter_cons. destruct (in_range a b p) eqn:Er; cbn [negb].
  - rewrite (decide_False (P := ¬ true)) by (intros Hn; by apply Hn). rewrite decide_True by done.
    destruct (as_release _ _ _ _ _ _ _ _ p (seen ++ ps) Hi) as (N1 & F1 & P1 & Hi1 & Hk1).
    { cbn [pages set_pages]. by rewrite <- Permutation_middle. }
    cbn [table set_pages] in Hi1, Hk1. rewrite set_pages_twice in Hi1, Hk1.
    destruct (IH seen _ _ _ _ _ Hi1) as (s' & N' & F' & P' & E & Hi' & Hk).
    exists s', N', F', P'.
    split; [exact E|]. split.
    + by rewrite fmap_cons, list_to_set_cons, <- difference_difference_l_L.
    + eapply kept_trans; [|exact Hk]. eapply kept_sub; [|exact Hk1]. unfold owned. cbn [pages set_pages].
      intros x. rewrite !fmap_app, !elem_of_app. intros [[Hx|Hx]|Hx]; [auto| |auto]. left. right.
      apply list_elem_of_fmap in Hx as (q & -> & [_ Hq]%list_elem_of_filter). by apply list_elem_of_fmap_2.
  - rewrite (decide_True (P := ¬ false)), (decide_False (P := false)) by (by intros Hn).
    destruct (IH (seen ++ [p]) s N F P L) as (s' & N' & F' & P' & E & Hi' & Hk).
    { by rewrite <- app_assoc. }
    rewrite <- app_assoc in Hi', Hk. rewrite E. exists s', N', F', P'. done.
Qed.

Lemma remove_pages_spec U O s as_ N F P L a b :
  as_inv U O s as_ N F P L →
  let as' := set_pages (filter (λ p, ¬ in_range a b p) (pages as_)) as_ in
  ∃ s' N' F' P', remove_pages as_ a b s = (as', s') ∧
    as_inv U O s' as' N' F' P'
      (L ∖ list_to_set (page_at <$> filter (λ p, in_range a b p) (pages as_))) ∧
    kept U (owned as' O) (mem s) (mem s').
Proof.
  intros Hi as'. rewrite <- (set_pages_id as_) in Hi.
  destruct (remove_loop_spec U O as_ a b (pages as_) [] s N F P L Hi)
    as (s1 & N1 & F1 & P1 & E & Hi1 & Hk1).
  cbn [app] in *. unfold remove_pages. rewrite E. fold as' in Hi1, Hk1 |- *.
  destruct (as_prune _ _ _ _ _ _ _ _ Hi1) as (N2 & F2 & Hi2 & Hk2).
  exists (vm_prune_user (table as_) s1), N2, F2, P1. split; [done|]. split; [done|].
  by eapply kept_trans.
Qed.

(** ** Destruction *)

(** The heap objects that hold an address space's records. *)
Definition records (as_ : address_space) : gset Z :=
  list_to_set ((page_at <$> pages as_) ++ (area_at <$> areas as_)).

Lemma destroy_spec U O s as_ N F P L :
  as_inv U O s as_ N F P L →
  ∃ s' F' P', address_space_destroy as_ s
      = (mk_as (mk_page_table 0) [] [] (brk_base as_) (brk_end as_), s') ∧
    bare U s' F' P' (L ∖ records as_) O ∧ kept U O (mem s) (mem s').
Proof.
  intros Hi. unfold address_space_destroy.
  destruct (vm_destroy_user_spec _ _ _ _ (ai_vm _ _ _ _ _ _ _ _ Hi)) as (s1 & E & Hf & Hp & Hm).
  rewrite <- page_table_eta in E. rewrite E. cbn [default set_table pages areas].
  pose proof (total_destroy_user (Some (table as_)) s) as Ht. rewrite E in Ht. cbn [snd] in Ht.
  pose proof (bare_of_as _ _ _ _ _ _ _ _ Hi) as Hb. pose proof (ai_heap _ _ _ _ _ _ _ _ Hi) as Hh.
  set (F1 := rev (subtree N user_paths) ++ F) in *.
  assert (F1 ++ P ++ owned as_ O ≡ₚ U) as HU.
  { unfold F1. rewrite <- Permutation_rev, Hp, <- (ba_pages _ _ _ _ _ _ Hb), (app_gather F).
    by rewrite (Permutation_app_comm _ F). }
  assert (bare U s1 F1 P L (owned as_ O)) as Hb1.
  { split; [|done|apply Hi]. assert (NoDup U) as Hnd by apply Hi.
    apply (heap_ok_transfer U s F P L s1 F1); try done.
    - rewrite <- HU, app_assoc in Hnd. by apply NoDup_app in Hnd as [? _].
    - intros p HpF. rewrite <- HU, elem_of_app. by left.
    - intros a Ha. apply Hm. intros p HpN Hpa.
      destruct (as_owned_outside _ _ _ _ _ _ _ _ p a Hi) as [Hout Hst]; [by apply elem_of_app; left|done|].
      destruct Ha as [Ha|(q & Hq & Ha)]; [done|]. by apply (Hout q); [apply elem_of_app; right|]. }
  assert (kept U (owned as_ O) (mem s) (mem s1)) as Hk1.
  { intros a Ha. apply Hm. intros p HpN Hpa. pose proof (as_nodup _ _ _ _ _ _ _ _ Hi) as Hnd.
    destruct Ha as [(q & Hq & Ha)|[Ha _]].
    - rewrite !app_assoc, <- (app_assoc _ (physical <$> _)) in Hnd. apply NoDup_app in Hnd as (_ & Hd & _).
      apply (Hd p); [rewrite !elem_of_app; tauto|]. assert (p = q) as ->; [|done].
      eapply (bare_disjoint U); [exact Hb| | |exact Hpa|exact Ha]; rewrite !elem_of_app; tauto.
    - apply (Ha p); [|done]. eapply (bare_member U); [exact Hb|]. rewrite !elem_of_app. tauto. }
  pose proof (ai_records _ _ _ _ _ _ _ _ Hi) as Hr. pose proof (ai_live _ _ _ _ _ _ _ _ Hi) as Hl.
  apply NoDup_app in Hr as (Hr1 & Hr2 & Hr3).
  destruct (free_pages_of_spec U O (pages as_) s1 F1 P L Hb1 Hr1) as (F2 & P2 & Hb2 & Hk2).
  { intros o Ho. apply Hl, elem_of_app. by left. }
  destruct (free_areas_of_spec U O (areas as_) _ _ _ _ Hb2 Hr3) as (F3 & P3 & Hb3 & Hk3).
  { intros o Ho. apply elem_of_difference. split; [apply Hl, elem_of_app; by right|].
    rewrite elem_of_list_to_set. intros Hin. by apply (Hr2 o). }
  eexists _, F3, P3. split; [done|]. unfold records. rewrite list_to_set_app_L.
  split; [by rewrite <- difference_difference_l_L|].
  eapply kept_trans; [|exact (kept_trans _ _ _ _ _ Hk2 Hk3)].
  eapply kept_sub; [|exact Hk1]. intros p HpO. apply elem_of_app. by right.
Qed.
End Pages.
