(* ===== verification/AddressSpaceClone.v ===== *)
(** Creating, reserving and cloning: [address_space_init], [address_space_reserve]
    and [address_space_clone] of [src/mm/address_space.c]. *)
From S2P Require Import Prelude Machine Runtime PageAlloc Vm VmInv VmProps VmReclaim VmKernel HeapSpec Ownership AddressSpace AddressSpaceInv AddressSpaceProps.

Section Clone.
Context `{HeapContract}.

(** The upper half of a table is the kernel's. *)
Definition shares_kernel (t : page_table) (kr : Z) (s : kstate) : Prop :=
  ∀ va, 256 <= vpn_index va 2 → vm_query (Some t) va s = vm_query (Some (mk_page_table kr)) va s.

Lemma init_spec U Q s F P L kr NK :
  bare U s F P L Q → pt_rep whole s kr NK → (∀ p, p ∈ map_vals NK → p ∈ Q) →
  ∃ ok t s', address_space_init (Some (mk_page_table kr)) s
      = (ok, mk_as t [] [] HEAP_BASE HEAP_BASE, s') ∧
    kept U Q (mem s) (mem s') ∧
    if ok then shares_kernel t kr s' ∧
      ∃ N F', as_inv U Q s' (mk_as t [] [] HEAP_BASE HEAP_BASE) N F' P L
    else bare U s' F P L Q ∧ root t = 0.
Proof.
  intros Hb HK HNK. pose proof Hb as [B1 B2 B3]. unfold address_space_init.
  pose proof (vm_create_user_spec kr (mk_page_table 0) s NK F (heap_ok_free _ _ _ _ _ B1) HK) as Hc.
  pose proof (total_create_user (Some (mk_page_table 0)) (Some (mk_page_table kr)) s) as Ht.
  cbn [table]. destruct (vm_create_user _ _ _) as [[ok t'] s']. cbn [snd] in Ht.
  assert (∀ p, p ∈ map_vals NK → p ∉ F) as Hdis.
  { intros p Hp HpF. rewrite <- B2 in B3. apply NoDup_app in B3 as (_ & Hd & _). apply (Hd p HpF).
    apply elem_of_app. right. auto. }
  specialize (Hc Hdis). destruct ok.
  2:{ destruct Hc as (-> & -> & ->). eexists false, _, s. split; [done|].
      split; [apply kept_refl|]. done. }
  destruct Hc as (r & F' & -> & -> & Hv & HK' & Hlow & Hup & HqK & Hm).
  assert (r ∈ U) as HrU by (rewrite <- B2; by left).
  pose proof (heap_ok_page _ _ _ _ _ _ B1 HrU) as Hr.
  pose proof B3 as Hnd. rewrite <- B2 in Hnd. cbn in Hnd. apply NoDup_cons in Hnd as [Hrn Hnd].
  eexists true, (mk_page_table r), s'. split; [done|]. split; [|split].
  - intros a Ha. apply Hm. intros p ->%list_elem_of_singleton Hra.
    destruct (bare_region _ _ _ _ _ _ _ Hb Ha) as [Hout _]. by apply (Hout r); [left|].
  - intros va Hva. by rewrite (Hup va Hva), HqK.
  - exists {[ [] := r ]}, F'. split; cbn [table pages areas root]; try done.
    + apply (heap_ok_transfer U s (r :: F') P L s' F'); try done.
      * apply Hv.
      * rewrite app_assoc in Hnd. by apply NoDup_app in Hnd as [? _].
      * intros p Hp. rewrite <- B2. right. apply elem_of_app. by left.
      * intros a Ha. apply Hm. intros p ->%list_elem_of_singleton Hra.
        destruct Ha as [Ha|(q & Hq & Ha)]; [by eapply (heap_ok_static U)|].
        apply Hrn. assert (r = q) as ->; [|rewrite !elem_of_app; tauto].
        eapply (bare_disjoint U); [exact Hb| | |exact Hra|exact Ha]; [by left|]. right.
        rewrite !elem_of_app. tauto.
    + rewrite map_vals_root. cbn. rewrite <- B2, !app_assoc. cbn. by rewrite <- Permutation_middle.
    + constructor.
    + intros o Ho. by apply elem_of_nil in Ho.
    + intros p Hp. by apply elem_of_nil in Hp.
    + constructor.
    + intros va Hva. rewrite Hlow by (by apply vpn_index_user).
      intros p Hp. by apply elem_of_nil in Hp.
Qed.

(** ** Areas *)

Definition reservable (as_ : address_space) (a b : Z) : bool :=
  negb ((a >=? b) || negb (Z.land a PAGE_MASK =? 0) || negb (Z.land b PAGE_MASK =? 0)
    || (b >? USER_END) || negb (vacant as_ a b)).

Lemma as_add_area U O s as_ N F P L x :
  as_inv U O s as_ N F P L → area_at x ∈ L →
  area_at x ∉ (page_at <$> pages as_) ++ (area_at <$> areas as_) →
  as_inv U O s (set_areas (areas as_ ++ [x]) as_) N F P L.
Proof.
  intros [I1 I2 I3 I4 I5 I6 I7 I8 I9] HL Hx. split; try done; cbn [pages areas table set_areas].
  - rewrite fmap_app, app_assoc, (Permutation_app_comm _ (_ <$> [x])). cbn. by constructor.
  - intros o. rewrite fmap_app, !elem_of_app. cbn. rewrite list_elem_of_singleton.
    intros [Ho|[Ho| ->]]; [apply I6, elem_of_app; by left|apply I6, elem_of_app; by right|done].
Qed.

Lemma reserve_spec U O s as_ N F P L a b fl k :
  as_inv U O s as_ N F P L →
  ∃ ok as' s' F' P' L', address_space_reserve as_ a b fl k s = (ok, as', s') ∧
    as_inv U O s' as' N F' P' L' ∧ kept U (owned as_ O) (mem s) (mem s') ∧
    if ok then ∃ o, o ∉ L ∧ o ≠ 0 ∧ L' = {[o]} ∪ L ∧ reservable as_ a b = true ∧
      as' = set_areas (areas as_ ++ [mk_area o a b fl k]) as_
    else as' = as_ ∧ L' = L.
Proof.
  intros Hi. unfold address_space_reserve. destruct (reservable as_ a b) eqn:Er; unfold reservable in Er;
    [apply negb_true_iff in Er|apply negb_false_iff in Er]; rewrite Er.
  2:{ exists false, as_, s, F, P, L. split; [done|]. split; [done|]. by split; [apply kept_refl|]. }
  destruct (as_kmalloc U O s as_ N F P L 48 Hi) as (o & s1 & F1 & P1 & -> & Hi1 & Hfr & Hk1); [lia|].
  destruct (Z.eqb_spec o 0) as [->|Ho].
  { exists false, as_, s1, F1, P1, L. split; [done|]. split; [done|]. by split. }
  eexists true, _, s1, F1, P1, _. split; [done|]. split; [|split; [done|]].
  - apply as_add_area; [done|cbn; set_solver|]. cbn. intros Hin. apply (Hfr Ho).
    by apply (ai_live _ _ _ _ _ _ _ _ Hi).
  - exists o. by split; [apply Hfr|].
Qed.
(** ** Cloning *)

(** An address space in a system whose other live objects are [B]. *)
Record space (U O : list Z) (B : gset Z) (s : kstate) (as_ : address_space) : Prop := {
  sp_inv : ∃ N F P, as_inv U O s as_ N F P (records as_ ∪ B);
  sp_fresh : records as_ ## B;
}.

(** After its destruction. *)
Definition dissolved (U O : list Z) (B : gset Z) (s : kstate) : Prop := ∃ F P, bare U s F P B O.

Lemma space_destroy U O B s as_ :
  space U O B s as_ →
  ∃ s', address_space_destroy as_ s = (mk_as (mk_page_table 0) [] [] (brk_base as_) (brk_end as_), s') ∧
    dissolved U O B s' ∧ kept U O (mem s) (mem s').
Proof.
  intros [(N & F & P & Hi) Hd]. destruct (destroy_spec _ _ _ _ _ _ _ _ Hi) as (s' & F' & P' & E & Hb & Hk).
  exists s'. split; [done|]. split; [|done]. exists F', P'.
  by replace B with ((records as_ ∪ B) ∖ records as_) by set_solver.
Qed.

Definition same_area (a b : vm_area) : Prop :=
  start b = start a ∧ end_ b = end_ a ∧ area_flags b = area_flags a ∧ kind b = kind a.

(** The same page at another frame, with the same bytes. *)
Definition copied (m : memory) (p q : user_page) : Prop :=
  virtual_address q = virtual_address p ∧ page_flags q = page_flags p ∧
  ∀ i, 0 <= i < PAGE_SIZE →
    load8 m (phys_to_virt (physical q) + i) = load8 m (phys_to_virt (physical p) + i).

Lemma space_reserve U O B s as_ a b fl k :
  space U O B s as_ →
  ∃ ok as' s', address_space_reserve as_ a b fl k s = (ok, as', s') ∧
    kept U (owned as_ O) (mem s) (mem s') ∧ space U O B s' as' ∧
    if ok then ∃ o, o ≠ 0 ∧ reservable as_ a b = true ∧
      as' = set_areas (areas as_ ++ [mk_area o a b fl k]) as_
    else as' = as_.
Proof.
  intros [(N & F & P & Hi) Hd].
  destruct (reserve_spec U O s as_ N F P _ a b fl k Hi) as (ok & as' & s' & F' & P' & L' & E & Hi' & Hk & Hres).
  exists ok, as', s'. split; [done|]. split; [done|]. destruct ok.
  - destruct Hres as (o & Ho & Hnz & -> & Hr & ->). split; [|by exists o].
    assert (records (set_areas (areas as_ ++ [mk_area o a b fl k]) as_) = {[o]} ∪ records as_) as Hrec.
    { unfold records. cbn [pages areas set_areas]. rewrite fmap_app. cbn. set_solver. }
    split; [|rewrite Hrec; set_solver]. exists N, F', P'. rewrite Hrec.
    by replace ({[o]} ∪ records as_ ∪ B) with ({[o]} ∪ (records as_ ∪ B)) by set_solver.
  - destruct Hres as [-> ->]. split; [|done]. split; [by exists N, F', P'|done].
Qed.

Lemma clone_areas_spec U O B l dst s :
  space U O B s dst → pages dst = [] →
  ∃ ok dst' s', clone_areas l dst s = (ok, dst', s') ∧ kept U O (mem s) (mem s') ∧
    if ok then space U O B s' dst' ∧ pages dst' = [] ∧ brk_base dst' = brk_base dst ∧
      brk_end dst' = brk_end dst ∧
      ∃ l', areas dst' = areas dst ++ l' ∧ Forall2 same_area l l'
    else dissolved U O B s'.
Proof.
  revert dst s. induction l as [|a l IH]; intros dst s Hs Hp; cbn [clone_areas].
  { exists true, dst, s. split; [done|]. split; [apply kept_refl|]. do 4 (split; [done|]).
    exists []. by rewrite app_nil_r. }
  destruct (space_reserve U O B s dst (start a) (end_ a) (area_flags a) (kind a) Hs)
    as (ok & d1 & s1 & -> & Hk1 & Hs1 & Hres).
  unfold owned in Hk1. rewrite Hp in Hk1. cbn in Hk1. destruct ok; cbn [negb].
  - destruct Hres as (o & _ & _ & ->).
    destruct (IH _ _ Hs1 Hp) as (ok & d2 & s2 & -> & Hk2 & Hres).
    exists ok, d2, s2. split; [done|]. split; [by eapply kept_trans|].
    destruct ok; [|done]. destruct Hres as (Hs2 & Hp2 & H1 & H2 & l' & E & Hf). cbn in E.
    do 4 (split; [done|]). eexists. split; [rewrite E, <- app_assoc; done|]. by constructor.
  - destruct (space_destroy _ _ _ _ _ Hs1) as (s2 & -> & Hd & Hk2). eexists false, _, s2. split; [done|].
    split; [by eapply kept_trans|done].
Qed.

Lemma space_add_page U O B s as_ address flags data size :
  space U O B s as_ → 0 <= address → in_u64 flags → 0 <= size →
  address ∉ virtual_address <$> pages as_ →
  (∀ i, 0 <= i < size → region U (owned as_ O) (data + i)) →
  ∃ ok as' s', address_space_add_page as_ address flags data size s = (ok, as', s') ∧
    kept U (owned as_ O) (mem s) (mem s') ∧ space U O B s' as' ∧
    if ok then ∃ p, as' = add_page p as_ ∧ virtual_address p = address ∧ page_flags p = flags ∧
      addable address flags data size = true ∧ filled (mem s) (mem s') (physical p) data size
    else as' = as_.
Proof.
  intros [(N & F & P & Hi) Hd] Ha Hf Hsz Hnew Hdata.
  destruct (add_page_spec U O s as_ N F P _ address flags data size Hi Ha Hf Hsz Hnew Hdata)
    as (ok & as' & s' & N' & F' & P' & L' & E & Hi' & Hk & Hres).
  exists ok, as', s'. split; [done|]. split; [done|]. destruct ok.
  - destruct Hres as (p & -> & H1 & H2 & H3 & Hp & -> & H4). split; [|by exists p].
    assert (records (add_page p as_) = {[page_at p]} ∪ records as_) as Hrec.
    { unfold records. cbn [pages areas add_page set_pages]. rewrite fmap_app. cbn. set_solver. }
    split; [|rewrite Hrec; set_solver]. exists N', F', P'. rewrite Hrec.
    by replace ({[page_at p]} ∪ records as_ ∪ B) with ({[page_at p]} ∪ (records as_ ∪ B)) by set_solver.
  - destruct Hres as [-> ->]. split; [|done]. split; [by exists N', F', P'|done].
Qed.
(** Kept pages keep being copies. *)
Lemma copied_kept U Q m m' p q :
  kept U Q m m' → physical p ∈ Q → physical q ∈ Q → copied m p q → copied m' p q.
Proof.
  intros Hk Hp Hq (H1 & H2 & H3). split; [done|]. split; [done|]. intros i Hi.
  assert (∀ x, x ∈ Q → load8 m' (phys_to_virt x + i) = load8 m (phys_to_virt x + i)) as Hx.
  { intros x Hx. apply Hk. left. exists x. unfold in_page. split; [done|lia]. }
  rewrite !Hx by done. by apply H3.
Qed.

Lemma clone_pages_spec U O B ps dst s :
  space U O B s dst → (∀ p, p ∈ ps → ledger_ok p ∧ physical p ∈ O) →
  NoDup (virtual_address <$> pages dst ++ ps) →
  ∃ ok dst' s', clone_pages ps dst s = (ok, dst', s') ∧ kept U O (mem s) (mem s') ∧
    if ok then space U O B s' dst' ∧ areas dst' = areas dst ∧ brk_base dst' = brk_base dst ∧
      brk_end dst' = brk_end dst ∧ kept U (owned dst O) (mem s) (mem s') ∧
      ∃ l, pages dst' = pages dst ++ l ∧ Forall2 (copied (mem s')) ps l
    else dissolved U O B s'.
Proof.
  revert dst s. induction ps as [|p ps IH]; intros dst s Hs Hok Hnd; cbn [clone_pages].
  { exists true, dst, s. split; [done|]. split; [apply kept_refl|]. do 4 (split; [done|]).
    split; [apply kept_refl|]. exists []. by rewrite app_nil_r. }
  destruct (Hok p) as [Hl HpO]; [by left|].
  destruct (space_add_page U O B s dst (virtual_address p) (page_flags p) (phys_to_virt (physical p))
    PAGE_SIZE Hs) as (ok & d1 & s1 & -> & Hk1 & Hs1 & Hres); [apply Hl|apply Hl|done| | |].
  { rewrite fmap_app in Hnd. cbn in Hnd. apply NoDup_app in Hnd as (_ & Hd & _).
    intros Hin. apply (Hd _ Hin). by left. }
  { intros i Hr. left. exists (physical p). unfold owned, in_page. rewrite elem_of_app. split; [auto|lia]. }
  assert (∀ d m m', kept U (owned d O) m m' → kept U O m m') as Hown.
  { intros d m m'. apply kept_sub. intros x Hx. apply elem_of_app. by right. }
  destruct ok; cbn [negb].
  2:{ destruct (space_destroy _ _ _ _ _ Hs1) as (s2 & -> & Hd & Hk2). eexists false, _, s2. split; [done|].
      split; [eapply kept_trans; [by eapply Hown|done]|done]. }
  destruct Hres as (q & -> & Eva & Efl & _ & Hfill).
  destruct (IH (add_page q dst) s1 Hs1) as (ok & d2 & s2 & -> & Hk2 & Hres).
  { intros x Hx. apply Hok. by right. }
  { cbn [pages add_page set_pages]. rewrite <- app_assoc. rewrite !fmap_app in *. cbn in *. by rewrite Eva. }
  exists ok, d2, s2. split; [done|]. split; [eapply kept_trans; [by eapply Hown|done]|].
  destruct ok; [|done]. destruct Hres as (Hs2 & Ha2 & Hb2 & He2 & Hkk & l & El & Hf).
  do 4 (split; [done|]).
  assert (∀ x, x ∈ owned dst O → x ∈ owned (add_page q dst) O) as Hmore.
  { unfold owned. cbn [pages add_page set_pages]. intros x. rewrite fmap_app, !elem_of_app. tauto. }
  split; [eapply kept_trans; [exact Hk1|by eapply kept_sub]|]. exists (q :: l).
  cbn [pages add_page set_pages] in El. split; [by rewrite El, <- app_assoc|]. constructor; [|done].
  apply (copied_kept U (owned (add_page q dst) O) (mem s1)); [done|apply elem_of_app; by right| |].
  { unfold owned. cbn [pages add_page set_pages]. rewrite fmap_app, !elem_of_app. cbn.
    rewrite list_elem_of_singleton. auto. }
  split; [done|]. split; [done|]. intros i Hr. rewrite (Hfill i Hr).
  destruct (Z.ltb_spec i 4096); [|lia]. symmetry. apply (Hown _ _ _ Hk1). left. exists (physical p).
  unfold in_page. split; [done|lia].
Qed.

(** Another address space stays well formed through the changes. *)
Lemma as_other U O s s' as_ N F P L F' P' L' O' :
  as_inv U O s as_ N F P L → heap_ok U s' F' P' L' → F' ++ P' ++ O' ≡ₚ F ++ P ++ O →
  kept U (map_vals N ++ owned as_ O) (mem s) (mem s') → L ⊆ L' →
  as_inv U O' s' as_ N F' P' L'.
Proof.
  intros Hi Hh Hp Hk HL. apply (as_inv_intro U O s s' as_ N F P L); try done.
  - intros p Hpn a Ha. apply Hk. left. exists p. rewrite elem_of_app. auto.
  - intros o _ Ho. by apply HL.
Qed.

(** The permutation that a second address space with pages [X] brings. *)
Lemma app_cancel (F P X Y F' P' U : list Z) O :
  F ++ P ++ X ++ O ≡ₚ U → F' ++ P' ++ Y ++ X ++ O ≡ₚ U → F' ++ P' ++ Y ++ O ≡ₚ F ++ P ++ O.
Proof.
  intros H1 H2. rewrite <- H2 in H1. apply (Permutation_app_inv_l X).
  assert (∀ a b c : list Z, X ++ a ++ b ++ c ≡ₚ a ++ b ++ X ++ c) as Hmv.
  { intros a b c. rewrite !(Permutation_app_swap_app X). done. }
  rewrite !Hmv, H1. do 2 apply Permutation_app_head.
  by rewrite (Permutation_app_swap_app X).
Qed.
Lemma clone_spec U O s src N F P L kr NK :
  as_inv U O s src N F P L → pt_rep whole s kr NK → (∀ p, p ∈ map_vals NK → p ∈ O) →
  let Q := map_vals N ++ owned src O in
  ∃ ok dst s', address_space_clone src (Some (mk_page_table kr)) s = (ok, dst, s') ∧
    kept U Q (mem s) (mem s') ∧
    if ok then space U Q L s' dst ∧ Forall2 (copied (mem s')) (pages src) (pages dst) ∧
      Forall2 same_area (areas src) (areas dst) ∧
      brk_base dst = brk_base src ∧ brk_end dst = brk_end src
    else dissolved U Q L s'.
Proof.
  intros Hi HK HNK Q. unfold address_space_clone.
  destruct (init_spec U Q s F P L kr NK (bare_of_as _ _ _ _ _ _ _ _ Hi) HK)
    as (ok & t & s1 & -> & Hk1 & Hres).
  { intros p Hp. unfold Q, owned. rewrite !elem_of_app. auto. }
  destruct ok; cbn [negb].
  2:{ eexists false, _, s1. split; [done|]. split; [done|]. exists F, P; apply Hres. }
  destruct Hres as (_ & N1 & F1 & Hi1).
  set (d0 := set_brk (brk_base src) (brk_end src) _).
  assert (space U Q L s1 d0) as Hs0.
  { split; [|set_solver]. exists N1, F1, P. replace (records d0 ∪ L) with L by (unfold records; set_solver).
    destruct Hi1. by split. }
  destruct (clone_areas_spec U Q L (areas src) d0 s1 Hs0 eq_refl) as (ok & d1 & s2 & -> & Hk2 & Hres).
  destruct ok; cbn [negb].
  2:{ eexists false, _, s2. split; [done|]. split; [by eapply kept_trans|done]. }
  destruct Hres as (Hs1 & Hp1 & Hb1 & He1 & l' & Ea & Hfa).
  destruct (clone_pages_spec U Q L (pages src) d1 s2 Hs1) as (ok & d2 & s3 & -> & Hk3 & Hres).
  { intros p Hp. split; [by apply Hi|]. unfold Q, owned. rewrite !elem_of_app. right. left.
    by apply list_elem_of_fmap_2. }
  { rewrite Hp1. apply Hi. }
  exists ok, d2, s3. split; [done|].
  split; [eapply kept_trans; [exact Hk1|by eapply kept_trans]|]. destruct ok; [|done].
  destruct Hres as (Hs2 & Ha2 & Hb2 & He2 & _ & l & El & Hf). rewrite Hp1 in El. cbn in El.
  split; [done|]. rewrite El, Ha2, Ea. split; [done|]. split; [done|]. by rewrite Hb2, He2, Hb1, He1.
Qed.
End Clone.
