(* ===== verification/AddressSpaceAreas.v ===== *)
(** The areas of an address space: well-formedness, and [address_space_munmap] of
    [src/mm/address_space.c]. *)
From S2P Require Import Prelude Machine Runtime PageAlloc Vm VmInv VmProps HeapSpec Ownership AddressSpace AddressSpaceInv AddressSpaceProps AddressSpaceClone.

(** * Areas as sets of addresses *)

Definition covers (a : vm_area) (x : Z) : Prop := start a <= x < end_ a.

Record area_ok (a : vm_area) : Prop := {
  ao_range : 0 <= start a < end_ a ∧ end_ a <= USER_END;
  ao_start : start a mod PAGE_SIZE = 0;
  ao_end : end_ a mod PAGE_SIZE = 0;
}.

(** The address [x] is reserved with these attributes. *)
Definition reserved (l : list vm_area) (x fl : Z) (k : area_kind) : Prop :=
  ∃ a, a ∈ l ∧ covers a x ∧ area_flags a = fl ∧ kind a = k.

Record areas_ok (l : list vm_area) : Prop := {
  ar_each : ∀ a, a ∈ l → area_ok a;
  ar_disjoint : ∀ a b x, a ∈ l → b ∈ l → covers a x → covers b x → a = b;
}.

Lemma vacant_spec as_ a b :
  a < b → vacant as_ a b = true →
  ∀ x y, x ∈ areas as_ → area_ok x → covers x y → ¬ (a <= y < b).
Proof.
  intros Hab Hv x y Hx Hok Hc Hy. unfold vacant in Hv. rewrite forallb_forall in Hv.
  apply list_elem_of_In in Hx. specialize (Hv x Hx).
  apply negb_true_iff, andb_false_iff in Hv. unfold covers in Hc.
  destruct Hv as [Hv|Hv]; apply Z.ltb_ge in Hv; lia.
Qed.

(** * Cutting a range out *)

Definition apart (a b : Z) (x : vm_area) : bool := (a >=? end_ x) || (b <=? start x).

(** What is left of an area; the upper part of a middle cut is in the record at
    [split]. *)
Definition pieces (a b split : Z) (x : vm_area) : list vm_area :=
  if apart a b x then [x]
  else (if a >? start x then [with_end a x] else []) ++
       (if b <? end_ x
        then [if a >? start x then mk_area split b (end_ x) (area_flags x) (kind x) else with_start b x]
        else []).

Definition middle (a b : Z) (x : vm_area) : bool := (a >? start x) && (b <? end_ x).

Lemma pieces_covers a b split x p y :
  a < b → area_ok x → p ∈ pieces a b split x → covers p y →
  covers x y ∧ ¬ (a <= y < b) ∧ area_flags p = area_flags x ∧ kind p = kind x.
Proof.
  intros Hab [Hr _ _] Hp Hc. unfold pieces, apart in Hp.
  destruct (Z.geb_spec a (end_ x)), (Z.leb_spec b (start x)); cbn [orb] in Hp;
    try (apply list_elem_of_singleton in Hp as ->; unfold covers in *; repeat split; (done || lia)).
  destruct (Z.gtb_spec a (start x)), (Z.ltb_spec b (end_ x)); cbn [app] in Hp;
    rewrite ?elem_of_cons, ?elem_of_nil in Hp; destruct_or?; subst; try done;
    unfold covers in *; cbn in *; repeat split; (done || lia).
Qed.

Lemma pieces_complete a b split x y :
  covers x y → ¬ (a <= y < b) → ∃ p, p ∈ pieces a b split x ∧ covers p y.
Proof.
  intros Hc Hy. unfold pieces, apart, covers in *.
  destruct (Z.geb_spec a (end_ x)), (Z.leb_spec b (start x)); cbn [orb];
    try (exists x; split; [by left|done]).
  destruct (Z.gtb_spec a (start x)), (Z.ltb_spec b (end_ x)); cbn [app]; try lia.
  - destruct (decide (y < a)); [exists (with_end a x); split; [by left|cbn; lia]|].
    eexists. split; [right; by left|cbn; lia].
  - exists (with_end a x). split; [by left|cbn; lia].
  - exists (with_start b x). split; [by left|cbn; lia].
Qed.

Lemma pieces_ok a b split x p :
  a < b → 0 <= a → b <= USER_END → a mod PAGE_SIZE = 0 → b mod PAGE_SIZE = 0 →
  area_ok x → p ∈ pieces a b split x → area_ok p.
Proof.
  intros Hab Ha Hb Ha4 Hb4 [Hr Hs He] Hp. unfold pieces, apart in Hp.
  destruct (Z.geb_spec a (end_ x)), (Z.leb_spec b (start x)); cbn [orb] in Hp;
    try (apply list_elem_of_singleton in Hp as ->; done).
  destruct (Z.gtb_spec a (start x)), (Z.ltb_spec b (end_ x)); cbn [app] in Hp;
    rewrite ?elem_of_cons, ?elem_of_nil in Hp; destruct_or?; subst; try done;
    split; cbn; (done || lia).
Qed.

Lemma pieces_once a b split x p q y :
  a < b → p ∈ pieces a b split x → q ∈ pieces a b split x → covers p y → covers q y → p = q.
Proof.
  intros Hab Hp Hq Hcp Hcq. unfold pieces, apart in *.
  destruct (_ || _); [apply list_elem_of_singleton in Hp, Hq; by subst|].
  destruct (Z.gtb_spec a (start x)), (Z.ltb_spec b (end_ x)); cbn [app] in *;
    rewrite ?elem_of_cons, ?elem_of_nil in *; destruct_or?; subst; try done;
    unfold covers in *; cbn in *; lia.
Qed.

(** ** The areas after the cut *)

Definition cut (a b split : Z) (l : list vm_area) : list vm_area := l ≫= pieces a b split.

Lemma cut_reserved a b split l x fl k :
  a < b → areas_ok l →
  reserved (cut a b split l) x fl k ↔ reserved l x fl k ∧ ¬ (a <= x < b).
Proof.
  intros Hab [Hl _]. unfold reserved, cut. split.
  - intros (p & Hp & Hc & <- & <-). apply list_elem_of_bind in Hp as (y & Hp & Hy).
    destruct (pieces_covers a b split y p x Hab (Hl y Hy) Hp Hc) as (H1 & H2 & H3 & H4). eauto 6.
  - intros [(y & Hy & Hc & <- & <-) Hx]. destruct (pieces_complete a b split y x Hc Hx) as (p & Hp & Hcp).
    exists p. split; [apply list_elem_of_bind; eauto|]. split; [done|].
    destruct (pieces_covers a b split y p x Hab (Hl y Hy) Hp Hcp) as (_ & _ & H3 & H4). done.
Qed.

Lemma cut_ok a b split l :
  a < b → 0 <= a → b <= USER_END → a mod PAGE_SIZE = 0 → b mod PAGE_SIZE = 0 →
  areas_ok l → areas_ok (cut a b split l).
Proof.
  intros Hab Ha Hb Ha4 Hb4 [Hl Hd]. split.
  - intros p (y & Hp & Hy)%list_elem_of_bind. by eapply pieces_ok; eauto.
  - intros p q x (y & Hp & Hy)%list_elem_of_bind (w & Hq & Hw)%list_elem_of_bind Hcp Hcq.
    destruct (pieces_covers a b split y p x Hab (Hl y Hy) Hp Hcp) as (H1 & _).
    destruct (pieces_covers a b split w q x Hab (Hl w Hw) Hq Hcq) as (H2 & _).
    assert (y = w) as <- by eauto. by eapply pieces_once.
Qed.

(** Next to an area that contains the range, all others lie apart from it. *)
Lemma middle_apart a b l x y :
  a < b → areas_ok l → x ∈ l → y ∈ l → middle a b x = true → y ≠ x → apart a b y = true.
Proof.
  intros Hab [Hl Hd] Hx Hy Hm Hne. unfold middle, apart in *. apply andb_true_iff in Hm as [H1 H2].
  apply Z.gtb_lt in H1. apply Z.ltb_lt in H2. apply orb_true_iff.
  destruct (decide (a < end_ y)) as [H3|]; [|left; apply Z.geb_le; lia].
  destruct (decide (start y < b)) as [H4|]; [|right; apply Z.leb_le; lia].
  exfalso. apply Hne. destruct (Hl y Hy) as [Hr _ _]. destruct (Hl x Hx) as [Hrx _ _].
  apply (Hd y x (Z.max a (start y))); unfold covers; try done; lia.
Qed.

Lemma pieces_apart a b split x : apart a b x = true → pieces a b split x = [x].
Proof. intros E. unfold pieces. by rewrite E. Qed.

Lemma cut_apart a b split l : (∀ x, x ∈ l → apart a b x = true) → cut a b split l = l.
Proof.
  induction l as [|x l IH]; intros Hl; [done|]. cbn. rewrite pieces_apart by (apply Hl; by left).
  cbn. f_equal. apply IH. intros y Hy. apply Hl. by right.
Qed.

Section Munmap.
Context `{HeapContract}.

(** * Steps on the records *)

Lemma set_areas_id as_ : set_areas (areas as_) as_ = as_.
Proof. by destruct as_. Qed.

Lemma records_areas as_ l l' :
  area_at <$> l ≡ₚ area_at <$> l' → records (set_areas l as_) = records (set_areas l' as_).
Proof.
  intros Hp. apply set_eq. intros x. unfold records. cbn [pages areas set_areas].
  rewrite !elem_of_list_to_set, !elem_of_app, Hp. done.
Qed.

(** Only the addresses of the records matter. *)
Lemma space_areas U O B s as_ l l' :
  area_at <$> l ≡ₚ area_at <$> l' → space U O B s (set_areas l as_) → space U O B s (set_areas l' as_).
Proof.
  intros Hp [(N & F & P & Hi) Hd]. rewrite (records_areas as_ l l' Hp) in *. split; [|done].
  exists N, F, P. destruct Hi as [I1 I2 I3 I4 I5 I6 I7 I8 I9].
  split; try done; cbn [pages areas set_areas] in *; [by rewrite <- Hp|].
  intros o. rewrite <- Hp. apply I6.
Qed.

Lemma space_kmalloc U O B s as_ n :
  space U O B s as_ → 0 <= n →
  ∃ o s', kmalloc n s = (o, s') ∧ kept U (owned as_ O) (mem s) (mem s') ∧
    space U O (if o =? 0 then B else {[o]} ∪ B) s' as_ ∧ (o ≠ 0 → o ∉ B).
Proof.
  intros [(N & F & P & Hi) Hd] Hn.
  destruct (as_kmalloc U O s as_ N F P _ n Hi Hn) as (o & s' & F' & P' & E & Hi' & Hf & Hk).
  exists o, s'. split; [done|]. split; [done|]. destruct (Z.eqb_spec o 0) as [->|Ho].
  { split; [|done]. split; [by exists N, F', P'|done]. }
  specialize (Hf Ho). split; [|set_solver]. split; [|set_solver]. exists N, F', P'.
  by replace (records as_ ∪ ({[o]} ∪ B)) with ({[o]} ∪ (records as_ ∪ B)) by set_solver.
Qed.

(** An object of the others, freed. *)
Lemma space_kfree U O B s as_ o :
  space U O ({[o]} ∪ B) s as_ → o ∉ B →
  space U O B (kfree o s) as_ ∧ kept U (owned as_ O) (mem s) (mem (kfree o s)).
Proof.
  intros [(N & F & P & Hi) Hd] Ho.
  destruct (as_kfree U O s as_ N F P _ o Hi) as (F' & P' & Hi' & Hk); [set_solver| |].
  { unfold records in Hd. intros Hin. apply (Hd o); [by apply elem_of_list_to_set|set_solver]. }
  split; [|done]. split; [|set_solver]. exists N, F', P'.
  by replace (records as_ ∪ B) with ((records as_ ∪ ({[o]} ∪ B)) ∖ {[o]}) by set_solver.
Qed.

(** An object of the others becomes an area's record, and back. *)
Lemma space_adopt U O B s as_ l x :
  space U O ({[area_at x]} ∪ B) s (set_areas l as_) → area_at x ∉ B →
  space U O B s (set_areas (l ++ [x]) as_).
Proof.
  intros [(N & F & P & Hi) Hd] Hx.
  assert (records (set_areas (l ++ [x]) as_) = {[area_at x]} ∪ records (set_areas l as_)) as Hrec.
  { unfold records. cbn [pages areas set_areas]. rewrite fmap_app. cbn. set_solver. }
  assert (area_at x ∉ records (set_areas l as_)) as Hnr by set_solver.
  split; rewrite Hrec; [|set_solver]. exists N, F, P.
  replace ({[area_at x]} ∪ records (set_areas l as_) ∪ B)
    with (records (set_areas l as_) ∪ ({[area_at x]} ∪ B)) by set_solver.
  change (set_areas (l ++ [x]) as_) with (set_areas (areas (set_areas l as_) ++ [x]) (set_areas l as_)).
  apply as_add_area; [done|set_solver|]. unfold records in Hnr. by rewrite elem_of_list_to_set in Hnr.
Qed.

Lemma space_disown U O B s as_ l x :
  space U O B s (set_areas (x :: l) as_) →
  space U O ({[area_at x]} ∪ B) s (set_areas l as_) ∧ area_at x ∉ B.
Proof.
  intros [(N & F & P & Hi) Hd].
  assert (records (set_areas (x :: l) as_) = {[area_at x]} ∪ records (set_areas l as_)) as Hrec.
  { unfold records. cbn. set_solver. }
  rewrite Hrec in *. split; [|set_solver]. destruct Hi as [I1 I2 I3 I4 I5 I6 I7 I8 I9].
  cbn [pages areas set_areas fmap list_fmap] in *. rewrite <- Permutation_middle in I5.
  apply NoDup_cons in I5 as [Hx I5]. split.
  - exists N, F, P.
    replace (records (set_areas l as_) ∪ ({[area_at x]} ∪ B))
      with ({[area_at x]} ∪ records (set_areas l as_) ∪ B) by set_solver.
    split; try done. cbn [pages areas set_areas]. intros o Ho. apply I6.
    rewrite elem_of_app, elem_of_cons in *. tauto.
  - assert (area_at x ∉ records (set_areas l as_)) as Hnr.
    { unfold records. by rewrite elem_of_list_to_set. }
    set_solver.
Qed.

(** Freeing an area's record. *)
Lemma space_free_area U O B s as_ l1 x l2 :
  space U O B s (set_areas (l1 ++ x :: l2) as_) →
  space U O B (kfree (area_at x) s) (set_areas (l1 ++ l2) as_) ∧
  kept U (owned as_ O) (mem s) (mem (kfree (area_at x) s)).
Proof.
  intros Hs. apply (space_areas _ _ _ _ _ _ (x :: l1 ++ l2)) in Hs.
  - apply space_disown in Hs as [Hs Hx]. exact (space_kfree _ _ _ _ _ _ Hs Hx).
  - by rewrite <- Permutation_middle.
Qed.

Lemma space_remove_pages U O B s as_ a b :
  space U O B s as_ →
  let as' := set_pages (filter (λ p, ¬ in_range a b p) (pages as_)) as_ in
  ∃ s', remove_pages as_ a b s = (as', s') ∧ space U O B s' as' ∧
    kept U (owned as' O) (mem s) (mem s').
Proof.
  intros [(N & F & P & Hi) Hd] as'.
  destruct (remove_pages_spec U O s as_ N F P _ a b Hi) as (s' & N' & F' & P' & E & Hi' & Hk).
  fold as' in E, Hi', Hk. exists s'. split; [done|]. split; [|done].
  set (gone := filter (λ p, in_range a b p) (pages as_)) in *.
  assert (pages as_ ≡ₚ gone ++ pages as') as Hsplit by (symmetry; apply filter_app_complement).
  assert (NoDup ((page_at <$> gone) ++ (page_at <$> pages as') ++ (area_at <$> areas as_))) as Hnd.
  { rewrite app_assoc, <- fmap_app, <- Hsplit. apply Hi. }
  assert (records as_ = list_to_set (page_at <$> gone) ∪ records as') as Hrec.
  { apply set_eq. intros x. unfold records. change (areas as') with (areas as_).
    generalize dependent (pages as'). intros kp Hsplit _. clearbody gone.
    rewrite elem_of_union, !elem_of_list_to_set, !elem_of_app, Hsplit, fmap_app, elem_of_app. tauto. }
  assert ((list_to_set (page_at <$> gone) : gset Z) ## records as') as Hdis.
  { intros x H1 H2. apply NoDup_app in Hnd as (_ & Hn & _). unfold records in H2.
    rewrite elem_of_list_to_set in H1, H2. by apply (Hn x). }
  rewrite Hrec in *. split; [|set_solver]. exists N', F', P'.
  by replace (records as' ∪ B) with ((list_to_set (page_at <$> gone) ∪ records as' ∪ B)
    ∖ list_to_set (page_at <$> gone)) by set_solver.
Qed.
(** * The loop that cuts *)

Lemma cut_loop_skip a b split l : ∀ fuel seen rest s,
  (∀ x, x ∈ l → apart a b x = true) →
  cut_loop (length l + fuel) a b split seen (l ++ rest) s = cut_loop fuel a b split (seen ++ l) rest s.
Proof.
  induction l as [|x l IH]; intros fuel seen rest s Hl; cbn [length app plus cut_loop].
  { by rewrite app_nil_r. }
  pose proof (Hl x ltac:(by left)) as Hx. unfold apart in Hx. rewrite Hx.
  rewrite IH by (intros y Hy; apply Hl; by right). by rewrite <- app_assoc.
Qed.

(** The pieces of an area that is not cut in the middle. *)
Lemma cut_loop_trim U O B as_ a b split rest : ∀ fuel seen s,
  (length rest < fuel)%nat → (∀ x, x ∈ rest → middle a b x = false) →
  space U O B s (set_areas (seen ++ rest) as_) →
  ∃ s', cut_loop fuel a b split seen rest s = Some (seen ++ cut a b split rest, split, s') ∧
    space U O B s' (set_areas (seen ++ cut a b split rest) as_) ∧
    kept U (owned as_ O) (mem s) (mem s').
Proof.
  induction rest as [|x rest IH]; intros fuel seen s Hf Hmid Hs;
    (destruct fuel as [|fuel]; [cbn in Hf; lia|]); cbn [cut_loop].
  { exists s. rewrite !app_nil_r in *. split; [done|]. split; [done|apply kept_refl]. }
  pose proof (Hmid x ltac:(by left)) as Hx.
  assert (∀ y, y ∈ rest → middle a b y = false) as Hmid' by (intros y Hy; apply Hmid; by right).
  assert (length rest < fuel)%nat as Hf' by (cbn in Hf; lia).
  assert (∀ x', area_at x' = area_at x → pieces a b split x = [x'] →
    ∃ s', cut_loop fuel a b split (seen ++ [x']) rest s = Some (seen ++ cut a b split (x :: rest), split, s') ∧
      space U O B s' (set_areas (seen ++ cut a b split (x :: rest)) as_) ∧
      kept U (owned as_ O) (mem s) (mem s')) as Hkeep.
  { intros x' Ex Ep. unfold cut. cbn [mbind list_bind]. rewrite Ep.
    destruct (IH fuel (seen ++ [x']) s Hf' Hmid') as (s' & E & Hs' & Hk).
    - eapply space_areas; [|exact Hs]. rewrite !fmap_app, <- app_assoc. cbn. by rewrite Ex.
    - rewrite <- app_assoc in E, Hs'. cbn in E, Hs'. by exists s'. }
  unfold pieces, apart, middle in Hkeep, Hx. cbn [cut] in Hkeep |- *.
  destruct ((a >=? end_ x) || (b <=? start x)) eqn:Eap; [by apply Hkeep|].
  destruct (Z.leb_spec a (start x)), (Z.gtb_spec a (start x)), (Z.geb_spec b (end_ x)),
    (Z.ltb_spec b (end_ x)); try lia; try done; cbn [andb app] in Hkeep |- *;
    rewrite ?(proj2 (Z.ltb_lt a (end_ x))) by lia; try by apply Hkeep.
  apply space_free_area in Hs as [Hs Hk1].
  destruct (IH fuel seen _ Hf' Hmid' Hs) as (s' & E & Hs' & Hk2). exists s'.
  unfold cut. cbn [mbind list_bind]. replace (pieces a b split x) with ([] : list vm_area).
  - split; [done|]. split; [done|]. by eapply kept_trans.
  - unfold pieces, apart. rewrite Eap. destruct (Z.gtb_spec a (start x)), (Z.ltb_spec b (end_ x)); lia || done.
Qed.

(** The middle cut; all that the loop still visits lies apart. *)
Lemma cut_loop_middle a b split f seen x l s :
  a < b → middle a b x = true → split ≠ 0 → (∀ y, y ∈ l → apart a b y = true) →
  cut_loop (S (2 + length l + f)) a b split seen (x :: l) s
  = Some (seen ++ with_end a x :: l ++ [mk_area split b (end_ x) (area_flags x) (kind x)], 0, s).
Proof.
  intros Hab Hm Hnz Hap. remember (2 + length l + f)%nat as n. cbn [cut_loop].
  unfold middle in Hm. apply andb_true_iff in Hm as [H1 H2].
  pose proof (proj1 (Z.gtb_lt _ _) H1). pose proof (proj1 (Z.ltb_lt _ _) H2).
  destruct (Z.geb_spec a (end_ x)), (Z.leb_spec b (start x)), (Z.leb_spec a (start x)); try lia.
  rewrite H1, H2. cbn [orb andb]. rewrite (proj2 (Z.eqb_neq _ _) Hnz). set (fresh := mk_area _ _ _ _ _).
  destruct l as [|y l]; [by subst n|].
  pose proof (cut_loop_skip a b 0 ((y :: l) ++ [fresh]) (S f) (seen ++ [with_end a x]) [] s) as Hskip.
  rewrite app_nil_r in Hskip.
  replace n with (length ((y :: l) ++ [fresh]) + S f)%nat by (subst n; rewrite length_app; cbn; lia).
  rewrite Hskip; [cbn [cut_loop]; by rewrite <- !app_assoc|].
  intros w [Hw| ->%list_elem_of_singleton]%elem_of_app; [by apply Hap|].
  unfold apart. cbn [start fresh]. by rewrite Z.leb_refl, orb_true_r.
Qed.

(** What the first loop leaves for the second: a record exactly for a middle cut. *)
Definition split_ready (a b split : Z) (l : list vm_area) : Prop :=
  (split = 0 ∧ ∀ x, x ∈ l → middle a b x = false) ∨
  (split ≠ 0 ∧ ∃ x, x ∈ l ∧ middle a b x = true).

Definition with_split (split : Z) (B : gset Z) : gset Z := if split =? 0 then B else {[split]} ∪ B.

Lemma cut_loop_spec U O B as_ a b split l s :
  a < b → areas_ok l → NoDup (area_at <$> l) → split_ready a b split l →
  (split ≠ 0 → split ∉ B) → space U O (with_split split B) s (set_areas l as_) →
  ∃ l' s', cut_loop (2 + length l) a b split [] l s = Some (l', 0, s') ∧
    l' ≡ₚ cut a b split l ∧ space U O B s' (set_areas l' as_) ∧ kept U (owned as_ O) (mem s) (mem s').
Proof.
  intros Hab Hok Hnd [[-> Hm]|(Hnz & x & Hx & Hm)] HB Hs; unfold with_split in Hs.
  { cbn [Z.eqb] in Hs. destruct (cut_loop_trim U O B as_ a b 0 l (2 + length l) [] s) as (s' & E & Hs' & Hk);
      [lia|done|done|]. eexists _, s'. split; [exact E|]. by split. }
  rewrite (proj2 (Z.eqb_neq _ _) Hnz) in Hs.
  pose proof Hx as (l1 & l2 & ->)%list_elem_of_split.
  assert (∀ y, y ∈ l1 ++ l2 → apart a b y = true) as Hap.
  { intros y Hy. apply (middle_apart a b (l1 ++ x :: l2) x y Hab Hok Hx); try done.
    - rewrite elem_of_app, elem_of_cons in *. tauto.
    - intros ->. rewrite fmap_app, fmap_cons, <- Permutation_middle, <- fmap_app in Hnd.
      apply NoDup_cons in Hnd as [Hn _]. apply Hn. by apply list_elem_of_fmap_2. }
  set (fresh := mk_area split b (end_ x) (area_flags x) (kind x)).
  assert (cut a b split (l1 ++ x :: l2) = l1 ++ [with_end a x; fresh] ++ l2) as Hcut.
  { unfold cut. rewrite bind_app. cbn [mbind list_bind]. fold (cut a b split l1) (cut a b split l2).
    rewrite !cut_apart by (intros y Hy; apply Hap, elem_of_app; auto). do 2 f_equal.
    unfold pieces, apart, middle in *. apply andb_true_iff in Hm as [H1 H2].
    apply Z.gtb_lt in H1. apply Z.ltb_lt in H2.
    destruct (Z.geb_spec a (end_ x)), (Z.leb_spec b (start x)), (Z.gtb_spec a (start x)),
      (Z.ltb_spec b (end_ x)); lia || done. }
  exists (l1 ++ with_end a x :: l2 ++ [fresh]), s. split; [|split; [|split; [|apply kept_refl]]].
  - replace (2 + length (l1 ++ x :: l2))%nat with (length l1 + (3 + length l2))%nat
      by (rewrite length_app; cbn; lia).
    rewrite cut_loop_skip by (intros y Hy; apply Hap, elem_of_app; by left).
    replace (3 + length l2)%nat with (S (2 + length l2 + 0)) by lia.
    rewrite cut_loop_middle; try done. intros y Hy. apply Hap, elem_of_app. by right.
  - rewrite Hcut. apply Permutation_app_head. cbn. constructor. by rewrite Permutation_app_comm.
  - rewrite app_comm_cons, app_assoc. apply (space_adopt U O B s as_ _ fresh); [|by apply HB].
    eapply space_areas; [|exact Hs]. rewrite !fmap_app. done.
Qed.
(** * The first loop *)

(** The range touches no area that is not a mapping. *)
Definition unmappable (a b : Z) (x : vm_area) : Prop :=
  apart a b x = true ∨ kind x = AREA_ANON ∨ kind x = AREA_FILE.

Lemma preflight_apart a b l split s :
  (∀ x, x ∈ l → apart a b x = true) → preflight a b l split s = (inr split, s).
Proof.
  induction l as [|x l IH]; intros Hl; cbn [preflight]; [done|].
  pose proof (Hl x ltac:(by left)) as Hx. unfold apart in Hx. rewrite Hx.
  apply IH. intros y Hy. apply Hl. by right.
Qed.

Lemma areas_ok_tail x l : areas_ok (x :: l) → areas_ok l.
Proof.
  intros [H1 H2]. split; [intros a Ha; apply H1; by right|].
  intros a b y Ha Hb. apply H2; by right.
Qed.

Lemma preflight_spec U O B as_ a b l s :
  a < b → areas_ok l → NoDup (area_at <$> l) → space U O B s as_ →
  ∃ r s', preflight a b l 0 s = (r, s') ∧ kept U (owned as_ O) (mem s) (mem s') ∧
    match r with
    | inl e => space U O B s' as_ ∧
        ((e = - E_PERM ∧ ∃ x, x ∈ l ∧ ¬ unmappable a b x) ∨
         (e = - E_NOMEM ∧ ∃ x, x ∈ l ∧ middle a b x = true))
    | inr split => space U O (with_split split B) s' as_ ∧ (split ≠ 0 → split ∉ B) ∧
        split_ready a b split l ∧ ∀ x, x ∈ l → unmappable a b x
    end.
Proof.
  intros Hab. revert s. induction l as [|x l IH]; intros s Hok Hnd Hs; cbn [preflight].
  { exists (inr 0), s. split; [done|]. split; [apply kept_refl|]. split; [done|]. split; [done|].
    split; [left; split; [done|]|]; intros x Hx; by apply elem_of_nil in Hx. }
  pose proof Hnd as [Hx Hnd']%NoDup_cons.
  assert ((a >=? end_ x) || (b <=? start x) = apart a b x) as -> by done.
  assert (middle a b x = false → unmappable a b x → ∃ r s', preflight a b l 0 s = (r, s') ∧
    kept U (owned as_ O) (mem s) (mem s') ∧
    match r with
    | inl e => space U O B s' as_ ∧
        ((e = - E_PERM ∧ ∃ y, y ∈ x :: l ∧ ¬ unmappable a b y) ∨
         (e = - E_NOMEM ∧ ∃ y, y ∈ x :: l ∧ middle a b y = true))
    | inr split => space U O (with_split split B) s' as_ ∧ (split ≠ 0 → split ∉ B) ∧
        split_ready a b split (x :: l) ∧ ∀ y, y ∈ x :: l → unmappable a b y
    end) as Hrest.
  { intros Hm Hu. destruct (IH s (areas_ok_tail _ _ Hok) Hnd' Hs) as (r & s' & E & Hk & Hr).
    exists r, s'. split; [done|]. split; [done|]. destruct r as [e|split].
    - destruct Hr as [Hs' [(-> & y & Hy & Hn)|(-> & y & Hy & Hn)]]; (split; [done|]); [left|right];
        (split; [done|]); exists y; (split; [by right|done]).
    - destruct Hr as (Hs' & HB & Hr & Hall). split; [done|]. split; [done|]. split.
      + destruct Hr as [[-> Hr]|(Hnz & y & Hy & Hr)]; [left|right]; (split; [done|]).
        * by intros y [->|Hy]%elem_of_cons; [|apply Hr].
        * exists y. split; [by right|done].
      + by intros y [->|Hy]%elem_of_cons; [|apply Hall]. }
  destruct (apart a b x) eqn:Eap.
  { apply Hrest; [|by left]. unfold apart, middle in *. destruct (ar_each _ Hok x ltac:(by left)) as [Hr _ _].
    destruct (Z.gtb_spec a (start x)), (Z.ltb_spec b (end_ x)); try done.
    apply orb_true_iff in Eap as [Eap%Z.geb_le|Eap%Z.leb_le]; lia. }
  destruct (negb _ && negb _) eqn:Ek.
  { rewrite kfree_null. exists (inl (- E_PERM)), s. split; [done|]. split; [apply kept_refl|].
    split; [done|]. left. split; [done|]. exists x. split; [by left|]. unfold unmappable. rewrite Eap.
    apply andb_true_iff in Ek as [E1 E2]. apply negb_true_iff, bool_decide_eq_false in E1, E2. by intros [?|[?|?]]. }
  assert (unmappable a b x) as Hu.
  { right. apply andb_false_iff in Ek as [Ek|Ek]; apply negb_false_iff, bool_decide_eq_true in Ek; auto. }
  assert ((a >? start x) && (b <? end_ x) = middle a b x) as -> by done.
  destruct (middle a b x) eqn:Em; [|by apply Hrest].
  destruct (space_kmalloc U O B s as_ 48 Hs) as (o & s1 & -> & Hk & Hs1 & HB); [lia|].
  destruct (Z.eqb_spec o 0) as [->|Ho].
  { exists (inl (- E_NOMEM)), s1. split; [done|]. split; [done|]. split; [done|]. right. split; [done|].
    exists x. split; [by left|done]. }
  assert (∀ y, y ∈ l → apart a b y = true) as Hap.
  { intros y Hy. apply (middle_apart a b (x :: l) x y); try done; [by left|by right|].
    intros ->. apply Hx. by apply list_elem_of_fmap_2. }
  rewrite preflight_apart by done. exists (inr o), s1. split; [done|]. split; [done|].
  unfold with_split. rewrite (proj2 (Z.eqb_neq _ _) Ho). split; [done|]. split; [done|]. split.
  - right. split; [done|]. exists x. split; [by left|done].
  - intros y [->|Hy]%elem_of_cons; [done|]. left. by apply Hap.
Qed.
End Munmap.
