(* ===== verification/AddressSpaceMaps.v ===== *)
(** Mapping and unmapping: [address_space_munmap], [address_space_mmap] and
    [address_space_brk] of [src/mm/address_space.c] on well-formed address spaces. *)
From S2P Require Import Prelude Machine Runtime PageAlloc Vm VmInv VmProps HeapSpec Ownership AddressSpace AddressSpaceInv AddressSpaceProps AddressSpaceClone AddressSpaceAreas.

Record as_wf (as_ : address_space) : Prop := {
  wf_areas : areas_ok (areas as_);
  wf_covered : ∀ p, p ∈ pages as_ → ∃ a, a ∈ areas as_ ∧ covers a (virtual_address p);
  wf_brk : brk_base as_ = HEAP_BASE ∧ HEAP_BASE <= brk_end as_ <= HEAP_BASE + MAX_MAPPING;
  wf_heap : ∀ a, a ∈ areas as_ → kind a = AREA_HEAP →
    start a = HEAP_BASE ∧ end_ a = round_up (brk_end as_);
  wf_heap_area : HEAP_BASE < round_up (brk_end as_) → ∃ a, a ∈ areas as_ ∧ kind a = AREA_HEAP;
}.

Lemma round_up_eq x : 0 <= x → x + 4095 < 2 ^ 64 → round_up x = (x + 4095) / 4096 * 4096.
Proof.
  intros H1 H2. unfold round_up. rewrite u64_small by (unfold in_u64; lia).
  rewrite land_not_page_mask by (unfold in_u64; lia). div_lia.
Qed.

Lemma in_range_spec a b p : in_range a b p = true ↔ a <= virtual_address p < b.
Proof.
  unfold in_range. rewrite negb_true_iff, orb_false_iff, Z.ltb_ge, Z.geb_leb, Z.leb_gt. lia.
Qed.

Lemma elem_of_kept a b (ps : list user_page) p :
  p ∈ filter (λ p, ¬ in_range a b p) ps ↔ p ∈ ps ∧ ¬ (a <= virtual_address p < b).
Proof. rewrite list_elem_of_filter, <- in_range_spec, Is_true_true. tauto. Qed.

(** The pages apart from a range stay. *)
Lemma filter_all a b (ps : list user_page) :
  (∀ p, p ∈ ps → ¬ (a <= virtual_address p < b)) → filter (λ p, ¬ in_range a b p) ps = ps.
Proof. intros Hp. apply filter_all_kept. intros p Hq.
  rewrite Is_true_true, in_range_spec. by apply Hp.
Qed.

(** * The first-fit search *)

Lemma scan_spec as_ n fuel : ∀ at_,
  at_ mod PAGE_SIZE = 0 → MMAP_END - n - at_ < PAGE_SIZE * Z.of_nat fuel →
  let a := scan fuel as_ at_ n in
  at_ <= a ∧ a mod PAGE_SIZE = 0 ∧ (a <= MMAP_END - n → vacant as_ a (a + n) = true) ∧
  ∀ x, at_ <= x < a → x mod PAGE_SIZE = 0 → x <= MMAP_END - n → vacant as_ x (x + n) = false.
Proof.
  induction fuel as [|fuel IH]; intros at_ Ha Hf; cbn [scan].
  { split; [lia|]. split; [done|]. split; [lia|]. intros x Hx. lia. }
  destruct (Z.leb_spec at_ (MMAP_END - n)) as [Hle|Hgt].
  2:{ split; [lia|]. split; [done|]. split; [lia|]. intros x Hx. lia. }
  destruct (vacant as_ at_ (at_ + n)) eqn:Ev.
  { split; [lia|]. split; [done|]. split; [done|]. intros x Hx. lia. }
  destruct (IH (at_ + PAGE_SIZE)) as (H1 & H2 & H3 & H4); [div_lia|lia|].
  split; [lia|]. split; [done|]. split; [done|]. intros x Hx Hx4 Hxn.
  destruct (decide (x = at_)) as [->|]; [done|]. apply H4; try done. clear -Hx Hx4 Ha n0. div_lia.
Qed.

Lemma areas_ok_snoc l x :
  areas_ok l → area_ok x → (∀ a y, a ∈ l → covers a y → ¬ covers x y) → areas_ok (l ++ [x]).
Proof.
  intros [H1 H2] Hx Hd. split.
  - intros a [Ha| ->%list_elem_of_singleton]%elem_of_app; auto.
  - intros a b y [Ha| ->%list_elem_of_singleton]%elem_of_app [Hb| ->%list_elem_of_singleton]%elem_of_app Hca Hcb;
      [by eapply H2| | |done]; exfalso; by eapply Hd.
Qed.

Lemma mmap_flags_range prot : in_u64 (mmap_flags prot).
Proof. unfold mmap_flags, in_u64. destruct (negb _), (negb _), (negb _); by vm_compute. Qed.

(** A new area at a vacant place. *)
Lemma wf_extend as_ x ps :
  as_wf as_ → area_ok x → vacant as_ (start x) (end_ x) = true → kind x ≠ AREA_HEAP →
  (∀ p, p ∈ ps → covers x (virtual_address p)) →
  as_wf (set_pages (pages as_ ++ ps) (set_areas (areas as_ ++ [x]) as_)).
Proof.
  intros [W1 W2 W3 W4 W5] Hx Hv Hk Hps. pose proof (ao_range _ Hx) as Hr.
  split; cbn [areas pages brk_base brk_end set_areas set_pages]; try done.
  - apply areas_ok_snoc; [done|done|]. intros a y Ha Hc. eapply vacant_spec; eauto; [lia|by apply W1].
  - intros p [Hp|Hp]%elem_of_app.
    + destruct (W2 p Hp) as (a & Ha & Hc). exists a. rewrite elem_of_app. auto.
    + exists x. split; [apply elem_of_app; right; by left|by apply Hps].
  - intros a [Ha| ->%list_elem_of_singleton]%elem_of_app; [by apply W4|done].
  - intros Hgt. destruct (W5 Hgt) as (a & Ha & Hka). exists a. rewrite elem_of_app. auto.
Qed.

(** No page of the ledger lies in a vacant range. *)
Lemma vacant_pages as_ a b :
  as_wf as_ → a < b → vacant as_ a b = true → ∀ p, p ∈ pages as_ → ¬ (a <= virtual_address p < b).
Proof.
  intros [W1 W2 _ _ _] Hab Hv p Hp. destruct (W2 p Hp) as (x & Hx & Hc).
  eapply vacant_spec; eauto. by apply W1.
Qed.

Section Maps.
Context `{HeapContract}.

Lemma space_area_records U O B s as_ : space U O B s as_ → NoDup (area_at <$> areas as_).
Proof.
  intros [(N & F & P & Hi) _]. pose proof (ai_records _ _ _ _ _ _ _ _ Hi) as Hr.
  by apply NoDup_app in Hr as (_ & _ & ?).
Qed.

(** * Unmapping *)

Lemma wf_cut as_ a b split ps l :
  as_wf as_ → a < b → 0 <= a → b <= USER_END → a mod PAGE_SIZE = 0 → b mod PAGE_SIZE = 0 →
  (∀ x, x ∈ areas as_ → unmappable a b x) → l ≡ₚ cut a b split (areas as_) →
  ps = filter (λ p, ¬ in_range a b p) (pages as_) →
  as_wf (set_areas l (set_pages ps as_)).
Proof.
  intros [W1 W2 W3 W4 W5] Hab Ha Hb Ha4 Hb4 Hu Hl ->.
  destruct (cut_ok a b split (areas as_) Hab Ha Hb Ha4 Hb4 W1) as [Hc1 Hc2].
  split; cbn [areas pages brk_base brk_end set_areas set_pages]; try done.
  - split; [intros x; rewrite Hl; apply Hc1|]. intros x y z. rewrite Hl. apply Hc2.
  - intros p [Hp Hr]%elem_of_kept. destruct (W2 p Hp) as (x & Hx & Hc).
    destruct (pieces_complete a b split x _ Hc Hr) as (q & Hq & Hqc). exists q. split; [|done].
    rewrite Hl. apply list_elem_of_bind. eauto.
  - intros q. rewrite Hl. intros (x & Hq & Hx)%list_elem_of_bind Hk.
    destruct (Hu x Hx) as [Hap|Hk']; [rewrite pieces_apart in Hq by done; apply list_elem_of_singleton in Hq as ->; eauto|].
    exfalso. assert (kind q = kind x) as Ek; [|rewrite Hk in Ek; destruct Hk'; congruence].
    clear -Hq. unfold pieces in Hq. destruct (apart a b x); [by apply list_elem_of_singleton in Hq as ->|].
    destruct (a >? start x), (b <? end_ x); cbn [app] in Hq;
      rewrite ?elem_of_cons, ?elem_of_nil in Hq; destruct_or?; by subst.
  - intros Hgt. destruct (W5 Hgt) as (x & Hx & Hk). exists x. split; [|done]. rewrite Hl.
    apply list_elem_of_bind. exists x. split; [|done].
    destruct (Hu x Hx) as [Hap|Hk']; [rewrite pieces_apart by done; by left|].
    exfalso. destruct Hk'; congruence.
Qed.

(** The range taken out of the ledger and the areas, or an error and nothing
    changed. *)
Definition munmap_outcome (as_ : address_space) (a n r : Z) (as' : address_space) : Prop :=
  let b := round_up (a + n) in
  (r = 0 ∧ a mod PAGE_SIZE = 0 ∧ 0 < n <= USER_END - a ∧
   pages as' = filter (λ p, ¬ in_range a b p) (pages as_) ∧
   (∀ x, x ∈ areas as_ → unmappable a b x) ∧
   (∀ x fl k, reserved (areas as') x fl k ↔ reserved (areas as_) x fl k ∧ ¬ (a <= x < b))) ∨
  (as' = as_ ∧
   ((r = - E_INVAL ∧ ¬ (a mod PAGE_SIZE = 0 ∧ 0 < n <= USER_END - a)) ∨
    (r = - E_PERM ∧ ∃ x, x ∈ areas as_ ∧ ¬ unmappable a b x) ∨
    (r = - E_NOMEM ∧ ∃ x, x ∈ areas as_ ∧ middle a b x = true))).

Lemma munmap_spec U O B s as_ a n :
  space U O B s as_ → as_wf as_ → 0 <= a → 0 <= n →
  ∃ r as' s', address_space_munmap as_ a n s = Some (r, as', s') ∧
    space U O B s' as' ∧ as_wf as' ∧ kept U (owned as' O) (mem s) (mem s') ∧ munmap_outcome as_ a n r as'.
Proof.
  intros Hs Hwf Ha Hn. unfold munmap_outcome. set (b := round_up (a + n)). unfold address_space_munmap. rewrite land_page_mask.
  destruct (negb (a mod 4096 =? 0) || _ || _ || _) eqn:Eg.
  { exists (- E_INVAL), as_, s. split; [done|]. split; [done|]. split; [done|]. split; [apply kept_refl|].
    right. split; [done|]. left. split; [done|]. rewrite !orb_true_iff, negb_true_iff, Z.geb_leb, Z.gtb_ltb in Eg.
    clear -Eg. lia. }
  rewrite !orb_false_iff, negb_false_iff, Z.geb_leb, Z.gtb_ltb in Eg.
  assert (a mod PAGE_SIZE = 0 ∧ 0 < n <= USER_END - a) as [Ha4 Hn'] by (clear -Eg Hn; lia). clear Eg.
  assert (a < b ∧ b <= USER_END ∧ b mod PAGE_SIZE = 0) as (Hab & Hb & Hb4).
  { unfold b. rewrite round_up_eq by lia. clear -Ha Ha4 Hn'. div_lia. }
  fold b.
  destruct (preflight_spec U O B as_ a b (areas as_) s Hab (wf_areas _ Hwf) (space_area_records _ _ _ _ _ Hs) Hs)
    as (r & s1 & -> & Hk1 & Hr). destruct r as [e|split].
  { destruct Hr as [Hs1 He]. exists e, as_, s1. split; [done|]. split; [done|]. split; [done|].
    split; [done|]. right. split; [done|]. by right. }
  destruct Hr as (Hs1 & HB & Hready & Hu).
  destruct (space_remove_pages U O _ s1 as_ a b Hs1) as (s2 & -> & Hs2 & Hk2).
  set (ps := filter (λ p, ¬ in_range a b p) (pages as_)) in *. cbn [areas set_pages].
  destruct (cut_loop_spec U O B (set_pages ps as_) a b split (areas as_) s2 Hab (wf_areas _ Hwf)
    (space_area_records _ _ _ _ _ Hs) Hready HB) as (l' & s3 & -> & Hl & Hs3 & Hk3).
  { exact Hs2. }
  rewrite kfree_null. eexists 0, _, s3. split; [done|]. split; [done|].
  split; [by eapply wf_cut|]. split; [|left; split; [done|]].
  - eapply kept_trans; [|exact (kept_trans _ _ _ _ _ Hk2 Hk3)]. eapply kept_sub; [|exact Hk1].
    unfold owned. cbn [pages set_pages set_areas]. intros x. rewrite !elem_of_app. intros [Hx|Hx]; [left|by right].
    apply list_elem_of_fmap in Hx as (p & -> & [Hp _]%elem_of_kept). by apply list_elem_of_fmap_2.
  - split; [done|]. split; [done|]. split; [done|]. split; [done|]. intros x fl k. cbn [areas set_areas].
    rewrite <- (cut_reserved a b split) by (done || apply Hwf). unfold reserved. by setoid_rewrite Hl.
Qed.
(** * Mapping *)

(** What the kernel knows of [file_pread]: it writes nothing but the buffer. *)
Class FileContract `{FileAccess} := {
  file_pread_frame f ptr n offset s :
    let s' := snd (file_pread f ptr n offset s) in
    same_on (λ a, ¬ (ptr <= a < ptr + n)) (mem s) (mem s') ∧
    free_list s' = free_list s ∧ free_pages s' = free_pages s ∧ total_pages s' = total_pages s;
}.

(** A write into a page of the ledger. *)
Lemma space_write U O B s s' as_ p :
  space U O B s as_ → p ∈ pages as_ → same_on (λ a, ¬ in_page (physical p) a) (mem s) (mem s') →
  free_list s' = free_list s → free_pages s' = free_pages s → total_pages s' = total_pages s →
  space U O B s' as_.
Proof.
  intros [(N & F & P & Hi) Hd] Hp Hm E1 E2 E3. split; [|done]. exists N, F, P.
  pose proof (bare_of_as _ _ _ _ _ _ _ _ Hi) as Hb.
  assert (physical p ∈ owned as_ O) as Hpo.
  { unfold owned. apply elem_of_app. left. by apply list_elem_of_fmap_2. }
  assert (physical p ∈ U) as HpU by (eapply (bare_member U); [exact Hb|rewrite !elem_of_app; tauto]).
  apply (as_write U O s); try done. intros a Ha. apply Hm. intros Hpa.
  destruct Ha as [Ha|(q & Hq & Ha)]; [by eapply (heap_ok_static U _ _ _ _ (physical p) a (ai_heap _ _ _ _ _ _ _ _ Hi))|].
  pose proof (as_nodup _ _ _ _ _ _ _ _ Hi) as Hnd. rewrite !app_assoc, <- (app_assoc _ (physical <$> _)) in Hnd.
  apply NoDup_app in Hnd as (_ & Hdis & _). apply (Hdis q); [by rewrite <- app_assoc|].
  assert (q = physical p) as ->; [|done].
  eapply (bare_disjoint U); [exact Hb| | |exact Ha|exact Hpa]; rewrite !elem_of_app in *; tauto.
Qed.

(** The pages of the ledger, like everything owned, share no byte. *)
Lemma space_pages_apart U O B s as_ p a :
  space U O B s (add_page p as_) → region U (owned as_ O) a → ¬ in_page (physical p) a.
Proof.
  intros [(N & F & P & Hi) _] Ha Hp.
  pose proof (bare_of_as _ _ _ _ _ _ _ _ Hi) as Hb. pose proof (as_nodup _ _ _ _ _ _ _ _ Hi) as Hnd.
  unfold owned in *. cbn [pages add_page set_pages] in *. rewrite fmap_app in *. cbn in Hnd, Hb.
  assert (∀ y, y ∈ (physical <$> pages as_) ++ O → y ∈ F ++ P ++ map_vals N ++
    ((physical <$> pages as_) ++ [physical p]) ++ O) as Hsub.
  { intros y. rewrite !elem_of_app. tauto. }
  assert (physical p ∈ F ++ P ++ map_vals N ++ ((physical <$> pages as_) ++ [physical p]) ++ O) as Hin.
  { rewrite !elem_of_app, list_elem_of_singleton. tauto. }
  destruct Ha as [(q & Hq & Ha)|[Ha _]].
  - assert (q = physical p) as ->.
    { eapply (bare_disjoint U); [exact Hb|by apply Hsub|exact Hin|exact Ha|exact Hp]. }
    rewrite <- (app_assoc _ [_]), !app_assoc, <- Permutation_middle in Hnd. cbn in Hnd.
    apply NoDup_cons in Hnd as [Hn _]. apply Hn. rewrite !elem_of_app in *. tauto.
  - apply (Ha (physical p)); [|done]. eapply (bare_member U); [exact Hb|exact Hin].
Qed.

Definition page_addresses (at_ : Z) (n : nat) : list Z := (λ i, at_ + PAGE_SIZE * Z.of_nat i) <$> seq 0 n.

Lemma page_addresses_S at_ n : page_addresses at_ (S n) = at_ :: page_addresses (at_ + PAGE_SIZE) n.
Proof.
  unfold page_addresses. cbn [seq fmap list_fmap]. f_equal; [lia|].
  rewrite <- seq_shift. rewrite <- list_fmap_compose. apply list_fmap_ext. intros i x _. cbn. lia.
Qed.

Definition zeroed (m : memory) (p : user_page) : Prop :=
  ∀ i, 0 <= i < PAGE_SIZE → load8 m (phys_to_virt (physical p) + i) = 0.

Lemma zeroed_kept U Q m m' p : kept U Q m m' → physical p ∈ Q → zeroed m p → zeroed m' p.
Proof.
  intros Hk Hp Hz i Hi. rewrite (Hk (phys_to_virt (physical p) + i)); [by apply Hz|].
  left. exists (physical p). unfold in_page. split; [done|lia].
Qed.

(** The part of one round of [populate] that reads the file. *)
Lemma pread_spec `{FileContract} U O B s as_ p source offset :
  space U O B s (add_page p as_) →
  let res := match source, last (pages (add_page p as_)) with
             | Some f, Some p => let '(r, m) := file_pread f (phys_to_virt (physical p)) PAGE_SIZE offset s in
                                 (negb (r <? 0), m)
             | _, _ => (true, s)
             end in
  space U O B (snd res) (add_page p as_) ∧ kept U (owned as_ O) (mem s) (mem (snd res)) ∧
  (source = None → res = (true, s)).
Proof.
  intros Hs. cbn [pages add_page set_pages]. rewrite last_snoc. destruct source as [f|]; cbv zeta.
  2:{ split; [done|]. split; [apply kept_refl|done]. }
  pose proof (file_pread_frame f (phys_to_virt (physical p)) PAGE_SIZE offset s) as Hf. cbv zeta in Hf.
  destruct (file_pread _ _ _ _ _) as [r s']. cbn [snd] in *. destruct Hf as (Hm & E1 & E2 & E3).
  split; [|split; [|done]].
  - apply (space_write U O B s s' _ p); try done. cbn [pages add_page set_pages].
    apply elem_of_app. right. by left.
  - intros a Ha. apply Hm. by eapply space_pages_apart.
Qed.

Lemma populate_spec `{FileContract} U O B address flags source offset n : ∀ as_ at_ s,
  space U O B s as_ → 0 <= at_ → in_u64 flags →
  (∀ p, p ∈ pages as_ → ¬ (at_ <= virtual_address p < at_ + PAGE_SIZE * Z.of_nat n)) →
  ∃ ok l s', populate n as_ at_ address flags source offset s = (ok, set_pages (pages as_ ++ l) as_, s') ∧
    space U O B s' (set_pages (pages as_ ++ l) as_) ∧ kept U (owned as_ O) (mem s) (mem s') ∧
    (∀ p, p ∈ l → at_ <= virtual_address p < at_ + PAGE_SIZE * Z.of_nat n ∧ page_flags p = flags) ∧
    (ok = true → virtual_address <$> l = page_addresses at_ n ∧
       (source = None → ∀ p, p ∈ l → zeroed (mem s') p)).
Proof.
  induction n as [|n IH]; intros as_ at_ s Hs Ha Hf Hnew; cbn [populate].
  { exists true, [], s. rewrite app_nil_r, set_pages_id. split; [done|]. split; [done|].
    split; [apply kept_refl|]. split; [|split; [done|]]; try intros _; intros p Hp; by apply elem_of_nil in Hp. }
  destruct (space_add_page U O B s as_ at_ flags 0 0 Hs Ha Hf) as (ok & as1 & s1 & -> & Hk1 & Hs1 & Hres);
    [done| |lia|].
  { intros (p & Ep & Hp)%list_elem_of_fmap. apply (Hnew p Hp). lia. }
  destruct ok; cbn [negb].
  2:{ subst as1. exists false, [], s1. rewrite app_nil_r, set_pages_id. split; [done|]. split; [done|].
      split; [done|]. split; [|done]. intros p Hp. by apply elem_of_nil in Hp. }
  destruct Hres as (p & -> & Eva & Efl & _ & Hfill).
  destruct (pread_spec U O B s1 as_ p source (u64 (offset + at_ - address)) Hs1) as (Hs2 & Hk2 & Hno).
  destruct (match source with Some _ => _ | None => _ end) as [ok s2]. cbn [snd] in *.
  assert (kept U (owned as_ O) (mem s) (mem s2)) as Hk12 by (by eapply kept_trans).
  destruct ok; cbn [negb].
  2:{ exists false, [p], s2. split; [done|]. split; [done|]. split; [done|]. split; [|done].
      intros q ->%list_elem_of_singleton. lia. }
  destruct (IH (add_page p as_) (at_ + PAGE_SIZE) s2 Hs2) as (ok & l & s3 & -> & Hs3 & Hk3 & Hl & Hok);
    [lia|done| |].
  { cbn [pages add_page set_pages]. intros q [Hq| ->%list_elem_of_singleton]%elem_of_app; [|lia].
    pose proof (Hnew q Hq). lia. }
  unfold add_page in Hs3 |- *. cbn [pages set_pages] in *. rewrite set_pages_twice, <- app_assoc in *. cbn [app] in *.
  exists ok, (p :: l), s3. split; [done|]. split; [done|].
  split; [eapply kept_trans; [exact Hk12|]; eapply kept_sub; [|exact Hk3]; unfold owned;
    cbn [pages add_page set_pages]; intros x; rewrite fmap_app, !elem_of_app; tauto|].
  split.
  { intros q [->|Hq]%elem_of_cons; [lia|]. destruct (Hl q Hq). lia. }
  intros ->. destruct (Hok eq_refl) as [Hva Hz]. split.
  { rewrite page_addresses_S, <- Hva. cbn. by rewrite Eva. }
  intros Hsrc q [->|Hq]%elem_of_cons; [|by apply Hz].
  apply (zeroed_kept _ _ (mem s2) _ _ Hk3).
  { unfold owned. cbn [pages add_page set_pages]. rewrite fmap_app, !elem_of_app. cbn.
    rewrite list_elem_of_singleton. auto. }
  injection (Hno Hsrc) as ->. intros i Hi. rewrite (Hfill i Hi).
  destruct (Z.ltb_spec i 0); [lia|done].
Qed.
(** The second half of [address_space_mmap], once the place is chosen. *)
Definition commit `{FileAccess} (as_ : address_space) (address length flags : Z) (k : area_kind)
    (source : option file) (offset : Z) (m : kstate) : Z * address_space * kstate :=
  let '(ok, as_, m) := address_space_reserve as_ address (address + length) flags k m in
  if negb ok then (- E_NOMEM, as_, m)
  else
    let area := match last (areas as_) with Some a => area_at a | None => 0 end in
    let '(ok, as_, m) := populate (Z.to_nat (length / PAGE_SIZE)) as_ address address flags source offset m in
    if ok then (s64 address, as_, vm_flush_all m)
    else
      let '(as_, m) := remove_pages as_ address (address + length) m in
      let as_ := set_areas (filter (λ a, area_at a ≠ area) (areas as_)) as_ in
      (- E_NOMEM, as_, kfree area m).

(** The new mapping at [a]. *)
Definition mapping (as_ as' : address_space) (a n flags : Z) (k : area_kind) : Prop :=
  ∃ o l, as' = set_pages (pages as_ ++ l) (set_areas (areas as_ ++ [mk_area o a (a + n) flags k]) as_) ∧
    virtual_address <$> l = page_addresses a (Z.to_nat (n / PAGE_SIZE)) ∧
    (∀ p, p ∈ l → page_flags p = flags).

Lemma filter_records (l : list vm_area) x :
  NoDup (area_at <$> l ++ [x]) → filter (λ a, area_at a ≠ area_at x) (l ++ [x]) = l.
Proof.
  intros Hnd. rewrite fmap_app in Hnd. apply NoDup_app in Hnd as (_ & Hd & _).
  rewrite filter_app, filter_cons, decide_False by (intros Hn; by apply Hn). rewrite filter_nil, app_nil_r.
  induction l as [|y l IH]; [done|]. rewrite filter_cons, decide_True.
  - f_equal. apply IH. intros z Hz. apply Hd. by right.
  - intros E. apply (Hd (area_at y)); [by left|]. cbn. rewrite E. by left.
Qed.

Lemma commit_spec `{FileContract} U O B s as_ a n flags k source offset :
  space U O B s as_ → as_wf as_ → MMAP_BASE <= a <= MMAP_END - n → 0 < n →
  a mod PAGE_SIZE = 0 → n mod PAGE_SIZE = 0 → vacant as_ a (a + n) = true → in_u64 flags → k ≠ AREA_HEAP →
  ∃ r as' s', commit as_ a n flags k source offset s = (r, as', s') ∧
    space U O B s' as' ∧ as_wf as' ∧ kept U (owned as_ O) (mem s) (mem s') ∧
    ((r = a ∧ mapping as_ as' a n flags k ∧
      (source = None → ∀ p, p ∈ pages as' → p ∉ pages as_ → zeroed (mem s') p)) ∨
     (r = - E_NOMEM ∧ as' = as_)).
Proof.
  intros Hs Hwf Ha Hn Ha4 Hn4 Hv Hf Hk. unfold commit.
  destruct (space_reserve U O B s as_ a (a + n) flags k Hs) as (ok & as1 & s1 & -> & Hk1 & Hs1 & Hres).
  destruct ok; cbn [negb].
  2:{ subst as1. eexists _, as_, s1. split; [done|]. split; [done|]. split; [done|]. split; [done|]. by right. }
  destruct Hres as (o & Ho & _ & ->). set (x := mk_area o a (a + n) flags k) in *.
  cbn [areas set_areas]. rewrite last_snoc. cbv zeta. cbn [area_at x].
  pose proof (vacant_pages as_ a (a + n) Hwf ltac:(lia) Hv) as Hfree.
  assert (PAGE_SIZE * Z.of_nat (Z.to_nat (n / PAGE_SIZE)) = n) as Elen by (clear -Hn Hn4; div_lia).
  destruct (populate_spec U O B a flags source offset (Z.to_nat (n / PAGE_SIZE))
    (set_areas (areas as_ ++ [x]) as_) a s1 Hs1) as (ok & l & s2 & -> & Hs2 & Hk2 & Hl & Hok);
    [lia|done|by rewrite Elen|]. rewrite Elen in Hl. cbn [pages set_areas] in *.
  assert (kept U (owned as_ O) (mem s) (mem s2)) as Hk12 by (by eapply kept_trans).
  destruct ok.
  - eexists _, _, s2. unfold vm_flush_all. split; [done|]. split; [done|]. split; [|split; [done|]].
    + apply wf_extend; try done; [split; cbn; [lia|done|]|].
      * clear -Ha4 Hn4. div_lia.
      * intros p Hp. apply Hl, Hp.
    + left. destruct (Hok eq_refl) as [Hva Hz].
      split; [unfold s64; case_if; lia|]. split.
      * exists o, l. split; [done|]. split; [done|]. intros p Hp. by apply Hl.
      * intros Hsrc p. cbn [pages set_pages]. rewrite elem_of_app. intros [Hp|Hp] Hn'; [done|by apply Hz].
  - destruct (space_remove_pages U O B s2 _ a (a + n) Hs2) as (s3 & -> & Hs3 & Hk3).
    cbn [pages set_pages areas set_areas] in *.
    assert (filter (λ p, ¬ in_range a (a + n) p) (pages as_ ++ l) = pages as_) as Hback.
    { rewrite filter_app, (filter_all _ _ _ Hfree). rewrite <- (app_nil_r (pages as_)) at 2. f_equal.
      apply elem_of_nil_inv. intros p [Hp Hr]%elem_of_kept. apply Hr, Hl, Hp. }
    rewrite !set_pages_twice, Hback in *.
    assert (set_areas (filter (λ c, area_at c ≠ o) (areas as_ ++ [x]))
      (set_pages (pages as_) (set_areas (areas as_ ++ [x]) as_)) = as_) as Has.
    { change o with (area_at x). rewrite filter_records by exact (space_area_records _ _ _ _ _ Hs1).
      by destruct as_. }
    change (set_pages (pages as_) (set_areas (areas as_ ++ [x]) as_)) with (set_areas (areas as_ ++ [x]) as_) in Hs3.
    apply (space_free_area U O B s3 as_ (areas as_) x []) in Hs3 as [Hs4 Hk4].
    rewrite app_nil_r, set_areas_id in Hs4. cbn [area_at x] in Hs4, Hk4.
    eexists _, as_, (kfree o s3). split; [by rewrite Has|]. split; [done|]. split; [done|].
    split; [|by right]. eapply kept_trans; [exact Hk12|]. by eapply kept_trans.
Qed.
Definition anonymous (mapflags : Z) : bool := negb (Z.land mapflags MAP_ANONYMOUS =? 0).
Definition fixed (mapflags : Z) : bool := negb (Z.land mapflags MAP_FIXED_NOREPLACE =? 0).

(** The place that [address_space_mmap] chooses. *)
Definition place (as_ : address_space) (address length mapflags : Z) : Z + Z :=
  let outside := (address <? MMAP_BASE) || (address >? MMAP_END - length) in
  if negb (Z.land mapflags MAP_FIXED_NOREPLACE =? 0) then
    if outside then inl (- E_INVAL)
    else if negb (vacant as_ address (address + length)) then inl (- E_EXIST)
    else inr address
  else if outside || negb (vacant as_ address (address + length)) then
    let address := scan scan_fuel as_ MMAP_BASE length in
    if address >? MMAP_END - length then inl (- E_NOMEM) else inr address
  else inr address.

(** A free place of [n] bytes in the mapping region. *)
Definition free_place (as_ : address_space) (a n : Z) : Prop :=
  MMAP_BASE <= a <= MMAP_END - n ∧ a mod PAGE_SIZE = 0 ∧ vacant as_ a (a + n) = true.

(** The address the caller asks for if it is free, else, unless the place is
    fixed, the lowest free one. *)
Definition placed (as_ : address_space) (address n mapflags r : Z) : Prop :=
  free_place as_ r n ∧
  (r = address ∨ (fixed mapflags = false ∧ ¬ free_place as_ address n ∧
     ∀ x, x < r → ¬ free_place as_ x n)).

Lemma place_spec as_ address n mapflags :
  address mod PAGE_SIZE = 0 → 0 < n →
  match place as_ address n mapflags with
  | inr r => placed as_ address n mapflags r
  | inl e => ¬ free_place as_ address n ∧
      (fixed mapflags = true ∧ (e = - E_INVAL ∨ e = - E_EXIST) ∨
       fixed mapflags = false ∧ e = - E_NOMEM ∧ ∀ x, ¬ free_place as_ x n)
  end.
Proof.
  intros Ha Hn. unfold place, placed. cbv zeta. fold (fixed mapflags).
  assert (((address <? MMAP_BASE) || (address >? MMAP_END - n)) || negb (vacant as_ address (address + n)) = false
    ↔ free_place as_ address n) as Hfree.
  { unfold free_place. rewrite !orb_false_iff, negb_false_iff, Z.gtb_ltb, !Z.ltb_ge. tauto. }
  destruct (fixed mapflags) eqn:Ef.
  - destruct (_ || (address >? _)) eqn:Eo.
    { split; [rewrite <- Hfree; done|]. auto. }
    destruct (negb (vacant _ _ _)) eqn:Ev; [split; [rewrite <- Hfree; done|]; auto|].
    split; [by apply Hfree|by left].
  - destruct (_ || negb (vacant _ _ _)) eqn:Eo; [|by split; [apply Hfree|left]].
    assert (¬ free_place as_ address n) as Hno by (rewrite <- Hfree; done).
    assert (MMAP_END - n - MMAP_BASE < PAGE_SIZE * Z.of_nat scan_fuel) as Hfuel.
    { unfold scan_fuel. rewrite Z2Nat.id by (vm_compute; discriminate).
      change ((MMAP_END - MMAP_BASE) / PAGE_SIZE + 1) with 65537. lia. }
    destruct (scan_spec as_ n scan_fuel MMAP_BASE eq_refl Hfuel) as (H1 & H2 & H3 & H4).
    generalize dependent (scan scan_fuel as_ MMAP_BASE n). intros a H1 H2 H3 H4.
    destruct (Z.gtb_spec a (MMAP_END - n)).
    + split; [done|]. right. split; [done|]. split; [done|]. intros x ([Hx1 Hx2] & Hx4 & Hxv).
      rewrite H4 in Hxv; [done|lia|done|lia].
    + split; [split; [lia|]; auto|]. right. split; [done|]. split; [done|].
      intros x Hx ([Hx1 Hx2] & Hx4 & Hxv). rewrite H4 in Hxv; [done|lia|done|lia].
Qed.

Lemma land_bit_set x i : 0 <= i → Z.land x (2 ^ i) ≠ 0 → Z.testbit x i = true.
Proof.
  intros Hi Hx. destruct (Z.testbit x i) eqn:E; [done|]. exfalso. apply Hx.
  apply Z.bits_inj. intros j. rewrite Z.land_spec, Z.bits_0.
  destruct (decide (j = i)) as [->|Hj]; [by rewrite E|].
  destruct (decide (j < 0)); [by rewrite !Z.testbit_neg_r|].
  by rewrite (Z.pow2_bits_false i j), andb_false_r.
Qed.

Lemma mmap_flags_wx prot :
  Z.land prot (Z.lor PROT_WRITE PROT_EXEC) ≠ Z.lor PROT_WRITE PROT_EXEC →
  Z.land (mmap_flags prot) (Z.lor PTE_W PTE_X) ≠ Z.lor PTE_W PTE_X.
Proof.
  intros Hp. unfold mmap_flags.
  destruct (Z.eqb_spec (Z.land prot PROT_WRITE) 0) as [|Hw], (Z.eqb_spec (Z.land prot PROT_EXEC) 0) as [|Hx];
    cbn [negb]; [destruct (Z.land prot PROT_READ =? 0); by vm_compute..|].
  exfalso. apply Hp. apply (land_bit_set prot 1) in Hw; [|done]. apply (land_bit_set prot 2) in Hx; [|done].
  apply Z.bits_inj. intros i. rewrite Z.land_spec.
  destruct (decide (i = 1)) as [->|]; [by rewrite Hw|]. destruct (decide (i = 2)) as [->|]; [by rewrite Hx|].
  change (Z.lor PROT_WRITE PROT_EXEC) with (Z.lor (2 ^ 1) (2 ^ 2)).
  by rewrite Z.lor_spec, !Z.pow2_bits_false, andb_false_r by done.
Qed.

(** The files that may be mapped: regular, and open for reading. *)
Definition mappable `{FileAccess} (f : option file) : bool :=
  match f with
  | None => false
  | Some f =>
      match file_node_type f with
      | None => false
      | Some ty => (ty =? DT_REG) && negb (Z.land (file_flags f) O_ACCMODE =? O_WRONLY)
      end
  end.

(** The rights [prot] asks for, as the bits of a page table entry: the program may read
    (bit 1), write (2) and execute (3) what the bits 0, 1 and 2 of [prot] say, the page
    is the user's (4), and nothing else is set. *)
Definition requested (prot flags : Z) : Prop :=
  ∀ i, 0 <= i → Z.testbit flags i =
    if decide (1 <= i <= 3) then Z.testbit prot (i - 1) else bool_decide (i = 4).

Lemma mmap_flags_requested prot : requested prot (mmap_flags prot).
Proof.
  intros i Hi. unfold mmap_flags.
  pose proof (land_bit prot 0 ltac:(lia)) as E0. pose proof (land_bit prot 1 ltac:(lia)) as E1. pose proof (land_bit prot 2 ltac:(lia)) as E2.
  change (2 ^ 0) with 1 in E0. change (2 ^ 1) with 2 in E1. change (2 ^ 2) with 4 in E2. rewrite E0, E1, E2, !negb_involutive. clear E0 E1 E2.
  destruct (decide (i < 5)) as [Hl|Hl].
  - assert (i = 0 ∨ i = 1 ∨ i = 2 ∨ i = 3 ∨ i = 4) as Hc by lia.
    destruct Hc as [->|[->|[->|[->| ->]]]]; change (1 - 1) with 0; change (2 - 1) with 1; change (3 - 1) with 2;
      destruct (Z.testbit prot 0), (Z.testbit prot 1), (Z.testbit prot 2); reflexivity.
  - rewrite decide_False by lia. rewrite (bool_decide_eq_false_2 (i = 4)) by lia.
    destruct (Z.testbit prot 0), (Z.testbit prot 1), (Z.testbit prot 2); (apply Z.bits_above_log2; [done|];
      match goal with |- Z.log2 ?x < _ => let k := eval vm_compute in (Z.log2 x) in change (Z.log2 x) with k end; lia).
Qed.

(** A mapping where it belongs, or an error and nothing changed. *)
Definition mmap_outcome `{FileAccess} (as_ : address_space) (address length prot mapflags : Z) (f : option file)
    (r : Z) (as' : address_space) (m' : memory) : Prop :=
  let n := round_up length in
  let anon := anonymous mapflags in
  (0 < length <= MAX_MAPPING ∧ placed as_ address n mapflags r ∧
   (∃ flags, requested prot flags ∧ Z.land flags (Z.lor PTE_W PTE_X) ≠ Z.lor PTE_W PTE_X ∧
      mapping as_ as' r n flags (if anon then AREA_ANON else AREA_FILE)) ∧
   (if anon then ∀ p, p ∈ pages as' → p ∉ pages as_ → zeroed m' p else mappable f = true)) ∨
  (as' = as_ ∧ r ∈ [- E_INVAL; - E_BADF; - E_EXIST; - E_NOMEM]).

Lemma mmap_spec `{FileContract} U O B s as_ address length prot mapflags f offset :
  space U O B s as_ → as_wf as_ → 0 <= length →
  ∃ r as' s', address_space_mmap as_ address length prot mapflags f offset s = (r, as', s') ∧
    space U O B s' as' ∧ as_wf as' ∧ kept U (owned as_ O) (mem s) (mem s') ∧
    mmap_outcome as_ address length prot mapflags f r as' (mem s').
Proof.
  intros Hs Hwf Hlen. unfold mmap_outcome. set (n := round_up length). set (anon := anonymous mapflags).
  unfold address_space_mmap. cbv zeta. fold (anonymous mapflags). fold anon.
  assert (∀ e, e ∈ [- E_INVAL; - E_BADF; - E_EXIST; - E_NOMEM] →
    ∃ r as' s', (e, as_, s) = (r, as', s') ∧ space U O B s' as' ∧ as_wf as' ∧ kept U (owned as_ O) (mem s) (mem s') ∧
      mmap_outcome as_ address length prot mapflags f r as' (mem s')) as Hfail.
  { intros e He. exists e, as_, s. split; [done|]. split; [done|]. split; [done|].
    split; [apply kept_refl|]. by right. }
  destruct (_ || (anon && _)) eqn:Eg; [apply Hfail; set_solver|].
  rewrite !orb_false_iff in Eg. destruct Eg as [[[[[[[[Eg1 Eg2] _] _] Eg5] _] _] _] _].
  assert (0 < length <= MAX_MAPPING) as Hl.
  { clear -Eg1 Eg2 Hlen. rewrite Z.gtb_ltb in Eg2. lia. }
  destruct (negb anon && _) eqn:Eb; [apply Hfail; set_solver|]. fold n.
  destruct (_ >? UINT64_MAX - _); [apply Hfail; set_solver|].
  destruct (negb (Z.land address 4095 =? 0)) eqn:Ea; [apply Hfail; set_solver|].
  apply negb_false_iff, Z.eqb_eq in Ea. rewrite land_page_mask in Ea.
  assert (0 < n ∧ n mod PAGE_SIZE = 0) as [Hn Hn4].
  { unfold n. rewrite round_up_eq by (clear -Hl; lia). clear -Hl. div_lia. }
  pose proof (place_spec as_ address n mapflags Ea Hn) as Hp. fold (place as_ address n mapflags).
  destruct (place as_ address n mapflags) as [e|a].
  { apply Hfail. destruct Hp as [_ [(_ & [-> | ->])|(_ & -> & _)]]; set_solver. }
  fold (commit as_ a n (mmap_flags prot) (if anon then AREA_ANON else AREA_FILE) (if anon then None else f) offset s).
  pose proof Hp as [(Hr & Ha4 & Hv) _].
  destruct (commit_spec U O B s as_ a n (mmap_flags prot) (if anon then AREA_ANON else AREA_FILE)
    (if anon then None else f) offset Hs Hwf Hr Hn Ha4 Hn4 Hv (mmap_flags_range prot))
    as (r & as' & s' & -> & Hs' & Hwf' & Hk & Hres); [by destruct anon|].
  exists r, as', s'. do 4 (split; [done|]). destruct Hres as [(-> & Hm & Hz)|[-> ->]]; [left|right; split; [done|set_solver]].
  split; [done|]. split; [done|].
  split; [exists (mmap_flags prot); split; [apply mmap_flags_requested|]; split; [apply mmap_flags_wx; by apply Z.eqb_neq|done]|].
  destruct anon; [by apply Hz|]. cbn [negb andb] in Eb. unfold mappable. destruct f as [f|]; [|done].
  destruct (file_node_type f) as [ty|]; [|done]. apply orb_false_iff in Eb as [E1 E2].
  apply negb_false_iff in E1. by rewrite E1, E2.
Qed.
End Maps.
