(* ===== verification/AddressSpaceBrk.v ===== *)
(** The heap of a process: [address_space_brk] of [src/mm/address_space.c]. *)
From S2P Require Import Prelude Machine Runtime PageAlloc Vm VmInv VmProps HeapSpec Ownership AddressSpace AddressSpaceInv AddressSpaceProps AddressSpaceClone AddressSpaceAreas AddressSpaceMaps.

#[local] Instance vm_area_eq_dec : EqDecision vm_area.
Proof. solve_decision. Defined.

(** * The heap area *)

Lemma heap_area_from l h0 :
  match fold_left (λ h a, if bool_decide (kind a = AREA_HEAP) then Some a else h) l h0 with
  | Some h => (h ∈ l ∧ kind h = AREA_HEAP) ∨ h0 = Some h
  | None => h0 = None ∧ ∀ a, a ∈ l → kind a ≠ AREA_HEAP
  end.
Proof.
  revert h0. induction l as [|x l IH]; intros h0; cbn [fold_left].
  { destruct h0; [by right|]. split; [done|]. intros a Ha. by apply elem_of_nil in Ha. }
  specialize (IH (if bool_decide (kind x = AREA_HEAP) then Some x else h0)).
  destruct (fold_left _ l _) as [h|].
  - destruct IH as [[Hh Hk]|E]; [left; split; [by right|done]|].
    case_bool_decide; [|by right]. injection E as ->. left. split; [by left|done].
  - destruct IH as [E Hl]. case_bool_decide; [done|]. split; [done|].
    intros a [->|Ha]%elem_of_cons; [done|by apply Hl].
Qed.

Lemma heap_area_spec as_ :
  match heap_area as_ with
  | Some h => h ∈ areas as_ ∧ kind h = AREA_HEAP
  | None => ∀ a, a ∈ areas as_ → kind a ≠ AREA_HEAP
  end.
Proof.
  pose proof (heap_area_from (areas as_) None) as Hh. unfold heap_area.
  destruct (fold_left _ _ _); [by destruct Hh as [Hh|Hh]|by destruct Hh].
Qed.

Lemma set_area_end_split l1 h l2 v :
  NoDup (area_at <$> l1 ++ h :: l2) →
  set_area_end (area_at h) v (l1 ++ h :: l2) = l1 ++ with_end v h :: l2.
Proof.
  intros Hnd. rewrite fmap_app, fmap_cons, <- Permutation_middle, <- fmap_app in Hnd.
  apply NoDup_cons in Hnd as [Hn _].
  assert (∀ l, (∀ a, a ∈ l → a ∈ l1 ++ l2) → set_area_end (area_at h) v l = l) as Hsame.
  { intros l Hl. unfold set_area_end. rewrite <- (list_fmap_id l) at 2. apply list_fmap_ext.
    intros i a Ha. cbn. destruct (Z.eqb_spec (area_at a) (area_at h)) as [E|]; [|done].
    exfalso. apply Hn. rewrite <- E. apply list_elem_of_fmap_2, Hl. by eapply list_elem_of_lookup_2. }
  unfold set_area_end in *. rewrite fmap_app, fmap_cons, !Hsame, Z.eqb_refl; [done| |];
    intros a Ha; apply elem_of_app; auto.
Qed.

Lemma areas_ok_replace l1 h h' l2 :
  areas_ok (l1 ++ h :: l2) → area_ok h' →
  (∀ a y, a ∈ l1 ++ l2 → covers a y → ¬ covers h' y) → areas_ok (l1 ++ h' :: l2).
Proof.
  intros [H1 H2] Hok Hd.
  assert (∀ a, a ∈ l1 ++ h' :: l2 ↔ a = h' ∨ a ∈ l1 ++ l2) as Hin.
  { intros a. rewrite !elem_of_app, elem_of_cons. tauto. }
  assert (∀ a, a ∈ l1 ++ l2 → a ∈ l1 ++ h :: l2) as Hold.
  { intros a. rewrite !elem_of_app, elem_of_cons. tauto. }
  split.
  - intros a [->|Ha]%Hin; [done|]. by apply H1, Hold.
  - intros a b y [->|Ha]%Hin [->|Hb]%Hin Hca Hcb; [done| | |by eapply H2; eauto]; exfalso; by eapply Hd.
Qed.

Lemma areas_ok_remove l1 h l2 : areas_ok (l1 ++ h :: l2) → areas_ok (l1 ++ l2).
Proof.
  intros [H1 H2].
  assert (∀ a, a ∈ l1 ++ l2 → a ∈ l1 ++ h :: l2) as Hold.
  { intros a. rewrite !elem_of_app, elem_of_cons. tauto. }
  split; [auto|]. intros a b y Ha Hb. apply H2; auto.
Qed.

(** The heap area is apart from the others. *)
Lemma areas_ok_apart l1 h l2 a y :
  areas_ok (l1 ++ h :: l2) → NoDup (area_at <$> l1 ++ h :: l2) → a ∈ l1 ++ l2 →
  covers a y → ¬ covers h y.
Proof.
  intros [_ H2] Hnd Ha Hca Hch. rewrite fmap_app, fmap_cons, <- Permutation_middle, <- fmap_app in Hnd.
  apply NoDup_cons in Hnd as [Hn _]. apply Hn.
  assert (a = h) as <-; [|by apply list_elem_of_fmap_2].
  apply (H2 a h y); try done; rewrite !elem_of_app, elem_of_cons in *; tauto.
Qed.

(** * Well-formedness under a new break *)

Definition in_heap (requested : Z) : Prop := HEAP_BASE <= requested <= HEAP_BASE + MAX_MAPPING.

Lemma round_up_heap r :
  in_heap r → HEAP_BASE <= r <= round_up r ∧ round_up r <= HEAP_BASE + MAX_MAPPING ∧ round_up r mod PAGE_SIZE = 0.
Proof. intros Hr. unfold in_heap in Hr. rewrite round_up_eq by lia. div_lia. Qed.

(** Where the heap area is, if there is one. *)
Lemma heap_split as_ h :
  as_wf as_ → heap_area as_ = Some h →
  ∃ l1 l2, areas as_ = l1 ++ h :: l2 ∧ kind h = AREA_HEAP ∧ start h = HEAP_BASE ∧
    end_ h = round_up (brk_end as_) ∧ area_ok h.
Proof.
  intros Hwf E. pose proof (heap_area_spec as_) as Hh. rewrite E in Hh. destruct Hh as [Hh Hk].
  destruct (wf_heap _ Hwf h Hh Hk) as [H1 H2]. pose proof (ar_each _ (wf_areas _ Hwf) h Hh) as Hok.
  apply list_elem_of_split in Hh as (l1 & l2 & ->). by exists l1, l2.
Qed.

(** The areas and the ledger after a change of the heap area. *)
Lemma wf_heap_moved as_ l1 h l2 ps r :
  as_wf as_ → areas as_ = l1 ++ h :: l2 → kind h = AREA_HEAP → in_heap r → HEAP_BASE < round_up r →
  areas_ok (l1 ++ with_end (round_up r) h :: l2) → NoDup (area_at <$> areas as_) →
  (∀ p, p ∈ ps → p ∈ pages as_ ∧ (covers h (virtual_address p) → virtual_address p < round_up r)
    ∨ HEAP_BASE <= virtual_address p < round_up r) →
  as_wf (set_brk (brk_base as_) r (set_areas (l1 ++ with_end (round_up r) h :: l2) (set_pages ps as_))).
Proof.
  intros Hwf El Hk Hr Hgt Hok Hnd Hps. pose proof Hwf as [W1 W2 W3 W4 W5].
  assert (start h = HEAP_BASE) as Hst by (apply W4; [rewrite El, elem_of_app; right; by left|done]).
  split; cbn [areas pages brk_base brk_end set_areas set_pages set_brk]; try done.
  - intros p Hp. destruct (Hps p Hp) as [[Hold Hlt]|Hc].
    + destruct (W2 p Hold) as (a & Ha & Hc). rewrite El, elem_of_app, elem_of_cons in Ha.
      destruct (decide (a = h)) as [->|Hne].
      * exists (with_end (round_up r) h). split; [apply elem_of_app; right; by left|].
        unfold covers in *. cbn. split; [lia|]. by apply Hlt.
      * exists a. split; [|done]. rewrite elem_of_app, elem_of_cons. tauto.
    + exists (with_end (round_up r) h). split; [apply elem_of_app; right; by left|].
      unfold covers. cbn. lia.
  - split; [apply W3|]. exact Hr.
  - intros a Ha Hka. rewrite elem_of_app, elem_of_cons in Ha.
    destruct (decide (a = with_end (round_up r) h)) as [->|Hne]; [done|].
    exfalso. assert (a ∈ l1 ++ l2) as Ha' by (rewrite elem_of_app; tauto).
    assert (a ∈ areas as_) as Hin by (rewrite El, elem_of_app, elem_of_cons; rewrite elem_of_app in Ha'; tauto).
    destruct (W4 a Hin Hka) as [Hs1 He1]. pose proof (ao_range _ (ar_each _ W1 a Hin)) as Hra.
    rewrite El in W1, Hnd. apply (areas_ok_apart l1 h l2 a (start a) W1 Hnd Ha').
    { unfold covers. lia. }
    assert (end_ h = round_up (brk_end as_)) by (apply W4; [rewrite El, elem_of_app; right; by left|done]).
    unfold covers. lia.
  - intros _. exists (with_end (round_up r) h). split; [apply elem_of_app; right; by left|done].
Qed.

Lemma wf_grow as_ l1 h l2 ps r :
  as_wf as_ → areas as_ = l1 ++ h :: l2 → kind h = AREA_HEAP → in_heap r →
  NoDup (area_at <$> areas as_) →
  round_up (brk_end as_) < round_up r → vacant as_ (round_up (brk_end as_)) (round_up r) = true →
  (∀ p, p ∈ ps → round_up (brk_end as_) <= virtual_address p < round_up r) →
  as_wf (set_brk (brk_base as_) r
    (set_areas (l1 ++ with_end (round_up r) h :: l2) (set_pages (pages as_ ++ ps) as_))).
Proof.
  intros Hwf El Hk Hr Hnd Hlt Hv Hps. pose proof Hwf as [W1 W2 W3 W4 W5].
  assert (h ∈ areas as_) as Hh by (rewrite El, elem_of_app; right; by left).
  destruct (W4 h Hh Hk) as [Hst Hen]. destruct (ar_each _ W1 h Hh) as [Hra Hal _].
  destruct (round_up_heap r Hr) as (Hr1 & Hr2 & Hr3).
  apply wf_heap_moved; try done; [lia| |].
  - rewrite El in W1, Hnd. eapply areas_ok_replace; [exact W1|split; cbn; [lia|done|done]|].
    intros a y Ha Hca Hcy. unfold covers in Hcy. cbn in Hcy.
    destruct (decide (y < end_ h)).
    + eapply areas_ok_apart; [exact W1|exact Hnd|exact Ha|exact Hca|]. unfold covers. lia.
    + assert (a ∈ areas as_) as Hin by (rewrite El; rewrite !elem_of_app, elem_of_cons in *; tauto).
      eapply (vacant_spec as_ _ _ Hlt Hv a y); [done| |done|lia].
      apply (ar_each _ W1). by rewrite <- El.
  - intros p [Hp|Hp]%elem_of_app; [left; split; [done|unfold covers; lia]|right].
    pose proof (Hps p Hp). lia.
Qed.

Lemma wf_shrink as_ l1 h l2 r :
  as_wf as_ → areas as_ = l1 ++ h :: l2 → kind h = AREA_HEAP → in_heap r →
  NoDup (area_at <$> areas as_) → HEAP_BASE < round_up r < round_up (brk_end as_) →
  as_wf (set_brk (brk_base as_) r (set_areas (l1 ++ with_end (round_up r) h :: l2)
    (set_pages (filter (λ p, ¬ in_range (round_up r) (round_up (brk_end as_)) p) (pages as_)) as_))).
Proof.
  intros Hwf El Hk Hr Hnd Hlt. pose proof Hwf as [W1 W2 W3 W4 W5].
  assert (h ∈ areas as_) as Hh by (rewrite El, elem_of_app; right; by left).
  destruct (W4 h Hh Hk) as [Hst Hen]. destruct (ar_each _ W1 h Hh) as [Hra Hal _].
  destruct (round_up_heap r Hr) as (Hr1 & Hr2 & Hr3).
  apply wf_heap_moved; try done; [lia| |].
  - rewrite El in W1, Hnd. eapply areas_ok_replace; [exact W1|split; cbn; [lia|done|done]|].
    intros a y Ha Hca Hcy. eapply areas_ok_apart; [exact W1|exact Hnd|exact Ha|exact Hca|].
    unfold covers in *. cbn in Hcy. lia.
  - intros p [Hp Hn]%elem_of_kept. left. split; [done|]. unfold covers. lia.
Qed.

Lemma wf_shrink_all as_ l1 h l2 r :
  as_wf as_ → areas as_ = l1 ++ h :: l2 → kind h = AREA_HEAP → in_heap r →
  NoDup (area_at <$> areas as_) → round_up r = HEAP_BASE →
  as_wf (set_brk (brk_base as_) r (set_areas (l1 ++ l2)
    (set_pages (filter (λ p, ¬ in_range (round_up r) (round_up (brk_end as_)) p) (pages as_)) as_))).
Proof.
  intros Hwf El Hk Hr Hnd Hlt. pose proof Hwf as [W1 W2 W3 W4 W5].
  assert (h ∈ areas as_) as Hh by (rewrite El, elem_of_app; right; by left).
  destruct (W4 h Hh Hk) as [Hst Hen]. 
  split; cbn [areas pages brk_base brk_end set_areas set_pages set_brk]; try done.
  - rewrite El in W1. by eapply areas_ok_remove.
  - intros p [Hp Hn]%elem_of_kept. destruct (W2 p Hp) as (a & Ha & Hc). exists a. split; [|done].
    rewrite El, elem_of_app, elem_of_cons in Ha. rewrite elem_of_app.
    destruct Ha as [?|[->|?]]; [tauto| |tauto]. exfalso. unfold covers in Hc. lia.
  - split; [apply W3|exact Hr].
  - intros a Ha Hka. exfalso.
    assert (a ∈ areas as_) as Hin by (rewrite El; rewrite !elem_of_app, elem_of_cons in *; tauto).
    destruct (W4 a Hin Hka) as [Hs1 He1]. pose proof (ao_range _ (ar_each _ W1 a Hin)) as Hra.
    rewrite El in W1, Hnd. apply (areas_ok_apart l1 h l2 a (start a) W1 Hnd Ha); unfold covers; lia.
  - lia.
Qed.

Lemma wf_first as_ o ps r :
  as_wf as_ → (∀ a, a ∈ areas as_ → kind a ≠ AREA_HEAP) → in_heap r →
  round_up (brk_end as_) < round_up r → vacant as_ (round_up (brk_end as_)) (round_up r) = true →
  (∀ p, p ∈ ps → round_up (brk_end as_) <= virtual_address p < round_up r) →
  as_wf (set_brk (brk_base as_) r
    (set_areas (areas as_ ++ [mk_area o (brk_base as_) (round_up r) PTE_URW AREA_HEAP])
      (set_pages (pages as_ ++ ps) as_))).
Proof.
  intros Hwf Hno Hr Hlt Hv Hps. pose proof Hwf as [W1 W2 [Hb Hbe] W4 W5].
  destruct (round_up_heap r Hr) as (Hr1 & Hr2 & Hr3). destruct (round_up_heap _ Hbe) as (Hb1 & Hb2 & Hb3).
  assert (round_up (brk_end as_) = HEAP_BASE) as Eold.
  { destruct (decide (HEAP_BASE < round_up (brk_end as_))) as [Hgt|]; [|lia].
    destruct (W5 Hgt) as (a & Ha & Hk). by apply Hno in Ha. }
  rewrite Eold in *.
  split; cbn [areas pages brk_base brk_end set_areas set_pages set_brk]; try done.
  - apply areas_ok_snoc; [done|split; cbn; rewrite ?Hb; (lia || done)|].
    intros a y Ha Hca. unfold covers at 1. cbn. rewrite Hb.
    eapply (vacant_spec as_ _ _ Hlt Hv a y); try done. by apply W1.
  - intros p [Hp|Hp]%elem_of_app.
    + destruct (W2 p Hp) as (a & Ha & Hc). exists a. rewrite elem_of_app. auto.
    + eexists. split; [apply elem_of_app; right; by left|]. unfold covers. cbn. rewrite Hb. by apply Hps.
  - intros a [Ha| ->%list_elem_of_singleton]%elem_of_app Hka; [by apply Hno in Ha|done].
  - intros _. eexists. split; [apply elem_of_app; right; by left|done].
Qed.

(** * Growing *)

#[local] Instance no_files : FileAccess := {
  file := Empty_set; file_node_type _ := None; file_flags _ := 0; file_pread _ _ _ _ s := (0, s);
}.
#[local] Instance no_files_contract : FileContract.
Proof. split. intros f. destruct f. Qed.

Section Brk.
Context `{HeapContract}.

Lemma grow_populate n as_ at_ s : grow n as_ at_ s = populate n as_ at_ at_ PTE_URW None 0 s.
Proof.
  assert (∀ a, grow n as_ at_ s = populate n as_ at_ a PTE_URW None 0 s) as Hg; [|done].
  intros a. revert as_ at_ s. induction n as [|n IH]; intros as_ at_ s; cbn [grow populate]; [done|].
  destruct (address_space_add_page _ _ _ _ _ _) as [[ok as1] s1]. destruct ok; [|done]. cbn [negb]. apply IH.
Qed.

Lemma space_brk U O B s as_ b e : space U O B s as_ → space U O B s (set_brk b e as_).
Proof. intros [(N & F & P & Hi) Hd]. split; [|done]. exists N, F, P. destruct Hi. by split. Qed.

(** The new break: the ledger with the pages above it removed or the missing ones
    added, zeroed; every other area as it was. *)
Definition brk_moved (as_ as' : address_space) (requested : Z) (m' : memory) : Prop :=
  let old := round_up (brk_end as_) in
  let new := round_up requested in
  brk_end as' = requested ∧
  (∃ l, pages as' = filter (λ p, ¬ in_range new old p) (pages as_) ++ l ∧
     virtual_address <$> l = page_addresses old (Z.to_nat ((new - old) / PAGE_SIZE)) ∧
     ∀ p, p ∈ l → page_flags p = PTE_URW ∧ zeroed m' p) ∧
  (∀ a, kind a ≠ AREA_HEAP → a ∈ areas as' ↔ a ∈ areas as_).
(** The branch of [address_space_brk] that grows the heap. *)
Definition brk_grow (as_ : address_space) (requested old new : Z) (m : kstate)
    : Z * address_space * kstate :=
  let heap := heap_area as_ in
  let '(fresh, m) := match heap with Some _ => (0, m) | None => kmalloc 48 m end in
  if match heap with Some _ => false | None => fresh =? 0 end then (- E_NOMEM, as_, m)
  else
    let '(ok, as_, m) := grow (Z.to_nat ((new - old) / PAGE_SIZE)) as_ old m in
    if negb ok then
      let '(as_, m) := remove_pages as_ old new m in
      (- E_NOMEM, as_, kfree fresh m)
    else
      let l := match heap with
               | Some h => set_area_end (area_at h) new (areas as_)
               | None => areas as_ ++ [mk_area fresh (brk_base as_) new PTE_URW AREA_HEAP]
               end in
      (s64 requested, set_brk (brk_base as_) requested (set_areas l as_), vm_flush_all m).

Lemma space_set_end U O B s as_ l1 h l2 v :
  space U O B s (set_areas (l1 ++ h :: l2) as_) → space U O B s (set_areas (l1 ++ with_end v h :: l2) as_).
Proof. apply space_areas. by rewrite !fmap_app, !fmap_cons. Qed.

Lemma grow_spec U O B s as_ old n :
  space U O B s as_ → 0 <= old → (∀ p, p ∈ pages as_ → ¬ (old <= virtual_address p < old + PAGE_SIZE * Z.of_nat n)) →
  ∃ ok l s', grow n as_ old s = (ok, set_pages (pages as_ ++ l) as_, s') ∧
    space U O B s' (set_pages (pages as_ ++ l) as_) ∧ kept U (owned as_ O) (mem s) (mem s') ∧
    (∀ p, p ∈ l → old <= virtual_address p < old + PAGE_SIZE * Z.of_nat n ∧ page_flags p = PTE_URW) ∧
    (ok = true → virtual_address <$> l = page_addresses old n ∧ ∀ p, p ∈ l → zeroed (mem s') p).
Proof.
  intros Hs Ho Hfree.
  destruct (populate_spec U O B old PTE_URW None 0 n as_ old s Hs Ho ltac:(unfold in_u64; lia) Hfree)
    as (ok & l & s' & E & Hs' & Hk & Hl & Hok).
  exists ok, l, s'. rewrite grow_populate. split; [done|]. split; [done|]. split; [done|]. split; [done|].
  intros E'. destruct (Hok E') as [H1 H2]. auto.
Qed.

(** The pages added by a failed growth are taken back. *)
Lemma grow_undo U O B s as_ old new l :
  space U O B s (set_pages (pages as_ ++ l) as_) →
  (∀ p, p ∈ pages as_ → ¬ (old <= virtual_address p < new)) →
  (∀ p, p ∈ l → old <= virtual_address p < new) →
  ∃ s', remove_pages (set_pages (pages as_ ++ l) as_) old new s = (as_, s') ∧ space U O B s' as_ ∧
    kept U (owned as_ O) (mem s) (mem s').
Proof.
  intros Hs Hfree Hl. destruct (space_remove_pages U O B s _ old new Hs) as (s' & -> & Hs' & Hk).
  cbn [pages set_pages] in *.
  assert (filter (λ p, ¬ in_range old new p) (pages as_ ++ l) = pages as_) as Hback.
  { rewrite filter_app, (filter_all _ _ _ Hfree). rewrite <- (app_nil_r (pages as_)) at 2. f_equal.
    apply elem_of_nil_inv. intros p [Hp Hr]%elem_of_kept. apply Hr, Hl, Hp. }
  rewrite set_pages_twice, Hback, set_pages_id in *. by exists s'.
Qed.

Lemma brk_grow_spec U O B s as_ r :
  space U O B s as_ → as_wf as_ → in_heap r → round_up (brk_end as_) < round_up r →
  vacant as_ (round_up (brk_end as_)) (round_up r) = true →
  ∃ res as' s', brk_grow as_ r (round_up (brk_end as_)) (round_up r) s = (res, as', s') ∧
    space U O B s' as' ∧ as_wf as' ∧ kept U (owned as_ O) (mem s) (mem s') ∧
    ((res = r ∧ brk_moved as_ as' r (mem s')) ∨ (res = - E_NOMEM ∧ as' = as_)).
Proof.
  intros Hs Hwf Hr Hlt Hv. set (old := round_up (brk_end as_)) in *. set (new := round_up r) in *.
  destruct (round_up_heap r Hr) as (Hr1 & Hr2 & Hr3). fold new in Hr1, Hr2, Hr3.
  destruct (round_up_heap _ (proj2 (wf_brk _ Hwf))) as (Ho1 & Ho2 & Ho3). fold old in Ho1, Ho2, Ho3.
  pose proof (vacant_pages as_ old new Hwf Hlt Hv) as Hfree.
  assert (old + PAGE_SIZE * Z.of_nat (Z.to_nat ((new - old) / PAGE_SIZE)) = new) as Elen
    by (clear -Hlt Ho3 Hr3; div_lia).
  assert (s64 r = r) as Es by (unfold s64, in_heap in *; case_if; lia).
  assert (∀ l, filter (λ p, ¬ in_range new old p) (pages as_) ++ l = pages as_ ++ l) as Hfil.
  { intros l. rewrite filter_all; [done|]. intros p _. lia. }
  unfold brk_grow, brk_moved. cbv zeta. fold old new. destruct (heap_area as_) as [h|] eqn:Eh.
  - destruct (grow_spec U O B s as_ old (Z.to_nat ((new - old) / PAGE_SIZE)) Hs) as (ok & l & s1 & -> & Hs1 & Hk1 & Hl & Hok);
      [lia|by rewrite Elen|]. rewrite Elen in Hl. destruct ok; cbn [negb].
    2:{ destruct (grow_undo U O B s1 as_ old new l Hs1 Hfree) as (s2 & -> & Hs2 & Hk2); [intros p Hp; by apply Hl|].
        rewrite kfree_null. exists (- E_NOMEM), as_, s2. split; [done|]. split; [done|]. split; [done|].
        split; [by eapply kept_trans|by right]. }
    destruct (heap_split as_ h Hwf Eh) as (l1 & l2 & El & Hk & _ & _ & _).
    pose proof (space_area_records _ _ _ _ _ Hs) as Hnd. destruct (Hok eq_refl) as [Hva Hz].
    cbn [areas set_pages brk_base]. rewrite El, set_area_end_split by (by rewrite <- El).
    eexists _, _, s1. unfold vm_flush_all. split; [done|]. split; [|split; [|split; [done|left; split; [done|]]]].
    + apply space_brk, space_set_end. rewrite <- El. exact Hs1.
    + apply wf_grow; try done. intros p Hp. by apply Hl.
    + split; [done|]. split; [exists l; rewrite Hfil; split; [done|]; split; [done|]; intros p Hp; split; [by apply Hl|auto]|].
      intros a Ha. cbn [areas set_areas set_brk]. rewrite ?El, !elem_of_app, !elem_of_cons.
      assert (a ≠ h) by (by intros ->). assert (a ≠ with_end new h) by (intros ->; by apply Ha). tauto.
  - pose proof (heap_area_spec as_) as Hno. rewrite Eh in Hno.
    destruct (space_kmalloc U O B s as_ 48 Hs) as (o & s0 & -> & Hk0 & Hs0 & HB); [lia|].
    destruct (Z.eqb_spec o 0) as [->|Ho].
    { exists (- E_NOMEM), as_, s0. split; [done|]. split; [done|]. split; [done|]. split; [done|by right]. }
    destruct (grow_spec U O _ s0 as_ old (Z.to_nat ((new - old) / PAGE_SIZE)) Hs0) as (ok & l & s1 & -> & Hs1 & Hk1 & Hl & Hok);
      [lia|by rewrite Elen|]. rewrite Elen in Hl. specialize (HB Ho). destruct ok; cbn [negb].
    2:{ destruct (grow_undo U O _ s1 as_ old new l Hs1 Hfree) as (s2 & -> & Hs2 & Hk2); [intros p Hp; by apply Hl|].
        destruct (space_kfree U O B s2 as_ o Hs2 HB) as [Hs3 Hk3].
        exists (- E_NOMEM), as_, (kfree o s2). split; [done|]. split; [done|]. split; [done|].
        split; [|by right]. eapply kept_trans; [exact Hk0|]. eapply kept_trans; [exact Hk1|]. by eapply kept_trans. }
    destruct (Hok eq_refl) as [Hva Hz]. cbn [areas set_pages brk_base].
    eexists _, _, s1. unfold vm_flush_all. split; [done|].
    split; [|split; [|split; [by eapply kept_trans|left; split; [done|]]]].
    + apply space_brk, space_adopt; [|done]. exact Hs1.
    + apply wf_first; try done. intros p Hp. by apply Hl.
    + split; [done|]. split; [exists l; rewrite Hfil; split; [done|]; split; [done|]; intros p Hp; split; [by apply Hl|auto]|].
      intros a Ha. cbn [areas set_areas set_brk]. rewrite elem_of_app, list_elem_of_singleton.
      assert (a ≠ mk_area o (brk_base as_) new PTE_URW AREA_HEAP) by (intros ->; by apply Ha). tauto.
Qed.
Lemma filter_split (l1 l2 : list vm_area) h :
  NoDup (area_at <$> l1 ++ h :: l2) → filter (λ a, area_at a ≠ area_at h) (l1 ++ h :: l2) = l1 ++ l2.
Proof.
  intros Hnd. rewrite fmap_app, fmap_cons, <- Permutation_middle, <- fmap_app in Hnd.
  apply NoDup_cons in Hnd as [Hn _].
  assert (∀ l : list vm_area, (∀ a, a ∈ l → a ∈ l1 ++ l2) → filter (λ a, area_at a ≠ area_at h) l = l) as Hsame.
  { induction l as [|y l IH]; intros Hl; [done|]. rewrite filter_cons, decide_True.
    - f_equal. apply IH. intros a Ha. apply Hl. by right.
    - intros E. apply Hn. rewrite <- E. apply list_elem_of_fmap_2, Hl. by left. }
  rewrite filter_app, filter_cons, decide_False by (intros Hne; by apply Hne).
  rewrite !Hsame; [done| |]; intros a Ha; apply elem_of_app; auto.
Qed.

(** The other branch. *)
Definition brk_shrink (as_ : address_space) (old new : Z) (m : kstate) : address_space * kstate :=
  if new <? old then
    let '(as1, m) := remove_pages as_ new old m in
    match heap_area as_ with
    | None => (as1, m)
    | Some h =>
        if new =? start h
        then (set_areas (filter (λ a, area_at a ≠ area_at h) (areas as1)) as1, kfree (area_at h) m)
        else (set_areas (set_area_end (area_at h) new (areas as1)) as1, m)
    end
  else (as_, m).

Lemma page_addresses_none at_ n : n <= 0 → page_addresses at_ (Z.to_nat n) = [].
Proof. intros Hn. by replace (Z.to_nat n) with O by lia. Qed.

Lemma brk_shrink_spec U O B s as_ r :
  space U O B s as_ → as_wf as_ → in_heap r → round_up r <= round_up (brk_end as_) →
  ∃ as' s', brk_shrink as_ (round_up (brk_end as_)) (round_up r) s = (as', s') ∧
    let as2 := set_brk (brk_base as_) r as' in
    brk_base as' = brk_base as_ ∧
    space U O B s' as2 ∧ as_wf as2 ∧ kept U (owned as2 O) (mem s) (mem s') ∧ brk_moved as_ as2 r (mem s').
Proof.
  intros Hs Hwf Hr Hle. set (old := round_up (brk_end as_)) in *. set (new := round_up r) in *.
  destruct (round_up_heap r Hr) as (Hr1 & Hr2 & Hr3). fold new in Hr1, Hr2, Hr3.
  assert (∀ l, page_addresses l (Z.to_nat ((new - old) / PAGE_SIZE)) = []) as Hnone.
  { intros l. apply page_addresses_none. clear -Hle. div_lia. }
  unfold brk_shrink, brk_moved. cbv zeta. fold old new.
  destruct (Z.ltb_spec new old) as [Hlt|Hge].
  2:{ exists as_, s. split; [done|]. split; [done|]. split; [by apply space_brk|]. split; [|split; [apply kept_refl|]].
      - destruct Hwf as [W1 W2 [W3 W3'] W4 W5]. assert (new = old) as E by lia.
        split; cbn [areas pages brk_base brk_end set_brk]; try done; fold new; rewrite E; done.
      - split; [done|]. split; [|done]. exists []. rewrite Hnone, filter_all, app_nil_r by (intros; lia).
        split; [done|]. split; [done|]. intros p Hp. by apply elem_of_nil in Hp. }
  destruct (heap_area as_) as [h|] eqn:Eh.
  2:{ exfalso. pose proof (heap_area_spec as_) as Hno. rewrite Eh in Hno.
      destruct (wf_heap_area _ Hwf) as (a & Ha & Hk); [fold old; lia|]. by apply Hno in Ha. }
  destruct (heap_split as_ h Hwf Eh) as (l1 & l2 & El & Hk & Hst & _ & _).
  pose proof (space_area_records _ _ _ _ _ Hs) as Hnd.
  destruct (space_remove_pages U O B s as_ new old Hs) as (s1 & -> & Hs1 & Hk1).
  set (ps := filter (λ p, ¬ in_range new old p) (pages as_)) in *.
  change (set_pages ps as_) with (set_areas (areas as_) (set_pages ps as_)) in Hs1. rewrite El in Hs1.
  cbn [areas set_pages]. rewrite El. rewrite El in Hnd.
  assert (∃ l : list user_page, ps = ps ++ l ∧ virtual_address <$> l = [] ∧
    ∀ p, p ∈ l → page_flags p = PTE_URW ∧ zeroed (mem s1) p) as Hps.
  { exists []. rewrite app_nil_r. split; [done|]. split; [done|]. intros p Hp. by apply elem_of_nil in Hp. }
  destruct (Z.eqb_spec new (start h)) as [E|E].
  - rewrite filter_split by done. apply space_free_area in Hs1 as [Hs2 Hk2].
    eexists _, _. split; [done|]. split; [done|]. split; [by apply space_brk|].
    split; [|split; [by eapply kept_trans|]].
    + apply (wf_shrink_all as_ l1 h l2); try done; [by rewrite El|fold new; lia].
    + rewrite Hnone. split; [done|]. split.
      * exists []. rewrite app_nil_r. split; [done|]. split; [done|]. intros p Hp. by apply elem_of_nil in Hp.
      * intros a Ha. cbn [areas set_areas set_brk]. rewrite !elem_of_app, elem_of_cons.
        assert (a ≠ h) by (by intros ->). tauto.
  - rewrite set_area_end_split by done. eexists _, s1. split; [done|]. split; [done|].
    split; [by apply space_brk, space_set_end|]. split; [|split; [done|]].
    + apply (wf_shrink as_ l1 h l2); try done; [by rewrite El|fold new old; lia].
    + rewrite Hnone. split; [done|]. split; [exact Hps|].
      intros a Ha. cbn [areas set_areas set_brk]. rewrite !elem_of_app, !elem_of_cons.
      assert (a ≠ h) by (by intros ->). assert (a ≠ with_end new h) by (intros ->; by apply Ha). tauto.
Qed.

(** The pages of both ledgers keep their bytes. *)
Definition common (as_ as' : address_space) (O : list Z) : list Z :=
  filter (λ p, p ∈ owned as_ O) (owned as' O).

Lemma brk_spec U O B s as_ r :
  space U O B s as_ → as_wf as_ → 0 <= r →
  ∃ res as' s', address_space_brk as_ r s = (res, as', s') ∧
    space U O B s' as' ∧ as_wf as' ∧ kept U (common as_ as' O) (mem s) (mem s') ∧
    ((r = 0 ∧ res = brk_end as_ ∧ as' = as_) ∨
     (in_heap r ∧ res = r ∧ brk_moved as_ as' r (mem s')) ∨
     (r ≠ 0 ∧ res = - E_NOMEM ∧ as' = as_)).
Proof.
  intros Hs Hwf Hr. unfold address_space_brk.
  pose proof (wf_brk _ Hwf) as [Hb Hbe].
  destruct (Z.eqb_spec r 0) as [->|Hnz].
  { exists (brk_end as_), as_, s. assert (s64 (brk_end as_) = brk_end as_) as -> by (unfold s64; case_if; lia). split; [done|]. split; [done|]. split; [done|].
    split; [apply kept_refl|by left]. }
  rewrite Hb, u64_small by (unfold in_u64; lia).
  destruct (_ || _) eqn:Eg.
  { exists (- E_NOMEM), as_, s. split; [done|]. split; [done|]. split; [done|]. split; [apply kept_refl|auto]. }
  assert (in_heap r) as Hh.
  { unfold in_heap. rewrite orb_false_iff, Z.gtb_ltb in Eg. clear -Eg. lia. }
  cbv zeta. destruct (Z.gtb_spec (round_up r) (round_up (brk_end as_))) as [Hgt|Hle].
  - destruct (vacant as_ (round_up (brk_end as_)) (round_up r)) eqn:Ev; cbn [negb].
    2:{ exists (- E_NOMEM), as_, s. split; [done|]. split; [done|]. split; [done|]. split; [apply kept_refl|auto]. }
    fold (brk_grow as_ r (round_up (brk_end as_)) (round_up r) s).
    destruct (brk_grow_spec U O B s as_ r Hs Hwf Hh Hgt Ev) as (res & as' & s' & E & Hs' & Hwf' & Hk & Hres).
    exists res, as', s'. split; [exact E|]. split; [done|]. split; [done|]. split.
    + eapply kept_sub; [|exact Hk]. intros p [Hp _]%list_elem_of_filter. done.
    + destruct Hres as [[-> Hm]|[-> ->]]; auto 6.
  - fold (brk_shrink as_ (round_up (brk_end as_)) (round_up r) s).
    destruct (brk_shrink_spec U O B s as_ r Hs Hwf Hh Hle) as (as' & s' & -> & Hbb & Hs' & Hwf' & Hk & Hm).
    eexists _, _, s'. split; [done|]. rewrite Hbb. split; [done|]. split; [done|]. split.
    + eapply kept_sub; [|exact Hk]. intros p [_ Hp]%list_elem_of_filter. done.
    + right. left. split; [done|]. split; [unfold s64, in_heap in *; case_if; lia|done].
Qed.
End Brk.
