(* ===== verification/AddressSpaceCopy.v ===== *)
(** Kernel access to user memory: [address_space_copy] and [address_space_validate]
    of [src/mm/address_space.c]. *)
From S2P Require Import Prelude Machine Runtime PageAlloc Vm VmInv VmProps HeapSpec Ownership AddressSpace AddressSpaceInv AddressSpaceProps AddressSpaceClone AddressSpaceMaps.

(** The byte a program reads at [va]. *)
Definition user_byte (as_ : address_space) (va : Z) (s : kstate) : option Z :=
  match vm_query (Some (table as_)) va s with
  | Some (pa, _) => Some (load8 (mem s) (phys_to_virt pa))
  | None => None
  end.

Lemma chunk_of_spec address size :
  0 < size →
  0 < chunk_of address size <= size ∧ address mod PAGE_SIZE + chunk_of address size <= PAGE_SIZE ∧
  (chunk_of address size < size → (address + chunk_of address size) mod PAGE_SIZE = 0).
Proof.
  intros Hs. unfold chunk_of. rewrite land_page_mask. destruct (Z.gtb_spec (4096 - address mod 4096) size); div_lia.
Qed.

(** Enough rounds for the pages that are still to be visited. *)
Definition rounds (fuel : nat) (address size : Z) : Prop :=
  1 <= Z.of_nat fuel ∧ (0 < size → address mod PAGE_SIZE + size <= PAGE_SIZE * (Z.of_nat fuel - 1)).

Lemma rounds_step f address size :
  rounds (S f) address size → 0 < size →
  rounds f (address + chunk_of address size) (size - chunk_of address size).
Proof.
  intros [_ Hr] Hs. specialize (Hr Hs). destruct (chunk_of_spec address size Hs) as (H1 & H2 & H3).
  split; [div_lia|]. intros Hpos. rewrite H3 by lia. unfold chunk_of in *. rewrite land_page_mask in *.
  destruct (Z.gtb_spec (4096 - address mod 4096) size); lia.
Qed.

Lemma copy_fuel_rounds address size : 0 <= size → rounds (copy_fuel size) address size.
Proof. intros Hs. unfold rounds, copy_fuel. rewrite Z2Nat.id by div_lia. div_lia. Qed.

Lemma phys_to_virt_offset p i : page_ok p → 0 <= i < PAGE_SIZE → phys_to_virt (p + i) = phys_to_virt p + i.
Proof. intros [Hp Ha] Hi. rewrite !phys_to_virt_page by div_lia. lia. Qed.

Lemma chunk_same_page address size va :
  0 < size → address <= va < address + chunk_of address size → va / PAGE_SIZE = address / PAGE_SIZE.
Proof. intros Hs Hv. destruct (chunk_of_spec address size Hs) as (_ & H2 & _). div_lia. Qed.

(** Validation depends on the translations alone. *)
Lemma validate_loop_ext t write s s' fuel : ∀ address size,
  0 <= address → 0 <= size → address + size <= 2 ^ 38 →
  (∀ va, 0 <= va < 2 ^ 38 → vm_query (Some t) va s' = vm_query (Some t) va s) →
  validate_loop fuel t address size write s = validate_loop fuel t address size write s'.
Proof.
  induction fuel as [|fuel IH]; intros address size Ha Hs He Hq; cbn [validate_loop]; [done|].
  destruct (Z.eqb_spec size 0); [done|]. destruct (chunk_of_spec address size) as (Hc & _); [lia|].
  rewrite Hq by lia. destruct (vm_query _ _ _) as [[pa bits]|]; [|done]. destruct (negb _); [done|].
  apply IH; (done || lia).
Qed.

Section Copy.
Context `{HeapContract}.

(** What a translation says, by the ledger. *)
Lemma space_query U O B s as_ va pa bits :
  space U O B s as_ → 0 <= va < 2 ^ 38 → vm_query (Some (table as_)) va s = Some (pa, bits) →
  ∃ p, p ∈ pages as_ ∧ same_page va p ∧ pa = physical p + va mod PAGE_SIZE ∧
    bits = leaf_bits (page_flags p) ∧ page_ok (physical p) ∧
    phys_to_virt pa = phys_to_virt (physical p) + va mod PAGE_SIZE.
Proof.
  intros [(N & F & P & Hi) _] Hva E. pose proof (ai_query _ _ _ _ _ _ _ _ Hi va Hva) as Hq. rewrite E in Hq.
  destruct Hq as (p & Hp & _ & Hs & -> & ->). exists p. do 4 (split; [done|]).
  assert (page_ok (physical p)) as Hok.
  { eapply as_page_ok; [exact Hi|]. rewrite <- (ai_pages _ _ _ _ _ _ _ _ Hi), !elem_of_app.
    do 3 right. left. by apply list_elem_of_fmap_2. }
  split; [done|]. apply phys_to_virt_offset; [done|div_lia].
Qed.

(** Pages of the ledger are told apart by their addresses and by their bytes. *)
Lemma fmap_inj_on {A} (f : A → Z) (l : list A) p q :
  NoDup (f <$> l) → p ∈ l → q ∈ l → f p = f q → p = q.
Proof.
  intros Hnd Hp Hq E. apply list_elem_of_lookup in Hp as [i Hi], Hq as [j Hj].
  assert (i = j) as ->; [|congruence].
  eapply (NoDup_lookup _ _ _ _ Hnd); rewrite list_lookup_fmap; [by rewrite Hi|by rewrite Hj, E].
Qed.

Lemma space_same_address U O B s as_ p q va :
  space U O B s as_ → p ∈ pages as_ → q ∈ pages as_ → same_page va p → same_page va q → p = q.
Proof.
  intros [(N & F & P & Hi) _] Hp Hq E1 E2. unfold same_page in *.
  apply (fmap_inj_on _ _ _ _ (ai_addresses _ _ _ _ _ _ _ _ Hi)); try done.
  apply aligned_same; [by apply lo_aligned, (ai_ledger _ _ _ _ _ _ _ _ Hi)..|]. congruence.
Qed.

Lemma space_one_page U O B s as_ p q a :
  space U O B s as_ → p ∈ pages as_ → q ∈ pages as_ →
  in_page (physical p) a → in_page (physical q) a → p = q.
Proof.
  intros [(N & F & P & Hi) _] Hp Hq Hpa Hqa. pose proof (as_nodup _ _ _ _ _ _ _ _ Hi) as Hnd.
  rewrite !app_assoc in Hnd. apply NoDup_app in Hnd as (Hnd & _ & _). apply NoDup_app in Hnd as (_ & _ & Hnd).
  apply (fmap_inj_on _ _ _ _ Hnd); try done.
  eapply as_disjoint; [exact Hi| | |exact Hpa|exact Hqa];
    rewrite <- (ai_pages _ _ _ _ _ _ _ _ Hi), !elem_of_app; do 3 right; left; by apply list_elem_of_fmap_2.
Qed.

(** Nobody else has a byte of the ledger's pages. *)
Lemma region_not_ledger U O B s as_ p a :
  space U O B s as_ → p ∈ pages as_ → region U O a → ¬ in_page (physical p) a.
Proof.
  intros [(N & F & P & Hi) _] Hp Hra Hpa. pose proof (bare_of_as _ _ _ _ _ _ _ _ Hi) as Hb.
  assert (physical p ∈ physical <$> pages as_) as Hpp by (by apply list_elem_of_fmap_2).
  destruct Hra as [(q & Hq & Hqa)|[Hno _]].
  - assert (q = physical p) as ->.
    { eapply (bare_disjoint U); [exact Hb| | |exact Hqa|exact Hpa]; unfold owned; rewrite !elem_of_app; tauto. }
    pose proof (as_nodup _ _ _ _ _ _ _ _ Hi) as Hnd. rewrite !app_assoc in Hnd.
    apply NoDup_app in Hnd as (_ & Hd & _). apply (Hd (physical p)); [rewrite !elem_of_app; tauto|done].
  - apply (Hno (physical p)); [|done]. eapply (bare_member U); [exact Hb|]. unfold owned.
    rewrite !elem_of_app. tauto.
Qed.

(** Addresses of one page are translated together. *)
Lemma space_unmapped U O B s as_ va va' x :
  space U O B s as_ → 0 <= va < 2 ^ 38 → 0 <= va' < 2 ^ 38 →
  vm_query (Some (table as_)) va s = Some x → va' / PAGE_SIZE = va / PAGE_SIZE →
  vm_query (Some (table as_)) va' s ≠ None.
Proof.
  intros [(N & F & P & Hi) _] Hva Hva' E Epg En. destruct x as [pa bits].
  pose proof (ai_query _ _ _ _ _ _ _ _ Hi va Hva) as Hq. rewrite E in Hq.
  pose proof (ai_query _ _ _ _ _ _ _ _ Hi va' Hva') as Hn. rewrite En in Hn.
  destruct Hq as (p & Hp & Hm & Hs & _). apply (Hn p Hp Hm). unfold same_page in *. congruence.
Qed.

(** What is written is neither the table's nor the allocators': translations stay. *)
Lemma query_kept U O B s s' as_ Q :
  space U O B s as_ → (∀ p, p ∈ Q → p ∈ owned as_ O) →
  same_on (λ a, ¬ region U Q a) (mem s) (mem s') →
  ∀ va, 0 <= va < 2 ^ 38 → vm_query (Some (table as_)) va s' = vm_query (Some (table as_)) va s.
Proof.
  intros [(N & F & P & Hi) _] HQ Hm va Hva. pose proof (bare_of_as _ _ _ _ _ _ _ _ Hi) as Hb.
  destruct (pt_rep_same lower_half s s' (root (table as_)) N) as [Hr Hl]; [|by apply Hi|].
  - intros p Hp a Ha. apply Hm. intros [(q & Hq & Hqa)|[Hno _]].
    + assert (p = q) as ->.
      { eapply (bare_disjoint U); [exact Hb| | |exact Ha|exact Hqa]; rewrite !elem_of_app; auto. }
      pose proof (as_nodup _ _ _ _ _ _ _ _ Hi) as Hnd. rewrite !app_assoc, <- (app_assoc _ (physical <$> _)) in Hnd.
      apply NoDup_app in Hnd as (_ & Hd & _). apply (Hd q); [rewrite !elem_of_app; tauto|by apply HQ].
    + apply (Hno p); [|done]. eapply (bare_member U); [exact Hb|]. rewrite !elem_of_app. tauto.
  - rewrite (page_table_eta (table as_)), (query_user _ s N F va (ai_vm _ _ _ _ _ _ _ _ Hi) Hva), <- Hl.
    rewrite (vm_query_leaf lower_half s' _ N va Hr) by (by apply vpn_index_user).
    by rewrite canonical_user.
Qed.

(** ** One chunk to the user *)

Lemma copy_out_step U O B s as_ bytes address size pa bits :
  space U O B s as_ → 0 <= address → 0 < size → address + size <= 2 ^ 38 →
  vm_query (Some (table as_)) address s = Some (pa, bits) →
  let chunk := chunk_of address size in
  (∀ i, 0 <= i < chunk → region U O (bytes + i)) →
  let s' := set_mem (memcpy (mem s) (phys_to_virt pa) bytes (Z.to_nat chunk)) s in
  space U O B s' as_ ∧ kept U O (mem s) (mem s') ∧
  (∀ va, 0 <= va < 2 ^ 38 → vm_query (Some (table as_)) va s' = vm_query (Some (table as_)) va s) ∧
  (∀ va, 0 <= va < 2 ^ 38 → user_byte as_ va s'
    = if decide (address <= va < address + chunk) then Some (load8 (mem s) (bytes + (va - address)))
      else user_byte as_ va s).
Proof.
  intros Hs Ha Hsz Hend Eq chunk Hbuf s'.
  destruct (chunk_of_spec address size Hsz) as (Hc1 & Hc2 & _). fold chunk in Hc1, Hc2.
  assert (0 <= address < 2 ^ 38) as Har by lia.
  destruct (space_query U O B s as_ address pa bits Hs Har Eq) as (p & Hp & Hsp & -> & -> & Hpk & Eptr).
  assert (∀ a, region U O a → ¬ in_page (physical p) a) as Hout by (intros a; by eapply region_not_ledger).
  set (d := phys_to_virt (physical p) + address mod 4096) in *.
  assert (∀ a, load8 (mem s') a = if decide (d <= a < d + chunk) then load8 (mem s) (bytes + (a - d)) else load8 (mem s) a) as Hm.
  { intros a. cbn [mem s' set_mem]. rewrite Eptr, memcpy_load8; rewrite Z2Nat.id by lia; [done|].
    destruct (decide (d <= bytes)); [by left|right].
    destruct (decide (bytes + chunk <= d)); [done|]. exfalso.
    apply (Hout (bytes + (d - bytes))); [apply Hbuf; lia|]. unfold in_page. div_lia. }
  assert (same_on (λ a, ¬ in_page (physical p) a) (mem s) (mem s')) as Hpage.
  { intros a Hna. rewrite Hm, decide_False; [done|]. intros Hd. apply Hna. unfold in_page. subst d. div_lia. }
  assert (space U O B s' as_) as Hs' by (by apply (space_write U O B s s' as_ p)).
  assert (∀ va, 0 <= va < 2 ^ 38 → vm_query (Some (table as_)) va s' = vm_query (Some (table as_)) va s) as Hqs.
  { apply (query_kept U O B s s' as_ [physical p]); [done| |].
    - intros x ->%list_elem_of_singleton. apply elem_of_app. left. by apply list_elem_of_fmap_2.
    - intros a Hna. apply Hpage. intros Hpa. apply Hna. left. exists (physical p). split; [by left|done]. }
  split; [done|]. split; [intros a Hra; by apply Hpage, Hout|]. split; [done|].
  intros va Hva. unfold user_byte. rewrite Hqs by done.
  assert (same_page va p ↔ va / PAGE_SIZE = address / PAGE_SIZE) as Hpg.
  { unfold same_page in *. by rewrite Hsp. }
  destruct (vm_query (Some (table as_)) va s) as [[pa' bits']|] eqn:Ev.
  2:{ rewrite decide_False; [done|]. intros Hr. apply (space_unmapped U O B s as_ address va _ Hs Har Hva Eq); [|done].
      by apply chunk_same_page with size. }
  destruct (space_query U O B s as_ va pa' bits' Hs Hva Ev) as (q & Hq & Hsq & -> & -> & Hqk & Eptr').
  rewrite Eptr', Hm. case_decide as Hd; case_decide as Hr.
  - assert (p = q) as <-.
    { apply (space_same_address U O B s as_ p q va); try done. by apply Hpg, chunk_same_page with size. }
    do 2 f_equal. apply chunk_same_page in Hr; [|done]. subst d. div_lia.
  - exfalso. assert (p = q) as <-.
    { apply (space_one_page U O B s as_ p q (phys_to_virt (physical q) + va mod 4096)); try done;
        unfold in_page; subst d; div_lia. }
    apply Hpg in Hsq. apply Hr. subst d. clear -Hsq Hd. div_lia.
  - exfalso. assert (p = q) as <-.
    { apply (space_same_address U O B s as_ p q va); try done. by apply Hpg, chunk_same_page with size. }
    apply Hd. apply Hpg in Hsq. subst d. clear -Hsq Hr. div_lia.
  - done.
Qed.
(** ** The loops *)

Lemma copy_out_loop U O B as_ fuel : ∀ bytes address size s,
  space U O B s as_ → rounds fuel address size → 0 <= address → 0 <= size → address + size <= 2 ^ 38 →
  (∀ i, 0 <= i < size → region U O (bytes + i)) →
  ∃ ok s', copy_loop fuel (table as_) bytes address size true s = Some (ok, s') ∧
    validate_loop fuel (table as_) address size true s = Some ok ∧
    space U O B s' as_ ∧ kept U O (mem s) (mem s') ∧
    (∀ va, 0 <= va < 2 ^ 38 → vm_query (Some (table as_)) va s' = vm_query (Some (table as_)) va s) ∧
    (∀ va, 0 <= va < 2 ^ 38 → ¬ (address <= va < address + size) → user_byte as_ va s' = user_byte as_ va s) ∧
    (ok = true → ∀ i, 0 <= i < size → user_byte as_ (address + i) s' = Some (load8 (mem s) (bytes + i))).
Proof.
  induction fuel as [|fuel IH]; intros bytes address size s Hs Hr Ha Hsz Hend Hbuf; cbn [copy_loop validate_loop];
    [destruct Hr; lia|].
  destruct (Z.eqb_spec size 0) as [->|Hnz].
  { exists true, s. do 3 (split; [done|]). split; [apply kept_refl|]. do 2 (split; [done|]). lia. }
  destruct (vm_query (Some (table as_)) address s) as [[pa bits]|] eqn:Eq.
  2:{ exists false, s. do 3 (split; [done|]). split; [apply kept_refl|]. done. }
  destruct (may_access bits true); cbn [negb].
  2:{ exists false, s. do 3 (split; [done|]). split; [apply kept_refl|]. done. }
  assert (0 < size) as Hpos by lia. destruct (chunk_of_spec address size Hpos) as (Hc1 & Hc2 & _).
  destruct (copy_out_step U O B s as_ bytes address size pa bits Hs Ha Hpos Hend Eq) as (Hs1 & Hk1 & Hq1 & Hb1).
  { intros i Hi. apply Hbuf. lia. }
  apply rounds_step in Hr; [|done]. set (chunk := chunk_of address size) in *. set (s1 := set_mem _ s) in *.
  destruct (IH (bytes + chunk) (address + chunk) (size - chunk) s1 Hs1 Hr) as (ok & s2 & E & Ev & Hs2 & Hk2 & Hq2 & Ho2 & Hb2);
    [lia..| |].
  { intros i Hi. rewrite <- Z.add_assoc. apply Hbuf. lia. }
  exists ok, s2. split; [done|]. split.
  { rewrite <- Ev. apply validate_loop_ext; [lia..|]. intros va Hva. by apply Hq1. }
  split; [done|]. split; [by eapply kept_trans|].
  split; [intros va Hva; by rewrite Hq2, Hq1|]. split.
  - intros va Hva Hn. rewrite Ho2, Hb1, decide_False by lia. done.
  - intros -> i Hi. destruct (decide (i < chunk)).
    + rewrite Ho2, Hb1, decide_True by lia. do 2 f_equal. lia.
    + replace (address + i) with (address + chunk + (i - chunk)) by lia. rewrite Hb2 by (done || lia).
      f_equal. replace (bytes + chunk + (i - chunk)) with (bytes + i) by lia. apply Hk1, Hbuf. lia.
Qed.

(** A write into what is the others' alone. *)
Lemma space_other_write U O B s s' as_ :
  space U O B s as_ → same_on (λ a, ¬ region U O a) (mem s) (mem s') →
  free_list s' = free_list s → free_pages s' = free_pages s → total_pages s' = total_pages s →
  space U O B s' as_.
Proof.
  intros [(N & F & P & Hi) Hd] Hm E1 E2 E3. split; [|done]. exists N, F, P. apply (as_write U O s); try done.
  intros a Hra. apply Hm. intros Hro. pose proof (bare_of_as _ _ _ _ _ _ _ _ Hi) as Hb.
  destruct (region_outside U O s as_ N F P _ a Hi) as [Hfp Hst].
  { destruct Hro as [(q & Hq & Hqa)|Hro]; [left; exists q; rewrite !elem_of_app; auto|by right]. }
  destruct Hra as [Hra|(q & Hq & Hqa)]; [done|]. rewrite app_assoc, elem_of_app in Hq.
  destruct Hq as [Hq|Hq]; [by apply (Hfp q)|]. destruct Hro as [(w & Hw & Hwa)|[Hno _]].
  - assert (q = w) as <-.
    { eapply (bare_disjoint U); [exact Hb| | |exact Hqa|exact Hwa]; unfold owned; rewrite !elem_of_app; tauto. }
    pose proof (as_nodup _ _ _ _ _ _ _ _ Hi) as Hnd. rewrite !app_assoc in Hnd.
    apply NoDup_app in Hnd as (_ & Hdis & _). apply (Hdis q); [rewrite !elem_of_app; tauto|done].
  - apply (Hno q); [|done]. eapply (bare_member U); [exact Hb|]. rewrite !elem_of_app. tauto.
Qed.

(** One chunk from the user. *)
Lemma copy_in_step U O B s as_ bytes address size pa bits :
  space U O B s as_ → 0 <= address → 0 < size → address + size <= 2 ^ 38 →
  vm_query (Some (table as_)) address s = Some (pa, bits) →
  let chunk := chunk_of address size in
  (∀ i, 0 <= i < chunk → region U O (bytes + i)) →
  let s' := set_mem (memcpy (mem s) bytes (phys_to_virt pa) (Z.to_nat chunk)) s in
  space U O B s' as_ ∧
  same_on (λ a, ¬ (bytes <= a < bytes + chunk)) (mem s) (mem s') ∧
  (∀ va, 0 <= va < 2 ^ 38 → vm_query (Some (table as_)) va s' = vm_query (Some (table as_)) va s) ∧
  (∀ va, 0 <= va < 2 ^ 38 → user_byte as_ va s' = user_byte as_ va s) ∧
  (∀ i, 0 <= i < chunk → user_byte as_ (address + i) s = Some (load8 (mem s') (bytes + i))).
Proof.
  intros Hs Ha Hsz Hend Eq chunk Hbuf s'.
  destruct (chunk_of_spec address size Hsz) as (Hc1 & Hc2 & _). fold chunk in Hc1, Hc2.
  assert (0 <= address < 2 ^ 38) as Har by lia.
  destruct (space_query U O B s as_ address pa bits Hs Har Eq) as (p & Hp & Hsp & -> & -> & Hpk & Eptr).
  set (d := phys_to_virt (physical p) + address mod 4096) in *.
  assert (∀ a, load8 (mem s') a
    = if decide (bytes <= a < bytes + chunk) then load8 (mem s) (d + (a - bytes)) else load8 (mem s) a) as Hm.
  { intros a. cbn [mem s' set_mem]. rewrite Eptr, memcpy_load8; rewrite Z2Nat.id by lia; [done|].
    destruct (decide (bytes <= d)); [by left|right].
    destruct (decide (d + chunk <= bytes)); [done|]. exfalso.
    apply (region_not_ledger U O B s as_ p (bytes + 0) Hs Hp); [apply Hbuf; lia|]. unfold in_page. subst d. div_lia. }
  assert (same_on (λ a, ¬ (bytes <= a < bytes + chunk)) (mem s) (mem s')) as Hout.
  { intros a Hna. by rewrite Hm, decide_False. }
  assert (∀ a, ¬ region U O a → ¬ (bytes <= a < bytes + chunk)) as Hreg.
  { intros a Hna Hr. apply Hna. replace a with (bytes + (a - bytes)) by lia. apply Hbuf. lia. }
  assert (space U O B s' as_) as Hs'.
  { apply (space_other_write U O B s); try done. intros a Hna. by apply Hout, Hreg. }
  assert (∀ va, 0 <= va < 2 ^ 38 → vm_query (Some (table as_)) va s' = vm_query (Some (table as_)) va s) as Hqs.
  { apply (query_kept U O B s s' as_ O); [done|intros x Hx; apply elem_of_app; by right|].
    intros a Hna. by apply Hout, Hreg. }
  split; [done|]. split; [done|]. split; [done|]. split.
  - intros va Hva. unfold user_byte. rewrite Hqs by done.
    destruct (vm_query (Some (table as_)) va s) as [[pa' bits']|] eqn:Ev; [|done].
    destruct (space_query U O B s as_ va pa' bits' Hs Hva Ev) as (q & Hq & Hsq & -> & -> & Hqk & Eptr').
    f_equal. apply Hout, Hreg. intros Hro. apply (region_not_ledger U O B s as_ q _ Hs Hq Hro).
    rewrite Eptr'. unfold in_page. div_lia.
  - intros i Hi. rewrite Hm, decide_True by lia. unfold user_byte.
    assert ((address + i) / PAGE_SIZE = address / PAGE_SIZE) as Epg by (apply chunk_same_page with size; [done|lia]).
    destruct (vm_query (Some (table as_)) (address + i) s) as [[pa' bits']|] eqn:Ev.
    + destruct (space_query U O B s as_ (address + i) pa' bits' Hs ltac:(lia) Ev) as (q & Hq & Hsq & -> & -> & Hqk & Eptr').
      assert (p = q) as <-.
      { apply (space_same_address U O B s as_ p q address); try done. unfold same_page in *. congruence. }
      rewrite Eptr'. do 2 f_equal. subst d. div_lia.
    + exfalso. by eapply (space_unmapped U O B s as_ address (address + i)); eauto; lia.
Qed.
Lemma copy_in_loop U O B as_ fuel : ∀ bytes address size s,
  space U O B s as_ → rounds fuel address size → 0 <= address → 0 <= size → address + size <= 2 ^ 38 →
  (∀ i, 0 <= i < size → region U O (bytes + i)) →
  ∃ ok s', copy_loop fuel (table as_) bytes address size false s = Some (ok, s') ∧
    validate_loop fuel (table as_) address size false s = Some ok ∧
    space U O B s' as_ ∧ same_on (λ a, ¬ (bytes <= a < bytes + size)) (mem s) (mem s') ∧
    (∀ va, 0 <= va < 2 ^ 38 → vm_query (Some (table as_)) va s' = vm_query (Some (table as_)) va s) ∧
    (∀ va, 0 <= va < 2 ^ 38 → user_byte as_ va s' = user_byte as_ va s) ∧
    (ok = true → ∀ i, 0 <= i < size → user_byte as_ (address + i) s = Some (load8 (mem s') (bytes + i))).
Proof.
  induction fuel as [|fuel IH]; intros bytes address size s Hs Hr Ha Hsz Hend Hbuf; cbn [copy_loop validate_loop];
    [destruct Hr; lia|].
  destruct (Z.eqb_spec size 0) as [->|Hnz].
  { exists true, s. do 6 (split; [done|]). lia. }
  destruct (vm_query (Some (table as_)) address s) as [[pa bits]|] eqn:Eq; [|by exists false, s].
  destruct (may_access bits false); cbn [negb]; [|by exists false, s].
  assert (0 < size) as Hpos by lia. destruct (chunk_of_spec address size Hpos) as (Hc1 & Hc2 & _).
  destruct (copy_in_step U O B s as_ bytes address size pa bits Hs Ha Hpos Hend Eq) as (Hs1 & Hk1 & Hq1 & Hu1 & Hb1).
  { intros i Hi. apply Hbuf. lia. }
  apply rounds_step in Hr; [|done]. set (chunk := chunk_of address size) in *. set (s1 := set_mem _ s) in *.
  destruct (IH (bytes + chunk) (address + chunk) (size - chunk) s1 Hs1 Hr) as (ok & s2 & E & Ev & Hs2 & Hk2 & Hq2 & Hu2 & Hb2);
    [lia..| |].
  { intros i Hi. rewrite <- Z.add_assoc. apply Hbuf. lia. }
  exists ok, s2. split; [done|]. split.
  { rewrite <- Ev. apply validate_loop_ext; [lia..|]. intros va Hva. by apply Hq1. }
  split; [done|]. split; [intros a Hna; rewrite (Hk2 a), (Hk1 a) by lia; done|].
  split; [intros va Hva; by rewrite Hq2, Hq1|]. split; [intros va Hva; by rewrite Hu2, Hu1|].
  intros -> i Hi. destruct (decide (i < chunk)).
  - rewrite Hb1 by lia. f_equal. symmetry. apply Hk2. lia.
  - rewrite <- (Hu1 (address + i)) by lia. replace (address + i) with (address + chunk + (i - chunk)) by lia.
    rewrite Hb2 by (done || lia). do 2 f_equal. lia.
Qed.

(** * The operations *)

(** The ranges that the kernel accepts. *)
Definition user_range (address size : Z) : Prop := 0 <= address ∧ 0 <= size ∧ address + size <= 2 ^ 38.

Lemma copy_guard buffer address size :
  buffer ≠ 0 → 0 <= address → 0 < size →
  (buffer =? 0) || (address >=? USER_END) || (size >? USER_END - address)
  = (address >=? USER_END) || (size >? USER_END - address) ∧
  ((address >=? USER_END) || (size >? USER_END - address) = false ↔ user_range address size).
Proof.
  intros Hb Ha Hs. rewrite (proj2 (Z.eqb_neq _ _) Hb). split; [done|]. unfold user_range.
  change (2 ^ 38) with USER_END. rewrite orb_false_iff, Z.geb_leb, Z.gtb_ltb. lia.
Qed.

(** What a copy to the user leaves: the range written, all else as it was. *)
Definition copied_out (U O : list Z) (as_ : address_space) (buffer address size : Z) (ok : bool)
    (s s' : kstate) : Prop :=
  kept U O (mem s) (mem s') ∧
  (∀ va, 0 <= va < 2 ^ 38 → vm_query (Some (table as_)) va s' = vm_query (Some (table as_)) va s) ∧
  (∀ va, 0 <= va < 2 ^ 38 → ¬ (address <= va < address + size) → user_byte as_ va s' = user_byte as_ va s) ∧
  (ok = true → ∀ i, 0 <= i < size → user_byte as_ (address + i) s' = Some (load8 (mem s) (buffer + i))).

Lemma user_copy_out U O B s as_ buffer address size :
  space U O B s as_ → buffer ≠ 0 → 0 <= address → 0 <= size →
  (∀ i, 0 <= i < size → region U O (buffer + i)) →
  ∃ ok s', address_space_copy (Some as_) buffer address size true s = Some (ok, s') ∧
    address_space_validate as_ address size true s = Some ok ∧ space U O B s' as_ ∧
    copied_out U O as_ buffer address size ok s s'.
Proof.
  intros Hs Hb Ha Hsz Hbuf. unfold address_space_copy, address_space_validate, copied_out.
  destruct (Z.eqb_spec size 0) as [->|Hnz].
  { exists true, s. do 3 (split; [done|]). split; [apply kept_refl|]. do 2 (split; [done|]). lia. }
  destruct (copy_guard buffer address size Hb Ha) as [-> Hg]; [lia|].
  destruct (_ || _) eqn:Eg.
  { exists false, s. do 3 (split; [done|]). split; [apply kept_refl|done]. }
  destruct (proj1 Hg eq_refl) as (_ & _ & Hend).
  exact (copy_out_loop U O B as_ _ buffer address size s Hs (copy_fuel_rounds _ _ Hsz) Ha Hsz Hend Hbuf).
Qed.

(** What a copy from the user leaves: the buffer written, all else as it was. *)
Definition copied_in (as_ : address_space) (buffer address size : Z) (ok : bool) (s s' : kstate) : Prop :=
  same_on (λ a, ¬ (buffer <= a < buffer + size)) (mem s) (mem s') ∧
  (∀ va, 0 <= va < 2 ^ 38 → vm_query (Some (table as_)) va s' = vm_query (Some (table as_)) va s) ∧
  (∀ va, 0 <= va < 2 ^ 38 → user_byte as_ va s' = user_byte as_ va s) ∧
  (ok = true → ∀ i, 0 <= i < size → user_byte as_ (address + i) s = Some (load8 (mem s') (buffer + i))).

Lemma user_copy_in U O B s as_ buffer address size :
  space U O B s as_ → buffer ≠ 0 → 0 <= address → 0 <= size →
  (∀ i, 0 <= i < size → region U O (buffer + i)) →
  ∃ ok s', address_space_copy (Some as_) buffer address size false s = Some (ok, s') ∧
    address_space_validate as_ address size false s = Some ok ∧ space U O B s' as_ ∧
    copied_in as_ buffer address size ok s s'.
Proof.
  intros Hs Hb Ha Hsz Hbuf. unfold address_space_copy, address_space_validate, copied_in.
  destruct (Z.eqb_spec size 0) as [->|Hnz].
  { exists true, s. do 6 (split; [done|]). lia. }
  destruct (copy_guard buffer address size Hb Ha) as [-> Hg]; [lia|].
  destruct (_ || _) eqn:Eg; [by exists false, s|].
  destruct (proj1 Hg eq_refl) as (_ & _ & Hend).
  exact (copy_in_loop U O B as_ _ buffer address size s Hs (copy_fuel_rounds _ _ Hsz) Ha Hsz Hend Hbuf).
Qed.
End Copy.
