(* ===== verification/AddressSpaceThms.v ===== *)
(** The theorems about [src/mm/address_space.c], and a small machine on which they
    are applied. *)
From S2P Require Import Prelude Machine Runtime PageAlloc Vm VmInv VmProps VmReclaim HeapSpec Ownership AddressSpace AddressSpaceInv AddressSpaceProps AddressSpaceClone AddressSpaceAreas AddressSpaceMaps AddressSpaceBrk AddressSpaceCopy Heap HeapProps HeapThms HeapInstance Bench.

(** * Validation *)

Section Validate.
Context `{HeapContract}.

(** What a page table entry lets a program do: the page is the user's (bit 4), readable
    (1), and for a write writable (2). *)
Definition granted (bits : Z) (write : bool) : Prop :=
  Z.testbit bits 4 = true ∧ Z.testbit bits 1 = true ∧ (write = true → Z.testbit bits 2 = true).

(** Every byte of the range may be read (and written) by the program itself. *)
Definition accessible (as_ : address_space) (address size : Z) (write : bool) (s : kstate) : Prop :=
  ∀ va, address <= va < address + size →
    ∃ pa bits, vm_query (Some (table as_)) va s = Some (pa, bits) ∧ granted bits write.

Lemma may_access_granted bits write : may_access bits write = true ↔ granted bits write.
Proof.
  unfold may_access, granted. pose proof (land_bit bits 2 ltac:(lia)) as E2. change (2 ^ 2) with 4 in E2. rewrite E2.
  assert (Z.land bits PTE_UR =? PTE_UR = Z.testbit bits 4 && Z.testbit bits 1) as ->.
  { destruct (Z.testbit bits 4 && Z.testbit bits 1) eqn:E.
    - apply andb_prop in E as [E4 E1]. apply Z.eqb_eq, Z.bits_inj'. intros i Hi. rewrite Z.land_spec. change PTE_UR with (Z.lor (2 ^ 4) (2 ^ 1)).
      rewrite Z.lor_spec, !Z.pow2_bits_eqb by lia. destruct (Z.eqb_spec 4 i) as [<-|]; [by rewrite E4|]. destruct (Z.eqb_spec 1 i) as [<-|]; [by rewrite E1|].
      apply andb_false_r.
    - apply Z.eqb_neq. intros Hz. assert (∀ i, Z.testbit PTE_UR i = true → Z.testbit bits i = true) as Hb.
      { intros i Hi. rewrite <- Hz, Z.land_spec in Hi. by apply andb_prop in Hi as [? _]. }
      by rewrite (Hb 4 eq_refl), (Hb 1 eq_refl) in E. }
  rewrite !andb_true_iff. destruct write, (Z.testbit bits 2); cbn; naive_solver.
Qed.

Lemma query_bits U O B s as_ va va' pa bits :
  space U O B s as_ → 0 <= va < 2 ^ 38 → 0 <= va' < 2 ^ 38 → va' / PAGE_SIZE = va / PAGE_SIZE →
  vm_query (Some (table as_)) va s = Some (pa, bits) →
  ∃ pa', vm_query (Some (table as_)) va' s = Some (pa', bits).
Proof.
  intros Hs Hva Hva' Hpg E. destruct (vm_query (Some (table as_)) va' s) as [[pa' bits']|] eqn:E'.
  2:{ exfalso. by eapply (space_unmapped U O B s as_ va va'). }
  destruct (space_query U O B s as_ va pa bits Hs Hva E) as (p & Hp & Hsp & _ & -> & _).
  destruct (space_query U O B s as_ va' pa' bits' Hs Hva' E') as (q & Hq & Hsq & _ & -> & _).
  assert (p = q) as <-; [|by exists pa'].
  apply (space_same_address U O B s as_ p q va); try done. unfold same_page in *. congruence.
Qed.

Lemma validate_loop_spec U O B s as_ write fuel : ∀ address size,
  space U O B s as_ → rounds fuel address size → user_range address size →
  ∃ ok, validate_loop fuel (table as_) address size write s = Some ok ∧
    (ok = true ↔ accessible as_ address size write s).
Proof.
  induction fuel as [|fuel IH]; intros address size Hs Hr (Ha & Hsz & Hend); cbn [validate_loop]; [destruct Hr; lia|].
  destruct (Z.eqb_spec size 0) as [->|Hnz].
  { exists true. split; [done|]. split; [|done]. intros _ va Hva. lia. }
  assert (0 < size) as Hpos by lia. destruct (chunk_of_spec address size Hpos) as (Hc1 & Hc2 & _).
  destruct (vm_query (Some (table as_)) address s) as [[pa bits]|] eqn:Eq.
  2:{ exists false. split; [done|]. split; [done|]. intros Hacc.
      destruct (Hacc address) as (pa & bits & E & _); [lia|]. congruence. }
  destruct (may_access bits write) eqn:Em; cbn [negb].
  2:{ exists false. split; [done|]. split; [done|]. intros Hacc.
      destruct (Hacc address) as (pa' & bits' & E & Hm); [lia|]. apply may_access_granted in Hm. congruence. }
  apply may_access_granted in Em.
  destruct (IH (address + chunk_of address size) (size - chunk_of address size) Hs) as (ok & E & Hok);
    [by apply rounds_step|split; lia|].
  exists ok. split; [done|]. rewrite Hok. split; intros Hacc va Hva; [|apply Hacc; lia].
  destruct (decide (address + chunk_of address size <= va)); [apply Hacc; lia|].
  destruct (query_bits U O B s as_ address va pa bits Hs) as [pa' E']; [lia|lia| |done|by exists pa', bits].
  apply chunk_same_page with size; [done|lia].
Qed.

Lemma validate_weaken U O B s s' as_ address size ok :
  space U O B s' as_ → 0 <= address → 0 < size →
  (∀ va, 0 <= va < 2 ^ 38 → vm_query (Some (table as_)) va s' = vm_query (Some (table as_)) va s) →
  address_space_validate as_ address size true s = Some true →
  address_space_validate as_ address size false s' = Some ok → ok = true.
Proof.
  intros Hs Ha Hsz Hq E1 E2. unfold address_space_validate in *.
  destruct (Z.eqb_spec size 0); [lia|]. destruct (_ || _) eqn:Eg; [done|].
  destruct (copy_guard 1 address size ltac:(lia) Ha Hsz) as [_ Hg].
  pose proof (proj1 Hg Eg) as Hr. pose proof Hr as (_ & _ & Hend).
  rewrite (validate_loop_ext _ _ s s') in E1 by (done || lia).
  pose proof (copy_fuel_rounds address size ltac:(lia)) as Hf.
  destruct (validate_loop_spec U O B s' as_ true _ address size Hs Hf Hr) as (x & Ex & Hx).
  destruct (validate_loop_spec U O B s' as_ false _ address size Hs Hf Hr) as (y & Ey & Hy).
  rewrite Ex in E1. rewrite Ey in E2. injection E1 as ->. injection E2 as <-.
  apply Hy. intros va Hva. destruct (proj1 Hx eq_refl va Hva) as (pa & bits & E & Hm).
  exists pa, bits. split; [done|]. by destruct Hm as (? & ? & _).
Qed.

Lemma validate_spec (U O : list Z) (B : gset Z) (s : kstate) (as_ : address_space)
    (address size : Z) (write : bool) :
  space U O B s as_ → 0 <= address → 0 <= size →
  ∃ ok, address_space_validate as_ address size write s = Some ok ∧
    (ok = true ↔ size = 0 ∨ (address + size <= 2 ^ 38 ∧ accessible as_ address size write s)).
Proof.
  intros Hs Ha Hsz. unfold address_space_validate. destruct (Z.eqb_spec size 0) as [->|Hnz]; [exists true; split; [done|]; split; auto|].
  destruct (copy_guard 1 address size ltac:(lia) Ha ltac:(lia)) as [_ Hg].
  destruct (_ || _) eqn:Eg.
  - exists false. split; [done|]. split; [done|]. intros [?|[Hend _]]; [done|].
    assert (true = false) as E by (apply Hg; done). discriminate E.
  - destruct (proj1 Hg eq_refl) as (_ & _ & Hend).
    destruct (validate_loop_spec U O B s as_ write (copy_fuel size) address size Hs
      (copy_fuel_rounds _ _ Hsz)) as (ok & E & Hok); [done|].
    exists ok. split; [done|]. rewrite Hok. split; [auto|]. by intros [?|[_ ?]].
Qed.
(** C26. [address_space_validate] always returns, and says yes exactly when the range
    lies below the user limit and each of its bytes is mapped with the rights the
    program needs for the access (user, readable, and writable for a write). *)
Theorem address_space_validate_correct (U O : list Z) (B : gset Z) (s : kstate) (as_ : address_space)
    (address size : Z) (write : bool) :
  space U O B s as_ → 0 <= address → 0 <= size →
  ∃ ok, address_space_validate as_ address size write s = Some ok ∧
    (ok = true ↔ size = 0 ∨ (address + size <= 2 ^ 38 ∧ accessible as_ address size write s)).
Proof. apply validate_spec. Qed.
End Validate.

(** * The operations *)

Section Theorems.
Context `{HeapContract}.

(** C27. Kernel copies agree with validation: [address_space_copy], in either
    direction, always returns; it succeeds exactly when [address_space_validate]
    accepts the range; a copy to the user changes no translation and no byte
    outside the range, one from the user nothing but the buffer. *)
Theorem address_space_copy_validate (U O : list Z) (B : gset Z) (s : kstate) (as_ : address_space)
    (buffer address size : Z) (to_user : bool) :
  space U O B s as_ → buffer ≠ 0 → 0 <= address → 0 <= size →
  (∀ i, 0 <= i < size → region U O (buffer + i)) →
  ∃ ok s', address_space_copy (Some as_) buffer address size to_user s = Some (ok, s') ∧
    address_space_validate as_ address size to_user s = Some ok ∧ space U O B s' as_ ∧
    if to_user then copied_out U O as_ buffer address size ok s s'
    else copied_in as_ buffer address size ok s s'.
Proof. destruct to_user; [apply user_copy_out|apply user_copy_in]. Qed.

(** C25. What the kernel writes to user memory it reads back: after a successful copy
    to the user, a copy from the same range into any other buffer succeeds and
    delivers the same bytes. *)
Theorem user_copy_roundtrip (U O : list Z) (B : gset Z) (s s1 : kstate) (as_ : address_space)
    (buffer buffer' address size : Z) :
  space U O B s as_ → buffer ≠ 0 → buffer' ≠ 0 → 0 <= address → 0 <= size →
  (∀ i, 0 <= i < size → region U O (buffer + i)) →
  (∀ i, 0 <= i < size → region U O (buffer' + i)) →
  address_space_copy (Some as_) buffer address size true s = Some (true, s1) →
  ∃ s2, address_space_copy (Some as_) buffer' address size false s1 = Some (true, s2) ∧
    ∀ i, 0 <= i < size → load8 (mem s2) (buffer' + i) = load8 (mem s) (buffer + i).
Proof.
  intros Hs Hb Hb' Ha Hsz Hbuf Hbuf' E.
  destruct (user_copy_out U O B s as_ buffer address size Hs Hb Ha Hsz Hbuf) as (ok & s1' & E1 & Ev & Hs1 & Hk & Hq & _ & Hby).
  rewrite E in E1. injection E1 as <- <-.
  destruct (user_copy_in U O B s1 as_ buffer' address size Hs1 Hb' Ha Hsz Hbuf') as (ok & s2 & E2 & Ev2 & _ & _ & _ & _ & Hby2).
  assert (ok = true) as ->.
  { destruct (decide (size = 0)) as [->|Hnz]; [by injection Ev2|].
    apply (validate_weaken U O B s s1 as_ address size ok); try done. lia. }
  exists s2. split; [done|]. intros i Hi. specialize (Hby eq_refl i Hi). specialize (Hby2 eq_refl i Hi).
  congruence.
Qed.

(** C11. [address_space_destroy] gives everything back: every page of the table and
    of the ledger returns to the free list or the heap, every record is freed,
    the pages of everybody else keep their contents, and the address space is
    left empty. *)
Theorem address_space_destroy_reclaims (U O : list Z) (B : gset Z) (s : kstate) (as_ : address_space) :
  space U O B s as_ →
  ∃ s', address_space_destroy as_ s
      = (mk_as (mk_page_table 0) [] [] (brk_base as_) (brk_end as_), s') ∧
    (∃ F P, heap_ok U s' F P B ∧ free_rep s' F ∧ F ++ P ++ O ≡ₚ U) ∧ kept U O (mem s) (mem s').
Proof.
  intros Hs. destruct (space_destroy U O B s as_ Hs) as (s' & E & (F & P & Hb) & Hk). exists s'.
  split; [done|]. split; [|done]. exists F, P. destruct Hb as [B1 B2 B3]. split; [done|].
  split; [by eapply heap_ok_free|done].
Qed.

(** C7. [address_space_clone] either produces an independent copy, page for page
    with the same addresses, rights and bytes in frames of its own, area for area
    and with the same break, or fails having given back all it took.  Both ways the
    source is well formed as before and no byte of it or of anybody else changes. *)
Theorem address_space_clone_correct (U O : list Z) (s : kstate) (src : address_space)
    (N : gmap (list Z) Z) (F P : list Z) (L : gset Z) (kr : Z) (NK : gmap (list Z) Z) :
  as_inv U O s src N F P L → pt_rep whole s kr NK → (∀ p, p ∈ map_vals NK → p ∈ O) →
  ∃ ok dst s', address_space_clone src (Some (mk_page_table kr)) s = (ok, dst, s') ∧
    kept U (map_vals N ++ owned src O) (mem s) (mem s') ∧
    if ok then ∃ N' F' P',
      as_inv U (map_vals N ++ owned src O) s' dst N' F' P' (records dst ∪ L) ∧
      as_inv U (map_vals N' ++ owned dst O) s' src N F' P' (records dst ∪ L) ∧
      Forall2 (copied (mem s')) (pages src) (pages dst) ∧
      Forall2 same_area (areas src) (areas dst) ∧
      brk_base dst = brk_base src ∧ brk_end dst = brk_end src
    else ∃ F' P', as_inv U O s' src N F' P' L.
Proof.
  intros Hi HK HNK. destruct (clone_spec U O s src N F P L kr NK Hi HK HNK) as (ok & dst & s' & E & Hk & Hres).
  exists ok, dst, s'. split; [done|]. split; [done|].
  pose proof (ai_pages _ _ _ _ _ _ _ _ Hi) as HU. unfold owned in HU. destruct ok.
  - destruct Hres as ([(N' & F' & P' & Hd) _] & Hp & Ha & Hb). exists N', F', P'. split; [done|]. split; [|done].
    apply (as_other U O s s' src N F P L); try done; [by apply Hd| |set_solver].
    pose proof (ai_pages _ _ _ _ _ _ _ _ Hd) as HU'. unfold owned in *.
    rewrite (app_assoc (map_vals N) (physical <$> pages src) O) in HU, HU'.
    rewrite (app_assoc (map_vals N') (physical <$> pages dst)) in HU' |- *.
    by apply (app_cancel F P (map_vals N ++ (physical <$> pages src)) _ _ _ U).
  - destruct Hres as (F' & P' & Hb). exists F', P'. pose proof Hb as [B1 B2 B3].
    apply (as_other U O s s' src N F P L); try done. unfold owned in B2.
    rewrite (app_assoc (map_vals N) (physical <$> pages src) O) in HU, B2.
    by apply (app_cancel F P (map_vals N ++ (physical <$> pages src)) [] F' P' U).
Qed.
(** C8. [address_space_munmap] always returns and is atomic.  When it succeeds
    exactly the addresses of the page-rounded range lose their reservation, all
    others keep theirs with flags and kind, and exactly the pages of the range leave
    the ledger.  When it fails (a bad range, an area that is not a mapping, no
    memory for a middle cut) nothing changes.  Areas stay disjoint, aligned and
    cover the ledger; the remaining pages keep their bytes. *)
Theorem address_space_munmap_correct (U O : list Z) (B : gset Z) (s : kstate) (as_ : address_space) (a n : Z) :
  space U O B s as_ → as_wf as_ → 0 <= a → 0 <= n →
  ∃ r as' s', address_space_munmap as_ a n s = Some (r, as', s') ∧
    space U O B s' as' ∧ as_wf as' ∧ kept U (owned as' O) (mem s) (mem s') ∧ munmap_outcome as_ a n r as'.
Proof. apply munmap_spec. Qed.

(** C9. [address_space_mmap] maps at a free, aligned place inside the mapping region:
    the requested one if it is free, else, unless the place was fixed, the lowest
    free one.  The new area and its pages have the requested rights, never both
    writable and executable; anonymous pages are zero; a file must be regular and
    readable.  On an error, also one halfway through, the address space is what
    it was. *)
Theorem address_space_mmap_correct `{FileContract} (U O : list Z) (B : gset Z) (s : kstate)
    (as_ : address_space) (address length prot mapflags : Z) (f : option file) (offset : Z) :
  space U O B s as_ → as_wf as_ → 0 <= length →
  ∃ r as' s', address_space_mmap as_ address length prot mapflags f offset s = (r, as', s') ∧
    space U O B s' as' ∧ as_wf as' ∧ kept U (owned as_ O) (mem s) (mem s') ∧
    mmap_outcome as_ address length prot mapflags f r as' (mem s').
Proof. apply mmap_spec. Qed.

(** C10. [address_space_brk] reports the break for 0; for an address inside the heap
    window it moves the break there, adding zeroed pages or removing those above, and
    touching no other area; if that is impossible it fails and nothing changes.
    The heap area always is exactly the pages from the heap base to the break. *)
Theorem address_space_brk_correct (U O : list Z) (B : gset Z) (s : kstate) (as_ : address_space) (r : Z) :
  space U O B s as_ → as_wf as_ → 0 <= r →
  ∃ res as' s', address_space_brk as_ r s = (res, as', s') ∧
    space U O B s' as' ∧ as_wf as' ∧ kept U (common as_ as' O) (mem s) (mem s') ∧
    ((r = 0 ∧ res = brk_end as_ ∧ as' = as_) ∨
     (in_heap r ∧ res = r ∧ brk_moved as_ as' r (mem s')) ∨
     (r ≠ 0 ∧ res = - E_NOMEM ∧ as' = as_)).
Proof. apply brk_spec. Qed.
End Theorems.

(** * A machine *)

Module AsDemo.
(** The machine of [Bench] with a kernel page table. *)
Definition kroot : Z := 2147483648.
Definition machine : kstate := snd (vm_create (Some (mk_page_table 0)) booted).

#[local] Existing Instance bench_heap.
#[local] Existing Instance bench_contract.

Lemma machine_total : total_pages machine = total_pages booted.
Proof. by vm_compute. Qed.

Lemma machine_table : vm_inv whole kroot machine {[ [] := kroot ]} (tail ram) ∧
  same_on (λ a, ¬ in_page kroot a) (mem booted) (mem machine).
Proof.
  pose proof (vm_create_spec whole (mk_page_table 0) booted ram (heap_ok_free _ _ _ _ _ booted_heap)) as Hc.
  unfold machine. destruct (vm_create (Some (mk_page_table 0)) booted) as [[ok t] s]. cbn [snd].
  destruct Hc as [(_ & E & _)|(_ & r & l & E & _ & Hv & _ & _ & Hm)]; [discriminate E|].
  injection E as <- <-. split; [exact Hv|exact Hm].
Qed.

Lemma ram_cons : ram = kroot :: tail ram.
Proof. by vm_compute. Qed.

(** The page taken for the kernel's table is no longer free. *)
Lemma bare_taken `{HeapContract} U s s' F L r :
  heap_ok U s U [] L → NoDup U → U = r :: F → free_rep s' F → total_pages s' = total_pages s →
  same_on heap_static (mem s) (mem s') → bare U s' F [] L [r].
Proof.
  intros Hh Hnd EU Hf Ht Hm.
  split; [|rewrite EU; cbn; by rewrite <- Permutation_cons_append|done].
  apply (heap_ok_transfer U s U [] L s' F); try done.
  - rewrite app_nil_r. rewrite EU in Hnd. by apply NoDup_cons in Hnd as [_ ?].
  - intros p Hp. rewrite EU. by right.
  - intros a [Ha|(p & Hp & _)]; [by apply Hm|by apply elem_of_nil in Hp].
Qed.

Lemma machine_bare : bare ram machine (tail ram) [] ∅ [kroot].
Proof.
  destruct machine_table as [Hv Hm].
  apply (bare_taken ram booted machine (tail ram) ∅ kroot booted_heap ram_nodup ram_cons
    (vi_free _ _ _ _ _ Hv) machine_total).
  intros a Ha. apply Hm. apply ram_static; [|exact Ha]. rewrite ram_cons. apply elem_of_cons. left. reflexivity.
Qed.
(** A new address space. *)
Definition as0 : address_space := snd (fst (address_space_init (Some (mk_page_table kroot)) machine)).
Definition st0 : kstate := snd (address_space_init (Some (mk_page_table kroot)) machine).

Lemma init_returns : fst (fst (address_space_init (Some (mk_page_table kroot)) machine)) = true.
Proof. vm_compute. reflexivity. Qed.

Lemma space0 : space ram [kroot] ∅ st0 as0 ∧ as_wf as0.
Proof.
  pose proof init_returns as Hok. unfold st0, as0.
  destruct (init_spec ram [kroot] machine (tail ram) [] ∅ kroot {[ [] := kroot ]} machine_bare
    (vi_pt _ _ _ _ _ (proj1 machine_table))) as (ok & t & s' & E & _ & Hres).
  { intros p Hp. rewrite map_vals_root in Hp. exact Hp. }
  rewrite E in Hok |- *. cbn [fst snd] in Hok |- *. subst ok. destruct Hres as (_ & N & F & Hi). split.
  - split; [|apply disjoint_empty_r]. exists N, F, []. rewrite union_empty_r_L. exact Hi.
  - split; cbn [areas pages brk_base brk_end].
    + split; intros a; [|intros b x]; intros Ha; apply elem_of_nil in Ha; destruct Ha.
    + intros p Hp. apply elem_of_nil in Hp. destruct Hp.
    + lia.
    + intros a Ha. apply elem_of_nil in Ha. destruct Ha.
    + intros Hgt. exfalso. vm_compute in Hgt. discriminate Hgt.
Qed.

(** A file of one repeated byte. *)
#[local] Instance letters : FileAccess := {
  file := Z; file_node_type _ := Some DT_REG; file_flags _ := 0;
  file_pread f ptr n _ s := (n, set_mem (memset (mem s) ptr f (Z.to_nat n)) s);
}.
#[local] Instance letters_contract : FileContract.
Proof.
  split. intros f ptr n offset s. cbn. split; [|split; [|split]; reflexivity].
  apply memset_same_on. intros a Ha. lia.
Qed.

Definition letter : @file letters := 65.

(** Three anonymous pages, readable and writable. *)
Definition mapped3 : Z * address_space * kstate := address_space_mmap as0 0 12288 3 34 None 0 st0.
Definition as1 : address_space := snd (fst mapped3).
Definition st1 : kstate := snd mapped3.

Lemma mapped3_at : fst (fst mapped3) = MMAP_BASE.
Proof. vm_compute. reflexivity. Qed.

Lemma space1 : space ram [kroot] ∅ st1 as1 ∧ as_wf as1.
Proof.
  destruct space0 as [Hs Hwf].
  destruct (mmap_spec ram [kroot] ∅ st0 as0 0 12288 3 34 None 0 Hs Hwf ltac:(lia)) as (r & as' & s' & E & H1 & H2 & _).
  unfold st1, as1, mapped3. rewrite E. split; [exact H1|exact H2].
Qed.

Lemma address_space_mmap_correct_witness :
  ∃ as' s', address_space_mmap as0 0 4096 1 2 (Some letter) 0 st0 = (MMAP_BASE, as', s') ∧
    as_wf as' ∧ mmap_outcome as0 0 4096 1 2 (Some letter) MMAP_BASE as' (mem s').
Proof.
  destruct space0 as [Hs Hwf].
  destruct (address_space_mmap_correct ram [kroot] ∅ st0 as0 0 4096 1 2 (Some letter) 0 Hs Hwf ltac:(lia))
    as (r & as' & s' & E & _ & Hwf' & _ & Ho).
  assert (r = MMAP_BASE) as Er.
  { assert (fst (fst (address_space_mmap as0 0 4096 1 2 (Some letter) 0 st0)) = MMAP_BASE) as Ef
      by (vm_compute; reflexivity).
    rewrite E in Ef. exact Ef. }
  rewrite Er in E, Ho. exists as', s'. split; [exact E|]. split; [exact Hwf'|exact Ho].
Defined.

(** The middle page of the three. *)
Lemma address_space_munmap_correct_witness :
  ∃ as' s', address_space_munmap as1 (MMAP_BASE + 4096) 4096 st1 = Some (0, as', s') ∧
    as_wf as' ∧ munmap_outcome as1 (MMAP_BASE + 4096) 4096 0 as'.
Proof.
  destruct space1 as [Hs Hwf].
  destruct (address_space_munmap_correct ram [kroot] ∅ st1 as1 (MMAP_BASE + 4096) 4096 Hs Hwf ltac:(lia) ltac:(lia))
    as (r & as' & s' & E & _ & Hwf' & _ & Ho).
  assert (r = 0) as Er.
  { assert ((λ x, fst (fst x)) <$> address_space_munmap as1 (MMAP_BASE + 4096) 4096 st1 = Some 0) as Ef
      by (vm_compute; reflexivity).
    rewrite E in Ef. cbn in Ef. injection Ef as Ef. exact Ef. }
  rewrite Er in E, Ho. exists as', s'. split; [exact E|]. split; [exact Hwf'|exact Ho].
Defined.

Lemma address_space_brk_correct_witness :
  ∃ as' s', address_space_brk as0 (HEAP_BASE + 5000) st0 = (HEAP_BASE + 5000, as', s') ∧ as_wf as' ∧
    brk_end as' = HEAP_BASE + 5000.
Proof.
  destruct space0 as [Hs Hwf].
  destruct (address_space_brk_correct ram [kroot] ∅ st0 as0 (HEAP_BASE + 5000) Hs Hwf ltac:(lia))
    as (r & as' & s' & E & _ & Hwf' & _ & Ho).
  assert (r = HEAP_BASE + 5000) as Er.
  { assert (fst (fst (address_space_brk as0 (HEAP_BASE + 5000) st0)) = HEAP_BASE + 5000) as Ef
      by (vm_compute; reflexivity).
    rewrite E in Ef. exact Ef. }
  rewrite Er in E, Ho. exists as', s'. split; [exact E|]. split; [exact Hwf'|].
  destruct Ho as [[Ho _]|[(_ & _ & Ho & _)|(_ & Ho & _)]]; [discriminate Ho|exact Ho|discriminate Ho].
Defined.
(** The kernel's table is untouched so far. *)
Lemma machine_kept : kept ram [kroot] (mem machine) (mem st1).
Proof.
  destruct space0 as [Hs Hwf].
  destruct (mmap_spec ram [kroot] ∅ st0 as0 0 12288 3 34 None 0 Hs Hwf ltac:(lia)) as (r & as' & s' & E & _ & _ & Hk & _).
  destruct (init_spec ram [kroot] machine (tail ram) [] ∅ kroot {[ [] := kroot ]} machine_bare
    (vi_pt _ _ _ _ _ (proj1 machine_table))) as (ok & t & s0 & E0 & Hk0 & _).
  { intros p Hp. rewrite map_vals_root in Hp. exact Hp. }
  unfold st1, mapped3. rewrite E. cbn [snd].
  assert (mem st0 = mem s0) as Est by (unfold st0; rewrite E0; reflexivity).
  eapply kept_trans; [exact Hk0|]. rewrite <- Est. eapply kept_sub; [|exact Hk].
  intros p Hp. apply elem_of_app. right. exact Hp.
Qed.

Lemma kernel_table1 : pt_rep whole st1 kroot {[ [] := kroot ]}.
Proof.
  destruct (pt_rep_same whole machine st1 kroot {[ [] := kroot ]}) as [Hr _];
    [|exact (vi_pt _ _ _ _ _ (proj1 machine_table))|exact Hr].
  intros p Hp a Ha. rewrite map_vals_root in Hp. apply machine_kept. left. exists p. split; [exact Hp|exact Ha].
Qed.

Lemma address_space_clone_correct_witness :
  ∃ dst s', address_space_clone as1 (Some (mk_page_table kroot)) st1 = (true, dst, s') ∧
    Forall2 (copied (mem s')) (pages as1) (pages dst).
Proof.
  destruct space1 as [[(N & F & P & Hi) _] _].
  destruct (address_space_clone_correct ram [kroot] st1 as1 N F P _ kroot {[ [] := kroot ]} Hi kernel_table1)
    as (ok & dst & s' & E & _ & Hres).
  { intros p Hp. rewrite map_vals_root in Hp. exact Hp. }
  assert (ok = true) as Eok.
  { assert (fst (fst (address_space_clone as1 (Some (mk_page_table kroot)) st1)) = true) as Ef
      by (vm_compute; reflexivity).
    rewrite E in Ef. exact Ef. }
  rewrite Eok in E, Hres. exists dst, s'. split; [exact E|].
  destruct Hres as (N' & F' & P' & _ & _ & Hc & _). exact Hc.
Defined.

Lemma address_space_destroy_reclaims_witness :
  ∃ s' F P, address_space_destroy as1 st1
      = (mk_as (mk_page_table 0) [] [] (brk_base as1) (brk_end as1), s') ∧
    free_rep s' F ∧ F ++ P ++ [kroot] ≡ₚ ram.
Proof.
  destruct (address_space_destroy_reclaims ram [kroot] ∅ st1 as1 (proj1 space1))
    as (s' & E & (F & P & _ & Hf & Hp) & _).
  exists s', F, P. split; [exact E|]. split; [exact Hf|exact Hp].
Defined.

(** A buffer of the kernel outside the managed pages. *)
Lemma buffer_region i : 0 <= i < 8192 → region ram [kroot] (65536 + i).
Proof.
  intros Hi. right. split.
  - intros p Hp Ha. pose proof ram_ok as Hok. rewrite Forall_forall in Hok.
    pose proof (base_range p (Hok p Hp)) as Hb. unfold in_page in Ha. clear -Ha Hb Hi. lia.
  - intros [Ha|Ha]; unfold in_classes, in_lock in Ha; clear -Ha Hi; lia.
Qed.

Lemma address_space_validate_correct_witness :
  accessible as1 (MMAP_BASE + 4000) 200 true st1.
Proof.
  destruct (address_space_validate_correct ram [kroot] ∅ st1 as1 (MMAP_BASE + 4000) 200 true (proj1 space1)
    ltac:(lia) ltac:(lia)) as (ok & E & Hok).
  assert (address_space_validate as1 (MMAP_BASE + 4000) 200 true st1 = Some true) as Ev by (vm_compute; reflexivity).
  rewrite Ev in E. injection E as E. symmetry in E. destruct (proj1 Hok E) as [H0|[_ Ha]]; [discriminate H0|exact Ha].
Defined.

Lemma address_space_copy_validate_witness :
  ∃ s', address_space_copy (Some as1) 65536 (MMAP_BASE + 4000) 200 true st1 = Some (true, s') ∧
    copied_out ram [kroot] as1 65536 (MMAP_BASE + 4000) 200 true st1 s'.
Proof.
  destruct (address_space_copy_validate ram [kroot] ∅ st1 as1 65536 (MMAP_BASE + 4000) 200 true (proj1 space1)
    ltac:(lia) ltac:(lia) ltac:(lia)) as (ok & s' & E & Ev & _ & Hc).
  { intros i Hi. apply buffer_region. clear -Hi. lia. }
  assert (address_space_validate as1 (MMAP_BASE + 4000) 200 true st1 = Some true) as Et by (vm_compute; reflexivity).
  rewrite Et in Ev. injection Ev as Ev. subst ok. exists s'. split; [exact E|exact Hc].
Defined.

Lemma user_copy_roundtrip_witness :
  ∃ s1 s2, address_space_copy (Some as1) 65536 (MMAP_BASE + 4000) 200 true st1 = Some (true, s1) ∧
    address_space_copy (Some as1) 69632 (MMAP_BASE + 4000) 200 false s1 = Some (true, s2) ∧
    load8 (mem s2) (69632 + 199) = load8 (mem st1) (65536 + 199).
Proof.
  assert (∀ k i, 0 <= k <= 4096 → 0 <= i < 200 → region ram [kroot] (65536 + k + i)) as Hreg.
  { intros k i Hk Hi. rewrite <- Z.add_assoc. apply buffer_region. clear -Hk Hi. lia. }
  assert (fst <$> address_space_copy (Some as1) 65536 (MMAP_BASE + 4000) 200 true st1 = Some true) as Ef
    by (vm_compute; reflexivity).
  destruct (address_space_copy (Some as1) 65536 (MMAP_BASE + 4000) 200 true st1) as [[ok s1]|] eqn:E; [|discriminate Ef].
  injection Ef as ->.
  destruct (user_copy_roundtrip ram [kroot] ∅ st1 s1 as1 65536 69632 (MMAP_BASE + 4000) 200 (proj1 space1)
    ltac:(lia) ltac:(lia) ltac:(lia) ltac:(lia) (λ i Hi, Hreg 0 i ltac:(lia) Hi) (λ i Hi, Hreg 4096 i ltac:(lia) Hi) E)
    as (s2 & E2 & Hb).
  exists s1, s2. split; [reflexivity|]. split; [exact E2|]. apply Hb. lia.
Defined.
End AsDemo.
