(* ===== verification/Elf.v ===== *)
(** [src/kernel/elf.c]: building the address space of a program from an ELF file.
    The file is read through the file system of [Vfs]; the headers pass through
    local variables of [elf_load], whose addresses on the kernel stack are
    parameters.  The arguments lie in memory as [struct exec_arguments] has them. *)
From S2P Require Import Prelude Machine Runtime PageAlloc Vm HeapSpec AddressSpace Vfs.

Abbreviation ELF_MACHINE_RISCV := 243 (only parsing).
Abbreviation ELF_TYPE_EXEC := 2 (only parsing).
Abbreviation ELF_PROGRAM_LOAD := 1 (only parsing).
Abbreviation ELF_PROGRAM_DYNAMIC := 2 (only parsing).
Abbreviation ELF_PROGRAM_INTERP := 3 (only parsing).
Abbreviation ELF_FLAG_EXEC := 1 (only parsing).
Abbreviation ELF_FLAG_WRITE := 2 (only parsing).
Abbreviation ELF_FLAG_READ := 4 (only parsing).
Abbreviation ELF_MAX_HEADERS := 16 (only parsing).
Abbreviation ELF_USER_END := 4173824 (only parsing).          (* 0x3fb000 *)
Abbreviation USER_STACK_TOP := 4194304 (only parsing).        (* 0x400000 *)
Abbreviation USER_STACK_PAGES := 4 (only parsing).
Abbreviation EXEC_MAX_ARGS := 8 (only parsing).
Abbreviation EXEC_MAX_ENVS := 8 (only parsing).
Abbreviation EXEC_STRING_SIZE := 64 (only parsing).
Abbreviation SIZEOF_HEADER := 64 (only parsing).
Abbreviation SIZEOF_PROGRAM := 56 (only parsing).

(** The fields the loader looks at, with the names of the structure prefixed. *)
Record elf_header := mk_header {
  e_identity : list Z;
  e_type : Z;
  e_machine : Z;
  e_version : Z;
  e_entry : Z;
  e_program_offset : Z;
  e_header_size : Z;
  e_program_entry_size : Z;
  e_program_count : Z;
}.

Record elf_program := mk_program {
  p_type : Z;
  p_flags : Z;
  p_offset : Z;
  p_virtual_address : Z;
  p_file_size : Z;
  p_memory_size : Z;
  p_alignment : Z;
}.

(** The structures at an address, at the offsets of the ELF64 layout. *)
Definition header_of (m : memory) (a : Z) : elf_header :=
  mk_header ((λ i, load8 m (a + Z.of_nat i)) <$> seq 0 16)
    (load_le m (a + 16) 2) (load_le m (a + 18) 2) (load_le m (a + 20) 4) (load64 m (a + 24))
    (load64 m (a + 32)) (load_le m (a + 52) 2) (load_le m (a + 54) 2) (load_le m (a + 56) 2).

Definition program_of (m : memory) (a : Z) : elf_program :=
  mk_program (load_le m a 4) (load_le m (a + 4) 4) (load64 m (a + 8)) (load64 m (a + 16))
    (load64 m (a + 32)) (load64 m (a + 40)) (load64 m (a + 48)).

Record exec_image := mk_image { image_as : address_space; image_entry : Z; stack_pointer : Z }.

Definition no_image : exec_image := mk_image (mk_as (mk_page_table 0) [] [] 0 0) 0 0.
Definition set_image_as (as_ : address_space) (i : exec_image) : exec_image :=
  mk_image as_ (image_entry i) (stack_pointer i).

(** [struct exec_arguments] at an address. *)
Definition argc (m : memory) (a : Z) : Z := load64 m a.
Definition envc (m : memory) (a : Z) : Z := load64 m (a + 8).
Definition argv_at (a i : Z) : Z := a + 16 + EXEC_STRING_SIZE * i.
Definition envp_at (a i : Z) : Z := a + 16 + EXEC_STRING_SIZE * EXEC_MAX_ARGS + EXEC_STRING_SIZE * i.

Section Elf.
Context `{KernelHeap} `{Backends}.

Definition read_exact (file buffer size offset : Z) (v : vfs) : option (bool * vfs) :=
  match file_pread file buffer size offset v with
  | None => None
  | Some (r, v) => Some (r =? size, v)
  end.

Definition elf_identity : list Z := [127; 69; 76; 70; 2; 1; 1].

Definition valid_header (h : elf_header) (file_length : Z) : bool :=
  if negb (memcmp (lit (e_identity h)) (lit elf_identity) 7 =? 0)
     || negb (e_type h =? ELF_TYPE_EXEC) || negb (e_machine h =? ELF_MACHINE_RISCV)
     || negb (e_version h =? 1) || negb (e_header_size h =? SIZEOF_HEADER)
     || negb (e_program_entry_size h =? SIZEOF_PROGRAM)
     || (e_program_count h =? 0) || (e_program_count h >? ELF_MAX_HEADERS)
  then false
  else
    let table_size := u64 (e_program_count h * SIZEOF_PROGRAM) in
    (e_program_offset h <=? file_length) && (table_size <=? file_length - e_program_offset h).

(** ** Segments *)

(** The checks of [load_segment] on a segment that is not empty. *)
Definition bad_segment (p : elf_program) (file_length : Z) : bool :=
  (p_file_size p >? p_memory_size p)
  || negb (Z.land (p_flags p) (UINT32_MAX - Z.lor ELF_FLAG_READ (Z.lor ELF_FLAG_WRITE ELF_FLAG_EXEC)) =? 0)
  || ((p_alignment p >? 1) && negb (Z.land (p_alignment p) (p_alignment p - 1) =? 0))
  || (p_virtual_address p >=? ELF_USER_END)
  || (p_memory_size p >? ELF_USER_END - p_virtual_address p)
  || (p_offset p >? file_length)
  || (p_file_size p >? file_length - p_offset p)
  || negb (Z.land (Z.lxor (p_virtual_address p) (p_offset p)) PAGE_MASK =? 0)
  || (negb (Z.land (p_flags p) ELF_FLAG_WRITE =? 0) && (Z.land (p_flags p) ELF_FLAG_READ =? 0))
  || (Z.land (p_flags p) (Z.lor ELF_FLAG_WRITE ELF_FLAG_EXEC) =? Z.lor ELF_FLAG_WRITE ELF_FLAG_EXEC).

Definition segment_flags (p : elf_program) : Z :=
  let flags := PTE_U in
  let flags := if negb (Z.land (p_flags p) ELF_FLAG_READ =? 0) then Z.lor flags PTE_R else flags in
  let flags := if negb (Z.land (p_flags p) ELF_FLAG_WRITE =? 0) then Z.lor flags PTE_W else flags in
  if negb (Z.land (p_flags p) ELF_FLAG_EXEC =? 0) then Z.lor flags PTE_X else flags.

(** [count] zeroed pages from [address] on. *)
Fixpoint add_pages (count : nat) (as_ : address_space) (address flags : Z) (s : kstate)
    : bool * address_space * kstate :=
  match count with
  | O => (true, as_, s)
  | S n =>
      let '(ok, as_, s) := address_space_add_page as_ address flags 0 0 s in
      if negb ok then (false, as_, s) else add_pages n as_ (address + PAGE_SIZE) flags s
  end.

(** The loop that reads the file-backed part, a page at most at a time.  [None] when
    the fuel runs out. *)
Fixpoint fill_loop (fuel : nat) (t : page_table) (file address offset remaining : Z) (v : vfs)
    : option (bool * vfs) :=
  if remaining =? 0 then Some (true, v)
  else
    match fuel with
    | O => None
    | S f =>
        let chunk := chunk_of address remaining in
        match vm_query (Some t) address (kern v) with
        | None => Some (false, v)
        | Some (physical, _) =>
            match read_exact file (phys_to_virt physical) chunk offset v with
            | None => None
            | Some (false, v) => Some (false, v)
            | Some (true, v) => fill_loop f t file (address + chunk) (offset + chunk) (remaining - chunk) v
            end
        end
    end.

Definition load_segment (as_ : address_space) (file file_length : Z) (p : elf_program) (v : vfs)
    : option (bool * address_space * vfs) :=
  if p_memory_size p =? 0 then Some (p_file_size p =? 0, as_, v)
  else if bad_segment p file_length then Some (false, as_, v)
  else
    let flags := segment_flags p in
    if Z.land flags PTE_RX =? 0 then Some (false, as_, v)
    else
      let first := Z.land (p_virtual_address p) (not64 PAGE_MASK) in
      if u64 (p_virtual_address p + p_memory_size p) >? UINT64_MAX - PAGE_MASK then Some (false, as_, v)
      else
        let end__ := round_up (p_virtual_address p + p_memory_size p) in
        let '(ok, as_, s) := address_space_reserve as_ first end__ flags AREA_ELF (kern v) in
        let v := set_kern s v in
        if negb ok then Some (false, as_, v)
        else
          let '(ok, as_, s) := add_pages (Z.to_nat ((end__ - first) / PAGE_SIZE)) as_ first flags (kern v) in
          let v := set_kern s v in
          if negb ok then Some (false, as_, v)
          else
            match fill_loop (copy_fuel (p_file_size p)) (table as_) file (p_virtual_address p) (p_offset p)
                    (p_file_size p) v with
            | None => None
            | Some (ok, v) => Some (ok, as_, v)
            end.

(** ** The first stack *)

(** The strings of one vector, last first, pushed below [cursor]: their addresses.
    [None] when a string has no end. *)
Fixpoint push_strings (as_ : address_space) (string_at : Z → Z) (count : nat) (cursor : Z)
    (at_ : list Z) (s : kstate) : option (bool * Z * list Z * kstate) :=
  match count with
  | O => Some (true, cursor, at_, s)
  | S i =>
      match strlen (at_ptr (mem s) (string_at (Z.of_nat i))) (Z.to_nat EXEC_STRING_SIZE) with
      | None => None
      | Some n =>
          let length := n + 1 in
          let cursor := u64 (cursor - length) in
          match address_space_copy (Some as_) (string_at (Z.of_nat i)) cursor length true s with
          | None => None
          | Some (false, s) => Some (false, cursor, cursor :: at_, s)
          | Some (true, s) => push_strings as_ string_at i cursor (cursor :: at_) s
          end
      end
  end.

(** [words[i] = value;] for consecutive [i]. *)
Fixpoint store_words (a : Z) (l : list Z) (m : memory) : memory :=
  match l with
  | [] => m
  | w :: rest => store_words (a + 8) rest (store64 m a w)
  end.

(** The addresses of the local variables [header] and [program] of [elf_load] and
    [words] of [build_stack]. *)
Context (header_at program_at words_at : Z).

(** The contents of the stack: environment, arguments, and the words below them;
    the stack pointer. *)
Definition write_stack (as_ : address_space) (arguments : Z) (s : kstate) : option (bool * Z * kstate) :=
  match push_strings as_ (envp_at arguments) (Z.to_nat (envc (mem s) arguments)) USER_STACK_TOP [] s with
  | None => None
  | Some (false, _, _, s) => Some (false, 0, s)
  | Some (true, cursor, envp, s) =>
      match push_strings as_ (argv_at arguments) (Z.to_nat (argc (mem s) arguments)) cursor [] s with
      | None => None
      | Some (false, _, _, s) => Some (false, 0, s)
      | Some (true, cursor, argv, s) =>
          let words := argc (mem s) arguments :: argv ++ [0] ++ envp ++ [0] in
          let s := set_mem (store_words words_at words (mem s)) s in
          let size := 8 * Z.of_nat (length words) in
          let cursor := Z.land (u64 (cursor - size)) (not64 15) in
          if cursor <? USER_STACK_TOP - USER_STACK_PAGES * PAGE_SIZE then Some (false, 0, s)
          else
            match address_space_copy (Some as_) words_at cursor size true s with
            | None => None
            | Some (ok, s) => Some (ok, cursor, s)
            end
      end
  end.

Definition build_stack (image : exec_image) (arguments : Z) (s : kstate)
    : option (bool * exec_image * kstate) :=
  let '(ok, as_, s) :=
    address_space_reserve (image_as image) (USER_STACK_TOP - (USER_STACK_PAGES + 1) * PAGE_SIZE)
      USER_STACK_TOP PTE_URW AREA_STACK s in
  let image := set_image_as as_ image in
  if negb ok then Some (false, image, s)
  else
    let '(ok, as_, s) :=
      add_pages (Z.to_nat USER_STACK_PAGES) as_ (USER_STACK_TOP - USER_STACK_PAGES * PAGE_SIZE) PTE_URW s in
    let image := set_image_as as_ image in
    if negb ok then Some (false, image, s)
    else
      match write_stack as_ arguments s with
      | None => None
      | Some (ok, cursor, s) => Some (ok, if ok then mk_image as_ (image_entry image) cursor else image, s)
      end.

(** ** Loading *)

(** The loop over the program headers from number [i] on: whether it ran to the end,
    whether the entry point has been seen in an executable segment. *)
Fixpoint load_programs (count : nat) (i : Z) (h : elf_header) (as_ : address_space) (file length : Z)
    (executable : bool) (v : vfs) : option (bool * bool * address_space * vfs) :=
  match count with
  | O => Some (true, executable, as_, v)
  | S rest =>
      match read_exact file program_at SIZEOF_PROGRAM (u64 (e_program_offset h + i * SIZEOF_PROGRAM)) v with
      | None => None
      | Some (false, v) => Some (false, executable, as_, v)
      | Some (true, v) =>
          let p := program_of (mem (kern v)) program_at in
          if (p_type p =? ELF_PROGRAM_DYNAMIC) || (p_type p =? ELF_PROGRAM_INTERP)
          then Some (false, executable, as_, v)
          else if negb (p_type p =? ELF_PROGRAM_LOAD)
          then load_programs rest (i + 1) h as_ file length executable v
          else
            match load_segment as_ file length p v with
            | None => None
            | Some (false, as_, v) => Some (false, executable, as_, v)
            | Some (true, as_, v) =>
                let executable :=
                  executable || (negb (Z.land (p_flags p) ELF_FLAG_EXEC =? 0)
                                 && (e_entry h >=? p_virtual_address p)
                                 && (e_entry h - p_virtual_address p <? p_memory_size p)) in
                load_programs rest (i + 1) h as_ file length executable v
            end
      end
  end.

(** What follows the creation of the address space: the result, and the image.  A
    failure leaves the address space to be destroyed. *)
Definition load_image (h : elf_header) (image : exec_image) (file length arguments : Z) (v : vfs)
    : option (bool * exec_image * vfs) :=
  match load_programs (Z.to_nat (e_program_count h)) 0 h (image_as image) file length false v with
  | None => None
  | Some (ok, executable, as_, v) =>
      let image := set_image_as as_ image in
      if negb (ok && executable) then Some (false, image, v)
      else
        match build_stack image arguments (kern v) with
        | None => None
        | Some (ok, image, s) =>
            let v := set_kern s v in
            Some (ok, if ok then mk_image (image_as image) (e_entry h) (stack_pointer image) else image, v)
        end
  end.

(** From the open file on. *)
Definition load_file (kernel_table : option page_table) (file arguments : Z) (v : vfs)
    : option (bool * exec_image * vfs) :=
  let length := file_size file v in
  match read_exact file header_at SIZEOF_HEADER 0 v with
  | None => None
  | Some (ok, v) =>
      let h := header_of (mem (kern v)) header_at in
      if negb ok || negb (valid_header h length) then Some (false, no_image, file_put file v)
      else
        let '(ok, as_, s) := address_space_init kernel_table (kern v) in
        let image := set_image_as as_ no_image in
        let v := set_kern s v in
        if negb ok then Some (false, image, file_put file v)
        else
          match load_image h image file length arguments v with
          | None => None
          | Some (true, image, v) => Some (true, image, file_put file v)
          | Some (false, image, v) =>
              let '(as_, s) := address_space_destroy (image_as image) (kern v) in
              Some (false, set_image_as as_ image, file_put file (set_kern s v))
          end
  end.

(** [process] gives the root and the working directory of the current process. *)
Definition elf_load (kernel_table : option page_table) (process : option (Z * Z)) (path : list Z)
    (arguments : Z) (v : vfs) : option (bool * exec_image * vfs) :=
  let '(root, cwd) := default (vfs_root v, vfs_root v) process in
  match vfs_openat root cwd path O_RDONLY v with
  | None => None
  | Some (_, file, v) =>
      if file =? 0 then Some (false, no_image, v) else load_file kernel_table file arguments v
  end.

Definition elf_image_destroy (image : exec_image) (s : kstate) : exec_image * kstate :=
  let '(as_, s) := address_space_destroy (image_as image) s in (set_image_as as_ image, s).
End Elf.
