(* ===== verification/ElfInv.v ===== *)
(** An address space under construction beside the file system it is read from: the
    two invariants share the division of the machine's pages. *)
From S2P Require Import Prelude Machine Runtime PageAlloc Vm VmInv VmProps HeapSpec Ownership AddressSpace AddressSpaceInv AddressSpaceProps AddressSpaceClone AddressSpaceAreas AddressSpaceMaps AddressSpaceCopy.
From S2P Require Import Outcome Vfs VfsInit VfsTree VfsInv VfsFiles VfsOpen.

(** * The file system apart from the allocators *)

Record vfs_rest (lo hi : Z) (v : vfs) (B : gset Z) : Prop := {
  vr_nodes : NoDup (nodes v);
  vr_dom : ∀ n, n ∈ nodes v ↔ is_node v n;
  vr_live : ∀ n, is_node v n → n ∈ B;
  vr_files : ∀ f, is_Some (files v !! f) → f ∈ B ∧ ¬ is_node v f;
  vr_node : ∀ n, is_node v n → content_ok lo hi (vn v n);
  vr_tree : tree_ok v;
  vr_readonly : readonly (mnt v 0) = true;
  vr_open : ∀ f, is_Some (files v !! f) → open_ok v (fl v f);
  vr_count : live_files v = u64 (Z.of_nat (base.size (files v)));
}.

Lemma vfs_rest_kern lo hi v B s : vfs_rest lo hi v B → vfs_rest lo hi (set_kern s v) B.
Proof. intros [R1 R2 R3 R4 R5 R6 R7 R8 R9]. split; try done. by apply (tree_ok_proper v). Qed.

Lemma vfs_rest_mono lo hi v B B' : B ⊆ B' → vfs_rest lo hi v B → vfs_rest lo hi v B'.
Proof.
  intros HB [R1 R2 R3 R4 R5 R6 R7 R8 R9]. split; try done; [by intros n Hn; apply HB, R3|].
  intros f Hf. destruct (R4 f Hf). split; [by apply HB|done].
Qed.

Lemma vfs_ok_rest `{HeapContract} U Q lo hi v L :
  vfs_ok U Q lo hi v L ↔ (∃ F P, bare U (kern v) F P L (block_pages v ++ Q)) ∧ vfs_rest lo hi v L.
Proof.
  split.
  - intros [(F & P & [S1 S2 S3 S4 S5 S6]) V2 V3 V4 V5]. split; [by exists F, P|]. by split.
  - intros [(F & P & Hb) [R1 R2 R3 R4 R5 R6 R7 R8 R9]]. split; try done. exists F, P. by split.
Qed.

Section Joint.
Context `{HeapContract} `{Backends}.
Context (U O : list Z) (lo hi : Z).

(** ** Both at once *)

(** The address space [as_] beside the file system [v]; [B] are the objects that are
    not the address space's, [O] the pages of everybody else. *)
Record beside (B : gset Z) (v : vfs) (as_ : address_space) : Prop := {
  be_space : space U (block_pages v ++ O) B (kern v) as_;
  be_wf : as_wf as_;
  be_rest : vfs_rest lo hi v B;
}.

(** The file system's view: the pages of the address space are among the others'. *)
Lemma beside_vfs B v as_ :
  beside B v as_ → ∃ N, vfs_ok U (map_vals N ++ (physical <$> pages as_) ++ O) lo hi v (records as_ ∪ B) ∧
    (∃ F P, as_inv U (block_pages v ++ O) (kern v) as_ N F P (records as_ ∪ B)).
Proof.
  intros [Hs _ Hr]. destruct (sp_inv _ _ _ _ _ Hs) as (N & F & P & Hi). exists N. split; [|by exists F, P].
  apply vfs_ok_rest. split.
  - exists F, P. eapply bare_perm; [|exact (bare_of_as _ _ _ _ _ _ _ _ Hi)]. unfold owned.
    rewrite !app_assoc, (Permutation_app_comm _ (block_pages v)), <- !app_assoc. done.
  - eapply vfs_rest_mono; [|exact Hr]. set_solver.
Qed.

(** A step of the address space alone. *)
Lemma beside_step B v as_ s as' :
  beside B v as_ → space U (block_pages v ++ O) B s as' → as_wf as' → beside B (set_kern s v) as'.
Proof. intros [_ _ Hr] Hs Hw. split; [done|done|by apply vfs_rest_kern]. Qed.

(** An open file of the regular node [n] that may be read. *)
Definition readable (v : vfs) (f n : Z) : Prop :=
  is_Some (files v !! f) ∧ ops (fl v f) = regular_ops ∧ Z.land (flags (fl v f)) O_ACCMODE ≠ O_WRONLY ∧
  node (fl v f) = n.

(** The archive belongs to nobody who allocates. *)
Context (Harch : ∀ a, lo <= a < hi → region U O a).

Lemma region_blocks v a : region U O a → region U (block_pages v ++ O) a.
Proof. intros [(q & Hq & Ha)|Ha]; [left; exists q; rewrite elem_of_app; auto|by right]. Qed.

(** Reading into a page of the address space. *)
Lemma beside_fill B v as_ f n p k size_ off :
  beside B v as_ → readable v f n → p ∈ pages as_ → 0 <= k → 0 <= size_ → k + size_ <= PAGE_SIZE → 0 <= off →
  let buffer := phys_to_virt (physical p) + k in
  let r := read_count (vn v n) size_ off in
  ∃ s, file_pread f buffer size_ off v = Some (r, set_kern s v) ∧ beside B (set_kern s v) as_ ∧
    delivered v (set_kern s v) n buffer off r.
Proof.
  intros Hb (R1 & R2 & R3 & R4) Hp Hk Hsz Hpg Hoff buffer r. destruct (beside_vfs B v as_ Hb) as (N & Hv & F & P & Hi).
  destruct (file_pread_spec U _ lo hi v _ f buffer size_ off Hv R1 R2 Hsz Hoff R3) as (s & E & _ & Hdel & Hram).
  { intros a Ha. assert (in_page (physical p) a) as Hpa by (unfold in_page, buffer in *; lia). split.
    - left. exists (physical p). split; [|done]. rewrite !elem_of_app. right. left. by apply list_elem_of_fmap_2.
    - intros Hr. apply (region_not_ledger U (block_pages v ++ O) B (kern v) as_ p a); [apply Hb|done| |done].
      by apply region_blocks, Harch. }
  rewrite R4 in E, Hdel. exists s. split; [done|]. split; [|done]. apply (beside_step B v as_ s); [done| |apply Hb].
  destruct Hram as (_ & M2 & M3 & M4). apply (space_write U _ B (kern v) s as_ p); try done; [apply Hb|].
  intros a Ha. rewrite (Hdel a : load8 (mem s) a = _), decide_False; [done|]. intros Hr. apply Ha. unfold in_page.
  pose proof (read_count_bound (vn v n) size_ off Hsz). unfold buffer, r in *. lia.
Qed.

(** Reading into a buffer of the kernel. *)
Lemma beside_peek B v as_ f n buffer size_ off :
  beside B v as_ → readable v f n → 0 <= size_ → 0 <= off →
  (∀ a, buffer <= a < buffer + size_ → region U O a ∧ ¬ (lo <= a < hi)) →
  let r := read_count (vn v n) size_ off in
  ∃ s, file_pread f buffer size_ off v = Some (r, set_kern s v) ∧ beside B (set_kern s v) as_ ∧
    delivered v (set_kern s v) n buffer off r.
Proof.
  intros Hb (R1 & R2 & R3 & R4) Hsz Hoff Hbuf r. destruct (beside_vfs B v as_ Hb) as (N & Hv & F & P & Hi).
  destruct (file_pread_spec U _ lo hi v _ f buffer size_ off Hv R1 R2 Hsz Hoff R3) as (s & E & _ & Hdel & Hram).
  { intros a Ha. destruct (Hbuf a Ha) as [Hr Hn]. split; [|done].
    destruct Hr as [(q & Hq & Hqa)|Hr]; [left; exists q; rewrite !elem_of_app; auto|by right]. }
  rewrite R4 in E, Hdel. exists s. split; [done|]. split; [|done]. apply (beside_step B v as_ s); [done| |apply Hb].
  destruct Hram as (_ & M2 & M3 & M4). apply (space_other_write U _ B (kern v) s as_); try done; [apply Hb|].
  intros a Ha. rewrite (Hdel a : load8 (mem s) a = _), decide_False; [done|]. intros Hr. apply Ha, region_blocks, Hbuf.
  pose proof (read_count_bound (vn v n) size_ off Hsz). unfold r in *. lia.
Qed.

(** ** Opening for reading, and closing *)

Lemma space_ram Q B s s' as_ : same_ram s s' → space U Q B s as_ → space U Q B s' as_.
Proof. intros (M1 & M2 & M3 & M4) Hs. apply (space_other_write U Q B s); try done. intros a _. by rewrite M1. Qed.

(** The description of an open file that has one user. *)
Definition sole (v : vfs) (f n : Z) : Prop :=
  ∃ ops_, files v !! f = Some (mk_file ops_ n 0 0 1 O_RDONLY) ∧ ops_ ≠ pipe_ops.

Lemma file_put_last v f n :
  sole v f n → f ≠ 0 → let v' := file_put f v in
  vnodes v' = vnodes v ∧ nodes v' = nodes v ∧
  kern v' = irq_restore (sstatus (kern v)) (kfree f (csr_clear_sstatus SSTATUS_SIE (kern v))) ∧
  mounts v' = mounts v ∧ pipes v' = pipes v.
Proof.
  intros (ops_ & Ef & Hops) Hf0 v'.
  assert (fl v f = mk_file ops_ n 0 0 1 O_RDONLY) as Efl by (by apply lookup_total_correct).
  unfold v', file_put. rewrite (proj2 (Z.eqb_neq _ _) Hf0). unfold irq_save, update_file, fl. cbn.
  rewrite lookup_total_insert_eq. unfold fl in Efl. rewrite Efl. by destruct ops_.
Qed.

Lemma close_spec v f n L :
  hi - lo < 2 ^ 62 → vfs_ok U O lo hi v ({[f]} ∪ L) → f ∉ L → sole v f n →
  let v' := file_put f v in
  vfs_ok U O lo hi v' L ∧ vnodes v' = vnodes v ∧ nodes v' = nodes v ∧ files v' = delete f (files v) ∧
  (mounts v' = mounts v ∧ pipes v' = pipes v) ∧ kept U (block_pages v ++ O) (mem (kern v)) (mem (kern v')).
Proof.
  intros Hspan Hv HfL Hsole v'. pose proof Hsole as (ops_ & Ef & Hops).
  assert (fl v f = mk_file ops_ n 0 0 1 O_RDONLY) as Efl by (by apply lookup_total_correct).
  destruct (file_put_spec U O lo hi Hspan v _ f Hv ltac:(eauto)) as [_ Hcase]; [by rewrite Efl|].
  rewrite Efl, decide_True in Hcase by done. destruct Hcase as [Hv' Ef'].
  destruct (file_put_last v f n Hsole) as (E1 & E2 & Ek & E3); [exact (open_not_null U _ lo hi v _ f Hv ltac:(eauto))|].
  replace (({[f]} ∪ L) ∖ {[f]}) with L in Hv' by set_solver. fold v' in Ek.
  do 5 (split; [done|]). apply vfs_ok_rest in Hv as [(F & P & Hb) _].
  rewrite Ek. destruct (irq_restore_ram (sstatus (kern v)) (kfree f (csr_clear_sstatus SSTATUS_SIE (kern v)))) as (-> & _).
  destruct (bare_kfree U (csr_clear_sstatus SSTATUS_SIE (kern v)) F P ({[f]} ∪ L) (block_pages v ++ O) f) as (F' & P' & _ & Hk); [|set_solver|exact Hk].
  by apply (bare_frame U (kern v)).
Qed.

(** The last reference goes, beside an address space. *)
Lemma beside_put B v as_ f n :
  hi - lo < 2 ^ 62 → beside ({[f]} ∪ B) v as_ → f ∉ B → sole v f n →
  let v' := file_put f v in
  beside B v' as_ ∧ vnodes v' = vnodes v ∧ nodes v' = nodes v ∧ files v' = delete f (files v) ∧ (mounts v' = mounts v ∧ pipes v' = pipes v) ∧
  kept U (owned as_ (block_pages v ++ O)) (mem (kern v)) (mem (kern v')).
Proof.
  intros Hspan Hb HfB Hsole v'. pose proof Hsole as (ops_ & Ef & Hops). pose proof (be_rest _ _ _ Hb) as Hr.
  assert (fl v f = mk_file ops_ n 0 0 1 O_RDONLY) as Efl by (by apply lookup_total_correct).
  assert (is_Some (files v !! f)) as Hf by eauto.
  destruct (beside_vfs _ v as_ Hb) as (N & Hv & _).
  destruct (file_put_spec U _ lo hi Hspan v _ f Hv Hf) as [Hsame Hcase]; [by rewrite Efl|]. fold v' in Hsame, Hcase.
  rewrite Efl, decide_True in Hcase by done. destruct Hcase as [Hv' Ef'].
  destruct (file_put_last v f n Hsole) as (En & Enn & Ek & Emp); [exact (open_not_null U _ lo hi v _ f Hv Hf)|]. fold v' in En, Enn, Ek.
  split; [|split; [done|split; [done|split; [done|split; [done|]]]]].
  - split; [|apply Hb|].
    + assert (block_pages v' = block_pages v) as -> by (unfold block_pages; rewrite Enn; unfold vn; by rewrite En).
      rewrite Ek. eapply space_ram; [apply irq_restore_ram|].
      apply (space_kfree U _ B (csr_clear_sstatus SSTATUS_SIE (kern v)) as_ f); [|done].
      by apply (space_ram _ _ (kern v)), Hb.
    + apply vfs_ok_rest in Hv' as [_ [R1 R2 R3 R4 R5 R6 R7 R8 R9]]. split; try done.
      * intros x Hx%Hsame. pose proof (vr_live _ _ _ _ Hr x Hx) as Hin. destruct (vr_files _ _ _ _ Hr f Hf) as [_ Hnf].
        assert (x ≠ f) by (by intros ->). set_solver.
      * intros g Hg. split; [|by apply R4]. rewrite Ef', lookup_delete_is_Some in Hg. destruct Hg as [Hne Hg].
        destruct (vr_files _ _ _ _ Hr g Hg) as [Hin _]. set_solver.
  - rewrite Ek. destruct (irq_restore_ram (sstatus (kern v)) (kfree f (csr_clear_sstatus SSTATUS_SIE (kern v)))) as (-> & _).
    apply (space_kfree U _ B (csr_clear_sstatus SSTATUS_SIE (kern v)) as_ f); [|done]. by apply (space_ram _ _ (kern v)), Hb.
Qed.
End Joint.

(** Two states in which the address space and its pages are the same look the same to
    the program. *)
Lemma space_pages_view `{HeapContract} U Q B s s' as_ Q' B' va :
  space U Q B s as_ → space U Q' B' s' as_ → (∀ p, p ∈ pages as_ → same_on (in_page (physical p)) (mem s) (mem s')) → 0 <= va < 2 ^ 38 →
  vm_query (Some (table as_)) va s' = vm_query (Some (table as_)) va s ∧ user_byte as_ va s' = user_byte as_ va s.
Proof.
  intros Hs Hs' Hk Hva.
  assert (vm_query (Some (table as_)) va s' = vm_query (Some (table as_)) va s) as Eq.
  { destruct (sp_inv _ _ _ _ _ Hs) as (N & F & P & Hi). destruct (sp_inv _ _ _ _ _ Hs') as (N' & F' & P' & Hi').
    pose proof (ai_query _ _ _ _ _ _ _ _ Hi va Hva) as H1. pose proof (ai_query _ _ _ _ _ _ _ _ Hi' va Hva) as H2.
    unfold ledger_entry in *. destruct (vm_query _ va s) as [[pa bits]|], (vm_query _ va s') as [[pa' bits']|]; try done.
    - destruct H1 as (p & P1 & P2 & P3 & -> & ->), H2 as (q & Q1 & Q2 & Q3 & -> & ->).
      by assert (p = q) as <- by (by eapply (space_same_address U Q B s as_ p q va)).
    - exfalso. destruct H1 as (p & P1 & P2 & P3 & _). by apply (H2 p).
    - exfalso. destruct H2 as (p & P1 & P2 & P3 & _). by apply (H1 p). }
  split; [done|]. unfold user_byte. rewrite Eq. destruct (vm_query _ va s) as [[pa bits]|] eqn:E; [|done].
  destruct (space_query U Q B s as_ va pa bits Hs Hva E) as (p & Hp & Hsp & _ & _ & _ & ->). f_equal. apply (Hk p Hp).
  unfold in_page. clear. div_lia.
Qed.

Lemma space_same_view `{HeapContract} U Q B s s' as_ Q' B' va :
  space U Q B s as_ → space U Q' B' s' as_ → kept U (owned as_ Q) (mem s) (mem s') → 0 <= va < 2 ^ 38 →
  vm_query (Some (table as_)) va s' = vm_query (Some (table as_)) va s ∧ user_byte as_ va s' = user_byte as_ va s.
Proof.
  intros Hs Hs' Hk. apply (space_pages_view U Q B s s' as_ Q' B'); [done|done|]. intros p Hp a Ha. apply Hk. left.
  exists (physical p). split; [|done]. unfold owned. apply elem_of_app. left. by apply list_elem_of_fmap_2.
Qed.

Section Open.
Context `{HeapContract} `{Backends}.
Context (U O : list Z) (lo hi : Z) (Hspan : hi - lo < 2 ^ 62).

(** What opening for reading leaves: one description more. *)
Record open_read (v v' : vfs) (f n : Z) (L : gset Z) : Prop := {
  or_new : f ≠ 0 ∧ f ∉ L;
  or_ok : vfs_ok U O lo hi v' ({[f]} ∪ L);
  or_files : files v' = <[f := mk_file (if type (vn v n) =? DT_CHR then device_ops else regular_ops) n 0 0 1 O_RDONLY]> (files v);
  or_nodes : vnodes v' = vnodes v ∧ nodes v' = nodes v ∧ mounts v' = mounts v ∧ pipes v' = pipes v;
  or_kept : kept U (block_pages v ++ O) (mem (kern v)) (mem (kern v'));
}.

Lemma open_read_spec v L root base path :
  vfs_ok U O lo hi v L → is_node v root → within v root base →
  ∃ e f v', vfs_openat root base path O_RDONLY v = Some (e, f, v') ∧
    ((f = 0 ∧ (∃ s, v' = set_kern s v) ∧ vfs_ok U O lo hi v' L ∧ kept U (block_pages v ++ O) (mem (kern v)) (mem (kern v'))) ∨
     ∃ n, vfs_resolve v root base path false = Some (inr n) ∧ is_node v n ∧ open_read v v' f n L).
Proof.
  intros Hv Hr Hb. unfold vfs_openat. cbn [Z.land Z.eqb negb orb andb].
  unfold irq_save. cbv zeta. set (irq := sstatus (kern v)). set (s0 := csr_clear_sstatus SSTATUS_SIE (kern v)). set (v0 := set_kern s0 v).
  assert (vfs_ok U O lo hi v0 L) as Hv0 by (by apply vfs_ok_ram).
  destruct (resolve_returns v root base path false) as [found Hf].
  assert (open_target root base path O_RDONLY v0 = Some (found, false, v0)) as ->.
  { unfold open_target. unfold v0 at 1. rewrite resolve_kern by done. change (negb (Z.land O_RDONLY O_NOFOLLOW =? 0)) with false. rewrite Hf.
    destruct found; [cbn; by rewrite andb_false_r|done]. }
  assert (∀ s, same_ram s0 s → kept U (block_pages v ++ O) (mem (kern v)) (mem s)) as Hsame by (intros s (M & _) a _; by rewrite M).
  assert (∀ s, set_kern s v0 = set_kern s v) as Hset by done.
  destruct found as [e|n].
  { eexists e, 0, _. split; [done|]. left. split; [done|]. split; [eexists; apply Hset|].
    split; [apply vfs_ok_ram; [apply irq_restore_ram|done]|]. apply Hsame, irq_restore_ram. }
  pose proof (resolve_within _ _ _ _ _ _ (vk_tree _ _ _ _ _ _ Hv) Hr Hb Hf) as Hw. pose proof (within_node _ _ _ Hw Hr) as Hn.
  unfold open_node. assert (open_error n O_RDONLY v0 = 0) as -> by done. cbn [Z.eqb negb].
  destruct (vk_store _ _ _ _ _ _ Hv0) as (F & P & Hs). destruct (file_new _ _ v0) as [f v1] eqn:Ef.
  destruct (file_new_spec U O lo hi Hspan _ _ _ _ _ _ _ _ Hs Ef)
    as [(-> & s & F' & P' & -> & Hs' & Hk)|(Hf0 & HfL & s & F' & P' & -> & Hs' & Hk)].
  - cbn [Z.eqb]. eexists _, 0, _. split; [done|]. left. split; [done|]. split; [eexists; apply Hset|].
    split; [apply vfs_ok_ram; [apply irq_restore_ram|by apply (vfs_ok_store U O lo hi v0 s L F' P')]|].
    cbn. destruct (irq_restore_ram irq s) as (-> & _). exact Hk.
  - rewrite (proj2 (Z.eqb_neq _ _) Hf0). cbn [Z.land Z.eqb negb].
    destruct (opened_ok U O lo hi v0 L n f _ _ s F' P' Hv0 Hn HfL Hs') as (Hok & Hfiles & _).
    eexists 0, f, _. split; [reflexivity|]. right. exists n. split; [done|]. split; [done|].
    split; [done|apply vfs_ok_ram; [apply irq_restore_ram|done]|exact Hfiles|done|].
    assert (mem (irq_restore irq s) = mem s) as M by apply irq_restore_ram.
    change (kept U (block_pages v ++ O) (mem (kern v)) (mem (irq_restore irq s))). rewrite M. exact Hk.
Qed.

(** A new address space beside the file system. *)
Lemma empty_wf t : as_wf (mk_as t [] [] HEAP_BASE HEAP_BASE).
Proof.
  split; cbn [areas pages brk_base brk_end].
  - split; intros a; [|intros b x]; intros Ha; by apply elem_of_nil in Ha.
  - intros p Hp. by apply elem_of_nil in Hp.
  - lia.
  - intros a Ha. by apply elem_of_nil in Ha.
  - intros Hgt. exfalso. vm_compute in Hgt. discriminate Hgt.
Qed.

Lemma init_beside v B kr NK :
  vfs_ok U O lo hi v B → pt_rep whole (kern v) kr NK → (∀ p, p ∈ map_vals NK → p ∈ O) →
  ∃ ok as_ s, address_space_init (Some (mk_page_table kr)) (kern v) = (ok, as_, s) ∧
    kept U (block_pages v ++ O) (mem (kern v)) (mem s) ∧ pages as_ = [] ∧
    if ok then beside U O lo hi B (set_kern s v) as_ else vfs_ok U O lo hi (set_kern s v) B.
Proof.
  intros Hv HK HNK. apply vfs_ok_rest in Hv as [(F & P & Hb) Hr].
  destruct (init_spec U (block_pages v ++ O) (kern v) F P B kr NK Hb HK) as (ok & t & s & E & Hk & Hres).
  { intros p Hp. apply elem_of_app. right. by apply HNK. }
  eexists ok, _, s. split; [exact E|]. split; [done|]. split; [done|]. destruct ok.
  - destruct Hres as (_ & N & F' & Hi). split; [|apply empty_wf|by apply vfs_rest_kern].
    split; [|set_solver]. exists N, F', P.
    replace (records (mk_as t [] [] HEAP_BASE HEAP_BASE) ∪ B) with B by (unfold records; cbn; set_solver). done.
  - destruct Hres as [Hb' _]. apply vfs_ok_rest. split; [by exists F, P|by apply vfs_rest_kern].
Qed.

(** Giving the address space up. *)
Lemma beside_destroy v B as_ :
  beside U O lo hi B v as_ →
  ∃ as' s, address_space_destroy as_ (kern v) = (as', s) ∧ vfs_ok U O lo hi (set_kern s v) B ∧
    kept U (block_pages v ++ O) (mem (kern v)) (mem s).
Proof.
  intros [Hs _ Hr]. destruct (space_destroy _ _ _ _ _ Hs) as (s & E & (F & P & Hb) & Hk).
  eexists _, s. split; [exact E|]. split; [|done]. apply vfs_ok_rest. split; [by exists F, P|by apply vfs_rest_kern].
Qed.
End Open.
