(* ===== verification/ElfProps.v ===== *)
(** What [load_segment] of [src/kernel/elf.c] does to an address space. *)
From S2P Require Import Prelude Machine Runtime PageAlloc Vm VmInv VmProps HeapSpec Ownership AddressSpace AddressSpaceInv AddressSpaceProps AddressSpaceClone AddressSpaceAreas AddressSpaceMaps AddressSpaceCopy.
From S2P Require Import Outcome Vfs VfsInit VfsTree VfsInv VfsFiles VfsOpen Elf ElfInv.

(** A byte of a page of the ledger. *)
Definition page_byte (m : memory) (p : user_page) (j : Z) : Z := load8 m (phys_to_virt (physical p) + j).

Lemma page_byte_kept `{HeapContract} U Q m m' p j :
  kept U Q m m' → physical p ∈ Q → 0 <= j < PAGE_SIZE → page_byte m' p j = page_byte m p j.
Proof. intros Hk Hp Hj. apply Hk. left. exists (physical p). unfold in_page. split; [done|lia]. Qed.

(** ** Pages without contents *)

(** [add_pages] is [populate] without a file. *)
Definition no_files : FileAccess := {|
  AddressSpace.file := Empty_set;
  file_node_type f := match f with end;
  file_flags f := match f with end;
  AddressSpace.file_pread f := match f with end;
|}.

Lemma no_files_contract : @FileContract no_files.
Proof. split. intros []. Qed.

Section Pages.
Context `{HeapContract}.

Lemma add_pages_populate n : ∀ as_ at_ address flags s,
  add_pages n as_ at_ flags s = @populate _ no_files n as_ at_ address flags None 0 s.
Proof.
  induction n as [|n IH]; intros as_ at_ address flags s; cbn [add_pages populate]; [done|].
  destruct (address_space_add_page _ _ _ _ _ _) as [[[|] as1] s1]; cbn [negb]; [|done].
  rewrite (IH as1 _ address). by destruct (last (pages as1)).
Qed.

Lemma add_pages_spec U O B flags n as_ at_ s :
  space U O B s as_ → 0 <= at_ → in_u64 flags →
  (∀ p, p ∈ pages as_ → ¬ (at_ <= virtual_address p < at_ + PAGE_SIZE * Z.of_nat n)) →
  ∃ ok l s', add_pages n as_ at_ flags s = (ok, set_pages (pages as_ ++ l) as_, s') ∧
    space U O B s' (set_pages (pages as_ ++ l) as_) ∧ kept U (owned as_ O) (mem s) (mem s') ∧
    (∀ p, p ∈ l → at_ <= virtual_address p < at_ + PAGE_SIZE * Z.of_nat n ∧ page_flags p = flags) ∧
    (ok = true → virtual_address <$> l = page_addresses at_ n ∧ ∀ p, p ∈ l → zeroed (mem s') p).
Proof.
  intros Hs Ha Hf Hnew.
  destruct (@populate_spec _ _ no_files no_files_contract U O B at_ flags None 0 n as_ at_ s Hs Ha Hf Hnew)
    as (ok & l & s' & E & Hs' & Hk & Hl & Hok).
  exists ok, l, s'. rewrite (add_pages_populate n as_ at_ at_). split; [done|]. split; [done|]. split; [done|].
  split; [done|]. intros ->. destruct (Hok eq_refl) as [E1 E2]. split; [done|]. by apply E2.
Qed.

(** An area and zeroed pages inside it. *)
Lemma area_pages U O B s as_ a b flags k at_ n :
  space U O B s as_ → as_wf as_ → k ≠ AREA_HEAP → in_u64 flags → 0 <= a <= at_ → at_ + PAGE_SIZE * Z.of_nat n <= b →
  ∃ ok as1 s1, address_space_reserve as_ a b flags k s = (ok, as1, s1) ∧ space U O B s1 as1 ∧ as_wf as1 ∧
    kept U (owned as_ O) (mem s) (mem s1) ∧
    if ok then ∃ ok2 l o s2,
      let as2 := set_pages (pages as_ ++ l) (set_areas (areas as_ ++ [mk_area o a b flags k]) as_) in
      reservable as_ a b = true ∧
      add_pages n as1 at_ flags s1 = (ok2, as2, s2) ∧ space U O B s2 as2 ∧ as_wf as2 ∧
      kept U (owned as_ O) (mem s) (mem s2) ∧
      (∀ p, p ∈ l → at_ <= virtual_address p < at_ + PAGE_SIZE * Z.of_nat n ∧ page_flags p = flags) ∧
      (ok2 = true → virtual_address <$> l = page_addresses at_ n ∧ ∀ p, p ∈ l → zeroed (mem s2) p)
    else as1 = as_.
Proof.
  intros Hs Hwf Hk Hf Ha Hb. destruct (space_reserve U O B s as_ a b flags k Hs) as (ok & as1 & s1 & E & Hk1 & Hs1 & Hres).
  exists ok, as1, s1. split; [done|]. split; [done|]. destruct ok; [|by rewrite Hres].
  destruct Hres as (o & _ & Hr & ->). set (x := mk_area o a b flags k) in *.
  pose proof Hr as Hr'. unfold reservable in Hr'. rewrite negb_true_iff, !orb_false_iff, !negb_false_iff, Z.geb_leb, Z.leb_gt,
    !Z.eqb_eq, !land_page_mask, Z.gtb_ltb, Z.ltb_ge in Hr'. destruct Hr' as ((((Hab & Ha4) & Hb4) & Hbe) & Hv).
  assert (area_ok x) as Hx by (split; cbn; [lia|done|done]).
  assert (∀ l, (∀ p, p ∈ l → a <= virtual_address p < b) →
    as_wf (set_pages (pages as_ ++ l) (set_areas (areas as_ ++ [x]) as_))) as Hext.
  { intros l Hl. by apply wf_extend. }
  split; [|split; [done|]].
  { specialize (Hext []). rewrite app_nil_r in Hext.
    change (set_pages (pages as_) (set_areas (areas as_ ++ [x]) as_)) with (set_areas (areas as_ ++ [x]) as_) in Hext.
    apply Hext. intros p Hp. by apply elem_of_nil in Hp. }
  pose proof (vacant_pages as_ a b Hwf ltac:(lia) Hv) as Hfree.
  destruct (add_pages_spec U O B flags n (set_areas (areas as_ ++ [x]) as_) at_ s1 Hs1) as (ok & l & s2 & E2 & Hs2 & Hk2 & Hl & Hok);
    [lia|done|cbn [pages set_areas]; intros p Hp Hin; apply (Hfree p Hp); lia|]. cbn [pages set_areas] in *.
  exists ok, l, o, s2. split; [done|]. split; [done|]. split; [done|].
  split; [apply Hext; intros p Hp; destruct (Hl p Hp); lia|]. split; [exact (kept_trans _ _ _ _ _ Hk1 Hk2)|]. done.
Qed.

(** Every address of a run of pages lies in one of them. *)
Lemma page_addresses_cover l at_ n va :
  virtual_address <$> l = page_addresses at_ n → at_ mod PAGE_SIZE = 0 →
  at_ <= va < at_ + PAGE_SIZE * Z.of_nat n → ∃ p, p ∈ l ∧ same_page va p.
Proof.
  intros E Hal Hva. set (i := Z.to_nat ((va - at_) / PAGE_SIZE)).
  assert (Z.of_nat i = (va - at_) / PAGE_SIZE) as Hi by (subst i; rewrite Z2Nat.id by div_lia; done).
  assert (i < n)%nat as Hin by (apply Nat2Z.inj_lt; rewrite Hi; clear -Hva; div_lia).
  assert (at_ + PAGE_SIZE * Z.of_nat i ∈ virtual_address <$> l) as Hp.
  { rewrite E. unfold page_addresses. apply list_elem_of_fmap. exists i. split; [done|]. apply elem_of_seq. lia. }
  apply list_elem_of_fmap in Hp as (p & Ep & Hp). exists p. split; [done|]. unfold same_page. rewrite <- Ep, Hi.
  clear -Hal. div_lia.
Qed.

Lemma space_aligned U O B s as_ p : space U O B s as_ → p ∈ pages as_ → virtual_address p mod PAGE_SIZE = 0.
Proof. intros [(N & F & P & Hi) _] Hp. apply (lo_aligned _ (ai_ledger _ _ _ _ _ _ _ _ Hi p Hp)). Qed.

(** The translation of an address in a mapped page. *)
Lemma space_mapped U O B s as_ p va :
  space U O B s as_ → p ∈ pages as_ → mapped p = true → same_page va p → 0 <= va < 2 ^ 38 →
  vm_query (Some (table as_)) va s = Some (physical p + va mod PAGE_SIZE, leaf_bits (page_flags p)).
Proof.
  intros Hs Hp Hm Hsp Hva. destruct (vm_query (Some (table as_)) va s) as [[pa bits]|] eqn:E.
  - destruct (space_query U O B s as_ va pa bits Hs Hva E) as (q & Hq & Hsq & -> & -> & _).
    by assert (p = q) as <- by (by eapply space_same_address).
  - exfalso. destruct Hs as [(N & F & P & Hi) _]. pose proof (ai_query _ _ _ _ _ _ _ _ Hi va Hva) as Hn. rewrite E in Hn.
    by apply (Hn p Hp Hm).
Qed.

Lemma space_user_byte U O B s as_ p va :
  space U O B s as_ → p ∈ pages as_ → mapped p = true → same_page va p → 0 <= va < 2 ^ 38 →
  user_byte as_ va s = Some (page_byte (mem s) p (va mod PAGE_SIZE)).
Proof.
  intros Hs Hp Hm Hsp Hva. unfold user_byte. pose proof (space_mapped U O B s as_ p va Hs Hp Hm Hsp Hva) as E. rewrite E.
  destruct (space_query U O B s as_ va _ _ Hs Hva E) as (q & Hq & Hsq & _ & _ & _ & Eptr).
  assert (p = q) as <- by (by eapply space_same_address). by rewrite Eptr.
Qed.
End Pages.

(** ** Reading the file into the pages *)

Section Fill.
Context `{HeapContract} `{Backends}.
Context (U O : list Z) (lo hi : Z) (Harch : ∀ a, lo <= a < hi → region U O a).
Context (B : gset Z).

(** Where the bytes of a file are. *)
Lemma holds_region v n a :
  vfs_rest lo hi v B → is_node v n → holds_file (vn v n) a → region U (block_pages v ++ O) a.
Proof.
  intros Hr Hn [[Hd Ha]|(p & Hp & Hpa)].
  - apply region_blocks, Harch. destruct (no_data _ _ _ (vr_node _ _ _ _ Hr n Hn) Hd) as (D1 & D2 & _). lia.
  - left. exists p. split; [|done]. apply elem_of_app. left. unfold block_pages. apply list_elem_of_bind.
    exists n. split; [done|by apply (vr_dom _ _ _ _ Hr)].
Qed.

Lemma file_byte_kept v n m m' i :
  vfs_rest lo hi v B → is_node v n → 0 <= i < size (vn v n) →
  kept U (block_pages v ++ O) m m' → file_byte m' (vn v n) i = file_byte m (vn v n) i.
Proof. intros Hr Hn Hi Hk. apply file_byte_frame; [|done]. intros a Ha. by apply Hk, (holds_region v n). Qed.

(** What the pages hold after the bytes of the file from [off] on have been read to
    the addresses from [address] on. *)
Definition filled_from (m m' : memory) (n : vnode) (as_ : address_space) (address off size_ : Z) : Prop :=
  ∀ p j, p ∈ pages as_ → 0 <= j < PAGE_SIZE →
    page_byte m' p j
    = if decide (address <= virtual_address p + j < address + size_)
      then file_byte m n (off + (virtual_address p + j - address)) else page_byte m p j.

(** One chunk. *)
Lemma fill_step v as_ f n address off remaining :
  beside U O lo hi B v as_ → readable v f n → is_node v n → type (vn v n) ≠ DT_DIR →
  0 <= off → 0 <= address → 0 < remaining → off + remaining <= size (vn v n) → address + remaining <= 2 ^ 38 →
  (∃ p, p ∈ pages as_ ∧ mapped p = true ∧ same_page address p) →
  let chunk := chunk_of address remaining in
  ∃ pa bits s, vm_query (Some (table as_)) address (kern v) = Some (pa, bits) ∧
    read_exact f (phys_to_virt pa) chunk off v = Some (true, set_kern s v) ∧
    beside U O lo hi B (set_kern s v) as_ ∧ kept U (block_pages v ++ O) (mem (kern v)) (mem s) ∧
    filled_from (mem (kern v)) (mem s) (vn v n) as_ address off chunk.
Proof.
  intros Hb Hf Hn Hty Hoff Ha Hrem Hsz Hend (p & Hp & Hm & Hsp) chunk.
  destruct (chunk_of_spec address remaining Hrem) as (Hc1 & Hc2 & _). fold chunk in Hc1, Hc2.
  pose proof (be_space _ _ _ _ _ _ _ Hb) as Hs.
  pose proof (space_mapped U _ B (kern v) as_ p address Hs Hp Hm Hsp ltac:(lia)) as Eq.
  destruct (space_query U _ B (kern v) as_ address _ _ Hs ltac:(lia) Eq) as (q & Hq & Hsq & _ & _ & _ & Eptr).
  assert (p = q) as <- by (by eapply space_same_address).
  destruct (beside_fill U O lo hi Harch B v as_ f n p (address mod PAGE_SIZE) chunk off Hb Hf Hp) as (s & E & Hb' & Hdel);
    [clear; div_lia|lia|lia|lia|].
  assert (read_count (vn v n) chunk off = chunk) as Ec.
  { unfold read_count. rewrite (proj2 (Z.eqb_neq _ _) Hty). lia. }
  rewrite Ec in E, Hdel. eexists _, _, s. split; [exact Eq|].
  unfold read_exact. rewrite Eptr, E, Z.eqb_refl. split; [done|]. split; [done|].
  assert (∀ a, load8 (mem s) a = if decide (phys_to_virt (physical p) + address mod PAGE_SIZE <= a
    < phys_to_virt (physical p) + address mod PAGE_SIZE + chunk)
    then file_byte (mem (kern v)) (vn v n) (off + (a - (phys_to_virt (physical p) + address mod PAGE_SIZE)))
    else load8 (mem (kern v)) a) as Hmem by exact Hdel.
  split.
  - intros a Hr. rewrite Hmem, decide_False; [done|]. intros Hin.
    apply (region_not_ledger U _ B (kern v) as_ p a Hs Hp Hr). unfold in_page. clear -Hin Hc1 Hc2. div_lia.
  - destruct (sp_inv _ _ _ _ _ Hs) as (N & F & P & Hi). pose proof (ai_ledger _ _ _ _ _ _ _ _ Hi) as Hled.
    pose proof (lo_aligned _ (Hled p Hp)) as Hal.
    intros r j Hr Hj. unfold page_byte. rewrite Hmem. destruct (decide (r = p)) as [->|Hne].
    + unfold same_page in Hsp. case_decide as D1; case_decide as D2; try done.
      * f_equal. clear -Hsp Hal. div_lia.
      * exfalso. apply D2. clear -Hsp Hal D1. div_lia.
      * exfalso. apply D1. clear -Hsp Hal D2. div_lia.
    + pose proof (lo_aligned _ (Hled r Hr)) as Har. rewrite !decide_False; [done| |].
      * intros D. apply Hne. apply (space_same_address U _ B (kern v) as_ r p (virtual_address r + j) Hs Hr Hp); unfold same_page in *.
        -- clear -Har Hj. div_lia.
        -- rewrite (chunk_same_page address remaining (virtual_address r + j)) by done. done.
      * intros D. apply Hne. apply (space_one_page U _ B (kern v) as_ r p (phys_to_virt (physical r) + j) Hs Hr Hp);
          unfold in_page; clear -D Hj Hc1 Hc2; div_lia.
Qed.

Lemma fill_loop_spec as_ f n fuel : ∀ v address off remaining,
  beside U O lo hi B v as_ → readable v f n → is_node v n → type (vn v n) ≠ DT_DIR →
  rounds fuel address remaining → 0 <= off → 0 <= address → 0 <= remaining →
  off + remaining <= size (vn v n) → address + remaining <= 2 ^ 38 →
  (∀ va, address <= va < address + remaining → ∃ p, p ∈ pages as_ ∧ mapped p = true ∧ same_page va p) →
  ∃ s, fill_loop fuel (table as_) f address off remaining v = Some (true, set_kern s v) ∧
    beside U O lo hi B (set_kern s v) as_ ∧ kept U (block_pages v ++ O) (mem (kern v)) (mem s) ∧
    filled_from (mem (kern v)) (mem s) (vn v n) as_ address off remaining.
Proof.
  induction fuel as [|fuel IH]; intros v address off remaining Hb Hf Hn Hty Hr Hoff Ha Hrem Hsz Hend Hcov;
    [destruct Hr; lia|]. cbn [fill_loop].
  destruct (Z.eqb_spec remaining 0) as [->|Hnz].
  { exists (kern v). assert (set_kern (kern v) v = v) as -> by (by destruct v). split; [done|]. split; [done|].
    split; [apply kept_refl|]. intros p j Hp Hj. by rewrite decide_False by lia. }
  destruct (fill_step v as_ f n address off remaining Hb Hf Hn Hty) as (pa & bits & s & Eq & Er & Hb1 & Hk1 & Hfill1);
    [lia..|apply Hcov; lia|]. rewrite Eq, Er. apply rounds_step in Hr; [|lia].
  destruct (chunk_of_spec address remaining ltac:(lia)) as (Hc1 & _). set (chunk := chunk_of address remaining) in *.
  destruct (IH (set_kern s v) (address + chunk) (off + chunk) (remaining - chunk) Hb1 Hf Hn Hty Hr) as (s' & -> & Hb2 & Hk2 & Hfill2);
    [lia..|change (vn (set_kern s v) n) with (vn v n); lia|lia|intros va Hva; apply Hcov; lia|].
  exists s'. split; [done|]. split; [done|]. split; [exact (kept_trans _ _ _ _ _ Hk1 Hk2)|].
  intros p j Hp Hj. change (vn (set_kern s v) n) with (vn v n) in Hfill2. rewrite (Hfill2 p j Hp Hj). cbn [kern set_kern].
  rewrite (Hfill1 p j Hp Hj).
  destruct (decide (address + chunk <= virtual_address p + j < address + chunk + (remaining - chunk))) as [D1|D1].
  - rewrite decide_True by lia.
    rewrite (file_byte_kept v n (mem (kern v)) (mem s) _ (be_rest _ _ _ _ _ _ _ Hb) Hn); [f_equal; lia|lia|done].
  - case_decide as D2; case_decide as D3; (done || lia).
Qed.
End Fill.

(** ** Segments *)

(** The fields have the widths of the structure. *)
Record program_ok (p : elf_program) : Prop := {
  po_flags : 0 <= p_flags p < 2 ^ 32;
  po_offset : in_u64 (p_offset p);
  po_address : in_u64 (p_virtual_address p);
  po_file : in_u64 (p_file_size p);
  po_memory : in_u64 (p_memory_size p);
}.

Lemma program_of_ok m a : program_ok (program_of m a).
Proof. split; cbn; [apply (load_le_range _ _ 4)|apply load64_range..]. Qed.

Definition segment_first (p : elf_program) : Z := p_virtual_address p - p_virtual_address p mod PAGE_SIZE.
Definition segment_end (p : elf_program) : Z := round_up (p_virtual_address p + p_memory_size p).

(** The rights a segment asks for: to be read (bit 2), written (bit 1) and executed
    (bit 0). *)
Definition wants_read (p : elf_program) : bool := Z.testbit (p_flags p) 2.
Definition wants_write (p : elf_program) : bool := Z.testbit (p_flags p) 1.
Definition wants_exec (p : elf_program) : bool := Z.testbit (p_flags p) 0.

(** What the loader accepts: a segment below the guard page, its part of the file in
    the file and at the same place of a page, no unknown right, nothing writable and
    executable at once, nothing writable that cannot be read, and some use. *)
Record acceptable (p : elf_program) (file_length : Z) : Prop := {
  ac_file : p_file_size p <= p_memory_size p;
  ac_below : p_virtual_address p + p_memory_size p <= 4173824;
  ac_within : p_offset p + p_file_size p <= file_length;
  ac_wx : wants_write p && wants_exec p = false;
  ac_mapped : wants_read p || wants_exec p = true;
  ac_writable : wants_write p = true → wants_read p = true;
  ac_known : ∀ i, 0 <= i < 32 → Z.testbit (p_flags p) i = true → i < 3;
  ac_congruent : p_virtual_address p mod 4096 = p_offset p mod 4096;
}.

(** The rights of a segment in a page-table entry: user (bit 4), read (1), write (2)
    and execute (3). *)
Definition entry_rights (p : elf_program) (bits : Z) : Prop :=
  Z.testbit bits 4 = true ∧ Z.testbit bits 1 = wants_read p ∧ Z.testbit bits 2 = wants_write p ∧
  Z.testbit bits 3 = wants_exec p.

Lemma wants_bits p :
  (Z.land (p_flags p) ELF_FLAG_READ =? 0) = negb (wants_read p) ∧
  (Z.land (p_flags p) ELF_FLAG_WRITE =? 0) = negb (wants_write p) ∧
  (Z.land (p_flags p) ELF_FLAG_EXEC =? 0) = negb (wants_exec p).
Proof. split; [by apply (land_bit _ 2)|]. split; [by apply (land_bit _ 1)|by apply (land_bit _ 0)]. Qed.

(** The flags in terms of the rights. *)
Lemma segment_flags_wants p :
  segment_flags p = Z.lor (if wants_exec p then PTE_X else 0)
    (Z.lor (if wants_write p then PTE_W else 0) (Z.lor (if wants_read p then PTE_R else 0) PTE_U)).
Proof.
  unfold segment_flags. destruct (wants_bits p) as (-> & -> & ->). rewrite !negb_involutive.
  destruct (wants_read p), (wants_write p), (wants_exec p); reflexivity.
Qed.

Lemma leaf_rights p : entry_rights p (leaf_bits (segment_flags p)).
Proof.
  rewrite segment_flags_wants. unfold entry_rights. destruct (wants_read p), (wants_write p), (wants_exec p); repeat split; reflexivity.
Qed.

Lemma acceptable_mapped p len : acceptable p len → Z.land (segment_flags p) PTE_RX ≠ 0.
Proof.
  intros Ha. pose proof (ac_mapped _ _ Ha) as Hm. rewrite segment_flags_wants.
  by destruct (wants_read p), (wants_write p), (wants_exec p).
Qed.

Lemma land_two_bits x i j :
  0 <= i → 0 <= j → i ≠ j → Z.land x (2 ^ i) ≠ 0 → Z.land x (2 ^ j) ≠ 0 →
  Z.land x (Z.lor (2 ^ i) (2 ^ j)) = Z.lor (2 ^ i) (2 ^ j).
Proof.
  intros Hi Hj Hij Hx Hy. apply land_bit_set in Hx; [|done]. apply land_bit_set in Hy; [|done].
  apply Z.bits_inj. intros k. rewrite Z.land_spec, Z.lor_spec.
  destruct (decide (k = i)) as [->|]; [by rewrite Hx|]. destruct (decide (k = j)) as [->|]; [by rewrite Hy|].
  destruct (decide (k < 0)); [by rewrite !Z.testbit_neg_r by lia|].
  by rewrite !Z.pow2_bits_false, andb_false_r by done.
Qed.

Lemma segment_flags_range p : in_u64 (segment_flags p).
Proof. unfold segment_flags, in_u64. destruct (negb _), (negb _), (negb _); by vm_compute. Qed.

Lemma wants_wx p :
  Z.land (p_flags p) (Z.lor ELF_FLAG_WRITE ELF_FLAG_EXEC) ≠ Z.lor ELF_FLAG_WRITE ELF_FLAG_EXEC →
  wants_write p && wants_exec p = false.
Proof.
  intros Hp. apply not_true_iff_false. intros [Hw Hx]%andb_true_iff. apply Hp.
  destruct (wants_bits p) as (_ & Ew & Ex). rewrite Hw in Ew. rewrite Hx in Ex. apply Z.eqb_neq in Ew, Ex.
  by apply (land_two_bits _ 1 0).
Qed.

Lemma page_congruent a b : Z.land (Z.lxor a b) PAGE_MASK = 0 → a mod 4096 = b mod 4096.
Proof.
  intros E. change 4096 with (2 ^ 12). apply Z.bits_inj'. intros i Hi. destruct (decide (i < 12)) as [Hl|Hl];
    [|by rewrite !Z.mod_pow2_bits_high by lia]. rewrite !Z.mod_pow2_bits_low by done.
  assert (Z.testbit (Z.land (Z.lxor a b) (Z.ones 12)) i = false) as Hz by (change (Z.ones 12) with PAGE_MASK; rewrite E; apply Z.bits_0).
  rewrite Z.land_spec, Z.lxor_spec, Z.ones_spec_low, andb_true_r in Hz by lia. by apply xorb_eq.
Qed.

Lemma bad_segment_false p len :
  bad_segment p len = false → Z.land (segment_flags p) PTE_RX ≠ 0 → acceptable p len.
Proof.
  unfold bad_segment. rewrite !orb_false_iff, Z.geb_leb, !Z.gtb_ltb, !Z.ltb_ge, Z.leb_gt, !Z.eqb_neq.
  intros (((((((((H1 & H2) & H3) & H4) & H5) & H6) & H7) & H8) & H9) & H10) Hrx.
  apply negb_false_iff, Z.eqb_eq in H2, H8. split; [lia|lia|lia|by apply wants_wx| | | |by apply page_congruent].
  - rewrite segment_flags_wants in Hrx. apply not_false_iff_true. intros [Hr Hx]%orb_false_iff. rewrite Hr, Hx in Hrx.
    by destruct (wants_write p).
  - destruct (wants_bits p) as (Er & Ew & _). rewrite Er, Ew in H9. intros Hw. rewrite Hw in H9. by apply negb_false_iff in H9.
  - intros i Hi Ht. apply (mask_bits _ 7 i ltac:(lia) Hi) in Ht; [|done]. destruct (decide (i < 3)); [done|].
    rewrite Z.bits_above_log2 in Ht by (change (Z.log2 7) with 2; lia). done.
Qed.

(** The byte at [va] of the segment of [p]. *)
Definition segment_byte (mf : memory) (n : vnode) (p : elf_program) (va : Z) : Z :=
  if decide (p_virtual_address p <= va < p_virtual_address p + p_file_size p)
  then file_byte mf n (p_offset p + (va - p_virtual_address p)) else 0.

(** The segment is in the pages, which have its rights. *)
Definition segment_in (mf m : memory) (n : vnode) (p : elf_program) (as_ : address_space) : Prop :=
  ∀ va, segment_first p <= va < segment_end p → ∃ q, q ∈ pages as_ ∧ same_page va q ∧
    page_flags q = segment_flags p ∧ page_byte m q (va mod PAGE_SIZE) = segment_byte mf n p va.

Section Segment.
Context `{HeapContract} `{Backends}.
Context (U O : list Z) (lo hi : Z) (Harch : ∀ a, lo <= a < hi → region U O a).
Context (B : gset Z).

Lemma segment_bounds p len :
  program_ok p → acceptable p len → p_memory_size p ≠ 0 →
  Z.land (p_virtual_address p) (not64 PAGE_MASK) = segment_first p ∧
  0 <= segment_first p <= p_virtual_address p ∧ p_virtual_address p + p_memory_size p <= segment_end p <= ELF_USER_END ∧
  segment_first p mod PAGE_SIZE = 0 ∧ segment_end p mod PAGE_SIZE = 0 ∧
  u64 (p_virtual_address p + p_memory_size p) >? UINT64_MAX - PAGE_MASK = false.
Proof.
  intros [P1 P2 P3 P4 P5] [A1 A2 A3 A4 A5 _ _ _] Hm. unfold in_u64 in *. unfold segment_first, segment_end.
  rewrite land_not_page_mask by done. rewrite round_up_eq by lia.
  rewrite u64_small by (unfold in_u64; lia). rewrite Z.gtb_ltb, Z.ltb_ge.
  split; [done|]. clear -P3 P5 A2 Hm. repeat split; div_lia.
Qed.

(** An address space with more pages and areas, below the stack. *)
Definition enlarged (as_ as' : address_space) : Prop :=
  ∃ l la, as' = set_pages (pages as_ ++ l) (set_areas (areas as_ ++ la) as_) ∧
    (∀ q, q ∈ l → virtual_address q < ELF_USER_END) ∧ (∀ a, a ∈ la → end_ a <= ELF_USER_END).

Lemma enlarged_refl as_ : enlarged as_ as_.
Proof.
  exists [], []. rewrite !app_nil_r. split; [by destruct as_|]. split; intros q Hq; by apply elem_of_nil in Hq.
Qed.

Lemma enlarged_trans as1 as2 as3 : enlarged as1 as2 → enlarged as2 as3 → enlarged as1 as3.
Proof.
  intros (l & la & -> & E1 & E2) (k & ka & -> & E3 & E4). exists (l ++ k), (la ++ ka).
  cbn [pages areas set_pages set_areas]. rewrite !app_assoc. split; [done|].
  split; intros q [Hq|Hq]%elem_of_app; auto.
Qed.

Lemma enlarged_pages as_ as' p : enlarged as_ as' → p ∈ pages as_ → p ∈ pages as'.
Proof. intros (l & la & -> & _) Hp. cbn. rewrite elem_of_app. auto. Qed.

Lemma enlarged_owned as_ as' Q x : enlarged as_ as' → x ∈ owned as_ Q → x ∈ owned as' Q.
Proof.
  intros He. unfold owned. rewrite !elem_of_app, !list_elem_of_fmap. intros [(p & -> & Hp)|]; [|by right].
  left. exists p. split; [done|by eapply enlarged_pages].
Qed.

Definition segment_outcome (v : vfs) (as_ : address_space) (n : Z) (p : elf_program) (ok : bool)
    (as' : address_space) (s : kstate) : Prop :=
  beside U O lo hi B (set_kern s v) as' ∧ kept U (owned as_ (block_pages v ++ O)) (mem (kern v)) (mem s) ∧
  enlarged as_ as' ∧
  (ok = true → p_memory_size p ≠ 0 →
   acceptable p (size (vn v n)) ∧ segment_in (mem s) (mem s) (vn v n) p as').

Lemma load_segment_spec v as_ f n p :
  beside U O lo hi B v as_ → readable v f n → is_node v n → type (vn v n) ≠ DT_DIR → program_ok p →
  ∃ ok as' s, load_segment as_ f (size (vn v n)) p v = Some (ok, as', set_kern s v) ∧ segment_outcome v as_ n p ok as' s.
Proof.
  intros Hb Hf Hn Hty Hp. pose proof (be_space _ _ _ _ _ _ _ Hb) as Hs. pose proof (be_wf _ _ _ _ _ _ _ Hb) as Hwf.
  assert (∀ ok, (ok = true → p_memory_size p = 0) →
    ∃ ok' as' s, Some (ok, as_, v) = Some (ok', as', set_kern s v) ∧ segment_outcome v as_ n p ok' as' s) as Hstop.
  { intros ok Hok. exists ok, as_, (kern v). unfold segment_outcome. assert (set_kern (kern v) v = v) as -> by (by destruct v).
    split; [done|]. split; [done|]. split; [apply kept_refl|]. split; [apply enlarged_refl|].
    intros E Hm. by apply Hok in E. }
  unfold load_segment. destruct (Z.eqb_spec (p_memory_size p) 0) as [|Hm]; [by apply Hstop|].
  destruct (bad_segment p _) eqn:Ebad; [by apply Hstop|].
  destruct (Z.eqb_spec (Z.land (segment_flags p) PTE_RX) 0) as [|Hrx]; [by apply Hstop|]. clear Hstop.
  pose proof (bad_segment_false _ _ Ebad Hrx) as Hacc.
  destruct (segment_bounds p _ Hp Hacc Hm) as (-> & Hfirst & Hend & Hal & Hel & ->). fold (segment_end p).
  set (cnt := Z.to_nat ((segment_end p - segment_first p) / PAGE_SIZE)).
  assert (segment_first p + PAGE_SIZE * Z.of_nat cnt = segment_end p) as Hcnt.
  { pose proof (po_memory _ Hp) as Hpm. unfold in_u64 in Hpm. subst cnt. rewrite Z2Nat.id by (apply Z.div_pos; lia).
    clear -Hal Hel. div_lia. }
  destruct (area_pages U _ B (kern v) as_ (segment_first p) (segment_end p) (segment_flags p) AREA_ELF (segment_first p) cnt Hs Hwf)
    as (ok & as1 & s1 & -> & Hs1 & Hwf1 & Hk1 & Hres); [done|apply segment_flags_range|lia|lia|].
  destruct ok; cbn [negb].
  2:{ subst as1. exists false, as_, s1. split; [done|]. split; [by apply (beside_step U O lo hi B v as_)|].
      split; [done|]. split; [apply enlarged_refl|done]. }
  destruct Hres as (ok & l & o & s2 & Hrsv & E2 & Hs2 & Hwf2 & Hk2 & Hl & Hok). cbn [kern set_kern]. rewrite E2.
  change (set_kern s2 (set_kern s1 v)) with (set_kern s2 v). set (as2 := set_pages _ _) in *.
  assert (enlarged as_ as2) as Hen.
  { exists l, [mk_area o (segment_first p) (segment_end p) (segment_flags p) AREA_ELF]. split; [done|].
    split; [intros q Hq; destruct (Hl q Hq); lia|intros a ->%list_elem_of_singleton; cbn; lia]. }
  destruct ok; cbn [negb].
  2:{ exists false, as2, s2. split; [done|]. split; [by apply (beside_step U O lo hi B v as_)|]. done. }
  destruct (Hok eq_refl) as [Hva Hz]. clear Hok.
  assert (∀ va, segment_first p <= va < segment_end p → ∃ q, q ∈ l ∧ same_page va q) as Hcov.
  { intros va Hr. apply (page_addresses_cover l (segment_first p) cnt va Hva Hal). lia. }
  destruct Hacc as [A1 A2 A3 A4 A5]. destruct Hp as [P1 P2 P3 P4 P5]. unfold in_u64 in *.
  destruct (fill_loop_spec U O lo hi Harch B as2 f n (copy_fuel (p_file_size p)) (set_kern s2 v) (p_virtual_address p) (p_offset p)
    (p_file_size p)) as (s3 & -> & Hb3 & Hk3 & Hfill);
    [by apply (beside_step U O lo hi B v as_)|done|done|done|apply copy_fuel_rounds; lia|lia|lia|lia|done|lia| |].
  { intros va Hr. destruct (Hcov va) as (q & Hq & Hsq); [lia|]. exists q. split; [cbn; rewrite elem_of_app; auto|].
    split; [|done]. unfold mapped. destruct (Hl q Hq) as [_ ->]. by rewrite (proj2 (Z.eqb_neq _ _) Hrx). }
  exists true, as2, s3. split; [done|]. split; [done|]. split; [|split; [done|]].
  - assert (vacant as_ (segment_first p) (segment_end p) = true) as Hv.
    { unfold reservable in Hrsv. by rewrite negb_true_iff, !orb_false_iff, !negb_false_iff in Hrsv; destruct Hrsv. }
    pose proof (vacant_pages as_ (segment_first p) (segment_end p) Hwf ltac:(lia) Hv) as Hfree.
    intros a Ha. etransitivity; [|by apply Hk2].
    destruct Ha as [(x & [Hx|Hx]%elem_of_app & Hxa)|Hout]; [|apply Hk3; left; by exists x|apply Hk3; by right].
    apply list_elem_of_fmap in Hx as (q & -> & Hq). specialize (Hfree q Hq).
    replace a with (phys_to_virt (physical q) + (a - phys_to_virt (physical q))) by lia. unfold in_page in Hxa.
    specialize (Hfill q (a - phys_to_virt (physical q))). rewrite decide_False in Hfill.
    + apply Hfill; [|lia]. cbn. rewrite elem_of_app. auto.
    + pose proof (space_aligned U _ B (kern v) as_ q Hs Hq) as Hqa. clear -Hfree Hal Hel Hqa Hxa Hfirst Hend A1. div_lia.
  - intros _ _. split; [done|]. intros va Hr. destruct (Hcov va Hr) as (q & Hq & Hsq). exists q.
    assert (q ∈ pages as2) as Hq2 by (cbn; rewrite elem_of_app; auto). split; [done|]. split; [done|].
    destruct (Hl q Hq) as [_ Efl]. split; [done|].
    assert (virtual_address q + va mod PAGE_SIZE = va) as Eva.
    { pose proof (space_aligned U _ B s2 as2 q Hs2 Hq2) as Hqa. unfold same_page in Hsq. clear -Hsq Hqa. div_lia. }
    rewrite (Hfill q (va mod PAGE_SIZE) Hq2 ltac:(clear; div_lia)), Eva. unfold segment_byte.
    change (vn (set_kern s2 v) n) with (vn v n). cbn [kern set_kern]. case_decide as D.
    + symmetry. apply (file_byte_kept U O lo hi Harch B v n); [apply Hb|done|lia|done].
    + apply (Hz q Hq). clear. div_lia.
Qed.
End Segment.
