(* ===== verification/ElfLoad.v ===== *)
(** The loop of [src/kernel/elf.c] over the program headers. *)
From S2P Require Import Prelude Machine Runtime PageAlloc Vm VmInv VmProps HeapSpec Ownership AddressSpace AddressSpaceInv AddressSpaceProps AddressSpaceClone AddressSpaceAreas AddressSpaceMaps AddressSpaceCopy.
From S2P Require Import Outcome Vfs VfsInit VfsTree VfsInv VfsFiles VfsOpen Elf ElfInv ElfProps.

(** * The headers in the file *)

(** [n] bytes of a file from [off] on, as memory from 0 on. *)
Definition window (mf : memory) (n : vnode) (off : Z) (size_ : nat) : memory :=
  list_to_map ((λ i, (Z.of_nat i, file_byte mf n (off + Z.of_nat i))) <$> seq 0 size_).

Definition header_in (mf : memory) (n : vnode) : elf_header := header_of (window mf n 0 64) 0.
Definition program_in (mf : memory) (n : vnode) (off : Z) : elf_program := program_of (window mf n off 56) 0.

Lemma file_byte_range m n i : 0 <= file_byte m n i < 256.
Proof.
  unfold file_byte. case_decide; [|apply load8_range]. destruct (_ !! _); [|lia]. case_decide; [lia|apply load8_range].
Qed.

Lemma window_load8 mf n off k i :
  0 <= i < Z.of_nat k → load8 (window mf n off k) i = file_byte mf n (off + i).
Proof.
  intros Hi. unfold load8, window.
  assert ((list_to_map ((λ j, (Z.of_nat j, file_byte mf n (off + Z.of_nat j))) <$> seq 0 k) : memory) !! i
    = Some (file_byte mf n (off + i))) as ->.
  { apply elem_of_list_to_map_1.
    - rewrite <- list_fmap_compose. apply NoDup_fmap_2; [intros a b; apply Nat2Z.inj|apply NoDup_seq].
    - apply list_elem_of_fmap. exists (Z.to_nat i). rewrite Z2Nat.id by lia. split; [done|]. apply elem_of_seq. lia. }
  cbn. apply Z.mod_small, file_byte_range.
Qed.

Lemma program_of_shift m m' a a' :
  (∀ i, 0 <= i < 56 → load8 m (a + i) = load8 m' (a' + i)) → program_of m a = program_of m' a'.
Proof.
  intros Hm. assert (∀ k n, 0 <= k → k + Z.of_nat n <= 56 → load_le m (a + k) n = load_le m' (a' + k) n) as Hl.
  { intros k n Hk Hn. apply load_le_shift. intros i Hi. rewrite <- !Z.add_assoc. apply Hm. lia. }
  assert (∀ k, 0 <= k → k + 8 <= 56 → load64 m (a + k) = load64 m' (a' + k)) as Hl8.
  { intros k Hk Hn. apply load64_shift. intros i Hi. rewrite <- !Z.add_assoc. apply Hm. lia. }
  unfold program_of. rewrite !Hl8, !(Hl 4) by (cbn; lia).
  assert (load_le m a 4 = load_le m' a' 4) as -> by (apply load_le_shift; intros i Hi; apply Hm; lia). done.
Qed.

Lemma header_of_shift m m' a a' :
  (∀ i, 0 <= i < 64 → load8 m (a + i) = load8 m' (a' + i)) → header_of m a = header_of m' a'.
Proof.
  intros Hm. assert (∀ k n, 0 <= k → k + Z.of_nat n <= 64 → load_le m (a + k) n = load_le m' (a' + k) n) as Hl.
  { intros k n Hk Hn. apply load_le_shift. intros i Hi. rewrite <- !Z.add_assoc. apply Hm. lia. }
  assert (∀ k, 0 <= k → k + 8 <= 64 → load64 m (a + k) = load64 m' (a' + k)) as Hl8.
  { intros k Hk Hn. apply load64_shift. intros i Hi. rewrite <- !Z.add_assoc. apply Hm. lia. }
  unfold header_of. rewrite !Hl8, !Hl by (cbn; lia). f_equal. apply list_fmap_ext. intros i x Hi.
  apply lookup_seq in Hi as [-> Hi]. apply Hm. lia.
Qed.

Lemma program_in_ok mf n off : program_ok (program_in mf n off).
Proof. apply program_of_ok. Qed.

(** A structure with the bytes of the file. *)
Lemma program_in_bytes m mf n at_ off :
  (∀ i, 0 <= i < SIZEOF_PROGRAM → load8 m (at_ + i) = file_byte mf n (off + i)) →
  program_of m at_ = program_in mf n off.
Proof. intros Hb. apply program_of_shift. intros j Hj. by rewrite (Hb j Hj), window_load8 by (cbn; lia). Qed.

Lemma header_in_bytes m mf n at_ :
  (∀ i, 0 <= i < SIZEOF_HEADER → load8 m (at_ + i) = file_byte mf n i) → header_of m at_ = header_in mf n.
Proof. intros Hb. apply header_of_shift. intros j Hj. by rewrite (Hb j Hj), window_load8 by (cbn; lia). Qed.

Lemma header_in_fields mf n : 0 <= e_program_offset (header_in mf n) ∧ 0 <= e_program_count (header_in mf n).
Proof. split; cbn; [apply load64_range|apply (load_le_range _ _ 2)]. Qed.

(** A number of [k] bytes at [off] of a file, the least significant first. *)
Fixpoint file_le (mf : memory) (n : vnode) (off : Z) (k : nat) : Z :=
  match k with
  | O => 0
  | S k' => file_byte mf n off + 256 * file_le mf n (off + 1) k'
  end.

Lemma load64_bytes m a : load64 m a = load_le m a 8.
Proof. with_strategy transparent [load64] (unfold load64). done. Qed.

Lemma window_load_le mf n k : ∀ off, 0 <= off → off + Z.of_nat k <= 64 →
  load_le (window mf n 0 64) off k = file_le mf n off k.
Proof.
  induction k as [|k IH]; intros off Ho Hk; [done|]. cbn [load_le file_le].
  rewrite window_load8, IH by lia. done.
Qed.

(** A RISC-V executable: the bytes every such file starts with, and a table of one to
    sixteen program headers inside the file. *)
Record executable_file (mf : memory) (n : vnode) : Prop := {
  ef_magic : ∀ i, 0 <= i < 7 → [127; 69; 76; 70; 2; 1; 1] !! Z.to_nat i = Some (file_byte mf n i);
  ef_type : file_le mf n 16 2 = 2;
  ef_machine : file_le mf n 18 2 = 243;
  ef_version : file_le mf n 20 4 = 1;
  ef_header_size : file_le mf n 52 2 = 64;
  ef_program_size : file_le mf n 54 2 = 56;
  ef_count : 1 <= file_le mf n 56 2 <= 16;
  ef_table : file_le mf n 32 8 + 56 * file_le mf n 56 2 <= size n;
}.

Lemma header_in_le mf n :
  header_in mf n = mk_header ((λ i, file_byte mf n (Z.of_nat i)) <$> seq 0 16) (file_le mf n 16 2) (file_le mf n 18 2)
    (file_le mf n 20 4) (file_le mf n 24 8) (file_le mf n 32 8) (file_le mf n 52 2) (file_le mf n 54 2) (file_le mf n 56 2).
Proof.
  unfold header_in, header_of. rewrite !load64_bytes, !window_load_le by lia. f_equal. apply list_fmap_ext. intros i x Hi.
  apply lookup_seq in Hi as [-> Hi]. rewrite window_load8 by lia. done.
Qed.

(** Such a file is what the code takes for valid. *)
Lemma valid_executable mf n :
  valid_header (header_in mf n) (size n) = true → executable_file mf n.
Proof.
  destruct (header_in_fields mf n) as [Ho Hc]. rewrite header_in_le in *. cbn [e_program_offset e_program_count] in Ho, Hc.
  unfold valid_header. cbn [e_identity e_type e_machine e_version e_header_size e_program_entry_size e_program_count e_program_offset].
  destruct (_ || _) eqn:E; [done|]. rewrite !orb_false_iff, !negb_false_iff, !Z.eqb_eq, Z.gtb_ltb, Z.ltb_ge, Z.eqb_neq, memcmp_zero in E.
  destruct E as (((((((Em & Et) & Ema) & Ev) & Eh) & Ep) & Ez) & El). intros [E1 E2]%andb_true_iff.
  rewrite u64_small in E2 by (unfold in_u64; lia). apply Z.leb_le in E1, E2. split; try lia.
  intros i Hi. specialize (Em i ltac:(cbn; lia)). unfold lit in Em. rewrite !nth_lookup in Em.
  rewrite list_lookup_fmap, lookup_seq_lt in Em by lia. cbn [fmap option_fmap option_map default] in Em. rewrite Nat.add_0_l, Z2Nat.id in Em by lia.
  change (id (file_byte mf n i)) with (file_byte mf n i) in Em. rewrite Em. unfold elf_identity. destruct (lookup_lt_is_Some_2 [127; 69; 76; 70; 2; 1; 1] (Z.to_nat i)) as [x Hx]; [cbn; lia|].
  by rewrite Hx.
Qed.

(** The same file: nothing within its size differs. *)
Definition same_bytes (n : vnode) (m m' : memory) : Prop :=
  ∀ i, 0 <= i < size n → file_byte m' n i = file_byte m n i.

#[export] Instance same_bytes_equiv n : Equivalence (same_bytes n).
Proof. split; [done|intros x y Hxy i Hi; symmetry; auto|intros x y z H1 H2 i Hi; rewrite H2, H1; auto]. Qed.

Lemma program_in_same n m m' off :
  same_bytes n m m' → 0 <= off → off + 56 <= size n → program_in m' n off = program_in m n off.
Proof.
  intros Hs Ho He. apply program_of_shift. intros i Hi. rewrite !window_load8 by (cbn; lia). apply Hs. lia.
Qed.

Lemma header_in_same n m m' : same_bytes n m m' → 64 <= size n → header_in m' n = header_in m n.
Proof.
  intros Hs He. apply header_of_shift. intros i Hi. rewrite !window_load8 by (cbn; lia). apply Hs. lia.
Qed.

(** * The segments together *)

Lemma segment_in_mono mf mf' m m' n p as_ as' :
  program_ok p → acceptable p (size n) → same_bytes n mf mf' → (∀ q, q ∈ pages as_ → q ∈ pages as') →
  (∀ q j, q ∈ pages as_ → mapped q = true → 0 <= j < PAGE_SIZE → page_byte m' q j = page_byte m q j) →
  segment_in mf m n p as_ → segment_in mf' m' n p as'.
Proof.
  intros [P1 P2 P3 P4 P5] Hacc Hs Hp Hm Hin va Hva. destruct (Hin va Hva) as (q & Hq & Hsq & Hf & Hb).
  exists q. split; [by apply Hp|]. split; [done|]. split; [done|]. assert (mapped q = true) as Hmq by (unfold mapped; by rewrite Hf, (proj2 (Z.eqb_neq _ _) (acceptable_mapped _ _ Hacc))).
  destruct Hacc as [A1 A2 A3 _ _ _ _ _]. rewrite Hm, Hb by (done || (clear; div_lia)).
  unfold segment_byte. case_decide; [|done]. symmetry. apply Hs. unfold in_u64 in *. lia.
Qed.

(** The program headers before number [k] have been dealt with. *)
Definition programs_loaded (mf m : memory) (n : vnode) (h : elf_header) (k : Z) (as_ : address_space) : Prop :=
  ∀ i, 0 <= i < k → let p := program_in mf n (e_program_offset h + i * SIZEOF_PROGRAM) in
    p_type p ≠ ELF_PROGRAM_DYNAMIC ∧ p_type p ≠ ELF_PROGRAM_INTERP ∧
    (p_type p = ELF_PROGRAM_LOAD → p_memory_size p ≠ 0 → acceptable p (size n) ∧ segment_in mf m n p as_).

(** The entry point lies in an executable segment. *)
Definition entry_executable (mf : memory) (n : vnode) (h : elf_header) (k : Z) : Prop :=
  ∃ i, 0 <= i < k ∧ let p := program_in mf n (e_program_offset h + i * SIZEOF_PROGRAM) in
    p_type p = ELF_PROGRAM_LOAD ∧ Z.land (p_flags p) ELF_FLAG_EXEC ≠ 0 ∧
    p_virtual_address p <= e_entry h < p_virtual_address p + p_memory_size p.

(** The table of program headers lies in the file. *)
Definition table_in (h : elf_header) (n : vnode) : Prop :=
  0 <= e_program_offset h ∧ 0 <= e_program_count h ∧
  e_program_offset h + e_program_count h * SIZEOF_PROGRAM <= size n.

Lemma programs_loaded_mono mf mf' m m' n h k as_ as' :
  table_in h n → k <= e_program_count h → same_bytes n mf mf' → (∀ q, q ∈ pages as_ → q ∈ pages as') →
  (∀ q j, q ∈ pages as_ → mapped q = true → 0 <= j < PAGE_SIZE → page_byte m' q j = page_byte m q j) →
  programs_loaded mf m n h k as_ → programs_loaded mf' m' n h k as'.
Proof.
  intros (T1 & T2 & T3) Hk Hs Hp Hm Hl i Hi. rewrite (program_in_same n mf mf') by (done || lia).
  destruct (Hl i Hi) as (L1 & L2 & L3). split; [done|]. split; [done|]. intros Hty Hmz.
  destruct (L3 Hty Hmz) as [Hacc Hin]. split; [done|]. by eapply segment_in_mono; [apply program_of_ok|..].
Qed.

Lemma programs_loaded_snoc mf m n h k as_ :
  programs_loaded mf m n h k as_ →
  (let p := program_in mf n (e_program_offset h + k * SIZEOF_PROGRAM) in
   p_type p ≠ ELF_PROGRAM_DYNAMIC ∧ p_type p ≠ ELF_PROGRAM_INTERP ∧
   (p_type p = ELF_PROGRAM_LOAD → p_memory_size p ≠ 0 → acceptable p (size n) ∧ segment_in mf m n p as_)) →
  programs_loaded mf m n h (k + 1) as_.
Proof. intros Hl Hk i Hi. destruct (decide (i = k)) as [->|]; [done|]. apply Hl. lia. Qed.

Lemma entry_executable_more mf n h k k' : k <= k' → entry_executable mf n h k → entry_executable mf n h k'.
Proof. intros Hk (i & Hi & He). exists i. split; [lia|done]. Qed.

Lemma entry_executable_same mf mf' n h k :
  table_in h n → k <= e_program_count h → same_bytes n mf mf' → entry_executable mf n h k → entry_executable mf' n h k.
Proof.
  intros (T1 & T2 & T3) Hk Hs (i & Hi & He). exists i. split; [done|].
  rewrite (program_in_same n mf mf') by (done || lia). done.
Qed.

#[local] Opaque program_in header_in.

Section Load.
Context `{HeapContract} `{Backends}.
Context (U O : list Z) (lo hi : Z) (Hspan : hi - lo < 2 ^ 62) (Harch : ∀ a, lo <= a < hi → region U O a).
Context (B : gset Z).

(** A local variable of the loader. *)
Definition local_ok (at_ size_ : Z) : Prop := ∀ a, at_ <= a < at_ + size_ → region U O a ∧ ¬ (lo <= a < hi).

(** What reading a header changes: the variable it is read into. *)
Definition only_local (at_ size_ : Z) (m m' : memory) : Prop :=
  same_on (λ a, ¬ (at_ <= a < at_ + size_)) m m'.

Lemma local_pages v as_ at_ size_ m' q j :
  beside U O lo hi B v as_ → local_ok at_ size_ → only_local at_ size_ (mem (kern v)) m' →
  q ∈ pages as_ → 0 <= j < PAGE_SIZE → page_byte m' q j = page_byte (mem (kern v)) q j.
Proof.
  intros Hb Hl Hm Hq Hj. apply Hm. intros Hin.
  apply (region_not_ledger U (block_pages v ++ O) B (kern v) as_ q (phys_to_virt (physical q) + j)); [apply Hb|done| |].
  - apply region_blocks, Hl, Hin.
  - unfold in_page. lia.
Qed.

Lemma node_size v n : vfs_rest lo hi v B → is_node v n → 0 <= size (vn v n) < 2 ^ 62.
Proof.
  intros Hr Hn. pose proof (vr_node _ _ _ _ Hr n Hn) as [_ C2 C3 C4].
  destruct (decide (data (vn v n) = 0)) as [E|E]; [specialize (C3 E)|destruct (C4 E) as (? & ? & _)]; lia.
Qed.

(** The file is not in the loader's variables. *)
Lemma local_apart v as_ n at_ size_ :
  beside U O lo hi B v as_ → is_node v n → local_ok at_ size_ → apart (vn v n) at_ size_.
Proof.
  intros Hb Hn Hl. destruct (beside_vfs U O lo hi B v as_ Hb) as (N & Hv & _). destruct (vk_store _ _ _ _ _ _ Hv) as (F & P & Hst).
  apply (buffer_apart U _ lo hi v F P _ n at_ size_ Hst Hn). intros x Hx. destruct (Hl x Hx) as [Hr Hna]. split; [|done].
  destruct Hr as [(q & Hq & Hqx)|Hr]; [left; exists q; rewrite !elem_of_app; auto|by right].
Qed.

Lemma same_bytes_local v as_ n at_ size_ m m' :
  beside U O lo hi B v as_ → is_node v n → local_ok at_ size_ →
  same_on (λ a, region U (block_pages v ++ O) a ∧ ¬ (at_ <= a < at_ + size_)) m m' → same_bytes (vn v n) m m'.
Proof.
  intros Hb Hn Hl Hm i Hi. apply file_byte_frame; [|done]. intros a Ha. apply Hm. split.
  - by eapply holds_region; [exact Harch|apply Hb|..].
  - intros Hin. by apply (local_apart v as_ n at_ size_ Hb Hn Hl a Hin).
Qed.

(** A successful read of a header, and what a failed one leaves. *)
Lemma read_local v as_ f n at_ size_ off :
  beside U O lo hi B v as_ → readable v f n → is_node v n → local_ok at_ size_ → 0 < size_ → 0 <= off →
  ∃ ok s, read_exact f at_ size_ off v = Some (ok, set_kern s v) ∧ beside U O lo hi B (set_kern s v) as_ ∧
    only_local at_ size_ (mem (kern v)) (mem s) ∧ same_bytes (vn v n) (mem (kern v)) (mem s) ∧
    (ok = true ↔ type (vn v n) ≠ DT_DIR ∧ off + size_ <= size (vn v n)) ∧
    (ok = true → ∀ i, 0 <= i < size_ → load8 (mem s) (at_ + i) = file_byte (mem s) (vn v n) (off + i)).
Proof.
  intros Hb Hf Hn Hl Hsz Hoff.
  destruct (beside_peek U O lo hi B v as_ f n at_ size_ off Hb Hf ltac:(lia) Hoff Hl) as (s & E & Hb' & Hdel).
  pose proof (read_count_bound (vn v n) size_ off ltac:(lia)) as Hrc.
  unfold read_exact. rewrite E. eexists _, s. split; [reflexivity|]. split; [done|].
  assert (only_local at_ size_ (mem (kern v)) (mem s)) as Hol.
  { intros a Ha. rewrite (Hdel a : load8 (mem s) a = _), decide_False; [done|lia]. }
  assert (same_bytes (vn v n) (mem (kern v)) (mem s)) as Hsb.
  { apply (same_bytes_local v as_ n at_ size_); try done. intros a [_ Ha]. by apply Hol. }
  split; [done|]. split; [done|]. rewrite Z.eqb_eq. split.
  - pose proof (no_size _ _ _ (vr_node _ _ _ _ (be_rest _ _ _ _ _ _ _ Hb) n Hn)).
    unfold read_count. destruct (Z.eqb_spec (type (vn v n)) DT_DIR); split; [lia|tauto|lia|lia].
  - intros Ec i Hi. rewrite (Hdel (at_ + i) : load8 (mem s) _ = _), decide_True by lia.
    replace (off + (at_ + i - at_)) with (off + i) by lia. symmetry. apply Hsb.
    unfold read_count in Ec. destruct (_ =? _); lia.
Qed.

Context (program_at : Z) (Hlocal : local_ok program_at SIZEOF_PROGRAM).

Definition elsewhere (a : Z) : Prop := region U O a ∧ ¬ (program_at <= a < program_at + SIZEOF_PROGRAM).

Lemma load_programs_spec f n h count : ∀ i v as_ executable,
  beside U O lo hi B v as_ → readable v f n → is_node v n → table_in h (vn v n) → 0 <= i →
  i + Z.of_nat count = e_program_count h →
  programs_loaded (mem (kern v)) (mem (kern v)) (vn v n) h i as_ →
  (executable = true → entry_executable (mem (kern v)) (vn v n) h i) →
  ∃ ok ex as' s, load_programs program_at count i h as_ f (size (vn v n)) executable v = Some (ok, ex, as', set_kern s v) ∧
    beside U O lo hi B (set_kern s v) as' ∧ enlarged as_ as' ∧ same_bytes (vn v n) (mem (kern v)) (mem s) ∧
    same_on elsewhere (mem (kern v)) (mem s) ∧
    (ok = true → programs_loaded (mem s) (mem s) (vn v n) h (e_program_count h) as' ∧
       (ex = true → entry_executable (mem s) (vn v n) h (e_program_count h))).
Proof.
  induction count as [|count IH]; intros i v as_ executable Hb Hf Hn Ht Hi Hcnt Hload Hex; cbn [load_programs].
  { exists true, executable, as_, (kern v). assert (set_kern (kern v) v = v) as -> by (by destruct v).
    rewrite Z.add_0_r in Hcnt. subst i. split; [done|]. split; [done|]. split; [apply enlarged_refl|]. done. }
  pose proof (node_size v n (be_rest _ _ _ _ _ _ _ Hb) Hn) as Hnsz. pose proof Ht as (T1 & T2 & T3).
  assert (∃ off, off = e_program_offset h + i * SIZEOF_PROGRAM) as [off Eoff] by eauto. rewrite <- Eoff.
  rewrite (u64_small off) by (unfold in_u64; lia). clear Hnsz.
  destruct (read_local v as_ f n program_at SIZEOF_PROGRAM off Hb Hf Hn Hlocal ltac:(lia) ltac:(lia))
    as (ok & s & -> & Hb1 & Hol & Hsb & Hiff & Hbytes).
  assert (same_on elsewhere (mem (kern v)) (mem s)) as Hel by (intros a [_ Ha]; by apply Hol).
  destruct ok.
  2:{ exists false, executable, as_, s. split; [done|]. split; [done|]. split; [apply enlarged_refl|]. done. }
  destruct (proj1 Hiff eq_refl) as [Hty _].
  assert (program_of (mem s) program_at = program_in (mem s) (vn v n) off) as Ep.
  { by apply program_in_bytes, Hbytes. }
  cbn [kern set_kern]. rewrite Ep. set (p := program_in _ _ _) in *.
  assert (programs_loaded (mem s) (mem s) (vn v n) h i as_) as Hload1.
  { apply (programs_loaded_mono (mem (kern v)) (mem s) (mem (kern v)) (mem s) (vn v n) h i as_ as_); [exact Ht|lia|exact Hsb|auto| |exact Hload].
    intros q j Hq _ Hj. by apply (local_pages v as_ program_at SIZEOF_PROGRAM). }
  assert (executable = true → entry_executable (mem s) (vn v n) h i) as Hex1.
  { intros E. by apply (entry_executable_same (mem (kern v))); [|lia| |apply Hex]. }
  assert (∀ ok as' s', segment_outcome U O lo hi B (set_kern s v) as_ n p ok as' s' →
    same_bytes (vn v n) (mem s) (mem s') ∧ same_on elsewhere (mem s) (mem s') ∧
    programs_loaded (mem s') (mem s') (vn v n) h i as' ∧ (executable = true → entry_executable (mem s') (vn v n) h i)) as Hseg.
  { intros ok as' s' (_ & Hk & He & _). cbn [kern set_kern] in Hk.
    assert (same_bytes (vn v n) (mem s) (mem s')) as Hsb'.
    { intros j Hj. apply (file_byte_kept U O lo hi Harch B v n); [apply Hb|done|done|]. eapply kept_sub; [|exact Hk].
      intros x Hx. apply elem_of_app. by right. }
    split; [done|]. split; [|split].
    - intros a [Ha _]. apply Hk. destruct Ha as [(q & Hq & Hqa)|Ha]; [left; exists q; unfold owned; rewrite !elem_of_app; auto|by right].
    - apply (programs_loaded_mono (mem s) (mem s') (mem s) (mem s') (vn v n) h i as_ as'); [exact Ht|lia|exact Hsb'| | |exact Hload1].
      + intros q. by apply enlarged_pages.
      + intros q j Hq _ Hj. apply (page_byte_kept U _ _ _ _ _ Hk); [|done]. unfold owned. apply elem_of_app. left. by apply list_elem_of_fmap_2.
    - intros E. by apply (entry_executable_same (mem s)); [|lia| |apply Hex1]. }
  destruct ((_ =? ELF_PROGRAM_DYNAMIC) || _) eqn:Edyn.
  { exists false, executable, as_, s. split; [reflexivity|]. split; [exact Hb1|]. split; [apply enlarged_refl|].
    split; [exact Hsb|]. split; [exact Hel|discriminate]. }
  apply orb_false_iff in Edyn as [Ed1 Ed2]. apply Z.eqb_neq in Ed1, Ed2.
  assert (∀ s', same_bytes (vn v n) (mem s) (mem s') → program_in (mem s') (vn v n) off = p) as Hsame.
  { intros s' Hs'. apply program_in_same; [done|lia|lia]. }
  destruct (Z.eqb_spec (p_type p) ELF_PROGRAM_LOAD) as [Hld|Hld]; cbn [negb].
  2:{ destruct (IH (i + 1) (set_kern s v) as_ executable Hb1 Hf Hn) as (ok & ex & as' & s' & E2 & Hb2 & He2 & Hsb2 & Hel2 & Hok);
        [done|lia|lia| | |].
      - apply programs_loaded_snoc; [exact Hload1|]. rewrite <- Eoff. split; [exact Ed1|]. split; [exact Ed2|].
        intros E. by destruct (Hld E).
      - intros E. by apply entry_executable_more with i; [lia|apply Hex1].
      - exists ok, ex, as', s'. split; [exact E2|]. split; [done|]. split; [done|]. split; [by transitivity (mem s)|].
        split; [|done]. intros a Ha. cbn [kern set_kern] in Hel2. by rewrite (Hel2 a Ha), (Hel a Ha). }
  destruct (load_segment_spec U O lo hi Harch B (set_kern s v) as_ f n p Hb1 Hf Hn Hty (program_in_ok _ _ _))
    as (ok & as1 & s1 & E1 & Hout). change (vn (set_kern s v) n) with (vn v n) in E1. rewrite E1.
  destruct (Hseg _ _ _ Hout) as (Hsb1 & Hel1 & Hload2 & Hex2). destruct Hout as (Hb2 & _ & He1 & Hok1).
  assert (same_on elsewhere (mem (kern v)) (mem s1)) as Hel01 by (intros a Ha; by rewrite (Hel1 a Ha), (Hel a Ha)).
  destruct ok.
  2:{ exists false, executable, as1, s1. split; [reflexivity|]. split; [exact Hb2|]. split; [exact He1|].
      split; [by transitivity (mem s)|]. split; [exact Hel01|discriminate]. }
  set (x := _ && _).
  destruct (IH (i + 1) (set_kern s1 v) as1 (executable || x) Hb2 Hf Hn) as (ok & ex & as' & s' & E3 & Hb3 & He3 & Hsb3 & Hel3 & Hok);
    [done|lia|lia| | |].
  - apply programs_loaded_snoc; [done|]. rewrite <- Eoff. change (vn (set_kern s1 v) n) with (vn v n). cbn [kern set_kern].
    rewrite (Hsame s1 Hsb1). split; [done|]. split; [done|]. intros _ Hmz. by apply Hok1.
  - change (vn (set_kern s1 v) n) with (vn v n). cbn [kern set_kern]. intros [E|E]%orb_true_iff;
      [by apply entry_executable_more with i; [lia|apply Hex2]|].
    unfold x in E. rewrite !andb_true_iff, negb_true_iff, Z.eqb_neq, Z.geb_le, Z.ltb_lt in E.
    exists i. split; [lia|]. rewrite <- Eoff, (Hsame s1 Hsb1). cbv zeta. split; [done|]. split; [tauto|lia].
  - exists ok, ex, as', s'. split; [exact E3|]. split; [done|]. split; [by eapply enlarged_trans|].
    split; [transitivity (mem s); [done|by transitivity (mem s1)]|]. split; [|done].
    intros a Ha. cbn [kern set_kern] in Hel3. by rewrite (Hel3 a Ha), (Hel01 a Ha).
Qed.
End Load.
