(* ===== verification/ElfStack.v ===== *)
(** The first stack of a program: [build_stack] of [src/kernel/elf.c]. *)
From S2P Require Import Prelude Machine Runtime PageAlloc Vm VmInv VmProps HeapSpec Ownership AddressSpace AddressSpaceInv AddressSpaceProps AddressSpaceClone AddressSpaceAreas AddressSpaceMaps AddressSpaceCopy.
From S2P Require Import Outcome Vfs VfsInit VfsTree VfsInv VfsFiles VfsOpen Elf ElfInv ElfProps.

Abbreviation STACK_LOW := 4177920 (only parsing).      (* USER_STACK_TOP - USER_STACK_PAGES * PAGE_SIZE *)
Abbreviation SIZEOF_ARGUMENTS := 1040 (only parsing).
Abbreviation SIZEOF_WORDS := 152 (only parsing).

(** The string at [a], up to and with its NUL, is at the user address [x]. *)
Definition user_string (as_ : address_space) (s : kstate) (x : Z) (m : memory) (a : Z) : Prop :=
  ∀ j, 0 <= j → (∀ k, 0 <= k < j → load8 m (a + k) ≠ 0) → user_byte as_ (x + j) s = Some (load8 m (a + j)).

(** The eight bytes at the user address [va] are those of the word [x]. *)
Definition user_word (as_ : address_space) (s : kstate) (va x : Z) : Prop :=
  ∃ m a, load64 m a = x ∧ ∀ j, 0 <= j < 8 → user_byte as_ (va + j) s = Some (load8 m (a + j)).

(** Strings that end within their arrays. *)
Record arguments_ok (m : memory) (a : Z) : Prop := {
  ag_argc : argc m a <= EXEC_MAX_ARGS;
  ag_envc : envc m a <= EXEC_MAX_ENVS;
  ag_argv : ∀ i, 0 <= i < argc m a → strlen (at_ptr m (argv_at a i)) (Z.to_nat EXEC_STRING_SIZE) ≠ None;
  ag_envp : ∀ i, 0 <= i < envc m a → strlen (at_ptr m (envp_at a i)) (Z.to_nat EXEC_STRING_SIZE) ≠ None;
}.

(** The same arguments. *)
Definition same_arguments (a : Z) (m m' : memory) : Prop :=
  same_on (λ b, a <= b < a + SIZEOF_ARGUMENTS) m m'.

Lemma strlen_ext b b' fuel : (∀ i, 0 <= i < Z.of_nat fuel → b i = b' i) → strlen b fuel = strlen b' fuel.
Proof.
  intros Hb. destruct (strlen b' fuel) as [n|] eqn:E.
  - apply strlen_spec in E as (E1 & E2 & E3). apply strlen_spec. split; [done|]. rewrite Hb by lia. split; [done|].
    intros j Hj. rewrite Hb by lia. by apply E3.
  - destruct (strlen b fuel) as [n|] eqn:E'; [|done]. exfalso. apply strlen_spec in E' as (E1 & E2 & E3).
    assert (strlen b' fuel = Some n) as En; [|congruence]. apply strlen_spec. split; [done|]. rewrite <- Hb by lia. split; [done|].
    intros j Hj. rewrite <- Hb by lia. by apply E3.
Qed.

Lemma arguments_same m m' a :
  same_arguments a m m' → arguments_ok m a →
  argc m' a = argc m a ∧ envc m' a = envc m a ∧ arguments_ok m' a.
Proof.
  intros Hm [A1 A2 A3 A4].
  assert (argc m' a = argc m a) as Ea by (apply load64_ext; intros b Hb; apply Hm; lia).
  assert (envc m' a = envc m a) as Ee by (apply load64_ext; intros b Hb; apply Hm; lia).
  split; [done|]. split; [done|]. split; [by rewrite Ea|by rewrite Ee| |]; intros i Hi.
  - rewrite Ea in Hi. rewrite (strlen_ext _ (at_ptr m (argv_at a i))); [by apply A3|].
    intros j Hj. unfold at_ptr, argv_at in *. apply Hm. lia.
  - rewrite Ee in Hi. rewrite (strlen_ext _ (at_ptr m (envp_at a i))); [by apply A4|].
    intros j Hj. unfold at_ptr, envp_at in *. apply Hm. lia.
Qed.

Lemma user_string_same as_ s x m m' a :
  (∀ j, 0 <= j < EXEC_STRING_SIZE → load8 m' (a + j) = load8 m (a + j)) →
  strlen (at_ptr m a) (Z.to_nat EXEC_STRING_SIZE) ≠ None →
  user_string as_ s x m a → user_string as_ s x m' a.
Proof.
  intros Hm Hlen Hs j Hj Hk. destruct (strlen _ _) as [n|] eqn:E; [|done]. apply strlen_spec in E as (E1 & E2 & E3).
  unfold at_ptr in *. assert (j <= n).
  { destruct (decide (j <= n)); [done|]. exfalso. apply (Hk n); [lia|]. rewrite Hm by lia. done. }
  rewrite Hm by lia. apply Hs; [done|]. intros k Hk'. rewrite <- Hm by lia. by apply Hk.
Qed.

Lemma store_words_out l : ∀ a m b,
  ¬ (a <= b < a + 8 * Z.of_nat (length l)) → load8 (store_words a l m) b = load8 m b.
Proof.
  induction l as [|w l IH]; intros a m b Hb; cbn [store_words length] in *; [done|].
  rewrite IH by lia. apply load8_store64_out. lia.
Qed.

Lemma store_words_in l : ∀ a m k w,
  Forall in_u64 l → l !! k = Some w → load64 (store_words a l m) (a + 8 * Z.of_nat k) = w.
Proof.
  induction l as [|x l IH]; intros a m k w Hf Hk; [done|]. apply Forall_cons in Hf as [Hx Hl]. cbn [store_words].
  destruct k as [|k]; cbn in Hk.
  - injection Hk as <-. rewrite Z.mul_0_r, Z.add_0_r.
    rewrite (load64_ext (store64 m a x)); [by apply load64_store64_eq|].
    intros b Hb. apply store_words_out. lia.
  - rewrite <- (IH (a + 8) (store64 m a x) k w Hl Hk). f_equal. lia.
Qed.

Section Stack.
Context `{HeapContract}.
Context (U Q : list Z) (B : gset Z) (as_ : address_space).

Definition unchanged_outside (low high : Z) (s s' : kstate) : Prop :=
  ∀ va, 0 <= va < 2 ^ 38 → ¬ (low <= va < high) → user_byte as_ va s' = user_byte as_ va s.

(** Nothing but user bytes in the range has changed. *)
Definition pushed (low high : Z) (s s' : kstate) : Prop :=
  kept U Q (mem s) (mem s') ∧
  (∀ va, 0 <= va < 2 ^ 38 → vm_query (Some (table as_)) va s' = vm_query (Some (table as_)) va s) ∧
  unchanged_outside low high s s'.

Lemma pushed_refl low high s : pushed low high s s.
Proof. split; [apply kept_refl|done]. Qed.

Lemma pushed_trans low high low' high' l h s1 s2 s3 :
  l <= low → l <= low' → high <= h → high' <= h →
  pushed low high s1 s2 → pushed low' high' s2 s3 → pushed l h s1 s3.
Proof.
  intros ???? (K1 & Q1 & U1) (K2 & Q2 & U2). split; [exact (kept_trans _ _ _ _ _ K1 K2)|].
  split; intros va Hva; [by rewrite Q2, Q1|]. intros Hn. rewrite U2, U1 by lia. done.
Qed.

(** A string survives what happens below it. *)
Lemma user_string_pushed s s' low high x m a n :
  unchanged_outside low high s s' → 0 <= high → high <= x → x + n + 1 <= 2 ^ 38 → 0 <= n → load8 m (a + n) = 0 →
  user_string as_ s x m a → user_string as_ s' x m a.
Proof.
  intros Hu Hh Hx Hend Hn Hz Hs j Hj Hk. rewrite Hu; [by apply Hs| |lia].
  assert (j <= n); [|lia]. destruct (decide (j <= n)); [done|]. exfalso. apply (Hk n); [lia|done].
Qed.

(** Writes to the memory of others do not show in user memory. *)
Lemma other_write_user s s' :
  space U Q B s as_ → same_on (λ a, ¬ region U Q a) (mem s) (mem s') →
  ∀ va, 0 <= va < 2 ^ 38 → vm_query (Some (table as_)) va s' = vm_query (Some (table as_)) va s ∧
    user_byte as_ va s' = user_byte as_ va s.
Proof.
  intros Hs Hm va Hva.
  assert (vm_query (Some (table as_)) va s' = vm_query (Some (table as_)) va s) as Hq.
  { apply (query_kept U Q B s s' as_ Q); [done|intros x Hx; apply elem_of_app; by right|done|done]. }
  split; [done|]. unfold user_byte. rewrite Hq. destruct (vm_query _ va s) as [[pa bits]|] eqn:Ev; [|done].
  destruct (space_query U Q B s as_ va pa bits Hs Hva Ev) as (q & Hq' & Hsq & _ & _ & _ & Eptr). f_equal. apply Hm.
  intros Hr. apply (region_not_ledger U Q B s as_ q _ Hs Hq' Hr). rewrite Eptr. unfold in_page. clear. div_lia.
Qed.

(** Where a vector of strings ends up: one address for each, at or above [low]. *)
Definition strings_at (s : kstate) (m : memory) (string_at : Z → Z) (l : list Z) (low high : Z) : Prop :=
  ∀ i x, l !! i = Some x → low <= x ∧ user_string as_ s x m (string_at (Z.of_nat i)) ∧
    ∃ n, 0 <= n < EXEC_STRING_SIZE ∧ x + n + 1 <= high ∧ load8 m (string_at (Z.of_nat i) + n) = 0.

Lemma strings_pushed s s' m string_at l low high low' high' :
  unchanged_outside low' high' s s' → 0 <= high' <= low → high <= 2 ^ 38 →
  strings_at s m string_at l low high → strings_at s' m string_at l low high.
Proof.
  intros Hp Hh Hhigh Hs i x Hx. destruct (Hs i x Hx) as (L1 & L2 & n & L3 & L4 & L5). split; [done|].
  split; [|by exists n]. eapply user_string_pushed; [exact Hp|lia|lia|exact (Z.le_trans _ _ _ L4 Hhigh)|lia|exact L5|exact L2].
Qed.

(** Strings in the memory of others, of the lengths their arrays allow. *)
Definition strings_ok (m : memory) (string_at : Z → Z) (count : nat) : Prop :=
  ∀ i, (i < count)%nat → 0 < string_at (Z.of_nat i) ∧
    (∀ j, 0 <= j < EXEC_STRING_SIZE → region U Q (string_at (Z.of_nat i) + j)) ∧
    strlen (at_ptr m (string_at (Z.of_nat i))) (Z.to_nat EXEC_STRING_SIZE) ≠ None.

Lemma push_strings_spec m string_at count : ∀ cursor s top rest,
  space U Q B s as_ → kept U Q m (mem s) → strings_ok m string_at count →
  EXEC_STRING_SIZE * Z.of_nat count <= cursor <= top → top <= 2 ^ 38 →
  (∀ i x, rest !! i = Some x → cursor <= x ∧ user_string as_ s x m (string_at (Z.of_nat (count + i))) ∧
    ∃ n, 0 <= n < EXEC_STRING_SIZE ∧ x + n + 1 <= top ∧ load8 m (string_at (Z.of_nat (count + i)) + n) = 0) →
  ∃ ok c l s', push_strings as_ string_at count cursor rest s = Some (ok, c, l, s') ∧
    space U Q B s' as_ ∧ pushed (cursor - EXEC_STRING_SIZE * Z.of_nat count) cursor s s' ∧
    (ok = true → cursor - EXEC_STRING_SIZE * Z.of_nat count <= c <= cursor ∧ length l = (count + length rest)%nat ∧
       strings_at s' m string_at l c top).
Proof.
  induction count as [|count IH]; intros cursor s top rest Hs Hk Hok Hcur Htop Hrest; cbn [push_strings].
  { exists true, cursor, rest, s. split; [done|]. split; [done|]. split; [apply pushed_refl|]. intros _.
    split; [lia|]. split; [done|]. exact Hrest. }
  destruct (Hok count ltac:(lia)) as (Hpos & Hreg & Hlen). set (a := string_at (Z.of_nat count)) in *.
  assert (∀ j, 0 <= j < EXEC_STRING_SIZE → load8 (mem s) (a + j) = load8 m (a + j)) as Hmem.
  { intros j Hj. by apply Hk, Hreg. }
  destruct (strlen (at_ptr m a) (Z.to_nat EXEC_STRING_SIZE)) as [n|] eqn:En; [|done]. clear Hlen.
  apply strlen_spec in En as (Hn & Hz & Hnz). unfold at_ptr in Hz, Hnz.
  assert (strlen (at_ptr (mem s) a) (Z.to_nat EXEC_STRING_SIZE) = Some n) as ->.
  { apply strlen_spec. split; [done|]. unfold at_ptr. split; [rewrite Hmem by lia; done|].
    intros j Hj. rewrite Hmem by lia. by apply Hnz. }
  rewrite (u64_small (cursor - (n + 1))) by (unfold in_u64; lia). set (c := cursor - (n + 1)).
  destruct (user_copy_out U Q B s as_ a c (n + 1) Hs) as (ok & s1 & -> & _ & Hs1 & Hk1 & Hq1 & Hu1 & Hb1);
    [lia|lia|lia|intros i Hi; apply Hreg; lia|].
  assert (pushed c cursor s s1) as Hp1.
  { split; [done|]. split; [done|]. intros va Hva Hno. apply Hu1; [done|]. unfold c in *. lia. }
  destruct ok.
  2:{ exists false, c, (c :: rest), s1. split; [done|]. split; [done|]. split; [|done].
      eapply (pushed_trans c cursor c cursor); [..|apply pushed_refl]; try exact Hp1; unfold c; lia. }
  assert (kept U Q m (mem s1)) as Hk01 by exact (kept_trans _ _ _ _ _ Hk Hk1).
  destruct (IH c s1 top (c :: rest) Hs1 Hk01) as (ok & c' & l & s' & -> & Hs' & Hp' & Hres).
  - intros i Hi. apply Hok. lia.
  - unfold c. lia.
  - done.
  - intros [|i] x Hx; cbn in Hx.
    + injection Hx as <-. rewrite Nat.add_0_r. fold a. split; [lia|]. split.
      * intros j Hj Hpre. assert (j <= n); [destruct (decide (j <= n)); [done|]; exfalso; apply (Hpre n); [lia|done]|].
        rewrite (Hb1 eq_refl j ltac:(lia)). f_equal. apply Hmem. lia.
      * exists n. split; [lia|]. split; [unfold c; lia|done].
    + destruct (Hrest i x Hx) as (R1 & R2 & k & R3 & R4 & R5). rewrite <- Nat.add_succ_comm. split; [unfold c; lia|].
      split; [|by exists k].
      eapply user_string_pushed; [exact (proj2 (proj2 Hp1))|lia|exact R1|exact (Z.le_trans _ _ _ R4 Htop)|lia|exact R5|exact R2].
  - exists ok, c', l, s'. split; [done|]. split; [done|]. split.
    + eapply pushed_trans; [..|exact Hp1|exact Hp']; unfold c; lia.
    + intros E. destruct (Hres E) as (R1 & R2 & R3). split; [unfold c in *; lia|]. cbn [length] in R2. split; [lia|done].
Qed.

(** ** The whole stack *)

Context (words_at : Z) (Hwords : 0 < words_at ∧ ∀ a, words_at <= a < words_at + SIZEOF_WORDS → region U Q a).

(** The layout the program finds at [sp]. *)
Record stack_ready (s : kstate) (m : memory) (arguments sp : Z) : Prop := {
  sr_aligned : sp mod 16 = 0;
  sr_low : STACK_LOW <= sp < USER_STACK_TOP;
  sr_words : ∃ argv envp,
    Z.of_nat (length argv) = argc m arguments ∧ Z.of_nat (length envp) = envc m arguments ∧
    (∀ k w, (argc m arguments :: argv ++ [0] ++ envp ++ [0]) !! k = Some w → user_word as_ s (sp + 8 * Z.of_nat k) w) ∧
    (∀ i x, argv !! i = Some x → sp < x < USER_STACK_TOP ∧ user_string as_ s x m (argv_at arguments (Z.of_nat i))) ∧
    (∀ i x, envp !! i = Some x → sp < x < USER_STACK_TOP ∧ user_string as_ s x m (envp_at arguments (Z.of_nat i)));
}.

(** Where the arguments are. *)
Definition arguments_at (arguments : Z) : Prop :=
  0 < arguments ∧
  ∀ a, arguments <= a < arguments + SIZEOF_ARGUMENTS → region U Q a ∧ ¬ (words_at <= a < words_at + SIZEOF_WORDS).

Lemma arguments_strings m arguments :
  arguments_ok m arguments → arguments_at arguments →
  strings_ok m (envp_at arguments) (Z.to_nat (envc m arguments)) ∧
  strings_ok m (argv_at arguments) (Z.to_nat (argc m arguments)).
Proof.
  intros [A1 A2 A3 A4] [Hpos Hreg]. split; intros i Hi.
  - assert (Z.of_nat i < 8) by lia. unfold envp_at in *. split; [lia|]. split; [intros j Hj; apply Hreg; lia|apply A4; lia].
  - assert (Z.of_nat i < 8) by lia. unfold argv_at in *. split; [lia|]. split; [intros j Hj; apply Hreg; lia|apply A3; lia].
Qed.

Lemma arguments_kept m m' arguments : arguments_at arguments → kept U Q m m' → same_arguments arguments m m'.
Proof. intros [_ Hreg] Hk a Ha. by apply Hk, Hreg. Qed.

(** The layout, with the arguments read in another memory. *)
Lemma stack_ready_same s m m' arguments sp :
  same_arguments arguments m m' → arguments_ok m arguments →
  stack_ready s m arguments sp → stack_ready s m' arguments sp.
Proof.
  intros Hm Hok [S1 S2 (argv & envp & L1 & L2 & L3 & L4 & L5)]. destruct (arguments_same m m' arguments Hm Hok) as (Ea & Ee & _).
  destruct Hok as [A1 A2 A3 A4]. split; [done|done|]. exists argv, envp. rewrite Ea, Ee.
  split; [done|]. split; [done|]. split; [done|]. split; intros i x Hx.
  - pose proof (lookup_lt_Some _ _ _ Hx) as Hlt. destruct (L4 i x Hx) as [X1 X2]. split; [done|].
    apply (user_string_same as_ s x m); [|apply A3; lia|done]. intros j Hj. unfold argv_at. apply Hm. lia.
  - pose proof (lookup_lt_Some _ _ _ Hx) as Hlt. destruct (L5 i x Hx) as [X1 X2]. split; [done|].
    apply (user_string_same as_ s x m); [|apply A4; lia|done]. intros j Hj. unfold envp_at. apply Hm. lia.
Qed.

(** The layout in a state that looks the same to the program. *)
Lemma stack_ready_view s s' m arguments sp :
  (∀ va, 0 <= va < 2 ^ 38 → user_byte as_ va s' = user_byte as_ va s) → arguments_ok m arguments →
  stack_ready s m arguments sp → stack_ready s' m arguments sp.
Proof.
  intros Hu [A1 A2 A3 A4] [S1 S2 (argv & envp & L1 & L2 & L3 & L4 & L5)]. split; [done|done|].
  assert (∀ x a, sp < x < USER_STACK_TOP → strlen (at_ptr m a) (Z.to_nat EXEC_STRING_SIZE) ≠ None →
    user_string as_ s x m a → user_string as_ s' x m a) as Hstr.
  { intros x a Hx Hlen Hs j Hj Hk. destruct (strlen _ _) as [n|] eqn:E; [|done]. apply strlen_spec in E as (E1 & E2 & E3).
    unfold at_ptr in *. assert (j <= n).
    { destruct (decide (j <= n)); [done|]. exfalso. apply (Hk n); [lia|done]. }
    rewrite Hu by lia. by apply Hs. }
  exists argv, envp. split; [done|]. split; [done|]. split; [|split]; [intros k w Hw|intros i x Hx..].
  - destruct (L3 k w Hw) as (m0 & a & E & Hb). exists m0, a. split; [done|]. intros j Hj.
    pose proof (lookup_lt_Some _ _ _ Hw) as Hlt. cbn [length] in Hlt. rewrite length_app in Hlt. cbn in Hlt.
    rewrite length_app in Hlt. cbn in Hlt. rewrite Hu by lia. by apply Hb.
  - pose proof (lookup_lt_Some _ _ _ Hx). destruct (L4 i x Hx) as [X1 X2]. split; [done|]. apply Hstr; [done|apply A3; lia|done].
  - pose proof (lookup_lt_Some _ _ _ Hx). destruct (L5 i x Hx) as [X1 X2]. split; [done|]. apply Hstr; [done|apply A4; lia|done].
Qed.

(** What the local variable [words] does not touch. *)
Definition not_words (a : Z) : Prop := region U Q a ∧ ¬ (words_at <= a < words_at + SIZEOF_WORDS).

(** The words, by way of the local variable. *)
Lemma write_words_spec s words sp :
  space U Q B s as_ → Forall in_u64 words → (length words <= 19)%nat → 0 <= sp →
  sp + 8 * Z.of_nat (length words) <= 2 ^ 38 →
  let s1 := set_mem (store_words words_at words (mem s)) s in
  space U Q B s1 as_ ∧ same_on not_words (mem s) (mem s1) ∧
  ∃ ok s2, address_space_copy (Some as_) words_at sp (8 * Z.of_nat (length words)) true s1 = Some (ok, s2) ∧
    space U Q B s2 as_ ∧ same_on not_words (mem s) (mem s2) ∧
    (∀ va, 0 <= va < 2 ^ 38 → vm_query (Some (table as_)) va s2 = vm_query (Some (table as_)) va s) ∧
    (∀ va, 0 <= va < 2 ^ 38 → ¬ (sp <= va < sp + 8 * Z.of_nat (length words)) → user_byte as_ va s2 = user_byte as_ va s) ∧
    (ok = true → ∀ k w, words !! k = Some w → user_word as_ s2 (sp + 8 * Z.of_nat k) w).
Proof.
  intros Hs Hw Hlen Hsp Hend s1. destruct Hwords as [Hpos Hreg].
  assert (∀ a, ¬ (words_at <= a < words_at + SIZEOF_WORDS) → load8 (mem s1) a = load8 (mem s) a) as Hout.
  { intros a Ha. apply store_words_out. lia. }
  assert (same_on (λ a, ¬ region U Q a) (mem s) (mem s1)) as Hoth.
  { intros a Ha. apply Hout. intros Hin. by apply Ha, Hreg. }
  assert (same_on not_words (mem s) (mem s1)) as Hnw by (intros a [_ Ha]; by apply Hout).
  assert (space U Q B s1 as_) as Hs1 by (by apply (space_other_write U Q B s)).
  split; [done|]. split; [done|].
  destruct (user_copy_out U Q B s1 as_ words_at sp (8 * Z.of_nat (length words)) Hs1)
    as (ok & s2 & E & _ & Hs2 & Hk2 & Hq2 & Hu2 & Hb2); [lia|lia|lia|intros i Hi; apply Hreg; lia|].
  exists ok, s2. split; [done|]. split; [done|].
  split; [intros a Ha; rewrite <- (Hnw a Ha); by apply Hk2, Ha|].
  split; [intros va Hva; rewrite Hq2 by done; by apply (other_write_user s s1)|].
  split; [intros va Hva Hno; rewrite Hu2 by done; by apply (other_write_user s s1)|].
  intros Eok k w Hk. exists (mem s1), (words_at + 8 * Z.of_nat k). split; [by apply store_words_in|].
  pose proof (lookup_lt_Some _ _ _ Hk) as Hlt. intros j Hj. rewrite <- !Z.add_assoc. apply Hb2; [done|lia].
Qed.

Lemma write_stack_spec arguments s :
  space U Q B s as_ → arguments_ok (mem s) arguments → arguments_at arguments →
  ∃ ok sp s', write_stack words_at as_ arguments s = Some (ok, sp, s') ∧ space U Q B s' as_ ∧
    same_on not_words (mem s) (mem s') ∧
    (ok = true → stack_ready s' (mem s) arguments sp ∧
       (∀ va, 0 <= va < 2 ^ 38 → vm_query (Some (table as_)) va s' = vm_query (Some (table as_)) va s) ∧
       (∀ va, 0 <= va < STACK_LOW → user_byte as_ va s' = user_byte as_ va s)).
Proof.
  intros Hs Hok Hat. destruct (arguments_strings _ _ Hok Hat) as [Henv Harg]. pose proof Hok as [A1 A2 _ _].
  unfold write_stack. pose proof (load64_range (mem s) arguments) as R1. pose proof (load64_range (mem s) (arguments + 8)) as R2.
  unfold argc, envc, in_u64 in A1, A2, R1, R2. fold (argc (mem s) arguments) in A1, R1. fold (envc (mem s) arguments) in A2, R2.
  destruct (push_strings_spec (mem s) (envp_at arguments) (Z.to_nat (envc (mem s) arguments)) USER_STACK_TOP s USER_STACK_TOP [] Hs)
    as (ok & c1 & envp & s1 & -> & Hs1 & Hp1 & Hres1); [apply kept_refl|done|lia|lia|done|].
  assert (same_on not_words (mem s) (mem s1)) as Hm1
    by (intros a [Ha _]; by apply Hp1).
  destruct ok; [|by eexists false, _, s1].
  destruct (Hres1 eq_refl) as (Hc1 & Hlen1 & Hat1). cbn [length] in Hlen1. rewrite Nat.add_0_r in Hlen1. clear Hres1.
  destruct (arguments_same (mem s) (mem s1) arguments (arguments_kept _ _ _ Hat (proj1 Hp1)) Hok) as (-> & _ & _).
  destruct (push_strings_spec (mem s) (argv_at arguments) (Z.to_nat (argc (mem s) arguments)) c1 s1 c1 [] Hs1)
    as (ok & c2 & argv & s2 & -> & Hs2 & Hp2 & Hres2); [apply Hp1|done|lia|lia|done|].
  assert (same_on not_words (mem s) (mem s2)) as Hm2 by (intros a Ha; rewrite <- (Hm1 a Ha); by apply Hp2, Ha).
  destruct ok; [|by eexists false, _, s2].
  destruct (Hres2 eq_refl) as (Hc2 & Hlen2 & Hat2). cbn [length] in Hlen2. rewrite Nat.add_0_r in Hlen2. clear Hres2.
  destruct (arguments_same (mem s) (mem s2) arguments
    (arguments_kept _ _ _ Hat (kept_trans _ _ _ _ _ (proj1 Hp1) (proj1 Hp2))) Hok) as (-> & _ & _).
  pose proof (strings_pushed s1 s2 (mem s) (envp_at arguments) envp c1 USER_STACK_TOP _ c1 (proj2 (proj2 Hp2)) ltac:(lia) ltac:(lia) Hat1) as Hat1'.
  set (words := argc (mem s) arguments :: argv ++ [0] ++ envp ++ [0]).
  assert (length words = 3 + length argv + length envp)%nat as Hlw by (unfold words; cbn; rewrite length_app; cbn; rewrite length_app; cbn; lia).
  assert (Forall in_u64 words) as Hfw.
  { apply Forall_forall. intros x Hx. unfold words, in_u64 in *. rewrite elem_of_cons, !elem_of_app, !list_elem_of_singleton in Hx.
    destruct Hx as [->|[[i Hx]%list_elem_of_lookup|[->|[[i Hx]%list_elem_of_lookup| ->]]]]; [lia| |lia| |lia].
    - destruct (Hat2 i x Hx) as (X1 & _ & n & X2 & X3 & _). lia.
    - destruct (Hat1' i x Hx) as (X1 & _ & n & X2 & X3 & _). lia. }
  set (size_ := 8 * Z.of_nat (length words)). cbv zeta.
  assert (0 <= c2 - size_) as Hfit by (unfold size_; lia).
  rewrite (u64_small (c2 - size_)) by (unfold in_u64, size_ in *; lia).
  rewrite (land_not_low (c2 - size_) 4 ltac:(lia) : _ → Z.land (c2 - size_) (not64 15) = _) by (unfold in_u64, size_ in *; lia).
  set (sp := c2 - size_ - (c2 - size_) mod 2 ^ 4).
  assert (sp mod 16 = 0 ∧ sp + size_ <= c2 ∧ 0 <= sp) as (Hal & Hsp & Hsp0) by (unfold sp; clear -Hfit; div_lia).
  destruct (write_words_spec s2 words sp Hs2 Hfw ltac:(lia) Hsp0 ltac:(unfold size_ in *; lia))
    as (Hs3 & Hm3 & ok & s4 & E & Hs4 & Hm4 & Hq4 & Hu4 & Hw4).
  assert (∀ s', same_on not_words (mem s2) (mem s') → same_on not_words (mem s) (mem s')) as Htr.
  { intros s' Hm a Ha. by rewrite (Hm a Ha), (Hm2 a Ha). }
  change (USER_STACK_TOP - USER_STACK_PAGES * PAGE_SIZE) with STACK_LOW.
  destruct (Z.ltb_spec sp STACK_LOW) as [|Hlow]; [eexists false, _, _; split; [done|]; split; [exact Hs3|]; split; [by apply Htr|done]|].
  fold size_ in E. rewrite E. exists ok, sp, s4. split; [done|]. split; [done|]. split; [by apply Htr|]. intros ->.
  split; [|split].
  - split; [done|unfold size_ in *; lia|]. exists argv, envp. split; [lia|]. split; [lia|]. split; [by apply Hw4|].
    pose proof (strings_pushed s2 s4 (mem s) (argv_at arguments) argv c2 c1 sp (sp + size_) Hu4 ltac:(lia) ltac:(lia) Hat2) as Ha4.
    pose proof (strings_pushed s2 s4 (mem s) (envp_at arguments) envp c1 USER_STACK_TOP sp (sp + size_) Hu4 ltac:(lia) ltac:(lia) Hat1') as He4.
    assert (0 < size_) by (unfold size_; lia).
    split; intros i x Hx; [destruct (Ha4 i x Hx) as (X1 & X2 & n & X3 & X4 & _)|destruct (He4 i x Hx) as (X1 & X2 & n & X3 & X4 & _)]; split; (done || lia).
  - intros va Hva. rewrite Hq4 by done. rewrite (proj1 (proj2 Hp2)), (proj1 (proj2 Hp1)) by done. done.
  - intros va Hva. rewrite Hu4 by lia. rewrite (proj2 (proj2 Hp2)), (proj2 (proj2 Hp1)) by lia. done.
Qed.
End Stack.

(** * The stack in a new image *)

(** The stack is mapped for reading and writing, with nothing mapped in the page below. *)
Definition stack_mapped (as_ : address_space) (s : kstate) : Prop :=
  (∀ va, STACK_LOW <= va < USER_STACK_TOP → ∃ pa, vm_query (Some (table as_)) va s = Some (pa, leaf_bits PTE_URW)) ∧
  (∀ va, ELF_USER_END <= va < STACK_LOW → vm_query (Some (table as_)) va s = None).

Section Build.
Context `{HeapContract}.
Context (U Q : list Z) (B : gset Z).
Context (words_at : Z) (Hwords : 0 < words_at ∧ ∀ a, words_at <= a < words_at + SIZEOF_WORDS → region U Q a).

Lemma stack_mapped_pages s as_ l :
  space U Q B s (set_pages (pages as_ ++ l) as_) → (∀ q, q ∈ pages as_ → virtual_address q < ELF_USER_END) →
  virtual_address <$> l = page_addresses STACK_LOW 4 → (∀ q, q ∈ l → page_flags q = PTE_URW) →
  stack_mapped (set_pages (pages as_ ++ l) as_) s.
Proof.
  intros Hs Hold Hva Hfl. set (as' := set_pages _ _) in *. split; intros va Hr.
  - destruct (page_addresses_cover l STACK_LOW 4 va Hva) as (q & Hq & Hsq); [done|lia|]. eexists.
    rewrite <- (Hfl q Hq). apply (space_mapped U Q B s as' q va Hs); [cbn; rewrite elem_of_app; auto| |done|lia].
    unfold mapped. by rewrite (Hfl q Hq).
  - destruct (vm_query _ va s) as [[pa bits]|] eqn:E; [|done]. exfalso.
    destruct (space_query U Q B s as' va pa bits Hs ltac:(lia) E) as (q & Hq & Hsq & _). unfold same_page in Hsq.
    pose proof (space_aligned U Q B s as' q Hs Hq) as Hal. cbn in Hq. apply elem_of_app in Hq as [Hq|Hq].
    + specialize (Hold q Hq). clear -Hold Hsq Hr Hal. div_lia.
    + apply (list_elem_of_fmap_2 virtual_address) in Hq. rewrite Hva in Hq. unfold page_addresses in Hq.
      apply list_elem_of_fmap in Hq as (i & Ei & _). rewrite Ei in Hsq. clear -Hsq Hr. div_lia.
Qed.

Lemma build_stack_spec image arguments s :
  space U Q B s (image_as image) → as_wf (image_as image) →
  (∀ q, q ∈ pages (image_as image) → virtual_address q < ELF_USER_END) →
  arguments_ok (mem s) arguments → arguments_at U Q words_at arguments →
  ∃ ok image' s', build_stack words_at image arguments s = Some (ok, image', s') ∧
    space U Q B s' (image_as image') ∧ as_wf (image_as image') ∧
    same_on (not_words U Q words_at) (mem s) (mem s') ∧
    (ok = true → stack_ready (image_as image') s' (mem s) arguments (stack_pointer image') ∧
       stack_mapped (image_as image') s' ∧
       (∀ q, q ∈ pages (image_as image) → q ∈ pages (image_as image')) ∧
       (∀ q j, q ∈ pages (image_as image) → mapped q = true → 0 <= j < PAGE_SIZE →
          page_byte (mem s') q j = page_byte (mem s) q j)).
Proof.
  intros Hs Hwf Hold Hok Hat. unfold build_stack. set (as0 := image_as image) in *.
  change (USER_STACK_TOP - (USER_STACK_PAGES + 1) * PAGE_SIZE) with ELF_USER_END.
  change (USER_STACK_TOP - USER_STACK_PAGES * PAGE_SIZE) with STACK_LOW.
  destruct (area_pages U Q B s as0 ELF_USER_END USER_STACK_TOP PTE_URW AREA_STACK STACK_LOW (Z.to_nat USER_STACK_PAGES) Hs Hwf)
    as (ok & as1 & s1 & -> & Hs1 & Hwf1 & Hk1 & Hres); [done|done|lia|cbn; lia|].
  assert (∀ s', kept U (owned as0 Q) (mem s) (mem s') → kept U Q (mem s) (mem s')) as Hsub.
  { intros s'. apply kept_sub. intros x Hx. apply elem_of_app. by right. }
  assert (∀ s', kept U (owned as0 Q) (mem s) (mem s') → same_on (not_words U Q words_at) (mem s) (mem s')) as Hnw.
  { intros s' Hk a [Ha _]. by apply (Hsub s' Hk). }
  destruct ok; cbn [negb].
  2:{ eexists false, _, s1. split; [done|]. split; [done|]. split; [done|]. split; [by apply Hnw|done]. }
  destruct Hres as (ok & l & o & s2 & _ & E2 & Hs2 & Hwf2 & Hk2 & Hl & Hpg). rewrite E2. set (as2 := set_pages _ _) in *.
  destruct ok; cbn [negb].
  2:{ eexists false, _, s2. split; [done|]. split; [done|]. split; [done|]. split; [by apply Hnw|done]. }
  destruct (Hpg eq_refl) as [Hva _].
  pose proof (arguments_kept U Q words_at _ _ _ Hat (Hsub s2 Hk2)) as Hsame.
  destruct (arguments_same _ _ _ Hsame Hok) as (_ & _ & Hok2).
  destruct (write_stack_spec U Q B as2 words_at Hwords arguments s2 Hs2 Hok2 Hat) as (ok & sp & s3 & -> & Hs3 & Hm3 & Hres).
  exists ok, (if ok then mk_image as2 (image_entry image) sp else set_image_as as2 (set_image_as as1 image)), s3.
  split; [by destruct ok|]. split; [by destruct ok|]. split; [by destruct ok|].
  split; [intros a Ha; rewrite (Hm3 a Ha); by apply Hnw|]. intros ->. destruct (Hres eq_refl) as (Hr & Hq & Hu).
  cbn [image_as stack_pointer]. split; [|split; [|split]].
  - apply (stack_ready_same as2 s3 (mem s2)); [|done|done]. intros a Ha. symmetry. by apply Hsame.
  - destruct (stack_mapped_pages s2 (set_areas (areas as0 ++ [mk_area o ELF_USER_END USER_STACK_TOP PTE_URW AREA_STACK]) as0) l) as [M1 M2];
      [done|done|done|intros q Hq'; by apply Hl|]. fold as2 in M1, M2.
    split; intros va Hva2; rewrite Hq by lia; [by apply M1|by apply M2].
  - intros q Hq'. cbn. rewrite elem_of_app. auto.
  - intros q j Hq' Hmq Hj. rewrite <- (page_byte_kept U _ (mem s) (mem s2) q j Hk2); [|unfold owned; apply elem_of_app; left; by apply list_elem_of_fmap_2|done].
    assert (q ∈ pages as2) as Hq2 by (cbn; rewrite elem_of_app; auto).
    pose proof (space_aligned U Q B s2 as2 q Hs2 Hq2) as Hal. specialize (Hold q Hq').
    assert (0 <= virtual_address q) by (destruct Hs2 as [(N & F & P & Hi) _]; apply (ai_ledger _ _ _ _ _ _ _ _ Hi q Hq2)).
    assert (same_page (virtual_address q + j) q) as Hsp by (unfold same_page; clear -Hal Hj; div_lia).
    assert ((virtual_address q + j) mod PAGE_SIZE = j) as Em by (clear -Hal Hj; div_lia).
    assert (virtual_address q + j < ELF_USER_END) as Hbelow by (clear -Hold Hal Hj; div_lia).
    specialize (Hu (virtual_address q + j) ltac:(lia)).
    rewrite (space_user_byte U Q B s2 as2 q _ Hs2 Hq2 Hmq Hsp ltac:(lia)), (space_user_byte U Q B s3 as2 q _ Hs3 Hq2 Hmq Hsp ltac:(lia)), Em in Hu.
    congruence.
Qed.
End Build.
