(* ===== verification/ElfThms.v ===== *)
(** What [src/kernel/elf.c] guarantees: the image of a program, or nothing. *)
From S2P Require Import KList Log Heap HeapProps HeapThms HeapInstance Bench AddressSpaceThms VfsBuild VfsThms.
From S2P Require Import Prelude Machine Runtime PageAlloc Vm VmInv VmProps HeapSpec Ownership AddressSpace AddressSpaceInv AddressSpaceProps AddressSpaceClone AddressSpaceAreas AddressSpaceMaps AddressSpaceCopy.
From S2P Require Import Outcome Vfs VfsInit VfsTree VfsInv VfsFiles VfsOpen Elf ElfInv ElfProps ElfLoad ElfStack.
From Stdlib Require String.
Import String.StringSyntax.

#[local] Opaque program_in header_in.

(** * The image *)

(** What a program finds when it starts: the bytes of the file [n] in its segments,
    with the rights they ask for; the entry point in one it may execute; and its stack. *)
Record image_ok (s : kstate) (n : vnode) (arguments : Z) (image : exec_image) : Prop := {
  io_header : executable_file (mem s) n;
  io_entry : image_entry image = file_le (mem s) n 24 8;
  io_executable : entry_executable (mem s) n (header_in (mem s) n) (e_program_count (header_in (mem s) n));
  io_segments : ∀ i, 0 <= i < e_program_count (header_in (mem s) n) →
    let p := program_in (mem s) n (e_program_offset (header_in (mem s) n) + i * SIZEOF_PROGRAM) in
    p_type p ≠ ELF_PROGRAM_DYNAMIC ∧ p_type p ≠ ELF_PROGRAM_INTERP ∧
    (p_type p = ELF_PROGRAM_LOAD → p_memory_size p ≠ 0 → acceptable p (size n) ∧
      ∀ va, segment_first p <= va < segment_end p →
        user_byte (image_as image) va s = Some (segment_byte (mem s) n p va) ∧
        ∃ pa bits, vm_query (Some (table (image_as image))) va s = Some (pa, bits) ∧ entry_rights p bits);
  io_stack : stack_ready (image_as image) s (mem s) arguments (stack_pointer image);
  io_mapped : stack_mapped (image_as image) s;
}.

(** The variables of the loader and the arguments lie in memory that is nobody's to
    allocate, apart from each other, from the archive and from the kernel's table. *)
Record locals_ok `{HeapContract} (U O : list Z) (lo hi header_at program_at words_at arguments : Z) (K : list Z) : Prop := {
  lc_header : local_ok U O lo hi header_at SIZEOF_HEADER;
  lc_program : local_ok U O lo hi program_at SIZEOF_PROGRAM;
  lc_words : 0 < words_at ∧ local_ok U O lo hi words_at SIZEOF_WORDS;
  lc_table : ∀ p a, p ∈ K → in_page p a → ¬ (header_at <= a < header_at + SIZEOF_HEADER);
  lc_positive : 0 < arguments;
  lc_arguments : ∀ a, arguments <= a < arguments + SIZEOF_ARGUMENTS →
    region U O a ∧ ¬ (header_at <= a < header_at + SIZEOF_HEADER) ∧
    ¬ (program_at <= a < program_at + SIZEOF_PROGRAM) ∧ ¬ (words_at <= a < words_at + SIZEOF_WORDS);
}.

Section Load.
Context `{HeapContract} `{Backends}.
Context (U O : list Z) (lo hi : Z) (Hspan : hi - lo < 2 ^ 62) (Harch : ∀ a, lo <= a < hi → region U O a).
Context (header_at program_at words_at arguments : Z) (K : list Z).
Context (Hloc : locals_ok U O lo hi header_at program_at words_at arguments K).

(** The memory the loader has nothing to do with. *)
Definition spared (a : Z) : Prop :=
  region U O a ∧ ¬ (header_at <= a < header_at + SIZEOF_HEADER) ∧
  ¬ (program_at <= a < program_at + SIZEOF_PROGRAM) ∧ ¬ (words_at <= a < words_at + SIZEOF_WORDS).

Lemma spared_trans m1 m2 m3 : same_on spared m1 m2 → same_on spared m2 m3 → same_on spared m1 m3.
Proof. intros A1 A2 a Ha. by rewrite (A2 a Ha), (A1 a Ha). Qed.

Lemma spared_kept v m m' : kept U (block_pages v ++ O) m m' → same_on spared m m'.
Proof. intros Hk a [Ha _]. by apply Hk, region_blocks. Qed.

(** The image before the file is closed, in terms of pages. *)
Record image_built (s : kstate) (n : vnode) (h : elf_header) (image : exec_image) : Prop := {
  ib_loaded : programs_loaded (mem s) (mem s) n h (e_program_count h) (image_as image);
  ib_executable : entry_executable (mem s) n h (e_program_count h);
  ib_entry : image_entry image = e_entry h;
  ib_stack : stack_ready (image_as image) s (mem s) arguments (stack_pointer image);
  ib_mapped : stack_mapped (image_as image) s;
}.

Lemma load_image_spec B v image f n h :
  beside U O lo hi B v (image_as image) → pages (image_as image) = [] → readable v f n → is_node v n →
  table_in h (vn v n) → arguments_ok (mem (kern v)) arguments →
  ∃ ok image' s, load_image program_at words_at h image f (size (vn v n)) arguments v = Some (ok, image', set_kern s v) ∧
    beside U O lo hi B (set_kern s v) (image_as image') ∧ same_bytes (vn v n) (mem (kern v)) (mem s) ∧
    same_on spared (mem (kern v)) (mem s) ∧ (ok = true → image_built s (vn v n) h image').
Proof.
  intros Hb Hnil Hf Hn Ht Hargs. unfold load_image.
  destruct (load_programs_spec U O lo hi Hspan Harch B program_at (lc_program _ _ _ _ _ _ _ _ _ Hloc) f n h
    (Z.to_nat (e_program_count h)) 0 v (image_as image) false Hb Hf Hn Ht) as (ok & ex & as1 & s1 & -> & Hb1 & He1 & Hsb1 & Hel1 & Hok1);
    [lia|destruct Ht as (_ & ? & _); lia|intros i Hi; lia|done|].
  assert (same_arguments arguments (mem (kern v)) (mem s1)) as Hsa1.
  { intros a Ha. apply Hel1. destruct (lc_arguments _ _ _ _ _ _ _ _ _ Hloc a Ha) as (R & _ & R2 & _). by split. }
  assert (same_on spared (mem (kern v)) (mem s1)) as Hsp1 by (intros a (R & _ & R2 & _); by apply Hel1).
  destruct (negb (ok && ex)) eqn:E.
  { eexists false, _, s1. split; [done|]. split; [done|]. split; [done|]. split; [done|]. done. }
  apply negb_false_iff, andb_true_iff in E as [-> ->]. destruct (Hok1 eq_refl) as [Hload Hexec]. specialize (Hexec eq_refl).
  destruct (arguments_same _ _ _ Hsa1 Hargs) as (_ & _ & Hargs1).
  assert (arguments_at U (block_pages v ++ O) words_at arguments) as Hat.
  { split; [apply Hloc|]. intros a Ha. destruct (lc_arguments _ _ _ _ _ _ _ _ _ Hloc a Ha) as (R & _ & _ & R3).
    split; [by apply region_blocks|done]. }
  destruct (build_stack_spec U (block_pages v ++ O) B words_at) with (image := set_image_as as1 image) (arguments := arguments) (s := s1)
    as (ok & image' & s2 & E2 & Hs2 & Hwf2 & Hm2 & Hok2).
  { split; [apply Hloc|]. intros a Ha. apply region_blocks. by apply (lc_words _ _ _ _ _ _ _ _ _ Hloc). }
  { exact (be_space _ _ _ _ _ _ _ Hb1). }
  { exact (be_wf _ _ _ _ _ _ _ Hb1). }
  { cbn [image_as set_image_as]. destruct He1 as (l & la & -> & Hl & _). cbn [pages set_pages]. rewrite Hnil. done. }
  { done. }
  { done. }
  cbn [kern set_kern]. rewrite E2. change (set_kern s2 (set_kern s1 v)) with (set_kern s2 v).
  assert (same_bytes (vn v n) (mem s1) (mem s2)) as Hsb2.
  { exact (same_bytes_local U O lo hi Harch B v (image_as image) n words_at SIZEOF_WORDS _ _ Hb Hn (proj2 (lc_words _ _ _ _ _ _ _ _ _ Hloc)) Hm2). }
  assert (same_arguments arguments (mem s1) (mem s2)) as Hsa2.
  { intros a Ha. apply Hm2. destruct (proj2 Hat a Ha) as [R1 R2]. by split. }
  exists ok, (if ok then mk_image (image_as image') (e_entry h) (stack_pointer image') else image'), s2.
  split; [done|].
  assert (image_as (if ok then mk_image (image_as image') (e_entry h) (stack_pointer image') else image') = image_as image') as Eas
    by (by destruct ok). rewrite Eas.
  split; [by apply (beside_step U O lo hi B v (image_as image))|]. split; [by transitivity (mem s1)|].
  split; [eapply spared_trans; [exact Hsp1|]; intros a (R & _ & _ & R3); apply Hm2; split; [by apply region_blocks|done]|]. intros ->. destruct (Hok2 eq_refl) as (Hr & Hmap & Hpg & Hby).
  cbn [image_as set_image_as] in Hpg, Hby.
  split; cbn [image_as image_entry stack_pointer]; [|by apply (entry_executable_same (mem s1))|done| |done].
  - apply (programs_loaded_mono (mem s1) (mem s2) (mem s1) (mem s2) (vn v n) h _ as1); [exact Ht|lia|exact Hsb2|exact Hpg|exact Hby|exact Hload].
  - by apply (stack_ready_same (image_as image') s2 (mem s1)).
Qed.

(** Closing the file leaves the image as it is. *)
Lemma image_view v v' B B' image n h :
  beside U O lo hi B v (image_as image) → beside U O lo hi B' v' (image_as image) →
  kept U (owned (image_as image) (block_pages v ++ O)) (mem (kern v)) (mem (kern v')) → vnodes v' = vnodes v →
  is_node v n → h = header_in (mem (kern v)) (vn v n) → valid_header h (size (vn v n)) = true → table_in h (vn v n) →
  64 <= size (vn v n) → arguments_ok (mem (kern v)) arguments →
  image_built (kern v) (vn v n) h image → image_ok (kern v') (vn v' n) arguments image.
Proof.
  intros Hb Hb' Hk Evn Hn -> Hvalid Ht Hsz Hargs [I1 I2 I3 I4 I5].
  assert (vn v' n = vn v n) as -> by (unfold vn; by rewrite Evn).
  assert (kept U (block_pages v ++ O) (mem (kern v)) (mem (kern v'))) as Hk'.
  { eapply kept_sub; [|exact Hk]. intros x Hx. apply elem_of_app. by right. }
  assert (same_bytes (vn v n) (mem (kern v)) (mem (kern v'))) as Hsb.
  { intros i Hi. apply (file_byte_kept U O lo hi Harch B v n); [apply Hb|done|done|done]. }
  assert (same_arguments arguments (mem (kern v)) (mem (kern v'))) as Hsa.
  { intros a Ha. apply Hk', region_blocks. by destruct (lc_arguments _ _ _ _ _ _ _ _ _ Hloc a Ha). }
  pose proof (header_in_same (vn v n) _ _ Hsb Hsz) as Eh.
  assert (∀ va, 0 <= va < 2 ^ 38 → vm_query (Some (table (image_as image))) va (kern v') = vm_query (Some (table (image_as image))) va (kern v) ∧
    user_byte (image_as image) va (kern v') = user_byte (image_as image) va (kern v)) as Hview.
  { intros va Hva. eapply space_same_view; [apply Hb|apply Hb'|exact Hk|done]. }
  assert (programs_loaded (mem (kern v')) (mem (kern v')) (vn v n) (header_in (mem (kern v)) (vn v n))
    (e_program_count (header_in (mem (kern v)) (vn v n))) (image_as image)) as Hload.
  { apply (programs_loaded_mono (mem (kern v)) (mem (kern v')) (mem (kern v)) (mem (kern v')) (vn v n) _ _ (image_as image));
      [exact Ht|lia|exact Hsb|auto| |exact I1]. intros q j Hq _ Hj. apply (page_byte_kept U _ _ _ _ _ Hk); [|done].
    unfold owned. apply elem_of_app. left. by apply list_elem_of_fmap_2. }
  split; rewrite ?Eh; [apply valid_executable; by rewrite Eh|by rewrite I3, <- Eh, header_in_le|by apply (entry_executable_same (mem (kern v))); [|lia|..]| | |].
  - intros i Hi. destruct (Hload i Hi) as (L1 & L2 & L3). split; [exact L1|]. split; [exact L2|]. intros Hty Hmz.
    destruct (L3 Hty Hmz) as [Hacc Hin]. split; [exact Hacc|]. intros va Hva. destruct (Hin va Hva) as (q & Hq & Hsq & Hfl & Hby).
    assert (mapped q = true) as Hmq by (unfold mapped; by rewrite Hfl, (proj2 (Z.eqb_neq _ _) (acceptable_mapped _ _ Hacc))).
    destruct (segment_bounds _ _ (program_in_ok _ _ _) Hacc Hmz) as (_ & S1 & S2 & _).
    pose proof (be_space _ _ _ _ _ _ _ Hb') as Hs'. split.
    + rewrite (space_user_byte _ _ _ _ _ q va Hs' Hq Hmq Hsq ltac:(lia)). by f_equal.
    + eexists _, _. rewrite (space_mapped _ _ _ _ _ q va Hs' Hq Hmq Hsq ltac:(lia)), Hfl. split; [done|apply leaf_rights].
  - apply (stack_ready_same _ _ (mem (kern v))); [exact Hsa|done|].
    apply (stack_ready_view _ (kern v)); [|done|done]. intros va Hva. by apply Hview.
  - destruct I5 as [M1 M2]. split; intros va Hva; rewrite (proj1 (Hview va ltac:(lia))); [by apply M1|by apply M2].
Qed.

Lemma valid_table h n :
  valid_header h (size n) = true → 0 <= e_program_offset h → 0 <= e_program_count h → table_in h n.
Proof.
  unfold valid_header. destruct (_ || _) eqn:E; [done|]. intros [E1 E2]%andb_true_iff Ho Hc.
  rewrite !orb_false_iff in E. destruct E as [_ E]. rewrite Z.gtb_ltb, Z.ltb_ge in E.
  rewrite u64_small in E2 by (unfold in_u64; lia). apply Z.leb_le in E1, E2. split; [done|]. split; [done|lia].
Qed.

(** Reading the header, with the file system alone. *)
Lemma read_header v f n L :
  vfs_ok U O lo hi v ({[f]} ∪ L) → readable v f n → is_node v n →
  ∃ ok s, read_exact f header_at SIZEOF_HEADER 0 v = Some (ok, set_kern s v) ∧ vfs_ok U O lo hi (set_kern s v) ({[f]} ∪ L) ∧
    only_local header_at SIZEOF_HEADER (mem (kern v)) (mem s) ∧
    (ok = true → 64 <= size (vn v n) ∧ header_of (mem s) header_at = header_in (mem s) (vn v n)).
Proof.
  intros Hv (R1 & R2 & R3 & R4) Hn.
  destruct (file_pread_spec U O lo hi v _ f header_at SIZEOF_HEADER 0 Hv R1 R2 ltac:(lia) ltac:(lia) R3 (lc_header _ _ _ _ _ _ _ _ _ Hloc))
    as (s & E & Hv' & Hdel & _). rewrite R4 in E, Hdel.
  pose proof (read_count_bound (vn v n) SIZEOF_HEADER 0 ltac:(lia)) as Hrc.
  unfold read_exact. rewrite E. eexists _, s. split; [reflexivity|]. split; [done|].
  assert (only_local header_at SIZEOF_HEADER (mem (kern v)) (mem s)) as Hol.
  { intros a Ha. rewrite (Hdel a : load8 (mem s) a = _), decide_False; [done|lia]. }
  split; [done|]. intros Ec%Z.eqb_eq. rewrite Ec in Hdel.
  assert (64 <= size (vn v n)) as Hsz by (unfold read_count in Ec; destruct (_ =? _); lia). split; [done|].
  apply header_in_bytes. intros i Hi. rewrite (Hdel (header_at + i) : load8 (mem s) _ = _), decide_True by lia.
  replace (0 + (header_at + i - header_at)) with i by lia. symmetry. apply file_byte_frame; [|lia].
  intros a Ha. apply Hol. intros Hin. destruct (vk_store _ _ _ _ _ _ Hv) as (F & P & Hst).
  by apply (buffer_apart U O lo hi v F P _ n header_at SIZEOF_HEADER Hst Hn (lc_header _ _ _ _ _ _ _ _ _ Hloc) a Hin).
Qed.

(** ** The whole of [elf_load] *)

Definition load_outcome (v v' : vfs) (L : gset Z) (n : Z) (ok : bool) (image : exec_image) : Prop :=
  vnodes v' = vnodes v ∧ nodes v' = nodes v ∧ files v' = files v ∧
  ((mounts v' = mounts v ∧ pipes v' = pipes v) ∧ same_on spared (mem (kern v)) (mem (kern v'))) ∧
  if ok then beside U O lo hi L v' (image_as image) ∧ image_ok (kern v') (vn v' n) arguments image
  else vfs_ok U O lo hi v' L.

(** The state after the open, and what closing does to it. *)
Record opened_for (v v1 : vfs) (f n : Z) (L : gset Z) : Prop := {
  of_new : f ≠ 0 ∧ f ∉ L;
  of_sole : sole v1 f n;
  of_files : delete f (files v1) = files v;
  of_nodes : vnodes v1 = vnodes v ∧ nodes v1 = nodes v;
  of_node : is_node v1 n;
  of_rest : mounts v1 = mounts v ∧ pipes v1 = pipes v;
  of_spared : same_on spared (mem (kern v)) (mem (kern v1));
}.

Lemma opened_for_kern v v1 f n L s :
  opened_for v v1 f n L → same_on spared (mem (kern v1)) (mem s) → opened_for v (set_kern s v1) f n L.
Proof. intros [O1 O2 O3 O4 O5 O6 O7] Hm. split; try done. by eapply spared_trans. Qed.

Lemma load_failed v v1 f n L image :
  opened_for v v1 f n L → vfs_ok U O lo hi v1 ({[f]} ∪ L) → load_outcome v (file_put f v1) L n false image.
Proof.
  intros [[Hf0 HfL] Hsole Edel [En Enn] _ [Em Ep] Hsp] Hs.
  destruct (close_spec U O lo hi Harch v1 f n L Hspan Hs HfL Hsole) as (C1 & C2 & C3 & C4 & [C5 C6] & C7).
  split; [by rewrite C2|]. split; [by rewrite C3|]. split; [by rewrite C4|]. split; [|done]. split; [by rewrite C5, C6|].
  eapply spared_trans; [exact Hsp|by eapply spared_kept].
Qed.

Lemma load_file_spec v v1 L f n kr NK :
  opened_for v v1 f n L → vfs_ok U O lo hi v1 ({[f]} ∪ L) →
  pt_rep whole (kern v1) kr NK → (∀ p, p ∈ map_vals NK → p ∈ O ∧ p ∈ K) → arguments_ok (mem (kern v1)) arguments →
  ∃ ok image v', load_file header_at program_at words_at (Some (mk_page_table kr)) f arguments v1 = Some (ok, image, v') ∧
    load_outcome v v' L n ok image.
Proof.
  intros Ho Hv1 HK HNK Hargs. pose proof Ho as [[Hf0 HfL] (ops_ & Ef & Hops) _ [En Enn] Hn1 _ _]. unfold load_file.
  assert (fl v1 f = mk_file ops_ n 0 0 1 O_RDONLY) as Efl by (by apply lookup_total_correct).
  assert (file_size f v1 = size (vn v1 n)) as ->.
  { unfold file_size. rewrite Efl. cbn [node]. rewrite (proj2 (Z.eqb_neq _ _) Hf0). destruct (Z.eqb_spec n 0) as [->|]; [|done].
    exfalso. by apply (to_null v1 (vk_tree _ _ _ _ _ _ Hv1)). }
  destruct (decide (ops_ = regular_ops)) as [->|Eops].
  2:{ assert (read_exact f header_at SIZEOF_HEADER 0 v1 = Some (false, v1)) as ->.
      { unfold read_exact, file_pread. rewrite Efl. cbn [flags ops]. rewrite (proj2 (Z.eqb_neq _ _) Hf0). by destruct ops_. }
      eexists false, _, _. split; [done|]. by apply load_failed. }
  assert (∀ s, readable (set_kern s v1) f n) as Hread.
  { intros s. unfold readable. change (fl (set_kern s v1) f) with (fl v1 f). rewrite Efl. cbn [files set_kern]. rewrite Ef. by split; [eauto|]. }
  destruct (read_header v1 f n L Hv1 (Hread (kern v1)) Hn1) as (ok & s & -> & Hv2 & Hol & Hok).
  assert (same_on spared (mem (kern v1)) (mem s)) as Hsp by (intros a (_ & R & _); by apply Hol).
  pose proof (opened_for_kern _ _ _ _ _ s Ho Hsp) as Ho2.
  destruct ok; [|eexists false, _, _; split; [done|]; by apply load_failed].
  destruct (Hok eq_refl) as [Hsz Eh]. cbn [kern set_kern negb orb]. rewrite Eh. set (h := header_in (mem s) (vn v1 n)) in *.
  destruct (valid_header h (size (vn v1 n))) eqn:Evalid; cbn [negb]; [|eexists false, _, _; split; [done|]; by apply load_failed].
  destruct (header_in_fields (mem s) (vn v1 n)) as [Hf1 Hf2]. pose proof (valid_table h (vn v1 n) Evalid Hf1 Hf2) as Ht.
  assert (pt_rep whole s kr NK) as HK2.
  { apply (pt_rep_same whole (kern v1) s kr NK); [|done]. intros p Hp a Ha. apply Hol.
    apply (lc_table _ _ _ _ _ _ _ _ _ Hloc p); [by apply HNK|done]. }
  assert (same_arguments arguments (mem (kern v1)) (mem s)) as Hsa.
  { intros a Ha. apply Hol. by destruct (lc_arguments _ _ _ _ _ _ _ _ _ Hloc a Ha) as (_ & ? & _). }
  destruct (init_beside U O lo hi Hspan (set_kern s v1) ({[f]} ∪ L) kr NK Hv2 HK2) as (ok & as_ & s3 & E3 & Hk3 & Hnil & Hres);
    [intros p Hp; by apply HNK|]. cbn [kern set_kern] in E3, Hk3. rewrite E3.
  change (set_kern s3 (set_kern s v1)) with (set_kern s3 v1) in *.
  assert (same_on spared (mem (kern v1)) (mem s3)) as Hsp3 by (eapply spared_trans; [exact Hsp|exact (spared_kept v1 _ _ Hk3)]).
  pose proof (opened_for_kern _ _ _ _ _ s3 Ho Hsp3) as Ho3.
  destruct ok; cbn [negb]; [|eexists false, _, _; split; [done|]; by apply load_failed].
  pose proof (be_rest _ _ _ _ _ _ _ Hres) as Hr3. set (v3 := set_kern s3 v1) in *.
  assert (same_bytes (vn v1 n) (mem s) (mem s3)) as Hsb3.
  { intros i Hi. apply (file_byte_kept U O lo hi Harch ({[f]} ∪ L) v3 n); [exact Hr3|exact Hn1|exact Hi|exact Hk3]. }
  assert (same_arguments arguments (mem s) (mem s3)) as Hsa3.
  { intros a Ha. apply Hk3, region_blocks. by destruct (lc_arguments _ _ _ _ _ _ _ _ _ Hloc a Ha). }
  destruct (arguments_same _ _ _ Hsa Hargs) as (_ & _ & Hargs2). destruct (arguments_same _ _ _ Hsa3 Hargs2) as (_ & _ & Hargs3).
  destruct (load_image_spec ({[f]} ∪ L) v3 (set_image_as as_ no_image) f n h Hres Hnil (Hread s3) Hn1 Ht Hargs3)
    as (ok & image & s4 & E4 & Hb4 & Hsb4 & Hsp4' & Hok4). change (vn v3 n) with (vn v1 n) in *. rewrite E4.
  change (set_kern s4 v3) with (set_kern s4 v1) in *. pose proof (spared_trans _ _ _ Hsp3 Hsp4') as Hsp4. pose proof (opened_for_kern _ _ _ _ _ s4 Ho Hsp4) as Ho4.
  assert (same_arguments arguments (mem s3) (mem s4)) as Hsa4 by (intros a Ha; by apply Hsp4', (lc_arguments _ _ _ _ _ _ _ _ _ Hloc)).
  destruct (arguments_same _ _ _ Hsa4 Hargs3) as (_ & _ & Hargs4).
  destruct ok.
  - destruct (beside_put U O lo hi Harch L (set_kern s4 v1) (image_as image) f n Hspan Hb4 HfL (of_sole _ _ _ _ _ Ho4)) as (C1 & C2 & C3 & C4 & [C6 C7] & C5).
    eexists true, _, _. split; [reflexivity|]. split; [by rewrite C2|]. split; [by rewrite C3|].
    split; [rewrite C4; apply (of_files _ _ _ _ _ Ho)|].
    split. { split; [rewrite C6, C7; apply (of_rest _ _ _ _ _ Ho)|]. eapply spared_trans; [exact (of_spared _ _ _ _ _ Ho4)|].
      apply (spared_kept (set_kern s4 v1)). eapply kept_sub; [|exact C5]. intros x Hx. apply elem_of_app. by right. }
    split; [exact C1|].
    apply (image_view (set_kern s4 v1) _ ({[f]} ∪ L) L image n h); try assumption; [|by apply Hok4].
    transitivity (header_in (mem s3) (vn v1 n)); symmetry; by apply header_in_same.
  - destruct (beside_destroy U O lo hi (set_kern s4 v1) _ _ Hb4) as (as5 & s5 & E5 & Hv5 & Hk5). rewrite E5.
    eexists false, _, _. split; [reflexivity|]. apply load_failed; [|exact Hv5].
    apply opened_for_kern; [done|]. exact (spared_kept (set_kern s4 v1) _ _ Hk5).
Qed.

Lemma elf_load_spec v L process root cwd path kr NK :
  vfs_ok U O lo hi v L → default (vfs_root v, vfs_root v) process = (root, cwd) → is_node v root → within v root cwd →
  pt_rep whole (kern v) kr NK → (∀ p, p ∈ map_vals NK → p ∈ O ∧ p ∈ K) → arguments_ok (mem (kern v)) arguments →
  ∃ ok image v', elf_load header_at program_at words_at (Some (mk_page_table kr)) process path arguments v = Some (ok, image, v') ∧
    ∃ n, load_outcome v v' L n ok image ∧ (ok = true → vfs_resolve v root cwd path false = Some (inr n)).
Proof.
  intros Hv Eproc Hr Hw HK HNK Hargs. unfold elf_load. rewrite Eproc.
  destruct (open_read_spec U O lo hi Hspan v L root cwd path Hv Hr Hw) as (e & f & v1 & -> & Hopen).
  destruct Hopen as [(-> & (s & ->) & Hv1 & Hks)|(n & Hres & Hn & [[Hf0 HfL] Hv1 Ef (En & Enn & Emp) Hk1])].
  { eexists false, _, _. split; [done|]. exists 0. split; [|done]. do 3 (split; [done|]). split; [|done]. split; [done|].
    exact (spared_kept v _ _ Hks). }
  rewrite (proj2 (Z.eqb_neq _ _) Hf0).
  assert (files v !! f = None) as Hnone.
  { apply eq_None_not_Some. intros Hs. apply HfL. destruct (vk_store _ _ _ _ _ _ Hv) as (F & P & Hst). by apply (so_files _ _ _ _ _ _ _ _ Hst). }
  destruct (load_file_spec v v1 L f n kr NK) as (ok & image & v' & E & Hout); [|done| |done| |].
  - split; [done| |rewrite Ef; by apply delete_insert_id|done|unfold is_node; by rewrite En|done|exact (spared_kept v _ _ Hk1)].
    eexists. rewrite Ef, lookup_insert_eq. split; [done|]. by case_if.
  - apply (pt_rep_same whole (kern v) (kern v1) kr NK); [|done]. intros p Hp a Ha. apply Hk1. left. exists p.
    split; [|done]. apply elem_of_app. right. by apply HNK.
  - apply (arguments_same (mem (kern v))); [|done]. intros a Ha. apply Hk1, region_blocks.
    by destruct (lc_arguments _ _ _ _ _ _ _ _ _ Hloc a Ha).
  - exists ok, image, v'. split; [done|]. exists n. by split.
Qed.
End Load.

(** * The theorem *)

Section Theorems.
Context `{HeapContract} `{Backends}.

(** C18. [elf_load] always returns.  On success the path names a valid RISC-V
    executable and the new address space, well formed and beside an unchanged file
    system, is its image: every loadable segment holds the bytes of the file and
    zeros after them, with the rights it asks for and never writable and executable at
    once, below the guard page; the entry point lies in an executable segment; the
    stack is mapped above an unmapped page and carries, at a 16-byte aligned pointer,
    the argument count, the two vectors of addresses ending in zeros, and the strings
    they point to.  On failure, at whatever point, every page, object and open file is
    given back.  Memory that belongs to others is never written. *)
Theorem elf_load_correct (U O : list Z) (lo hi header_at program_at words_at arguments : Z) (v : vfs) (L : gset Z)
    (process : option (Z * Z)) (root cwd : Z) (path : list Z) (kr : Z) (NK : gmap (list Z) Z) :
  hi - lo < 2 ^ 62 → (∀ a, lo <= a < hi → region U O a) →
  locals_ok U O lo hi header_at program_at words_at arguments (map_vals NK) →
  vfs_ok U O lo hi v L → default (vfs_root v, vfs_root v) process = (root, cwd) → is_node v root → within v root cwd →
  pt_rep whole (kern v) kr NK → (∀ p, p ∈ map_vals NK → p ∈ O) → arguments_ok (mem (kern v)) arguments →
  ∃ ok image v', elf_load header_at program_at words_at (Some (mk_page_table kr)) process path arguments v = Some (ok, image, v') ∧
    vnodes v' = vnodes v ∧ nodes v' = nodes v ∧ files v' = files v ∧
    same_on (spared U O header_at program_at words_at) (mem (kern v)) (mem (kern v')) ∧
    if ok
    then space U (block_pages v' ++ O) L (kern v') (image_as image) ∧ as_wf (image_as image) ∧
      ∃ n, vfs_resolve v root cwd path false = Some (inr n) ∧ image_ok (kern v') (vn v' n) arguments image
    else vfs_ok U O lo hi v' L.
Proof.
  intros Hspan Harch Hloc Hv Hp Hr Hw HK HNK Hargs.
  destruct (elf_load_spec U O lo hi Hspan Harch header_at program_at words_at arguments (map_vals NK) Hloc
    v L process root cwd path kr NK Hv Hp Hr Hw HK) as (ok & image & v' & E & n & (E1 & E2 & E3 & [_ Hsp] & Hout) & Hn); [auto|done|].
  exists ok, image, v'. do 5 (split; [done|]).
  destruct ok; [|done]. destruct Hout as [[B1 B2 B3] Hi]. split; [done|]. split; [done|]. exists n. split; [by apply Hn|done].
Qed.
End Theorems.

(** * A program *)

Module ElfDemo.
#[local] Existing Instance bench_heap.
#[local] Existing Instance bench_contract.
#[local] Existing Instance VfsDemo.quiet.

Definition le (n : nat) (x : Z) : list Z := (λ i, Z.shiftr x (8 * Z.of_nat i) mod 256) <$> seq 0 n.

(** One segment, readable and executable: eight bytes from the file and eight zeros. *)
Definition program : list Z :=
  [127; 69; 76; 70; 2; 1; 1] ++ repeat 0 9 ++ le 2 2 ++ le 2 243 ++ le 4 1 ++ le 8 65656 ++ le 8 64 ++ le 8 0 ++ le 4 0 ++
  le 2 64 ++ le 2 56 ++ le 2 1 ++ le 2 0 ++ le 2 0 ++ le 2 0 ++
  le 4 1 ++ le 4 5 ++ le 8 120 ++ le 8 65656 ++ le 8 65656 ++ le 8 8 ++ le 8 16 ++ le 8 4096 ++
  [1; 2; 3; 4; 5; 6; 7; 8].
Definition archive : list Z := VfsDemo.entry 33188 (chars "init") program ++ VfsDemo.entry 0 (chars "TRAILER!!!") [].
Definition arguments : list Z :=
  le 8 1 ++ le 8 1 ++ chars "/init" ++ repeat 0 507 ++ chars "BOOT=init".

Definition archive_at : Z := 1048576.
Definition archive_size : Z := Z.of_nat (length archive).
Definition args_at : Z := 2097152.
Definition header_at : Z := 3145728.
Definition program_at : Z := 3145856.
Definition words_at : Z := 3145984.
Definition loaded : kstate :=
  set_mem (VfsDemo.write_bytes (VfsDemo.write_bytes (mem AsDemo.machine) archive_at archive) args_at arguments) AsDemo.machine.
Definition start : vfs := mk_vfs loaded [] ∅ (repeat no_mount 3) 0 0 ∅ ∅ [].
Definition fs : vfs := match vfs_init archive_at archive_size start with Done (_, v) => v | _ => start end.

Example program_boots : match vfs_init archive_at archive_size start with Done (ok, _) => ok | _ => false end = true.
Proof. vm_compute. reflexivity. Qed.

Example load_result :
  match elf_load header_at program_at words_at (Some (mk_page_table AsDemo.kroot)) None (chars "/init") args_at fs with
  | Some (ok, image, _) => (ok, image_entry image, stack_pointer image)
  | None => (false, 0, 0)
  end = (true, 65656, 4194240).
Proof. vm_compute. reflexivity. Qed.

Lemma archive_small : archive_size < 65536.
Proof. vm_compute. reflexivity. Qed.
Lemma arguments_small : Z.of_nat (length arguments) < 65536.
Proof. vm_compute. reflexivity. Qed.
Lemma low_archive a : archive_at <= a < archive_at + archive_size → region ram [AsDemo.kroot] a.
Proof. intros Ha. apply VfsDemo.low_region. pose proof archive_small. unfold archive_at in Ha. lia. Qed.

Lemma loaded_frame b : 2 ^ 31 <= b → load8 (mem loaded) b = load8 (mem AsDemo.machine) b.
Proof.
  intros Hb. unfold loaded. cbn [set_mem mem]. pose proof archive_small. pose proof arguments_small.
  rewrite !VfsDemo.write_bytes_frame; [done| |]; unfold archive_size, args_at, archive_at in *; lia.
Qed.

Lemma poke_low s m F P L Q a l :
  bare ram (set_mem m s) F P L Q → 65536 <= a → a + Z.of_nat (length l) <= 2 ^ 32 →
  bare ram (set_mem (VfsDemo.write_bytes m a l) s) F P L Q.
Proof.
  intros Hb H1 H2.
  apply (VfsDemo.poke_bare ram (set_mem m s) (VfsDemo.write_bytes m a l) F P L Q a (Z.of_nat (length l)) Hb).
  - intros b Hb'. apply VfsDemo.low_region. lia.
  - intros b Hb'. apply VfsDemo.write_bytes_frame. exact Hb'.
Qed.

Lemma set_mem_id s : set_mem (mem s) s = s.
Proof. by destruct s. Qed.

Lemma program_loaded_bare : bare ram loaded (tail ram) [] ∅ [AsDemo.kroot].
Proof.
  pose proof archive_small as H1. pose proof arguments_small as H2. unfold archive_size in H1.
  unfold loaded. generalize archive arguments H1 H2. intros l l' H3 H4. apply poke_low; [|unfold args_at; lia|unfold args_at; lia].
  apply poke_low; [|unfold archive_at; lia|unfold archive_at; lia]. rewrite set_mem_id. exact AsDemo.machine_bare.
Qed.

Lemma program_start_empty : vfs_empty start.
Proof. split; [reflexivity|]. split; [reflexivity|]. by intros [|[|[|[|i]]]]. Qed.

Lemma program_fs_ok : vfs_ok ram [AsDemo.kroot] archive_at (archive_at + archive_size) fs (list_to_set (nodes fs) ∪ ∅) ∧
  is_node fs (vfs_root fs) ∧ kept ram [AsDemo.kroot] (mem loaded) (mem (kern fs)).
Proof.
  pose proof (vfs_init_spec ram [AsDemo.kroot] archive_at archive_size ∅ (mem loaded) eq_refl ltac:(pose proof archive_small; lia) start (tail ram) []
    program_start_empty eq_refl program_loaded_bare (conj eq_refl eq_refl) eq_refl) as Hw.
  pose proof program_boots as Hb. unfold fs. destruct (vfs_init archive_at archive_size start) as [[ok v]| |]; [|done|done].
  rewrite Hb in Hw. destruct Hw as (Ho & Hbu & _). split; [exact (vfs_ok_built _ _ _ _ _ _ _ Ho Hbu)|].
  split; [apply (bu_root 3 v Hbu)|]. destruct Ho as (_ & _ & Hk & _). exact Hk.
Qed.

(** The kernel's page table is where it was. *)
Lemma fs_table : pt_rep whole (kern fs) AsDemo.kroot {[ [] := AsDemo.kroot ]}.
Proof.
  apply (pt_rep_same whole AsDemo.machine (kern fs) AsDemo.kroot); [|exact (vi_pt _ _ _ _ _ (proj1 AsDemo.machine_table))].
  intros p Hp a Ha. rewrite map_vals_root in Hp. apply list_elem_of_singleton in Hp as ->.
  assert (2 ^ 31 <= phys_to_virt AsDemo.kroot) as Hlow by (vm_compute; discriminate).
  rewrite <- loaded_frame by (unfold in_page in Ha; lia).
  apply (proj2 (proj2 program_fs_ok)). left. exists AsDemo.kroot. split; [by left|exact Ha].
Qed.

Lemma fs_arguments : arguments_ok (mem (kern fs)) args_at.
Proof.
  assert (argc (mem (kern fs)) args_at = 1) as E1 by (vm_compute; reflexivity).
  assert (envc (mem (kern fs)) args_at = 1) as E2 by (vm_compute; reflexivity).
  split; [rewrite E1; discriminate|rewrite E2; discriminate|rewrite E1|rewrite E2]; intros i Hi; assert (i = 0) as -> by lia;
    vm_compute; discriminate.
Qed.

Lemma fs_locals : locals_ok ram [AsDemo.kroot] archive_at (archive_at + archive_size) header_at program_at words_at args_at
  (map_vals ({[ [] := AsDemo.kroot ]} : gmap (list Z) Z)).
Proof.
  pose proof archive_small as Hs. split.
  1-2: intros a Ha; (split; [apply VfsDemo.low_region|]); unfold archive_at, header_at, program_at in *; lia.
  - split; [reflexivity|]. intros a Ha; (split; [apply VfsDemo.low_region|]); unfold archive_at, words_at in *; lia.
  - intros p a Hp Ha. rewrite map_vals_root in Hp. apply list_elem_of_singleton in Hp as ->.
    assert (2 ^ 31 <= phys_to_virt AsDemo.kroot) as Hlow by (vm_compute; discriminate).
    unfold in_page in Ha. unfold header_at. lia.
  - reflexivity.
  - intros a Ha. split; [apply VfsDemo.low_region|]; unfold args_at, header_at, program_at, words_at in *; lia.
Qed.

(** [/init] is loaded with its argument and its environment. *)
Lemma elf_load_correct_witness :
  ∃ image v', elf_load header_at program_at words_at (Some (mk_page_table AsDemo.kroot)) None (chars "/init") args_at fs =
      Some (true, image, v') ∧ as_wf (image_as image) ∧
    ∃ n, vfs_resolve fs (vfs_root fs) (vfs_root fs) (chars "/init") false = Some (inr n) ∧ image_ok (kern v') (vn v' n) args_at image.
Proof.
  destruct program_fs_ok as (Hv & Hr & _).
  destruct (elf_load_correct ram [AsDemo.kroot] archive_at (archive_at + archive_size) header_at program_at words_at args_at fs
    (list_to_set (nodes fs) ∪ ∅) None (vfs_root fs) (vfs_root fs) (chars "/init") AsDemo.kroot {[ [] := AsDemo.kroot ]})
    as (ok & image & v' & E & _ & _ & _ & _ & Hout).
  - pose proof archive_small. lia.
  - exact low_archive.
  - exact fs_locals.
  - exact Hv.
  - reflexivity.
  - exact Hr.
  - apply within_root.
  - exact fs_table.
  - intros p Hp. rewrite map_vals_root in Hp. exact Hp.
  - exact fs_arguments.
  - assert (ok = true) as Eok.
    { pose proof load_result as Hl. rewrite E in Hl. injection Hl as Hok _ _. exact Hok. }
    rewrite Eok in E, Hout. exists image, v'. split; [exact E|]. destruct Hout as (_ & Hw & Hn). split; [exact Hw|exact Hn].
Defined.
End ElfDemo.
