(* ===== verification/World.v ===== *)
(** Several address spaces beside one file system: who owns which pages and objects,
    how one of them changes without touching the others, and how they come and go. *)
From S2P Require Import Prelude Machine Runtime PageAlloc Vm VmInv VmProps HeapSpec Ownership AddressSpace AddressSpaceInv AddressSpaceProps AddressSpaceClone AddressSpaceAreas AddressSpaceMaps AddressSpaceCopy.
From S2P Require Import Outcome Pipe Vfs VfsInit VfsTree VfsInv VfsFiles VfsOpen VfsPipe ElfInv.

(** * One address space, whoever the others are *)

Definition as_pages (as_ : address_space) (N : gmap (list Z) Z) : list Z := map_vals N ++ (physical <$> pages as_).

Lemma cancel_middle (F P X O F' P' R U : list Z) :
  F ++ P ++ X ++ O ≡ₚ U → F' ++ P' ++ X ++ R ≡ₚ U → F' ++ P' ++ R ≡ₚ F ++ P ++ O.
Proof.
  intros H1 H2. rewrite <- H2 in H1. apply (Permutation_app_inv_l X).
  assert (∀ a b c : list Z, X ++ a ++ b ++ c ≡ₚ a ++ b ++ X ++ c) as Hmv.
  { intros a b c. rewrite !(Permutation_app_swap_app X). done. }
  by rewrite !Hmv, H1.
Qed.

Section Alive.
Context `{HeapContract}.

Definition alive (U : list Z) (s : kstate) (as_ : address_space) (N : gmap (list Z) Z) : Prop :=
  ∃ O F P L, as_inv U O s as_ N F P L.

(** Its invariant beside any others, in any state in which its page tables are what
    they were. *)
Lemma alive_inv U s s' as_ N F P L R :
  alive U s as_ N → bare U s' F P L (as_pages as_ N ++ R) →
  (∀ p, p ∈ map_vals N → same_on (in_page p) (mem s) (mem s')) → records as_ ⊆ L →
  as_inv U R s' as_ N F P L.
Proof.
  intros (O0 & F0 & P0 & L0 & Hi) [B1 B2 B3] Hm HL. apply (as_inv_intro U O0 s s' as_ N F0 P0 L0); try done.
  - pose proof (ai_pages _ _ _ _ _ _ _ _ Hi) as HU. rewrite (app_assoc (map_vals N)) in HU.
    by apply (cancel_middle F0 P0 (as_pages as_ N) O0 F P R U).
  - intros o Ho _. apply HL. unfold records. by apply elem_of_list_to_set.
Qed.
End Alive.

(** The bytes of the pages [Q] are the same. *)
Definition pages_same (Q : list Z) (m m' : memory) : Prop := ∀ p, p ∈ Q → same_on (in_page p) m m'.

Lemma pages_same_kept `{HeapContract} U Q Q' m m' : kept U Q m m' → (∀ p, p ∈ Q' → p ∈ Q) → pages_same Q' m m'.
Proof. intros Hk HQ p Hp a Ha. apply Hk. left. exists p. auto. Qed.

(** * Several of them *)

Definition member : Type := address_space * gmap (list Z) Z.

Definition member_pages (x : member) : list Z := as_pages (fst x) (snd x).
Definition member_records (x : member) : list Z := (page_at <$> pages (fst x)) ++ (area_at <$> areas (fst x)).
Definition all_pages (X : list member) : list Z := X ≫= member_pages.
Definition all_records (X : list member) : list Z := X ≫= member_records.
Definition owned_records (X : list member) : gset Z := list_to_set (all_records X).

Lemma all_pages_cons x X : all_pages (x :: X) = member_pages x ++ all_pages X.
Proof. done. Qed.
Lemma owned_records_cons x X : owned_records (x :: X) = records (fst x) ∪ owned_records X.
Proof. unfold owned_records, all_records, records, member_records. cbn. apply list_to_set_app_L. Qed.

#[export] Instance all_pages_perm : Proper (Permutation ==> Permutation) all_pages.
Proof. intros X Y HX. unfold all_pages. by rewrite HX. Qed.
#[export] Instance all_records_perm : Proper (Permutation ==> Permutation) all_records.
Proof. intros X Y HX. unfold all_records. by rewrite HX. Qed.

Lemma member_split (x : member) (X : list member) : x ∈ X → ∃ Y, X ≡ₚ x :: Y.
Proof. apply elem_of_Permutation. Qed.

Section World.
Context `{HeapContract} `{Backends}.
Context (U O : list Z) (lo hi : Z).

(** Everything but the division of the pages. *)
Record context (v : vfs) (B : gset Z) (l : list Z) (X : list member) : Prop := {
  cx_rest : vfs_rest lo hi v (vfs_objects v);
  cx_pipes : pipes_ok v;
  cx_refs : refs_ok v l;
  cx_objects : vfs_objects v ## owned_records X ∪ B;
  cx_records : NoDup (all_records X);
  cx_apart : owned_records X ## B;
  cx_alive : ∀ a N, (a, N) ∈ X → as_wf a ∧ alive U (kern v) a N;
}.

(** The pages and the objects of the members [X], the file system and the others. *)
Definition world_pages (v : vfs) (X : list member) : list Z := block_pages v ++ all_pages X ++ O.
Definition world_objects (v : vfs) (B : gset Z) (X : list member) : gset Z := vfs_objects v ∪ (owned_records X ∪ B).

Record world (v : vfs) (B : gset Z) (l : list Z) (X : list member) : Prop := {
  wo_context : context v B l X;
  wo_bare : ∃ F P, bare U (kern v) F P (world_objects v B X) (world_pages v X);
}.

Lemma owned_records_perm X Y : X ≡ₚ Y → owned_records X = owned_records Y.
Proof.
  intros HX. apply set_eq. intros a. unfold owned_records. by rewrite !elem_of_list_to_set, (all_records_perm _ _ HX).
Qed.

Lemma world_perm v B l X Y : X ≡ₚ Y → world v B l X → world v B l Y.
Proof.
  intros HX [[C1 C2 C3 C4 C5 C6 C7] (F & P & Hb)]. pose proof (owned_records_perm X Y HX) as ER. split.
  - split; try done; [by rewrite <- ER|by rewrite <- HX|by rewrite <- ER|]. intros a N Ha. apply C7. by rewrite HX.
  - exists F, P. unfold world_objects, world_pages in *. rewrite <- ER. eapply bare_perm; [|exact Hb]. by rewrite HX.
Qed.

Lemma context_tail v B l x X : context v B l (x :: X) → context v B l X.
Proof.
  intros [C1 C2 C3 C4 C5 C6 C7]. rewrite owned_records_cons in C4, C6. split; try done.
  - clear -C4. set_solver.
  - unfold all_records in *. cbn in C5. by apply NoDup_app in C5 as (_ & _ & ?).
  - clear -C6. set_solver.
  - intros a N Ha. apply C7. by right.
Qed.

(** ** The file system *)

Lemma holding_rest Q v B l :
  holding U Q lo hi v B l ↔ (vfs_rest lo hi v (vfs_objects v) ∧ pipes_ok v ∧ refs_ok v l ∧ vfs_objects v ## B) ∧
    ∃ F P, bare U (kern v) F P (vfs_objects v ∪ B) (block_pages v ++ Q).
Proof.
  split.
  - intros [A1 A2 A3 A4]. apply vfs_ok_rest in A1 as [Hb [R1 R2 R3 R4 R5 R6 R7 R8 R9]]. split; [|done]. split; [|done].
    split; try done.
    + intros n Hn. apply R2 in Hn. unfold vfs_objects. rewrite !elem_of_union, elem_of_list_to_set. auto.
    + intros f Hf. split; [|by apply R4]. unfold vfs_objects. apply elem_of_dom in Hf. rewrite !elem_of_union. auto.
  - intros [(C1 & C2 & C3 & C4) Hb]. split; try done. apply vfs_ok_rest. split; [done|].
    eapply vfs_rest_mono; [|exact C1]. apply union_subseteq_l.
Qed.

Lemma world_holding v B l X : world v B l X → holding U (all_pages X ++ O) lo hi v (owned_records X ∪ B) l.
Proof. intros [[C1 C2 C3 C4 C5 C6 C7] Hb]. by apply holding_rest. Qed.

(** The members are what they were in a state that keeps their pages. *)
Lemma alive_kept v s F P L R B l X :
  context v B l X → bare U s F P L R → (∃ Q, R ≡ₚ all_pages X ++ Q) → owned_records X ⊆ L →
  pages_same (all_pages X) (mem (kern v)) (mem s) → ∀ a N, (a, N) ∈ X → as_wf a ∧ alive U s a N.
Proof.
  intros Hc Hb [Q HR] HL Hk a N Ha. destruct (cx_alive _ _ _ _ Hc a N Ha) as [Hw Hal]. split; [done|].
  destruct (member_split _ _ Ha) as [Y HY].
  exists (all_pages Y ++ Q), F, P, L. apply (alive_inv U (kern v) s a N F P L _ Hal).
  - eapply bare_perm; [|exact Hb]. by rewrite HR, HY, all_pages_cons, <- app_assoc.
  - intros p Hp. apply Hk. rewrite HY, all_pages_cons, elem_of_app. left.
    unfold member_pages, as_pages. rewrite elem_of_app. by left.
  - rewrite <- HL, (owned_records_perm _ _ HY), owned_records_cons. clear. set_solver.
Qed.

(** A step of the file system. *)
Lemma world_vfs v B l X v' l' :
  world v B l X → holding U (all_pages X ++ O) lo hi v' (owned_records X ∪ B) l' →
  pages_same (all_pages X) (mem (kern v)) (mem (kern v')) → world v' B l' X.
Proof.
  intros [Hc _] Hh Hk. apply holding_rest in Hh as [(C1 & C2 & C3 & C4) (F & P & Hb)].
  split; [|by exists F, P]. pose proof Hc as [_ _ _ _ D1 D2 _]. split; try done.
  apply (alive_kept v (kern v') F P _ _ B l X Hc Hb).
  - exists (block_pages v' ++ O). by rewrite !app_assoc, (Permutation_app_comm (block_pages v')).
  - clear. set_solver.
  - done.
Qed.

(** ** One of the address spaces *)

Lemma world_space v B l a N X :
  world v B l ((a, N) :: X) →
  space U (world_pages v X) (world_objects v B X) (kern v) a ∧ as_wf a ∧
  ∃ F P, as_inv U (world_pages v X) (kern v) a N F P (records a ∪ world_objects v B X).
Proof.
  intros [Hc (F & P & Hb)]. destruct (cx_alive _ _ _ _ Hc a N ltac:(by left)) as [Hw Hal].
  assert (world_objects v B ((a, N) :: X) = records a ∪ world_objects v B X) as EL.
  { unfold world_objects. rewrite owned_records_cons. clear. set_solver. }
  assert (as_inv U (world_pages v X) (kern v) a N F P (records a ∪ world_objects v B X)) as Hi.
  { apply (alive_inv U (kern v) (kern v) a N F P _ _ Hal); [|done|clear; set_solver].
    rewrite <- EL. eapply bare_perm; [|exact Hb]. unfold world_pages. rewrite all_pages_cons.
    rewrite <- !app_assoc. apply Permutation_app_swap_app. }
  split; [|by split; [|exists F, P]]. split; [by exists N, F, P|].
  pose proof (cx_objects _ _ _ _ Hc) as D1. pose proof (cx_apart _ _ _ _ Hc) as D2. pose proof (cx_records _ _ _ _ Hc) as D3.
  unfold all_records in D3. cbn in D3. apply NoDup_app in D3 as (_ & D3 & _).
  rewrite owned_records_cons in D1, D2. intros o Ho Hw'. unfold world_objects in Hw'.
  apply elem_of_union in Hw' as [Hv|[Hr|HB]%elem_of_union]; [set_solver| |set_solver].
  apply elem_of_list_to_set in Ho, Hr. by apply (D3 o).
Qed.

(** A new member, or an old one changed, beside all the others. *)
Lemma world_add v B l X s a :
  context v B l X → space U (world_pages v X) (world_objects v B X) s a → as_wf a →
  pages_same (all_pages X) (mem (kern v)) (mem s) → ∃ N, world (set_kern s v) B l ((a, N) :: X).
Proof.
  intros Hc [(N & F & P & Hi) Hd] Hw Hk. exists N. pose proof Hc as [C1 C2 C3 C4 C5 C6 C7].
  pose proof (bare_of_as _ _ _ _ _ _ _ _ Hi) as Hb. unfold world_objects in Hd, Hi, Hb.
  split.
  - split.
    + by apply vfs_rest_kern.
    + by destruct C2; split.
    + by destruct C3; split.
    + rewrite owned_records_cons. change (vfs_objects (set_kern s v)) with (vfs_objects v). clear -C4 Hd. set_solver.
    + unfold all_records. cbn. apply NoDup_app. split; [apply Hi|]. split; [|done]. intros o Ho Ho'.
      apply (Hd o); [by apply elem_of_list_to_set|]. rewrite !elem_of_union. right. left. by apply elem_of_list_to_set.
    + rewrite owned_records_cons. clear -C6 Hd. set_solver.
    + intros b M [E|Hin]%elem_of_cons.
      * injection E as -> ->. split; [done|]. by eexists _, _, _, _.
      * apply (alive_kept v s F P _ _ B l X Hc Hb); [| |done|done].
        -- exists (map_vals N ++ (physical <$> pages a) ++ block_pages v ++ O). unfold owned, world_pages.
           rewrite !app_assoc, (Permutation_app_comm _ (all_pages X)). by rewrite !app_assoc.
        -- clear. set_solver.
  - exists F, P. unfold world_objects, world_pages. rewrite owned_records_cons. cbn [fst].
    change (vfs_objects (set_kern s v)) with (vfs_objects v). change (block_pages (set_kern s v)) with (block_pages v).
    replace (vfs_objects v ∪ (records a ∪ owned_records X ∪ B)) with (records a ∪ (vfs_objects v ∪ (owned_records X ∪ B)))
      by (clear; set_solver).
    eapply bare_perm; [|exact Hb]. rewrite all_pages_cons. unfold owned, world_pages, member_pages, as_pages. cbn [fst snd].
    rewrite <- !app_assoc. rewrite (Permutation_app_swap_app (physical <$> pages a) (block_pages v)).
    apply Permutation_app_swap_app.
Qed.

(** A member gone, or anything else that leaves the others. *)
Lemma world_drop v B l X s :
  context v B l X → (∃ F P, bare U s F P (world_objects v B X) (world_pages v X)) →
  pages_same (all_pages X) (mem (kern v)) (mem s) → world (set_kern s v) B l X.
Proof.
  intros Hc (F & P & Hb) Hk. pose proof Hc as [C1 C2 C3 C4 C5 C6 C7]. split; [|by exists F, P]. split; try done.
  - by apply vfs_rest_kern.
  - by destruct C2; split.
  - by destruct C3; split.
  - apply (alive_kept v s F P _ _ B l X Hc Hb).
    + exists (block_pages v ++ O). unfold world_pages. by rewrite !app_assoc, (Permutation_app_comm (block_pages v)).
    + unfold world_objects. clear. set_solver.
    + done.
Qed.

(** ** Local variables *)

(** What is nobody's is in no page of the members. *)
Lemma region_foreign v B l X a p : world v B l X → region U O a → p ∈ block_pages v ++ all_pages X → ¬ in_page p a.
Proof.
  intros [_ (F & P & Hb)] Hr Hp Hpa. apply elem_of_Permutation in Hp as [rest Hrest].
  assert (bare U (kern v) F P (world_objects v B X) (p :: rest ++ O)) as Hb'.
  { eapply bare_perm; [|exact Hb]. unfold world_pages. by rewrite app_assoc, Hrest. }
  apply (bare_region_page _ _ _ _ _ _ _ a Hb' Hpa). destruct Hr as [(q & Hq & Hqa)|Hr]; [left|by right].
  exists q. rewrite elem_of_app. auto.
Qed.

Lemma world_local v B l X m' :
  world v B l X → (∀ a, load8 m' a ≠ load8 (mem (kern v)) a → region U O a) →
  world (set_kern (set_mem m' (kern v)) v) B l X.
Proof.
  intros Hw Hm. pose proof Hw as [Hc (F & P & Hb)].
  assert (∀ a, ¬ region U O a → load8 m' a = load8 (mem (kern v)) a) as Hsame.
  { intros a Ha. destruct (decide (load8 m' a = load8 (mem (kern v)) a)) as [|Hne]; [done|]. by destruct (Ha (Hm a Hne)). }
  apply (world_drop v B l X); [done| |].
  - exists F, P. apply (bare_frame U (kern v)); try done. intros a Ha. apply Hsame. intros Hr.
    assert (region U (world_pages v X) a) as Hr'.
    { destruct Hr as [(q & Hq & Hqa)|Hr]; [left; exists q; unfold world_pages; rewrite !elem_of_app; auto|by right]. }
    destruct (bare_region _ _ _ _ _ _ a Hb Hr') as [Ho Hst]. destruct Ha as [|(q & Hq & Hqa)]; [done|by apply (Ho q)].
  - intros p Hp a Ha. apply Hsame. intros Hr. apply (region_foreign v B l X a p Hw Hr); [|done]. apply elem_of_app. by right.
Qed.
End World.

(** * A running program *)

Section Running.
Context `{HeapContract} `{Backends}.
Context (U O : list Z) (lo hi : Z).

(** The address space [a] of a program that runs beside the members [X]. *)
Definition running (v : vfs) (B : gset Z) (l : list Z) (a : address_space) (X : list member) : Prop :=
  ∃ N, world U O lo hi v B l ((a, N) :: X).

Lemma running_vfs v B l a X v' l' :
  running v B l a X → (∀ Q B', holding U (Q ++ O) lo hi v B' l →
    holding U (Q ++ O) lo hi v' B' l' ∧ kept U (Q ++ O) (mem (kern v)) (mem (kern v'))) →
  running v' B l' a X.
Proof.
  intros [N Hw] Hstep. destruct (Hstep _ _ (world_holding U O lo hi v B l _ Hw)) as [Hh Hk]. exists N.
  apply (world_vfs U O lo hi v B l _ v' l' Hw Hh). eapply pages_same_kept; [exact Hk|]. intros p Hp. apply elem_of_app. by left.
Qed.

Lemma region_world v X a : region U O a → region U (world_pages O v X) a.
Proof.
  intros [(q & Hq & Ha)|Ha]; [left|by right]. exists q. unfold world_pages. rewrite !elem_of_app. auto.
Qed.

(** A change of the address space that leaves all the others. *)
Lemma running_as v B l a X s a' :
  running v B l a X →
  (∀ Q B', space U (Q ++ O) B' (kern v) a → space U (Q ++ O) B' s a' ∧ as_wf a' ∧ pages_same Q (mem (kern v)) (mem s)) →
  running (set_kern s v) B l a' X.
Proof.
  intros [N Hw] Hstep. destruct (world_space U O lo hi v B l a N X Hw) as (Hs & _ & _).
  unfold world_pages in Hs. rewrite app_assoc in Hs. destruct (Hstep _ _ Hs) as (Hs' & Hw' & Hp).
  rewrite <- app_assoc in Hs'. destruct (world_add U O lo hi v B l X s a') as [N' Hw1]; try done.
  - eapply context_tail, Hw.
  - intros p Hin. apply Hp. rewrite elem_of_app. by right.
  - by exists N'.
Qed.

Lemma running_wf v B l a X : running v B l a X → as_wf a.
Proof. intros [N Hw]. by destruct (world_space U O lo hi v B l a N X Hw) as (_ & ? & _). Qed.

(** Local variables change. *)
Lemma running_local v B l a X m' :
  running v B l a X → (∀ b, load8 m' b ≠ load8 (mem (kern v)) b → region U O b) →
  running (set_kern (set_mem m' (kern v)) v) B l a X.
Proof. intros [N Hw] Hm. exists N. by apply world_local. Qed.

(** Copies between the program's memory and a buffer of the kernel. *)
Lemma running_copy_in v B l a X buffer address size_ :
  running v B l a X → buffer ≠ 0 → 0 <= address → 0 <= size_ → (∀ i, 0 <= i < size_ → region U O (buffer + i)) →
  ∃ ok s, address_space_copy (Some a) buffer address size_ false (kern v) = Some (ok, s) ∧
    address_space_validate a address size_ false (kern v) = Some ok ∧
    running (set_kern s v) B l a X ∧ copied_in a buffer address size_ ok (kern v) s.
Proof.
  intros Hr Hb Ha Hs Hbuf. pose proof Hr as [N Hw]. destruct (world_space U O lo hi v B l a N X Hw) as (Hsp & _ & _).
  destruct (user_copy_in U _ _ (kern v) a buffer address size_ Hsp Hb Ha Hs) as (ok & s & E & Ev & Hsp' & Hc).
  { intros i Hi. by apply region_world, Hbuf. }
  exists ok, s. split; [done|]. split; [done|]. split; [|done].
  destruct (world_add U O lo hi v B l X s a) as [N' Hw']; try done.
  - eapply context_tail, Hw.
  - by eapply running_wf.
  - intros p Hp b Hpb. apply (proj1 Hc). intros Hin.
    assert (region U O b) as Hrb by (replace b with (buffer + (b - buffer)) by lia; apply Hbuf; lia).
    apply (region_foreign U O lo hi v B l _ b p Hw Hrb); [|done]. rewrite all_pages_cons, !elem_of_app. auto.
  - by exists N'.
Qed.

Lemma running_copy_out v B l a X buffer address size_ :
  running v B l a X → buffer ≠ 0 → 0 <= address → 0 <= size_ → (∀ i, 0 <= i < size_ → region U O (buffer + i)) →
  ∃ ok s, address_space_copy (Some a) buffer address size_ true (kern v) = Some (ok, s) ∧
    address_space_validate a address size_ true (kern v) = Some ok ∧
    running (set_kern s v) B l a X ∧ copied_out U (world_pages O v X) a buffer address size_ ok (kern v) s.
Proof.
  intros Hr Hb Ha Hs Hbuf. pose proof Hr as [N Hw]. destruct (world_space U O lo hi v B l a N X Hw) as (Hsp & _ & _).
  destruct (user_copy_out U _ _ (kern v) a buffer address size_ Hsp Hb Ha Hs) as (ok & s & E & Ev & Hsp' & Hc).
  { intros i Hi. by apply region_world, Hbuf. }
  exists ok, s. split; [done|]. split; [done|]. split; [|done].
  destruct (world_add U O lo hi v B l X s a) as [N' Hw']; try done.
  - eapply context_tail, Hw.
  - by eapply running_wf.
  - eapply pages_same_kept; [exact (proj1 Hc)|]. intros p Hp. unfold world_pages. rewrite !elem_of_app. auto.
  - by exists N'.
Qed.
End Running.
