(* ===== verification/Process.v ===== *)
(** [src/kernel/process.c]: processes, their families and their life from [fork] to
    [waitpid]; with the copies to and from user memory of [src/kernel/user.c] that it
    calls.  A [struct process] is a record kept under its address, the list of its
    children a list of addresses; its queue [child_wait] is a queue of the scheduler.
    The frame of a trap, the arguments of [exec] and the local variables that are
    copied to user memory are bytes of memory at the addresses given. *)
From S2P Require Import Prelude Machine Runtime PageAlloc Vm HeapSpec AddressSpace Outcome Log Scheduler Vfs Elf.

Abbreviation PROCESS_ECHILD := 10 (only parsing).
Abbreviation PROCESS_EFAULT := 14 (only parsing).
Abbreviation PROCESS_EINVAL := 22 (only parsing).
Abbreviation PROCESS_ENOMEM := 12 (only parsing).
Abbreviation FD_COUNT := 32 (only parsing).
Abbreviation SIZEOF_PROCESS := 424 (only parsing).
Abbreviation CHILD_WAIT_OFFSET := 376 (only parsing).       (* offsetof child_wait *)

(** The frame of a trap: [x[0]] to [x[31]], [sepc], [sstatus], [scause], [stval]. *)
Abbreviation SIZEOF_FRAME := 288 (only parsing).
Definition frame_x (m : memory) (frame i : Z) : Z := load64 m (frame + 8 * i).
Definition set_frame_x (m : memory) (frame i x : Z) : memory := store64 m (frame + 8 * i) x.
Abbreviation FRAME_SEPC := 256 (only parsing).
Abbreviation FRAME_SSTATUS := 264 (only parsing).

Inductive process_state := PROCESS_RUNNING | PROCESS_ZOMBIE | PROCESS_REAPABLE.
#[export] Instance process_state_eq_dec : EqDecision process_state.
Proof. solve_decision. Defined.

Record process := mk_process {
  p_as : address_space;
  fds : list Z;              (* open files, 0 for NULL *)
  p_root : Z;
  p_cwd : Z;
  pid : Z;
  p_parent : Z;              (* 0 for NULL *)
  p_children : list Z;
  p_state : process_state;
  exit_status : Z;
  fault_code : Z;
  p_result : Z;              (* the kernel's observer, 0 for NULL *)
}.
Definition no_fds : list Z := repeat 0 (Z.to_nat FD_COUNT).
Definition empty_as : address_space := mk_as (mk_page_table 0) [] [] 0 0.
#[export] Instance process_inhabited : Inhabited process :=
  stdpp.base.populate (mk_process empty_as no_fds 0 0 0 0 [] PROCESS_RUNNING 0 0 0).

Definition with_as (x : address_space) (p : process) : process :=
  mk_process x (fds p) (p_root p) (p_cwd p) (pid p) (p_parent p) (p_children p) (p_state p) (exit_status p)
    (fault_code p) (p_result p).
Definition with_fds (x : list Z) (p : process) : process :=
  mk_process (p_as p) x (p_root p) (p_cwd p) (pid p) (p_parent p) (p_children p) (p_state p) (exit_status p)
    (fault_code p) (p_result p).
Definition with_dirs (root cwd : Z) (p : process) : process :=
  mk_process (p_as p) (fds p) root cwd (pid p) (p_parent p) (p_children p) (p_state p) (exit_status p)
    (fault_code p) (p_result p).
Definition with_parent (x : Z) (p : process) : process :=
  mk_process (p_as p) (fds p) (p_root p) (p_cwd p) (pid p) x (p_children p) (p_state p) (exit_status p)
    (fault_code p) (p_result p).
Definition with_family (x : list Z) (p : process) : process :=
  mk_process (p_as p) (fds p) (p_root p) (p_cwd p) (pid p) (p_parent p) x (p_state p) (exit_status p)
    (fault_code p) (p_result p).
Definition with_exit (state_ : process_state) (status_ fault_ : Z) (p : process) : process :=
  mk_process (p_as p) (fds p) (p_root p) (p_cwd p) (pid p) (p_parent p) (p_children p) state_ status_ fault_
    (p_result p).
Definition with_result (x : Z) (p : process) : process :=
  mk_process (p_as p) (fds p) (p_root p) (p_cwd p) (pid p) (p_parent p) (p_children p) (p_state p) (exit_status p)
    (fault_code p) x.

Record process_result := mk_result { reaped : bool; status : Z; fault : Z }.

(** The variables of [process.c] with everything a process can reach. *)
Record processes := mk_processes {
  pvfs : vfs;
  procs : gmap Z process;
  results : gmap Z process_result;
  kernel_table : option page_table;       (* [kernel_page_table] *)
  init_process : Z;
  next_pid : Z;
  process_lock : Z;
}.
Definition set_pvfs (v : vfs) (ps : processes) : processes :=
  mk_processes v (procs ps) (results ps) (kernel_table ps) (init_process ps) (next_pid ps) (process_lock ps).
Definition set_procs (m : gmap Z process) (ps : processes) : processes :=
  mk_processes (pvfs ps) m (results ps) (kernel_table ps) (init_process ps) (next_pid ps) (process_lock ps).
Definition set_results (m : gmap Z process_result) (ps : processes) : processes :=
  mk_processes (pvfs ps) (procs ps) m (kernel_table ps) (init_process ps) (next_pid ps) (process_lock ps).
Definition set_init (x : Z) (ps : processes) : processes :=
  mk_processes (pvfs ps) (procs ps) (results ps) (kernel_table ps) x (next_pid ps) (process_lock ps).
Definition set_next_pid (x : Z) (ps : processes) : processes :=
  mk_processes (pvfs ps) (procs ps) (results ps) (kernel_table ps) (init_process ps) x (process_lock ps).
Definition set_lock (x : Z) (ps : processes) : processes :=
  mk_processes (pvfs ps) (procs ps) (results ps) (kernel_table ps) (init_process ps) (next_pid ps) x.

(** [*p], and the state of the kernel below. *)
Definition pr (ps : processes) (p : Z) : process := procs ps !!! p.
Definition pkern (ps : processes) : kstate := kern (pvfs ps).
Definition set_pkern (s : kstate) (ps : processes) : processes := set_pvfs (set_kern s (pvfs ps)) ps.
Definition set_pmem (m : memory) (ps : processes) : processes := set_pkern (set_mem m (pkern ps)) ps.
Definition update_process (f : process → process) (p : Z) (ps : processes) : processes :=
  set_procs (alter f p (procs ps)) ps.

(** [None] when the lock is taken and never released. *)
Definition take_process_lock (ps : processes) : option processes :=
  l ← spin_lock (process_lock ps); Some (set_lock l ps).
Definition drop_process_lock (ps : processes) : processes := set_lock (spin_unlock (process_lock ps)) ps.

(** [&process->child_wait] *)
Definition child_wait (p : Z) : wait_queue := (p, CHILD_WAIT_OFFSET).

(** The calls of [wait_queue_wake_all] that pipes have made, and what they do to the
    threads. *)
Definition settle_wakes (s : sched) (ps : processes) : option (sched * processes) :=
  s ← wake_queues (woken (pvfs ps)) s; Some (s, set_pvfs (set_woken [] (pvfs ps)) ps).

Section UserMemory.

(** [user.c], with the address space of the current process. *)
Definition copy_from_user (as_ : option address_space) (destination source size : Z) (m : kstate) : option (bool * kstate) :=
  if size =? 0 then Some (true, m)
  else match as_ with
       | Some _ => address_space_copy as_ destination source size false m
       | None => Some (false, m)
       end.
Definition copy_to_user (as_ : option address_space) (destination source size : Z) (m : kstate) : option (bool * kstate) :=
  if size =? 0 then Some (true, m)
  else match as_ with
       | Some _ => address_space_copy as_ source destination size true m
       | None => Some (false, m)
       end.
End UserMemory.

Section Process.
Context `{KernelHeap} `{Backends}.

(** * Creation and destruction *)

Definition process_system_init (kernel_table_ : option page_table) (ps : processes) : processes :=
  mk_processes (pvfs ps) (procs ps) (results ps) kernel_table_ 0 1 spinlock_init.

(** The address of the process, 0 without memory. *)
Definition process_create (ps : processes) : option (Z * processes) :=
  let '(p, s) := kmalloc SIZEOF_PROCESS (pkern ps) in
  let ps := set_pkern s ps in
  if p =? 0 then Some (0, ps)
  else
    let '(ok, as_, s) := address_space_init (kernel_table ps) (pkern ps) in
    let ps := set_pkern s ps in
    if negb ok then Some (0, set_pkern (kfree p (pkern ps)) ps)
    else
      let root := vfs_root (pvfs ps) in
      let '(flags_, s) := irq_save (pkern ps) in
      ps ← take_process_lock (set_pkern s ps);
      let fresh := mk_process as_ no_fds root root (next_pid ps) 0 [] PROCESS_RUNNING 0 0 0 in
      let ps := set_next_pid (u64 (next_pid ps + 1)) (set_procs (<[p := fresh]> (procs ps)) ps) in
      let ps := drop_process_lock ps in
      Some (p, set_pkern (irq_restore flags_ (pkern ps)) ps).

(** [file_put] of every descriptor. *)
Definition put_files (l : list Z) (v : vfs) : vfs := fold_left (λ v f, file_put f v) l v.
Definition get_files (l : list Z) (v : vfs) : vfs := fold_left (λ v f, file_get f v) l v.

(** The address space and the descriptors of [p] are given back. *)
Definition release_runtime (p : Z) (ps : processes) : processes :=
  let '(as_, s) := address_space_destroy (p_as (pr ps p)) (pkern ps) in
  let ps := update_process (with_as as_) p (set_pkern s ps) in
  let ps := set_pvfs (put_files (fds (pr ps p)) (pvfs ps)) ps in
  update_process (with_fds no_fds) p ps.

Definition free_process (p : Z) (ps : processes) : processes :=
  set_pkern (kfree p (pkern ps)) (set_procs (delete p (procs ps)) ps).

Definition process_destroy (p : Z) (ps : processes) : processes :=
  if p =? 0 then ps else free_process p (release_runtime p ps).

Definition process_set_init (p : Z) (ps : processes) : processes := set_init p ps.

Definition process_getpid (s : sched) (ps : processes) : Z :=
  match current_process s with Some p => pid (pr ps p) | None => 0 end.

(** [list_push_back] and [list_remove] on the list of children. *)
Definition link_child (parent_ child_ : Z) (ps : processes) : processes :=
  let ps := update_process (with_parent parent_) child_ ps in
  update_process (λ p, with_family (p_children p ++ [child_]) p) parent_ ps.
Definition unlink_child (child_ : Z) (ps : processes) : processes :=
  let parent_ := p_parent (pr ps child_) in
  let ps := update_process (λ p, with_family (List.remove Z.eq_dec child_ (p_children p)) p) parent_ ps in
  update_process (with_parent 0) child_ ps.

(** * [fork] *)

(** Where new threads start. *)
Context (thread_trampoline user_thread_enter : Z).

(** From the point where the child has been created: the address of the child's
    frame is [child_frame]. *)
Definition fork_child (parent_ child_ parent_frame child_frame : Z) (s : sched) (ps : processes)
    : option (Z * sched * processes) :=
  let '(as_, m) := address_space_destroy (p_as (pr ps child_)) (pkern ps) in
  let ps := update_process (with_as as_) child_ (set_pkern m ps) in
  let '(ok, copy, m) := address_space_clone (p_as (pr ps parent_)) (kernel_table ps) (pkern ps) in
  let ps := set_pkern m ps in
  if negb ok then
    let ps := update_process (λ p, with_as (set_pages [] (set_table (mk_page_table 0) (p_as p))) p) child_ ps in
    Some (- PROCESS_ENOMEM, s, process_destroy child_ ps)
  else
    let '(as_, _) := address_space_move copy in
    let ps := update_process (with_as as_) child_ ps in
    let ps := update_process (with_dirs (p_root (pr ps parent_)) (p_cwd (pr ps parent_))) child_ ps in
    let ps := update_process (with_fds (fds (pr ps parent_))) child_ ps in
    let ps := set_pvfs (get_files (fds (pr ps child_)) (pvfs ps)) ps in
    let m := memcpy (mem (pkern ps)) child_frame parent_frame (Z.to_nat SIZEOF_FRAME) in
    let ps := set_pmem (set_frame_x m child_frame 10 0) ps in
    let '(flags_, m) := irq_save (pkern ps) in
    ps ← take_process_lock (set_pkern m ps);
    let ps := drop_process_lock (link_child parent_ child_ ps) in
    let '(ok, m, s) := thread_create_user thread_trampoline user_thread_enter (Some child_) child_frame (pkern ps) s in
    let ps := set_pkern m ps in
    if negb ok then
      ps ← take_process_lock ps;
      let ps := drop_process_lock (unlink_child child_ ps) in
      let ps := set_pkern (irq_restore flags_ (pkern ps)) ps in
      Some (- PROCESS_ENOMEM, s, process_destroy child_ ps)
    else
      let ps := set_pkern (irq_restore flags_ (pkern ps)) ps in
      Some (s64 (pid (pr ps child_)), s, ps).

(** [parent_] is the current process. *)
Definition process_fork (parent_ parent_frame child_frame : Z) (s : sched) (ps : processes)
    : option (Z * sched * processes) :=
  '(child_, ps) ← process_create ps;
  if child_ =? 0 then Some (- PROCESS_ENOMEM, s, ps)
  else fork_child parent_ child_ parent_frame child_frame s ps.

(** * [exec] *)

Context (header_at program_at words_at : Z).

(** The frame cleared, and the registers of the new program. *)
Definition start_frame (frame entry_ sp : Z) (m : memory) : memory :=
  let m := memset m frame 0 (Z.to_nat SIZEOF_FRAME) in
  let m := store64 m (frame + FRAME_SEPC) entry_ in
  let m := set_frame_x m frame 2 sp in
  store64 m (frame + FRAME_SSTATUS) SSTATUS_SPIE.

(** [p] is the current process. *)
Definition process_exec (p frame : Z) (path : list Z) (arguments : Z) (ps : processes)
    : option (Z * processes) :=
  '(ok, image, v) ← elf_load header_at program_at words_at (kernel_table ps)
    (Some (p_root (pr ps p), p_cwd (pr ps p))) path arguments (pvfs ps);
  let ps := set_pvfs v ps in
  if negb ok then Some (-2, ps)
  else
    let '(old, _) := address_space_move (p_as (pr ps p)) in
    let '(new, _) := address_space_move (image_as image) in
    let ps := update_process (with_as new) p ps in
    let ps := set_pkern (vm_activate (table new) (pkern ps)) ps in
    let '(_, m) := address_space_destroy old (pkern ps) in
    let ps := set_pkern m ps in
    Some (0, set_pmem (start_frame frame (image_entry image) (stack_pointer image) (mem (pkern ps))) ps).

(** * After the thread is gone *)

(** After the thread of [p] has been reaped. *)
Definition process_thread_reaped (p : Z) (s : sched) (ps : processes) : option (sched * processes) :=
  let result := p_result (pr ps p) in
  '(s, ps) ← settle_wakes s (release_runtime p ps);
  ps ← take_process_lock ps;
  let ps := update_process (λ x, with_exit PROCESS_REAPABLE (exit_status x) (fault_code x) x) p ps in
  s ← (if negb (p_parent (pr ps p) =? 0) then wait_queue_wake_all (child_wait (p_parent (pr ps p))) s else Some s);
  if result =? 0 then
    let ps := drop_process_lock ps in
    Some (s, if p_parent (pr ps p) =? 0 then free_process p ps else ps)
  else
    let r := mk_result false (exit_status (pr ps p)) (fault_code (pr ps p)) in
    let ps := set_results (<[result := r]> (results ps)) ps in
    let ps := if p =? init_process ps then set_init 0 ps else ps in
    let ps := free_process p (drop_process_lock ps) in
    Some (s, set_results (<[result := mk_result true (status r) (fault r)]> (results ps)) ps).

Lemma reaped_wakes_queues p s ps s' ps' :
  process_thread_reaped p s ps = Some (s', ps') → ∃ qs, wake_queues qs s = Some s'.
Proof.
  unfold process_thread_reaped, settle_wakes. set (ps0 := release_runtime p ps).
  destruct (wake_queues (woken (pvfs ps0)) s) as [s0|] eqn:E0; [|done]. cbn [mbind option_bind].
  destruct (take_process_lock _) as [ps1|]; [|done]. cbn [mbind option_bind].
  set (ps2 := update_process _ _ _). destruct (negb (p_parent (pr ps2 p) =? 0)).
  - destruct (wait_queue_wake_all _ s0) as [s1|] eqn:E; [|done]. cbn [mbind option_bind]. intros E'.
    exists (woken (pvfs ps0) ++ [child_wait (p_parent (pr ps2 p))]). rewrite wake_queues_app, E0. cbn [mbind option_bind wake_queues].
    rewrite E. revert E'. case_if; by intros [= -> _].
  - cbn [mbind option_bind]. intros E'. exists (woken (pvfs ps0)). rewrite E0. revert E'. case_if; by intros [= -> _].
Qed.

(** As the scheduler calls it; a call that does not return changes nothing. *)
Definition reap_call (p : Z) (w : kstate * sched * processes) : kstate * sched * processes :=
  let '(m, s, ps) := w in
  match process_thread_reaped p s (set_pkern m ps) with
  | Some (s, ps) => (pkern ps, s, ps)
  | None => w
  end.

Lemma reap_call_wakes p m s ps :
  let '(_, s', _) := reap_call p (m, s, ps) in ∃ qs, wake_queues qs s = Some s'.
Proof.
  unfold reap_call. destruct (process_thread_reaped p s (set_pkern m ps)) as [[s' ps']|] eqn:E.
  - by eapply reaped_wakes_queues.
  - by exists [].
Qed.

(** What the scheduler needs to know of processes. *)
#[export] Instance process_system : ProcessSystem := {|
  pstate := processes;
  table_of ps p := table (p_as (pr ps p));
  Scheduler.process_thread_reaped := reap_call;
  reaped_wakes := reap_call_wakes;
|}.

(** The scheduler at work on the same kernel. *)
Definition with_sched (f : sys → option (bool * sys)) (s : sched) (ps : processes) : option (sched * processes) :=
  '(_, (m, s, ps)) ← f (pkern ps, s, ps); Some (s, set_pkern m ps).

(** * [waitpid] *)

(** The loop over the children; [first] is 0 for NULL. *)
Fixpoint find_in (ps : processes) (pid_ first : Z) (l : list Z) : Z :=
  match l with
  | [] => first
  | c :: rest =>
      if negb (pid_ =? -1) && (u64 pid_ =? pid (pr ps c)) then c
      else if pid_ =? -1 then
        if bool_decide (p_state (pr ps c) = PROCESS_REAPABLE) then c
        else find_in ps pid_ (if first =? 0 then c else first) rest
      else find_in ps pid_ first rest
  end.
Definition find_child (parent_ pid_ : Z) (ps : processes) : Z := find_in ps pid_ 0 (p_children (pr ps parent_)).

(** A call that has to wait ends asleep, the lock released and another thread
    chosen; when it resumes it takes the lock and goes round again. *)
Inductive waited := Waited (result : Z) | WaitAsleep.

(** One round of the loop, entered with the lock held; [flags_] is what [irq_save]
    returned and [status_at] the address of the local [status]. *)
Definition waitpid_round (parent_ pid_ status_address status_at flags_ : Z) (s : sched) (ps : processes)
    : option (waited * sched * processes) :=
  let leave (ps : processes) :=
    let ps := drop_process_lock ps in set_pkern (irq_restore flags_ (pkern ps)) ps in
  let child_ := find_child parent_ pid_ ps in
  if child_ =? 0 then Some (Waited (- PROCESS_ECHILD), s, leave ps)
  else if bool_decide (p_state (pr ps child_) = PROCESS_REAPABLE) then
    let result := s64 (pid (pr ps child_)) in
    '(copied, ps) ←
      (if status_address =? 0 then Some (true, ps)
       else
         let ps := set_pmem (store64 (mem (pkern ps)) status_at (u64 (exit_status (pr ps child_)))) ps in
         '(ok, m) ← copy_to_user (Some (p_as (pr ps parent_))) status_address status_at 8 (pkern ps);
         Some (ok, set_pkern m ps));
    if negb copied then Some (Waited (- PROCESS_EFAULT), s, leave ps)
    else
      let ps := leave (unlink_child child_ ps) in
      Some (Waited result, s, free_process child_ ps)
  else
    '(s, ps) ← with_sched (wait_queue_sleep (child_wait parent_)) s (drop_process_lock ps);
    Some (WaitAsleep, s, ps).

Definition process_waitpid (parent_ pid_ status_address options status_at : Z) (s : sched) (ps : processes)
    : option (waited * sched * processes) :=
  if ((pid_ <=? 0) && negb (pid_ =? -1)) || negb (options =? 0) then Some (Waited (- PROCESS_EINVAL), s, ps)
  else
    let '(flags_, m) := irq_save (pkern ps) in
    ps ← take_process_lock (set_pkern m ps);
    waitpid_round parent_ pid_ status_address status_at flags_ s ps.

(** * Exit *)

(** The loop that gives the children away. *)
Fixpoint orphan_loop (l : list Z) (p : Z) (ps : processes) : processes :=
  match l with
  | [] => ps
  | c :: rest =>
      let ps := unlink_child c ps in
      let ps := if negb (init_process ps =? 0) && negb (init_process ps =? p) then link_child (init_process ps) c ps
                else if bool_decide (p_state (pr ps c) = PROCESS_REAPABLE) then free_process c ps else ps in
      orphan_loop rest p ps
  end.

(** The part of [process_exit] before [thread_exit]. *)
Definition exit_process (p status_ fault_ : Z) (ps : processes) : option processes :=
  let '(_, m) := irq_save (pkern ps) in
  ps ← take_process_lock (set_pkern m ps);
  let ps := update_process (with_exit PROCESS_ZOMBIE status_ fault_) p ps in
  Some (drop_process_lock (orphan_loop (p_children (pr ps p)) p ps)).

(** Up to the moment when the next thread runs. *)
Definition process_exit (p status_ fault_ : Z) (s : sched) (ps : processes) : option (sched * processes) :=
  ps ← exit_process p status_ fault_ ps; with_sched thread_exit s ps.

End Process.
