(* ===== verification/Fd.v ===== *)
(** [src/kernel/fd.c]: the descriptors of a process and the system calls on them.  The
    calls change the file system and the descriptors and working directory of the
    calling process [p] only; the local buffers are bytes of memory at the addresses
    given, and [thread] is the thread that calls. *)
From S2P Require Import Prelude Machine Runtime PageAlloc Vm HeapSpec AddressSpace Outcome Scheduler Vfs Process.
From Stdlib Require String.
Import String.StringSyntax.

Abbreviation E_FAULT := 14 (only parsing).
Abbreviation E_MFILE := 24 (only parsing).
Abbreviation E_NOSYS := 38 (only parsing).
Abbreviation AT_FDCWD := (-100) (only parsing).

Abbreviation SYS_WRITE := 1 (only parsing).
Abbreviation SYS_OPENAT := 8 (only parsing).
Abbreviation SYS_CLOSE := 9 (only parsing).
Abbreviation SYS_READ := 10 (only parsing).
Abbreviation SYS_DUP := 11 (only parsing).
Abbreviation SYS_DUP2 := 12 (only parsing).
Abbreviation SYS_GETDENTS := 13 (only parsing).
Abbreviation SYS_PIPE := 14 (only parsing).
Abbreviation SYS_CHDIR := 15 (only parsing).
Abbreviation SYS_GETCWD := 16 (only parsing).
Abbreviation SYS_LSEEK := 20 (only parsing).

Definition store32 (m : memory) (a x : Z) : memory := store_le m a 4 x.

Definition lookup (p : process) (fd : Z) : Z := if fd <? FD_COUNT then nth (Z.to_nat fd) (fds p) 0 else 0.

(** The first free slot from [i] on. *)
Fixpoint slot_from (i : Z) (l : list Z) : Z :=
  match l with
  | [] => - E_MFILE
  | f :: rest => if f =? 0 then i else slot_from (i + 1) rest
  end.
Definition empty_slot (p : process) : Z := slot_from 0 (fds p).

(** [p->fds[slot] = f] *)
Definition set_fd (slot f : Z) (p : process) : process := with_fds (<[Z.to_nat slot := f]> (fds p)) p.

(** How a call ends: with its result, or asleep in a transfer of which [done_] bytes
    have been made through [file_], which it goes on with when it resumes. *)
Inductive answer := Answer (result : Z) | Blocked (ticks file_ done_ : Z).

(** The queue of the pipe [a] in which a transfer sleeps. *)
Definition waits_on (writing : bool) (a : Z) : wait_queue := if writing then pipe_writable a else pipe_readable a.

Section Fd.
Context `{KernelHeap} `{Backends}.

(** The locals [path], [buffer], [pair] and [entry]. *)
Context (path_at buffer_at pair_at entry_at : Z).

Fixpoint path_loop (n : nat) (i address : Z) (as_ : address_space) (s : kstate) : option (Z * kstate) :=
  match n with
  | O => Some (- E_NAMETOOLONG, s)
  | S n =>
      if address >? UINT64_MAX - i then Some (- E_FAULT, s)
      else
        '(ok, s) ← copy_from_user (Some as_) (path_at + i) (address + i) 1 s;
        if negb ok then Some (- E_FAULT, s)
        else if load8 (mem s) (path_at + i) =? 0 then Some (0, s)
        else path_loop n (i + 1) address as_ s
  end.
Definition path_copy (address : Z) (as_ : address_space) (s : kstate) : option (Z * kstate) :=
  path_loop (Z.to_nat PATH_LIMIT) 0 address as_ s.

(** The string in the buffer. *)
Definition path_string (s : kstate) : list Z := c_string (bytes_at (mem s) path_at PATH_LIMIT).

(** The first error, with the descriptors installed so far. *)
Fixpoint install_loop (l : list Z) (p : process) (v : vfs) : option (Z * process * vfs) :=
  match l with
  | [] => Some (0, p, v)
  | i :: rest =>
      '(error, f, v) ← vfs_openat (p_root p) (p_root p) (chars "/dev/console")
                         (if negb (i =? 0) then O_WRONLY else O_RDONLY) v;
      if negb (error =? 0) then Some (error, p, v) else install_loop rest (set_fd i f p) v
  end.
Definition fd_install_stdio (p : process) (v : vfs) : option (Z * process * vfs) := install_loop [0; 1; 2] p v.

(** ** Reading and writing *)

Abbreviation BUFFER_SIZE := 256 (only parsing).

(** The loop of [transfer]; [n] is the result of the last operation.  [filled] says that
    the thread has been asleep in [file_write], which it goes on with: the bytes are in
    the buffer already. *)
Fixpoint transfer_loop (fuel : nat) (thread file_ : Z) (as_ : address_space) (address size_ : Z) (writing filled : bool)
    (done_ n : Z) (v : vfs) : option (answer * vfs) :=
  let finish (done_ n : Z) (v : vfs) := Some (Answer (if negb (done_ =? 0) then done_ else n), file_put file_ v) in
  if negb (done_ <? size_) then finish done_ n v
  else
    match fuel with
    | O => None
    | S fuel =>
        let chunk := size_ - done_ in
        let chunk := if chunk >? BUFFER_SIZE then BUFFER_SIZE else chunk in
        '(r, v) ←
          (if writing then
             '(_, s) ← (if filled then Some (true, kern v)
                        else copy_from_user (Some as_) buffer_at (address + done_) chunk (kern v));
             file_write thread file_ buffer_at chunk (set_kern s v)
           else
             '(r, v) ← file_read thread file_ buffer_at chunk v;
             match r with
             | Did n => if n >? 0 then '(_, s) ← copy_to_user (Some as_) (address + done_) buffer_at n (kern v);
                                       Some (r, set_kern s v)
                        else Some (r, v)
             | Asleep _ => Some (r, v)
             end);
        match r with
        | Asleep ticks => Some (Blocked ticks file_ done_, v)
        | Did n =>
            if n <=? 0 then finish done_ n v
            else if (n <? chunk) || (negb writing && negb (bool_decide (ops (fl v file_) = regular_ops)))
            then finish (done_ + n) n v
            else transfer_loop fuel thread file_ as_ address size_ writing false (done_ + n) n v
        end
    end.

Definition transfer_fuel (size_ : Z) : nat := Z.to_nat (size_ / BUFFER_SIZE + 1).

Definition transfer (thread : Z) (p : process) (fd address size_ : Z) (writing : bool) (v : vfs)
    : option (answer * vfs) :=
  let file_ := lookup p fd in
  if (file_ =? 0) || (if writing then Z.land (flags (fl v file_)) O_ACCMODE =? O_RDONLY
                      else Z.land (flags (fl v file_)) O_ACCMODE =? O_WRONLY)
  then Some (Answer (- E_BADF), v)
  else if size_ >? INT64_MAX then Some (Answer (- E_FAULT), v)
  else
    ok ← address_space_validate (p_as p) address size_ (negb writing) (kern v);
    if negb ok then Some (Answer (- E_FAULT), v)
    else transfer_loop (transfer_fuel size_) thread file_ (p_as p) address size_ writing false 0 0 (file_get file_ v).

(** ** Descriptors *)

Definition fd_close (p : process) (fd : Z) (v : vfs) : Z * process * vfs :=
  let file_ := lookup p fd in
  if file_ =? 0 then (- E_BADF, p, v) else (0, set_fd fd 0 p, file_put file_ v).

(** [dup] with no wanted slot, [dup2] with one. *)
Definition fd_dup (p : process) (fd : Z) (wanted : option Z) (v : vfs) : Z * process * vfs :=
  let file_ := lookup p fd in
  if file_ =? 0 then (- E_BADF, p, v)
  else
    let slot := match wanted with
                | None => empty_slot p
                | Some b => if b <? FD_COUNT then b else - E_BADF
                end in
    if slot <? 0 then (slot, p, v)
    else if slot =? fd then (slot, p, v)
    else
      let v := file_get file_ v in
      let v := file_put (lookup p slot) v in
      (slot, set_fd slot file_ p, v).

Definition fd_openat (p : process) (fd address flags_ : Z) (v : vfs) : option (Z * process * vfs) :=
  '(error, s) ← path_copy address (p_as p) (kern v);
  let v := set_kern s v in
  if negb (error =? 0) then Some (error, p, v)
  else
    let path := path_string s in
    let file_ := lookup p fd in
    let base :=
      if negb (starts_slash path) && negb (s64 fd =? AT_FDCWD) then
        if file_ =? 0 then inl (- E_BADF)
        else if (node (fl v file_) =? 0) || negb (type (vn v (node (fl v file_))) =? DT_DIR) then inl (- E_NOTDIR)
        else inr (node (fl v file_))
      else inr (p_cwd p) in
    match base with
    | inl error => Some (error, p, v)
    | inr base =>
        let slot := empty_slot p in
        if slot <? 0 then Some (slot, p, v)
        else if flags_ >? UINT32_MAX then Some (- E_INVAL, p, v)
        else
          '(error, f, v) ← vfs_openat (p_root p) base path flags_ v;
          if negb (error =? 0) then Some (error, p, v) else Some (slot, set_fd slot f p, v)
    end.

(** The second slot; -1 when there is none. *)
Definition second_slot (first : Z) (p : process) : Z :=
  let slot := slot_from (first + 1) (drop (Z.to_nat (first + 1)) (fds p)) in
  if slot <? 0 then -1 else slot.

Definition fd_pipe (p : process) (address : Z) (v : vfs) : option (Z * process * vfs) :=
  ok ← address_space_validate (p_as p) address 8 true (kern v);
  if negb ok then Some (- E_FAULT, p, v)
  else
    let first := empty_slot p in
    if first <? 0 then Some (first, p, v)
    else
      let second := second_slot first p in
      if second <? 0 then Some (- E_MFILE, p, v)
      else
        let '(error, r, w, v) := pipe_create v in
        if negb (error =? 0) then Some (error, p, v)
        else
          let p := set_fd second w (set_fd first r p) in
          let m := store32 (store32 (mem (kern v)) pair_at first) (pair_at + 4) second in
          '(_, s) ← copy_to_user (Some (p_as p)) address pair_at 8 (set_mem m (kern v));
          Some (0, p, set_kern s v).

(** ** Directories *)

(** The entry as [file_getdents] writes it. *)
Definition put_entry (m : memory) (a : Z) (e : directory_entry) : memory :=
  let m := memset m a 0 (Z.to_nat SIZEOF_DIRENT) in
  let m := store32 (store64 m a (d_inode e)) (a + 8) (d_type e) in
  put_bytes m (a + 16) (d_name e ++ [0]).

Fixpoint getdents_loop (fuel : nat) (file_ : Z) (as_ : address_space) (address size_ done_ : Z) (v : vfs)
    : option (Z * vfs) :=
  if negb (size_ - done_ >=? SIZEOF_DIRENT) then Some (done_, v)
  else
    match fuel with
    | O => None
    | S fuel =>
        let '(n, out, v) := file_getdents file_ SIZEOF_DIRENT v in
        let m := fold_left (λ m e, put_entry m entry_at e) out (mem (kern v)) in
        let v := set_kern (set_mem m (kern v)) v in
        if n <=? 0 then Some (if negb (done_ =? 0) then done_ else n, v)
        else
          '(_, s) ← copy_to_user (Some as_) (address + done_) entry_at SIZEOF_DIRENT (kern v);
          getdents_loop fuel file_ as_ address size_ (done_ + SIZEOF_DIRENT) (set_kern s v)
    end.

Definition fd_getdents (p : process) (fd address size_ : Z) (v : vfs) : option (Z * vfs) :=
  let file_ := lookup p fd in
  if file_ =? 0 then Some (- E_BADF, v)
  else if size_ <? SIZEOF_DIRENT then Some (- E_INVAL, v)
  else if size_ >? INT64_MAX then Some (- E_FAULT, v)
  else
    ok ← address_space_validate (p_as p) address size_ true (kern v);
    if negb ok then Some (- E_FAULT, v)
    else getdents_loop (Z.to_nat (size_ / SIZEOF_DIRENT + 1)) file_ (p_as p) address size_ 0 v.

Definition fd_chdir (p : process) (address : Z) (v : vfs) : option (Z * process * vfs) :=
  '(error, s) ← path_copy address (p_as p) (kern v);
  let v := set_kern s v in
  if negb (error =? 0) then Some (error, p, v)
  else
    r ← vfs_resolve v (p_root p) (p_cwd p) (path_string s) false;
    match r with
    | inl error => Some (error, p, v)
    | inr n =>
        if negb (type (vn v n) =? DT_DIR) then Some (- E_NOTDIR, p, v)
        else Some (0, with_dirs (p_root p) n p, v)
    end.

Definition fd_getcwd (p : process) (address size_ : Z) (v : vfs) : option (Z * vfs) :=
  '(length_, path) ← vfs_getcwd v (p_root p) (p_cwd p) PATH_LIMIT;
  if length_ <? 0 then Some (length_, v)
  else
    let s := set_mem (put_bytes (mem (kern v)) path_at (path ++ [0])) (kern v) in
    if size_ <? length_ then Some (- E_INVAL, set_kern s v)
    else
      '(ok, s) ← copy_to_user (Some (p_as p)) address path_at length_ s;
      Some (if ok : bool then length_ else - E_FAULT, set_kern s v).

Definition fd_lseek (p : process) (fd offset_ whence : Z) (v : vfs) : Z * vfs :=
  let file_ := lookup p fd in
  if file_ =? 0 then (- E_BADF, v)
  else if whence >? UINT32_MAX then (- E_INVAL, v)
  else file_seek file_ (s64 offset_) whence v.

(** ** The system call in the frame [f] *)

Definition fd_syscall (thread f : Z) (p : process) (v : vfs) : option (answer * process * vfs) :=
  let x := frame_x (mem (kern v)) f in
  let a := x 10 in
  let b := x 11 in
  let c := x 12 in
  let number := x 17 in
  let same (r : option (Z * vfs)) := '(r, v) ← r; Some (Answer r, p, v) in
  let plain (r : option (Z * process * vfs)) := '(r, p, v) ← r; Some (Answer r, p, v) in
  if number =? SYS_READ then '(r, v) ← transfer thread p a b c false v; Some (r, p, v)
  else if number =? SYS_WRITE then '(r, v) ← transfer thread p a b c true v; Some (r, p, v)
  else if number =? SYS_CLOSE then plain (Some (fd_close p a v))
  else if number =? SYS_DUP then plain (Some (fd_dup p a None v))
  else if number =? SYS_DUP2 then plain (Some (fd_dup p a (Some b) v))
  else if number =? SYS_OPENAT then plain (fd_openat p a b c v)
  else if number =? SYS_PIPE then plain (fd_pipe p a v)
  else if number =? SYS_GETDENTS then same (fd_getdents p a b c v)
  else if number =? SYS_CHDIR then plain (fd_chdir p a v)
  else if number =? SYS_GETCWD then same (fd_getcwd p a b v)
  else if number =? SYS_LSEEK then same (Some (fd_lseek p a b c v))
  else Some (Answer (- E_NOSYS), p, v).
End Fd.
