(* ===== verification/Wakes.v ===== *)
(** The wait queues of pipes, seen from the pipes and from the scheduler: which queues the
    calls of [src/fs/vfs.c], [src/fs/pipe.c] and [src/kernel/fd.c] wake, where they go to
    sleep, and that the threads the scheduler has in a queue of a pipe are those that the
    pipe has in it. *)
From S2P Require Import Prelude Machine Runtime PageAlloc Vm HeapSpec AddressSpace Outcome Log Pipe Scheduler SchedulerProps Vfs VfsInit Elf Process Fd.

(** * Queues of pipes *)

(** The threads that the pipes say wait in the queue [q]. *)
Definition pipe_queue (v : vfs) (q : wait_queue) : list Z :=
  match pipes v !! q.1 with
  | Some p => if decide (q = pipe_readable q.1) then readable p else if decide (q = pipe_writable q.1) then writable p else []
  | None => []
  end.

(** Nothing happens to pipes. *)
Definition still (v v' : vfs) : Prop := pipes v' = pipes v ∧ woken v' = woken v.

(** Some queues are woken and thereby emptied, and [t] goes to sleep in [q], if so. *)
Definition woke (sleeper : option (wait_queue * Z)) (v v' : vfs) : Prop :=
  ∃ qs, woken v' = woken v ++ qs ∧ ∀ k, pipe_queue v' k =
    (if decide (k ∈ qs) then [] else pipe_queue v k) ++
    match sleeper with Some (q, t) => if decide (k = q) then [t] else [] | None => [] end.

#[export] Instance still_equiv : Equivalence still.
Proof.
  unfold still. split; [done|by intros v v' [? ?]|]. intros v1 v2 v3 [? ?] [? ?]. split; congruence.
Qed.

Lemma still_queue v v' k : still v v' → pipe_queue v' k = pipe_queue v k.
Proof. intros [E _]. unfold pipe_queue. by rewrite E. Qed.

Lemma woke_still v v' : still v v' → woke None v v'.
Proof.
  intros Hs. exists []. rewrite app_nil_r. split; [apply Hs|]. intros k. rewrite decide_False by (by intros ?%elem_of_nil).
  by rewrite (still_queue v v' k Hs), app_nil_r.
Qed.

Lemma woke_trans o v1 v2 v3 : woke None v1 v2 → woke o v2 v3 → woke o v1 v3.
Proof.
  intros (q1 & W1 & E1) (q2 & W2 & E2). exists (q1 ++ q2). split; [by rewrite W2, W1, app_assoc|].
  intros k. rewrite E2. f_equal. rewrite E1, app_nil_r. destruct (decide (k ∈ q2)) as [H2|H2].
  - rewrite decide_True; [done|]. apply elem_of_app. by right.
  - destruct (decide (k ∈ q1)) as [H1|H1]; [rewrite decide_True; [done|]; apply elem_of_app; by left|].
    rewrite decide_False; [done|]. rewrite elem_of_app. tauto.
Qed.

Lemma woke_still_r o v1 v2 v3 : woke o v1 v2 → still v2 v3 → woke o v1 v3.
Proof.
  intros (qs & W & E) Hs. exists qs. split; [by rewrite (proj2 Hs)|]. intros k. by rewrite (still_queue v2 v3 k Hs).
Qed.

Lemma woke_still_l o v1 v2 v3 : still v1 v2 → woke o v2 v3 → woke o v1 v3.
Proof. intros Hs. apply woke_trans. by apply woke_still. Qed.

(** One pipe in its next state. *)
Lemma pipe_step_queue a p qs v k :
  pipe_queue (pipe_step a p qs v) k =
  if decide (k.1 = a) then (if decide (k = pipe_readable a) then readable p else if decide (k = pipe_writable a) then writable p else [])
  else pipe_queue v k.
Proof.
  unfold pipe_queue, pipe_step. cbn [pipes set_woken set_pipes]. destruct (decide (k.1 = a)) as [Hk|Hk].
  - subst a. by rewrite lookup_insert_eq.
  - by rewrite lookup_insert_ne.
Qed.

Lemma queue_readable v a p : pipes v !! a = Some p → pipe_queue v (pipe_readable a) = readable p.
Proof. intros E. unfold pipe_queue. cbn [fst pipe_readable]. by rewrite E, decide_True. Qed.
Lemma queue_writable v a p : pipes v !! a = Some p → pipe_queue v (pipe_writable a) = writable p.
Proof. intros E. unfold pipe_queue. cbn [fst pipe_writable]. by rewrite E, decide_False, decide_True. Qed.

Lemma pipe_step_woke o a p p' qs v :
  pipes v !! a = Some p → (∀ k, k ∈ qs → k = pipe_readable a ∨ k = pipe_writable a) →
  (∀ q t, o = Some (q, t) → q = pipe_readable a ∨ q = pipe_writable a) →
  readable p' = (if decide (pipe_readable a ∈ qs) then [] else readable p) ++
    match o with Some (q, t) => if decide (pipe_readable a = q) then [t] else [] | None => [] end →
  writable p' = (if decide (pipe_writable a ∈ qs) then [] else writable p) ++
    match o with Some (q, t) => if decide (pipe_writable a = q) then [t] else [] | None => [] end →
  woke o v (pipe_step a p' qs v).
Proof.
  intros Hp Hqs Ho Er Ew. exists qs. split; [done|]. intros k. rewrite pipe_step_queue.
  destruct (decide (k = pipe_readable a)) as [->|Hr]; [rewrite decide_True by done; by rewrite (queue_readable v a p Hp)|].
  destruct (decide (k = pipe_writable a)) as [->|Hw]; [rewrite decide_True by done; by rewrite (queue_writable v a p Hp)|].
  assert (k ∉ qs) as Hk by (intros Hin; destruct (Hqs k Hin); tauto). rewrite (decide_False (P := k ∈ qs)) by done.
  assert (match o with Some (q, t) => if decide (k = q) then [t] else [] | None => [] end = []) as ->.
  { destruct o as [[q t]|]; [|done]. rewrite decide_False; [done|]. intros ->. destruct (Ho q t eq_refl); tauto. }
  rewrite app_nil_r. destruct (decide (k.1 = a)) as [Ha|]; [|done]. subst a. unfold pipe_queue. rewrite Hp.
  by rewrite !decide_False.
Qed.

(** * Operations on files *)

Lemma still_kern v s : still v (set_kern s v).
Proof. done. Qed.
#[local] Hint Resolve still_kern : core.

Definition sleeps (thread : Z) (q : wait_queue) (r : io) (v v' : vfs) : Prop :=
  match r with
  | Did _ => woke None v v'
  | Asleep t => (t = 0 ∧ files v' = files v ∧ woke (Some (q, thread)) v v') ∨ (t = 1 ∧ woke None v v')
  end.

Lemma sleeps_still_l thread q r v1 v2 v3 : still v1 v2 → files v2 = files v1 → sleeps thread q r v2 v3 → sleeps thread q r v1 v3.
Proof.
  intros Hs Hf. destruct r; cbn; [by apply woke_still_l|].
  intros [(-> & Ef & Hw)|[-> Hw]]; [left; split; [done|]; split; [congruence|]|right; split; [done|]]; by eapply woke_still_l.
Qed.

Section Files.
Context `{KernelHeap} `{Backends}.

Lemma pipe_read_wakes thread x buffer size_ v r v' :
  pipe_read_file thread x buffer size_ v = Some (r, v') → sleeps thread (pipe_readable (private x)) r v v'.
Proof.
  unfold pipe_read_file. destruct (pipes v !! private x) as [p|] eqn:Hp; [|done]. unfold pipe_read.
  destruct (Z.eqb_spec size_ 0) as [->|Hz].
  { intros [= <- <-]. cbn. eapply woke_still_r; [|apply still_kern]. apply (pipe_step_woke None _ p); try done; [by intros k ?%elem_of_nil|..];
      by rewrite decide_False, app_nil_r by (by intros ?%elem_of_nil). }
  destruct (spin_lock _) as [l|]; [|done]. case_if.
  { intros [= <- <-]. left. split; [done|]. split; [done|]. apply (pipe_step_woke _ _ p); try done; [by intros k ?%elem_of_nil|by intros q t [= <- <-]; left|..];
      rewrite decide_False by (by intros ?%elem_of_nil); cbn; [by rewrite decide_True|by rewrite decide_False, app_nil_r by done]. }
  destruct (copy_out _ _ _) as [bytes head]. intros [= <- <-]. cbn. eapply woke_still_r; [|apply still_kern].
  apply (pipe_step_woke None _ p); try done; [intros k ->%list_elem_of_singleton; by right|..]; cbn; rewrite app_nil_r.
  - by rewrite decide_False by (by intros ?%list_elem_of_singleton).
  - by rewrite decide_True by (by apply list_elem_of_singleton).
Qed.

Lemma pipe_write_wakes thread x buffer size_ v r v' :
  pipe_write_file thread x buffer size_ v = Some (r, v') → sleeps thread (pipe_writable (private x)) r v v'.
Proof.
  unfold pipe_write_file. destruct (pipes v !! private x) as [p|] eqn:Hp; [|done]. unfold pipe_write.
  set (bytes := bytes_at _ _ _). cbv zeta. assert (Z.of_nat (length bytes) = 0 ↔ bytes = []) as Hnil.
  { split; [|by intros ->]. intros E. apply length_zero_iff_nil. lia. }
  assert (∀ l, woke None v (pipe_step (private x)
    (mk_pipe l (readable p) (writable p) (phead p) (used p) (reader p) (writer p) (Pipe.data p)) [] v)) as Hsame.
  { intros l. apply (pipe_step_woke None _ p); try done; [by intros k ?%elem_of_nil|..]; by rewrite decide_False, app_nil_r by (by intros ?%elem_of_nil). }
  destruct (Z.eqb_spec (Z.of_nat (length bytes)) 0) as [Hz|Hz].
  { rewrite bool_decide_eq_true_2 by tauto. intros [= <- <-]. cbn. specialize (Hsame (plock p)). by destruct p. }
  rewrite bool_decide_eq_false_2 by tauto. cbn [orb]. destruct (spin_lock _) as [l|]; [|done].
  destruct ((used p =? PIPE_CAPACITY) && reader p) eqn:Efull.
  { intros [= <- <-]. left. split; [done|]. split; [done|]. apply (pipe_step_woke _ _ p); try done; [by intros k ?%elem_of_nil|by intros q t [= <- <-]; right|..];
      rewrite decide_False by (by intros ?%elem_of_nil); cbn; [by rewrite decide_False, app_nil_r by done|by rewrite decide_True]. }
  destruct (negb (reader p)) eqn:Er; [by intros [= <- <-]; apply Hsame|].
  intros [= <- <-]. cbn. apply (pipe_step_woke None _ p); try done; [intros k ->%list_elem_of_singleton; by left|..]; cbn; rewrite app_nil_r.
  - by rewrite decide_True by (by apply list_elem_of_singleton).
  - by rewrite decide_False by (by intros ?%list_elem_of_singleton).
Qed.

Lemma pipe_release_wakes x v : woke None v (pipe_release_file x v).
Proof.
  unfold pipe_release_file. destruct (pipes v !! private x) as [p|] eqn:Hp; [|by apply woke_still].
  destruct (pipe_release (flags x) p) as [[[closed threads] p']|] eqn:E; [|by apply woke_still].
  assert (readable p' = [] ∧ writable p' = []) as [Er Ew].
  { unfold pipe_release in E. destruct (spin_lock _); [|done]. by injection E as _ _ <-. }
  set (a := private x) in *. set (v1 := pipe_step a p' _ v).
  assert (woke None v v1) as Hw.
  { apply (pipe_step_woke None _ p); try done.
    - intros k. rewrite elem_of_cons, list_elem_of_singleton. tauto.
    - rewrite decide_True, Er by (by left). done.
    - rewrite decide_True, Ew by (right; by left). done. }
  destruct closed; [|done]. destruct Hw as (qs & W & Eq). exists qs. split; [done|]. intros k. rewrite <- Eq.
  unfold pipe_queue. cbn [pipes set_kern set_pipes]. unfold v1, pipe_step. cbn [pipes set_woken set_pipes].
  destruct (decide (k.1 = a)) as [<-|Hk]; [|by rewrite lookup_delete_ne].
  rewrite lookup_delete_eq, lookup_insert_eq, Er, Ew. by repeat case_decide.
Qed.

Lemma file_get_still f v : still v (file_get f v).
Proof. unfold file_get. by case_if. Qed.

Lemma file_put_woke f v : woke None v (file_put f v).
Proof.
  unfold file_put. case_if; [by apply woke_still|]. destruct (irq_save (kern v)) as [irq s].
  set (v1 := update_file _ f _). assert (still v v1) as H1 by done. eapply woke_still_r; [|apply still_kern].
  case_if; [|by apply woke_still]. destruct (ops (fl v1 f)); [by apply woke_still..|].
  eapply woke_still_l; [exact H1|]. eapply woke_still_r; [apply (pipe_release_wakes (fl v1 f))|done].
Qed.

Lemma put_files_woke l : ∀ v, woke None v (put_files l v).
Proof.
  unfold put_files. induction l as [|f l IH]; intros v; cbn [fold_left]; [by apply woke_still|].
  eapply woke_trans; [apply file_put_woke|apply IH].
Qed.

Lemma get_files_still l : ∀ v, still v (get_files l v).
Proof.
  unfold get_files. induction l as [|f l IH]; intros v; cbn [fold_left]; [done|]. etransitivity; [apply file_get_still|apply IH].
Qed.

Lemma device_read_ticks n buffer size_ s t s' : device_read n buffer size_ s = (Asleep t, s') → t = 1.
Proof.
  unfold device_read. case_if; [done|]. generalize (Z.to_nat size_), 0. intros k. revert s. induction k as [|k IH]; intros s d; cbn [device_read_loop]; [done|].
  destruct (console_getc s) as [c s1]. case_if; [case_if; [done|]; by intros [= <- _]|apply IH].
Qed.

Lemma write_loop_still f n buffer size_ fuel : ∀ done_ v r v', write_loop fuel f n buffer done_ size_ v = Some (r, v') → still v v'.
Proof.
  induction fuel as [|fuel IH]; intros done_ v r v'; cbn [write_loop]; (case_if; [by intros [= _ <-]|]); [done|].
  destruct (blocks _ !! _) as [b|]; [|done]. destruct (write_block n _ b v) as [b' v1] eqn:Eb.
  assert (still v v1) as H1.
  { unfold write_block in Eb. destruct (negb (b =? 0)); [by injection Eb as _ <-|]. destruct (page_alloc (kern v)) as [pg s].
    destruct (pg =? 0); by injection Eb as _ <-. }
  case_if; [by intros [= _ <-]|]. intros Ew. etransitivity; [exact H1|]. etransitivity; [|exact (IH _ _ _ _ Ew)]. case_if; done.
Qed.

Lemma regular_write_still f buffer size_ v r v' : regular_write f buffer size_ v = Some (r, v') → still v v'.
Proof.
  unfold regular_write. case_if; [by intros [= _ <-]|]. case_if; [by intros [= _ <-]|]. set (v1 := if negb _ then _ else v).
  assert (still v v1) as H1 by (unfold v1; by case_if). case_if; [by intros [= _ <-]|]. intros Ew. etransitivity; [exact H1|by eapply write_loop_still].
Qed.

Lemma file_read_sleeps thread f buffer size_ v r v' :
  file_read thread f buffer size_ v = Some (r, v') → sleeps thread (pipe_readable (private (fl v f))) r v v'.
Proof.
  unfold file_read. case_if; [intros [= <- <-]; by apply woke_still|]. destruct (irq_save (kern v)) as [irq s].
  set (v0 := set_kern s v). assert (∀ o, (match o with Some (Did r, v) => Some (Did r, set_kern (irq_restore irq (kern v)) v) | asleep => asleep end) = Some (r, v') →
    ∃ v1, o = Some (r, v1) ∧ still v1 v' ∧ files v' = files v1) as Hpost.
  { intros [[[k|t] v1]|] Eo; [| |done]; injection Eo as <- <-; (eexists; split; [reflexivity|]); (split; [split|]); reflexivity. }
  intros Eo. apply Hpost in Eo as (v1 & Eo & Hs1 & Hf1). clear Hpost. assert (sleeps thread (pipe_readable (private (fl v f))) r v v1) as Hsl.
  { apply (sleeps_still_l _ _ _ v v0); [done|done|]. change (fl v0 f) with (fl v f) in Eo. destruct (ops (fl v f)).
    - destruct (regular_pread _ _ _ _ _) as [[k s1]|]; [|done]. injection Eo as <- <-. apply woke_still. by case_if.
    - destruct (device_read _ _ _ _) as [k s1] eqn:Ed. injection Eo as <- <-. destruct k as [k|t]; [by apply woke_still|].
      right. split; [by eapply device_read_ticks|by apply woke_still].
    - by eapply pipe_read_wakes. }
  destruct r as [k|t]; cbn in *; [by eapply woke_still_r|]. destruct Hsl as [(-> & Ef & Hw)|[-> Hw]];
    [left; split; [done|]; split; [congruence|]|right; split; [done|]]; by eapply woke_still_r.
Qed.

Lemma file_write_sleeps thread f buffer size_ v r v' :
  file_write thread f buffer size_ v = Some (r, v') → sleeps thread (pipe_writable (private (fl v f))) r v v'.
Proof.
  unfold file_write. case_if; [intros [= <- <-]; by apply woke_still|]. destruct (irq_save (kern v)) as [irq s].
  set (v0 := set_kern s v). assert (∀ o, (match o with Some (Did r, v) => Some (Did r, set_kern (irq_restore irq (kern v)) v) | asleep => asleep end) = Some (r, v') →
    ∃ v1, o = Some (r, v1) ∧ still v1 v' ∧ files v' = files v1) as Hpost.
  { intros [[[k|t] v1]|] Eo; [| |done]; injection Eo as <- <-; (eexists; split; [reflexivity|]); (split; [split|]); reflexivity. }
  intros Eo. apply Hpost in Eo as (v1 & Eo & Hs1 & Hf1). clear Hpost. assert (sleeps thread (pipe_writable (private (fl v f))) r v v1) as Hsl.
  { apply (sleeps_still_l _ _ _ v v0); [done|done|]. change (fl v0 f) with (fl v f) in Eo. destruct (ops (fl v f)).
    - destruct (regular_write _ _ _ _) as [[k v2]|] eqn:Er; [|done]. injection Eo as <- <-. apply woke_still. by eapply regular_write_still.
    - injection Eo as <- <-. by apply woke_still.
    - by eapply pipe_write_wakes. }
  destruct r as [k|t]; cbn in *; [by eapply woke_still_r|]. destruct Hsl as [(-> & Ef & Hw)|[-> Hw]];
    [left; split; [done|]; split; [congruence|]|right; split; [done|]]; by eapply woke_still_r.
Qed.

(** ** Opening *)

Lemma new_node_still p nm ty m v n v1 : new_node p nm ty m v = (n, v1) → still v v1.
Proof. unfold new_node. destruct (kmalloc _ _) as [o s]. case_if; [by intros [= <- <-]|]. case_if; by intros [= <- <-]. Qed.

Lemma file_new_still o fl_ v f v1 : file_new o fl_ v = (f, v1) → still v v1.
Proof. unfold file_new. destruct (kmalloc _ _) as [a s]. case_if; by intros [= <- <-]. Qed.

Lemma open_create_still root base path v r v1 : open_create root base path v = Some (r, v1) → still v v1.
Proof.
  unfold open_create. case_if; [by intros [= _ <-]|]. cbv zeta. case_if; [by intros [= _ <-]|].
  destruct (if bool_decide _ then _ else _) as [[e|p]|]; [by intros [= _ <-]| |done]. do 3 (case_if; [by intros [= _ <-]|]).
  destruct (new_node _ _ _ _ v) as [n v2] eqn:En. apply new_node_still in En. case_if; by intros [= _ <-].
Qed.

Lemma vfs_openat_still root base path flags_ v e f v' : vfs_openat root base path flags_ v = Some (e, f, v') → still v v'.
Proof.
  unfold vfs_openat. case_if; [by intros [= _ _ <-]|]. destruct (irq_save (kern v)) as [irq s]. set (v0 := set_kern s v).
  destruct (open_target root base path flags_ v0) as [[[r created] v1]|] eqn:Et; [|done].
  assert (still v v1) as H1.
  { transitivity v0; [done|]. revert Et. unfold open_target. destruct (vfs_resolve _ _ _ _ _) as [found|]; [|done].
    assert (∀ c : Z, (if (c =? - E_NOENT) && negb (Z.land flags_ O_CREAT =? 0) then
      match open_create root base path v0 with Some (r, v) => Some (r, true, v) | None => None end else Some (inl c, false, v0)) =
      Some (r, created, v1) → still v0 v1) as Hc.
    { intros c. case_if; [|by intros [= _ _ <-]].
      destruct (open_create _ _ _ _) as [[r1 v2]|] eqn:Ec; [|done]. intros [= _ _ <-]. by eapply open_create_still. }
    destruct found as [c|n]; [apply Hc|]. case_if; [apply Hc|by intros [= _ _ <-]]. }
  destruct r as [c|n]; [by intros [= _ _ <-]|]. destruct (open_node n created flags_ v1) as [[e1 f1] v2] eqn:Eo. intros [= _ _ <-].
  etransitivity; [exact H1|]. revert Eo. unfold open_node. case_if; [intros [= _ _ <-]; by destruct created|].
  destruct (file_new _ _ v1) as [g v3] eqn:Ef. apply file_new_still in Ef. case_if; [intros [= _ _ <-]; by destruct created|].
  intros [= _ _ <-]. etransitivity; [exact Ef|]. by case_if.
Qed.

Lemma pipe_create_woke v e r w v' :
  (∀ o s, kmalloc SIZEOF_PIPE (kern v) = (o, s) → o ≠ 0 → pipes v !! o = None) → pipe_create v = (e, r, w, v') → woke None v v'.
Proof.
  intros Hfresh. unfold pipe_create. destruct (kmalloc SIZEOF_PIPE (kern v)) as [p s]. specialize (Hfresh p s eq_refl).
  destruct (Z.eqb_spec p 0) as [|Hp]; [intros [= _ _ _ <-]; by apply woke_still|]. specialize (Hfresh Hp).
  destruct (file_new pipe_ops O_RDONLY (set_kern s v)) as [r1 v1] eqn:E1. apply file_new_still in E1.
  assert (still v v1) as H1 by (etransitivity; [|exact E1]; done).
  case_if; [intros [= _ _ _ <-]; apply woke_still; etransitivity; [exact H1|done]|].
  set (v2 := update_file _ r1 _). assert (woke None v v2) as H2.
  { exists []. split; [rewrite app_nil_r; apply H1|]. intros k. rewrite decide_False, app_nil_r by (by intros ?%elem_of_nil).
    unfold pipe_queue, v2, update_file. cbn [pipes set_files set_pipes]. rewrite (proj1 H1). destruct (decide (k.1 = p)) as [->|Hk].
    - rewrite lookup_insert_eq, Hfresh. by repeat case_decide.
    - by rewrite lookup_insert_ne. }
  destruct (file_new pipe_ops O_WRONLY v2) as [w1 v3] eqn:E3. apply file_new_still in E3. pose proof (woke_still_r _ _ _ _ H2 E3) as H3.
  case_if; [intros [= _ _ _ <-]; by eapply woke_trans; [exact H3|apply file_put_woke]|]. intros [= _ _ _ <-].
  destruct H3 as (qs & W & Eq). exists qs. split; [done|]. intros k. rewrite <- Eq. unfold pipe_queue. cbn [pipes set_pipes].
  change (pipes (update_file (with_private p) w1 v3)) with (pipes v3). rewrite lookup_alter. case_decide as Hk; [|done]. rewrite <- Hk.
  destruct (pipes v3 !! p) as [x|]; [|done]. done.
Qed.

(** * Calls on descriptors *)

(** The queues a call that ends with [a] wakes, and the one it sleeps in. *)
Definition call_wakes (writing : bool) (thread : Z) (a : answer) (v v' : vfs) : Prop :=
  match a with
  | Answer _ => woke None v v'
  | Blocked t g _ => (t = 0 ∧ woke (Some (waits_on writing (private (fl v' g)), thread)) v v') ∨ (t = 1 ∧ woke None v v')
  end.

Lemma call_wakes_l writing thread a v1 v2 v3 : woke None v1 v2 → call_wakes writing thread a v2 v3 → call_wakes writing thread a v1 v3.
Proof.
  intros Hw. destruct a; cbn; [by apply woke_trans|]. intros [[-> Hw2]|[-> Hw2]]; [left|right]; (split; [done|by eapply woke_trans]).
Qed.

Lemma round_wakes buffer_at thread f as_ at_ chunk writing filled v r v' :
  (if writing : bool then
     '(_, s) ← (if filled : bool then Some (true, kern v) else copy_from_user (Some as_) buffer_at at_ chunk (kern v));
     file_write thread f buffer_at chunk (set_kern s v)
   else
     '(r, v) ← file_read thread f buffer_at chunk v;
     match r with
     | Did n => if n >? 0 then '(_, s) ← copy_to_user (Some as_) at_ buffer_at n (kern v); Some (r, set_kern s v) else Some (r, v)
     | Asleep _ => Some (r, v)
     end) = Some (r, v') → sleeps thread (waits_on writing (private (fl v f))) r v v'.
Proof.
  destruct writing.
  - destruct (if filled then _ else _) as [[ok s]|]; [|done]. cbn [mbind option_bind]. intros Ew%file_write_sleeps.
    by apply (sleeps_still_l _ _ _ v (set_kern s v)).
  - destruct (file_read _ _ _ _ _) as [[k v1]|] eqn:Er; [|done]. cbn [mbind option_bind]. apply file_read_sleeps in Er.
    destruct k as [n|t]; [|by intros [= <- <-]]. destruct (n >? 0); [|by intros [= <- <-]].
    destruct (copy_to_user _ _ _ _ _) as [[ok s]|]; [|done]. cbn [mbind option_bind]. intros [= <- <-]. by eapply woke_still_r.
Qed.

Lemma transfer_loop_wakes buffer_at thread f as_ address size_ writing fuel : ∀ filled done_ n v a v',
  transfer_loop buffer_at fuel thread f as_ address size_ writing filled done_ n v = Some (a, v') → call_wakes writing thread a v v'.
Proof.
  assert (∀ d n v a v', Some (Answer (if negb (d =? 0) then d else n), file_put f v) = Some (a, v') → call_wakes writing thread a v v') as Hfin.
  { intros d n v a v' [= <- <-]. apply file_put_woke. }
  induction fuel as [|fuel IH]; intros filled done_ n v a v'; cbn [transfer_loop]; (destruct (negb _); [by apply Hfin|]); [done|].
  set (chunk := if _ >? _ then _ else _).
  match goal with |- (_ ← ?e; _) = _ → _ => destruct e as [[k v1]|] eqn:Er end; [|done]. cbn [mbind option_bind].
  apply round_wakes in Er. destruct k as [k|t].
  - case_if; [intros Ef; eapply call_wakes_l; [exact Er|by apply Hfin in Ef]|].
    case_if; [intros Ef; eapply call_wakes_l; [exact Er|by apply Hfin in Ef]|].
    intros Ef%IH. by eapply call_wakes_l.
  - intros [= <- <-]. destruct Er as [(-> & Ef & Hw)|[-> Hw]]; [left|by right]. split; [done|].
    replace (fl v1 f) with (fl v f); [done|]. unfold fl. by rewrite Ef.
Qed.

Lemma transfer_wakes buffer_at thread p fd address size_ writing v a v' :
  transfer buffer_at thread p fd address size_ writing v = Some (a, v') → call_wakes writing thread a v v'.
Proof.
  unfold transfer. case_if; [intros [= <- <-]; by apply woke_still|]. case_if; [intros [= <- <-]; by apply woke_still|].
  destruct (address_space_validate _ _ _ _ _) as [ok|]; [|done]. cbn [mbind option_bind]. case_if; [intros [= <- <-]; by apply woke_still|].
  intros Ef%transfer_loop_wakes. eapply call_wakes_l; [|exact Ef]. apply woke_still, file_get_still.
Qed.

Lemma getdents_loop_still entry_at f as_ address size_ fuel : ∀ done_ v r v',
  getdents_loop entry_at fuel f as_ address size_ done_ v = Some (r, v') → still v v'.
Proof.
  induction fuel as [|fuel IH]; intros done_ v r v'; cbn [getdents_loop]; (case_if; [by intros [= _ <-]|]); [done|].
  destruct (file_getdents f SIZEOF_DIRENT v) as [[n out] v1] eqn:Eg.
  assert (still v v1) as H1.
  { revert Eg. unfold file_getdents. case_if; [by intros [= _ _ <-]|]. case_if; [by intros [= _ _ <-]|].
    destruct (irq_save (kern v)) as [irq s]. by intros [= _ _ <-]. }
  case_if; [by intros [= _ <-]|]. destruct (copy_to_user _ _ _ _ _) as [[ok s]|]; [|done]. cbn [mbind option_bind]. intros Eo%IH.
  etransitivity; [exact H1|]. etransitivity; [|exact Eo]. done.
Qed.

Lemma fd_syscall_wakes path_at buffer_at pair_at entry_at thread f p v a p' v' :
  (∀ o s, kmalloc SIZEOF_PIPE (kern v) = (o, s) → o ≠ 0 → pipes v !! o = None) →
  fd_syscall path_at buffer_at pair_at entry_at thread f p v = Some (a, p', v') →
  call_wakes (frame_x (mem (kern v)) f 17 =? SYS_WRITE) thread a v v'.
Proof.
  intros Hfresh. unfold fd_syscall. cbv zeta. set (x := frame_x (mem (kern v)) f).
  assert (∀ o : option (Z * vfs), (∀ r w, o = Some (r, w) → woke None v w) →
    ('(r, v) ← o; Some (Answer r, p, v)) = Some (a, p', v') → call_wakes (x 17 =? SYS_WRITE) thread a v v') as Hsame.
  { intros [[r w]|] Hw; [|done]. intros [= <- <- <-]. by eapply Hw. }
  assert (∀ o : option (Z * process * vfs), (∀ r q w, o = Some (r, q, w) → woke None v w) →
    ('(r, p, v) ← o; Some (Answer r, p, v)) = Some (a, p', v') → call_wakes (x 17 =? SYS_WRITE) thread a v v') as Hplain.
  { intros [[[r q] w]|] Hw; [|done]. intros [= <- <- <-]. by eapply Hw. }
  destruct (Z.eqb_spec (x 17) SYS_READ) as [E17|_].
  { rewrite E17. destruct (transfer _ _ _ _ _ _ _ _) as [[r w]|] eqn:Et; [|done]. intros [= <- <- <-]. by apply transfer_wakes in Et. }
  destruct (Z.eqb_spec (x 17) SYS_WRITE) as [E17|_].
  { destruct (transfer _ _ _ _ _ _ _ _) as [[r w]|] eqn:Et; [|done]. intros [= <- <- <-]. by apply transfer_wakes in Et. }
  case_if. { apply Hplain. intros r q w. unfold fd_close. case_if; intros [= _ _ <-]; [by apply woke_still|apply file_put_woke]. }
  assert (∀ b r q w, Some (fd_dup p (x 10) b v) = Some (r, q, w) → woke None v w) as Hdup.
  { intros b r q w. unfold fd_dup. case_if; [intros [= _ _ <-]; by apply woke_still|]. case_if; [intros [= _ _ <-]; by apply woke_still|].
    case_if; [intros [= _ _ <-]; by apply woke_still|]. intros [= _ _ <-]. eapply woke_still_l; [apply file_get_still|apply file_put_woke]. }
  case_if; [apply Hplain, Hdup|]. case_if; [apply Hplain, Hdup|].
  case_if.
  { apply Hplain. intros r q w. unfold fd_openat. destruct (path_copy _ _ _ _) as [[e s]|]; [|done]. cbn [mbind option_bind].
    case_if; [intros [= _ _ <-]; by apply woke_still|]. cbv zeta.
    destruct (if negb _ && _ then _ else _) as [?|base]; [intros [= _ _ <-]; by apply woke_still|].
    case_if; [intros [= _ _ <-]; by apply woke_still|]. case_if; [intros [= _ _ <-]; by apply woke_still|].
    destruct (vfs_openat _ _ _ _ _) as [[[e2 g] v2]|] eqn:Eo; [|done]. cbn [mbind option_bind]. apply vfs_openat_still in Eo.
    case_if; intros [= _ _ <-]; apply woke_still; (etransitivity; [|exact Eo]); done. }
  case_if.
  { apply Hplain. intros r q w. unfold fd_pipe. destruct (address_space_validate _ _ _ _ _) as [ok|]; [|done]. cbn [mbind option_bind].
    case_if; [intros [= _ _ <-]; by apply woke_still|]. cbv zeta. case_if; [intros [= _ _ <-]; by apply woke_still|].
    case_if; [intros [= _ _ <-]; by apply woke_still|]. destruct (pipe_create v) as [[[e g] h] v1] eqn:Ep.
    apply (pipe_create_woke _ _ _ _ _ Hfresh) in Ep. case_if; [by intros [= _ _ <-]|].
    destruct (copy_to_user _ _ _ _ _) as [[? s]|]; [|done]. cbn [mbind option_bind]. intros [= _ _ <-]. by eapply woke_still_r. }
  case_if.
  { apply Hsame. intros r w. unfold fd_getdents. case_if; [intros [= _ <-]; by apply woke_still|]. case_if; [intros [= _ <-]; by apply woke_still|].
    case_if; [intros [= _ <-]; by apply woke_still|]. destruct (address_space_validate _ _ _ _ _) as [ok|]; [|done]. cbn [mbind option_bind].
    case_if; [intros [= _ <-]; by apply woke_still|]. intros Eg%getdents_loop_still. by apply woke_still. }
  case_if.
  { apply Hplain. intros r q w. unfold fd_chdir. destruct (path_copy _ _ _ _) as [[e s]|]; [|done]. cbn [mbind option_bind].
    case_if; [intros [= _ _ <-]; by apply woke_still|]. destruct (vfs_resolve _ _ _ _ _) as [[?|n]|]; [intros [= _ _ <-]; by apply woke_still| |done].
    cbn [mbind option_bind]. case_if; intros [= _ _ <-]; by apply woke_still. }
  case_if.
  { apply Hsame. intros r w. unfold fd_getcwd. destruct (vfs_getcwd _ _ _ _) as [[n q]|]; [|done]. cbn [mbind option_bind].
    case_if; [intros [= _ <-]; by apply woke_still|]. case_if; [intros [= _ <-]; by apply woke_still|].
    destruct (copy_to_user _ _ _ _ _) as [[? s]|]; [|done]. cbn [mbind option_bind]. intros [= _ <-]. by apply woke_still. }
  case_if.
  { apply Hsame. intros r w. unfold fd_lseek. case_if; [intros [= _ <-]; by apply woke_still|].
    case_if; [intros [= _ <-]; by apply woke_still|]. unfold file_seek. case_if; [intros [= _ <-]; by apply woke_still|].
    destruct (irq_save (kern v)) as [irq s]. case_if; intros [= _ <-]; by apply woke_still. }
  intros [= <- <- <-]. by apply woke_still.
Qed.
End Files.

(** * The scheduler *)

Definition queue_of (s : sched) (q : wait_queue) : list Z := default [] (queues s !! q).

Lemma wake_loop_queues q fuel : ∀ s s', wake_loop fuel q s = Some s' → ∀ k, queue_of s' k = if decide (k = q) then [] else queue_of s k.
Proof.
  induction fuel as [|fuel IH]; intros s s'; cbn [wake_loop]; [done|]. unfold wait_queue_wake_one.
  assert (queue_of s q = [] → Some s = Some s' → ∀ k, queue_of s' k = if decide (k = q) then [] else queue_of s k) as Hend.
  { intros Hq [= <-] k. by destruct (decide (k = q)) as [->|]. }
  unfold queue_of in Hend at 1. destruct (queues s !! q) as [[|t l]|] eqn:E; [by apply Hend| |by apply Hend]. intros Ew k. rewrite (IH _ _ Ew k).
  destruct (decide (k = q)) as [|Hk]; [done|]. unfold queue_of.
  assert (queues (scheduler_wake_node q t s) = alter (List.remove Z.eq_dec t) q (queues s)) as ->.
  { unfold scheduler_wake_node. by case_if. }
  by rewrite lookup_alter_ne.
Qed.

Lemma wake_queues_queues qs : ∀ s s', wake_queues qs s = Some s' → ∀ k, queue_of s' k = if decide (k ∈ qs) then [] else queue_of s k.
Proof.
  induction qs as [|q qs IH]; intros s s'; cbn [wake_queues].
  { intros [= <-] k. by rewrite decide_False by (by intros ?%elem_of_nil). }
  destruct (wait_queue_wake_all q s) as [s1|] eqn:E1; [|done]. unfold wait_queue_wake_all in E1. intros E2 k. rewrite (IH _ _ E2 k), (wake_loop_queues _ _ _ _ E1 k).
  destruct (decide (k ∈ qs)) as [Hin|Hin]; [rewrite decide_True; [done|by right]|].
  destruct (decide (k = q)) as [->|Hk]; [rewrite decide_True; [done|by left]|]. rewrite decide_False; [done|]. by intros [?|?]%elem_of_cons.
Qed.

Lemma switch_queues `{ProcessSystem} m s ps b m' s' ps' : scheduler_switch (m, s, ps) = Some (b, (m', s', ps')) → queues s' = queues s.
Proof.
  unfold scheduler_switch. destruct (pick_next s) as [n|]; [|done]. case_if; intros [= _ _ <- _]; [by case_if|done].
Qed.

(** The threads the scheduler has in the queues of pipes are those the pipes have there,
    and no waking is outstanding. *)
Definition coupled (s : sched) (v : vfs) : Prop :=
  woken v = [] ∧ ∀ a q, q = pipe_readable a ∨ q = pipe_writable a → queue_of s q = pipe_queue v q.

Lemma coupled_still s v s' v' :
  still v v' → (∀ a q, q = pipe_readable a ∨ q = pipe_writable a → queue_of s' q = queue_of s q) → coupled s v → coupled s' v'.
Proof.
  intros Hst Hq [W C]. split; [by rewrite (proj2 Hst)|]. intros a q Ha. rewrite (Hq a q Ha), (C a q Ha). by rewrite (still_queue v v').
Qed.

Lemma coupled_same s s' v v' : still v v' → queues s' = queues s → coupled s v → coupled s' v'.
Proof. intros Hst Hq. apply coupled_still; [done|]. intros a q _. unfold queue_of. by rewrite Hq. Qed.

(** Settling the wakings of a call couples the two again. *)
Lemma coupled_settled s v v' s' :
  coupled s v → woke None v v' → wake_queues (woken v') s = Some s' → coupled s' (set_woken [] v').
Proof.
  intros [W C] (qs & Ew & Eq) Es. rewrite Ew, W in Es. cbn [app] in Es. split; [done|]. intros a q Ha.
  rewrite (wake_queues_queues _ _ _ Es q), (C a q Ha). change (pipe_queue (set_woken [] v') q) with (pipe_queue v' q). by rewrite Eq, app_nil_r.
Qed.

Lemma block_queues q s k :
  queue_of (scheduler_block_current q s) k = queue_of s k ++ (if decide (k = q) then [current s] else []).
Proof.
  unfold queue_of, scheduler_block_current. cbn [queues set_queues set_state upd_threads current]. destruct (decide (k = q)) as [->|Hk].
  - by rewrite lookup_insert_eq.
  - by rewrite lookup_insert_ne, app_nil_r.
Qed.

Lemma coupled_blocked s v v' s1 q :
  coupled s v → woke (Some (q, current s1)) v v' → wake_queues (woken v') s = Some s1 →
  coupled (scheduler_block_current q s1) (set_woken [] v').
Proof.
  intros [W C] (qs & Ew & Eq) Es. rewrite Ew, W in Es. cbn [app] in Es. split; [done|]. intros a k Ha.
  rewrite block_queues, (wake_queues_queues _ _ _ Es k), (C a k Ha). change (pipe_queue (set_woken [] v') k) with (pipe_queue v' k). by rewrite Eq.
Qed.

(** * Calls on processes *)

Section Processes.
Context `{KernelHeap} `{Backends}.

Lemma destroy_woke p ps : woke None (pvfs ps) (pvfs (process_destroy p ps)).
Proof.
  unfold process_destroy. case_if; [by apply woke_still|]. unfold release_runtime. destruct (address_space_destroy _ _) as [as_ m].
  eapply woke_still_r; [|apply still_kern]. cbn [pvfs update_process set_procs set_pvfs]. eapply woke_still_l; [apply (still_kern _ m)|]. apply put_files_woke.
Qed.

Lemma create_still ps p ps' : process_create ps = Some (p, ps') → still (pvfs ps) (pvfs ps').
Proof.
  unfold process_create. destruct (kmalloc _ _) as [a s]. case_if; [by intros [= _ <-]|]. destruct (address_space_init _ _) as [[ok as_] s1].
  case_if; [by intros [= _ <-]|]. destruct (irq_save _) as [flags_ s2]. unfold take_process_lock. destruct (spin_lock _); [|done]. by intros [= _ <-].
Qed.

Lemma fork_wakes tr ue p frame child_frame s ps r s' ps' :
  process_fork tr ue p frame child_frame s ps = Some (r, s', ps') → woke None (pvfs ps) (pvfs ps') ∧ queues s' = queues s.
Proof.
  unfold process_fork. destruct (process_create ps) as [[c ps1]|] eqn:Ec; [|done]. apply create_still in Ec. cbn [mbind option_bind].
  case_if; [intros [= _ <- <-]; split; [by apply woke_still|done]|]. unfold fork_child. destruct (address_space_destroy _ _) as [as_ m].
  set (ps2 := update_process _ c _). assert (still (pvfs ps) (pvfs ps2)) as H2 by (etransitivity; [exact Ec|done]).
  destruct (address_space_clone _ _ _) as [[ok copy] m2]. cbv zeta.
  case_if; [intros [= _ <- <-]; split; [|done]; eapply woke_still_l; [|apply destroy_woke]; etransitivity; [exact H2|done]|].
  destruct (address_space_move _) as [as2 ?]. 
  match goal with |- context [irq_save (pkern ?q)] => set (ps3 := q) end.
  assert (still (pvfs ps2) (pvfs ps3)) as H3 by (etransitivity; [apply still_kern|]; etransitivity; [apply get_files_still|]; done).
  destruct (irq_save (pkern ps3)) as [flags_ m3]. destruct (take_process_lock (set_pkern m3 ps3)) as [psk|] eqn:Ek; [|done]. cbn [mbind option_bind].
  assert (still (pvfs ps3) (pvfs psk)) as Hk by (revert Ek; unfold take_process_lock; destruct (spin_lock _); [|done]; by intros [= <-]).
  match goal with |- context [thread_create_user _ _ _ _ (pkern ?q) s] => set (ps4 := q) end.
  assert (still (pvfs ps) (pvfs ps4)) as H4 by (etransitivity; [exact H2|]; etransitivity; [exact H3|]; etransitivity; [exact Hk|]; done).
  destruct (thread_create_user _ _ _ _ (pkern ps4) s) as [[ok4 m4] s4] eqn:Et.
  assert (queues s4 = queues s) as Hq.
  { revert Et. unfold thread_create_user. destruct (irq_save _) as [fl m0]. case_if; [by intros [= _ _ <-]|]. unfold create_thread.
    destruct (kmalloc _ _) as [t m1]. case_if; [by intros [= _ _ <-]|]. destruct (page_alloc m1) as [k1 k2]. case_if; by intros [= _ _ <-]. }
  case_if.
  - unfold take_process_lock. destruct (spin_lock _) as [k2|]; [|done]. cbn [mbind option_bind]. intros [= _ <- <-]. split; [|done].
    eapply woke_still_l; [|apply destroy_woke]. etransitivity; [exact H4|done].
  - intros [= _ <- <-]. split; [|done]. apply woke_still. etransitivity; [exact H4|done].
Qed.

Lemma sleep_still q s ps s' ps' :
  with_sched (wait_queue_sleep q) s ps = Some (s', ps') → still (pvfs ps) (pvfs ps') ∧
  (∀ k, queue_of s' k = queue_of s k ++ (if decide (k = q) then [current s] else [])) ∧ all_threads s' = all_threads s.
Proof.
  unfold with_sched, wait_queue_sleep. destruct (scheduler_switch _) as [[b [[m s1] ps1]]|] eqn:E; [|done]. cbn [mbind option_bind]. intros [= <- <-].
  assert (ps1 = ps ∧ all_threads s1 = all_threads s) as [-> Ea].
  { revert E. unfold scheduler_switch. destruct (pick_next _); [|done]. case_if; intros [= _ _ <- <-]; split; try done. by case_if. }
  apply switch_queues in E. split; [done|]. split; [|done]. intros k. rewrite <- block_queues. unfold queue_of. by rewrite E.
Qed.

Lemma waitpid_still p pid_ address options status_at s ps w s' ps' :
  process_waitpid p pid_ address options status_at s ps = Some (w, s', ps') → still (pvfs ps) (pvfs ps') ∧
  (∀ k, queue_of s' k = queue_of s k ++ match w with WaitAsleep => if decide (k = child_wait p) then [current s] else [] | Waited _ => [] end) ∧
  all_threads s' = all_threads s.
Proof.
  unfold process_waitpid. assert (∀ r ps1, still (pvfs ps) (pvfs ps1) → Some (Waited r, s, ps1) = Some (w, s', ps') → still (pvfs ps) (pvfs ps') ∧
    (∀ k, queue_of s' k = queue_of s k ++ match w with WaitAsleep => if decide (k = child_wait p) then [current s] else [] | Waited _ => [] end) ∧
    all_threads s' = all_threads s) as Hend.
  { intros r ps1 Hs [= <- <- <-]. split; [done|]. split; [|done]. intros k. by rewrite app_nil_r. }
  case_if; [by apply Hend|]. destruct (irq_save _) as [flags_ m]. unfold take_process_lock. destruct (spin_lock _) as [k|]; [|done]. cbn [mbind option_bind].
  unfold waitpid_round. cbv zeta. case_if; [by apply Hend|]. case_if.
  - match goal with |- (_ ← ?e; _) = _ → _ => destruct e as [[b ps1]|] eqn:Ew end; [|done]. cbn [mbind option_bind].
    assert (still (pvfs ps) (pvfs ps1)) as H1.
    { revert Ew. case_if; [by intros [= _ <-]|]. destruct (copy_to_user _ _ _ _ _) as [[ok m1]|]; [|done]. by intros [= _ <-]. }
    case_if; apply Hend; (etransitivity; [exact H1|done]).
  - match goal with |- (_ ← ?e; _) = _ → _ => destruct e as [[s1 ps1]|] eqn:Ew end; [|done]. cbn [mbind option_bind].
    intros [= <- <- <-]. apply sleep_still in Ew as [Ew Ek]. split; [|exact Ek]. etransitivity; [|exact Ew]. done.
Qed.

Lemma orphan_still p l : ∀ ps, still (pvfs ps) (pvfs (orphan_loop l p ps)).
Proof.
  induction l as [|c l IH]; intros ps; [done|]. cbn [orphan_loop]. cbv zeta. etransitivity; [|apply IH]. case_if; [done|]. by case_if.
Qed.

Lemma exit_still p status_ fault_ s ps s' ps' :
  process_exit p status_ fault_ s ps = Some (s', ps') → still (pvfs ps) (pvfs ps') ∧ queues s' = queues s.
Proof.
  unfold process_exit, exit_process. destruct (irq_save _) as [flags_ m]. unfold take_process_lock. destruct (spin_lock _) as [k|]; [|done]. cbn [mbind option_bind].
  set (ps1 := drop_process_lock _). assert (still (pvfs ps) (pvfs ps1)) as H1 by (etransitivity; [|apply orphan_still]; done).
  unfold with_sched, thread_exit. destruct (irq_save _) as [flags2 m2]. destruct (scheduler_switch _) as [[b [[m3 s3] ps3]]|] eqn:E; [|done].
  cbn [mbind option_bind]. intros [= <- <-]. assert (ps3 = ps1) as ->.
  { revert E. unfold scheduler_switch. destruct (pick_next _); [|done]. case_if; by intros [= _ _ _ <-]. }
  apply switch_queues in E. split; [etransitivity; [exact H1|done]|done].
Qed.
End Processes.
