(* ===== verification/User.v ===== *)
(** [src/kernel/user.c]: the system calls of user programs.  The frame of the trap is
    memory at the address [frame]; [p] is the current process and [s] the scheduler.
    The local variables of the calls are bytes of memory at the addresses given. *)
From S2P Require Import Prelude Machine Runtime PageAlloc Vm HeapSpec AddressSpace Outcome Scheduler Vfs Elf Process Fd.
From Stdlib Require String.
Import String.StringSyntax.

Abbreviation SYS_EXIT := 2 (only parsing).
Abbreviation SYS_YIELD := 3 (only parsing).
Abbreviation SYS_GETPID := 4 (only parsing).
Abbreviation SYS_EXEC := 5 (only parsing).
Abbreviation SYS_WAITPID := 6 (only parsing).
Abbreviation SYS_FORK := 7 (only parsing).
Abbreviation SYS_BRK := 17 (only parsing).
Abbreviation SYS_MMAP := 18 (only parsing).
Abbreviation SYS_MUNMAP := 19 (only parsing).
Abbreviation USER_EFAULT := 14 (only parsing).
Abbreviation EXCEPTION_USER_ECALL := 8 (only parsing).
Abbreviation SIZEOF_ARGUMENTS := 1040 (only parsing).   (* sizeof(struct exec_arguments) *)

(** The system calls that [fd.c] handles. *)
Definition fd_number (n : Z) : bool :=
  (n =? SYS_WRITE) || (n =? SYS_READ) || (n =? SYS_OPENAT) || (n =? SYS_CLOSE) || (n =? SYS_DUP) || (n =? SYS_DUP2)
  || (n =? SYS_GETDENTS) || (n =? SYS_PIPE) || (n =? SYS_CHDIR) || (n =? SYS_GETCWD) || (n =? SYS_LSEEK).

(** What [mmap] sees of the open files: the file system with its memory apart.  A read
    that does not return is an error here. *)
Definition vfs_access (v : vfs) : FileAccess := {|
  AddressSpace.file := Z;
  file_node_type f := if node (fl v f) =? 0 then None else Some (type (vn v (node (fl v f))));
  file_flags f := flags (fl v f);
  AddressSpace.file_pread f buffer size_ offset_ s :=
    match file_pread f buffer size_ offset_ (set_kern s v) with
    | Some (r, v) => (r, kern v)
    | None => (- E_INVAL, s)
    end;
|}.

Section Strings.

(** [&destination[i]] and on, [n] bytes at most. *)
Fixpoint string_loop (n : nat) (i destination source : Z) (as_ : option address_space) (s : kstate)
    : option (bool * kstate) :=
  match n with
  | O => Some (false, s)
  | S n =>
      if source >? UINT64_MAX - i then Some (false, s)
      else
        '(ok, s) ← copy_from_user as_ (destination + i) (source + i) 1 s;
        if negb ok then Some (false, s)
        else if load8 (mem s) (destination + i) =? 0 then Some (true, s)
        else string_loop n (i + 1) destination source as_ s
  end.
Definition copy_user_string (destination capacity source : Z) (as_ : option address_space) (s : kstate)
    : option (bool * kstate) :=
  if (source =? 0) || (capacity =? 0) then Some (false, s)
  else string_loop (Z.to_nat capacity) 0 destination source as_ s.

(** The locals [pointer] and [terminator] of [copy_user_vector]. *)
Context (pointer_at : Z).

(** [*count] is the word at [count_at].  [None] when the fuel runs out. *)
Fixpoint vector_loop (fuel : nat) (vector strings maximum count_at : Z) (as_ : option address_space) (s : kstate)
    : option (bool * kstate) :=
  let count := load64 (mem s) count_at in
  if count <? maximum then
    match fuel with
    | O => None
    | S fuel =>
        '(ok, s) ← copy_from_user as_ pointer_at (u64 (vector + count * 8)) 8 s;
        if negb ok then Some (false, s)
        else
          let pointer := load64 (mem s) pointer_at in
          if pointer =? 0 then Some (true, s)
          else
            '(ok, s) ← copy_user_string (strings + EXEC_STRING_SIZE * count) EXEC_STRING_SIZE pointer as_ s;
            if negb ok then Some (false, s)
            else vector_loop fuel vector strings maximum count_at as_ (set_mem (store64 (mem s) count_at (u64 (count + 1))) s)
    end
  else
    '(ok, s) ← copy_from_user as_ pointer_at (u64 (vector + maximum * 8)) 8 s;
    Some (ok && (load64 (mem s) pointer_at =? 0), s).

Definition copy_user_vector (vector strings maximum count_at : Z) (as_ : option address_space) (s : kstate)
    : option (bool * kstate) :=
  let s := set_mem (store64 (mem s) count_at 0) s in
  if vector =? 0 then Some (true, s)
  else if vector >? UINT64_MAX - (maximum + 1) * 8 then Some (false, s)
  else vector_loop (Z.to_nat maximum) vector strings maximum count_at as_ s.

Definition copy_exec_request (user_path user_argv user_envp path arguments : Z) (as_ : option address_space) (s : kstate)
    : option (bool * kstate) :=
  let s := set_mem (memset (mem s) arguments 0 (Z.to_nat SIZEOF_ARGUMENTS)) s in
  '(ok, s) ← copy_user_string path EXEC_STRING_SIZE user_path as_ s;
  if negb ok then Some (false, s)
  else
    '(ok, s) ← copy_user_vector user_argv (argv_at arguments 0) EXEC_MAX_ARGS arguments as_ s;
    if negb ok then Some (false, s)
    else copy_user_vector user_envp (envp_at arguments 0) EXEC_MAX_ENVS (arguments + 8) as_ s.
End Strings.

(** How a system call leaves its thread. *)
Inductive reply :=
  | Reply (result : Z)                          (* [dispatch_syscall] returns true *)
  | Replaced                                    (* it returns false: the frame is the new program's *)
  | Yielded                                     (* another thread runs; the reply is 0 when this one resumes *)
  | Transferring (ticks file_ done_ : Z)        (* asleep in a transfer *)
  | Waiting                                     (* asleep in [waitpid] *)
  | Exited.                                     (* never to run again *)

Section Syscalls.
Context `{KernelHeap} `{Backends}.

(** Where threads start. *)
Context (thread_trampoline user_thread_enter : Z).

(** The local variables: of [elf_load], of [fd_syscall], [child_frame] of [process_fork],
    [status] of [process_waitpid], [pointer] of [copy_user_vector] and [path] of
    [dispatch_syscall]. *)
Context (header_at program_at words_at path_at buffer_at pair_at entry_at child_frame status_at pointer_at exec_path_at : Z).

(** The process [p] asks for another memory. *)
Definition change_space (p : Z) (r : Z * address_space * kstate) (ps : processes) : Z * processes :=
  let '(r, as_, m) := r in (r, update_process (with_as as_) p (set_pkern m ps)).

Definition sys_mmap (p : Z) (x : Z → Z) (ps : processes) : Z * processes :=
  let fd := x 14 in
  let file := if fd <? FD_COUNT then nth (Z.to_nat fd) (fds (pr ps p)) 0 else 0 in
  if (x 12 >? UINT32_MAX) || (x 13 >? UINT32_MAX) || (negb (Z.land (x 13) MAP_ANONYMOUS =? 0) && negb (s64 fd =? -1))
  then (- E_INVAL, ps)
  else
    change_space p (address_space_mmap (H0 := vfs_access (pvfs ps)) (p_as (pr ps p)) (x 10) (x 11) (x 12) (x 13)
                      (if file =? 0 then None else Some file) (x 15) (pkern ps)) ps.

Definition sys_exec (p frame : Z) (x : Z → Z) (ps : processes) : option (reply * processes) :=
  let '(arguments, m) := kmalloc SIZEOF_ARGUMENTS (pkern ps) in
  let ps := set_pkern m ps in
  if arguments =? 0 then Some (Reply (-12), ps)
  else
    '(ok, m) ← copy_exec_request pointer_at (x 10) (x 11) (x 12) exec_path_at arguments (Some (p_as (pr ps p))) (pkern ps);
    let ps := set_pkern m ps in
    if negb ok then Some (Reply (- USER_EFAULT), set_pkern (kfree arguments (pkern ps)) ps)
    else
      let path := c_string (bytes_at (mem (pkern ps)) exec_path_at EXEC_STRING_SIZE) in
      '(result, ps) ← process_exec header_at program_at words_at p frame path arguments ps;
      let ps := set_pkern (kfree arguments (pkern ps)) ps in
      Some (if negb (result =? 0) then Reply result else Replaced, ps).

(** [scheduler_yield], and whether another thread runs now. *)
Definition sys_yield (s : sched) (ps : processes) : option (reply * sched * processes) :=
  '(m, s', ps) ← scheduler_yield (pkern ps, s, ps);
  Some (if current s' =? current s then Reply 0 else Yielded, s', set_pkern m ps).

(** The end of a call on descriptors, or of a part of one: the threads that pipes have
    woken, and the sleep of [pipe_read], [pipe_write] or the console. *)
Definition end_call (writing : bool) (a : answer) (s : sched) (ps : processes) : option (reply * sched * processes) :=
  '(s, ps) ← settle_wakes s ps;
  match a with
  | Answer r => Some (Reply r, s, ps)
  | Blocked ticks file_ done_ =>
      '(s, ps) ← (if ticks =? 0 then with_sched (wait_queue_sleep (waits_on writing (private (fl (pvfs ps) file_)))) s ps
                  else '(m, s, ps) ← scheduler_sleep ticks (pkern ps, s, ps); Some (s, set_pkern m ps));
      Some (Transferring ticks file_ done_, s, ps)
  end.

Definition sys_waitpid (p : Z) (x : Z → Z) (s : sched) (ps : processes) : option (reply * sched * processes) :=
  '(w, s, ps) ← process_waitpid p (s64 (x 10)) (x 11) (x 12) status_at s ps;
  Some (match w with Waited r => Reply r | WaitAsleep => Waiting end, s, ps).

Definition dispatch_syscall (p frame : Z) (s : sched) (ps : processes) : option (reply * sched * processes) :=
  let x := frame_x (mem (pkern ps)) frame in
  let number := x 17 in
  let answer '(r, ps) := Some (Reply r, s, ps) in
  if fd_number number then
    '(a, y, v) ← fd_syscall path_at buffer_at pair_at entry_at (current s) frame (pr ps p) (pvfs ps);
    end_call (number =? SYS_WRITE) a s (set_procs (<[p := y]> (procs ps)) (set_pvfs v ps))
  else if number =? SYS_BRK then answer (change_space p (address_space_brk (p_as (pr ps p)) (x 10) (pkern ps)) ps)
  else if number =? SYS_MUNMAP then
    r ← address_space_munmap (p_as (pr ps p)) (x 10) (x 11) (pkern ps);
    answer (change_space p r ps)
  else if number =? SYS_MMAP then answer (sys_mmap p x ps)
  else if number =? SYS_EXIT then
    '(s, ps) ← process_exit p (s64 (x 10)) 0 s ps;
    Some (Exited, s, ps)
  else if number =? SYS_YIELD then sys_yield s ps
  else if number =? SYS_GETPID then answer (s64 (process_getpid s ps), ps)
  else if number =? SYS_EXEC then
    '(r, ps) ← sys_exec p frame x ps;
    '(s, ps) ← settle_wakes s ps;
    Some (r, s, ps)
  else if number =? SYS_WAITPID then sys_waitpid p x s ps
  else if number =? SYS_FORK then
    '(r, s, ps) ← process_fork thread_trampoline user_thread_enter p frame child_frame s ps;
    '(s, ps) ← settle_wakes s ps;
    Some (Reply r, s, ps)
  else answer (-38, ps).

(** What a call that has given up the processor does when its thread runs again, in the
    scheduler [s]: it goes on behind the switch.  A system call runs with interrupts off:
    the flags it has saved are those it saves again, and restoring them changes nothing. *)
Definition resume_syscall (r : reply) (p frame : Z) (s : sched) (ps : processes) : option (reply * sched * processes) :=
  let x := frame_x (mem (pkern ps)) frame in
  match r with
  | Yielded => Some (Reply 0, s, ps)
  | Waiting => sys_waitpid p x s ps
  | Transferring _ file_ done_ =>
      let writing := x 17 =? SYS_WRITE in
      '(a, v) ← transfer_loop buffer_at (transfer_fuel (x 12)) (current s) file_ (p_as (pr ps p)) (x 11) (x 12) writing true done_ 0
                  (pvfs ps);
      end_call writing a s (set_pvfs v ps)
  | Reply _ | Replaced | Exited => Some (r, s, ps)
  end.

(** [frame->x[10] = (uint64_t)result] when there is one. *)
Definition give_result (frame : Z) (r : reply) (ps : processes) : processes :=
  match r with
  | Reply result => set_pmem (set_frame_x (mem (pkern ps)) frame 10 (u64 result)) ps
  | _ => ps
  end.

(** What becomes of a trap: it is not from a user program, or it is handled and, unless
    the thread runs no more, the program goes on. *)
Inductive handled := NotUser | Handled (r : reply).

Definition user_handle_trap (frame code : Z) (s : sched) (ps : processes) : option (handled * sched * processes) :=
  match current_process s with
  | None => Some (NotUser, s, ps)
  | Some p =>
      if negb (Z.land (load64 (mem (pkern ps)) (frame + FRAME_SSTATUS)) SSTATUS_SPP =? 0) then Some (NotUser, s, ps)
      else if code =? EXCEPTION_USER_ECALL then
        let m := mem (pkern ps) in
        let ps := set_pmem (store64 m (frame + FRAME_SEPC) (u64 (load64 m (frame + FRAME_SEPC) + 4))) ps in
        '(r, s, ps) ← dispatch_syscall p frame s ps;
        Some (Handled r, s, give_result frame r ps)
      else
        '(s, ps) ← process_exit p (-1) code s ps;
        Some (Handled Exited, s, ps)
  end.

(** The rest of a trap whose call has given up the processor as [r] says. *)
Definition user_resume_trap (r : reply) (p frame : Z) (s : sched) (ps : processes) : option (reply * sched * processes) :=
  '(r, s, ps) ← resume_syscall r p frame s ps;
  Some (r, s, give_result frame r ps).

(** ** The first program *)

(** [arguments] is the address of the local structure and [result] that of the caller's;
    [initial] is the frame. *)
Definition init_arguments (arguments : Z) (m : memory) : memory :=
  let m := memset m arguments 0 (Z.to_nat SIZEOF_ARGUMENTS) in
  let m := store64 (store64 m arguments 1) (arguments + 8) 1 in
  let m := put_bytes m (argv_at arguments 0) (chars "/init" ++ [0]) in
  put_bytes m (envp_at arguments 0) (chars "BOOT=init" ++ [0]).

Definition start_init (table_ : option page_table) (arguments initial result : Z) (s : sched) (ps : processes)
    : option (bool * sched * processes) :=
  let ps := set_pmem (init_arguments arguments (mem (pkern ps))) ps in
  '(p, ps) ← process_create ps;
  let ps := set_pmem (memset (mem (pkern ps)) initial 0 (Z.to_nat SIZEOF_FRAME)) ps in
  if p =? 0 then Some (false, s, ps)
  else
    let '(as_, m) := address_space_destroy (p_as (pr ps p)) (pkern ps) in
    let ps := update_process (with_as as_) p (set_pkern m ps) in
    '(ok, image, v) ← elf_load header_at program_at words_at table_ None (chars "/init") arguments (pvfs ps);
    let ps := set_pvfs v ps in
    if negb ok then
      let ps := update_process (λ y, with_as (set_pages [] (set_table (mk_page_table 0) (p_as y))) y) p ps in
      Some (false, s, process_destroy p ps)
    else
      let '(as_, _) := address_space_move (image_as image) in
      let ps := update_process (with_as as_) p ps in
      '(error, y, v) ← fd_install_stdio (pr ps p) (pvfs ps);
      let ps := set_procs (<[p := y]> (procs ps)) (set_pvfs v ps) in
      if negb (error =? 0) then Some (false, s, process_destroy p ps)
      else
        let ps := update_process (with_result result) p ps in
        let m := store64 (mem (pkern ps)) (initial + FRAME_SEPC) (image_entry image) in
        let m := set_frame_x m initial 2 (stack_pointer image) in
        let ps := set_pmem (store64 m (initial + FRAME_SSTATUS) SSTATUS_SPIE) ps in
        let ps := process_set_init p ps in
        let '(ok, m, s) := thread_create_user thread_trampoline user_thread_enter (Some p) initial (pkern ps) s in
        let ps := set_pkern m ps in
        if negb ok then Some (false, s, process_destroy p (process_set_init 0 ps)) else Some (true, s, ps).
End Syscalls.
