(* ===== verification/Trap.v ===== *)
(** [src/arch/riscv/trap.c]: what the kernel does with an interrupt or an exception, and
    the messages of [src/platform/qemu-virt.c] it prints.  The frame that [trap.S] saves
    is memory at the address [frame]. *)
From S2P Require Import Prelude Machine Runtime PageAlloc HeapSpec Outcome Scheduler Vfs Process Fd User.
From Stdlib Require String.
Import String.StringSyntax.

Abbreviation SCAUSE_INTERRUPT := 9223372036854775808 (only parsing).
Abbreviation EXCEPTION_ILLEGAL_INSTRUCTION := 2 (only parsing).
Abbreviation EXCEPTION_BREAKPOINT := 3 (only parsing).
Abbreviation EXCEPTION_LOAD_ACCESS_FAULT := 5 (only parsing).
Abbreviation EXCEPTION_LOAD_PAGE_FAULT := 13 (only parsing).
Abbreviation INTERRUPT_SUPERVISOR_TIMER := 5 (only parsing).
Abbreviation FRAME_SCAUSE := 272 (only parsing).   (* offsetof scause *)
Abbreviation FRAME_STVAL := 280 (only parsing).    (* offsetof stval *)

Definition expected_exceptions : list Z :=
  [EXCEPTION_ILLEGAL_INSTRUCTION; EXCEPTION_BREAKPOINT; EXCEPTION_LOAD_ACCESS_FAULT].

(** The static variables, and the argument of the last [sbi_set_timer] here.
    [test_interval] is [timer_interval]. *)
Record trap_state := mk_trap {
  test_interval : Z;
  timer_ticks : Z;
  register_ticks : Z;
  register_failures : Z;
  exception_index : Z;
  test_running : bool;
  page_fault_test_running : bool;
  page_fault_seen : bool;
  expected_page_fault : Z;
  expected_fault_address : Z;
  test_deadline : Z;
}.
Definition set_counts (ticks checks failures : Z) (t : trap_state) : trap_state :=
  mk_trap (test_interval t) ticks checks failures (exception_index t) (test_running t) (page_fault_test_running t)
    (page_fault_seen t) (expected_page_fault t) (expected_fault_address t) (test_deadline t).
Definition set_index (v : Z) (t : trap_state) : trap_state :=
  mk_trap (test_interval t) (timer_ticks t) (register_ticks t) (register_failures t) v (test_running t)
    (page_fault_test_running t) (page_fault_seen t) (expected_page_fault t) (expected_fault_address t) (test_deadline t).
Definition set_seen (t : trap_state) : trap_state :=
  mk_trap (test_interval t) (timer_ticks t) (register_ticks t) (register_failures t) (exception_index t) (test_running t)
    (page_fault_test_running t) true (expected_page_fault t) (expected_fault_address t) (test_deadline t).
Definition set_deadline (v : Z) (t : trap_state) : trap_state :=
  mk_trap (test_interval t) (timer_ticks t) (register_ticks t) (register_failures t) (exception_index t) (test_running t)
    (page_fault_test_running t) (page_fault_seen t) (expected_page_fault t) (expected_fault_address t) v.

(** ** Messages *)

Section Messages.
Context `{Backends}.

(** The string before its terminator. *)
Definition console_puts (s : list Z) (m : kstate) : kstate := fold_left (λ m c, console_putc c m) s m.

Definition digits : list Z := chars "0123456789abcdef".
Definition console_puthex (value : Z) (m : kstate) : kstate :=
  fold_left (λ m shift, console_putc (nth (Z.to_nat (Z.land (Z.shiftr value shift) 15)) digits 0) m)
    [60; 56; 52; 48; 44; 40; 36; 32; 28; 24; 20; 16; 12; 8; 4; 0] (console_puts (chars "0x") m).

Definition print_trap (kind : list Z) (frame : Z) (m : kstate) : kstate :=
  let m := console_puts (chars ": scause=") (console_puts kind m) in
  let m := console_puthex (load64 (mem m) (frame + FRAME_SCAUSE)) m in
  let m := console_puts (chars " sepc=") m in
  let m := console_puthex (load64 (mem m) (frame + FRAME_SEPC)) m in
  let m := console_puts (chars " stval=") m in
  let m := console_puthex (load64 (mem m) (frame + FRAME_STVAL)) m in
  console_putc 10 m.
End Messages.

Definition exception_name (code : Z) : list Z :=
  if code =? EXCEPTION_ILLEGAL_INSTRUCTION then chars "illegal instruction"
  else if code =? EXCEPTION_BREAKPOINT then chars "breakpoint"
  else if code =? EXCEPTION_LOAD_ACCESS_FAULT then chars "load access fault"
  else chars "unexpected exception".

(** ** Dispatch *)

Definition trapped_instruction_size (sepc : Z) (m : memory) : Z :=
  if Z.land (load_le m sepc 2) 3 =? 3 then 4 else 2.

(** What becomes of a trap. *)
Inductive trapped :=
  | Ticked                    (* the scheduler's timer; another thread may run now *)
  | Measured                  (* a timer interrupt of the tests *)
  | FromUser (r : reply)      (* a user program's *)
  | FaultSeen                 (* the page fault that was expected *)
  | Expected                  (* the exception that was expected *)
  | Halted.                   (* [platform_exit(false)] *)

Section Dispatch.
Context `{KernelHeap} `{Backends}.
Context (thread_trampoline user_thread_enter : Z).
Context (header_at program_at words_at path_at buffer_at pair_at entry_at child_frame status_at pointer_at exec_path_at : Z).

(** The addresses of the test in [trap.S], and the stack pointer it saves. *)
Context (trap_register_window_start trap_register_window_end trap_register_test_sp : Z).

Definition in_register_window (sepc : Z) : bool :=
  (trap_register_window_start <=? sepc) && (sepc <? trap_register_window_end).

(** The counter is 32 bits wide. *)
Definition check_saved_registers (frame : Z) (m : memory) (failures : Z) : Z :=
  fold_left (λ failures index,
    let expected := if index =? 2 then trap_register_test_sp else index in
    if negb (frame_x m frame index =? expected) then u32 (failures + 1) else failures)
    (Z.of_nat <$> seq 1 31) failures.

(** [now] is what [csr_read_time] returns. *)
Definition handle_timer (now frame : Z) (t : trap_state) (s : sched) (ps : processes)
    : option (trapped * trap_state * sched * processes) :=
  if scheduler_timer_active s then
    '(m, s, ps) ← scheduler_tick now (pkern ps, s, ps);
    Some (Ticked, t, s, set_pkern m ps)
  else
    let t := set_counts (u32 (timer_ticks t + 1)) (register_ticks t) (register_failures t) t in
    let m := mem (pkern ps) in
    let '(t, ps) :=
      if test_running t && in_register_window (load64 m (frame + FRAME_SEPC)) then
        let t := set_counts (timer_ticks t) (u32 (register_ticks t + 1)) (check_saved_registers frame m (register_failures t)) t in
        (t, if register_ticks t =? 3 then set_pmem (store64 m (frame + FRAME_SEPC) trap_register_window_end) ps else ps)
      else (t, ps) in
    Some (Measured, set_deadline (u64 (now + test_interval t)) t, s, ps).

(** [frame->sepc += trapped_instruction_size(frame->sepc)]. *)
Definition skip_instruction (frame : Z) (ps : processes) : processes :=
  let m := mem (pkern ps) in
  let sepc := load64 m (frame + FRAME_SEPC) in
  set_pmem (store64 m (frame + FRAME_SEPC) (u64 (sepc + trapped_instruction_size sepc m))) ps.

Definition trap_print (kind : list Z) (frame : Z) (ps : processes) : processes :=
  set_pkern (print_trap kind frame (pkern ps)) ps.

Definition trap_dispatch (now frame : Z) (t : trap_state) (s : sched) (ps : processes)
    : option (trapped * trap_state * sched * processes) :=
  let scause := load64 (mem (pkern ps)) (frame + FRAME_SCAUSE) in
  let code := Z.land scause (not64 SCAUSE_INTERRUPT) in
  if negb (Z.land scause SCAUSE_INTERRUPT =? 0) then
    if code =? INTERRUPT_SUPERVISOR_TIMER then handle_timer now frame t s ps
    else Some (Halted, t, s, trap_print (chars "unexpected interrupt") frame ps)
  else
    '(h, s, ps) ← user_handle_trap thread_trampoline user_thread_enter header_at program_at words_at path_at buffer_at pair_at entry_at
                    child_frame status_at pointer_at exec_path_at frame code s ps;
    match h with
    | Handled r => Some (FromUser r, t, s, ps)
    | NotUser =>
        if page_fault_test_running t && (code =? expected_page_fault t)
           && (load64 (mem (pkern ps)) (frame + FRAME_STVAL) =? expected_fault_address t) then
          let ps := trap_print (if code =? EXCEPTION_LOAD_PAGE_FAULT then chars "load page fault" else chars "store page fault") frame ps in
          Some (FaultSeen, set_seen t, s, skip_instruction frame ps)
        else
          let ps := trap_print (exception_name code) frame ps in
          if test_running t && (exception_index t <? Z.of_nat (length expected_exceptions))
             && (code =? nth (Z.to_nat (exception_index t)) expected_exceptions 0) then
            Some (Expected, set_index (exception_index t + 1) t, s, skip_instruction frame ps)
          else Some (Halted, t, s, trap_print (chars "unhandled exception") frame ps)
    end.
End Dispatch.

(** The new [stvec] and the rest. *)
Definition trap_init (trap_entry : Z) (m : kstate) : Z * kstate :=
  (trap_entry, csr_clear_sie UINT64_MAX (csr_clear_sstatus SSTATUS_SIE m)).
