(* ===== verification/FdProps.v ===== *)
(** Descriptors and the references they hold ([src/kernel/fd.c]): closing and
    duplicating, opening, and making pipes. *)
From S2P Require Import Prelude Machine Runtime PageAlloc Vm VmInv VmProps HeapSpec Ownership AddressSpace AddressSpaceInv AddressSpaceProps AddressSpaceClone AddressSpaceAreas AddressSpaceMaps AddressSpaceCopy.
From S2P Require Import Outcome Pipe Scheduler Vfs VfsInit VfsTree VfsInv VfsFiles VfsOpen VfsPipe ElfInv World Process Fd.

(** * Tables of descriptors *)

Lemma set_slot (l : list Z) i x y : l !! i = Some x → x :: <[i := y]> l ≡ₚ y :: l.
Proof.
  revert i. induction l as [|z l IH]; intros [|i] E; try done.
  - injection E as ->. apply perm_swap.
  - cbn in E. change (<[S i := y]> (z :: l)) with (z :: <[i := y]> l).
    rewrite perm_swap, (IH i E). apply perm_swap.
Qed.

Definition table_ok (p : process) : Prop := length (fds p) = Z.to_nat FD_COUNT.

Lemma set_fd_ok slot f p : table_ok p → table_ok (set_fd slot f p).
Proof. unfold table_ok, set_fd. cbn. by rewrite length_insert. Qed.

Lemma lookup_slot p fd : table_ok p → 0 <= fd < FD_COUNT → fds p !! Z.to_nat fd = Some (lookup p fd).
Proof.
  intros Hl Hfd. unfold lookup. rewrite (proj2 (Z.ltb_lt _ _)) by lia.
  destruct (nth_lookup_or_length (fds p) (Z.to_nat fd) 0) as [E|E]; [done|]. unfold table_ok in Hl. lia.
Qed.

Lemma lookup_some p fd : table_ok p → 0 <= fd → lookup p fd ≠ 0 → 0 <= fd < FD_COUNT ∧ lookup p fd ∈ fds p.
Proof.
  intros Hl Hfd Hn. assert (fd < FD_COUNT) as Hlt.
  { unfold lookup in Hn. destruct (Z.ltb_spec fd FD_COUNT); [lia|done]. }
  split; [lia|]. eapply list_elem_of_lookup_2, lookup_slot; [done|lia].
Qed.

(** The first free slot. *)
Lemma slot_from_spec l : ∀ i, 0 <= i →
  (slot_from i l = - E_MFILE ∧ 0 ∉ l) ∨
  (i <= slot_from i l < i + Z.of_nat (length l) ∧ l !! Z.to_nat (slot_from i l - i) = Some 0 ∧
   0 ∉ take (Z.to_nat (slot_from i l - i)) l).
Proof.
  induction l as [|f l IH]; intros i Hi; cbn [slot_from].
  { left. split; [done|apply not_elem_of_nil]. }
  destruct (Z.eqb_spec f 0) as [->|Hf].
  { right. rewrite Z.sub_diag. cbn [length Z.to_nat take]. split; [lia|]. split; [done|apply not_elem_of_nil]. }
  destruct (IH (i + 1)) as [[E Hn]|(Hr & Hl & Ht)]; [lia|left|right].
  - split; [done|]. rewrite not_elem_of_cons. auto.
  - cbn [length]. split; [lia|].
    replace (Z.to_nat (slot_from (i + 1) l - i)) with (S (Z.to_nat (slot_from (i + 1) l - (i + 1)))) by lia.
    cbn [take]. split; [done|]. rewrite not_elem_of_cons. auto.
Qed.

Lemma empty_slot_spec p :
  table_ok p → (empty_slot p = - E_MFILE ∧ 0 ∉ fds p) ∨
  (0 <= empty_slot p < FD_COUNT ∧ lookup p (empty_slot p) = 0 ∧ 0 ∉ take (Z.to_nat (empty_slot p)) (fds p)).
Proof.
  intros Hl. unfold empty_slot. destruct (slot_from_spec (fds p) 0 ltac:(lia)) as [|(Hr & Hs & Ht)]; [by left|right].
  rewrite Z.sub_0_r in Hs, Ht. assert (0 <= slot_from 0 (fds p) < FD_COUNT) as Hlt by (unfold table_ok in Hl; lia).
  split; [done|]. split; [|done]. pose proof (lookup_slot p _ Hl Hlt). congruence.
Qed.

Section Descriptors.
Context `{HeapContract} `{Backends}.
Context (U O : list Z) (lo hi : Z) (Hspan : hi - lo < 2 ^ 62).

(** Replacing a descriptor. *)
Lemma holding_set v B p l slot x y :
  table_ok p → 0 <= slot < FD_COUNT → lookup p slot = x →
  holding U O lo hi v B (y :: fds p ++ l) → holding U O lo hi v B (x :: fds (set_fd slot y p) ++ l).
Proof.
  intros Hl Hs Hx. apply holding_perm. rewrite !app_comm_cons. apply Permutation_app_tail. symmetry.
  apply set_slot. rewrite <- Hx. by apply lookup_slot.
Qed.

(** ** [close] *)

Lemma fd_close_spec v B p l fd :
  holding U O lo hi v B (fds p ++ l) → table_ok p → 0 <= fd →
  let '(r, p', v') := fd_close p fd v in
  holding U O lo hi v' B (fds p' ++ l) ∧ kept U O (mem (kern v)) (mem (kern v')) ∧
  (vnodes v' = vnodes v ∧ nodes v' = nodes v ∧ mounts v' = mounts v) ∧
  if decide (lookup p fd = 0) then r = - E_BADF ∧ p' = p ∧ v' = v else r = 0 ∧ p' = set_fd fd 0 p.
Proof.
  intros Hh Hl Hfd. unfold fd_close. destruct (Z.eqb_spec (lookup p fd) 0) as [E|E].
  { rewrite decide_True by done. split; [done|]. split; [apply kept_refl|done]. }
  rewrite decide_False by done. destruct (lookup_some p fd Hl Hfd E) as [Hr _].
  destruct (holding_put U O lo hi Hspan v B (lookup p fd) (fds (set_fd fd 0 p) ++ l)) as (H1' & H2' & H3').
  { apply (holding_set v B p l fd _ 0 Hl Hr eq_refl). by apply holding_null. }
  split; [done|]. split; [done|]. done.
Qed.

(** ** [dup] and [dup2] *)

Lemma fd_dup_spec v B p l fd wanted :
  holding U O lo hi v B (fds p ++ l) → table_ok p → 0 <= fd → (∀ b, wanted = Some b → 0 <= b) →
  Z.of_nat (length (fds p ++ l)) < 2 ^ 64 - 1 →
  let '(r, p', v') := fd_dup p fd wanted v in
  holding U O lo hi v' B (fds p' ++ l) ∧ kept U O (mem (kern v)) (mem (kern v')) ∧
  (vnodes v' = vnodes v ∧ nodes v' = nodes v ∧ mounts v' = mounts v) ∧
  if decide (lookup p fd = 0) then r = - E_BADF ∧ p' = p ∧ v' = v
  else match wanted with
       | None => (r = - E_MFILE ∧ 0 ∉ fds p ∧ p' = p ∧ v' = v) ∨
           (0 <= r < FD_COUNT ∧ lookup p r = 0 ∧ 0 ∉ take (Z.to_nat r) (fds p) ∧ p' = set_fd r (lookup p fd) p)
       | Some b => if decide (b < FD_COUNT) then r = b ∧ p' = (if decide (b = fd) then p else set_fd b (lookup p fd) p)
                   else r = - E_BADF ∧ p' = p ∧ v' = v
       end.
Proof.
  intros Hh Hl Hfd Hw Hlen. unfold fd_dup. destruct (Z.eqb_spec (lookup p fd) 0) as [E|E].
  { rewrite decide_True by done. split; [done|]. split; [apply kept_refl|done]. }
  destruct (decide (lookup p fd = 0)) as [|_]; [done|]. destruct (lookup_some p fd Hl Hfd E) as [Hr Hin].
  assert (∀ slot, 0 <= slot < FD_COUNT → let v' := file_put (lookup p slot) (file_get (lookup p fd) v) in
    holding U O lo hi v' B (fds (set_fd slot (lookup p fd) p) ++ l) ∧ kept U O (mem (kern v)) (mem (kern v')) ∧
    (vnodes v' = vnodes v ∧ nodes v' = nodes v ∧ mounts v' = mounts v)) as Hput.
  { intros slot Hslot. destruct (holding_get U O lo hi Hspan v B (fds p ++ l) (lookup p fd) Hh) as (G1 & G2 & (G3 & _)); [|done|].
    { apply elem_of_app. by left. }
    destruct (holding_put U O lo hi Hspan (file_get (lookup p fd) v) B (lookup p slot) (fds (set_fd slot (lookup p fd) p) ++ l)) as (P1 & P2 & P3 & P4 & P5).
    { by apply (holding_set _ B p l slot _ _ Hl Hslot eq_refl). }
    destruct (file_get_nodes (lookup p fd) v) as [N1 N2].
    split; [done|]. split; [by eapply kept_trans|]. rewrite P3, P4, P5, N1, N2. split; [done|]. split; [done|]. apply G2. }
  destruct wanted as [b|].
  - specialize (Hw b eq_refl). destruct (Z.ltb_spec b FD_COUNT) as [Hb|Hb].
    2:{ destruct (decide (b < FD_COUNT)) as [|_]; [lia|]. change (- E_BADF <? 0) with true. cbv iota. split; [done|]. split; [apply kept_refl|done]. }
    destruct (decide (b < FD_COUNT)) as [_|]; [|lia]. rewrite (proj2 (Z.ltb_ge b 0)) by lia. destruct (Z.eqb_spec b fd) as [->|Hne].
    { rewrite decide_True by done. split; [done|]. split; [apply kept_refl|done]. }
    rewrite decide_False by done. destruct (Hput b ltac:(lia)) as (Q1 & Q2 & Q3). done.
  - destruct (empty_slot_spec p Hl) as [[E' Hn]|(Hs & Hz & Ht)].
    { rewrite E'. cbn. split; [done|]. split; [apply kept_refl|]. split; [done|]. left. done. }
    rewrite (proj2 (Z.ltb_ge _ 0)) by lia. rewrite (proj2 (Z.eqb_neq _ _)) by congruence.
    destruct (Hput (empty_slot p) Hs) as (Q1 & Q2 & Q3). split; [done|]. split; [done|]. split; [done|]. right. done.
Qed.
End Descriptors.

(** * Paths *)

(** The program sees the same memory. *)
Definition seen (a : address_space) (s s' : kstate) : Prop := ∀ va, 0 <= va < 2 ^ 38 →
  vm_query (Some (table a)) va s' = vm_query (Some (table a)) va s ∧ user_byte a va s' = user_byte a va s.

Lemma seen_refl a s : seen a s s.
Proof. done. Qed.
Lemma seen_trans a s1 s2 s3 : seen a s1 s2 → seen a s2 s3 → seen a s1 s3.
Proof. intros H1 H2 va Hva. destruct (H1 va Hva), (H2 va Hva). split; congruence. Qed.

(** [text] is the string of the program at [address]. *)
Definition user_string (a : address_space) (s : kstate) (address : Z) (text : list Z) : Prop :=
  c_chars text ∧ ∀ j, (j <= length text)%nat →
    user_byte a (address + Z.of_nat j) s = Some (nth j text 0).

(** There is one string at most. *)
Lemma user_string_inj a s address t u : user_string a s address t → user_string a s address u → t = u.
Proof.
  revert address u. induction t as [|c t IH]; intros address u [Ht Bt] [Hu Bu]; destruct u as [|d u]; [done| | |].
  - specialize (Bt 0%nat ltac:(lia)). specialize (Bu 0%nat ltac:(lia)). apply Forall_cons_1 in Hu as [Hd _].
    rewrite Bt in Bu. cbn in Bu. congruence.
  - specialize (Bt 0%nat ltac:(lia)). specialize (Bu 0%nat ltac:(lia)). apply Forall_cons_1 in Ht as [Hc _].
    rewrite Bt in Bu. cbn in Bu. congruence.
  - pose proof (Bt 0%nat ltac:(lia)) as E0. rewrite (Bu 0%nat ltac:(lia)) in E0. injection E0 as ->. f_equal.
    apply Forall_cons_1 in Ht as [_ Ht], Hu as [_ Hu].
    apply (IH (address + 1)); (split; [done|]); intros j Hj.
    + specialize (Bt (S j) ltac:(cbn; lia)). rewrite Nat2Z.inj_succ in Bt. rewrite <- Z.add_assoc, (Z.add_comm 1). exact Bt.
    + specialize (Bu (S j) ltac:(cbn; lia)). rewrite Nat2Z.inj_succ in Bu. rewrite <- Z.add_assoc, (Z.add_comm 1). exact Bu.
Qed.

(** The string in a buffer that ends at [k]. *)
Lemma c_string_prefix (g : nat → Z) k n :
  (k < n)%nat → (∀ j, (j < k)%nat → g j ≠ 0) → g k = 0 → c_string (g <$> seq 0 n) = g <$> seq 0 k.
Proof.
  intros Hk Hj Hz. replace n with (k + S (n - S k))%nat by lia. rewrite seq_app, fmap_app. cbn [seq].
  assert (c_chars (g <$> seq 0 k)) as Hc.
  { unfold c_chars. rewrite Forall_fmap, Forall_seq. intros j Hj'. apply Hj. lia. }
  rewrite fmap_cons, Nat.add_0_l, Hz. generalize (g <$> seq (S k) (n - S k)). intros rest.
  induction Hc as [|c l Hc _ IH]; [done|]. cbn [app c_string]. by rewrite (proj2 (Z.eqb_neq _ _) Hc), IH.
Qed.

Lemma validate_end a address size_ write s :
  0 < size_ → address_space_validate a address size_ write s = Some true → address + size_ <= 2 ^ 38.
Proof.
  intros Hs. unfold address_space_validate. rewrite (proj2 (Z.eqb_neq size_ 0)) by lia.
  destruct (Z.geb_spec address USER_END); [done|]. destruct (Z.gtb_spec size_ (USER_END - address)); [done|]. lia.
Qed.

Section Paths.
Context `{HeapContract} `{Backends}.
Context (U O : list Z) (lo hi : Z) (path_at : Z).
Context (Hpath : 0 < path_at) (Hbuffer : ∀ i, 0 <= i < PATH_LIMIT → region U O (path_at + i)).

Abbreviation runs := (running U O lo hi).

(** The bytes from [i] on, up to the first zero, are the program's. *)
Definition fetched (a : address_space) (s s' : kstate) (address i : Z) : Prop :=
  ∃ k, i <= k < PATH_LIMIT ∧ address + k < 2 ^ 38 ∧ (∀ j, i <= j <= k → user_byte a (address + j) s = Some (load8 (mem s') (path_at + j))) ∧
    (∀ j, i <= j < k → load8 (mem s') (path_at + j) ≠ 0) ∧ load8 (mem s') (path_at + k) = 0.

Lemma path_loop_spec B l a X address n : ∀ i v,
  runs v B l a X → 0 <= address → 0 <= i → i + Z.of_nat n = PATH_LIMIT →
  ∃ e s, path_loop path_at n i address a (kern v) = Some (e, s) ∧ runs (set_kern s v) B l a X ∧
    same_on (λ b, ¬ (path_at + i <= b < path_at + PATH_LIMIT)) (mem (kern v)) (mem s) ∧ seen a (kern v) s ∧
    (e = - E_FAULT ∨ e = - E_NAMETOOLONG ∨ (e = 0 ∧ fetched a (kern v) s address i)).
Proof using Hpath Hbuffer.
  induction n as [|n IH]; intros i v Hr Ha Hi Hn; cbn [path_loop].
  { exists (- E_NAMETOOLONG), (kern v). split; [done|]. split; [by destruct v|]. split; [done|]. split; [apply seen_refl|auto]. }
  destruct (address >? UINT64_MAX - i).
  { exists (- E_FAULT), (kern v). split; [done|]. split; [by destruct v|]. split; [done|]. split; [apply seen_refl|auto]. }
  unfold copy_from_user. cbn [Z.eqb].
  destruct (running_copy_in U O lo hi v B l a X (path_at + i) (address + i) 1 Hr) as (ok & s1 & -> & Ev & Hr1 & C1 & C2 & C3 & C4); try lia.
  { intros j Hj. rewrite <- Z.add_assoc. apply Hbuffer. lia. }
  cbn [mbind option_bind]. assert (seen a (kern v) s1) as Hs1 by (intros va Hva; auto).
  assert (same_on (λ b, ¬ (path_at + i <= b < path_at + PATH_LIMIT)) (mem (kern v)) (mem s1)) as Hm1.
  { intros b Hb. apply C1. lia. }
  destruct ok; cbn [negb].
  2:{ exists (- E_FAULT), s1. split; [done|]. auto. }
  specialize (C4 eq_refl 0 ltac:(lia)). rewrite !Z.add_0_r in C4. pose proof (validate_end _ _ 1 _ _ ltac:(lia) Ev) as Hend.
  destruct (Z.eqb_spec (load8 (mem s1) (path_at + i)) 0) as [Ez|Ez].
  { exists 0, s1. split; [done|]. split; [done|]. split; [done|]. split; [done|]. right; right. split; [done|].
    exists i. split; [lia|]. split; [lia|]. split; [|split; [lia|done]]. intros j Hj. replace j with i by lia. done. }
  destruct (IH (i + 1) (set_kern s1 v) Hr1 Ha ltac:(lia) ltac:(lia)) as (e & s2 & E2 & Hr2 & Hm2 & Hs2 & Hcase).
  exists e, s2. split; [exact E2|]. split; [exact Hr2|]. cbn [kern set_kern] in Hm2, Hs2, Hcase.
  split; [intros b Hb; rewrite Hm2 by lia; by apply Hm1|]. split; [by eapply seen_trans|].
  destruct Hcase as [|[|[He (k & Hk & Hk38 & K1 & K2 & K3)]]]; [auto|auto|]. right; right. split; [done|].
  assert (load8 (mem s2) (path_at + i) = load8 (mem s1) (path_at + i)) as Ei by (apply Hm2; lia).
  exists k. split; [lia|]. split; [lia|]. split; [|split; [|done]].
  - intros j Hj. destruct (decide (j = i)) as [->|Hj']; [by rewrite Ei|]. rewrite <- K1 by lia. symmetry.
    apply Hs1. lia.
  - intros j Hj. destruct (decide (j = i)) as [->|]; [by rewrite Ei|]. apply K2. lia.
Qed.

Lemma path_copy_spec v B l a X address :
  runs v B l a X → 0 <= address →
  ∃ e s, path_copy path_at address a (kern v) = Some (e, s) ∧ runs (set_kern s v) B l a X ∧ seen a (kern v) s ∧
    same_on (λ b, ¬ (path_at <= b < path_at + PATH_LIMIT)) (mem (kern v)) (mem s) ∧
    (e = - E_FAULT ∨ e = - E_NAMETOOLONG ∨ (e = 0 ∧ user_string a (kern v) address (path_string path_at s))).
Proof using Hpath Hbuffer.
  intros Hr Ha. destruct (path_loop_spec B l a X address (Z.to_nat PATH_LIMIT) 0 v Hr Ha ltac:(lia) ltac:(lia))
    as (e & s & E & Hr' & Hm & Hs & Hcase).
  rewrite Z.add_0_r in Hm. exists e, s. split; [exact E|]. split; [done|]. split; [done|]. split; [done|].
  destruct Hcase as [|[|[He (k & Hk & Hk38 & K1 & K2 & K3)]]]; [auto|auto|]. right; right. split; [done|].
  unfold path_string, bytes_at. rewrite (c_string_prefix _ (Z.to_nat k)); [|lia| |].
  - split.
    + unfold c_chars. rewrite Forall_fmap, Forall_seq. intros j Hj. apply K2. lia.
    + intros j Hj. rewrite length_fmap, length_seq in Hj. rewrite K1 by lia. f_equal.
      destruct (decide (j = Z.to_nat k)) as [->|Hne].
      * rewrite nth_overflow by (rewrite length_fmap, length_seq; lia). by rewrite Z2Nat.id by lia.
      * symmetry. apply nth_lookup_Some. rewrite list_lookup_fmap, lookup_seq_lt by lia. done.
  - intros j Hj. apply K2. lia.
  - rewrite Z2Nat.id by lia. done.
Qed.
End Paths.
