(* ===== verification/FdCalls.v ===== *)
(** The system calls of [src/kernel/fd.c] beside everything else: each of them returns
    or sleeps, keeps the file system and the references to its open files in order, and
    leaves the memory of all other processes alone. *)
From S2P Require Import Prelude Machine Runtime PageAlloc Vm VmInv VmProps HeapSpec Ownership AddressSpace AddressSpaceInv AddressSpaceProps AddressSpaceClone AddressSpaceAreas AddressSpaceMaps AddressSpaceCopy AddressSpaceThms.
From S2P Require Import Outcome Pipe Scheduler Vfs VfsInit VfsTree VfsInv VfsFiles VfsOpen VfsPipe VfsIo ElfInv World Process Fd FdProps.
From Stdlib Require String.
Import String.StringSyntax.

(** * The directories of a process *)

Record rooted (v : vfs) (p : process) : Prop := {
  rt_root : is_node v (p_root p);
  rt_cwd : within v (p_root p) (p_cwd p);
  rt_dir : type (vn v (p_cwd p)) = DT_DIR;
  rt_files : ∀ f x, files v !! f = Some x → node x ≠ 0 → within v (p_root p) (node x);
}.

Lemma nodes_from_io v v' : io_kept v v' → nodes_from v v'.
Proof. intros Hk f x Hx _. destruct (meta_some v v' f x Hk Hx) as (y & Hy & E). exists y. split; [done|]. unfold meta in E. congruence. Qed.

Lemma rooted_step v v' p p' :
  rooted v p → stays v v' (p_root p) → nodes_from v v' → p_root p' = p_root p → p_cwd p' = p_cwd p → rooted v' p'.
Proof.
  intros [R1 R2 R3 R4] [Hs Hw] Hf E1 E2. rewrite <- E1 in *. rewrite <- E2 in *. split.
  - by apply Hs.
  - by apply Hw.
  - destruct (Hs (p_cwd p') (within_node _ _ _ R2 R1)) as [_ ->]. done.
  - intros f x Hx Hn. destruct (Hf f x Hx Hn) as (y & Hy & E). rewrite <- E in *. apply Hw. by apply (R4 f y).
Qed.

Lemma rooted_same v v' p p' :
  rooted v p → same_tree v v' → nodes_from v v' → p_root p' = p_root p → p_cwd p' = p_cwd p → rooted v' p'.
Proof. intros Hr Ht. apply rooted_step; [done|by apply stays_same]. Qed.

Lemma rooted_io v v' p : rooted v p → io_kept v v' → rooted v' p.
Proof. intros Hr Hk. apply (rooted_same v v' p p); try done; [apply Hk|by apply nodes_from_io]. Qed.

Lemma same_vnodes v v' : vnodes v' = vnodes v → mounts v' = mounts v → same_tree v v'.
Proof. intros E1 E2. unfold same_tree, is_node, vn, shape. by rewrite E1. Qed.

(** * A program that calls *)

Section Calls.
Context `{HeapContract} `{Backends} `{!QuietConsole}.
Context (U O : list Z) (lo hi : Z) (Hspan : hi - lo < 2 ^ 62).

Abbreviation runs := (running U O lo hi).
Abbreviation holds Q := (holding U (Q ++ O) lo hi).

(** Memory of the kernel that the calls leave alone, and what they have for their local
    variables. *)
Context (W : Z → Prop) (HW : ∀ a, W a → region U O a).
Definition local (a : Z) : Prop := region U O a ∧ ¬ W a.

(** The memory of the other processes, and [W], is what it was. *)
Definition others (X : list member) (v v' : vfs) : Prop :=
  pages_same (all_pages X) (mem (kern v)) (mem (kern v')) ∧ same_on W (mem (kern v)) (mem (kern v')).

Lemma others_refl X v : others X v v.
Proof. done. Qed.
Lemma others_trans X v1 v2 v3 : others X v1 v2 → others X v2 v3 → others X v1 v3.
Proof.
  intros [A1 A2] [B1 B2]. split; [intros p Hp a Ha; rewrite (B1 p Hp a Ha); exact (A1 p Hp a Ha)|].
  intros a Ha. rewrite (B2 a Ha). exact (A2 a Ha).
Qed.

Lemma region_app Q a : region U O a → region U (Q ++ O) a.
Proof. intros [(q & Hq & Ha)|Ha]; [left|by right]. exists q. rewrite elem_of_app. auto. Qed.

(** The file system of a running program, and back: a change of it that touches only
    its own memory and what is nobody's. *)
Lemma running_open v B l a X :
  runs v B l a X → ∃ Q B', holds Q v B' l ∧
    ∀ v' l', holds Q v' B' l' → same_on (λ b, region U (Q ++ O) b ∧ ¬ local b) (mem (kern v)) (mem (kern v')) →
      runs v' B l' a X ∧ others X v v' ∧ seen a (kern v) (kern v').
Proof.
  intros [N Hw]. exists (all_pages ((a, N) :: X)), (owned_records ((a, N) :: X) ∪ B).
  split; [by apply world_holding|]. intros v' l' Hh Hm.
  assert (pages_same (all_pages ((a, N) :: X)) (mem (kern v)) (mem (kern v'))) as Hp.
  { intros p Hp b Hb. apply Hm. split; [left; exists p; rewrite elem_of_app; auto|].
    intros [Hr _]. apply (region_foreign U O lo hi v B l _ b p Hw Hr); [|done]. apply elem_of_app. by right. }
  assert (same_on W (mem (kern v)) (mem (kern v'))) as HpW.
  { intros b Hb. apply Hm. split; [apply region_app, HW, Hb|]. by intros [_ Hn]. }
  pose proof (world_vfs U O lo hi v B l _ v' l' Hw Hh Hp) as Hw'. rewrite all_pages_cons in Hp.
  split; [by exists N|]. split; [split; [intros p Hin; apply Hp; apply elem_of_app; by right|done]|].
  destruct (world_space U O lo hi v B l a N X Hw) as (Hs & _ & _). destruct (world_space U O lo hi v' B l' a N X Hw') as (Hs' & _ & _).
  intros va Hva. eapply space_pages_view; [exact Hs|exact Hs'| |done]. intros p Hpa. apply Hp. apply elem_of_app. left.
  unfold member_pages, as_pages. apply elem_of_app. right. by apply list_elem_of_fmap_2.
Qed.

Lemma kept_open Q m m' : kept U (Q ++ O) m m' → same_on (λ b, region U (Q ++ O) b ∧ ¬ local b) m m'.
Proof. intros Hk b [Hb _]. by apply Hk. Qed.

(** The program [p] runs with the directories it has, and the references to open files
    are those of its descriptors and [l]. *)
Record caller (v : vfs) (B : gset Z) (l : list Z) (p : process) (X : list member) : Prop := {
  ca_runs : runs v B (fds p ++ l) (p_as p) X;
  ca_rooted : rooted v p;
  ca_table : table_ok p;
}.

(** ** [close], [dup] and [dup2] *)

Lemma holding_is_open Q v B l f : holds Q v B l → f ∈ l → f ≠ 0 → is_Some (files v !! f).
Proof. intros Hh Hf Hn. by apply (rf_open _ _ (ho_refs _ _ _ _ _ _ _ Hh)). Qed.

Lemma put_nodes_from Q v B l f : holds Q v B (f :: l) → nodes_from v (file_put f v).
Proof.
  intros Hh. destruct (decide (f = 0)) as [->|Hf]; [by apply nodes_from_same|].
  apply file_put_nodes_from; [done|]. eapply holding_is_open; [exact Hh|by left|done].
Qed.

Lemma close_call v B l p X fd :
  caller v B l p X → 0 <= fd → let '(r, p', v') := fd_close p fd v in
  caller v' B l p' X ∧ others X v v' ∧ seen (p_as p) (kern v) (kern v') ∧ p_as p' = p_as p.
Proof.
  intros [Hr Hd Ht] Hfd. destruct (running_open v B _ _ X Hr) as (Q & B' & Hh & Hclose).
  pose proof (fd_close_spec U (Q ++ O) lo hi Hspan v B' p l fd Hh Ht Hfd) as Hs.
  assert (let '(_, _, v') := fd_close p fd v in nodes_from v v') as Hn.
  { unfold fd_close. destruct (Z.eqb_spec (lookup p fd) 0) as [E|E]; [by apply nodes_from_same|]. destruct (lookup_some p fd Ht Hfd E) as [Hlt _].
    apply (put_nodes_from Q v B' (fds (set_fd fd 0 p) ++ l)).
    by apply (holding_set U (Q ++ O) lo hi v B' p l fd _ 0 Ht Hlt eq_refl), holding_null. }
  destruct (fd_close p fd v) as [[r p'] v']. destruct Hs as (Hh' & Hk & (E1 & E2 & E3) & Hres).
  destruct (Hclose v' _ Hh' (kept_open Q _ _ Hk)) as (Hr' & Ho & Hseen).
  assert (p' = p ∨ p' = set_fd fd 0 p) as Hp' by (case_decide; tauto).
  assert (p_as p' = p_as p ∧ p_root p' = p_root p ∧ p_cwd p' = p_cwd p ∧ table_ok p') as (A1 & A2 & A3 & A4).
  { destruct Hp' as [-> | ->]; [done|]. split; [done|]. split; [done|]. split; [done|]. by apply set_fd_ok. }
  split; [|done]. split; [by rewrite A1| |done]. apply (rooted_same v v' p); try done. by apply same_vnodes.
Qed.

Lemma dup_call v B l p X fd wanted :
  caller v B l p X → 0 <= fd → (∀ b, wanted = Some b → 0 <= b) → Z.of_nat (length (fds p ++ l)) < 2 ^ 64 - 1 →
  let '(r, p', v') := fd_dup p fd wanted v in
  caller v' B l p' X ∧ others X v v' ∧ seen (p_as p) (kern v) (kern v') ∧ p_as p' = p_as p.
Proof.
  intros [Hr Hd Ht] Hfd Hwant Hlen. destruct (running_open v B _ _ X Hr) as (Q & B' & Hh & Hclose).
  pose proof (fd_dup_spec U (Q ++ O) lo hi Hspan v B' p l fd wanted Hh Ht Hfd Hwant Hlen) as Hs.
  assert (∀ slot, 0 <= slot < FD_COUNT → lookup p fd ≠ 0 → nodes_from v (file_put (lookup p slot) (file_get (lookup p fd) v))) as Hput.
  { intros slot Hslot E. destruct (lookup_some p fd Ht Hfd E) as [Hlt Hin].
    assert (lookup p fd ∈ fds p ++ l) as Hin' by (apply elem_of_app; by left).
    apply (nodes_from_trans v (file_get (lookup p fd) v)); [by apply file_get_nodes_from; eapply holding_is_open|].
    apply (put_nodes_from Q _ B' (fds (set_fd slot (lookup p fd) p) ++ l)).
    apply (holding_set U (Q ++ O) lo hi _ B' p l slot _ _ Ht Hslot eq_refl). by apply holding_get. }
  assert (let '(_, p', v') := fd_dup p fd wanted v in nodes_from v v' ∧ (p' = p ∨ ∃ slot f, p' = set_fd slot f p)) as Hn.
  { unfold fd_dup. destruct (Z.eqb_spec (lookup p fd) 0) as [E|E]; [split; [by apply nodes_from_same|by left]|].
    set (slot := match wanted with Some _ => _ | None => _ end). destruct (Z.ltb_spec slot 0) as [E1|E1]; [split; [by apply nodes_from_same|by left]|].
    destruct (slot =? fd); [split; [by apply nodes_from_same|by left]|].
    split; [|right; eauto]. apply Hput; [|done]. split; [done|]. unfold slot in *. destruct wanted as [b|].
    - destruct (Z.ltb_spec b FD_COUNT); [done|lia].
    - destruct (empty_slot_spec p Ht) as [[Ee _]|(He & _)]; lia. }
  destruct (fd_dup p fd wanted v) as [[r p'] v']. destruct Hs as (Hh' & Hk & (E1 & E2 & E3) & _). destruct Hn as [Hn Hp'].
  destruct (Hclose v' _ Hh' (kept_open Q _ _ Hk)) as (Hr' & Ho & Hseen).
  assert (p_as p' = p_as p ∧ p_root p' = p_root p ∧ p_cwd p' = p_cwd p ∧ table_ok p') as (A1 & A2 & A3 & A4).
  { destruct Hp' as [->|(slot & f & ->)]; [done|]. split; [done|]. split; [done|]. split; [done|]. by apply set_fd_ok. }
  split; [|done]. split; [by rewrite A1| |done]. apply (rooted_same v v' p); try done. by apply same_vnodes.
Qed.

(** ** Results *)

(** The call ends with the process as [p'], and the program's memory as it was. *)
Definition answered (v : vfs) (B : gset Z) (l : list Z) (p : process) (X : list member) (p' : process) (v' : vfs) : Prop :=
  caller v' B l p' X ∧ others X v v' ∧ p_as p' = p_as p.

Lemma caller_step v v' B l p X :
  caller v B l p X → runs v' B (fds p ++ l) (p_as p) X → same_tree v v' → nodes_from v v' → caller v' B l p X.
Proof. intros [C1 C2 C3] Hr Ht Hn. split; [done| |done]. by apply (rooted_same v v' p). Qed.

Lemma caller_kern v s B l p X : caller v B l p X → runs (set_kern s v) B (fds p ++ l) (p_as p) X → caller (set_kern s v) B l p X.
Proof. intros Hc Hr. apply (caller_step v); try done. by apply nodes_from_same. Qed.

(** A buffer that is nobody's. *)
Lemma others_buffer v B l a X s low size_ :
  runs v B l a X → (∀ i, 0 <= i < size_ → local (low + i)) →
  same_on (λ b, ¬ (low <= b < low + size_)) (mem (kern v)) (mem s) → others X v (set_kern s v).
Proof.
  intros [N Hw] Hb Hm. assert (∀ b, low <= b < low + size_ → local b) as Hl.
  { intros b Hin. replace b with (low + (b - low)) by lia. apply Hb. lia. }
  split; [|intros b Hwb; apply Hm; intros Hin; by apply (Hl b Hin)]. intros p Hp b Hpb. apply Hm. intros Hin.
  destruct (Hl b Hin) as [Hr _]. apply (region_foreign U O lo hi v B l _ b p Hw Hr); [|done]. rewrite all_pages_cons, !elem_of_app. auto.
Qed.

(** Two states of the same program that differ in a buffer of the kernel. *)
Lemma seen_buffer v B l a X v' B' l' X' low size_ :
  runs v B l a X → runs v' B' l' a X' → (∀ i, 0 <= i < size_ → region U O (low + i)) →
  same_on (λ b, ¬ (low <= b < low + size_)) (mem (kern v)) (mem (kern v')) → seen a (kern v) (kern v').
Proof.
  intros [N Hw] [N' Hw'] Hb Hm. destruct (world_space U O lo hi v B l a N X Hw) as (Hs & _ & _).
  destruct (world_space U O lo hi v' B' l' a N' X' Hw') as (Hs' & _ & _). intros va Hva.
  eapply space_pages_view; [exact Hs|exact Hs'| |done]. intros p Hp b Hpb. apply Hm. intros Hin.
  assert (region U O b) as Hr by (replace b with (low + (b - low)) by lia; apply Hb; lia).
  apply (region_foreign U O lo hi v B l _ b (physical p) Hw Hr); [|done]. rewrite all_pages_cons. unfold member_pages, as_pages.
  rewrite !elem_of_app. right. left. right. by apply list_elem_of_fmap_2.
Qed.

Lemma validate_seen a address size_ write s s' ok :
  address_space_validate a address size_ write s = Some ok → seen a s s' → 0 <= address → 0 < size_ →
  address_space_validate a address size_ write s' = Some ok.
Proof.
  intros E Hs Ha Hsz. unfold address_space_validate in *. destruct (Z.eqb_spec size_ 0); [done|].
  destruct (Z.geb_spec address USER_END); [done|]. destruct (Z.gtb_spec size_ (USER_END - address)); [done|]. cbn [orb] in *.
  rewrite <- E. symmetry. apply validate_loop_ext; try lia. intros va Hva. by apply Hs.
Qed.

(** ** Standard input and output *)

(** Opening into a free slot. *)
Lemma open_call v B l p X base path flags_ slot :
  caller v B l p X → within v (p_root p) base → c_chars path → 0 <= slot < FD_COUNT → lookup p slot = 0 →
  ∃ e f v', vfs_openat (p_root p) base path flags_ v = Some (e, f, v') ∧ others X v v' ∧ seen (p_as p) (kern v) (kern v') ∧
    (e < 0 ∧ caller v' B l p X ∨ e = 0 ∧ f ≠ 0 ∧ flags (fl v' f) = flags_ ∧ caller v' B l (set_fd slot f p) X).
Proof using All.
  intros [Hr Hd Ht] Hbase Hpath Hslot Hz. destruct (running_open v B _ _ X Hr) as (Q & B' & Hh & Hclose).
  destruct (holding_open U (Q ++ O) lo hi Hspan v B' _ (p_root p) base path flags_ Hh (rt_root _ _ Hd) Hbase Hpath)
    as (e & f & v' & E & Hst & Hres). exists e, f, v'. split; [done|].
  destruct Hres as [(He & -> & Hh2 & En & Hsame & Ef)|(-> & Hf & Hh2 & Hmono & n & Hdone & Hnn & Hflag & Hnode)].
  - destruct (Hclose v' _ Hh2 (kept_open Q _ _ (proj1 Hst))) as (Hr2 & Ho2 & Hs2). split; [done|]. split; [done|]. left. split; [done|].
    apply (caller_step v); try done. by apply nodes_from_same.
  - destruct Hdone as (n' & L' & D1 & D2 & D3 & D4 & D5 & D5' & D6 & D7 & D8 & D9).
    assert (holds Q v' B' (fds (set_fd slot f p) ++ l)) as Hh3.
    { apply (holding_null U (Q ++ O) lo hi). rewrite <- Hz at 1. by apply (holding_set U (Q ++ O) lo hi v' B' p l). }
    destruct (Hclose v' _ Hh3 (kept_open Q _ _ (proj1 Hst))) as (Hr2 & Ho2 & Hs2). split; [done|]. split; [done|]. right.
    split; [done|]. split; [done|]. split; [done|]. split; [done| |by apply set_fd_ok].
    destruct D5' as [Hnd Hwi]. destruct Hd as [R1 R2 R3 R4]. split; cbn [p_root p_cwd set_fd with_fds].
    + by apply Hmono.
    + by apply Hwi.
    + by destruct (Hnd (p_cwd p) (within_node _ _ _ R2 R1)) as [_ ->].
    + intros g x. rewrite D6. destruct (decide (g = f)) as [->|Hg].
      * rewrite lookup_insert_eq. intros [= <-] _. done.
      * rewrite lookup_insert_ne by done. intros Hx Hxn. apply Hwi. by apply (R4 g x).
Qed.

Lemma lookup_set_ne p slot f fd : 0 <= slot → 0 <= fd → fd ≠ slot → lookup (set_fd slot f p) fd = lookup p fd.
Proof.
  intros Hs Hf Hne. unfold lookup. case_if; [|done]. cbn. rewrite !nth_lookup. by rewrite list_lookup_insert_ne by lia.
Qed.

Lemma install_loop_call B l X rest : ∀ p v,
  caller v B l p X → NoDup rest → (∀ i, i ∈ rest → 0 <= i < FD_COUNT ∧ lookup p i = 0) →
  ∃ e p' v', install_loop rest p v = Some (e, p', v') ∧ caller v' B l p' X ∧ others X v v' ∧ p_as p' = p_as p.
Proof using All.
  induction rest as [|i rest IH]; intros p v Hc Hnd Hi; cbn [install_loop].
  { exists 0, p, v. done. }
  apply NoDup_cons in Hnd as [Hni Hnd]. destruct (Hi i ltac:(by left)) as [Hir Hiz].
  destruct (open_call v B l p X (p_root p) (chars "/dev/console") (if negb (i =? 0) then O_WRONLY else O_RDONLY) i Hc) as (e & f & v1 & -> & Ho & _ & Hcase).
  - apply within_root.
  - unfold c_chars. apply (bool_decide_unpack _). vm_compute. exact I.
  - done.
  - done.
  - cbn [mbind option_bind]. destruct Hcase as [[He Hc1]|(-> & _ & _ & Hc1)].
    { rewrite (proj2 (Z.eqb_neq e 0)) by lia. cbn [negb]. by exists e, p, v1. }
    cbn [Z.eqb negb]. destruct (IH (set_fd i f p) v1 Hc1 Hnd) as (e & p' & v' & E & Hc' & Ho' & Ea).
    { intros j Hj. destruct (Hi j ltac:(by right)) as [Hjr Hjz]. split; [done|]. rewrite lookup_set_ne; [done|lia|lia|by intros ->]. }
    exists e, p', v'. split; [done|]. split; [done|]. split; [by eapply others_trans|done].
Qed.

Lemma install_call v B l p X :
  caller v B l p X → (∀ i, 0 <= i < 3 → lookup p i = 0) →
  ∃ e p' v', fd_install_stdio p v = Some (e, p', v') ∧ caller v' B l p' X ∧ others X v v' ∧ p_as p' = p_as p.
Proof using All.
  intros Hc Hz. apply (install_loop_call B l X [0; 1; 2] p v Hc).
  - apply (bool_decide_unpack _). vm_compute. exact I.
  - intros i Hi. assert (0 <= i < 3) as Hr by (rewrite !elem_of_cons, elem_of_nil in Hi; lia). split; [lia|by apply Hz].
Qed.

(** ** [openat] *)

Section Openat.
Context (path_at : Z) (Hpath : 0 < path_at) (Hbuffer : ∀ i, 0 <= i < PATH_LIMIT → local (path_at + i)).

Lemma path_call v B l p X address :
  caller v B l p X → 0 <= address →
  ∃ e s, path_copy path_at address (p_as p) (kern v) = Some (e, s) ∧ caller (set_kern s v) B l p X ∧
    others X v (set_kern s v) ∧ seen (p_as p) (kern v) s ∧
    (e = - E_FAULT ∨ e = - E_NAMETOOLONG ∨ (e = 0 ∧ user_string (p_as p) (kern v) address (path_string path_at s))).
Proof using Hpath Hbuffer.
  intros Hc Ha. destruct (path_copy_spec U O lo hi path_at Hpath (λ i Hi, proj1 (Hbuffer i Hi)) v B _ _ X address (ca_runs _ _ _ _ _ Hc) Ha)
    as (e & s & E & Hr & Hs & Hm & Hcase). exists e, s. split; [done|]. split; [by apply caller_kern|].
  split; [|by split]. eapply others_buffer; [apply Hc|exact Hbuffer|exact Hm].
Qed.

(** The directory that relative paths start from. *)
Lemma open_base_within v B l p X fd path :
  caller v B l p X → 0 <= fd →
  match (if negb (starts_slash path) && negb (s64 fd =? AT_FDCWD) then
           if lookup p fd =? 0 then inl (- E_BADF)
           else if (node (fl v (lookup p fd)) =? 0) || negb (type (vn v (node (fl v (lookup p fd)))) =? DT_DIR) then inl (- E_NOTDIR)
           else inr (node (fl v (lookup p fd)))
         else inr (p_cwd p) : Z + Z) with
  | inl e => e < 0
  | inr base => within v (p_root p) base
  end.
Proof using Hspan HW.
  intros [Hr [R1 R2 R3 R4] Ht] Hfd. case_if; [|done]. destruct (Z.eqb_spec (lookup p fd) 0) as [|Hl]; [done|].
  destruct (Z.eqb_spec (node (fl v (lookup p fd))) 0) as [|Hn]; [done|]. cbn [orb]. case_if; [done|].
  destruct (lookup_some p fd Ht Hfd Hl) as [_ Hin]. destruct (running_open v B _ _ X Hr) as (Q & B' & Hh & _).
  destruct (holding_is_open Q v B' _ (lookup p fd) Hh) as [x Hx]; [apply elem_of_app; by left|done|].
  unfold fl in *. rewrite (lookup_total_correct _ _ _ Hx) in *. by apply (R4 (lookup p fd) x).
Qed.

Lemma openat_call v B l p X fd address flags_ :
  caller v B l p X → 0 <= fd → 0 <= address →
  ∃ r p' v', fd_openat path_at p fd address flags_ v = Some (r, p', v') ∧ answered v B l p X p' v' ∧
    seen (p_as p) (kern v) (kern v') ∧ (r < 0 ∧ p' = p ∨ lookup p r = 0 ∧ 0 <= r < FD_COUNT ∧ ∃ f, p' = set_fd r f p ∧ flags (fl v' f) = flags_ ∧ f ≠ 0).
Proof using All.
  intros Hc Hfd Ha. unfold fd_openat. destruct (path_call v B l p X address Hc Ha) as (e & s & -> & Hc1 & Ho1 & Hs1 & Hcase).
  cbn [mbind option_bind]. set (v1 := set_kern s v) in *. set (path := path_string path_at s).
  destruct (Z.eqb_spec e 0) as [He|He]; cbn [negb].
  2:{ exists e, p, v1. split; [done|]. split; [done|]. split; [done|]. left. split; [lia|done]. }
  pose proof (open_base_within v1 B l p X fd path Hc1 Hfd) as Hbase. destruct (if negb _ && _ then _ else _) as [e1|base].
  { exists e1, p, v1. split; [done|]. split; [done|]. split; [done|]. left. done. }
  pose proof Hc1 as [Hr1 Hd1 Ht]. destruct (empty_slot_spec p Ht) as [[Es _]|(Hslot & Hz & _)].
  { rewrite Es. exists (- E_MFILE), p, v1. split; [done|]. split; [done|]. split; [done|]. left. done. }
  rewrite (proj2 (Z.ltb_ge _ 0)) by lia. case_if.
  { exists (- E_INVAL), p, v1. split; [done|]. split; [done|]. split; [done|]. left. done. }
  destruct (open_call v1 B l p X base path flags_ (empty_slot p) Hc1 Hbase (c_string_chars _) Hslot Hz) as (e2 & f & v2 & -> & Ho2 & Hs2 & Hres).
  cbn [mbind option_bind]. destruct Hres as [[He2 Hc2]|(-> & Hf & Hfl & Hc2)].
  - rewrite (proj2 (Z.eqb_neq e2 0)) by lia. cbn [negb]. exists e2, p, v2. split; [done|].
    split; [split; [done|split; [by eapply others_trans|done]]|]. split; [by eapply seen_trans|by left].
  - cbn [Z.eqb negb]. eexists _, _, v2. split; [reflexivity|].
    split; [split; [done|split; [by eapply others_trans|done]]|]. split; [by eapply seen_trans|right; eauto 10].
Qed.
End Openat.

(** ** Copies *)

Lemma copy_out_call v B l p X buffer address size_ :
  caller v B l p X → buffer ≠ 0 → 0 <= address → 0 <= size_ → (∀ i, 0 <= i < size_ → region U O (buffer + i)) →
  ∃ ok s, copy_to_user (Some (p_as p)) address buffer size_ (kern v) = Some (ok, s) ∧ caller (set_kern s v) B l p X ∧
    others X v (set_kern s v) ∧ copied_out U (world_pages O v X) (p_as p) buffer address size_ ok (kern v) s ∧
    address_space_validate (p_as p) address size_ true (kern v) = Some ok.
Proof.
  intros Hc Hb Ha Hs Hbuf. destruct (running_copy_out U O lo hi v B _ _ X buffer address size_ (ca_runs _ _ _ _ _ Hc) Hb Ha Hs Hbuf)
    as (ok & s & E & Ev & Hr & Hco). unfold copy_to_user. destruct (Z.eqb_spec size_ 0) as [->|Hn].
  - unfold address_space_copy in E. cbn [Z.eqb] in E. injection E as <- <-. eexists _, _. split; [reflexivity|].
    split; [by apply caller_kern|]. done.
  - exists ok, s. split; [done|]. split; [by apply caller_kern|]. split; [|done].
    split; [|intros b Hwb; apply (proj1 Hco), region_world, HW, Hwb].
    eapply pages_same_kept; [exact (proj1 Hco)|]. intros q Hq. unfold world_pages. rewrite !elem_of_app. auto.
Qed.

Lemma copy_in_call v B l p X buffer address size_ :
  caller v B l p X → buffer ≠ 0 → 0 <= address → 0 <= size_ → (∀ i, 0 <= i < size_ → local (buffer + i)) →
  ∃ ok s, copy_from_user (Some (p_as p)) buffer address size_ (kern v) = Some (ok, s) ∧ caller (set_kern s v) B l p X ∧
    others X v (set_kern s v) ∧ copied_in (p_as p) buffer address size_ ok (kern v) s ∧
    address_space_validate (p_as p) address size_ false (kern v) = Some ok.
Proof.
  intros Hc Hb Ha Hs Hbuf. destruct (running_copy_in U O lo hi v B _ _ X buffer address size_ (ca_runs _ _ _ _ _ Hc) Hb Ha Hs (λ i Hi, proj1 (Hbuf i Hi)))
    as (ok & s & E & Ev & Hr & Hco). unfold copy_from_user. destruct (Z.eqb_spec size_ 0) as [->|Hn].
  - unfold address_space_copy in E. cbn [Z.eqb] in E. injection E as <- <-. eexists _, _. split; [reflexivity|].
    split; [by apply caller_kern|]. done.
  - exists ok, s. split; [done|]. split; [by apply caller_kern|]. split; [|done].
    eapply others_buffer; [apply Hc|exact Hbuf|exact (proj1 Hco)].
Qed.

(** A local variable is written. *)
Lemma local_call v B l p X m' low size_ :
  caller v B l p X → (∀ i, 0 <= i < size_ → local (low + i)) →
  same_on (λ b, ¬ (low <= b < low + size_)) (mem (kern v)) m' →
  let v' := set_kern (set_mem m' (kern v)) v in caller v' B l p X ∧ others X v v' ∧ seen (p_as p) (kern v) (kern v').
Proof.
  intros Hc Hb Hm v'. assert (∀ b, load8 m' b ≠ load8 (mem (kern v)) b → region U O b) as Hr.
  { intros b Hne. destruct (decide (low <= b < low + size_)) as [Hin|Hout]; [|by destruct Hne; apply Hm].
    replace b with (low + (b - low)) by lia. apply Hb. lia. }
  assert (runs v' B (fds p ++ l) (p_as p) X) as Hr' by (apply running_local; [apply Hc|done]).
  split; [by apply caller_kern|]. split.
  - eapply (others_buffer _ _ _ _ _ (set_mem m' (kern v)) low size_); [apply Hc|done|done].
  - eapply (seen_buffer v); [apply Hc|exact Hr'|exact (λ i Hi, proj1 (Hb i Hi))|exact Hm].
Qed.

(** ** [lseek] *)

Lemma file_seek_static f offset_ whence v :
  let v' := snd (file_seek f offset_ whence v) in
  (vnodes v' = vnodes v ∧ nodes v' = nodes v ∧ mounts v' = mounts v ∧ pipes v' = pipes v) ∧ same_ram (kern v) (kern v').
Proof.
  unfold file_seek. case_if; [done|]. unfold irq_save. cbv zeta. set (base := if whence =? SEEK_SET then _ else _).
  case_if; (split; [done|]); cbn; unfold irq_restore; by case_if.
Qed.

Lemma file_seek_io Q v B l f offset_ whence :
  holds Q v B l → is_Some (files v !! f) → (node (fl v f) ≠ 0 → is_node v (node (fl v f))) →
  - 2 ^ 63 <= offset_ < 2 ^ 63 → 0 <= whence → let v' := snd (file_seek f offset_ whence v) in
  holds Q v' B l ∧ io_kept v v' ∧ same_ram (kern v) (kern v').
Proof.
  intros Hh Hf Hn Ho Hw v'. destruct (file_seek_static f offset_ whence v) as [(E1 & E2 & E3 & E4) Hram]. fold v' in E1, E2, E3, E4, Hram.
  assert (∀ e, file_seek f offset_ whence v = (e, v) → v' = v) as Hsame by (intros e E; unfold v'; by rewrite E).
  destruct (decide (node (fl v f) = 0)) as [Hz|Hz].
  { rewrite (Hsame (- E_SPIPE)) by (unfold file_seek; rewrite Hz; done). done. }
  destruct (decide (type (vn v (node (fl v f))) = DT_REG)) as [Ht|Ht].
  2:{ rewrite (Hsame (- E_SPIPE)); [done|]. unfold file_seek. by rewrite (proj2 (Z.eqb_neq _ _) Hz), (proj2 (Z.eqb_neq _ _) Ht). }
  pose proof (file_seek_spec U (Q ++ O) lo hi Hspan v _ f offset_ whence (ho_ok _ _ _ _ _ _ _ Hh) Hf (Hn Hz) Ht Ho Hw) as Hs.
  unfold v' in *. destruct (file_seek f offset_ whence v) as [r v1]. cbn [snd] in *. destruct Hs as [Hv Hs].
  assert (io_kept v v1) as Hk.
  { pose proof (same_vnodes v v1 E1 E3) as Ht'. revert Hs. case_decide; intros [_ Ef]; [by eapply io_kept_offset|].
    split; [done|done|by intros g; rewrite Ef|by rewrite E4]. }
  split; [|by split]. apply (holding_io U (Q ++ O) lo hi v); try done. apply (io_kept_keys v); [done|done|apply Hh].
Qed.

Lemma descriptor_open v B l p X fd :
  caller v B l p X → 0 <= fd → lookup p fd ≠ 0 →
  is_Some (files v !! lookup p fd) ∧ (node (fl v (lookup p fd)) ≠ 0 → is_node v (node (fl v (lookup p fd)))).
Proof.
  intros [Hr Hd Ht] Hfd Hl. destruct (lookup_some p fd Ht Hfd Hl) as [_ Hin].
  destruct (running_open v B _ _ X Hr) as (Q & B' & Hh & _).
  destruct (holding_is_open Q v B' _ (lookup p fd) Hh) as [x Hx]; [apply elem_of_app; by left|done|]. split; [eauto|].
  unfold fl. rewrite (lookup_total_correct _ _ _ Hx). intros Hn. eapply within_node; [|apply Hd]. by apply (rt_files _ _ Hd (lookup p fd) x).
Qed.

Lemma lseek_call v B l p X fd offset_ whence :
  caller v B l p X → 0 <= fd → in_u64 offset_ → 0 <= whence →
  let '(r, v') := fd_lseek p fd offset_ whence v in answered v B l p X p v' ∧ seen (p_as p) (kern v) (kern v').
Proof.
  intros Hc Hfd Ho Hw. unfold fd_lseek. destruct (Z.eqb_spec (lookup p fd) 0) as [|Hl]; [done|]. case_if; [done|].
  destruct (descriptor_open v B l p X fd Hc Hfd Hl) as [Hf Hn]. pose proof Hc as [Hr Hd Ht].
  destruct (running_open v B _ _ X Hr) as (Q & B' & Hh & Hclose).
  assert (- 2 ^ 63 <= s64 offset_ < 2 ^ 63) as Hs64 by (unfold s64; unfold in_u64 in Ho; destruct (Z.ltb_spec offset_ (2 ^ 63)); lia).
  destruct (file_seek_io Q v B' _ (lookup p fd) (s64 offset_) whence Hh Hf Hn Hs64 Hw) as (Hh' & Hk & Hram).
  destruct (file_seek (lookup p fd) (s64 offset_) whence v) as [r v']. cbn [snd] in *.
  destruct (Hclose v' _ Hh') as (Hr' & Hoth & Hseen).
  { destruct Hram as (-> & _). done. }
  split; [|done]. split; [|done]. apply (caller_step v); try done; [apply Hk|by apply nodes_from_io].
Qed.

(** ** [chdir] and [getcwd] *)

Section Directories.
Context (path_at : Z) (Hpath : 0 < path_at) (Hbuffer : ∀ i, 0 <= i < PATH_LIMIT → local (path_at + i)).

Lemma chdir_call v B l p X address :
  caller v B l p X → 0 <= address →
  ∃ r p' v', fd_chdir path_at p address v = Some (r, p', v') ∧ answered v B l p X p' v' ∧ seen (p_as p) (kern v) (kern v').
Proof using All.
  intros Hc Ha. unfold fd_chdir. destruct (path_call path_at Hpath Hbuffer v B l p X address Hc Ha) as (e & s & -> & Hc1 & Ho1 & Hs1 & _).
  cbn [mbind option_bind]. set (v1 := set_kern s v) in *. case_if; [by exists e, p, v1|].
  destruct (resolve_returns v1 (p_root p) (p_cwd p) (path_string path_at s) false) as [r Er]. rewrite Er. cbn [mbind option_bind].
  destruct r as [e1|n]; [by exists e1, p, v1|]. destruct (Z.eqb_spec (type (vn v1 n)) DT_DIR) as [Hdir|]; cbn [negb]; [|by exists (- E_NOTDIR), p, v1].
  eexists _, _, v1. split; [reflexivity|]. split; [|done]. split; [|done]. pose proof Hc1 as [Hr1 Hd1 Ht]. destruct Hd1 as [R1 R2 R3 R4].
  destruct (running_open v1 B _ _ X Hr1) as (Q & B' & Hh & _).
  split; [done| |done]. split; try done. cbn. eapply resolve_within; [apply Hh|done|exact R2|exact Er].
Qed.

Lemma vfs_getcwd_returns v root cwd size_ :
  ∃ r path, vfs_getcwd v root cwd size_ = Some (r, path) ∧ (r < 0 ∨ r = Z.of_nat (length path) + 1 ∧ r <= size_).
Proof.
  unfold vfs_getcwd. destruct (getcwd_loop_returns v root (Z.to_nat PATH_LIMIT + 1) cwd (PATH_LIMIT - 1) [] ltac:(lia)) as [r Er]. rewrite Er.
  destruct r as [e|q]; [eexists _, _; split; [reflexivity|]; left; apply getcwd_loop_error in Er; lia|].
  destruct (Z.gtb_spec (Z.of_nat (length (match q with [] => [SLASH] | _ => q end)) + 1) size_); eexists _, _; (split; [reflexivity|]); lia.
Qed.

Lemma getcwd_call v B l p X address size_ :
  caller v B l p X → 0 <= address →
  ∃ r v', fd_getcwd path_at p address size_ v = Some (r, v') ∧ answered v B l p X p v'.
Proof using All.
  intros Hc Ha. unfold fd_getcwd. destruct (vfs_getcwd_returns v (p_root p) (p_cwd p) PATH_LIMIT) as (n & path & -> & Hn).
  cbn [mbind option_bind]. destruct (Z.ltb_spec n 0); [by exists n, v|]. destruct Hn as [?|[Hn Hle]]; [lia|].
  set (m1 := put_bytes (mem (kern v)) path_at (path ++ [0])).
  assert (Z.of_nat (length (path ++ [0])) = n) as Hlen by (rewrite length_app; cbn; lia).
  destruct (local_call v B l p X m1 path_at n Hc) as (Hc1 & Ho1 & _).
  { intros i Hi. apply Hbuffer. lia. }
  { intros b Hb. unfold m1. rewrite put_bytes_spec, Hlen, decide_False by lia. done. }
  set (v1 := set_kern (set_mem m1 (kern v)) v) in *. case_if; [by exists (- E_INVAL), v1|].
  destruct (copy_out_call v1 B l p X path_at address n Hc1) as (ok & s & Ec & Hc2 & Ho2 & _); [lia|done|lia|intros i Hi; apply Hbuffer; lia|].
  change (set_mem m1 (kern v)) with (kern v1). rewrite Ec. cbn [mbind option_bind]. eexists _, _. split; [reflexivity|].
  split; [done|]. split; [|done]. by apply (others_trans X v v1).
Qed.
End Directories.

(** ** [pipe] *)

Lemma second_slot_spec p first :
  table_ok p → 0 <= first < FD_COUNT →
  second_slot first p = -1 ∨ (first < second_slot first p < FD_COUNT ∧ lookup p (second_slot first p) = 0).
Proof.
  intros Ht Hf. unfold second_slot. set (rest := drop (Z.to_nat (first + 1)) (fds p)).
  assert (Z.of_nat (length rest) = FD_COUNT - (first + 1)) as Hlen by (unfold rest; rewrite length_drop, Ht; lia).
  destruct (slot_from_spec rest (first + 1) ltac:(lia)) as [[-> _]|(Hr & Hs & _)]; [by left|right].
  set (k := slot_from (first + 1) rest) in *. rewrite (proj2 (Z.ltb_ge _ 0)) by lia. split; [lia|].
  pose proof (lookup_slot p k Ht ltac:(lia)) as El. unfold rest in Hs. rewrite lookup_drop in Hs.
  replace (Z.to_nat (first + 1) + Z.to_nat (k - (first + 1)))%nat with (Z.to_nat k) in Hs by lia. congruence.
Qed.

Lemma lookup_set_eq p slot f : table_ok p → 0 <= slot < FD_COUNT → lookup (set_fd slot f p) slot = f.
Proof.
  intros Ht Hs. unfold lookup. rewrite (proj2 (Z.ltb_lt _ _)) by lia. cbn. rewrite nth_lookup, list_lookup_insert_eq; [done|].
  rewrite Ht. lia.
Qed.

(** Two new descriptors. *)
Lemma holding_set_two Q v B p l first second r w :
  table_ok p → 0 <= first < FD_COUNT → 0 <= second < FD_COUNT → first ≠ second → lookup p first = 0 → lookup p second = 0 →
  holds Q v B (r :: w :: fds p ++ l) → holds Q v B (fds (set_fd second w (set_fd first r p)) ++ l).
Proof.
  intros Ht Hf Hs Hne Zf Zs Hh. apply (holding_null U (Q ++ O) lo hi).
  apply (holding_set U (Q ++ O) lo hi v B (set_fd first r p) l second 0 w); [by apply set_fd_ok|done|by rewrite lookup_set_ne by lia|].
  apply (holding_perm _ _ _ _ _ _ (fds (set_fd first r p) ++ w :: l)); [by rewrite Permutation_middle|].
  apply (holding_null U (Q ++ O) lo hi). apply (holding_set U (Q ++ O) lo hi v B p (w :: l) first 0 r); try done.
  eapply holding_perm; [|exact Hh]. by rewrite <- Permutation_middle.
Qed.

Section Pipe.
Context (pair_at : Z) (Hpair : 0 < pair_at) (Hpairs : ∀ i, 0 <= i < 8 → local (pair_at + i)).

(** Both ends are open, and the program has their numbers. *)
Definition piped (v v' : vfs) (p p' : process) (address : Z) : Prop :=
  ∃ first second r w a, p' = set_fd second w (set_fd first r p) ∧ 0 <= first < second ∧ second < FD_COUNT ∧
    lookup p first = 0 ∧ lookup p second = 0 ∧ pipes v !! a = None ∧ pipes v' = <[a := pipe_new]> (pipes v) ∧
    fl v' r = mk_file pipe_ops 0 a 0 1 O_RDONLY ∧ fl v' w = mk_file pipe_ops 0 a 0 1 O_WRONLY ∧
    ∀ j, 0 <= j < 8 → user_byte (p_as p) (address + j) (kern v') = Some (load8 (store32 (store32 ∅ 0 first) 4 second) j).

Lemma store32_shift m m' a b x y j :
  0 <= j < 8 → load8 (store32 (store32 m a x) (a + 4) y) (a + j) = load8 (store32 (store32 m' b x) (b + 4) y) (b + j).
Proof.
  intros Hj. unfold store32. cbn [store_le]. rewrite !load8_store8.
  assert (j = 0 ∨ j = 1 ∨ j = 2 ∨ j = 3 ∨ j = 4 ∨ j = 5 ∨ j = 6 ∨ j = 7) as Hc by lia.
  repeat destruct Hc as [->|Hc]; try subst j; repeat ((rewrite decide_True by lia) || (rewrite decide_False by lia)); done.
Qed.

Lemma pipe_call v B l p X address :
  caller v B l p X → 0 <= address →
  ∃ r p' v', fd_pipe pair_at p address v = Some (r, p', v') ∧ answered v B l p X p' v' ∧
    (r < 0 ∧ p' = p ∧ seen (p_as p) (kern v) (kern v') ∨ r = 0 ∧ piped v v' p p' address).
Proof using All.
  intros Hc Ha. unfold fd_pipe. pose proof Hc as [Hr Hd Ht].
  destruct (copy_out_call v B l p X pair_at address 8 Hc) as (ok & s0 & _ & _ & _ & _ & Ev0); [lia|lia|lia|intros i Hi; by apply Hpairs|].
  rewrite Ev0. cbn [mbind option_bind]. destruct ok; cbn [negb]; [|exists (- E_FAULT), p, v; split; [done|]; split; [done|]; by left].
  destruct (empty_slot_spec p Ht) as [[-> _]|(Hf & Zf & _)]; [exists (- E_MFILE), p, v; split; [done|]; split; [done|]; by left|].
  set (first := empty_slot p) in *. rewrite (proj2 (Z.ltb_ge first 0)) by lia.
  destruct (second_slot_spec p first Ht Hf) as [->|[Hs Zs]]; [exists (- E_MFILE), p, v; split; [done|]; split; [done|]; by left|].
  set (second := second_slot first p) in *. rewrite (proj2 (Z.ltb_ge second 0)) by lia.
  destruct (running_open v B _ _ X Hr) as (Q & B' & Hh & Hclose).
  destruct (holding_pipe U (Q ++ O) lo hi Hspan v B' _ Hh) as (e & r & w & v1 & -> & Hk & (E1 & E2 & E3) & Hnf & Hres).
  pose proof (same_vnodes v v1 E1 E3) as Hsame.
  destruct Hres as [(-> & -> & -> & Hh1)|(-> & Hh1 & Hrw & a & Hpa & Hpv & Hfv & Hrn & Hwn)].
  - destruct (Hclose v1 _ Hh1 (kept_open Q _ _ Hk)) as (Hr1 & Ho1 & Hs1). eexists _, p, v1. split; [reflexivity|].
    split; [|by left]. split; [|done]. by apply (caller_step v).
  - cbn [Z.eqb negb]. set (p1 := set_fd second w (set_fd first r p)).
    assert (holds Q v1 B' (fds p1 ++ l)) as Hh2 by (apply holding_set_two; try done; lia).
    destruct (Hclose v1 _ Hh2 (kept_open Q _ _ Hk)) as (Hr1 & Ho1 & Hs1).
    assert (caller v1 B l p1 X) as Hc1.
    { split; [done| |by apply set_fd_ok, set_fd_ok]. by apply (rooted_same v v1 p). }
    set (m2 := store32 (store32 (mem (kern v1)) pair_at first) (pair_at + 4) second).
    destruct (local_call v1 B l p1 X m2 pair_at 8 Hc1 Hpairs) as (Hc2 & Ho2 & Hs2).
    { intros b Hb. unfold m2, store32. by rewrite !load8_store_le_out by lia. }
    set (v2 := set_kern (set_mem m2 (kern v1)) v1) in *.
    destruct (copy_out_call v2 B l p1 X pair_at address 8 Hc2) as (ok & s & E & Hc3 & Ho3 & (_ & _ & _ & Hbytes) & Ev); [lia|lia|lia|intros i Hi; by apply Hpairs|].
    change (set_mem m2 (kern v1)) with (kern v2). rewrite E. cbn [mbind option_bind]. eexists _, p1, _. split; [reflexivity|].
    split; [split; [done|]; split; [|done]; eapply others_trans; [exact Ho1|by eapply others_trans]|]. right. split; [done|].
    exists first, second, r, w, a. split; [done|]. split; [lia|]. split; [lia|]. do 4 (split; [done|]).
    split; [unfold fl; cbn; rewrite Hfv, lookup_total_insert_ne, lookup_total_insert_eq by done; done|].
    split; [unfold fl; cbn; by rewrite Hfv, lookup_total_insert_eq|].
    intros j Hj. assert (ok = true) as Hok.
    { apply (validate_seen (p_as p) address 8 true (kern v) (kern v2)) in Ev0; [change (address_space_validate (p_as p) address 8 true (kern v2) = Some ok) in Ev; congruence|by eapply seen_trans|lia|lia]. } etransitivity; [exact (Hbytes Hok j Hj)|]. f_equal. unfold v2. cbn [kern set_kern mem set_mem].
    unfold m2. rewrite (store32_shift _ ∅ pair_at 0 first second j Hj). by rewrite Z.add_0_l.
Qed.
End Pipe.
End Calls.
