(* ===== verification/FdIo.v ===== *)
(** Reading, writing and listing through descriptors ([transfer] and [SYS_GETDENTS] of
    [src/kernel/fd.c]). *)
From S2P Require Import Prelude Machine Runtime PageAlloc Vm VmInv VmProps HeapSpec Ownership AddressSpace AddressSpaceInv AddressSpaceProps AddressSpaceClone AddressSpaceAreas AddressSpaceMaps AddressSpaceCopy AddressSpaceThms.
From S2P Require Import Outcome Pipe Scheduler Vfs VfsInit VfsTree VfsInv VfsFiles VfsOpen VfsPipe VfsIo ElfInv World Process Fd FdProps FdCalls.

Section Io.
Context `{HeapContract} `{Backends} `{!QuietConsole}.
Context (U O : list Z) (lo hi : Z) (Hspan : hi - lo < 2 ^ 62).
Context (W : Z → Prop) (HW : ∀ a, W a → region U O a).

Abbreviation calls := (caller U O lo hi).
Abbreviation holds Q := (holding U (Q ++ O) lo hi).
Abbreviation others := (others W).
Abbreviation local := (local U O W).

Lemma buffer_more Q buffer size_ : buffer_ok U O lo hi buffer size_ → buffer_ok U (Q ++ O) lo hi buffer size_.
Proof. intros Hb a Ha. destruct (Hb a Ha). split; [by apply (region_app U O)|done]. Qed.

(** A step of the file system that moves offsets and contents. *)
Lemma io_call v B l p X :
  calls v B l p X → ∃ Q B', holds Q v B' (fds p ++ l) ∧
    ∀ v', holds Q v' B' (fds p ++ l) → io_kept v v' →
      same_on (λ b, region U (Q ++ O) b ∧ ¬ local b) (mem (kern v)) (mem (kern v')) →
      calls v' B l p X ∧ others X v v' ∧ seen (p_as p) (kern v) (kern v').
Proof.
  intros Hc. destruct (running_open U O lo hi W HW v B _ _ X (ca_runs _ _ _ _ _ _ _ _ _ Hc)) as (Q & B' & Hh & Hclose).
  exists Q, B'. split; [done|]. intros v' Hh' Hk Hm. destruct (Hclose v' _ Hh' Hm) as (Hr & Ho & Hs). split; [|done].
  apply (caller_step U O lo hi v); try done; [apply Hk|by apply nodes_from_io].
Qed.

(** The reference a transfer holds is given back. *)
Lemma put_call v B l p X f :
  calls v B (f :: l) p X → calls (file_put f v) B l p X ∧ others X v (file_put f v) ∧ seen (p_as p) (kern v) (kern (file_put f v)).
Proof using Hspan HW.
  intros Hc. destruct (running_open U O lo hi W HW v B _ _ X (ca_runs _ _ _ _ _ _ _ _ _ Hc)) as (Q & B' & Hh & Hclose).
  assert (holds Q v B' (f :: fds p ++ l)) as Hh1 by (eapply holding_perm; [|exact Hh]; by rewrite <- Permutation_middle).
  destruct (holding_put U (Q ++ O) lo hi Hspan v B' f _ Hh1) as (Hh2 & Hk & E1 & E2 & E3).
  destruct (Hclose _ _ Hh2 (kept_open U O W Q _ _ Hk)) as (Hr & Ho & Hs). split; [|done].
  destruct Hc as [_ Hd Ht]. split; [done| |done]. apply (rooted_same v _ p); try done; [by apply same_vnodes|].
  by eapply put_nodes_from.
Qed.

Lemma get_call v B l p X f :
  calls v B l p X → f ∈ fds p → f ≠ 0 → Z.of_nat (length (fds p ++ l)) < 2 ^ 64 - 1 →
  calls (file_get f v) B (f :: l) p X ∧ others X v (file_get f v) ∧ seen (p_as p) (kern v) (kern (file_get f v)).
Proof using Hspan HW.
  intros Hc Hf Hn Hlen. destruct (running_open U O lo hi W HW v B _ _ X (ca_runs _ _ _ _ _ _ _ _ _ Hc)) as (Q & B' & Hh & Hclose).
  assert (f ∈ fds p ++ l) as Hin by (apply elem_of_app; by left).
  destruct (holding_get U (Q ++ O) lo hi Hspan v B' _ f Hh Hin Hlen) as (Hh2 & Ht & Hst).
  assert (holds Q (file_get f v) B' (fds p ++ f :: l)) as Hh3 by (eapply holding_perm; [|exact Hh2]; by rewrite <- Permutation_middle).
  destruct (Hclose _ _ Hh3 (kept_open U O W Q _ _ (proj1 Hst))) as (Hr & Ho & Hs). split; [|done].
  destruct Hc as [_ Hd Htab]. split; [done| |done]. apply (rooted_same v _ p); try done.
  apply file_get_nodes_from. by eapply holding_is_open.
Qed.

(** ** One operation *)

Section Buffer.
Context (buffer_at : Z) (Hbuffer : 0 < buffer_at) (Hbuf : buffer_ok U O lo hi buffer_at 256)
  (Hfree : ∀ a, buffer_at <= a < buffer_at + 256 → ¬ W a).

Lemma buffer_ok_region k i : 0 <= i < k → k <= 256 → local (buffer_at + i).
Proof using Hbuf Hfree. intros Hi Hk. split; [apply (Hbuf (buffer_at + i))|apply Hfree]; lia. Qed.

Lemma read_call v B l p X thread f k :
  calls v B l p X → is_Some (files v !! f) → 0 <= k <= 256 →
  ∃ r v', file_read thread f buffer_at k v = Some (r, v') ∧ calls v' B l p X ∧ others X v v' ∧
    seen (p_as p) (kern v) (kern v') ∧ io_kept v v' ∧ ∀ n, r = Did n → n <= k.
Proof using All.
  intros Hc Hf Hk. destruct (io_call v B l p X Hc) as (Q & B' & Hh & Hclose).
  destruct (file_read_io U (Q ++ O) lo hi Hspan v B' _ thread f buffer_at k Hh Hf) as (r & v' & E & (Hh' & Hio & Hr) & Hm); [lia| |].
  { apply buffer_more. eapply buffer_sub; [|exact Hbuf]. lia. }
  exists r, v'. split; [done|]. destruct (Hclose v' Hh' Hio) as (A1 & A2 & A3); [|done].
  intros b [_ Hb]. apply Hm. intros Hin. apply Hb. split; [apply (Hbuf b)|apply Hfree]; lia.
Qed.

Lemma write_call v B l p X thread f k :
  calls v B l p X → is_Some (files v !! f) → 0 <= k <= 256 →
  ∃ r v', file_write thread f buffer_at k v = Some (r, v') ∧ calls v' B l p X ∧ others X v v' ∧
    seen (p_as p) (kern v) (kern v') ∧ io_kept v v' ∧ ∀ n, r = Did n → n <= k.
Proof using All.
  intros Hc Hf Hk. destruct (io_call v B l p X Hc) as (Q & B' & Hh & Hclose).
  destruct (file_write_io U (Q ++ O) lo hi Hspan v B' _ thread f buffer_at k Hh Hf) as (r & v' & E & (Hh' & Hio & Hr) & Hm); [lia| |].
  { intros a Ha. apply (region_app U O), (Hbuf a). lia. }
  exists r, v'. split; [done|]. destruct (Hclose v' Hh' Hio) as (A1 & A2 & A3); [|done]. by apply kept_open.
Qed.

(** One round of the loop: the bytes of the chunk, and the result of the operation. *)
Definition round_of (thread f : Z) (as_ : address_space) (at_ chunk : Z) (writing filled : bool) (v : vfs) : option (io * vfs) :=
  if writing then
    '(_, s) ← (if filled then Some (true, kern v) else copy_from_user (Some as_) buffer_at at_ chunk (kern v));
    file_write thread f buffer_at chunk (set_kern s v)
  else
    '(r, v) ← file_read thread f buffer_at chunk v;
    match r with
    | Did n => if n >? 0 then '(_, s) ← copy_to_user (Some as_) at_ buffer_at n (kern v); Some (r, set_kern s v)
               else Some (r, v)
    | Asleep _ => Some (r, v)
    end.

Lemma round_call v B l p X thread f at_ chunk writing filled :
  calls v B l p X → is_Some (files v !! f) → 0 <= at_ → 0 <= chunk <= 256 →
  ∃ r v', round_of thread f (p_as p) at_ chunk writing filled v = Some (r, v') ∧ calls v' B l p X ∧ others X v v' ∧
    (writing = true → seen (p_as p) (kern v) (kern v')) ∧ io_kept v v' ∧ ∀ n, r = Did n → n <= chunk.
Proof using All.
  intros Hc Hf Ha Hk. unfold round_of. destruct writing.
  - assert (∃ ok s, (if filled then Some (true, kern v) else copy_from_user (Some (p_as p)) buffer_at at_ chunk (kern v)) = Some (ok, s) ∧
      calls (set_kern s v) B l p X ∧ others X v (set_kern s v) ∧ seen (p_as p) (kern v) s) as (ok & s & -> & Hc1 & Ho1 & Hs1).
    { destruct filled; [exists true, (kern v); assert (set_kern (kern v) v = v) as -> by (by destruct v); split; [done|]; by split|].
      destruct (copy_in_call U O lo hi W v B l p X buffer_at at_ chunk Hc) as (ok & s & -> & Hc1 & Ho1 & (_ & C2 & C3 & _) & _);
        [lia|lia|lia|intros i Hi; apply (buffer_ok_region chunk); lia|]. exists ok, s. split; [done|]. split; [done|]. split; [done|].
      intros va Hva. auto. }
    cbn [mbind option_bind].
    destruct (write_call (set_kern s v) B l p X thread f chunk Hc1 Hf Hk) as (r & v' & E & Hc2 & Ho2 & Hs2 & Hio & Hr).
    exists r, v'. split; [done|]. split; [done|]. split; [by eapply others_trans|].
    split; [|split; [etransitivity; [apply (io_kept_kern v s)|exact Hio]|done]].
    intros _. by apply (seen_trans _ _ s).
  - destruct (read_call v B l p X thread f chunk Hc Hf Hk) as (r & v1 & -> & Hc1 & Ho1 & Hs1 & Hio & Hr). cbn [mbind option_bind].
    destruct r as [n|t]; [|exists (Asleep t), v1; done]. destruct (Z.gtb_spec n 0) as [Hn|]; [|exists (Did n), v1; done].
    specialize (Hr n eq_refl).
    destruct (copy_out_call U O lo hi W HW v1 B l p X buffer_at at_ n Hc1) as (ok & s & -> & Hc2 & Ho2 & _);
      [lia|lia|lia|intros i Hi; apply (buffer_ok_region n i Hi); lia|].
    cbn [mbind option_bind]. eexists _, _. split; [reflexivity|]. split; [done|]. split; [by eapply others_trans|].
    split; [done|]. split; [by etransitivity; [exact Hio|apply io_kept_kern]|]. intros k [= <-]. done.
Qed.

(** ** The loop *)

Lemma transfer_loop_call B l p X thread f address size_ writing fuel : ∀ filled done_ n v,
  calls v B (f :: l) p X → f ≠ 0 → 0 <= address → 0 <= done_ → size_ - done_ <= 256 * Z.of_nat fuel →
  ∃ r v', transfer_loop buffer_at fuel thread f (p_as p) address size_ writing filled done_ n v = Some (r, v') ∧ others X v v' ∧
    (writing = true → seen (p_as p) (kern v) (kern v')) ∧
    match r with
    | Answer _ => calls v' B l p X
    | Blocked _ g d => g = f ∧ done_ <= d ∧ calls v' B (f :: l) p X
    end.
Proof using All.
  assert (∀ v d m, calls v B (f :: l) p X → ∃ r v', Some (Answer (if negb (d =? 0) then d else m), file_put f v) = Some (r, v') ∧ others X v v' ∧
    (writing = true → seen (p_as p) (kern v) (kern v')) ∧
    match r with Answer _ => calls v' B l p X | Blocked _ _ _ => False end) as Hfin.
  { intros v d m Hc. destruct (put_call v B l p X f Hc) as (A1 & A2 & A3). eexists _, _. split; [reflexivity|]. done. }
  induction fuel as [|fuel IH]; intros filled done_ n v Hc Hf Ha Hd Hfuel; cbn [transfer_loop].
  { rewrite (proj2 (Z.ltb_ge _ _)) by lia. cbn [negb]. destruct (Hfin v done_ n Hc) as (r & v' & E & ? & ? & ?). exists r, v'. by destruct r. }
  destruct (Z.ltb_spec done_ size_) as [Hlt|Hge]; cbn [negb].
  2:{ destruct (Hfin v done_ n Hc) as (r & v' & E & ? & ? & ?). exists r, v'. by destruct r. }
  set (chunk := if size_ - done_ >? 256 then 256 else size_ - done_).
  assert (0 < chunk <= 256 ∧ (chunk = 256 ∨ chunk = size_ - done_)) as [Hck Hckc] by (unfold chunk; destruct (Z.gtb_spec (size_ - done_) 256); lia).
  assert (is_Some (files v !! f)) as Hopen.
  { destruct (io_call v B _ p X Hc) as (Q & B' & Hh & _). eapply holding_is_open; [exact Hh| |done]. apply elem_of_app. right. by left. }
  destruct (round_call v B (f :: l) p X thread f (address + done_) chunk writing filled Hc Hopen ltac:(lia) ltac:(lia))
    as (r & v1 & E & Hc1 & Ho1 & Hs1 & Hio & Hr). unfold round_of in E. rewrite E. cbn [mbind option_bind].
  destruct r as [k|t].
  2:{ eexists _, v1. split; [reflexivity|]. split; [done|]. split; [done|]. split; [done|]. split; [lia|done]. }
  specialize (Hr k eq_refl).
  assert (∀ d m, ∃ r v', Some (Answer (if negb (d =? 0) then d else m), file_put f v1) = Some (r, v') ∧ others X v v' ∧
    (writing = true → seen (p_as p) (kern v) (kern v')) ∧
    match r with Answer _ => calls v' B l p X | Blocked _ g d' => g = f ∧ done_ <= d' ∧ calls v' B (f :: l) p X end) as Hfin1.
  { intros d m. destruct (Hfin v1 d m Hc1) as (r & v' & E' & A1 & A2 & A3). exists r, v'. split; [done|].
    split; [by eapply others_trans|]. split; [intros Hw; eapply seen_trans; [by apply Hs1|by apply A2]|by destruct r]. }
  destruct (Z.leb_spec k 0) as [Hk|Hk]; [apply Hfin1|]. destruct (Z.ltb_spec k chunk) as [|Hkc]; cbn [orb]; [apply Hfin1|].
  case_if; [apply Hfin1|].
  destruct (IH false (done_ + k) k v1 Hc1 Hf Ha ltac:(lia) ltac:(lia)) as (r & v' & E' & A1 & A2 & A3). exists r, v'. split; [exact E'|].
  split; [by eapply others_trans|]. split; [intros Hw; eapply seen_trans; [by apply Hs1|by apply A2]|].
  destruct r as [|t g d]; [done|]. destruct A3 as (-> & A3 & A4). split; [done|]. split; [lia|done].
Qed.

Lemma transfer_call v B l p X thread fd address size_ writing :
  calls v B l p X → 0 <= fd → 0 <= address → 0 <= size_ → Z.of_nat (length (fds p ++ l)) < 2 ^ 64 - 1 →
  ∃ r v', transfer buffer_at thread p fd address size_ writing v = Some (r, v') ∧ others X v v' ∧
    (writing = true → seen (p_as p) (kern v) (kern v')) ∧
    match r with
    | Answer _ => calls v' B l p X
    | Blocked _ g d => g = lookup p fd ∧ g ∈ fds p ∧ g ≠ 0 ∧ 0 <= d ∧ calls v' B (g :: l) p X
    end.
Proof using All.
  intros Hc Hfd Ha Hs Hlen. unfold transfer.
  destruct (Z.eqb_spec (lookup p fd) 0) as [|Hf]; cbn [orb]; [by eexists _, _|]. case_if; [by eexists _, _|]. case_if; [by eexists _, _|].
  pose proof Hc as [[N Hw] Hd Ht]. destruct (world_space U O lo hi v B _ _ N X Hw) as (Hsp & _ & _).
  destruct (validate_spec U _ _ (kern v) (p_as p) address size_ (negb writing) Hsp Ha Hs) as (ok & -> & _). cbn [mbind option_bind].
  destruct ok; cbn [negb]; [|by eexists _, _].
  destruct (lookup_some p fd Ht Hfd Hf) as [_ Hin].
  destruct (get_call v B l p X (lookup p fd) Hc Hin Hf Hlen) as (Hc1 & Ho1 & Hs1).
  destruct (transfer_loop_call B l p X thread (lookup p fd) address size_ writing (transfer_fuel size_) false 0 0 (file_get (lookup p fd) v) Hc1 Hf Ha)
    as (r & v' & E' & A1 & A2 & A3); [lia|unfold transfer_fuel; clear -Hs; div_lia|].
  exists r, v'. split; [exact E'|]. split; [by eapply others_trans|]. split; [intros Hwr; eapply seen_trans; [exact Hs1|by apply A2]|].
  destruct r; [done|]. destruct A3 as (-> & ? & ?). done.
Qed.
End Buffer.

(** ** [getdents] *)

Lemma file_getdents_static f size_ v :
  let v' := snd (file_getdents f size_ v) in
  (vnodes v' = vnodes v ∧ nodes v' = nodes v ∧ mounts v' = mounts v ∧ pipes v' = pipes v) ∧ same_ram (kern v) (kern v').
Proof.
  unfold file_getdents. case_if; [done|]. case_if; [done|]. cbn [snd irq_save fst].
  split; [done|]. cbn. unfold irq_restore. by case_if.
Qed.

(** No directory has more entries than a signed count can hold. *)
Definition countable (v : vfs) : Prop := ∀ n, is_node v n → Z.of_nat (length (children (vn v n))) <= INT64_MAX.

(** The entries that are listed have names that fit. *)
Definition fitting (out : list directory_entry) : Prop :=
  Forall (λ e, Z.of_nat (length (d_name e)) < NAME_LIMIT) out.

Lemma file_getdents_io Q v B l f :
  holds Q v B l → is_Some (files v !! f) → (node (fl v f) ≠ 0 → is_node v (node (fl v f))) → countable v →
  let '(r, out, v') := file_getdents f SIZEOF_DIRENT v in
  holds Q v' B l ∧ io_kept v v' ∧ same_ram (kern v) (kern v') ∧ vnodes v' = vnodes v ∧ fitting out ∧ (r <= 0 ∨ r = SIZEOF_DIRENT).
Proof using Hspan HW.
  intros Hh Hf Hn Hcnt. pose proof (file_getdents_static f SIZEOF_DIRENT v) as Hst. cbv zeta in Hst.
  destruct (decide (node (fl v f) = 0 ∨ type (vn v (node (fl v f))) ≠ DT_DIR)) as [Hbad|Hok].
  { assert (file_getdents f SIZEOF_DIRENT v = (- E_NOTDIR, [], v)) as ->.
    { unfold file_getdents. destruct (Z.eqb_spec (node (fl v f)) 0); [done|]. destruct (Z.eqb_spec (type (vn v (node (fl v f)))) DT_DIR); [|done].
      tauto. }
    split; [done|]. split; [done|]. split; [done|]. split; [done|]. split; [constructor|by left]. }
  assert (node (fl v f) ≠ 0 ∧ type (vn v (node (fl v f))) = DT_DIR) as [Hn0 Hty] by (destruct (decide (type (vn v (node (fl v f))) = DT_DIR)); tauto).
  specialize (Hn Hn0).
  pose proof (file_getdents_spec U (Q ++ O) lo hi v _ f SIZEOF_DIRENT (ho_ok _ _ _ _ _ _ _ Hh) Hf Hn Hty ltac:(lia) (Hcnt _ Hn)) as Hs.
  destruct (file_getdents f SIZEOF_DIRENT v) as [[r out] v']. cbn [snd] in Hst. destruct Hst as [(E1 & E2 & E3 & E4) Hram].
  destruct Hs as (Eout & Er & Hr & _ & Hv' & _ & Ef).
  assert (io_kept v v') as Hk by (eapply io_kept_offset; [by apply same_vnodes|done|done|done|exact Ef]).
  split; [|split; [done|split; [done|split; [done|]]]].
  - apply (holding_io U (Q ++ O) lo hi v); try done. apply (io_kept_keys v); [done|done|apply Hh].
  - split; [|lia]. rewrite Eout. unfold fitting, listing. rewrite Forall_fmap. apply Forall_take, Forall_drop, Forall_forall.
    intros c Hc. destruct (to_children v (vk_tree _ _ _ _ _ _ (ho_ok _ _ _ _ _ _ _ Hh)) _ c Hn Hc) as (_ & _ & _ & _ & _ & Hg).
    cbn. apply Hg.
Qed.

Lemma put_entry_frame m a e b :
  Z.of_nat (length (d_name e)) < NAME_LIMIT → ¬ (a <= b < a + SIZEOF_DIRENT) → load8 (put_entry m a e) b = load8 m b.
Proof.
  intros Hl Hb. unfold put_entry. rewrite put_bytes_spec, decide_False by (rewrite length_app; cbn; lia).
  unfold store32. rewrite load8_store_le_out, load8_store64_out by lia. by rewrite memset_load8, decide_False by lia.
Qed.

Lemma put_entries_frame out : ∀ m a b,
  fitting out → ¬ (a <= b < a + SIZEOF_DIRENT) → load8 (fold_left (λ m e, put_entry m a e) out m) b = load8 m b.
Proof.
  induction out as [|e out IH]; intros m a b Hf Hb; cbn [fold_left]; [done|]. apply Forall_cons_1 in Hf as [He Hf].
  rewrite IH by done. by apply put_entry_frame.
Qed.

Section Entries.
Context (entry_at : Z) (Hentry : 0 < entry_at) (Hentries : ∀ i, 0 <= i < SIZEOF_DIRENT → local (entry_at + i)).

Lemma getdents_loop_call B l p X f address size_ fuel : ∀ done_ v,
  calls v B l p X → is_Some (files v !! f) → (node (fl v f) ≠ 0 → is_node v (node (fl v f))) → countable v →
  0 <= address → 0 <= done_ → size_ - done_ < SIZEOF_DIRENT * Z.of_nat fuel →
  ∃ r v', getdents_loop entry_at fuel f (p_as p) address size_ done_ v = Some (r, v') ∧ others X v v' ∧ calls v' B l p X.
Proof using All.
  induction fuel as [|fuel IH]; intros done_ v Hc Hf Hn Hcnt Ha Hd Hfuel; cbn [getdents_loop].
  { destruct (Z.geb_spec (size_ - done_) SIZEOF_DIRENT); [lia|]. by eexists _, _. }
  destruct (Z.geb_spec (size_ - done_) SIZEOF_DIRENT) as [Hge|]; cbn [negb]; [|by eexists _, _].
  destruct (io_call v B l p X Hc) as (Q & B' & Hh & Hclose).
  pose proof (file_getdents_io Q v B' _ f Hh Hf Hn Hcnt) as Hg. destruct (file_getdents f SIZEOF_DIRENT v) as [[r out] v1].
  destruct Hg as (Hh1 & Hio & Hram & Ev & Hfit & Hr). destruct (Hclose v1 Hh1 Hio) as (Hc1 & Ho1 & _).
  { destruct Hram as (-> & _). done. }
  set (m2 := fold_left _ out _). destruct (local_call U O lo hi W v1 B l p X m2 entry_at SIZEOF_DIRENT Hc1 Hentries) as (Hc2 & Ho2 & _).
  { intros b Hb. by apply put_entries_frame. }
  set (v2 := set_kern (set_mem m2 (kern v1)) v1) in *. destruct (Z.leb_spec r 0) as [|Hpos].
  { eexists _, _. split; [reflexivity|]. split; [by eapply others_trans|done]. }
  destruct (copy_out_call U O lo hi W HW v2 B l p X entry_at (address + done_) SIZEOF_DIRENT Hc2) as (ok & s & -> & Hc3 & Ho3 & _);
    [lia|lia|lia|intros i Hi; by apply Hentries|]. cbn [mbind option_bind].
  destruct (io_kept_some v v1 f Hio Hf) as [Hf1 Em]. assert (node (fl v1 f) = node (fl v f)) as En by (unfold meta in Em; congruence).
  destruct (IH (done_ + SIZEOF_DIRENT) (set_kern s v2) Hc3) as (r' & v' & E & A1 & A2).
  - done.
  - change (fl (set_kern s v2) f) with (fl v1 f). rewrite En. intros Hn'. unfold is_node. cbn. rewrite Ev. by apply Hn.
  - intros n. unfold is_node, vn. cbn. rewrite Ev. apply Hcnt.
  - done.
  - lia.
  - lia.
  - exists r', v'. split; [exact E|]. split; [|done]. do 2 (eapply others_trans; [eassumption|]). by eapply others_trans.
Qed.

Lemma getdents_call v B l p X fd address size_ :
  calls v B l p X → countable v → 0 <= fd → 0 <= address →
  ∃ r v', fd_getdents entry_at p fd address size_ v = Some (r, v') ∧ others X v v' ∧ calls v' B l p X.
Proof using All.
  intros Hc Hcnt Hfd Ha. unfold fd_getdents. destruct (Z.eqb_spec (lookup p fd) 0) as [|Hf]; [by eexists _, _|].
  destruct (Z.ltb_spec size_ SIZEOF_DIRENT) as [|Hs]; [by eexists _, _|]. case_if; [by eexists _, _|].
  pose proof Hc as [[N Hw] Hd Ht]. destruct (world_space U O lo hi v B _ _ N X Hw) as (Hsp & _ & _).
  destruct (validate_spec U _ _ (kern v) (p_as p) address size_ true Hsp Ha ltac:(lia)) as (ok & -> & _). cbn [mbind option_bind].
  destruct ok; cbn [negb]; [|by eexists _, _]. destruct (descriptor_open U O lo hi W HW v B l p X fd Hc Hfd Hf) as [Hopen Hn].
  apply getdents_loop_call; try done. clear -Hs. div_lia.
Qed.
End Entries.
End Io.
