(* ===== verification/ProcessInv.v ===== *)
(** How the memory of the kernel is divided as processes come and go: objects of the
    heap, pages, and whole address spaces taken and given back beside the file system
    and the other processes. *)
From S2P Require Import Prelude Machine Runtime PageAlloc Vm VmInv VmProps HeapSpec Ownership AddressSpace AddressSpaceInv AddressSpaceProps AddressSpaceClone AddressSpaceAreas AddressSpaceMaps AddressSpaceCopy AddressSpaceThms.
From S2P Require Import Outcome Pipe Scheduler Vfs VfsInit VfsTree VfsInv VfsFiles VfsOpen VfsPipe VfsIo ElfInv World Process Fd FdProps FdCalls.

(** A clone is as well formed as its source. *)
Lemma wf_clone src dst :
  as_wf src → NoDup (area_at <$> areas src) → Forall2 same_area (areas src) (areas dst) →
  Forall2 (λ p q, virtual_address q = virtual_address p) (pages src) (pages dst) →
  brk_base dst = brk_base src → brk_end dst = brk_end src → as_wf dst.
Proof.
  intros [[W1 W2] W3 W4 W5 W6] Hnd Ha Hp Eb Ee.
  assert (∀ b, b ∈ areas dst → ∃ i a, areas src !! i = Some a ∧ areas dst !! i = Some b ∧ same_area a b) as Hback.
  { intros b Hb. apply list_elem_of_lookup in Hb as [i Hi]. destruct (Forall2_lookup_r _ _ _ _ _ Ha Hi) as (a & Hai & Hs). eauto. }
  assert (∀ a, a ∈ areas src → ∃ b, b ∈ areas dst ∧ same_area a b) as Hfwd.
  { intros a Hin. apply list_elem_of_lookup in Hin as [i Hi]. destruct (Forall2_lookup_l _ _ _ _ _ Ha Hi) as (b & Hbi & Hs).
    exists b. split; [by eapply list_elem_of_lookup_2|done]. }
  split.
  - split.
    + intros b Hb. destruct (Hback b Hb) as (i & a & Hi & _ & (E1 & E2 & E3 & E4)).
      destruct (W1 a) as [A1 A2]; [by eapply list_elem_of_lookup_2|]. split; by rewrite ?E1, ?E2, ?E3.
    + intros b c x Hb Hc Cb Cc. destruct (Hback b Hb) as (i & a & Hi & Hib & (E1 & E2 & _)).
      destruct (Hback c Hc) as (j & d & Hj & Hjc & (F1 & F2 & _)). unfold covers in Cb, Cc. rewrite E1, E2 in Cb. rewrite F1, F2 in Cc.
      assert (a = d) as <- by (apply (W2 a d x); [by eapply list_elem_of_lookup_2|by eapply list_elem_of_lookup_2|done|done]).
      assert (i = j) as <-; [|congruence]. apply (NoDup_lookup (area_at <$> areas src) i j (area_at a) Hnd); by rewrite list_lookup_fmap, ?Hi, ?Hj.
  - intros q Hq. apply list_elem_of_lookup in Hq as [i Hi]. destruct (Forall2_lookup_r _ _ _ _ _ Hp Hi) as (p & Hpi & E).
    destruct (W3 p) as (a & Hin & Hc); [by eapply list_elem_of_lookup_2|]. destruct (Hfwd a Hin) as (b & Hb & (E1 & E2 & _)).
    exists b. split; [done|]. unfold covers. by rewrite E, E1, E2.
  - by rewrite Eb, Ee.
  - intros b Hb Hk. destruct (Hback b Hb) as (i & a & Hi & _ & (E1 & E2 & _ & E4)). rewrite E1, E2, Ee.
    apply W5; [by eapply list_elem_of_lookup_2|congruence].
  - rewrite Ee. intros Hr. destruct (W6 Hr) as (a & Hin & Hk). destruct (Hfwd a Hin) as (b & Hb & (_ & _ & _ & E4)).
    exists b. split; [done|congruence].
Qed.

Section World.
Context `{HeapContract} `{Backends}.
Context (U : list Z) (lo hi : Z).

(** A file system with nothing open, alone. *)
Lemma world_start O v B :
  vfs_ok U O lo hi v (list_to_set (nodes v) ∪ B) → files v = ∅ → pipes v = ∅ → list_to_set (nodes v) ## B →
  world U O lo hi v B [] [].
Proof.
  intros Hv Hf Hp Hd. assert (vfs_objects v = list_to_set (nodes v)) as Eo.
  { unfold vfs_objects. rewrite Hf, Hp, !dom_empty_L. clear. set_solver. }
  assert (holding U O lo hi v B []) as Hh.
  { split; [by rewrite Eo| |by rewrite Eo|].
    - split; [intros f x|intros f g x y|intros a p fl_|intros a p|intros a]; rewrite ?Hf, ?Hp, ?lookup_empty; done.
    - split; rewrite ?Hf; [by intros f x; rewrite lookup_empty|]. by intros f Hin%not_elem_of_nil. }
  apply holding_rest in Hh as [(C1 & C2 & C3 & C4) (F & P & Hb)]. split.
  - split; try done; [|constructor|].
    + change (owned_records []) with (∅ : gset Z). clear -C4. set_solver.
    + by intros a N Hin%not_elem_of_nil.
  - exists F, P. unfold world_objects, world_pages, owned_records. cbn. by rewrite (left_id_L ∅ union).
Qed.

(** ** Objects of the heap *)

Lemma context_kern v s B B' l X :
  context U lo hi v B l X → vfs_objects v ## B' → owned_records X ## B' →
  (∀ a N, (a, N) ∈ X → as_wf a ∧ alive U s a N) → context U lo hi (set_kern s v) B' l X.
Proof.
  intros [C1 C2 C3 C4 C5 C6 C7] D1 D2 D3. split; try done; [by apply vfs_rest_kern|by destruct C2; split|by destruct C3; split|].
  change (vfs_objects (set_kern s v)) with (vfs_objects v). clear -C4 D1. set_solver.
Qed.

(** Another division of the objects that are neither the file system's nor members'. *)
Lemma world_kern O v s B B' l X :
  world U O lo hi v B l X → vfs_objects v ## B' → owned_records X ## B' →
  (∃ F P, bare U s F P (world_objects v B' X) (world_pages O v X)) →
  pages_same (all_pages X) (mem (kern v)) (mem s) → world U O lo hi (set_kern s v) B' l X.
Proof.
  intros [Hc _] D1 D2 (F & P & Hb) Hm. split; [|by exists F, P]. apply (context_kern v s B); try done.
  apply (alive_kept U lo hi v s F P _ _ B l X Hc Hb); [| |done].
  - exists (block_pages v ++ O). unfold world_pages. rewrite !app_assoc. by rewrite (Permutation_app_comm (block_pages v)).
  - unfold world_objects. clear. set_solver.
Qed.

Lemma world_pages_kept O v X m m' : kept U (world_pages O v X) m m' → pages_same (all_pages X) m m'.
Proof. intros Hk. eapply pages_same_kept; [exact Hk|]. intros p Hp. unfold world_pages. rewrite !elem_of_app. auto. Qed.

Lemma world_kmalloc O v B l X n :
  world U O lo hi v B l X → 0 <= n → ∃ o s, kmalloc n (kern v) = (o, s) ∧ kept U (world_pages O v X) (mem (kern v)) (mem s) ∧
    (o ≠ 0 → o ∉ world_objects v B X) ∧ world U O lo hi (set_kern s v) (if o =? 0 then B else {[o]} ∪ B) l X.
Proof.
  intros Hw Hn. pose proof Hw as [Hc (F & P & Hb)].
  destruct (bare_kmalloc U _ F P _ _ n Hb Hn) as (o & s & F' & P' & E & Hb' & Hnew & Hk). exists o, s. split; [done|]. split; [done|].
  split; [done|]. pose proof Hc as [_ _ _ C4 _ C6 _]. assert (vfs_objects v ## B) as C4' by (clear -C4; set_solver).
  destruct (Z.eqb_spec o 0) as [->|Ho].
  - apply (world_kern O v s B); try done; [by exists F', P'|by eapply world_pages_kept].
  - specialize (Hnew Ho). unfold world_objects in Hnew. apply (world_kern O v s B); try done.
    + clear -C4' Hnew. set_solver.
    + clear -C6 Hnew. set_solver.
    + exists F', P'. unfold world_objects in *. replace (vfs_objects v ∪ (owned_records X ∪ ({[o]} ∪ B))) with ({[o]} ∪ (vfs_objects v ∪ (owned_records X ∪ B)));
        [done|clear; set_solver].
    + by eapply world_pages_kept.
Qed.

Lemma world_kfree O v B l X o :
  world U O lo hi v ({[o]} ∪ B) l X → o ∉ B →
  world U O lo hi (set_kern (kfree o (kern v)) v) B l X ∧ kept U (world_pages O v X) (mem (kern v)) (mem (kfree o (kern v))).
Proof.
  intros Hw Ho. pose proof Hw as [Hc (F & P & Hb)].
  destruct (bare_kfree U _ F P _ _ o Hb) as (F' & P' & Hb' & Hk); [unfold world_objects; clear; set_solver|]. split; [|done].
  pose proof Hc as [_ _ _ C4 _ C6 _].
  apply (world_kern O v _ ({[o]} ∪ B)); [done|clear -C4; set_solver|clear -C6; set_solver| |by eapply world_pages_kept].
  exists F', P'. unfold world_objects in *. replace (vfs_objects v ∪ (owned_records X ∪ B)) with ((vfs_objects v ∪ (owned_records X ∪ ({[o]} ∪ B))) ∖ {[o]});
    [done|]. clear -C4 C6 Ho. set_solver.
Qed.

(** ** Pages *)

Lemma world_page_alloc O v B l X :
  world U O lo hi v B l X → ∃ p s, page_alloc (kern v) = (p, s) ∧ mem s = mem (kern v) ∧
    (p = 0 ∧ s = kern v ∨ page_ok p ∧ world U (p :: O) lo hi (set_kern s v) B l X).
Proof.
  intros Hw. pose proof Hw as [Hc (F & P & Hb)]. destruct (bare_page_alloc U _ F P _ _ Hb) as (p & s & E & Hm & Hcase).
  exists p, s. split; [done|]. split; [done|]. destruct Hcase as [(-> & -> & _)|(F' & Hp & Hb')]; [by left|right]. split; [done|].
  assert (bare U s F' P (world_objects v B X) (world_pages (p :: O) v X)) as Hb2.
  { eapply bare_perm; [|exact Hb']. unfold world_pages. by rewrite !app_assoc, Permutation_middle. }
  split; [|by exists F', P]. pose proof Hc as [C1 C2 C3 C4 C5 C6 C7]. apply (context_kern v s B); try done; [clear -C4; set_solver|].
  apply (alive_kept U lo hi v s F' P _ _ B l X Hc Hb2).
  - exists (block_pages v ++ p :: O). unfold world_pages. rewrite !app_assoc. by rewrite (Permutation_app_comm (block_pages v)).
  - unfold world_objects. clear. set_solver.
  - intros q Hq a Ha. by rewrite Hm.
Qed.

(** ** Address spaces *)

Definition fresh_as (t : page_table) : address_space := mk_as t [] [] HEAP_BASE HEAP_BASE.

Lemma world_init O v B l X kr NK :
  world U O lo hi v B l X → pt_rep whole (kern v) kr NK → (∀ p, p ∈ map_vals NK → p ∈ O) →
  ∃ ok t s, address_space_init (Some (mk_page_table kr)) (kern v) = (ok, fresh_as t, s) ∧
    kept U (world_pages O v X) (mem (kern v)) (mem s) ∧
    if ok then ∃ N, world U O lo hi (set_kern s v) B l ((fresh_as t, N) :: X) else world U O lo hi (set_kern s v) B l X.
Proof.
  intros Hw HK HNK. pose proof Hw as [Hc (F & P & Hb)].
  destruct (init_spec U (world_pages O v X) (kern v) F P _ kr NK Hb HK) as (ok & t & s & E & Hk & Hres).
  { intros p Hp. unfold world_pages. rewrite !elem_of_app. auto. }
  exists ok, t, s. split; [done|]. split; [done|]. destruct ok.
  - destruct Hres as (_ & N & F' & Hi). apply (world_add U O lo hi v B l X s (fresh_as t)); [done| |apply empty_wf|by eapply world_pages_kept].
    split; [|clear; set_solver]. exists N, F', P. by replace (records (fresh_as t) ∪ world_objects v B X) with (world_objects v B X) by (clear; set_solver).
  - destruct Hres as [Hb' _]. apply (world_drop U O lo hi); [done|by exists F, P|by eapply world_pages_kept].
Qed.

Lemma world_destroy O v B l a N X :
  world U O lo hi v B l ((a, N) :: X) →
  ∃ s, address_space_destroy a (kern v) = (mk_as (mk_page_table 0) [] [] (brk_base a) (brk_end a), s) ∧
    world U O lo hi (set_kern s v) B l X ∧ kept U (world_pages O v X) (mem (kern v)) (mem s).
Proof.
  intros Hw. destruct (world_space U O lo hi v B l a N X Hw) as (Hs & _ & _).
  destruct (space_destroy U _ _ _ _ Hs) as (s & E & Hd & Hk). exists s. split; [done|]. split; [|done].
  apply (world_drop U O lo hi); [eapply context_tail, Hw|exact Hd|by eapply world_pages_kept].
Qed.

Lemma space_perm Q Q' B s a : Q ≡ₚ Q' → space U Q B s a → space U Q' B s a.
Proof. intros HQ [(N & F & P & Hi) Hd]. split; [|done]. exists N, F, P. destruct Hi. split; try done. by rewrite <- HQ. Qed.

(** The child's memory beside the parent's. *)
Lemma world_clone O v B l a N X kr NK :
  world U O lo hi v B l ((a, N) :: X) → pt_rep whole (kern v) kr NK → (∀ p, p ∈ map_vals NK → p ∈ O) →
  ∃ ok dst s, address_space_clone a (Some (mk_page_table kr)) (kern v) = (ok, dst, s) ∧
    kept U (world_pages O v ((a, N) :: X)) (mem (kern v)) (mem s) ∧
    if ok then (∃ M, world U O lo hi (set_kern s v) B l ((dst, M) :: (a, N) :: X)) ∧ Forall2 (AddressSpaceClone.copied (mem s)) (pages a) (pages dst) ∧
      Forall2 same_area (areas a) (areas dst) ∧ brk_end dst = brk_end a
    else world U O lo hi (set_kern s v) B l ((a, N) :: X).
Proof.
  intros Hw HK HNK. destruct (world_space U O lo hi v B l a N X Hw) as (_ & Hwf & F & P & Hi).
  assert (map_vals N ++ owned a (world_pages O v X) ≡ₚ world_pages O v ((a, N) :: X)) as HQ.
  { unfold world_pages, owned. rewrite all_pages_cons. unfold member_pages, as_pages. cbn [fst snd].
    rewrite !app_assoc, <- (app_assoc _ _ (block_pages v)). do 2 apply Permutation_app_tail.
    rewrite <- !app_assoc. rewrite (app_assoc (map_vals N)). by rewrite (Permutation_app_comm _ (block_pages v)). }
  assert (records a ∪ world_objects v B X = world_objects v B ((a, N) :: X)) as HL.
  { unfold world_objects. rewrite owned_records_cons. clear. set_solver. }
  destruct (clone_spec U (world_pages O v X) (kern v) a N F P _ kr NK Hi HK) as (ok & dst & s & E & Hk & Hres).
  { intros p Hp. unfold world_pages. rewrite !elem_of_app. auto. }
  assert (kept U (world_pages O v ((a, N) :: X)) (mem (kern v)) (mem s)) as Hk'.
  { eapply kept_sub; [|exact Hk]. intros p. by rewrite HQ. }
  exists ok, dst, s. split; [done|]. split; [done|]. destruct ok.
  - destruct Hres as (Hs & Hcp & Har & Eb & Ee). split; [|done]. rewrite HL in Hs. apply (space_perm _ _ _ _ _ HQ) in Hs.
    apply (world_add U O lo hi v B l ((a, N) :: X) s dst); [apply Hw|done| |by eapply world_pages_kept].
    apply (wf_clone a dst); try done.
    + pose proof (ai_records _ _ _ _ _ _ _ _ Hi) as Hnd. by apply NoDup_app in Hnd as (_ & _ & ?).
    + eapply Forall2_impl; [exact Hcp|]. intros p q Hq. apply Hq.
  - destruct Hres as (F' & P' & Hb). apply (world_drop U O lo hi); [apply Hw| |by eapply world_pages_kept].
    exists F', P'. rewrite <- HL. eapply bare_perm; [|exact Hb]. done.
Qed.
End World.
