(* ===== verification/FdThms.v ===== *)
(** What the system calls on descriptors guarantee ([src/kernel/fd.c]), with a process
    on which the theorems are applied. *)
From S2P Require Import Prelude Machine Runtime PageAlloc Vm VmInv VmProps HeapSpec Ownership AddressSpace AddressSpaceInv AddressSpaceProps AddressSpaceClone AddressSpaceAreas AddressSpaceMaps AddressSpaceCopy AddressSpaceThms.
From S2P Require Import Outcome Pipe Scheduler Vfs VfsInit VfsTree VfsInv VfsFiles VfsOpen VfsPipe VfsIo VfsThms ElfInv ElfThms World Process Fd FdProps FdCalls FdIo ProcessInv.
From S2P Require Import Heap HeapProps HeapThms HeapInstance Bench.

(** The local variables of the calls: memory that is nobody's and apart from [W], and the
    transfer buffer outside the archive. *)
Record scratch `{HeapContract} (U O : list Z) (lo hi : Z) (W : Z → Prop) (path_at buffer_at pair_at entry_at : Z) : Prop := {
  sc_path : 0 < path_at ∧ ∀ i, 0 <= i < PATH_LIMIT → local U O W (path_at + i);
  sc_buffer : 0 < buffer_at ∧ buffer_ok U O lo hi buffer_at 256 ∧ ∀ a, buffer_at <= a < buffer_at + 256 → ¬ W a;
  sc_pair : 0 < pair_at ∧ ∀ i, 0 <= i < 8 → local U O W (pair_at + i);
  sc_entry : 0 < entry_at ∧ ∀ i, 0 <= i < SIZEOF_DIRENT → local U O W (entry_at + i);
}.

Section Theorems.
Context `{HeapContract} `{Backends} `{!QuietConsole}.

Lemma frame_x_range m f i : in_u64 (frame_x m f i).
Proof. unfold frame_x. apply load64_range. Qed.

Lemma transfer_safe U O lo hi W buffer_at v B l p X thread a b c writing :
  hi - lo < 2 ^ 62 → (∀ a, W a → region U O a) → 0 < buffer_at → buffer_ok U O lo hi buffer_at 256 →
  (∀ a, buffer_at <= a < buffer_at + 256 → ¬ W a) → caller U O lo hi v B l p X →
  0 <= a → 0 <= b → 0 <= c → Z.of_nat (length (fds p ++ l)) < 2 ^ 64 - 1 →
  ∃ r p' v', ('(r, v0) ← transfer buffer_at thread p a b c writing v; Some (r, p, v0)) = Some (r, p', v') ∧
    others W X v v' ∧ p_as p' = p_as p ∧
    match r with
    | Answer _ => caller U O lo hi v' B l p' X
    | Blocked _ g d => p' = p ∧ g ∈ fds p ∧ g ≠ 0 ∧ 0 <= d ∧ caller U O lo hi v' B (g :: l) p X
    end.
Proof.
  intros Hspan HW Hb Hbuf Hfree Hc H1' H2' H3' Hlen.
  destruct (transfer_call U O lo hi Hspan W HW buffer_at Hb Hbuf Hfree v B l p X thread a b c writing Hc H1' H2' H3' Hlen) as (r & v' & -> & Ho & _ & Hr).
  exists r, p, v'. split; [done|]. split; [done|]. split; [done|]. destruct r; [done|]. by destruct Hr as (-> & ? & ? & ? & ?).
Qed.

(** How a call ends: other processes and [W] as they were, and every reference counted,
    with one more for a transfer that sleeps. *)
Definition call_done (U O : list Z) (lo hi : Z) (W : Z → Prop) (v : vfs) (B : gset Z) (l : list Z) (p : process) (X : list member)
    (r : answer) (p' : process) (v' : vfs) : Prop :=
  others W X v v' ∧ p_as p' = p_as p ∧
  match r with
  | Answer _ => caller U O lo hi v' B l p' X
  | Blocked _ g d => p' = p ∧ g ∈ fds p ∧ g ≠ 0 ∧ 0 <= d ∧ caller U O lo hi v' B (g :: l) p X
  end.

Lemma fd_syscall_spec (U O : list Z) (lo hi : Z) (W : Z → Prop) (path_at buffer_at pair_at entry_at : Z) (v : vfs) (B : gset Z)
    (l : list Z) (p : process) (X : list member) (thread f : Z) :
  hi - lo < 2 ^ 62 → (∀ a, W a → region U O a) → scratch U O lo hi W path_at buffer_at pair_at entry_at → caller U O lo hi v B l p X →
  countable v → Z.of_nat (length (fds p ++ l)) < 2 ^ 64 - 1 →
  ∃ r p' v', fd_syscall path_at buffer_at pair_at entry_at thread f p v = Some (r, p', v') ∧ call_done U O lo hi W v B l p X r p' v'.
Proof.
  intros Hspan HW [[S1 S1'] (S2 & S2' & S2'') [S3 S3'] [S4 S4']] Hc Hcnt Hlen. unfold fd_syscall, call_done. cbv zeta.
  pose proof (frame_x_range (mem (kern v)) f 10) as Ha. pose proof (frame_x_range (mem (kern v)) f 11) as Hb.
  pose proof (frame_x_range (mem (kern v)) f 12) as Hcc.
  set (a := frame_x (mem (kern v)) f 10) in *. set (b := frame_x (mem (kern v)) f 11) in *. set (c := frame_x (mem (kern v)) f 12) in *.
  set (number := frame_x (mem (kern v)) f 17). unfold in_u64 in Ha, Hcc. assert (0 <= b < 2 ^ 64) as Hb' by exact Hb.
  destruct (number =? SYS_READ); [apply transfer_safe; (done || lia)|]. destruct (number =? SYS_WRITE); [apply transfer_safe; (done || lia)|].
  destruct (number =? SYS_CLOSE).
  { pose proof (close_call U O lo hi Hspan W HW v B l p X a Hc ltac:(lia)) as Hs. destruct (fd_close p a v) as [[r p'] v'].
    eexists _, p', v'. split; [reflexivity|]. by destruct Hs as (? & ? & _ & ?). }
  destruct (number =? SYS_DUP).
  { pose proof (dup_call U O lo hi Hspan W HW v B l p X a None Hc ltac:(lia) ltac:(done) Hlen) as Hs. destruct (fd_dup p a None v) as [[r p'] v'].
    eexists _, p', v'. split; [reflexivity|]. by destruct Hs as (? & ? & _ & ?). }
  destruct (number =? SYS_DUP2).
  { pose proof (dup_call U O lo hi Hspan W HW v B l p X a (Some b) Hc ltac:(lia) ltac:(intros ? [= <-]; lia) Hlen) as Hs.
    destruct (fd_dup p a (Some b) v) as [[r p'] v']. eexists _, p', v'. split; [reflexivity|]. by destruct Hs as (? & ? & _ & ?). }
  destruct (number =? SYS_OPENAT).
  { destruct (openat_call U O lo hi Hspan W HW path_at S1 S1' v B l p X a b c Hc ltac:(lia) ltac:(lia)) as (r & p' & v' & -> & (? & ? & ?) & _).
    by eexists _, p', v'. }
  destruct (number =? SYS_PIPE).
  { destruct (pipe_call U O lo hi Hspan W HW pair_at S3 S3' v B l p X a Hc ltac:(lia)) as (r & p' & v' & -> & (? & ? & ?) & _).
    by eexists _, p', v'. }
  destruct (number =? SYS_GETDENTS).
  { destruct (getdents_call U O lo hi Hspan W HW entry_at S4 S4' v B l p X a b c Hc Hcnt ltac:(lia) ltac:(lia)) as (r & v' & -> & ? & ?).
    by eexists _, p, v'. }
  destruct (number =? SYS_CHDIR).
  { destruct (chdir_call U O lo hi Hspan W HW path_at S1 S1' v B l p X a Hc ltac:(lia)) as (r & p' & v' & -> & (? & ? & ?) & _).
    by eexists _, p', v'. }
  destruct (number =? SYS_GETCWD).
  { destruct (getcwd_call U O lo hi Hspan W HW path_at S1 S1' v B l p X a b Hc ltac:(lia)) as (r & v' & -> & (? & ? & ?)).
    by eexists _, p, v'. }
  destruct (number =? SYS_LSEEK); [|by eexists _, p, v].
  pose proof (lseek_call U O lo hi Hspan W HW v B l p X a b c Hc ltac:(lia) Hb ltac:(lia)) as Hs. destruct (fd_lseek p a b c v) as [r v'].
  eexists _, p, v'. split; [reflexivity|]. by destruct Hs as [(? & ? & ?) _].
Qed.

(** C12. Whatever a program asks for, a system call on descriptors returns, or sleeps
    in a transfer that holds its own reference to the file; the reference count of
    every open file stays exactly the number of descriptors and transfers that hold
    it, the file system, the pipes and the program's directories stay well formed, and
    no page of another process changes, nor any memory [W] of the kernel apart from the
    local variables of the call. *)
Theorem fd_syscall_safe (U O : list Z) (lo hi : Z) (W : Z → Prop) (path_at buffer_at pair_at entry_at : Z) (v : vfs) (B : gset Z)
    (l : list Z) (p : process) (X : list member) (thread f : Z) :
  hi - lo < 2 ^ 62 → (∀ a, W a → region U O a) → scratch U O lo hi W path_at buffer_at pair_at entry_at → caller U O lo hi v B l p X →
  countable v → Z.of_nat (length (fds p ++ l)) < 2 ^ 64 - 1 →
  ∃ r p' v', fd_syscall path_at buffer_at pair_at entry_at thread f p v = Some (r, p', v') ∧
    others W X v v' ∧ p_as p' = p_as p ∧
    match r with
    | Answer _ => caller U O lo hi v' B l p' X
    | Blocked _ g _ => p' = p ∧ g ∈ fds p ∧ caller U O lo hi v' B (g :: l) p X
    end.
Proof.
  intros Hspan HW Hsc Hc Hcnt Hlen.
  destruct (fd_syscall_spec U O lo hi W path_at buffer_at pair_at entry_at v B l p X thread f Hspan HW Hsc Hc Hcnt Hlen) as (r & p' & v' & E & Ho & Eas & Hr).
  exists r, p', v'. do 3 (split; [done|]). destruct r; [done|]. by destruct Hr as (? & ? & _ & _ & ?).
Qed.
End Theorems.

(** * A process *)

Module FdDemo.
#[local] Existing Instance bench_heap.
#[local] Existing Instance bench_contract.
#[local] Existing Instance VfsDemo.quiet.

#[local] Instance quiet_console : QuietConsole.
Proof. split; done. Qed.

Abbreviation fs := ElfDemo.fs (only parsing).
Abbreviation low := ElfDemo.archive_at (only parsing).
Abbreviation high := (ElfDemo.archive_at + ElfDemo.archive_size) (only parsing).
Abbreviation kroot := AsDemo.kroot (only parsing).

Lemma span : high - low < 2 ^ 62.
Proof. pose proof ElfDemo.archive_small. lia. Qed.

(** The file system after boot, with nothing open. *)
Lemma fs_world : world ram [kroot] low high fs ∅ [] [].
Proof.
  apply world_start.
  - exact (proj1 ElfDemo.program_fs_ok).
  - vm_compute. reflexivity.
  - vm_compute. reflexivity.
  - apply disjoint_empty_r.
Qed.

Abbreviation made := (address_space_init (Some (mk_page_table kroot)) (kern fs)) (only parsing).
Definition as0 : address_space := snd (fst made).
Definition v0 : vfs := set_kern (snd made) fs.
Definition p0 : process := mk_process as0 no_fds (vfs_root fs) (vfs_root fs) 1 0 [] PROCESS_RUNNING 0 0 0.

Lemma made_ok : fst (fst made) = true.
Proof. vm_compute. reflexivity. Qed.

Lemma world_refs U O lo hi v B l l' X : world U O lo hi v B l X → refs_ok v l' → world U O lo hi v B l' X.
Proof. intros [[C1 C2 C3 C4 C5 C6 C7] Hb] Hr. split; [by split|done]. Qed.

Lemma fresh_refs v s l : files v = ∅ → (∀ f, f ∈ l → f = 0) → refs_ok (set_kern s v) l.
Proof.
  intros Ef Hl. split; cbn [files set_kern]; rewrite Ef.
  - intros f x Hf. by rewrite lookup_empty in Hf.
  - intros f Hf Hn. by destruct Hn; apply Hl.
Qed.

Lemma fresh_rooted v s a f n : files v = ∅ → is_node v n → type (vn v n) = DT_DIR → rooted (set_kern s v) (mk_process a f n n 1 0 [] PROCESS_RUNNING 0 0 0).
Proof.
  intros Ef Hn Ht. split; [done|apply within_root|done|]. intros g x. cbn [files set_kern]. by rewrite Ef, lookup_empty.
Qed.

Lemma fs_files : files fs = ∅.
Proof. vm_compute. reflexivity. Qed.

(** A new process is ready to call. *)
Lemma fresh_calls lo hi v kr NK a s n :
  world ram [kr] lo hi v ∅ [] [] → pt_rep whole (kern v) kr NK → (∀ p, p ∈ map_vals NK → p ∈ [kr]) →
  address_space_init (Some (mk_page_table kr)) (kern v) = (true, a, s) → files v = ∅ → is_node v n → type (vn v n) = DT_DIR →
  caller ram [kr] lo hi (set_kern s v) ∅ [] (mk_process a no_fds n n 1 0 [] PROCESS_RUNNING 0 0 0) [].
Proof.
  intros Hw HK HNK E Ef Hn Ht. destruct (world_init ram lo hi [kr] v ∅ [] [] kr NK Hw HK HNK) as (ok & t & s' & E' & _ & Hres).
  rewrite E in E'. injection E' as <- -> <-. destruct Hres as [N Hw'].
  split; [|by apply fresh_rooted|done]. exists N. apply (world_refs _ _ _ _ _ _ [] _ _ Hw'). apply fresh_refs; [done|].
  intros f Hf. cbn [fds] in Hf. rewrite app_nil_r in Hf. unfold no_fds in Hf. apply list_elem_of_In in Hf. by apply repeat_spec in Hf.
Qed.

Lemma fresh_calls_made lo hi v kr NK n :
  world ram [kr] lo hi v ∅ [] [] → pt_rep whole (kern v) kr NK → (∀ p, p ∈ map_vals NK → p ∈ [kr]) →
  fst (fst (address_space_init (Some (mk_page_table kr)) (kern v))) = true → files v = ∅ → is_node v n → type (vn v n) = DT_DIR →
  caller ram [kr] lo hi (set_kern (snd (address_space_init (Some (mk_page_table kr)) (kern v))) v) ∅ []
    (mk_process (snd (fst (address_space_init (Some (mk_page_table kr)) (kern v)))) no_fds n n 1 0 [] PROCESS_RUNNING 0 0 0) [].
Proof.
  intros Hw HK HNK Hok Ef Hn Ht. destruct (address_space_init _ _) as [[ok a] s] eqn:E. cbn [fst snd] in *. subst ok.
  by apply (fresh_calls lo hi v kr NK).
Qed.

Lemma p0_calls : caller ram [kroot] low high v0 ∅ [] p0 [].
Proof.
  unfold v0, p0, as0. apply (fresh_calls_made low high fs kroot {[ [] := kroot ]} (vfs_root fs)).
  - exact fs_world.
  - exact ElfDemo.fs_table.
  - intros p Hp. rewrite map_vals_root in Hp. exact Hp.
  - exact made_ok.
  - exact fs_files.
  - exact (proj1 (proj2 ElfDemo.program_fs_ok)).
  - vm_compute. reflexivity.
Qed.

(** With its standard input and output. *)
Definition installed : Z * process * vfs := default (0, p0, v0) (fd_install_stdio p0 v0).
Definition p1 : process := snd (fst installed).
Definition v1 : vfs := snd installed.

Example installed_slots : (fst (fst installed), lookup p1 0 =? 0, lookup p1 2 =? 0, lookup p1 3) = (0, false, false, 0).
Proof. vm_compute. reflexivity. Qed.

Lemma p1_calls : caller ram [kroot] low high v1 ∅ [] p1 [].
Proof.
  destruct (install_call ram [kroot] low high span (λ _, False) ltac:(done) v0 ∅ [] p0 [] p0_calls) as (e & p' & v' & E & Hc & _).
  - intros i Hi. assert (i = 0 ∨ i = 1 ∨ i = 2) as [->|[->| ->]] by lia; reflexivity.
  - unfold v1, p1, installed. rewrite E. exact Hc.
Qed.

(** [dup2(1, 5)] in the frame of a trap. *)
Definition frame_at : Z := 4194304.
Definition frame_dup2 (m : memory) : memory :=
  set_frame_x (set_frame_x (set_frame_x m frame_at 10 1) frame_at 11 5) frame_at 17 SYS_DUP2.
Definition v2 : vfs := set_kern (set_mem (frame_dup2 (mem (kern v1))) (kern v1)) v1.

Lemma frame_buffer a n i : 65536 <= a → a + n <= 2 ^ 32 → 0 <= i < n → region ram [kroot] (a + i).
Proof. intros H1 H2 Hi. apply VfsDemo.low_region. lia. Qed.

Lemma p1_calls2 : caller ram [kroot] low high v2 ∅ [] p1 [].
Proof.
  apply (local_call ram [kroot] low high (λ _, False) v1 ∅ [] p1 [] (frame_dup2 (mem (kern v1))) frame_at 288 p1_calls).
  - intros i Hi. split; [apply (frame_buffer frame_at 288); unfold frame_at; lia|by intros []].
  - intros b Hb. unfold frame_dup2, set_frame_x. rewrite !load8_store64_out by lia. reflexivity.
Qed.

Definition path_at : Z := 5242880.
Definition buffer_at : Z := 5243136.
Definition pair_at : Z := 5243392.
Definition entry_at : Z := 5243456.

(** The frame itself is not touched. *)
Definition in_frame (a : Z) : Prop := frame_at <= a < frame_at + SIZEOF_FRAME.

Lemma in_frame_region a : in_frame a → region ram [kroot] a.
Proof. intros Ha. unfold in_frame, frame_at in Ha. apply VfsDemo.low_region. lia. Qed.

Lemma locals : scratch ram [kroot] low high in_frame path_at buffer_at pair_at entry_at.
Proof.
  pose proof ElfDemo.archive_small as Hs. assert (∀ a, 5242880 <= a < 2 ^ 32 → local ram [kroot] in_frame a) as Hl.
  { intros a Ha. split; [apply VfsDemo.low_region; lia|]. unfold in_frame, frame_at. lia. }
  split; (split; [reflexivity|]).
  - intros i Hi. apply Hl. unfold path_at. lia.
  - split; intros a Ha; [split; [apply Hl|]|]; unfold in_frame, frame_at, buffer_at, ElfDemo.archive_at in *; lia.
  - intros i Hi. apply Hl. unfold pair_at. lia.
  - intros i Hi. apply Hl. unfold entry_at. lia.
Qed.

Lemma countable_check v :
  forallb (λ kx : Z * vnode, Z.of_nat (length (children (snd kx))) <=? INT64_MAX) (map_to_list (vnodes v)) = true → countable v.
Proof.
  intros E n [x Hx]. unfold vn. rewrite (lookup_total_correct _ _ _ Hx).
  rewrite List.forallb_forall in E. specialize (E (n, x)). apply Z.leb_le, E. by apply list_elem_of_In, elem_of_map_to_list.
Qed.

Lemma v2_countable : countable v2.
Proof.
  apply countable_check. vm_compute. reflexivity.
Qed.

Example dup2_result :
  match fd_syscall path_at buffer_at pair_at entry_at 1 frame_at p1 v2 with
  | Some (Answer r, p', _) => (r, lookup p' 5 =? lookup p1 1)
  | _ => (0, false)
  end = (5, true).
Proof. vm_compute. reflexivity. Qed.

Lemma fd_syscall_safe_witness :
  ∃ p' v', fd_syscall path_at buffer_at pair_at entry_at 1 frame_at p1 v2 = Some (Answer 5, p', v') ∧
    caller ram [kroot] low high v' ∅ [] p' [] ∧ lookup p' 5 = lookup p1 1 ∧ same_on in_frame (mem (kern v2)) (mem (kern v')).
Proof.
  destruct (fd_syscall_safe ram [kroot] low high in_frame path_at buffer_at pair_at entry_at v2 ∅ [] p1 [] 1 frame_at span in_frame_region locals p1_calls2
    v2_countable ltac:(vm_compute; reflexivity)) as (r & p' & v' & E & [_ Hf] & _ & Hr).
  pose proof dup2_result as Hd. rewrite E in Hd. destruct r as [x|]; [|discriminate Hd]. injection Hd as -> Hl.
  exists p', v'. split; [exact E|]. split; [exact Hr|]. split; [by apply Z.eqb_eq in Hl|exact Hf].
Defined.
End FdDemo.
