(* ===== verification/ProcessFork.v ===== *)
(** [fork]: the parts of [process_fork] beside everything else in memory, and what the
    whole of it does. *)
From S2P Require Import Prelude Machine Runtime PageAlloc Vm VmInv VmProps HeapSpec Ownership AddressSpace AddressSpaceInv AddressSpaceProps AddressSpaceClone AddressSpaceAreas AddressSpaceMaps AddressSpaceCopy AddressSpaceThms.
From S2P Require Import Outcome Log Pipe Scheduler Vfs VfsInit VfsTree VfsInv VfsFiles VfsOpen VfsPipe VfsIo ElfInv World Process Fd FdProps FdCalls FdIo ProcessInv.

(** * The table of processes *)

Create Rewrite HintDb procs.
Section Table.
Context (v : vfs) (m : gmap Z process) (n : Z) (R : gmap Z process_result) (K : option page_table) (I : Z) (L : Z).
Abbreviation st m := (mk_processes v m R K I n L) (only parsing).

Lemma update_new f c x : update_process f c (st (<[c := x]> m)) = st (<[c := f x]> m).
Proof. unfold update_process, set_procs. cbn. by rewrite alter_insert_eq. Qed.
Lemma update_old f p c x : p ≠ c → update_process f p (st (<[c := x]> m)) = st (<[c := x]> (alter f p m)).
Proof. intros Hp. unfold update_process, set_procs. cbn. by rewrite alter_insert_ne. Qed.
Lemma pr_new c x : pr (st (<[c := x]> m)) c = x.
Proof. unfold pr. cbn. by rewrite lookup_total_insert_eq. Qed.
Lemma pr_old p c x y : p ≠ c → m !! p = Some y → pr (st (<[c := x]> m)) p = y.
Proof. intros Hp Hy. unfold pr. cbn. rewrite lookup_total_insert_ne by done. by apply lookup_total_correct. Qed.
Lemma set_pvfs_eq v' : set_pvfs v' (st m) = mk_processes v' m R K I n L.
Proof. done. Qed.
Lemma set_pkern_eq s : set_pkern s (st m) = mk_processes (set_kern s v) m R K I n L.
Proof. done. Qed.
Lemma set_pmem_eq x : set_pmem x (st m) = mk_processes (set_kern (set_mem x (kern v)) v) m R K I n L.
Proof. done. Qed.
Lemma pkern_eq : pkern (st m) = kern v.
Proof. done. Qed.
Lemma take_lock_eq : take_process_lock (mk_processes v m R K I n 0) = Some (mk_processes v m R K I n 1).
Proof. done. Qed.
Lemma drop_lock_eq : drop_process_lock (st m) = mk_processes v m R K I n 0.
Proof. done. Qed.
End Table.
#[export] Hint Rewrite set_pvfs_eq set_pkern_eq set_pmem_eq pkern_eq take_lock_eq drop_lock_eq update_new pr_new : procs.

Section Parts.
Context `{HeapContract} `{Backends} `{!QuietConsole}.
Context (U : list Z) (lo hi : Z) (Hspan : hi - lo < 2 ^ 62).

(** * References *)

Lemma world_refs_perm O v B l l' X : l ≡ₚ l' → world U O lo hi v B l X → world U O lo hi v B l' X.
Proof. intros Hl [[C1 C2 C3 C4 C5 C6 C7] Hb]. split; [|done]. split; try done. by eapply refs_ok_perm. Qed.

Lemma world_ram O v s B l X : same_ram (kern v) s → world U O lo hi v B l X → world U O lo hi (set_kern s v) B l X.
Proof.
  intros Hs Hw. pose proof Hw as [Hc (F & P & Hb)]. apply world_drop; [done|exists F, P; by eapply bare_ram|].
  intros p Hp a Ha. destruct Hs as (-> & _). done.
Qed.

(** What a step of the file system did besides. *)
Record settled (O : list Z) (X : list member) (v v' : vfs) : Prop := {
  se_mem : kept U (all_pages X ++ O) (mem (kern v)) (mem (kern v'));
  se_tree : same_tree v v';
  se_nodes : nodes_from v v';
}.

Lemma settled_trans O X v1 v2 v3 : settled O X v1 v2 → settled O X v2 v3 → settled O X v1 v3.
Proof.
  intros [A1 A2 A3] [B1 B2 B3]. split; [by eapply kept_trans|by etransitivity|by eapply nodes_from_trans].
Qed.

Lemma settled_kern O X v s : kept U (all_pages X ++ O) (mem (kern v)) (mem s) → settled O X v (set_kern s v).
Proof. intros Hk. split; [done|by apply same_vnodes|by apply nodes_from_same]. Qed.

Lemma kept_world O v X m m' : kept U (world_pages O v X) m m' → kept U (all_pages X ++ O) m m'.
Proof. intros Hk. eapply kept_sub; [|exact Hk]. intros p Hp. unfold world_pages. apply elem_of_app. by right. Qed.

Lemma world_get_files O B X fs : ∀ v l,
  world U O lo hi v B l X → (∀ f, f ∈ fs → f ∈ l) → Z.of_nat (length fs + length l) < 2 ^ 64 - 1 →
  world U O lo hi (get_files fs v) B (fs ++ l) X ∧ settled O X v (get_files fs v).
Proof using Hspan.
  induction fs as [|f fs IH]; intros v l Hw Hin Hlen.
  - split; [done|]. split; [apply kept_refl|by apply same_vnodes|by apply nodes_from_same].
  - cbn [get_files fold_left]. cbn [length] in Hlen. pose proof (world_holding U O lo hi v B l X Hw) as Hh.
    assert (f ∈ l) as Hf by (apply Hin; by left).
    destruct (holding_get U (all_pages X ++ O) lo hi Hspan v _ l f Hh Hf ltac:(lia)) as (Hh' & Ht & Hst).
    pose proof (world_vfs U O lo hi v B l X (file_get f v) (f :: l) Hw Hh') as Hw'.
    assert (settled O X v (file_get f v)) as Hs1.
    { split; [apply Hst|done|]. destruct (decide (f = 0)) as [->|Hn]; [by apply nodes_from_same|].
      apply file_get_nodes_from. by eapply (rf_open _ _ (ho_refs _ _ _ _ _ _ _ Hh)). }
    destruct (IH (file_get f v) (f :: l)) as [Hw2 Hs2].
    + apply Hw'. eapply pages_same_kept; [apply Hs1|]. intros p Hp. apply elem_of_app. by left.
    + intros g Hg. right. apply Hin. by right.
    + cbn [length]. lia.
    + split; [|by eapply settled_trans]. eapply world_refs_perm; [|exact Hw2]. by rewrite <- Permutation_middle.
Qed.

Lemma world_put_files O B X fs : ∀ v l,
  world U O lo hi v B (fs ++ l) X →
  world U O lo hi (put_files fs v) B l X ∧ settled O X v (put_files fs v).
Proof using Hspan.
  induction fs as [|f fs IH]; intros v l Hw.
  - split; [done|]. split; [apply kept_refl|by apply same_vnodes|by apply nodes_from_same].
  - cbn [put_files fold_left]. cbn [app] in Hw. pose proof (world_holding U O lo hi v B _ X Hw) as Hh.
    destruct (holding_put U (all_pages X ++ O) lo hi Hspan v _ f _ Hh) as (Hh' & Hk & E1 & E2 & E3).
    assert (settled O X v (file_put f v)) as Hs1.
    { split; [done|by apply same_vnodes|]. eapply put_nodes_from. exact Hh. }
    destruct (IH (file_put f v) l) as [Hw2 Hs2].
    + apply (world_vfs U O lo hi v B _ X (file_put f v) _ Hw Hh'). eapply pages_same_kept; [exact Hk|].
      intros p Hp. apply elem_of_app. by left.
    + split; [done|by eapply settled_trans].
Qed.

(** * The first thread of a process *)

Lemma stack_apart O v B l X p a : world U (p :: O) lo hi v B l X → in_page p a → ¬ region U (all_pages X ++ O) a.
Proof.
  intros [_ (F & P & Hb)] Hp Hr. assert (bare U (kern v) F P (world_objects v B X) (p :: block_pages v ++ all_pages X ++ O)) as Hb'.
  { eapply bare_perm; [|exact Hb]. unfold world_pages. by rewrite !app_assoc, Permutation_middle. }
  apply (bare_region_page _ _ _ _ _ _ _ a Hb' Hp). destruct Hr as [(q & Hq & Ha)|Hr]; [left|by right].
  exists q. split; [|done]. apply elem_of_app. by right.
Qed.

Definition stack_frame (stack : Z) : Z := phys_to_virt stack + 3808.
Definition user_thread (enter child_ stack : Z) : thread :=
  mk_thread enter (stack_frame stack) (Some child_) (stack_frame stack) THREAD_RUNNABLE 0 0 stack 0 3 false.
Definition with_thread (t : Z) (th : thread) (s : sched) : sched := set_all (all_threads s ++ [t]) (upd_threads (insert t th) s).

Lemma stack_frame_at stack : page_ok stack → u64 (u64 (phys_to_virt stack + PAGE_SIZE) - SIZEOF_FRAME) = stack_frame stack.
Proof.
  intros [Hp Hm]. unfold stack_frame. rewrite phys_to_virt_page by lia. unfold u64. rewrite Zminus_mod_idemp_l. rewrite Z.mod_small; div_lia.
Qed.

(** The frame of a new thread: that of the trap, with interrupts to be enabled. *)
Definition frame_copied (m m' : memory) (from to : Z) : Prop :=
  ∀ i, 0 <= i < 36 → load64 m' (to + 8 * i) = if i =? 33 then SSTATUS_SPIE else load64 m (from + 8 * i).

Lemma thread_create_world O v B l X child_ frame tr ue s :
  world U O lo hi v B l X → frame ≠ 0 → (∀ i, 0 <= i < SIZEOF_FRAME → region U O (frame + i)) →
  ∃ ok m s', thread_create_user tr ue (Some child_) frame (kern v) s = (ok, m, s') ∧
    kept U (all_pages X ++ O) (mem (kern v)) (mem m) ∧
    if ok then ∃ t stack, page_ok stack ∧ t ≠ 0 ∧ t ∉ world_objects v B X ∧ s' = with_thread t (user_thread ue child_ stack) s ∧
      world U (stack :: O) lo hi (set_kern m v) ({[t]} ∪ B) l X ∧ frame_copied (mem (kern v)) (mem m) frame (stack_frame stack)
    else s' = s ∧ world U O lo hi (set_kern m v) B l X.
Proof.
  intros Hw Hf Hfr. unfold thread_create_user. destruct (irq_save (kern v)) as [flags_ m0] eqn:E0.
  pose proof (irq_save_ram (kern v)) as Hr0. rewrite E0 in Hr0. cbn [snd] in Hr0.
  rewrite (proj2 (Z.eqb_neq _ _) Hf). unfold create_thread.
  pose proof (world_ram O v m0 B l X Hr0 Hw) as Hw0.
  destruct (world_kmalloc U lo hi O _ B l X 216 Hw0 ltac:(lia)) as (t & m1 & E1 & Hk1 & Hnew & Hw1). cbn [kern set_kern] in E1, Hk1. rewrite E1.
  destruct (Z.eqb_spec t 0) as [Et|Et].
  { eexists _, _, _. split; [reflexivity|]. pose proof (irq_restore_ram flags_ m1) as Hr1. split; [|split; [done|]].
    - eapply kept_ram; [exact Hr1|]. apply (kept_world O v). destruct Hr0 as (Em0 & _). rewrite <- Em0. exact Hk1.
    - by apply (world_ram O (set_kern m1 v)). }
  specialize (Hnew Et). destruct (world_page_alloc U lo hi O _ ({[t]} ∪ B) l X Hw1) as (stack & m2 & E2 & Em & Hcase).
  cbn [kern set_kern] in E2, Em. rewrite E2.
  destruct Hcase as [[-> ->]|[Hp Hw2]].
  - cbn [Z.eqb]. eexists _, _, _. split; [reflexivity|].
    destruct (world_kfree U lo hi O (set_kern m1 v) B l X t Hw1) as [Hw3 Hk3]; [clear -Hnew; set_solver|]. cbn [kern set_kern] in Hk3.
    pose proof (irq_restore_ram flags_ (kfree t m1)) as Hr1. split; [|split; [done|]].
    + eapply kept_ram; [exact Hr1|]. apply (kept_world O v). eapply kept_trans; [|exact Hk3]. destruct Hr0 as (Em0 & _). rewrite <- Em0. exact Hk1.
    + by apply (world_ram O (set_kern (kfree t m1) v)).
  - assert (stack =? 0 = false) as -> by (apply Z.eqb_neq; destruct Hp; lia). cbv zeta. rewrite (stack_frame_at stack Hp).
    eexists _, _, _. split; [reflexivity|]. set (m3 := memcpy (mem m2) _ _ _). set (m4 := store64 m3 _ _).
    pose proof (irq_restore_ram flags_ (set_mem m4 m2)) as Hr1.
    assert (∀ i, 0 <= i < 288 → in_page stack (stack_frame stack + i)) as Hin.
    { intros i Hi. unfold in_page, stack_frame. lia. }
    assert (∀ i, 0 <= i < 288 → ¬ in_page stack (frame + i)) as Hout.
    { intros i Hi Hs. apply (stack_apart O _ _ _ _ _ _ Hw2 Hs). destruct (Hfr i Hi) as [(q & Hq & Ha)|Ha]; [left|by right].
      exists q. split; [|done]. apply elem_of_app. by right. }
    assert (∀ a, load8 m3 a = if decide (stack_frame stack <= a < stack_frame stack + 288)
                              then load8 (mem m2) (frame + (a - stack_frame stack)) else load8 (mem m2) a) as H3.
    { intros a. unfold m3. rewrite memcpy_load8; [done|]. rewrite Z2Nat.id by lia.
      destruct (decide (stack_frame stack <= frame ∨ frame + 288 <= stack_frame stack)) as [|Hno]; [done|].
      destruct (Hout (stack_frame stack - frame)); [lia|]. replace (frame + _) with (stack_frame stack + 0) by lia. apply Hin. lia. }
    assert (∀ a, ¬ in_page stack a → load8 m4 a = load8 (mem m2) a) as H4.
    { intros a Ha. assert (¬ (stack_frame stack <= a < stack_frame stack + 288)) as Ha'.
      { intros Hi. apply Ha. replace a with (stack_frame stack + (a - stack_frame stack)) by lia. apply Hin. lia. }
      unfold m4. rewrite load8_store64_out by lia. rewrite H3, decide_False by done. done. }
    assert (kept U (all_pages X ++ O) (mem (kern v)) (mem m2)) as Hk2.
    { rewrite Em. apply (kept_world O v). destruct Hr0 as (Em0 & _). rewrite <- Em0. exact Hk1. }
    split; [|exists t, stack; split; [done|]; split; [done|]; split; [done|]; split; [done|]; split].
    + eapply kept_ram; [exact Hr1|]. eapply kept_trans; [exact Hk2|]. intros a Ha. apply H4.
      intros Hs. by apply (stack_apart O _ _ _ _ _ _ Hw2 Hs).
    + apply (world_ram _ (set_kern (set_mem m4 m2) v)); [done|]. apply (world_local U (stack :: O) lo hi (set_kern m2 v)); [done|].
      intros a Ha. left. exists stack. split; [by left|]. destruct (decide (in_page stack a)) as [|Hn]; [done|]. by destruct Ha; apply H4.
    + intros i Hi. destruct Hr1 as (-> & _). cbn [mem set_mem]. destruct (Z.eqb_spec i 33) as [->|Hne].
      * unfold m4. rewrite Z.mul_comm. apply load64_store64_eq. done.
      * unfold m4. rewrite load64_store64_ne by lia. apply load64_shift. intros j Hj. rewrite H3, decide_True by lia.
        replace (frame + _) with (frame + 8 * i + j) by lia. apply Hk2.
        destruct (Hfr (8 * i + j) ltac:(lia)) as [(q & Hq & Ha)|Ha]; [left|right]; rewrite <- Z.add_assoc; [|done].
        exists q. split; [|done]. apply elem_of_app. by right.
Qed.

(** * A new process *)

Abbreviation state v m n R K I := (mk_processes v m R K I n 0) (only parsing).
Definition newborn (as_ : address_space) (root n : Z) : process := mk_process as_ no_fds root root n 0 [] PROCESS_RUNNING 0 0 0.

Lemma create_spec O v m n R I B l X kr NK :
  world U O lo hi v B l X → pt_rep whole (kern v) kr NK → (∀ p, p ∈ map_vals NK → p ∈ O) →
  ∃ c s, kept U (all_pages X ++ O) (mem (kern v)) (mem s) ∧
    if c =? 0 then
      process_create (state v m n R (Some (mk_page_table kr)) I) = Some (0, state (set_kern s v) m n R (Some (mk_page_table kr)) I) ∧
      world U O lo hi (set_kern s v) B l X
    else ∃ t N,
      process_create (state v m n R (Some (mk_page_table kr)) I) =
        Some (c, state (set_kern s v) (<[c := newborn (fresh_as t) (vfs_root v) n]> m) (u64 (n + 1)) R (Some (mk_page_table kr)) I) ∧
      c ∉ world_objects v B X ∧ world U O lo hi (set_kern s v) ({[c]} ∪ B) l ((fresh_as t, N) :: X).
Proof.
  intros Hw HK HNK. unfold process_create, pkern. cbn [pvfs].
  destruct (world_kmalloc U lo hi O v B l X SIZEOF_PROCESS Hw ltac:(lia)) as (c & s1 & -> & Hk1 & Hnew & Hw1). apply kept_world in Hk1.
  destruct (Z.eqb_spec c 0) as [->|Hc]; [exists 0, s1; by rewrite Z.eqb_refl|]. specialize (Hnew Hc). cbn.
  destruct (pt_rep_same whole (kern v) (kern (set_kern s1 v)) kr NK) as [HK1 _]; [|done|].
  { intros p Hp a Ha. apply Hk1. left. exists p. split; [|done]. apply elem_of_app. right. by apply HNK. }
  destruct (world_init U lo hi O _ _ l X kr NK Hw1 HK1 HNK) as (ok & t & s2 & E2 & Hk2 & Hres). cbn [kern set_kern] in E2, Hk2. apply kept_world in Hk2.
  rewrite E2. destruct ok; cbn.
  - destruct Hres as [N Hw2]. exists c, (irq_restore (sstatus s2) (csr_clear_sstatus SSTATUS_SIE s2)). rewrite (proj2 (Z.eqb_neq _ _) Hc).
    split. { eapply kept_ram; [etransitivity; [|apply irq_restore_ram]; apply (irq_save_ram s2)|]. by eapply kept_trans. }
    exists t, N. split; [reflexivity|]. split; [done|].
    apply (world_ram O (set_kern s2 v)); [|done]. etransitivity; [apply (irq_save_ram s2)|apply irq_restore_ram].
  - destruct (world_kfree U lo hi O (set_kern s2 v) B l X c Hres) as [Hw3 Hk3]; [clear -Hnew; set_solver|]. apply kept_world in Hk3.
    exists 0, (kfree c s2). split; [|done]. eapply kept_trans; [exact Hk1|]. by eapply kept_trans.
Qed.


Lemma put_nothing v : put_files no_fds v = v.
Proof.
  unfold put_files, no_fds. generalize (Z.to_nat FD_COUNT) as k. intros k. revert v.
  induction k as [|k IH]; intros v; [done|]. cbn [repeat fold_left]. apply IH.
Qed.

Lemma destroy_nothing b e s : address_space_destroy (mk_as (mk_page_table 0) [] [] b e) s = (mk_as (mk_page_table 0) [] [] b e, s).
Proof. done. Qed.

(** ** A process taken back *)

Lemma destroy_empty_process O v m n R K I L B l X c x :
  world U O lo hi v ({[c]} ∪ B) l X → c ∉ B → c ≠ 0 → m !! c = None → fds x = no_fds →
  p_as x = mk_as (mk_page_table 0) [] [] (brk_base (p_as x)) (brk_end (p_as x)) →
  ∃ s, process_destroy c (mk_processes v (<[c := x]> m) R K I n L) = mk_processes (set_kern s v) m R K I n L ∧
    world U O lo hi (set_kern s v) B l X ∧ kept U (all_pages X ++ O) (mem (kern v)) (mem s).
Proof.
  intros Hw Hc Hc0 Hm Hf Ha. destruct (world_kfree U lo hi O v B l X c Hw Hc) as [Hw' Hk]. apply kept_world in Hk.
  exists (kfree c (kern v)). split; [|done]. unfold process_destroy. rewrite (proj2 (Z.eqb_neq _ _) Hc0).
  unfold release_runtime. rewrite pr_new, Ha, destroy_nothing. cbv zeta.
  unfold set_pkern, set_pvfs, pkern. cbn [pvfs procs results kernel_table init_process next_pid process_lock].
  rewrite update_new, pr_new. cbn [pvfs procs results kernel_table init_process next_pid process_lock]. cbn [fds with_as]. rewrite Hf, put_nothing, update_new.
  unfold free_process, set_pkern, set_procs, set_pvfs, pkern. cbn. rewrite delete_insert_id by done. done.
Qed.

Lemma destroy_process O v m n R K I L B l X c x M :
  world U O lo hi v ({[c]} ∪ B) (fds x ++ l) ((p_as x, M) :: X) → c ∉ B → c ≠ 0 → m !! c = None →
  ∃ v', process_destroy c (mk_processes v (<[c := x]> m) R K I n L) = mk_processes v' m R K I n L ∧
    world U O lo hi v' B l X ∧ settled O X v v'.
Proof using Hspan.
  intros Hw Hc Hc0 Hm. destruct (world_destroy U lo hi O v _ _ _ M X Hw) as (s1 & E1 & Hw1 & Hk1). apply kept_world in Hk1.
  destruct (world_put_files O ({[c]} ∪ B) X (fds x) _ l Hw1) as [Hw2 Hs2]. set (v2 := put_files _ _) in *.
  destruct (world_kfree U lo hi O v2 B l X c Hw2 Hc) as [Hw3 Hk3]. apply kept_world in Hk3.
  exists (set_kern (kfree c (kern v2)) v2). split; [|split; [done|]].
  - unfold process_destroy. rewrite (proj2 (Z.eqb_neq _ _) Hc0). unfold release_runtime. rewrite pr_new.
    unfold pkern. cbn [pvfs]. rewrite E1. cbv zeta.
    unfold set_pkern, set_pvfs. cbn [pvfs procs results kernel_table init_process next_pid process_lock].
    rewrite update_new, pr_new. cbn [pvfs procs results kernel_table init_process next_pid process_lock]. cbn [fds with_as]. fold v2. rewrite update_new.
    unfold free_process, set_pkern, set_procs, set_pvfs, pkern. cbn. rewrite delete_insert_id by done. done.
  - eapply settled_trans; [by apply settled_kern|]. eapply settled_trans; [exact Hs2|]. by apply settled_kern.
Qed.

(** * The frame of the child *)

Definition child_regs (mem : memory) (pf cf : Z) : memory := set_frame_x (memcpy mem cf pf (Z.to_nat SIZEOF_FRAME)) cf 10 0.

Lemma child_regs_spec mem pf cf :
  cf + SIZEOF_FRAME <= pf →
  (∀ a, ¬ (cf <= a < cf + SIZEOF_FRAME) → load8 (child_regs mem pf cf) a = load8 mem a) ∧
  (∀ i, 0 <= i < 36 → load64 (child_regs mem pf cf) (cf + 8 * i) = if i =? 10 then 0 else load64 mem (pf + 8 * i)).
Proof.
  intros Hd. unfold child_regs, set_frame_x. set (m1 := memcpy _ _ _ _).
  assert (∀ a, load8 m1 a = if decide (cf <= a < cf + 288) then load8 mem (pf + (a - cf)) else load8 mem a) as H1'.
  { intros a. unfold m1. rewrite memcpy_load8; [done|]. lia. }
  split.
  - intros a Ha. rewrite load8_store64_out by lia. by rewrite H1', decide_False.
  - intros i Hi. destruct (Z.eqb_spec i 10) as [->|Hne]; [by apply load64_store64_eq|].
    rewrite load64_store64_ne by lia. apply load64_shift. intros k Hk. rewrite H1', decide_True by lia. f_equal. lia.
Qed.

(** ** Everything else as it was *)

(** The pages [W] and the bytes [V] of the kernel. *)
Record quiet (W : list Z) (V : Z → Prop) (v v' : vfs) : Prop := {
  qt_mem : pages_same W (mem (kern v)) (mem (kern v'));
  qt_bytes : same_on V (mem (kern v)) (mem (kern v'));
  qt_tree : same_tree v v';
  qt_nodes : nodes_from v v';
}.

Lemma quiet_trans W V v1 v2 v3 : quiet W V v1 v2 → quiet W V v2 v3 → quiet W V v1 v3.
Proof.
  intros [A1 A2 A3 A4] [B1 B2 B3 B4]. split; [| |by etransitivity|by eapply nodes_from_trans].
  - intros p Hp a Ha. rewrite (B1 p Hp a Ha). exact (A1 p Hp a Ha).
  - intros a Ha. rewrite (B2 a Ha). exact (A2 a Ha).
Qed.

Lemma settled_quiet O X W (V : Z → Prop) v v' :
  settled O X v v' → (∀ p, p ∈ W → p ∈ all_pages X ++ O) → (∀ a, V a → region U O a) → quiet W V v v'.
Proof.
  intros [A1 A2 A3] HW HV. split; [by eapply pages_same_kept| |done|done]. intros a Ha. apply A1, region_app. by apply HV.
Qed.

Lemma quiet_kern W V v s : pages_same W (mem (kern v)) (mem s) → same_on V (mem (kern v)) (mem s) → quiet W V v (set_kern s v).
Proof. intros Hk HV. split; [done|done|by apply same_vnodes|by apply nodes_from_same]. Qed.

Lemma quiet_settle O X W V v s :
  kept U (all_pages X ++ O) (mem (kern v)) (mem s) → (∀ p, p ∈ W → p ∈ all_pages X ++ O) → (∀ a, V a → region U O a) →
  quiet W V v (set_kern s v).
Proof. intros Hk HW HV. by apply (settled_quiet O X); [apply settled_kern| |]. Qed.
End Parts.

(** * [fork] *)

Section Fork.
Context `{HeapContract} `{Backends} `{!QuietConsole}.
Context (U : list Z) (lo hi : Z) (Hspan : hi - lo < 2 ^ 62).
Context (O : list Z) (kr : Z) (NK : gmap (list Z) Z) (V : Z → Prop).

(** The pages of the kernel's own table are apart from the members', and the frames
    are local variables of the kernel, the child's apart from [V]; it is below the one
    of the trap. *)
Record frames_ok (pf cf : Z) : Prop := {
  fr_kernel : ∀ p, p ∈ map_vals NK → p ∈ O;
  fr_null : cf ≠ 0;
  fr_below : cf + SIZEOF_FRAME <= pf;
  fr_child : ∀ i, 0 <= i < SIZEOF_FRAME → local U O V (cf + i) ∧ ∀ p, p ∈ map_vals NK → ¬ in_page p (cf + i);
  fr_kept : ∀ a, V a → region U O a;
  fr_parent : ∀ i, 0 <= i < SIZEOF_FRAME → region U O (pf + i);
}.

Definition child_of (par : process) (as_ : address_space) (n parent_ : Z) : process :=
  mk_process as_ (fds par) (p_root par) (p_cwd par) n parent_ [] PROCESS_RUNNING 0 0 0.

(** The registers of the child: those of the parent, and 0 as the result. *)
Definition forked_frame (m m' : memory) (pf stack : Z) : Prop :=
  ∀ i, 0 <= i < 36 → load64 m' (stack_frame stack + 8 * i) =
    if i =? 33 then SSTATUS_SPIE else if i =? 10 then 0 else load64 m (pf + 8 * i).

Abbreviation ktable := (Some (mk_page_table kr)).
Abbreviation W a N X := (all_pages ((a, N) :: X) ++ map_vals NK).

Lemma W_kept a N X p : (∀ q, q ∈ map_vals NK → q ∈ O) → p ∈ W a N X → p ∈ all_pages ((a, N) :: X) ++ O.
Proof. intros HK. rewrite !elem_of_app. intros [?|?]; auto. Qed.

Lemma quiet_kernel a N X v v' : quiet (W a N X) V v v' → pt_rep whole (kern v) kr NK → pt_rep whole (kern v') kr NK.
Proof.
  intros [Hq _ _ _] HK. apply (proj1 (pt_rep_same whole (kern v) (kern v') kr NK ltac:(
    intros p Hp; apply Hq; apply elem_of_app; by right) HK)).
Qed.

(** ** The family *)

Definition adopt (c : Z) (p : process) : process := with_family (p_children p ++ [c]) p.

Lemma link_new v m n R K I L parent_ c x :
  parent_ ≠ c → link_child parent_ c (mk_processes v (<[c := x]> m) R K I n L) =
    mk_processes v (<[c := with_parent parent_ x]> (alter (adopt c) parent_ m)) R K I n L.
Proof. intros Hne. unfold link_child. rewrite update_new, update_old by done. done. Qed.

Lemma remove_last (c : Z) l : c ∉ l → List.remove Z.eq_dec c (l ++ [c]) = l.
Proof.
  intros Hc. induction l as [|a l IH]; cbn.
  - by destruct (Z.eq_dec c c).
  - destruct (Z.eq_dec c a) as [->|Hn]; [destruct Hc; by left|]. f_equal. apply IH. intros Hin. apply Hc. by right.
Qed.

Lemma unlink_new v m n R K I L parent_ par c x :
  parent_ ≠ c → m !! parent_ = Some par → c ∉ p_children par →
  unlink_child c (mk_processes v (<[c := with_parent parent_ x]> (alter (adopt c) parent_ m)) R K I n L) =
    mk_processes v (<[c := with_parent 0 x]> m) R K I n L.
Proof.
  intros Hne Hp Hc. unfold unlink_child. rewrite pr_new. cbn [p_parent with_parent]. rewrite update_old by done.
  rewrite update_new. f_equal. f_equal. apply map_eq. intros q. destruct (decide (q = parent_)) as [->|Hq].
  - rewrite !lookup_alter_eq, Hp. cbn. unfold adopt. cbn [p_children with_family]. rewrite remove_last by done. by destruct par.
  - by rewrite !lookup_alter_ne.
Qed.

(** ** The child *)

Context (tr ue : Z).

(** How a fork ends, from the state [v] and the table [m]. *)
Definition fork_failed (v : vfs) (m : gmap Z process) (n : Z) (R : gmap Z process_result) (I : Z) (B : gset Z) (l : list Z)
    (a : address_space) (N : gmap (list Z) Z) (X : list member) (ps' : processes) : Prop :=
  ∃ v', ps' = mk_processes v' m R ktable I n 0 ∧ world U O lo hi v' B l ((a, N) :: X) ∧ quiet (W a N X) V v v'.

Definition fork_done (v : vfs) (m : gmap Z process) (n : Z) (R : gmap Z process_result) (I : Z) (B : gset Z) (l : list Z)
    (par : process) (parent_ c n0 pf : Z) (N : gmap (list Z) Z) (X : list member) (s s' : sched) (ps' : processes) : Prop :=
  ∃ v' as_ M t stack,
    ps' = mk_processes v' (<[c := child_of par as_ n0 parent_]> (alter (adopt c) parent_ m)) R ktable I n 0 ∧
    page_ok stack ∧ t ≠ 0 ∧ t ∉ {[c]} ∪ B ∧ s' = with_thread t (user_thread ue c stack) s ∧
    world U (stack :: O) lo hi v' ({[t]} ∪ ({[c]} ∪ B)) (fds par ++ l) ((as_, M) :: (p_as par, N) :: X) ∧
    quiet (W (p_as par) N X) V v v' ∧ forked_frame (mem (kern v)) (mem (kern v')) pf stack ∧
    Forall2 (AddressSpaceClone.copied (mem (kern v'))) (pages (p_as par)) (pages as_) ∧
    Forall2 same_area (areas (p_as par)) (areas as_) ∧ brk_end as_ = brk_end (p_as par).

Lemma copied_pages X a N M b m m' :
  pages_same (all_pages ((b, M) :: (a, N) :: X)) m m' →
  Forall2 (AddressSpaceClone.copied m) (pages a) (pages b) → Forall2 (AddressSpaceClone.copied m') (pages a) (pages b).
Proof.
  intros Hk. assert (∀ x i, x ∈ pages a ∨ x ∈ pages b → 0 <= i < PAGE_SIZE →
    load8 m' (phys_to_virt (physical x) + i) = load8 m (phys_to_virt (physical x) + i)) as Hx.
  { intros x i Hin Hi. apply (Hk (physical x)); [|unfold in_page; lia]. rewrite !all_pages_cons, !elem_of_app.
    unfold member_pages, as_pages. rewrite !elem_of_app. destruct Hin as [Hin|Hin]; [right; left; right|left; right]; by apply list_elem_of_fmap_2. }
  intros HF. apply Forall2_same_length_lookup. split; [by eapply Forall2_length|]. intros i p q Hp Hq.
  destruct (Forall2_lookup_lr _ _ _ _ _ _ HF Hp Hq) as (E1 & E2 & E3). apply list_elem_of_lookup_2 in Hp, Hq.
  split; [done|]. split; [done|]. intros k Hk'. rewrite !Hx by auto. by apply E3.
Qed.

(** From the moment the child is complete. *)
Definition fork_publish (parent_ c cf : Z) (s : sched) (ps : processes) : option (Z * sched * processes) :=
  let '(flags_, m) := irq_save (pkern ps) in
  ps ← take_process_lock (set_pkern m ps);
  let ps := drop_process_lock (link_child parent_ c ps) in
  let '(ok, m, s) := thread_create_user tr ue (Some c) cf (pkern ps) s in
  let ps := set_pkern m ps in
  if negb ok then
    ps ← take_process_lock ps;
    let ps := drop_process_lock (unlink_child c ps) in
    let ps := set_pkern (irq_restore flags_ (pkern ps)) ps in
    Some (- PROCESS_ENOMEM, s, process_destroy c ps)
  else
    let ps := set_pkern (irq_restore flags_ (pkern ps)) ps in
    Some (s64 (pid (pr ps c)), s, ps).

Lemma fork_publish_spec v m n n0 R K I B l par parent_ c dst M Y cf s :
  m !! parent_ = Some par → m !! c = None → c ≠ 0 → c ∉ B → c ∉ p_children par → cf ≠ 0 →
  (∀ i, 0 <= i < SIZEOF_FRAME → region U O (cf + i)) →
  world U O lo hi v ({[c]} ∪ B) (fds par ++ l) ((dst, M) :: Y) →
  ∃ r s' ps' v', fork_publish parent_ c cf s (mk_processes v (<[c := child_of par dst n0 0]> m) R K I n 0) = Some (r, s', ps') ∧
    ((r = - PROCESS_ENOMEM ∧ s' = s ∧ ps' = mk_processes v' m R K I n 0 ∧ world U O lo hi v' B l Y ∧ settled U O Y v v') ∨
     (r = s64 n0 ∧ ps' = mk_processes v' (<[c := child_of par dst n0 parent_]> (alter (adopt c) parent_ m)) R K I n 0 ∧
      settled U O ((dst, M) :: Y) v v' ∧ ∃ t stack, page_ok stack ∧ t ≠ 0 ∧ t ∉ {[c]} ∪ B ∧
      s' = with_thread t (user_thread ue c stack) s ∧ frame_copied (mem (kern v)) (mem (kern v')) cf (stack_frame stack) ∧
      world U (stack :: O) lo hi v' ({[t]} ∪ ({[c]} ∪ B)) (fds par ++ l) ((dst, M) :: Y))).
Proof using Hspan V.
  intros Hp Hc Hc0 HcB Hch Hcf Hreg Hw. assert (parent_ ≠ c) as Hne by congruence. unfold fork_publish.
  rewrite pkern_eq. destruct (irq_save (kern v)) as [flags_ s1] eqn:E1. autorewrite with procs. cbn [mbind option_bind].
  pose proof (irq_save_ram (kern v)) as Hr1. rewrite E1 in Hr1. cbn [snd] in Hr1.
  rewrite link_new by done. autorewrite with procs. cbn [kern set_kern].
  destruct (thread_create_world U lo hi O _ _ _ _ c cf tr ue s (world_ram U lo hi O v s1 _ _ _ Hr1 Hw) Hcf Hreg) as (ok & s2 & s' & E2 & Hk2 & Hres).
  cbn [kern set_kern] in E2, Hk2. rewrite E2. destruct ok; cbn [negb].
  - destruct Hres as (t & stack & Hst & Ht & Hnew & -> & Hw2 & Hfr). autorewrite with procs.
    pose proof (irq_restore_ram flags_ s2) as Hr2. eexists _, _, _, _. split; [reflexivity|]. right. split; [done|]. split; [reflexivity|].
    split. { apply (settled_kern U O _ v (irq_restore flags_ s2)). eapply kept_ram; [exact Hr2|]. destruct Hr1 as (Em & _). rewrite <- Em. exact Hk2. }
    exists t, stack. split; [done|]. split; [done|]. split; [|split; [done|split]].
    + intros Ht'. apply Hnew. unfold world_objects. rewrite !elem_of_union. rewrite elem_of_union in Ht'. tauto.
    + intros i Hi. cbn [kern set_kern]. destruct Hr2 as (-> & _). rewrite Hfr by done. cbn [kern set_kern]. destruct Hr1 as (-> & _). done.
    + by apply (world_ram U lo hi (stack :: O) (set_kern s2 v)).
  - destruct Hres as [-> Hw2]. autorewrite with procs. cbn [mbind option_bind]. rewrite (unlink_new _ _ _ _ _ _ _ _ par) by done.
    autorewrite with procs. cbn [kern set_kern]. pose proof (irq_restore_ram flags_ s2) as Hr2.
    pose proof (world_ram U lo hi O (set_kern s2 v) _ _ _ _ Hr2 Hw2) as Hw3.
    destruct (destroy_process U lo hi Hspan O _ m n R K I 0 B l Y c (child_of par dst n0 0) M Hw3 HcB Hc0 Hc) as (v' & E3 & Hw4 & Hs4).
    exists (- 12), s. eexists _, v'. split; [|left; split; [done|]; split; [done|]; split; [exact E3|]; split; [done|]].
    + done.
    + eapply settled_trans; [|exact Hs4]. apply (settled_kern U O _ v (irq_restore flags_ s2)). eapply kept_ram; [exact Hr2|]. destruct Hr1 as (Em & _). rewrite <- Em.
      eapply kept_sub; [|exact Hk2]. intros p. rewrite all_pages_cons, !elem_of_app. tauto.
Qed.

Lemma fork_child_spec v m n n0 R I B l par parent_ c t rt N0 N X pf cf s :
  m !! parent_ = Some par → m !! c = None → c ≠ 0 → c ∉ B → c ∉ p_children par →
  world U O lo hi v ({[c]} ∪ B) (fds par ++ l) ((fresh_as t, N0) :: (p_as par, N) :: X) →
  pt_rep whole (kern v) kr NK → frames_ok pf cf → Z.of_nat (length (fds par ++ fds par ++ l)) < 2 ^ 64 - 1 →
  ∃ r s' ps', fork_child tr ue parent_ c pf cf s (mk_processes v (<[c := newborn (fresh_as t) rt n0]> m) R ktable I n 0) = Some (r, s', ps') ∧
    ((r = - PROCESS_ENOMEM ∧ s' = s ∧ fork_failed v m n R I B (fds par ++ l) (p_as par) N X ps') ∨
     (r = s64 n0 ∧ fork_done v m n R I B (fds par ++ l) par parent_ c n0 pf N X s s' ps')).
Proof.
  intros Hp Hc Hc0 HcB Hch Hw HK [F1 F2 F3 F4 HV F5] Hlen. assert (parent_ ≠ c) as Hne by congruence.
  pose proof (λ p, W_kept (p_as par) N X p F1) as HW.
  destruct (world_destroy U lo hi O v _ _ _ N0 _ Hw) as (s1 & E1 & Hw1 & Hk1). apply kept_world in Hk1.
  pose proof (quiet_settle U O _ (W (p_as par) N X) V v s1 Hk1 HW HV) as Q1. set (v1 := set_kern s1 v) in *.
  destruct (world_clone U lo hi O v1 _ _ (p_as par) N X kr NK Hw1 (quiet_kernel _ _ _ _ _ Q1 HK) F1) as (ok & dst & s2 & E2 & Hk2 & Hres).
  apply kept_world in Hk2. pose proof (quiet_settle U O _ (W (p_as par) N X) V v1 s2 Hk2 HW HV) as Q2. set (v2 := set_kern s2 v1) in *.
  unfold fork_child. rewrite pr_new, pkern_eq. cbn [p_as newborn]. rewrite E1. cbv beta iota zeta. autorewrite with procs. fold v1.
  rewrite (pr_old v1 m n R ktable I 0 parent_ c _ par Hne Hp). cbn [kernel_table]. rewrite E2. fold v2. destruct ok; cbn [negb].
  2:{ autorewrite with procs. fold v2. cbn [p_as with_as].
      match goal with |- context [process_destroy c (mk_processes v2 (<[c := ?x]> m) _ _ _ _ _)] => set (x0 := x) end.
      destruct (destroy_empty_process U lo hi O v2 m n R ktable I 0 B _ _ c x0 Hres HcB Hc0 Hc) as (s3 & -> & Hw3 & Hk3); [done|done|].
      eexists _, _, _. split; [reflexivity|]. left. split; [done|]. split; [done|]. eexists. split; [reflexivity|]. split; [done|].
      eapply quiet_trans; [exact Q1|]. eapply quiet_trans; [exact Q2|]. by eapply quiet_settle. }
  destruct Hres as ([M Hw2] & Hcp & Har & Hbrk). cbn [address_space_move]. cbv beta iota zeta.
  change (mk_as (table dst) (pages dst) (areas dst) (brk_base dst) (brk_end dst)) with (fst (address_space_move dst)).
  replace (fst (address_space_move dst)) with dst by (by destruct dst).
  repeat first [rewrite !(pr_old _ m n R ktable I 0 parent_ c _ par Hne Hp) | progress autorewrite with procs]. fold v2.
  cbn [pvfs fds with_fds with_as with_dirs newborn p_as p_root p_cwd pid p_parent p_children p_state exit_status fault_code p_result].
  destruct (world_get_files U lo hi Hspan O ({[c]} ∪ B) _ (fds par) v2 (fds par ++ l) Hw2) as [Hw3 Hs3].
  { intros f Hf. apply elem_of_app. by left. }
  { rewrite !length_app in Hlen. rewrite length_app. lia. }
  set (v3 := get_files (fds par) v2) in *.
  assert (∀ p, p ∈ W (p_as par) N X → p ∈ all_pages ((dst, M) :: (p_as par, N) :: X) ++ O) as HW'.
  { intros p Hp'. apply HW in Hp'. rewrite all_pages_cons. rewrite elem_of_app in *. rewrite elem_of_app. tauto. }
  pose proof (settled_quiet U O _ _ V v2 v3 Hs3 HW' HV) as Q3. fold (child_regs (mem (kern v3)) pf cf).
  destruct (child_regs_spec (mem (kern v3)) pf cf F3) as [Hout Hregs]. set (m4 := child_regs _ _ _) in *.
  assert (∀ a, load8 m4 a ≠ load8 (mem (kern v3)) a → local U O V a ∧ ∀ p, p ∈ map_vals NK → ¬ in_page p a) as Hloc.
  { intros a Ha. destruct (decide (cf <= a < cf + 288)) as [Hi|Hi]; [|by destruct Ha; apply Hout].
    replace a with (cf + (a - cf)) by lia. apply F4. lia. }
  pose proof (world_local U O lo hi v3 _ _ _ m4 Hw3 (λ a Ha, proj1 (proj1 (Hloc a Ha)))) as Hw4.
  set (v4 := set_kern (set_mem m4 (kern v3)) v3) in *.
  assert (quiet (W (p_as par) N X) V v3 v4) as Q4.
  { apply quiet_kern; cbn [mem set_mem].
    2:{ intros a Ha. destruct (decide (load8 m4 a = load8 (mem (kern v3)) a)) as [|Hd]; [done|]. by destruct (Hloc a Hd) as [[_ Hn] _]. }
    intros p Hp' a Ha. destruct (decide (load8 m4 a = load8 (mem (kern v3)) a)) as [|Hd]; [done|].
    destruct (Hloc a Hd) as [[Hr _] Hk]. apply elem_of_app in Hp' as [Hp'|Hp']; [|by destruct (Hk p)].
    destruct (region_foreign U O lo hi v3 _ _ _ a p Hw3 Hr); [|done]. rewrite all_pages_cons, !elem_of_app. auto. }
  destruct (fork_publish_spec v4 m n n0 R ktable I B (fds par ++ l) par parent_ c dst M ((p_as par, N) :: X) cf s Hp Hc Hc0 HcB Hch F2
    (λ i Hi, proj1 (proj1 (F4 i Hi))) Hw4) as (r & s' & ps' & v' & E & Hcase).
  exists r, s', ps'. split; [exact E|].
  pose proof (quiet_trans _ _ _ _ _ Q1 (quiet_trans _ _ _ _ _ Q2 (quiet_trans _ _ _ _ _ Q3 Q4))) as Q.
  destruct Hcase as [(-> & -> & -> & Hw5 & Hs5)|(-> & -> & Hs5 & t' & stack & Hst & Ht & Hnew & -> & Hfr & Hw5)]; [left|right].
  - split; [done|]. split; [done|]. exists v'. split; [done|]. split; [done|]. eapply quiet_trans; [exact Q|]. by eapply settled_quiet.
  - split; [done|]. exists v', dst, M, t', stack. do 5 (split; [done|]). split; [done|].
    split. { eapply quiet_trans; [exact Q|]. by eapply settled_quiet. } split; [|split; [|done]].
    + intros i Hi. rewrite Hfr by done. destruct (i =? 33); [done|]. cbn [kern set_kern mem set_mem v4]. rewrite Hregs by done.
      destruct (i =? 10); [done|]. apply load64_ext. intros a Ha.
      assert (region U O a) as Hr by (replace a with (pf + (a - pf)) by lia; apply F5; lia).
      etransitivity; [apply Hs3; by apply region_app|]. etransitivity; [apply Hk2|apply Hk1]; by apply region_app.
    + apply (copied_pages X _ N M _ (mem s2)); [|exact Hcp]. intros p Hp' a Ha. rewrite (se_mem _ _ _ _ _ Hs5); [|left; exists p; rewrite elem_of_app; auto].
      cbn [kern set_kern mem set_mem v4]. destruct (decide (load8 m4 a = load8 (mem (kern v3)) a)) as [->|Hd].
      * rewrite (se_mem _ _ _ _ _ Hs3); [done|]. left; exists p; rewrite elem_of_app; auto.
      * destruct (region_foreign U O lo hi v3 _ _ _ a p Hw3 (proj1 (proj1 (Hloc a Hd)))); [|done]. rewrite elem_of_app. auto.
Qed.
End Fork.
