(* ===== verification/ProcessExec.v ===== *)
(** [exec] beside everything else in memory: the new image built, the old address space
    given back. *)
From S2P Require Import Prelude Machine Runtime PageAlloc Vm VmInv VmProps HeapSpec Ownership AddressSpace AddressSpaceInv AddressSpaceProps AddressSpaceClone AddressSpaceAreas AddressSpaceMaps AddressSpaceCopy AddressSpaceThms.
From S2P Require Import Outcome Log Pipe Scheduler Vfs VfsInit VfsTree VfsInv VfsFiles VfsOpen VfsPipe VfsIo Elf ElfInv ElfProps ElfLoad ElfStack ElfThms World Process Fd FdProps FdCalls FdIo ProcessInv ProcessFork.

Section Exec.
Context `{HeapContract} `{Backends} `{!QuietConsole}.
Context (U : list Z) (lo hi : Z) (Hspan : hi - lo < 2 ^ 62).
Context (O : list Z) (Harch : ∀ a, lo <= a < hi → region U O a).

(** The same files, nodes, mounts and pipes. *)
Record same_store (v v' : vfs) : Prop := {
  ss_nodes : vnodes v' = vnodes v ∧ nodes v' = nodes v ∧ mounts v' = mounts v;
  ss_files : files v' = files v ∧ pipes v' = pipes v;
}.

Lemma same_store_objects v v' : same_store v v' → vfs_objects v' = vfs_objects v ∧ block_pages v' = block_pages v.
Proof. intros [(E1 & E2 & E3) [E4 E5]]. unfold vfs_objects, block_pages, vn. by rewrite E1, E2, E4, E5. Qed.

Lemma same_store_holding v v' l : same_store v v' → pipes_ok v → refs_ok v l → pipes_ok v' ∧ refs_ok v' l.
Proof.
  intros [(E1 & E2 & E3) [E4 E5]] Hp [R1 R2]. split; [|by split; rewrite E4].
  apply (pipes_ok_keys v v'); [done|done| |by rewrite E4]. intros a. unfold is_node. by rewrite E1.
Qed.

(** The file system changed underneath. *)
Lemma world_reload v v' B l X :
  world U O lo hi v B l X → same_store v v' → vfs_ok U (all_pages X ++ O) lo hi v' (world_objects v B X) →
  pages_same (all_pages X) (mem (kern v)) (mem (kern v')) → world U O lo hi v' B l X.
Proof.
  intros Hw Hs Hv Hp. apply (world_vfs U O lo hi v B l X); [done| |done]. destruct (world_holding U O lo hi v B l X Hw) as [A1 A2 A3 A4].
  destruct (same_store_objects v v' Hs) as [Eo _]. destruct (same_store_holding v v' l Hs A2 A4) as [B2 B4].
  split; [by rewrite Eo|done|by rewrite Eo|done].
Qed.

(** A new address space beside everything. *)
Lemma world_join v v' B l X a :
  world U O lo hi v B l X → same_store v v' → beside U (all_pages X ++ O) lo hi (world_objects v B X) v' a →
  pages_same (all_pages X) (mem (kern v)) (mem (kern v')) → ∃ N, world U O lo hi v' B l ((a, N) :: X).
Proof.
  intros Hw Hs [Hsp Hwf Hr] Hp. pose proof Hw as [Hc _]. pose proof Hc as [C1 C2 C3 C4 C5 C6 C7].
  destruct (same_store_objects v v' Hs) as [Eo Eb]. destruct (same_store_holding v v' l Hs C2 C3) as [B2 B3].
  assert (world_objects v B X = world_objects v' B X) as EL by (unfold world_objects; by rewrite Eo). rewrite EL in Hsp, Hr.
  assert (context U lo hi v' B l X) as Hc'.
  { split; [|done|done|by rewrite Eo|done|done|].
    - destruct Hr as [R1 R2 R3 R4 R5 R6 R7 R8 R9]. split; try done.
      + intros n Hn. apply R2 in Hn. unfold vfs_objects. rewrite !elem_of_union, elem_of_list_to_set. auto.
      + intros f Hf. split; [|by apply R4]. unfold vfs_objects. apply elem_of_dom in Hf. rewrite !elem_of_union. auto.
    - destruct Hsp as [(N & F & P & Hi) _]. pose proof (bare_of_as _ _ _ _ _ _ _ _ Hi) as Hb.
      apply (alive_kept U lo hi v (kern v') F P _ _ B l X Hc Hb); [| |done].
      + exists (map_vals N ++ (physical <$> pages a) ++ block_pages v' ++ O). unfold owned.
        rewrite !app_assoc, (Permutation_app_comm _ (all_pages X)). by rewrite !app_assoc.
      + unfold world_objects. clear. set_solver. }
  destruct (world_add U O lo hi v' B l X (kern v') a Hc') as [N Hw']; [done|done|done|]. exists N.
  assert (set_kern (kern v') v' = v') as E by (by destruct v'). by rewrite E in Hw'.
Qed.

Context (header_at program_at words_at arguments kr : Z) (NK : gmap (list Z) Z).
Context (Hloc : locals_ok U O lo hi header_at program_at words_at arguments (map_vals NK)).
Context (Hkernel : ∀ p a, p ∈ map_vals NK → in_page p a → p ∈ O ∧ spared U O header_at program_at words_at a).

Lemma region_beside X a : region U O a → region U (all_pages X ++ O) a.
Proof. apply region_app. Qed.

Lemma locals_beside X : locals_ok U (all_pages X ++ O) lo hi header_at program_at words_at arguments (map_vals NK).
Proof using Hloc.
  destruct Hloc as [L1 L2 [L3 L3'] L4 L5 L6].
  assert (∀ at_ size_, local_ok U O lo hi at_ size_ → local_ok U (all_pages X ++ O) lo hi at_ size_) as Hl.
  { intros at_ size_ Hl a Ha. destruct (Hl a Ha). split; [by apply region_beside|done]. }
  split; auto. intros a Ha. destruct (L6 a Ha) as [R1 R2]. split; [by apply region_beside|done].
Qed.

(** The pages of the members are not the loader's. *)
Lemma spared_members v B l X p a :
  world U O lo hi v B l X → p ∈ all_pages X → in_page p a → spared U (all_pages X ++ O) header_at program_at words_at a.
Proof using Hloc.
  intros Hw Hp Ha. destruct Hloc as [L1 L2 [_ L3] _ _ _].
  assert (∀ at_ size_, local_ok U O lo hi at_ size_ → ¬ (at_ <= a < at_ + size_)) as Hl.
  { intros at_ size_ Hl Hin. apply (region_foreign U O lo hi v B l X a p Hw); [by apply Hl|by apply elem_of_app; right|done]. }
  split; [left; exists p; rewrite elem_of_app; auto|]. auto.
Qed.

Lemma exec_load v B l X root cwd path :
  world U O lo hi v B l X → is_node v root → within v root cwd → pt_rep whole (kern v) kr NK → (∀ p, p ∈ map_vals NK → p ∈ O) →
  arguments_ok (mem (kern v)) arguments →
  ∃ ok image v', elf_load header_at program_at words_at (Some (mk_page_table kr)) (Some (root, cwd)) path arguments v = Some (ok, image, v') ∧
    same_store v v' ∧ pages_same (all_pages X ++ map_vals NK) (mem (kern v)) (mem (kern v')) ∧
    if ok then (∃ N, world U O lo hi v' B l ((image_as image, N) :: X)) ∧
      ∃ n, vfs_resolve v root cwd path false = Some (inr n) ∧ image_ok (kern v') (vn v' n) arguments image
    else world U O lo hi v' B l X.
Proof using Hspan Harch Hloc Hkernel.
  intros Hw Hr Hcwd HK HNK Hargs. pose proof (world_holding U O lo hi v B l X Hw) as [A1 _ _ _].
  destruct (elf_load_spec U (all_pages X ++ O) lo hi Hspan (λ a Ha, region_beside X a (Harch a Ha)) header_at program_at words_at arguments (map_vals NK)
    (locals_beside X) v _ (Some (root, cwd)) root cwd path kr NK A1 eq_refl Hr Hcwd HK) as (ok & image & v' & E & n & Hout & Hn);
    [intros p Hp; rewrite elem_of_app; auto|done|].
  destruct Hout as (E1 & E2 & E3 & [[E4 E5] Hsp] & Hres). exists ok, image, v'. split; [done|].
  assert (same_store v v') as Hs by (by split).
  assert (pages_same (all_pages X ++ map_vals NK) (mem (kern v)) (mem (kern v'))) as Hp.
  { intros p [Hp|Hp]%elem_of_app a Ha; apply Hsp; [by eapply spared_members|]. destruct (Hkernel p a Hp Ha) as [_ [R1 R2]].
    split; [by apply region_beside|done]. }
  split; [done|]. split; [done|].
  assert (pages_same (all_pages X) (mem (kern v)) (mem (kern v'))) as Hp' by (intros p Hin; apply Hp; rewrite elem_of_app; auto).
  destruct ok; [|by apply (world_reload v)]. destruct Hres as [Hb Hi]. split; [by apply (world_join v)|]. exists n. split; [by apply Hn|done].
Qed.

(** ** The registers of the new program *)

Definition started (m : memory) (frame entry_ sp : Z) : Prop :=
  ∀ i, 0 <= i < 36 → load64 m (frame + 8 * i) =
    if i =? 2 then u64 sp else if i =? 32 then u64 entry_ else if i =? 33 then SSTATUS_SPIE else 0.

Lemma load64_stored m a x : load64 (store64 m a x) a = u64 x.
Proof. with_strategy transparent [load64 store64] (unfold load64, store64). by rewrite load_le_store_le. Qed.

Lemma start_frame_spec m frame entry_ sp :
  (∀ a, ¬ (frame <= a < frame + SIZEOF_FRAME) → load8 (start_frame frame entry_ sp m) a = load8 m a) ∧
  started (start_frame frame entry_ sp m) frame entry_ sp.
Proof.
  unfold start_frame, set_frame_x. cbv zeta. split.
  - intros a Ha. rewrite !load8_store64_out by lia. rewrite memset_load8, decide_False by lia. done.
  - intros i Hi. destruct (Z.eqb_spec i 33) as [->|N33].
    { rewrite load64_store64_eq by done. done. }
    rewrite load64_store64_ne by lia. destruct (Z.eqb_spec i 2) as [->|N2]; [by rewrite load64_stored|].
    rewrite load64_store64_ne by lia. destruct (Z.eqb_spec i 32) as [->|N32]; [by rewrite load64_stored|].
    rewrite load64_store64_ne by lia. apply memset_load64_zero; lia.
Qed.

(** ** The new address space in place of the old one *)

Lemma replace_spec v B l a0 N0 a N X s frame entry_ sp :
  world U O lo hi v B l ((a, N) :: (a0, N0) :: X) → same_ram (kern v) s → (∀ i, 0 <= i < SIZEOF_FRAME → region U O (frame + i)) →
  ∃ s', address_space_destroy a0 s = (mk_as (mk_page_table 0) [] [] (brk_base a0) (brk_end a0), s') ∧
    let m' := start_frame frame entry_ sp (mem s') in
    world U O lo hi (set_kern (set_mem m' s') v) B l ((a, N) :: X) ∧ started m' frame entry_ sp ∧
    pages_same (all_pages ((a, N) :: X)) (mem (kern v)) m' ∧
    same_on (λ b, region U O b ∧ ¬ (frame <= b < frame + SIZEOF_FRAME)) (mem (kern v)) m'.
Proof using Hspan.
  intros Hw Hram Hfr. apply (world_perm _ _ _ _ _ _ _ _ ((a0, N0) :: (a, N) :: X)) in Hw; [|by apply Permutation_swap].
  destruct (world_destroy U lo hi O (set_kern s v) B l a0 N0 _ (world_ram U lo hi O v s B l _ Hram Hw)) as (s' & E & Hw' & Hk). apply kept_world in Hk.
  cbn [kern set_kern] in E, Hk. exists s'. split; [done|]. intros m'.
  destruct (start_frame_spec (mem s') frame entry_ sp) as [Hout Hst]. fold m' in Hout, Hst.
  assert (∀ b, load8 m' b ≠ load8 (mem s') b → frame <= b < frame + 288) as Hin.
  { intros b Hb. destruct (decide (frame <= b < frame + 288)) as [|Hn]; [done|]. by destruct Hb; apply Hout. }
  assert (∀ b, load8 m' b ≠ load8 (mem s') b → region U O b) as Hloc'.
  { intros b Hb%Hin. replace b with (frame + (b - frame)) by lia. apply Hfr. lia. }
  destruct Hram as (Em & _). rewrite Em in Hk. split; [exact (world_local U O lo hi (set_kern s' v) B l _ m' Hw' Hloc')|]. split; [done|]. split.
  - intros p Hp b Hb. transitivity (load8 (mem s') b); [|apply Hk; left; exists p; rewrite elem_of_app; auto].
    destruct (decide (load8 m' b = load8 (mem s') b)) as [|Hd]; [done|].
    destruct (region_foreign U O lo hi _ B l _ b p Hw' (Hloc' b Hd)); [|done]. rewrite elem_of_app. auto.
  - intros b [Hb Hn]. rewrite Hout by done. apply Hk. by apply region_app.
Qed.
End Exec.
