(* ===== verification/ProcessFamily.v ===== *)
(** Families of processes ([src/kernel/process.c]): who is whose child, which records
    wait to be collected, and how [fork], [exit], the end of a thread and [waitpid]
    keep that in order. *)
From S2P Require Import Prelude Machine Runtime PageAlloc Vm HeapSpec AddressSpace Outcome Log Scheduler SchedulerProps Vfs Elf Process.

(** * The invariant *)

(** The lists of children and the parent pointers agree, a record that can be
    collected has a parent to collect it (but for [r], which is between two), what has exited has no children (but for [q],
    which is giving them away), a process the kernel watches has no parent, and the
    first process is one of those. *)
Record family (q r init : Z) (m : gmap Z process) : Prop := {
  fa_children : ∀ p x c, m !! p = Some x → c ∈ p_children x → ∃ y, m !! c = Some y ∧ p_parent y = p;
  fa_parent : ∀ c y, m !! c = Some y → p_parent y ≠ 0 → p_parent y ≠ c ∧ ∃ x, m !! p_parent y = Some x ∧ c ∈ p_children x;
  fa_once : ∀ p x, m !! p = Some x → NoDup (p_children x);
  fa_null : m !! 0 = None;
  fa_reapable : ∀ c y, m !! c = Some y → c ≠ r → p_state y = PROCESS_REAPABLE → p_parent y ≠ 0;
  fa_exited : ∀ p x, m !! p = Some x → p ≠ q → p_state x ≠ PROCESS_RUNNING → p_children x = [];
  fa_watched : ∀ p x, m !! p = Some x → p_result x ≠ 0 → p_parent x = 0;
  fa_init : init ≠ 0 → ∃ x, m !! init = Some x ∧ p_result x ≠ 0;
}.

(** What of a process matters here. *)
Definition kin (x : process) : Z * list Z * process_state * Z := (p_parent x, p_children x, p_state x, p_result x).

Lemma family_kin q r i m m' : (∀ p, kin <$> m' !! p = kin <$> m !! p) → family q r i m → family q r i m'.
Proof.
  intros Hk [F1 F2 F3 F4 F5 F6 F7 F8].
  assert (∀ p x, m' !! p = Some x → ∃ y, m !! p = Some y ∧ kin y = kin x) as Hb.
  { intros p x Hx. specialize (Hk p). rewrite Hx in Hk. destruct (m !! p) as [y|]; [|done]. exists y. split; [done|]. cbn in Hk. congruence. }
  assert (∀ p x, m !! p = Some x → ∃ y, m' !! p = Some y ∧ kin y = kin x) as Hf.
  { intros p x Hx. specialize (Hk p). rewrite Hx in Hk. destruct (m' !! p) as [y|]; [|done]. exists y. split; [done|]. cbn in Hk. congruence. }
  split.
  - intros p x c (x0 & Hx & E)%Hb Hc. injection E as _ E2 _ _. rewrite <- E2 in Hc. destruct (F1 p x0 c Hx Hc) as (y & Hy & Hp).
    destruct (Hf c y Hy) as (y' & Hy' & E). exists y'. split; [done|]. by injection E as -> _ _ _.
  - intros c y (y0 & Hy & E)%Hb. injection E as E1 _ _ _. rewrite <- E1. intros Hn. destruct (F2 c y0 Hy Hn) as (Hne & x & Hx & Hc).
    split; [done|]. destruct (Hf _ x Hx) as (x' & Hx' & E). exists x'. split; [done|]. injection E as _ -> _ _. done.
  - intros p x (x0 & Hx & E)%Hb. injection E as _ <- _ _. by eapply F3.
  - apply eq_None_not_Some. intros [x (x0 & Hx & _)%Hb]. congruence.
  - intros c y (y0 & Hy & E)%Hb. injection E as <- _ <- _. by eapply F5.
  - intros p x (x0 & Hx & E)%Hb. injection E as _ <- <- _. by eapply F6.
  - intros p x (x0 & Hx & E)%Hb. injection E as <- _ _ <-. by eapply F7.
  - intros Hi. destruct (F8 Hi) as (x & Hx & Hr). destruct (Hf i x Hx) as (x' & Hx' & E). exists x'. split; [done|].
    by injection E as _ _ _ ->.
Qed.

(** A change of other fields. *)
Lemma kin_alter f p m : (∀ x, kin (f x) = kin x) → ∀ q, kin <$> alter f p m !! q = kin <$> (m : gmap Z process) !! q.
Proof.
  intros Hf q. destruct (decide (q = p)) as [->|Hne]; [|by rewrite lookup_alter_ne].
  rewrite lookup_alter_eq. destruct (m !! p); [|done]. cbn. by rewrite Hf.
Qed.

Lemma family_alter q r i f p m : (∀ x, kin (f x) = kin x) → family q r i m → family q r i (alter f p m).
Proof. intros Hf. apply family_kin. by apply kin_alter. Qed.

(** * Coming, moving and going *)

Definition unlinked (p c : Z) (m : gmap Z process) : gmap Z process :=
  alter (with_parent 0) c (alter (λ x, with_family (List.remove Z.eq_dec c (p_children x)) x) p m).
Definition linked (p c : Z) (m : gmap Z process) : gmap Z process :=
  alter (λ x, with_family (p_children x ++ [c]) x) p (alter (with_parent p) c m).

Lemma remove_elem (c d : Z) l : d ∈ List.remove Z.eq_dec c l ↔ d ∈ l ∧ d ≠ c.
Proof.
  rewrite !list_elem_of_In. split; [apply in_remove|]. intros [Hd Hn]. by apply in_in_remove.
Qed.

(** Both changes at once. *)
Lemma two_alters f g p c (m : gmap Z process) d z :
  p ≠ c → alter f p (alter g c m) !! d = Some z ↔
    (d = p ∧ ∃ x, m !! p = Some x ∧ z = f x) ∨ (d = c ∧ ∃ x, m !! c = Some x ∧ z = g x) ∨ (d ≠ p ∧ d ≠ c ∧ m !! d = Some z).
Proof.
  intros Hne. destruct (decide (d = p)) as [->|Hp].
  - rewrite lookup_alter_eq, lookup_alter_ne by done. rewrite fmap_Some. naive_solver.
  - rewrite lookup_alter_ne by done. destruct (decide (d = c)) as [->|Hc].
    + rewrite lookup_alter_eq, fmap_Some. naive_solver.
    + rewrite lookup_alter_ne by done. naive_solver.
Qed.

(** How the records of two families correspond: the parent of [c] is [to] now, and the
    children of a process are what they were but for [c]. *)
Record moved_child (c from to : Z) (m m' : gmap Z process) : Prop := {
  mc_fwd : ∀ d u, m !! d = Some u → ∃ z, m' !! d = Some z;
  mc_back : ∀ d z, m' !! d = Some z → ∃ u, m !! d = Some u ∧ p_state z = p_state u ∧ p_result z = p_result u ∧
    p_parent z = (if decide (d = c) then to else p_parent u) ∧
    (∀ k, k ∈ p_children z ↔ (k ∈ p_children u ∧ ¬ (d = from ∧ k = c)) ∨ (d = to ∧ k = c)) ∧
    (NoDup (p_children u) → (d = to → c ∉ p_children u) → NoDup (p_children z)) ∧
    (p_children u = [] → d ≠ to → p_children z = []);
}.

Lemma unlinked_moved p c m : p ≠ c → c ≠ 0 → m !! 0 = None → moved_child c p 0 m (unlinked p c m).
Proof.
  intros Hne Hc0 Hz. unfold unlinked.
  pose proof (λ d z, two_alters (with_parent 0) (λ x, with_family (List.remove Z.eq_dec c (p_children x)) x) c p m d z ltac:(done)) as Hl.
  split.
  - intros d u Hu. destruct (decide (d = c)) as [->|N1]; [eexists; apply Hl; eauto|]. destruct (decide (d = p)) as [->|N2]; eexists; apply Hl; eauto 6.
  - intros d z [(-> & u & Hu & ->)|[(-> & u & Hu & ->)|(N1 & N2 & Hd)]]%Hl.
    + exists u. rewrite decide_True by done. repeat (split; [done|]). split; [|done]. intros k. cbn. split; [intros ?; left; split; [done|]; intros [? ?]; congruence|].
      intros [[? _]|[? _]]; [done|congruence].
    + exists u. rewrite decide_False by done. repeat (split; [done|]). split; [|split].
      * intros k. cbn. rewrite remove_elem. split; [intros [? ?]; left; split; [done|]; by intros [_ ?]|].
        intros [[Hk Hn]|[-> _]]; [|congruence]. split; [done|]. intros ->. by apply Hn.
      * intros Hnd _. cbn. by apply remove_NoDup.
      * cbn. intros -> _. done.
    + exists z. rewrite decide_False by done. repeat (split; [done|]). split; [|done].
      intros k. split; [intros ?; left; split; [done|]; by intros [? _]|]. intros [[? _]|[-> _]]; [done|congruence].
Qed.

Lemma linked_moved p c m : p ≠ c → p ≠ 0 → m !! 0 = None → moved_child c 0 p m (linked p c m).
Proof.
  intros Hne Hp0 Hz. unfold linked.
  pose proof (λ d z, two_alters (λ x, with_family (p_children x ++ [c]) x) (with_parent p) p c m d z ltac:(done)) as Hl.
  split.
  - intros d u Hu. destruct (decide (d = p)) as [->|N1]; [eexists; apply Hl; eauto|]. destruct (decide (d = c)) as [->|N2]; eexists; apply Hl; eauto 6.
  - intros d z [(-> & u & Hu & ->)|[(-> & u & Hu & ->)|(N1 & N2 & Hd)]]%Hl.
    + exists u. rewrite decide_False by done. repeat (split; [done|]). split; [|split].
      * intros k. cbn. rewrite elem_of_app, list_elem_of_singleton. naive_solver.
      * cbn. intros Hnd Hnew. apply NoDup_app. split; [done|]. split; [|apply NoDup_singleton].
        intros k Hk ->%list_elem_of_singleton. by apply Hnew.
      * done.
    + exists u. rewrite decide_True by done. repeat (split; [done|]). split; [|done]. intros k. cbn.
      split; [intros ?; left; split; [done|]; intros [-> _]; congruence|]. intros [[? _]|[? _]]; [done|congruence].
    + exists z. rewrite decide_False by done. repeat (split; [done|]). split; [|done].
      intros k. split; [intros ?; left; split; [done|]; intros [-> _]; congruence|]. intros [[? _]|[? _]]; [done|congruence].
Qed.

Lemma family_moved q r i m m' c from to y :
  family q r i m → moved_child c from to m m' → m !! c = Some y → p_parent y = from → p_result y = 0 → r = 0 ∨ r = c →
  from ≠ to → to ≠ c → (to ≠ 0 → ∃ x, m !! to = Some x ∧ p_state x = PROCESS_RUNNING) →
  family q (if decide (to = 0) then c else 0) i m'.
Proof.
  intros [F1 F2 F3 F4 F5 F6 F7 F8] [Hf Hb] Hc Hp Hr0 Hr Hft Htc Hto.
  assert (m' !! 0 = None) as Hz. { apply eq_None_not_Some. intros [z Hz']. destruct (Hb 0 z Hz') as (u & Hu & _). congruence. }
  split; [| | |done| | | |].
  - intros d z e Hd He. destruct (Hb d z Hd) as (u & Hu & _ & _ & _ & Hk & _). destruct (proj1 (Hk e) He) as [[He' Hn]|[-> ->]].
    + destruct (F1 d u e Hu He') as (v & Hv & Hpv). destruct (Hf e v Hv) as [w Hw]. exists w. split; [done|].
      destruct (Hb e w Hw) as (v' & Hv' & _ & _ & -> & _). rewrite decide_False; [congruence|]. intros ->. apply Hn. split; [congruence|done].
    + destruct (Hf c y Hc) as [w Hw]. exists w. split; [done|]. destruct (Hb c w Hw) as (y' & _ & _ & _ & -> & _). by rewrite decide_True.
  - intros d z Hd. destruct (Hb d z Hd) as (u & Hu & _ & _ & -> & _). destruct (decide (d = c)) as [->|Hdc]; intros Hn.
    + split; [done|]. destruct (Hto Hn) as (x & Hx & _). destruct (Hf to x Hx) as [w Hw]. exists w. split; [done|].
      destruct (Hb to w Hw) as (x' & _ & _ & _ & _ & Hk & _). apply Hk. by right.
    + destruct (F2 d u Hu Hn) as (Hne & x & Hx & Hin). split; [done|]. destruct (Hf _ x Hx) as [w Hw]. exists w. split; [done|].
      destruct (Hb _ w Hw) as (x' & Hx' & _ & _ & _ & Hk & _). apply Hk. left. split; [congruence|]. by intros [_ ?].
  - intros d z Hd. destruct (Hb d z Hd) as (u & Hu & _ & _ & _ & _ & Hnd & _). apply Hnd; [by eapply F3|]. intros -> Hin.
    destruct (F1 to u c Hu Hin) as (y' & Hy' & Hpy). congruence.
  - intros d z Hd Hne Hst. destruct (Hb d z Hd) as (u & Hu & Es & _ & -> & _). destruct (decide (d = c)) as [->|Hdc].
    + destruct (decide (to = 0)) as [->|]; [congruence|done].
    + apply (F5 d u Hu); [|congruence]. intros ->. destruct Hr; congruence.
  - intros d z Hd Hdq Hst. destruct (Hb d z Hd) as (u & Hu & Es & _ & _ & _ & _ & Hnil). apply Hnil; [apply (F6 d u Hu Hdq); congruence|].
    intros ->. destruct (decide (to = 0)) as [->|Ht0]; [congruence|]. destruct (Hto Ht0) as (x & Hx & Hrun). congruence.
  - intros d z Hd Hres. destruct (Hb d z Hd) as (u & Hu & _ & Er & -> & _). destruct (decide (d = c)) as [->|]; [congruence|].
    apply (F7 d u Hu). congruence.
  - intros Hi. destruct (F8 Hi) as (x & Hx & Hrx). destruct (Hf i x Hx) as [w Hw]. exists w. split; [done|].
    destruct (Hb i w Hw) as (x' & Hx' & _ & -> & _). congruence.
Qed.

Lemma family_insert q i m c x :
  family q 0 i m → m !! c = None → c ≠ 0 → p_children x = [] → p_parent x = 0 → p_result x = 0 → p_state x = PROCESS_RUNNING →
  family q 0 i (<[c := x]> m).
Proof.
  intros [F1 F2 F3 F4 F5 F6 F7 F8] Hc Hc0 Ek Ep Er Es.
  assert (∀ d z, <[c := x]> m !! d = Some z → d = c ∧ z = x ∨ d ≠ c ∧ m !! d = Some z) as Hl.
  { intros d z [(<- & <-)|(Hn & Hd)]%lookup_insert_Some; auto. }
  assert (∀ d z, m !! d = Some z → <[c := x]> m !! d = Some z) as Hf.
  { intros d z Hd. rewrite lookup_insert_ne; [done|congruence]. }
  split.
  - intros d z e [(-> & ->)|[_ Hd]]%Hl; [rewrite Ek; by intros ?%not_elem_of_nil|]. intros (y & Hy & Hp)%(F1 d z e Hd). eauto.
  - intros d z [(-> & ->)|[_ Hd]]%Hl; [congruence|]. intros (Hne & y & Hy & Hin)%(F2 d z Hd). eauto.
  - intros d z [(-> & ->)|[_ Hd]]%Hl; [rewrite Ek; apply NoDup_nil_2|by eapply F3].
  - by rewrite lookup_insert_ne.
  - intros d z [(-> & ->)|[_ Hd]]%Hl; [congruence|by eapply F5].
  - intros d z [(-> & ->)|[_ Hd]]%Hl; [done|by eapply F6].
  - intros d z [(-> & ->)|[_ Hd]]%Hl; [done|by eapply F7].
  - intros (y & Hy & Hr)%F8. eauto.
Qed.

Lemma family_delete q r i m c y :
  family q r i m → m !! c = Some y → p_parent y = 0 → p_children y = [] → i ≠ c → r = 0 ∨ r = c → family q 0 i (delete c m).
Proof.
  intros [F1 F2 F3 F4 F5 F6 F7 F8] Hc Ep Ek Hi Hr.
  assert (∀ d z, delete c m !! d = Some z → d ≠ c ∧ m !! d = Some z) as Hl by (by intros d z [? ?]%lookup_delete_Some).
  assert (∀ d z, d ≠ c → m !! d = Some z → delete c m !! d = Some z) as Hf by (intros d z Hn Hd; by rewrite lookup_delete_ne).
  split.
  - intros d z e [Hdc Hd]%Hl (v & Hv & Hp)%(F1 d z e Hd). exists v. split; [|done]. apply Hf; [|done]. intros ->. congruence.
  - intros d z [Hdc Hd]%Hl (Hne & v & Hv & Hin)%(F2 d z Hd). split; [done|]. exists v. split; [|done]. apply Hf; [|done].
    intros E. rewrite E in Hv. assert (v = y) as -> by congruence. rewrite Ek in Hin. by apply not_elem_of_nil in Hin.
  - intros d z [_ Hd]%Hl. by eapply F3.
  - rewrite lookup_delete_None. by right.
  - intros d z [Hdc Hd]%Hl Hd0. apply (F5 d z Hd). destruct Hr; congruence.
  - intros d z [_ Hd]%Hl. by eapply F6.
  - intros d z [_ Hd]%Hl. by eapply F7.
  - intros (x & Hx & Hrx)%F8. exists x. split; [|done]. by apply Hf.
Qed.

(** The state of one process changes. *)
Lemma family_state q r q' r' i m p x st a b :
  family q r i m → m !! p = Some x → q = 0 ∨ q = q' → r = 0 ∨ r = r' → (p ≠ q' → st ≠ PROCESS_RUNNING → p_children x = []) →
  (p ≠ r' → st = PROCESS_REAPABLE → p_parent x ≠ 0) → family q' r' i (alter (with_exit st a b) p m).
Proof.
  intros [F1 F2 F3 F4 F5 F6 F7 F8] Hp Hq Hr Hk Hs.
  assert (∀ d z, alter (with_exit st a b) p m !! d = Some z → ∃ u, m !! d = Some u ∧ p_parent z = p_parent u ∧ p_children z = p_children u ∧
    p_result z = p_result u ∧ p_state z = if decide (d = p) then st else p_state u) as Hl.
  { intros d z. destruct (decide (d = p)) as [->|Hn]; [|rewrite lookup_alter_ne by done; eauto 6].
    rewrite lookup_alter_eq, Hp. intros [= <-]. eauto 6. }
  assert (∀ d u, m !! d = Some u → ∃ z, alter (with_exit st a b) p m !! d = Some z ∧ p_parent z = p_parent u ∧ p_children z = p_children u ∧
    p_result z = p_result u) as Hf.
  { intros d u Hd. destruct (decide (d = p)) as [->|Hn]; [rewrite lookup_alter_eq, Hd; cbn; eauto|rewrite lookup_alter_ne by done; eauto]. }
  split.
  - intros d z e (u & Hu & _ & -> & _)%Hl (v & Hv & Hpv)%(F1 d u e Hu). destruct (Hf e v Hv) as (w & Hw & Ew & _). exists w. split; [done|congruence].
  - intros d z (u & Hu & -> & _)%Hl (Hne & v & Hv & Hin)%(F2 d u Hu). split; [done|]. destruct (Hf _ v Hv) as (w & Hw & _ & Ew & _).
    exists w. split; [done|congruence].
  - intros d z (u & Hu & _ & -> & _)%Hl. by eapply F3.
  - apply eq_None_not_Some. intros [z Hz]. destruct (Hl 0 z Hz) as (u & Hu & _). congruence.
  - intros d z (u & Hu & -> & _ & _ & ->)%Hl Hd. destruct (decide (d = p)) as [->|Hn].
    + intros Hst. assert (u = x) as -> by congruence. by apply Hs.
    + apply (F5 d u Hu). destruct Hr as [->| ->]; [|done]. intros ->. congruence.
  - intros d z (u & Hu & _ & -> & _ & ->)%Hl Hd. destruct (decide (d = p)) as [->|Hn].
    + intros Hst. assert (u = x) as -> by congruence. by apply Hk.
    + apply (F6 d u Hu). destruct Hq as [->| ->]; [|done]. intros ->. congruence.
  - intros d z (u & Hu & -> & _ & -> & _)%Hl. by eapply F7.
  - intros (u & Hu & Hru)%F8. destruct (Hf i u Hu) as (w & Hw & _ & _ & Ew). exists w. split; [done|congruence].
Qed.

(** * The operations *)

Section Operations.
Context `{KernelHeap} `{Backends}.

Definition family_ok (ps : processes) : Prop := family 0 0 (init_process ps) (procs ps).

Lemma pr_eq ps p x : procs ps !! p = Some x → pr ps p = x.
Proof. intros Hx. unfold pr. by apply lookup_total_correct. Qed.

(** ** [exit] *)

(** The first process runs, unless it is the one that exits. *)
Definition init_runs (p : Z) (ps : processes) : Prop :=
  init_process ps ≠ 0 → init_process ps ≠ p → ∃ x, procs ps !! init_process ps = Some x ∧ p_state x = PROCESS_RUNNING.

Lemma unlinked_other p c m d : d ≠ p → d ≠ c → unlinked p c m !! d = m !! d.
Proof. intros H1' H2'. unfold unlinked. by rewrite !lookup_alter_ne. Qed.
Lemma unlinked_parent p c m x :
  p ≠ c → m !! p = Some x → unlinked p c m !! p = Some (with_family (List.remove Z.eq_dec c (p_children x)) x).
Proof. intros Hne Hx. unfold unlinked. rewrite lookup_alter_ne by done. by rewrite lookup_alter_eq, Hx. Qed.
Lemma unlinked_child p c m y : p ≠ c → m !! c = Some y → unlinked p c m !! c = Some (with_parent 0 y).
Proof. intros Hne Hy. unfold unlinked. rewrite lookup_alter_eq, lookup_alter_ne by done. by rewrite Hy. Qed.

(** What becomes of a child of [p] when [p] exits. *)
Definition handed (p i : Z) (y : process) : option process :=
  if negb (i =? 0) && negb (i =? p) then Some (with_parent i y)
  else if bool_decide (p_state y = PROCESS_REAPABLE) then None else Some (with_parent 0 y).

(** One child given away. *)
Lemma orphan_step p c rest x ps :
  family p 0 (init_process ps) (procs ps) → procs ps !! p = Some x → p_children x = c :: rest → init_runs p ps →
  let ps1 := unlink_child c ps in
  let ps2 := if negb (init_process ps1 =? 0) && negb (init_process ps1 =? p) then link_child (init_process ps1) c ps1
             else if bool_decide (p_state (pr ps1 c) = PROCESS_REAPABLE) then free_process c ps1 else ps1 in
  family p 0 (init_process ps2) (procs ps2) ∧ init_process ps2 = init_process ps ∧ init_runs p ps2 ∧
  procs ps2 !! p = Some (with_family rest x) ∧
  (∀ d, d ≠ p → d ≠ init_process ps → procs ps2 !! d = if decide (d = c) then procs ps !! c ≫= handed p (init_process ps) else procs ps !! d).
Proof.
  intros Hf Hp Hch Hrun. cbv zeta. pose proof Hf as [F1 F2 F3 F4 F5 F6 F7 F8].
  destruct (F1 p x c Hp ltac:(rewrite Hch; by left)) as (y & Hy & Epy). assert (p ≠ 0) as Hp0 by congruence.
  destruct (F2 c y Hy ltac:(congruence)) as [Hpc _]. rewrite Epy in Hpc.
  assert (p_result y = 0) as Hry. { destruct (decide (p_result y = 0)); [done|]. destruct (F7 c y Hy ltac:(done)). congruence. }
  assert (init_process ps ≠ c ∨ init_process ps = 0) as Hic.
  { destruct (decide (init_process ps = 0)) as [|Hi]; [by right|left]. intros E. destruct (F8 Hi) as (z & Hz & Hrz). congruence. }
  set (ps1 := unlink_child c ps). assert (procs ps1 = unlinked p c (procs ps)) as E1.
  { unfold ps1, unlink_child. rewrite (pr_eq ps c y Hy), Epy. done. }
  assert (init_process ps1 = init_process ps) as E1i by done. rewrite E1i.
  assert (c ≠ 0) as Hc0 by congruence.
  pose proof (family_moved p 0 _ _ _ c p 0 y Hf (unlinked_moved p c _ Hpc Hc0 F4) Hy Epy Hry ltac:(by left) Hp0 ltac:(done) ltac:(done)) as Hf1.
  rewrite decide_True, <- E1 in Hf1 by done.
  assert (procs ps1 !! c = Some (with_parent 0 y)) as Hc1 by (rewrite E1; by apply unlinked_child).
  assert (procs ps1 !! p = Some (with_family rest x)) as Hp1.
  { rewrite E1. rewrite (unlinked_parent p c _ x Hpc Hp), Hch, remove_head; [done|]. rewrite <- Hch. by eapply F3. }
  assert (∀ d, d ≠ p → procs ps1 !! d = if decide (d = c) then Some (with_parent 0 y) else procs ps !! d) as Hd1.
  { intros d Hd. destruct (decide (d = c)) as [->|Hdc]; [done|]. rewrite E1. by apply unlinked_other. }
  rewrite Hy. cbn [mbind option_bind]. unfold handed.
  destruct (negb (init_process ps =? 0) && negb (init_process ps =? p)) eqn:Ei.
  - apply andb_true_iff in Ei as [N0 Np]. rewrite negb_true_iff, Z.eqb_neq in N0, Np.
    destruct (Hrun N0 Np) as (z & Hz & Hst). assert (init_process ps ≠ c) as Hin by (by destruct Hic).
    assert (procs (link_child (init_process ps) c ps1) = linked (init_process ps) c (procs ps1)) as E2 by done.
    assert (procs ps1 !! init_process ps = Some z) as Hz1 by (rewrite E1, unlinked_other; done).
    pose proof (family_moved p c _ _ _ c 0 (init_process ps) (with_parent 0 y) Hf1 (linked_moved (init_process ps) c (procs ps1) Hin N0 (fa_null _ _ _ _ Hf1))
      Hc1 eq_refl Hry ltac:(by right) ltac:(done) Hin ltac:(eauto)) as Hf2. rewrite decide_False, <- E2 in Hf2 by done.
    split; [done|]. split; [done|]. rewrite E2. split.
    + intros _ _. change (init_process _) with (init_process ps). exists (with_family (p_children z ++ [c]) z). split; [|done].
      rewrite E2. unfold linked. rewrite lookup_alter_eq, lookup_alter_ne by done. by rewrite Hz1.
    + split; [unfold linked; by rewrite !lookup_alter_ne by done|]. intros d Hd Hdi. unfold linked. rewrite lookup_alter_ne by done.
      destruct (decide (d = c)) as [->|Hdc]; [by rewrite lookup_alter_eq, Hc1|]. rewrite lookup_alter_ne, Hd1 by done. by rewrite decide_False.
  - assert (init_process ps = 0 ∨ init_process ps = p) as Hno.
    { apply andb_false_iff in Ei as [E|E]; rewrite negb_false_iff, Z.eqb_eq in E; auto. }
    rewrite (pr_eq ps1 c _ Hc1). cbn [p_state with_parent].
    assert (∀ ps2, init_process ps2 = init_process ps → init_runs p ps2) as Hr2 by (intros ps2 E A1 A2; rewrite E in A1, A2; destruct Hno; congruence).
    case_bool_decide as Hst.
    + assert (procs (free_process c ps1) = delete c (procs ps1)) as E2 by done. rewrite E2. split; [|split; [done|split; [by apply Hr2|]]].
      * change (init_process (free_process c ps1)) with (init_process ps1). apply (family_delete p c _ _ c (with_parent 0 y)); try done; [|destruct Hic; congruence|by right].
        cbn. apply (F6 c y Hy); congruence.
      * split; [by rewrite lookup_delete_ne|]. intros d Hd _. destruct (decide (d = c)) as [->|Hdc]; [apply lookup_delete_eq|].
        rewrite lookup_delete_ne, Hd1 by done. by rewrite decide_False.
    + split; [|split; [done|split; [by apply Hr2|by auto]]]. destruct Hf1 as [G1 G2 G3 G4 G5 G6 G7 G8]. split; try done.
      intros d z Hd _ Hs. destruct (decide (d = c)) as [->|Hdc]; [|by eapply G5]. rewrite Hc1 in Hd. injection Hd as <-. done.
Qed.

Lemma orphan_loop_spec p rest : ∀ x ps,
  family p 0 (init_process ps) (procs ps) → procs ps !! p = Some x → p_children x = rest → init_runs p ps →
  let ps' := orphan_loop rest p ps in
  family p 0 (init_process ps') (procs ps') ∧ init_process ps' = init_process ps ∧ procs ps' !! p = Some (with_family [] x) ∧
  (∀ d, d ≠ p → d ≠ init_process ps → procs ps' !! d = if decide (d ∈ rest) then procs ps !! d ≫= handed p (init_process ps) else procs ps !! d).
Proof.
  induction rest as [|c rest IH]; intros x ps Hf Hp Hch Hrun; cbn [orphan_loop].
  - split; [done|]. split; [done|]. split; [rewrite Hp, <- Hch; by destruct x|]. intros d _ _. by rewrite decide_False by apply not_elem_of_nil.
  - destruct (orphan_step p c rest x ps Hf Hp Hch Hrun) as (Hf2 & Ei & Hrun2 & Hp2 & Hd2). cbv zeta in Hf2, Ei, Hrun2, Hp2, Hd2 |- *.
    pose proof (fa_once _ _ _ _ Hf p x Hp) as Hnd. rewrite Hch in Hnd. apply NoDup_cons in Hnd as [Hnc _].
    match goal with |- context [orphan_loop rest p ?e] => set (ps2 := e) in * end.
    destruct (IH (with_family rest x) ps2 Hf2 Hp2 eq_refl Hrun2) as (Hf3 & Ei3 & Hp3 & Hd3). split; [done|]. split; [congruence|].
    split; [rewrite Hp3; by destruct x|]. intros d Hd Hdi. rewrite Hd3, Hd2, Ei by congruence. destruct (decide (d = c)) as [->|Hdc].
    + by rewrite decide_False, decide_True by (done || by left).
    + destruct (decide (d ∈ rest)) as [Hin|Hn]; [by rewrite decide_True by (by right)|]. rewrite decide_False; [done|].
      intros [?|?]%elem_of_cons; done.
Qed.

Lemma exit_spec p status_ fault_ x ps ps' :
  family_ok ps → procs ps !! p = Some x → init_runs p ps → exit_process p status_ fault_ ps = Some ps' →
  family_ok ps' ∧ procs ps' !! p = Some (with_family [] (with_exit PROCESS_ZOMBIE status_ fault_ x)) ∧
  (∀ d, d ≠ p → d ≠ init_process ps →
     procs ps' !! d = if decide (d ∈ p_children x) then procs ps !! d ≫= handed p (init_process ps) else procs ps !! d).
Proof.
  intros Hf Hp Hrun. unfold exit_process. destruct (irq_save (pkern ps)) as [flags_ m1].
  destruct (take_process_lock (set_pkern m1 ps)) as [ps1|] eqn:E1; [|done]. cbn [mbind option_bind]. intros [= <-].
  assert (procs ps1 = procs ps ∧ init_process ps1 = init_process ps) as [Ep Ei].
  { unfold take_process_lock in E1. destruct (spin_lock _); [|done]. by injection E1 as <-. }
  set (ps2 := update_process _ p ps1). assert (procs ps2 = alter (with_exit PROCESS_ZOMBIE status_ fault_) p (procs ps)) as E2 by (by rewrite <- Ep).
  assert (procs ps2 !! p = Some (with_exit PROCESS_ZOMBIE status_ fault_ x)) as Hp2 by (by rewrite E2, lookup_alter_eq, Hp).
  assert (init_process ps2 = init_process ps) as Ei2 by done.
  rewrite (pr_eq ps2 p _ Hp2). cbn [p_children with_exit].
  destruct (orphan_loop_spec p (p_children x) (with_exit PROCESS_ZOMBIE status_ fault_ x) ps2) as (Hf3 & Ei3 & Hp3 & Hd3); [| done|done| |].
  - rewrite E2, Ei2. apply (family_state 0 0 _ _ _ _ _ x); [done|done|by left|by left|done|done].
  - intros N0 Np. rewrite Ei2 in *. destruct (Hrun N0 Np) as (z & Hz & Hst). exists z. split; [|done]. by rewrite E2, lookup_alter_ne.
  - cbv zeta in Hf3, Ei3, Hp3, Hd3. set (ps3 := orphan_loop _ p ps2) in *.
    split; [|split; [done|intros d Hd Hdi; change (procs (drop_process_lock ps3)) with (procs ps3); rewrite Hd3, Ei2, E2, !lookup_alter_ne by (done || by rewrite Ei2); done]].
    destruct Hf3 as [G1 G2 G3 G4 G5 G6 G7 G8]. split; try done. intros d z Hd _ Hst. change (procs (drop_process_lock ps3)) with (procs ps3) in Hd.
    destruct (decide (d = p)) as [->|Hdp]; [|by apply (G6 d z)]. rewrite Hp3 in Hd. by injection Hd as <-.
Qed.

(** ** After the thread *)

Lemma release_procs p ps : ∃ as_, procs (release_runtime p ps) = alter (with_fds no_fds) p (alter (with_as as_) p (procs ps)) ∧
  init_process (release_runtime p ps) = init_process ps ∧ results (release_runtime p ps) = results ps.
Proof. unfold release_runtime. destruct (address_space_destroy _ _) as [as_ m]. by exists as_. Qed.

(** What remains of a process whose thread is gone. *)
Definition remains (x y : process) : Prop :=
  p_state y = PROCESS_REAPABLE ∧ kin y = (p_parent x, p_children x, PROCESS_REAPABLE, p_result x) ∧ pid y = pid x ∧
  exit_status y = exit_status x ∧ fault_code y = fault_code x ∧ fds y = no_fds.

Lemma reaped_spec p x s ps s' ps' :
  family_ok ps → procs ps !! p = Some x → p_state x ≠ PROCESS_RUNNING → process_thread_reaped p s ps = Some (s', ps') →
  family_ok ps' ∧
  (p_parent x ≠ 0 → ∃ s0, wake_queues (woken (pvfs (release_runtime p ps))) s = Some s0 ∧
    wait_queue_wake_all (child_wait (p_parent x)) s0 = Some s') ∧
  (if decide (p_parent x = 0) then procs ps' !! p = None else ∃ y, procs ps' !! p = Some y ∧ remains x y) ∧
  (p_result x ≠ 0 → results ps' !! p_result x = Some (mk_result true (exit_status x) (fault_code x))).
Proof.
  intros Hf Hp Hst. unfold process_thread_reaped. destruct (release_procs p ps) as (as_ & E1 & Ei1 & Er1). rewrite (pr_eq ps p x Hp).
  set (ps0 := release_runtime p ps) in *. unfold settle_wakes.
  destruct (wake_queues (woken (pvfs ps0)) s) as [s0|] eqn:E0; [|done]. cbn [mbind option_bind].
  set (ps1 := set_pvfs _ ps0) in *. change (procs ps0) with (procs ps1) in E1. change (init_process ps0) with (init_process ps1) in Ei1.
  change (results ps0) with (results ps1) in Er1. destruct (take_process_lock ps1) as [ps2|] eqn:El; [|done]. cbn [mbind option_bind].
  assert (procs ps2 = procs ps1 ∧ init_process ps2 = init_process ps1) as [E2 Ei2].
  { unfold take_process_lock in El. destruct (spin_lock _); [|done]. by injection El as <-. }
  set (x2 := with_fds no_fds (with_as as_ x)).
  assert (procs ps2 !! p = Some x2) as Hp2 by (rewrite E2, E1, !lookup_alter_eq, Hp; done).
  assert (family 0 0 (init_process ps2) (procs ps2)) as Hf2.
  { rewrite Ei2, Ei1, E2, E1. apply family_alter; [done|]. by apply family_alter. }
  assert (p_children x = []) as Hnil by (eapply (fa_exited _ _ _ _ Hf p x Hp); [|done]; intros ->; by rewrite (fa_null _ _ _ _ Hf) in Hp).
  set (x3 := with_exit PROCESS_REAPABLE (exit_status x) (fault_code x) x2). set (ps3 := update_process _ p ps2).
  assert (procs ps3 = alter (with_exit PROCESS_REAPABLE (exit_status x) (fault_code x)) p (procs ps2)) as E3.
  { unfold ps3, update_process. cbn [procs set_procs]. apply map_eq. intros d. destruct (decide (d = p)) as [->|]; [|by rewrite !lookup_alter_ne].
    by rewrite !lookup_alter_eq, Hp2. }
  assert (procs ps3 !! p = Some x3) as Hp3 by (by rewrite E3, lookup_alter_eq, Hp2).
  assert (family 0 p (init_process ps3) (procs ps3)) as Hf3.
  { rewrite E3. change (init_process ps3) with (init_process ps2).
    by apply (family_state 0 0 0 p _ _ p x2); [done|done|left|left|intros _ _|]. }
  rewrite (pr_eq ps3 p x3 Hp3). change (p_parent x3) with (p_parent x). change (exit_status x3) with (exit_status x).
  change (fault_code x3) with (fault_code x). assert (p ≠ 0) as Hp0 by (intros ->; by rewrite (fa_null _ _ _ _ Hf) in Hp).
  destruct (if negb (p_parent x =? 0) then _ else _) as [s1|] eqn:Es; [|done]. cbn [mbind option_bind].
  assert (p_parent x ≠ 0 → ∃ s0', Some s0 = Some s0' ∧ wait_queue_wake_all (child_wait (p_parent x)) s0' = Some s1) as Hwake.
  { intros Hn. rewrite (proj2 (Z.eqb_neq _ _) Hn) in Es. eauto. }
  destruct (Z.eqb_spec (p_result x) 0) as [Er|Er].
  - assert (init_process ps3 ≠ p ∨ init_process ps3 = 0) as Hip.
    { destruct (decide (init_process ps3 = 0)) as [|Hi]; [by right|left]. intros E. destruct (fa_init _ _ _ _ Hf3 Hi) as (z & Hz & Hrz).
      rewrite E, Hp3 in Hz. injection Hz as <-. done. }
    change (pr (drop_process_lock ps3) p) with (pr ps3 p). rewrite (pr_eq ps3 p x3 Hp3). change (p_parent x3) with (p_parent x).
    destruct (Z.eqb_spec (p_parent x) 0) as [Epar|Epar]; intros [= <- <-].
    + rewrite decide_True by done. split; [|split; [done|split; [|done]]].
      * apply (family_delete 0 p _ _ p x3); try done; [|by right]. change (init_process ps3 ≠ p). destruct Hip as [|Hi0]; [done|]. rewrite Hi0. done.
      * cbn. apply lookup_delete_eq.
    + rewrite decide_False by done. split; [|split; [by apply Hwake|split; [|done]]].
      * destruct Hf3 as [G1 G2 G3 G4 G5 G6 G7 G8]. split; try done. intros d z Hd _ Hs. destruct (decide (d = p)) as [->|Hdp]; [|by apply (G5 d z)].
        change (procs (drop_process_lock ps3)) with (procs ps3) in Hd. rewrite Hp3 in Hd. by injection Hd as <-.
      * exists x3. split; [done|]. by repeat split.
  - assert (p_parent x = 0) as Epar by (by apply (fa_watched _ _ _ _ Hf p x)). intros [= <- <-]. rewrite decide_True by done.
    match goal with |- context [free_process p (drop_process_lock ?e)] => set (ps4 := e) end.
    assert (procs ps4 = procs ps3 ∧ init_process ps4 ≠ p ∧ family 0 p (init_process ps4) (procs ps3)) as (E4 & Hi4 & Hf4).
    { unfold ps4. match goal with |- context [if ?b then set_init _ _ else _] => destruct b eqn:Eb end.
      - split; [done|]. split; [by intros E; apply Hp0; rewrite <- E|]. destruct Hf3 as [G1 G2 G3 G4 G5 G6 G7 G8]. by split.
      - split; [done|]. split; [|done]. apply Z.eqb_neq in Eb. intros E'. by apply Eb. }
    split; [|split; [by intros ?|split; [|]]].
    + change (family 0 0 (init_process ps4) (delete p (procs ps4))). rewrite E4. apply (family_delete 0 p _ _ p x3); try done. by right.
    + change (delete p (procs ps4) !! p = None). apply lookup_delete_eq.
    + intros _. cbn. apply lookup_insert_eq.
Qed.
End Operations.
