(* ===== verification/ProcessThms.v ===== *)
(** What [fork] and [exec] guarantee ([src/kernel/process.c]). *)
From S2P Require Import Prelude Machine Runtime PageAlloc Vm VmInv VmProps HeapSpec Ownership AddressSpace AddressSpaceInv AddressSpaceProps AddressSpaceClone AddressSpaceAreas AddressSpaceMaps AddressSpaceCopy AddressSpaceThms.
From S2P Require Import Outcome Log Pipe Scheduler Vfs VfsInit VfsTree VfsInv VfsFiles VfsOpen VfsPipe VfsIo VfsThms Elf ElfInv ElfLoad ElfStack ElfThms World Process Fd FdProps FdCalls FdIo FdThms ProcessInv ProcessFork ProcessExec ProcessFamily.
From S2P Require Import Heap HeapProps HeapThms HeapInstance Bench.
From Stdlib Require String.
Import String.StringSyntax.

Section Theorems.
Context `{HeapContract} `{Backends} `{!QuietConsole}.

Lemma seen_world U lo hi O O' v v' B B' l l' a N X X' :
  world U O lo hi v B l ((a, N) :: X) → world U O' lo hi v' B' l' ((a, N) :: X') →
  pages_same (member_pages (a, N)) (mem (kern v)) (mem (kern v')) → seen a (kern v) (kern v').
Proof.
  intros Hw Hw' Hp. destruct (world_space U O lo hi v B l a N X Hw) as (Hs & _ & _).
  destruct (world_space U O' lo hi v' B' l' a N X' Hw') as (Hs' & _ & _).
  intros va Hva. eapply space_pages_view; [exact Hs|exact Hs'| |done]. intros p Hpa. apply Hp.
  unfold member_pages, as_pages. apply elem_of_app. right. by apply list_elem_of_fmap_2.
Qed.

(** The state of the kernel in which the process [parent_] acts: the records of all
    processes are objects in use, their families are in order, and the kernel's own
    page table is intact. *)
Record acting (U O : list Z) (lo hi kr : Z) (NK : gmap (list Z) Z) (ps : processes) (B : gset Z) (l : list Z) (par : process)
    (parent_ : Z) (X : list member) : Prop := {
  ac_parent : procs ps !! parent_ = Some par;
  ac_records : dom (procs ps) ⊆ B;
  ac_running : p_state par = PROCESS_RUNNING;
  ac_family : family_ok ps;
  ac_lock : process_lock ps = 0;
  ac_table : kernel_table ps = Some (mk_page_table kr);
  ac_kernel : pt_rep whole (pkern ps) kr NK;
  ac_caller : caller U O lo hi (pvfs ps) B l par X;
}.

Lemma family_fork i m parent_ par c as_ n :
  family 0 0 i m → m !! parent_ = Some par → p_state par = PROCESS_RUNNING → m !! c = None → c ≠ 0 →
  family 0 0 i (<[c := child_of par as_ n parent_]> (alter (adopt c) parent_ m)).
Proof.
  intros Hf Hp Hrun Hc Hc0. set (y := child_of par as_ n 0). assert (parent_ ≠ c) as Hne by congruence.
  assert (parent_ ≠ 0) as Hp0 by (intros ->; by rewrite (fa_null _ _ _ _ Hf) in Hp).
  pose proof (family_insert 0 i m c y Hf Hc Hc0 eq_refl eq_refl eq_refl eq_refl) as Hf1.
  pose proof (family_moved 0 0 i _ _ c 0 parent_ y Hf1 (linked_moved parent_ c _ Hne Hp0 (fa_null _ _ _ _ Hf1)) ltac:(apply lookup_insert_eq)
    eq_refl eq_refl ltac:(by left) ltac:(done) Hne) as Hf2. rewrite decide_False in Hf2 by done.
  assert (<[c := child_of par as_ n parent_]> (alter (adopt c) parent_ m) = linked parent_ c (<[c := y]> m)) as ->.
  { unfold linked. rewrite alter_insert_eq, alter_insert_ne by done. done. }
  apply Hf2. intros _. exists par. split; [|done]. by rewrite lookup_insert_ne.
Qed.

(** What the child is: the record [child], its thread [t] on the page [stack]. *)
Record child_ok (ue parent_ c t stack n pf : Z) (par child : process) (s s' : sched) (m m' : memory) : Prop := {
  ch_record : child = child_of par (p_as child) n parent_;
  ch_memory : Forall2 (AddressSpaceClone.copied m') (pages (p_as par)) (pages (p_as child));
  ch_areas : Forall2 same_area (areas (p_as par)) (areas (p_as child));
  ch_break : brk_end (p_as child) = brk_end (p_as par);
  ch_thread : s' = with_thread t (user_thread ue c stack) s;
  ch_frame : forked_frame m m' pf stack;
}.

Lemma quiet_sight (U : list Z) (lo hi : Z) (O O' : list Z) (NK : gmap (list Z) Z) (V : Z → Prop) (v v' : vfs) (B B' : gset Z) (l l' : list Z)
    (a : address_space) (N : gmap (list Z) Z) (X X' : list member) :
  world U O lo hi v B l ((a, N) :: X) → world U O' lo hi v' B' l' ((a, N) :: X') → quiet (all_pages ((a, N) :: X) ++ map_vals NK) V v v' →
  others V X v v' ∧ seen a (kern v) (kern v').
Proof.
  intros Hw Hw' [Hq HV _ _]. assert (pages_same (all_pages ((a, N) :: X)) (mem (kern v)) (mem (kern v'))) as Hp.
  { intros p Hp. apply Hq. apply elem_of_app. by left. }
  split; [|eapply seen_world; [exact Hw|exact Hw'|]; intros p Hin; apply Hp; rewrite all_pages_cons; apply elem_of_app; by left].
  split; [|done]. intros p Hin. apply Hp. rewrite all_pages_cons. apply elem_of_app. by right.
Qed.

(** How [fork] ends. *)
Definition forked (U O : list Z) (lo hi kr : Z) (NK : gmap (list Z) Z) (V : Z → Prop) (ue : Z) (ps : processes) (B : gset Z)
    (l : list Z) (par : process) (parent_ : Z) (X : list member) (pf : Z) (s : sched) (r : Z) (s' : sched) (ps' : processes) : Prop :=
  others V X (pvfs ps) (pvfs ps') ∧ seen (p_as par) (pkern ps) (pkern ps') ∧
  ((r = - PROCESS_ENOMEM ∧ s' = s ∧ procs ps' = procs ps ∧ acting U O lo hi kr NK ps' B l par parent_ X) ∨
   (r = s64 (next_pid ps) ∧ next_pid ps' = u64 (next_pid ps + 1) ∧ ∃ c child t stack M,
     c ∉ B ∧ t ≠ 0 ∧ t ∉ {[c]} ∪ B ∧ child_ok ue parent_ c t stack (next_pid ps) pf par child s s' (mem (pkern ps)) (mem (pkern ps')) ∧
     procs ps' = <[c := child]> (alter (adopt c) parent_ (procs ps)) ∧
     acting U (stack :: O) lo hi kr NK ps' ({[t]} ∪ ({[c]} ∪ B)) (fds child ++ l) (adopt c par) parent_ ((p_as child, M) :: X))).

Lemma fork_spec (U O : list Z) (lo hi kr : Z) (NK : gmap (list Z) Z) (V : Z → Prop) (tr ue : Z) (ps : processes) (B : gset Z)
    (l : list Z) (par : process) (parent_ : Z) (X : list member) (pf cf : Z) (s : sched) :
  hi - lo < 2 ^ 62 → acting U O lo hi kr NK ps B l par parent_ X → frames_ok U O NK V pf cf →
  Z.of_nat (length (fds par ++ fds par ++ l)) < 2 ^ 64 - 1 →
  ∃ r s' ps', process_fork tr ue parent_ pf cf s ps = Some (r, s', ps') ∧
    forked U O lo hi kr NK V ue ps B l par parent_ X pf s r s' ps'.
Proof.
  unfold forked. intros Hspan [F1 F2 F3 F7 F4 F5 F6 [[N Hw] Hrt Htab]] Hfr Hlen. destruct ps as [v m R K I n L]. unfold pkern, family_ok in *. cbn in *. subst K L.
  pose proof (fr_kernel _ _ _ _ _ _ Hfr) as HNK. unfold process_fork.
  destruct (create_spec U lo hi O v m n R I B _ _ kr NK Hw F6 HNK) as (c & s1 & Hk1 & Hres).
  pose proof (quiet_settle U O _ _ V v s1 Hk1 (λ p, W_kept O NK (p_as par) N X p HNK) (fr_kept _ _ _ _ _ _ Hfr)) as Q1.
  assert (∀ O' v' B' l' X' p' m' n', world U O' lo hi v' B' (fds p' ++ l') ((p_as p', N) :: X') → quiet (all_pages ((p_as par, N) :: X) ++ map_vals NK) V v v' →
    p_root p' = p_root par → p_cwd p' = p_cwd par → fds p' = fds par → m' !! parent_ = Some p' → dom m' ⊆ B' → p_state p' = PROCESS_RUNNING → family 0 0 I m' →
    acting U O' lo hi kr NK (mk_processes v' m' R (Some (mk_page_table kr)) I n' 0) B' l' p' parent_ X') as Hfin.
  { intros O' v' B' l' X' p' m' n' Hw' HQ E1 E2 E3 Hm' Hd' Hc' Hf'. split; try done; [by eapply quiet_kernel|].
    split; [by exists N| |by unfold table_ok; rewrite E3]. destruct HQ as [_ _ Ht Hn]. by apply (rooted_same v v' par). }
  destruct (Z.eqb_spec c 0) as [->|Hc].
  { destruct Hres as [-> Hw1]. cbn. exists (- 12), s. eexists. split; [reflexivity|].
    destruct (quiet_sight U lo hi O O NK V v (set_kern s1 v) B B _ _ _ N X X Hw Hw1 Q1) as [A1 A2]. split; [done|]. split; [done|].
    left. do 3 (split; [done|]). by apply Hfin. }
  destruct Hres as (t0 & N0 & -> & Hnew & Hw1). cbn [mbind option_bind]. rewrite (proj2 (Z.eqb_neq _ _) Hc).
  assert (c ∉ B) as HcB by (unfold world_objects in Hnew; clear -Hnew; set_solver).
  assert (m !! c = None) as Hmc by (apply not_elem_of_dom; clear -HcB F2; set_solver).
  assert (c ∉ p_children par) as Hch.
  { intros Hin. destruct (fa_children _ _ _ _ F7 parent_ par c F1 Hin) as (y & Hy & _). congruence. }
  destruct (fork_child_spec U lo hi Hspan O kr NK V tr ue (set_kern s1 v) m (u64 (n + 1)) n R I B l par parent_ c t0 (vfs_root v) N0 N X pf cf s
    F1 Hmc Hc HcB Hch Hw1 (quiet_kernel kr NK V _ _ _ _ _ Q1 F6) Hfr Hlen) as (r & s' & ps' & -> & Hcase).
  exists r, s', ps'. split; [done|].
  destruct Hcase as [(-> & -> & v' & -> & Hw2 & Q2)|(-> & v' & as_ & M & t & stack & -> & Hst & Ht & Hnt & Hs' & Hw2 & Q2 & Hff & Hcp & Har & Hbr)];
    cbn [pvfs procs next_pid]; pose proof (quiet_trans _ _ _ _ _ Q1 Q2) as Q.
  - destruct (quiet_sight U lo hi O O NK V v v' B B _ _ _ N X X Hw Hw2 Q) as [A1 A2]. split; [done|]. split; [done|].
    left. do 3 (split; [done|]). by apply Hfin.
  - apply (world_perm _ _ _ _ _ _ _ _ ((p_as par, N) :: (as_, M) :: X)) in Hw2; [|by apply Permutation_swap].
    destruct (quiet_sight U lo hi O (stack :: O) NK V v v' B _ _ _ _ N X _ Hw Hw2 Q) as [A1 A2]. split; [done|]. split; [done|].
    right. split; [done|]. split; [done|]. exists c, (child_of par as_ n parent_), t, stack, M. split; [done|]. split; [done|]. split; [exact Hnt|]. split; [|split; [done|]].
    + split; try done. intros i Hi. rewrite Hff by done. destruct (i =? 33); [done|]. destruct (i =? 10); [done|]. apply load64_ext.
      intros a Ha. apply Hk1, region_app. replace a with (pf + (a - pf)) by lia. apply (fr_parent _ _ _ _ _ _ Hfr). lia.
    + assert (parent_ ≠ c) as Hne by congruence. apply Hfin; try done.
      * rewrite lookup_insert_ne by done. by rewrite lookup_alter_eq, F1.
      * rewrite dom_insert_L, dom_alter_L. clear -F2. set_solver.
      * by apply family_fork.
Qed.

(** C13. [fork] always returns.  Either there is not enough memory, and processes,
    scheduler and the references to open files are what they were; or the child has
    the next process id, a copy of every page and area of the parent, the same
    directories and open files with one more reference to each, a runnable thread with
    the parent's registers and 0 as the result, and is the youngest child of the
    parent.  The parent's memory, that of every other process and the kernel
    memory [V] stay as they were. *)
Theorem process_fork_correct (U O : list Z) (lo hi kr : Z) (NK : gmap (list Z) Z) (V : Z → Prop) (tr ue : Z) (ps : processes) (B : gset Z)
    (l : list Z) (par : process) (parent_ : Z) (X : list member) (pf cf : Z) (s : sched) :
  hi - lo < 2 ^ 62 → acting U O lo hi kr NK ps B l par parent_ X → frames_ok U O NK V pf cf →
  Z.of_nat (length (fds par ++ fds par ++ l)) < 2 ^ 64 - 1 →
  ∃ r s' ps', process_fork tr ue parent_ pf cf s ps = Some (r, s', ps') ∧
    others V X (pvfs ps) (pvfs ps') ∧ seen (p_as par) (pkern ps) (pkern ps') ∧
    ((r = - PROCESS_ENOMEM ∧ s' = s ∧ procs ps' = procs ps ∧ acting U O lo hi kr NK ps' B l par parent_ X) ∨
     (r = s64 (next_pid ps) ∧ next_pid ps' = u64 (next_pid ps + 1) ∧ ∃ c child t stack M,
       c ∉ B ∧ t ≠ 0 ∧ t ∉ {[c]} ∪ B ∧ child_ok ue parent_ c t stack (next_pid ps) pf par child s s' (mem (pkern ps)) (mem (pkern ps')) ∧
       procs ps' = <[c := child]> (alter (adopt c) parent_ (procs ps)) ∧
       acting U (stack :: O) lo hi kr NK ps' ({[t]} ∪ ({[c]} ∪ B)) (fds child ++ l) (adopt c par) parent_ ((p_as child, M) :: X))).
Proof. apply fork_spec. Qed.
Lemma moved a : address_space_move a = (a, mk_as (mk_page_table 0) [] [] (brk_base a) (brk_end a)).
Proof. by destruct a. Qed.

Lemma update_any f p v m R K I n L : update_process f p (mk_processes v m R K I n L) = mk_processes v (alter f p m) R K I n L.
Proof. done. Qed.

(** The frame of the trap and the kernel's table, apart from each other and from the
    variables of the loader. *)
Record exec_frame (U O : list Z) (NK : gmap (list Z) Z) (header_at program_at words_at frame : Z) : Prop := {
  ef_frame : ∀ i, 0 <= i < SIZEOF_FRAME → region U O (frame + i);
  ef_kernel : ∀ q, q ∈ map_vals NK → q ∈ O;
  ef_apart : ∀ q a, q ∈ map_vals NK → in_page q a →
    spared U O header_at program_at words_at a ∧ ¬ (frame <= a < frame + SIZEOF_FRAME);
}.

(** C14. [exec] always returns.  When the program cannot be loaded it returns [-2] and
    the caller runs on in memory that is what it was.  Otherwise the process has the
    image of the file the path names as its only memory, the old one is given back,
    and the frame starts the program at its entry point with its stack pointer and all
    other registers 0; descriptors, directories and family stay.  No other process is
    touched. *)
Theorem process_exec_correct (U O : list Z) (lo hi kr : Z) (NK : gmap (list Z) Z) (header_at program_at words_at arguments : Z)
    (ps : processes) (B : gset Z) (l : list Z) (x : process) (p : Z) (X : list member) (frame : Z) (path : list Z) :
  hi - lo < 2 ^ 62 → (∀ a, lo <= a < hi → region U O a) →
  locals_ok U O lo hi header_at program_at words_at arguments (map_vals NK) → exec_frame U O NK header_at program_at words_at frame →
  acting U O lo hi kr NK ps B l x p X → arguments_ok (mem (pkern ps)) arguments →
  ∃ r ps', process_exec header_at program_at words_at p frame path arguments ps = Some (r, ps') ∧ pages_same (all_pages X) (mem (pkern ps)) (mem (pkern ps')) ∧
    ((r = -2 ∧ procs ps' = procs ps ∧ seen (p_as x) (pkern ps) (pkern ps') ∧ acting U O lo hi kr NK ps' B l x p X) ∨
     (r = 0 ∧ ∃ image v1,
       elf_load header_at program_at words_at (Some (mk_page_table kr)) (Some (p_root x, p_cwd x)) path arguments (pvfs ps) = Some (true, image, v1) ∧
       (∃ n, vfs_resolve (pvfs ps) (p_root x) (p_cwd x) path false = Some (inr n) ∧ image_ok (kern v1) (vn v1 n) arguments image) ∧
       seen (image_as image) (kern v1) (pkern ps') ∧
       started (mem (pkern ps')) frame (image_entry image) (stack_pointer image) ∧
       procs ps' = alter (with_as (image_as image)) p (procs ps) ∧
       acting U O lo hi kr NK ps' B l (with_as (image_as image) x) p X)).
Proof.
  intros Hspan Harch Hloc [Hfr HNK Hap] [F1 F2 F3 F7 F4 F5 F6 [[N Hw] Hrt Htab]] Hargs. destruct ps as [v m R K I n L].
  unfold pkern, family_ok in *. cbn in F1, F2, F3, F7, F4, F5, F6, Hw, Hrt, Hargs. subst K L.
  destruct (exec_load U lo hi Hspan O Harch header_at program_at words_at arguments kr NK Hloc
    (λ q a Hq Ha, conj (HNK q Hq) (proj1 (Hap q a Hq Ha))) v B _ _ (p_root x) (p_cwd x) path Hw (rt_root _ _ Hrt) (rt_cwd _ _ Hrt) F6 HNK Hargs)
    as (ok & image & v1 & E & Hs & Hp & Hres).
  assert (pr (mk_processes v m R (Some (mk_page_table kr)) I n 0) p = x) as Ep by (unfold pr; cbn; by apply lookup_total_correct).
  assert (∀ v' a' N' m', world U O lo hi v' B (fds x ++ l) ((a', N') :: X) → same_store v v' → pages_same (map_vals NK) (mem (kern v)) (mem (kern v')) →
    m' !! p = Some (with_as a' x) → dom m' ⊆ B → family 0 0 I m' → acting U O lo hi kr NK (mk_processes v' m' R (Some (mk_page_table kr)) I n 0) B l (with_as a' x) p X) as Hfin.
  { intros v' a' N' m' Hw' [(S1 & S2 & S3) [S4 S5]] HK' Hm' Hd' Hf'. split; try done.
    - exact (proj1 (pt_rep_same whole (kern v) (kern v') kr NK HK' F6)).
    - split; [by exists N'| |done]. apply (rooted_same v v' x); [done|by apply same_vnodes|by apply nodes_from_same|done|done]. }
  assert (pages_same (map_vals NK) (mem (kern v)) (mem (kern v1))) as HpK by (intros q Hq; apply Hp; rewrite elem_of_app; auto).
  assert (pages_same (all_pages ((p_as x, N) :: X)) (mem (kern v)) (mem (kern v1))) as HpX by (intros q Hq; apply Hp; rewrite elem_of_app; auto).
  assert (pages_same (all_pages X) (mem (kern v)) (mem (kern v1))) as Ho1 by (intros q Hq; apply HpX; rewrite all_pages_cons, elem_of_app; auto).
  unfold process_exec. rewrite Ep. cbn [kernel_table pvfs]. rewrite E. cbn [mbind option_bind]. autorewrite with procs. destruct ok; cbn [negb].
  2:{ eexists (-2), _. split; [reflexivity|]. split; [done|]. left. split; [done|]. split; [done|]. split.
      { eapply seen_world; [exact Hw|exact Hres|]. intros q Hq. apply HpX. rewrite all_pages_cons, elem_of_app. auto. }
      replace x with (with_as (p_as x) x) by (by destruct x). apply (Hfin v1 (p_as x) N); try done. by destruct x. }
  destruct Hres as [[M Hw1] Himg].
  assert (pr (mk_processes v1 m R (Some (mk_page_table kr)) I n 0) p = x) as -> by (unfold pr; cbn; by apply lookup_total_correct).
  rewrite !moved. cbv beta iota zeta. rewrite update_any. autorewrite with procs. cbn [kern set_kern].
  destruct (replace_spec U lo hi Hspan O v1 B (fds x ++ l) (p_as x) N (image_as image) M X (vm_activate (table (image_as image)) (kern v1)) frame
    (image_entry image) (stack_pointer image) Hw1 ltac:(done) Hfr) as (s' & E2 & Hw2 & Hst & Hpx & Hso). rewrite E2.
  cbv beta iota zeta. autorewrite with procs. cbn [kern set_kern mem].
  set (m' := start_frame _ _ _ _) in *. set (v2 := set_kern (set_mem m' s') v1) in *.
  assert (same_store v v2) as Hs2 by (by destruct Hs; split).
  eexists 0, _. split; [reflexivity|]. cbn [pvfs procs]. split.
  { intros q Hq a Ha. etransitivity; [|by apply (Ho1 q)]. apply (Hpx q); [|done]. rewrite all_pages_cons, elem_of_app. auto. }
  right. split; [done|]. exists image, v1. split; [done|]. split; [done|].
  split. { eapply seen_world; [exact Hw1|exact Hw2|]. intros q Hq. apply Hpx. rewrite all_pages_cons, elem_of_app. auto. }
  split; [done|]. split; [done|]. apply (Hfin v2 (image_as image) M); try done.
  - intros q Hq b Hb. transitivity (load8 (mem (kern v1)) b); [|by apply (HpK q)]. apply Hso.
    destruct (Hap q b Hq Hb) as [[Hr _] Hn]. by split.
  - by rewrite lookup_alter_eq, F1.
  - by rewrite dom_alter_L.
  - by apply family_alter.
Qed.
End Theorems.

(** * The first process forks *)

Module ProcessDemo.
#[local] Existing Instance bench_heap.
#[local] Existing Instance bench_contract.
#[local] Existing Instance VfsDemo.quiet.
#[local] Existing Instance FdDemo.quiet_console.

Abbreviation kroot := AsDemo.kroot (only parsing).
Abbreviation low := ElfDemo.archive_at (only parsing).
Abbreviation high := (ElfDemo.archive_at + ElfDemo.archive_size) (only parsing).
Abbreviation table0 := (Some (mk_page_table kroot)) (only parsing).

(** A process just created beside a file system with nothing open. *)
Lemma created_acting lo hi v kr NK c ps :
  world ram [kr] lo hi v ∅ [] [] → pt_rep whole (kern v) kr NK → (∀ p, p ∈ map_vals NK → p ∈ [kr]) →
  files v = ∅ → is_node v (vfs_root v) → type (vn v (vfs_root v)) = DT_DIR →
  process_create (mk_processes v ∅ ∅ (Some (mk_page_table kr)) 0 1 0) = Some (c, ps) → c ≠ 0 →
  acting ram [kr] lo hi kr NK ps {[c]} [] (pr ps c) c [].
Proof.
  intros Hw HK HNK Ef Hn Ht E Hc. destruct (create_spec ram lo hi [kr] v ∅ 1 ∅ 0 ∅ [] [] kr NK Hw HK HNK) as (c' & s & Hk & Hres).
  destruct (Z.eqb_spec c' 0) as [->|Hc']; [destruct Hres as [E' _]; congruence|].
  destruct Hres as (t & N & E' & _ & Hw'). rewrite E in E'. injection E' as <- ->. rewrite pr_new.
  split; cbn; [by rewrite lookup_insert_eq|rewrite dom_insert_L; set_solver|done| |done|done| |].
  - unfold family_ok. cbn. by apply family_insert.
  - destruct (pt_rep_same whole (kern v) s kr NK) as [HK1 _]; [|done|done].
    intros p Hp a Ha. apply Hk. left. exists p. auto.
  - split; [exists N|by apply FdDemo.fresh_rooted|done]. rewrite union_empty_r_L in Hw'. apply (FdDemo.world_refs _ _ _ _ _ _ [] _ _ Hw').
    apply FdDemo.fresh_refs; [done|]. intros f Hf. cbn in Hf. set_solver.
Qed.

Definition ps0 : processes := mk_processes ElfDemo.fs ∅ ∅ table0 0 1 0.
Definition first : Z * processes := default (0, ps0) (process_create ps0).
Definition parent : Z := fst first.
Definition ps1 : processes := snd first.

Example first_created : match process_create ps0 with Some (c, _) => negb (c =? 0) | None => false end = true.
Proof. vm_compute. reflexivity. Qed.

Lemma first_eq : process_create ps0 = Some (parent, ps1) ∧ parent ≠ 0.
Proof.
  pose proof first_created as Hf. unfold parent, ps1, first. destruct (process_create ps0) as [[c ps]|]; [|discriminate Hf].
  cbn in *. split; [done|]. by destruct (Z.eqb_spec c 0).
Qed.

Lemma first_acting : acting ram [kroot] low high kroot {[ [] := kroot ]} ps1 {[parent]} [] (pr ps1 parent) parent [].
Proof.
  destruct first_eq as [E Hc]. unfold ps0 in E. apply (created_acting low high ElfDemo.fs kroot {[ [] := kroot ]} parent ps1).
  - exact FdDemo.fs_world.
  - exact ElfDemo.fs_table.
  - intros p Hp. rewrite map_vals_root in Hp. exact Hp.
  - exact FdDemo.fs_files.
  - exact (proj1 (proj2 ElfDemo.program_fs_ok)).
  - vm_compute. reflexivity.
  - exact E.
  - exact Hc.
Qed.

(** The frame of the trap and the one on the stack of [fork]. *)
Definition child_frame_at : Z := 4194304.
Definition trap_frame_at : Z := 4194816.
Definition sched0 : sched := mk_sched ∅ [] ∅ 0 0 0 0 1 false (mk_page_table kroot) 0.

(** The frame of the trap stays as it is. *)
Definition in_trap_frame (a : Z) : Prop := trap_frame_at <= a < trap_frame_at + SIZEOF_FRAME.

Lemma frames : frames_ok ram [kroot] {[ [] := kroot ]} in_trap_frame trap_frame_at child_frame_at.
Proof.
  split.
  - intros p Hp. rewrite map_vals_root in Hp. exact Hp.
  - done.
  - done.
  - intros i Hi. split; [split; [apply (FdDemo.frame_buffer child_frame_at SIZEOF_FRAME)|unfold in_trap_frame, trap_frame_at]; unfold child_frame_at; lia|].
    intros p Hp. rewrite map_vals_root in Hp. apply list_elem_of_singleton in Hp as ->. unfold in_page.
    rewrite phys_to_virt_page by done. unfold child_frame_at, AsDemo.kroot in *. lia.
  - intros a Ha. apply VfsDemo.low_region. unfold in_trap_frame, trap_frame_at in Ha. lia.
  - intros i Hi. apply (FdDemo.frame_buffer trap_frame_at SIZEOF_FRAME); unfold trap_frame_at; lia.
Qed.

Example fork_result :
  match process_fork 1 2 parent trap_frame_at child_frame_at sched0 ps1 with
  | Some (r, s, ps) => (r, length (all_threads s), base.size (procs ps))
  | None => (0, 0%nat, 0%nat)
  end = (2, 1%nat, 2%nat).
Proof. vm_compute. reflexivity. Qed.

Lemma process_fork_correct_witness :
  ∃ s' ps', process_fork 1 2 parent trap_frame_at child_frame_at sched0 ps1 = Some (2, s', ps') ∧
    seen (p_as (pr ps1 parent)) (pkern ps1) (pkern ps') ∧ ∃ c child, procs ps' = <[c := child]> (alter (adopt c) parent (procs ps1)).
Proof.
  destruct (process_fork_correct ram [kroot] low high kroot {[ [] := kroot ]} in_trap_frame 1 2 ps1 {[parent]} [] (pr ps1 parent) parent []
    trap_frame_at child_frame_at sched0 FdDemo.span first_acting frames ltac:(vm_compute; reflexivity))
    as (r & s' & ps' & E & _ & Hs & Hcase).
  pose proof fork_result as Hr. rewrite E in Hr. injection Hr as -> _ _. exists s', ps'. split; [exact E|]. split; [exact Hs|].
  destruct Hcase as [(Hb & _)|(_ & _ & c & child & _ & _ & _ & _ & _ & _ & _ & Hp & _)]; [discriminate Hb|]. exists c, child. exact Hp.
Defined.

(** The same process starts a program. *)
Lemma first_arguments : arguments_ok (mem (pkern ps1)) ElfDemo.args_at.
Proof.
  assert (argc (mem (pkern ps1)) ElfDemo.args_at = 1) as E1 by (vm_compute; reflexivity).
  assert (envc (mem (pkern ps1)) ElfDemo.args_at = 1) as E2 by (vm_compute; reflexivity).
  split; [rewrite E1; discriminate|rewrite E2; discriminate|rewrite E1|rewrite E2]; intros i Hi; assert (i = 0) as -> by lia;
    vm_compute; discriminate.
Qed.

Lemma exec_frame_ok : exec_frame ram [kroot] {[ [] := kroot ]} ElfDemo.header_at ElfDemo.program_at ElfDemo.words_at trap_frame_at.
Proof.
  split.
  - intros i Hi. apply (FdDemo.frame_buffer trap_frame_at SIZEOF_FRAME); unfold trap_frame_at; lia.
  - intros p Hp. rewrite map_vals_root in Hp. exact Hp.
  - intros q a Hq Ha. rewrite map_vals_root in Hq. apply list_elem_of_singleton in Hq as ->.
    assert (2 ^ 31 <= phys_to_virt kroot) as Hlow by (vm_compute; discriminate). unfold in_page in Ha.
    split; [split; [left; exists kroot; split; [by left|done]|]|]; unfold ElfDemo.header_at, ElfDemo.program_at, ElfDemo.words_at, trap_frame_at; lia.
Qed.

Example exec_result :
  match process_exec ElfDemo.header_at ElfDemo.program_at ElfDemo.words_at parent trap_frame_at (chars "/init") ElfDemo.args_at ps1 with
  | Some (r, ps) => (r, frame_x (mem (pkern ps)) trap_frame_at 2, load64 (mem (pkern ps)) (trap_frame_at + FRAME_SEPC))
  | None => (0, 0, 0)
  end = (0, 4194240, 65656).
Proof. vm_compute. reflexivity. Qed.

Lemma process_exec_correct_witness :
  ∃ ps', process_exec ElfDemo.header_at ElfDemo.program_at ElfDemo.words_at parent trap_frame_at (chars "/init") ElfDemo.args_at ps1 = Some (0, ps') ∧
    ∃ image, started (mem (pkern ps')) trap_frame_at (image_entry image) (stack_pointer image) ∧
      procs ps' = alter (with_as (image_as image)) parent (procs ps1).
Proof.
  destruct (process_exec_correct ram [kroot] low high kroot {[ [] := kroot ]} ElfDemo.header_at ElfDemo.program_at ElfDemo.words_at ElfDemo.args_at
    ps1 {[parent]} [] (pr ps1 parent) parent [] trap_frame_at (chars "/init") FdDemo.span ElfDemo.low_archive ElfDemo.fs_locals exec_frame_ok
    first_acting first_arguments) as (r & ps' & E & _ & Hcase).
  pose proof exec_result as Hr. rewrite E in Hr. injection Hr as -> _ _. exists ps'. split; [exact E|].
  destruct Hcase as [(Hb & _)|(_ & image & v1 & _ & _ & _ & Hst & Hp & _)]; [discriminate Hb|]. exists image. split; [exact Hst|exact Hp].
Defined.
End ProcessDemo.
