(* ===== verification/FamilyThms.v ===== *)
(** What [exit] and [waitpid] guarantee ([src/kernel/process.c]), and that families stay
    in order whatever processes do. *)
From S2P Require Import KList Log Heap HeapProps HeapThms HeapInstance Bench.
From S2P Require Import Prelude Machine Runtime PageAlloc Vm VmInv VmProps HeapSpec Ownership AddressSpace AddressSpaceInv AddressSpaceProps AddressSpaceClone AddressSpaceAreas AddressSpaceMaps AddressSpaceCopy AddressSpaceThms.
From S2P Require Import Outcome Log Pipe Scheduler SchedulerProps SchedulerThms Vfs VfsInit VfsTree VfsInv VfsFiles VfsOpen VfsPipe VfsIo VfsThms Elf ElfInv ElfLoad ElfStack ElfThms World Process Fd FdProps FdCalls FdIo FdThms ProcessInv ProcessFork ProcessExec ProcessFamily ProcessThms.

Section Wait.
Context `{HeapContract} `{Backends} `{!QuietConsole}.

(** * Finding a child *)

Definition wanted_child (pid_ : Z) (ps : processes) (c : Z) : Prop := pid_ = -1 ∨ u64 pid_ = pid (pr ps c).

Lemma find_one ps pid_ l : pid_ ≠ -1 →
  (find_in ps pid_ 0 l = 0 ∧ ∀ c, c ∈ l → u64 pid_ ≠ pid (pr ps c)) ∨
  (find_in ps pid_ 0 l ∈ l ∧ u64 pid_ = pid (pr ps (find_in ps pid_ 0 l))).
Proof.
  intros Hp. assert ((pid_ =? -1) = false) as Ep by (by apply Z.eqb_neq).
  induction l as [|c l IH]; cbn [find_in]; [left; split; [done|]; intros c Hc; by apply not_elem_of_nil in Hc|].
  rewrite Ep. cbn [negb andb]. destruct (Z.eqb_spec (u64 pid_) (pid (pr ps c))) as [E|E]; [right; split; [by left|done]|].
  destruct IH as [[-> Hn]|[Hin Heq]]; [left|right; split; [by right|done]]. split; [done|]. intros d [->|Hd]%elem_of_cons; auto.
Qed.

Lemma find_any ps l : ∀ first, 0 ∉ l →
  let r := find_in ps (-1) first l in
  (r ∈ l ∧ p_state (pr ps r) = PROCESS_REAPABLE) ∨
  ((∀ c, c ∈ l → p_state (pr ps c) ≠ PROCESS_REAPABLE) ∧ r = if first =? 0 then List.hd 0 l else first).
Proof.
  induction l as [|c l IH]; intros first Hz; cbn [find_in].
  - right. split; [intros c Hc; by apply not_elem_of_nil in Hc|]. by destruct (Z.eqb_spec first 0).
  - cbn [Z.eqb negb andb]. case_bool_decide as Hs; [left; split; [by left|done]|].
    assert (c ≠ 0) as Hc by (intros ->; apply Hz; by left).
    destruct (IH (if first =? 0 then c else first)) as [[Hin Hr]|[Hn ->]]; [intros Hin; apply Hz; by right|left; split; [by right|done]|right].
    split; [intros d [->|Hd]%elem_of_cons; auto|]. destruct (Z.eqb_spec first 0) as [->|Hf].
    + by rewrite (proj2 (Z.eqb_neq _ _) Hc).
    + by rewrite (proj2 (Z.eqb_neq _ _) Hf).
Qed.

Lemma find_child_spec parent_ pid_ ps x :
  procs ps !! parent_ = Some x → 0 ∉ p_children x →
  let r := find_child parent_ pid_ ps in
  (r = 0 ∧ ∀ c, c ∈ p_children x → ¬ wanted_child pid_ ps c) ∨
  (r ∈ p_children x ∧ r ≠ 0 ∧ wanted_child pid_ ps r ∧
   (p_state (pr ps r) ≠ PROCESS_REAPABLE → pid_ = -1 → ∀ c, c ∈ p_children x → p_state (pr ps c) ≠ PROCESS_REAPABLE)).
Proof.
  intros Hx H0' r. unfold r, find_child. rewrite (pr_eq ps parent_ x Hx). destruct (decide (pid_ = -1)) as [->|Hp].
  - destruct (find_any ps (p_children x) 0 H0') as [[Hin Hs]|[Hn E]]; cbv zeta in *.
    + right. split; [done|]. split; [by intros E; rewrite E in Hin|]. split; [by left|]. done.
    + rewrite E. cbn [Z.eqb]. destruct (p_children x) as [|c l] eqn:Ec; [left; split; [done|]; intros c Hc; by apply not_elem_of_nil in Hc|].
      right. assert (c ≠ 0) as Hc by (intros ->; apply H0'; by left). cbn [List.hd].
      split; [by left|]. split; [done|]. split; [by left|]. auto.
  - destruct (find_one ps pid_ (p_children x) Hp) as [[-> Hn]|[Hin Heq]].
    + left. split; [done|]. intros c Hc [?|E]; [done|]. by apply (Hn c).
    + right. split; [done|]. split; [by intros E; rewrite E in Hin|]. split; [by right|]. done.
Qed.

(** * Going to sleep *)

Lemma switch_ram (m : kstate) s (ps : processes) b m' s' (ps' : processes) : scheduler_switch (H0 := process_system) (m, s, ps) = Some (b, (m', s', ps')) → same_ram m m'.
Proof.
  unfold scheduler_switch. destruct (pick_next s) as [next|]; [|done]. destruct (_ || _); [by intros [= _ <- _ _]|].
  intros [= _ <- _ _]. done.
Qed.

Lemma sleep_spec q s ps :
  sched_ok s → current s ≠ idle_thread s →
  ∃ m' s', with_sched (wait_queue_sleep q) s ps = Some (s', set_pkern m' ps) ∧ same_ram (pkern ps) m' ∧ sched_ok s' ∧
    current s' ≠ current s ∧ queues s' = <[q := default [] (queues s !! q) ++ [current s]]> (queues s).
Proof.
  intros Hs Hi. destruct (switch_away (H0 := process_system) (pkern ps) _ ps (ready_block s Hs Hi q)) as (m' & s' & E & Hok & Hne).
  { unfold scheduler_block_current. cbn [current set_queues set_state upd_threads].
    unfold state_of. simpl. rewrite lookup_alter_eq. by destruct (threads s !! current s). }
  exists m', s'. unfold with_sched. assert (wait_queue_sleep (H0 := process_system) q (pkern ps, s, ps) = Some (true, (m', s', ps))) as E' by exact E.
  split; [by rewrite E'|]. split; [by eapply switch_ram|]. split; [done|]. split; [done|].
  destruct (wait_queue_fifo (H0 := process_system) q s (pkern ps) ps Hs) as [Hq _]. apply (Hq Hi (m', s', ps) E').
Qed.

(** * The status *)

Context (U O : list Z) (lo hi : Z) (Hspan : hi - lo < 2 ^ 62) (kr : Z) (NK : gmap (list Z) Z).
Context (V : Z → Prop) (HV : ∀ a, V a → region U O a).
Context (status_at : Z) (Hpos : 0 < status_at).
Context (Hstatus : ∀ i, 0 <= i < 8 → local U O V (status_at + i) ∧ ∀ p, p ∈ map_vals NK → ¬ in_page p (status_at + i)).
Context (HNK : ∀ p, p ∈ map_vals NK → p ∈ O).

(** The kernel's table and the others through a change of memory. *)
Definition calm (X : list member) (v v' : vfs) : Prop :=
  others V X v v' ∧ pages_same (map_vals NK) (mem (kern v)) (mem (kern v')).

Lemma calm_trans X v1 v2 v3 : calm X v1 v2 → calm X v2 v3 → calm X v1 v3.
Proof.
  intros [A1 A2] [B1 B2]. split; [by eapply others_trans|]. intros p Hp a Ha. rewrite (B2 p Hp a Ha). exact (A2 p Hp a Ha).
Qed.

Lemma calm_ram X v s : same_ram (kern v) s → calm X v (set_kern s v).
Proof. intros (E & _). split; [split|]; intros ?; cbn [kern set_kern]; rewrite E; done. Qed.

Lemma calm_kept X v s : kept U (world_pages O v X) (mem (kern v)) (mem s) → calm X v (set_kern s v).
Proof using HNK HV.
  intros Hk. split; [split; [|intros a Ha; apply Hk, region_world; by apply HV]|];
    intros p Hp a Ha; apply Hk; left; exists p; (split; [|done]); unfold world_pages; rewrite !elem_of_app; auto.
Qed.

Lemma caller_ram v s B l x X : same_ram (kern v) s → caller U O lo hi v B l x X → caller U O lo hi (set_kern s v) B l x X.
Proof. intros Hr Hc. apply caller_kern; [done|]. destruct Hc as [[N Hw] _ _]. exists N. by apply world_ram. Qed.

Lemma status_spec v B l x X address value :
  caller U O lo hi v B l x X → 0 <= address →
  ∃ ok s, copy_to_user (Some (p_as x)) address status_at 8 (set_mem (store64 (mem (kern v)) status_at (u64 value)) (kern v)) = Some (ok, s) ∧
    caller U O lo hi (set_kern s v) B l x X ∧ calm X v (set_kern s v) ∧ (ok = true → user_word (p_as x) s address (u64 value) ∧ address + 8 <= 2 ^ 38) ∧
    (ok = false → address_space_validate (p_as x) address 8 true (kern v) = Some false).
Proof using Hspan Hpos Hstatus HNK HV.
  intros Hc Ha. set (m1 := store64 _ _ _). set (v1 := set_kern (set_mem m1 (kern v)) v).
  assert (same_on (λ b, ¬ (status_at <= b < status_at + 8)) (mem (kern v)) m1) as Hm1 by (intros b Hb; by apply load8_store64_out).
  destruct (local_call U O lo hi V v B l x X m1 status_at 8 Hc (λ i Hi, proj1 (Hstatus i Hi)) Hm1) as (Hc1 & Ho1 & Hs1). fold v1 in Hc1, Ho1, Hs1.
  destruct (copy_out_call U O lo hi V HV v1 B l x X status_at address 8 Hc1 ltac:(lia) Ha ltac:(lia) (λ i Hi, proj1 (proj1 (Hstatus i Hi))))
    as (ok & s & E & Hc2 & Ho2 & Hco & Hv). exists ok, s. split; [exact E|]. split; [exact Hc2|]. split; [|split].
  - apply (calm_trans X v v1).
    + split; [done|]. intros p Hp b Hb. apply Hm1. intros Hin. destruct (Hstatus (b - status_at) ltac:(lia)) as [_ Hn]. apply (Hn p Hp).
      by replace (status_at + (b - status_at)) with b by lia.
    + apply (calm_kept X v1 s). apply Hco.
  - intros ->. split; [|by eapply (validate_end _ _ 8)]. exists m1, status_at. split; [apply load64_store64_eq, u64_range|]. apply Hco. done.
  - intros ->. apply (validate_seen (p_as x) address 8 true (kern v1) (kern v) false Hv); [|done|lia]. intros va Hva. destruct (Hs1 va Hva). by split.
Qed.

(** * [waitpid] *)

(** Why a call that does not wait fails. *)
Definition wait_refused (x : process) (pid_ address options r : Z) (ps : processes) : Prop :=
  (r = - PROCESS_EINVAL ∧ (pid_ <= 0 ∧ pid_ ≠ -1 ∨ options ≠ 0)) ∨
  (r = - PROCESS_ECHILD ∧ ∀ c, c ∈ p_children x → ¬ wanted_child pid_ ps c) ∨
  (r = - PROCESS_EFAULT ∧ address ≠ 0 ∧ address_space_validate (p_as x) address 8 true (pkern ps) = Some false).

(** The child [c], that has ended as [y], is collected. *)
Record collected (x : process) (parent_ c : Z) (y : process) (pid_ address r : Z) (ps ps' : processes) : Prop := {
  co_child : c ∈ p_children x;
  co_record : procs ps !! c = Some y;
  co_ended : p_state y = PROCESS_REAPABLE;
  co_wanted : wanted_child pid_ ps c;
  co_pid : r = s64 (pid y);
  co_status : address ≠ 0 → user_word (p_as x) (pkern ps') address (u64 (exit_status y));
  co_gone : procs ps' = delete c (unlinked parent_ c (procs ps));
}.

Abbreviation st v m R I n L := (mk_processes v m R (Some (mk_page_table kr)) I n L).

Lemma calm_table v v' X : calm X v v' → pt_rep whole (kern v) kr NK → pt_rep whole (kern v') kr NK.
Proof. intros [_ Hp] HK. exact (proj1 (pt_rep_same whole (kern v) (kern v') kr NK Hp HK)). Qed.

Lemma family_collect i m p c y :
  family 0 0 i m → m !! c = Some y → p_parent y = p → p_state y = PROCESS_REAPABLE → family 0 0 i (delete c (unlinked p c m)).
Proof.
  intros Hf Hy Hp Hst. pose proof Hf as [F1 F2 F3 F4 F5 F6 F7 F8]. assert (c ≠ 0) as Hc0 by congruence.
  assert (p ≠ 0) as Hp0 by (rewrite <- Hp; by apply (F5 c y)). destruct (F2 c y Hy ltac:(congruence)) as [Hne _]. rewrite Hp in Hne.
  assert (p_result y = 0) as Hr by (destruct (decide (p_result y = 0)) as [|Hn]; [done|]; by rewrite (F7 c y Hy Hn) in Hp).
  pose proof (family_moved 0 0 i _ _ c p 0 y Hf (unlinked_moved p c m Hne Hc0 F4) Hy Hp Hr ltac:(by left) Hp0 ltac:(done) ltac:(done)) as Hf1.
  rewrite decide_True in Hf1 by done. apply (family_delete 0 c _ _ c (with_parent 0 y)); [done|by apply unlinked_child|done| | |by right].
  - apply (F6 c y Hy); [done|congruence].
  - intros ->. destruct (F8 Hc0) as (z & Hz & Hrz). congruence.
Qed.

(** The record of a collected child is given back. *)
Lemma collect_spec v m R I n B l x parent_ X c y flags_ address value :
  caller U O lo hi v B l x X → m !! parent_ = Some x → m !! c = Some y → p_parent y = parent_ → parent_ ≠ c → dom m ⊆ B →
  p_state x = PROCESS_RUNNING → p_state y = PROCESS_REAPABLE → family 0 0 I m → pt_rep whole (kern v) kr NK → (address ≠ 0 → user_word (p_as x) (kern v) address value) → 0 <= address → address + 8 <= 2 ^ 38 ∨ address = 0 →
  ∃ v', free_process c (set_pkern (irq_restore flags_ (kern v)) (st v (unlinked parent_ c m) R I n 0)) = st v' (delete c (unlinked parent_ c m)) R I n 0 ∧
    calm X v v' ∧ (address ≠ 0 → user_word (p_as x) (kern v') address value) ∧
    acting U O lo hi kr NK (st v' (delete c (unlinked parent_ c m)) R I n 0) (B ∖ {[c]}) l (with_family (List.remove Z.eq_dec c (p_children x)) x) parent_ X.
Proof using Hspan HNK Hstatus HV.
  intros Hc Hx Hy Hpy Hne Hdom Hrun Hst Hfam HK Hword Ha Hend.
  pose proof (irq_restore_ram flags_ (kern v)) as Hr. pose proof (caller_ram v _ B l x X Hr Hc) as Hc1. set (v1 := set_kern (irq_restore flags_ (kern v)) v) in *.
  assert (c ∈ B) as HcB by (apply Hdom, elem_of_dom; eauto). destruct Hc1 as [[N Hw] Hrt Htab].
  assert (B = {[c]} ∪ B ∖ {[c]}) as EB.
  { apply set_eq. intros d. rewrite elem_of_union, elem_of_difference, elem_of_singleton. destruct (decide (d = c)) as [->|]; naive_solver. }
  rewrite EB in Hw. destruct (world_kfree U lo hi O v1 (B ∖ {[c]}) _ _ c Hw) as [Hw2 Hk2]; [rewrite elem_of_difference, elem_of_singleton; tauto|].
  exists (set_kern (kfree c (kern v1)) v1). split; [done|].
  assert (kept U (world_pages O v1 X) (mem (kern v1)) (mem (kfree c (kern v1)))) as Hk2'.
  { eapply kept_sub; [|exact Hk2]. intros p. unfold world_pages. rewrite all_pages_cons, !elem_of_app. tauto. }
  assert (calm X v (set_kern (kfree c (kern v1)) v1)) as Hcalm.
  { eapply calm_trans; [apply calm_ram; exact Hr|]. by apply (calm_kept X v1). }
  split; [done|]. split.
  - intros Hn. destruct (Hword Hn) as (m0 & a0 & E & Hb). exists m0, a0. split; [done|]. intros j Hj. rewrite <- (Hb j Hj).
    destruct Hend as [Hend|?]; [|done].
    assert (seen (p_as x) (kern v) (kfree c (kern v1))) as Hseen.
    { destruct Hc as [[N0 Hw0] _ _]. assert (seen (p_as x) (kern v1) (kfree c (kern v1))) as S2.
      { apply (seen_world U lo hi O O v1 (set_kern (kfree c (kern v1)) v1) _ _ _ _ (p_as x) N X X Hw Hw2). intros p Hp b Hb'. apply Hk2. left. exists p. split; [|done]. unfold world_pages. rewrite all_pages_cons, !elem_of_app. auto. }
      assert (seen (p_as x) (kern v) (kern v1)) as S1.
      { rewrite <- EB in Hw. apply (seen_buffer U O lo hi v B (fds x ++ l) (p_as x) X v1 B (fds x ++ l) X 0 0); [by exists N0|by exists N|intros i Hi; lia|]. intros b _. cbn [kern set_kern v1]. by destruct Hr as (-> & _). }
      eapply seen_trans; [exact S1|exact S2]. }
    by destruct (Hseen (address + j) ltac:(lia)).
  - split; try done.
    + cbn [procs]. rewrite lookup_delete_ne by done. by apply unlinked_parent.
    + cbn. rewrite dom_delete_L. unfold unlinked. rewrite !dom_alter_L. clear -Hdom. set_solver.
    + by apply (family_collect I m parent_ c y).
    + by apply (calm_table v _ X).
    + split; [by exists N| |done]. apply (rooted_same v1 _ x); try done. by apply nodes_from_same.
Qed.

(** One round, with the lock held. *)
Lemma round_spec v m R I n B l x parent_ X pid_ address flags_ s :
  acting U O lo hi kr NK (st v m R I n 0) B l x parent_ X → sched_ok s → current s ≠ idle_thread s → 0 <= address →
  ∃ w s' ps', waitpid_round parent_ pid_ address status_at flags_ s (st v m R I n 1) = Some (w, s', ps') ∧ calm X v (pvfs ps') ∧
    init_process ps' = I ∧
    match w with
    | Waited r => s' = s ∧
        ((wait_refused x pid_ address 0 r (st v m R I n 0) ∧ procs ps' = m ∧ acting U O lo hi kr NK ps' B l x parent_ X) ∨
         ∃ c y, collected x parent_ c y pid_ address r (st v m R I n 0) ps' ∧
           acting U O lo hi kr NK ps' (B ∖ {[c]}) l (with_family (List.remove Z.eq_dec c (p_children x)) x) parent_ X)
    | WaitAsleep =>
        procs ps' = m ∧ acting U O lo hi kr NK ps' B l x parent_ X ∧
        (∃ c, c ∈ p_children x ∧ wanted_child pid_ (st v m R I n 0) c ∧ p_state (m !!! c) ≠ PROCESS_REAPABLE) ∧
        (pid_ = -1 → ∀ c, c ∈ p_children x → p_state (m !!! c) ≠ PROCESS_REAPABLE) ∧
        sched_ok s' ∧ current s' ≠ current s ∧
        queues s' = <[child_wait parent_ := default [] (queues s !! child_wait parent_) ++ [current s]]> (queues s)
    end.
Proof using Hspan Hpos Hstatus HNK HV.
  intros [A1 A2 A3 Hf A4 A5 A6 A7] Hs Hi Ha. unfold pkern, family_ok in *. cbn in A1, A2, Hf, A6, A7.
  assert (∀ v', caller U O lo hi v' B l x X → calm X v v' → acting U O lo hi kr NK (st v' m R I n 0) B l x parent_ X) as Hact.
  { intros v' Hc Hcalm. split; try done. by apply (calm_table v _ X). }
  assert (0 ∉ p_children x) as H0c.
  { intros Hin. destruct (fa_children _ _ _ _ Hf parent_ x 0 A1 Hin) as (y & Hy & _). by rewrite (fa_null _ _ _ _ Hf) in Hy. }
  pose proof (find_child_spec parent_ pid_ (st v m R I n 1) x A1 H0c) as Hfind. cbv zeta in Hfind.
  unfold waitpid_round. set (c := find_child _ _ _) in *. cbv zeta. destruct (Z.eqb_spec c 0) as [Ec|Ec].
  { destruct Hfind as [[_ Hnone]|(_ & ? & _)]; [|done]. autorewrite with procs. eexists _, _, _. split; [reflexivity|].
    pose proof (irq_restore_ram flags_ (kern v)) as Hr. split; [by apply calm_ram|]. split; [done|]. split; [done|]. left.
    split; [right; left; by split|]. split; [done|]. apply Hact; [by apply caller_ram|by apply calm_ram]. }
  destruct Hfind as [[? _]|(Hin & _ & Hwant & Hall)]; [done|].
  destruct (fa_children _ _ _ _ Hf parent_ x c A1 Hin) as (y & Hy & Hpy).
  assert (parent_ ≠ c) as Hne. { destruct (fa_parent _ _ _ _ Hf c y Hy) as [Hn _]; [|congruence]. rewrite Hpy. intros E. rewrite E, (fa_null _ _ _ _ Hf) in A1. done. }
  assert (pr (st v m R I n 1) c = y) as Epr by (by apply pr_eq). rewrite Epr in *. case_bool_decide as Hst.
  2:{ rewrite drop_lock_eq. destruct (sleep_spec (child_wait parent_) s (st v m R I n 0) Hs Hi) as (m' & s' & -> & Hram & Hok & Hcur & Hq).
      cbn [mbind option_bind]. eexists _, _, _. split; [reflexivity|]. rewrite set_pkern_eq. cbn [pvfs procs init_process].
      split; [by apply calm_ram|]. split; [done|]. split; [done|]. split; [apply Hact; [by apply caller_ram|by apply calm_ram]|].
      split; [exists c; split; [done|]; split; [done|]; by rewrite (lookup_total_correct _ _ _ Hy)|]. split; [|done].
      intros Hp d Hd. by apply (Hall Hst Hp). }
  match goal with |- context [mbind _ (if address =? 0 then _ else ?e)] => assert (∃ ok v1,
    (if address =? 0 then Some (true, st v m R I n 1) else e) = Some (ok, st v1 m R I n 1) ∧ caller U O lo hi v1 B l x X ∧ calm X v v1 ∧
    (ok = true → (address ≠ 0 → user_word (p_as x) (kern v1) address (u64 (exit_status y))) ∧ (address + 8 <= 2 ^ 38 ∨ address = 0)) ∧
    (ok = false → address ≠ 0 ∧ address_space_validate (p_as x) address 8 true (kern v) = Some false)) as (ok & v1 & -> & Hc1 & Hcalm & Hok & Hbad) end.
  { destruct (Z.eqb_spec address 0) as [->|Han].
    - exists true, v. split; [done|]. split; [done|]. split; [by split|]. split; [|done]. intros _. split; [done|by right].
    - destruct (status_spec v B l x X address (exit_status y) A7 Ha) as (ok & s1 & E & Hc1 & Hcalm & Hok & Hbad).
      exists ok, (set_kern s1 v). autorewrite with procs. cbn [kern set_kern].
      rewrite (pr_eq (mk_processes _ m R (Some (mk_page_table kr)) I n 1) parent_ x A1), E. cbn [mbind option_bind]. rewrite set_pkern_eq.
      split; [done|]. split; [done|]. split; [done|]. split; [|by auto]. intros E'. destruct (Hok E'). auto. }
  cbn [mbind option_bind]. destruct ok; cbn [negb].
  2:{ autorewrite with procs. eexists _, _, _. split; [reflexivity|]. pose proof (irq_restore_ram flags_ (kern v1)) as Hr.
      assert (calm X v (set_kern (irq_restore flags_ (kern v1)) v1)) as Hcalm' by (eapply calm_trans; [exact Hcalm|by apply calm_ram]).
      split; [done|]. split; [done|]. split; [done|]. left. split; [right; right; split; [done|by apply Hbad]|]. split; [done|].
      apply Hact; [by apply caller_ram|done]. }
  destruct (Hok eq_refl) as [Hword Hend].
  assert (unlink_child c (st v1 m R I n 1) = st v1 (unlinked parent_ c m) R I n 1) as ->.
  { unfold unlink_child. rewrite (pr_eq (st v1 m R I n 1) c y Hy), Hpy. done. }
  rewrite drop_lock_eq, pkern_eq.
  destruct (collect_spec v1 m R I n B l x parent_ X c y flags_ address (u64 (exit_status y)) Hc1 A1 Hy Hpy Hne A2 A3 Hst Hf (calm_table v v1 X Hcalm A6) Hword Ha Hend)
    as (v2 & -> & Hcalm2 & Hword2 & Hact2).
  eexists _, _, _. split; [reflexivity|]. split; [by eapply calm_trans|]. split; [done|]. split; [done|]. right. exists c, y. split; [|done]. by split.
Qed.
End Wait.

Section Theorems.
Context `{HeapContract} `{Backends} `{!QuietConsole}.

(** The local variable [status] of [waitpid]. *)
Record status_ok (U O : list Z) (NK : gmap (list Z) Z) (V : Z → Prop) (status_at : Z) : Prop := {
  so_positive : 0 < status_at;
  so_kept : ∀ a, V a → region U O a;
  so_apart : ∀ i, 0 <= i < 8 → local U O V (status_at + i) ∧ ∀ p, p ∈ map_vals NK → ¬ in_page p (status_at + i);
  so_kernel : ∀ p, p ∈ map_vals NK → p ∈ O;
}.

(** How [waitpid] ends. *)
Definition wait_done (U O : list Z) (lo hi kr : Z) (NK : gmap (list Z) Z) (V : Z → Prop) (ps : processes) (B : gset Z) (l : list Z)
    (x : process) (parent_ : Z) (X : list member) (pid_ address options : Z) (s : sched) (w : waited) (s' : sched) (ps' : processes) : Prop :=
  others V X (pvfs ps) (pvfs ps') ∧
  match w with
  | Waited r => s' = s ∧
      ((wait_refused x pid_ address options r ps ∧ procs ps' = procs ps ∧ acting U O lo hi kr NK ps' B l x parent_ X) ∨
       ∃ c y, options = 0 ∧ collected x parent_ c y pid_ address r ps ps' ∧
         acting U O lo hi kr NK ps' (B ∖ {[c]}) l (with_family (List.remove Z.eq_dec c (p_children x)) x) parent_ X)
  | WaitAsleep =>
      procs ps' = procs ps ∧ acting U O lo hi kr NK ps' B l x parent_ X ∧
      (∃ c, c ∈ p_children x ∧ wanted_child pid_ ps c ∧ p_state (pr ps c) ≠ PROCESS_REAPABLE) ∧
      (pid_ = -1 → ∀ c, c ∈ p_children x → p_state (pr ps c) ≠ PROCESS_REAPABLE) ∧
      sched_ok s' ∧ current s' ≠ current s ∧
      queues s' = <[child_wait parent_ := default [] (queues s !! child_wait parent_) ++ [current s]]> (queues s)
  end.

Lemma waitpid_spec (U O : list Z) (lo hi kr : Z) (NK : gmap (list Z) Z) (V : Z → Prop) (ps : processes) (B : gset Z) (l : list Z)
    (x : process) (parent_ : Z) (X : list member) (pid_ address options status_at : Z) (s : sched) :
  hi - lo < 2 ^ 62 → acting U O lo hi kr NK ps B l x parent_ X → status_ok U O NK V status_at →
  sched_ok s → current s ≠ idle_thread s → 0 <= address →
  ∃ w s' ps', process_waitpid parent_ pid_ address options status_at s ps = Some (w, s', ps') ∧
    wait_done U O lo hi kr NK V ps B l x parent_ X pid_ address options s w s' ps'.
Proof.
  unfold wait_done. intros Hspan Hact [S1 SV S2 S3] Hs Hi Ha. destruct ps as [v m R K I n L]. pose proof Hact as [A1 A2 A3 Hf A4 A5 A6 A7].
  unfold pkern in A6. cbn in A1, A4, A5, A6, A7. subst K L. unfold process_waitpid.
  destruct ((pid_ <=? 0) && negb (pid_ =? -1) || negb (options =? 0)) eqn:Ebad.
  { eexists _, _, _. split; [reflexivity|]. split; [apply others_refl|]. split; [done|]. left. split; [left; split; [done|]|done].
    apply orb_true_iff in Ebad as [E|E]; [left|right]; [apply andb_true_iff in E as [E1 E2]|]; rewrite ?negb_true_iff, ?Z.eqb_neq in *; [|done].
    apply Z.leb_le in E1. done. }
  apply orb_false_iff in Ebad as [_ Eopt]. apply negb_false_iff, Z.eqb_eq in Eopt. subst options.
  rewrite pkern_eq. destruct (irq_save (kern v)) as [flags_ s1] eqn:E1. autorewrite with procs. cbn [mbind option_bind].
  pose proof (irq_save_ram (kern v)) as Hr. rewrite E1 in Hr. cbn [snd] in Hr. set (v1 := set_kern s1 v).
  assert (acting U O lo hi kr NK (mk_processes v1 m R (Some (mk_page_table kr)) I n 0) B l x parent_ X) as Hact1.
  { split; try done; [|by apply caller_ram]. apply (calm_table kr NK V v v1 X); [by apply calm_ram|done]. }
  destruct (round_spec U O lo hi Hspan kr NK V SV status_at S1 S2 S3 v1 m R I n B l x parent_ X pid_ address flags_ s Hact1 Hs Hi Ha)
    as (w & s' & ps' & E & Hcalm & _ & Hres). exists w, s', ps'. split; [done|].
  split; [eapply others_trans; [apply (calm_ram NK V X v s1 Hr)|apply Hcalm]|].
  destruct w as [r|]; [|done]. destruct Hres as [-> [(Href & Hp & Ha')|(c & y & [C1 C2 C3 C4 C5 C6 C7] & Ha')]]; (split; [done|]).
  - left. split; [|done]. destruct Href as [[-> [?|?]]|[Hc|(-> & Hn & Hv)]]; [left; auto|done|right; left; exact Hc|]. right. right. split; [done|]. split; [done|].
    apply (validate_seen (p_as x) address 8 true s1 (kern v) false Hv); [|done|lia].
    apply (seen_buffer U O lo hi v1 B (fds x ++ l) (p_as x) X v B (fds x ++ l) X 0 0); [apply (ac_caller _ _ _ _ _ _ _ _ _ _ _ _ Hact1)|apply A7|intros i Hi'; lia|].
    intros b _. destruct Hr as (E' & _). cbn. by rewrite E'.
  - right. exists c, y. split; [done|]. split; [by split|done].
Qed.

(** C15. [waitpid] returns or goes to sleep.  It returns an error exactly for the reason
    the error names, with all processes as they were; or the process id of a child that
    was asked for and has ended, whose status is then in the caller's memory and whose
    record is given back.  It sleeps only when there is such a child and it has not
    ended (for any child: none has), and then in the queue that the end of a child
    empties.  Other processes and the kernel memory [V] are untouched
    and families stay in order. *)
Theorem process_waitpid_correct (U O : list Z) (lo hi kr : Z) (NK : gmap (list Z) Z) (V : Z → Prop) (ps : processes) (B : gset Z) (l : list Z)
    (x : process) (parent_ : Z) (X : list member) (pid_ address options status_at : Z) (s : sched) :
  hi - lo < 2 ^ 62 → acting U O lo hi kr NK ps B l x parent_ X → status_ok U O NK V status_at →
  sched_ok s → current s ≠ idle_thread s → 0 <= address →
  ∃ w s' ps', process_waitpid parent_ pid_ address options status_at s ps = Some (w, s', ps') ∧ others V X (pvfs ps) (pvfs ps') ∧
    match w with
    | Waited r => s' = s ∧
        ((wait_refused x pid_ address options r ps ∧ procs ps' = procs ps ∧ acting U O lo hi kr NK ps' B l x parent_ X) ∨
         ∃ c y, options = 0 ∧ collected x parent_ c y pid_ address r ps ps' ∧
           acting U O lo hi kr NK ps' (B ∖ {[c]}) l (with_family (List.remove Z.eq_dec c (p_children x)) x) parent_ X)
    | WaitAsleep =>
        procs ps' = procs ps ∧ acting U O lo hi kr NK ps' B l x parent_ X ∧
        (∃ c, c ∈ p_children x ∧ wanted_child pid_ ps c ∧ p_state (pr ps c) ≠ PROCESS_REAPABLE) ∧
        (pid_ = -1 → ∀ c, c ∈ p_children x → p_state (pr ps c) ≠ PROCESS_REAPABLE) ∧
        sched_ok s' ∧ current s' ≠ current s ∧
        queues s' = <[child_wait parent_ := default [] (queues s !! child_wait parent_) ++ [current s]]> (queues s)
    end.
Proof. apply waitpid_spec. Qed.

(** C16. [exit] returns to nobody and leaves no family in disorder: the process is a
    zombie with its status and without children; each of them has the first process as
    its parent now, or none, and the record of one that had ended is given back when
    nobody is left to collect it.  No other process but the first one changes.

    Assumed: the first process, unless it is the one that exits, has not exited
    ([init_runs]); [exited_init_inherits] shows what happens when it has. *)
Theorem process_exit_correct (ps : processes) (p status_ fault_ : Z) (x : process) :
  family_ok ps → procs ps !! p = Some x → process_lock ps = 0 → init_runs p ps →
  ∃ ps', exit_process p status_ fault_ ps = Some ps' ∧ family_ok ps' ∧
    procs ps' !! p = Some (with_family [] (with_exit PROCESS_ZOMBIE status_ fault_ x)) ∧
    (∀ d y, d ≠ p → d ≠ init_process ps → procs ps !! d = Some y →
       procs ps' !! d = if decide (d ∈ p_children x) then handed p (init_process ps) y else Some y).
Proof.
  intros Hf Hp Hl Hrun. assert (∃ ps', exit_process p status_ fault_ ps = Some ps') as [ps' E].
  { unfold exit_process. destruct (irq_save (pkern ps)) as [flags_ m1]. unfold take_process_lock. cbn [process_lock set_pkern set_pvfs]. rewrite Hl.
    cbn [spin_lock Z.eqb mbind option_bind]. eauto. }
  destruct (exit_spec p status_ fault_ x ps ps' Hf Hp Hrun E) as (Hf' & Hp' & Hd). exists ps'. do 3 (split; [done|]).
  intros d y Hdp Hdi Hy. rewrite Hd by done. case_decide; [|done]. by rewrite Hy.
Qed.

(** C17. When the thread of a process that has exited is gone, the process either has a
    parent: then its record stays for the parent to collect, with the status, and
    every thread that waits for a child of that parent is woken; or it has none: then
    the record is given back, after the kernel's observer, if there is one, has got the
    status. *)
Theorem process_thread_reaped_correct (ps : processes) (p : Z) (x : process) (s : sched) :
  family_ok ps → procs ps !! p = Some x → p_state x = PROCESS_ZOMBIE → process_lock ps = 0 → sched_ok s →
  ∃ s' ps', process_thread_reaped p s ps = Some (s', ps') ∧ family_ok ps' ∧
    (p_result x ≠ 0 → results ps' !! p_result x = Some (mk_result true (exit_status x) (fault_code x))) ∧
    if decide (p_parent x = 0) then procs ps' !! p = None
    else (∃ y, procs ps' !! p = Some y ∧ remains x y) ∧ default [] (queues s' !! child_wait (p_parent x)) = [] ∧
      ∃ z, procs ps' !! p_parent x = Some z ∧ p ∈ p_children z.
Proof.
  intros Hf Hp Hst Hl Hs. assert (∃ s' ps', process_thread_reaped p s ps = Some (s', ps')) as (s' & ps' & E).
  { unfold process_thread_reaped, settle_wakes. set (ps0 := release_runtime p ps).
    destruct (wake_queues_inv _ (woken (pvfs ps0)) s Hs) as (s0 & -> & Hs0 & _). cbn [mbind option_bind].
    set (ps1 := set_pvfs _ ps0). assert (process_lock ps1 = 0) as Hl1.
    { unfold ps1, ps0, release_runtime. destruct (address_space_destroy _ _). done. }
    unfold take_process_lock. rewrite Hl1. cbn [spin_lock Z.eqb mbind option_bind]. set (ps3 := update_process _ p _).
    assert (∃ s', (if negb (p_parent (pr ps3 p) =? 0) then wait_queue_wake_all (child_wait (p_parent (pr ps3 p))) s0 else Some s0) = Some s') as [s' ->].
    { destruct (negb _); [|eauto]. destruct (wake_all_inv _ (child_wait (p_parent (pr ps3 p))) s0 Hs0) as (s' & Es & _). eauto. }
    cbn [mbind option_bind]. case_if; eauto. }
  destruct (reaped_spec p x s ps s' ps' Hf Hp ltac:(by rewrite Hst) E) as (Hf' & Hwake & Hrec & Hres). exists s', ps'. do 3 (split; [done|]).
  case_decide as Hpar; [done|]. split; [done|]. destruct Hrec as (y & Hy & Hrem). split.
  - destruct (Hwake Hpar) as (s0 & E0 & Ew). destruct (wake_queues_inv _ (woken (pvfs (release_runtime p ps))) s Hs) as (s0' & E0' & Hs0 & _). rewrite E0 in E0'. injection E0' as <-.
    destruct (wake_all_inv _ (child_wait (p_parent x)) s0 Hs0) as (s1 & Es & _ & _ & Hq). rewrite Ew in Es. by injection Es as <-.
  - destruct Hrem as (_ & Ek & _). injection Ek as Ep _ _ _. destruct (fa_parent _ _ _ _ Hf' p y Hy) as (_ & z & Hz & Hin); [congruence|].
    exists z. by rewrite <- Ep.
Qed.
End Theorems.

(** * Families at work *)

Module FamilyDemo.
#[local] Existing Instance bench_heap.
#[local] Existing Instance bench_contract.
#[local] Existing Instance VfsDemo.quiet.
#[local] Existing Instance FdDemo.quiet_console.

Abbreviation kroot := AsDemo.kroot (only parsing).
Abbreviation low := ElfDemo.archive_at (only parsing).
Abbreviation high := (ElfDemo.archive_at + ElfDemo.archive_size) (only parsing).

(** ** A process with a child that has ended *)

Definition ended_child (ps : processes) (p o status_ : Z) (s : kstate) : processes :=
  mk_processes (set_kern s (pvfs ps))
    (alter (with_exit PROCESS_REAPABLE status_ 0) o (<[o := child_of (pr ps p) empty_as (next_pid ps) p]> (alter (adopt o) p (procs ps))))
    (results ps) (kernel_table ps) (init_process ps) (next_pid ps) 0.

Lemma with_ended_child U O lo hi kr NK ps B l x p X o s status_ :
  acting U O lo hi kr NK ps B l x p X → kmalloc SIZEOF_PROCESS (pkern ps) = (o, s) → o ≠ 0 → (∀ q, q ∈ map_vals NK → q ∈ O) →
  acting U O lo hi kr NK (ended_child ps p o status_ s) ({[o]} ∪ B) l (adopt o x) p X.
Proof.
  intros [A1 A2 A3 Hf A4 A5 A6 [[N Hw] Hrt Htab]] E Ho HNK. unfold ended_child. rewrite (pr_eq ps p x A1).
  destruct ps as [v m R K I n L]. unfold pkern, family_ok in *. cbn in A1, A2, Hf, A5, A6, Hw, Hrt. cbn [pvfs] in E. subst K. cbn [pvfs procs results kernel_table init_process next_pid].
  destruct (world_kmalloc U lo hi O v B _ _ SIZEOF_PROCESS Hw ltac:(lia)) as (o' & s' & E' & Hk & Hnew & Hw'). rewrite E in E'. injection E' as <- <-.
  rewrite (proj2 (Z.eqb_neq _ _) Ho) in Hw'. specialize (Hnew Ho).
  assert (o ∉ B) as HoB by (unfold world_objects in Hnew; clear -Hnew; set_solver).
  assert (m !! o = None) as Hmo by (apply not_elem_of_dom; clear -HoB A2; set_solver). assert (p ≠ o) as Hpo by congruence.
  pose proof (family_fork I m p x o empty_as n Hf A1 A3 Hmo Ho) as Hf1.
  split; cbn; try done.
  - rewrite lookup_alter_ne, lookup_insert_ne, lookup_alter_eq, A1 by done. done.
  - rewrite dom_alter_L, dom_insert_L, dom_alter_L. clear -A2. set_solver.
  - unfold family_ok. cbn. apply (family_state 0 0 0 0 _ _ _ (child_of x empty_as n p)); [done|apply lookup_insert_eq|by left|by left|done|].
    intros _ _. cbn. intros ->. by rewrite (fa_null _ _ _ _ Hf) in A1.
  - apply (calm_table kr NK (λ _, False) v (set_kern s v) X); [|done]. apply (calm_kept U O NK (λ _, False) (λ a (F : False), match F with end) HNK). eapply kept_sub; [|exact Hk].
    intros q. unfold world_pages. rewrite all_pages_cons, !elem_of_app. tauto.
  - split; [by exists N| |done]. apply (rooted_same v _ x); try done. by apply nodes_from_same.
Qed.

Definition record_at : Z * kstate := kmalloc SIZEOF_PROCESS (pkern ProcessDemo.ps1).
Definition ended : Z := fst record_at.
Definition waiting : processes := ended_child ProcessDemo.ps1 ProcessDemo.parent ended 7 (snd record_at).

Lemma ended_nonzero : ended ≠ 0.
Proof. vm_compute. discriminate. Qed.

Lemma waiting_acting :
  acting ram [kroot] low high kroot {[ [] := kroot ]} waiting ({[ended]} ∪ {[ProcessDemo.parent]}) []
    (adopt ended (pr ProcessDemo.ps1 ProcessDemo.parent)) ProcessDemo.parent [].
Proof.
  apply with_ended_child.
  - exact ProcessDemo.first_acting.
  - unfold ended, record_at. apply surjective_pairing.
  - exact ended_nonzero.
  - intros p Hp. rewrite map_vals_root in Hp. exact Hp.
Qed.

Definition status_slot : Z := 4194304.

Lemma status_slot_ok : status_ok ram [kroot] {[ [] := kroot ]} ProcessDemo.in_trap_frame status_slot.
Proof.
  split; [done|intros a Ha; apply VfsDemo.low_region; unfold ProcessDemo.in_trap_frame, ProcessDemo.trap_frame_at in Ha; lia| |intros p Hp; rewrite map_vals_root in Hp; exact Hp].
  intros i Hi. split; [split; [apply (FdDemo.frame_buffer status_slot 8)|unfold ProcessDemo.in_trap_frame, ProcessDemo.trap_frame_at]; unfold status_slot; lia|].
  intros p Hp. rewrite map_vals_root in Hp. apply list_elem_of_singleton in Hp as ->. unfold in_page.
  rewrite phys_to_virt_page by done. unfold status_slot, AsDemo.kroot in *. lia.
Qed.

Example wait_result :
  match process_waitpid ProcessDemo.parent (-1) 0 0 status_slot Demo.created.2 waiting with
  | Some (Waited r, _, ps) => (r, base.size (procs ps))
  | _ => (0, 0%nat)
  end = (2, 1%nat).
Proof. vm_compute. reflexivity. Qed.

Lemma process_waitpid_correct_witness :
  ∃ s' ps', process_waitpid ProcessDemo.parent (-1) 0 0 status_slot Demo.created.2 waiting = Some (Waited 2, s', ps') ∧
    ∃ c y, procs ps' = delete c (unlinked ProcessDemo.parent c (procs waiting)) ∧ p_state y = PROCESS_REAPABLE.
Proof.
  destruct (process_waitpid_correct ram [kroot] low high kroot {[ [] := kroot ]} ProcessDemo.in_trap_frame waiting ({[ended]} ∪ {[ProcessDemo.parent]}) []
    (adopt ended (pr ProcessDemo.ps1 ProcessDemo.parent)) ProcessDemo.parent [] (-1) 0 0 status_slot Demo.created.2 FdDemo.span waiting_acting status_slot_ok
    Demo.created_ok ltac:(vm_compute; discriminate) ltac:(lia)) as (w & s' & ps' & E & _ & Hw).
  pose proof wait_result as Hr. rewrite E in Hr. destruct w as [r|]; [|discriminate Hr]. injection Hr as -> _. exists s', ps'. split; [exact E|].
  destruct Hw as [_ [(Href & _)|(c & y & _ & [_ _ C3 _ _ _ C7] & _)]]; [|exists c, y; split; [exact C7|exact C3]].
  destruct Href as [[Hb _]|[[Hb _]|[Hb _]]]; discriminate Hb.
Defined.

(** ** Three generations *)

Definition person (parent_ : Z) (children_ : list Z) (state_ : process_state) (result_ : Z) : process :=
  mk_process empty_as no_fds 0 0 0 parent_ children_ state_ 7 0 result_.
Definition people (i : Z) (m : gmap Z process) : processes := mk_processes (pvfs ProcessDemo.ps1) m ∅ (Some (mk_page_table kroot)) i 9 0.

(** The first process, its child, and the child's child, that has ended. *)
Definition generations : gmap Z process :=
  {[ 4096 := person 0 [8192] PROCESS_RUNNING 1; 8192 := person 4096 [12288] PROCESS_RUNNING 0; 12288 := person 8192 [] PROCESS_REAPABLE 0 ]}.

Lemma generations_cases p x : generations !! p = Some x →
  p = 4096 ∧ x = person 0 [8192] PROCESS_RUNNING 1 ∨ p = 8192 ∧ x = person 4096 [12288] PROCESS_RUNNING 0 ∨ p = 12288 ∧ x = person 8192 [] PROCESS_REAPABLE 0.
Proof. unfold generations. intros [[<- <-]|[_ [[<- <-]|[_ [<- <-]%lookup_singleton_Some]]%lookup_insert_Some]]%lookup_insert_Some; auto. Qed.

Lemma generations_family : family 0 0 4096 generations.
Proof.
  split.
  - intros p x c [[-> ->]|[[-> ->]|[-> ->]]]%generations_cases Hc; cbn in Hc; [| |by apply not_elem_of_nil in Hc];
      apply list_elem_of_singleton in Hc as ->; eexists; (split; [reflexivity|done]).
  - intros p x [[-> ->]|[[-> ->]|[-> ->]]]%generations_cases Hn; [done| |]; (split; [done|]); eexists; (split; [reflexivity|by left]).
  - intros p x [[-> ->]|[[-> ->]|[-> ->]]]%generations_cases; cbn; repeat constructor; by intros ?%not_elem_of_nil.
  - reflexivity.
  - intros p x [[-> ->]|[[-> ->]|[-> ->]]]%generations_cases; done.
  - intros p x [[-> ->]|[[-> ->]|[-> ->]]]%generations_cases; done.
  - intros p x [[-> ->]|[[-> ->]|[-> ->]]]%generations_cases; done.
  - intros _. eexists. split; [reflexivity|done].
Qed.

(** The child exits: the first process inherits the record of its child. *)
Lemma process_exit_correct_witness :
  ∃ ps', exit_process 8192 3 0 (people 4096 generations) = Some ps' ∧ procs ps' !! 12288 = Some (person 4096 [] PROCESS_REAPABLE 0) ∧
    procs ps' !! 8192 = Some (with_exit PROCESS_ZOMBIE 3 0 (person 4096 [] PROCESS_RUNNING 0)).
Proof.
  destruct (process_exit_correct (people 4096 generations) 8192 3 0 (person 4096 [12288] PROCESS_RUNNING 0)) as (ps' & E & _ & Hp & Hd).
  - exact generations_family.
  - reflexivity.
  - reflexivity.
  - intros _ _. exists (person 0 [8192] PROCESS_RUNNING 1). split; reflexivity.
  - exists ps'. split; [exact E|]. split; [|exact Hp].
    rewrite (Hd 12288 (person 8192 [] PROCESS_REAPABLE 0)); [|discriminate|discriminate|reflexivity].
    rewrite decide_True by (by left). reflexivity.
Defined.

Definition after_exit : processes := default (people 4096 generations) (exit_process 8192 3 0 (people 4096 generations)).

Lemma after_exit_spec :
  family_ok after_exit ∧ procs after_exit !! 8192 = Some (with_family [] (with_exit PROCESS_ZOMBIE 3 0 (person 4096 [12288] PROCESS_RUNNING 0))).
Proof.
  assert (exit_process 8192 3 0 (people 4096 generations) = Some after_exit) as E by reflexivity.
  destruct (exit_spec 8192 3 0 (person 4096 [12288] PROCESS_RUNNING 0) (people 4096 generations) after_exit) as (Hf & Hp & _).
  - exact generations_family.
  - reflexivity.
  - intros _ _. exists (person 0 [8192] PROCESS_RUNNING 1). split; reflexivity.
  - exact E.
  - split; [exact Hf|exact Hp].
Qed.

(** Its thread is gone: its status waits for the first process. *)
Lemma process_thread_reaped_correct_witness :
  ∃ s' ps' y, process_thread_reaped 8192 Demo.created.2 after_exit = Some (s', ps') ∧ procs ps' !! 8192 = Some y ∧
    p_state y = PROCESS_REAPABLE ∧ exit_status y = 3.
Proof.
  destruct after_exit_spec as [Hf Hp].
  destruct (process_thread_reaped_correct after_exit 8192 _ Demo.created.2 Hf Hp eq_refl eq_refl Demo.created_ok) as (s' & ps' & E & _ & _ & Hres).
  rewrite decide_False in Hres by discriminate. destruct Hres as [(y & Hy & R1 & _ & _ & R2 & _) _]. exists s', ps', y.
  split; [exact E|]. split; [exact Hy|]. split; [exact R1|exact R2].
Defined.

(** ** What goes wrong when the first process is not there *)

(** [exit] does not look at the state of the first process.  When that has exited but
    its thread is not yet gone, it still inherits children; its record is then given
    back, and the parent of the child points to it. *)
Theorem exited_init_inherits :
  match exit_process 4096 0 0 (people 4096 generations) with
  | Some ps1 =>
      match exit_process 8192 3 0 ps1 with
      | Some ps2 =>
          match process_thread_reaped 4096 Demo.created.2 ps2 with
          | Some (_, ps3) => (p_parent <$> procs ps3 !! 12288, bool_decide (procs ps3 !! 4096 = None))
          | None => (None, false)
          end
      | None => (None, false)
      end
  | None => (None, false)
  end = (Some 4096, true).
Proof. vm_compute. reflexivity. Qed.

(** The first process waits for any child: its only child is running. *)
Definition lineage : gmap Z process :=
  {[ 4096 := person 0 [8192] PROCESS_RUNNING 1; 8192 := person 4096 [12288] PROCESS_RUNNING 0;
     12288 := person 8192 [16384] PROCESS_RUNNING 0; 16384 := person 12288 [] PROCESS_REAPABLE 0 ]}.
Definition thread_of (p : Z) (st : thread_state) : thread := mk_thread 0 0 (Some p) 0 st 0 0 0 0 3 false.
Definition idle_one : thread := mk_thread 0 0 None 0 THREAD_RUNNABLE 0 0 0 0 2 true.
Definition sleeping_init : sched :=
  mk_sched {[ 64 := thread_of 4096 THREAD_SLEEPING; 128 := thread_of 12288 THREAD_RUNNING; 192 := idle_one ]} [64; 128; 192]
    {[ child_wait 4096 := [64] ]} 128 192 0 0 1 true (mk_page_table kroot) 0.

(** A grandchild exits and leaves it the record of a child that has ended: the call
    could return now, but nobody wakes it. *)
Theorem inherited_record_wakes_nobody :
  p_state (pr (people 4096 lineage) (find_child 4096 (-1) (people 4096 lineage))) = PROCESS_RUNNING ∧
  match process_exit 12288 0 0 sleeping_init (people 4096 lineage) with
  | Some (s, ps) =>
      p_state (pr ps (find_child 4096 (-1) ps)) = PROCESS_REAPABLE ∧ queues s !! child_wait 4096 = Some [64] ∧
      state_of s 64 = Some THREAD_SLEEPING
  | None => False
  end.
Proof. vm_compute. repeat split. Qed.
End FamilyDemo.
