(* ===== verification/UserInv.v ===== *)
(** The system calls of [src/kernel/user.c], one by one, in the state in which a process
    acts: what they keep of the kernel and of the other processes. *)
From S2P Require Import Prelude Machine Runtime PageAlloc Vm VmInv VmProps HeapSpec Ownership AddressSpace AddressSpaceInv AddressSpaceProps AddressSpaceClone AddressSpaceAreas AddressSpaceMaps AddressSpaceBrk AddressSpaceCopy.
From S2P Require Import Outcome Log Pipe Scheduler SchedulerProps SchedulerThms Vfs VfsInit VfsTree VfsInv VfsFiles VfsOpen VfsPipe VfsIo Elf ElfInv World Process Fd Wakes User FdProps FdCalls FdIo FdThms ProcessInv ProcessFork ProcessExec ProcessFamily ProcessThms FamilyThms.

(** * Files as [mmap] sees them *)

Lemma memcpy_out n : ∀ m d s a, ¬ (d <= a < d + Z.of_nat n) → load8 (memcpy m d s n) a = load8 m a.
Proof.
  induction n as [|n IH]; intros m d s a Ha; [done|].
  change (memcpy m d s (S n)) with (memcpy (store8 m d (load8 m s)) (d + 1) (s + 1) n).
  rewrite IH by lia. rewrite load8_store8, decide_False by lia. done.
Qed.

(** A read writes nothing but the buffer. *)
Definition only_buffer (buffer size_ : Z) (s s' : kstate) : Prop :=
  same_on (λ a, ¬ (buffer <= a < buffer + size_)) (mem s) (mem s') ∧
  free_list s' = free_list s ∧ free_pages s' = free_pages s ∧ total_pages s' = total_pages s.

Lemma pread_loop_frame n buffer size_ fuel : ∀ off done_ s r s',
  pread_loop fuel n buffer off done_ size_ s = Some (r, s') → 0 <= done_ → only_buffer buffer size_ s s'.
Proof.
  induction fuel as [|fuel IH]; intros off done_ s r s'; cbn [pread_loop]; destruct (Z.geb_spec done_ size_) as [|Hlt]; try done;
    try (intros [= <- <-] _; done).
  destruct (blocks n !! _) as [page|]; [|done]. cbv zeta. rewrite land_page_mask.
  set (part := if _ >? size_ - done_ then _ else _). set (m1 := if negb (page =? 0) then _ else _).
  assert (0 < part <= size_ - done_) as Hp.
  { unfold part. destruct (Z.gtb_spec (PAGE_SIZE - off mod 4096) (size_ - done_)); pose proof (Z.mod_pos_bound off 4096); lia. }
  intros E Hd. destruct (IH _ _ _ _ _ E ltac:(lia)) as (Hm & E1 & E2 & E3). split; [|done]. intros a Ha. rewrite (Hm a Ha).
  cbn [mem set_mem]. unfold m1. destruct (negb (page =? 0)); [rewrite memcpy_out by lia; done|].
  rewrite memset_load8, decide_False by lia. done.
Qed.

Lemma regular_pread_frame n buffer size_ off s r s' :
  regular_pread n buffer size_ off s = Some (r, s') → only_buffer buffer size_ s s'.
Proof.
  unfold regular_pread. destruct (type n =? DT_DIR); [by intros [= <- <-]|]. destruct (Z.geb_spec off (size n)); [by intros [= <- <-]|].
  set (k := if size_ >? size n - off then _ else _). assert (k <= size_) as Hk by (unfold k; destruct (Z.gtb_spec size_ (size n - off)); lia).
  assert (∀ s', only_buffer buffer k s s' → only_buffer buffer size_ s s') as Hsub.
  { intros s2 (Hm & Hr). split; [|done]. intros a Ha. apply Hm. lia. }
  destruct (negb (data n =? 0)).
  - intros [= <- <-]. split; [|done]. intros a Ha. cbn [mem set_mem]. apply memcpy_out. lia.
  - intros E. apply Hsub. by apply (pread_loop_frame n buffer k file_fuel off 0 s r s').
Qed.

#[export] Instance vfs_contract v : @FileContract (vfs_access v).
Proof.
  constructor. intros f ptr n offset s. cbn [AddressSpace.file_pread vfs_access]. unfold file_pread. cbn [fl files set_kern kern vn vnodes].
  destruct (_ || _); [done|]. destruct (ops _); try done. unfold irq_save. cbv zeta iota beta.
  destruct (regular_pread _ ptr n offset _) as [[r s']|] eqn:E; [|done]. cbn [snd kern set_kern].
  destruct (regular_pread_frame _ _ _ _ _ _ _ E) as (Hm & E1 & E2 & E3).
  match goal with |- context [irq_restore ?f s'] => destruct (irq_restore_ram f s') as (R1 & R2 & R3 & R4) end.
  rewrite R1, R2, R3, R4. done.
Qed.

(** * What a call on descriptors leaves of a process *)

Section Kin.
Context `{KernelHeap} `{Backends}.

Lemma openat_kin path_at p fd address flags_ v r p' v' : fd_openat path_at p fd address flags_ v = Some (r, p', v') → kin p' = kin p.
Proof.
  unfold fd_openat. destruct (path_copy _ _ _ _) as [[e s]|]; [|done]. cbn [mbind option_bind]. case_if; [by intros [= _ <- _]|]. cbv zeta.
  destruct (if negb _ && _ then _ else _) as [?|base]; [by intros [= _ <- _]|]. case_if; [by intros [= _ <- _]|]. case_if; [by intros [= _ <- _]|].
  destruct (vfs_openat _ _ _ _ _) as [[[e2 f] v2]|]; [|done]. cbn [mbind option_bind]. case_if; by intros [= _ <- _].
Qed.

Lemma pipe_kin pair_at p address v r p' v' : fd_pipe pair_at p address v = Some (r, p', v') → kin p' = kin p.
Proof.
  unfold fd_pipe. destruct (address_space_validate _ _ _ _ _) as [ok|]; [|done]. cbn [mbind option_bind]. case_if; [by intros [= _ <- _]|].
  cbv zeta. case_if; [by intros [= _ <- _]|]. case_if; [by intros [= _ <- _]|]. destruct (pipe_create v) as [[[e f] g] v1].
  case_if; [by intros [= _ <- _]|]. destruct (copy_to_user _ _ _ _ _) as [[? ?]|]; [|done]. cbn [mbind option_bind]. by intros [= _ <- _].
Qed.

Lemma chdir_kin path_at p address v r p' v' : fd_chdir path_at p address v = Some (r, p', v') → kin p' = kin p.
Proof.
  unfold fd_chdir. destruct (path_copy _ _ _ _) as [[e s]|]; [|done]. cbn [mbind option_bind]. case_if; [by intros [= _ <- _]|]. cbv zeta.
  destruct (vfs_resolve _ _ _ _ _) as [[?|n]|]; [by intros [= _ <- _]| |done]. cbn [mbind option_bind]. case_if; by intros [= _ <- _].
Qed.

Lemma fd_syscall_kin path_at buffer_at pair_at entry_at thread f p v r p' v' :
  fd_syscall path_at buffer_at pair_at entry_at thread f p v = Some (r, p', v') → kin p' = kin p.
Proof.
  assert (∀ e : option (Z * vfs), ('(x, v) ← e; Some (Answer x, p, v)) = Some (r, p', v') → kin p' = kin p) as Hsame.
  { intros [[x w]|]; [|done]. by intros [= _ <- _]. }
  assert (∀ e : option (answer * vfs), ('(x, v) ← e; Some (x, p, v)) = Some (r, p', v') → kin p' = kin p) as Hsame'.
  { intros [[x w]|]; [|done]. by intros [= _ <- _]. }
  assert (∀ e : option (Z * process * vfs), (∀ x y w, e = Some (x, y, w) → kin y = kin p) →
    ('(x, y, v) ← e; Some (Answer x, y, v)) = Some (r, p', v') → kin p' = kin p) as Hplain.
  { intros [[[x y] w]|] He; [|done]. intros [= _ <- _]. by eapply He. }
  unfold fd_syscall. cbv zeta. case_if; [apply Hsame'|]. case_if; [apply Hsame'|].
  case_if. { apply Hplain. intros x y w. unfold fd_close. case_if; by intros [= _ <- _]. }
  case_if. { apply Hplain. intros x y w. unfold fd_dup. repeat case_if; by intros [= _ <- _]. }
  case_if. { apply Hplain. intros x y w. unfold fd_dup. repeat case_if; by intros [= _ <- _]. }
  case_if; [apply Hplain; intros x y w Ex; by eapply openat_kin|]. case_if; [apply Hplain; intros x y w Ex; by eapply pipe_kin|].
  case_if; [apply Hsame|]. case_if; [apply Hplain; intros x y w Ex; by eapply chdir_kin|]. case_if; [apply Hsame|]. case_if; [apply Hsame|].
  by intros [= _ <- _].
Qed.
End Kin.

(** * The setting of a trap *)

Section Setting.
Context `{HeapContract} `{Backends} `{!QuietConsole}.
Context (U O : list Z) (lo hi kr : Z) (NK : gmap (list Z) Z) (W : Z → Prop).

(** The memory [W] that stays: the frame of the trap, the kernel's page table, and
    whatever else is nobody's and apart from the local variables of the calls. *)
Record setting (path_at buffer_at pair_at entry_at child_frame status_at frame : Z) : Prop := {
  st_span : hi - lo < 2 ^ 62;
  st_kept : ∀ a, W a → region U O a;
  st_frame : ∀ i, 0 <= i < SIZEOF_FRAME → W (frame + i) ∧ ∀ p, p ∈ map_vals NK → ¬ in_page p (frame + i);
  st_kernel : ∀ p, p ∈ map_vals NK → p ∈ O;
  st_table : ∀ p a, p ∈ map_vals NK → in_page p a → W a;
  st_scratch : scratch U O lo hi W path_at buffer_at pair_at entry_at;
  st_child : child_frame ≠ 0 ∧ child_frame + SIZEOF_FRAME <= frame ∧ ∀ i, 0 <= i < SIZEOF_FRAME → local U O W (child_frame + i);
  st_status : 0 < status_at ∧ ∀ i, 0 <= i < 8 → local U O W (status_at + i);
}.

Context (path_at buffer_at pair_at entry_at child_frame status_at frame : Z).
Context (Hset : setting path_at buffer_at pair_at entry_at child_frame status_at frame).

Abbreviation acts := (acting U O lo hi kr NK).
Abbreviation calls := (caller U O lo hi).

Lemma setting_frames : frames_ok U O NK W frame child_frame.
Proof using Hset.
  destruct Hset as [_ S2 S3 S4 S5 _ (S7 & S8 & S9) _]. split; try done.
  - intros i Hi. split; [by apply S9|]. intros p Hp Ha. destruct (S9 i Hi) as [_ Hn]. apply Hn. by apply (S5 p).
  - intros i Hi. apply S2, S3, Hi.
Qed.

Lemma setting_status : status_ok U O NK W status_at.
Proof using Hset.
  destruct Hset as [_ S2 S3 S4 S5 _ _ (S7 & S8)]. split; try done.
  intros i Hi. split; [by apply S8|]. intros p Hp Ha. destruct (S8 i Hi) as [_ Hn]. apply Hn. by apply (S5 p).
Qed.

(** ** The process between two states *)

(** The process [p] is [x'] now, in the state [v'] of everything below. *)
Definition now (p : Z) (x' : process) (v' : vfs) (ps : processes) : processes := set_procs (<[p := x']> (procs ps)) (set_pvfs v' ps).

Lemma table_kept X v v' : others W X v v' → pt_rep whole (kern v) kr NK → pt_rep whole (kern v') kr NK.
Proof using Hset.
  intros [_ Hw]. apply pt_rep_same. intros p Hp a Ha. apply Hw. by apply (st_table _ _ _ _ _ _ _ Hset p).
Qed.

Lemma acting_now ps B l l' x x' p X v' :
  acts ps B l x p X → calls v' B l' x' X → kin x' = kin x → others W X (pvfs ps) v' →
  acts (now p x' v' ps) B l' x' p X.
Proof using Hset.
  intros [A1 A2 A3 A4 A5 A6 A7 A8] Hc Hk Ho. split; cbn; try done.
  - apply lookup_insert_eq.
  - rewrite dom_insert_L. assert (p ∈ dom (procs ps)) as Hp by (apply elem_of_dom; eauto). clear -Hp A2. set_solver.
  - unfold kin in Hk. congruence.
  - unfold family_ok in *. cbn. eapply family_kin; [|exact A4]. intros q. destruct (decide (q = p)) as [->|Hq].
    + by rewrite lookup_insert_eq, A1; cbn; rewrite Hk.
    + by rewrite lookup_insert_ne by done.
  - by apply (table_kept X (pvfs ps)).
Qed.

Lemma now_same ps p x : procs ps !! p = Some x → now p x (pvfs ps) ps = ps.
Proof. intros Hx. destruct ps. unfold now, set_procs, set_pvfs. cbn in *. by rewrite insert_id. Qed.

Lemma now_kern ps p x s : procs ps !! p = Some x → set_pkern s ps = now p x (set_kern s (pvfs ps)) ps.
Proof. intros Hx. destruct ps. unfold now, set_pkern, set_procs, set_pvfs. cbn in *. by rewrite insert_id. Qed.

Lemma now_update ps p x f s : procs ps !! p = Some x → update_process f p (set_pkern s ps) = now p (f x) (set_kern s (pvfs ps)) ps.
Proof.
  intros Hx. destruct ps. unfold now, update_process, set_pkern, set_procs, set_pvfs. cbn in *. f_equal.
  apply map_eq. intros q. destruct (decide (q = p)) as [->|Hq]; [by rewrite lookup_alter_eq, lookup_insert_eq, Hx|].
  by rewrite lookup_alter_ne, lookup_insert_ne.
Qed.

(** ** Calls on descriptors *)

Lemma call_fresh ps B l x p X o s :
  acts ps B l x p X → kmalloc SIZEOF_PIPE (pkern ps) = (o, s) → o ≠ 0 → pipes (pvfs ps) !! o = None.
Proof.
  intros Ha E Ho. destruct (ac_caller _ _ _ _ _ _ _ _ _ _ _ _ Ha) as [[N Hw] _ _].
  destruct (world_kmalloc U lo hi O (pvfs ps) B _ _ SIZEOF_PIPE Hw ltac:(lia)) as (o' & s' & E' & _ & Hnew & _).
  unfold pkern in E. rewrite E in E'. injection E' as <- <-. apply not_elem_of_dom. specialize (Hnew Ho). unfold world_objects, vfs_objects in Hnew.
  clear -Hnew. set_solver.
Qed.

Lemma descriptor_step ps B l x p X s :
  acts ps B l x p X → countable (pvfs ps) → Z.of_nat (length (fds x ++ l)) < 2 ^ 64 - 1 →
  ∃ a x' v', fd_syscall path_at buffer_at pair_at entry_at (current s) frame x (pvfs ps) = Some (a, x', v') ∧ others W X (pvfs ps) v' ∧
    call_wakes (frame_x (mem (pkern ps)) frame 17 =? SYS_WRITE) (current s) a (pvfs ps) v' ∧
    match a with
    | Answer _ => acts (now p x' v' ps) B l x' p X
    | Blocked _ g d => x' = x ∧ g ∈ fds x ∧ g ≠ 0 ∧ 0 <= d ∧ acts (now p x v' ps) B (g :: l) x p X
    end.
Proof using All.
  intros Ha Hcnt Hlen. destruct Hset as [S1 S2 _ _ _ S6 _ _].
  destruct (fd_syscall_spec U O lo hi W path_at buffer_at pair_at entry_at (pvfs ps) B l x X (current s) frame S1 S2 S6 (ac_caller _ _ _ _ _ _ _ _ _ _ _ _ Ha) Hcnt Hlen)
    as (a & x' & v' & E & Ho & Eas & Hr). exists a, x', v'. split; [done|]. split; [done|]. pose proof (fd_syscall_kin _ _ _ _ _ _ _ _ _ _ _ E) as Hk.
  split; [eapply fd_syscall_wakes; [|exact E]; intros o m; by eapply call_fresh|].
  destruct a as [r|t g d]; [by eapply acting_now|]. destruct Hr as (-> & Hg & Hg0 & Hd & Hc). do 4 (split; [done|]). by eapply acting_now.
Qed.

(** ** Calls that change the memory of the process *)

Lemma space_call v B l x X :
  calls v B l x X → ∃ Q B', space U (Q ++ O) B' (kern v) (p_as x) ∧ as_wf (p_as x) ∧
    ∀ s a', space U (Q ++ O) B' s a' → as_wf a' → kept U (Q ++ O) (mem (kern v)) (mem s) →
      calls (set_kern s v) B l (with_as a' x) X ∧ others W X v (set_kern s v).
Proof using Hset.
  intros [[N Hw] Hrt Htab]. destruct (world_space U O lo hi v B (fds x ++ l) (p_as x) N X Hw) as (Hs & Hwf & _).
  unfold world_pages in Hs. rewrite app_assoc in Hs. exists (block_pages v ++ all_pages X), (world_objects v B X). split; [done|]. split; [done|].
  intros s a' Hs' Hwf' Hk. rewrite <- app_assoc in Hs'.
  assert (pages_same (all_pages X) (mem (kern v)) (mem s)) as Hp.
  { eapply pages_same_kept; [exact Hk|]. intros q Hq. rewrite !elem_of_app. auto. }
  destruct (world_add U O lo hi v B (fds x ++ l) X s a') as [N' Hw1]; try done; [eapply context_tail, Hw|].
  split; [|split; [done|]; intros a Ha; apply Hk, region_app; by apply (st_kept _ _ _ _ _ _ _ Hset)].
  split; [by exists N'| |done]. apply (rooted_same v _ x); try done. by apply nodes_from_same.
Qed.

Lemma change_step ps B l x p X r a' s :
  acts ps B l x p X → calls (set_kern s (pvfs ps)) B l (with_as a' x) X → others W X (pvfs ps) (set_kern s (pvfs ps)) →
  change_space p (r, a', s) ps = (r, now p (with_as a' x) (set_kern s (pvfs ps)) ps) ∧
  acts (now p (with_as a' x) (set_kern s (pvfs ps)) ps) B l (with_as a' x) p X.
Proof using Hset.
  intros Ha Hc Ho. split; [|by eapply acting_now]. unfold change_space. f_equal. apply now_update, Ha.
Qed.

Lemma brk_step ps B l x p X requested :
  acts ps B l x p X → 0 <= requested →
  ∃ r a' s, address_space_brk (p_as x) requested (pkern ps) = (r, a', s) ∧
    calls (set_kern s (pvfs ps)) B l (with_as a' x) X ∧ others W X (pvfs ps) (set_kern s (pvfs ps)).
Proof using Hset.
  intros Ha Hr. destruct (space_call _ B l x X (ac_caller _ _ _ _ _ _ _ _ _ _ _ _ Ha)) as (Q & B' & Hs & Hwf & Hclose).
  destruct (brk_spec U (Q ++ O) B' (pkern ps) (p_as x) requested Hs Hwf Hr) as (r & a' & s & E & Hs' & Hwf' & Hk & _).
  exists r, a', s. split; [done|]. apply Hclose; [done|done|]. eapply kept_sub; [|exact Hk]. intros q Hq.
  unfold common, owned. apply list_elem_of_filter. rewrite !elem_of_app. rewrite elem_of_app in Hq. tauto.
Qed.

Lemma munmap_step ps B l x p X start_ length_ :
  acts ps B l x p X → 0 <= start_ → 0 <= length_ →
  ∃ r a' s, address_space_munmap (p_as x) start_ length_ (pkern ps) = Some (r, a', s) ∧
    calls (set_kern s (pvfs ps)) B l (with_as a' x) X ∧ others W X (pvfs ps) (set_kern s (pvfs ps)).
Proof using Hset.
  intros Ha Hr Hl. destruct (space_call _ B l x X (ac_caller _ _ _ _ _ _ _ _ _ _ _ _ Ha)) as (Q & B' & Hs & Hwf & Hclose).
  destruct (munmap_spec U (Q ++ O) B' (pkern ps) (p_as x) start_ length_ Hs Hwf Hr Hl) as (r & a' & s & E & Hs' & Hwf' & Hk & _).
  exists r, a', s. split; [done|]. apply Hclose; [done|done|]. eapply kept_sub; [|exact Hk]. intros q Hq. unfold owned. apply elem_of_app. by right.
Qed.

Lemma mmap_step ps B l x p X address length_ prot flags_ file_ offset_ :
  acts ps B l x p X → 0 <= length_ →
  ∃ r a' s, address_space_mmap (H0 := vfs_access (pvfs ps)) (p_as x) address length_ prot flags_ file_ offset_ (pkern ps) = (r, a', s) ∧
    calls (set_kern s (pvfs ps)) B l (with_as a' x) X ∧ others W X (pvfs ps) (set_kern s (pvfs ps)).
Proof using Hset.
  intros Ha Hl. destruct (space_call _ B l x X (ac_caller _ _ _ _ _ _ _ _ _ _ _ _ Ha)) as (Q & B' & Hs & Hwf & Hclose).
  destruct (mmap_spec U (Q ++ O) B' (pkern ps) (p_as x) address length_ prot flags_ file_ offset_ Hs Hwf Hl) as (r & a' & s & E & Hs' & Hwf' & Hk & _).
  exists r, a', s. split; [done|]. apply Hclose; [done|done|]. eapply kept_sub; [|exact Hk]. intros q Hq. unfold owned. apply elem_of_app. by right.
Qed.

(** ** Giving up the processor *)

Lemma ram_step ps B l x p X m :
  acts ps B l x p X → same_ram (pkern ps) m → acts (set_pkern m ps) B l x p X ∧ others W X (pvfs ps) (pvfs (set_pkern m ps)).
Proof using Hset.
  intros Ha Hr. assert (others W X (pvfs ps) (set_kern m (pvfs ps))) as Ho.
  { exact (proj1 (calm_ram NK W X (pvfs ps) m Hr)). }
  split; [|exact Ho]. rewrite (now_kern ps p x m (ac_parent _ _ _ _ _ _ _ _ _ _ _ _ Ha)).
  eapply acting_now; [exact Ha| |done|exact Ho]. apply caller_ram; [done|]. apply Ha.
Qed.

(** ** Waking and sleeping *)

Lemma wake_queues_ticks qs : ∀ s s', wake_queues qs s = Some s' → tick_count s' = tick_count s.
Proof.
  assert (∀ q n s s', wake_loop n q s = Some s' → tick_count s' = tick_count s) as Hloop.
  { intros q n. induction n as [|n IH]; intros s s'; cbn [wake_loop]; [done|]. unfold wait_queue_wake_one.
    destruct (queues s !! q) as [[|t l]|]; [by intros [= <-]| |by intros [= <-]]. intros E%IH. rewrite E. unfold scheduler_wake_node. by case_if. }
  induction qs as [|q qs IH]; intros s s'; cbn [wake_queues]; [by intros [= <-]|]. destruct (wait_queue_wake_all q s) as [s1|] eqn:E1; [|done].
  intros E%IH. rewrite E. by eapply Hloop.
Qed.

Lemma acting_woken ps B l x p X qs : acts ps B l x p X → acts (set_pvfs (set_woken qs (pvfs ps)) ps) B l x p X.
Proof.
  intros [A1 A2 A3 A4 A5 A6 A7 [[N [[C1 C2 C3 C4 C5 C6 C7] Hb]] Hrt Htab]]. split; try done. split; [|apply (rooted_same (pvfs ps) _ x); [done|done|by apply nodes_from_same|done|done]|done].
  exists N. split; [|exact Hb]. split; try done.
  - destruct C1 as [R1 R2 R3 R4 R5 R6 R7 R8 R9]. split; try done. by apply (tree_ok_proper (pvfs ps)).
  - by destruct C2; split.
  - by destruct C3; split.
Qed.

Lemma settle_step ps B l x p X s :
  acts ps B l x p X → sched_ok s →
  ∃ s' ps', settle_wakes s ps = Some (s', ps') ∧ ps' = set_pvfs (set_woken [] (pvfs ps)) ps ∧ wake_queues (woken (pvfs ps)) s = Some s' ∧
    sched_ok s' ∧ wakes_only s s' ∧ tick_count s' = tick_count s ∧ acts ps' B l x p X.
Proof.
  intros Ha Hs. destruct (wake_queues_inv _ (woken (pvfs ps)) s Hs) as (s' & E & Hs' & Hw). eexists s', _.
  split; [unfold settle_wakes; rewrite E; reflexivity|]. do 2 (split; [done|]). split; [by eapply inv_weaken; [|exact Hs']; intros t; rewrite (wk_current _ _ Hw)|].
  split; [done|]. split; [by eapply wake_queues_ticks|]. by apply acting_woken.
Qed.

(** Threads that do not get the processor stay as they are. *)
Lemma switch_others m s (ps : processes) b m' s' ps' t :
  scheduler_switch (H0 := process_system) (m, s, ps) = Some (b, (m', s', ps')) → t ≠ current s' → t = current s → threads s' !! t = threads s !! t.
Proof.
  unfold scheduler_switch. destruct (pick_next s) as [n|]; [|done]. case_if.
  - intros [= _ _ <- _] Ht ->. destruct Ht. by case_if.
  - intros [= _ _ <- _]. cbn [current set_current threads set_state upd_threads]. intros Ht _. by rewrite lookup_alter_ne.
Qed.

(** Where a thread is that has gone to sleep: in the queue [q], or until the next tick. *)
Definition rests (ticks : Z) (q : wait_queue) (s s' : sched) : Prop :=
  ticks = 0 ∧ current s ∈ queue_of s' q ∨
  ticks = 1 ∧ ∃ th, threads s' !! current s = Some th ∧ state th = THREAD_SLEEPING ∧ wake_tick th = tick_count s + 1.

(** The next thread runs, and the threads are those there were. *)
Definition yields (s s' : sched) : Prop :=
  sched_ok s' ∧ current s' ≠ current s ∧ all_threads s' = all_threads s.

Lemma tick_sleep s ps :
  sched_ok s → current s ≠ idle_thread s → 0 <= tick_count s < 2 ^ 64 - 1 →
  ∃ m s', scheduler_sleep (H0 := process_system) 1 (pkern ps, s, ps) = Some (m, s', ps) ∧ same_ram (pkern ps) m ∧ yields s s' ∧ queues s' = queues s ∧
    rests 1 (0, 0) s s'.
Proof.
  intros Hs Hi Ht. assert (u64 (tick_count s + 1) = tick_count s + 1) as Eu by (unfold u64; apply Z.mod_small; lia).
  set (m0 := snd (irq_save (pkern ps))). set (s0 := set_state (current s) THREAD_SLEEPING (upd_threads (alter (with_wake_tick (u64 (tick_count s + 1))) (current s)) s)).
  destruct (switch_away (H0 := process_system) m0 s0 ps) as (m & s' & E & Hok & Hne).
  { apply (ready_sleep s Hs Hi). lia. }
  { unfold state_of, s0. simpl. rewrite lookup_alter_eq, lookup_alter_eq. by destruct (threads s !! current s). }
  exists m, s'. pose proof (f_equal (resume (H0 := process_system) (fst (irq_save (pkern ps)))) E) as Er.
  split; [exact Er|]. split; [etransitivity; [apply (irq_save_ram (pkern ps))|by eapply switch_ram]|].
  split; [split; [done|]; split; [exact Hne|]|split; [by apply (switch_queues (H := process_system)) in E|]].
  - destruct (switch_ok (H0 := process_system) m0 s0 ps (ready_sleep s Hs Hi (u64 (tick_count s + 1)) ltac:(lia))) as (b & m2 & s2 & E2 & _ & Ea & _). rewrite E in E2. by injection E2 as _ _ <-.
  - right. split; [done|]. destruct (current_running s Hs) as (th & Hth & _). exists (with_state THREAD_SLEEPING (with_wake_tick (u64 (tick_count s + 1)) th)).
    split; [|split; [done|exact Eu]]. rewrite (switch_others _ _ _ _ _ _ _ (current s) E); [|by apply not_eq_sym|done]. unfold s0. simpl.
    by rewrite lookup_alter_eq, lookup_alter_eq, Hth.
Qed.

Lemma queue_sleep q s ps :
  sched_ok s → current s ≠ idle_thread s →
  ∃ m s', with_sched (wait_queue_sleep q) s ps = Some (s', set_pkern m ps) ∧ same_ram (pkern ps) m ∧ yields s s' ∧ rests 0 q s s' ∧
    ∀ k, queue_of s' k = queue_of (scheduler_block_current q s) k.
Proof.
  intros Hs Hi. destruct (sleep_spec q s ps Hs Hi) as (m & s' & E & Hram & Hok & Hne & _). exists m, s'. do 2 (split; [done|]).
  pose proof (sleep_still q s ps _ _ E) as (_ & Hq & Eall). split; [done|].
  split; [left; split; [done|]; rewrite Hq, decide_True by done; apply elem_of_app; right; by left|].
  intros k. by rewrite Hq, block_queues.
Qed.

(** The end of a call on descriptors that started with the pipes [v]. *)
Lemma end_call_step v ps B l x p X s writing a :
  acts ps B l x p X → sched_ok s → current s ≠ idle_thread s → 0 <= tick_count s < 2 ^ 64 - 1 → coupled s v →
  call_wakes writing (current s) a v (pvfs ps) →
  ∃ s' ps', end_call writing a s ps = Some (match a with Answer r => Reply r | Blocked t g d => Transferring t g d end, s', ps') ∧
    others W X (pvfs ps) (pvfs ps') ∧ procs ps' = procs ps ∧ acts ps' B l x p X ∧ coupled s' (pvfs ps') ∧ files (pvfs ps') = files (pvfs ps) ∧
    match a with
    | Answer _ => sched_ok s' ∧ wakes_only s s'
    | Blocked t g _ => yields s s' ∧ rests t (waits_on writing (private (fl (pvfs ps') g))) s s'
    end.
Proof using Hset.
  intros Ha Hs Hi Ht Hco Hw. destruct (settle_step ps B l x p X s Ha Hs) as (s1 & ps1 & Es & Eps & Ew & Hs1 & Hwo & Et & Ha1).
  unfold end_call. rewrite Es. cbn [mbind option_bind]. pose proof Hwo as [W1 W2 W3].
  destruct a as [r|t g d].
  { eexists s1, ps1. split; [reflexivity|]. subst ps1. split; [exact (others_refl W X (pvfs ps))|]. split; [done|]. split; [done|].
    split; [by eapply coupled_settled|]. split; [done|]. done. }
  assert (∀ m, same_ram (pkern ps1) m → acts (set_pkern m ps1) B l x p X ∧ others W X (pvfs ps) (pvfs (set_pkern m ps1))) as Hram.
  { intros m Hr. destruct (ram_step ps1 B l x p X m Ha1 Hr) as [Hx Ho]. split; [done|]. by rewrite Eps in Ho. }
  assert (∀ s2 t', yields s1 s2 → rests t' (waits_on writing (private (fl (pvfs ps) g))) s1 s2 →
    yields s s2 ∧ rests t' (waits_on writing (private (fl (pvfs ps) g))) s s2) as Hback.
  { intros s2 t' (Y1 & Y2 & Y3) Hr. unfold yields, rests in *. rewrite W1 in Y3. rewrite W2 in Y2. by rewrite W2, Et in Hr. }
  destruct Hw as [[-> Hw]|[-> Hw]]; cbn [Z.eqb].
  - destruct (queue_sleep (waits_on writing (private (fl (pvfs ps1) g))) s1 ps1 Hs1 ltac:(congruence)) as (m & s2 & E2 & Hr & Hy & Hrs & Hq).
    rewrite E2. cbn [mbind option_bind]. eexists s2, _. split; [reflexivity|]. destruct (Hram m Hr) as [Hx Ho].
    subst ps1. split; [exact Ho|]. split; [done|]. split; [exact Hx|]. split; [|split; [done|by apply Hback]].
    eapply (coupled_still (scheduler_block_current _ s1)); [apply still_kern|intros ? k _; apply Hq|]. eapply coupled_blocked; [exact Hco| |exact Ew].
    by rewrite W2.
  - destruct (tick_sleep s1 ps1 Hs1 ltac:(congruence) ltac:(by rewrite Et)) as (m & s2 & E2 & Hr & Hy & Hq & Hrs).
    eexists s2, (set_pkern m ps1). split.
    { exact (f_equal (λ o, '(s, ps) ← ('(m, s, ps) ← o; Some (s, set_pkern m ps)); Some (Transferring 1 g d, s, ps)) E2). }
    destruct (Hram m Hr) as [Hx Ho]. subst ps1. split; [exact Ho|]. split; [done|]. split; [exact Hx|]. split; [|split; [done|]].
    + eapply (coupled_same s1); [apply still_kern|exact Hq|]. by eapply coupled_settled.
    + apply Hback; [done|]. destruct Hrs as [[? _]|[_ Hrs]]; [done|]. by right.
Qed.

Lemma yield_step s ps :
  sched_ok s →
  ∃ r m s', sys_yield s ps = Some (r, s', set_pkern m ps) ∧ same_ram (pkern ps) m ∧ sched_ok s' ∧
    all_threads s' = all_threads s ∧ idle_thread s' = idle_thread s ∧ queues s' = queues s ∧
    (r = Reply 0 ∧ current s' = current s ∨ r = Yielded ∧ current s' ≠ current s ∧ state_of s' (current s) = Some THREAD_RUNNABLE).
Proof.
  intros Hs. destruct (current_running s Hs) as (th & Ht & Hr & _).
  set (m0 := snd (irq_save (pkern ps))). set (s0 := set_state (current s) THREAD_RUNNABLE s).
  destruct (switch_ok (H0 := process_system) m0 s0 ps (ready_runnable s Hs)) as (b & m1 & s' & E & Hok & Ea & Ei).
  set (m := if b then m1 else irq_restore (fst (irq_save (pkern ps))) m1).
  assert (scheduler_yield (H0 := process_system) (pkern ps, s, ps) = Some (m, s', ps)) as Ey.
  { unfold scheduler_yield. change (irq_save (pkern ps)) with (fst (irq_save (pkern ps)), m0). cbv iota beta.
    rewrite bool_decide_true by (unfold state_of; by rewrite Ht, <- Hr). fold s0. rewrite E. unfold m. by destruct b. }
  assert (same_ram (pkern ps) m) as Hram.
  { pose proof (switch_ram _ _ _ _ _ _ _ E) as H1'. etransitivity; [apply (irq_save_ram (pkern ps))|]. etransitivity; [exact H1'|].
    unfold m. destruct b; [done|apply irq_restore_ram]. }
  assert (sys_yield s ps = Some (if current s' =? current s then Reply 0 else Yielded, s', set_pkern m ps)) as ->
    by exact (f_equal (mbind (λ '(m, s', ps), Some (if current s' =? current s then Reply 0 else Yielded, s', set_pkern m ps))) Ey).
  eexists _, m, s'. split; [reflexivity|]. do 2 (split; [done|]). split; [exact Ea|]. split; [exact Ei|].
  split; [by apply (switch_queues (H := process_system)) in E|]. destruct (Z.eqb_spec (current s') (current s)) as [|Hne]; [auto|]. right. do 2 (split; [done|]).
  unfold state_of. rewrite (switch_others _ _ _ _ _ _ _ (current s) E); [|by apply not_eq_sym|done]. unfold s0. simpl. by rewrite lookup_alter_eq, Ht.
Qed.

(** ** Going on with a transfer *)

Lemma transfer_again ps B l x p X s g d address size_ writing :
  acts ps B (g :: l) x p X → g ≠ 0 → 0 <= d → 0 <= address → 0 <= size_ →
  ∃ a v', transfer_loop buffer_at (transfer_fuel size_) (current s) g (p_as x) address size_ writing true d 0 (pvfs ps) = Some (a, v') ∧
    others W X (pvfs ps) v' ∧ call_wakes writing (current s) a (pvfs ps) v' ∧
    match a with
    | Answer _ => acts (set_pvfs v' ps) B l x p X
    | Blocked _ g' d' => g' = g ∧ 0 <= d' ∧ acts (set_pvfs v' ps) B (g :: l) x p X
    end.
Proof using All.
  intros Ha Hg Hd Had Hsz. destruct Hset as [S1 S2 _ _ _ S6 _ _]. pose proof S6 as [_ (P1 & P2 & P3) _ _].
  destruct (transfer_loop_call U O lo hi S1 W S2 buffer_at P1 P2 P3 B l x X (current s) g address size_ writing (transfer_fuel size_) true d 0 (pvfs ps)
    (ac_caller _ _ _ _ _ _ _ _ _ _ _ _ Ha) Hg Had Hd) as (a & v' & E & Ho & _ & Hr); [unfold transfer_fuel; clear -Hsz Hd; div_lia|].
  exists a, v'. split; [done|]. split; [done|]. split; [by eapply transfer_loop_wakes|].
  assert (now p x v' ps = set_pvfs v' ps) as En by (unfold now, set_procs; cbn; rewrite insert_id by apply Ha; by destruct ps).
  destruct a as [r|t g' d']; [|destruct Hr as (-> & Hd' & Hr); split; [done|]; split; [lia|]]; rewrite <- En; by eapply acting_now.
Qed.

(** ** Exit *)

Lemma orphan_world l X p rest : ∀ ps B,
  world U O lo hi (pvfs ps) B l X → dom (procs ps) ⊆ B → NoDup rest → (∀ c, c ∈ rest → c ∈ dom (procs ps)) →
  ∃ B', B ∖ dom (procs ps) ⊆ B' ∧ B' ⊆ B ∧ world U O lo hi (pvfs (orphan_loop rest p ps)) B' l X ∧ settled U O X (pvfs ps) (pvfs (orphan_loop rest p ps)).
Proof.
  induction rest as [|c rest IH]; intros ps B Hw Hd Hnd Hin; cbn [orphan_loop].
  { exists B. split; [clear; set_solver|]. split; [done|]. split; [done|]. split; [apply kept_refl|done|by apply nodes_from_same]. }
  apply NoDup_cons in Hnd as [Hc Hnd]. cbv zeta. set (ps1 := unlink_child c ps). assert (pvfs ps1 = pvfs ps) as Ev1 by done.
  assert (dom (procs ps1) = dom (procs ps)) as Ed1 by (unfold ps1, unlink_child, update_process; cbn; by rewrite !dom_alter_L).
  assert (∀ ps2, pvfs ps2 = pvfs ps → dom (procs ps2) = dom (procs ps) → ∃ B', B ∖ dom (procs ps) ⊆ B' ∧ B' ⊆ B ∧ world U O lo hi (pvfs (orphan_loop rest p ps2)) B' l X ∧
    settled U O X (pvfs ps) (pvfs (orphan_loop rest p ps2))) as Hplain.
  { intros ps2 E1 E2. rewrite <- E1, <- E2. apply IH; [by rewrite E1|by rewrite E2|done|]. intros d Hdr. rewrite E2. apply Hin. by right. }
  case_if; [apply Hplain; [done|]; unfold link_child, update_process; cbn; by rewrite !dom_alter_L|]. case_if; [|by apply Hplain].
  assert (c ∈ B) as HcB by (apply Hd, Hin; by left).
  assert (B = {[c]} ∪ B ∖ {[c]}) as EB.
  { apply set_eq. intros d. rewrite elem_of_union, elem_of_difference, elem_of_singleton. destruct (decide (d = c)) as [->|]; naive_solver. }
  rewrite EB in Hw. destruct (world_kfree U lo hi O (pvfs ps) (B ∖ {[c]}) l X c Hw) as [Hw2 Hk2]; [rewrite elem_of_difference, elem_of_singleton; tauto|].
  set (ps2 := free_process c ps1). assert (pvfs ps2 = set_kern (kfree c (kern (pvfs ps))) (pvfs ps)) as Ev2 by done.
  assert (dom (procs ps2) = dom (procs ps) ∖ {[c]}) as Ed2 by (change (procs ps2) with (delete c (procs ps1)); by rewrite dom_delete_L, Ed1).
  destruct (IH ps2 (B ∖ {[c]})) as (B' & HA' & HB' & Hw' & Hs').
  - by rewrite Ev2.
  - rewrite Ed2. clear -Hd. set_solver.
  - done.
  - intros d Hdr. rewrite Ed2. assert (d ≠ c) as Hdc by (by intros ->). assert (d ∈ dom (procs ps)) as Hdd by (apply Hin; by right).
    clear -Hdc Hdd. set_solver.
  - exists B'. rewrite Ed2 in HA'. assert (c ∈ dom (procs ps)) as Hcd by (apply Hin; by left). split; [clear -HA' Hcd; set_solver|]. split; [clear -HB'; set_solver|]. split; [done|]. eapply settled_trans; [|exact Hs']. rewrite Ev2.
    apply settled_kern. eapply kept_world. exact Hk2.
Qed.

Definition zombie (status_ fault_ : Z) (x : process) : process := with_family [] (with_exit PROCESS_ZOMBIE status_ fault_ x).

Lemma exit_step ps B l x p X s status_ fault_ :
  acts ps B l x p X → sched_ok s → current s ≠ idle_thread s → init_runs p ps →
  ∃ s' ps' B', process_exit p status_ fault_ s ps = Some (s', ps') ∧ sched_ok s' ∧ current s' ≠ current s ∧ others W X (pvfs ps) (pvfs ps') ∧
    family_ok ps' ∧ procs ps' !! p = Some (zombie status_ fault_ x) ∧ B ∖ dom (procs ps) ⊆ B' ∧ calls (pvfs ps') B' l (zombie status_ fault_ x) X.
Proof using Hset.
  intros [A1 A2 A3 A4 A5 A6 A7 [[N Hw] Hrt Htab]] Hs Hi Hrun. unfold process_exit.
  destruct (exit_process p status_ fault_ ps) as [ps1|] eqn:E.
  2:{ unfold exit_process, take_process_lock in E. destruct (irq_save (pkern ps)) as [flags_ m1]. cbn [process_lock set_pkern set_pvfs] in E. rewrite A5 in E. done. }
  destruct (exit_spec p status_ fault_ x ps ps1 A4 A1 Hrun E) as (Hf & Hp & _). cbn [mbind option_bind].
  assert (∃ B', B ∖ dom (procs ps) ⊆ B' ∧ world U O lo hi (pvfs ps1) B' (fds x ++ l) ((p_as x, N) :: X) ∧ settled U O ((p_as x, N) :: X) (pvfs ps) (pvfs ps1)) as (B' & HB' & Hw1 & Hs1).
  { revert E. unfold exit_process, take_process_lock. pose proof (irq_save_ram (pkern ps)) as Hr. destruct (irq_save (pkern ps)) as [flags_ m1].
    cbn [snd process_lock set_pkern set_pvfs] in *. rewrite A5. cbn [spin_lock Z.eqb mbind option_bind]. intros [= <-].
    set (ps2 := update_process _ p _). change (pvfs (drop_process_lock ?q)) with (pvfs q).
    assert (procs ps2 !! p = Some (with_exit PROCESS_ZOMBIE status_ fault_ x)) as Hp2 by (unfold ps2, update_process; cbn; by rewrite lookup_alter_eq, A1).
    rewrite (pr_eq ps2 p _ Hp2). cbn [p_children with_exit].
    destruct (orphan_world (fds x ++ l) ((p_as x, N) :: X) p (p_children x) ps2 B) as (B' & HB' & _ & Hw' & Hs').
    - cbn. by apply world_ram.
    - unfold ps2, update_process. cbn. by rewrite dom_alter_L.
    - by eapply (fa_once _ _ _ _ A4).
    - intros c Hc. unfold ps2, update_process. cbn. rewrite dom_alter_L. apply elem_of_dom.
      destruct (fa_children _ _ _ _ A4 p x c A1 Hc) as (y & Hy & _). eauto.
    - exists B'. assert (dom (procs ps2) = dom (procs ps)) as Ed by (unfold ps2, update_process; cbn; by rewrite dom_alter_L).
      rewrite Ed in HB'. split; [done|]. split; [done|]. eapply settled_trans; [|exact Hs']. apply (settled_kern U O _ (pvfs ps) m1).
      destruct Hr as (Er & _). intros a _. cbn. change (mem m1 = mem (kern (pvfs ps))) in Er. by rewrite Er. }
  destruct (switch_away (H0 := process_system) (snd (irq_save (pkern ps1))) _ ps1 (ready_dead s Hs Hi)) as (m' & s' & Es & Hok & Hne).
  { cbn [current set_state upd_threads]. unfold state_of. simpl. rewrite lookup_alter_eq. by destruct (threads s !! current s). }
  assert (thread_exit (H0 := process_system) (pkern ps1, s, ps1) = Some (true, (m', s', ps1))) as Et by exact Es.
  unfold with_sched. rewrite Et. cbn [mbind option_bind]. exists s', (set_pkern m' ps1), B'. split; [done|]. split; [done|]. split; [done|].
  pose proof (switch_ram _ _ _ _ _ _ _ Es) as Hram. assert (same_ram (kern (pvfs ps1)) m') as Hram' by exact Hram.
  split; [|split; [done|split; [done|split; [done|]]]].
  - destruct Hs1 as [Hk _ _]. destruct Hram' as (Em & _). split; cbn [pvfs set_pkern set_pvfs kern set_kern]; rewrite Em.
    + eapply pages_same_kept; [exact Hk|]. intros q Hq. rewrite all_pages_cons, !elem_of_app. auto.
    + intros a Ha. apply Hk, region_app. by apply (st_kept _ _ _ _ _ _ _ Hset).
  - apply caller_ram; [done|]. destruct Hs1 as [_ Ht Hn]. split; [by exists N| |done]. by apply (rooted_same (pvfs ps) _ x).
Qed.

Lemma exit_threads p status_ fault_ s ps s' ps' :
  process_exit p status_ fault_ s ps = Some (s', ps') → all_threads s' = all_threads s ∧ dom (procs ps') ⊆ dom (procs ps).
Proof.
  assert (∀ q l ps, dom (procs (orphan_loop l q ps)) ⊆ dom (procs ps)) as Hdom.
  { intros q l. induction l as [|c l IH]; intros ps0; [done|]. cbn [orphan_loop]. cbv zeta. etransitivity; [apply IH|].
    assert (dom (procs (unlink_child c ps0)) = dom (procs ps0)) as E1 by (unfold unlink_child, update_process; cbn; by rewrite !dom_alter_L).
    case_if; [unfold link_child, update_process; cbn; by rewrite !dom_alter_L|]. case_if; [|by rewrite E1].
    unfold free_process. cbn [procs set_pkern set_pvfs set_procs]. rewrite dom_delete_L, E1. clear. set_solver. }
  unfold process_exit, exit_process. destruct (irq_save _) as [flags_ m]. unfold take_process_lock. destruct (spin_lock _) as [k|]; [|done]. cbn [mbind option_bind].
  set (ps0 := update_process _ _ _). unfold with_sched, thread_exit. destruct (irq_save _) as [flags2 m2].
  unfold scheduler_switch. destruct (pick_next _); [|done]. assert (dom (procs ps0) = dom (procs ps)) as E0 by (unfold ps0, update_process; cbn; by rewrite dom_alter_L).
  specialize (Hdom p (p_children (pr ps0 p)) ps0). rewrite E0 in Hdom. case_if; cbn [mbind option_bind]; intros [= <- <-]; (split; [by try case_if|exact Hdom]).
Qed.
End Setting.
