(* ===== verification/UserThms.v ===== *)
(** What a system call guarantees ([src/kernel/user.c]): the kernel and its components
    together. *)
From S2P Require Import KList Log Heap HeapProps HeapThms HeapInstance Bench.
From S2P Require Import Prelude Machine Runtime PageAlloc Vm VmInv VmProps HeapSpec Ownership AddressSpace AddressSpaceInv AddressSpaceProps AddressSpaceClone AddressSpaceAreas AddressSpaceMaps AddressSpaceCopy AddressSpaceThms.
From S2P Require Import Outcome Log Pipe Scheduler SchedulerProps SchedulerThms Vfs VfsInit VfsTree VfsInv VfsFiles VfsOpen VfsPipe VfsIo VfsThms Elf ElfInv ElfThms World Process Fd Wakes User FdProps FdCalls FdIo FdThms ProcessInv ProcessFork ProcessExec ProcessFamily ProcessThms FamilyThms UserInv.

Section Dispatch.
Context `{HeapContract} `{Backends} `{!QuietConsole}.
Context (U O : list Z) (lo hi kr : Z) (NK : gmap (list Z) Z) (W : Z → Prop).
Context (tr ue header_at program_at words_at path_at buffer_at pair_at entry_at child_frame status_at pointer_at exec_path_at frame : Z).
Context (Hset : setting U O lo hi NK W path_at buffer_at pair_at entry_at child_frame status_at frame).

(** The scheduler is well formed; its threads are objects in use that are no processes
    (the first one is outside the managed pages), and those it has in the queues of pipes
    are those the pipes have there. *)
Record orderly (s : sched) (ps : processes) (B : gset Z) : Prop := {
  od_ok : sched_ok s;
  od_threads : ∀ t, t ∈ all_threads s → (t ∈ B ∨ outside U t) ∧ t ∉ dom (procs ps);
  od_pipes : coupled s (pvfs ps);
}.

(** It runs a thread other than the idle one. *)
Record scheduled (s : sched) (ps : processes) (B : gset Z) : Prop := {
  sd_orderly : orderly s ps B;
  sd_user : current s ≠ idle_thread s;
}.

Lemma object_inside O' v B l X o : world U O' lo hi v B l X → o ∈ B → ¬ outside U o.
Proof.
  intros [_ (F & P & Hb)] Ho Hout. destruct (heap_ok_object _ _ _ _ _ o (ba_heap _ _ _ _ _ _ Hb)) as (p & Hp & Hin).
  - unfold world_objects. clear -Ho. set_solver.
  - apply (Hout p); [|done]. eapply bare_member; [exact Hb|]. rewrite !elem_of_app. auto.
Qed.

(** What there is after a call: what there was, or a child with its thread besides. *)
Definition grown (l : list Z) (X : list member) (ps' : processes) (O' l' : list Z) (X' : list member) : Prop :=
  (O' = O ∧ l' = l ∧ X' = X) ∨
  ∃ stack c child M, O' = stack :: O ∧ procs ps' !! c = Some child ∧ l' = fds child ++ l ∧ X' = (p_as child, M) :: X.

(** The thread has given up the processor, and the kernel is in order. *)
Definition leaves (B : gset Z) (s s' : sched) (ps' : processes) : Prop := current s' ≠ current s ∧ orderly s' ps' B.

(** Whether the call of the frame is [write]. *)
Definition writes (ps : processes) : bool := frame_x (mem (pkern ps)) frame 17 =? SYS_WRITE.

(** The kernel after the call [r] of the process [p], that was [x]. *)
Definition standing (B : gset Z) (l : list Z) (x : process) (p : Z) (X : list member) (s : sched)
    (r : reply) (s' : sched) (ps' : processes) : Prop :=
  match r with
  | Reply _ => current s' = current s ∧ ∃ O' B' l' x' X', grown l X ps' O' l' X' ∧ scheduled s' ps' B' ∧ acting U O' lo hi kr NK ps' B' l' x' p X'
  | Yielded => leaves B s s' ps' ∧ state_of s' (current s) = Some THREAD_RUNNABLE ∧ acting U O lo hi kr NK ps' B l x p X
  | Waiting => leaves B s s' ps' ∧ current s ∈ queue_of s' (child_wait p) ∧ acting U O lo hi kr NK ps' B l x p X
  | Transferring t g d => leaves B s s' ps' ∧ rests t (waits_on (writes ps') (private (fl (pvfs ps') g))) s s' ∧
      g ∈ fds x ∧ g ≠ 0 ∧ 0 <= d ∧ acting U O lo hi kr NK ps' B (g :: l) x p X
  | Exited => family_ok ps' ∧ ∃ status_ fault_ B', leaves B' s s' ps' ∧
      procs ps' !! p = Some (zombie status_ fault_ x) ∧ caller U O lo hi (pvfs ps') B' l (zombie status_ fault_ x) X
  | Replaced => False
  end.

Definition answered (B : gset Z) (l : list Z) (x : process) (p : Z) (X : list member) (s : sched) (ps : processes)
    (r : reply) (s' : sched) (ps' : processes) : Prop :=
  others W X (pvfs ps) (pvfs ps') ∧ standing B l x p X s r s' ps'.

Lemma reply_done B l x x' p X s ps r ps' s' :
  others W X (pvfs ps) (pvfs ps') → current s' = current s → scheduled s' ps' B → acting U O lo hi kr NK ps' B l x' p X →
  answered B l x p X s ps (Reply r) s' ps'.
Proof. intros Ho Hc Hs Ha. split; [done|]. split; [done|]. exists O, B, l, x', X. split; [by left|done]. Qed.

Lemma orderly_procs s s' ps ps' B :
  orderly s ps B → sched_ok s' → all_threads s' = all_threads s → dom (procs ps') = dom (procs ps) → coupled s' (pvfs ps') → orderly s' ps' B.
Proof. intros [S1 S2 S3] Hs Ea Ed Hc. split; [done| |done]. rewrite Ea, Ed. exact S2. Qed.

Lemma dom_now p x ps B l X x' v' : acting U O lo hi kr NK ps B l x p X → dom (procs (now p x' v' ps)) = dom (procs ps).
Proof.
  intros Ha. unfold now. cbn. rewrite dom_insert_L.
  assert (p ∈ dom (procs ps)) as Hp by (apply elem_of_dom; rewrite (ac_parent _ _ _ _ _ _ _ _ _ _ _ _ Ha); eauto). clear -Hp. set_solver.
Qed.

Lemma reply_same B l x p X s ps r ps' x' v' :
  acting U O lo hi kr NK ps B l x p X → scheduled s ps B → ps' = now p x' v' ps → still (pvfs ps) v' → others W X (pvfs ps) v' →
  acting U O lo hi kr NK ps' B l x' p X → answered B l x p X s ps (Reply r) s ps'.
Proof.
  intros Ha [Hs Hi] -> Hst Ho Ha'. apply (reply_done B l x x'); try done. split; [|done].
  apply (orderly_procs s s ps); [done|apply Hs|done|by eapply dom_now|]. by eapply coupled_same; [exact Hst|done|apply Hs].
Qed.

Lemma reply_nothing B l x p X s ps r :
  acting U O lo hi kr NK ps B l x p X → scheduled s ps B → answered B l x p X s ps (Reply r) s ps.
Proof. intros Ha Hs. by apply (reply_done B l x x). Qed.

(** A new thread for a new process. *)
Lemma orderly_fork s ps B c child t stack O' v' l' x' p' X' ps' :
  orderly s ps B → acting U O' lo hi kr NK ps' ({[t]} ∪ ({[c]} ∪ B)) l' x' p' X' → dom (procs ps) ⊆ B → c ∉ B → t ≠ 0 → t ∉ {[c]} ∪ B →
  procs ps' = <[c := child]> (alter v' p' (procs ps)) →
  let s' := with_thread t (user_thread ue c stack) s in
  sched_ok s' ∧ ∀ u, u ∈ all_threads s' → (u ∈ {[t]} ∪ ({[c]} ∪ B) ∨ outside U u) ∧ u ∉ dom (procs ps').
Proof using Hset.
  intros [S1 S3 _] Ha' Hd HcB Ht0 HtB Ep. assert (t ∉ all_threads s) as Hta.
  { intros Hin. destruct (S3 t Hin) as [[Hb|Hout] _]; [clear -Hb HtB; set_solver|].
    destruct (ac_caller _ _ _ _ _ _ _ _ _ _ _ _ Ha') as [[N Hw] _ _]. apply (object_inside _ _ _ _ _ t Hw); [|done]. clear. set_solver. }
  assert (dom (procs ps') = {[c]} ∪ dom (procs ps)) as Ed by (rewrite Ep, dom_insert_L, dom_alter_L; done).
  split; [apply (insert_thread _ s t (user_thread ue c stack) S1); try done; cbn; intros ->; apply Hta, (si_current _ _ S1)|].
  cbn. intros u [Hu| ->%list_elem_of_singleton]%elem_of_app; rewrite Ed; [|clear -HtB Hd; set_solver].
  destruct (S3 u Hu) as [Hb Hn]. split; [destruct Hb as [Hb|Hb]; [left; clear -Hb; set_solver|by right]|].
  assert (u ≠ c) as Hne; [|clear -Hn Hne; set_solver]. intros ->. destruct Hb as [Hb|Hout]; [done|].
  destruct (ac_caller _ _ _ _ _ _ _ _ _ _ _ _ Ha') as [[N Hw] _ _]. apply (object_inside _ _ _ _ _ c Hw); [|done]. clear. set_solver.
Qed.

Lemma frame_word_kept m m' i : same_on W m m' → 0 <= i < 36 → load64 m' (frame + 8 * i) = load64 m (frame + 8 * i).
Proof using Hset.
  intros Hm Hi. apply load64_ext. intros a Ha. apply Hm. replace a with (frame + (a - frame)) by lia.
  apply (st_frame _ _ _ _ _ _ _ _ _ _ _ _ _ Hset). lia.
Qed.

Lemma fork_reply B l x p X s ps :
  acting U O lo hi kr NK ps B l x p X → scheduled s ps B → Z.of_nat (length (fds x ++ fds x ++ l)) < 2 ^ 64 - 1 →
  ∃ r s1 ps1 s' ps', process_fork tr ue p frame child_frame s ps = Some (r, s1, ps1) ∧ settle_wakes s1 ps1 = Some (s', ps') ∧
    answered B l x p X s ps (Reply r) s' ps'.
Proof using All.
  intros Ha [Hs Hi] Hlen.
  destruct (fork_spec U O lo hi kr NK W tr ue ps B l x p X frame child_frame s (st_span _ _ _ _ _ _ _ _ _ _ _ _ _ Hset) Ha
    (setting_frames _ _ _ _ _ _ _ _ _ _ _ _ _ Hset) Hlen) as (r & s1 & ps1 & E & Ho & _ & Hcase).
  pose proof (fork_wakes _ _ _ _ _ _ _ _ _ _ E) as [Hwk Hq].
  assert (coupled s1 (pvfs ps)) as Hco by (eapply coupled_same; [reflexivity|exact Hq|apply Hs]).
  destruct Hcase as [(-> & -> & Ep & Ha1)|(-> & _ & c & child & t & stack & M & HcB & Ht0 & HtB & Hch & Ep & Ha1)].
  - destruct (settle_step U O lo hi kr NK ps1 B l x p X s Ha1 (od_ok _ _ _ Hs)) as (s' & ps' & Es & -> & Ew & Hok & [W1 W2 W3] & _ & Ha').
    eexists _, s, ps1, s', _. do 2 (split; [done|]). apply (reply_done B l x x); try done. split; [|congruence].
    apply (orderly_procs s s' ps); try done; [cbn; by rewrite Ep|by eapply coupled_settled].
  - destruct Hch as [_ _ _ _ Es1 _].
    destruct (orderly_fork s ps B c child t stack (stack :: O) (adopt c) _ _ _ _ ps1 Hs Ha1 (ac_records _ _ _ _ _ _ _ _ _ _ _ _ Ha) HcB Ht0 HtB Ep) as [Hok1 Hth].
    rewrite <- Es1 in Hok1, Hth.
    destruct (settle_step U _ lo hi kr NK ps1 _ _ _ _ _ s1 Ha1 Hok1) as (s' & ps' & Es & -> & Ew & Hok & [W1 W2 W3] & _ & Ha').
    assert (current s1 = current s ∧ idle_thread s1 = idle_thread s) as [C1 C2] by (by rewrite Es1).
    eexists _, s1, ps1, s', _. do 2 (split; [done|]). split; [done|]. split; [congruence|]. eexists _, _, _, _, _. split; [|split; [|exact Ha']].
    + right. exists stack, c, child, M. split; [done|]. cbn. rewrite Ep, lookup_insert_eq. done.
    + split; [|congruence]. split; [done|by rewrite W1|by eapply coupled_settled].
Qed.

Lemma wait_reply B l x p X s ps :
  acting U O lo hi kr NK ps B l x p X → scheduled s ps B →
  ∃ r s' ps', sys_waitpid status_at p (frame_x (mem (pkern ps)) frame) s ps = Some (r, s', ps') ∧ answered B l x p X s ps r s' ps'.
Proof using All.
  intros Ha [Hs Hi]. unfold sys_waitpid. set (y := frame_x _ _). assert (0 <= y 11) as Hy by apply frame_x_range. pose proof Hs as [S1 S3 S4].
  destruct (waitpid_spec U O lo hi kr NK W ps B l x p X (s64 (y 10)) (y 11) (y 12) status_at s (st_span _ _ _ _ _ _ _ _ _ _ _ _ _ Hset) Ha
    (setting_status _ _ _ _ _ _ _ _ _ _ _ _ _ Hset) S1 Hi Hy) as (w & s' & ps' & E & Ho & Hcase).
  rewrite E. cbn [mbind option_bind]. eexists _, s', ps'. split; [done|]. apply waitpid_still in E as (Hst & Hq & Eall).
  assert (coupled s' (pvfs ps')) as Hco.
  { eapply coupled_still; [exact Hst| |exact S4]. intros a k Hk. rewrite Hq. destruct w; [by rewrite app_nil_r|].
    rewrite decide_False, app_nil_r; [done|]. destruct Hk as [->| ->]; done. }
  destruct w as [r|].
  - destruct Hcase as [-> [(_ & Ep & Ha')|(c & y' & _ & Hc & Ha')]].
    { apply (reply_done B l x x); try done. split; [|done]. apply (orderly_procs s s ps); try done. by rewrite Ep. }
    split; [done|]. split; [done|]. exists O, (B ∖ {[c]}), l, (with_family (List.remove Z.eq_dec c (p_children x)) x), X. split; [by left|].
    split; [|done]. split; [|done]. split; [done| |done].
    intros t Ht. destruct (S3 t Ht) as [Hb Hn]. destruct Hc as [_ C2 _ _ _ _ C7].
    assert (c ∈ dom (procs ps)) as Hc by (apply elem_of_dom; eauto). rewrite C7, dom_delete_L. unfold unlinked. rewrite !dom_alter_L.
    split; [destruct Hb as [Hb|Hb]; [left|by right]|]; clear -Hb Hn Hc; set_solver.
  - destruct Hcase as (Ep & Ha' & _ & _ & Hok & Hne & _). split; [done|]. split; [split; [done|]|].
    + apply (orderly_procs s s' ps); try done. by rewrite Ep.
    + split; [|done]. rewrite Hq, decide_True by done. apply elem_of_app. right. by left.
Qed.

Lemma exit_reply B l x p X s ps status_ fault_ :
  acting U O lo hi kr NK ps B l x p X → scheduled s ps B → init_runs p ps →
  ∃ s' ps', process_exit p status_ fault_ s ps = Some (s', ps') ∧ answered B l x p X s ps Exited s' ps' ∧ procs ps' !! p = Some (zombie status_ fault_ x).
Proof using All.
  intros Ha [Hs Hi] Hrun. pose proof Hs as [S1 S3 S4].
  destruct (exit_step U O lo hi kr NK W path_at buffer_at pair_at entry_at child_frame status_at frame Hset ps B l x p X s status_ fault_ Ha S1 Hi Hrun)
    as (s' & ps' & B' & E & Hok & Hne & Ho & Hf & Hp & HB & Hc). exists s', ps'. split; [done|]. split; [|done]. split; [done|]. split; [done|].
  exists status_, fault_, B'. split; [split; [done|]|done]. pose proof (exit_threads _ _ _ _ _ _ _ E) as [Ea Hd]. apply exit_still in E as [Hst Hq]. split; [done| |].
  - rewrite Ea. intros t Ht. destruct (S3 t Ht) as [Hb Hn]. split; [destruct Hb as [Hb|Hb]; [left|by right]|]; clear -Hb Hn HB Hd; set_solver.
  - by eapply coupled_same.
Qed.

Lemma yield_reply B l x p X s ps :
  acting U O lo hi kr NK ps B l x p X → scheduled s ps B →
  ∃ r s' ps', sys_yield s ps = Some (r, s', ps') ∧ answered B l x p X s ps r s' ps'.
Proof using All.
  intros Ha [Hs Hi]. destruct (yield_step s ps (od_ok _ _ _ Hs)) as (r & m & s' & E & Hram & Hok & Eall & Eid & Eq & Hcase).
  destruct (ram_step U O lo hi kr NK W path_at buffer_at pair_at entry_at child_frame status_at frame Hset ps B l x p X m Ha Hram) as [Ha' Ho].
  assert (orderly s' (set_pkern m ps) B) as Hs'.
  { apply (orderly_procs s s' ps); try done. eapply coupled_same; [apply still_kern|exact Eq|apply Hs]. }
  exists r, s', (set_pkern m ps). split; [done|]. destruct Hcase as [[-> Ec]|(-> & Ec & Er)]; [|done].
  apply (reply_done B l x x); try done. split; [done|congruence].
Qed.

(** A call on descriptors, or a part of one, that started with the pipes [v]. *)
Lemma end_reply B l l0 x x' p X s ps ps1 a :
  scheduled s ps B → 0 <= tick_count s < 2 ^ 64 - 1 → others W X (pvfs ps) (pvfs ps1) → dom (procs ps1) = dom (procs ps) →
  call_wakes (writes ps) (current s) a (pvfs ps) (pvfs ps1) →
  match a with Answer _ => l = l0 | Blocked _ g d => x' = x ∧ l = g :: l0 ∧ g ∈ fds x ∧ g ≠ 0 ∧ 0 <= d end →
  acting U O lo hi kr NK ps1 B l x' p X →
  ∃ r s' ps', end_call (writes ps) a s ps1 = Some (r, s', ps') ∧ answered B l0 x p X s ps r s' ps'.
Proof using All.
  intros [Hs Hi] Ht Ho Hd Hw Hl Ha.
  destruct (end_call_step U O lo hi kr NK W path_at buffer_at pair_at entry_at child_frame status_at frame Hset (pvfs ps) ps1 B l x' p X s (writes ps) a
    Ha (od_ok _ _ _ Hs) Hi Ht (od_pipes _ _ _ Hs) Hw) as (s' & ps' & E & Ho' & Ep & Ha' & Hco & Hfi & Hr).
  pose proof (others_trans _ _ _ _ _ Ho Ho') as Ho2. assert (dom (procs ps') = dom (procs ps)) as Ed by congruence.
  eexists _, s', ps'. split; [exact E|]. destruct a as [z|t g d].
  - subst l0. destruct Hr as [Hok [W1 W2 W3]]. apply (reply_done B l x x'); try done. split; [|congruence]. by apply (orderly_procs s s' ps).
  - destruct Hl as (-> & -> & Hg & Hg0 & Hd0). destruct Hr as [(Hok & Hne & Ea) Hr]. split; [done|]. split; [split; [done|by apply (orderly_procs s s' ps)]|].
    split; [|done]. replace (writes ps') with (writes ps); [done|]. unfold writes. f_equal. unfold frame_x. symmetry.
    apply (frame_word_kept _ _ 17); [apply Ho2|lia].
Qed.

Abbreviation dispatch := (dispatch_syscall tr ue header_at program_at words_at path_at buffer_at pair_at entry_at child_frame status_at pointer_at exec_path_at).

Lemma dispatch_spec B l x p X s ps :
  acting U O lo hi kr NK ps B l x p X → scheduled s ps B → init_runs p ps → countable (pvfs ps) → 0 <= tick_count s < 2 ^ 64 - 1 →
  Z.of_nat (length (fds x ++ fds x ++ l)) < 2 ^ 64 - 1 → frame_x (mem (pkern ps)) frame 17 ≠ SYS_EXEC →
  ∃ r s' ps', dispatch p frame s ps = Some (r, s', ps') ∧ answered B l x p X s ps r s' ps'.
Proof using All.
  intros Ha Hs Hrun Hcnt Hticks Hlen Hexec. unfold dispatch_syscall. cbv zeta. set (y := frame_x (mem (pkern ps)) frame) in *.
  pose proof (ac_parent _ _ _ _ _ _ _ _ _ _ _ _ Ha) as Hp. rewrite (pr_eq ps p x Hp).
  assert (∀ i, 0 <= y i) as Hy by (intros i; apply frame_x_range).
  assert (Z.of_nat (length (fds x ++ l)) < 2 ^ 64 - 1) as Hlen' by (rewrite !length_app in *; lia).
  assert (∀ r a' m, caller U O lo hi (set_kern m (pvfs ps)) B l (with_as a' x) X → others W X (pvfs ps) (set_kern m (pvfs ps)) →
    ∃ r' s' ps', (let '(z, ps1) := change_space p (r, a', m) ps in Some (Reply z, s, ps1)) = Some (r', s', ps') ∧ answered B l x p X s ps r' s' ps') as Hchange.
  { intros r a' m Hc Ho. destruct (change_step U O lo hi kr NK W path_at buffer_at pair_at entry_at child_frame status_at frame Hset ps B l x p X r a' m Ha Hc Ho)
      as [-> Ha']. eexists _, _, _. split; [reflexivity|]. by eapply reply_same. }
  assert (∀ z, ∃ r' s' ps', Some (Reply z, s, ps) = Some (r', s', ps') ∧ answered B l x p X s ps r' s' ps') as Hplain.
  { intros z. eexists _, _, _. split; [reflexivity|]. by apply reply_nothing. }
  destruct (fd_number (y 17)).
  { destruct (descriptor_step U O lo hi kr NK W path_at buffer_at pair_at entry_at child_frame status_at frame Hset ps B l x p X s Ha Hcnt Hlen')
      as (a & x' & v' & -> & Ho & Hwk & Hr). cbn [mbind option_bind]. change (y 17 =? SYS_WRITE) with (writes ps).
    pose proof (dom_now p x ps B l X x' v' Ha) as Hd.
    destruct a as [r|t g d]; [by apply (end_reply B l l x x')|]. destruct Hr as (-> & Hg & Hg0 & Hd0 & Ha'). by apply (end_reply B (g :: l) l x x). }
  destruct (y 17 =? SYS_BRK).
  { destruct (brk_step U O lo hi kr NK W path_at buffer_at pair_at entry_at child_frame status_at frame Hset ps B l x p X (y 10) Ha (Hy 10)) as (r & a' & m & -> & Hc & Ho).
    by apply Hchange. }
  destruct (y 17 =? SYS_MUNMAP).
  { destruct (munmap_step U O lo hi kr NK W path_at buffer_at pair_at entry_at child_frame status_at frame Hset ps B l x p X (y 10) (y 11) Ha (Hy 10) (Hy 11))
      as (r & a' & m & -> & Hc & Ho). cbn [mbind option_bind]. by apply Hchange. }
  destruct (y 17 =? SYS_MMAP).
  { unfold sys_mmap. rewrite (pr_eq ps p x Hp). case_if; [apply Hplain|].
    destruct (mmap_step U O lo hi kr NK W path_at buffer_at pair_at entry_at child_frame status_at frame Hset ps B l x p X (y 10) (y 11) (y 12) (y 13)
      (if (if y 14 <? FD_COUNT then nth (Z.to_nat (y 14)) (fds x) 0 else 0) =? 0 then None else Some (if y 14 <? FD_COUNT then nth (Z.to_nat (y 14)) (fds x) 0 else 0))
      (y 15) Ha (Hy 11)) as (r & a' & m & Em & Hc & Ho). rewrite Em. by apply Hchange. }
  destruct (y 17 =? SYS_EXIT).
  { destruct (exit_reply B l x p X s ps (s64 (y 10)) 0 Ha Hs Hrun) as (s' & ps' & -> & Hr & _). cbn [mbind option_bind]. by eexists _, _, _. }
  destruct (y 17 =? SYS_YIELD); [by apply yield_reply|]. destruct (y 17 =? SYS_GETPID); [apply Hplain|].
  rewrite (proj2 (Z.eqb_neq _ _) Hexec). destruct (y 17 =? SYS_WAITPID); [by apply wait_reply|].
  destruct (y 17 =? SYS_FORK); [|apply Hplain].
  destruct (fork_reply B l x p X s ps Ha Hs Hlen) as (r & s1 & ps1 & s' & ps' & -> & Es & Hr). cbn [mbind option_bind]. rewrite Es. by eexists _, _, _.
Qed.

(** What a process whose call ended as [r] has kept: the references [l], those of the
    calls on descriptors it is in included; [l0] are the others. *)
Definition suspended (x : process) (r : reply) (l l0 : list Z) : Prop :=
  match r with
  | Yielded | Waiting => l = l0
  | Transferring _ g d => l = g :: l0 ∧ g ∈ fds x ∧ g ≠ 0 ∧ 0 <= d
  | Reply _ | Replaced | Exited => False
  end.

Lemma resume_spec B l l0 x p X s ps r :
  acting U O lo hi kr NK ps B l x p X → scheduled s ps B → 0 <= tick_count s < 2 ^ 64 - 1 → suspended x r l l0 →
  ∃ r' s' ps', resume_syscall buffer_at status_at r p frame s ps = Some (r', s', ps') ∧ answered B l0 x p X s ps r' s' ps' ∧ (r = Yielded → r' = Reply 0).
Proof using All.
  intros Ha Hs Ht Hsu. unfold resume_syscall. destruct r as [| | |t g d| |]; cbn in Hsu; try done.
  - subst l0. eexists _, _, _. split; [reflexivity|]. split; [by apply reply_nothing|done].
  - destruct Hsu as (-> & Hg & Hg0 & Hd). cbv zeta. set (y := frame_x (mem (pkern ps)) frame).
    assert (∀ i, 0 <= y i) as Hy by (intros i; apply frame_x_range). change (y 17 =? SYS_WRITE) with (writes ps).
    rewrite (pr_eq ps p x (ac_parent _ _ _ _ _ _ _ _ _ _ _ _ Ha)).
    destruct (transfer_again U O lo hi kr NK W path_at buffer_at pair_at entry_at child_frame status_at frame Hset ps B l0 x p X s g d (y 11) (y 12) (writes ps)
      Ha Hg0 Hd (Hy 11) (Hy 12)) as (a & v' & -> & Ho & Hwk & Hr). cbn [mbind option_bind].
    assert (∃ r' s' ps', end_call (writes ps) a s (set_pvfs v' ps) = Some (r', s', ps') ∧ answered B l0 x p X s ps r' s' ps') as (r' & s' & ps' & E & Hx).
    { destruct a as [z|t' g' d']; [by apply (end_reply B l0 l0 x x)|]. destruct Hr as (-> & Hd' & Ha'). by apply (end_reply B (g :: l0) l0 x x). }
    by exists r', s', ps'.
  - subst l0. destruct (wait_reply B l x p X s ps Ha Hs) as (r' & s' & ps' & E & Hx). by exists r', s', ps'.
Qed.

(** ** The frame of the trap *)

Lemma frame_step O' ps B l x q X m :
  (∀ a, W a → region U O' a) → acting U O' lo hi kr NK ps B l x q X →
  same_on (λ b, ¬ (frame <= b < frame + SIZEOF_FRAME)) (mem (pkern ps)) m →
  acting U O' lo hi kr NK (set_pmem m ps) B l x q X ∧ pages_same (all_pages X) (mem (pkern ps)) m.
Proof using Hset.
  intros HW [A1 A2 A3 A4 A5 A6 A7 A8] Hm. destruct Hset as [_ _ S3 _ _ _ _ _].
  destruct (local_call U O' lo hi (λ _, False) (pvfs ps) B l x X m frame SIZEOF_FRAME A8) as (Hc & [Hp _] & _).
  { intros i Hi. split; [apply HW, S3, Hi|by intros []]. }
  { exact Hm. }
  split; [|exact Hp]. split; try done. refine (proj1 (pt_rep_same whole (pkern ps) _ kr NK _ A7)).
  intros k Hk a Ha. apply Hm. intros Hin. destruct (S3 (a - frame) ltac:(lia)) as [_ Hn]. apply (Hn k Hk).
  by replace (frame + (a - frame)) with a by lia.
Qed.

(** What the program finds in its registers when it goes on: the instruction after the
    call, and the result, if there is one, in [a0]. *)
Definition resumed (result : option Z) (m m' : memory) : Prop :=
  ∀ i, 0 <= i < 36 → load64 m' (frame + 8 * i) =
    if i =? 32 then u64 (load64 m (frame + FRAME_SEPC) + 4)
    else match result with
         | Some z => if i =? 10 then u64 z else load64 m (frame + 8 * i)
         | None => load64 m (frame + 8 * i)
         end.

Lemma region_wider O' a : (∀ q, q ∈ O → q ∈ O') → region U O a → region U O' a.
Proof. intros HO [(q & Hq & Ha)|Ha]; [left; exists q; auto|by right]. Qed.

Lemma all_pages_sub X X' q : (∀ y : member, y ∈ X → y ∈ X') → q ∈ all_pages X → q ∈ all_pages X'.
Proof.
  intros HX Hq. unfold all_pages in *. apply list_elem_of_bind in Hq as (y & Hq & Hy). apply list_elem_of_bind. exists y. auto.
Qed.

Lemma pages_same_trans Q m1 m2 m3 : pages_same Q m1 m2 → pages_same Q m2 m3 → pages_same Q m1 m3.
Proof. intros A1 A2 q Hq a Ha. rewrite (A2 q Hq a Ha). exact (A1 q Hq a Ha). Qed.

(** The result goes into the frame. *)
Lemma result_written B l x p X s r s' ps' :
  standing B l x p X s r s' ps' →
  standing B l x p X s r s' (give_result frame r ps') ∧ pages_same (all_pages X) (mem (pkern ps')) (mem (pkern (give_result frame r ps'))).
Proof using Hset.
  destruct r as [z| | |t g d| |]; try done. intros (Ec & O' & B' & l' & x' & X' & HG & [[D1 D2 D3] D4] & Ha). cbn [give_result].
  set (m := set_frame_x (mem (pkern ps')) frame 10 (u64 z)).
  assert ((∀ q, q ∈ O → q ∈ O') ∧ (∀ y, y ∈ X → y ∈ X')) as [HO HX].
  { destruct HG as [(-> & -> & ->)|(stack & c & child & M & -> & _ & -> & ->)]; [done|]. split; intros; by right. }
  destruct (frame_step O' ps' B' l' x' p X' m) as [Ha' Hp].
  - intros a Wa. apply (region_wider O' a HO). by apply (st_kept _ _ _ _ _ _ _ _ _ _ _ _ _ Hset).
  - done.
  - intros b Hb. unfold m, set_frame_x. by rewrite load8_store64_out by lia.
  - split; [|intros q Hq; apply Hp; by apply (all_pages_sub X)]. split; [done|]. exists O', B', l', x', X'. split; [done|]. split; [|done].
    split; [|done]. split; [done|done|]. exact (coupled_same _ _ _ _ (still_kern _ _) eq_refl D3).
Qed.

Abbreviation handle := (user_handle_trap tr ue header_at program_at words_at path_at buffer_at pair_at entry_at child_frame status_at pointer_at exec_path_at frame).

(** What the program finds after the call [r]. *)
Definition result_of (r : reply) : option Z := match r with Reply z => Some z | _ => None end.
Definition continues (r : reply) (m m' : memory) : Prop :=
  match r with
  | Reply _ | Yielded | Waiting | Transferring _ _ _ => resumed (result_of r) m m'
  | Replaced | Exited => True
  end.

(** The frame when a call that has slept ends as [r]: the result goes into [a0] and
    nothing else changes. *)
Definition returned (r : reply) (m m' : memory) : Prop :=
  ∀ i, 0 <= i < 36 → load64 m' (frame + 8 * i) = match result_of r with
                                                 | Some z => if i =? 10 then u64 z else load64 m (frame + 8 * i)
                                                 | None => load64 m (frame + 8 * i)
                                                 end.

Lemma give_word r ps i : 0 <= i < 36 →
  load64 (mem (pkern (give_result frame r ps))) (frame + 8 * i) =
  match result_of r with Some z => if i =? 10 then u64 z else load64 (mem (pkern ps)) (frame + 8 * i) | None => load64 (mem (pkern ps)) (frame + 8 * i) end.
Proof.
  intros Hi. destruct r as [z| | |t g d| |]; try done. cbn [give_result result_of]. change (mem (pkern (set_pmem ?m ps))) with m. unfold set_frame_x.
  destruct (Z.eqb_spec i 10) as [->|Hne]; [by rewrite load64_store64_eq by apply u64_range|]. by rewrite load64_store64_ne by lia.
Qed.

Lemma resumed_frame m m1 ps r :
  m1 = store64 m (frame + FRAME_SEPC) (u64 (load64 m (frame + FRAME_SEPC) + 4)) → same_on W m1 (mem (pkern ps)) →
  resumed (result_of r) m (mem (pkern (give_result frame r ps))).
Proof using Hset.
  intros -> Hm i Hi. rewrite give_word, (frame_word_kept _ _ i Hm Hi) by done. destruct (Z.eqb_spec i 32) as [->|Hne].
  - rewrite load64_store64_eq by apply u64_range. by destruct (result_of r).
  - by rewrite load64_store64_ne by lia.
Qed.

Lemma ecall_spec B l x p X s ps :
  acting U O lo hi kr NK ps B l x p X → scheduled s ps B → current_process s = Some p → init_runs p ps → countable (pvfs ps) →
  0 <= tick_count s < 2 ^ 64 - 1 →
  Z.of_nat (length (fds x ++ fds x ++ l)) < 2 ^ 64 - 1 → Z.land (load64 (mem (pkern ps)) (frame + FRAME_SSTATUS)) SSTATUS_SPP = 0 →
  frame_x (mem (pkern ps)) frame 17 ≠ SYS_EXEC →
  ∃ r s' ps', handle EXCEPTION_USER_ECALL s ps = Some (Handled r, s', ps') ∧ pages_same (all_pages X) (mem (pkern ps)) (mem (pkern ps')) ∧
    continues r (mem (pkern ps)) (mem (pkern ps')) ∧ standing B l x p X s r s' ps'.
Proof using All.
  intros Ha Hs Hcur Hrun Hcnt Hticks Hlen Hspp Hexec. unfold user_handle_trap. rewrite Hcur, Hspp. cbn [Z.eqb negb Pos.eqb]. cbv zeta.
  set (m := mem (pkern ps)) in *. set (m1 := store64 m _ _). set (ps1 := set_pmem m1 ps).
  destruct (frame_step O ps B l x p X m1 (st_kept _ _ _ _ _ _ _ _ _ _ _ _ _ Hset) Ha) as [Ha1 Hp1].
  { intros b Hb. unfold m1. by rewrite load8_store64_out by lia. }
  fold ps1 in Ha1. assert (scheduled s ps1 B) as Hs1.
  { destruct Hs as [[D1 D2 D3] D4]. split; [|done]. split; [done|done|]. exact (coupled_same _ _ _ _ (still_kern _ _) eq_refl D3). }
  destruct (dispatch_spec B l x p X s ps1 Ha1 Hs1 Hrun Hcnt Hticks Hlen) as (r & s' & ps' & E & [Hpx Hpw] & Hst).
  { change (frame_x m1 frame 17 ≠ SYS_EXEC). unfold frame_x, m1. rewrite load64_store64_ne by lia. exact Hexec. }
  rewrite E. cbn [mbind option_bind]. change (mem (kern (pvfs ps1))) with m1 in Hpx, Hpw.
  destruct (result_written B l x p X s r s' ps' Hst) as [Hst' Hp3]. eexists r, s', _. split; [reflexivity|].
  split; [exact (pages_same_trans _ _ _ _ (pages_same_trans _ _ _ _ Hp1 Hpx) Hp3)|]. split; [|exact Hst'].
  pose proof (resumed_frame m m1 ps' r eq_refl Hpw) as Hres. by destruct r.
Qed.

(** The rest of a call that has slept. *)
Lemma resume_trap_spec B l l0 x p X s ps r :
  acting U O lo hi kr NK ps B l x p X → scheduled s ps B → 0 <= tick_count s < 2 ^ 64 - 1 → suspended x r l l0 →
  ∃ r' s' ps', user_resume_trap buffer_at status_at r p frame s ps = Some (r', s', ps') ∧ pages_same (all_pages X) (mem (pkern ps)) (mem (pkern ps')) ∧
    returned r' (mem (pkern ps)) (mem (pkern ps')) ∧ standing B l0 x p X s r' s' ps' ∧ (r = Yielded → r' = Reply 0).
Proof using All.
  intros Ha Hs Ht Hsu. destruct (resume_spec B l l0 x p X s ps r Ha Hs Ht Hsu) as (r' & s' & ps' & E & [[Hpx Hpw] Hst] & Hy).
  unfold user_resume_trap. rewrite E. cbn [mbind option_bind]. destruct (result_written B l0 x p X s r' s' ps' Hst) as [Hst' Hp3].
  eexists r', s', _. split; [reflexivity|]. split; [exact (pages_same_trans _ _ _ _ Hpx Hp3)|]. split; [|done].
  intros i Hi. pose proof (frame_word_kept (mem (pkern ps)) (mem (pkern ps')) i Hpw Hi) as Ew. by rewrite give_word, Ew by done.
Qed.

(** Any exception of a user program. *)
Lemma handle_trap_spec B l x p X s ps code :
  acting U O lo hi kr NK ps B l x p X → scheduled s ps B → current_process s = Some p → init_runs p ps → countable (pvfs ps) →
  0 <= tick_count s < 2 ^ 64 - 1 →
  Z.of_nat (length (fds x ++ fds x ++ l)) < 2 ^ 64 - 1 → Z.land (load64 (mem (pkern ps)) (frame + FRAME_SSTATUS)) SSTATUS_SPP = 0 →
  (code = EXCEPTION_USER_ECALL → frame_x (mem (pkern ps)) frame 17 ≠ SYS_EXEC) →
  ∃ r s' ps', handle code s ps = Some (Handled r, s', ps') ∧ pages_same (all_pages X) (mem (pkern ps)) (mem (pkern ps')) ∧
    continues r (mem (pkern ps)) (mem (pkern ps')) ∧ standing B l x p X s r s' ps' ∧
    (code ≠ EXCEPTION_USER_ECALL → r = Exited ∧ procs ps' !! p = Some (zombie (-1) code x)).
Proof using All.
  intros Ha Hs Hcur Hrun Hcnt Hticks Hlen Hspp Hexec. destruct (Z.eqb_spec code EXCEPTION_USER_ECALL) as [->|Hcode].
  - destruct (ecall_spec B l x p X s ps Ha Hs Hcur Hrun Hcnt Hticks Hlen Hspp (Hexec eq_refl)) as (r & s' & ps' & E & Hp & Hc & Hst).
    exists r, s', ps'. do 4 (split; [done|]). done.
  - destruct (exit_reply B l x p X s ps (-1) code Ha Hs Hrun) as (s' & ps' & E & [[Ho _] Hst] & Hz). exists Exited, s', ps'.
    split. { unfold user_handle_trap. rewrite Hcur, Hspp. cbn [Z.eqb negb]. rewrite (proj2 (Z.eqb_neq _ _) Hcode), E. done. }
    do 3 (split; [done|]). done.
Qed.
End Dispatch.
