(* ===== verification/TrapThms.v ===== *)
(** What the kernel does with any trap of a user program ([src/arch/riscv/trap.c]). *)
From S2P Require Import KList Log Heap HeapProps HeapThms HeapInstance Bench.
From S2P Require Import Prelude Machine Runtime PageAlloc Vm VmInv VmProps HeapSpec Ownership AddressSpace AddressSpaceInv AddressSpaceProps AddressSpaceClone AddressSpaceAreas AddressSpaceMaps AddressSpaceCopy AddressSpaceThms.
From Stdlib Require String.
Import String.StringSyntax.
From S2P Require Import Outcome Log Pipe Scheduler SchedulerProps SchedulerThms Vfs VfsInit VfsTree VfsInv VfsFiles VfsOpen VfsPipe VfsIo VfsThms Elf ElfInv ElfThms World Process Fd Wakes User FdProps FdCalls FdIo FdThms ProcessInv ProcessFork ProcessExec ProcessFamily ProcessThms FamilyThms UserInv UserThms Trap.

(** ** Causes *)

Lemma cause_code c : Z.land c (not64 SCAUSE_INTERRUPT) = c mod 2 ^ 63.
Proof. change (not64 SCAUSE_INTERRUPT) with (Z.ones 63). by rewrite Z.land_ones. Qed.

Lemma cause_interrupt c : 0 <= c < 2 ^ 64 → (Z.land c SCAUSE_INTERRUPT =? 0) = (c <? SCAUSE_INTERRUPT).
Proof.
  intros Hc. pose proof (land_field c 63 1 ltac:(lia) ltac:(lia)) as E. change (Z.shiftl (Z.ones 1) 63) with SCAUSE_INTERRUPT in E.
  rewrite E. destruct (Z.ltb_spec c SCAUSE_INTERRUPT).
  - by rewrite Z.div_small by lia.
  - assert (c / 2 ^ 63 = 1) as ->; [|done]. symmetry. apply (Z.div_unique _ _ _ (c - 2 ^ 63)); lia.
Qed.

Section Traps.
Context `{HeapContract} `{Backends} `{!QuietConsole}.

(** ** Messages do not touch memory *)

Lemma puts_ram s : ∀ m, same_ram m (console_puts s m).
Proof.
  induction s as [|c s IH]; intros m; [done|]. cbn. etransitivity; [apply putc_ram|apply IH].
Qed.

Lemma puthex_ram v m : same_ram m (console_puthex v m).
Proof.
  unfold console_puthex. etransitivity; [apply (puts_ram (chars "0x"))|].
  generalize (console_puts (chars "0x") m). generalize [60; 56; 52; 48; 44; 40; 36; 32; 28; 24; 20; 16; 12; 8; 4; 0].
  intros l. induction l as [|k l IH]; intros m'; [done|]. cbn [fold_left]. etransitivity; [apply putc_ram|apply IH].
Qed.

Lemma print_trap_ram kind frame m : same_ram m (print_trap kind frame m).
Proof.
  unfold print_trap. cbv zeta.
  repeat (etransitivity; [|first [apply putc_ram|apply puthex_ram|apply puts_ram]]). done.
Qed.

Context (U O : list Z) (lo hi kr : Z) (NK : gmap (list Z) Z) (W : Z → Prop).
Context (tr ue header_at program_at words_at path_at buffer_at pair_at entry_at child_frame status_at pointer_at exec_path_at frame : Z).
Context (Hset : setting U O lo hi NK W path_at buffer_at pair_at entry_at child_frame status_at frame).

(** ** The timer *)

Lemma tick_queues now m s ps m' s' ps' : scheduler_tick (H0 := process_system) now (m, s, ps) = Some (m', s', ps') → queues s' = queues s.
Proof.
  assert (∀ k l s0, queues (fold_left (λ s t, upd_threads (alter (wake_due (k s)) t) s) l s0) = queues s0) as Hsweep.
  { intros k l. induction l as [|t l IH]; intros s0; [done|]. cbn [fold_left]. by rewrite IH. }
  unfold scheduler_tick. set (s1 := fold_left _ _ _). set (s2 := if timer_running s1 then _ else s1). set (s3 := if bool_decide _ then _ else s2).
  destruct (scheduler_switch _) as [[b [[m1 s4] ps4]]|] eqn:E; [|done]. intros [= _ <- _]. apply (switch_queues (H := process_system)) in E. rewrite E.
  assert (queues s3 = queues s2) as -> by (unfold s3; by case_if). assert (queues s2 = queues s1) as -> by (unfold s2; by case_if).
  exact (Hsweep tick_count _ _).
Qed.

Lemma tick_step now s ps :
  sched_ok s →
  ∃ m s', scheduler_tick now (pkern ps, s, ps) = Some (m, s', ps) ∧ same_ram (pkern ps) m ∧ sched_ok s' ∧
    all_threads s' = all_threads s ∧ idle_thread s' = idle_thread s ∧ queues s' = queues s.
Proof.
  intros Hs. destruct (tick_prepared (H0 := process_system) now (pkern ps) s ps Hs) as (s1 & Hr & [W1 W2 W3] & _ & _ & _ & E).
  destruct (switch_ok (H0 := process_system) (pkern ps) s1 ps Hr) as (b & m & s' & Es & Hok & Ea & Ei).
  exists m, s'. split.
  { etransitivity; [exact E|]. exact (f_equal (λ r : option (bool * sys), match r with None => None | Some (_, w) => Some w end) Es). } split; [by eapply switch_ram|]. split; [done|]. split; [congruence|]. split; [congruence|].
  eapply (tick_queues now (pkern ps) s ps). etransitivity; [exact E|].
  exact (f_equal (λ r : option (bool * sys), match r with None => None | Some (_, w) => Some w end) Es).
Qed.

(** The kernel after the trap [o] of the process [p], that was [x]. *)
Definition attended (B : gset Z) (l : list Z) (x : process) (p : Z) (X : list member) (s : sched) (ps : processes)
    (o : trapped) (s' : sched) (ps' : processes) : Prop :=
  let scause := load64 (mem (pkern ps)) (frame + FRAME_SCAUSE) in
  match o with
  | Ticked => scause = SCAUSE_INTERRUPT + INTERRUPT_SUPERVISOR_TIMER ∧ mem (pkern ps') = mem (pkern ps) ∧
      acting U O lo hi kr NK ps' B l x p X ∧ orderly U s' ps' B
  | FromUser r => scause < SCAUSE_INTERRUPT ∧ continues frame r (mem (pkern ps)) (mem (pkern ps')) ∧
      standing U O lo hi kr NK frame B l x p X s r s' ps' ∧
      (scause ≠ EXCEPTION_USER_ECALL → r = Exited ∧ procs ps' !! p = Some (zombie (-1) scause x))
  | Halted => SCAUSE_INTERRUPT <= scause ∧ scause ≠ SCAUSE_INTERRUPT + INTERRUPT_SUPERVISOR_TIMER
  | Measured | FaultSeen | Expected => False
  end.

Abbreviation dispatch := (trap_dispatch tr ue header_at program_at words_at path_at buffer_at pair_at entry_at child_frame status_at pointer_at exec_path_at).

Lemma interrupt_spec ws we wsp now B l x p X t s ps :
  acting U O lo hi kr NK ps B l x p X → scheduled U s ps B → timer_running s = true →
  SCAUSE_INTERRUPT <= load64 (mem (pkern ps)) (frame + FRAME_SCAUSE) →
  ∃ o s' ps', dispatch ws we wsp now frame t s ps = Some (o, t, s', ps') ∧ pages_same (all_pages X) (mem (pkern ps)) (mem (pkern ps')) ∧
    attended B l x p X s ps o s' ps'.
Proof using All.
  intros Ha [Hs _] Ht Hc. unfold trap_dispatch, attended. cbv zeta. set (c := load64 _ (frame + FRAME_SCAUSE)) in *.
  assert (0 <= c < 2 ^ 64) as Hr by apply load64_range.
  rewrite cause_interrupt, cause_code by done. rewrite (proj2 (Z.ltb_ge _ _) Hc). cbn [negb].
  assert (c mod 2 ^ 63 = c - SCAUSE_INTERRUPT) as -> by (symmetry; apply (Z.mod_unique _ _ 1); lia).
  destruct (Z.eqb_spec (c - SCAUSE_INTERRUPT) INTERRUPT_SUPERVISOR_TIMER) as [He|He].
  - unfold handle_timer. unfold scheduler_timer_active. rewrite Ht. destruct (tick_step now s ps (od_ok _ _ _ _ Hs)) as (m & s' & E & Hram & Hok & Eall & Eid & Eq).
    exists Ticked, s', (set_pkern m ps).
    split; [exact (f_equal (mbind (λ '(m, s, ps), Some (Ticked, t, s, set_pkern m ps))) E)|].
    destruct (ram_step U O lo hi kr NK W path_at buffer_at pair_at entry_at child_frame status_at frame Hset ps B l x p X m Ha Hram) as [Ha' [Hp _]].
    split; [exact Hp|]. split; [lia|]. split; [apply Hram|]. split; [done|].
    apply (orderly_procs U s s' ps); try done. eapply coupled_same; [apply still_kern|exact Eq|apply Hs].
  - exists Halted, s, (trap_print (chars "unexpected interrupt") frame ps). split; [done|]. split; [|lia].
    destruct (print_trap_ram (chars "unexpected interrupt") frame (pkern ps)) as [Em _]. intros q Hq a _.
    by apply (f_equal (λ m, load8 m a)) in Em.
Qed.
End Traps.

Section Theorems.
Context `{HeapContract} `{Backends} `{!QuietConsole}.

(** C1. Whatever makes a running program trap, short of asking to be replaced by another,
    the kernel attends to it and stays in order: reference counts, families, page
    tables, memory, threads and the queues they wait in are what they have to be for the
    next trap, and no page of another process has changed.  A system call that is done
    leaves its result in [a0], the program at the next instruction and every other
    register as it was.  One that has to wait gives up the processor: its thread is in
    the queue of the pipe or of its own children, asleep until the next tick, or
    runnable, and in every queue of a pipe the scheduler has the threads the pipe has
    there.  When such a thread runs again, the rest of the call is done or waits again in
    the same way, and at its end the result is in [a0] and nothing else of the frame has
    changed.  A program that calls [exit] or faults never goes on, and a fault leaves its
    code for the parent.  A timer interrupt changes no memory.  Any other interrupt, which
    the kernel never enables, stops the machine.

    Assumed: the first process has not exited ([init_runs]), and the tick counter, 64
    bits wide, does not overflow. *)
Theorem trap_dispatch_correct (U O : list Z) (lo hi kr : Z) (NK : gmap (list Z) Z) (W : Z → Prop)
    (tr ue header_at program_at words_at path_at buffer_at pair_at entry_at child_frame status_at pointer_at exec_path_at ws we wsp now frame : Z)
    (B : gset Z) (l : list Z) (x : process) (p : Z) (X : list member) (t : trap_state) (s : sched) (ps : processes) :
  setting U O lo hi NK W path_at buffer_at pair_at entry_at child_frame status_at frame →
  acting U O lo hi kr NK ps B l x p X → scheduled U s ps B → current_process s = Some p → 0 <= tick_count s < 2 ^ 64 - 1 →
  (init_runs p ps → countable (pvfs ps) → Z.of_nat (length (fds x ++ fds x ++ l)) < 2 ^ 64 - 1 → timer_running s = true →
   Z.land (load64 (mem (pkern ps)) (frame + FRAME_SSTATUS)) SSTATUS_SPP = 0 →
   (load64 (mem (pkern ps)) (frame + FRAME_SCAUSE) = EXCEPTION_USER_ECALL → frame_x (mem (pkern ps)) frame 17 ≠ SYS_EXEC) →
   ∃ o s' ps', trap_dispatch tr ue header_at program_at words_at path_at buffer_at pair_at entry_at child_frame status_at pointer_at
       exec_path_at ws we wsp now frame t s ps = Some (o, t, s', ps') ∧
     pages_same (all_pages X) (mem (pkern ps)) (mem (pkern ps')) ∧
     attended U O lo hi kr NK frame B l x p X s ps o s' ps') ∧
  (∀ r l0, suspended x r l l0 →
   ∃ r' s' ps', user_resume_trap buffer_at status_at r p frame s ps = Some (r', s', ps') ∧
     pages_same (all_pages X) (mem (pkern ps)) (mem (pkern ps')) ∧
     returned frame r' (mem (pkern ps)) (mem (pkern ps')) ∧
     standing U O lo hi kr NK frame B l0 x p X s r' s' ps' ∧ (r = Yielded → r' = Reply 0)).
Proof.
  intros Hset Ha Hs Hcur Hticks. split; [|intros r l0 Hsu; by eapply resume_trap_spec].
  intros Hrun Hcnt Hlen Ht Hspp Hexec.
  destruct (Z.le_gt_cases SCAUSE_INTERRUPT (load64 (mem (pkern ps)) (frame + FRAME_SCAUSE))) as [Hc|Hc].
  { by eapply interrupt_spec. }
  destruct (handle_trap_spec U O lo hi kr NK W tr ue header_at program_at words_at path_at buffer_at pair_at entry_at child_frame status_at
    pointer_at exec_path_at frame Hset B l x p X s ps _ Ha Hs Hcur Hrun Hcnt Hticks Hlen Hspp Hexec) as (r & s' & ps' & E & Hp & Hco & Hst & Hf).
  exists (FromUser r), s', ps'. split; [|by split]. unfold trap_dispatch. cbv zeta.
  pose proof (load64_range (mem (pkern ps)) (frame + FRAME_SCAUSE)) as Hr. rewrite cause_interrupt, cause_code by exact Hr.
  rewrite (proj2 (Z.ltb_lt _ _) Hc). cbn [negb]. rewrite (Z.mod_small _ (2 ^ 63)) by (unfold in_u64 in Hr; lia).
  rewrite E. done.
Qed.
End Theorems.

(** * A program asks for memory *)

Module TrapDemo.
#[local] Existing Instance bench_heap.
#[local] Existing Instance bench_contract.
#[local] Existing Instance VfsDemo.quiet.
#[local] Existing Instance FdDemo.quiet_console.

Abbreviation kroot := AsDemo.kroot (only parsing).
Abbreviation low := ElfDemo.archive_at (only parsing).
Abbreviation high := (ElfDemo.archive_at + ElfDemo.archive_size) (only parsing).
Abbreviation NK0 := ({[ [] := kroot ]} : gmap (list Z) Z) (only parsing).
Abbreviation frame0 := ProcessDemo.trap_frame_at (only parsing).
Abbreviation first := ProcessDemo.parent (only parsing).

(** What stays: the frame and the kernel's page table. *)
Definition fixed (a : Z) : Prop := ProcessDemo.in_trap_frame a ∨ in_page kroot a.

Definition status_at : Z := 5300224.

Lemma kernel_pages (p : Z) : p ∈ map_vals NK0 → p = kroot.
Proof. rewrite map_vals_root. apply list_elem_of_singleton. Qed.

Lemma kroot_high a : in_page kroot a → 2 ^ 32 <= a.
Proof. unfold in_page. rewrite phys_to_virt_page by done. unfold AsDemo.kroot. lia. Qed.

Lemma fixed_apart a : 4194304 <= a < 4194592 ∨ 5242880 <= a < 2 ^ 32 → local ram [kroot] fixed a.
Proof.
  intros Ha. split; [apply VfsDemo.low_region; lia|]. intros [Hf|Hk%kroot_high]; [|lia].
  unfold ProcessDemo.in_trap_frame, ProcessDemo.trap_frame_at in Hf. lia.
Qed.

Lemma demo_setting : setting ram [kroot] low high NK0 fixed FdDemo.path_at FdDemo.buffer_at FdDemo.pair_at FdDemo.entry_at
  ProcessDemo.child_frame_at status_at frame0.
Proof.
  pose proof ElfDemo.archive_small as Hs. split.
  - exact FdDemo.span.
  - intros a [Ha|Ha]; [apply VfsDemo.low_region; unfold ProcessDemo.in_trap_frame, ProcessDemo.trap_frame_at in Ha; lia|].
    left. exists kroot. split; [by left|done].
  - intros i Hi. split; [left; unfold ProcessDemo.in_trap_frame; lia|]. intros p ->%kernel_pages Ha%kroot_high. unfold ProcessDemo.trap_frame_at in Ha. lia.
  - intros p ->%kernel_pages. by left.
  - intros p a ->%kernel_pages Ha. by right.
  - split; (split; [done|]).
    + intros i Hi. apply fixed_apart. unfold FdDemo.path_at. lia.
    + split; intros a Ha; [split|]; try apply fixed_apart; unfold FdDemo.buffer_at, ElfDemo.archive_at in *; lia.
    + intros i Hi. apply fixed_apart. unfold FdDemo.pair_at. lia.
    + intros i Hi. apply fixed_apart. unfold FdDemo.entry_at. lia.
  - split; [done|]. split; [done|]. intros i Hi. apply fixed_apart. unfold ProcessDemo.child_frame_at. lia.
  - split; [done|]. intros i Hi. apply fixed_apart. unfold status_at. lia.
Qed.

(** A thread of the process and the idle thread. *)
Definition user_thread0 (p : Z) : thread := mk_thread 0 0 (Some p) 0 THREAD_RUNNING 0 0 0 0 3 false.
Definition idle_thread0 : thread := mk_thread 0 0 None 0 THREAD_RUNNABLE 0 0 0 0 2 true.
Definition sched1 (p : Z) : sched :=
  mk_sched {[ 131072 := user_thread0 p; 262144 := idle_thread0 ]} [131072; 262144] ∅ 131072 262144 0 0 1 true (mk_page_table kroot) 0.

Lemma sched1_lookup p t th :
  threads (sched1 p) !! t = Some th ↔ (t = 131072 ∧ th = user_thread0 p) ∨ (t = 262144 ∧ th = idle_thread0).
Proof.
  cbn. rewrite lookup_insert. case_decide as Ht; [naive_solver|]. rewrite lookup_singleton. case_decide; naive_solver.
Qed.

Lemma sched1_ok p : sched_ok (sched1 p).
Proof.
  assert (∀ t, ¬ queued (queues (sched1 p)) t) as Hq by (intros t (q & l & Hq & _); cbn in Hq; by rewrite lookup_empty in Hq).
  split.
  - apply (bool_decide_unpack _). reflexivity.
  - intros t. split; [|intros [th Hth]].
    + intros [->|[->|[]%elem_of_nil]%elem_of_cons]%elem_of_cons; eexists; apply sched1_lookup; [left|right]; done.
    + apply sched1_lookup in Hth as [[-> _]|[-> _]]; cbn; set_solver.
  - cbn. set_solver.
  - cbn. set_solver.
  - cbn. set_solver.
  - intros t th [[-> ->]|[-> ->]]%sched1_lookup; done.
  - intros t th [[-> ->]|[-> ->]]%sched1_lookup; [done|by right].
  - intros t th [[-> ->]|[-> ->]]%sched1_lookup; done.
  - intros t th [[-> ->]|[-> ->]]%sched1_lookup; done.
  - split; intros q; [intros l|intros q' l l' t]; cbn; by rewrite lookup_empty.
  - intros t Ht. by destruct (Hq t).
  - intros t th Ht. split; [intros Hn; by destruct (Hq t)|]. apply sched1_lookup in Ht as [[-> ->]|[-> ->]]; intros [? _]; done.
Qed.

Lemma low_outside a : 65536 <= a < 2 ^ 32 → outside ram a.
Proof. intros Ha. destruct (VfsDemo.low_region [] a Ha) as [(q & Hq & _)|[Ho _]]; [by apply not_elem_of_nil in Hq|done]. Qed.

(** The system call [n], of the program stopped at 65540. *)
Definition frame_call (n a0 a1 a2 : Z) (m : memory) : memory :=
  let m := set_frame_x (set_frame_x (set_frame_x (set_frame_x m frame0 17 n) frame0 10 a0) frame0 11 a1) frame0 12 a2 in
  store64 (store64 (store64 m (frame0 + FRAME_SEPC) 65540) (frame0 + FRAME_SSTATUS) SSTATUS_SPIE) (frame0 + FRAME_SCAUSE) EXCEPTION_USER_ECALL.
Definition calling (n a0 a1 a2 : Z) (ps : processes) : processes := set_pmem (frame_call n a0 a1 a2 (mem (pkern ps))) ps.

(** [brk(0x801388)] *)
Definition ps2 : processes := calling SYS_BRK 8393608 0 0 ProcessDemo.ps1.

Lemma ps2_acting : acting ram [kroot] low high kroot NK0 ps2 {[first]} [] (pr ProcessDemo.ps1 first) first [].
Proof.
  unfold ps2, calling. apply (frame_step ram [kroot] low high kroot NK0 fixed FdDemo.path_at FdDemo.buffer_at FdDemo.pair_at FdDemo.entry_at
    ProcessDemo.child_frame_at status_at frame0 demo_setting [kroot]).
  - exact (st_kept _ _ _ _ _ _ _ _ _ _ _ _ _ demo_setting).
  - exact ProcessDemo.first_acting.
  - intros b Hb. unfold frame_call, set_frame_x. rewrite !load8_store64_out by lia. reflexivity.
Qed.

Definition trap0 : trap_state := mk_trap 0 0 0 0 0 false false false 0 0 0.

Abbreviation trap_in := (trap_dispatch 1 2 3 4 5 FdDemo.path_at FdDemo.buffer_at FdDemo.pair_at FdDemo.entry_at ProcessDemo.child_frame_at status_at
  6 7 8 9 10 11 frame0 trap0).
Abbreviation trap_of_first := (trap_in (sched1 first) ps2).

Example brk_result :
  match trap_of_first with
  | Some (FromUser (Reply r), _, _, ps) => (r, length (pages (p_as (pr ps first))))
  | _ => (0, 0%nat)
  end = (8393608, 2%nat).
Proof. vm_compute. reflexivity. Qed.

(** ** A program waits for a pipe *)

(** The program asks for memory and for a pipe, and reads from the pipe, which is empty:
    its thread is in the queue of the readers, and the idle thread runs. *)
Definition reading : option (trapped * trap_state * sched * processes) :=
  '(_, _, s, ps) ← trap_of_first;
  '(_, _, s, ps) ← trap_in s (calling SYS_PIPE 8388608 0 0 ps);
  trap_in s (calling SYS_READ 0 8388624 5 ps).

Example read_sleeps :
  match reading with
  | Some (FromUser (Transferring 0 g 0), _, s, ps) => (current s, queue_of s (pipe_readable (private (fl (pvfs ps) g))))
  | _ => (0, [])
  end = (262144, [131072]).
Proof. vm_compute. reflexivity. Qed.

(** The thread [t] is given the processor. *)
Definition run (t : Z) (s : sched) : sched := switched t (set_state (current s) THREAD_RUNNABLE s).

(** Meanwhile 3 bytes are written to the pipe, which wakes the reader, and it goes on: it
    has read them. *)
Example read_resumes :
  match ('(o, _, s, ps) ← reading;
         match o with
         | FromUser r =>
             '(_, v) ← file_write 262144 (nth 1 (fds (pr ps first)) 0) FdDemo.buffer_at 3
                         (set_kern (set_mem (put_bytes (mem (pkern ps)) FdDemo.buffer_at [7; 8; 9]) (pkern ps)) (pvfs ps));
             '(s, ps) ← settle_wakes s (set_pvfs v ps);
             '(r, s, ps) ← user_resume_trap FdDemo.buffer_at status_at r first frame0 (run 131072 s) ps;
             Some (current s, frame_x (mem (pkern ps)) frame0 10, r)
         | _ => None
         end) with
  | Some (t, a0, Reply r) => (t, a0, r)
  | _ => (0, 0, 0)
  end = (131072, 3, 3).
Proof. vm_compute. reflexivity. Qed.

Definition absent (ps : processes) (t : Z) : bool := match procs ps !! t with Some _ => false | None => true end.

Lemma absent_dom ps t : absent ps t = true → t ∉ dom (procs ps).
Proof. unfold absent. destruct (procs ps !! t) eqn:E; [done|]. intros _. by apply not_elem_of_dom. Qed.

Example no_thread_1 : absent ps2 131072 = true.
Proof. vm_compute. reflexivity. Qed.
Example no_thread_2 : absent ps2 262144 = true.
Proof. vm_compute. reflexivity. Qed.
Example no_init_process : init_process ps2 = 0.
Proof. vm_compute. reflexivity. Qed.

Lemma demo_coupled v : woken v = [] → map_to_list (pipes v) = [] → coupled (sched1 first) v.
Proof.
  intros Hw Hp%map_to_list_empty_iff. split; [done|]. intros a q _. unfold pipe_queue. rewrite Hp, lookup_empty. unfold queue_of. cbn. by rewrite lookup_empty.
Qed.

Lemma demo_scheduled ps :
  absent ps 131072 = true → absent ps 262144 = true → woken (pvfs ps) = [] → map_to_list (pipes (pvfs ps)) = [] → scheduled ram (sched1 first) ps {[first]}.
Proof.
  intros H1 H2 H3 H4. split; [|done]. split; [apply sched1_ok| |by apply demo_coupled].
  intros t [->|[->|[]%elem_of_nil]%elem_of_cons]%elem_of_cons; (split; [right; apply low_outside; lia|by apply absent_dom]).
Qed.

Example no_wakes : woken (pvfs ps2) = [].
Proof. vm_compute. reflexivity. Qed.
Example no_pipes : map_to_list (pipes (pvfs ps2)) = [].
Proof. vm_compute. reflexivity. Qed.

Lemma ps2_countable : countable (pvfs ps2).
Proof. apply FdDemo.countable_check. vm_compute. reflexivity. Qed.

Lemma no_init p ps : init_process ps = 0 → init_runs p ps.
Proof. intros E N. by rewrite E in N. Qed.

Lemma trap_dispatch_correct_witness :
  (∃ s' ps', trap_of_first = Some (FromUser (Reply 8393608), trap0, s', ps') ∧
    resumed frame0 (Some 8393608) (mem (pkern ps2)) (mem (pkern ps')) ∧ current s' = 131072) ∧
  ∃ s' ps', user_resume_trap FdDemo.buffer_at status_at Yielded first frame0 (sched1 first) ps2 = Some (Reply 0, s', ps') ∧
    returned frame0 (Reply 0) (mem (pkern ps2)) (mem (pkern ps')).
Proof.
  destruct (trap_dispatch_correct ram [kroot] low high kroot NK0 fixed 1 2 3 4 5 FdDemo.path_at FdDemo.buffer_at FdDemo.pair_at FdDemo.entry_at
    ProcessDemo.child_frame_at status_at 6 7 8 9 10 11 frame0 {[first]} [] (pr ProcessDemo.ps1 first) first [] trap0 (sched1 first) ps2
    demo_setting ps2_acting (demo_scheduled ps2 no_thread_1 no_thread_2 no_wakes no_pipes) eq_refl ltac:(done)) as [Htrap Hres]. split.
  - destruct (Htrap (no_init first ps2 no_init_process) ps2_countable ltac:(vm_compute; reflexivity)
      eq_refl ltac:(vm_compute; reflexivity) ltac:(intros _; vm_compute; discriminate)) as (o & s' & ps' & E & _ & Hat).
    pose proof brk_result as Hr. rewrite E in Hr. destruct o as [| |[z| | | | |]| | |]; try discriminate Hr. injection Hr as -> _.
    exists s', ps'. split; [exact E|]. destruct Hat as (_ & Hc & [Ec _] & _). split; [exact Hc|exact Ec].
  - destruct (Hres Yielded [] eq_refl) as (r' & s' & ps' & E & _ & Hb & _ & Hy). specialize (Hy eq_refl). subst r'. by exists s', ps'.
Defined.
End TrapDemo.
